(* ===== verification/_CoqProject ===== *)
-Q . S2P
Prelude.v
Memory.v
BootInfo.v
PageAllocator.v
Pmm.v
Heap.v
HeapGuard.v
Vmm.v
Scheduler.v
Spinlock.v
Process.v
Usermem.v
SelfTest.v
Elf.v
Loader.v
InitLoad.v
OreImage.v
Ports.v
Cstring.v
Abi.v
Serial.v
Block.v
Initramfs.v
Vfs.v
UserAlloc.v
Control.v
Descriptors.v
Smp.v
Syscall.v
Net.v
Okmod.v
Terrain.v
Acpi.v
Uefi.v
Console.v
Terminal.v
Keyboard.v
Shell.v
Dispatch.v
Entry.v
Programs.v
KernelOs.v
X86.v
OrecLex.v
OrecLayout.v
OrecGen.v
OrecInv.v
OrecExpr.v
OrecParse.v
Orec.v
OrecTotal.v
OrecHost.v
OrecLink.v
OrecModule.v
