(* ===== verification/Prelude.v ===== *)
(** * OreOS, verified

    OreOS is a small x86-64 operating system in C: a UEFI loader (boot/uefi/), a
    kernel (kernel/) and user programs (user/), among them a shell and a compiler
    for the OreLang language.  This library models the program's own logic as
    executable Rocq functions over explicit states and proves what makes it
    correct.

    ** The program

    The loader reads the kernel and the initial file system with the firmware,
    leaves the firmware and hands [BootInfo] (include/bootinfo.h) to the kernel.
    From its memory map pmm.c builds the bitmap of physical pages.  Every other
    component gets memory from it: heap.c keeps a list of blocks for kmalloc, vmm.c
    builds page tables, the program loaders of syscall.c and user.c fill address
    spaces, smp.c gives stacks to the other processors that acpi.c found.
    process.c keeps the table of processes and chooses the next one; syscall.c
    moves between processes on yield, wait, exit and timer ticks, checks user
    pointers, serves files from vfs.c, which reads a tar archive in memory
    (initramfs.c) and a disk (block.c), and passes text to console.c.  scheduler.c
    runs kernel threads; spinlock.c and the mutexes of scheduler.c protect shared
    state.  gdt.c, idt.c, cpu.c and lapic.c set up descriptor tables, interrupts and
    timers.  okmod.c loads kernel modules, net.c drives an NE2000 card, terrain.c
    renders a picture on all processors, serial.c and panic.c write the log.  The
    first program is the shell (user/init.c), which runs the small programs of user/
    and the compiler (user/orec.c); the compiler is also built for the host, where
    it makes the kernel modules of the disk.

    ** Files

    - [Prelude]: words ([u8] ... [u64], [s32], [s64]) with their wrap-around,
      arithmetic tactics, list lemmas, and the outcome of an operation: [Ok],
      [Panic] (the kernel stopped in [panic]) and the [eff] monad over it.
    - [Memory]: physical memory as a finite map of bytes, little-endian loads and
      stores, regions and what a store leaves alone.
    - [BootInfo]: include/bootinfo.h.
    - [PageAllocator]: the class that pmm.c promises to its clients.  Heap, page
      tables, loaders and calls are proved against the class; [Pmm] discharges it.
      It also holds what want of memory means: [takes], [no_run], [out_of_pages].
    - [Pmm] (kernel/pmm.c), [Heap] (kernel/heap.c) with [HeapGuard] (what the heap's
      clients may rely on next to pages in use elsewhere), [Vmm] (kernel/vmm.c),
      [Scheduler] (kernel/scheduler.c), [Spinlock] (kernel/spinlock.c and the
      mutexes), [Process] (kernel/process.c), [Elf] (kernel/elf.c).
    - [SelfTest]: kernel/memory_test.c and the test at the end of kernel/vmm.c.
    - kernel/syscall.c is divided by what its parts do: [Usermem] (user pointers
      and copies), [Loader] and [OreImage] (the two executable formats; with the
      loading part of kernel/user.c, proved in [InitLoad]), [UserAlloc] (pages for programs), [Control]
      (yield, wait, exit, tick), [Syscall] (files, arguments, spawn, exec), and
      [Dispatch], which is [syscall_dispatch] on the state of the whole system.
      [Abi] holds the numbers of the calls (include/ore_abi.h).
    - [Ports]: the I/O ports, a class: the devices are hardware.  [Block]
      (kernel/block.c), [Net] (kernel/net.c) and [Serial] (kernel/serial.c,
      kernel/panic.c) are functions on device states.
    - [Cstring], [Initramfs] (kernel/initramfs.c), [Vfs] (kernel/vfs.c).
    - [Okmod] (kernel/okmod.c): the code of a module is a parameter.
    - [Console], [Terminal] and [Keyboard] (kernel/console.c): the screen, the
      abstract terminal that it shows, and the scan-code decoder.
    - [Terrain] (kernel/terrain.c), [Acpi] (kernel/acpi.c), [Descriptors]
      (kernel/gdt.c, idt.c, cpu.c, and the timer interrupt), [Smp] (kernel/smp.c,
      lapic.c; the controllers are a class of memory-mapped registers).
    - [Entry] (kernel/main.c and [user_init_spawn] of kernel/user.c): the start of the
      kernel on the state of the whole system.
    - [Uefi] (boot/uefi/loader.c): the firmware is a record of functions.
    - [Shell] (user/init.c) and [Programs] (cat, ls, stat, echo, count, hello): the
      calls are a class [Os] with the laws [OsOk].  [KernelOs] is the instance that
      goes through the dispatcher of the kernel, with the proof of the laws.
    - The compiler (user/orec.c): [OrecLex] (characters, names, types, the tables of
      structures and functions), [OrecLayout] (structures), [OrecGen] (the emitters
      and the one-pass compilers of expressions, statements and functions), [OrecInv]
      (the invariant of its state), [OrecExpr] and [OrecParse] (the expression grammar
      and its compilation), [Orec] (images, imports, the command), [OrecTotal]
      (termination), [OrecHost] (the build for the host), [OrecLink] (from a source to
      a loaded program) and [OrecModule] (from a source to a loaded kernel module).
      [X86] is the semantics of the instructions that the emitters use.

    ** What the theorems show

    - Memory: no page is handed out twice in any history of allocations and
      frees, allocation is first fit, freeing undoes it, initialisation protects
      the kernel, the boot data and the bitmap itself.  The heap refines a set of
      disjoint live regions.
    - Page tables: the tables in memory refine a map from virtual addresses to
      physical ones; mapping, unmapping and protecting change exactly their range
      in exactly one address space, and a fresh address space shares only the
      kernel's half.
    - Start: the tests of the kernel on itself fail only for want of memory, and the start establishes
      the invariants of heap and page tables that the other theorems assume; the
      loader enters the kernel only with the memory map that the firmware accepted;
      other processors that answer in time start each on a stack of its own; every
      gate leads to its handler.
    - Processes: the choice of the next process is the first ready one in cyclic
      order; switching saves and restores whole frames; the life cycle of a
      process is an invariant of every sequence of calls and ticks, exit is
      final, a waiting parent is resumed by its child's exit.
    - User memory: a copy succeeds exactly on ranges the process may access, and
      then moves exactly those bytes; a string is copied up to its terminator.  A call
      that only asks the kernel something changes at most the memory of its program.
    - Programs: the ELF parser returns the loadable segments in file order and
      reads only inside the image; both loaders and the one of the first program
      produce the memory image that the file describes.  The small programs do what
      they say, first on any system with the laws of [OsOk] and then on the kernel.
    - Threads: as long as only running threads sleep, block and exit, the run queues
      hold each runnable thread exactly once; ticks are round robin, and on CPU 0 the
      wait for a turn, counted in calls of [scheduler_tick], is bounded.  Locks exclude
      each other under any interleaving, so messages of [kprintf] stay whole among
      themselves.
    - Files and devices: sector reads, archive lookups, file reads and directory
      listings agree with the bytes of the disk and the archive; a frame
      received from the network is the frame the card stored; the processors of
      the firmware's tables are the ones that are used.
    - Screen and keyboard: console and escape sequences refine an abstract terminal,
      never write outside the framebuffer, keys decode under the shift state, and a
      parallel picture is the sequential one when no processor is late.
    - The compiler: it ends on every input; structures whose sizes fit in 32 bits are
      laid out like C structures; the code of an expression (without calls, strings and
      the size operators) computes its value on the instruction semantics; what it builds
      is accepted by the kernel's loaders with every recorded call and data reference
      resolved; the host build makes the same images of the same files.

    An operation that can fail for want of memory has a bound in its theorem: it fails
    only if fewer than so many pages are free ([out_of_pages]), or if there is no free
    run of the pages it asks for, perhaps after so many more pages are in use ([no_run]).
    The bound is computed from the arguments (four pages, the page itself and three
    tables, for each page of a program; [range_tables] for a mapping; [boot_pages] for
    the start); [Pmm.pmm_enough] refutes it on a concrete memory, and the witnesses show
    the success.

    Theorems without a claim that record a defect, or show that a condition of a
    theorem is needed, stand next to the component they are about (for instance
    [Heap.kmalloc_size_wraps], [Scheduler.returned_sleeper_queued],
    [Terrain.late_worker], [Smp.late_processor_takes_next_stack],
    [Serial.user_write_splits_message], [OrecLayout.large_array_overlaps],
    [OrecLink.late_call_dropped] or [Syscall.stat_leaks_stack]).

    ** Choices

    - A word is a [Z] and every C conversion that can lose bits is written out.
      Pointers are addresses; a [Process *] or [Thread *] is a table index.
    - Loops over an array or a counter are structural recursions whose fuel is
      the bound that the C loop tests, so no result depends on it.  Other loops have
      a fuel argument, and theorems give a fuel that suffices: the number of blocks of
      the heap, of threads of a queue ([SCHED_FUEL]), of 512-byte records of the
      archive, the length of a file for the loop of cat, 32 times the length of the
      source for the compiler ([source_fuel], [compile_command_total]).  Where calls
      are composed the statements say that some fuel suffices and that more changes
      nothing ([SelfTest.ends], "exists F").  Waits for a device take the number of
      polls from the class that describes the device.
    - The kernel identity-maps physical memory, so a kernel pointer is a physical
      address.  A store by the kernel through a user mapping succeeds whenever the
      page is present: no C code sets the write protection of CR0, and the model
      takes it to be off.
    - Uninitialised stack bytes that reach a user program are an argument of the
      handler, so that the theorems hold for all of them.
    - Locks of sequential components are the identity; [Spinlock], [Serial] and
      [Terrain] treat them with interleavings.  Memory order is sequential
      consistency.
    - Devices, firmware and file calls of a build are described by classes or named
      hypotheses ([Block.fwcfg_ok], [Net.ne2000_ok], [Smp.Lapic], [OrecHost.FileCalls])
      that hold for a concrete device, shown by the witnesses.  The network card gives
      data only after a remote-read command and within its byte count; it does not
      receive while a frame is being copied out.  [FileCalls] takes reads not to fail;
      reads of the kernel's disk can, for want of memory.
    - The bitmap of pmm.c is an array of its own, not bytes of the physical memory.  The
      number of the processor in [isr_dispatch] is an argument, the answer of
      [current_cpu_id].  A processor answers its start-up within the wait or not at all.
    - A name of the archive ends at its terminator or at the end of the archive.

    ** Not modelled

    The assembly (entry stubs, context switch, ring changes) is represented by its
    effect where C code depends on it: the frame that a switch restores, the
    configuration that a starting processor reads.  Busy waits, barriers, the flush of
    translations and the exception of a test build have no effect on the modelled
    state.  The log of the kernel is modelled in [Serial]; elsewhere, and in the
    loader and the compiler, messages are left out.  The structures of boot/uefi/uefi.h
    are the firmware's.  Python tools build the disk image on the host. *)
From stdpp Require Import base numbers list gmap strings.
From Stdlib Require Import ZArith Lia.
#[global] Open Scope Z_scope.

(** ** Machine words

    The kernel computes in [uint8_t], [uint16_t], [uint32_t] and [uint64_t].
    A word is a [Z]; the functions below are the conversions the C code
    performs (explicitly by a cast, implicitly by an assignment), so wrap-around
    is visible in every definition that can overflow. *)

Declare Scope word_scope.
Delimit Scope word_scope with word.

Definition u8 (x : Z) : Z := x mod 256.
Definition u16 (x : Z) : Z := x mod 65536.
Definition u32 (x : Z) : Z := x mod 4294967296.
Definition u64 (x : Z) : Z := x mod 18446744073709551616.

(** Two's complement reading of a 32-bit and a 64-bit word. *)
Definition s32 (x : Z) : Z :=
  if u32 x <? 2147483648 then u32 x else u32 x - 4294967296.
Definition s64 (x : Z) : Z :=
  if u64 x <? 9223372036854775808 then u64 x else u64 x - 18446744073709551616.

(** [~x] on a 64-bit word. *)
Definition not64 (x : Z) : Z := Z.lxor (u64 x) 18446744073709551615.

Notation "x +u y" := (u64 (x + y)) (at level 50, left associativity) : word_scope.
Notation "x -u y" := (u64 (x - y)) (at level 50, left associativity) : word_scope.
Notation "x *u y" := (u64 (x * y)) (at level 40, left associativity) : word_scope.
#[global] Open Scope word_scope.

Definition word64 (x : Z) : Prop := 0 <= x < 18446744073709551616.
Definition word32 (x : Z) : Prop := 0 <= x < 4294967296.
Definition byte_ok (x : Z) : Prop := 0 <= x < 256.

#[global] Instance word64_dec x : Decision (word64 x).
Proof. unfold word64. apply _. Defined.
#[global] Instance word32_dec x : Decision (word32 x).
Proof. unfold word32. apply _. Defined.

(** ** Automation *)

Create HintDb words.
Create Rewrite HintDb words.

(** Linear arithmetic with division and remainder by constants. *)
Ltac zlia := Z.to_euclidean_division_equations; lia.

(** Unfold the word conversions, then solve. *)
Ltac word_unfold :=
  unfold u8, u16, u32, u64, word64, word32, byte_ok in *.
Ltac word_lia := word_unfold; zlia.

(** Turn boolean comparisons of hypotheses and goal into propositions. *)
Ltac bool_to_prop :=
  repeat match goal with
  | H : (_ =? _) = true |- _ => apply Z.eqb_eq in H
  | H : (_ =? _) = false |- _ => apply Z.eqb_neq in H
  | H : (_ <? _) = true |- _ => apply Z.ltb_lt in H
  | H : (_ <? _) = false |- _ => apply Z.ltb_ge in H
  | H : (_ <=? _) = true |- _ => apply Z.leb_le in H
  | H : (_ <=? _) = false |- _ => apply Z.leb_gt in H
  | H : (_ && _)%bool = true |- _ => apply andb_true_iff in H; destruct H
  | H : (_ || _)%bool = false |- _ => apply orb_false_iff in H; destruct H
  | H : negb _ = true |- _ => apply negb_true_iff in H
  | H : negb _ = false |- _ => apply negb_false_iff in H
  | |- (_ =? _) = true => apply Z.eqb_eq
  | |- (_ =? _) = false => apply Z.eqb_neq
  | |- (_ <? _) = true => apply Z.ltb_lt
  | |- (_ <? _) = false => apply Z.ltb_ge
  | |- (_ <=? _) = true => apply Z.leb_le
  | |- (_ <=? _) = false => apply Z.leb_gt
  | |- (_ && _)%bool = true => apply andb_true_iff; split
  end.

(** Case analysis on the innermost boolean test or match of the goal. *)
Ltac case_test :=
  match goal with
  | |- context [if ?b then _ else _] =>
      lazymatch b with
      | context [if _ then _ else _] => fail
      | _ => let E := fresh "E" in destruct b eqn:E
      end
  end.

(** Split every integer comparison of the goal; contradictory branches and
    branches closed by the hypotheses are discharged. *)
Ltac cmp_cases :=
  repeat match goal with
  | |- context [?a <=? ?b] => destruct (Z.leb_spec a b); cbn [andb orb negb]; try lia
  | |- context [?a <? ?b] => destruct (Z.ltb_spec a b); cbn [andb orb negb]; try lia
  | |- context [?a =? ?b] => destruct (Z.eqb_spec a b); cbn [andb orb negb]; try lia
  end; try done.

(** ** Words: bounds and identities *)

Lemma u64_bound x : word64 (u64 x).
Proof. word_lia. Qed.
Lemma u32_word64 x : word64 (u32 x).
Proof. unfold word64, u32. pose proof (Z.mod_pos_bound x 4294967296). lia. Qed.
Lemma u32_bound x : word32 (u32 x).
Proof. word_lia. Qed.
Lemma u8_bound x : byte_ok (u8 x).
Proof. word_lia. Qed.
Lemma u64_small x : word64 x -> u64 x = x.
Proof. intros; apply Z.mod_small; assumption. Qed.
Lemma u32_small x : word32 x -> u32 x = x.
Proof. intros; apply Z.mod_small; assumption. Qed.
Lemma u8_small x : byte_ok x -> u8 x = x.
Proof. intros; apply Z.mod_small; assumption. Qed.
Lemma u64_idemp x : u64 (u64 x) = u64 x.
Proof. apply u64_small, u64_bound. Qed.

#[export] Hint Resolve u64_bound u32_bound u8_bound : words.
#[export] Hint Rewrite u64_idemp : words.

(** ** Masks

    [x & ~(2^k - 1)] clears the [k] low bits. *)

Lemma not64_testbit x i :
  0 <= i < 64 -> Z.testbit (not64 x) i = negb (Z.testbit x i).
Proof.
  intros Hi. unfold not64.
  change 18446744073709551615 with (Z.ones 64).
  unfold u64. change 18446744073709551616 with (2 ^ 64).
  rewrite Z.lxor_spec, Z.ones_spec_low, Z.mod_pow2_bits_low by lia.
  apply xorb_true_r.
Qed.

Lemma testbit_above n x i :
  0 <= x < 2 ^ n -> 0 <= n <= i -> Z.testbit x i = false.
Proof.
  intros Hx Hi. rewrite <- (Z.mod_small x (2 ^ n)) by assumption.
  apply Z.mod_pow2_bits_high. lia.
Qed.

Lemma land_not64_ones x k :
  word64 x -> 0 <= k <= 64 ->
  Z.land x (not64 (2 ^ k - 1)) = x / 2 ^ k * 2 ^ k.
Proof.
  intros Hx Hk.
  replace (2 ^ k - 1) with (Z.ones k) by (rewrite Z.ones_equiv; lia).
  rewrite <- Z.shiftr_div_pow2, <- Z.shiftl_mul_pow2 by lia.
  apply Z.bits_inj'. intros i Hi.
  rewrite Z.land_spec, Z.shiftl_spec by lia.
  destruct (Z.ltb_spec i 64) as [Hlt|Hge].
  - rewrite not64_testbit by lia.
    destruct (Z.ltb_spec i k).
    + rewrite Z.ones_spec_low by lia. rewrite (Z.testbit_neg_r _ (i - k)) by lia.
      apply andb_false_r.
    + rewrite Z.ones_spec_high, Z.shiftr_spec by lia.
      replace (i - k + k) with i by lia. apply andb_true_r.
  - rewrite (testbit_above 64 x i) by (unfold word64 in Hx; lia).
    rewrite Z.shiftr_spec by lia. replace (i - k + k) with i by lia.
    symmetry. apply (testbit_above 64); unfold word64 in Hx; lia.
Qed.

Lemma word64_land_l a b : 0 <= a -> word64 b -> word64 (Z.land a b).
Proof.
  intros Ha [Hb1 Hb2]. split; [apply Z.land_nonneg; by left|].
  change 18446744073709551616 with (2 ^ 64) in *. apply Z.lt_nge. intros Hc.
  assert (0 <= Z.land a b) by (apply Z.land_nonneg; by left).
  assert (Z.land a b mod 2 ^ 64 = Z.land a b) as E; [|pose proof (Z.mod_pos_bound (Z.land a b) (2 ^ 64)); lia].
  apply Z.bits_inj'. intros i Hi. destruct (Z.ltb_spec i 64).
  - by rewrite Z.mod_pow2_bits_low.
  - rewrite Z.mod_pow2_bits_high, Z.land_spec, (testbit_above 64 b) by lia. by rewrite andb_false_r.
Qed.

Lemma word64_lor a b : word64 a -> word64 b -> word64 (Z.lor a b).
Proof.
  intros [Ha1 Ha2] [Hb1 Hb2]. split; [by apply Z.lor_nonneg|].
  change 18446744073709551616 with (2 ^ 64) in *.
  destruct (Z.eq_dec (Z.lor a b) 0) as [->|Hn]; [lia|].
  assert (0 <= Z.lor a b) by (by apply Z.lor_nonneg).
  apply Z.log2_lt_pow2; [lia|]. rewrite Z.log2_lor by lia.
  destruct (Z.eq_dec a 0) as [->|], (Z.eq_dec b 0) as [->|]; cbn [Z.log2 Z.max];
    try (apply Z.max_lub_lt); try apply Z.log2_lt_pow2; try lia.
  all: rewrite ?Z.max_r, ?Z.max_l by apply Z.log2_nonneg; try apply Z.log2_lt_pow2; lia.
Qed.

(** The alignment helpers that pmm.c, heap.c, vmm.c, syscall.c and user.c each
    define for themselves. *)
Definition align_up (value align : Z) : Z :=
  Z.land (value +u align -u 1) (not64 (align - 1)).
Definition align_down (value align : Z) : Z :=
  Z.land value (not64 (align - 1)).

Lemma align_down_pow2 v k : word64 v -> 0 <= k <= 64 -> align_down v (2 ^ k) = v / 2 ^ k * 2 ^ k.
Proof. intros Hv Hk. by apply land_not64_ones. Qed.

Lemma align_up_pow2 v k :
  0 <= v -> 0 <= k < 64 -> v + 2 ^ k <= 18446744073709551616 ->
  align_up v (2 ^ k) = (v + (2 ^ k - 1)) / 2 ^ k * 2 ^ k.
Proof.
  intros Hv Hk Hb. assert (0 < 2 ^ k) by (apply Z.pow_pos_nonneg; lia).
  unfold align_up. replace (v +u 2 ^ k -u 1) with (v + (2 ^ k - 1)).
  { apply land_not64_ones; unfold word64; lia. }
  unfold u64. rewrite Zminus_mod_idemp_l.
  rewrite Z.mod_small; lia.
Qed.

(** [x & mask != 0] for a one-bit mask is a bit test. *)
Lemma land_bit x k :
  0 <= k -> (Z.land x (Z.shiftl 1 k) =? 0) = negb (Z.testbit x k).
Proof.
  intros Hk. destruct (Z.testbit x k) eqn:E.
  - apply Z.eqb_neq. intros Hz.
    assert (Z.testbit (Z.land x (Z.shiftl 1 k)) k = true) as H.
    { rewrite Z.land_spec, E, Z.shiftl_spec by lia.
      replace (k - k) with 0 by lia. reflexivity. }
    rewrite Hz, Z.bits_0 in H. discriminate.
  - apply Z.eqb_eq. apply Z.bits_inj'. intros i Hi.
    rewrite Z.land_spec, Z.bits_0, Z.shiftl_spec by lia.
    destruct (Z.eq_dec i k) as [->|Hne]; [by rewrite E|].
    replace (Z.testbit 1 (i - k)) with false; [apply andb_false_r|].
    symmetry. destruct (Z.ltb_spec (i - k) 0); [by apply Z.testbit_neg_r|].
    apply (testbit_above 1); lia.
Qed.

(** ** Counted loops

    [for_loop n i f s] runs the body [f] for the [n] values
    [i, i+1, ..., i+n-1] of a C counter, threading the state. *)

Fixpoint for_loop {S : Type} (n : nat) (i : Z) (f : Z -> S -> S) (s : S) : S :=
  match n with
  | O => s
  | Datatypes.S n' => for_loop n' (i + 1) f (f i s)
  end.

Lemma for_loop_inv {S : Type} (P : Z -> S -> Prop) (f : Z -> S -> S) n i s :
  P i s ->
  (forall j s', i <= j < i + Z.of_nat n -> P j s' -> P (j + 1) (f j s')) ->
  P (i + Z.of_nat n) (for_loop n i f s).
Proof.
  revert i s. induction n as [|n IH]; intros i s H0 Hstep; cbn [for_loop].
  - by replace (i + Z.of_nat 0) with i by lia.
  - replace (i + Z.of_nat (Datatypes.S n)) with (i + 1 + Z.of_nat n) by lia.
    apply IH; [apply Hstep; [lia|done]|].
    intros j s' Hj. apply Hstep. lia.
Qed.

(** A projection the body leaves alone is left alone by the loop. *)
Lemma for_loop_proj {S A : Type} (g : S -> A) (f : Z -> S -> S) n i s :
  (forall j s', g (f j s') = g s') -> g (for_loop n i f s) = g s.
Proof.
  intros Hf. revert i s. induction n as [|n IH]; intros i s; cbn [for_loop]; [done|].
  by rewrite IH, Hf.
Qed.

Lemma triple_eta {A B C : Type} (x : A * B * C) : x = (x.1.1, x.1.2, x.2).
Proof. by destruct x as [[]]. Qed.

(** ** Lists *)

(** Index of the elements of [l1 ++ l2] in [l1 ++ x :: l2]. *)
Definition skip_index (n k : nat) : nat := if decide (k < n)%nat then k else S k.

Lemma lookup_skip {A} (l1 l2 : list A) (x : A) (k : nat) :
  (l1 ++ l2) !! k = (l1 ++ x :: l2) !! skip_index (length l1) k.
Proof.
  unfold skip_index. case_decide.
  - by rewrite !lookup_app_l by lia.
  - rewrite !lookup_app_r by lia.
    by replace (S k - length l1)%nat with (S (k - length l1)) by lia.
Qed.

Lemma skip_index_ne n k : skip_index n k <> n.
Proof. unfold skip_index. case_decide; lia. Qed.

Lemma skip_index_inj n i j : skip_index n i = skip_index n j -> i = j.
Proof. unfold skip_index. repeat case_decide; lia. Qed.

Lemma exists_last_or_nil {A} (l : list A) : l = [] \/ exists l' x, l = l' ++ [x].
Proof. destruct l as [|x l' _] using rev_ind; [by left|]. right. by exists l', x. Qed.

Lemma NoDup_snoc {A} (l : list A) (x : A) : x ∉ l -> NoDup l -> NoDup (l ++ [x]).
Proof.
  intros Hx Hl. apply NoDup_app. split_and!; [done| |apply NoDup_singleton].
  intros y Hy ->%list_elem_of_singleton. done.
Qed.

(** Induction for functions that look at two elements. *)
Lemma list_pair_ind {A} (P : list A -> Prop) :
  P [] -> (forall x, P [x]) -> (forall x y l, P l -> P (y :: l) -> P (x :: y :: l)) ->
  forall l, P l.
Proof.
  intros H0 H1 H2 l. enough (P l /\ forall x, P (x :: l)) by tauto.
  induction l as [|y l [IH1 IH2]]; auto.
Qed.

(** ** Outcomes

    A kernel function either returns or calls [panic], which never returns. *)
Inductive outcome (A : Type) : Type :=
| Ok (a : A)
| Panic (msg : string).
Arguments Ok {A} a.
Arguments Panic {A} msg.

Definition outcome_bind {A B} (x : outcome A) (f : A -> outcome B) : outcome B :=
  match x with
  | Ok a => f a
  | Panic msg => Panic msg
  end.

Declare Scope outcome_scope.
Delimit Scope outcome_scope with outcome.
Notation "'let?' p ':=' c 'in' k" := (outcome_bind c (fun p => k))
  (at level 10, p pattern, c at level 100, k at level 200,
   format "'[v' 'let?'  p  ':='  c  'in' '/' k ']'") : outcome_scope.
#[global] Open Scope outcome_scope.

(** Functions that walk linked data take fuel; [None] is out of fuel. *)
Definition eff (A : Type) : Type := option (outcome A).
Definition ret {A} (a : A) : eff A := Some (Ok a).
Definition eff_bind {A B} (x : eff A) (f : A -> eff B) : eff B :=
  match x with
  | Some (Ok a) => f a
  | Some (Panic msg) => Some (Panic msg)
  | None => None
  end.
Notation "'let!' p ':=' c 'in' k" := (eff_bind c (fun p => k))
  (at level 10, p pattern, c at level 100, k at level 200,
   format "'[v' 'let!'  p  ':='  c  'in' '/' k ']'") : outcome_scope.
