(* ===== verification/Memory.v ===== *)
(** Byte-addressed memory.

    [mem] is the contents of physical memory, a finite map from addresses to
    bytes that reads as zero where nothing was stored.  The little-endian
    accessors [load32], [load64], [store32] and [store64] are the dereferences
    of [uint32_t *] and [uint64_t *] pointers; [mem_zero] and [mem_copy] are
    the byte loops that every kernel file repeats under a local name
    ([mem_zero] in pmm.c and heap.c, [mem_zero_local] in vmm.c and process.c,
    [mem_copy_local] in vfs.c and process.c, [mem_zero_okmod] and
    [mem_copy_okmod] in okmod.c).  Two memories that read the same are
    related by [mem_equiv], an equivalence the loads respect. *)
From stdpp Require Import base numbers list gmap.
From Stdlib Require Import ZArith Lia Morphisms.
From S2P Require Import Prelude.

Abbreviation mem := (gmap Z Z).

(** ** Accessors *)

Definition load8 (m : mem) (a : Z) : Z := default 0 (m !! a).
Definition store8 (m : mem) (a v : Z) : mem := <[a := u8 v]> m.

(** Little-endian load of [n] bytes. *)
Fixpoint load_le (n : nat) (m : mem) (a : Z) : Z :=
  match n with
  | O => 0
  | S n' => load8 m a + 256 * load_le n' m (a + 1)
  end.

(** Little-endian store of [n] bytes. *)
Fixpoint store_le (n : nat) (m : mem) (a v : Z) : mem :=
  match n with
  | O => m
  | S n' => store_le n' (store8 m a v) (a + 1) (v / 256)
  end.

Definition load16 := load_le 2.
Definition load32 := load_le 4.
Definition load64 := load_le 8.
Definition store32 := store_le 4.
Definition store64 := store_le 8.

Definition mem_zero (p size : Z) (m : mem) : mem :=
  for_loop (Z.to_nat size) 0 (fun i m => store8 m (p + i) 0) m.

Definition mem_copy (dst src size : Z) (m : mem) : mem :=
  for_loop (Z.to_nat size) 0 (fun i m => store8 m (dst + i) (load8 m (src + i))) m.

(** Bytes of a buffer, and a buffer written to memory. *)
Definition load_bytes (m : mem) (a n : Z) : list Z :=
  map (fun i => load8 m (a + Z.of_nat i)) (seq 0 (Z.to_nat n)).

Fixpoint store_bytes (m : mem) (a : Z) (bs : list Z) : mem :=
  match bs with
  | [] => m
  | b :: bs' => store_bytes (store8 m a b) (a + 1) bs'
  end.

(** ** Agreement *)

Definition mem_equiv (m1 m2 : mem) : Prop := forall a, load8 m1 a = load8 m2 a.

#[export] Instance mem_equiv_equivalence : Equivalence mem_equiv.
Proof.
  split.
  - intros m a. done.
  - intros m1 m2 H a. by rewrite H.
  - intros m1 m2 m3 H1 H2 a. by rewrite H1.
Qed.

#[export] Instance load8_proper : Proper (mem_equiv ==> eq ==> eq) load8.
Proof. intros m1 m2 Hm a ? <-. apply Hm. Qed.

(** The two memories read the same on [[a, a + n)]. *)
Definition agree (m1 m2 : mem) (a n : Z) : Prop :=
  forall x, a <= x < a + n -> load8 m1 x = load8 m2 x.

(** Every byte of the memory is a byte. *)
Definition mem_ok (m : mem) : Prop := forall a, byte_ok (load8 m a).

(** ** Loads and stores *)

Create HintDb mem.
Create Rewrite HintDb mem.

Lemma load8_store8 m a v x :
  load8 (store8 m a v) x = if x =? a then u8 v else load8 m x.
Proof.
  unfold load8, store8. destruct (Z.eqb_spec x a) as [->|Hne].
  - by rewrite lookup_insert_eq.
  - by rewrite lookup_insert_ne by congruence.
Qed.

#[export] Instance store8_proper : Proper (mem_equiv ==> eq ==> eq ==> mem_equiv) store8.
Proof.
  intros m1 m2 Hm a ? <- v ? <- x. rewrite !load8_store8. by rewrite (Hm x).
Qed.

#[export] Instance load_le_proper n : Proper (mem_equiv ==> eq ==> eq) (load_le n).
Proof.
  intros m1 m2 Hm a ? <-. revert a. induction n as [|n IH]; intros a; cbn; [done|].
  by rewrite (Hm a), IH.
Qed.

Lemma store8_ok m a v : mem_ok m -> mem_ok (store8 m a v).
Proof.
  intros Hm x. rewrite load8_store8. case_test; [apply u8_bound | apply Hm].
Qed.

Lemma load8_store_le n m a v x :
  load8 (store_le n m a v) x =
  if (a <=? x) && (x <? a + Z.of_nat n) then u8 (v / 256 ^ (x - a)) else load8 m x.
Proof.
  revert m a v. induction n as [|n IH]; intros m a v; cbn [store_le].
  - cmp_cases.
  - rewrite IH, load8_store8. cmp_cases.
    + replace (x - a) with (1 + (x - (a + 1))) by lia.
      by rewrite Z.pow_add_r, Z.div_div by lia.
    + subst x. replace (a - a) with 0 by lia. by rewrite Z.div_1_r.
Qed.

Lemma store_le_ok n m a v : mem_ok m -> mem_ok (store_le n m a v).
Proof.
  revert m a v. induction n; intros; cbn; [done|]. auto using store8_ok.
Qed.

Lemma load_le_agree n m1 m2 a :
  agree m1 m2 a (Z.of_nat n) -> load_le n m1 a = load_le n m2 a.
Proof.
  revert a. induction n as [|n IH]; intros a H; cbn [load_le]; [done|].
  rewrite (H a) by lia. rewrite (IH (a + 1)); [done|].
  intros x Hx. apply H. lia.
Qed.

Lemma load_le_bound n m a : mem_ok m -> 0 <= load_le n m a < 256 ^ Z.of_nat n.
Proof.
  intros Hm. revert a. induction n as [|n IH]; intros a; cbn [load_le]; [lia|].
  specialize (Hm a). specialize (IH (a + 1)). unfold byte_ok in Hm.
  replace (Z.of_nat (S n)) with (1 + Z.of_nat n) by lia.
  rewrite Z.pow_add_r by lia. lia.
Qed.

Lemma store_le_frame n m a v x :
  ~ (a <= x < a + Z.of_nat n) -> load8 (store_le n m a v) x = load8 m x.
Proof.
  intros Hx. rewrite load8_store_le. cmp_cases.
Qed.

Lemma load_le_store_le_eq n m a v :
  load_le n (store_le n m a v) a = v mod 256 ^ Z.of_nat n.
Proof.
  revert m a v. induction n as [|n IH]; intros m a v; cbn [store_le load_le].
  - by rewrite Z.mod_1_r.
  - rewrite IH, store_le_frame, load8_store8, Z.eqb_refl by lia. unfold u8.
    replace (Z.of_nat (S n)) with (1 + Z.of_nat n) by lia.
    rewrite Z.pow_add_r, Z.rem_mul_r by lia. done.
Qed.

Lemma load_le_store_le_ne k n m a b v :
  a + Z.of_nat n <= b \/ b + Z.of_nat k <= a ->
  load_le k (store_le n m a v) b = load_le k m b.
Proof.
  intros Hd. apply load_le_agree. intros x Hx. apply store_le_frame. lia.
Qed.

(** The instances at the widths of the C code. *)
Lemma load64_store64_eq m a v : word64 v -> load64 (store64 m a v) a = v.
Proof.
  intros Hv. unfold load64, store64. rewrite load_le_store_le_eq.
  apply Z.mod_small. exact Hv.
Qed.
Lemma load64_store64_ne m a b v :
  a + 8 <= b \/ b + 8 <= a -> load64 (store64 m a v) b = load64 m b.
Proof. intros H. apply load_le_store_le_ne. lia. Qed.
Lemma load32_store32_eq m a v : word32 v -> load32 (store32 m a v) a = v.
Proof.
  intros Hv. unfold load32, store32. rewrite load_le_store_le_eq.
  apply Z.mod_small. exact Hv.
Qed.
Lemma load64_bound m a : mem_ok m -> word64 (load64 m a).
Proof. intros Hm. apply (load_le_bound 8 m a Hm). Qed.
Lemma load32_bound m a : mem_ok m -> word32 (load32 m a).
Proof. intros Hm. apply (load_le_bound 4 m a Hm). Qed.

(** ** The byte loops *)

Lemma load8_mem_zero p size m x :
  load8 (mem_zero p size m) x =
  if (p <=? x) && (x <? p + size) then 0 else load8 m x.
Proof.
  unfold mem_zero. set (n := Z.to_nat size).
  assert (load8 (for_loop n 0 (fun i m0 => store8 m0 (p + i) 0) m) x =
          if (p <=? x) && (x <? p + Z.of_nat n) then 0 else load8 m x) as ->.
  { apply (for_loop_inv (fun j m' => load8 m' x =
      if (p <=? x) && (x <? p + j) then 0 else load8 m x)).
    - cmp_cases.
    - intros j m' Hj IH. rewrite load8_store8, IH. cmp_cases. }
  subst n. cmp_cases.
Qed.

Lemma mem_zero_ok p size m : mem_ok m -> mem_ok (mem_zero p size m).
Proof.
  intros Hm x. rewrite load8_mem_zero. case_test; [unfold byte_ok; lia | apply Hm].
Qed.

Lemma load_le_zeroed n p size m a :
  p <= a -> a + Z.of_nat n <= p + size -> load_le n (mem_zero p size m) a = 0.
Proof.
  revert a. induction n as [|n IH]; intros a H1 H2; cbn [load_le]; [done|].
  rewrite IH, load8_mem_zero by lia. cmp_cases.
Qed.

Lemma load_le_mem_zero_ne n p size m a :
  a + Z.of_nat n <= p \/ p + size <= a ->
  load_le n (mem_zero p size m) a = load_le n m a.
Proof.
  intros Hd. apply load_le_agree. intros x Hx. rewrite load8_mem_zero. cmp_cases.
Qed.

(** The forward byte loop copies a buffer whenever the destination does not
    start inside the source (overlap in the other direction is harmless). *)
Lemma load8_mem_copy dst src size m x :
  mem_ok m -> dst <= src \/ src + size <= dst ->
  load8 (mem_copy dst src size m) x =
  if (dst <=? x) && (x <? dst + size) then load8 m (src + (x - dst)) else load8 m x.
Proof.
  intros Hm Hd. unfold mem_copy. set (n := Z.to_nat size).
  destruct (Z.leb_spec 0 size); cycle 1.
  { replace n with O by lia. cbn [for_loop]. cmp_cases. }
  assert (forall y, load8 (for_loop n 0
            (fun i m0 => store8 m0 (dst + i) (load8 m0 (src + i))) m) y =
          if (dst <=? y) && (y <? dst + Z.of_nat n) then load8 m (src + (y - dst))
          else load8 m y) as Hl; cycle 1.
  { rewrite Hl. subst n. by rewrite Z2Nat.id. }
  apply (for_loop_inv (fun j m' => forall y, load8 m' y =
      if (dst <=? y) && (y <? dst + j) then load8 m (src + (y - dst)) else load8 m y)).
  - intros y. cmp_cases.
  - intros j m' Hj IH y. rewrite load8_store8, !IH. cmp_cases.
    all: subst y; replace (dst + j - dst) with j by lia; apply u8_small, Hm.
Qed.

Lemma load8_store_bytes m a bs x :
  load8 (store_bytes m a bs) x =
  if (a <=? x) && (x <? a + Z.of_nat (length bs))
  then u8 (nth (Z.to_nat (x - a)) bs 0) else load8 m x.
Proof.
  revert m a. induction bs as [|b bs IH]; intros m a; cbn [store_bytes].
  - cbn [length]. cmp_cases.
  - rewrite IH, load8_store8. cbn [length]. cmp_cases.
    + by replace (Z.to_nat (x - a)) with (S (Z.to_nat (x - (a + 1)))) by lia.
    + subst x. by replace (Z.to_nat (a - a)) with O by lia.
Qed.

#[export] Hint Resolve store8_ok store_le_ok mem_zero_ok : mem.
#[export] Hint Rewrite load8_store8 : mem.

(** The little-endian bytes of a [k]-byte store. *)
Fixpoint le_bytes (k : nat) (v : Z) : list Z :=
  match k with O => [] | Datatypes.S k => u8 v :: le_bytes k (v / 256) end.

Lemma le_bytes_length k v : length (le_bytes k v) = k.
Proof. revert v. induction k; intros; cbn; auto. Qed.

Lemma le_bytes_ok k v : Forall byte_ok (le_bytes k v).
Proof. revert v. induction k; intros; cbn; constructor; [apply u8_bound|auto]. Qed.

(** ** Bytes at an address *)

(** The bytes [bs] are at the address [a]. *)
Definition in_memory (m : mem) (a : Z) (bs : list Z) : Prop :=
  forall i b, bs !! i = Some b -> load8 m (a + Z.of_nat i) = b.

Lemma in_memory_app m a bs bs' :
  in_memory m a (bs ++ bs') -> in_memory m a bs /\ in_memory m (a + Z.of_nat (length bs)) bs'.
Proof.
  intros H. split; intros i b Hi.
  - apply H. by apply lookup_app_l_Some.
  - replace (a + Z.of_nat (length bs) + Z.of_nat i) with (a + Z.of_nat (length bs + i)) by lia.
    apply H. rewrite lookup_app_r by lia. by replace (length bs + i - length bs)%nat with i by lia.
Qed.

Lemma load_le_bytes k m a v : 0 <= v < 256 ^ Z.of_nat k -> in_memory m a (le_bytes k v) -> load_le k m a = v.
Proof.
  revert a v. induction k as [|k IH]; intros a v Hv H; cbn [load_le le_bytes] in *; [simpl in Hv; lia|].
  rewrite Nat2Z.inj_succ, Z.pow_succ_r in Hv by lia.
  replace (load8 m a) with (u8 v) by (specialize (H O _ eq_refl); rewrite Z.add_0_r in H; done).
  rewrite (IH (a + 1) (v / 256)).
  - unfold u8. zlia.
  - zlia.
  - intros i b Hi. specialize (H (Datatypes.S i) b Hi). replace (a + 1 + Z.of_nat i) with (a + Z.of_nat (Datatypes.S i)) by lia. done.
Qed.

Lemma in_memory_lookup m a bs off :
  in_memory m a bs -> 0 <= off < Z.of_nat (length bs) -> Some (load8 m (a + off)) = bs !! Z.to_nat off.
Proof.
  intros Hm Ho. destruct (lookup_lt_is_Some_2 bs (Z.to_nat off)) as [b Hb]; [lia|]. rewrite Hb. f_equal.
  rewrite <- (Hm _ _ Hb). f_equal. lia.
Qed.

Lemma store_bytes_in_memory m a bs : forallb (fun b => (0 <=? b) && (b <? 256)) bs = true -> in_memory (store_bytes m a bs) a bs.
Proof.
  intros Hb i b Hi. rewrite load8_store_bytes. pose proof (lookup_lt_Some _ _ _ Hi).
  rewrite (proj2 (andb_true_iff _ _)) by (split; [apply Z.leb_le|apply Z.ltb_lt]; lia).
  replace (Z.to_nat (a + Z.of_nat i - a)) with i by lia. rewrite (nth_lookup_Some _ _ _ _ Hi).
  rewrite forallb_forall in Hb. specialize (Hb b). rewrite <- list_elem_of_In in Hb.
  specialize (Hb (list_elem_of_lookup_2 _ _ _ Hi)). apply u8_small. unfold byte_ok. lia.
Qed.

Lemma load_bytes_in_memory m a bs : load_bytes m a (Z.of_nat (length bs)) = bs -> in_memory m a bs.
Proof.
  intros E i b Hi. rewrite <- E in Hi. unfold load_bytes in Hi. rewrite Nat2Z.id in Hi.
  apply list_lookup_fmap_Some in Hi as (j & -> & Hj). apply lookup_seq in Hj as [-> _]. done.
Qed.

Lemma store_bytes_ok m a bs : mem_ok m -> mem_ok (store_bytes m a bs).
Proof. revert m a. induction bs as [|b bs IH]; intros m a Hm; cbn [store_bytes]; [done|]. by apply IH, store8_ok. Qed.

Lemma store_bytes_out m a bs x : ~ (a <= x < a + Z.of_nat (length bs)) -> load8 (store_bytes m a bs) x = load8 m x.
Proof.
  revert m a. induction bs as [|b bs IH]; intros m a Hx; cbn [store_bytes length] in *; [done|].
  rewrite IH by lia. rewrite load8_store8, (proj2 (Z.eqb_neq _ _)) by lia. done.
Qed.

Lemma empty_mem_ok : mem_ok ∅.
Proof. intros a. unfold load8. rewrite lookup_empty. unfold byte_ok. simpl. lia. Qed.
