(* ===== verification/BootInfo.v ===== *)
(** The boot protocol: the structures of include/bootinfo.h that the UEFI
    loader fills in and the kernel's initialisation reads. *)
From stdpp Require Import base numbers list.
From Stdlib Require Import ZArith.
From S2P Require Import Prelude.

Definition ORE_BOOTINFO_MAGIC : Z := 0x4f524542494e464f.
Definition ORE_MEMMAP_MAX : Z := 256.

Record OreMemoryDescriptor := {
  d_type : Z;
  d_physical_start : Z;
  d_virtual_start : Z;
  d_number_of_pages : Z;
  d_attribute : Z;
}.

Record OreFramebuffer := {
  fb_base : Z;
  fb_width : Z;
  fb_height : Z;
  fb_pixels_per_scanline : Z;
  fb_pixel_format : Z;
}.

Record BootInfo := {
  bi_magic : Z;
  bi_rsdp : Z;
  bi_kernel_base : Z;
  bi_kernel_size : Z;
  bi_initramfs_base : Z;
  bi_initramfs_size : Z;
  bi_framebuffer : OreFramebuffer;
  bi_memory_map_entries : Z;
  bi_memory_map_descriptor_size : Z;
  bi_memory_map : list OreMemoryDescriptor;
  bi_cmdline : list Z;
}.

(** [sizeof(BootInfo)]: six words, the 24-byte framebuffer, two words, 256
    descriptors of 40 bytes and the 128-byte command line. *)
Definition sizeof_BootInfo : Z := 6 * 8 + 24 + 2 * 8 + 256 * 40 + 128.

(** The descriptors a loop over [memory_map_entries] visits. *)
Definition boot_descriptors (bi : BootInfo) : list OreMemoryDescriptor :=
  take (Z.to_nat (bi_memory_map_entries bi)) (bi_memory_map bi).
