(* ===== verification/PageAllocator.v ===== *)
(** The interface between the physical page allocator and its clients.

    The kernel heap (heap.c), the page tables (vmm.c), the program loaders
    (user.c, syscall.c) and the thread stacks (scheduler.c) obtain memory
    through [pmm_alloc_pages] and [pmm_free_pages] only.  [PageAllocator]
    names the two operations and the observations a client may make of the
    allocator's state; [PageAllocatorOk] states what the allocator promises.
    The clients are verified against the class, Pmm.v discharges it. *)
From stdpp Require Import base numbers list gmap.
From Stdlib Require Import ZArith Lia.
From S2P Require Import Prelude Memory.

Definition PAGE_SIZE : Z := 4096.

Lemma align_down_page v : word64 v -> align_down v PAGE_SIZE = v / PAGE_SIZE * PAGE_SIZE.
Proof. intros Hv. exact (align_down_pow2 v 12 Hv ltac:(lia)). Qed.

Lemma align_up_page v :
  0 <= v <= 18446744073709551616 - 4096 ->
  align_up v PAGE_SIZE = (v + 4095) / PAGE_SIZE * PAGE_SIZE.
Proof. intros Hv. exact (align_up_pow2 v 12 ltac:(lia) ltac:(lia) ltac:(lia)). Qed.

Class PageAllocator (S : Type) := {
  (** [pmm_alloc_pages count]: the address of the run, 0 on failure. *)
  pa_alloc_pages : Z -> S -> mem -> Z * S * mem;
  (** [pmm_free_pages ptr count]. *)
  pa_free_pages : Z -> Z -> S -> S;
  (** Well-formed allocator states. *)
  pa_wf : S -> Prop;
  (** The page is in use (allocated or reserved). *)
  pa_live : S -> Z -> Prop;
  (** One past the last managed page. *)
  pa_top : S -> Z;
}.

(** What a successful allocation of [count] pages guarantees. *)
Record alloc_post {S} `{PageAllocator S} (count p : Z) (s s' : S) (m m' : mem) : Prop := {
  ap_aligned : p mod PAGE_SIZE = 0;
  ap_low : 1048576 <= p;
  ap_high : p + count * PAGE_SIZE <= pa_top s * PAGE_SIZE;
  ap_fresh : forall q, p / PAGE_SIZE <= q < p / PAGE_SIZE + count -> ~ pa_live s q;
  ap_live : forall q, pa_live s' q <->
              pa_live s q \/ p / PAGE_SIZE <= q < p / PAGE_SIZE + count;
  ap_zeroed : m' = mem_zero p (count * PAGE_SIZE) m;
  ap_wf : pa_wf s';
  ap_top : pa_top s' = pa_top s;
}.

Class PageAllocatorOk (S : Type) `{PageAllocator S} := {
  pa_alloc_ok : forall count s m p s' m',
    pa_wf s -> 0 <= count < 4294967296 ->
    pa_alloc_pages count s m = (p, s', m') -> p <> 0 ->
    alloc_post count p s s' m m';
  pa_alloc_none : forall count s m s' m',
    pa_wf s -> 0 <= count < 4294967296 ->
    pa_alloc_pages count s m = (0, s', m') -> s' = s /\ m' = m;
  (** It fails only when every run above the first MiB meets a page in use. *)
  pa_alloc_fails : forall count s m s' m',
    pa_wf s -> 0 < count < 4294967296 ->
    pa_alloc_pages count s m = (0, s', m') ->
    forall p, 256 <= p -> p + count <= pa_top s -> exists q, p <= q < p + count /\ pa_live s q;
  pa_top_bound : forall s, pa_wf s -> 0 <= pa_top s <= 1099511627776;
  pa_live_top : forall s q, pa_live s q -> 0 <= q < pa_top s;
  pa_free_ok : forall ptr count s,
    pa_wf s -> 0 < ptr < 18446744073709551616 -> 0 <= count < 4294967296 ->
    pa_wf (pa_free_pages ptr count s) /\
    pa_top (pa_free_pages ptr count s) = pa_top s /\
    (forall q, 0 <= q < pa_top s -> (pa_live (pa_free_pages ptr count s) q <->
       pa_live s q /\ ~ (ptr / PAGE_SIZE <= q < ptr / PAGE_SIZE + count)));
}.

(** ** Want of memory *)

Section Want.
Context {S : Type} `{PageAllocatorOk S}.
Implicit Types s : S.

(** Between [s] and [s'] at most [k] pages were taken. *)
Definition takes (k : nat) s s' : Prop :=
  pa_top s' = pa_top s /\ exists l, (length l <= k)%nat /\ forall q, pa_live s' q -> pa_live s q \/ q ∈ l.

(** Fewer than [k] pages are all it takes to leave no free run of [n] pages. *)
Definition no_run (n : Z) (k : nat) s : Prop :=
  exists l, (length l < k)%nat /\
    forall p, 256 <= p -> p + n <= pa_top s -> exists q, p <= q < p + n /\ (pa_live s q \/ q ∈ l).

(** Fewer than [k] pages are free. *)
Definition out_of_pages (k : nat) s : Prop := no_run 1 k s.

Lemma takes_refl s : takes 0 s s.
Proof. split; [done|]. exists []. split; [done|auto]. Qed.

Lemma takes_mono k k' s s' : (k <= k')%nat -> takes k s s' -> takes k' s s'.
Proof. intros Hk [Ht (l & Hl & Hq)]. split; [done|]. exists l. split; [lia|done]. Qed.

Lemma takes_trans k k' s1 s2 s3 : takes k s1 s2 -> takes k' s2 s3 -> takes (k + k') s1 s3.
Proof.
  intros [T1 (l1 & L1 & Q1)] [T2 (l2 & L2 & Q2)]. split; [congruence|]. exists (l1 ++ l2). rewrite length_app. split; [lia|].
  intros q Hq. rewrite elem_of_app. destruct (Q2 q Hq) as [Hq2|]; [|auto]. destruct (Q1 q Hq2); auto.
Qed.

(** Pages that are given back do not count. *)
Lemma takes_less k s s' s'' : takes k s s' -> pa_top s'' = pa_top s' -> (forall q, pa_live s'' q -> pa_live s' q) -> takes k s s''.
Proof. intros [T (l & Hl & Hq)] T' Hq'. split; [congruence|]. exists l. auto. Qed.

Lemma takes_alloc count s m p s' m' :
  pa_wf s -> 0 <= count < 4294967296 -> pa_alloc_pages count s m = (p, s', m') -> p <> 0 -> takes (Z.to_nat count) s s'.
Proof.
  intros Hw Hc E Hp. pose proof (pa_alloc_ok _ _ _ _ _ _ Hw Hc E Hp) as A. split; [apply A|].
  exists (seqZ (p / PAGE_SIZE) count). split; [by rewrite length_seqZ|].
  intros q [Hq|Hq]%(ap_live _ _ _ _ _ _ A); [by left|right; by apply elem_of_seqZ].
Qed.

Lemma takes_free ptr count s :
  pa_wf s -> 0 < ptr < 18446744073709551616 -> 0 <= count < 4294967296 -> takes 0 s (pa_free_pages ptr count s).
Proof.
  intros Hw Hp Hc. destruct (pa_free_ok ptr count s Hw Hp Hc) as (_ & T & L). apply (takes_less 0 s s); [apply takes_refl|done|].
  intros q Hq. pose proof (pa_live_top _ q Hq) as Hb. rewrite T in Hb. by apply L in Hq as [Hq _].
Qed.

Lemma no_run_mono n n' k k' s : n <= n' -> (k <= k')%nat -> no_run n k s -> no_run n' k' s.
Proof.
  intros Hn Hk (l & Hl & Hr). exists l. split; [lia|]. intros p Hp Ht. destruct (Hr p Hp ltac:(lia)) as (q & Hq & Hc).
  exists q. split; [lia|done].
Qed.

Lemma no_run_takes n k k' s s' : takes k s s' -> no_run n k' s' -> no_run n (k + k') s.
Proof.
  intros [T (l & Hl & Hq)] (l' & Hl' & Hr). exists (l ++ l'). rewrite length_app. split; [lia|]. intros p Hp Ht.
  destruct (Hr p Hp ltac:(lia)) as (q & Hin & Hc). exists q. split; [done|]. rewrite elem_of_app.
  destruct Hc as [Hc|]; [|auto]. destruct (Hq q Hc); auto.
Qed.

Lemma no_run_failed count s m s' m' :
  pa_wf s -> 0 < count < 4294967296 -> pa_alloc_pages count s m = (0, s', m') -> no_run count 1 s.
Proof.
  intros Hw Hc E. exists []. split; [cbn; lia|]. intros p Hp Ht.
  destruct (pa_alloc_fails _ _ _ _ _ Hw Hc E p Hp Ht) as (q & Hq & Hl). eauto.
Qed.

(** With that many free pages in runs of [n], memory suffices. *)
Lemma no_run_enough n k s (ps : list Z) :
  (k <= length ps)%nat -> 0 < n ->
  (forall i p, ps !! i = Some p -> 256 <= p /\ p + n <= pa_top s /\ forall q, p <= q < p + n -> ~ pa_live s q) ->
  (forall i j p p', ps !! i = Some p -> ps !! j = Some p' -> (i < j)%nat -> p + n <= p') -> ~ no_run n k s.
Proof.
  intros Hk Hn Hfree Hsep (l & Hl & Hr).
  assert (forall i p, ps !! i = Some p -> exists q, p <= q < p + n /\ q ∈ l) as Hhit.
  { intros i p Hi. destruct (Hfree i p Hi) as (H1 & H2 & H3). destruct (Hr p H1 H2) as (q & Hq & [Hc|Hc]); [by destruct (H3 q Hq)|eauto]. }
  clear Hfree Hr. enough (length ps <= length l)%nat by lia. clear Hk Hl. revert l Hhit.
  induction ps as [|p ps IH] using rev_ind; intros l Hhit; [cbn; lia|]. rewrite length_app. cbn [length].
  assert ((ps ++ [p]) !! length ps = Some p) as Hlast by (rewrite lookup_app_r, Nat.sub_diag by lia; done).
  destruct (Hhit (length ps) p Hlast) as (q & Hq & Hin). apply elem_of_Permutation in Hin as [l' El].
  rewrite (Permutation_length El). cbn [length]. enough (length ps <= length l')%nat by lia. apply IH.
  - intros i j a b Hi Hj Hij. apply (Hsep i j); [by apply lookup_app_l_Some..|done].
  - intros i a Hi. pose proof (lookup_lt_Some _ _ _ Hi) as Hlt. destruct (Hhit i a) as (x & Hx & Hxl); [by apply lookup_app_l_Some|].
    exists x. split; [done|]. rewrite El in Hxl. apply elem_of_cons in Hxl as [->|]; [|done].
    pose proof (Hsep i (length ps) a p ltac:(by apply lookup_app_l_Some) Hlast Hlt). lia.
Qed.
End Want.
