(* ===== verification/Pmm.v ===== *)
(** The physical page allocator (kernel/pmm.c).

    State: the page bitmap (one bit per page, set when the page is in use),
    its size and the counters.  The bitmap is stored in RAM pages that
    [pmm_init] itself reserves, so it is modelled as an array of its own;
    [pmm_init_protects] shows no allocation can return those pages.
    [spinlock_lock]/[spinlock_unlock] of [pmm_lock] are the business of
    Spinlock.v: an operation is one critical section. *)
From stdpp Require Import base numbers list gmap strings.
From Stdlib Require Import ZArith Lia Btauto.
From S2P Require Import Prelude Memory BootInfo PageAllocator.

(** ** Definitions *)

Definition LOW_RESERVED_END : Z := 0x100000.
Definition TRAMPOLINE_START : Z := 0x7000.
Definition TRAMPOLINE_END : Z := 0x9000.

Record pmm_state := mk_pmm {
  bitmap : mem;
  bitmap_bytes : Z;
  max_phys : Z;
  total_page_count : Z;
  free_page_count : Z;
  reserved_page_count : Z;
  used_page_count : Z;
}.

Definition bitmap_set (b : mem) (page : Z) : mem :=
  store8 b (page / 8) (Z.lor (load8 b (page / 8)) (u8 (Z.shiftl 1 (page mod 8)))).
Definition bitmap_clear (b : mem) (page : Z) : mem :=
  store8 b (page / 8) (Z.land (load8 b (page / 8)) (u8 (Z.lnot (Z.shiftl 1 (page mod 8))))).
Definition bitmap_test (b : mem) (page : Z) : bool :=
  negb (Z.land (load8 b (page / 8)) (u8 (Z.shiftl 1 (page mod 8))) =? 0).

Definition ranges_overlap (a_start a_end b_start b_end : Z) : bool :=
  (a_start <? b_end) && (b_start <? a_end).

Definition usable_descriptor (d : OreMemoryDescriptor) : bool := d_type d =? 7.

(** Body of the loop of [reserve_range]: one page. *)
Definition reserve_page (page : Z) (s : pmm_state) : pmm_state :=
  if negb (bitmap_test (bitmap s) page) then
    mk_pmm (bitmap_set (bitmap s) page) (bitmap_bytes s) (max_phys s) (total_page_count s)
      (if free_page_count s =? 0 then free_page_count s else free_page_count s -u 1)
      (reserved_page_count s +u 1) (used_page_count s)
  else s.

(** The loop visits the page-aligned addresses of [[start, end)] below
    [max_phys]; [page_trips] is the number of its iterations. *)
Definition page_trips (start limit : Z) : nat :=
  Z.to_nat ((limit - start + (PAGE_SIZE - 1)) / PAGE_SIZE).

Definition reserve_range (start limit : Z) (s : pmm_state) : pmm_state :=
  let start := align_down start PAGE_SIZE in
  let limit := align_up limit PAGE_SIZE in
  for_loop (page_trips start (Z.min limit (max_phys s))) 0
    (fun i s => reserve_page ((start + i * PAGE_SIZE) / PAGE_SIZE) s) s.

(** First address of the descriptor's range where [need] bytes fit beside
    the kernel image. *)
Fixpoint find_in_range (fuel : nat) (addr need limit kbase kend : Z) : option Z :=
  match fuel with
  | O => None
  | S fuel =>
      if addr +u need <=? limit then
        if ranges_overlap addr (addr +u need) kbase kend
        then find_in_range fuel (addr +u PAGE_SIZE) need limit kbase kend
        else Some addr
      else None
  end.

Definition desc_start (d : OreMemoryDescriptor) : Z :=
  align_up (d_physical_start d) PAGE_SIZE.
Definition desc_raw_end (d : OreMemoryDescriptor) : Z :=
  d_physical_start d +u (d_number_of_pages d *u PAGE_SIZE).
Definition desc_end (d : OreMemoryDescriptor) : Z :=
  align_down (desc_raw_end d) PAGE_SIZE.

Fixpoint find_bitmap_storage (ds : list OreMemoryDescriptor) (need kbase kend : Z)
  : outcome Z :=
  match ds with
  | [] => Panic "PMM: no room for bitmap"
  | d :: ds' =>
      if negb (usable_descriptor d) then find_bitmap_storage ds' need kbase kend
      else
        let start := desc_start d in
        let limit := desc_end d in
        let start := if start <? LOW_RESERVED_END then LOW_RESERVED_END else start in
        match find_in_range (Z.to_nat (limit / PAGE_SIZE + 1)) start need limit kbase kend with
        | Some addr => Ok addr
        | None => find_bitmap_storage ds' need kbase kend
        end
  end.

(** [max_phys]: the end of the highest usable descriptor. *)
Definition max_phys_of (ds : list OreMemoryDescriptor) : Z :=
  fold_left (fun acc d =>
    if negb (usable_descriptor d) then acc
    else if acc <? desc_raw_end d then desc_raw_end d else acc) ds 0.

(** The loop that hands the pages of the usable descriptors to the allocator. *)
Definition release_page (page : Z) (s : pmm_state) : pmm_state :=
  mk_pmm (bitmap_clear (bitmap s) page) (bitmap_bytes s) (max_phys s) (total_page_count s)
    (free_page_count s +u 1) (reserved_page_count s -u 1) (used_page_count s).

Definition release_descriptor (s : pmm_state) (d : OreMemoryDescriptor) : pmm_state :=
  if negb (usable_descriptor d) then s
  else
    let start := desc_start d in
    for_loop (Z.to_nat ((desc_end d - start) / PAGE_SIZE)) 0
      (fun i s => release_page ((start + i * PAGE_SIZE) / PAGE_SIZE) s) s.

(** [pmm_init]; [bi_addr] is the address of the [BootInfo] structure itself.  The bits are
    an array of their own: that the storage which [find_bitmap_storage] chooses avoids the
    kernel but could cover the boot structure, were that in usable memory, is not seen
    here ([BootInfo] is an argument that does not change). *)
Definition pmm_init (bi : BootInfo) (bi_addr : Z) : outcome (Z * pmm_state) :=
  let ds := boot_descriptors bi in
  let max_phys := max_phys_of ds in
  if max_phys =? 0 then Panic "PMM: no usable memory" else
  let total := align_up max_phys PAGE_SIZE / PAGE_SIZE in
  let bytes := align_up ((total +u 7) / 8) PAGE_SIZE in
  let pages := align_up bytes PAGE_SIZE / PAGE_SIZE in
  let? bitmap_addr := find_bitmap_storage ds (pages *u PAGE_SIZE) (bi_kernel_base bi)
                        (bi_kernel_base bi +u bi_kernel_size bi) in
  let b := for_loop (Z.to_nat bytes) 0 (fun i b => store8 b i 0xff) ∅ in
  let s := mk_pmm b bytes max_phys total 0 total 0 in
  let s := fold_left release_descriptor ds s in
  let s := reserve_range 0 LOW_RESERVED_END s in
  let s := reserve_range TRAMPOLINE_START TRAMPOLINE_END s in
  let s := reserve_range bitmap_addr (bitmap_addr +u bytes) s in
  let s := reserve_range (bi_kernel_base bi) (bi_kernel_base bi +u bi_kernel_size bi) s in
  let s := if negb (bi_initramfs_base bi =? 0) && negb (bi_initramfs_size bi =? 0)
           then reserve_range (bi_initramfs_base bi)
                  (bi_initramfs_base bi +u bi_initramfs_size bi) s
           else s in
  let s := reserve_range bi_addr (bi_addr +u sizeof_BootInfo) s in
  Ok (bitmap_addr, s).

(** The scan of [pmm_alloc_pages]: the first page of the first run of [count]
    free pages. *)
Fixpoint alloc_scan (fuel : nat) (b : mem) (total count page run start_page : Z)
  : option Z :=
  match fuel with
  | O => None
  | S fuel =>
      if page <? total then
        if negb (bitmap_test b page) then
          let start_page := if run =? 0 then page else start_page in
          let run := run +u 1 in
          if run =? count then Some start_page
          else alloc_scan fuel b total count (page + 1) run start_page
        else alloc_scan fuel b total count (page + 1) 0 start_page
      else None
  end.

Definition set_pages (start_page count : Z) (b : mem) : mem :=
  for_loop (Z.to_nat count) 0 (fun i b => bitmap_set b (start_page + i)) b.

Definition pmm_alloc_pages (count : Z) (s : pmm_state) (m : mem) : Z * pmm_state * mem :=
  if count =? 0 then (0, s, m) else
  let first := LOW_RESERVED_END / PAGE_SIZE in
  match alloc_scan (Z.to_nat (total_page_count s - first)) (bitmap s)
          (total_page_count s) count first 0 0 with
  | Some start_page =>
      let s' := mk_pmm (set_pages start_page count (bitmap s)) (bitmap_bytes s) (max_phys s)
                  (total_page_count s) (free_page_count s -u count) (reserved_page_count s)
                  (used_page_count s +u count) in
      let ptr := start_page *u PAGE_SIZE in
      (ptr, s', mem_zero ptr (count *u PAGE_SIZE) m)
  | None => (0, s, m)
  end.

Definition free_one (page : Z) (s : pmm_state) : pmm_state :=
  if (page <? total_page_count s) && bitmap_test (bitmap s) page then
    mk_pmm (bitmap_clear (bitmap s) page) (bitmap_bytes s) (max_phys s) (total_page_count s)
      (free_page_count s +u 1) (reserved_page_count s)
      (if used_page_count s =? 0 then used_page_count s else used_page_count s -u 1)
  else s.

Definition pmm_free_pages (ptr count : Z) (s : pmm_state) : pmm_state :=
  if (ptr =? 0) || (count =? 0) then s else
  let page := ptr / PAGE_SIZE in
  for_loop (Z.to_nat count) 0 (fun i s => free_one (page +u i) s) s.

Definition pmm_alloc_page (s : pmm_state) (m : mem) : Z * pmm_state * mem :=
  pmm_alloc_pages 1 s m.
Definition pmm_free_page (page : Z) (s : pmm_state) : pmm_state :=
  pmm_free_pages page 1 s.
Definition early_alloc_pages (pages : Z) (s : pmm_state) (m : mem) : Z * pmm_state * mem :=
  pmm_alloc_pages pages s m.

Definition pmm_total_pages (s : pmm_state) : Z := total_page_count s.
Definition pmm_free_pages_count (s : pmm_state) : Z := free_page_count s.
Definition pmm_used_pages (s : pmm_state) : Z := used_page_count s.
Definition pmm_reserved_pages (s : pmm_state) : Z := reserved_page_count s.

(** ** Bitmap lemmas *)

Create HintDb pmm.
Create Rewrite HintDb pmm.

Lemma testbit_u8 x k : 0 <= k < 8 -> Z.testbit (u8 x) k = Z.testbit x k.
Proof.
  intros Hk. unfold u8. change 256 with (2 ^ 8). apply Z.mod_pow2_bits_low. lia.
Qed.

Lemma shift_bit_u8 k : 0 <= k < 8 -> u8 (Z.shiftl 1 k) = Z.shiftl 1 k.
Proof.
  intros Hk. apply u8_small. unfold byte_ok. rewrite Z.shiftl_1_l.
  split; [apply Z.pow_nonneg; lia|].
  change 256 with (2 ^ 8). apply Z.pow_lt_mono_r; lia.
Qed.

Lemma testbit_shift_1 k j : 0 <= k -> 0 <= j -> Z.testbit (Z.shiftl 1 k) j = (k =? j).
Proof.
  intros Hk Hj. rewrite Z.shiftl_1_l, Z.pow2_bits_eqb by lia. done.
Qed.

Lemma bitmap_test_bit b page :
  0 <= page -> bitmap_test b page = Z.testbit (load8 b (page / 8)) (page mod 8).
Proof.
  intros Hp. unfold bitmap_test. rewrite shift_bit_u8 by zlia.
  rewrite land_bit by zlia. apply negb_involutive.
Qed.

Lemma page_bit_inj p q : p / 8 = q / 8 -> p mod 8 = q mod 8 -> p = q.
Proof. zlia. Qed.

Lemma bitmap_test_set b p q :
  0 <= p -> 0 <= q -> bitmap_test (bitmap_set b p) q = (p =? q) || bitmap_test b q.
Proof.
  intros Hp Hq. rewrite !bitmap_test_bit by lia. unfold bitmap_set.
  rewrite load8_store8. destruct (Z.eqb_spec (q / 8) (p / 8)) as [Hd|Hd].
  - rewrite testbit_u8, Z.lor_spec, shift_bit_u8, testbit_shift_1 by zlia.
    rewrite Hd, orb_comm. f_equal.
    destruct (Z.eqb_spec p q) as [->|Hne]; [apply Z.eqb_refl|].
    apply Z.eqb_neq. intros Hm. apply Hne. by apply page_bit_inj.
  - replace (p =? q) with false; [done|]. symmetry. apply Z.eqb_neq. congruence.
Qed.

Lemma bitmap_test_clear b p q :
  0 <= p -> 0 <= q -> bitmap_test (bitmap_clear b p) q = negb (p =? q) && bitmap_test b q.
Proof.
  intros Hp Hq. rewrite !bitmap_test_bit by lia. unfold bitmap_clear.
  rewrite load8_store8. destruct (Z.eqb_spec (q / 8) (p / 8)) as [Hd|Hd].
  - rewrite testbit_u8, Z.land_spec, testbit_u8, Z.lnot_spec, testbit_shift_1 by zlia.
    rewrite Hd, andb_comm. f_equal. f_equal.
    destruct (Z.eqb_spec p q) as [->|Hne]; [apply Z.eqb_refl|].
    apply Z.eqb_neq. intros Hm. apply Hne. by apply page_bit_inj.
  - replace (p =? q) with false; [done|]. symmetry. apply Z.eqb_neq. congruence.
Qed.

#[export] Hint Rewrite bitmap_test_set bitmap_test_clear using lia : pmm.

(** Number of free pages among the first [n]. *)
Fixpoint count_clear (b : mem) (n : nat) : Z :=
  match n with
  | O => 0
  | S n' => count_clear b n' + (if bitmap_test b (Z.of_nat n') then 0 else 1)
  end.

Lemma count_clear_bound b n : 0 <= count_clear b n <= Z.of_nat n.
Proof. induction n as [|n IH]; cbn [count_clear]; [lia|]. case_test; lia. Qed.

Lemma count_clear_ext b1 b2 n :
  (forall p, 0 <= p < Z.of_nat n -> bitmap_test b1 p = bitmap_test b2 p) ->
  count_clear b1 n = count_clear b2 n.
Proof.
  induction n as [|n IH]; intros H; cbn [count_clear]; [done|].
  rewrite IH by (intros; apply H; lia). by rewrite (H (Z.of_nat n)) by lia.
Qed.

Lemma count_clear_set b n p :
  0 <= p < Z.of_nat n -> bitmap_test b p = false ->
  count_clear (bitmap_set b p) n = count_clear b n - 1.
Proof.
  induction n as [|n IH]; intros Hp Ht; [lia|]. cbn [count_clear].
  rewrite bitmap_test_set by lia.
  destruct (Z.eqb_spec p (Z.of_nat n)) as [->|Hne].
  - rewrite Ht, (count_clear_ext _ b); [cbn; lia|].
    intros q Hq. rewrite bitmap_test_set by lia.
    by replace (Z.of_nat n =? q) with false by (symmetry; apply Z.eqb_neq; lia).
  - rewrite IH by (lia || done). cbn [orb]. lia.
Qed.

Lemma count_clear_clear b n p :
  0 <= p < Z.of_nat n -> bitmap_test b p = true ->
  count_clear (bitmap_clear b p) n = count_clear b n + 1.
Proof.
  induction n as [|n IH]; intros Hp Ht; [lia|]. cbn [count_clear].
  rewrite bitmap_test_clear by lia.
  destruct (Z.eqb_spec p (Z.of_nat n)) as [->|Hne].
  - rewrite Ht, (count_clear_ext _ b); [cbn; lia|].
    intros q Hq. rewrite bitmap_test_clear by lia.
    by replace (Z.of_nat n =? q) with false by (symmetry; apply Z.eqb_neq; lia).
  - rewrite IH by (lia || done). cbn [negb andb]. lia.
Qed.

Lemma count_clear_all_set b n :
  (forall q, 0 <= q < Z.of_nat n -> bitmap_test b q = true) -> count_clear b n = 0.
Proof.
  induction n as [|n IH]; intros H; cbn [count_clear]; [done|].
  rewrite IH, H by (intros; try apply H; lia). done.
Qed.

(** ** Invariant *)

(** The free counter is the number of clear bits; the managed range stays
    below 2^52 bytes (the physical address width of the page tables). *)
Record pmm_wf (s : pmm_state) : Prop := {
  wf_total : 0 <= total_page_count s <= 1099511627776;
  wf_free : free_page_count s = count_clear (bitmap s) (Z.to_nat (total_page_count s));
}.

(** Every page is accounted for exactly once. *)
Definition pmm_balanced (s : pmm_state) : Prop :=
  free_page_count s + used_page_count s + reserved_page_count s = total_page_count s /\
  0 <= used_page_count s /\ 0 <= reserved_page_count s.

(** ** Allocation *)

(** Reference notion: a run of [count] free pages starting at [p]. *)
Definition free_run (b : mem) (total p count : Z) : Prop :=
  p + count <= total /\ forall q, p <= q < p + count -> bitmap_test b q = false.

(** Loop invariant of the scan: the last [run] pages before [page] are free,
    and no run of [count] free pages starts early enough to end by [page]. *)
Lemma alloc_scan_spec fuel b total count page run start_page :
  0 < count < 4294967296 -> 0 <= run < count -> 0 <= page <= total ->
  256 <= page - run -> total <= page + Z.of_nat fuel ->
  (run <> 0 -> start_page = page - run) ->
  (forall q, page - run <= q < page -> bitmap_test b q = false) ->
  (forall p, 256 <= p -> p < page - run -> ~ free_run b total p count) ->
  match alloc_scan fuel b total count page run start_page with
  | Some p => 256 <= p /\ free_run b total p count /\
      forall p', 256 <= p' < p -> ~ free_run b total p' count
  | None => forall p, 256 <= p -> ~ free_run b total p count
  end.
Proof.
  revert page run start_page. induction fuel as [|fuel IH];
    intros page run sp Hc Hr Hp H256 Hfuel Hsp Hfree Hnone; cbn [alloc_scan].
  { intros p Hp256 [Hend Hbits]. destruct (Z.ltb_spec p (page - run)).
    - eapply Hnone; eauto. split; auto.
    - lia. }
  destruct (Z.ltb_spec page total) as [Hlt|Hge].
  2:{ intros p Hp256 [Hend Hbits]. destruct (Z.ltb_spec p (page - run)).
      - eapply Hnone; eauto. split; auto.
      - lia. }
  destruct (bitmap_test b page) eqn:Hbit; cbn [negb].
  - apply IH; try lia.
    intros p Hp256 Hlt' [Hend Hbits]. destruct (Z.ltb_spec p (page - run)).
    + eapply Hnone; eauto. split; auto.
    + rewrite Hbits in Hbit; [discriminate|lia].
  - rewrite (u64_small (run + 1)) by (unfold word64; lia).
    assert ((if run =? 0 then page else sp) = page - run) as ->.
    { destruct (Z.eqb_spec run 0); [lia|auto]. }
    assert (forall q, page - run <= q < page + 1 -> bitmap_test b q = false) as Hfree'.
    { intros q Hq. destruct (Z.eq_dec q page) as [->|]; [done|apply Hfree; lia]. }
    destruct (Z.eqb_spec (run + 1) count) as [Heq|Hneq].
    + split; [lia|]. split.
      * split; [lia|]. intros q Hq. apply Hfree'. lia.
      * intros p' Hp'. apply Hnone; lia.
    + apply IH; try lia.
      * intros q Hq. apply Hfree'. lia.
      * intros p Hp1 Hp2. apply Hnone; lia.
Qed.

Lemma set_pages_test start count b q :
  0 <= start -> 0 <= count -> 0 <= q ->
  bitmap_test (set_pages start count b) q =
  ((start <=? q) && (q <? start + count)) || bitmap_test b q.
Proof.
  intros Hs Hc Hq. unfold set_pages. rewrite <- (Z2Nat.id count) at 2 by lia.
  apply (for_loop_inv (fun j b' => bitmap_test b' q =
           ((start <=? q) && (q <? start + j)) || bitmap_test b q)).
  - cmp_cases.
  - intros j b' Hj IH. rewrite bitmap_test_set, IH by lia. cmp_cases.
Qed.

Lemma set_pages_count start count b n :
  0 <= start -> 0 <= count -> start + count <= Z.of_nat n ->
  (forall q, start <= q < start + count -> bitmap_test b q = false) ->
  count_clear (set_pages start count b) n = count_clear b n - count.
Proof.
  intros Hs Hc Hn Hfree. unfold set_pages. rewrite <- (Z2Nat.id count) at 2 by lia.
  pose (P := fun (j : Z) (b' : mem) => count_clear b' n = count_clear b n - j /\
           forall q, start + j <= q < start + count -> bitmap_test b' q = false).
  enough (P (0 + Z.of_nat (Z.to_nat count))
            (for_loop (Z.to_nat count) 0 (fun i b => bitmap_set b (start + i)) b))
    as [H _] by lia.
  apply for_loop_inv; unfold P.
  - split; [lia|]. intros q Hq. apply Hfree. lia.
  - intros j b' Hj [IH1 IH2]. split.
    + rewrite count_clear_set, IH1 by (try apply IH2; lia). lia.
    + intros q Hq. rewrite bitmap_test_set, IH2 by lia.
      rewrite orb_false_r. apply Z.eqb_neq. lia.
Qed.

(** What [pmm_alloc_pages] does, on both branches. *)
Lemma pmm_alloc_pages_cases count s m :
  pmm_wf s -> 0 < count < 4294967296 ->
  (exists p, 256 <= p /\ free_run (bitmap s) (total_page_count s) p count /\
     (forall p', 256 <= p' < p -> ~ free_run (bitmap s) (total_page_count s) p' count) /\
     pmm_alloc_pages count s m =
       (p * PAGE_SIZE,
        mk_pmm (set_pages p count (bitmap s)) (bitmap_bytes s) (max_phys s)
          (total_page_count s) (free_page_count s - count) (reserved_page_count s)
          (used_page_count s +u count),
        mem_zero (p * PAGE_SIZE) (count * PAGE_SIZE) m)) \/
  ((forall p, 256 <= p -> ~ free_run (bitmap s) (total_page_count s) p count) /\
   pmm_alloc_pages count s m = (0, s, m)).
Proof.
  intros [Htot Hfree] Hc. unfold pmm_alloc_pages.
  replace (count =? 0) with false by (symmetry; apply Z.eqb_neq; lia).
  change (LOW_RESERVED_END / PAGE_SIZE) with 256.
  destruct (Z.leb_spec 256 (total_page_count s)) as [Hle|Hgt].
  2:{ right. replace (Z.to_nat (total_page_count s - 256)) with O by lia.
      split; [|done]. intros p Hp [H1 _]. lia. }
  pose proof (alloc_scan_spec (Z.to_nat (total_page_count s - 256)) (bitmap s)
    (total_page_count s) count 256 0 0) as Hscan.
  destruct (alloc_scan _ _ _ _ _ _ _) as [p|].
  - destruct Hscan as (H256 & Hrun & Hmin); try lia.
    left. exists p. repeat split; auto; try apply Hrun.
    destruct Hrun as [Hend Hbits]. unfold PAGE_SIZE in *.
    rewrite (u64_small (p * 4096)), (u64_small (count * 4096)),
      (u64_small (free_page_count s - count)); try done; unfold word64; try lia.
    pose proof (count_clear_bound (set_pages p count (bitmap s))
                  (Z.to_nat (total_page_count s))) as Hb.
    rewrite set_pages_count in Hb by (auto; lia).
    pose proof (count_clear_bound (bitmap s) (Z.to_nat (total_page_count s))).
    lia.
  - right. split; [|done]. apply Hscan; lia.
Qed.

Lemma pmm_alloc_pages_zero s m : pmm_alloc_pages 0 s m = (0, s, m).
Proof. done. Qed.

Lemma pmm_alloc_wf count s m ptr s' m' :
  pmm_wf s -> 0 <= count < 4294967296 ->
  pmm_alloc_pages count s m = (ptr, s', m') -> pmm_wf s'.
Proof.
  intros Hwf Hc Heq.
  destruct (Z.eq_dec count 0) as [->|Hnz]; [by injection Heq as _ <- _|].
  destruct (pmm_alloc_pages_cases count s m) as [(p & H256 & Hrun & _ & E)|[_ E]];
    [done|lia|rewrite E in Heq; injection Heq as _ <- _..]; [|done].
  destruct Hwf as [Htot Hfree], Hrun as [Hend Hbits].
  split; cbn; [done|]. rewrite set_pages_count; auto; lia.
Qed.

(** ** Freeing *)

Lemma free_one_spec page s :
  pmm_wf s -> 0 <= page ->
  let s' := free_one page s in
  pmm_wf s' /\ total_page_count s' = total_page_count s /\
  forall q, 0 <= q < total_page_count s ->
    bitmap_test (bitmap s') q = negb (page =? q) && bitmap_test (bitmap s) q.
Proof.
  intros Hwf Hp s'. subst s'. unfold free_one. pose proof Hwf as [Htot Hfree].
  destruct (Z.ltb_spec page (total_page_count s)) as [Hlt|Hge]; cbn [andb]; cycle 1.
  { split; [done|]. split; [done|]. intros q Hq. cmp_cases. }
  destruct (bitmap_test (bitmap s) page) eqn:Hbit; cycle 1.
  { split; [done|]. split; [done|].
    intros q Hq. destruct (Z.eqb_spec page q) as [<-|]; done. }
  pose proof (count_clear_bound (bitmap_clear (bitmap s) page)
                (Z.to_nat (total_page_count s))) as Hb.
  rewrite count_clear_clear in Hb by (done || lia).
  split; [split; cbn; [lia|]|split; [done|]].
  - rewrite count_clear_clear, u64_small by (done || unfold word64; lia). lia.
  - intros q Hq. apply bitmap_test_clear; lia.
Qed.

Lemma pmm_free_pages_spec ptr count s :
  pmm_wf s -> 0 < ptr < 18446744073709551616 -> 0 <= count < 4294967296 ->
  let s' := pmm_free_pages ptr count s in
  pmm_wf s' /\ total_page_count s' = total_page_count s /\
  forall q, 0 <= q < total_page_count s ->
    bitmap_test (bitmap s') q =
    negb ((ptr / PAGE_SIZE <=? q) && (q <? ptr / PAGE_SIZE + count)) &&
      bitmap_test (bitmap s) q.
Proof.
  intros Hwf Hptr Hc s'. subst s'. unfold pmm_free_pages.
  replace (ptr =? 0) with false by (symmetry; apply Z.eqb_neq; lia).
  destruct (Z.eqb_spec count 0) as [->|Hnz]; cbn [orb].
  { split; [done|]. split; [done|]. intros q Hq. cmp_cases. }
  assert (0 <= ptr / PAGE_SIZE < 4503599627370496) as Hpg by (unfold PAGE_SIZE; zlia).
  pose (P := fun (j : Z) (s' : pmm_state) =>
    pmm_wf s' /\ total_page_count s' = total_page_count s /\
    forall q, 0 <= q < total_page_count s -> bitmap_test (bitmap s') q =
      negb ((ptr / PAGE_SIZE <=? q) && (q <? ptr / PAGE_SIZE + j)) && bitmap_test (bitmap s) q).
  enough (P (0 + Z.of_nat (Z.to_nat count)) (for_loop (Z.to_nat count) 0
            (fun i s => free_one (ptr / PAGE_SIZE +u i) s) s)) as H
    by (unfold P in H; rewrite Z2Nat.id in H by lia; exact H).
  apply for_loop_inv; unfold P.
  - split; [done|]. split; [done|]. intros q Hq. cmp_cases.
  - intros j s' Hj (Hwf' & Htot & Hbits).
    rewrite u64_small by (unfold word64; lia).
    destruct (free_one_spec (ptr / PAGE_SIZE + j) s') as (H1 & H2 & H3); [done|lia|].
    split; [done|]. split; [congruence|]. intros q Hq.
    rewrite H3, Hbits by lia. cmp_cases.
Qed.

(** ** The allocator implements the interface *)

#[export] Instance pmm_page_allocator : PageAllocator pmm_state := {
  pa_alloc_pages := pmm_alloc_pages;
  pa_free_pages := pmm_free_pages;
  pa_wf := pmm_wf;
  pa_live := fun s q => 0 <= q < total_page_count s /\ bitmap_test (bitmap s) q = true;
  pa_top := total_page_count;
}.

Lemma used_or_free b p n : 0 <= n ->
  (exists q, p <= q < p + n /\ bitmap_test b q = true) \/ (forall q, p <= q < p + n -> bitmap_test b q = false).
Proof.
  intros Hn. pattern n. apply natlike_ind; [|clear n Hn; intros n Hn [(q & Hq & E)|Hf]|done].
  - right. lia.
  - left. exists q. split; [lia|done].
  - destruct (bitmap_test b (p + n)) eqn:E; [left; exists (p + n); split; [lia|done]|right].
    intros q Hq. destruct (Z.eq_dec q (p + n)) as [->|]; [done|]. apply Hf. lia.
Qed.

#[export] Instance pmm_page_allocator_ok : PageAllocatorOk pmm_state.
Proof.
  split; cbn [pa_alloc_pages pa_free_pages pa_wf pa_live pa_top pmm_page_allocator].
  - intros count s m p s' m' Hwf Hc Heq Hp.
    pose proof (pmm_alloc_wf _ _ _ _ _ _ Hwf Hc Heq) as Hwf'.
    destruct (Z.eq_dec count 0) as [->|Hnz]; [rewrite pmm_alloc_pages_zero in Heq; congruence|].
    destruct (pmm_alloc_pages_cases count s m) as [(pg & H256 & Hrun & _ & E)|[_ E]];
      [done|lia| |rewrite E in Heq; congruence].
    rewrite E in Heq. injection Heq as <- <- <-. destruct Hrun as [Hend Hbits].
    assert (pg * PAGE_SIZE / PAGE_SIZE = pg) as Hdiv by (unfold PAGE_SIZE; zlia).
    split; cbn [pa_live pa_top pa_wf pmm_page_allocator total_page_count bitmap];
      rewrite ?Hdiv; try done; try (unfold PAGE_SIZE; zlia).
    + intros q Hq [_ Ht]. rewrite Hbits in Ht by lia. discriminate.
    + intros q. split.
      * intros [Hq Ht]. rewrite set_pages_test in Ht by lia.
        destruct (bitmap_test (bitmap s) q); [left; done|right].
        rewrite orb_false_r in Ht. bool_to_prop. lia.
      * intros [[Hq Ht]|Hq]; (split; [lia|]); rewrite set_pages_test by lia.
        -- by rewrite Ht, orb_true_r.
        -- replace ((pg <=? q) && (q <? pg + count)) with true; [done|].
           symmetry. bool_to_prop; lia.
  - intros count s m s' m' Hwf Hc Heq.
    destruct (Z.eq_dec count 0) as [->|Hnz]; [by injection Heq|].
    destruct (pmm_alloc_pages_cases count s m) as [(pg & H256 & _ & _ & E)|[_ E]];
      [done|lia| |by rewrite E in Heq; injection Heq].
    rewrite E in Heq. injection Heq as Hp _ _. unfold PAGE_SIZE in Hp. lia.
  - intros count s m s' m' Hwf Hc Heq p Hp Ht.
    destruct (pmm_alloc_pages_cases count s m) as [(pg & H256 & _ & _ & E)|[Hno _]]; [done|lia| |].
    { rewrite E in Heq. injection Heq as Hz _ _. unfold PAGE_SIZE in Hz. lia. }
    destruct (used_or_free (bitmap s) p count ltac:(lia)) as [(q & Hq & Hb)|Hf]; [exists q; split; [lia|split; [lia|done]]|].
    by destruct (Hno p Hp).
  - intros s [Ht _]. lia.
  - intros s q [Hq _]. exact Hq.
  - intros ptr count s Hwf Hptr Hc.
    destruct (pmm_free_pages_spec ptr count s Hwf Hptr Hc) as (H1 & H2 & H3).
    split; [done|]. split; [done|]. intros q Hq. rewrite H2, H3 by done.
    destruct (bitmap_test (bitmap s) q); rewrite ?andb_true_r, ?andb_false_r.
    + cmp_cases; split; intros; try lia; try (destruct_and!; done || lia); repeat split; lia || done.
    + split; intros; destruct_and!; congruence.
Qed.

(** ** Accounting *)

Lemma free_loop_counters ptr count s :
  pmm_wf s -> 0 < ptr < 18446744073709551616 -> 0 <= count < 4294967296 ->
  count <= used_page_count s < 18446744073709551616 ->
  ptr / PAGE_SIZE + count <= total_page_count s ->
  (forall q, ptr / PAGE_SIZE <= q < ptr / PAGE_SIZE + count ->
     bitmap_test (bitmap s) q = true) ->
  let s' := pmm_free_pages ptr count s in
  free_page_count s' = free_page_count s + count /\
  used_page_count s' = used_page_count s - count /\
  reserved_page_count s' = reserved_page_count s.
Proof.
  intros Hwf Hptr Hc Hused Hend Hset s'. subst s'. unfold pmm_free_pages.
  replace (ptr =? 0) with false by (symmetry; apply Z.eqb_neq; lia).
  destruct (Z.eqb_spec count 0) as [->|Hnz]; cbn [orb]; [lia|].
  assert (0 <= ptr / PAGE_SIZE < 4503599627370496) as Hpg by (unfold PAGE_SIZE; zlia).
  pose (P := fun (j : Z) (s' : pmm_state) => pmm_wf s' /\
    total_page_count s' = total_page_count s /\
    (forall q, ptr / PAGE_SIZE + j <= q < ptr / PAGE_SIZE + count ->
       bitmap_test (bitmap s') q = true) /\
    free_page_count s' = free_page_count s + j /\
    used_page_count s' = used_page_count s - j /\
    reserved_page_count s' = reserved_page_count s).
  enough (P (0 + Z.of_nat (Z.to_nat count)) (for_loop (Z.to_nat count) 0
            (fun i s => free_one (ptr / PAGE_SIZE +u i) s) s)) as H
    by (unfold P in H; rewrite Z2Nat.id in H by lia; apply H).
  apply for_loop_inv; unfold P.
  - split_and!; try done; try lia. intros q Hq. apply Hset. lia.
  - intros j s' Hj (Hwf' & Htot & Hbits & Hf & Hu & Hr).
    rewrite u64_small by (unfold word64; lia).
    destruct (free_one_spec (ptr / PAGE_SIZE + j) s') as (H1 & H2 & H3); [done|lia|].
    split; [done|]. split; [congruence|]. split.
    { intros q Hq. rewrite H3, Hbits by lia. rewrite andb_true_r.
      apply negb_true_iff, Z.eqb_neq. lia. }
    pose proof (wf_total _ Hwf'). pose proof (wf_free _ Hwf') as Hfr.
    pose proof (count_clear_bound (bitmap s') (Z.to_nat (total_page_count s'))).
    unfold free_one. rewrite Hbits by lia.
    replace (ptr / PAGE_SIZE + j <? total_page_count s') with true
      by (symmetry; apply Z.ltb_lt; lia).
    cbn. rewrite !u64_small by (unfold word64; lia).
    split_and!; try lia. case_test; bool_to_prop; lia.
Qed.

(** ** Histories

    A history of the allocator: its state with the regions handed out and
    not yet returned. *)
Definition region := (Z * Z)%type.
Definition in_region (q : Z) (r : region) : Prop :=
  r.1 / PAGE_SIZE <= q < r.1 / PAGE_SIZE + r.2.

Inductive pmm_step : pmm_state * list region -> pmm_state * list region -> Prop :=
| step_alloc count s m p s' m' live :
    0 < count < 4294967296 ->
    pmm_alloc_pages count s m = (p, s', m') -> p <> 0 ->
    pmm_step (s, live) (s', (p, count) :: live)
| step_alloc_fail count s m s' m' live :
    0 <= count < 4294967296 ->
    pmm_alloc_pages count s m = (0, s', m') ->
    pmm_step (s, live) (s', live)
| step_free p count s live1 live2 :
    pmm_step (s, live1 ++ (p, count) :: live2)
             (pmm_free_pages p count s, live1 ++ live2).

(** Every live region lies in managed memory above 1 MiB and its pages are
    marked; no page belongs to two live regions. *)
Record history_ok (c : pmm_state * list region) : Prop := {
  h_wf : pmm_wf c.1;
  h_region : forall r, r ∈ c.2 -> r.1 mod PAGE_SIZE = 0 /\ LOW_RESERVED_END <= r.1 /\
     0 < r.2 < 4294967296 /\ r.1 / PAGE_SIZE + r.2 <= total_page_count c.1 /\
     forall q, in_region q r -> bitmap_test (bitmap c.1) q = true;
  h_disjoint : forall i j r1 r2 q, c.2 !! i = Some r1 -> c.2 !! j = Some r2 ->
     in_region q r1 -> in_region q r2 -> i = j;
}.

Lemma in_region_bound q r :
  LOW_RESERVED_END <= r.1 -> in_region q r -> 0 <= q.
Proof. unfold in_region, LOW_RESERVED_END, PAGE_SIZE. zlia. Qed.

Lemma pmm_history_alloc count s m p s' m' live :
  0 < count < 4294967296 -> pmm_alloc_pages count s m = (p, s', m') -> p <> 0 ->
  history_ok (s, live) -> history_ok (s', (p, count) :: live).
Proof.
  intros Hc Heq Hp [Hwf Hreg Hdis]. cbn in Hwf, Hreg, Hdis.
  pose proof (pa_alloc_ok count s m p s' m' Hwf ltac:(lia) Heq Hp) as Hpost.
  destruct Hpost as [Hal Hlow Hhigh Hfresh Hlive _ Hwf' Htop]. cbn in *.
  assert (p / PAGE_SIZE + count <= total_page_count s) as Hend
    by (unfold PAGE_SIZE in *; zlia).
  assert (forall r q, r ∈ live -> in_region q r ->
            0 <= q < total_page_count s /\ bitmap_test (bitmap s) q = true) as Hset.
  { intros r q Hr Hq. destruct (Hreg r Hr) as (_ & H1 & H2 & H3 & H4).
    pose proof (in_region_bound _ _ H1 Hq). split; [|auto]. unfold in_region in Hq. lia. }
  split; cbn; [done| |].
  - intros r [->|Hr]%elem_of_cons; cbn.
    + split_and!; try done; try lia. intros q Hq. apply Hlive. by right.
    + destruct (Hreg r Hr) as (H1 & H2 & H3 & H4 & H5). split_and!; try done; try lia.
      intros q Hq. apply Hlive. left. eauto.
  - intros [|i] [|j] r1 r2 q H1 H2 Hq1 Hq2; cbn in *; simplify_eq; [done| | |eauto].
    + destruct (Hfresh q Hq1). eapply Hset; eauto using list_elem_of_lookup_2.
    + destruct (Hfresh q Hq2). eapply Hset; eauto using list_elem_of_lookup_2.
Qed.

Lemma pmm_history_free p count s live1 live2 :
  history_ok (s, live1 ++ (p, count) :: live2) ->
  history_ok (pmm_free_pages p count s, live1 ++ live2).
Proof.
  intros [Hwf Hreg Hdis]. cbn in Hwf, Hreg, Hdis.
  destruct (Hreg (p, count)) as (Ha & Hlow & Hcb & Hend & Hset);
    [apply elem_of_app; right; left|]. cbn in Ha, Hlow, Hcb, Hend.
  pose proof (wf_total _ Hwf).
  destruct (pmm_free_pages_spec p count s) as (Hwf' & Htot & Hbits); [done| |lia|].
  { unfold LOW_RESERVED_END, PAGE_SIZE in *. zlia. }
  split; cbn; [done| |].
  - intros r Hr. destruct (Hreg r) as (H1 & H2 & H3 & H4 & H5).
    { rewrite elem_of_app, elem_of_cons. rewrite elem_of_app in Hr. tauto. }
    split_and!; try done; try lia. intros q Hq. pose proof (in_region_bound _ _ H2 Hq).
    rewrite Hbits, (H5 q Hq) by (unfold in_region in Hq; lia).
    rewrite andb_true_r. apply negb_true_iff, not_true_is_false. intros Hin. bool_to_prop.
    apply list_elem_of_lookup in Hr as [i Hi]. rewrite (lookup_skip _ _ (p, count)) in Hi.
    apply (skip_index_ne (length live1) i).
    eapply (Hdis _ (length live1) r (p, count) q); eauto; [by rewrite list_lookup_middle|].
    unfold in_region. cbn. lia.
  - intros i j r1 r2 q Hi Hj Hq1 Hq2.
    rewrite (lookup_skip _ _ (p, count)) in Hi, Hj.
    apply (skip_index_inj (length live1)). eauto.
Qed.

Lemma history_step c c' : pmm_step c c' -> history_ok c -> history_ok c'.
Proof.
  intros Hstep Hok. destruct Hstep as [|count s m s' m' live Hc Heq|];
    eauto using pmm_history_alloc, pmm_history_free.
  pose proof (h_wf _ Hok) as Hwf. cbn in Hwf.
  pose proof (pa_alloc_none count s m s' m' Hwf Hc Heq) as [-> _]. done.
Qed.

(** C1: in every history that starts with no region handed out, however
    allocations, failed allocations and frees are interleaved, no physical
    page ever belongs to two live regions, and no page of a live region is
    marked free, lies below 1 MiB or past the end of memory. *)
Theorem pmm_no_double_allocation s0 c :
  pmm_wf s0 -> rtc pmm_step (s0, []) c -> history_ok c.
Proof.
  intros Hwf Hrtc. assert (history_ok (s0, [])) as Hinit.
  { split; cbn; [done|intros r Hr%not_elem_of_nil; done|done]. }
  remember (s0, @nil region) as c0 eqn:E. clear E.
  induction Hrtc; eauto using history_step.
Qed.

(** ** Initialisation *)

(** The page numbers a descriptor covers. *)
Definition covers (d : OreMemoryDescriptor) (q : Z) : bool :=
  usable_descriptor d && (d_physical_start d / PAGE_SIZE <=? q) &&
  (q <? d_physical_start d / PAGE_SIZE + d_number_of_pages d).
Definition covered (ds : list OreMemoryDescriptor) (q : Z) : bool :=
  existsb (fun d => covers d q) ds.

Lemma covered_cons d ds q : covered (d :: ds) q = covers d q || covered ds q.
Proof. done. Qed.

(** The pages of a byte range, rounded outwards. *)
Definition in_bytes (start limit q : Z) : bool :=
  (start / PAGE_SIZE <=? q) && (q * PAGE_SIZE <? limit).

(** A memory map as UEFI documents it: page-aligned, non-overlapping
    descriptors, within the 52-bit physical address space. *)
Definition desc_ok (d : OreMemoryDescriptor) : Prop :=
  d_physical_start d mod PAGE_SIZE = 0 /\ 0 <= d_physical_start d /\
  0 <= d_number_of_pages d /\
  d_physical_start d + d_number_of_pages d * PAGE_SIZE <= 4503599627370496.

Fixpoint disjoint_descs (ds : list OreMemoryDescriptor) : Prop :=
  match ds with
  | [] => True
  | d :: ds' => (forall q, covers d q = true -> covered ds' q = false) /\ disjoint_descs ds'
  end.

Definition range_ok (base size : Z) : Prop :=
  0 <= base /\ 0 <= size /\ base + size <= 4503599627370496.

Record boot_ok (bi : BootInfo) (bi_addr : Z) : Prop := {
  bo_descs : Forall desc_ok (boot_descriptors bi);
  bo_disjoint : disjoint_descs (boot_descriptors bi);
  bo_kernel : range_ok (bi_kernel_base bi) (bi_kernel_size bi);
  bo_initramfs : range_ok (bi_initramfs_base bi) (bi_initramfs_size bi);
  bo_self : range_ok bi_addr sizeof_BootInfo;
}.

Lemma desc_bounds d :
  desc_ok d ->
  desc_start d = d_physical_start d /\ desc_end d = desc_raw_end d /\
  desc_raw_end d = d_physical_start d + d_number_of_pages d * PAGE_SIZE.
Proof.
  intros (Ha & H0 & Hn & Hb). unfold desc_start, desc_end, desc_raw_end.
  unfold PAGE_SIZE in *.
  rewrite (u64_small (d_number_of_pages d * 4096)), u64_small by (unfold word64; lia).
  rewrite align_up_page, align_down_page by (unfold word64; lia).
  unfold PAGE_SIZE. zlia.
Qed.

Lemma covered_nonneg ds q : Forall desc_ok ds -> covered ds q = true -> 0 <= q.
Proof.
  intros Hds Hq. apply existsb_exists in Hq as (d & Hin & Hc).
  rewrite List.Forall_forall in Hds. destruct (Hds d Hin) as (_ & H & _).
  unfold covers in Hc. bool_to_prop. unfold PAGE_SIZE in *. zlia.
Qed.

Lemma max_phys_of_acc ds acc :
  Forall desc_ok ds -> 0 <= acc <= 4503599627370496 -> acc mod PAGE_SIZE = 0 ->
  let r := fold_left (fun acc d =>
    if negb (usable_descriptor d) then acc
    else if acc <? desc_raw_end d then desc_raw_end d else acc) ds acc in
  acc <= r <= 4503599627370496 /\ r mod PAGE_SIZE = 0 /\
  forall q, covered ds q = true -> q * PAGE_SIZE < r.
Proof.
  revert acc. induction ds as [|d ds IH]; intros acc Hds Hacc Hal; cbn [fold_left].
  { split; [lia|]. split; [done|]. done. }
  apply Forall_cons in Hds as [Hd Hds]. pose proof (desc_bounds d Hd) as (_ & _ & Hre).
  destruct Hd as (Ha & H1 & H2 & H3).
  set (acc' := if negb (usable_descriptor d) then acc else _).
  assert (acc <= acc' <= 4503599627370496 /\ acc' mod PAGE_SIZE = 0 /\
          (usable_descriptor d = true -> desc_raw_end d <= acc')) as (Hb & Hm & Hu).
  { subst acc'. destruct (usable_descriptor d); cbn [negb]; [|split_and!; done || lia].
    rewrite Hre. unfold PAGE_SIZE in *. case_test; bool_to_prop; split_and!; zlia. }
  destruct (IH acc' Hds ltac:(lia) Hm) as (IH1 & IH2 & IH3).
  split; [lia|]. split; [done|]. intros q Hq. cbn in Hq.
  apply orb_true_iff in Hq as [Hq|Hq]; [|auto].
  unfold covers in Hq. bool_to_prop. specialize (Hu ltac:(done)).
  rewrite Hre in Hu. unfold PAGE_SIZE in *. zlia.
Qed.

Lemma find_in_range_spec fuel addr need limit kb ke a :
  0 <= addr < 9223372036854775808 -> 0 <= need <= 4503599627370496 ->
  limit <= 4503599627370496 ->
  find_in_range fuel addr need limit kb ke = Some a ->
  addr <= a /\ a + need <= limit /\ ranges_overlap a (a + need) kb ke = false.
Proof.
  revert addr. induction fuel as [|fuel IH]; intros addr Ha Hn Hl; cbn [find_in_range]; [done|].
  rewrite (u64_small (addr + need)), (u64_small (addr + PAGE_SIZE))
    by (unfold word64, PAGE_SIZE; lia).
  destruct (Z.leb_spec (addr + need) limit); [|done].
  destruct (ranges_overlap addr (addr + need) kb ke) eqn:Ho.
  - intros Hf. apply IH in Hf; [|unfold PAGE_SIZE; lia..].
    unfold PAGE_SIZE in Hf. destruct Hf as (Hf1 & Hf2 & Hf3). split_and!; done || lia.
  - intros [= <-]. split_and!; done || lia.
Qed.

Lemma find_bitmap_storage_spec ds need kb ke a :
  Forall desc_ok ds -> 0 <= need <= 4503599627370496 ->
  find_bitmap_storage ds need kb ke = Ok a ->
  LOW_RESERVED_END <= a /\ a + need <= 4503599627370496 /\
  ranges_overlap a (a + need) kb ke = false.
Proof.
  intros Hds Hn. induction Hds as [|d ds Hd Hds IH]; cbn [find_bitmap_storage]; [done|].
  destruct (usable_descriptor d); cbn [negb]; [|auto].
  pose proof (desc_bounds d Hd) as (Hs & He & Hre). destruct Hd as (Ha & H1 & H2 & H3).
  destruct (find_in_range _ _ _ _ _ _) as [x|] eqn:Ef; [|auto]. intros [= <-].
  rewrite Hs, He, Hre in Ef. unfold LOW_RESERVED_END, PAGE_SIZE in *.
  apply find_in_range_spec in Ef as (E1 & E2 & E3); [|destruct (_ <? _) eqn:?; lia|lia..].
  split_and!; [|lia|done]. destruct (Z.ltb_spec (d_physical_start d) 1048576); lia.
Qed.

(** State of the counters and of the bitmap while [pmm_init] runs. *)
Record init_inv (total : Z) (s : pmm_state) : Prop := {
  ii_total : total_page_count s = total /\ 0 <= total <= 1099511627776;
  ii_max : max_phys s = total * PAGE_SIZE;
  ii_free : free_page_count s = count_clear (bitmap s) (Z.to_nat total);
  ii_sum : free_page_count s + reserved_page_count s = total;
  ii_used : used_page_count s = 0;
}.

Lemma release_page_spec total page s :
  init_inv total s -> 0 <= page < total -> bitmap_test (bitmap s) page = true ->
  init_inv total (release_page page s) /\
  forall q, 0 <= q -> bitmap_test (bitmap (release_page page s)) q =
    negb (page =? q) && bitmap_test (bitmap s) q.
Proof.
  intros [[Ht Hb] Hm Hf Hs Hu] Hp Hbit. split.
  - pose proof (count_clear_bound (bitmap_clear (bitmap s) page) (Z.to_nat total)) as Hc.
    rewrite count_clear_clear in Hc by (done || lia).
    split; cbn; try done; rewrite ?count_clear_clear by (done || lia);
      rewrite ?u64_small by (unfold word64; lia); lia.
  - intros q Hq. cbn. apply bitmap_test_clear; lia.
Qed.

Lemma reserve_page_spec total page s :
  init_inv total s -> 0 <= page < total ->
  init_inv total (reserve_page page s) /\
  forall q, 0 <= q -> bitmap_test (bitmap (reserve_page page s)) q =
    (page =? q) || bitmap_test (bitmap s) q.
Proof.
  intros Hinv Hp. unfold reserve_page.
  destruct (bitmap_test (bitmap s) page) eqn:Hbit; cbn [negb].
  { split; [done|]. intros q Hq. destruct (Z.eqb_spec page q) as [<-|]; [by rewrite Hbit|done]. }
  destruct Hinv as [[Ht Hb] Hm Hf Hs Hu]. split.
  - pose proof (count_clear_bound (bitmap_set (bitmap s) page) (Z.to_nat total)) as Hc.
    pose proof (count_clear_bound (bitmap s) (Z.to_nat total)) as Hc'.
    rewrite count_clear_set in Hc by (done || lia).
    replace (free_page_count s =? 0) with false by (symmetry; apply Z.eqb_neq; lia).
    split; cbn; try done; rewrite ?count_clear_set by (done || lia);
      rewrite ?u64_small by (unfold word64; lia); lia.
  - intros q Hq. cbn. apply bitmap_test_set; lia.
Qed.

Lemma reserve_range_spec total start size s :
  init_inv total s -> range_ok start size ->
  init_inv total (reserve_range start (start +u size) s) /\
  forall q, 0 <= q < total ->
    bitmap_test (bitmap (reserve_range start (start +u size) s)) q =
    in_bytes start (start + size) q || bitmap_test (bitmap s) q.
Proof.
  intros Hinv (H1 & H2 & H3). unfold reserve_range.
  rewrite (u64_small (start + size)) by (unfold word64; lia).
  rewrite align_down_page, align_up_page by (unfold word64; lia).
  rewrite (ii_max _ _ Hinv). destruct (ii_total _ _ Hinv) as [_ Hb].
  set (p0 := start / PAGE_SIZE). set (p1 := (start + size + 4095) / PAGE_SIZE).
  set (n := page_trips _ _).
  assert (Z.of_nat n = Z.max 0 (Z.min p1 total - p0)) as Hn.
  { subst n p0 p1. unfold page_trips, PAGE_SIZE. zlia. }
  pose (P := fun (j : Z) s' => init_inv total s' /\ forall q, 0 <= q < total ->
    bitmap_test (bitmap s') q = ((p0 <=? q) && (q <? p0 + j)) || bitmap_test (bitmap s) q).
  assert (P (0 + Z.of_nat n) (for_loop n 0 (fun i s =>
    reserve_page ((p0 * PAGE_SIZE + i * PAGE_SIZE) / PAGE_SIZE) s) s)) as [Hi Hq].
  { apply for_loop_inv; unfold P.
    - split; [done|]. intros q Hq. cmp_cases.
    - intros j s' Hj [Hi Hq].
      replace ((p0 * PAGE_SIZE + j * PAGE_SIZE) / PAGE_SIZE) with (p0 + j)
        by (unfold PAGE_SIZE; zlia).
      destruct (reserve_page_spec total (p0 + j) s' Hi) as [Hi' Hq'];
        [subst p0; unfold PAGE_SIZE in *; zlia|].
      split; [done|]. intros q Hq0. rewrite Hq', Hq by lia. cmp_cases. }
  split; [done|]. intros q Hq0. rewrite Hq by done. f_equal. rewrite Hn.
  unfold in_bytes. fold p0. subst p1. unfold PAGE_SIZE in *. cmp_cases; zlia.
Qed.

Lemma release_descriptor_spec total d s :
  init_inv total s -> desc_ok d ->
  (forall q, covers d q = true -> 0 <= q < total /\ bitmap_test (bitmap s) q = true) ->
  init_inv total (release_descriptor s d) /\
  forall q, 0 <= q -> bitmap_test (bitmap (release_descriptor s d)) q =
    negb (covers d q) && bitmap_test (bitmap s) q.
Proof.
  intros Hinv Hd Hcov. unfold release_descriptor, covers in *.
  destruct (usable_descriptor d); cbn [negb andb] in *; [|done].
  pose proof (desc_bounds d Hd) as (Hs & He & Hre). rewrite Hs, He, Hre.
  destruct Hd as (Ha & H1 & H2 & H3). set (p0 := d_physical_start d / PAGE_SIZE) in *.
  assert (d_physical_start d = p0 * PAGE_SIZE) as Hst by (subst p0; unfold PAGE_SIZE in *; zlia).
  rewrite Hst. clearbody p0.
  replace (p0 * PAGE_SIZE + d_number_of_pages d * PAGE_SIZE - p0 * PAGE_SIZE)
    with (d_number_of_pages d * PAGE_SIZE) by lia.
  rewrite Z.div_mul by done. set (n := Z.to_nat (d_number_of_pages d)).
  pose (P := fun (j : Z) s' => init_inv total s' /\ forall q, 0 <= q ->
    bitmap_test (bitmap s') q = negb ((p0 <=? q) && (q <? p0 + j)) && bitmap_test (bitmap s) q).
  assert (P (0 + Z.of_nat n) (for_loop n 0 (fun i s =>
    release_page ((p0 * PAGE_SIZE + i * PAGE_SIZE) / PAGE_SIZE) s) s)) as [Hi Hq].
  { apply for_loop_inv; unfold P.
    - split; [done|]. intros q Hq. cmp_cases.
    - intros j s' Hj [Hi Hq].
      replace ((p0 * PAGE_SIZE + j * PAGE_SIZE) / PAGE_SIZE) with (p0 + j)
        by (unfold PAGE_SIZE; zlia).
      destruct (Hcov (p0 + j)) as [Hr Hset]; [bool_to_prop; lia|].
      destruct (release_page_spec total (p0 + j) s' Hi) as [Hi' Hq']; [done| |].
      { rewrite Hq, Hset by lia. cmp_cases. }
      split; [done|]. intros q Hq0. rewrite Hq', Hq by lia. cmp_cases. }
  split; [done|]. intros q Hq0. rewrite Hq by done.
  replace (0 + Z.of_nat n) with (d_number_of_pages d) by lia. done.
Qed.

Lemma release_all_spec total ds s :
  init_inv total s -> Forall desc_ok ds -> disjoint_descs ds ->
  (forall q, covered ds q = true -> 0 <= q < total /\ bitmap_test (bitmap s) q = true) ->
  init_inv total (fold_left release_descriptor ds s) /\
  forall q, 0 <= q -> bitmap_test (bitmap (fold_left release_descriptor ds s)) q =
    negb (covered ds q) && bitmap_test (bitmap s) q.
Proof.
  revert s. induction ds as [|d ds IH]; intros s Hinv Hds Hdis Hcov; cbn [fold_left].
  { split; [done|]. done. }
  apply Forall_cons in Hds as [Hd Hds]. destruct Hdis as [Hdd Hdis].
  destruct (release_descriptor_spec total d s Hinv Hd) as [Hi Hq].
  { intros q Hq. apply Hcov. by rewrite covered_cons, Hq. }
  destruct (IH (release_descriptor s d) Hi Hds Hdis) as [Hi' Hq'].
  { intros q Hc. destruct (Hcov q) as [Hr Hset]; [by rewrite covered_cons, Hc, orb_true_r|].
    split; [done|]. rewrite Hq, Hset, andb_true_r by lia. apply negb_true_iff.
    destruct (covers d q) eqn:E; [|done]. by rewrite (Hdd q E) in Hc. }
  split; [done|]. intros q Hq0. rewrite Hq', Hq, covered_cons by done.
  destruct (covers d q), (covered ds q); done.
Qed.

Lemma bitmap_all_set bytes q :
  0 <= q < 8 * bytes ->
  bitmap_test (for_loop (Z.to_nat bytes) 0 (fun i b => store8 b i 0xff) ∅) q = true.
Proof.
  intros Hq. rewrite bitmap_test_bit by lia.
  assert (load8 (for_loop (Z.to_nat bytes) 0 (fun i b => store8 b i 0xff) ∅) (q / 8) = 255) as ->.
  { pose proof (for_loop_inv (fun j b => 0 <= q / 8 < j -> load8 b (q / 8) = 255)
      (fun i b => store8 b i 0xff) (Z.to_nat bytes) 0 ∅) as H. apply H; [lia| |zlia].
    intros j b Hj IH Hlt. rewrite load8_store8. cmp_cases. }
  change 255 with (Z.ones 8). apply Z.ones_spec_low. zlia.
Qed.

(** The pages [pmm_init] withholds from the allocator. *)
Definition protected (bi : BootInfo) (bi_addr bitmap_addr bytes q : Z) : bool :=
  in_bytes 0 LOW_RESERVED_END q ||
  in_bytes bitmap_addr (bitmap_addr + bytes) q ||
  in_bytes (bi_kernel_base bi) (bi_kernel_base bi + bi_kernel_size bi) q ||
  (negb (bi_initramfs_base bi =? 0) && negb (bi_initramfs_size bi =? 0) &&
   in_bytes (bi_initramfs_base bi) (bi_initramfs_base bi + bi_initramfs_size bi) q) ||
  in_bytes bi_addr (bi_addr + sizeof_BootInfo) q.

Lemma trampoline_low q : in_bytes TRAMPOLINE_START TRAMPOLINE_END q = true ->
  in_bytes 0 LOW_RESERVED_END q = true.
Proof.
  unfold in_bytes, TRAMPOLINE_START, TRAMPOLINE_END, LOW_RESERVED_END, PAGE_SIZE.
  intros H. bool_to_prop; zlia.
Qed.

(** The chain of reservations at the end of [pmm_init]. *)
Lemma reserve_chain_spec total bi bi_addr ba bytes s :
  init_inv total s -> boot_ok bi bi_addr -> range_ok ba bytes ->
  let s1 := reserve_range 0 LOW_RESERVED_END s in
  let s2 := reserve_range TRAMPOLINE_START TRAMPOLINE_END s1 in
  let s3 := reserve_range ba (ba +u bytes) s2 in
  let s4 := reserve_range (bi_kernel_base bi) (bi_kernel_base bi +u bi_kernel_size bi) s3 in
  let s5 := if negb (bi_initramfs_base bi =? 0) && negb (bi_initramfs_size bi =? 0)
            then reserve_range (bi_initramfs_base bi)
                   (bi_initramfs_base bi +u bi_initramfs_size bi) s4 else s4 in
  let s6 := reserve_range bi_addr (bi_addr +u sizeof_BootInfo) s5 in
  init_inv total s6 /\ forall q, 0 <= q < total ->
    bitmap_test (bitmap s6) q = protected bi bi_addr ba bytes q || bitmap_test (bitmap s) q.
Proof.
  intros Hinv [_ _ Hk Hi Hself] Hba s1 s2 s3 s4 s5 s6.
  destruct (reserve_range_spec total 0 LOW_RESERVED_END s Hinv) as [I1 B1];
    [done|]. change (0 +u LOW_RESERVED_END) with LOW_RESERVED_END in I1, B1. fold s1 in I1, B1.
  destruct (reserve_range_spec total TRAMPOLINE_START (TRAMPOLINE_END - TRAMPOLINE_START) s1 I1)
    as [I2 B2]; [done|]. change (TRAMPOLINE_START +u (TRAMPOLINE_END - TRAMPOLINE_START))
    with TRAMPOLINE_END in I2, B2. fold s2 in I2, B2.
  destruct (reserve_range_spec total _ _ s2 I2 Hba) as [I3 B3]. fold s3 in I3, B3.
  destruct (reserve_range_spec total _ _ s3 I3 Hk) as [I4 B4]. fold s4 in I4, B4.
  assert (init_inv total s5 /\ forall q, 0 <= q < total -> bitmap_test (bitmap s5) q =
    (negb (bi_initramfs_base bi =? 0) && negb (bi_initramfs_size bi =? 0) &&
     in_bytes (bi_initramfs_base bi) (bi_initramfs_base bi + bi_initramfs_size bi) q) ||
    bitmap_test (bitmap s4) q) as [I5 B5].
  { subst s5. destruct (_ && _); cbn [andb]; [|done]. by apply reserve_range_spec. }
  destruct (reserve_range_spec total _ _ s5 I5 Hself) as [I6 B6]. fold s6 in I6, B6.
  split; [done|]. intros q Hq. rewrite B6, B5, B4, B3, B2, B1 by done. unfold protected.
  change (TRAMPOLINE_START + (TRAMPOLINE_END - TRAMPOLINE_START)) with TRAMPOLINE_END.
  change (0 + LOW_RESERVED_END) with LOW_RESERVED_END.
  destruct (in_bytes TRAMPOLINE_START TRAMPOLINE_END q) eqn:Et;
    [rewrite (trampoline_low q Et)|]; clear; btauto.
Qed.

Lemma reserve_range_bytes a b s : bitmap_bytes (reserve_range a b s) = bitmap_bytes s.
Proof.
  apply for_loop_proj. intros j s'. unfold reserve_page. case_test; done.
Qed.

Lemma release_all_bytes ds s :
  bitmap_bytes (fold_left release_descriptor ds s) = bitmap_bytes s.
Proof.
  revert s. induction ds as [|d ds IH]; intros s; cbn [fold_left]; [done|].
  rewrite IH. unfold release_descriptor. case_test; [done|]. by apply for_loop_proj.
Qed.

(** The size of the bitmap holds one bit per page. *)
Lemma bitmap_size total :
  0 <= total <= 1099511627776 ->
  let bytes := align_up ((total +u 7) / 8) PAGE_SIZE in
  total <= 8 * bytes /\ 0 <= bytes <= 137438957568 /\
  (align_up bytes PAGE_SIZE / PAGE_SIZE) *u PAGE_SIZE = bytes.
Proof.
  intros Ht bytes. subst bytes.
  rewrite (u64_small (total + 7)) by (unfold word64; lia).
  rewrite (align_up_page ((total + 7) / 8)) by zlia.
  rewrite align_up_page by (unfold PAGE_SIZE; zlia).
  rewrite u64_small by (unfold word64, PAGE_SIZE; zlia).
  unfold PAGE_SIZE. zlia.
Qed.

(** The search finds any place that is there. *)
Lemma find_in_range_complete fuel addr need limit kb ke a :
  0 <= addr <= a -> (a - addr) mod PAGE_SIZE = 0 -> (a - addr) / PAGE_SIZE < Z.of_nat fuel ->
  0 <= need -> a + need <= limit -> limit <= 4503599627370496 -> ranges_overlap a (a + need) kb ke = false ->
  find_in_range fuel addr need limit kb ke <> None.
Proof.
  revert addr. induction fuel as [|fuel IH]; intros addr Ha Hal Hf Hn Hl Hlim Ho.
  { unfold PAGE_SIZE in *. zlia. }
  cbn [find_in_range]. rewrite (u64_small (addr + need)), (u64_small (addr + PAGE_SIZE)) by (unfold word64, PAGE_SIZE; lia).
  rewrite (proj2 (Z.leb_le _ _)) by lia. destruct (ranges_overlap addr (addr + need) kb ke) eqn:E; [|done].
  assert (addr <> a) as Hne by congruence. apply IH; try done; unfold PAGE_SIZE in *; zlia.
Qed.

Lemma find_bitmap_storage_fails ds need kb ke msg d a :
  Forall desc_ok ds -> 0 <= need -> find_bitmap_storage ds need kb ke = Panic msg ->
  d ∈ ds -> usable_descriptor d = true -> a mod PAGE_SIZE = 0 -> LOW_RESERVED_END <= a -> d_physical_start d <= a ->
  a + need <= d_physical_start d + d_number_of_pages d * PAGE_SIZE -> ranges_overlap a (a + need) kb ke = true.
Proof.
  intros Hds Hn Hf Hd Hu Ha Hlow Hs He. apply not_false_is_true. intros Ho. revert Hf. induction Hds as [|c ds Hc Hds IH]; [by apply elem_of_nil in Hd|].
  cbn [find_bitmap_storage]. pose proof (desc_bounds c Hc) as (Ss & Se & Sr). apply elem_of_cons in Hd as [->|Hd].
  - rewrite Hu. cbn [negb]. destruct Hc as (C1 & C2 & C3 & C4). rewrite Ss, Se, Sr. destruct (find_in_range _ _ _ _ _ _) eqn:E; [done|]. intros _. revert E.
    apply (find_in_range_complete _ _ _ _ _ _ a); try done; unfold LOW_RESERVED_END, PAGE_SIZE in *; case_test; bool_to_prop; zlia.
  - destruct (usable_descriptor c); cbn [negb]; [|auto]. destruct (find_in_range _ _ _ _ _ _); [done|auto].
Qed.

(** The bytes of the bitmap of [mp] bytes of memory, in whole pages. *)
Definition bitmap_room (mp : Z) : Z := ((mp / PAGE_SIZE + 7) / 8 + 4095) / PAGE_SIZE * PAGE_SIZE.

(** No usable part of memory above 1 MiB has room for the bitmap beside the kernel. *)
Definition no_bitmap_room (bi : BootInfo) : Prop :=
  let need := bitmap_room (max_phys_of (boot_descriptors bi)) in
  forall d a, d ∈ boot_descriptors bi -> usable_descriptor d = true -> a mod PAGE_SIZE = 0 ->
    LOW_RESERVED_END <= a -> d_physical_start d <= a -> a + need <= d_physical_start d + d_number_of_pages d * PAGE_SIZE ->
    ranges_overlap a (a + need) (bi_kernel_base bi) (bi_kernel_base bi + bi_kernel_size bi) = true.

Lemma max_phys_of_ge ds d : d ∈ ds -> usable_descriptor d = true -> desc_raw_end d <= max_phys_of ds.
Proof.
  unfold max_phys_of. generalize 0. induction ds as [|c ds IH]; intros acc Hd Hu; [by apply elem_of_nil in Hd|]. cbn [fold_left].
  apply elem_of_cons in Hd as [->|Hd]; [|by apply IH]. rewrite Hu. cbn [negb]. clear IH Hu.
  match goal with |- _ <= fold_left ?f ds ?x => assert (forall l y, y <= fold_left f l y) as Hmono end.
  { induction l as [|e l IH]; intros y; cbn [fold_left]; [done|]. etrans; [|apply IH]. repeat case_test; bool_to_prop; lia. }
  etrans; [|apply Hmono]. case_test; bool_to_prop; lia.
Qed.

(** [pmm_init] panics only when there is no room for the bitmap. *)
Lemma pmm_init_panics bi bi_addr msg : boot_ok bi bi_addr -> pmm_init bi bi_addr = Panic msg -> no_bitmap_room bi.
Proof.
  intros Hb. destruct (max_phys_of_acc (boot_descriptors bi) 0) as (M1 & M2 & M3);
    [apply Hb|lia|done|]. fold (max_phys_of (boot_descriptors bi)) in M1, M2, M3.
  unfold no_bitmap_room, pmm_init. set (mp := max_phys_of _) in *. set (total := align_up mp PAGE_SIZE / PAGE_SIZE).
  assert (mp = total * PAGE_SIZE /\ 0 <= total <= 1099511627776) as [Hmp Ht].
  { subst total. rewrite align_up_page by lia. unfold PAGE_SIZE in *. zlia. }
  assert (bitmap_room mp = align_up ((total +u 7) / 8) PAGE_SIZE) as Hroom.
  { rewrite (u64_small (total + 7)), align_up_page by (unfold word64; zlia). unfold bitmap_room. by rewrite Hmp, Z.div_mul. }
  assert (0 <= bitmap_room mp) as Hr0 by (unfold bitmap_room, PAGE_SIZE; zlia).
  pose proof (bitmap_size total Ht) as (_ & _ & Hneed). cbn zeta in Hneed. rewrite <- Hroom in Hneed |- *. cbv zeta. rewrite Hneed.
  pose proof (bo_kernel _ _ Hb) as (K1 & K2 & K3).
  rewrite (u64_small (bi_kernel_base bi + bi_kernel_size bi)) at 1 by (unfold word64; lia).
  case_test; bool_to_prop.
  - intros _ d a Hd Hu Ha Hlow Hs He. exfalso.
    pose proof (bo_descs _ _ Hb) as HD. rewrite Forall_forall in HD. pose proof (desc_bounds d (HD d Hd)) as (_ & _ & Er).
    pose proof (max_phys_of_ge _ d Hd Hu) as Hge. fold mp in Hge. unfold LOW_RESERVED_END in *. lia.
  - destruct (find_bitmap_storage _ _ _ _) as [x|m] eqn:Ef; cbn [outcome_bind]; [done|]. intros _ d a.
    by apply (find_bitmap_storage_fails _ _ _ _ _ d a (bo_descs _ _ Hb) Hr0 Ef).
Qed.

(** The allocator after [pmm_init]. *)
Lemma pmm_init_spec bi bi_addr ba s :
  boot_ok bi bi_addr -> pmm_init bi bi_addr = Ok (ba, s) ->
  total_page_count s * PAGE_SIZE = max_phys_of (boot_descriptors bi) /\
  pmm_wf s /\ pmm_balanced s /\ LOW_RESERVED_END <= ba /\
  ranges_overlap ba (ba + bitmap_bytes s) (bi_kernel_base bi)
    (bi_kernel_base bi + bi_kernel_size bi) = false /\
  forall q, 0 <= q < total_page_count s ->
    (bitmap_test (bitmap s) q = false <->
     covered (boot_descriptors bi) q = true /\
     protected bi bi_addr ba (bitmap_bytes s) q = false).
Proof.
  intros Hb. unfold pmm_init. case_test; [done|].
  destruct (max_phys_of_acc (boot_descriptors bi) 0) as (M1 & M2 & M3);
    [apply Hb|lia|done|]. fold (max_phys_of (boot_descriptors bi)) in M1, M2, M3.
  set (mp := max_phys_of _) in *. set (total := align_up mp PAGE_SIZE / PAGE_SIZE).
  assert (mp = total * PAGE_SIZE /\ 0 <= total <= 1099511627776) as [Hmp Ht].
  { subst total. rewrite align_up_page by lia. unfold PAGE_SIZE in *. zlia. }
  pose proof (bitmap_size total Ht) as (Hbits & Hbytes & Hneed). cbn zeta in Hbits, Hbytes, Hneed.
  set (bytes := align_up ((total +u 7) / 8) PAGE_SIZE) in *. rewrite Hneed.
  pose proof (bo_kernel _ _ Hb) as (K1 & K2 & K3).
  rewrite (u64_small (bi_kernel_base bi + bi_kernel_size bi)) at 1 by (unfold word64; lia).
  destruct (find_bitmap_storage _ _ _ _) as [a|] eqn:Ef; cbn [outcome_bind]; [|done].
  apply find_bitmap_storage_spec in Ef as (F1 & F2 & F3); [|apply Hb|lia].
  set (s0 := mk_pmm _ bytes mp total 0 total 0).
  assert (init_inv total s0) as I0.
  { split; cbn; try done; try lia. rewrite (count_clear_all_set _ (Z.to_nat total)); [done|].
    intros q Hq. apply bitmap_all_set. lia. }
  destruct (release_all_spec total (boot_descriptors bi) s0 I0) as [I1 B1]; [apply Hb..| |].
  { intros q Hq. pose proof (M3 q Hq). pose proof (covered_nonneg _ _ (bo_descs _ _ Hb) Hq).
    assert (q < total) by (unfold PAGE_SIZE in *; lia).
    split; [lia|]. apply bitmap_all_set. lia. }
  destruct (reserve_chain_spec total bi bi_addr a bytes _ I1 Hb) as [I2 B2].
  { unfold range_ok. unfold LOW_RESERVED_END in F1. lia. }
  cbn zeta in I2, B2. intros [= <- Hs]. rewrite Hs in I2, B2.
  assert (bitmap_bytes s = bytes) as ->.
  { rewrite <- Hs. rewrite reserve_range_bytes. case_test;
      rewrite ?reserve_range_bytes; apply release_all_bytes. }
  clear Hs. destruct I2 as [[T1 _] _ T3 T4 T5]. rewrite T1.
  pose proof (count_clear_bound (bitmap s) (Z.to_nat total)).
  split; [lia|]. split; [by split; rewrite T1|]. split; [unfold pmm_balanced; lia|].
  split; [done|]. split; [done|]. intros q Hq.
  rewrite B2, B1, orb_false_iff by lia. cbn [bitmap s0]. rewrite bitmap_all_set by lia.
  rewrite andb_true_r, negb_false_iff. tauto.
Qed.

(** C2: [pmm_init], given a memory map as UEFI documents it, either panics or
    produces an allocator whose counters are exact (free + used + reserved =
    total, free = number of clear bits), whose bitmap storage lies above 1 MiB
    and beside the kernel image, and whose free pages are exactly the pages of
    usable descriptors outside low memory, the bitmap, the kernel, the
    initramfs and the boot information. *)
Theorem pmm_init_correct bi bi_addr ba s :
  boot_ok bi bi_addr -> pmm_init bi bi_addr = Ok (ba, s) ->
  pmm_wf s /\ pmm_balanced s /\ LOW_RESERVED_END <= ba /\
  ranges_overlap ba (ba + bitmap_bytes s) (bi_kernel_base bi)
    (bi_kernel_base bi + bi_kernel_size bi) = false /\
  forall q, 0 <= q < total_page_count s ->
    (bitmap_test (bitmap s) q = false <->
     covered (boot_descriptors bi) q = true /\
     protected bi bi_addr ba (bitmap_bytes s) q = false).
Proof. intros Hb E. by destruct (pmm_init_spec bi bi_addr ba s Hb E) as [_ ?]. Qed.

(** ** Properties of the operations *)

(** [pmm_alloc_pages] is first fit: it returns the address of the lowest
    run of [count] free pages at or above 1 MiB, marks exactly those pages,
    moves [count] pages from the free to the used counter and zeroes the
    memory; it returns 0, changing nothing, exactly when no such run exists. *)
Theorem pmm_alloc_first_fit count s m :
  pmm_wf s -> 0 < count < 4294967296 ->
  let '(ptr, s', m') := pmm_alloc_pages count s m in
  (ptr <> 0 /\ s' <> s /\
   256 <= ptr / PAGE_SIZE /\ ptr mod PAGE_SIZE = 0 /\
   free_run (bitmap s) (total_page_count s) (ptr / PAGE_SIZE) count /\
   (forall p, 256 <= p < ptr / PAGE_SIZE ->
      ~ free_run (bitmap s) (total_page_count s) p count) /\
   (forall q, 0 <= q -> bitmap_test (bitmap s') q =
      ((ptr / PAGE_SIZE <=? q) && (q <? ptr / PAGE_SIZE + count)) || bitmap_test (bitmap s) q) /\
   free_page_count s' = free_page_count s - count /\
   used_page_count s' = used_page_count s +u count /\
   (forall a, load8 m' a = if (ptr <=? a) && (a <? ptr + count * PAGE_SIZE) then 0 else load8 m a))
  \/ (ptr = 0 /\ s' = s /\ m' = m /\
      forall p, 256 <= p -> ~ free_run (bitmap s) (total_page_count s) p count).
Proof.
  intros Hwf Hc.
  destruct (pmm_alloc_pages_cases count s m Hwf Hc) as [(p & H256 & Hrun & Hmin & E)|[Hnone E]];
    rewrite E; [left|right; done].
  assert (p * PAGE_SIZE / PAGE_SIZE = p) as -> by (unfold PAGE_SIZE; zlia).
  assert (p * PAGE_SIZE mod PAGE_SIZE = 0) as Hmod by (unfold PAGE_SIZE; zlia).
  split; [unfold PAGE_SIZE; lia|]. split.
  { intros Hs. apply (f_equal free_page_count) in Hs. cbn in Hs. lia. }
  split_and!; try done.
  - intros q Hq. apply set_pages_test; lia.
  - intros a. apply load8_mem_zero.
Qed.

(** freeing a region right after allocating it restores every page bit and
    every counter, and the allocator never loses track of a page: after the
    allocation and after the free, free + used + reserved = total. *)
Theorem pmm_alloc_free_roundtrip count s m ptr s' m' :
  pmm_wf s -> pmm_balanced s -> 0 < count < 4294967296 ->
  pmm_alloc_pages count s m = (ptr, s', m') -> ptr <> 0 ->
  let s'' := pmm_free_pages ptr count s' in
  pmm_balanced s' /\ pmm_balanced s'' /\
  free_page_count s'' = free_page_count s /\ used_page_count s'' = used_page_count s /\
  reserved_page_count s'' = reserved_page_count s /\
  forall q, 0 <= q < total_page_count s -> bitmap_test (bitmap s'') q = bitmap_test (bitmap s) q.
Proof.
  intros Hwf (Hsum & Hu & Hr) Hc Heq Hp s''. subst s''.
  pose proof (pmm_alloc_wf count s m ptr s' m' Hwf ltac:(lia) Heq) as Hwf'.
  destruct (pmm_alloc_pages_cases count s m Hwf Hc) as [(p & H256 & [Hend Hrun] & _ & E)|[_ E]];
    rewrite E in Heq; [|congruence].
  pose proof (wf_total _ Hwf). pose proof (wf_free _ Hwf) as Hf.
  pose proof (count_clear_bound (bitmap s) (Z.to_nat (total_page_count s))).
  assert (p * PAGE_SIZE / PAGE_SIZE = p) as Hdiv by (unfold PAGE_SIZE; zlia).
  assert (0 < p * PAGE_SIZE < 18446744073709551616) as Hpb by (unfold PAGE_SIZE; lia).
  assert (used_page_count s +u count = used_page_count s + count) as Hused
    by (apply u64_small; unfold word64; lia).
  rewrite Hused in Heq. injection Heq as <- Hs _.
  assert (total_page_count s' = total_page_count s /\ free_page_count s' = free_page_count s - count
    /\ used_page_count s' = used_page_count s + count
    /\ reserved_page_count s' = reserved_page_count s
    /\ bitmap s' = set_pages p count (bitmap s)) as (E1 & E2 & E3 & E4 & E5) by (by subst s').
  destruct (free_loop_counters (p * PAGE_SIZE) count s') as (C1 & C2 & C3);
    rewrite ?Hdiv, ?E1; try done; try lia.
  { intros q Hq. rewrite E5, set_pages_test by lia. cmp_cases. }
  destruct (pmm_free_pages_spec (p * PAGE_SIZE) count s') as (_ & T & B); [done|lia|lia|].
  unfold pmm_balanced. rewrite ?C1, ?C2, ?C3, T. split_and!; try lia.
  intros q Hq. rewrite B by (rewrite E1; lia). rewrite Hdiv, E5, set_pages_test by lia.
  destruct ((p <=? q) && (q <? p + count)) eqn:Ein; cbn [negb andb orb]; [|done].
  bool_to_prop. by rewrite Hrun by lia.
Qed.

(** ** Example: a 1.25 MiB machine *)

Definition demo_desc (start pages : Z) : OreMemoryDescriptor :=
  {| d_type := 7; d_physical_start := start; d_virtual_start := 0;
     d_number_of_pages := pages; d_attribute := 0 |}.

Definition demo_boot : BootInfo := {|
  bi_magic := ORE_BOOTINFO_MAGIC; bi_rsdp := 0;
  bi_kernel_base := 0x100000; bi_kernel_size := 0x4000;
  bi_initramfs_base := 0x110000; bi_initramfs_size := 5000;
  bi_framebuffer := {| fb_base := 0; fb_width := 0; fb_height := 0;
                       fb_pixels_per_scanline := 0; fb_pixel_format := 0 |};
  bi_memory_map_entries := 2; bi_memory_map_descriptor_size := 40;
  bi_memory_map := [demo_desc 0 160; demo_desc 0x100000 64];
  bi_cmdline := [] |}.

Definition demo_pmm : pmm_state :=
  match pmm_init demo_boot 0x120000 with
  | Ok (_, s) => s
  | Panic _ => mk_pmm ∅ 0 0 0 0 0 0
  end.

Lemma demo_boot_ok : boot_ok demo_boot 0x120000.
Proof.
  split; [by repeat constructor| |done..].
  change (disjoint_descs [demo_desc 0 160; demo_desc 0x100000 64]).
  split; [|done]. intros q Hq. apply not_true_is_false. intros Hq'.
  rewrite covered_cons in Hq'. cbn [covered existsb] in Hq'. rewrite orb_false_r in Hq'.
  unfold covers in *. bool_to_prop. cbn [d_physical_start d_number_of_pages demo_desc] in *.
  unfold PAGE_SIZE in *. zlia.
Qed.

Lemma demo_pmm_init : pmm_init demo_boot 0x120000 = Ok (0x104000, demo_pmm).
Proof.
  unfold demo_pmm.
  assert (match pmm_init demo_boot 0x120000 with Ok (a, _) => a =? 0x104000 | Panic _ => false end
          = true) as E by (vm_compute; reflexivity).
  revert E. generalize (pmm_init demo_boot 0x120000). intros [[a s]|msg] E; [|discriminate E].
  apply Z.eqb_eq in E. by rewrite E.
Qed.

(** Memory suffices where the bitmap has that many free pages in a row. *)
Lemma pmm_enough n (k : nat) p s :
  0 < n -> 256 <= p -> p + n * Z.of_nat k <= total_page_count s ->
  forallb (fun q => negb (bitmap_test (bitmap s) q)) (seqZ p (n * Z.of_nat k)) = true -> ~ no_run n k s.
Proof.
  intros Hn Hp Ht Hf. rewrite forallb_forall in Hf.
  assert (forall q, p <= q < p + n * Z.of_nat k -> bitmap_test (bitmap s) q = false) as Hq.
  { intros q Hq. apply negb_true_iff, Hf, list_elem_of_In, elem_of_seqZ. lia. }
  apply (no_run_enough n k s (map (fun i => p + n * Z.of_nat i) (seq 0 k))); [by rewrite length_map, length_seq|done| |].
  - intros i a Hi. rewrite list_lookup_fmap in Hi. destruct (seq 0 k !! i) as [j|] eqn:E; [|done].
    apply lookup_seq in E as [-> E]. injection Hi as <-. cbn. split; [nia|]. split; [nia|].
    intros q Hr [_ Hb]. rewrite Hq in Hb by nia. done.
  - intros i j a b Hi Hj Hij. rewrite list_lookup_fmap in Hi, Hj.
    destruct (seq 0 k !! i) as [i'|] eqn:Ei; [|done]. destruct (seq 0 k !! j) as [j'|] eqn:Ej; [|done].
    apply lookup_seq in Ei as [-> _]. apply lookup_seq in Ej as [-> _]. injection Hi as <-. injection Hj as <-. nia.
Qed.

Lemma demo_pmm_wf : pmm_wf demo_pmm.
Proof. split; vm_compute; [split; discriminate|reflexivity]. Qed.

Lemma demo_pmm_balanced : pmm_balanced demo_pmm.
Proof. split; [|split]; vm_compute; first [reflexivity|discriminate]. Qed.

Lemma pmm_init_correct_witness :
  pmm_wf demo_pmm /\ pmm_balanced demo_pmm /\ free_page_count demo_pmm = 54.
Proof.
  pose proof (pmm_init_correct demo_boot 0x120000 0x104000 demo_pmm
                demo_boot_ok demo_pmm_init) as (H1 & H2 & _).
  split; [exact H1|]. split; [exact H2|]. vm_compute. reflexivity.
Defined.

Lemma demo_alloc_ptr : (pmm_alloc_pages 3 demo_pmm ∅).1.1 = 0x105000.
Proof. vm_compute. reflexivity. Qed.

Lemma demo_alloc : exists s' m', pmm_alloc_pages 3 demo_pmm ∅ = (0x105000, s', m').
Proof.
  pose proof demo_alloc_ptr as E. revert E.
  generalize (pmm_alloc_pages 3 demo_pmm ∅). intros [[p s'] m'] E. cbn in E. subst p.
  by exists s', m'.
Qed.

Lemma pmm_alloc_first_fit_witness : exists s' m',
  pmm_alloc_pages 3 demo_pmm ∅ = (0x105000, s', m') /\
  used_page_count s' = used_page_count demo_pmm +u 3.
Proof.
  pose proof (pmm_alloc_first_fit 3 demo_pmm ∅ demo_pmm_wf (conj eq_refl eq_refl)) as H.
  destruct demo_alloc as (s' & m' & E). exists s', m'. rewrite E in H |- *.
  split; [done|]. destruct H as [H|[H _]]; [|discriminate H]. apply H.
Defined.

Lemma pmm_alloc_free_roundtrip_witness : exists s' m',
  pmm_alloc_pages 3 demo_pmm ∅ = (0x105000, s', m') /\
  free_page_count (pmm_free_pages 0x105000 3 s') = free_page_count demo_pmm.
Proof.
  destruct demo_alloc as (s' & m' & E). exists s', m'. split; [exact E|].
  pose proof (pmm_alloc_free_roundtrip 3 demo_pmm ∅ 0x105000 s' m'
    demo_pmm_wf demo_pmm_balanced (conj eq_refl eq_refl) E ltac:(discriminate)) as H.
  exact (proj1 (proj2 (proj2 H))).
Defined.

Lemma pmm_no_double_allocation_witness : exists s', history_ok (s', [(0x105000, 3)]).
Proof.
  destruct demo_alloc as (s' & m' & E). exists s'.
  apply (pmm_no_double_allocation demo_pmm _ demo_pmm_wf).
  eapply rtc_l; [|apply rtc_refl].
  apply (step_alloc 3 demo_pmm ∅ 0x105000 s' m' []); [lia|exact E|discriminate].
Defined.
