(* ===== verification/Heap.v ===== *)
(** The kernel heap (kernel/heap.c).

    The heap is a singly linked list of blocks laid out in physical memory:
    each block is a 32-byte [HeapBlock] header followed by its payload.  The
    definitions below walk and rewrite the headers byte for byte in [mem];
    pages come from any allocator of class [PageAllocator].  The contract is
    the list of blocks ([block]: address, size, free flag) related to memory by
    [heap_ok]; [kmalloc] and [kfree] are proved to refine [spec_take] (first
    fit with splitting) and [coalesce] (one merging pass) on that list. *)
From stdpp Require Import base numbers list gmap option relations strings.
From Stdlib Require Import ZArith Lia.
From S2P Require Import Prelude Memory PageAllocator Pmm.

(** ** Definitions *)

Definition HEAP_MAGIC : Z := 0x484541504f52454.
(** [sizeof(HeapBlock)]: magic at 0, size at 8, free at 16, next at 24. *)
Definition sizeof_HeapBlock : Z := 32.

Definition blk_magic (m : mem) (b : Z) : Z := load64 m b.
Definition blk_size (m : mem) (b : Z) : Z := load64 m (b + 8).
Definition blk_free (m : mem) (b : Z) : Z := load32 m (b + 16).
Definition blk_next (m : mem) (b : Z) : Z := load64 m (b + 24).

Definition set_magic (b v : Z) (m : mem) : mem := store64 m b v.
Definition set_size (b v : Z) (m : mem) : mem := store64 m (b + 8) v.
Definition set_free (b v : Z) (m : mem) : mem := store32 m (b + 16) v.
Definition set_next (b v : Z) (m : mem) : mem := store64 m (b + 24) v.

(** The four assignments that initialise a header. *)
Definition write_header (b size nxt : Z) (m : mem) : mem :=
  set_next b nxt (set_free b 1 (set_size b size (set_magic b HEAP_MAGIC m))).

(** [heap_head], the page allocator's state and memory. *)
Record heap_state (S : Type) := mk_heap { heap_head : Z; pages : S; hmem : mem }.
Arguments mk_heap {S} _ _ _.
Arguments heap_head {S} _.
Arguments pages {S} _.
Arguments hmem {S} _.

Section Heap.
Context {S : Type} `{PageAllocator S}.

Definition with_mem (h : heap_state S) (m : mem) : heap_state S :=
  mk_heap (heap_head h) (pages h) m.

Definition heap_init (h : heap_state S) : heap_state S := mk_heap 0 (pages h) (hmem h).

(** [while (tail->next) tail = tail->next;] *)
Fixpoint find_tail (fuel : nat) (m : mem) (tail : Z) : option Z :=
  match fuel with
  | O => None
  | Datatypes.S fuel =>
      if blk_next m tail =? 0 then Some tail else find_tail fuel m (blk_next m tail)
  end.

Definition request_block (fuel : nat) (size : Z) (h : heap_state S)
  : option (Z * heap_state S) :=
  let total := align_up (sizeof_HeapBlock +u size) PAGE_SIZE in
  let npages := u32 (total / PAGE_SIZE) in
  let '(block, s, m) := pa_alloc_pages npages (pages h) (hmem h) in
  if block =? 0 then Some (0, mk_heap (heap_head h) s m) else
  let m := write_header block (total -u sizeof_HeapBlock) 0 m in
  if heap_head h =? 0 then Some (block, mk_heap block s m) else
  match find_tail fuel m (heap_head h) with
  | None => None
  | Some tail => Some (block, mk_heap (heap_head h) s (set_next tail block m))
  end.

Definition split_block (block size : Z) (m : mem) : mem :=
  let remaining := blk_size m block -u size in
  if remaining <=? sizeof_HeapBlock + 32 then m else
  let next := block + sizeof_HeapBlock + size in
  let m := write_header next (remaining -u sizeof_HeapBlock) (blk_next m block) m in
  set_next block next (set_size block size m).

(** The first-fit search of [kmalloc]; 0 when the list is exhausted. *)
Fixpoint find_block (fuel : nat) (m : mem) (block size : Z) : option Z :=
  match fuel with
  | O => None
  | Datatypes.S fuel =>
      if block =? 0 then Some 0 else
      if (blk_magic m block =? HEAP_MAGIC) && negb (blk_free m block =? 0)
           && (size <=? blk_size m block)
      then Some block
      else find_block fuel m (blk_next m block) size
  end.

Definition kmalloc (fuel : nat) (size : Z) (h : heap_state S) : option (Z * heap_state S) :=
  if size =? 0 then Some (0, h) else
  let size := align_up size 16 in
  match find_block fuel (hmem h) (heap_head h) size with
  | None => None
  | Some found =>
      match (if found =? 0 then request_block fuel size h else Some (found, h)) with
      | None => None
      | Some (block, h) =>
          if block =? 0 then Some (0, h) else
          let m := set_free block 0 (split_block block size (hmem h)) in
          Some (block + sizeof_HeapBlock, with_mem h m)
      end
  end.

Definition kzalloc (fuel : nat) (size : Z) (h : heap_state S) : option (Z * heap_state S) :=
  match kmalloc fuel size h with
  | None => None
  | Some (ptr, h) =>
      if ptr =? 0 then Some (ptr, h) else Some (ptr, with_mem h (mem_zero ptr size (hmem h)))
  end.

(** The merging loop of [kfree]: one pass over the list. *)
Fixpoint coalesce_loop (fuel : nat) (m : mem) (cur : Z) : option mem :=
  match fuel with
  | O => None
  | Datatypes.S fuel =>
      if cur =? 0 then Some m else
      let next := blk_next m cur in
      if next =? 0 then Some m else
      if negb (blk_free m cur =? 0) && negb (blk_free m next =? 0)
           && (cur + sizeof_HeapBlock + blk_size m cur =? next)
      then
        let m := set_size cur (blk_size m cur +u (sizeof_HeapBlock +u blk_size m next)) m in
        let m := set_next cur (blk_next m next) m in
        coalesce_loop fuel m (blk_next m cur)
      else coalesce_loop fuel m next
  end.

Definition kfree (fuel : nat) (ptr : Z) (h : heap_state S) : option (outcome (heap_state S)) :=
  if ptr =? 0 then Some (Ok h) else
  let block := ptr - sizeof_HeapBlock in
  if negb (blk_magic (hmem h) block =? HEAP_MAGIC) then Some (Panic "heap: invalid free") else
  match coalesce_loop fuel (set_free block 1 (hmem h)) (heap_head h) with
  | None => None
  | Some m => Some (Ok (with_mem h m))
  end.

End Heap.

(** ** The abstract heap *)

Record block := mk_block { b_addr : Z; b_size : Z; b_free : bool }.

(** One past the last byte of the block. *)
Definition b_end (b : block) : Z := b_addr b + sizeof_HeapBlock + b_size b.

Definition fits (n : Z) (b : block) : bool := b_free b && (n <=? b_size b).

(** Allocation inside a block: the tail is split off when more than 64 bytes
    would remain. *)
Definition take_block (n : Z) (b : block) : list block :=
  if b_size b - n <=? 64 then [mk_block (b_addr b) (b_size b) false]
  else [mk_block (b_addr b) n false;
        mk_block (b_addr b + 32 + n) (b_size b - n - 32) true].

(** First fit. *)
Fixpoint spec_take (n : Z) (bs : list block) : option (Z * list block) :=
  match bs with
  | [] => None
  | b :: bs' =>
      if fits n b then Some (b_addr b + 32, take_block n b ++ bs')
      else match spec_take n bs' with
           | None => None
           | Some (p, r) => Some (p, b :: r)
           end
  end.

(** One merging pass. *)
Fixpoint coalesce (bs : list block) : list block :=
  match bs with
  | b1 :: ((b2 :: rest) as tl) =>
      if b_free b1 && b_free b2 && (b_end b1 =? b_addr b2)
      then mk_block (b_addr b1) (b_size b1 + (32 + b_size b2)) true :: coalesce rest
      else b1 :: coalesce tl
  | _ => bs
  end.

(** ** Representation *)

(** The header of [b] with next pointer [nxt] is in memory. *)
Record header (m : mem) (b : block) (nxt : Z) : Prop := {
  h_magic : blk_magic m (b_addr b) = HEAP_MAGIC;
  h_size : blk_size m (b_addr b) = b_size b;
  h_free : blk_free m (b_addr b) = Z.b2z (b_free b);
  h_next : blk_next m (b_addr b) = nxt;
}.

Definition first_addr (bs : list block) (q : Z) : Z :=
  match bs with [] => q | b :: _ => b_addr b end.

(** The blocks are linked in order, the last one to [q]. *)
Fixpoint seg (m : mem) (bs : list block) (q : Z) : Prop :=
  match bs with
  | [] => True
  | b :: bs' => header m b (first_addr bs' q) /\ seg m bs' q
  end.

Definition apart (a b : block) : Prop := b_end a <= b_addr b \/ b_end b <= b_addr a.

Fixpoint blocks_disjoint (bs : list block) : Prop :=
  match bs with
  | [] => True
  | b :: bs' => Forall (apart b) bs' /\ blocks_disjoint bs'
  end.

(** Above 1 MiB, below 2^52, everything a multiple of 16. *)
Record block_wf (b : block) : Prop := {
  bw_low : 1048576 <= b_addr b;
  bw_high : b_end b <= 4503599627370496;
  bw_addr : b_addr b mod 16 = 0;
  bw_size : b_size b mod 16 = 0;
  bw_pos : 0 <= b_size b;
}.

Section Rep.
Context {S : Type} `{PageAllocator S}.

(** The pages under the block are in use. *)
Definition backed (s : S) (b : block) : Prop :=
  forall x, b_addr b <= x < b_end b -> pa_live s (x / PAGE_SIZE).

Record heap_ok (h : heap_state S) (bs : list block) : Prop := {
  ho_head : heap_head h = first_addr bs 0;
  ho_seg : seg (hmem h) bs 0;
  ho_wf : Forall block_wf bs;
  ho_disjoint : blocks_disjoint bs;
  ho_backed : Forall (backed (pages h)) bs;
  ho_pages : pa_wf (pages h);
}.
End Rep.

(** ** Headers in memory *)

Create HintDb heap.
Create Rewrite HintDb heap.

(** [m'] differs from [m] at most on [[lo, hi)]. *)
Definition only (lo hi : Z) (m m' : mem) : Prop :=
  forall x, ~ (lo <= x < hi) -> load8 m' x = load8 m x.

Lemma only_refl lo hi m : only lo hi m m.
Proof. done. Qed.

Lemma only_trans lo hi m1 m2 m3 : only lo hi m1 m2 -> only lo hi m2 m3 -> only lo hi m1 m3.
Proof. intros H1 H2 x Hx. by rewrite H2, H1. Qed.

Lemma only_weaken lo hi lo' hi' m m' :
  only lo hi m m' -> lo' <= lo -> hi <= hi' -> only lo' hi' m m'.
Proof. intros H Hl Hh x Hx. apply H. lia. Qed.

Lemma only_store_le n a v lo hi m :
  lo <= a -> a + Z.of_nat n <= hi -> only lo hi m (store_le n m a v).
Proof. intros Hl Hh x Hx. apply store_le_frame. lia. Qed.

Lemma set_magic_only b v m : only b (b + 32) m (set_magic b v m).
Proof. apply only_store_le; lia. Qed.
Lemma set_size_only b v m : only b (b + 32) m (set_size b v m).
Proof. apply only_store_le; lia. Qed.
Lemma set_free_only b v m : only b (b + 32) m (set_free b v m).
Proof. apply only_store_le; lia. Qed.
Lemma set_next_only b v m : only b (b + 32) m (set_next b v m).
Proof. apply only_store_le; lia. Qed.

#[export] Hint Resolve only_refl set_magic_only set_size_only set_free_only set_next_only : heap.

(** Decompose a composition of writes into the single writes. *)
Ltac only_steps := repeat (eapply only_trans; [|solve [auto with heap]]); auto with heap.

Lemma write_header_only b sz nxt m : only b (b + 32) m (write_header b sz nxt m).
Proof. unfold write_header. only_steps. Qed.
#[export] Hint Resolve write_header_only : heap.

Lemma only_agree lo hi m m' a n :
  only lo hi m m' -> a + n <= lo \/ hi <= a -> agree m' m a n.
Proof. intros H Hd x Hx. apply H. lia. Qed.

(** Reading a field after writing a field of the same header. *)
Ltac hdr_field :=
  unfold blk_magic, blk_size, blk_free, blk_next, set_magic, set_size, set_free, set_next in *;
  unfold load64, load32, store64, store32, HEAP_MAGIC in *;
  repeat first
    [ rewrite load_le_store_le_ne by lia
    | rewrite load_le_store_le_eq, Z.mod_small by (word_unfold; cbn; lia) ].

Lemma header_write a sz nxt m :
  word64 sz -> word64 nxt -> header (write_header a sz nxt m) (mk_block a sz true) nxt.
Proof.
  intros Hs Hn. split; cbn [b_addr b_size b_free]; unfold write_header; hdr_field; done.
Qed.

Lemma header_set_size m b nxt sz :
  word64 sz -> header m b nxt ->
  header (set_size (b_addr b) sz m) (mk_block (b_addr b) sz (b_free b)) nxt.
Proof.
  intros Hs [H1 H2 H3 H4]. split; cbn [b_addr b_size b_free]; hdr_field; done.
Qed.

Lemma header_set_next m b nxt nxt' :
  word64 nxt' -> header m b nxt -> header (set_next (b_addr b) nxt' m) b nxt'.
Proof. intros Hn [H1 H2 H3 H4]. split; hdr_field; done. Qed.

Lemma header_set_free m b nxt (f : bool) :
  header m b nxt ->
  header (set_free (b_addr b) (Z.b2z f) m) (mk_block (b_addr b) (b_size b) f) nxt.
Proof.
  intros [H1 H2 H3 H4]. split; cbn [b_addr b_size b_free]; [by hdr_field..| |by hdr_field].
  destruct f; hdr_field; done.
Qed.

Lemma header_agree m m' b nxt :
  agree m' m (b_addr b) 32 -> header m b nxt -> header m' b nxt.
Proof.
  intros Ha [H1 H2 H3 H4].
  split; [rewrite <- H1|rewrite <- H2|rewrite <- H3|rewrite <- H4];
    apply load_le_agree; intros x Hx; apply Ha; lia.
Qed.

(** ** Segments *)

Lemma first_app bs1 bs2 q : first_addr (bs1 ++ bs2) q = first_addr bs1 (first_addr bs2 q).
Proof. by destruct bs1. Qed.

Lemma seg_app m bs1 bs2 q :
  seg m (bs1 ++ bs2) q <-> seg m bs1 (first_addr bs2 q) /\ seg m bs2 q.
Proof.
  induction bs1 as [|b bs1 IH]; cbn [app seg]; [tauto|].
  rewrite IH, first_app. tauto.
Qed.

Lemma seg_agree m m' bs q :
  Forall (fun b => agree m' m (b_addr b) 32) bs -> seg m bs q -> seg m' bs q.
Proof.
  induction 1 as [|b bs Hb _ IH]; cbn [seg]; [done|].
  intros [Hh Hs]. split; [by apply (header_agree m)|auto].
Qed.

Lemma apart_sym a b : apart a b -> apart b a.
Proof. unfold apart. lia. Qed.

Lemma disjoint_app bs1 bs2 :
  blocks_disjoint (bs1 ++ bs2) <->
  blocks_disjoint bs1 /\ blocks_disjoint bs2 /\ Forall (fun a => Forall (apart a) bs2) bs1.
Proof.
  induction bs1 as [|b bs1 IH]; cbn [app blocks_disjoint].
  - split; [intros Hd; repeat split; auto|tauto].
  - rewrite IH, Forall_app, Forall_cons. tauto.
Qed.

(** [b] lies apart from every block of the list. *)
Definition apart_from (b : block) (bs : list block) : Prop := Forall (apart b) bs.

Lemma disjoint_middle bs1 b bs2 :
  blocks_disjoint (bs1 ++ b :: bs2) <->
  blocks_disjoint (bs1 ++ bs2) /\ apart_from b bs1 /\ apart_from b bs2.
Proof.
  rewrite !disjoint_app. cbn [blocks_disjoint]. unfold apart_from.
  assert (Forall (fun a => Forall (apart a) (b :: bs2)) bs1 <->
          Forall (apart b) bs1 /\ Forall (fun a => Forall (apart a) bs2) bs1) as ->.
  { rewrite <- Forall_and. apply Forall_iff. intros a. rewrite Forall_cons.
    split; intros []; split; auto using apart_sym. }
  tauto.
Qed.

(** A memory change confined to one block leaves the others' headers alone. *)
Lemma apart_agree lo hi m m' b bs :
  only lo hi m m' -> b_addr b <= lo -> hi <= b_end b ->
  Forall block_wf bs -> apart_from b bs ->
  Forall (fun c => agree m' m (b_addr c) 32) bs.
Proof.
  intros Ho Hlo Hhi Hwf Hap. apply Forall_forall. intros c Hc.
  rewrite Forall_forall in Hwf. unfold apart_from in Hap. rewrite Forall_forall in Hap.
  specialize (Hwf c Hc) as [? ? ? ? ?]. specialize (Hap c Hc).
  apply (only_agree lo hi); [done|]. unfold apart, b_end, sizeof_HeapBlock in *. lia.
Qed.

(** ** List walks *)

Lemma block_wf_pos b : block_wf b -> b_addr b <> 0.
Proof. intros [? ? ? ? ?]. lia. Qed.

Lemma find_block_spec fuel m bs n :
  seg m bs 0 -> Forall block_wf bs -> (length bs < fuel)%nat ->
  (exists bs1 b bs2, bs = bs1 ++ b :: bs2 /\ Forall (fun c => fits n c = false) bs1 /\
     fits n b = true /\ find_block fuel m (first_addr bs 0) n = Some (b_addr b)) \/
  (Forall (fun c => fits n c = false) bs /\ find_block fuel m (first_addr bs 0) n = Some 0).
Proof.
  intros Hs Hwf. revert fuel Hs. induction Hwf as [|b bs Hb Hwf IH]; intros fuel Hs Hf.
  { destruct fuel; [lia|]. by right. }
  destruct fuel as [|fuel]; [cbn in Hf; lia|]. destruct Hs as [[Hm Hsz Hfr Hnx] Hs].
  cbn [first_addr find_block]. rewrite (proj2 (Z.eqb_neq _ _)) by (by apply block_wf_pos).
  rewrite Hm, Hsz, Hfr, Hnx, Z.eqb_refl.
  replace (true && negb (Z.b2z (b_free b) =? 0) && (n <=? b_size b)) with (fits n b)
    by (unfold fits; by destruct (b_free b)).
  destruct (fits n b) eqn:Ef.
  - left. by exists [], b, bs.
  - cbn [length] in Hf.
    destruct (IH fuel Hs ltac:(lia)) as [(bs1 & c & bs2 & -> & H1 & H2 & H3)|[H1 H2]].
    + left. exists (b :: bs1), c, bs2. split_and!; auto.
    + right. auto.
Qed.

Lemma find_tail_spec fuel m bs b :
  seg m (bs ++ [b]) 0 -> Forall block_wf (bs ++ [b]) -> (length bs < fuel)%nat ->
  find_tail fuel m (first_addr (bs ++ [b]) 0) = Some (b_addr b).
Proof.
  revert fuel. induction bs as [|c bs IH]; intros fuel Hs Hwf Hf;
    (destruct fuel as [|fuel]; [cbn in Hf; lia|]);
    cbn [app first_addr find_tail seg] in *; destruct Hs as [Hh Hs]; rewrite (h_next _ _ _ Hh).
  - done.
  - apply Forall_cons in Hwf as [_ Hwf]. cbn [length] in Hf.
    rewrite (proj2 (Z.eqb_neq _ _)); [apply IH; auto; lia|].
    destruct bs as [|c' bs]; cbn [app first_addr] in *; apply Forall_cons in Hwf as [Hw _];
      by apply block_wf_pos.
Qed.

(** ** Replacing a block by blocks inside it *)

Definition within (b c : block) : Prop := b_addr b <= b_addr c /\ b_end c <= b_end b.

Lemma apart_within b c d : within b c -> apart d b -> block_wf c -> apart d c.
Proof. unfold within, apart. intros ? ? [? ? ? ? ?]. lia. Qed.

Lemma replace_disjoint bs1 b cs bs2 :
  blocks_disjoint (bs1 ++ b :: bs2) -> blocks_disjoint cs -> Forall (within b) cs -> Forall block_wf cs ->
  blocks_disjoint (bs1 ++ cs ++ bs2).
Proof.
  intros Hd Hc Hw Hwf. apply disjoint_middle in Hd as (Hd & H1 & H2).
  apply disjoint_app in Hd as (Hd1 & Hd2 & H12).
  unfold apart_from in *. rewrite Forall_forall in H1, H2, Hw, Hwf.
  rewrite !disjoint_app. split_and!; try done.
  - apply Forall_forall. intros c Hin. apply Forall_forall. intros d Hd.
    apply apart_sym, (apart_within b); auto using apart_sym.
  - apply Forall_forall. intros d Hin. apply Forall_app. split.
    + apply Forall_forall. intros c Hc'. apply (apart_within b); auto using apart_sym.
    + rewrite Forall_forall in H12. auto.
Qed.

Lemma take_block_wf n b :
  block_wf b -> 0 <= n <= b_size b -> n mod 16 = 0 ->
  Forall block_wf (take_block n b) /\ Forall (within b) (take_block n b) /\
  blocks_disjoint (take_block n b).
Proof.
  intros [H1 H2 H3 H4 H5] Hn Hm. unfold take_block.
  unfold b_end, sizeof_HeapBlock in *. case_test; bool_to_prop.
  - split_and!; repeat constructor; unfold within, b_end, sizeof_HeapBlock;
      cbn [b_addr b_size]; lia.
  - split_and!; repeat constructor; unfold within, apart, b_end, sizeof_HeapBlock;
      cbn [b_addr b_size]; zlia.
Qed.

Lemma first_take_block n b bs q : first_addr (take_block n b ++ bs) q = b_addr b.
Proof. unfold take_block. by case_test. Qed.

(** [split_block] followed by [block->free = 0] implements [take_block]. *)
Lemma split_block_spec m bs1 b bs2 n :
  seg m (bs1 ++ b :: bs2) 0 -> Forall block_wf (bs1 ++ b :: bs2) ->
  blocks_disjoint (bs1 ++ b :: bs2) -> 0 <= n <= b_size b -> n mod 16 = 0 ->
  let m' := set_free (b_addr b) 0 (split_block (b_addr b) n m) in
  seg m' (bs1 ++ take_block n b ++ bs2) 0 /\ only (b_addr b) (b_end b) m m'.
Proof.
  intros Hs Hwf Hd Hn Hm m'.
  apply seg_app in Hs as [Hs1 [Hh Hs2]]. cbn [first_addr] in Hs1.
  apply Forall_app in Hwf as [Hwf1 Hwf2]. apply Forall_cons in Hwf2 as [Hb Hwf2].
  apply disjoint_middle in Hd as (_ & Ha1 & Ha2).
  pose proof Hb as [B1 B2 B3 B4 B5]. unfold b_end, sizeof_HeapBlock in B2.
  assert (word64 (first_addr bs2 0)) as Hfw.
  { destruct Hwf2 as [|c bs2 [? ? ? ? ?] _]; cbn [first_addr]; unfold word64; [lia|].
    unfold b_end, sizeof_HeapBlock in *. lia. }
  assert (seg m' (take_block n b) (first_addr bs2 0) /\ only (b_addr b) (b_end b) m m') as [Ht Ho].
  { subst m'. unfold split_block, take_block, sizeof_HeapBlock.
    rewrite (h_size _ _ _ Hh), (h_next _ _ _ Hh).
    rewrite (u64_small (b_size b - n)) by (unfold word64; lia).
    change (32 + 32) with 64. case_test; bool_to_prop.
    - split; [split; [by apply (header_set_free m b _ false)|done]|].
      eapply only_weaken; [apply set_free_only|lia|]. unfold b_end, sizeof_HeapBlock. lia.
    - rewrite (u64_small (b_size b - n - 32)) by (unfold word64; lia).
      set (a := b_addr b + 32 + n). set (w := write_header a _ _ m).
      assert (only a (a + 32) m w) as Hw by apply write_header_only.
      set (m2 := set_next (b_addr b) a (set_size (b_addr b) n w)).
      assert (only (b_addr b) (b_addr b + 32) w (set_free (b_addr b) 0 m2)) as Hw2.
      { unfold m2. only_steps. }
      split; [cbn [seg]; split; [|split; [|done]]|].
      + assert (header w b (first_addr bs2 0)) as Hhw.
        { apply (header_agree m); [|done]. apply (only_agree a (a + 32)); [done|lia]. }
        apply (header_set_size _ _ _ n) in Hhw; [|unfold word64; lia].
        apply (header_set_next _ _ _ a) in Hhw; [|unfold word64; lia].
        by apply (header_set_free _ _ _ false) in Hhw.
      + eapply header_agree; [|apply (header_write a _ (first_addr bs2 0) m)];
          [|unfold word64; lia|done].
        cbn [b_addr]. apply (only_agree _ _ _ _ _ _ Hw2). lia.
      + unfold b_end, sizeof_HeapBlock. eapply only_trans.
        * eapply only_weaken; [exact Hw|lia|lia].
        * eapply only_weaken; [exact Hw2|lia|lia]. }
  split; [|done]. rewrite !seg_app, first_take_block. split_and!; try done.
  - eapply seg_agree; [|exact Hs1]. eapply (apart_agree _ _ _ _ b); eauto; lia.
  - eapply seg_agree; [|exact Hs2]. eapply (apart_agree _ _ _ _ b); eauto; lia.
Qed.

(** ** Refinement *)

(** The payloads of the blocks in use read the same. *)
Definition keeps (bs : list block) (m m' : mem) : Prop :=
  forall c, c ∈ bs -> b_free c = false -> agree m' m (b_addr c + 32) (b_size c).

Lemma heap_keeps_trans bs m1 m2 m3 : keeps bs m1 m2 -> keeps bs m2 m3 -> keeps bs m1 m3.
Proof.
  intros K1 K2 c Hc Hf x Hx. rewrite (K2 c Hc Hf x Hx). by apply (K1 c).
Qed.

(** Bytes the heap asks the page allocator for. *)
Definition grow_bytes (n : Z) : Z := (32 + n + 4095) / PAGE_SIZE * PAGE_SIZE.

Lemma seg_snoc m bs b : seg m bs (b_addr b) -> header m b 0 -> seg m (bs ++ [b]) 0.
Proof. intros Hs Hh. apply seg_app. split; [done|]. by split. Qed.

Lemma seg_relink m m' bs a :
  seg m bs 0 -> Forall block_wf bs -> blocks_disjoint bs -> bs <> [] -> word64 a ->
  (exists bs' b, bs = bs' ++ [b] /\ m' = set_next (b_addr b) a m) ->
  seg m' bs a /\ keeps bs m m' /\
  only (first_addr (reverse bs) 0) (first_addr (reverse bs) 0 + 32) m m'.
Proof.
  intros Hs Hwf Hd Hne Ha (bs' & b & -> & ->).
  assert (only (b_addr b) (b_addr b + 32) m (set_next (b_addr b) a m)) as Ho
    by apply set_next_only.
  rewrite reverse_snoc. cbn [first_addr]. split_and!; [|intros c Hc Hf|done].
  - apply seg_app in Hs as [Hs [Hh _]]. apply seg_app. split; [|split; [|done]].
    + apply Forall_app in Hwf as [Hwf Hb]. apply Forall_cons in Hb as [[? ? ? ? ?] _].
      apply disjoint_middle in Hd as (_ & Hap & _). cbn [first_addr] in *.
      eapply seg_agree; [|exact Hs]. eapply (apart_agree _ _ _ _ b); eauto; [lia|].
      unfold b_end, sizeof_HeapBlock. lia.
    + by apply (header_set_next _ _ 0).
  - apply (only_agree _ _ _ _ _ _ Ho). apply elem_of_app in Hc as [Hc|Hc%list_elem_of_singleton].
    + apply disjoint_middle in Hd as (_ & Hap & _). apply Forall_app in Hwf as [Hwf Hb].
      apply Forall_cons in Hb as [[? ? ? ? ?] _]. unfold apart_from in Hap.
      rewrite Forall_forall in Hap, Hwf. specialize (Hap c Hc).
      destruct (Hwf c Hc) as [? ? ? ? ?]. unfold apart, b_end, sizeof_HeapBlock in *. lia.
    + subst c. lia.
Qed.

Section Refine.
Context {S : Type} `{PageAllocatorOk S}.
Implicit Types (h : heap_state S) (bs : list block).

Lemma fresh_apart (s : S) bs a len :
  Forall (backed s) bs -> Forall block_wf bs -> 0 < len -> a mod PAGE_SIZE = 0 ->
  (forall q, a / PAGE_SIZE <= q < a / PAGE_SIZE + len / PAGE_SIZE -> ~ pa_live s q) ->
  len mod PAGE_SIZE = 0 ->
  Forall (fun c => b_end c <= a \/ a + len <= b_addr c) bs.
Proof.
  intros Hb Hwf Hlen Ha Hfresh Hm. apply Forall_forall. intros c Hc.
  rewrite Forall_forall in Hb, Hwf. specialize (Hb c Hc). destruct (Hwf c Hc) as [? ? ? ? ?].
  destruct (Z.le_gt_cases (b_end c) a); [by left|].
  destruct (Z.le_gt_cases (a + len) (b_addr c)); [by right|]. exfalso.
  unfold b_end, sizeof_HeapBlock in *.
  apply (Hfresh (Z.max a (b_addr c) / PAGE_SIZE)); [unfold PAGE_SIZE in *; zlia|].
  apply Hb. unfold b_end, sizeof_HeapBlock. lia.
Qed.

Lemma grow_bytes_spec n :
  0 < n -> grow_bytes n mod PAGE_SIZE = 0 /\ 32 + n <= grow_bytes n < 32 + n + PAGE_SIZE.
Proof. unfold grow_bytes, PAGE_SIZE. zlia. Qed.

(** What holds of the memory [w] in which the header of a fresh region was
    written, before it is linked. *)
Lemma fresh_block h bs n a s' w :
  heap_ok h bs -> 0 < n -> n mod 16 = 0 ->
  alloc_post (grow_bytes n / PAGE_SIZE) a (pages h) s' (hmem h)
    (mem_zero a (grow_bytes n) (hmem h)) ->
  w = write_header a (grow_bytes n - 32) 0 (mem_zero a (grow_bytes n) (hmem h)) ->
  let b := mk_block a (grow_bytes n - 32) true in
  header w b 0 /\ Forall block_wf (bs ++ [b]) /\ blocks_disjoint (bs ++ [b]) /\
  Forall (backed s') (bs ++ [b]) /\ seg w bs 0 /\ keeps bs (hmem h) w.
Proof.
  intros [Hhd Hs Hwf Hd Hbk Hpw] Hn Hm [A1 A2 A3 A4 A5 A6 A7 A8] -> b.
  pose proof (pa_top_bound _ Hpw) as Htop.
  destruct (grow_bytes_spec n Hn) as [Hg1 Hg2].
  assert (grow_bytes n / PAGE_SIZE * PAGE_SIZE = grow_bytes n) as Hg3
    by (unfold PAGE_SIZE in *; zlia).
  rewrite Hg3 in *. set (w := write_header _ _ _ _).
  assert (only a (a + grow_bytes n) (hmem h) w) as Ho.
  { eapply only_trans; [|eapply only_weaken; [apply write_header_only|lia..]].
    intros x Hx. rewrite load8_mem_zero. cmp_cases. }
  pose proof (fresh_apart _ bs a (grow_bytes n) Hbk Hwf ltac:(lia) A1 A4 Hg1) as Hfr.
  rewrite Forall_forall in Hfr.
  assert (forall c, c ∈ bs -> agree w (hmem h) (b_addr c) (32 + b_size c)) as Hag.
  { intros c Hc. apply (only_agree _ _ _ _ _ _ Ho).
    specialize (Hfr c Hc). unfold b_end, sizeof_HeapBlock in Hfr. lia. }
  split_and!.
  - apply header_write; unfold word64, PAGE_SIZE in *; lia.
  - apply Forall_app. split; [done|]. constructor; [|done].
    split; unfold b_end, sizeof_HeapBlock, PAGE_SIZE in *; cbn [b_addr b_size b]; zlia.
  - apply disjoint_middle. rewrite app_nil_r. split_and!; [done| |constructor].
    apply Forall_forall. intros c Hc. specialize (Hfr c Hc).
    unfold apart, b_end, sizeof_HeapBlock in *. cbn [b_addr b_size b]. lia.
  - apply Forall_app. split.
    + eapply Forall_impl; [exact Hbk|]. intros c Hc x Hx. apply A5. left. auto.
    + constructor; [|done]. intros x Hx. apply A5. right.
      unfold b_end, sizeof_HeapBlock, PAGE_SIZE in *. cbn [b_addr b_size b] in Hx. zlia.
  - eapply seg_agree; [|exact Hs]. apply Forall_forall. intros c Hc x Hx. apply (Hag c Hc).
    rewrite Forall_forall in Hwf. destruct (Hwf c Hc) as [? ? ? ? ?]. lia.
  - intros c Hc _ x Hx. apply (Hag c Hc). lia.
Qed.

(** The byte belongs to a block. *)
Definition in_blocks (bs : list block) (x : Z) : Prop := exists b, b ∈ bs /\ b_addr b <= x < b_end b.

(** Bytes in use that belong to no block stay as they are, and pages in use stay so. *)
Definition leaves_alone (bs : list block) h h' : Prop :=
  (forall x, pa_live (pages h) (x / PAGE_SIZE) -> ~ in_blocks bs x -> load8 (hmem h') x = load8 (hmem h) x) /\
  (forall q, pa_live (pages h) q -> pa_live (pages h') q).

Lemma leaves_alone_only bs b h m' :
  b ∈ bs -> only (b_addr b) (b_end b) (hmem h) m' -> leaves_alone bs h (with_mem h m').
Proof.
  intros Hb Ho. split; [|done]. intros x _ Hx. cbn [with_mem hmem]. apply Ho. intros Hin. apply Hx. by exists b.
Qed.

(** The pages of a fresh block were free. *)
Definition fresh_bytes h (a len : Z) : Prop := forall x, a <= x < a + len -> ~ pa_live (pages h) (x / PAGE_SIZE).

Lemma request_block_spec fuel n h bs :
  heap_ok h bs -> 0 < n <= 8796093022208 -> n mod 16 = 0 -> (length bs <= fuel)%nat ->
  (request_block fuel n h = Some (0, h) /\
   (pa_alloc_pages (grow_bytes n / PAGE_SIZE) (pages h) (hmem h)).1.1 = 0) \/
  exists a h', let b := mk_block a (grow_bytes n - 32) true in
    request_block fuel n h = Some (a, h') /\ heap_ok h' (bs ++ [b]) /\ fits n b = true /\
    keeps bs (hmem h) (hmem h') /\ fresh_bytes h a (grow_bytes n) /\ leaves_alone bs h h'.
Proof.
  intros Hok Hn Hm Hf. pose proof Hok as [Hhd Hs Hwf Hd Hbk Hpw].
  unfold request_block, sizeof_HeapBlock. rewrite (u64_small (32 + n)) by (unfold word64; lia).
  rewrite align_up_page by lia. fold (grow_bytes n).
  destruct (grow_bytes_spec n ltac:(lia)) as [Hg1 Hg2].
  rewrite (u32_small (grow_bytes n / PAGE_SIZE)) by (unfold word32, PAGE_SIZE in *; zlia).
  destruct (pa_alloc_pages _ (pages h) (hmem h)) as [[a s'] m'] eqn:Ea.
  destruct (Z.eqb_spec a 0) as [->|Hnz].
  { left. apply pa_alloc_none in Ea as [-> ->]; [by destruct h|done|unfold PAGE_SIZE in *; zlia]. }
  right. apply pa_alloc_ok in Ea as Hpost; [|done|unfold PAGE_SIZE in *; zlia|done].
  pose proof (ap_low _ _ _ _ _ _ Hpost). pose proof (ap_high _ _ _ _ _ _ Hpost).
  pose proof (ap_wf _ _ _ _ _ _ Hpost) as Hpw'. pose proof (pa_top_bound _ Hpw).
  assert (m' = mem_zero a (grow_bytes n) (hmem h)) as ->.
  { rewrite (ap_zeroed _ _ _ _ _ _ Hpost). f_equal. unfold PAGE_SIZE in *. zlia. }
  rewrite (u64_small (grow_bytes n - 32)) by (unfold word64, PAGE_SIZE in *; lia).
  destruct (fresh_block h bs n a s' _ Hok ltac:(lia) Hm Hpost eq_refl)
    as (Hb & Hwf' & Hdis & Hbk' & Hsw & Hkw).
  set (w := write_header _ _ _ _) in *. set (b := mk_block a (grow_bytes n - 32) true) in *.
  assert (fits n b = true) as Hfit by (unfold fits; cbn [b_free b_size b]; cmp_cases).
  assert (fresh_bytes h a (grow_bytes n)) as Hfr.
  { intros x Hx. apply (ap_fresh _ _ _ _ _ _ Hpost). pose proof (ap_aligned _ _ _ _ _ _ Hpost). unfold PAGE_SIZE in *. zlia. }
  assert (forall x, pa_live (pages h) (x / PAGE_SIZE) -> load8 w x = load8 (hmem h) x) as Hwx.
  { intros x Hx. assert (~ (a <= x < a + grow_bytes n)) as Hn' by (intros Hin; by apply (Hfr x Hin)).
    unfold w. rewrite (write_header_only a (grow_bytes n - 32) 0 (mem_zero a (grow_bytes n) (hmem h)) x) by lia. rewrite load8_mem_zero. cmp_cases. }
  assert (forall q, pa_live (pages h) q -> pa_live s' q) as Hmono by (intros q Hq; apply (ap_live _ _ _ _ _ _ Hpost); by left).
  destruct bs as [|t bs' _] using rev_ind.
  - rewrite Hhd. cbn [first_addr Z.eqb]. exists a, (mk_heap a s' w). split; [done|]. split; [by split|]. split; [done|]. split; [done|].
    split; [done|]. split; [|done]. intros x Hx _. by apply Hwx.
  - rewrite Hhd, first_app. cbn [first_addr].
    assert (first_addr bs' (b_addr t) <> 0) as Hnz'.
    { apply Forall_app in Hwf as [Hw1 Hw2]. destruct Hw1; cbn [first_addr]; [|by apply block_wf_pos].
      apply Forall_cons in Hw2 as [Hw2 _]. by apply block_wf_pos. }
    rewrite (proj2 (Z.eqb_neq _ _)) by done.
    assert (length bs' < fuel)%nat as Hlt by (rewrite length_app in Hf; cbn [length] in Hf; lia).
    pose proof (find_tail_spec fuel w bs' t Hsw Hwf Hlt) as Htl.
    rewrite first_app in Htl. cbn [first_addr] in Htl. rewrite Htl.
    destruct (seg_relink w (set_next (b_addr t) a w) (bs' ++ [t]) a) as (R1 & R2 & R3);
      auto; [by destruct bs'|unfold word64, PAGE_SIZE in *; zlia|by exists bs', t|].
    rewrite reverse_snoc in R3. cbn [first_addr] in R3.
    eexists a, (mk_heap _ s' _). split; [done|]. split; [|split; [done|split; [by eapply heap_keeps_trans|split; [done|split; [|done]]]]].
    2: { intros x Hx Hnb. cbn [hmem]. rewrite <- (Hwx x Hx). apply (set_next_only (b_addr t) a w). intros Hin. apply Hnb. exists t.
         split; [apply elem_of_app; right; by left|]. apply Forall_app in Hwf as [_ Hwt]. apply Forall_cons in Hwt as [[? ? ? ? ?] _].
         unfold b_end, sizeof_HeapBlock. lia. }
    split; cbn [heap_head hmem pages]; auto.
    + rewrite !first_app. cbn [first_addr]. by destruct bs'.
    + apply seg_snoc; [done|]. eapply header_agree; [|exact Hb].
      apply (only_agree _ _ _ _ _ _ R3). cbn [b_addr b].
      apply disjoint_middle in Hdis as (_ & Hap & _). unfold apart_from in Hap.
      rewrite Forall_forall in Hap.
      specialize (Hap t ltac:(apply elem_of_app; right; by left)).
      apply Forall_app in Hwf as [_ Hwt]. apply Forall_cons in Hwt as [[? ? ? ? ?] _].
      unfold apart, b_end, sizeof_HeapBlock in Hap. cbn [b_addr b_size b] in Hap. lia.
Qed.

(** *** Allocation *)

Lemma spec_take_found n bs1 b bs2 :
  Forall (fun c => fits n c = false) bs1 -> fits n b = true ->
  spec_take n (bs1 ++ b :: bs2) = Some (b_addr b + 32, bs1 ++ take_block n b ++ bs2).
Proof.
  intros Hn Hb. induction Hn as [|c bs1 Hc _ IH]; cbn [app spec_take].
  - by rewrite Hb.
  - by rewrite Hc, IH.
Qed.

Lemma spec_take_none n bs :
  Forall (fun c => fits n c = false) bs -> spec_take n bs = None.
Proof. induction 1 as [|c bs Hc _ IH]; cbn [spec_take]; [done|]. by rewrite Hc, IH. Qed.

Lemma alloc_in_place h bs1 b bs2 n :
  heap_ok h (bs1 ++ b :: bs2) -> fits n b = true -> 0 <= n -> n mod 16 = 0 ->
  let h' := with_mem h (set_free (b_addr b) 0 (split_block (b_addr b) n (hmem h))) in
  heap_ok h' (bs1 ++ take_block n b ++ bs2) /\ keeps (bs1 ++ b :: bs2) (hmem h) (hmem h') /\
  leaves_alone (bs1 ++ b :: bs2) h h'.
Proof.
  intros [Hhd Hs Hwf Hd Hbk Hpw] Hf Hn Hm h'. unfold fits in Hf. bool_to_prop.
  destruct (split_block_spec (hmem h) bs1 b bs2 n Hs Hwf Hd ltac:(lia) Hm) as [Hs' Ho].
  apply Forall_app in Hwf as [Hwf1 [Hb Hwf2]%Forall_cons].
  apply Forall_app in Hbk as [Hbk1 [Hbb Hbk2]%Forall_cons].
  destruct (take_block_wf n b Hb ltac:(lia) Hm) as (Ht1 & Ht2 & Ht3).
  split; [|split; [|apply (leaves_alone_only _ b); [apply elem_of_app; right; by left|done]]].
  - split; cbn [h' with_mem heap_head pages hmem]; auto.
    + rewrite Hhd, !first_app. cbn [first_addr]. unfold take_block. by case_test.
    + rewrite !Forall_app. auto.
    + by apply (replace_disjoint bs1 b).
    + rewrite !Forall_app. split_and!; auto. eapply Forall_impl; [exact Ht2|].
      intros c [Hc1 Hc2] x Hx. apply Hbb. lia.
  - apply disjoint_middle in Hd as (_ & Ha1 & Ha2). unfold apart_from in *.
    rewrite Forall_forall in Ha1, Ha2.
    intros c Hc Hcf. apply (only_agree _ _ _ _ _ _ Ho).
    assert (apart b c) as Hap.
    { apply elem_of_app in Hc as [Hc|Hc]; [auto|].
      apply elem_of_cons in Hc as [->|Hc]; [congruence|auto]. }
    destruct Hb. unfold apart, b_end, sizeof_HeapBlock in *. lia.
Qed.

(** [align_up(size, 16)]. *)
Definition round16 (size : Z) : Z := (size + 15) / 16 * 16.

(** The pages that a request may take. *)
Definition pages_for (size : Z) : Z := grow_bytes (round16 size) / PAGE_SIZE.

Lemma pages_for_u32 size : 0 < size <= 8796093022192 ->
  u32 (align_up (sizeof_HeapBlock +u align_up size 16) PAGE_SIZE / PAGE_SIZE) = pages_for size /\ 0 < pages_for size < 4294967296.
Proof.
  intros Hs. assert (align_up size 16 = round16 size) as -> by exact (align_up_pow2 size 4 ltac:(lia) ltac:(lia) ltac:(lia)). unfold pages_for, grow_bytes.
  assert (0 < round16 size <= 8796093022208) as Hr by (unfold round16; zlia).
  rewrite (u64_small (sizeof_HeapBlock + _)) by (unfold word64, sizeof_HeapBlock; lia). rewrite align_up_page by (unfold sizeof_HeapBlock; lia).
  unfold sizeof_HeapBlock, PAGE_SIZE. rewrite !Z.div_mul by lia. unfold u32. split; [apply Z.mod_small|]; zlia.
Qed.

Lemma kmalloc_spec_frame fuel size h bs :
  heap_ok h bs -> 0 < size <= 8796093022192 -> (length bs < fuel)%nat ->
  let n := round16 size in
  exists ptr h', kmalloc fuel size h = Some (ptr, h') /\ keeps bs (hmem h) (hmem h') /\ leaves_alone bs h h' /\
    match spec_take n bs with
    | Some (p, bs') => ptr = p /\ heap_ok h' bs' /\ pages h' = pages h
    | None =>
        (ptr = 0 /\ h' = h /\
         (pa_alloc_pages (grow_bytes n / PAGE_SIZE) (pages h) (hmem h)).1.1 = 0) \/
        exists a bs', spec_take n (bs ++ [mk_block a (grow_bytes n - 32) true]) = Some (ptr, bs') /\
                      heap_ok h' bs' /\ fresh_bytes h a (grow_bytes n)
    end.
Proof.
  intros Hok Hsz Hf n. unfold kmalloc. rewrite (proj2 (Z.eqb_neq _ _)) by lia.
  assert (align_up size 16 = n) as ->
    by exact (align_up_pow2 size 4 ltac:(lia) ltac:(lia) ltac:(lia)).
  assert (0 < n <= 8796093022208 /\ n mod 16 = 0) as [Hn Hm] by (subst n; unfold round16; zlia).
  rewrite (ho_head _ _ Hok).
  destruct (find_block_spec fuel (hmem h) bs n (ho_seg _ _ Hok) (ho_wf _ _ Hok) Hf)
    as [(bs1 & b & bs2 & -> & H1 & H2 & ->)|[H1 ->]].
  - destruct (alloc_in_place h bs1 b bs2 n Hok H2 ltac:(lia) Hm) as (A1 & A2 & A3).
    pose proof (ho_wf _ _ Hok) as Hwf. apply Forall_app in Hwf as [_ [Hb _]%Forall_cons].
    assert ((b_addr b =? 0) = false) as Hz by (apply Z.eqb_neq; by apply block_wf_pos).
    rewrite Hz. cbv beta iota zeta. rewrite Hz.
    eexists _, _. split; [done|]. split; [exact A2|]. split; [exact A3|].
    rewrite (spec_take_found n bs1 b bs2 H1 H2). auto.
  - change (0 =? 0) with true. cbv iota. rewrite (spec_take_none n bs H1).
    destruct (request_block_spec fuel n h bs Hok Hn Hm ltac:(lia))
      as [[-> E]|(a & h' & -> & Hok' & Hfit & Hk & Hfr & Hla)].
    + exists 0, h. split; [done|]. split; [intros c _ _ x _; done|]. split; [by split|]. by left.
    + set (b := mk_block a (grow_bytes n - 32) true) in *.
      pose proof (ho_wf _ _ Hok') as Hwf. apply Forall_app in Hwf as [_ [Hb _]%Forall_cons].
      rewrite (proj2 (Z.eqb_neq a 0)) by (apply (block_wf_pos b), Hb).
      destruct (alloc_in_place h' bs b [] n Hok' Hfit ltac:(lia) Hm) as (A1 & A2 & A3).
      eexists _, _. split; [done|]. split; [|split].
      * eapply heap_keeps_trans; [exact Hk|]. intros c Hc. apply A2. apply elem_of_app. by left.
      * destruct Hla as [L1 L2], A3 as [L3 L4]. split; [|auto]. intros x Hx Hnb. rewrite L3; [by apply L1|by apply L2|].
        intros (c & Hc & Hin). apply elem_of_app in Hc as [Hc|Hc%list_elem_of_singleton]; [by apply Hnb; exists c|]. subst c.
        apply (Hfr x); [|done]. unfold b_end, sizeof_HeapBlock in Hin. cbn [b b_addr b_size] in Hin. lia.
      * right. exists a, (bs ++ take_block n b ++ []).
        fold b. rewrite (spec_take_found n bs b [] H1 Hfit). auto.
Qed.

Lemma kmalloc_spec fuel size h bs :
  heap_ok h bs -> 0 < size <= 8796093022192 -> (length bs < fuel)%nat ->
  let n := round16 size in
  exists ptr h', kmalloc fuel size h = Some (ptr, h') /\ keeps bs (hmem h) (hmem h') /\
    match spec_take n bs with
    | Some (p, bs') => ptr = p /\ heap_ok h' bs' /\ pages h' = pages h
    | None =>
        (ptr = 0 /\ h' = h /\
         (pa_alloc_pages (grow_bytes n / PAGE_SIZE) (pages h) (hmem h)).1.1 = 0) \/
        exists a bs', spec_take n (bs ++ [mk_block a (grow_bytes n - 32) true]) = Some (ptr, bs') /\
                      heap_ok h' bs'
    end.
Proof.
  intros Hok Hs Hf n. destruct (kmalloc_spec_frame fuel size h bs Hok Hs Hf) as (ptr & h' & E & K & _ & Hc). exists ptr, h'.
  split; [done|]. split; [done|]. fold n in Hc. destruct (spec_take n bs) as [[p bs']|]; [done|].
  destruct Hc as [Hc|(a & bs' & H1 & H2 & _)]; [by left|]. right. by exists a, bs'.
Qed.

(** *** Release *)

(** The condition of the merging loop. *)
Definition mergeable (b1 b2 : block) : bool :=
  b_free b1 && b_free b2 && (b_end b1 =? b_addr b2).

Definition merged (b1 b2 : block) : block :=
  mk_block (b_addr b1) (b_size b1 + (32 + b_size b2)) true.

Lemma coalesce_cons2 b1 b2 bs :
  coalesce (b1 :: b2 :: bs) =
  if mergeable b1 b2 then merged b1 b2 :: coalesce bs else b1 :: coalesce (b2 :: bs).
Proof. done. Qed.

Lemma first_coalesce bs q : first_addr (coalesce bs) q = first_addr bs q.
Proof. destruct bs as [|b1 [|b2 bs]]; try done. rewrite coalesce_cons2. by case_test. Qed.

Lemma merged_wf b1 b2 :
  mergeable b1 b2 = true -> block_wf b1 -> block_wf b2 -> block_wf (merged b1 b2).
Proof.
  unfold mergeable, b_end. intros Hm [] []. bool_to_prop. unfold b_end, sizeof_HeapBlock in *.
  split; unfold b_end, sizeof_HeapBlock; cbn [merged b_addr b_size]; zlia.
Qed.

Lemma apart_merged d b1 b2 :
  mergeable b1 b2 = true -> block_wf d -> apart d b1 -> apart d b2 -> apart d (merged b1 b2).
Proof.
  unfold mergeable, apart. intros Hm []. bool_to_prop.
  unfold b_end, sizeof_HeapBlock in *. cbn [merged b_addr b_size]. lia.
Qed.

Lemma coalesce_wf bs : Forall block_wf bs -> Forall block_wf (coalesce bs).
Proof.
  induction bs as [|b|b1 b2 bs IH1 IH2] using list_pair_ind; intros Hwf; [done..|].
  rewrite coalesce_cons2. apply Forall_cons in Hwf as [Hb1 Hwf].
  pose proof Hwf as [Hb2 Hwf2]%Forall_cons.
  case_test; constructor; auto using merged_wf.
Qed.

Lemma coalesce_apart d bs :
  block_wf d -> apart_from d bs -> apart_from d (coalesce bs).
Proof.
  unfold apart_from. intros Hd.
  induction bs as [|b|b1 b2 bs IH1 IH2] using list_pair_ind; intros Hap; [done..|].
  rewrite coalesce_cons2. apply Forall_cons in Hap as [Hb1 Hap].
  pose proof Hap as [Hb2 Hap2]%Forall_cons.
  case_test; constructor; auto using apart_merged.
Qed.

Lemma coalesce_disjoint bs : Forall block_wf bs -> blocks_disjoint bs -> blocks_disjoint (coalesce bs).
Proof.
  induction bs as [|b|b1 b2 bs IH1 IH2] using list_pair_ind; intros Hwf Hd; [done..|].
  rewrite coalesce_cons2. apply Forall_cons in Hwf as [Hb1 Hwf].
  pose proof Hwf as [Hb2 Hwf2]%Forall_cons.
  destruct Hd as [Ha1 Hd]. pose proof Hd as [Ha2 Hd2]. pose proof Ha1 as [_ Ha1']%Forall_cons.
  destruct (mergeable b1 b2) eqn:Hm; (split; [|auto]); apply coalesce_apart;
    auto using merged_wf.
  apply Forall_forall. intros c Hc. rewrite Forall_forall in Ha1', Ha2, Hwf2.
  apply apart_sym, apart_merged; auto using apart_sym.
Qed.

Lemma coalesce_backed (s : S) bs : Forall (backed s) bs -> Forall (backed s) (coalesce bs).
Proof.
  induction bs as [|b|b1 b2 bs IH1 IH2] using list_pair_ind; intros Hb; [done..|].
  rewrite coalesce_cons2. apply Forall_cons in Hb as [Hb1 Hb].
  pose proof Hb as [Hb2 Hb']%Forall_cons.
  destruct (mergeable b1 b2) eqn:Hm; constructor; auto.
  intros x Hx. unfold mergeable in Hm. bool_to_prop.
  unfold b_end, sizeof_HeapBlock in *. cbn [merged b_addr b_size] in Hx.
  destruct (Z.lt_ge_cases x (b_addr b2)); [apply Hb1|apply Hb2];
    unfold b_end, sizeof_HeapBlock; lia.
Qed.

(** [m'] differs from [m] only inside the headers of [bs]. *)
Definition headers_only (bs : list block) (m m' : mem) : Prop :=
  forall x, (forall c, c ∈ bs -> ~ (b_addr c <= x < b_addr c + 32)) -> load8 m' x = load8 m x.

Lemma only_headers b bs m m' :
  only (b_addr b) (b_addr b + 32) m m' -> b ∈ bs -> headers_only bs m m'.
Proof. intros Ho Hb x Hx. apply Ho. by apply Hx. Qed.

Lemma headers_only_trans bs m1 m2 m3 :
  headers_only bs m1 m2 -> headers_only bs m2 m3 -> headers_only bs m1 m3.
Proof. intros H1 H2 x Hx. by rewrite H2, H1. Qed.

Lemma headers_only_weaken bs bs' m m' : bs ⊆ bs' -> headers_only bs m m' -> headers_only bs' m m'.
Proof. intros Hs Ho x Hx. apply Ho. auto. Qed.

Lemma headers_only_agree bs m m' b :
  headers_only bs m m' -> apart_from b bs -> Forall block_wf bs -> block_wf b ->
  agree m' m (b_addr b) (32 + b_size b).
Proof.
  intros Ho Ha Hwf Hb x Hx. apply Ho. intros c Hc. unfold apart_from in Ha.
  rewrite Forall_forall in Ha, Hwf. specialize (Ha c Hc). destruct (Hwf c Hc), Hb.
  unfold apart, b_end, sizeof_HeapBlock in *. lia.
Qed.

(** One iteration that merges. *)
Lemma merge_step m b1 b2 bs :
  seg m (b1 :: b2 :: bs) 0 -> Forall block_wf (b1 :: b2 :: bs) -> blocks_disjoint (b1 :: b2 :: bs) ->
  mergeable b1 b2 = true ->
  let m1 := set_size (b_addr b1)
              (blk_size m (b_addr b1) +u (sizeof_HeapBlock +u blk_size m (b_addr b2))) m in
  let m2 := set_next (b_addr b1) (blk_next m1 (b_addr b2)) m1 in
  seg m2 (merged b1 b2 :: bs) 0 /\ only (b_addr b1) (b_addr b1 + 32) m m2.
Proof.
  intros (Hh1 & Hh2 & Hs) Hwf Hd Hm m1 m2. cbn [first_addr] in Hh1.
  apply Forall_cons in Hwf as [Hb1 Hwf]. pose proof Hwf as [Hb2 Hwf2]%Forall_cons.
  pose proof (merged_wf _ _ Hm Hb1 Hb2) as Hbm. destruct Hd as [Ha1 _].
  assert (only (b_addr b1) (b_addr b1 + 32) m m2) as Ho by (subst m1 m2; only_steps).
  split; [|done]. unfold mergeable in Hm. bool_to_prop. destruct Hb1, Hb2.
  unfold b_end, sizeof_HeapBlock in *.
  assert (word64 (first_addr bs 0)) as Hw.
  { destruct Hwf2 as [|c bs' [] _]; cbn [first_addr]; unfold b_end, sizeof_HeapBlock in *;
      unfold word64; lia. }
  split.
  - subst m1 m2. rewrite (h_size _ _ _ Hh1), (h_size _ _ _ Hh2).
    rewrite (u64_small (32 + b_size b2)), (u64_small (b_size b1 + _)) by (unfold word64; lia).
    set (m1 := set_size _ _ m).
    assert (blk_next m1 (b_addr b2) = first_addr bs 0) as ->.
    { rewrite <- (h_next _ _ _ Hh2). apply load_le_agree.
      apply (only_agree (b_addr b1) (b_addr b1 + 32)); [apply set_size_only|lia]. }
    unfold merged. rewrite <- H1. apply (header_set_next _ (mk_block _ _ _) (b_addr b2)); [done|].
    apply header_set_size; [unfold word64; lia|done].
  - eapply seg_agree; [|exact Hs]. apply Forall_cons in Ha1 as [_ Ha1].
    apply (apart_agree _ _ _ _ b1 bs Ho); auto; [lia|]. unfold b_end, sizeof_HeapBlock. lia.
Qed.

Lemma coalesce_loop_spec fuel m bs :
  seg m bs 0 -> Forall block_wf bs -> blocks_disjoint bs -> (length bs < fuel)%nat ->
  exists m', coalesce_loop fuel m (first_addr bs 0) = Some m' /\
    seg m' (coalesce bs) 0 /\ headers_only bs m m'.
Proof.
  revert fuel m. induction bs as [|b|b1 b2 bs IH1 IH2] using list_pair_ind;
    intros fuel m Hs Hwf Hd Hf; (destruct fuel as [|fuel]; [cbn in Hf; lia|]).
  { by exists m. }
  all: pose proof Hwf as [Hb1 Hwf2]%Forall_cons; cbn [first_addr coalesce_loop];
    rewrite (proj2 (Z.eqb_neq _ _)) by (by apply block_wf_pos);
    rewrite (h_next _ _ _ (proj1 Hs)); cbn [first_addr].
  { by exists m. }
  pose proof Hwf2 as [Hb2 Hwf3]%Forall_cons. pose proof Hs as (Hh1 & Hh2 & Hs3).
  rewrite (proj2 (Z.eqb_neq (b_addr b2) 0)) by (by apply block_wf_pos).
  rewrite coalesce_cons2, (h_free _ _ _ Hh1), (h_free _ _ _ Hh2).
  assert (negb (Z.b2z (b_free b1) =? 0) && negb (Z.b2z (b_free b2) =? 0) &&
          (b_addr b1 + sizeof_HeapBlock + blk_size m (b_addr b1) =? b_addr b2)
          = mergeable b1 b2) as ->.
  { rewrite (h_size _ _ _ Hh1). unfold mergeable, b_end. by destruct (b_free b1), (b_free b2). }
  destruct Hd as [Ha1 Hd2]. destruct (mergeable b1 b2) eqn:Hm.
  - destruct (merge_step m b1 b2 bs Hs Hwf (conj Ha1 Hd2) Hm) as [[Hhm Hsm] Ho].
    cbv zeta. set (m2 := set_next _ _ _) in *. destruct Hd2 as [Ha2 Hd3].
    assert (blk_next m2 (b_addr b1) = first_addr bs 0) as -> by apply (h_next _ _ _ Hhm).
    destruct (IH1 fuel m2 Hsm Hwf3 Hd3) as (m' & E & Hs' & Ho'); [cbn in Hf; lia|].
    exists m'. split_and!; [done| |].
    + split; [|done]. rewrite first_coalesce. eapply header_agree; [|exact Hhm].
      intros x Hx. apply (headers_only_agree bs m2 m' b1 Ho'); auto.
      * by apply Forall_cons in Ha1 as [_ ?].
      * destruct Hb1. cbn [merged b_addr] in Hx. lia.
    + eapply headers_only_trans; [eapply (only_headers b1); [exact Ho|by left]|].
      eapply headers_only_weaken; [|exact Ho']. intros c Hc. by do 2 right.
  - destruct (IH2 fuel m (conj Hh2 Hs3) Hwf2 Hd2) as (m' & E & Hs' & Ho');
      [cbn in Hf |- *; lia|]. cbn [first_addr] in E.
    exists m'. split_and!; [done| |].
    + split; [|done]. rewrite first_coalesce. eapply header_agree; [|exact Hh1].
      intros x Hx. apply (headers_only_agree _ m m' b1 Ho'); auto. destruct Hb1. lia.
    + eapply headers_only_weaken; [|exact Ho']. intros c Hc. by right.
Qed.

Lemma coalesce_keeps bs m m' :
  headers_only bs m m' -> Forall block_wf bs -> blocks_disjoint bs -> keeps bs m m'.
Proof.
  intros Ho Hwf Hd c Hc Hf x Hx. apply Ho. intros d Hdd.
  apply list_elem_of_split in Hc as (l1 & l2 & ->). apply disjoint_middle in Hd as (_ & H1' & H2').
  unfold apart_from in *. rewrite Forall_forall in H1', H2', Hwf.
  destruct (Hwf d Hdd). apply elem_of_app in Hdd as [Hdd|[->|Hdd]%elem_of_cons]; [|lia|].
  1: specialize (H1' d Hdd). 2: specialize (H2' d Hdd).
  all: unfold apart, b_end, sizeof_HeapBlock in *; lia.
Qed.

Lemma heap_ok_set_free h bs1 b bs2 :
  heap_ok h (bs1 ++ b :: bs2) ->
  let b' := mk_block (b_addr b) (b_size b) true in
  let m := set_free (b_addr b) 1 (hmem h) in
  heap_ok (with_mem h m) (bs1 ++ b' :: bs2) /\ keeps (bs1 ++ b :: bs2) (hmem h) m.
Proof.
  intros [Hhd Hs Hwf Hd Hbk Hpw] b' m.
  assert (only (b_addr b) (b_addr b + 32) (hmem h) m) as Ho by apply set_free_only.
  apply seg_app in Hs as [Hs1 [Hh Hs2]]. pose proof Hd as (Hd' & Ha1 & Ha2)%disjoint_middle.
  pose proof Hwf as [Hwf1 [Hb Hwf2]%Forall_cons]%Forall_app.
  apply Forall_app in Hbk as [Hbk1 [Hbb Hbk2]%Forall_cons]. split.
  - split; cbn [with_mem heap_head pages hmem]; auto.
    + by rewrite Hhd, !first_app.
    + apply seg_app. split; [|split].
      * eapply seg_agree; [|exact Hs1]. destruct Hb.
        apply (apart_agree _ _ _ _ b bs1 Ho); auto; unfold b_end, sizeof_HeapBlock; lia.
      * by apply (header_set_free _ _ _ true).
      * eapply seg_agree; [|exact Hs2]. destruct Hb.
        apply (apart_agree _ _ _ _ b bs2 Ho); auto; unfold b_end, sizeof_HeapBlock; lia.
    + apply Forall_app. split; [done|]. constructor; [|done]. by destruct Hb; split.
    + apply disjoint_middle. auto.
    + apply Forall_app. split; [done|]. by constructor.
  - apply coalesce_keeps; auto. apply (only_headers b); [done|].
    apply elem_of_app. right. by left.
Qed.

Lemma kfree_spec_frame fuel h bs1 b bs2 :
  heap_ok h (bs1 ++ b :: bs2) -> (length (bs1 ++ b :: bs2) < fuel)%nat ->
  let freed := bs1 ++ mk_block (b_addr b) (b_size b) true :: bs2 in
  exists h', kfree fuel (b_addr b + 32) h = Some (Ok h') /\
    heap_ok h' (coalesce freed) /\ pages h' = pages h /\ keeps (bs1 ++ bs2) (hmem h) (hmem h') /\
    leaves_alone (bs1 ++ b :: bs2) h h'.
Proof.
  intros Hok Hf freed. destruct (heap_ok_set_free h bs1 b bs2 Hok) as [Hok' Hk].
  fold freed in Hok'. pose proof Hok' as [Hhd Hs Hwf Hd Hbk Hpw].
  pose proof (ho_seg _ _ Hok) as [_ [Hh _]]%seg_app.
  pose proof (ho_wf _ _ Hok) as [_ [Hb _]%Forall_cons]%Forall_app.
  unfold kfree, sizeof_HeapBlock. replace (b_addr b + 32 - 32) with (b_addr b) by lia.
  rewrite (proj2 (Z.eqb_neq _ _)) by (destruct Hb; lia).
  rewrite (h_magic _ _ _ Hh), Z.eqb_refl. cbn [negb].
  cbn [with_mem heap_head hmem] in *. rewrite Hhd.
  destruct (coalesce_loop_spec fuel _ _ Hs Hwf Hd) as (m' & -> & Hs' & Ho).
  { subst freed. rewrite length_app in *. exact Hf. }
  eexists. split; [done|]. split; [|split; [done|split]].
  - split; cbn [with_mem heap_head hmem pages] in *;
      auto using coalesce_wf, coalesce_disjoint, coalesce_backed.
    by rewrite first_coalesce, <- Hhd.
  - cbn [with_mem hmem]. intros c Hc Hcf x Hx.
    assert (c ∈ freed) as Hc1 by (set_unfold; tauto).
    rewrite (coalesce_keeps freed _ m' Ho Hwf Hd c Hc1 Hcf x Hx).
    apply (Hk c); [set_unfold; tauto|done|done].
  - split; [|done]. cbn [with_mem hmem]. intros x _ Hx. rewrite (Ho x).
    + apply (set_free_only (b_addr b) 1 (hmem h)). intros Hin. apply Hx. exists b. split; [apply elem_of_app; right; by left|].
      destruct Hb. unfold b_end, sizeof_HeapBlock. lia.
    + intros d Hd'. unfold freed in Hd'. rewrite Forall_forall in Hwf. destruct (Hwf d Hd') as [_ _ _ _ Hp].
      destruct (decide (b_addr d <= x < b_addr d + 32)) as [Hin|Hin]; [|lia]. exfalso. apply Hx.
      apply elem_of_app in Hd' as [Hd'|[->|Hd']%elem_of_cons].
      * exists d. split; [apply elem_of_app; by left|]. unfold b_end, sizeof_HeapBlock. lia.
      * exists b. split; [apply elem_of_app; right; by left|]. cbn [b_addr] in Hin. destruct Hb. unfold b_end, sizeof_HeapBlock. lia.
      * exists d. split; [apply elem_of_app; right; by right|]. unfold b_end, sizeof_HeapBlock. lia.
Qed.

Lemma kfree_spec fuel h bs1 b bs2 :
  heap_ok h (bs1 ++ b :: bs2) -> (length (bs1 ++ b :: bs2) < fuel)%nat ->
  let freed := bs1 ++ mk_block (b_addr b) (b_size b) true :: bs2 in
  exists h', kfree fuel (b_addr b + 32) h = Some (Ok h') /\
    heap_ok h' (coalesce freed) /\ pages h' = pages h /\ keeps (bs1 ++ bs2) (hmem h) (hmem h').
Proof.
  intros Hok Hf freed. destruct (kfree_spec_frame fuel h bs1 b bs2 Hok Hf) as (h' & H1 & H2 & H3 & H4 & _). by exists h'.
Qed.

(** *** Fuel *)

Lemma find_block_mono fuel fuel' m p n r :
  (fuel <= fuel')%nat -> find_block fuel m p n = Some r -> find_block fuel' m p n = Some r.
Proof.
  revert fuel' p. induction fuel as [|fuel IH]; intros [|fuel'] p Hf; cbn [find_block]; try done; [lia|].
  repeat (case_test; [done|]). apply IH. lia.
Qed.

Lemma find_tail_mono fuel fuel' m p r :
  (fuel <= fuel')%nat -> find_tail fuel m p = Some r -> find_tail fuel' m p = Some r.
Proof.
  revert fuel' p. induction fuel as [|fuel IH]; intros [|fuel'] p Hf; cbn [find_tail]; try done; [lia|].
  repeat (case_test; [done|]). apply IH. lia.
Qed.

Lemma coalesce_loop_mono fuel fuel' m p r :
  (fuel <= fuel')%nat -> coalesce_loop fuel m p = Some r -> coalesce_loop fuel' m p = Some r.
Proof.
  revert fuel' m p. induction fuel as [|fuel IH]; intros [|fuel'] m p Hf; cbn [coalesce_loop]; try done; [lia|].
  do 2 (case_test; [done|]). case_test; apply IH; lia.
Qed.

Lemma kmalloc_mono fuel fuel' size h r :
  (fuel <= fuel')%nat -> kmalloc fuel size h = Some r -> kmalloc fuel' size h = Some r.
Proof.
  intros Hf. unfold kmalloc, request_block. case_test; [done|].
  destruct (find_block fuel _ _ _) as [p|] eqn:E1; [|done].
  rewrite (find_block_mono _ fuel' _ _ _ _ Hf E1). case_test; [|done].
  destruct (pa_alloc_pages _ _ _) as [[a s'] m']. case_test; [done|]. case_test; [done|].
  destruct (find_tail fuel _ _) as [t|] eqn:Et; [|done].
  by rewrite (find_tail_mono _ fuel' _ _ _ Hf Et).
Qed.

Lemma kfree_mono fuel fuel' p h r :
  (fuel <= fuel')%nat -> kfree fuel p h = Some r -> kfree fuel' p h = Some r.
Proof.
  intros Hf. unfold kfree. case_test; [done|]. case_test; [done|].
  destruct (coalesce_loop fuel _ _) as [m|] eqn:Ec; [|done].
  by rewrite (coalesce_loop_mono _ fuel' _ _ _ Hf Ec).
Qed.

(** *** Blocks in use *)

Definition used (bs : list block) : list block := filter (fun b => b_free b = false) bs.

Lemma used_app bs1 bs2 : used (bs1 ++ bs2) = used bs1 ++ used bs2.
Proof. apply filter_app. Qed.

Lemma used_cons b bs : used (b :: bs) = if b_free b then used bs else b :: used bs.
Proof. unfold used. rewrite filter_cons. by destruct (b_free b). Qed.

Lemma used_coalesce bs : used (coalesce bs) = used bs.
Proof.
  induction bs as [|b|b1 b2 bs IH1 IH2] using list_pair_ind; [done..|].
  rewrite coalesce_cons2. destruct (mergeable b1 b2) eqn:Hm.
  - unfold mergeable in Hm. bool_to_prop. rewrite !used_cons. cbn [merged b_free].
    by rewrite H1, H3.
  - by rewrite !(used_cons b1), IH2.
Qed.

(** The block handed out by [spec_take]. *)
Lemma spec_take_used n bs p bs' :
  spec_take n bs = Some (p, bs') ->
  exists us1 us2 b, used bs = us1 ++ us2 /\ used bs' = us1 ++ b :: us2 /\
    p = b_addr b + 32 /\ n <= b_size b.
Proof.
  revert p bs'. induction bs as [|c bs IH]; intros p bs'; cbn [spec_take]; [done|].
  destruct (fits n c) eqn:Ef.
  - intros [= <- <-]. unfold fits in Ef. bool_to_prop.
    rewrite used_cons, used_app, H1. exists [], (used bs). unfold take_block. case_test.
    + exists (mk_block (b_addr c) (b_size c) false). auto.
    + exists (mk_block (b_addr c) n false). cbn [b_size]. split_and!; auto. lia.
  - destruct (spec_take n bs) as [[q r]|] eqn:E; [|done]. intros [= -> <-].
    destruct (IH p r eq_refl) as (us1 & us2 & b & E1 & E2 & E3 & E4).
    rewrite !used_cons, E1, E2. destruct (b_free c); [by exists us1, us2, b|].
    by exists (c :: us1), us2, b.
Qed.

(** Bytes under the control of the heap. *)
Definition heap_bytes (bs : list block) : Z := foldr (fun b acc => 32 + b_size b + acc) 0 bs.

Lemma heap_bytes_app bs1 bs2 : heap_bytes (bs1 ++ bs2) = heap_bytes bs1 + heap_bytes bs2.
Proof. unfold heap_bytes. induction bs1 as [|b bs1 IH]; cbn [app foldr]; [done|]. lia. Qed.

Lemma heap_bytes_coalesce bs : heap_bytes (coalesce bs) = heap_bytes bs.
Proof.
  induction bs as [|b|b1 b2 bs IH1 IH2] using list_pair_ind; [done..|].
  rewrite coalesce_cons2. unfold heap_bytes in *. case_test; cbn [foldr merged b_size] in *; lia.
Qed.

(** *** Histories of allocations, frees and client writes *)

Definition live_region := (Z * Z)%type.

(** A configuration is the heap and the list of live (pointer, requested size). *)
Inductive heap_step : heap_state S * list live_region -> heap_state S * list live_region -> Prop :=
| hs_alloc fuel size h ptr h' live :
    0 < size <= 8796093022192 -> kmalloc fuel size h = Some (ptr, h') -> ptr <> 0 ->
    heap_step (h, live) (h', (ptr, size) :: live)
| hs_alloc_fail fuel size h h' live :
    0 < size <= 8796093022192 -> kmalloc fuel size h = Some (0, h') ->
    heap_step (h, live) (h', live)
| hs_free fuel ptr size h h' live1 live2 :
    kfree fuel ptr h = Some (Ok h') ->
    heap_step (h, live1 ++ (ptr, size) :: live2) (h', live1 ++ live2)
| hs_write ptr size x v h live :
    (ptr, size) ∈ live -> ptr <= x < ptr + size ->
    heap_step (h, live) (with_mem h (store8 (hmem h) x v), live).

(** Region [r] is the payload of block [b]. *)
Definition region_of (b : block) (r : live_region) : Prop :=
  r.1 = b_addr b + 32 /\ 0 < r.2 <= b_size b.

Definition history_inv (c : heap_state S * list live_region) : Prop :=
  exists bs us, heap_ok c.1 bs /\ used bs ≡ₚ us /\ Forall2 region_of us c.2.

(** The client may write into the payload of a block it owns. *)
Lemma client_write h bs b x v :
  heap_ok h bs -> b ∈ bs -> b_addr b + 32 <= x < b_end b ->
  heap_ok (with_mem h (store8 (hmem h) x v)) bs.
Proof.
  intros [Hhd Hs Hwf Hd Hbk Hpw] Hb Hx. split; auto. cbn [with_mem hmem].
  eapply seg_agree; [|exact Hs]. apply Forall_forall. intros c Hc y Hy.
  rewrite load8_store8. rewrite (proj2 (Z.eqb_neq y x)); [done|]. intros ->.
  apply list_elem_of_split in Hb as (l1 & l2 & ->). apply disjoint_middle in Hd as (_ & H1' & H2').
  unfold apart_from in *. rewrite Forall_forall in H1', H2', Hwf. destruct (Hwf c Hc).
  apply elem_of_app in Hc as [Hc|[->|Hc]%elem_of_cons]; [|lia|].
  1: specialize (H1' c Hc). 2: specialize (H2' c Hc).
  all: unfold apart, b_end, sizeof_HeapBlock in *; lia.
Qed.

Lemma used_elem bs b : b ∈ used bs -> b ∈ bs /\ b_free b = false.
Proof. unfold used. rewrite list_elem_of_filter. tauto. Qed.

Lemma heap_history_alloc fuel size h ptr h' live :
  0 < size <= 8796093022192 -> kmalloc fuel size h = Some (ptr, h') ->
  history_inv (h, live) ->
  history_inv (h', if ptr =? 0 then live else (ptr, size) :: live).
Proof.
  intros Hsz Hk (bs & us & Hok & Hu & Hr). cbn [fst snd] in *.
  destruct (kmalloc_spec (fuel + Datatypes.S (length bs)) size h bs Hok Hsz ltac:(lia))
    as (ptr' & h'' & Hk' & _ & Hcase).
  rewrite (kmalloc_mono fuel (fuel + Datatypes.S (length bs)) size h _ ltac:(lia) Hk) in Hk'.
  injection Hk' as <- <-.
  assert (forall bs0 bs', used bs0 = used bs -> heap_ok h' bs' ->
            spec_take (round16 size) bs0 = Some (ptr, bs') ->
            history_inv (h', if ptr =? 0 then live else (ptr, size) :: live)) as Hgo.
  { intros bs0 bs' Hu0 Hok' Ht. apply spec_take_used in Ht as (us1 & us2 & b & E1 & E2 & -> & E4).
    assert (b ∈ bs') as Hb.
    { apply used_elem. rewrite E2. apply elem_of_app. right. by left. }
    pose proof (ho_wf _ _ Hok') as Hwf'. rewrite Forall_forall in Hwf'. destruct (Hwf' b Hb).
    rewrite (proj2 (Z.eqb_neq _ _)) by lia. exists bs', (b :: us). cbn [fst snd].
    split_and!; [done|..].
    - rewrite E2, <- Permutation_middle. constructor. by rewrite <- E1, Hu0.
    - constructor; [|done]. unfold region_of. cbn [fst snd]. unfold round16 in E4. split; zlia. }
  destruct (spec_take (round16 size) bs) as [[p bs']|] eqn:Ht.
  - destruct Hcase as (-> & Hok' & _). by apply (Hgo bs bs').
  - destruct Hcase as [(-> & -> & _)|(a & bs' & Ht' & Hok')]; [by exists bs, us|].
    eapply Hgo; [|exact Hok'|exact Ht']. rewrite used_app. apply app_nil_r.
Qed.

Lemma heap_history_free fuel ptr size h h' live1 live2 :
  kfree fuel ptr h = Some (Ok h') ->
  history_inv (h, live1 ++ (ptr, size) :: live2) -> history_inv (h', live1 ++ live2).
Proof.
  intros Hk (bs & us & Hok & Hu & Hr). cbn [fst snd] in *.
  apply Forall2_app_inv_r in Hr as (us1 & us2' & Hr1 & Hr2 & ->).
  apply Forall2_cons_inv_r in Hr2 as (b & us2 & [Hb1 Hb2] & Hr2 & ->). cbn [fst snd] in *.
  assert (b ∈ bs /\ b_free b = false) as [Hb Hbf].
  { apply used_elem. rewrite Hu. apply elem_of_app. right. by left. }
  apply list_elem_of_split in Hb as (bs1 & bs2 & ->).
  set (n := length (bs1 ++ b :: bs2)).
  destruct (kfree_spec (fuel + Datatypes.S n) h bs1 b bs2 Hok ltac:(lia))
    as (h'' & Hk' & Hok' & _).
  rewrite <- Hb1 in Hk'.
  rewrite (kfree_mono fuel (fuel + Datatypes.S n) ptr h _ ltac:(lia) Hk) in Hk'.
  injection Hk' as <-. eexists _, (us1 ++ us2). split; [exact Hok'|]. cbn [fst snd].
  split; [|by apply Forall2_app]. rewrite used_coalesce, used_app, used_cons. cbn [b_free].
  rewrite used_app, used_cons, Hbf in Hu. rewrite <- !Permutation_middle in Hu.
  by apply (Permutation_cons_inv (a := b)).
Qed.

Lemma history_inv_step c c' : heap_step c c' -> history_inv c -> history_inv c'.
Proof.
  intros Hstep Hi. destruct Hstep as [fuel size h ptr h' live Hs Hk Hp
    |fuel size h h' live Hs Hk|fuel ptr size h h' l1 l2 Hk|ptr size x v h live Hl Hx].
  - pose proof (heap_history_alloc _ _ _ _ _ _ Hs Hk Hi) as Hi'.
    by rewrite (proj2 (Z.eqb_neq _ _)) in Hi' by done.
  - exact (heap_history_alloc _ _ _ _ _ _ Hs Hk Hi).
  - by eapply heap_history_free.
  - destruct Hi as (bs & us & Hok & Hu & Hr). cbn [fst snd] in *. exists bs, us.
    split_and!; [|done..]. apply list_elem_of_lookup in Hl as [i Hi].
    destruct (Forall2_lookup_r _ _ _ _ _ Hr Hi) as (b & Hb & [E1 E2]). cbn [fst snd] in *.
    apply list_elem_of_lookup_2 in Hb. rewrite <- Hu in Hb. apply used_elem in Hb as [Hb _].
    apply (client_write h bs b); [done..|]. unfold b_end, sizeof_HeapBlock. lia.
Qed.

(** Distinct members of a list of disjoint blocks are apart. *)
Lemma disjoint_lookup bs i j a b :
  blocks_disjoint bs -> bs !! i = Some a -> bs !! j = Some b -> i <> j -> apart a b.
Proof.
  revert i j. induction bs as [|c bs IH]; intros i j Hd Hi Hj Hne; [done|].
  destruct Hd as [Hc Hd]. rewrite Forall_forall in Hc.
  destruct i as [|i], j as [|j]; cbn [lookup list_lookup] in *; simplify_eq.
  - apply Hc. by eapply list_elem_of_lookup_2.
  - apply apart_sym, Hc. by eapply list_elem_of_lookup_2.
  - apply (IH i j); auto.
Qed.

Lemma disjoint_used bs : blocks_disjoint bs -> blocks_disjoint (used bs).
Proof.
  induction bs as [|b bs IH]; [done|]. intros [Hb Hd]. rewrite used_cons.
  destruct (b_free b); [auto|]. split; [|auto]. rewrite Forall_forall in Hb |- *.
  intros c [Hc _]%used_elem. auto.
Qed.

Lemma disjoint_perm bs bs' : bs ≡ₚ bs' -> blocks_disjoint bs -> blocks_disjoint bs'.
Proof.
  induction 1 as [|b l l' Hp IH|a b l|]; auto.
  - intros [H1 H2]. split; [by rewrite <- Hp|auto].
  - intros [[H1 H2]%Forall_cons [H3 H4]].
    split; [constructor; [by apply apart_sym|done]|by split].
Qed.

Lemma live_apart bs us live i j p sz q sz' :
  Forall block_wf bs -> blocks_disjoint bs -> used bs ≡ₚ us -> Forall2 region_of us live ->
  live !! i = Some (p, sz) -> live !! j = Some (q, sz') -> i <> j ->
  p + sz <= q \/ q + sz' <= p.
Proof.
  intros Hwf Hd Hu Hr Hi Hj Hne.
  destruct (Forall2_lookup_r _ _ _ _ _ Hr Hi) as (b & Hb & [E1 E2]).
  destruct (Forall2_lookup_r _ _ _ _ _ Hr Hj) as (c & Hc & [E3 E4]). cbn [fst snd] in *.
  apply disjoint_used, (disjoint_perm _ us Hu) in Hd.
  pose proof (disjoint_lookup us i j b c Hd Hb Hc Hne) as Hap.
  unfold apart, b_end, sizeof_HeapBlock in Hap. lia.
Qed.

Lemma live_region_ok (h : heap_state S) bs us live p sz :
  heap_ok h bs -> used bs ≡ₚ us -> Forall2 region_of us live -> (p, sz) ∈ live ->
  p mod 16 = 0 /\ (forall x, p <= x < p + sz -> pa_live (pages h) (x / PAGE_SIZE)) /\
  (forall b, b ∈ bs -> b_addr b + 32 <= p \/ p + sz <= b_addr b).
Proof.
  intros [_ _ Hwf Hd Hbk _] Hu Hr Hin. apply list_elem_of_lookup in Hin as [i Hi].
  destruct (Forall2_lookup_r _ _ _ _ _ Hr Hi) as (b & Hb & [E1 E2]). cbn [fst snd] in *.
  apply list_elem_of_lookup_2 in Hb. rewrite <- Hu in Hb. apply used_elem in Hb as [Hb _].
  rewrite Forall_forall in Hwf, Hbk. destruct (Hwf b Hb) as [? ? ? ? ?]. split_and!.
  - zlia.
  - intros x Hx. apply (Hbk b Hb). unfold b_end, sizeof_HeapBlock. lia.
  - intros c Hc. apply list_elem_of_lookup in Hb as [k Hk], Hc as [l Hl].
    destruct (decide (k = l)) as [->|Hne]; [simplify_eq; lia|].
    pose proof (disjoint_lookup bs k l b c Hd Hk Hl Hne) as Hap.
    apply list_elem_of_lookup_2 in Hl. destruct (Hwf c Hl) as [? ? ? ? ?].
    unfold apart, b_end, sizeof_HeapBlock in Hap. lia.
Qed.

(** ** Properties *)

(** C3: [kmalloc] refines first fit on the list of blocks.  On a well-formed
    heap and for every request up to 8 TiB the walk terminates; the pointer
    and the new list are those of [spec_take] on the current list, or, when no
    free block fits, on the list extended by one fresh page run; it returns 0,
    changing nothing, only when the page allocator has no such run.  No byte of
    a block in use changes. *)
Theorem kmalloc_refines fuel size h bs :
  heap_ok h bs -> 0 < size <= 8796093022192 -> (length bs < fuel)%nat ->
  let n := round16 size in
  exists ptr h', kmalloc fuel size h = Some (ptr, h') /\ keeps bs (hmem h) (hmem h') /\
    match spec_take n bs with
    | Some (p, bs') => ptr = p /\ heap_ok h' bs' /\ pages h' = pages h
    | None =>
        (ptr = 0 /\ h' = h /\
         (pa_alloc_pages (grow_bytes n / PAGE_SIZE) (pages h) (hmem h)).1.1 = 0) \/
        exists a bs', spec_take n (bs ++ [mk_block a (grow_bytes n - 32) true]) = Some (ptr, bs') /\
                      heap_ok h' bs'
    end.
Proof. apply kmalloc_spec. Qed.

(** C4: [kfree] of the payload of any block of the list terminates without a
    panic, and the new list is the old one with the block marked free after one
    coalescing pass; the blocks in use, and every byte of their payloads, are
    unchanged, and the total number of managed bytes is conserved. *)
Theorem kfree_refines fuel h bs1 b bs2 :
  heap_ok h (bs1 ++ b :: bs2) -> (length (bs1 ++ b :: bs2) < fuel)%nat ->
  let freed := bs1 ++ mk_block (b_addr b) (b_size b) true :: bs2 in
  exists h', kfree fuel (b_addr b + 32) h = Some (Ok h') /\
    heap_ok h' (coalesce freed) /\ keeps (bs1 ++ bs2) (hmem h) (hmem h') /\
    used (coalesce freed) = used (bs1 ++ bs2) /\
    heap_bytes (coalesce freed) = heap_bytes (bs1 ++ b :: bs2).
Proof.
  intros Hok Hf freed. destruct (kfree_spec fuel h bs1 b bs2 Hok Hf) as (h' & E & H1 & _ & H2).
  exists h'. split_and!; auto.
  - rewrite used_coalesce. unfold freed. by rewrite !used_app, used_cons.
  - rewrite heap_bytes_coalesce. unfold freed. by rewrite !heap_bytes_app.
Qed.

(** C5: from the empty heap, in every sequence of allocations (successful or
    not), frees of live pointers and writes of clients inside what they own,
    the live regions never overlap, are 16-byte aligned, lie in pages the page
    allocator has marked in use, and stay clear of the list's headers. *)
Theorem heap_live_regions_disjoint (h : heap_state S) c :
  heap_head h = 0 -> pa_wf (pages h) -> rtc heap_step (h, []) c ->
  exists bs, heap_ok c.1 bs /\
    (forall i j p sz q sz', c.2 !! i = Some (p, sz) -> c.2 !! j = Some (q, sz') -> i <> j ->
       p + sz <= q \/ q + sz' <= p) /\
    (forall p sz, (p, sz) ∈ c.2 -> p mod 16 = 0 /\
       (forall x, p <= x < p + sz -> pa_live (pages c.1) (x / PAGE_SIZE)) /\
       (forall b, b ∈ bs -> b_addr b + 32 <= p \/ p + sz <= b_addr b)).
Proof.
  intros Hh Hp Hrtc. assert (history_inv c) as (bs & us & Hok & Hu & Hr).
  { assert (history_inv (h, [])) as Hi by (exists [], []; split_and!; [by split|done|done]).
    remember (h, @nil live_region) as c0 eqn:E. clear E Hh Hp.
    induction Hrtc; eauto using history_inv_step. }
  exists bs. split; [done|]. split.
  - intros i j p sz q sz' Hi Hj Hne. by apply (live_apart bs us c.2 i j p sz q sz' (ho_wf _ _ Hok)
      (ho_disjoint _ _ Hok)).
  - intros p sz Hin. by apply (live_region_ok c.1 bs us c.2 p sz).
Qed.
End Refine.

(** ** Example: the heap over the physical page allocator *)

Definition heap0 : heap_state pmm_state := mk_heap 0 demo_pmm ∅.

Lemma heap0_pages : pa_wf (pages heap0).
Proof. exact demo_pmm_wf. Qed.

Lemma heap0_ok : heap_ok heap0 [].
Proof. split; [reflexivity|exact I|constructor|exact I|constructor|exact demo_pmm_wf]. Qed.

(** A request of 100 bytes: the block starts at the first free page. *)
Definition demo_heap_block : block := mk_block 0x105000 112 false.
Definition demo_heap_blocks : list block :=
  [demo_heap_block; mk_block 0x105090 (4064 - 112 - 32) true].

Lemma demo_size_ok : 0 < 100 <= 8796093022192.
Proof. lia. Qed.

Lemma demo_kmalloc_ptr : option_map fst (kmalloc 1 100 heap0) = Some 0x105020.
Proof. vm_compute. reflexivity. Qed.

Lemma demo_kmalloc : exists h',
  kmalloc 1 100 heap0 = Some (0x105020, h') /\ heap_ok h' demo_heap_blocks.
Proof.
  pose proof (kmalloc_spec 1 100 heap0 [] heap0_ok demo_size_ok (le_n 1))
    as (ptr & h' & E & _ & Hc).
  pose proof demo_kmalloc_ptr as Ep. rewrite E in Ep. injection Ep as ->.
  exists h'. split; [exact E|]. cbn [spec_take] in Hc.
  destruct Hc as [(Hz & _)|(a & bs' & Ht & Hok)]; [discriminate Hz|].
  cbn [app] in Ht.
  assert (spec_take (round16 100) [mk_block a (grow_bytes (round16 100) - 32) true]
          = Some (a + 32, [mk_block a 112 false; mk_block (a + 32 + 112) (4064 - 112 - 32) true]))
    as Ht' by reflexivity.
  rewrite Ht' in Ht. injection Ht as Ea <-.
  assert (a = 0x105000) as -> by lia. exact Hok.
Qed.

Lemma kmalloc_refines_witness : exists ptr h',
  kmalloc 1 100 heap0 = Some (ptr, h') /\ keeps [] (hmem heap0) (hmem h').
Proof.
  destruct (kmalloc_refines 1 100 heap0 [] heap0_ok demo_size_ok (le_n 1))
    as (ptr & h' & E & K & _).
  exists ptr, h'. split; assumption.
Defined.

Lemma kfree_refines_witness : exists h h',
  kfree 3 0x105020 h = Some (Ok h') /\ heap_ok h' [mk_block 0x105000 4064 true].
Proof.
  destruct demo_kmalloc as (h & _ & Hok). exists h.
  destruct (kfree_refines 3 h [] demo_heap_block [mk_block 0x105090 (4064 - 112 - 32) true]
              Hok (le_n 3)) as (h' & E & Hok' & _).
  exists h'. split; [exact E|exact Hok'].
Defined.

Lemma heap_live_regions_disjoint_witness : exists h',
  rtc heap_step (heap0, []) (h', [(0x105020, 100)]) /\
  0x105020 mod 16 = 0.
Proof.
  destruct demo_kmalloc as (h' & E & _). exists h'.
  assert (rtc heap_step (heap0, []) (h', [(0x105020, 100)])) as Hr.
  { eapply rtc_l; [|apply rtc_refl]. eapply hs_alloc; [exact demo_size_ok|exact E|lia]. }
  split; [exact Hr|].
  destruct (heap_live_regions_disjoint heap0 (h', [(0x105020, 100)]) eq_refl heap0_pages Hr)
    as (bs & _ & _ & Hl).
  apply (Hl 0x105020 100). by left.
Defined.

(** A request of 2^44 bytes overflows the 32-bit page count: one page is
    allocated for a block that claims 16 TiB. *)
Theorem kmalloc_page_count_truncated :
  match kmalloc 1 17592186044416 heap0 with
  | Some (ptr, h') =>
      (ptr =? 0x105020) && (blk_size (hmem h') (ptr - 32) =? 17592186044416) &&
      (used_page_count (pages h') =? used_page_count demo_pmm + 1)
  | None => false
  end = true.
Proof. vm_compute. reflexivity. Qed.

(** A request above 2^64 - 16 wraps to zero: the caller gets a pointer to an
    empty payload. *)
Theorem kmalloc_size_wraps :
  match kmalloc 1 18446744073709551615 heap0 with
  | Some (ptr, h') => (ptr =? 0x105020) && (blk_size (hmem h') (ptr - 32) =? 0)
  | None => false
  end = true.
Proof. vm_compute. reflexivity. Qed.

(** One pass leaves neighbours apart: three adjacent free blocks become two. *)
Theorem coalesce_incomplete :
  coalesce [mk_block 4096 32 true; mk_block 4160 32 true; mk_block 4224 32 true]
  = [mk_block 4096 96 true; mk_block 4224 32 true].
Proof. reflexivity. Qed.
