(* ===== verification/HeapGuard.v ===== *)
(** The heap beside the rest of memory: requests, releases and writes of the heap's
    clients leave the pages that other parts of the kernel hold as they are.

    [guarded G h live]: the heap [h] with the regions [live] lies outside the pages
    [G], which are in use.  [after G k h h']: at most [k] pages were taken and the
    bytes of [G] are unchanged. *)
From stdpp Require Import base numbers list gmap.
From Stdlib Require Import ZArith Lia.
From S2P Require Import Prelude Memory PageAllocator BootInfo Pmm Heap.

Section Guard.
Context {S : Type} `{PageAllocatorOk S}.
Implicit Types (h : heap_state S) (s : S).

(** The pages [G] are guarded: in use, and not by the heap. *)
Context (G : Z -> Prop).

Definition away (bs : list block) : Prop := forall x, in_blocks bs x -> ~ G (x / PAGE_SIZE).

Record guarded h (live : list live_region) : Prop := {
  gd_heap : exists bs us, heap_ok h bs /\ used bs ≡ₚ us /\ Forall2 region_of us live /\ away bs;
  gd_live : forall q, G q -> pa_live (pages h) q;
}.

Lemma guarded_history h live : guarded h live -> history_inv (h, live).
Proof. intros [(bs & us & H1 & H2 & H3 & _) _]. by exists bs, us. Qed.

Lemma guarded_wf h live : guarded h live -> pa_wf (pages h).
Proof. intros [(bs & us & Hok & _) _]. apply Hok. Qed.

(** Memory and pages may change where the heap is not. *)
Lemma heap_frame h bs s' m' :
  heap_ok h bs -> pa_wf s' -> (forall q, pa_live (pages h) q -> pa_live s' q) ->
  (forall x, pa_live (pages h) (x / PAGE_SIZE) -> load8 m' x = load8 (hmem h) x) ->
  heap_ok (mk_heap (heap_head h) s' m') bs.
Proof.
  intros [H1 H2 H3 H4 H5 H6] Hw Hl Hm. split; [done| |done|done| |done]; cbn [pages hmem].
  - eapply seg_agree; [|exact H2]. rewrite Forall_forall in H3, H5 |- *. intros b Hb x Hx. apply Hm, (H5 b Hb).
    destruct (H3 b Hb). unfold b_end, sizeof_HeapBlock. lia.
  - eapply Forall_impl; [exact H5|]. intros b Hb x Hx. by apply Hl, Hb.
Qed.

Lemma guarded_frame h live s' m' :
  guarded h live -> pa_wf s' -> (forall q, pa_live (pages h) q -> pa_live s' q) ->
  (forall x, pa_live (pages h) (x / PAGE_SIZE) -> load8 m' x = load8 (hmem h) x) ->
  guarded (mk_heap (heap_head h) s' m') live.
Proof.
  intros [(bs & us & Hok & Hu & Hr & Ha) Hg] Hw Hl Hm. split; [|intros q Hq; by apply Hl, Hg].
  exists bs, us. split; [by apply (heap_frame h)|done].
Qed.

(** A heap state after [h]: at most [k] pages were taken, bytes are still bytes, and the
    bytes of the guarded pages are unchanged. *)
Definition after (k : nat) h h' : Prop :=
  takes k (pages h) (pages h') /\ (mem_ok (hmem h) -> mem_ok (hmem h')) /\
  (forall x, G (x / PAGE_SIZE) -> load8 (hmem h') x = load8 (hmem h) x).

Lemma after_refl h : after 0 h h.
Proof. split; [apply takes_refl|done]. Qed.

Lemma after_trans k1 k2 h1 h2 h3 : after k1 h1 h2 -> after k2 h2 h3 -> after (k1 + k2) h1 h3.
Proof. intros (T1 & M1 & F1) (T2 & M2 & F2). split; [by eapply takes_trans|]. split; [auto|]. intros x Hx. by rewrite F2, F1. Qed.

Lemma after_mono k k' h h' : (k <= k')%nat -> after k h h' -> after k' h h'.
Proof. intros Hk (T & M & F). split; [by eapply takes_mono|done]. Qed.

(** Pages that are taken and given back. *)
Lemma pages_returned count h live p s m :
  guarded h live -> 0 < count < 4294967296 -> pa_alloc_pages count (pages h) (hmem h) = (p, s, m) -> p <> 0 ->
  let h' := mk_heap (heap_head h) (pa_free_pages p count s) m in
  Z.land p 0xfff = 0 /\ after 0 h h' /\ guarded h' live.
Proof.
  intros Hi Hc Ea Hp h'. pose proof (guarded_wf _ _ Hi) as Hw. apply pa_alloc_ok in Ea as A; [|done|lia|done].
  pose proof (pa_top_bound _ Hw) as Ht. destruct A as [A1 A2 A3 A4 A5 A6 A7 A8].
  destruct (pa_free_ok p count s A7) as (F1 & F2 & F3); [unfold PAGE_SIZE in *; lia|lia|].
  assert (forall x, pa_live (pages h) (x / PAGE_SIZE) -> load8 m x = load8 (hmem h) x) as Hx.
  { intros x Hx. rewrite A6, load8_mem_zero. case_test; [|done]. exfalso. apply (A4 (x / PAGE_SIZE)); [|done].
    bool_to_prop. unfold PAGE_SIZE in *. zlia. }
  split; [change 0xfff with (Z.ones 12); by rewrite Z.land_ones by lia|]. split.
  - split; [apply (takes_less 0 (pages h) (pages h)); [apply takes_refl|cbn; congruence|]|].
    { cbn [h' pages]. intros q Hq. pose proof (pa_live_top _ _ Hq) as Hb. apply F3 in Hq as [Hq Hn]; [|lia]. apply A5 in Hq as [Hq|Hq]; [done|tauto]. }
    split; [intros Hm; cbn [h' hmem]; rewrite A6; auto with mem|]. intros x HG. by apply Hx, (gd_live _ _ Hi).
  - apply (guarded_frame h); [done|done| |done].
    intros q Hq. pose proof (pa_live_top _ _ Hq). apply F3; [lia|]. split; [apply A5; by left|]. intros Hr. by apply (A4 q).
Qed.

Lemma kmalloc_takes fuel size h p h' :
  pa_wf (pages h) -> 0 < size <= 8796093022192 -> kmalloc fuel size h = Some (p, h') ->
  takes (Z.to_nat (pages_for size)) (pages h) (pages h').
Proof.
  intros Hw Hs. destruct (pages_for_u32 size Hs) as [Eu Hb]. unfold kmalloc. case_test; [bool_to_prop; lia|].
  destruct (find_block _ _ _ _) as [found|]; [|done].
  assert (forall blk h2, (if found =? 0 then request_block fuel (align_up size 16) h else Some (found, h)) = Some (blk, h2) ->
    takes (Z.to_nat (pages_for size)) (pages h) (pages h2)) as Hr.
  { assert (takes (Z.to_nat (pages_for size)) (pages h) (pages h)) as T0 by (eapply takes_mono; [|apply takes_refl]; lia).
    intros blk h2. case_test; [|by intros [= <- <-]]. unfold request_block. cbv zeta. rewrite Eu.
    destruct (pa_alloc_pages _ (pages h) (hmem h)) as [[b s] m] eqn:Ea.
    assert (takes (Z.to_nat (pages_for size)) (pages h) s) as Ht.
    { destruct (Z.eqb_spec b 0) as [->|Hne].
      - by destruct (pa_alloc_none (pages_for size) _ _ _ _ Hw ltac:(lia) Ea) as [-> _].
      - apply (takes_alloc (pages_for size) _ _ _ _ _ Hw ltac:(lia) Ea Hne). }
    case_test; [by intros [= <- <-]|]. case_test; [by intros [= <- <-]|]. destruct (find_tail _ _ _); [|done]. by intros [= <- <-]. }
  destruct (if found =? 0 then _ else _) as [[blk h2]|]; [|done]. specialize (Hr blk h2 eq_refl). case_test; by intros [= <- <-].
Qed.

Lemma kfree_top fuel p h h' : kfree fuel p h = Some (Ok h') -> pages h' = pages h.
Proof.
  unfold kfree. cbv zeta. case_test; [by intros [= <-]|]. case_test; [done|]. destruct (coalesce_loop _ _ _); [|done]. by intros [= <-].
Qed.

(** Memory stays a memory of bytes. *)
Lemma write_header_bytes b size nxt m : mem_ok m -> mem_ok (write_header b size nxt m).
Proof. intros Hm. unfold write_header, set_magic, set_size, set_free, set_next, store64, store32. auto 10 with mem. Qed.

Lemma kmalloc_bytes fuel size h p h' : pa_wf (pages h) -> kmalloc fuel size h = Some (p, h') -> mem_ok (hmem h) -> mem_ok (hmem h').
Proof.
  intros Hw. unfold kmalloc. case_test; [by intros [= <- <-]|]. destruct (find_block _ _ _ _) as [found|]; [|done].
  assert (forall blk h2, (if found =? 0 then request_block fuel (align_up size 16) h else Some (found, h)) = Some (blk, h2) ->
    mem_ok (hmem h) -> mem_ok (hmem h2)) as Hr.
  { intros blk h2. case_test; [|by intros [= <- <-]]. unfold request_block. cbv zeta.
    destruct (pa_alloc_pages _ (pages h) (hmem h)) as [[b s] m] eqn:Ea.
    assert (mem_ok (hmem h) -> mem_ok m) as Hm.
    { intros Hm. destruct (Z.eqb_spec b 0) as [->|Hb].
      - by destruct (pa_alloc_none _ _ _ _ _ Hw (u32_bound _) Ea) as [_ ->].
      - rewrite (ap_zeroed _ _ _ _ _ _ (pa_alloc_ok _ _ _ _ _ _ Hw (u32_bound _) Ea Hb)). auto with mem. }
    case_test; [by intros [= <- <-]|]. case_test; [intros [= <- <-] H1; by apply write_header_bytes, Hm|].
    destruct (find_tail _ _ _); [|done]. intros [= <- <-] H1. cbn [hmem]. unfold set_next, store64. apply store_le_ok, write_header_bytes, Hm, H1. }
  destruct (if found =? 0 then _ else _) as [[blk h2]|]; [|done]. specialize (Hr blk h2 eq_refl). case_test; intros [= <- <-] Hm; [by apply Hr|].
  cbn [with_mem hmem]. unfold set_free, store32. apply store_le_ok. unfold split_block. cbv zeta. case_test; [by apply Hr|].
  unfold set_next, set_size, store64. apply store_le_ok, store_le_ok, write_header_bytes, Hr, Hm.
Qed.

Lemma coalesce_loop_bytes fuel m cur m' : coalesce_loop fuel m cur = Some m' -> mem_ok m -> mem_ok m'.
Proof.
  revert m cur. induction fuel as [|fuel IH]; intros m cur; [done|]. cbn [coalesce_loop]. case_test; [by intros [= <-]|].
  cbv zeta. case_test; [by intros [= <-]|]. case_test; intros Hl Hm; apply IH in Hl; [done| |done|done].
  unfold set_next, set_size, store64. auto with mem.
Qed.

Lemma kfree_bytes fuel p h h' : kfree fuel p h = Some (Ok h') -> mem_ok (hmem h) -> mem_ok (hmem h').
Proof.
  unfold kfree. cbv zeta. case_test; [by intros [= <-]|]. case_test; [done|].
  destruct (coalesce_loop _ _ _) as [m|] eqn:El; [|done]. intros [= <-] Hm. eapply coalesce_loop_bytes; [exact El|].
  unfold set_free, store32. auto with mem.
Qed.

(** Blocks of a request: parts of the old ones. *)
Lemma spec_take_away n bs p bs' : 0 <= n -> away bs -> spec_take n bs = Some (p, bs') -> away bs'.
Proof.
  intros Hn. revert p bs'. induction bs as [|b bs IH]; intros p bs' Ha; cbn [spec_take]; [done|].
  destruct (fits n b) eqn:Ef.
  - intros [= <- <-] x (c & [Hc|Hc]%elem_of_app & Hin); [|apply Ha; exists c; split; [by right|done]].
    apply Ha. exists b. split; [by left|]. unfold fits in Ef. bool_to_prop. unfold take_block in Hc. revert Hc. case_test; bool_to_prop.
    + intros ->%list_elem_of_singleton. exact Hin.
    + rewrite !elem_of_cons, elem_of_nil. unfold b_end, sizeof_HeapBlock in *. intros [->|[->|[]]]; cbn [b_addr b_size] in Hin; lia.
  - destruct (spec_take n bs) as [[q r]|] eqn:E; [|done]. intros [= -> <-] x (c & [->|Hc]%elem_of_cons & Hin).
    + apply Ha. exists b. split; [by left|done].
    + eapply (IH p r); [|done|by exists c]. intros y (d & Hd & Hy). apply Ha. exists d. split; [by right|done].
Qed.

Lemma coalesce_fits n bs : Forall block_wf bs -> Exists (fun b => fits n b = true) bs -> Exists (fun b => fits n b = true) (coalesce bs).
Proof.
  induction bs as [|b|b1 b2 bs IH1 IH2] using list_pair_ind; intros Hwf He; [done..|]. rewrite coalesce_cons2. unfold mergeable, merged.
  apply Forall_cons in Hwf as [W1 Hwf]. pose proof Hwf as [W2 Hwf2]%Forall_cons. destruct W1 as [_ _ _ _ P1], W2 as [_ _ _ _ P2].
  destruct (b_free b1 && b_free b2 && (b_end b1 =? b_addr b2)) eqn:Em.
  - unfold fits in He |- *. apply Exists_cons in He as [He|[He|He]%Exists_cons].
    + apply Exists_cons_hd. cbn. bool_to_prop. lia.
    + apply Exists_cons_hd. cbn. bool_to_prop. lia.
    + by apply Exists_cons_tl, IH1.
  - apply Exists_cons in He as [He|He]; [by apply Exists_cons_hd|]. by apply Exists_cons_tl, IH2.
Qed.

Lemma coalesce_away bs : Forall block_wf bs -> away bs -> away (coalesce bs).
Proof.
  induction bs as [|b|b1 b2 bs IH1 IH2] using list_pair_ind; intros Hwf Ha; [done..|]. rewrite coalesce_cons2. unfold mergeable, merged.
  apply Forall_cons in Hwf as [W1 Hwf]. pose proof Hwf as [W2 Hwf2]%Forall_cons. destruct W1 as [_ _ _ _ P1], W2 as [_ _ _ _ P2].
  assert (away (b2 :: bs)) as Ha2 by (intros y (d & Hd & Hy); apply Ha; exists d; split; [by right|done]).
  assert (away bs) as Ha1 by (intros y (d & Hd & Hy); apply Ha2; exists d; split; [by right|done]).
  destruct (b_free b1 && b_free b2 && (b_end b1 =? b_addr b2)) eqn:Em; intros x (c & [->|Hc]%elem_of_cons & Hin).
  - bool_to_prop. unfold b_end, sizeof_HeapBlock in *. cbn [b_addr b_size] in Hin. destruct (Z.lt_ge_cases x (b_addr b2)) as [Hx|Hx].
    + apply Ha. exists b1. split; [by left|]. unfold b_end, sizeof_HeapBlock. lia.
    + apply Ha. exists b2. split; [right; by left|]. unfold b_end, sizeof_HeapBlock. lia.
  - apply (IH1 Hwf2 Ha1). by exists c.
  - apply Ha. exists b1. split; [by left|done].
  - apply (IH2 Hwf Ha2). by exists c.
Qed.

Lemma spec_take_fits n bs : Exists (fun b => fits n b = true) bs -> exists r, spec_take n bs = Some r.
Proof.
  induction bs as [|b bs IH]; intros He; [by apply Exists_nil in He|]. cbn [spec_take]. destruct (fits n b) eqn:Ef; [by eexists|].
  apply Exists_cons in He as [He|He]; [congruence|]. destruct (IH He) as ([q r] & ->). by eexists.
Qed.

(** The regions after a request. *)
Definition grant (p size : Z) (live : list live_region) : list live_region := if p =? 0 then live else (p, size) :: live.

Lemma leaves_guarded h bs h' : away bs -> (forall q, G q -> pa_live (pages h) q) -> leaves_alone bs h h' ->
  (forall x, G (x / PAGE_SIZE) -> load8 (hmem h') x = load8 (hmem h) x) /\ (forall q, G q -> pa_live (pages h') q).
Proof. intros Ha Hg [L1 L2]. split; [|auto]. intros x Hx. apply L1; [by apply Hg|]. intros Hb. by apply (Ha x Hb). Qed.

(** A request, with the blocks it leads to. *)
Lemma alloc_spec fuel size h bs us live :
  heap_ok h bs -> used bs ≡ₚ us -> Forall2 region_of us live -> away bs -> (forall q, G q -> pa_live (pages h) q) ->
  0 < size <= 8796093022192 -> (length bs < fuel)%nat ->
  exists p h', kmalloc fuel size h = Some (p, h') /\ guarded h' (grant p size live) /\
    after (Z.to_nat (pages_for size)) h h' /\ (p = 0 -> h' = h /\ no_run (pages_for size) 1 (pages h)) /\
    (Exists (fun b => fits (round16 size) b = true) bs -> p <> 0).
Proof.
  intros Hok Hu Hr Ha Hg Hs Hf. destruct (kmalloc_spec_frame fuel size h bs Hok Hs Hf) as (p & h' & Hk & _ & Hl & Hc). exists p, h'.
  split; [done|]. destruct (leaves_guarded h bs h' Ha Hg Hl) as [Hx Hg'].
  assert (after (Z.to_nat (pages_for size)) h h') as Haft.
  { split; [by apply (kmalloc_takes fuel size h p h' (ho_pages _ _ Hok))|]. split; [by apply (kmalloc_bytes fuel size h p h' (ho_pages _ _ Hok))|done]. }
  assert (0 <= round16 size /\ size <= round16 size) as (N1 & N3) by (unfold round16; zlia).
  assert (forall bs0 bs', used bs0 = used bs -> away bs0 -> heap_ok h' bs' -> spec_take (round16 size) bs0 = Some (p, bs') ->
    guarded h' (grant p size live) /\ p <> 0) as Hgo.
  { intros bs0 bs' Hu0 Ha0 Hok' Ht. pose proof (spec_take_away _ _ _ _ N1 Ha0 Ht) as Ha'.
    apply spec_take_used in Ht as (us1 & us2 & b & E1 & E2 & -> & E4).
    assert (b ∈ bs') as Hb by (apply used_elem; rewrite E2; apply elem_of_app; right; by left).
    pose proof (ho_wf _ _ Hok') as Hwf'. rewrite Forall_forall in Hwf'. destruct (Hwf' b Hb). split; [|lia].
    unfold grant. rewrite (proj2 (Z.eqb_neq _ _)) by lia. split; [|done]. exists bs', (b :: us). split; [done|]. split; [|split; [|done]].
    - rewrite E2, <- Permutation_middle. constructor. by rewrite <- E1, Hu0.
    - constructor; [|done]. split; cbn [fst snd]; lia. }
  destruct (spec_take (round16 size) bs) as [[q bs']|] eqn:Ht.
  - destruct Hc as (-> & Hok' & _). destruct (Hgo bs bs' eq_refl Ha Hok' Ht). split; [done|]. split; [done|]. split; [tauto|auto].
  - split; [|split; [done|split]].
    + destruct Hc as [(-> & -> & _)|(a & bs' & Ht' & Hok' & Hfr)]; [by split; [exists bs, us|]|].
      refine (proj1 (Hgo (bs ++ [mk_block a (grow_bytes (round16 size) - 32) true]) bs' _ _ Hok' Ht')).
      * rewrite used_app. apply app_nil_r.
      * intros x (c & [Hc|Hc%list_elem_of_singleton]%elem_of_app & Hin); [apply Ha; by exists c|]. subst c. intros HG.
        apply (Hfr x); [|by apply Hg]. unfold b_end, sizeof_HeapBlock in Hin. cbn [b_addr b_size] in Hin. lia.
    + intros ->. destruct Hc as [(_ & -> & Hno)|(a & bs' & Ht' & Hok' & Hfr)].
      * destruct (pages_for_u32 size Hs) as [_ Hb]. fold (pages_for size) in Hno.
        destruct (pa_alloc_pages (pages_for size) (pages h) (hmem h)) as [[q s] m] eqn:Ea. cbn [fst] in Hno. subst q.
        split; [done|]. exact (no_run_failed _ _ _ _ _ (ho_pages _ _ Hok) Hb Ea).
      * apply spec_take_used in Ht' as (us1 & us2 & b & E1 & E2 & Ep & E4).
        assert (b ∈ bs') as Hb by (apply used_elem; rewrite E2; apply elem_of_app; right; by left).
        pose proof (ho_wf _ _ Hok') as Hwf'. rewrite Forall_forall in Hwf'. destruct (Hwf' b Hb). lia.
    + intros He. destruct (spec_take_fits (round16 size) bs He) as [r E]. congruence.
Qed.

Lemma alloc_step size h live :
  guarded h live -> 0 < size <= 8796093022192 ->
  exists F p h', (forall fuel, (F <= fuel)%nat -> kmalloc fuel size h = Some (p, h')) /\ guarded h' (grant p size live) /\
    after (Z.to_nat (pages_for size)) h h' /\ (p = 0 -> h' = h /\ no_run (pages_for size) 1 (pages h)).
Proof.
  intros [(bs & us & Hok & Hu & Hr & Ha) Hg] Hs.
  destruct (alloc_spec (Datatypes.S (length bs)) size h bs us live Hok Hu Hr Ha Hg Hs ltac:(lia)) as (p & h' & Hk & Hi & Haf & Hno & _).
  exists (Datatypes.S (length bs)), p, h'. split; [|done]. intros fuel Hf. by apply (kmalloc_mono (Datatypes.S (length bs))).
Qed.

(** A release, with a free block of the size left behind. *)
Lemma free_spec p size h live1 live2 :
  guarded h (live1 ++ (p, size) :: live2) ->
  exists F h' bs us, (forall fuel, (F <= fuel)%nat -> kfree fuel p h = Some (Ok h')) /\
    heap_ok h' bs /\ used bs ≡ₚ us /\ Forall2 region_of us (live1 ++ live2) /\ away bs /\ (forall q, G q -> pa_live (pages h') q) /\
    after 0 h h' /\ Exists (fun b => fits size b = true) bs.
Proof.
  intros [(bs & us & Hok & Hu & Hr & Ha) Hg]. apply Forall2_app_inv_r in Hr as (us1 & us2' & Hr1 & Hr2 & ->).
  apply Forall2_cons_inv_r in Hr2 as (b & us2 & [Hb1 Hb2] & Hr2 & ->). cbn [fst snd] in *.
  assert (b ∈ bs /\ b_free b = false) as [Hb Hbf] by (apply used_elem; rewrite Hu; apply elem_of_app; right; by left).
  apply list_elem_of_split in Hb as (bs1 & bs2 & ->). set (n := length (bs1 ++ b :: bs2)) in *.
  destruct (kfree_spec_frame (Datatypes.S n) h bs1 b bs2 Hok ltac:(lia)) as (h' & Hk & Hok' & Ep & _ & Hl).
  set (freed := bs1 ++ mk_block (b_addr b) (b_size b) true :: bs2) in *.
  destruct (leaves_guarded h _ h' Ha Hg Hl) as [Hx Hg']. rewrite <- Hb1 in Hk.
  assert (Forall block_wf freed) as Hwf.
  { pose proof (ho_wf _ _ Hok) as Hwf. apply Forall_app in Hwf as [W1 [W2 W3]%Forall_cons]. apply Forall_app; split; [done|].
    apply Forall_cons; split; [|done]. destruct W2. by split. }
  exists (Datatypes.S n), h', (coalesce freed), (us1 ++ us2). split; [intros fuel Hf; by apply (kfree_mono (Datatypes.S n))|].
  split; [done|]. split; [|split; [by apply Forall2_app|split; [|split; [done|split]]]].
  - rewrite used_coalesce. unfold freed. rewrite used_app, used_cons. cbn [b_free]. rewrite used_app, used_cons, Hbf in Hu.
    rewrite <- !Permutation_middle in Hu. by apply (Permutation_cons_inv (a := b)).
  - apply coalesce_away; [done|]. intros x (c & [Hc|[->|Hc]%elem_of_cons]%elem_of_app & Hin); apply Ha.
    + exists c. split; [apply elem_of_app; by left|done].
    + exists b. split; [apply elem_of_app; right; by left|done].
    + exists c. split; [apply elem_of_app; right; by right|done].
  - split; [rewrite Ep; apply takes_refl|]. split; [by apply (kfree_bytes (Datatypes.S n) p)|done].
  - apply coalesce_fits; [done|]. apply Exists_app. right. apply Exists_cons_hd. unfold fits. cbn. apply Z.leb_le. lia.
Qed.

Lemma free_step p size h live1 live2 :
  guarded h (live1 ++ (p, size) :: live2) ->
  exists F h', (forall fuel, (F <= fuel)%nat -> kfree fuel p h = Some (Ok h')) /\ guarded h' (live1 ++ live2) /\ after 0 h h'.
Proof.
  intros Hi. destruct (free_spec p size h live1 live2 Hi) as (F & h' & bs & us & Hk & H1 & H2 & H3 & H4 & H5 & H6 & _). exists F, h'.
  split; [done|]. split; [|done]. split; [by exists bs, us|done].
Qed.

(** A request that is not larger than a region just freed succeeds. *)
Lemma freed_reused p size size' h live1 live2 :
  guarded h (live1 ++ (p, size) :: live2) -> 0 < size' -> round16 size' <= size <= 8796093022192 ->
  exists F h1 q h2, (forall fuel, (F <= fuel)%nat -> kfree fuel p h = Some (Ok h1) /\ kmalloc fuel size' h1 = Some (q, h2)) /\
    q <> 0 /\ guarded h2 ((q, size') :: live1 ++ live2) /\ after (Z.to_nat (pages_for size')) h h2.
Proof.
  intros Hi Hs Hle. assert (size' <= round16 size') as Hge by (unfold round16; zlia).
  destruct (free_spec p size h live1 live2 Hi) as (F & h1 & bs & us & Hk & H1 & H2 & H3 & H4 & H5 & H6 & H7).
  destruct (alloc_spec (Datatypes.S (length bs)) size' h1 bs us (live1 ++ live2) H1 H2 H3 H4 H5 ltac:(lia) ltac:(lia)) as (q & h2 & Hm & Hi2 & Haf & _ & Hq).
  assert (q <> 0) as Hq0.
  { apply Hq. eapply Exists_impl; [exact H7|]. intros b [B1 B2%Z.leb_le]%andb_prop. unfold fits. rewrite B1. apply Z.leb_le. lia. }
  exists (F + length bs + 1)%nat, h1, q, h2. split; [|split; [done|split; [|exact (after_trans 0 _ _ _ _ H6 Haf)]]].
  - intros fuel Hf. split; [apply Hk; lia|]. apply (kmalloc_mono (Datatypes.S (length bs))); [lia|done].
  - unfold grant in Hi2. by rewrite (proj2 (Z.eqb_neq _ 0)) in Hi2.
Qed.

(** A client writes into its region. *)
Lemma guarded_write p size (bs : list Z) h live :
  guarded h live -> (p, size) ∈ live -> Z.of_nat (length bs) <= size -> Forall byte_ok bs ->
  let h' := with_mem h (store_bytes (hmem h) p bs) in guarded h' live /\ after 0 h h'.
Proof.
  intros Hi Hin Hl Hb h'. pose proof (guarded_history _ _ Hi) as Hh. destruct Hi as [(cs & us & Hok & Hu & Hr & Ha) Hg].
  apply list_elem_of_lookup in Hin as [i Hi]. destruct (Forall2_lookup_r _ _ _ _ _ Hr Hi) as (b & Hbb & [E1 E2]). cbn [fst snd] in *.
  apply list_elem_of_lookup_2 in Hbb. rewrite <- Hu in Hbb. apply used_elem in Hbb as [Hbb _]. split.
  - split; [|done]. exists cs, us. split; [|done].
    assert (forall l a h0, heap_ok h0 cs -> b_addr b + 32 <= a -> a + Z.of_nat (length l) <= b_end b -> heap_ok (with_mem h0 (store_bytes (hmem h0) a l)) cs) as Hw.
    { clear - Hbb. induction l as [|v l IH]; intros a h0 Hok Ha He; cbn [store_bytes length] in *; [by destruct h0|].
      apply (IH (a + 1) (with_mem h0 (store8 (hmem h0) a v))); [|lia|lia]. apply (client_write h0 cs b); [done|done|lia]. }
    apply Hw; [done|lia|]. unfold b_end, sizeof_HeapBlock. lia.
  - split; [apply takes_refl|]. split; [intros Hm; by apply store_bytes_ok|]. intros x HG. cbn [h' with_mem hmem]. apply store_bytes_out. intros Hx.
    apply (Ha x); [|done]. exists b. split; [done|]. unfold b_end, sizeof_HeapBlock. lia.
Qed.
End Guard.
