(* ===== verification/Vmm.v ===== *)
(** Virtual memory (kernel/vmm.c).

    Four-level x86-64 page tables, byte for byte in physical memory.  The
    operations below are the functions of vmm.c over an allocator of class
    [PageAllocator]; running out of table memory is a [Panic], as in
    [new_table].  The contract of a page-table root is the function
    [pte m root virt]: the leaf entry of every virtual page.  [forest_wf] says
    that the roots in use are trees of distinct live pages that share tables
    only below the kernel's PML4 slots; under it, mapping, unmapping and
    protecting are updates of that function at the pages of the range, and
    leave every other page, every other address space and every other live
    byte of memory alone. *)
From stdpp Require Import base numbers list gmap strings.
From Stdlib Require Import ZArith Lia.
From S2P Require Import Prelude Memory BootInfo PageAllocator Pmm.

(** ** Definitions *)

Definition VMM_PRESENT : Z := 1.
Definition VMM_WRITE : Z := 2.
Definition VMM_USER : Z := 4.
Definition VMM_NX : Z := Z.shiftl 1 63.
Definition PTE_ADDR_MASK : Z := 0x000ffffffffff000.
Definition USER_BASE : Z := 0x0000008000000000.
Definition USER_LIMIT : Z := 0x0000800000000000.

(** The page allocator and physical memory. *)
Record machine (S : Type) := mk_machine { m_pages : S; m_mem : mem }.
Arguments mk_machine {S} _ _.
Arguments m_pages {S} _.
Arguments m_mem {S} _.

(** [table[index]] and its assignment. *)
Definition entry (m : mem) (table index : Z) : Z := load64 m (table + 8 * index).
Definition set_entry (m : mem) (table index v : Z) : mem := store64 m (table + 8 * index) v.

Definition present (e : Z) : bool := negb (Z.land e VMM_PRESENT =? 0).

(** [(virt >> shift) & 0x1ff]. *)
Definition index_of (shift virt : Z) : Z := Z.land (Z.shiftr virt shift) 0x1ff.

(** The leaf entry written by [map_in_root] and [protect_in_root]. *)
Definition pte_value (phys flags : Z) : Z :=
  Z.lor (Z.lor (Z.lor (Z.land phys PTE_ADDR_MASK) (Z.land flags (not64 VMM_NX))) VMM_PRESENT)
        (Z.land flags VMM_NX).

(** Number of iterations of a loop over the pages of [[start, end)]. *)
Definition page_loop (start limit : Z) : nat :=
  Z.to_nat ((limit - start + (PAGE_SIZE - 1)) / PAGE_SIZE).

Section Vmm.
Context {S : Type} `{PageAllocator S}.
Implicit Types st : machine S.

Definition with_machine_mem st (m : mem) : machine S := mk_machine (m_pages st) m.

Definition new_table st : outcome (Z * machine S) :=
  let '(table, s, m) := pa_alloc_pages 1 (m_pages st) (m_mem st) in
  if table =? 0 then Panic "VMM: no page table memory"
  else Ok (table, mk_machine s (mem_zero table PAGE_SIZE m)).

Definition next_table (table index : Z) (create : bool) (create_flags : Z) st
  : outcome (Z * machine S) :=
  if negb (present (entry (m_mem st) table index)) then
    if negb create then Ok (0, st) else
    let? (child, st) := new_table st in
    let e := Z.lor (Z.lor (Z.lor (Z.land child PTE_ADDR_MASK) VMM_PRESENT) VMM_WRITE)
                   create_flags in
    let m := set_entry (m_mem st) table index e in
    Ok (Z.land (entry m table index) PTE_ADDR_MASK, with_machine_mem st m)
  else Ok (Z.land (entry (m_mem st) table index) PTE_ADDR_MASK, st).

(** The address of the leaf entry, 0 when a table is missing. *)
Definition pte_for_root (root virt : Z) (create : bool) (create_flags : Z) st
  : outcome (Z * machine S) :=
  let pml4_i := index_of 39 virt in
  let pdpt_i := index_of 30 virt in
  let pd_i := index_of 21 virt in
  let pt_i := index_of 12 virt in
  let? (pdpt, st) := next_table root pml4_i create create_flags st in
  if pdpt =? 0 then Ok (0, st) else
  let? (pd, st) := next_table pdpt pdpt_i create create_flags st in
  if pd =? 0 then Ok (0, st) else
  let? (pt, st) := next_table pd pd_i create create_flags st in
  if pt =? 0 then Ok (0, st) else
  Ok (pt + 8 * pt_i, st).

(** The loop of [map_in_root]. *)
Fixpoint map_pages (n : nat) (root addr phys_page flags : Z) st : outcome (Z * machine S) :=
  match n with
  | O => Ok (0, st)
  | Datatypes.S n =>
      let? (p, st) := pte_for_root root addr true (Z.land flags VMM_USER) st in
      if p =? 0 then Ok (-1, st) else
      let st := with_machine_mem st (store64 (m_mem st) p (pte_value phys_page flags)) in
      map_pages n root (addr +u PAGE_SIZE) (phys_page +u PAGE_SIZE) flags st
  end.

Definition map_in_root (root virt phys size flags : Z) st : outcome (Z * machine S) :=
  let start := align_down virt PAGE_SIZE in
  let limit := align_up (virt +u size) PAGE_SIZE in
  map_pages (page_loop start limit) root start (align_down phys PAGE_SIZE) flags st.

(** The loop of [protect_in_root]. *)
Fixpoint protect_pages (n : nat) (root addr flags : Z) st : outcome (Z * machine S) :=
  match n with
  | O => Ok (0, st)
  | Datatypes.S n =>
      let? (p, st) := pte_for_root root addr false 0 st in
      if (p =? 0) || negb (present (load64 (m_mem st) p)) then Ok (-1, st) else
      let st := with_machine_mem st (store64 (m_mem st) p
                  (pte_value (load64 (m_mem st) p) flags)) in
      protect_pages n root (addr +u PAGE_SIZE) flags st
  end.

Definition protect_in_root (root virt size flags : Z) st : outcome (Z * machine S) :=
  let start := align_down virt PAGE_SIZE in
  let limit := align_up (virt +u size) PAGE_SIZE in
  protect_pages (page_loop start limit) root start flags st.

(** The loop of [unmap_in_root]. *)
Fixpoint unmap_pages (n : nat) (root addr : Z) st : outcome (machine S) :=
  match n with
  | O => Ok st
  | Datatypes.S n =>
      let? (p, st) := pte_for_root root addr false 0 st in
      let st := if p =? 0 then st else with_machine_mem st (store64 (m_mem st) p 0) in
      unmap_pages n root (addr +u PAGE_SIZE) st
  end.

Definition unmap_in_root (root virt size : Z) st : outcome (machine S) :=
  let start := align_down virt PAGE_SIZE in
  let limit := align_up (virt +u size) PAGE_SIZE in
  unmap_pages (page_loop start limit) root start st.

Definition vmm_virt_to_phys_in (pml4_phys virt : Z) st : outcome Z :=
  let? (p, st) := pte_for_root pml4_phys virt false 0 st in
  if (p =? 0) || negb (present (load64 (m_mem st) p)) then Ok 0
  else Ok (Z.lor (Z.land (load64 (m_mem st) p) PTE_ADDR_MASK) (Z.land virt (PAGE_SIZE - 1))).

(** [vmm_flags]; [cr3] is the value of the register. *)
Definition vmm_flags (cr3 virt : Z) st : outcome Z :=
  let? (p, st) := pte_for_root cr3 virt false 0 st in
  if (p =? 0) || negb (present (load64 (m_mem st) p)) then Ok 0
  else Ok (Z.land (load64 (m_mem st) p) (not64 PTE_ADDR_MASK)).

(** The public entry points, on an explicit root. *)
Definition vmm_map_in := map_in_root.
Definition vmm_protect_in := protect_in_root.
Definition vmm_unmap_in := unmap_in_root.

(** The same on the kernel's root. *)
Definition vmm_map (kernel_pml4 virt phys size flags : Z) st :=
  map_in_root kernel_pml4 virt phys size flags st.
Definition vmm_protect (kernel_pml4 virt size flags : Z) st :=
  protect_in_root kernel_pml4 virt size flags st.
Definition vmm_unmap (kernel_pml4 virt size : Z) st := unmap_in_root kernel_pml4 virt size st.

Definition vmm_create_user_pml4 (kernel_pml4 : Z) st : outcome (Z * machine S) :=
  let? (root, st) := new_table st in
  let m := for_loop 512 0 (fun i m => set_entry m root i (entry m kernel_pml4 i)) (m_mem st) in
  let m := for_loop 255 1 (fun i m => set_entry m root i 0) m in
  Ok (root, with_machine_mem st m).

(** [if (vmm_map(base, base, size, flags) < 0) panic(msg);] *)
Definition map_identity (root base size flags : Z) (msg : string) st : outcome (machine S) :=
  let? (res, st) := vmm_map root base base size flags st in
  if res <? 0 then Panic msg else Ok st.

(** [vmm_init]: the identity map of all managed memory, the framebuffer and the
    local APIC; [lapic_base] is [acpi_lapic_base()].  The root is returned. *)
Definition vmm_init (boot_info : BootInfo) (lapic_base : Z) st : outcome (Z * machine S) :=
  let fb := bi_framebuffer boot_info in
  let? (kernel_pml4, st) := new_table st in
  let phys_limit := pa_top (m_pages st) *u PAGE_SIZE in
  let? st := map_identity kernel_pml4 0 phys_limit VMM_WRITE "VMM: identity map failed" st in
  let? st :=
    (if negb (fb_base fb =? 0) && negb (fb_width fb =? 0) && negb (fb_height fb =? 0) then
       let fb_size := fb_pixels_per_scanline fb *u fb_height fb *u 4 in
       map_identity kernel_pml4 (fb_base fb) fb_size (Z.lor VMM_WRITE VMM_NX)
         "VMM: framebuffer map failed" st
     else Ok st) in
  let? st :=
    (if negb (lapic_base =? 0) then
       map_identity kernel_pml4 lapic_base PAGE_SIZE (Z.lor VMM_WRITE VMM_NX)
         "VMM: LAPIC map failed" st
     else Ok st) in
  Ok (kernel_pml4, st).

End Vmm.

(** ** Entries and indices *)

Create HintDb vmm.
Create Rewrite HintDb vmm.

Lemma index_of_div shift v : 0 <= shift -> index_of shift v = v / 2 ^ shift mod 512.
Proof.
  intros Hs. unfold index_of. change 0x1ff with (Z.ones 9).
  rewrite Z.land_ones, Z.shiftr_div_pow2 by lia. done.
Qed.

Lemma index_of_bound shift v : 0 <= shift -> 0 <= index_of shift v < 512.
Proof. intros Hs. rewrite index_of_div by done. zlia. Qed.

Lemma present_odd e : present e = Z.odd e.
Proof.
  unfold present, VMM_PRESENT. change 1 with (Z.shiftl 1 0). rewrite land_bit by lia.
  by rewrite negb_involutive, Z.bit0_odd.
Qed.

Lemma addr_mask_testbit i : Z.testbit PTE_ADDR_MASK i = (12 <=? i) && (i <? 52).
Proof.
  change PTE_ADDR_MASK with (Z.shiftl (Z.ones 40) 12).
  destruct (Z.ltb_spec i 0); [rewrite Z.testbit_neg_r by lia; cmp_cases|].
  rewrite Z.shiftl_spec, Z.testbit_ones by lia. cmp_cases.
Qed.

(** Bits that do not meet the address field. *)
Definition no_addr (f : Z) : Prop := Z.land f PTE_ADDR_MASK = 0.

(** Physical page addresses the entries can hold. *)
Definition phys_ok (a : Z) : Prop := 0 <= a < 4503599627370496 /\ a mod PAGE_SIZE = 0.

Lemma phys_mask a : phys_ok a -> Z.land a PTE_ADDR_MASK = a.
Proof.
  intros [Hb Hm]. unfold PAGE_SIZE in Hm. apply Z.bits_inj'. intros i Hi.
  rewrite Z.land_spec, addr_mask_testbit.
  destruct (Z.leb_spec 12 i), (Z.ltb_spec i 52); cbn [andb]; rewrite ?andb_true_r, ?andb_false_r.
  - done.
  - symmetry. apply (testbit_above 52); lia.
  - rewrite <- (Z.mod_pow2_bits_low a 12 i) by lia. change (2 ^ 12) with 4096.
    by rewrite Hm, Z.bits_0.
  - lia.
Qed.

Lemma entry_addr a f : phys_ok a -> no_addr f -> Z.land (Z.lor a f) PTE_ADDR_MASK = a.
Proof.
  intros Ha Hf. by rewrite Z.land_lor_distr_l, Hf, Z.lor_0_r, phys_mask.
Qed.

Lemma no_addr_lor f g : no_addr f -> no_addr g -> no_addr (Z.lor f g).
Proof. unfold no_addr. intros Hf Hg. by rewrite Z.land_lor_distr_l, Hf, Hg. Qed.

Lemma no_addr_land f g : no_addr f -> no_addr (Z.land f g).
Proof.
  unfold no_addr. intros Hf. by rewrite (Z.land_comm f), <- Z.land_assoc, Hf, Z.land_0_r.
Qed.

Lemma no_addr_const : no_addr VMM_PRESENT /\ no_addr VMM_WRITE /\ no_addr VMM_USER /\ no_addr VMM_NX.
Proof. done. Qed.

(** Flags without address bits. *)
Definition flags_ok (f : Z) : Prop := word64 f /\ no_addr f.

(** [flags & ~NX | flags & NX] is [flags]. *)
Lemma flags_split f : word64 f -> Z.lor (Z.land f (not64 VMM_NX)) (Z.land f VMM_NX) = f.
Proof.
  intros Hf. rewrite <- Z.land_lor_distr_r.
  apply Z.bits_inj'. intros i Hi. rewrite Z.land_spec, Z.lor_spec.
  destruct (Z.ltb_spec i 64).
  - rewrite not64_testbit by lia. by destruct (Z.testbit f i), (Z.testbit VMM_NX i).
  - by rewrite (testbit_above 64 f) by (unfold word64 in Hf; lia).
Qed.

(** The entry is the page address, the flags and the present bit. *)
Lemma pte_value_eq a f :
  word64 f -> pte_value a f = Z.lor (Z.land a PTE_ADDR_MASK) (Z.lor f VMM_PRESENT).
Proof.
  intros Hf. unfold pte_value. rewrite <- (flags_split f Hf) at 3.
  rewrite <- !Z.lor_assoc. f_equal. f_equal. apply Z.lor_comm.
Qed.

Lemma pte_value_present a f : word64 f -> present (pte_value a f) = true.
Proof.
  intros Hf. rewrite pte_value_eq, present_odd by done.
  rewrite <- Z.bit0_odd, !Z.lor_spec. change (Z.testbit VMM_PRESENT 0) with true.
  by rewrite !orb_true_r.
Qed.

Lemma pte_value_addr a f :
  flags_ok f -> Z.land (pte_value a f) PTE_ADDR_MASK = Z.land a PTE_ADDR_MASK.
Proof.
  intros [Hw Hn]. rewrite pte_value_eq by done.
  rewrite Z.land_lor_distr_l, (no_addr_lor f VMM_PRESENT Hn) by done.
  by rewrite Z.lor_0_r, <- Z.land_assoc, Z.land_diag.
Qed.

Lemma pte_value_word a f : 0 <= a -> word64 f -> word64 (pte_value a f).
Proof.
  intros Ha Hf. rewrite pte_value_eq by done.
  apply word64_lor; [apply word64_land_l|apply word64_lor]; try done.
Qed.

(** ** Walks *)

(** Follow the present entries from table [t] along a list of indices. *)
Fixpoint walk (m : mem) (t : Z) (p : list Z) : option Z :=
  match p with
  | [] => Some t
  | i :: p' =>
      if present (entry m t i) then walk m (Z.land (entry m t i) PTE_ADDR_MASK) p' else None
  end.

Definition path_of (virt : Z) : list Z := [index_of 39 virt; index_of 30 virt; index_of 21 virt].

(** The leaf entry of a virtual page, 0 when it has no page table. *)
Definition pte (m : mem) (root virt : Z) : Z :=
  match walk m root (path_of virt) with
  | Some t => entry m t (index_of 12 virt)
  | None => 0
  end.

(** One step of a walk. *)
Definition child (m : mem) (t i : Z) : option Z :=
  if present (entry m t i) then Some (Z.land (entry m t i) PTE_ADDR_MASK) else None.

Lemma walk_snoc m t p i :
  walk m t (p ++ [i]) = match walk m t p with Some t' => child m t' i | None => None end.
Proof.
  revert t. induction p as [|j p IH]; intros t; cbn [app walk].
  - unfold child. by case_test.
  - case_test; [apply IH|done].
Qed.

Definition index_ok (i : Z) : Prop := 0 <= i < 512.
Definition path_ok (p : list Z) : Prop := (length p <= 3)%nat /\ Forall index_ok p.

Lemma path_ok_snoc p i : path_ok (p ++ [i]) <-> path_ok p /\ (length p < 3)%nat /\ index_ok i.
Proof.
  unfold path_ok. rewrite length_app, Forall_app, Forall_singleton. cbn [length].
  intuition lia.
Qed.

Lemma path_of_ok v : path_ok (path_of v).
Proof.
  split; [done|]. unfold path_of, index_ok.
  repeat constructor; by apply index_of_bound.
Qed.

(** Tables reached from two roots coincide only below the kernel's PML4
    slots: slot 0 and slots 256 to 511. *)
Definition kernel_slot (i : Z) : Prop := ~ (1 <= i < 256).
Definition kernel_path (p : list Z) : Prop :=
  match p with [] => False | i :: _ => kernel_slot i end.

Lemma kernel_path_snoc p i : kernel_path p -> kernel_path (p ++ [i]).
Proof. by destruct p. Qed.

Section Forest.
Context {S : Type} `{PageAllocatorOk S}.
Implicit Types (s : S) (m : mem) (R : Z -> Prop).

Record table_ok s (t : Z) : Prop := {
  to_aligned : t mod PAGE_SIZE = 0;
  to_low : 1048576 <= t;
  to_high : t + PAGE_SIZE <= 4503599627370496;
  to_live : pa_live s (t / PAGE_SIZE);
}.

(** The roots of [R] are trees of live table pages; a table has one path, and
    only kernel tables are shared. *)
Record forest_wf s m R : Prop := {
  fw_pages : pa_wf s;
  fw_table : forall r p t, R r -> path_ok p -> walk m r p = Some t -> table_ok s t;
  fw_inj : forall r1 r2 p q t, R r1 -> R r2 -> path_ok p -> path_ok q ->
    walk m r1 p = Some t -> walk m r2 q = Some t -> p = q /\ (r1 = r2 \/ kernel_path p);
}.

(** A table of the forest. *)
Definition is_table m R (t : Z) : Prop := exists r p, R r /\ path_ok p /\ walk m r p = Some t.

Lemma table_phys_ok s t : table_ok s t -> phys_ok t.
Proof. intros []. unfold phys_ok, PAGE_SIZE in *. lia. Qed.

(** Slots of aligned tables are equal or disjoint. *)
Lemma slot_disjoint t i t' i' :
  t mod PAGE_SIZE = 0 -> t' mod PAGE_SIZE = 0 -> index_ok i -> index_ok i' ->
  t <> t' \/ i <> i' -> t + 8 * i + 8 <= t' + 8 * i' \/ t' + 8 * i' + 8 <= t + 8 * i.
Proof.
  unfold PAGE_SIZE, index_ok. intros Ht Ht' Hi Hi' Hne.
  destruct (Z.eq_dec t t') as [->|]; [lia|zlia].
Qed.

Lemma entry_set_ne m t i v t' i' :
  t mod PAGE_SIZE = 0 -> t' mod PAGE_SIZE = 0 -> index_ok i -> index_ok i' ->
  t <> t' \/ i <> i' -> entry (set_entry m t i v) t' i' = entry m t' i'.
Proof. intros. apply load64_store64_ne. by apply slot_disjoint. Qed.

Lemma entry_set_eq m t i v : word64 v -> entry (set_entry m t i v) t i = v.
Proof. apply load64_store64_eq. Qed.

Lemma child_entry m m' t i : entry m t i = entry m' t i -> child m t i = child m' t i.
Proof. unfold child. by intros ->. Qed.

(** Memories that agree on the tables of the forest have the same walks. *)
Lemma walk_frame m m' s R r p :
  forest_wf s m R -> R r -> path_ok p ->
  (forall t, is_table m R t -> agree m' m t PAGE_SIZE) -> walk m' r p = walk m r p.
Proof.
  intros Hf Hr. induction p as [|i p IH] using rev_ind; intros Hp Ha; [done|].
  apply path_ok_snoc in Hp as (Hp & _ & Hi). rewrite !walk_snoc, IH by done.
  destruct (walk m r p) as [t|] eqn:E; [|done]. apply child_entry, load_le_agree.
  intros x Hx. apply (Ha t); [by exists r, p|]. unfold index_ok in Hi. unfold PAGE_SIZE. lia.
Qed.

(** ** Writing a leaf entry *)

Section Leaf.
Context (s : S) (m : mem) (R : Z -> Prop) (r : Z) (p : list Z) (t i v : Z).
Hypothesis (Hf : forest_wf s m R) (Hr : R r) (Hp : path_ok p) (Hlen : length p = 3%nat).
Hypothesis (Hw : walk m r p = Some t) (Hi : index_ok i).

Let m' := set_entry m t i v.

Lemma leaf_walk r' q : R r' -> path_ok q -> walk m' r' q = walk m r' q.
Proof.
  intros Hr'. induction q as [|j q IH] using rev_ind; intros Hq; [done|].
  apply path_ok_snoc in Hq as (Hq & Hl & Hj). rewrite !walk_snoc, IH by done.
  destruct (walk m r' q) as [t'|] eqn:E; [|done]. apply child_entry.
  destruct (fw_table _ _ _ Hf _ _ _ Hr Hp Hw), (fw_table _ _ _ Hf _ _ _ Hr' Hq E).
  apply entry_set_ne; auto. left. intros <-.
  destruct (fw_inj _ _ _ Hf _ _ _ _ _ Hr Hr' Hp Hq Hw E) as [<- _]. lia.
Qed.

Lemma leaf_forest : forest_wf s m' R.
Proof.
  split; [apply Hf|..].
  - intros r' q t' Hr' Hq. rewrite leaf_walk by done. by apply Hf.
  - intros r1 r2 q1 q2 t' H1 H2 Hq1 Hq2. rewrite !leaf_walk by done. by apply Hf.
Qed.

(** The leaf entries after the write: only the slot [(p, i)] changes, for the
    roots that reach it. *)
Lemma leaf_pte r' w : R r' -> word64 v ->
  pte m' r' w = if decide (path_of w = p /\ index_of 12 w = i /\ walk m r' p = Some t)
                then v else pte m r' w.
Proof.
  intros Hr' Hv. unfold pte. rewrite leaf_walk by (done || apply path_of_ok).
  case_decide as Hd.
  - destruct Hd as (E1 & E2 & E3). rewrite E1, E3, E2. by apply entry_set_eq.
  - destruct (walk m r' (path_of w)) as [t'|] eqn:E; [|done].
    pose proof (path_of_ok w) as Hq.
    destruct (fw_table _ _ _ Hf _ _ _ Hr Hp Hw), (fw_table _ _ _ Hf _ _ _ Hr' Hq E).
    apply entry_set_ne; auto; [by apply index_of_bound|].
    destruct (Z.eq_dec t t') as [<-|]; [right|by left].
    destruct (fw_inj _ _ _ Hf _ _ _ _ _ Hr' Hr Hq Hp E Hw) as [Hpq _].
    intros Heq. apply Hd. by rewrite <- Hpq.
Qed.
End Leaf.

(** ** Creating a table *)

(** The byte lies in a table of the forest. *)
Definition in_table m R (x : Z) : Prop := exists t, is_table m R t /\ t <= x < t + PAGE_SIZE.

(** Tables may have been added; nothing else changed. *)
Record grows R s m s' m' : Prop := {
  g_forest : forest_wf s' m' R;
  g_walk : forall r q t, R r -> path_ok q -> walk m r q = Some t -> walk m' r q = Some t;
  g_pte : forall r w, R r -> pte m' r w = pte m r w;
  g_live : forall q, pa_live s q -> pa_live s' q;
  g_top : pa_top s' = pa_top s;
  g_tables : forall t, is_table m' R t -> is_table m R t \/ ~ pa_live s (t / PAGE_SIZE);
  g_frame : forall x, pa_live s (x / PAGE_SIZE) -> ~ in_table m R x -> load8 m' x = load8 m x;
}.

Definition table_entry (c create_flags : Z) : Z :=
  Z.lor (Z.lor (Z.lor (Z.land c PTE_ADDR_MASK) VMM_PRESENT) VMM_WRITE) create_flags.

Lemma table_entry_spec c cf :
  phys_ok c -> flags_ok cf ->
  word64 (table_entry c cf) /\ present (table_entry c cf) = true /\
  Z.land (table_entry c cf) PTE_ADDR_MASK = c.
Proof.
  intros Hc [Hcf Hn]. unfold table_entry. rewrite phys_mask, <- !Z.lor_assoc by done.
  split_and!.
  - apply word64_lor; [unfold phys_ok in Hc; unfold word64; lia|].
    by repeat apply word64_lor.
  - rewrite present_odd, <- Z.bit0_odd, !Z.lor_spec.
    change (Z.testbit VMM_PRESENT 0) with true. by rewrite orb_true_r.
  - apply entry_addr; [done|]. by repeat apply no_addr_lor.
Qed.

Section Create.
Context (s s1 : S) (m m1 : mem) (R : Z -> Prop) (r : Z) (p : list Z) (t i c cf : Z).
Hypothesis (Hf : forest_wf s m R) (Hr : R r) (Hp : path_ok p) (Hlen : (length p < 3)%nat).
Hypothesis (Hw : walk m r p = Some t) (Hi : index_ok i).
Hypothesis (Hnp : present (entry m t i) = false).
Hypothesis (Hpost : alloc_post 1 c s s1 m m1) (Hcf : flags_ok cf).

Let m2 := mem_zero c PAGE_SIZE m1.
Let m' := set_entry m2 t i (table_entry c cf).

Lemma fresh_load x :
  load8 m2 x = if (c <=? x) && (x <? c + PAGE_SIZE) then 0 else load8 m x.
Proof.
  unfold m2. rewrite load8_mem_zero, (ap_zeroed _ _ _ _ _ _ Hpost), load8_mem_zero.
  rewrite Z.mul_1_l. by case_test.
Qed.

Lemma fresh_phys : phys_ok c.
Proof.
  destruct Hpost as [? ? ? ? ? ? ? ?]. pose proof (pa_top_bound _ (fw_pages _ _ _ Hf)).
  unfold phys_ok, PAGE_SIZE in *. lia.
Qed.

(** The fresh page meets no live page. *)
Lemma fresh_not_live x : pa_live s (x / PAGE_SIZE) -> ~ (c <= x < c + PAGE_SIZE).
Proof.
  intros Hx Hc. destruct Hpost as [? ? ? Hfresh ? ? ? ?].
  apply (Hfresh (x / PAGE_SIZE)); [|done]. unfold PAGE_SIZE in *. zlia.
Qed.

Lemma fresh_ne t' : table_ok s t' -> c <> t'.
Proof.
  intros [? ? ? Hl] <-. apply (fresh_not_live c Hl). unfold PAGE_SIZE. lia.
Qed.

Lemma live_entry t' j : table_ok s t' -> index_ok j -> entry m2 t' j = entry m t' j.
Proof.
  intros [Ha Hlo Hhi Hl] Hj. apply load_le_agree. intros x Hx. rewrite fresh_load.
  unfold index_ok in Hj. assert (x / PAGE_SIZE = t' / PAGE_SIZE) as Hpg
    by (unfold PAGE_SIZE in *; zlia).
  pose proof (fresh_not_live x ltac:(by rewrite Hpg)). cmp_cases.
Qed.

Lemma fresh_entry j : index_ok j -> entry m2 c j = 0.
Proof.
  intros Hj. unfold index_ok in Hj. apply load_le_zeroed; unfold PAGE_SIZE; lia.
Qed.

Lemma parent_ok : table_ok s t.
Proof. by apply (fw_table _ _ _ Hf r p). Qed.

(** Entries of the old tables other than the new one. *)
Lemma create_entry t' j :
  table_ok s t' -> index_ok j -> t <> t' \/ i <> j -> entry m' t' j = entry m t' j.
Proof.
  intros Ht Hj Hne. unfold m'. rewrite entry_set_ne; auto using live_entry;
    [apply parent_ok|apply Ht].
Qed.

Lemma create_entry_self : entry m' t i = table_entry c cf.
Proof. apply entry_set_eq, table_entry_spec; [apply fresh_phys|done]. Qed.

Lemma create_entry_fresh j : index_ok j -> entry m' c j = 0.
Proof.
  intros Hj. unfold m'. rewrite entry_set_ne; auto using fresh_entry.
  - apply parent_ok.
  - apply Hpost.
  - left. intros E. by apply (fresh_ne t parent_ok).
Qed.

Lemma create_mono r' q t' : R r' -> path_ok q -> walk m r' q = Some t' -> walk m' r' q = Some t'.
Proof.
  intros Hr'. revert t'. induction q as [|j q IH] using rev_ind; intros t' Hq; [done|].
  apply path_ok_snoc in Hq as (Hq & Hl & Hj). rewrite !walk_snoc.
  destruct (walk m r' q) as [t0|] eqn:E; [|done]. rewrite (IH t0 Hq eq_refl).
  intros Hc. rewrite <- Hc. apply child_entry, create_entry; [by apply (fw_table _ _ _ Hf r' q)|done|].
  destruct (Z.eq_dec t t0) as [<-|]; [right|by left]. intros <-.
  unfold child in Hc. by rewrite Hnp in Hc.
Qed.

Lemma create_inv r' q t' : R r' -> path_ok q -> walk m' r' q = Some t' ->
  walk m r' q = Some t' \/ (q = p ++ [i] /\ t' = c /\ walk m r' p = Some t).
Proof.
  intros Hr'. revert t'. induction q as [|j q IH] using rev_ind; intros t' Hq; [by left|].
  apply path_ok_snoc in Hq as (Hq & Hl & Hj). rewrite !walk_snoc.
  destruct (walk m' r' q) as [t0|] eqn:E; [|done].
  destruct (IH t0 Hq eq_refl) as [E0|(-> & -> & _)].
  - rewrite E0. pose proof (fw_table _ _ _ Hf r' q t0 Hr' Hq E0) as Ht0.
    destruct (decide (t = t0 /\ i = j)) as [[<- <-]|Hne].
    + unfold child. rewrite create_entry_self.
      destruct (table_entry_spec c cf fresh_phys Hcf) as (_ & -> & ->). intros [= <-].
      right. destruct (fw_inj _ _ _ Hf _ _ _ _ _ Hr' Hr Hq Hp E0 Hw) as [-> _]. auto.
    + rewrite (child_entry m' m); [by left|]. apply create_entry; auto.
      destruct (Z.eq_dec t t0), (Z.eq_dec i j); tauto.
  - unfold child. rewrite create_entry_fresh by done. done.
Qed.

Lemma table_ok_mono t' : table_ok s t' -> table_ok s1 t'.
Proof.
  intros [? ? ? Hl]. split; auto. apply (ap_live _ _ _ _ _ _ Hpost). by left.
Qed.

Lemma create_forest : forest_wf s1 m' R.
Proof.
  assert (forall r' q t', R r' -> path_ok q -> walk m r' q = Some t' -> c <> t') as Hne.
  { intros r' q t' Hr' Hq E. apply fresh_ne. by apply (fw_table _ _ _ Hf r' q). }
  split; [apply Hpost|..].
  - intros r' q t' Hr' Hq Hq'. destruct (create_inv r' q t' Hr' Hq Hq') as [E|(_ & -> & _)].
    + apply table_ok_mono. by apply (fw_table _ _ _ Hf r' q).
    + pose proof fresh_phys as [? ?]. destruct Hpost as [? ? ? ? Hl ? ? ?]. split; auto.
      * unfold PAGE_SIZE in *. zlia.
      * apply Hl. right. lia.
  - intros r1 r2 q1 q2 t' H1 H2 Hq1 Hq2 E1 E2.
    destruct (create_inv r1 q1 t' H1 Hq1 E1) as [F1|(-> & -> & F1)],
             (create_inv r2 q2 _ H2 Hq2 E2) as [F2|(-> & Ec & F2)].
    + by apply (fw_inj _ _ _ Hf _ _ _ _ _ H1 H2 Hq1 Hq2 F1 F2).
    + subst t'. by destruct (Hne r1 q1 c H1 Hq1 F1).
    + by destruct (Hne r2 q2 c H2 Hq2 F2).
    + split; [done|].
      destruct (fw_inj _ _ _ Hf _ _ _ _ _ H1 H2 Hp Hp F1 F2) as [_ [->|Hk]]; [by left|].
      right. by apply kernel_path_snoc.
Qed.

Lemma create_pte r' w : R r' -> pte m' r' w = pte m r' w.
Proof.
  intros Hr'. unfold pte. pose proof (path_of_ok w) as Hq.
  destruct (walk m' r' (path_of w)) as [t'|] eqn:E.
  - destruct (create_inv r' _ t' Hr' Hq E) as [E0|(Ew & -> & Ep)].
    + rewrite E0. apply create_entry; [by apply (fw_table _ _ _ Hf r' (path_of w))|
        by apply index_of_bound|]. left. intros <-.
      destruct (fw_inj _ _ _ Hf _ _ _ _ _ Hr Hr' Hp Hq Hw E0) as [Epq _].
      pose proof Hlen as Hl3. rewrite Epq in Hl3. unfold path_of in Hl3. cbn [length] in Hl3. lia.
    + rewrite create_entry_fresh by (by apply index_of_bound).
      rewrite Ew, walk_snoc, Ep. unfold child. by rewrite Hnp.
  - destruct (walk m r' (path_of w)) as [t'|] eqn:E0; [|done].
    by rewrite (create_mono r' _ t' Hr' Hq E0) in E.
Qed.

Lemma create_frame x :
  pa_live s (x / PAGE_SIZE) -> ~ (t <= x < t + PAGE_SIZE) -> load8 m' x = load8 m x.
Proof.
  intros Hx Ht. unfold m', set_entry, store64. rewrite store_le_frame.
  - rewrite fresh_load. pose proof (fresh_not_live x Hx). cmp_cases.
  - unfold index_ok, PAGE_SIZE in *. lia.
Qed.

Lemma create_grows : grows R s m s1 m'.
Proof.
  split; auto using create_forest, create_mono, create_pte.
  - intros q Hq. apply (ap_live _ _ _ _ _ _ Hpost). by left.
  - apply Hpost.
  - intros t' (r' & q & Hr' & Hq & Hw').
    destruct (create_inv r' q t' Hr' Hq Hw') as [E|(_ & -> & _)].
    + left. by exists r', q.
    + right. apply (ap_fresh _ _ _ _ _ _ Hpost). lia.
  - intros x Hx Hnt. apply create_frame; auto.
    intros Hin. apply Hnt. exists t. split; [by exists r, p|done].
Qed.

Lemma create_walk : walk m' r (p ++ [i]) = Some (Z.land (entry m' t i) PTE_ADDR_MASK).
Proof.
  rewrite walk_snoc, (create_mono r p t Hr Hp Hw). unfold child. rewrite create_entry_self.
  by destruct (table_entry_spec c cf fresh_phys Hcf) as (_ & -> & ->).
Qed.
End Create.

(** ** Walking with creation *)

Lemma grows_refl R s m : forest_wf s m R -> grows R s m s m.
Proof. intros Hf. split; auto. Qed.

Lemma table_page s t x :
  t mod PAGE_SIZE = 0 -> t <= x < t + PAGE_SIZE -> x / PAGE_SIZE = t / PAGE_SIZE.
Proof. unfold PAGE_SIZE. zlia. Qed.

Lemma grows_trans R s1 m1 s2 m2 s3 m3 :
  grows R s1 m1 s2 m2 -> grows R s2 m2 s3 m3 -> grows R s1 m1 s3 m3.
Proof.
  intros G1 G2. split; [apply G2|..].
  - intros r q t Hr Hq Hw. apply G2; auto. by apply G1.
  - intros r w Hr. rewrite (g_pte _ _ _ _ _ G2), (g_pte _ _ _ _ _ G1); done.
  - intros q Hq. by apply G2, G1.
  - by rewrite (g_top _ _ _ _ _ G2), (g_top _ _ _ _ _ G1).
  - intros t Ht. destruct (g_tables _ _ _ _ _ G2 t Ht) as [Ht2|Hn].
    + by apply G1.
    + right. intros Hl. by apply Hn, G1.
  - intros x Hx Hnt. rewrite (g_frame _ _ _ _ _ G2); [by apply G1|by apply G1|].
    intros (t & Ht2 & Hin). destruct (g_tables _ _ _ _ _ G1 t Ht2) as [Ht1|Hn].
    + apply Hnt. by exists t.
    + destruct Ht2 as (r & q & Hr & Hq & Hw).
      destruct (fw_table _ _ _ (g_forest _ _ _ _ _ G1) _ _ _ Hr Hq Hw).
      by rewrite (table_page s1 t x) in Hx by done.
Qed.

(** The outcome of an operation that may create up to [k] tables. *)
Definition creates {A} R (k : nat) (st : machine S) (Q : A -> machine S -> Prop)
    (o : outcome (A * machine S)) : Prop :=
  match o with
  | Panic _ => out_of_pages k (m_pages st)
  | Ok (a, st') => grows R (m_pages st) (m_mem st) (m_pages st') (m_mem st') /\ takes k (m_pages st) (m_pages st') /\ Q a st'
  end.

Lemma creates_mono {A} R k k' st Q (o : outcome (A * machine S)) : (k <= k')%nat -> creates R k st Q o -> creates R k' st Q o.
Proof.
  intros Hk. destruct o as [[a st']|msg]; cbn [creates]; [|by apply no_run_mono].
  intros (G & T & HQ). split; [done|]. split; [by eapply takes_mono|done].
Qed.

Lemma creates_bind {A B} R n n' st (o : outcome (A * machine S))
    (k : A -> machine S -> outcome (B * machine S)) Q Q' :
  creates R n st Q o ->
  (forall a st', grows R (m_pages st) (m_mem st) (m_pages st') (m_mem st') ->
     Q a st' -> creates R n' st' Q' (k a st')) ->
  creates R (n + n') st Q' (outcome_bind o (fun x => let '(a, st') := x in k a st')).
Proof.
  destruct o as [[a st']|msg]; cbn [creates outcome_bind]; [|intros Ho _; eapply no_run_mono; [done| |exact Ho]; lia].
  intros (G & T & HQ) Hk. specialize (Hk a st' G HQ).
  destruct (k a st') as [[b st'']|msg]; cbn [creates] in *.
  - destruct Hk as (G' & T' & HQ'). split; [by eapply grows_trans|]. split; [by eapply takes_trans|done].
  - by eapply no_run_takes.
Qed.

(** 1 when the table at the end of the path is missing. *)
Definition absent m (r : Z) (p : list Z) : nat := match walk m r p with Some _ => 0 | None => 1 end.

Lemma absent_grows R s m s' m' r p : grows R s m s' m' -> R r -> path_ok p -> (absent m' r p <= absent m r p)%nat.
Proof.
  intros G Hr Hp. unfold absent. destruct (walk m r p) as [t|] eqn:E; [by rewrite (g_walk _ _ _ _ _ G r p t Hr Hp E)|].
  destruct (walk m' r p); lia.
Qed.

Lemma next_table_create st R r p t i cf :
  forest_wf (m_pages st) (m_mem st) R -> R r -> path_ok (p ++ [i]) ->
  walk (m_mem st) r p = Some t -> flags_ok cf ->
  creates R (absent (m_mem st) r (p ++ [i])) st (fun c st' => walk (m_mem st') r (p ++ [i]) = Some c) (next_table t i true cf st).
Proof.
  intros Hf Hr Hpi Hw Hcf. pose proof Hpi as (Hp & Hl & Hi)%path_ok_snoc. unfold absent. rewrite walk_snoc, Hw. unfold child.
  unfold next_table. destruct (present (entry (m_mem st) t i)) eqn:Hnp; cbn [negb].
  - split; [by apply grows_refl|]. split; [apply takes_refl|]. rewrite walk_snoc, Hw. unfold child. by rewrite Hnp.
  - unfold new_table. destruct (pa_alloc_pages 1 _ _) as [[c s1] m1] eqn:Ea.
    destruct (Z.eqb_spec c 0) as [->|Hc]; cbn [outcome_bind creates].
    { apply (no_run_failed 1 _ _ _ _ (fw_pages _ _ _ Hf) ltac:(lia) Ea). }
    pose proof (takes_alloc 1 _ _ _ _ _ (fw_pages _ _ _ Hf) ltac:(lia) Ea Hc) as Ht.
    apply pa_alloc_ok in Ea as Hpost; [|apply Hf|lia|done].
    cbn [m_mem m_pages]. fold (table_entry c cf).
    pose proof (create_walk _ _ _ _ R r p t i c cf Hf Hr Hp Hl Hw Hi Hnp Hpost Hcf) as Hcw.
    split; [|split; [exact Ht|exact Hcw]]. by apply (create_grows _ _ _ _ R r p).
Qed.

(** The number of tables that the walk to [v] lacks. *)
Definition missing m (r v : Z) : nat :=
  absent m r [index_of 39 v] + absent m r [index_of 39 v; index_of 30 v] + absent m r (path_of v).

Lemma missing_bound m r v : (missing m r v <= 3)%nat.
Proof. unfold missing, absent. repeat case_match; lia. Qed.

(** [pte_for_root] with [create]: the entry's address, tables added as needed. *)
Lemma pte_for_root_create st R r v cf :
  forest_wf (m_pages st) (m_mem st) R -> R r -> flags_ok cf ->
  creates R (missing (m_mem st) r v) st (fun a st' => exists t, walk (m_mem st') r (path_of v) = Some t /\
                             a = t + 8 * index_of 12 v /\ a <> 0)
    (pte_for_root r v true cf st).
Proof.
  intros Hf Hr Hcf. unfold pte_for_root, missing.
  pose proof (path_of_ok v) as Hv. unfold path_of in *.
  change [index_of 39 v; index_of 30 v; index_of 21 v]
    with (([index_of 39 v] ++ [index_of 30 v]) ++ [index_of 21 v]) in *.
  change [index_of 39 v; index_of 30 v] with ([index_of 39 v] ++ [index_of 30 v]).
  pose proof Hv as (Hv2 & _ & _)%path_ok_snoc. pose proof Hv2 as (Hv1 & _ & _)%path_ok_snoc.
  assert (forall st' t q, grows R (m_pages st) (m_mem st) (m_pages st') (m_mem st') ->
    path_ok q -> walk (m_mem st') r q = Some t -> (t =? 0) = false /\ 0 < t) as Hnz.
  { intros st' t q G Hq Hw. destruct (fw_table _ _ _ (g_forest _ _ _ _ _ G) _ _ _ Hr Hq Hw).
    split; [apply Z.eqb_neq|]; lia. }
  rewrite <- Nat.add_assoc.
  eapply creates_bind; [apply (next_table_create st R r [] r); auto|]. cbn beta.
  intros t1 st1 G1 W1. destruct (Hnz _ _ _ G1 Hv1 W1) as [-> _].
  eapply creates_bind.
  { eapply creates_mono; [apply (absent_grows _ _ _ _ _ _ _ G1 Hr Hv2)|].
    apply (next_table_create st1 R r [index_of 39 v] t1); auto; apply G1. }
  cbn beta. intros t2 st2 G2 W2. pose proof (grows_trans _ _ _ _ _ _ _ G1 G2) as G12.
  destruct (Hnz _ _ _ G12 Hv2 W2) as [-> _]. rewrite <- (Nat.add_0_r (absent _ r (_ ++ [index_of 21 v]))).
  eapply creates_bind.
  { eapply creates_mono; [apply (absent_grows _ _ _ _ _ _ _ G12 Hr Hv)|].
    eapply (next_table_create st2 R r _ t2); eauto; apply G2. }
  cbn beta. intros t3 st3 G3 W3. pose proof (grows_trans _ _ _ _ _ _ _ G12 G3) as G123.
  destruct (Hnz _ _ _ G123 Hv W3) as [-> Hp].
  split; [apply grows_refl, G3|]. split; [apply takes_refl|]. exists t3. split_and!; [exact W3|done|].
  pose proof (index_of_bound 12 v). lia.
Qed.

(** The address of the leaf entry, 0 when a table is missing. *)
Definition slot_addr m (r v : Z) : Z :=
  match walk m r (path_of v) with Some t => t + 8 * index_of 12 v | None => 0 end.

(** [pte_for_root] without [create]: the state is untouched. *)
Lemma pte_for_root_lookup st R r v :
  forest_wf (m_pages st) (m_mem st) R -> R r ->
  pte_for_root r v false 0 st = Ok (slot_addr (m_mem st) r v, st).
Proof.
  unfold slot_addr. intros Hf Hr. pose proof (path_of_ok v) as Hv. unfold path_of in Hv |- *.
  assert (forall q t, path_ok q -> walk (m_mem st) r q = Some t -> (t =? 0) = false) as Hnz.
  { intros q t Hq Hw. destruct (fw_table _ _ _ Hf _ _ _ Hr Hq Hw). apply Z.eqb_neq. lia. }
  unfold pte_for_root, next_table. cbn [negb].
  set (i1 := index_of 39 v) in *. set (i2 := index_of 30 v) in *. set (i3 := index_of 21 v) in *.
  pose proof Hv as (Hv2 & _)%(path_ok_snoc [i1; i2]).
  pose proof Hv2 as (Hv1 & _)%(path_ok_snoc [i1]).
  cbn [walk]. specialize (Hnz [i1]) as N1. specialize (Hnz [i1; i2]) as N2.
  specialize (Hnz [i1; i2; i3]) as N3. cbn [walk] in N1, N2, N3.
  destruct (present (entry (m_mem st) r i1)); cbn [negb outcome_bind]; [|done].
  rewrite (N1 _ Hv1 eq_refl). set (t1 := Z.land (entry (m_mem st) r i1) _) in *.
  destruct (present (entry (m_mem st) t1 i2)); cbn [negb outcome_bind]; [|done].
  rewrite (N2 _ Hv2 eq_refl). set (t2 := Z.land (entry (m_mem st) t1 i2) _) in *.
  destruct (present (entry (m_mem st) t2 i3)); cbn [negb outcome_bind]; [|done].
  by rewrite (N3 _ Hv eq_refl).
Qed.

(** ** Updates of the leaf entries *)

(** The 48-bit address space. *)
Definition canonical (v : Z) : Prop := 0 <= v < 281474976710656.
(** The page has a PML4 slot of the user half. *)
Definition user_page (pg : Z) : Prop := 1 <= pg / 134217728 < 256.

Lemma same_slot v w :
  canonical v -> canonical w ->
  (path_of w = path_of v /\ index_of 12 w = index_of 12 v) <-> w / PAGE_SIZE = v / PAGE_SIZE.
Proof.
  unfold canonical, path_of, PAGE_SIZE. intros Hv Hw. rewrite !index_of_div by lia.
  change (2 ^ 39) with (4096 * 134217728). change (2 ^ 30) with (4096 * 262144).
  change (2 ^ 21) with (4096 * 512). change (2 ^ 12) with 4096.
  rewrite <- !Z.div_div by lia.
  set (a := v / 4096). set (b := w / 4096).
  assert (0 <= a < 68719476736 /\ 0 <= b < 68719476736) by (subst a b; zlia).
  split; [|by intros ->]. intros [[= E1 E2 E3] E4]. zlia.
Qed.

(** [f] gives the pages of root [r] that were rewritten, and their entries. *)
Record updates R (r : Z) (f : Z -> option Z) s m s' m' : Prop := {
  u_forest : forest_wf s' m' R;
  u_pte : forall w, canonical w ->
    pte m' r w = match f (w / PAGE_SIZE) with Some e => e | None => pte m r w end;
  u_others : (forall pg e, f pg = Some e -> user_page pg) ->
    forall r' w, R r' -> r' <> r -> pte m' r' w = pte m r' w;
  u_live : forall q, pa_live s q -> pa_live s' q;
  u_top : pa_top s' = pa_top s;
  u_tables : forall t, is_table m' R t -> is_table m R t \/ ~ pa_live s (t / PAGE_SIZE);
  u_frame : forall x, pa_live s (x / PAGE_SIZE) -> ~ in_table m R x -> load8 m' x = load8 m x;
}.

(** The second update wins. *)
Definition override (g f : Z -> option Z) (pg : Z) : option Z :=
  match g pg with Some e => Some e | None => f pg end.

Lemma updates_ext R r f g s m s' m' :
  (forall pg, f pg = g pg) -> updates R r f s m s' m' -> updates R r g s m s' m'.
Proof.
  intros E [F P O L T B X]. split; auto.
  - intros w Hw. rewrite <- E. by apply P.
  - intros Hu. apply O. intros pg e. rewrite E. apply Hu.
Qed.

Lemma grows_updates R r s m s' m' : R r -> grows R s m s' m' -> updates R r (fun _ => None) s m s' m'.
Proof. intros Hr [F W P L T B X]. split; auto. Qed.

Lemma updates_trans R r f g s1 m1 s2 m2 s3 m3 :
  updates R r f s1 m1 s2 m2 -> updates R r g s2 m2 s3 m3 ->
  updates R r (override g f) s1 m1 s3 m3.
Proof.
  intros G1 G2. split; [apply G2|..].
  - intros w Hw. rewrite (u_pte _ _ _ _ _ _ _ G2 w Hw), (u_pte _ _ _ _ _ _ _ G1 w Hw).
    unfold override. by destruct (g _).
  - intros Hu r' w Hr' Hne. rewrite (u_others _ _ _ _ _ _ _ G2), (u_others _ _ _ _ _ _ _ G1);
      auto; intros pg e Hpg.
    + unfold override in Hu. destruct (g pg) as [e'|] eqn:E; [apply (Hu pg e')|apply (Hu pg e)];
        by rewrite E.
    + apply (Hu pg e). unfold override. by rewrite Hpg.
  - intros q Hq. by apply G2, G1.
  - by rewrite (u_top _ _ _ _ _ _ _ G2), (u_top _ _ _ _ _ _ _ G1).
  - intros t Ht. destruct (u_tables _ _ _ _ _ _ _ G2 t Ht) as [Ht2|Hn].
    + by apply G1.
    + right. intros Hl. by apply Hn, G1.
  - intros x Hx Hnt. rewrite (u_frame _ _ _ _ _ _ _ G2); [by apply G1|by apply G1|].
    intros (t & Ht2 & Hin). destruct (u_tables _ _ _ _ _ _ _ G1 t Ht2) as [Ht1|Hn].
    + apply Hnt. by exists t.
    + destruct Ht2 as (r' & q & Hr & Hq & Hw).
      destruct (fw_table _ _ _ (u_forest _ _ _ _ _ _ _ G1) _ _ _ Hr Hq Hw).
      by rewrite (table_page s1 t x) in Hx by done.
Qed.

Definition at_page (pg e : Z) : Z -> option Z := fun q => if q =? pg then Some e else None.

Lemma user_page_slot v : canonical v -> user_page (v / PAGE_SIZE) -> ~ kernel_path (path_of v).
Proof.
  unfold canonical, user_page, kernel_path, kernel_slot, path_of, PAGE_SIZE. intros Hv Hu Hk.
  apply Hk. rewrite index_of_div by lia. change (2 ^ 39) with (4096 * 134217728).
  rewrite <- Z.div_div by lia. zlia.
Qed.

Lemma leaf_updates R r s m v t e :
  forest_wf s m R -> R r -> canonical v -> walk m r (path_of v) = Some t -> word64 e ->
  updates R r (at_page (v / PAGE_SIZE) e) s m s (store64 m (t + 8 * index_of 12 v) e).
Proof.
  intros Hf Hr Hv Hw He. change (store64 m _ e) with (set_entry m t (index_of 12 v) e).
  pose proof (path_of_ok v) as Hp. assert (index_ok (index_of 12 v)) as Hi by (by apply index_of_bound).
  split; auto.
  - by apply (leaf_forest s m R r (path_of v)).
  - intros w Hcw. rewrite (leaf_pte s m R r (path_of v)) by done. unfold at_page.
    pose proof (same_slot v w Hv Hcw) as Hs.
    case_decide as Hd; destruct (Z.eqb_spec (w / PAGE_SIZE) (v / PAGE_SIZE)) as [E|E]; auto.
    + destruct E. apply Hs. tauto.
    + destruct Hd. apply Hs in E as [-> ->]. auto.
  - intros Hu r' w Hr' Hne. rewrite (leaf_pte s m R r (path_of v)) by done.
    case_decide as Hd; [|done]. destruct Hd as (_ & _ & Hw').
    destruct (fw_inj _ _ _ Hf _ _ _ _ _ Hr' Hr Hp Hp Hw' Hw) as [_ [->|Hk]]; [done|].
    destruct (user_page_slot v Hv); [|done]. apply (Hu _ e). unfold at_page. by rewrite Z.eqb_refl.
  - intros t' (r' & q & Hr' & Hq & Hw'). left. exists r', q.
    rewrite (leaf_walk s m R r (path_of v)) in Hw' by done. auto.
  - intros x _ Hnt. apply store_le_frame. intros Hx. apply Hnt. exists t.
    split; [by exists r, (path_of v)|]. unfold index_ok, PAGE_SIZE in *. lia.
Qed.

(** ** How many tables a range needs *)

(** The tables that [n] pages from page [pg] add to those of page [pg - 1]. *)
Definition more_tables (pg n : Z) : Z :=
  ((pg + n - 1) / 512 - (pg - 1) / 512) + ((pg + n - 1) / 262144 - (pg - 1) / 262144) +
  ((pg + n - 1) / 134217728 - (pg - 1) / 134217728).

(** The tables that [n] pages from page [pg] need: three for the first page, and one
    for each table, directory and pointer table that begins in the range. *)
Definition table_count (pg n : Z) : nat := if n <=? 0 then 0 else 3 + Z.to_nat (more_tables (pg + 1) (n - 1)).

Lemma more_tables_step pg n : 0 <= n -> 0 <= more_tables pg n /\ more_tables pg (1 + n) = more_tables pg 1 + more_tables (pg + 1) n.
Proof.
  intros Hn. unfold more_tables. replace (pg + 1 + n - 1) with (pg + (1 + n) - 1) by lia.
  replace (pg + 1 - 1) with pg by lia. split; [zlia|lia].
Qed.

Lemma same_index shift a b : 0 <= shift -> a / 2 ^ shift = b / 2 ^ shift -> index_of shift a = index_of shift b.
Proof. intros Hs E. by rewrite !index_of_div, E. Qed.

(** The tables of a page serve the next page, up to the end of what they cover. *)
Lemma missing_next m r v t :
  0 <= v -> v mod PAGE_SIZE = 0 -> walk m r (path_of v) = Some t ->
  Z.of_nat (missing m r (v + PAGE_SIZE)) <= more_tables (v / PAGE_SIZE + 1) 1.
Proof.
  intros Hv Ha Hw. unfold missing, path_of, more_tables in *. replace (v / PAGE_SIZE + 1 + 1 - 1) with ((v + PAGE_SIZE) / PAGE_SIZE) by (unfold PAGE_SIZE in *; zlia).
  replace (v / PAGE_SIZE + 1 - 1) with (v / PAGE_SIZE) by lia. rewrite !Z.div_div by done.
  change (PAGE_SIZE * 512) with (2 ^ 21). change (PAGE_SIZE * 262144) with (2 ^ 30). change (PAGE_SIZE * 134217728) with (2 ^ 39).
  assert (exists t1 t2, walk m r [index_of 39 v] = Some t1 /\ walk m r [index_of 39 v; index_of 30 v] = Some t2) as (t1 & t2 & W1 & W2).
  { pose proof Hw as Hw'. change [index_of 39 v; index_of 30 v; index_of 21 v] with ([index_of 39 v; index_of 30 v] ++ [index_of 21 v]) in Hw'.
    rewrite walk_snoc in Hw'. destruct (walk m r [index_of 39 v; index_of 30 v]) as [t2|] eqn:W2; [|done]. pose proof W2 as W1.
    change [index_of 39 v; index_of 30 v] with ([index_of 39 v] ++ [index_of 30 v]) in W1. rewrite walk_snoc in W1.
    destruct (walk m r [index_of 39 v]) as [t1|]; [eauto|done]. }
  assert (forall p, (absent m r p <= 1)%nat) as Hle by (intros p; unfold absent; case_match; lia).
  pose proof (Hle [index_of 39 (v + PAGE_SIZE)]). pose proof (Hle [index_of 39 (v + PAGE_SIZE); index_of 30 (v + PAGE_SIZE)]).
  pose proof (Hle [index_of 39 (v + PAGE_SIZE); index_of 30 (v + PAGE_SIZE); index_of 21 (v + PAGE_SIZE)]).
  change (2 ^ 21) with 2097152. change (2 ^ 30) with 1073741824. change (2 ^ 39) with 549755813888. unfold PAGE_SIZE in *.
  destruct (Z.eq_dec ((v + 4096) / 2097152) (v / 2097152)) as [E21|]; [|destruct (Z.eq_dec ((v + 4096) / 1073741824) (v / 1073741824)) as [E30|];
    [|destruct (Z.eq_dec ((v + 4096) / 549755813888) (v / 549755813888)) as [E39|]]].
  - assert ((v + 4096) / 1073741824 = v / 1073741824 /\ (v + 4096) / 549755813888 = v / 549755813888) as [E30 E39] by zlia.
    rewrite (same_index 39 (v + 4096) v), (same_index 30 (v + 4096) v), (same_index 21 (v + 4096) v) by (lia || done).
    unfold absent. rewrite W1, W2, Hw. lia.
  - assert ((v + 4096) / 549755813888 = v / 549755813888 /\ (v + 4096) / 2097152 = v / 2097152 + 1) as [E39 E21] by zlia.
    rewrite (same_index 39 (v + 4096) v), (same_index 30 (v + 4096) v) in * by (lia || done). unfold absent in *. rewrite W1, W2. lia.
  - assert ((v + 4096) / 1073741824 = v / 1073741824 + 1 /\ (v + 4096) / 2097152 = v / 2097152 + 1) as [E30 E21] by zlia.
    rewrite (same_index 39 (v + 4096) v) in * by (lia || done). unfold absent in *. rewrite W1. lia.
  - assert ((v + 4096) / 1073741824 = v / 1073741824 + 1 /\ (v + 4096) / 2097152 = v / 2097152 + 1 /\
      (v + 4096) / 549755813888 = v / 549755813888 + 1) as (E30 & E21 & E39) by zlia. lia.
Qed.

(** ** The loops *)

(** The entries written by mapping [n] pages from page [pg0] to [phys]. *)
Definition map_fun (pg0 : Z) (n : nat) (phys flags : Z) (pg : Z) : option Z :=
  if (pg0 <=? pg) && (pg <? pg0 + Z.of_nat n)
  then Some (pte_value (phys + (pg - pg0) * PAGE_SIZE) flags) else None.

Lemma map_fun_step pg0 n phys flags pg :
  override (map_fun (pg0 + 1) n (phys + PAGE_SIZE) flags)
    (override (at_page pg0 (pte_value phys flags)) (fun _ => None)) pg
  = map_fun pg0 (Datatypes.S n) phys flags pg.
Proof.
  unfold override, map_fun, at_page.
  destruct (Z.eqb_spec pg pg0) as [->|Hne].
  - replace (phys + (pg0 - pg0) * PAGE_SIZE) with phys by lia. cmp_cases.
  - cmp_cases. do 2 f_equal. unfold PAGE_SIZE. lia.
Qed.

(** [c] bounds the tables that the first page lacks. *)
Lemma map_pages_from n c st R r addr phys flags :
  forest_wf (m_pages st) (m_mem st) R -> R r -> flags_ok flags ->
  addr mod PAGE_SIZE = 0 -> 0 <= addr -> addr + Z.of_nat n * PAGE_SIZE <= 281474976710656 ->
  0 <= phys -> phys + Z.of_nat n * PAGE_SIZE <= 4503599627370496 -> (missing (m_mem st) r addr <= c)%nat ->
  let k := (c + Z.to_nat (more_tables (addr / PAGE_SIZE + 1) (Z.of_nat n - 1)))%nat in
  match map_pages n r addr phys flags st with
  | Panic _ => out_of_pages k (m_pages st)
  | Ok (res, st') => res = 0 /\
      updates R r (map_fun (addr / PAGE_SIZE) n phys flags)
        (m_pages st) (m_mem st) (m_pages st') (m_mem st') /\ takes k (m_pages st) (m_pages st')
  end.
Proof.
  revert c st addr phys. induction n as [|n IH]; intros c st addr phys Hf Hr Hfl Ham Ha Hb Hp Hpb Hc;
    cbn [map_pages].
  { split; [done|]. split; [|eapply takes_mono; [|apply takes_refl]; lia]. eapply updates_ext; [|by apply grows_updates, grows_refl].
    intros pg. unfold map_fun. cmp_cases. }
  assert (flags_ok (Z.land flags VMM_USER)) as Hcf.
  { split; [apply word64_land_l; [apply Hfl|done]|by apply no_addr_land, Hfl]. }
  pose proof (creates_mono _ _ c _ _ _ Hc (pte_for_root_create st R r addr _ Hf Hr Hcf)) as Hcr.
  destruct (pte_for_root _ _ _ _ _) as [[a st1]|msg]; cbn [creates outcome_bind] in *; [|eapply no_run_mono; [done| |exact Hcr]; lia].
  destruct Hcr as (G & T & t & Hw & -> & Hnz). rewrite (proj2 (Z.eqb_neq _ _)) by done.
  assert (canonical addr) as Hcan by (unfold canonical, PAGE_SIZE in *; lia).
  assert (word64 (pte_value phys flags)) as Hwv by (apply pte_value_word; [done|apply Hfl]).
  pose proof (leaf_updates R r _ _ addr t _ (g_forest _ _ _ _ _ G) Hr Hcan Hw Hwv) as U.
  pose proof (updates_trans _ _ _ _ _ _ _ _ _ _ (grows_updates _ r _ _ _ _ Hr G) U) as U1.
  rewrite (u64_small (addr + PAGE_SIZE)), (u64_small (phys + PAGE_SIZE))
    by (unfold word64, PAGE_SIZE in *; lia).
  set (st2 := with_machine_mem st1 _).
  assert ((addr + PAGE_SIZE) / PAGE_SIZE = addr / PAGE_SIZE + 1) as Hpg by (unfold PAGE_SIZE in *; zlia).
  assert (walk (m_mem st2) r (path_of addr) = Some t) as Hw2.
  { cbn [st2 m_mem with_machine_mem]. change (store64 ?m _ ?e) with (set_entry m t (index_of 12 addr) e).
    rewrite (leaf_walk _ _ R r (path_of addr) t _ _ (g_forest _ _ _ _ _ G) Hr (path_of_ok addr) eq_refl Hw) by (done || by apply index_of_bound || by apply path_of_ok).
    done. }
  pose proof (missing_next (m_mem st2) r addr t Ha Ham Hw2) as Hmn.
  specialize (IH (Z.to_nat (more_tables (addr / PAGE_SIZE + 1) 1)) st2 (addr + PAGE_SIZE) (phys + PAGE_SIZE) (u_forest _ _ _ _ _ _ _ U1) Hr Hfl).
  cbv zeta in IH. rewrite Hpg in IH. specialize (IH ltac:(unfold PAGE_SIZE in *; zlia) ltac:(unfold PAGE_SIZE in *; lia) ltac:(unfold PAGE_SIZE in *; lia)
    ltac:(unfold PAGE_SIZE in *; lia) ltac:(unfold PAGE_SIZE in *; lia) ltac:(lia)).
  destruct n as [|n].
  { cbn [map_pages] in IH |- *. destruct IH as (_ & U2 & _). split; [done|].
    split; [eapply updates_ext; [apply map_fun_step|]; by eapply updates_trans|]. eapply takes_mono; [|exact T]. lia. }
  assert (Z.to_nat (more_tables (addr / PAGE_SIZE + 1) 1) + Z.to_nat (more_tables (addr / PAGE_SIZE + 1 + 1) (Z.of_nat (Datatypes.S n) - 1)) =
    Z.to_nat (more_tables (addr / PAGE_SIZE + 1) (Z.of_nat (Datatypes.S (Datatypes.S n)) - 1)))%nat as Ek.
  { destruct (more_tables_step (addr / PAGE_SIZE + 1) 1 ltac:(lia)) as [H1 _].
    destruct (more_tables_step (addr / PAGE_SIZE + 1 + 1) (Z.of_nat (Datatypes.S n) - 1) ltac:(lia)) as [H2 _].
    destruct (more_tables_step (addr / PAGE_SIZE + 1) (Z.of_nat (Datatypes.S n) - 1) ltac:(lia)) as [_ E].
    replace (Z.of_nat (Datatypes.S (Datatypes.S n)) - 1) with (1 + (Z.of_nat (Datatypes.S n) - 1)) by lia. rewrite E. lia. }
  rewrite Ek in IH.
  destruct (map_pages (Datatypes.S n) _ _ _ _ st2) as [[res st3]|msg].
  - destruct IH as (-> & U2 & T2). split; [done|].
    split; [eapply updates_ext; [apply map_fun_step|]; by eapply updates_trans|by eapply takes_trans].
  - by eapply no_run_takes.
Qed.

Lemma map_pages_spec n st R r addr phys flags :
  forest_wf (m_pages st) (m_mem st) R -> R r -> flags_ok flags ->
  addr mod PAGE_SIZE = 0 -> 0 <= addr -> addr + Z.of_nat n * PAGE_SIZE <= 281474976710656 ->
  0 <= phys -> phys + Z.of_nat n * PAGE_SIZE <= 4503599627370496 ->
  let k := table_count (addr / PAGE_SIZE) (Z.of_nat n) in
  match map_pages n r addr phys flags st with
  | Panic _ => out_of_pages k (m_pages st)
  | Ok (res, st') => res = 0 /\
      updates R r (map_fun (addr / PAGE_SIZE) n phys flags)
        (m_pages st) (m_mem st) (m_pages st') (m_mem st') /\ takes k (m_pages st) (m_pages st')
  end.
Proof.
  intros Hf Hr Hfl Ham Ha Hb Hp Hpb. destruct n as [|n].
  - split; [done|]. split; [|apply takes_refl]. eapply updates_ext; [|by apply grows_updates, grows_refl].
    intros pg. unfold map_fun. cmp_cases.
  - apply map_pages_from; auto. apply missing_bound.
Qed.

(** The entries cleared by unmapping. *)
Definition unmap_fun (pg0 : Z) (n : nat) (pg : Z) : option Z :=
  if (pg0 <=? pg) && (pg <? pg0 + Z.of_nat n) then Some 0 else None.

(** A slot address is null exactly when the walk fails. *)
Lemma slot_addr_cases s m R r v :
  forest_wf s m R -> R r ->
  (slot_addr m r v = 0 /\ walk m r (path_of v) = None) \/
  (exists t, walk m r (path_of v) = Some t /\ slot_addr m r v = t + 8 * index_of 12 v /\
             slot_addr m r v <> 0 /\ load64 m (slot_addr m r v) = pte m r v).
Proof.
  intros Hf Hr. unfold slot_addr, pte. destruct (walk m r (path_of v)) as [t|] eqn:Hw; [right|by left].
  destruct (fw_table _ _ _ Hf _ _ _ Hr (path_of_ok v) Hw).
  pose proof (index_of_bound 12 v ltac:(lia)). exists t. split_and!; [done..|lia|done].
Qed.

(** Two pages of the address space with the same number have the same entry. *)
Lemma pte_page m r v w :
  canonical v -> canonical w -> v / PAGE_SIZE = w / PAGE_SIZE -> pte m r v = pte m r w.
Proof. intros Hv Hw E. apply same_slot in E as [E1 E2]; [|done..]. unfold pte. by rewrite E1, E2. Qed.

(** One iteration of [unmap_in_root]. *)
Lemma clear_slot st R r v :
  forest_wf (m_pages st) (m_mem st) R -> R r -> canonical v ->
  let a := slot_addr (m_mem st) r v in
  let st1 := if a =? 0 then st else with_machine_mem st (store64 (m_mem st) a 0) in
  m_pages st1 = m_pages st /\
  updates R r (at_page (v / PAGE_SIZE) 0) (m_pages st) (m_mem st) (m_pages st1) (m_mem st1).
Proof.
  intros Hf Hr Hv a st1. subst a st1.
  destruct (slot_addr_cases _ _ _ _ v Hf Hr) as [[E Hw]|(t & Hw & E & Hnz & _)].
  - rewrite E. cbn [Z.eqb]. split; [done|].
    pose proof (grows_updates R r _ _ _ _ Hr (grows_refl R _ _ Hf)) as U0.
    split; try apply U0; [|done].
    intros w Hwc. unfold at_page.
    destruct (Z.eqb_spec (w / PAGE_SIZE) (v / PAGE_SIZE)) as [Eq|]; [|done].
    rewrite (pte_page _ r w v) by done. unfold pte. by rewrite Hw.
  - rewrite (proj2 (Z.eqb_neq _ _)) by done. split; [done|]. rewrite E.
    cbn [with_machine_mem m_mem m_pages]. by apply leaf_updates.
Qed.

Lemma unmap_pages_spec n st R r addr :
  forest_wf (m_pages st) (m_mem st) R -> R r ->
  addr mod PAGE_SIZE = 0 -> 0 <= addr -> addr + Z.of_nat n * PAGE_SIZE <= 281474976710656 ->
  exists st', unmap_pages n r addr st = Ok st' /\ m_pages st' = m_pages st /\
    updates R r (unmap_fun (addr / PAGE_SIZE) n)
      (m_pages st) (m_mem st) (m_pages st') (m_mem st').
Proof.
  revert st addr. induction n as [|n IH]; intros st addr Hf Hr Ham Ha Hb; cbn [unmap_pages].
  { exists st. split_and!; [done..|]. eapply updates_ext; [|by apply grows_updates, grows_refl].
    intros pg. unfold unmap_fun. cmp_cases. }
  assert (canonical addr) as Hcan by (unfold canonical, PAGE_SIZE in *; lia).
  rewrite (pte_for_root_lookup st R) by done. cbn [outcome_bind].
  rewrite (u64_small (addr + PAGE_SIZE)) by (unfold word64, PAGE_SIZE in *; lia).
  assert ((addr + PAGE_SIZE) / PAGE_SIZE = addr / PAGE_SIZE + 1) as Hpg
    by (unfold PAGE_SIZE in *; zlia).
  destruct (clear_slot st R r addr Hf Hr Hcan) as [Ep U]. set (st1 := if _ =? 0 then _ else _) in *.
  destruct (IH st1 (addr + PAGE_SIZE) (u_forest _ _ _ _ _ _ _ U) Hr) as (st' & -> & Ep' & U');
    try (unfold PAGE_SIZE in *; zlia).
  exists st'. split_and!; [done|congruence|]. rewrite Hpg in U'.
  eapply updates_ext; [|by eapply updates_trans]. intros pg. unfold override, unmap_fun, at_page.
  cmp_cases.
Qed.

(** The entries rewritten by changing the protection. *)
Definition protect_fun m r (pg0 : Z) (n : nat) (flags pg : Z) : option Z :=
  if (pg0 <=? pg) && (pg <? pg0 + Z.of_nat n)
  then Some (pte_value (pte m r (pg * PAGE_SIZE)) flags) else None.

(** [k] of [n] pages were changed; the loop stopped at the first page that is
    not present. *)
Lemma protect_pages_spec n st R r addr flags :
  forest_wf (m_pages st) (m_mem st) R -> mem_ok (m_mem st) -> R r -> flags_ok flags ->
  addr mod PAGE_SIZE = 0 -> 0 <= addr -> addr + Z.of_nat n * PAGE_SIZE <= 281474976710656 ->
  exists k st', (k <= n)%nat /\ m_pages st' = m_pages st /\
    protect_pages n r addr flags st = Ok (if (k =? n)%nat then 0 else -1, st') /\
    updates R r (protect_fun (m_mem st) r (addr / PAGE_SIZE) k flags)
      (m_pages st) (m_mem st) (m_pages st') (m_mem st') /\
    (forall j, 0 <= j < Z.of_nat k -> present (pte (m_mem st) r (addr + j * PAGE_SIZE)) = true) /\
    (k <> n -> present (pte (m_mem st) r (addr + Z.of_nat k * PAGE_SIZE)) = false).
Proof.
  revert st addr. induction n as [|n IH]; intros st addr Hf Hm Hr Hfl Ham Ha Hb; cbn [protect_pages].
  { exists O, st. split_and!; [lia|done|done| |lia|done].
    eapply updates_ext; [|by apply grows_updates, grows_refl].
    intros pg. unfold protect_fun. cmp_cases. }
  assert (canonical addr) as Hcan by (unfold canonical, PAGE_SIZE in *; lia).
  rewrite (pte_for_root_lookup st R) by done. cbn [outcome_bind].
  assert (updates R r (protect_fun (m_mem st) r (addr / PAGE_SIZE) 0 flags)
            (m_pages st) (m_mem st) (m_pages st) (m_mem st)) as U0.
  { eapply updates_ext; [|by apply grows_updates, grows_refl].
    intros pg. unfold protect_fun. cmp_cases. }
  assert (present (pte (m_mem st) r addr) = false ->
    exists k st', (k <= Datatypes.S n)%nat /\ m_pages st' = m_pages st /\
    Ok (-1, st) = Ok (if (k =? Datatypes.S n)%nat then 0 else -1, st') /\
    updates R r (protect_fun (m_mem st) r (addr / PAGE_SIZE) k flags)
      (m_pages st) (m_mem st) (m_pages st') (m_mem st') /\
    (forall j, 0 <= j < Z.of_nat k -> present (pte (m_mem st) r (addr + j * PAGE_SIZE)) = true) /\
    (k <> Datatypes.S n -> present (pte (m_mem st) r (addr + Z.of_nat k * PAGE_SIZE)) = false)) as Hstop.
  { intros Hnp. exists O, st. split_and!; [lia|done|done|done|lia|].
    intros _. by replace (addr + Z.of_nat 0 * PAGE_SIZE) with addr by lia. }
  destruct (slot_addr_cases _ _ _ _ addr Hf Hr) as [[-> Hw]|(t & Hw & E & Hnz & Hld)].
  { cbn [Z.eqb orb]. apply Hstop. unfold pte. by rewrite Hw. }
  rewrite (proj2 (Z.eqb_neq _ _)) by done. cbn [orb]. rewrite Hld.
  destruct (present (pte (m_mem st) r addr)) eqn:Hpr; cbn [negb]; [|by apply Hstop].
  clear Hstop U0. set (e := pte_value _ flags).
  assert (word64 e) as He.
  { apply pte_value_word; [|apply Hfl]. rewrite <- Hld. apply load64_bound, Hm. }
  pose proof (leaf_updates R r _ _ addr t e Hf Hr Hcan Hw He) as U. rewrite <- E in U.
  rewrite (u64_small (addr + PAGE_SIZE)) by (unfold word64, PAGE_SIZE in *; lia).
  assert ((addr + PAGE_SIZE) / PAGE_SIZE = addr / PAGE_SIZE + 1) as Hpg
    by (unfold PAGE_SIZE in *; zlia).
  set (st1 := with_machine_mem st _).
  destruct (IH st1 (addr + PAGE_SIZE) (u_forest _ _ _ _ _ _ _ U) (store_le_ok _ _ _ _ Hm) Hr Hfl)
    as (k & st' & Hk & Ep & Er & U' & Hall & Hstop); try (unfold PAGE_SIZE in *; zlia).
  assert (forall w, canonical w -> addr + PAGE_SIZE <= w -> pte (m_mem st1) r w = pte (m_mem st) r w)
    as Hold.
  { intros w Hwc Hge. unfold st1. cbn [m_mem with_machine_mem].
    rewrite (u_pte _ _ _ _ _ _ _ U w Hwc). unfold at_page.
    rewrite (proj2 (Z.eqb_neq _ _)); [done|]. unfold PAGE_SIZE in *. zlia. }
  exists (Datatypes.S k), st'. split_and!; [lia|done|done|..].
  - rewrite Hpg in U'. eapply updates_ext; [|by eapply updates_trans].
    intros pg. unfold override, protect_fun, at_page.
    destruct (Z.eqb_spec pg (addr / PAGE_SIZE)) as [->|Hne].
    + replace (addr / PAGE_SIZE * PAGE_SIZE) with addr by (unfold PAGE_SIZE in *; zlia). cmp_cases.
    + cmp_cases. rewrite Hold; [done|..]; unfold canonical, PAGE_SIZE in *; zlia.
  - intros j Hj. destruct (Z.eq_dec j 0) as [->|]; [by rewrite Z.add_0_r|].
    rewrite <- (Hold (addr + j * PAGE_SIZE)) by (unfold canonical, PAGE_SIZE in *; lia).
    replace (addr + j * PAGE_SIZE) with (addr + PAGE_SIZE + (j - 1) * PAGE_SIZE) by lia.
    apply Hall. lia.
  - intros Hne. rewrite <- (Hold (addr + Z.of_nat (Datatypes.S k) * PAGE_SIZE))
      by (unfold canonical, PAGE_SIZE in *; lia).
    replace (addr + Z.of_nat (Datatypes.S k) * PAGE_SIZE)
      with (addr + PAGE_SIZE + Z.of_nat k * PAGE_SIZE) by lia.
    apply Hstop. lia.
Qed.

(** ** Ranges and translations *)

(** The page of [w] meets [[virt, virt + size)]. *)
Definition in_pages (virt size w : Z) : bool :=
  (virt / PAGE_SIZE <=? w / PAGE_SIZE) && (w / PAGE_SIZE <? (virt + size + 4095) / PAGE_SIZE).

Definition vrange_ok (virt size : Z) : Prop := 0 <= virt /\ 0 <= size /\ virt + size <= 281474976710656.

Lemma range_loop virt size :
  vrange_ok virt size ->
  align_down virt PAGE_SIZE = virt / PAGE_SIZE * PAGE_SIZE /\
  Z.of_nat (page_loop (align_down virt PAGE_SIZE) (align_up (virt +u size) PAGE_SIZE))
  = (virt + size + 4095) / PAGE_SIZE - virt / PAGE_SIZE.
Proof.
  intros (H1' & H2' & H3'). rewrite align_down_page by (unfold word64; lia).
  rewrite (u64_small (virt + size)) by (unfold word64; lia). rewrite align_up_page by lia.
  split; [done|]. unfold page_loop, PAGE_SIZE. zlia.
Qed.

Lemma range_start virt :
  0 <= virt -> virt / PAGE_SIZE * PAGE_SIZE mod PAGE_SIZE = 0 /\
  0 <= virt / PAGE_SIZE * PAGE_SIZE /\
  virt / PAGE_SIZE * PAGE_SIZE / PAGE_SIZE = virt / PAGE_SIZE.
Proof. unfold PAGE_SIZE. zlia. Qed.

Lemma range_end virt size :
  vrange_ok virt size ->
  virt / PAGE_SIZE * PAGE_SIZE + ((virt + size + 4095) / PAGE_SIZE - virt / PAGE_SIZE) * PAGE_SIZE
  <= 281474976710656.
Proof. unfold vrange_ok, PAGE_SIZE. zlia. Qed.

(** The frames behind the pages of the range have physical addresses. *)
Definition phys_fits (virt phys size : Z) : Prop :=
  phys < 4503599627370496 /\
  phys / PAGE_SIZE * PAGE_SIZE + ((virt + size + 4095) / PAGE_SIZE - virt / PAGE_SIZE) * PAGE_SIZE
  <= 4503599627370496.

Lemma phys_end virt size phys :
  vrange_ok virt size -> 0 <= phys -> phys + size + 8192 <= 4503599627370496 ->
  phys_fits virt phys size.
Proof. unfold phys_fits, vrange_ok, PAGE_SIZE. zlia. Qed.

Lemma phys_in_range virt size phys w :
  0 <= phys -> phys_fits virt phys size -> in_pages virt size w = true ->
  phys_ok ((phys / PAGE_SIZE + (w / PAGE_SIZE - virt / PAGE_SIZE)) * PAGE_SIZE).
Proof.
  intros Hp [_ He] Hin.
  unfold in_pages in Hin. bool_to_prop. split; [|apply Z.mod_mul; done].
  assert (0 <= phys / PAGE_SIZE) by (unfold PAGE_SIZE; zlia).
  unfold PAGE_SIZE in *. lia.
Qed.

(** What [vmm_virt_to_phys_in] computes from the leaf entry. *)
Definition translate (e w : Z) : Z :=
  if present e then Z.lor (Z.land e PTE_ADDR_MASK) (Z.land w (PAGE_SIZE - 1)) else 0.

Lemma virt_to_phys_pte st R r w :
  forest_wf (m_pages st) (m_mem st) R -> R r ->
  vmm_virt_to_phys_in r w st = Ok (translate (pte (m_mem st) r w) w).
Proof.
  intros Hf Hr. unfold vmm_virt_to_phys_in, translate.
  rewrite (pte_for_root_lookup st R) by done. cbn [outcome_bind].
  destruct (slot_addr_cases _ _ _ _ w Hf Hr) as [[-> Hw]|(t & Hw & E & Hnz & Hld)].
  - unfold pte. by rewrite Hw.
  - rewrite (proj2 (Z.eqb_neq _ _)), Hld by done. cbn [orb].
    by destruct (present (pte (m_mem st) r w)).
Qed.

Lemma flags_pte st R r w :
  forest_wf (m_pages st) (m_mem st) R -> R r ->
  vmm_flags r w st = Ok (if present (pte (m_mem st) r w)
                         then Z.land (pte (m_mem st) r w) (not64 PTE_ADDR_MASK) else 0).
Proof.
  intros Hf Hr. unfold vmm_flags.
  rewrite (pte_for_root_lookup st R) by done. cbn [outcome_bind].
  destruct (slot_addr_cases _ _ _ _ w Hf Hr) as [[-> Hw]|(t & Hw & E & Hnz & Hld)].
  - unfold pte. by rewrite Hw.
  - rewrite (proj2 (Z.eqb_neq _ _)), Hld by done. cbn [orb].
    by destruct (present (pte (m_mem st) r w)).
Qed.

Lemma lor_page_offset a w : a mod PAGE_SIZE = 0 -> Z.lor a (Z.land w (PAGE_SIZE - 1)) = a + w mod PAGE_SIZE.
Proof.
  intros Ha. unfold PAGE_SIZE in *. change (4096 - 1) with (Z.ones 12).
  rewrite Z.land_ones by lia. change (2 ^ 12) with 4096. rewrite <- Z.add_lor_land.
  replace (Z.land a (w mod 4096)) with 0; [lia|]. symmetry. apply Z.bits_inj'. intros i Hi.
  rewrite Z.land_spec, Z.bits_0. destruct (Z.ltb_spec i 12).
  - rewrite <- (Z.mod_pow2_bits_low a 12 i) by lia. change (2 ^ 12) with 4096.
    by rewrite Ha, Z.bits_0.
  - rewrite (testbit_above 12 (w mod 4096)) by zlia. apply andb_false_r.
Qed.

Lemma translate_pte a f w :
  phys_ok a -> flags_ok f -> translate (pte_value a f) w = a + w mod PAGE_SIZE.
Proof.
  intros Ha Hf. unfold translate. rewrite pte_value_present by apply Hf.
  rewrite pte_value_addr, phys_mask by done. apply lor_page_offset, Ha.
Qed.

Lemma flags_of_pte a f :
  flags_ok f -> Z.land (pte_value a f) (not64 PTE_ADDR_MASK) = Z.lor f VMM_PRESENT.
Proof.
  intros [Hw Hn]. rewrite pte_value_eq, Z.land_lor_distr_l by done.
  apply Z.bits_inj'. intros i Hi. rewrite Z.lor_spec, !Z.land_spec, !Z.lor_spec.
  assert (Z.land (Z.lor f VMM_PRESENT) PTE_ADDR_MASK = 0) as Hz by (by apply no_addr_lor).
  apply (f_equal (fun z => Z.testbit z i)) in Hz. rewrite Z.land_spec, Z.lor_spec, Z.bits_0 in Hz.
  destruct (Z.ltb_spec i 64).
  - rewrite not64_testbit by lia.
    by destruct (Z.testbit f i), (Z.testbit VMM_PRESENT i), (Z.testbit a i),
      (Z.testbit PTE_ADDR_MASK i).
  - rewrite (testbit_above 64 f), (testbit_above 64 VMM_PRESENT), addr_mask_testbit
      by (unfold word64, VMM_PRESENT in *; lia). cmp_cases.
Qed.

Lemma user_range virt size pg :
  USER_BASE <= virt -> virt + size <= USER_LIMIT ->
  virt / PAGE_SIZE <= pg < (virt + size + 4095) / PAGE_SIZE -> user_page pg.
Proof. unfold USER_BASE, USER_LIMIT, user_page, PAGE_SIZE. intros. zlia. Qed.

(** Entries given by page number over a range. *)
Definition range_fun (virt size : Z) (e : Z -> Z) (pg : Z) : option Z :=
  if (virt / PAGE_SIZE <=? pg) && (pg <? (virt + size + 4095) / PAGE_SIZE)
  then Some (e pg) else None.

Definition map_entry (virt phys flags pg : Z) : Z :=
  pte_value ((phys / PAGE_SIZE + (pg - virt / PAGE_SIZE)) * PAGE_SIZE) flags.

(** The tables that the pages of a range need. *)
Definition range_tables (virt size : Z) : nat :=
  table_count (virt / PAGE_SIZE) ((virt + size + 4095) / PAGE_SIZE - virt / PAGE_SIZE).

Lemma range_tables_any va : 0 <= va -> (range_tables va PAGE_SIZE <= 6)%nat.
Proof.
  intros Ha. unfold range_tables, table_count, more_tables. unfold PAGE_SIZE. case_test; [lia|]. zlia.
Qed.

Lemma range_tables_page va : va mod PAGE_SIZE = 0 -> range_tables va PAGE_SIZE = 3%nat.
Proof.
  intros Ha. unfold range_tables. replace ((va + PAGE_SIZE + 4095) / PAGE_SIZE - va / PAGE_SIZE) with 1 by (unfold PAGE_SIZE in *; zlia).
  unfold table_count, more_tables. replace (va / PAGE_SIZE + 1 + (1 - 1) - 1) with (va / PAGE_SIZE + 1 - 1) by lia. cbn [Z.leb Z.compare]. lia.
Qed.

Lemma map_in_root_spec st R r virt phys size flags :
  forest_wf (m_pages st) (m_mem st) R -> R r -> flags_ok flags -> vrange_ok virt size ->
  0 <= phys -> phys_fits virt phys size ->
  match map_in_root r virt phys size flags st with
  | Panic _ => out_of_pages (range_tables virt size) (m_pages st)
  | Ok (res, st') => res = 0 /\
      updates R r (range_fun virt size (map_entry virt phys flags))
        (m_pages st) (m_mem st) (m_pages st') (m_mem st') /\ takes (range_tables virt size) (m_pages st) (m_pages st')
  end.
Proof.
  intros Hf Hr Hfl Hrg Hp [Hpw Hpb]. pose proof (range_loop virt size Hrg) as [Hs Hn].
  pose proof Hrg as (R1 & R2 & R3). unfold map_in_root. set (n := page_loop _ _) in *. rewrite Hs.
  rewrite (align_down_page phys) by (unfold word64; lia).
  pose proof (map_pages_spec n st R r (virt / PAGE_SIZE * PAGE_SIZE) (phys / PAGE_SIZE * PAGE_SIZE)
    flags Hf Hr Hfl) as Hm.
  destruct (range_start virt R1) as (S1 & S2 & S3). rewrite S3 in Hm.
  rewrite Hn in Hm. specialize (Hm S1 S2 (range_end _ _ Hrg) (proj1 (proj2 (range_start phys Hp)))
    Hpb).
  fold (range_tables virt size) in Hm. destruct (map_pages _ _ _ _ _ _) as [[res st']|msg]; [|exact Hm].
  destruct Hm as (-> & U & T). split; [done|]. split; [|exact T]. eapply updates_ext; [|exact U].
  intros pg. unfold map_fun, range_fun, map_entry. rewrite Hn.
  replace (virt / PAGE_SIZE + _) with ((virt + size + 4095) / PAGE_SIZE) by lia.
  case_test; [|done]. do 2 f_equal. lia.
Qed.

Lemma unmap_in_root_spec st R r virt size :
  forest_wf (m_pages st) (m_mem st) R -> R r -> vrange_ok virt size ->
  exists st', unmap_in_root r virt size st = Ok st' /\ m_pages st' = m_pages st /\
    updates R r (range_fun virt size (fun _ => 0)) (m_pages st) (m_mem st) (m_pages st') (m_mem st').
Proof.
  intros Hf Hr Hrg. pose proof (range_loop virt size Hrg) as [Hs Hn].
  unfold unmap_in_root. set (n := page_loop _ _) in *. rewrite Hs.
  destruct (range_start virt (proj1 Hrg)) as (S1 & S2 & S3).
  destruct (unmap_pages_spec n st R r _ Hf Hr S1 S2) as (st' & -> & Ep & U).
  { rewrite Hn. by apply range_end. }
  exists st'. split_and!; [done|done|]. eapply updates_ext; [|exact U].
  intros pg. unfold unmap_fun, range_fun. rewrite S3, Hn.
  by replace (virt / PAGE_SIZE + _) with ((virt + size + 4095) / PAGE_SIZE) by lia.
Qed.

Lemma map_entry_spec virt size phys flags w :
  0 <= phys -> phys_fits virt phys size -> flags_ok flags -> in_pages virt size w = true ->
  let e := map_entry virt phys flags (w / PAGE_SIZE) in
  present e = true /\ Z.land e (not64 PTE_ADDR_MASK) = Z.lor flags VMM_PRESENT /\
  translate e w =
    (phys / PAGE_SIZE + (w / PAGE_SIZE - virt / PAGE_SIZE)) * PAGE_SIZE + w mod PAGE_SIZE.
Proof.
  intros Hp Hpb Hfl Hin. unfold map_entry. split_and!.
  - apply pte_value_present, Hfl.
  - by apply flags_of_pte.
  - apply translate_pte; [|done]. by apply (phys_in_range virt size).
Qed.

(** ** A user root *)

(** The entries of the new root after the two loops of
    [vmm_create_user_pml4]. *)
Definition user_entry m (kp i : Z) : Z := if (1 <=? i) && (i <? 256) then 0 else entry m kp i.

Section UserRoot.
Context (s s1 : S) (m m1 : mem) (R : Z -> Prop) (kp c : Z).
Hypothesis (Hf : forest_wf s m R) (Hk : R kp) (Hok : mem_ok m).
Hypothesis (Hpost : alloc_post 1 c s s1 m m1).

Let m2 := mem_zero c PAGE_SIZE m1.
Let m3 := for_loop 512 0 (fun i m => set_entry m c i (entry m kp i)) m2.
Let m' := for_loop 255 1 (fun i m => set_entry m c i 0) m3.

Lemma root_load8 x : load8 m2 x = if (c <=? x) && (x <? c + PAGE_SIZE) then 0 else load8 m x.
Proof.
  unfold m2. rewrite load8_mem_zero, (ap_zeroed _ _ _ _ _ _ Hpost), load8_mem_zero.
  rewrite Z.mul_1_l. by case_test.
Qed.

(** [mx] differs from [m] only on the new page. *)
Definition on_new_page mx : Prop :=
  forall x, ~ (c <= x < c + PAGE_SIZE) -> load8 mx x = load8 m x.

Lemma set_entry_new_page mx i v : index_ok i -> on_new_page mx -> on_new_page (set_entry mx c i v).
Proof.
  intros Hi Hx x Hc. unfold set_entry, store64. rewrite store_le_frame; [by apply Hx|].
  unfold index_ok, PAGE_SIZE in *. lia.
Qed.

Lemma table_off_page t x : table_ok s t -> t <= x < t + PAGE_SIZE -> ~ (c <= x < c + PAGE_SIZE).
Proof.
  intros [Ha ? ? Hl] Hx Hc. apply (ap_fresh _ _ _ _ _ _ Hpost (t / PAGE_SIZE)); [|done].
  pose proof (ap_aligned _ _ _ _ _ _ Hpost). unfold PAGE_SIZE in *. zlia.
Qed.

Lemma table_entry_kept mx t i :
  on_new_page mx -> table_ok s t -> index_ok i -> entry mx t i = entry m t i.
Proof.
  intros Hx Ht Hi. apply load_le_agree. intros x Hxx. apply Hx, (table_off_page t); [done|].
  unfold index_ok, PAGE_SIZE in *. lia.
Qed.

Lemma kp_ok : table_ok s kp.
Proof. apply (fw_table _ _ _ Hf kp []); [done|split; [cbn; lia|constructor]|done]. Qed.

Lemma copy_loop : on_new_page m3 /\ forall i, index_ok i -> entry m3 c i = entry m kp i.
Proof.
  assert (on_new_page m3 /\ forall i, index_ok i ->
            entry m3 c i = if i <? 0 + Z.of_nat 512 then entry m kp i else 0) as [H1' H2'].
  { apply (for_loop_inv (fun j mx => on_new_page mx /\ forall i, index_ok i ->
      entry mx c i = if i <? j then entry m kp i else 0)).
    - split; [intros x Hx; rewrite root_load8; cmp_cases|].
      intros i Hi. unfold index_ok in Hi. cmp_cases.
      apply load_le_zeroed; unfold PAGE_SIZE; lia.
    - intros j mx Hj [Hx He]. assert (index_ok j) as Hjo by (unfold index_ok; lia).
      split; [by apply set_entry_new_page|]. intros i Hi.
      rewrite (table_entry_kept mx kp j Hx kp_ok Hjo).
      destruct (Z.eq_dec i j) as [->|Hne].
      + rewrite entry_set_eq by apply load64_bound, Hok. cmp_cases.
      + rewrite entry_set_ne, He by first [done | apply Hpost | right; congruence]. cmp_cases. }
  split; [done|]. intros i Hi. rewrite H2' by done. unfold index_ok in Hi. cmp_cases.
Qed.

Lemma root_loops : on_new_page m' /\ forall i, index_ok i -> entry m' c i = user_entry m kp i.
Proof.
  destruct copy_loop as [Hx He].
  assert (on_new_page m' /\ forall i, index_ok i ->
     entry m' c i = if (1 <=? i) && (i <? 1 + Z.of_nat 255) then 0 else entry m kp i) as [H1' H2'].
  { apply (for_loop_inv (fun j mx => on_new_page mx /\ forall i, index_ok i ->
      entry mx c i = if (1 <=? i) && (i <? j) then 0 else entry m kp i)).
    - split; [done|]. intros i Hi. rewrite He by done. cmp_cases.
    - intros j mx Hj [Hx' He']. assert (index_ok j) as Hjo by (unfold index_ok; lia).
      split; [by apply set_entry_new_page|]. intros i Hi.
      destruct (Z.eq_dec i j) as [->|Hne].
      + rewrite entry_set_eq by done. cmp_cases.
      + rewrite entry_set_ne, He' by first [done | apply Hpost | right; congruence]. cmp_cases. }
  split; [done|]. intros i Hi. by rewrite H2'.
Qed.

Lemma root_old_walk r p : R r -> path_ok p -> walk m' r p = walk m r p.
Proof.
  intros Hr Hp. apply (walk_frame m m' s R); auto. intros t (r' & q & Hr' & Hq & Hw) x Hx.
  apply root_loops, (table_off_page t); [|done]. by apply (fw_table _ _ _ Hf r' q).
Qed.

Lemma root_new_walk i p : path_ok (i :: p) ->
  walk m' c (i :: p) = if (1 <=? i) && (i <? 256) then None else walk m kp (i :: p).
Proof.
  intros Hp. assert (index_ok i) as Hi by (by destruct Hp as [_ [? _]%Forall_cons]).
  rewrite <- (root_old_walk kp (i :: p) Hk Hp). cbn [walk].
  destruct root_loops as [Hx He]. rewrite He by done.
  rewrite (table_entry_kept m' kp i Hx kp_ok Hi). unfold user_entry. by case_test.
Qed.

Lemma root_not_table r p : R r -> path_ok p -> walk m r p <> Some c.
Proof.
  intros Hr Hp Hw. destruct (fw_table _ _ _ Hf _ _ _ Hr Hp Hw) as [? ? ? Hl].
  apply (ap_fresh _ _ _ _ _ _ Hpost (c / PAGE_SIZE)); [lia|done].
Qed.

(** A walk from the new root is empty or one of the kernel's. *)
Lemma root_walk_cases p t : path_ok p -> walk m' c p = Some t ->
  (p = [] /\ t = c) \/ (kernel_path p /\ walk m kp p = Some t).
Proof.
  destruct p as [|i p]; intros Hp; [intros [= <-]; by left|]. rewrite root_new_walk by done.
  destruct ((1 <=? i) && (i <? 256)) eqn:E; [done|]. right. split; [|done].
  unfold kernel_path, kernel_slot. intros ?. apply andb_false_iff in E as [E|E]; bool_to_prop; lia.
Qed.

Lemma root_forest : forest_wf s1 m' (fun x => R x \/ x = c).
Proof.
  assert (forall t, table_ok s t -> table_ok s1 t) as Hmono.
  { intros t [? ? ? Hl]. split; auto. apply (ap_live _ _ _ _ _ _ Hpost). by left. }
  split; [apply Hpost|..].
  - intros r p t [Hr| ->] Hp Hw.
    + rewrite root_old_walk in Hw by done. apply Hmono. by apply (fw_table _ _ _ Hf r p).
    + destruct (root_walk_cases p t Hp Hw) as [[-> ->]|[_ Hw']].
      * pose proof (pa_top_bound _ (fw_pages _ _ _ Hf)). destruct Hpost as [? ? ? ? Hl ? ? ?].
        split; auto; [unfold PAGE_SIZE in *; lia|]. apply Hl. right. lia.
      * apply Hmono. by apply (fw_table _ _ _ Hf kp p).
  - intros r1 r2 p q t [Hr1| ->] [Hr2| ->] Hp Hq Hw1 Hw2.
    + rewrite root_old_walk in Hw1, Hw2 by done. by apply (fw_inj _ _ _ Hf _ _ _ _ t).
    + rewrite root_old_walk in Hw1 by done.
      destruct (root_walk_cases q t Hq Hw2) as [[-> ->]|[Hkq Hw']].
      * by destruct (root_not_table r1 p).
      * destruct (fw_inj _ _ _ Hf _ _ _ _ _ Hr1 Hk Hp Hq Hw1 Hw') as [-> _]. auto.
    + rewrite root_old_walk in Hw2 by done.
      destruct (root_walk_cases p t Hp Hw1) as [[-> ->]|[Hkp Hw']].
      * by destruct (root_not_table r2 q).
      * destruct (fw_inj _ _ _ Hf _ _ _ _ _ Hk Hr2 Hp Hq Hw' Hw2) as [-> _]. auto.
    + split; [|by left].
      destruct (root_walk_cases p t Hp Hw1) as [[-> ->]|[Hkp Hw1']],
               (root_walk_cases q _ Hq Hw2) as [[-> Et]|[Hkq Hw2']]; auto.
      * by destruct (root_not_table kp q).
      * subst t. by destruct (root_not_table kp p).
      * by destruct (fw_inj _ _ _ Hf _ _ _ _ _ Hk Hk Hp Hq Hw1' Hw2').
Qed.

Lemma root_pte_old r w : R r -> pte m' r w = pte m r w.
Proof.
  intros Hr. unfold pte. pose proof (path_of_ok w) as Hp. rewrite root_old_walk by done.
  destruct (walk m r (path_of w)) as [t|] eqn:E; [|done].
  apply table_entry_kept; [apply root_loops| |by apply index_of_bound].
  by apply (fw_table _ _ _ Hf r (path_of w)).
Qed.

Lemma root_pte_new w :
  pte m' c w = if (1 <=? index_of 39 w) && (index_of 39 w <? 256) then 0 else pte m kp w.
Proof.
  rewrite <- (root_pte_old kp w Hk). unfold pte. pose proof (path_of_ok w) as Hp.
  rewrite (root_old_walk kp) by done. unfold path_of in *. rewrite root_new_walk by done.
  by case_test.
Qed.
End UserRoot.

(** ** The kernel's root *)

Lemma new_table_forest st root st' :
  pa_wf (m_pages st) -> new_table st = Ok (root, st') ->
  forest_wf (m_pages st') (m_mem st') (eq root) /\
  pa_top (m_pages st') = pa_top (m_pages st) /\
  (forall q, pa_live (m_pages st) q -> pa_live (m_pages st') q).
Proof.
  intros Hwf. unfold new_table. destruct (pa_alloc_pages 1 _ _) as [[c s1] m1] eqn:Ea.
  destruct (Z.eqb_spec c 0) as [->|Hc]; [done|]. intros [= <- <-].
  apply pa_alloc_ok in Ea as Hpost; [|done|lia|done]. pose proof (pa_top_bound _ Hwf).
  cbn [m_pages m_mem]. split_and!; [|apply Hpost|intros q Hq; apply (ap_live _ _ _ _ _ _ Hpost); by left].
  assert (forall i p, index_ok i -> walk (mem_zero c PAGE_SIZE m1) c (i :: p) = None) as Hnone.
  { intros i p Hi. cbn [walk]. unfold entry, load64, index_ok in *.
    by rewrite load_le_zeroed by (unfold PAGE_SIZE; lia). }
  assert (forall p t, path_ok p -> walk (mem_zero c PAGE_SIZE m1) c p = Some t -> p = [] /\ t = c) as Hroot.
  { intros [|i p] t Hp; [by intros [= <-]|]. rewrite Hnone; [done|].
    by destruct Hp as [_ [? _]%Forall_cons]. }
  split; [apply Hpost|..].
  - intros r p t <- Hp Hw. destruct (Hroot p t Hp Hw) as [-> ->].
    destruct Hpost as [? ? ? ? Hl ? ? ?]. split; auto; [unfold PAGE_SIZE in *; lia|].
    apply Hl. right. lia.
  - intros r1 r2 p q t <- <- Hp Hq Hw1 Hw2.
    destruct (Hroot p t Hp Hw1) as [-> _], (Hroot q t Hq Hw2) as [-> _]. auto.
Qed.

Lemma new_table_mem_ok st root st' :
  pa_wf (m_pages st) -> mem_ok (m_mem st) -> new_table st = Ok (root, st') -> mem_ok (m_mem st').
Proof.
  intros Hwf Hm. unfold new_table. destruct (pa_alloc_pages 1 _ _) as [[c s1] m1] eqn:Ea.
  destruct (Z.eqb_spec c 0) as [->|Hc]; [done|]. intros [= <- <-].
  apply pa_alloc_ok in Ea as Hpost; [|done|lia|done]. cbn [m_mem].
  rewrite (ap_zeroed _ _ _ _ _ _ Hpost). auto with mem.
Qed.

(** ** Memory stays a memory of bytes *)

(** The machine after an operation that returns a value. *)
Definition leaves {A} (P : machine S -> Prop) (o : outcome (A * machine S)) : Prop :=
  match o with Ok (_, st) => P st | Panic _ => True end.

Definition machine_ok (st : machine S) : Prop := pa_wf (m_pages st) /\ mem_ok (m_mem st).

Lemma leaves_bind {A B} (P : machine S -> Prop) (o : outcome (A * machine S))
    (k : A * machine S -> outcome (B * machine S)) :
  leaves P o -> (forall a st, P st -> leaves P (k (a, st))) -> leaves P (let? p := o in k p).
Proof. destruct o as [[a st]|msg]; cbn; auto. Qed.

Lemma new_table_ok st : machine_ok st -> leaves machine_ok (new_table st).
Proof.
  intros [Hw Hm]. unfold new_table. destruct (pa_alloc_pages 1 _ _) as [[c s1] m1] eqn:Ea.
  destruct (Z.eqb_spec c 0) as [->|Hc]; [done|].
  apply pa_alloc_ok in Ea as Hpost; [|done|lia|done]. split; cbn [m_pages m_mem]; [apply Hpost|].
  rewrite (ap_zeroed _ _ _ _ _ _ Hpost). auto with mem.
Qed.

Lemma store64_ok st a v : machine_ok st -> machine_ok (with_machine_mem st (store64 (m_mem st) a v)).
Proof. intros [Hw Hm]. split; [done|]. by apply store_le_ok. Qed.

Lemma next_table_ok t i cr cf st : machine_ok st -> leaves machine_ok (next_table t i cr cf st).
Proof.
  intros Hs. unfold next_table. case_test; [|done]. destruct cr; cbn [negb]; [|done].
  apply (leaves_bind machine_ok); [by apply new_table_ok|]. intros c st1 H1. by apply store64_ok.
Qed.

Lemma pte_for_root_ok r v cr cf st : machine_ok st -> leaves machine_ok (pte_for_root r v cr cf st).
Proof.
  intros Hs. unfold pte_for_root.
  apply (leaves_bind machine_ok); [by apply next_table_ok|]. intros a st1 H1. case_test; [done|].
  apply (leaves_bind machine_ok); [by apply next_table_ok|]. intros b st2 H2. case_test; [done|].
  apply (leaves_bind machine_ok); [by apply next_table_ok|]. intros c st3 H3. by case_test.
Qed.

Lemma map_pages_ok n r a p f st : machine_ok st -> leaves machine_ok (map_pages n r a p f st).
Proof.
  revert a p st. induction n as [|n IH]; intros a p st Hs; cbn [map_pages]; [done|].
  apply (leaves_bind machine_ok); [by apply pte_for_root_ok|]. intros x st1 H1. case_test; [done|].
  by apply IH, store64_ok.
Qed.

Lemma protect_pages_ok n r a f st : machine_ok st -> leaves machine_ok (protect_pages n r a f st).
Proof.
  revert a st. induction n as [|n IH]; intros a st Hs; cbn [protect_pages]; [done|].
  apply (leaves_bind machine_ok); [by apply pte_for_root_ok|]. intros x st1 H1. case_test; [done|].
  by apply IH, store64_ok.
Qed.

Lemma unmap_pages_ok n r a st st' :
  machine_ok st -> unmap_pages n r a st = Ok st' -> machine_ok st'.
Proof.
  revert a st. induction n as [|n IH]; intros a st Hs; cbn [unmap_pages]; [by intros [= <-]|].
  pose proof (pte_for_root_ok r a false 0 st Hs) as Hp.
  destruct (pte_for_root r a false 0 st) as [[x st1]|msg]; [|done]. cbn [outcome_bind leaves] in *.
  apply IH. case_test; [done|by apply store64_ok].
Qed.

(** Every page below [limit] is mapped to itself. *)
Definition identity_below (m : mem) (root limit : Z) : Prop :=
  forall w, 0 <= w < limit -> exists f, flags_ok f /\ pte m root w = pte_value (w / PAGE_SIZE * PAGE_SIZE) f.

(** The tables under [root] were made of pages that were not in use in [st0], and no
    byte of a page in use then has changed. *)
Record built (st0 : machine S) (root : Z) (st : machine S) : Prop := {
  bu_forest : forest_wf (m_pages st) (m_mem st) (eq root);
  bu_live : forall q, pa_live (m_pages st0) q -> pa_live (m_pages st) q;
  bu_top : pa_top (m_pages st) = pa_top (m_pages st0);
  bu_tables : forall t, is_table (m_mem st) (eq root) t -> ~ pa_live (m_pages st0) (t / PAGE_SIZE);
  bu_frame : forall x, pa_live (m_pages st0) (x / PAGE_SIZE) -> load8 (m_mem st) x = load8 (m_mem st0) x;
}.

Lemma built_updates st0 root f st st' :
  built st0 root st -> updates (eq root) root f (m_pages st) (m_mem st) (m_pages st') (m_mem st') -> built st0 root st'.
Proof.
  intros [B1 B2 B3 B4 B5] U. split.
  - apply U.
  - intros q Hq. by apply U, B2.
  - by rewrite (u_top _ _ _ _ _ _ _ U).
  - intros t [Ht|Ht]%(u_tables _ _ _ _ _ _ _ U); [by apply B4|]. intros Hl. by apply Ht, B2.
  - intros x Hx. rewrite (u_frame _ _ _ _ _ _ _ U x); [by apply B5|by apply B2|]. intros (t & Ht & Hxt). apply (B4 t Ht).
    pose proof Ht as (r & p & Hr & Hp & Hw). destruct (fw_table _ _ _ B1 r p t Hr Hp Hw) as [Ha _ _ _].
    replace (t / PAGE_SIZE) with (x / PAGE_SIZE); [done|]. unfold PAGE_SIZE in *. zlia.
Qed.

(** What [vmm_init] keeps true of the root it is building, from the state
    [st0] it started in. *)
Record booting (st0 : machine S) (root limit : Z) (st : machine S) : Prop := {
  bo_built : built st0 root st;
  bo_identity : identity_below (m_mem st) root limit;
}.

Lemma map_identity_step k st0 st root limit base size flags msg :
  built st0 root st -> takes k (m_pages st0) (m_pages st) -> flags_ok flags -> vrange_ok base size ->
  0 <= limit <= 281474976710656 ->
  identity_below (m_mem st) root limit \/ (base = 0 /\ size = limit) ->
  match map_identity root base size flags msg st with
  | Panic _ => out_of_pages (k + range_tables base size) (m_pages st0)
  | Ok st' => booting st0 root limit st' /\ takes (k + range_tables base size) (m_pages st0) (m_pages st')
  end.
Proof.
  intros Hb Ht Hfl Hrg Hl Hid. pose proof Hrg as (R1 & R2 & R3). unfold map_identity, vmm_map.
  pose proof (map_in_root_spec st (eq root) root base base size flags (bu_forest _ _ _ Hb) eq_refl Hfl Hrg R1
    (phys_end base size base Hrg R1 ltac:(lia))) as Hm.
  destruct (map_in_root _ _ _ _ _ _) as [[res st']|msg']; cbn [outcome_bind]; [|by eapply no_run_takes].
  destruct Hm as (-> & U & T). change (0 <? 0) with false. cbv iota. split; [|by eapply takes_trans]. split; [by eapply built_updates|].
  intros w Hw. rewrite (u_pte _ _ _ _ _ _ _ U w) by (unfold canonical; lia).
  unfold range_fun. case_test.
  - exists flags. split; [done|]. unfold map_entry. do 2 f_equal. lia.
  - destruct Hid as [Hid|[-> ->]]; [by apply Hid|].
    apply andb_false_iff in E as [E|E]; bool_to_prop; unfold PAGE_SIZE in *; zlia.
Qed.

(** The optional mappings. *)
Lemma map_identity_opt k st0 st root limit base size flags msg (b : bool) :
  booting st0 root limit st -> takes k (m_pages st0) (m_pages st) -> flags_ok flags -> vrange_ok base size ->
  0 <= limit <= 281474976710656 ->
  match (if b then map_identity root base size flags msg st else Ok st) with
  | Panic _ => out_of_pages (k + range_tables base size) (m_pages st0)
  | Ok st' => booting st0 root limit st' /\ takes (k + range_tables base size) (m_pages st0) (m_pages st')
  end.
Proof.
  intros [Hb Hid] Ht Hfl Hrg Hl. destruct b; [by apply map_identity_step; auto|].
  split; [by split|]. eapply takes_mono; [|exact Ht]. lia.
Qed.

(** A new root. *)
Lemma new_table_built st root st' : pa_wf (m_pages st) -> new_table st = Ok (root, st') ->
  built st root st' /\ takes 1 (m_pages st) (m_pages st').
Proof.
  intros Hwf En. destruct (new_table_forest st root st' Hwf En) as (Hf & Ht & Hl). revert En.
  unfold new_table. destruct (pa_alloc_pages 1 _ _) as [[c s1] m1] eqn:Ea.
  destruct (Z.eqb_spec c 0) as [->|Hc]; [done|]. intros [= <- <-].
  pose proof (takes_alloc 1 _ _ _ _ _ Hwf ltac:(lia) Ea Hc) as HT. apply pa_alloc_ok in Ea as [A1 A2 A3 A4 A5 A6 A7 A8]; [|done|lia|done].
  cbn [m_pages m_mem] in *. split; [|exact HT]. split; [done|done|done|..].
  - assert (forall i p, index_ok i -> walk (mem_zero c PAGE_SIZE m1) c (i :: p) = None) as Hnone.
    { intros i p Hi. cbn [walk]. unfold entry, load64, index_ok in *. by rewrite load_le_zeroed by (unfold PAGE_SIZE; lia). }
    intros t (r & p & <- & Hp & Hw). destruct p as [|i p]; [injection Hw as <-; apply A4; lia|].
    destruct Hp as [_ [Hi _]%Forall_cons]. change (walk (mem_zero c PAGE_SIZE m1) c (i :: p) = Some t) in Hw.
    rewrite Hnone in Hw by done. discriminate Hw.
  - intros x Hx. cbn [m_mem]. rewrite A6, !load8_mem_zero. assert (~ (c <= x < c + 1 * PAGE_SIZE)) as Hn.
    { intros Hin. apply (A4 (x / PAGE_SIZE)); [|done]. unfold PAGE_SIZE in *. zlia. }
    case_test; bool_to_prop; [lia|]. case_test; bool_to_prop; [lia|done].
Qed.

Lemma identity_translate st root limit w :
  forest_wf (m_pages st) (m_mem st) (eq root) -> identity_below (m_mem st) root limit ->
  0 <= w < limit -> limit <= 4503599627370496 -> vmm_virt_to_phys_in root w st = Ok w.
Proof.
  intros Hf Hid Hw Hl. rewrite (virt_to_phys_pte st (eq root)) by done.
  destruct (Hid w Hw) as (f & Hfl & ->). f_equal. rewrite translate_pte; [|unfold phys_ok, PAGE_SIZE; zlia|done].
  unfold PAGE_SIZE. zlia.
Qed.

(** ** Properties *)

(** C6: [vmm_map_in] returns 0 unless fewer pages are free than the tables of the range
    can need (a panic), and afterwards every address of the range translates to the corresponding
    physical address with exactly the requested flags, every address outside
    keeps its translation and its flags, a mapping in the user half changes no other address
    space, and no live byte outside the page tables is touched. *)
Theorem vmm_map_correct st R r virt phys size flags :
  forest_wf (m_pages st) (m_mem st) R -> R r -> flags_ok flags -> vrange_ok virt size ->
  0 <= phys -> phys + size + 8192 <= 4503599627370496 ->
  match vmm_map_in r virt phys size flags st with
  | Panic _ => out_of_pages (range_tables virt size) (m_pages st)
  | Ok (res, st') =>
      res = 0 /\ forest_wf (m_pages st') (m_mem st') R /\
      (forall w, canonical w -> in_pages virt size w = true ->
         vmm_virt_to_phys_in r w st' =
           Ok ((phys / PAGE_SIZE + (w / PAGE_SIZE - virt / PAGE_SIZE)) * PAGE_SIZE + w mod PAGE_SIZE) /\
         vmm_flags r w st' = Ok (Z.lor flags VMM_PRESENT)) /\
      (forall w, canonical w -> in_pages virt size w = false ->
         vmm_virt_to_phys_in r w st' = vmm_virt_to_phys_in r w st /\ vmm_flags r w st' = vmm_flags r w st) /\
      (USER_BASE <= virt -> virt + size <= USER_LIMIT ->
       forall r' w, R r' -> r' <> r ->
         vmm_virt_to_phys_in r' w st' = vmm_virt_to_phys_in r' w st /\ vmm_flags r' w st' = vmm_flags r' w st) /\
      (forall x, pa_live (m_pages st) (x / PAGE_SIZE) -> ~ in_table (m_mem st) R x ->
         load8 (m_mem st') x = load8 (m_mem st) x)
  end.
Proof.
  intros Hf Hr Hfl Hrg Hp Hpb. apply (phys_end virt) in Hpb; [|done..].
  pose proof (map_in_root_spec st R r virt phys size flags Hf Hr Hfl Hrg Hp Hpb) as Hm.
  unfold vmm_map_in. destruct (map_in_root _ _ _ _ _ _) as [[res st']|msg]; [|exact Hm].
  destruct Hm as (-> & U & _). pose proof (u_forest _ _ _ _ _ _ _ U) as Hf'. split; [done|]. split; [done|]. split; [|split; [|split]].
  - intros w Hw Hin. rewrite (virt_to_phys_pte st' R), (flags_pte st' R) by done.
    rewrite (u_pte _ _ _ _ _ _ _ U w Hw). unfold range_fun. pose proof Hin as Hin'.
    unfold in_pages in Hin'. rewrite Hin'.
    by destruct (map_entry_spec virt size phys flags w Hp Hpb Hfl Hin) as (-> & -> & ->).
  - intros w Hw Hin. rewrite (virt_to_phys_pte st' R), (virt_to_phys_pte st R), (flags_pte st' R), (flags_pte st R) by done.
    rewrite (u_pte _ _ _ _ _ _ _ U w Hw). unfold range_fun. unfold in_pages in Hin. by rewrite Hin.
  - intros Hb Hl r' w Hr' Hne. rewrite (virt_to_phys_pte st' R), (virt_to_phys_pte st R), (flags_pte st' R), (flags_pte st R) by done.
    rewrite (u_others _ _ _ _ _ _ _ U); auto. intros pg e. unfold range_fun.
    case_test; [|done]. intros _. bool_to_prop. by apply (user_range virt size).
  - apply U.
Qed.

(** [vmm_unmap_in] always returns and removes the translations of exactly
    the pages of the range; other pages, other address spaces (for a user
    range) and the allocator are untouched, so unmapping after mapping leaves
    no page of the range reachable. *)
Theorem vmm_unmap_correct st R r virt size :
  forest_wf (m_pages st) (m_mem st) R -> R r -> vrange_ok virt size ->
  exists st', vmm_unmap_in r virt size st = Ok st' /\
    m_pages st' = m_pages st /\ forest_wf (m_pages st') (m_mem st') R /\
    (forall w, canonical w ->
       vmm_virt_to_phys_in r w st' =
       if in_pages virt size w then Ok 0 else vmm_virt_to_phys_in r w st) /\
    (USER_BASE <= virt -> virt + size <= USER_LIMIT ->
     forall r' w, R r' -> r' <> r -> vmm_virt_to_phys_in r' w st' = vmm_virt_to_phys_in r' w st).
Proof.
  intros Hf Hr Hrg. unfold vmm_unmap_in.
  destruct (unmap_in_root_spec st R r virt size Hf Hr Hrg) as (st' & E & Ep & U).
  pose proof (u_forest _ _ _ _ _ _ _ U) as Hf'.
  exists st'. split_and!; [done|done|done|..].
  - intros w Hw. rewrite (virt_to_phys_pte st' R), (virt_to_phys_pte st R) by done.
    rewrite (u_pte _ _ _ _ _ _ _ U w Hw). unfold range_fun, in_pages. by case_test.
  - intros Hb Hl r' w Hr' Hne. rewrite (virt_to_phys_pte st' R), (virt_to_phys_pte st R) by done.
    rewrite (u_others _ _ _ _ _ _ _ U); auto. intros pg e. unfold range_fun.
    case_test; [|done]. intros _. bool_to_prop. by apply (user_range virt size).
Qed.

(** [vmm_protect_in] returns 0 exactly when every page of the range is
    present, and -1 otherwise; it never changes which physical page an address
    translates to, and on success every page of the range has exactly the
    requested flags. *)
Theorem vmm_protect_correct st R r virt size flags :
  forest_wf (m_pages st) (m_mem st) R -> mem_ok (m_mem st) -> R r -> flags_ok flags ->
  vrange_ok virt size ->
  exists res st', vmm_protect_in r virt size flags st = Ok (res, st') /\
    m_pages st' = m_pages st /\ forest_wf (m_pages st') (m_mem st') R /\
    (res = 0 <-> forall w, canonical w -> in_pages virt size w = true ->
                   present (pte (m_mem st) r w) = true) /\
    (res = 0 \/ res = -1) /\
    (forall w, canonical w -> vmm_virt_to_phys_in r w st' = vmm_virt_to_phys_in r w st) /\
    (res = 0 -> forall w, canonical w -> in_pages virt size w = true ->
       vmm_flags r w st' = Ok (Z.lor flags VMM_PRESENT)).
Proof.
  intros Hf Hm Hr Hfl Hrg. pose proof (range_loop virt size Hrg) as [Hs Hn].
  unfold vmm_protect_in, protect_in_root. set (n := page_loop _ _) in *. rewrite Hs.
  destruct (range_start virt (proj1 Hrg)) as (S1 & S2 & S3). pose proof (range_end _ _ Hrg) as He.
  destruct (protect_pages_spec n st R r _ flags Hf Hm Hr Hfl S1 S2)
    as (k & st' & Hk & Ep & -> & U & Hall & Hstop); [by rewrite Hn|].
  rewrite S3 in U. pose proof (u_forest _ _ _ _ _ _ _ U) as Hf'.
  assert (forall w, canonical w -> pte (m_mem st) r w = pte (m_mem st) r (w / PAGE_SIZE * PAGE_SIZE))
    as Hpage.
  { intros w Hw. apply pte_page; unfold canonical, PAGE_SIZE in *; zlia. }
  assert (forall w, canonical w -> virt / PAGE_SIZE <= w / PAGE_SIZE < virt / PAGE_SIZE + Z.of_nat k ->
    present (pte (m_mem st) r w) = true) as Hpres.
  { intros w Hw Hin. rewrite Hpage by done.
    replace (w / PAGE_SIZE * PAGE_SIZE) with
      (virt / PAGE_SIZE * PAGE_SIZE + (w / PAGE_SIZE - virt / PAGE_SIZE) * PAGE_SIZE) by lia.
    apply Hall. lia. }
  eexists _, st'. split_and!; [done|done|done|..].
  - destruct (Nat.eqb_spec k n) as [->|Hne].
    + split; [|done]. intros _ w Hw Hin. unfold in_pages in Hin. bool_to_prop.
      apply Hpres; [done|lia].
    + split; [done|]. intros Hw. specialize (Hstop Hne). rewrite Hw in Hstop; [done|..].
      * unfold canonical, PAGE_SIZE in *. lia.
      * unfold in_pages. replace ((virt / PAGE_SIZE * PAGE_SIZE + Z.of_nat k * PAGE_SIZE) / PAGE_SIZE)
          with (virt / PAGE_SIZE + Z.of_nat k) by (unfold PAGE_SIZE; zlia). cmp_cases.
  - destruct (k =? n)%nat; auto.
  - intros w Hw. rewrite (virt_to_phys_pte st' R), (virt_to_phys_pte st R) by done.
    rewrite (u_pte _ _ _ _ _ _ _ U w Hw). unfold protect_fun. case_test; [|done].
    bool_to_prop. rewrite <- Hpage by done. f_equal. unfold translate.
    by rewrite pte_value_present, pte_value_addr, Hpres by (done || apply Hfl || lia).
  - intros Hres w Hw Hin. destruct (Nat.eqb_spec k n) as [->|Hne]; [|done].
    rewrite (flags_pte st' R), (u_pte _ _ _ _ _ _ _ U w Hw) by done. unfold protect_fun.
    rewrite Hn. unfold in_pages in Hin.
    replace (virt / PAGE_SIZE + _) with ((virt + size + 4095) / PAGE_SIZE) by lia. rewrite Hin.
    by rewrite pte_value_present, flags_of_pte by (done || apply Hfl).
Qed.

(** C7: [vmm_create_user_pml4] returns a fresh root, or panics when no page is
    free.  The new address space shares the kernel's translations, has an
    empty user half, joins the forest, and no existing address space changes:
    later mappings in the user half of one root are invisible in the others. *)
Theorem vmm_create_user_pml4_correct st R kp :
  forest_wf (m_pages st) (m_mem st) R -> R kp -> mem_ok (m_mem st) ->
  match vmm_create_user_pml4 kp st with
  | Panic _ => out_of_pages 1 (m_pages st)
  | Ok (root, st') =>
      ~ pa_live (m_pages st) (root / PAGE_SIZE) /\
      forest_wf (m_pages st') (m_mem st') (fun x => R x \/ x = root) /\
      (forall w, USER_BASE <= w < USER_LIMIT -> vmm_virt_to_phys_in root w st' = Ok 0) /\
      (forall w, canonical w -> ~ (USER_BASE <= w < USER_LIMIT) ->
         vmm_virt_to_phys_in root w st' = vmm_virt_to_phys_in kp w st) /\
      (forall r w, R r -> vmm_virt_to_phys_in r w st' = vmm_virt_to_phys_in r w st)
  end.
Proof.
  intros Hf Hk Hok. unfold vmm_create_user_pml4, new_table.
  destruct (pa_alloc_pages 1 _ _) as [[c s1] m1] eqn:Ea.
  destruct (Z.eqb_spec c 0) as [->|Hc]; cbn [outcome_bind].
  { exact (no_run_failed 1 _ _ _ _ (fw_pages _ _ _ Hf) ltac:(lia) Ea). }
  apply pa_alloc_ok in Ea as Hpost; [|apply Hf|lia|done].
  unfold with_machine_mem. cbn [m_mem m_pages].
  pose proof (root_forest _ _ _ _ R kp c Hf Hk Hok Hpost) as Hf'.
  set (st' := mk_machine s1 _).
  assert (forall w, canonical w -> (1 <=? index_of 39 w) && (index_of 39 w <? 256) =
            (USER_BASE <=? w) && (w <? USER_LIMIT)) as Hslot.
  { intros w Hw. rewrite index_of_div by lia. unfold canonical, USER_BASE, USER_LIMIT in *.
    change (2 ^ 39) with 549755813888.
    assert (w / 549755813888 mod 512 = w / 549755813888) as -> by zlia.
    cmp_cases; zlia. }
  split_and!; [|done|..].
  - apply (ap_fresh _ _ _ _ _ _ Hpost). lia.
  - intros w Hw. rewrite (virt_to_phys_pte st' _ c w Hf') by (by right).
    cbn [st' m_mem]. rewrite (root_pte_new _ _ _ _ R kp c Hf Hk Hok Hpost), Hslot
      by (unfold canonical, USER_BASE, USER_LIMIT in *; lia).
    rewrite (proj2 (andb_true_iff _ _)); [done|]. split; bool_to_prop; lia.
  - intros w Hw Hu. rewrite (virt_to_phys_pte st' _ c w Hf'), (virt_to_phys_pte st R) by (done || by right).
    cbn [st' m_mem]. rewrite (root_pte_new _ _ _ _ R kp c Hf Hk Hok Hpost), Hslot by done.
    rewrite (proj2 (andb_false_iff _ _)); [done|].
    destruct (Z.leb_spec USER_BASE w); [right; bool_to_prop; lia|by left].
  - intros r w Hr. rewrite (virt_to_phys_pte st' _ r w Hf'), (virt_to_phys_pte st R) by (done || by left).
    cbn [st' m_mem]. by rewrite (root_pte_old _ _ _ _ R kp c Hf Hk Hok Hpost).
Qed.

(** The framebuffer's extent. *)
Definition fb_bytes (fb : OreFramebuffer) : Z := fb_pixels_per_scanline fb *u fb_height fb *u 4.

(** The tables that [vmm_init] needs: the root, and those of memory, of the framebuffer
    and of the interrupt controllers. *)
Definition init_tables (bi : BootInfo) (lapic top : Z) : nat :=
  1 + range_tables 0 (top * PAGE_SIZE) + range_tables (fb_base (bi_framebuffer bi)) (fb_bytes (bi_framebuffer bi)) +
  range_tables lapic PAGE_SIZE.

(** The root that [vmm_init] builds. *)
Lemma vmm_init_spec bi lapic st :
  pa_wf (m_pages st) -> pa_top (m_pages st) <= 68719476736 ->
  vrange_ok (fb_base (bi_framebuffer bi)) (fb_bytes (bi_framebuffer bi)) ->
  vrange_ok lapic PAGE_SIZE ->
  match vmm_init bi lapic st with
  | Panic _ => out_of_pages (init_tables bi lapic (pa_top (m_pages st))) (m_pages st)
  | Ok (root, st') => booting st root (pa_top (m_pages st) * PAGE_SIZE) st' /\
      takes (init_tables bi lapic (pa_top (m_pages st))) (m_pages st) (m_pages st')
  end.
Proof.
  intros Hwf Htop Hfb Hla. pose proof (pa_top_bound _ Hwf). unfold vmm_init.
  destruct (new_table st) as [[root st1]|msg] eqn:En; cbn [outcome_bind]; cycle 1.
  { unfold new_table in En. destruct (pa_alloc_pages 1 _ _) as [[c s1] m1] eqn:Ea.
    destruct (Z.eqb_spec c 0) as [->|]; [|done]. apply (no_run_mono 1 1 1); [done|unfold init_tables; lia|exact (no_run_failed 1 _ _ _ _ Hwf ltac:(lia) Ea)]. }
  destruct (new_table_built st root st1 Hwf En) as [Hb1 T1]. rewrite (bu_top _ _ _ Hb1).
  set (limit := pa_top (m_pages st) * PAGE_SIZE).
  assert (0 <= limit <= 281474976710656) as Hlim by (subst limit; unfold PAGE_SIZE; lia).
  rewrite (u64_small limit) by (unfold word64; lia).
  assert (flags_ok VMM_WRITE /\ flags_ok (Z.lor VMM_WRITE VMM_NX)) as [Hw1 Hw2] by done.
  pose proof (map_identity_step 1 st st1 root limit 0 limit VMM_WRITE "VMM: identity map failed"
    Hb1 T1 Hw1 ltac:(by unfold vrange_ok) Hlim (or_intror (conj eq_refl eq_refl))) as M1.
  destruct (map_identity _ _ _ _ _ st1) as [st2|msg]; cbn [outcome_bind]; [|eapply no_run_mono; [| |exact M1]; unfold init_tables; fold limit; lia].
  destruct M1 as [M1 T2]. match goal with |- context [outcome_bind (if ?b then ?x else _)] =>
    pose proof (map_identity_opt _ st st2 root limit _ _ _ "VMM: framebuffer map failed" b M1 T2 Hw2 Hfb Hlim) as M2
  end.
  fold (fb_bytes (bi_framebuffer bi)).
  destruct (if negb _ && _ && _ then _ else _) as [st3|msg]; cbn [outcome_bind]; [|eapply no_run_mono; [| |exact M2]; unfold init_tables; fold limit; lia].
  destruct M2 as [M2 T3]. pose proof (map_identity_opt _ st st3 root limit _ _ _ "VMM: LAPIC map failed" (negb (lapic =? 0))
    M2 T3 Hw2 Hla Hlim) as M3.
  destruct (if negb (lapic =? 0) then _ else _) as [st4|msg]; cbn [outcome_bind]; [|done].
  exact M3.
Qed.

(** [vmm_init] either panics because no page is left for tables, or builds a
    kernel root under which every byte of managed physical memory is mapped to
    itself: the kernel may keep using physical addresses as pointers after the
    switch of cr3, whatever the framebuffer and the local APIC overlap.  The tables
    are made of pages that were free, and no byte of a page in use changes. *)
Theorem vmm_init_identity bi lapic st :
  pa_wf (m_pages st) -> pa_top (m_pages st) <= 68719476736 ->
  vrange_ok (fb_base (bi_framebuffer bi)) (fb_bytes (bi_framebuffer bi)) ->
  vrange_ok lapic PAGE_SIZE ->
  match vmm_init bi lapic st with
  | Panic _ => out_of_pages (init_tables bi lapic (pa_top (m_pages st))) (m_pages st)
  | Ok (root, st') => forest_wf (m_pages st') (m_mem st') (eq root) /\
      (forall w, 0 <= w < pa_top (m_pages st) * PAGE_SIZE -> vmm_virt_to_phys_in root w st' = Ok w) /\
      (forall x, pa_live (m_pages st) (x / PAGE_SIZE) ->
         pa_live (m_pages st') (x / PAGE_SIZE) /\ load8 (m_mem st') x = load8 (m_mem st) x)
  end.
Proof.
  intros Hwf Htop Hfb Hla. pose proof (pa_top_bound _ Hwf). pose proof (vmm_init_spec bi lapic st Hwf Htop Hfb Hla) as Hi.
  destruct (vmm_init bi lapic st) as [[root st']|msg]; [|done]. destruct Hi as [[Hb Hid] _]. split; [apply Hb|]. split.
  - intros w Hw. apply (identity_translate st' root _ w (bu_forest _ _ _ Hb) Hid Hw). unfold PAGE_SIZE. lia.
  - intros x Hx. split; [by apply Hb|by apply Hb].
Qed.
End Forest.

(** ** Example: a root over the physical page allocator *)

Definition vmm_st0 : machine pmm_state := mk_machine demo_pmm ∅.
Definition vmm_root : Z := 0x105000.
Definition vmm_st1 : machine pmm_state :=
  match new_table vmm_st0 with Ok (_, st) => st | Panic _ => vmm_st0 end.

Definition is_ok {A} (o : outcome A) : bool := match o with Ok _ => true | Panic _ => false end.

Lemma vmm_st0_wf : pa_wf (m_pages vmm_st0).
Proof. exact demo_pmm_wf. Qed.

Lemma vmm_st1_eq : new_table vmm_st0 = Ok (vmm_root, vmm_st1).
Proof.
  unfold vmm_st1.
  assert (match new_table vmm_st0 with Ok (a, _) => a =? vmm_root | Panic _ => false end = true)
    as E by (vm_compute; reflexivity).
  revert E. generalize (new_table vmm_st0). intros [[a st]|msg] E; [|discriminate E].
  apply Z.eqb_eq in E. by rewrite E.
Qed.

Lemma vmm_st1_forest : forest_wf (m_pages vmm_st1) (m_mem vmm_st1) (eq vmm_root).
Proof. apply (new_table_forest vmm_st0 vmm_root vmm_st1 vmm_st0_wf vmm_st1_eq). Qed.

Lemma vmm_st1_mem_ok : mem_ok (m_mem vmm_st1).
Proof.
  apply (new_table_mem_ok vmm_st0 vmm_root vmm_st1 vmm_st0_wf); [|exact vmm_st1_eq].
  intros a. unfold byte_ok, load8. cbn [vmm_st0 m_mem]. rewrite lookup_empty. cbn. lia.
Qed.

Lemma vmm_demo_range : vrange_ok USER_BASE PAGE_SIZE.
Proof. unfold vrange_ok, USER_BASE, PAGE_SIZE. lia. Qed.

Lemma vmm_demo_flags : flags_ok (Z.lor VMM_USER VMM_WRITE).
Proof. split; [split; [discriminate|reflexivity]|reflexivity]. Qed.

Lemma vmm_demo_map_ok :
  is_ok (vmm_map_in vmm_root USER_BASE 0x200000 PAGE_SIZE (Z.lor VMM_USER VMM_WRITE) vmm_st1) = true.
Proof. vm_compute. reflexivity. Qed.

Lemma vmm_map_correct_witness : exists st',
  vmm_map_in vmm_root USER_BASE 0x200000 PAGE_SIZE (Z.lor VMM_USER VMM_WRITE) vmm_st1 = Ok (0, st') /\
  vmm_virt_to_phys_in vmm_root (USER_BASE + 5) st' = Ok 0x200005.
Proof.
  pose proof (vmm_map_correct vmm_st1 (eq vmm_root) vmm_root USER_BASE 0x200000 PAGE_SIZE
    (Z.lor VMM_USER VMM_WRITE) vmm_st1_forest eq_refl vmm_demo_flags vmm_demo_range
    ltac:(lia) ltac:(unfold PAGE_SIZE; lia)) as Hm.
  pose proof vmm_demo_map_ok as Hok.
  destruct (vmm_map_in _ _ _ _ _ _) as [[res st']|msg]; [|discriminate Hok].
  destruct Hm as (-> & _ & Hin & _). exists st'. split; [reflexivity|].
  apply (Hin (USER_BASE + 5)); [unfold canonical, USER_BASE; lia|reflexivity].
Defined.

Lemma vmm_unmap_correct_witness : exists st',
  vmm_unmap_in vmm_root USER_BASE PAGE_SIZE vmm_st1 = Ok st' /\
  vmm_virt_to_phys_in vmm_root USER_BASE st' = Ok 0.
Proof.
  destruct (vmm_unmap_correct vmm_st1 (eq vmm_root) vmm_root USER_BASE PAGE_SIZE
    vmm_st1_forest eq_refl vmm_demo_range) as (st' & E & _ & _ & Ht & _).
  exists st'. split; [exact E|]. rewrite Ht by (unfold canonical, USER_BASE; lia). reflexivity.
Defined.

Lemma vmm_protect_correct_witness : exists res st',
  vmm_protect_in vmm_root USER_BASE PAGE_SIZE (Z.lor VMM_USER VMM_WRITE) vmm_st1 = Ok (res, st') /\
  (res = 0 \/ res = -1).
Proof.
  destruct (vmm_protect_correct vmm_st1 (eq vmm_root) vmm_root USER_BASE PAGE_SIZE
    (Z.lor VMM_USER VMM_WRITE) vmm_st1_forest vmm_st1_mem_ok eq_refl vmm_demo_flags vmm_demo_range)
    as (res & st' & E & _ & _ & _ & Hr & _).
  exists res, st'. split; [exact E|exact Hr].
Defined.

Lemma vmm_demo_user_ok : is_ok (vmm_create_user_pml4 vmm_root vmm_st1) = true.
Proof. vm_compute. reflexivity. Qed.

Lemma vmm_create_user_pml4_correct_witness : exists root st',
  vmm_create_user_pml4 vmm_root vmm_st1 = Ok (root, st') /\
  vmm_virt_to_phys_in root USER_BASE st' = Ok 0.
Proof.
  pose proof (vmm_create_user_pml4_correct vmm_st1 (eq vmm_root) vmm_root
    vmm_st1_forest eq_refl vmm_st1_mem_ok) as Hm.
  pose proof vmm_demo_user_ok as Hok.
  destruct (vmm_create_user_pml4 _ _) as [[root st']|msg]; [|discriminate Hok].
  destruct Hm as (_ & _ & Hu & _). exists root, st'. split; [reflexivity|].
  apply Hu. unfold USER_BASE, USER_LIMIT. lia.
Defined.

Lemma vmm_demo_init_ok : is_ok (vmm_init demo_boot 0xfee00000 vmm_st0) = true.
Proof. vm_compute. reflexivity. Qed.

Lemma vmm_demo_fb :
  vrange_ok (fb_base (bi_framebuffer demo_boot)) (fb_bytes (bi_framebuffer demo_boot)).
Proof. split; [|split]; discriminate. Qed.

Lemma vmm_init_identity_witness : exists root st',
  vmm_init demo_boot 0xfee00000 vmm_st0 = Ok (root, st') /\
  vmm_virt_to_phys_in root 0x123456 st' = Ok 0x123456.
Proof.
  assert (pa_top (m_pages vmm_st0) = 320) as Htop by (vm_compute; reflexivity).
  pose proof (vmm_init_identity demo_boot 0xfee00000 vmm_st0 vmm_st0_wf
    ltac:(rewrite Htop; lia) vmm_demo_fb
    ltac:(unfold vrange_ok, PAGE_SIZE; lia)) as Hm.
  pose proof vmm_demo_init_ok as Hok.
  destruct (vmm_init _ _ _) as [[root st']|msg]; [|discriminate Hok].
  destruct Hm as (_ & Hid & _). exists root, st'. split; [reflexivity|]. apply Hid.
  rewrite Htop. unfold PAGE_SIZE. lia.
Defined.
