(* ===== verification/Scheduler.v ===== *)
(** The thread scheduler (kernel/scheduler.c).

    Threads live in a table and are linked through their [next] field into one
    run queue per CPU; a [Thread *] is the Z index of its table slot, 0 is the
    null pointer.  The definitions follow the pointer code.  The contract is the
    list of threads in each queue ([queues]): a thread is in the queue of its
    CPU exactly when it is runnable.  Every operation preserves it, a tick is
    round robin on the list, a tick never queues a sleeper early, and a queued thread
    runs after as many ticks as it has predecessors. *)
From stdpp Require Import base numbers list gmap option relations strings.
From Stdlib Require Import ZArith Lia.
From S2P Require Import Prelude Memory PageAllocator Pmm.

(** ** Definitions *)

Definition THREAD_STACK_PAGES : Z := 4.
Definition MAX_THREADS : Z := 32.
Definition ORE_MAX_CPUS : Z := 64.

Inductive ThreadState :=
| THREAD_RUNNABLE | THREAD_RUNNING | THREAD_BLOCKED | THREAD_SLEEPING | THREAD_DEAD.

#[export] Instance ThreadState_eq_dec : EqDecision ThreadState.
Proof. solve_decision. Defined.

Record Thread := mk_thread {
  t_id : Z;
  t_state : ThreadState;
  t_cpu_id : Z;
  t_saved_sp : Z;
  t_stack_base : Z;
  t_stack_top : Z;
  t_switches : Z;
  t_entry : Z;
  t_arg : Z;
  t_wake_tick : Z;
  t_next : Z;
}.

#[export] Instance Thread_inhabited : Inhabited Thread :=
  populate (mk_thread 0 THREAD_RUNNABLE 0 0 0 0 0 0 0 0 0).

Record SchedulerCpu := mk_cpu {
  current : Z;
  run_queue : Z;
  switches : Z;
  started : bool;
}.

#[export] Instance SchedulerCpu_inhabited : Inhabited SchedulerCpu :=
  populate (mk_cpu 0 0 0 false).

(** The static state: the threads, [sched], [thread_count].  [&threads[i]] is
    the pointer [i + 1]; [&bootstrap_threads[c]] is [MAX_THREADS + 1 + c]. *)
Record sched_state := mk_sched {
  threads : gmap Z Thread;
  sched : gmap Z SchedulerCpu;
  thread_count : Z;
}.

Definition thread_ptr (i : Z) : Z := i + 1.
Definition bootstrap_ptr (cpu : Z) : Z := MAX_THREADS + 1 + cpu.

Definition thread (s : sched_state) (p : Z) : Thread := threads s !!! p.
Definition cpu (s : sched_state) (c : Z) : SchedulerCpu := sched s !!! c.

Definition set_thread (p : Z) (t : Thread) (s : sched_state) : sched_state :=
  mk_sched (<[p := t]> (threads s)) (sched s) (thread_count s).
Definition set_cpu (c : Z) (k : SchedulerCpu) (s : sched_state) : sched_state :=
  mk_sched (threads s) (<[c := k]> (sched s)) (thread_count s).

Definition with_state (st : ThreadState) (t : Thread) : Thread :=
  mk_thread (t_id t) st (t_cpu_id t) (t_saved_sp t) (t_stack_base t) (t_stack_top t)
    (t_switches t) (t_entry t) (t_arg t) (t_wake_tick t) (t_next t).
Definition with_next (nx : Z) (t : Thread) : Thread :=
  mk_thread (t_id t) (t_state t) (t_cpu_id t) (t_saved_sp t) (t_stack_base t) (t_stack_top t)
    (t_switches t) (t_entry t) (t_arg t) (t_wake_tick t) nx.
Definition with_saved_sp (sp : Z) (t : Thread) : Thread :=
  mk_thread (t_id t) (t_state t) (t_cpu_id t) sp (t_stack_base t) (t_stack_top t)
    (t_switches t) (t_entry t) (t_arg t) (t_wake_tick t) (t_next t).
Definition with_switches (n : Z) (t : Thread) : Thread :=
  mk_thread (t_id t) (t_state t) (t_cpu_id t) (t_saved_sp t) (t_stack_base t) (t_stack_top t)
    n (t_entry t) (t_arg t) (t_wake_tick t) (t_next t).
Definition with_wake_tick (n : Z) (t : Thread) : Thread :=
  mk_thread (t_id t) (t_state t) (t_cpu_id t) (t_saved_sp t) (t_stack_base t) (t_stack_top t)
    (t_switches t) (t_entry t) (t_arg t) n (t_next t).

Definition modify (p : Z) (f : Thread -> Thread) (s : sched_state) : sched_state :=
  set_thread p (f (thread s p)) s.
Definition with_run_queue (q : Z) (k : SchedulerCpu) : SchedulerCpu :=
  mk_cpu (current k) q (switches k) (started k).

(** [while (tail->next) tail = tail->next;] *)
Fixpoint queue_tail (fuel : nat) (s : sched_state) (tail : Z) : option Z :=
  match fuel with
  | O => None
  | S fuel =>
      if t_next (thread s tail) =? 0 then Some tail
      else queue_tail fuel s (t_next (thread s tail))
  end.

Definition enqueue_thread (fuel : nat) (cpu_id p : Z) (s : sched_state) : option sched_state :=
  let s := modify p (with_next 0) s in
  if run_queue (cpu s cpu_id) =? 0
  then Some (set_cpu cpu_id (with_run_queue p (cpu s cpu_id)) s)
  else match queue_tail fuel s (run_queue (cpu s cpu_id)) with
       | None => None
       | Some tail => Some (modify tail (with_next p) s)
       end.

Definition dequeue_thread (cpu_id : Z) (s : sched_state) : Z * sched_state :=
  let p := run_queue (cpu s cpu_id) in
  if p =? 0 then (p, s)
  else (p, modify p (with_next 0)
             (set_cpu cpu_id (with_run_queue (t_next (thread s p)) (cpu s cpu_id)) s)).

(** The loop of [wake_sleepers] over the remaining [n] table slots from [i]. *)
Fixpoint wake_loop (n : nat) (i : Z) (fuel : nat) (cpu_id now : Z) (s : sched_state)
  : option sched_state :=
  match n with
  | O => Some s
  | S n =>
      let p := thread_ptr i in
      let t := thread s p in
      if (t_cpu_id t =? cpu_id) && bool_decide (t_state t = THREAD_SLEEPING)
           && (t_wake_tick t <=? now)
      then match enqueue_thread fuel cpu_id p (modify p (with_state THREAD_RUNNABLE) s) with
           | None => None
           | Some s => wake_loop n (i + 1) fuel cpu_id now s
           end
      else wake_loop n (i + 1) fuel cpu_id now s
  end.

(** [wake_sleepers]; [now] is [timer_ticks(cpu_id)]. *)
Definition wake_sleepers (fuel : nat) (cpu_id now : Z) (s : sched_state) : option sched_state :=
  wake_loop (Z.to_nat (thread_count s)) 0 fuel cpu_id now s.

Definition scheduler_init (s : sched_state) : sched_state :=
  mk_sched (threads s)
    (for_loop (Z.to_nat ORE_MAX_CPUS) 0 (fun i m => <[i := mk_cpu 0 0 0 false]> m) (sched s)) 0.

(** The words pushed by [build_initial_stack], the first one highest. *)
Definition initial_frame (entry_asm p stack_top : Z) : list Z :=
  [0x10; stack_top -u 8; 0x202; 0x08; entry_asm; 0; 32;
   0; 0; 0; 0; 0; 0; p; 0; 0; 0; 0; 0; 0; 0; 0].

Fixpoint push_words (ws : list Z) (sp : Z) (m : mem) : Z * mem :=
  match ws with
  | [] => (sp, m)
  | w :: ws => push_words ws (sp - 8) (store64 m (sp - 8) w)
  end.

Definition build_initial_stack (entry_asm p stack_top : Z) (m : mem) : Z * mem :=
  push_words (initial_frame entry_asm p stack_top) stack_top m.

Section Create.
Context {S : Type} `{PageAllocator S}.

(** [thread_create]; [entry_asm] is the address of [thread_entry_asm].  The
    result is the thread id or -1. *)
Definition thread_create (fuel : nat) (entry_asm fn arg cpu_id : Z)
    (s : sched_state) (pg : S) (m : mem) : option (Z * sched_state * S * mem) :=
  if (fn =? 0) || (ORE_MAX_CPUS <=? cpu_id) then Some (-1, s, pg, m) else
  if MAX_THREADS <=? thread_count s then Some (-1, s, pg, m) else
  let p := thread_ptr (thread_count s) in
  let '(stack, pg, m) := pa_alloc_pages THREAD_STACK_PAGES pg m in
  if stack =? 0 then Some (-1, s, pg, m) else
  let top := stack +u THREAD_STACK_PAGES *u 4096 in
  let '(sp, m) := build_initial_stack entry_asm p top m in
  let t := mk_thread (thread_count s + 1) THREAD_RUNNABLE cpu_id sp stack top 0 fn arg 0
             (t_next (thread s p)) in
  let s := mk_sched (<[p := t]> (threads s)) (sched s) (thread_count s + 1) in
  match enqueue_thread fuel cpu_id p s with
  | None => None
  | Some s => Some (thread_count s, s, pg, m)
  end.
End Create.

Definition scheduler_start_current_cpu (c : Z) (s : sched_state) : sched_state :=
  let b := bootstrap_ptr c in
  let t := thread s b in
  let t := mk_thread 0 THREAD_RUNNING c (t_saved_sp t) (t_stack_base t) (t_stack_top t)
             (t_switches t) (t_entry t) (t_arg t) (t_wake_tick t) (t_next t) in
  let k := cpu s c in
  set_cpu c (mk_cpu b (run_queue k) (switches k) (c =? 0)) (set_thread b t s).

(** [scheduler_tick]: the stack pointer to switch to, 0 for none. *)
Definition scheduler_tick (fuel : nat) (cpu_id now interrupted_sp : Z) (s : sched_state)
  : option (Z * sched_state) :=
  if negb (cpu_id =? 0) || negb (started (cpu s cpu_id)) then Some (0, s) else
  match wake_sleepers fuel cpu_id now s with
  | None => None
  | Some s =>
      let cur := current (cpu s cpu_id) in
      let '(next, s) := dequeue_thread cpu_id s in
      if next =? 0 then Some (0, s) else
      let saved :=
        if negb (cur =? 0) && bool_decide (t_state (thread s cur) = THREAD_RUNNING)
             && negb (t_id (thread s cur) =? 0)
        then enqueue_thread fuel cpu_id cur
               (modify cur (fun t => with_state THREAD_RUNNABLE (with_saved_sp interrupted_sp t)) s)
        else if negb (cur =? 0) && negb (t_id (thread s cur) =? 0)
        then Some (modify cur (with_saved_sp interrupted_sp) s)
        else Some s in
      match saved with
      | None => None
      | Some s =>
          let s := modify next (with_state THREAD_RUNNING) s in
          let k := cpu s cpu_id in
          let s := set_cpu cpu_id (mk_cpu next (run_queue k) (switches k +u 1) (started k)) s in
          let s := modify next (fun t => with_switches (t_switches t +u 1) t) s in
          Some (t_saved_sp (thread s next), s)
      end
  end.

Definition scheduler_switch_count (s : sched_state) : Z := switches (cpu s 0).

(** [thread_sleep] up to the yield, on CPU [c] at time [now]. *)
Definition thread_sleep (c now ticks : Z) (s : sched_state) : sched_state :=
  let cur := current (cpu s c) in
  if negb (c =? 0) || (cur =? 0) || (t_id (thread s cur) =? 0) then s
  else modify cur (fun t => with_state THREAD_SLEEPING (with_wake_tick (now +u ticks) t)) s.

(** [thread_block] up to the yield; the wait queue is its head pointer. *)
Definition thread_block (c queue_head : Z) (s : sched_state) : Z * sched_state :=
  let cur := current (cpu s c) in
  if (cur =? 0) || (t_id (thread s cur) =? 0) then (queue_head, s)
  else (cur, modify cur (fun t => with_next queue_head (with_state THREAD_BLOCKED t)) s).

Definition thread_unblock (fuel : nat) (p : Z) (s : sched_state) : option sched_state :=
  if (p =? 0) || bool_decide (t_state (thread s p) = THREAD_RUNNABLE)
       || bool_decide (t_state (thread s p) = THREAD_RUNNING)
  then Some s
  else enqueue_thread fuel (t_cpu_id (thread s p)) p (modify p (with_state THREAD_RUNNABLE) s).

(** The end of [thread_bootstrap]: the thread is dead before it yields. *)
Definition thread_exit (c : Z) (s : sched_state) : sched_state :=
  modify (current (cpu s c)) (with_state THREAD_DEAD) s.

Definition wait_queue_init (queue_head : Z) : Z := 0.

(** *** The self test *)

(** [scheduler_self_test_start]: a thread on CPU 0 that sleeps for two ticks. *)
Definition scheduler_self_test_start {S} `{PageAllocator S} (fuel : nat) (entry_asm test_thread : Z)
    (s : sched_state) (pg : S) (m : mem) : eff (sched_state * S * mem) :=
  match thread_create fuel entry_asm test_thread 0 0 s pg m with
  | None => None
  | Some (r, s, pg, m) => if r <? 0 then Some (Panic "scheduler: self-test thread create failed") else ret (s, pg, m)
  end.

(** The check of [scheduler_sleep_test_thread] after its sleep. *)
Definition sleep_test_check (before after : Z) : outcome unit :=
  if after <? before +u 2 then Panic "scheduler: sleep self-test woke too early" else Ok tt.

(** ** State accessors *)

Create HintDb sched.
Create Rewrite HintDb sched.

Lemma thread_set p t s q : thread (set_thread p t s) q = if q =? p then t else thread s q.
Proof.
  unfold thread, set_thread. cbn [threads]. destruct (Z.eqb_spec q p) as [->|Hne].
  - apply lookup_total_insert_eq.
  - by apply lookup_total_insert_ne.
Qed.
Lemma thread_modify p f s q :
  thread (modify p f s) q = if q =? p then f (thread s p) else thread s q.
Proof. apply thread_set. Qed.
Lemma cpu_modify p f s c : cpu (modify p f s) c = cpu s c.
Proof. done. Qed.
Lemma count_modify p f s : thread_count (modify p f s) = thread_count s.
Proof. done. Qed.
Lemma thread_set_cpu c k s q : thread (set_cpu c k s) q = thread s q.
Proof. done. Qed.
Lemma count_set_cpu c k s : thread_count (set_cpu c k s) = thread_count s.
Proof. done. Qed.
Lemma cpu_set_cpu c k s c' : cpu (set_cpu c k s) c' = if c' =? c then k else cpu s c'.
Proof.
  unfold cpu, set_cpu. cbn [sched]. destruct (Z.eqb_spec c' c) as [->|Hne].
  - apply lookup_total_insert_eq.
  - by apply lookup_total_insert_ne.
Qed.

#[export] Hint Rewrite thread_modify cpu_modify count_modify thread_set_cpu count_set_cpu
  cpu_set_cpu : sched.

(** ** Queues as lists *)

Fixpoint chain (s : sched_state) (p : Z) (l : list Z) : Prop :=
  match l with
  | [] => p = 0
  | q :: l' => p = q /\ q <> 0 /\ chain s (t_next (thread s q)) l'
  end.

(** A slot of the table that [thread_create] has filled. *)
Definition valid (s : sched_state) (p : Z) : Prop := 1 <= p <= thread_count s.

(** The queue of each CPU is the list of its runnable threads, except for
    those of [X], which are being moved. *)
Record queues_ex (s : sched_state) (Q : Z -> list Z) (X : list Z) : Prop := {
  q_chain : forall c, chain s (run_queue (cpu s c)) (Q c);
  q_nodup : forall c, NoDup (Q c);
  q_iff : forall c p, p ∈ Q c <->
    valid s p /\ t_cpu_id (thread s p) = c /\ t_state (thread s p) = THREAD_RUNNABLE /\ p ∉ X;
  q_count : 0 <= thread_count s <= MAX_THREADS;
  q_id : forall p, valid s p -> t_id (thread s p) = p;
  q_current : forall c, 0 <= c -> let p := current (cpu s c) in p <> 0 ->
    (valid s p /\ t_cpu_id (thread s p) = c) \/ (p = bootstrap_ptr c /\ t_id (thread s p) = 0);
}.

Definition queues (s : sched_state) (Q : Z -> list Z) : Prop := queues_ex s Q [].

Definition upd (Q : Z -> list Z) (c : Z) (l : list Z) (c' : Z) : list Z :=
  if c' =? c then l else Q c'.

Lemma chain_frame s s' p l :
  (forall q, q ∈ l -> t_next (thread s' q) = t_next (thread s q)) -> chain s p l -> chain s' p l.
Proof.
  revert p. induction l as [|q l IH]; intros p Hf; cbn [chain]; [done|].
  intros (-> & Hq & Hc). split_and!; auto. rewrite Hf by (by left).
  apply IH; [|done]. intros r Hr. apply Hf. by right.
Qed.

Lemma chain_nonzero s p l q : chain s p l -> q ∈ l -> q <> 0.
Proof.
  revert p. induction l as [|r l IH]; intros p Hc Hq; [by apply not_elem_of_nil in Hq|].
  destruct Hc as (-> & Hr & Hc). apply elem_of_cons in Hq as [->|Hq]; [done|]. by apply (IH _ Hc).
Qed.

(** Members of different queues differ. *)
Lemma queues_disjoint s Q X c c' p : queues_ex s Q X -> p ∈ Q c -> p ∈ Q c' -> c = c'.
Proof. intros Hq. rewrite !(q_iff _ _ _ Hq). intros (_ & <- & _) (_ & <- & _). done. Qed.

Lemma queue_length s Q X c : queues_ex s Q X -> (length (Q c) <= 32)%nat.
Proof.
  intros Hq. transitivity (length (seqZ 1 32)); [|by rewrite length_seqZ].
  apply submseteq_length, NoDup_submseteq; [apply Hq|].
  intros p Hp. apply elem_of_seqZ. apply (q_iff _ _ _ Hq) in Hp as [[H1 H2] _].
  pose proof (q_count _ _ _ Hq). unfold MAX_THREADS in *. lia.
Qed.

(** A change of one thread that is in no queue. *)
Lemma queues_modify s Q X X' p f :
  queues_ex s Q X -> (forall c, p ∉ Q c) ->
  t_id (f (thread s p)) = t_id (thread s p) ->
  t_cpu_id (f (thread s p)) = t_cpu_id (thread s p) ->
  (t_state (f (thread s p)) = THREAD_RUNNABLE -> p ∈ X') ->
  (forall q, q <> p -> q ∈ X <-> q ∈ X') ->
  queues_ex (modify p f s) Q X'.
Proof.
  intros Hq Hp Hid Hcpu Hst HX. split.
  - intros c. rewrite cpu_modify. eapply chain_frame; [|apply Hq]. intros q Hqc.
    rewrite thread_modify. destruct (Z.eqb_spec q p) as [->|]; [|done]. by destruct (Hp c).
  - apply Hq.
  - intros c q. rewrite (q_iff _ _ _ Hq), thread_modify. unfold valid. rewrite count_modify.
    destruct (Z.eqb_spec q p) as [->|Hne].
    + rewrite Hcpu. split.
      * intros Hin. destruct (Hp c). by apply Hq.
      * intros (_ & _ & Hs & Hn). by destruct Hn; apply Hst.
    + rewrite (HX q Hne). done.
  - apply Hq.
  - intros q Hv. rewrite thread_modify. destruct (Z.eqb_spec q p) as [->|].
    + rewrite Hid. by apply Hq.
    + by apply Hq.
  - intros c. cbn zeta. rewrite cpu_modify, thread_modify. unfold valid. rewrite count_modify.
    destruct (Z.eqb_spec (current (cpu s c)) p) as [E|Hne]; [|apply (q_current _ _ _ Hq c)].
    rewrite Hid, Hcpu, <- E. apply (q_current _ _ _ Hq c).
Qed.

(** A change that keeps the identity, the state and the link. *)
Lemma queues_keep s Q X p f :
  queues_ex s Q X ->
  (forall t, t_id (f t) = t_id t /\ t_cpu_id (f t) = t_cpu_id t /\ t_state (f t) = t_state t /\
             t_next (f t) = t_next t) ->
  queues_ex (modify p f s) Q X.
Proof.
  intros [C N I K D U] Hf.
  assert (forall q, t_id (thread (modify p f s) q) = t_id (thread s q) /\
    t_cpu_id (thread (modify p f s) q) = t_cpu_id (thread s q) /\
    t_state (thread (modify p f s) q) = t_state (thread s q) /\
    t_next (thread (modify p f s) q) = t_next (thread s q)) as Hk.
  { intros q. rewrite thread_modify. destruct (Z.eqb_spec q p) as [->|]; [apply Hf|done]. }
  split; auto.
  - intros c. eapply chain_frame; [|apply C]. intros q _. apply Hk.
  - intros c q. destruct (Hk q) as (_ & -> & -> & _). apply I.
  - intros q Hv. destruct (Hk q) as (-> & _). by apply D.
  - intros c. cbn zeta. rewrite cpu_modify. destruct (Hk (current (cpu s c))) as (-> & -> & _).
    apply (U c).
Qed.

(** Switching the current thread of a CPU. *)
Lemma queues_switch s Q c p sw st :
  queues_ex s Q [] -> valid s p -> t_cpu_id (thread s p) = c ->
  queues_ex (set_cpu c (mk_cpu p (run_queue (cpu s c)) sw st) s) Q [].
Proof.
  intros [C N I K D U] Hv Hc. split; auto.
  - intros c'. rewrite cpu_set_cpu. destruct (Z.eqb_spec c' c) as [->|];
      (eapply chain_frame; [|apply C]); done.
  - intros c'. cbn zeta. rewrite cpu_set_cpu. destruct (Z.eqb_spec c' c) as [->|]; [|apply (U c')].
    cbn [current]. rewrite thread_set_cpu. intros _ _. left. split; [exact Hv|done].
Qed.

(** ** Enqueue and dequeue *)

Lemma queue_tail_spec fuel s l t :
  chain s (hd 0 (l ++ [t])) (l ++ [t]) -> (length l < fuel)%nat ->
  queue_tail fuel s (hd 0 (l ++ [t])) = Some t.
Proof.
  revert fuel. induction l as [|q l IH]; intros [|fuel] Hc Hf; cbn in Hf; try lia;
    cbn [app hd queue_tail] in *; destruct Hc as (_ & Hnz & Hc).
  - cbn [chain] in Hc. by rewrite Hc.
  - assert (t_next (thread s q) = hd 0 (l ++ [t])) as Hn
      by (destruct l; cbn [app hd chain] in *; by destruct Hc as [-> _]).
    rewrite Hn in *. rewrite (proj2 (Z.eqb_neq _ _)).
    + apply IH; [done|lia].
    + destruct l; cbn [app hd chain] in *; tauto.
Qed.

Lemma chain_hd s p l : chain s p l -> p = hd 0 l.
Proof. destruct l; cbn; [done|tauto]. Qed.

Lemma chain_snoc s p l t q :
  chain s p (l ++ [t]) -> t ∉ l -> q <> 0 -> q ∉ l -> q <> t ->
  t_next (thread s q) = 0 -> chain (modify t (with_next q) s) p (l ++ [t; q]).
Proof.
  intros Hc Ht Hq Hql Hqt Hn. revert p Hc. induction l as [|r l IH]; intros p Hc; cbn [app chain] in *.
  - destruct Hc as (-> & Hnz & _).
    rewrite !thread_modify, Z.eqb_refl, (proj2 (Z.eqb_neq q t)) by done. by split_and!.
  - apply not_elem_of_cons in Ht as [Htr Ht], Hql as [Hqr Hql]. destruct Hc as (-> & Hnz & Hc).
    split_and!; auto. rewrite thread_modify, (proj2 (Z.eqb_neq r t)) by done. auto.
Qed.

(** The threads are the same except for their links. *)
Definition same_but_next (s s' : sched_state) : Prop :=
  forall q, thread s' q = with_next (t_next (thread s' q)) (thread s q).

Definition same_cpus (s s' : sched_state) : Prop :=
  forall c, current (cpu s' c) = current (cpu s c) /\ switches (cpu s' c) = switches (cpu s c) /\
            started (cpu s' c) = started (cpu s c).

Lemma upd_elem Q c l c' q :
  q ∈ upd Q c l c' <-> (c' = c /\ q ∈ l) \/ (c' <> c /\ q ∈ Q c').
Proof. unfold upd. destruct (Z.eqb_spec c' c) as [->|Hne]; intuition. Qed.

(** The list grows by the moved thread. *)
Lemma queues_add s s' Q X c p :
  queues_ex s Q (p :: X) -> p ∉ X -> valid s p -> t_cpu_id (thread s p) = c ->
  t_state (thread s p) = THREAD_RUNNABLE ->
  (forall c', chain s' (run_queue (cpu s' c')) (upd Q c (Q c ++ [p]) c')) ->
  same_but_next s s' -> same_cpus s s' -> thread_count s' = thread_count s ->
  queues_ex s' (upd Q c (Q c ++ [p])) X.
Proof.
  intros Hq HpX Hv Hc Hst Hch Hsame Hcur Hcnt.
  assert (forall c', p ∉ Q c') as Hpn.
  { intros c' (_ & _ & _ & Hx)%(q_iff _ _ _ Hq). apply Hx. by left. }
  split; auto.
  - intros c'. unfold upd. destruct (Z.eqb_spec c' c) as [->|]; [|apply Hq].
    apply NoDup_snoc; [apply Hpn|apply Hq].
  - intros c' q. unfold valid. rewrite Hcnt, (Hsame q). cbn [with_next t_cpu_id t_state].
    rewrite upd_elem, elem_of_app, list_elem_of_singleton, !(q_iff _ _ _ Hq), not_elem_of_cons.
    unfold valid in *. split.
    + intros [[-> [?| ->]]|[Hne ?]]; intuition.
    + intros (H1 & H2 & H3 & H4). destruct (Z.eq_dec q p) as [->|].
      * left. split; [congruence|by right].
      * destruct (Z.eq_dec c' c) as [->|]; [left; split; [done|left]|right]; split_and!; auto; lia.
  - rewrite Hcnt. apply Hq.
  - intros q. unfold valid. rewrite Hcnt, Hsame. apply Hq.
  - intros c'. cbn zeta. destruct (Hcur c') as [-> _]. unfold valid. rewrite Hcnt, Hsame.
    apply (q_current _ _ _ Hq c').
Qed.

Lemma enqueue_queues fuel s Q X c p :
  queues_ex s Q (p :: X) -> p ∉ X -> (32 <= fuel)%nat -> valid s p ->
  t_cpu_id (thread s p) = c -> t_state (thread s p) = THREAD_RUNNABLE ->
  exists s', enqueue_thread fuel c p s = Some s' /\
    queues_ex s' (upd Q c (Q c ++ [p])) X /\ same_but_next s s' /\ same_cpus s s' /\
    thread_count s' = thread_count s.
Proof.
  intros Hq HpX Hf Hv Hc Hst.
  assert (forall c', p ∉ Q c') as Hpn.
  { intros c' (_ & _ & _ & Hx)%(q_iff _ _ _ Hq). apply Hx. by left. }
  assert (p <> 0) as Hp0 by (unfold valid in Hv; lia).
  pose proof (queues_modify s Q (p :: X) (p :: X) p (with_next 0) Hq Hpn eq_refl eq_refl
    ltac:(intros _; by left) ltac:(done)) as Hq1.
  unfold enqueue_thread. set (s1 := modify p (with_next 0) s) in *.
  assert (t_next (thread s1 p) = 0) as Hn0 by (subst s1; by rewrite thread_modify, Z.eqb_refl).
  assert (same_but_next s s1) as Hsame1.
  { intros q. subst s1. rewrite thread_modify.
    destruct (Z.eqb_spec q p) as [->|]; [done|by destruct (thread s q)]. }
  pose proof (q_chain _ _ _ Hq1 c) as Hch. pose proof (chain_hd _ _ _ Hch) as Hhd.
  destruct (exists_last_or_nil (Q c)) as [EQ|(l & t & EQ)]; rewrite EQ in Hch, Hhd.
  - rewrite Hhd. cbn [hd Z.eqb]. eexists. split; [done|]. set (s2 := set_cpu _ _ _).
    assert (same_cpus s s2) as Hcpu.
    { intros c'. subst s2. rewrite cpu_set_cpu. by destruct (Z.eqb_spec c' c) as [->|]. }
    split_and!; [|done..]. apply (queues_add s); auto.
    intros c'. subst s2. rewrite cpu_set_cpu. unfold upd. destruct (Z.eqb_spec c' c) as [->|].
    + rewrite EQ. cbn [app chain with_run_queue run_queue]. by split_and!.
    + eapply chain_frame; [|apply (q_chain _ _ _ Hq1)]. done.
  - pose proof (q_nodup _ _ _ Hq c) as Hnd. rewrite EQ in Hnd.
    apply NoDup_app in Hnd as (Hndl & Hdis & _).
    assert (t ∉ l) as Htl by (intros Ht; apply (Hdis t Ht); by left).
    assert (t ∈ Q c) as HtQ by (rewrite EQ; apply elem_of_app; right; by left).
    assert (t <> 0 /\ t <> p) as [Ht0 Htp].
    { split; [by apply (chain_nonzero _ _ _ t Hch), elem_of_app; right; left|].
      intros ->. by apply (Hpn c). }
    rewrite (proj2 (Z.eqb_neq _ _)).
    2: { rewrite Hhd. destruct l as [|r l]; [done|]. rewrite Hhd in Hch.
         apply (chain_nonzero _ _ _ _ Hch). by left. }
    rewrite Hhd. rewrite queue_tail_spec.
    2: { by rewrite <- Hhd. }
    2: { pose proof (queue_length _ _ _ c Hq) as Hl. rewrite EQ, length_app in Hl. cbn in Hl. lia. }
    eexists. split; [done|]. set (s2 := modify t _ _).
    assert (same_but_next s s2) as Hsame2.
    { intros q. subst s2. rewrite thread_modify. rewrite (Hsame1 q) at 2.
      destruct (Z.eqb_spec q t) as [->|]; by rewrite Hsame1. }
    split_and!; [|done..]. apply (queues_add s); auto; [|done].
    intros c'. unfold upd. subst s2. rewrite cpu_modify. destruct (Z.eqb_spec c' c) as [->|Hne].
    + rewrite EQ, <- app_assoc. cbn [app]. apply chain_snoc; auto.
      intros Hpl. apply (Hpn c). rewrite EQ. apply elem_of_app. by left.
    + eapply chain_frame; [|apply (q_chain _ _ _ Hq1)]. intros q Hqc. rewrite thread_modify.
      destruct (Z.eqb_spec q t) as [->|]; [|done]. destruct Hne. by apply (queues_disjoint s Q (p :: X) c' c t).
Qed.

Lemma same_but_next_trans s1 s2 s3 :
  same_but_next s1 s2 -> same_but_next s2 s3 -> same_but_next s1 s3.
Proof. intros H1 H2 q. rewrite H2, H1. done. Qed.

Lemma same_cpus_trans s1 s2 s3 : same_cpus s1 s2 -> same_cpus s2 s3 -> same_cpus s1 s3.
Proof.
  intros H1 H2 c. destruct (H1 c) as (<- & <- & <-). apply H2.
Qed.

Lemma dequeue_empty s Q X c : queues_ex s Q X -> Q c = [] -> dequeue_thread c s = (0, s).
Proof.
  intros Hq E. unfold dequeue_thread. pose proof (q_chain _ _ _ Hq c) as Hc. rewrite E in Hc.
  cbn [chain] in Hc. by rewrite Hc.
Qed.

Lemma dequeue_queues s Q c p l :
  queues_ex s Q [] -> Q c = p :: l ->
  exists s', dequeue_thread c s = (p, s') /\ queues_ex s' (upd Q c l) [p] /\
    same_but_next s s' /\ same_cpus s s' /\ thread_count s' = thread_count s.
Proof.
  intros Hq E. unfold dequeue_thread. pose proof (q_chain _ _ _ Hq c) as Hch. rewrite E in Hch.
  destruct Hch as (Hp & Hnz & Hch). rewrite Hp, (proj2 (Z.eqb_neq _ _)) by done.
  pose proof (q_nodup _ _ _ Hq c) as Hnd. rewrite E in Hnd. apply NoDup_cons in Hnd as [Hpl Hnd].
  eexists. split; [done|]. set (s' := modify _ _ _).
  assert (same_but_next s s') as Hsame.
  { intros q. subst s'. rewrite thread_modify, !thread_set_cpu.
    destruct (Z.eqb_spec q p) as [->|]; [done|by destruct (thread s q)]. }
  assert (same_cpus s s') as Hcpu.
  { intros c'. subst s'. rewrite cpu_modify, cpu_set_cpu. by destruct (Z.eqb_spec c' c) as [->|]. }
  assert (forall q, q <> p -> t_next (thread s' q) = t_next (thread s q)) as Hnx.
  { intros q Hne. subst s'. rewrite thread_modify, thread_set_cpu.
    by rewrite (proj2 (Z.eqb_neq _ _)). }
  split_and!; [|done..]. split.
  - intros c'. subst s'. rewrite cpu_modify, cpu_set_cpu. unfold upd.
    destruct (Z.eqb_spec c' c) as [->|Hne].
    + cbn [with_run_queue run_queue]. eapply chain_frame; [|exact Hch].
      intros q Hql. apply Hnx. by intros ->.
    + eapply chain_frame; [|apply Hq]. intros q Hqc. apply Hnx. intros ->.
      apply Hne, (queues_disjoint s Q [] c' c p Hq Hqc). rewrite E. by left.
  - intros c'. unfold upd. destruct (Z.eqb_spec c' c) as [->|]; [done|apply Hq].
  - intros c' q. unfold valid. rewrite (Hsame q). cbn [with_next t_cpu_id t_state].
    change (thread_count s') with (thread_count s). fold (valid s q).
    rewrite upd_elem, not_elem_of_cons. pose proof (not_elem_of_nil q).
    pose proof (q_iff _ _ _ Hq c' q) as Hi. split.
    + intros [[-> Hql]|[Hne Hqc]].
      * destruct Hi as [Hi _]. rewrite E in Hi. destruct Hi as (? & ? & ? & _); [by right|].
        split_and!; try done; [apply H1..|]. by intros ->.
      * destruct (proj1 Hi Hqc) as (? & ? & ? & _). split_and!; try done; [apply H0..|].
        intros ->. apply Hne, (queues_disjoint s Q [] c' c p Hq Hqc). rewrite E. by left.
    + intros (Hv & Hc & Hs & Hne & _). destruct (Z.eq_dec c' c) as [->|]; [left|right].
      * split; [done|]. assert (q ∈ Q c) as Hin by (apply Hi; auto). rewrite E in Hin.
        by apply elem_of_cons in Hin as [->|].
      * split; [done|]. apply Hi. auto.
  - apply Hq.
  - intros q Hv. rewrite (Hsame q). apply Hq, Hv.
  - intros c'. cbn zeta. destruct (Hcpu c') as [-> _]. rewrite Hsame. apply (q_current _ _ _ Hq c').
Qed.

(** ** Waking sleepers *)

Definition due (s : sched_state) (c now p : Z) : bool :=
  (t_cpu_id (thread s p) =? c) && bool_decide (t_state (thread s p) = THREAD_SLEEPING)
    && (t_wake_tick (thread s p) <=? now).

Lemma due_true s c now p :
  due s c now p = true <-> t_cpu_id (thread s p) = c /\ t_state (thread s p) = THREAD_SLEEPING /\
                           t_wake_tick (thread s p) <= now.
Proof.
  unfold due. rewrite !andb_true_iff, Z.eqb_eq, Z.leb_le, bool_decide_eq_true. tauto.
Qed.

(** The sleepers among [n] slots from pointer [p] whose time has come. *)
Definition due_list (s : sched_state) (c now p : Z) (n : nat) : list Z :=
  filter (fun q => due s c now q = true) (seqZ p (Z.of_nat n)).

(** [s'] is [s] with the threads of [W] made runnable, up to links. *)
Definition woken (s s' : sched_state) (W : list Z) : Prop :=
  forall q, thread s' q = with_next (t_next (thread s' q))
    (if decide (q ∈ W) then with_state THREAD_RUNNABLE (thread s q) else thread s q).

Lemma due_cong s s' c now q :
  t_cpu_id (thread s' q) = t_cpu_id (thread s q) -> t_state (thread s' q) = t_state (thread s q) ->
  t_wake_tick (thread s' q) = t_wake_tick (thread s q) -> due s' c now q = due s c now q.
Proof. unfold due. by intros -> -> ->. Qed.

Lemma due_list_S s c now p n :
  due_list s c now p (S n) =
  if due s c now p then p :: due_list s c now (p + 1) n else due_list s c now (p + 1) n.
Proof.
  unfold due_list. rewrite seqZ_cons by lia. rewrite filter_cons.
  replace (Z.pred (Z.of_nat (S n))) with (Z.of_nat n) by lia.
  rewrite <- Z.add_1_r. case_decide as E; [by rewrite E|].
  by destruct (due s c now p).
Qed.

Lemma due_list_cong s s' c now p n :
  (forall q, p <= q -> due s' c now q = due s c now q) ->
  due_list s' c now p n = due_list s c now p n.
Proof.
  revert p. induction n as [|n IH]; intros p Hd; [done|].
  rewrite !due_list_S, Hd, IH by (lia || intros; apply Hd; lia). done.
Qed.

Lemma due_list_ge s c now p n q : q ∈ due_list s c now p n -> p <= q.
Proof. unfold due_list. rewrite list_elem_of_filter, elem_of_seqZ. lia. Qed.

Lemma queues_ext s Q Q' X : (forall c, Q c = Q' c) -> queues_ex s Q X -> queues_ex s Q' X.
Proof.
  intros E [C N I K D U]. split; auto; [intros c..|intros c q]; rewrite <- E; auto.
Qed.

Lemma wake_loop_spec n i fuel c now s Q :
  queues s Q -> (32 <= fuel)%nat -> 0 <= i -> i + Z.of_nat n <= thread_count s ->
  exists s', wake_loop n i fuel c now s = Some s' /\
    queues s' (upd Q c (Q c ++ due_list s c now (i + 1) n)) /\
    woken s s' (due_list s c now (i + 1) n) /\ same_cpus s s' /\
    thread_count s' = thread_count s.
Proof.
  unfold queues. revert i s Q. induction n as [|n IH]; intros i s Q Hq Hf Hi Hn.
  { exists s. cbn [wake_loop]. split_and!; [done| |intros q; by destruct (thread s q)|done|done].
    eapply queues_ext; [|exact Hq]. intros c'. unfold upd.
    destruct (Z.eqb_spec c' c) as [->|]; [|done]. symmetry. apply app_nil_r. }
  cbn [wake_loop]. unfold thread_ptr. set (p := i + 1) in *. rewrite due_list_S.
  fold (due s c now p). destruct (due s c now p) eqn:Hd; cycle 1.
  { apply (IH p); auto; lia. }
  assert (valid s p) as Hv by (unfold valid; lia).
  apply due_true in Hd as (Hdc & Hds & _).
  set (s1 := modify p (with_state THREAD_RUNNABLE) s).
  assert (forall c', p ∉ Q c') as Hpn.
  { intros c' (_ & _ & Hs & _)%(q_iff _ _ _ Hq). congruence. }
  assert (queues_ex s1 Q [p]) as Hq1.
  { apply (queues_modify s Q [] [p]); auto; [intros _; by left|].
    intros q Hne. rewrite list_elem_of_singleton. pose proof (not_elem_of_nil q). tauto. }
  assert (thread s1 p = with_state THREAD_RUNNABLE (thread s p)) as Hp1
    by (subst s1; by rewrite thread_modify, Z.eqb_refl).
  destruct (enqueue_queues fuel s1 Q [] c p) as (s2 & -> & Hq2 & Hsame & Hcpu & Hcnt);
    auto using not_elem_of_nil; [by rewrite Hp1..|].
  assert (forall q, q <> p -> thread s2 q = with_next (t_next (thread s2 q)) (thread s q)) as Hs2.
  { intros q Hne. rewrite (Hsame q). subst s1. rewrite thread_modify.
    by rewrite (proj2 (Z.eqb_neq q p)). }
  assert (due_list s2 c now (p + 1) n = due_list s c now (p + 1) n) as Hdl.
  { apply due_list_cong. intros q Hge. apply due_cong; by rewrite Hs2 by lia. }
  destruct (IH p s2 (upd Q c (Q c ++ [p])) Hq2 Hf) as (s' & -> & Hq' & Hw & Hcpu' & Hcnt');
    [lia|rewrite Hcnt; cbn; lia|]. rewrite Hdl in Hq', Hw.
  exists s'. split_and!; [done| | | |].
  - eapply queues_ext; [|exact Hq']. intros c'. unfold upd. rewrite Z.eqb_refl, <- app_assoc.
    by destruct (c' =? c).
  - intros q. rewrite (Hw q) at 1. destruct (Z.eq_dec q p) as [->|Hne].
    + rewrite decide_False by (intros Hin%due_list_ge; lia).
      rewrite decide_True by (by left). by rewrite (Hsame p), Hp1.
    + rewrite (Hs2 q Hne). destruct (decide (q ∈ due_list s c now (p + 1) n)) as [Hin|Hin].
      * by rewrite decide_True by (by right).
      * by rewrite decide_False by (rewrite not_elem_of_cons; auto).
  - exact (same_cpus_trans s1 s2 s' Hcpu Hcpu').
  - by rewrite Hcnt'.
Qed.

(** ** A tick *)

(** The interrupted thread goes back to the queue when it is running and is
    not the bootstrap thread. *)
Definition requeued (s : sched_state) (cur : Z) : list Z :=
  if negb (cur =? 0) && bool_decide (t_state (thread s cur) = THREAD_RUNNING)
       && negb (t_id (thread s cur) =? 0) then [cur] else [].

(** The last part of [scheduler_tick]: save the current thread, run [next]. *)
Lemma switch_spec fuel s Q next cur isp :
  queues_ex s Q [next] -> (32 <= fuel)%nat -> valid s next -> current (cpu s 0) = cur ->
  t_cpu_id (thread s next) = 0 -> t_state (thread s next) = THREAD_RUNNABLE ->
  exists s1,
    (if negb (cur =? 0) && bool_decide (t_state (thread s cur) = THREAD_RUNNING)
          && negb (t_id (thread s cur) =? 0)
     then enqueue_thread fuel 0 cur
            (modify cur (fun t => with_state THREAD_RUNNABLE (with_saved_sp isp t)) s)
     else if negb (cur =? 0) && negb (t_id (thread s cur) =? 0)
     then Some (modify cur (with_saved_sp isp) s) else Some s) = Some s1 /\
    queues_ex s1 (upd Q 0 (Q 0 ++ requeued s cur)) [next] /\ same_cpus s s1 /\
    thread_count s1 = thread_count s /\
    (forall q, t_cpu_id (thread s1 q) = t_cpu_id (thread s q) /\
       t_saved_sp (thread s1 q) =
         if (q =? cur) && negb (cur =? 0) && negb (t_id (thread s cur) =? 0) then isp
         else t_saved_sp (thread s q)).
Proof.
  intros Hq Hf Hv Hcur Hcpu Hst. unfold requeued.
  assert (forall f, (forall t, t_id (f t) = t_id t /\ t_cpu_id (f t) = t_cpu_id t) ->
    forall s2 q, same_but_next (modify cur f s) s2 ->
      t_cpu_id (thread s2 q) = t_cpu_id (thread s q)) as Hkeep.
  { intros f Hff s2 q Hs. rewrite (Hs q), thread_modify. cbn [with_next t_cpu_id].
    destruct (Z.eqb_spec q cur) as [->|]; [apply Hff|done]. }
  destruct (Z.eqb_spec cur 0) as [->|Hnz]; cbn [negb andb].
  { exists s. split; [done|]. split_and!; try done.
    - eapply queues_ext; [|exact Hq]. intros c. unfold upd.
      destruct (Z.eqb_spec c 0) as [->|]; [by rewrite app_nil_r|done].
    - intros q. by rewrite andb_false_r. }
  destruct (Z.eqb_spec (t_id (thread s cur)) 0) as [Hid|Hid]; cbn [negb]; rewrite ?andb_false_r.
  { exists s. split; [done|]. split_and!; try done.
    - eapply queues_ext; [|exact Hq]. intros c. unfold upd.
      destruct (Z.eqb_spec c 0) as [->|]; [by rewrite app_nil_r|done].
    - intros q. by rewrite !andb_false_r. }
  rewrite andb_true_r. pose proof (q_current _ _ _ Hq 0 ltac:(lia)) as Hc. cbn zeta in Hc. rewrite Hcur in Hc.
  destruct (Hc Hnz) as [[Hvc Hcc]|[_ ?]]; [clear Hc|done].
  case_bool_decide as Hrun.
  - set (f := fun t => with_state THREAD_RUNNABLE (with_saved_sp isp t)).
    assert (forall c, cur ∉ Q c) as Hcn.
    { intros c (_ & _ & Hs & _)%(q_iff _ _ _ Hq). congruence. }
    assert (cur <> next) as Hne by congruence.
    assert (queues_ex (modify cur f s) Q [cur; next]) as Hq1.
    { apply (queues_modify s Q [next] [cur; next]); auto; [intros _; by left|].
      intros q Hqc. rewrite !elem_of_cons. intuition congruence. }
    assert (thread (modify cur f s) cur = f (thread s cur)) as Ec by (by rewrite thread_modify, Z.eqb_refl).
    destruct (enqueue_queues fuel (modify cur f s) Q [next] 0 cur) as (s1 & E & Hq2 & Hs & Hcp & Hcnt);
      auto; [by rewrite list_elem_of_singleton|by rewrite Ec..|].
    exists s1. split_and!; [exact E|done|done|done|]. intros q. split; [by apply (Hkeep f)|].
    rewrite (Hs q), thread_modify. cbn [with_next t_saved_sp].
    destruct (Z.eqb_spec q cur) as [->|]; [done|]. cbn [andb]. done.
  - eexists. split; [done|]. split_and!; [|done|done|].
    + eapply queues_ext; [|by apply queues_keep]. intros c. unfold upd.
      destruct (Z.eqb_spec c 0) as [->|]; [by rewrite app_nil_r|done].
    + intros q. rewrite thread_modify. destruct (Z.eqb_spec q cur) as [->|]; [|done]. done.
Qed.

(** The queue of CPU 0 after [wake_sleepers]. *)
Definition ready (s : sched_state) (Q : Z -> list Z) (now : Z) : list Z :=
  Q 0 ++ due_list s 0 now 1 (Z.to_nat (thread_count s)).

Lemma tick_spec fuel s Q now isp :
  queues s Q -> (32 <= fuel)%nat -> started (cpu s 0) = true ->
  let cur := current (cpu s 0) in
  match ready s Q now with
  | [] => exists s', scheduler_tick fuel 0 now isp s = Some (0, s') /\ queues s' Q /\
            current (cpu s' 0) = cur /\ started (cpu s' 0) = true
  | next :: rest => exists sp s', scheduler_tick fuel 0 now isp s = Some (sp, s') /\
      queues s' (upd Q 0 (rest ++ requeued s cur)) /\ current (cpu s' 0) = next /\
      started (cpu s' 0) = true /\ t_state (thread s' next) = THREAD_RUNNING /\
      sp = (if next =? cur then isp else t_saved_sp (thread s next)) /\
      (t_id (thread s cur) <> 0 -> cur <> 0 -> t_saved_sp (thread s' cur) = isp)
  end.
Proof.
  intros Hq Hf Hst cur. unfold scheduler_tick, wake_sleepers. rewrite Hst. cbn [Z.eqb negb orb].
  pose proof (q_count _ _ _ Hq) as Hcnt0.
  destruct (wake_loop_spec (Z.to_nat (thread_count s)) 0 fuel 0 now s Q Hq Hf) as
    (s1 & -> & Hq1 & Hw & Hcp & Hcnt); [lia|lia|]. cbn [Z.add] in Hq1, Hw.
  change (0 + 1) with 1 in *. set (W := due_list s 0 now 1 (Z.to_nat (thread_count s))) in *.
  destruct (Hcp 0) as (Hcur1 & _ & Hst1). fold cur in Hcur1. rewrite Hst in Hst1.
  assert (requeued s1 cur = requeued s cur) as Hrq.
  { unfold requeued. rewrite (Hw cur). case_decide as Hin; [|done]. cbn [with_next with_state t_state t_id].
    rewrite bool_decide_false by done. unfold W, due_list in Hin.
    apply list_elem_of_filter in Hin as [(_ & Hs & _)%due_true _].
    rewrite Hs, bool_decide_false by done. by rewrite andb_false_r. }
  assert (forall q, t_id (thread s1 q) = t_id (thread s q) /\ t_cpu_id (thread s1 q) = t_cpu_id (thread s q) /\
    t_saved_sp (thread s1 q) = t_saved_sp (thread s q)) as Hk1.
  { intros q. rewrite (Hw q). by case_decide. }
  rewrite Hcur1. unfold ready. fold W.
  destruct (Q 0 ++ W) as [|next rest] eqn:EQ.
  { rewrite (dequeue_empty s1 _ [] 0 Hq1) by done. cbn [Z.eqb].
    exists s1. split_and!; auto. eapply queues_ext; [|exact Hq1]. intros c. unfold upd.
    destruct (Z.eqb_spec c 0) as [->|]; [|done]. symmetry. by apply app_eq_nil in EQ as [-> _]. }
  destruct (dequeue_queues s1 (upd Q 0 (next :: rest)) 0 next rest Hq1) as
    (s2 & -> & Hq2 & Hsame & Hcp2 & Hcnt2); [done|].
  assert (valid s1 next /\ t_cpu_id (thread s1 next) = 0 /\
          t_state (thread s1 next) = THREAD_RUNNABLE) as (Hv & Hc & Hr).
  { assert (next ∈ upd Q 0 (next :: rest) 0) as Hin by (unfold upd; cbn [Z.eqb]; by left).
    apply (q_iff _ _ _ Hq1) in Hin. tauto. }
  rewrite (proj2 (Z.eqb_neq next 0)) by (unfold valid in Hv; lia).
  assert (requeued s2 cur = requeued s cur) as Hrq2.
  { rewrite <- Hrq. unfold requeued. by rewrite (Hsame cur). }
  destruct (switch_spec fuel s2 (upd (upd Q 0 (next :: rest)) 0 rest) next cur isp)
    as (s3 & -> & Hq3 & Hcp3 & Hcnt3 & Hk3); auto.
  { unfold valid. by rewrite Hcnt2. }
  { destruct (Hcp2 0) as [-> _]. done. }
  { by rewrite (Hsame next). }
  { by rewrite (Hsame next). }
  rewrite Hrq2 in Hq3. destruct (Hk3 next) as [Hc3 Hsp3].
  eexists _, _. split; [done|].
  set (s4 := modify next (with_state THREAD_RUNNING) s3). set (s5 := set_cpu 0 _ s4).
  assert (queues_ex s4 (upd (upd (upd Q 0 (next :: rest)) 0 rest) 0
            (upd (upd Q 0 (next :: rest)) 0 rest 0 ++ requeued s cur)) []) as Hq4.
  { apply (queues_modify s3 _ [next] []); auto.
    - intros c (_ & _ & _ & Hx)%(q_iff _ _ _ Hq3). apply Hx. by left.
    - done.
    - intros q Hne. rewrite list_elem_of_singleton. pose proof (not_elem_of_nil q). tauto. }
  assert (valid s3 next) as Hv3 by (unfold valid in *; by rewrite Hcnt3, Hcnt2).
  assert (queues_ex s5 (upd Q 0 (rest ++ requeued s cur)) []) as Hq5.
  { eapply (queues_ext _ _ (upd Q 0 (rest ++ requeued s cur))) in Hq4;
      [|intros c; unfold upd; by destruct (c =? 0)].
    apply (queues_switch s4 _ 0 next); auto.
    - subst s4. rewrite thread_modify, Z.eqb_refl. cbn [with_state t_cpu_id]. rewrite Hc3.
      by rewrite (Hsame next). }
  split_and!.
  - by apply queues_keep.
  - subst s5. rewrite cpu_modify, cpu_set_cpu. done.
  - subst s5. rewrite cpu_modify, cpu_set_cpu. cbn [Z.eqb started]. subst s4. rewrite cpu_modify.
    destruct (Hcp3 0) as (_ & _ & ->). destruct (Hcp2 0) as (_ & _ & ->). done.
  - rewrite thread_modify, Z.eqb_refl. cbn [with_switches t_state]. subst s5. rewrite thread_set_cpu.
    subst s4. by rewrite thread_modify, Z.eqb_refl.
  - rewrite thread_modify, Z.eqb_refl. cbn [with_switches t_saved_sp]. subst s5 s4.
    rewrite thread_set_cpu, thread_modify, Z.eqb_refl. cbn [with_state t_saved_sp].
    rewrite Hsp3, (Hsame next). cbn [with_next t_saved_sp]. destruct (Hk1 next) as (Hid1 & _ & ->).
    destruct (Z.eqb_spec next cur) as [<-|]; [|done]. cbn [andb].
    rewrite (proj2 (Z.eqb_neq next 0)) by (unfold valid in Hv; lia).
    rewrite (Hsame next). cbn [with_next t_id]. rewrite (q_id _ _ _ Hq1 next Hv).
    by rewrite (proj2 (Z.eqb_neq next 0)) by (unfold valid in Hv; lia).
  - intros Hid Hnz. destruct (Hk3 cur) as [_ Hs]. rewrite Z.eqb_refl in Hs.
    rewrite (proj2 (Z.eqb_neq cur 0)) in Hs by done. rewrite (Hsame cur) in Hs.
    cbn [with_next t_id] in Hs. destruct (Hk1 cur) as (-> & _) in Hs.
    rewrite (proj2 (Z.eqb_neq _ 0)) in Hs by done. cbn [negb andb] in Hs.
    rewrite thread_modify. subst s5. rewrite !thread_set_cpu. subst s4. rewrite !thread_modify.
    destruct (Z.eqb_spec cur next) as [->|]; rewrite ?Z.eqb_refl; done.
Qed.

(** ** Histories *)

(** Enough for any run queue: the table has 32 threads. *)
Definition SCHED_FUEL : nat := 32.

(** What the kernel can do, one operation at a time.  The label is the CPU whose
    current thread is the caller, for the operations that change the state of their
    caller: [thread_sleep], [thread_block] and the end of a thread. *)
Inductive sched_step {S} `{PageAllocator S} : option Z -> sched_state -> sched_state -> Prop :=
| ss_tick c now isp sp s s' :
    scheduler_tick SCHED_FUEL c now isp s = Some (sp, s') -> sched_step None s s'
| ss_sleep c now ticks s :
    sched_step (Some c) s (thread_sleep c now ticks s)
| ss_block c q q' s s' :
    thread_block c q s = (q', s') -> sched_step (Some c) s s'
| ss_unblock p s s' :
    valid s p -> thread_unblock SCHED_FUEL p s = Some s' -> sched_step None s s'
| ss_exit c s :
    valid s (current (cpu s c)) -> sched_step (Some c) s (thread_exit c s)
| ss_start c s : 0 <= c < ORE_MAX_CPUS -> sched_step None s (scheduler_start_current_cpu c s)
| ss_create entry_asm fn arg c pg m r pg' m' s s' :
    0 <= c -> thread_create SCHED_FUEL entry_asm fn arg c s pg m = Some (r, s', pg', m') ->
    sched_step None s s'.

(** The state of the caller is RUNNING.  The code does not check it: it is not so for a
    thread that went on after its own sleep or block because no other thread was ready. *)
Definition caller_runs (caller : option Z) (s : sched_state) : Prop :=
  match caller with Some c => t_state (thread s (current (cpu s c))) = THREAD_RUNNING | None => True end.

(** One operation, called by a running thread if by any. *)
Definition running_step {S} `{PageAllocator S} (s s' : sched_state) : Prop :=
  exists caller, caller_runs caller s /\ sched_step caller s s'.

Lemma not_runnable_not_queued s Q X p :
  queues_ex s Q X -> t_state (thread s p) <> THREAD_RUNNABLE -> forall c, p ∉ Q c.
Proof. intros Hq Hs c (_ & _ & Hr & _)%(q_iff _ _ _ Hq). done. Qed.

Lemma queues_set_state s Q p f :
  queues s Q -> t_state (thread s p) <> THREAD_RUNNABLE ->
  (forall t, t_id (f t) = t_id t /\ t_cpu_id (f t) = t_cpu_id t /\ t_state (f t) <> THREAD_RUNNABLE) ->
  queues (modify p f s) Q.
Proof.
  intros Hq Hs Hf. destruct (Hf (thread s p)) as (H1 & H2 & H3).
  apply (queues_modify s Q [] []); auto; [by eapply not_runnable_not_queued|done].
Qed.

Lemma make_runnable fuel s Q p :
  queues s Q -> (32 <= fuel)%nat -> valid s p -> t_state (thread s p) <> THREAD_RUNNABLE ->
  let c := t_cpu_id (thread s p) in
  exists s', enqueue_thread fuel c p (modify p (with_state THREAD_RUNNABLE) s) = Some s' /\
    queues s' (upd Q c (Q c ++ [p])) /\ same_cpus s s'.
Proof.
  intros Hq Hf Hv Hs c. set (s1 := modify p _ s).
  assert (queues_ex s1 Q [p]) as Hq1.
  { apply (queues_modify s Q [] [p]); auto; [by eapply not_runnable_not_queued|intros _; by left|].
    intros q Hne. rewrite list_elem_of_singleton. pose proof (not_elem_of_nil q). tauto. }
  assert (thread s1 p = with_state THREAD_RUNNABLE (thread s p)) as Hp1
    by (subst s1; by rewrite thread_modify, Z.eqb_refl).
  destruct (enqueue_queues fuel s1 Q [] c p) as (s2 & E & Hq2 & _ & Hcp & _);
    auto using not_elem_of_nil; [by rewrite Hp1..|].
  exists s2. split_and!; auto.
Qed.

(** A new slot of the table joins as a runnable thread. *)
Lemma queues_new s Q t :
  queues s Q -> thread_count s < MAX_THREADS -> 0 <= t_cpu_id t ->
  let p := thread_ptr (thread_count s) in
  t_id t = p -> t_state t = THREAD_RUNNABLE ->
  queues_ex (mk_sched (<[p := t]> (threads s)) (sched s) (thread_count s + 1)) Q [p].
Proof.
  intros Hq Hc Ht p Hid Hst. set (s' := mk_sched _ _ _).
  assert (forall q, thread s' q = if q =? p then t else thread s q) as Hth by (intros q; apply (thread_set p t s)).
  assert (forall c, p ∉ Q c) as Hpn.
  { intros c ([_ Hv] & _)%(q_iff _ _ _ Hq). unfold p, thread_ptr in Hv. lia. }
  pose proof (q_count _ _ _ Hq) as Hcnt.
  split.
  - intros c. eapply chain_frame; [|apply Hq]. intros q Hqc. rewrite Hth.
    destruct (Z.eqb_spec q p) as [->|]; [|done]. by destruct (Hpn c).
  - apply Hq.
  - intros c q. rewrite (q_iff _ _ _ Hq), Hth, list_elem_of_singleton. unfold valid.
    change (thread_count s') with (thread_count s + 1). pose proof (not_elem_of_nil q).
    unfold p, thread_ptr in *. destruct (Z.eqb_spec q (thread_count s + 1)) as [->|]; intuition lia.
  - cbn [s' thread_count]. unfold MAX_THREADS in *. lia.
  - intros q [Hv1 Hv2]. cbn [s' thread_count] in Hv2. rewrite Hth.
    destruct (Z.eqb_spec q p) as [->|Hne]; [done|]. apply Hq. unfold valid, p, thread_ptr in *. lia.
  - intros c Hc0. cbn zeta. change (current (cpu s' c)) with (current (cpu s c)). intros Hnz.
    destruct (q_current _ _ _ Hq c Hc0 Hnz) as [[Hv Hcc]|[Hb Hi]].
    + left. unfold valid in *. cbn [s' thread_count]. rewrite Hth, (proj2 (Z.eqb_neq _ _)).
      * split; [lia|done].
      * unfold p, thread_ptr. lia.
    + right. split; [done|]. rewrite Hth, (proj2 (Z.eqb_neq _ _)); [done|].
      rewrite Hb. unfold p, thread_ptr, bootstrap_ptr, MAX_THREADS in *. lia.
Qed.

Lemma queues_start s Q c :
  queues s Q -> 0 <= c -> queues (scheduler_start_current_cpu c s) Q.
Proof.
  intros [C N I K D U] Hc. unfold scheduler_start_current_cpu.
  set (b := bootstrap_ptr c). set (t := mk_thread 0 _ _ _ _ _ _ _ _ _ _).
  set (k := mk_cpu _ _ _ _). set (s' := set_cpu c k (set_thread b t s)).
  assert (forall q, thread s' q = if q =? b then t else thread s q) as Hth by (intros q; apply thread_set).
  assert (forall q, valid s q -> q <> b) as Hb.
  { intros q [_ Hv] ->. unfold b, bootstrap_ptr, MAX_THREADS in *. lia. }
  split; auto.
  - intros c'. replace (run_queue (cpu s' c')) with (run_queue (cpu s c')).
    + eapply chain_frame; [|apply C]. intros q (Hv & _)%I. rewrite Hth.
      by rewrite (proj2 (Z.eqb_neq _ _)) by auto.
    + subst s'. rewrite cpu_set_cpu. by destruct (Z.eqb_spec c' c) as [->|].
  - intros c' q. rewrite I, Hth. destruct (Z.eqb_spec q b) as [->|]; [|done].
    split; intros (Hv & _); by destruct (Hb b Hv).
  - intros q Hv. rewrite Hth, (proj2 (Z.eqb_neq _ _)) by auto. by apply D.
  - intros c' Hc'. cbn zeta. subst s'. rewrite cpu_set_cpu.
    destruct (Z.eqb_spec c' c) as [->|Hne]; intros Hnz.
    + right. cbn [k current]. split; [done|]. by rewrite Hth, Z.eqb_refl.
    + change (cpu (set_thread b t s) c') with (cpu s c') in *.
      destruct (U c' Hc' Hnz) as [[Hv Hcc]|[Hbb Hi]]; [left|right]; rewrite Hth.
      * rewrite (proj2 (Z.eqb_neq _ _)) by auto. by split.
      * rewrite (proj2 (Z.eqb_neq _ _)); [done|]. rewrite Hbb. unfold b, bootstrap_ptr. lia.
Qed.

Lemma cpu_init s c :
  cpu (scheduler_init s) c = if (0 <=? c) && (c <? ORE_MAX_CPUS) then mk_cpu 0 0 0 false else cpu s c.
Proof.
  unfold cpu, scheduler_init. cbn [sched].
  assert (forall n j (m : gmap Z SchedulerCpu), 0 <= j -> for_loop n j (fun i m0 => <[i:=mk_cpu 0 0 0 false]> m0) m !!! c =
    if (j <=? c) && (c <? j + Z.of_nat n) then mk_cpu 0 0 0 false else m !!! c) as Hl.
  { induction n as [|n IH]; intros j m Hj; cbn [for_loop]; [cmp_cases|].
    rewrite IH by lia. destruct (Z.eq_dec c j) as [->|Hne].
    - rewrite lookup_total_insert_eq. cmp_cases.
    - rewrite lookup_total_insert_ne by congruence. cmp_cases. }
  apply Hl. lia.
Qed.

(** The zero-initialised static memory. *)
Definition boot_sched : sched_state := mk_sched ∅ ∅ 0.

Lemma queues_init : queues (scheduler_init boot_sched) (fun _ => []).
Proof.
  assert (forall c, cpu (scheduler_init boot_sched) c = mk_cpu 0 0 0 false) as Hc.
  { intros c. rewrite cpu_init. by case_test. }
  split.
  - intros c. rewrite Hc. done.
  - intros c. constructor.
  - intros c p. unfold valid. change (thread_count (scheduler_init boot_sched)) with 0.
    pose proof (not_elem_of_nil p). split; [done|]. intros ([? ?] & _). lia.
  - done.
  - intros p [? Hp]. change (thread_count (scheduler_init boot_sched)) with 0 in Hp. lia.
  - intros c _. cbn zeta. rewrite Hc. done.
Qed.

Section Steps.
Context {S : Type} `{PageAllocator S}.

Lemma sched_step_queues s s' Q : running_step s s' -> queues s Q -> exists Q', queues s' Q'.
Proof.
  intros (caller & Hr & Hstep) Hq. unfold caller_runs in Hr. destruct Hstep as
    [c now isp sp s s' E|c now ticks s|c q q' s s' E|p s s' Hv E|c s Hv|c s Hc
    |entry_asm fn arg c pg m r pg' m' s s' Hc E].
  - destruct (Z.eq_dec c 0) as [->|Hc]; cycle 1.
    { unfold scheduler_tick in E. rewrite (proj2 (Z.eqb_neq _ _)) in E by done. cbn in E.
      injection E as _ <-. eauto. }
    destruct (started (cpu s 0)) eqn:Hst; cycle 1.
    { unfold scheduler_tick in E. rewrite Hst in E. cbn in E. injection E as _ <-. eauto. }
    pose proof (tick_spec SCHED_FUEL s Q now isp Hq (le_n _) Hst) as Ht. cbn zeta in Ht.
    destruct (ready s Q now); [destruct Ht as (s1 & E' & Hq' & _)|
      destruct Ht as (sp' & s1 & E' & Hq' & _)]; rewrite E in E'; injection E' as -> ->; eauto.
  - exists Q. unfold thread_sleep. case_test; [done|].
    apply queues_set_state; auto; congruence.
  - exists Q. unfold thread_block in E. destruct (_ || _); injection E as <- <-; [done|].
    apply queues_set_state; auto; congruence.
  - unfold thread_unblock in E.
    destruct (_ || _) eqn:Hb; [injection E as <-; eauto|].
    apply orb_false_iff in Hb as [[_ Hb]%orb_false_iff _]. apply bool_decide_eq_false in Hb.
    destruct (make_runnable SCHED_FUEL s Q p Hq (le_n _) Hv Hb) as (s1 & E' & Hq' & _).
    rewrite E in E'. injection E' as ->. eauto.
  - exists Q. apply queues_set_state; auto; congruence.
  - exists Q. apply queues_start; [done|lia].
  - unfold thread_create in E. destruct (_ || _); [injection E as <- <- <- <-; eauto|].
    destruct (Z.leb_spec MAX_THREADS (thread_count s)); [injection E as <- <- <- <-; eauto|].
    destruct (pa_alloc_pages _ pg m) as [[stack pg1] m1].
    destruct (stack =? 0); [injection E as <- <- <- <-; eauto|].
    destruct (build_initial_stack _ _ _ m1) as [sp m2].
    set (t := mk_thread _ _ _ _ _ _ _ _ _ _ _) in E. set (p := thread_ptr _) in *.
    pose proof (queues_new s Q t Hq ltac:(lia) Hc eq_refl eq_refl) as Hq1. cbn zeta in Hq1. fold p in Hq1.
    set (s1 := mk_sched _ _ _) in *. pose proof (q_count _ _ _ Hq) as Hcnt.
    assert (thread s1 p = t) as Hp by (unfold thread, s1; apply lookup_total_insert_eq).
    destruct (enqueue_queues SCHED_FUEL s1 Q [] c p) as (s2 & E' & Hq2 & _);
      [done|apply not_elem_of_nil|done| |by rewrite Hp..|].
    { unfold valid, p, thread_ptr. cbn [s1 thread_count]. lia. }
    rewrite E' in E. injection E as <- <- <- <-. eauto.
Qed.

(** ** Properties *)

(** C16: from a freshly initialised scheduler, whatever sequence of ticks, sleeps,
    blocks, wake-ups, exits, CPU starts and thread creations happens in which a
    thread sleeps, blocks or exits only while its state is RUNNING, the run
    queue of every CPU is a finite list without duplicates that holds exactly the
    runnable threads of that CPU: no runnable thread is ever lost or queued
    twice.  The condition is needed, see [returned_sleeper_queued]. *)
Theorem sched_no_lost_thread s :
  rtc running_step (scheduler_init boot_sched) s ->
  exists Q, (forall c, chain s (run_queue (cpu s c)) (Q c) /\ NoDup (Q c)) /\
    (forall c p, p ∈ Q c <-> valid s p /\ t_cpu_id (thread s p) = c /\
                             t_state (thread s p) = THREAD_RUNNABLE).
Proof.
  intros Hrtc.
  assert (exists Q, queues s Q) as [Q Hq].
  { assert (exists Q, queues (scheduler_init boot_sched) Q) as Hi by eauto using queues_init.
    induction Hrtc as [|s1 s2 s3 Hst _ IH]; [done|]. destruct Hi as [Q Hq].
    apply IH. by eapply sched_step_queues. }
  exists Q. split; [intros c; split; apply Hq|]. intros c p. rewrite (q_iff _ _ _ Hq).
  pose proof (not_elem_of_nil p). tauto.
Qed.

(** a timer tick on the scheduling CPU is round robin: the threads that
    became due join the tail of the queue (a sleeper joins exactly when its wake
    tick has been reached), the head of the queue runs, the interrupted thread
    goes to the tail if it was running and keeps the interrupted stack pointer,
    and the pointer returned is the one the next thread was saved with. *)
Theorem sched_tick_round_robin s Q now isp :
  queues s Q -> started (cpu s 0) = true ->
  let cur := current (cpu s 0) in
  (forall p, valid s p -> t_cpu_id (thread s p) = 0 -> t_state (thread s p) = THREAD_SLEEPING ->
     p ∈ ready s Q now <-> t_wake_tick (thread s p) <= now) /\
  match ready s Q now with
  | [] => exists s', scheduler_tick SCHED_FUEL 0 now isp s = Some (0, s') /\ queues s' Q /\
            current (cpu s' 0) = cur
  | next :: rest => exists sp s', scheduler_tick SCHED_FUEL 0 now isp s = Some (sp, s') /\
      queues s' (upd Q 0 (rest ++ requeued s cur)) /\ current (cpu s' 0) = next /\
      t_state (thread s' next) = THREAD_RUNNING /\
      sp = (if next =? cur then isp else t_saved_sp (thread s next)) /\
      (t_id (thread s cur) <> 0 -> cur <> 0 -> t_saved_sp (thread s' cur) = isp)
  end.
Proof.
  intros Hq Hst cur. split.
  - intros p Hv Hc Hs. unfold ready, due_list. rewrite elem_of_app, list_elem_of_filter, elem_of_seqZ, due_true.
    rewrite (q_iff _ _ _ Hq). unfold valid in *. rewrite Hs. split; [intuition congruence|].
    intros Hw. right. split; [done|lia].
  - pose proof (tick_spec SCHED_FUEL s Q now isp Hq (le_n _) Hst) as Ht. cbn zeta in Ht. fold cur in Ht.
    destruct (ready s Q now) as [|next rest].
    + destruct Ht as (s1 & E & Hq' & Hc & _). eauto.
    + destruct Ht as (sp & s1 & E & Hq' & Hc & _ & Hr). eauto 10.
Qed.

(** A sequence of calls of [scheduler_tick] on CPU 0, each with its time and
    interrupted stack pointer.  (Not every timer interrupt calls it: see
    [Descriptors.isr_dispatch].) *)
Fixpoint run_ticks (ts : list (Z * Z)) (s : sched_state) : option sched_state :=
  match ts with
  | [] => Some s
  | (now, isp) :: ts =>
      match scheduler_tick SCHED_FUEL 0 now isp s with
      | Some (_, s) => run_ticks ts s
      | None => None
      end
  end.

(** C17: no starvation among the threads of CPU 0 by the ticks alone: a runnable
    thread with [k] threads ahead of it in the queue is the current thread after exactly
    [k + 1] calls of [scheduler_tick] on CPU 0 with no other operation of the scheduler
    in between, whatever sleepers wake up in the meantime.  (The queues of the other
    CPUs do not run, and a timer interrupt that switches user processes does not reach
    [scheduler_tick].) *)
Theorem sched_bounded_wait s Q l1 p l2 ts :
  queues s Q -> started (cpu s 0) = true -> Q 0 = l1 ++ p :: l2 ->
  length ts = Datatypes.S (length l1) ->
  exists s', run_ticks ts s = Some s' /\ current (cpu s' 0) = p /\
             t_state (thread s' p) = THREAD_RUNNING.
Proof.
  revert s Q l2 ts. induction l1 as [|q l1 IH]; intros s Q l2 [|[now isp] ts] Hq Hst HQ Hl; try done;
    cbn [run_ticks];
    pose proof (tick_spec SCHED_FUEL s Q now isp Hq (le_n _) Hst) as Ht; cbn zeta in Ht;
    unfold ready in Ht; rewrite HQ in Ht; cbn [app] in Ht;
    destruct Ht as (sp & s1 & -> & Hq' & Hc & Hst' & Hr & _).
  - destruct ts; [|done]. by exists s1.
  - eapply (IH s1 _ _ ts Hq' Hst'); [|cbn in Hl; lia].
    unfold upd. cbn [Z.eqb]. by rewrite <- !app_assoc.
Qed.
End Steps.

(** ** The initial frame *)

Lemma push_words_spec ws sp m :
  Forall word64 ws ->
  let r := push_words ws sp m in
  r.1 = sp - 8 * Z.of_nat (length ws) /\
  (forall k w, ws !! k = Some w -> load64 r.2 (sp - 8 * (Z.of_nat k + 1)) = w) /\
  (forall x, ~ (sp - 8 * Z.of_nat (length ws) <= x < sp) -> load8 r.2 x = load8 m x).
Proof.
  revert sp m. induction ws as [|w ws IH]; intros sp m Hw; cbn [push_words].
  { cbn. split_and!; [lia|done|done]. }
  apply Forall_cons in Hw as [Hw Hws]. destruct (IH (sp - 8) (store64 m (sp - 8) w) Hws) as (E1 & E2 & E3).
  cbn zeta in *. cbn [length]. split_and!; [lia| |].
  - intros [|k] w'; cbn [lookup list_lookup].
    + intros [= <-]. replace (sp - 8 * (Z.of_nat 0 + 1)) with (sp - 8) by lia.
      transitivity (load64 (store64 m (sp - 8) w) (sp - 8)); [|by apply load64_store64_eq].
      apply load_le_agree. intros x Hx. apply E3. lia.
    + intros Hk. rewrite <- (E2 k w' Hk). f_equal. lia.
  - intros x Hx. rewrite E3 by lia. apply store_le_frame. lia.
Qed.

(** the stack built for a new thread is a well-formed interrupt frame: the
    22 words below the stack top that the interrupt return path pops hold the
    entry trampoline in kernel mode with interrupts enabled, the thread pointer
    in rdi and the stack top in rsp, and nothing outside them is written. *)
Theorem initial_stack_frame entry_asm p top m :
  word64 entry_asm -> word64 p -> 176 <= top < 18446744073709551616 ->
  let '(sp, m') := build_initial_stack entry_asm p top m in
  sp = top - 176 /\
  load64 m' (sp + 8 * 17) = entry_asm /\ load64 m' (sp + 8 * 18) = 0x08 /\
  load64 m' (sp + 8 * 19) = 0x202 /\ load64 m' (sp + 8 * 20) = top - 8 /\
  load64 m' (sp + 8 * 21) = 0x10 /\ load64 m' (sp + 8 * 8) = p /\
  (forall i, 0 <= i < 15 -> i <> 8 -> load64 m' (sp + 8 * i) = 0) /\
  (forall x, ~ (top - 176 <= x < top) -> load8 m' x = load8 m x).
Proof.
  intros He Hp Ht. unfold build_initial_stack.
  assert (top -u 8 = top - 8) as Hu by (apply u64_small; unfold word64; lia).
  assert (Forall word64 (initial_frame entry_asm p top)) as Hw.
  { unfold initial_frame. rewrite Hu. repeat constructor; try done; unfold word64 in *; lia. }
  pose proof (push_words_spec _ top m Hw) as Hs. cbn zeta in Hs.
  change (8 * Z.of_nat (length (initial_frame entry_asm p top))) with 176 in Hs.
  destruct (push_words _ _ _) as [sp m']. cbn [fst snd] in Hs. destruct Hs as (-> & Hl & Hx).
  assert (forall k w, initial_frame entry_asm p top !! k = Some w -> forall i, i = 21 - Z.of_nat k ->
    load64 m' (top - 176 + 8 * i) = w) as Hl'.
  { intros k w Hk i ->. rewrite <- (Hl k w Hk). f_equal. lia. }
  split_and!; [done|by apply (Hl' 4%nat)|by apply (Hl' 3%nat)|by apply (Hl' 2%nat)| |by apply (Hl' 0%nat)
    |by apply (Hl' 13%nat)| |done].
  - rewrite <- Hu. by apply (Hl' 1%nat).
  - intros i Hi Hne. apply (Hl' (Z.to_nat (21 - i))); [|lia].
    assert (i = 0 \/ i = 1 \/ i = 2 \/ i = 3 \/ i = 4 \/ i = 5 \/ i = 6 \/ i = 7 \/ i = 9 \/ i = 10 \/
            i = 11 \/ i = 12 \/ i = 13 \/ i = 14) as Hc by lia.
    repeat destruct Hc as [->|Hc]; try reflexivity. subst i. reflexivity.
Qed.

(** ** Example: one thread on CPU 0 *)

Definition demo_started : sched_state := scheduler_start_current_cpu 0 (scheduler_init boot_sched).

Definition demo_thread : Thread := mk_thread 1 THREAD_RUNNABLE 0 0x9000 0x8000 0xc000 0 0x100 0 0 0.

Definition demo_sched : sched_state :=
  default boot_sched (enqueue_thread SCHED_FUEL 0 1
    (mk_sched (<[thread_ptr (thread_count demo_started) := demo_thread]> (threads demo_started))
       (sched demo_started) (thread_count demo_started + 1))).

Lemma demo_sched_queues :
  queues demo_sched (upd (fun _ => []) 0 [1]) /\ started (cpu demo_sched 0) = true.
Proof.
  pose proof (queues_start _ _ 0 queues_init ltac:(lia)) as Hq.
  pose proof (queues_new demo_started _ demo_thread Hq eq_refl ltac:(cbn; lia) eq_refl eq_refl) as Hq1.
  destruct (enqueue_queues SCHED_FUEL _ _ [] 0 1 Hq1 (not_elem_of_nil _) (le_n _))
    as (s2 & E & Hq2 & _ & Hcp & _); [split; done|reflexivity|reflexivity|].
  unfold demo_sched. rewrite E. cbn [from_option]. unfold id. split; [exact Hq2|].
  destruct (Hcp 0) as (_ & _ & ->). reflexivity.
Qed.

Section Demo.
#[local] Abbreviation sstep := (sched_step (S := pmm_state)).

Lemma tick_step c now isp s s' : option_map snd (scheduler_tick SCHED_FUEL c now isp s) = Some s' -> sstep None s s'.
Proof. destruct (scheduler_tick _ _ _ _ _) as [[sp s1]|] eqn:E; [|discriminate]. intros [= <-]. exact (ss_tick _ _ _ _ _ _ E). Qed.

Lemma create_step entry fn arg c pg m s s' :
  0 <= c -> option_map (fun x => x.1.1.2) (thread_create SCHED_FUEL entry fn arg c s pg m) = Some s' -> sstep None s s'.
Proof.
  intros Hc. destruct (thread_create _ _ _ _ _ _ _ _) as [[[[r s1] pg1] m1]|] eqn:E; [|discriminate]. intros [= <-].
  exact (ss_create _ _ _ _ _ _ _ _ _ _ _ Hc E).
Qed.

(** Two threads are created, the first runs and sleeps, and the second runs. *)
Definition demo_created (s : sched_state) : sched_state :=
  default s (option_map (fun x => x.1.1.2) (thread_create SCHED_FUEL 0x200 0x300 0 0 s demo_pmm ∅)).
Definition demo_ticked (now : Z) (s : sched_state) : sched_state := default s (option_map snd (scheduler_tick SCHED_FUEL 0 now 0x5000 s)).
Definition demo_one : sched_state := demo_ticked 1 (demo_created demo_started).
Definition demo_two : sched_state := demo_created demo_one.
Definition demo_history : sched_state := demo_ticked 2 (thread_sleep 0 1 9 demo_two).

Lemma demo_one_steps : rtc running_step (scheduler_init boot_sched) demo_one.
Proof.
  apply (rtc_l _ _ demo_started); [exists None; split; [exact I|apply ss_start; split; [discriminate|reflexivity]]|].
  apply (rtc_l _ _ (demo_created demo_started)).
  { exists None. split; [exact I|]. apply (create_step 0x200 0x300 0 0 demo_pmm ∅); [lia|vm_compute; reflexivity]. }
  apply rtc_once. exists None. split; [exact I|]. apply (tick_step 0 1 0x5000). vm_compute. reflexivity.
Qed.

Lemma demo_history_steps : rtc running_step (scheduler_init boot_sched) demo_history.
Proof.
  transitivity demo_one; [exact demo_one_steps|].
  apply (rtc_l _ _ demo_two).
  { exists None. split; [exact I|]. apply (create_step 0x200 0x300 0 0 demo_pmm ∅); [lia|vm_compute; reflexivity]. }
  apply (rtc_l _ _ (thread_sleep 0 1 9 demo_two)).
  { exists (Some 0). split; [vm_compute; reflexivity|apply ss_sleep]. }
  apply rtc_once. exists None. split; [exact I|]. apply (tick_step 0 2 0x5000). vm_compute. reflexivity.
Qed.

Lemma sched_no_lost_thread_witness :
  t_state (thread demo_history 1) = THREAD_SLEEPING /\ t_state (thread demo_history 2) = THREAD_RUNNING /\
  exists Q : Z -> list Z, forall c p, p ∈ Q c <-> valid demo_history p /\ t_cpu_id (thread demo_history p) = c /\
                          t_state (thread demo_history p) = THREAD_RUNNABLE.
Proof.
  split; [vm_compute; reflexivity|]. split; [vm_compute; reflexivity|].
  destruct (sched_no_lost_thread demo_history demo_history_steps) as (Q & _ & HQ). exists Q. exact HQ.
Defined.

(** A thread that is alone goes on after it has blocked.  Woken up, it is queued although
    it runs; when it then sleeps, a sleeping thread is in the run queue. *)
Definition demo_blocked : sched_state := demo_ticked 2 (snd (thread_block 0 0 demo_one)).
Definition demo_woken : sched_state := default demo_blocked (thread_unblock SCHED_FUEL 1 demo_blocked).

Theorem returned_sleeper_queued :
  exists s, rtc (fun s s' => exists caller, sstep caller s s') (scheduler_init boot_sched) s /\
    run_queue (cpu s 0) = 1 /\ t_state (thread s 1) = THREAD_SLEEPING.
Proof.
  exists (thread_sleep 0 3 9 demo_woken). split; [|vm_compute; split; reflexivity].
  transitivity demo_one.
  { eapply rtc_subrel; [|exact demo_one_steps]. intros s s' (caller & _ & Hs). by exists caller. }
  apply (rtc_l _ _ (snd (thread_block 0 0 demo_one))); [exists (Some 0); by eapply ss_block, surjective_pairing|].
  apply (rtc_l _ _ demo_blocked); [exists None; apply (tick_step 0 2 0x5000); vm_compute; reflexivity|].
  apply (rtc_l _ _ demo_woken).
  { exists None. apply (ss_unblock 1); [vm_compute; split; discriminate|vm_compute; reflexivity]. }
  apply rtc_once. exists (Some 0). apply ss_sleep.
Qed.
End Demo.

Lemma sched_tick_round_robin_witness : exists sp s',
  scheduler_tick SCHED_FUEL 0 5 0x5000 demo_sched = Some (sp, s') /\ current (cpu s' 0) = 1 /\
  sp = 0x9000.
Proof.
  destruct demo_sched_queues as [Hq Hst].
  destruct (sched_tick_round_robin demo_sched _ 5 0x5000 Hq Hst) as [_ H].
  assert (ready demo_sched (upd (fun _ => []) 0 [1]) 5 = [1]) as E by (vm_compute; reflexivity).
  rewrite E in H. destruct H as (sp & s' & E1 & _ & E2 & _ & E3 & _).
  exists sp, s'. split; [exact E1|]. split; [exact E2|]. rewrite E3. vm_compute. reflexivity.
Defined.

Lemma sched_bounded_wait_witness : exists s',
  run_ticks [(5, 0x5000)] demo_sched = Some s' /\ current (cpu s' 0) = 1.
Proof.
  destruct demo_sched_queues as [Hq Hst].
  destruct (sched_bounded_wait demo_sched _ [] 1 [] [(5, 0x5000)] Hq Hst eq_refl eq_refl)
    as (s' & E1 & E2 & _).
  exists s'. split; [exact E1|exact E2].
Defined.

Lemma initial_stack_frame_witness :
  load64 (build_initial_stack 0x1234 1 0xc000 ∅).2 (0xc000 - 176 + 8 * 17) = 0x1234.
Proof.
  pose proof (initial_stack_frame 0x1234 1 0xc000 ∅ ltac:(split; done) ltac:(split; done)
    ltac:(split; done)) as H.
  destruct (build_initial_stack 0x1234 1 0xc000 ∅) as [sp m']. cbn [snd].
  destruct H as (-> & H & _). exact H.
Defined.

(** [thread_unblock] does not take the thread out of the wait queue it blocked
    on: after T2 and T1 blocked (the queue is T2 -> T1), unblocking T2 resets its
    link, so T1 is no longer reachable from the queue's head. *)
Theorem unblock_drops_waiters :
  let blocked nx := mk_thread 1 THREAD_BLOCKED 0 0 0 0 0 0 0 0 nx in
  let s := mk_sched (<[1 := blocked 0]> (<[2 := blocked 1]> ∅)) ∅ 2 in
  option_map (fun s' => (t_next (thread s' 2), t_state (thread s' 1))) (thread_unblock SCHED_FUEL 2 s)
  = Some (0, THREAD_BLOCKED).
Proof. vm_compute. reflexivity. Qed.

(** [thread_sleep] relies on another thread: a thread that sleeps while no other is
    ready is still the current one after its yield, which counts as a tick, and the
    interrupt returns to it. *)
Theorem sleep_alone_returns s Q now isp ticks :
  let cur := current (cpu s 0) in
  queues s Q -> started (cpu s 0) = true -> cur <> 0 -> t_id (thread s cur) <> 0 -> t_state (thread s cur) = THREAD_RUNNING ->
  ready s Q (now + 1) = [] -> 0 <= now -> 1 < ticks -> now + ticks < 18446744073709551616 ->
  exists s', scheduler_tick SCHED_FUEL 0 (now +u 1) isp (thread_sleep 0 now ticks s) = Some (0, s') /\ current (cpu s' 0) = cur.
Proof.
  intros cur Hq Hst Hc Hid Hr Hrd Hn Ht Hw. rewrite (u64_small (now + 1)) by (unfold word64; lia).
  set (f := fun t => with_state THREAD_SLEEPING (with_wake_tick (now +u ticks) t)).
  assert (thread_sleep 0 now ticks s = modify cur f s) as ->.
  { unfold thread_sleep. fold cur. rewrite (proj2 (Z.eqb_neq cur 0) Hc), (proj2 (Z.eqb_neq (t_id (thread s cur)) 0) Hid). done. }
  assert (queues (modify cur f s) Q) as Hq' by (apply queues_set_state; [done|congruence|by intros t]).
  pose proof (tick_spec SCHED_FUEL (modify cur f s) Q (now + 1) isp Hq' (le_n _)) as Hs. rewrite !cpu_modify in Hs. specialize (Hs Hst). cbv zeta in Hs.
  assert (ready (modify cur f s) Q (now + 1) = []) as E.
  { unfold ready in *. apply app_eq_nil in Hrd as [-> Hd]. cbn [app]. rewrite count_modify. unfold due_list in *.
    apply elem_of_nil_inv. intros q [Hdue Hin]%list_elem_of_filter. apply (not_elem_of_nil q). rewrite <- Hd.
    apply list_elem_of_filter. split; [|done]. revert Hdue. rewrite !due_true, thread_modify. destruct (q =? cur); [|done].
    cbn [t_wake_tick f with_state with_wake_tick]. rewrite u64_small by (unfold word64; lia). lia. }
  rewrite E in Hs. destruct Hs as (s' & H1 & _ & H2 & _). by exists s'.
Qed.

(** So the self test stops the kernel when its thread is the only one: it runs at
    tick 5, sleeps for two ticks and goes on at tick 6. *)
Example sleep_test_fails_alone :
  match scheduler_tick SCHED_FUEL 0 5 0x5000 demo_sched with
  | Some (_, s1) =>
      match scheduler_tick SCHED_FUEL 0 6 0x5000 (thread_sleep 0 5 2 s1) with
      | Some (sp, s2) => Some (current (cpu s1 0), sp, current (cpu s2 0), sleep_test_check 5 6)
      | None => None
      end
  | None => None
  end = Some (1, 0, 1, Panic "scheduler: sleep self-test woke too early").
Proof. vm_compute. reflexivity. Qed.
