(* ===== verification/Spinlock.v ===== *)
(** Spin locks and mutexes (kernel/spinlock.c, kernel/scheduler.c).

    The atomic instructions of [spinlock_lock] and [spinlock_unlock] are the
    steps of a transition system: any number of CPUs, each at a program point
    of the code, interleaved arbitrarily over the shared word.  [mutex_lock]
    and [mutex_unlock] are built on top of it: their bodies run between the
    acquisition and the release of the inner spin lock.  The theorems are
    mutual exclusion of both, that a free lock can always be taken, and that
    only the owner of a mutex is recorded in it. *)
From stdpp Require Import base numbers list gmap relations.
From Stdlib Require Import ZArith Lia.
From S2P Require Import Prelude.

(** ** The spin lock *)

(** Program points of a CPU with respect to one lock. *)
Inductive pc :=
| Idle       (* not in the lock code, not holding the lock *)
| Exchange   (* about to run the atomic exchange *)
| Spin       (* in the inner loop, about to load the word *)
| Holding.   (* the exchange returned 0 *)

#[export] Instance pc_eq_dec : EqDecision pc.
Proof. solve_decision. Defined.

Record spin := mk_spin { value : Z; at_pc : Z -> pc }.

Definition set_pc (i : Z) (p : pc) (f : Z -> pc) (j : Z) : pc := if j =? i then p else f j.

(** [__atomic_exchange_n(&lock->value, 1)]: leave the loop when the old value
    is 0. *)
Definition exchange (i : Z) (s : spin) : spin :=
  mk_spin 1 (set_pc i (if value s =? 0 then Holding else Spin) (at_pc s)).
(** [__atomic_load_n(&lock->value)]: leave the inner loop on 0. *)
Definition spin_load (i : Z) (s : spin) : spin :=
  mk_spin (value s) (set_pc i (if value s =? 0 then Exchange else Spin) (at_pc s)).
(** [__atomic_store_n(&lock->value, 0)]. *)
Definition spinlock_unlock (i : Z) (s : spin) : spin := mk_spin 0 (set_pc i Idle (at_pc s)).

Inductive spin_step : spin -> spin -> Prop :=
| sp_enter i s : at_pc s i = Idle -> spin_step s (mk_spin (value s) (set_pc i Exchange (at_pc s)))
| sp_exchange i s : at_pc s i = Exchange -> spin_step s (exchange i s)
| sp_load i s : at_pc s i = Spin -> spin_step s (spin_load i s)
| sp_unlock i s : at_pc s i = Holding -> spin_step s (spinlock_unlock i s).

Definition spin_init : spin := mk_spin 0 (fun _ => Idle).

(** The word is 1 exactly when somebody holds the lock, and nobody else does. *)
Definition spin_inv (s : spin) : Prop :=
  (value s = 0 /\ forall i, at_pc s i <> Holding) \/
  (value s = 1 /\ exists i, at_pc s i = Holding /\ forall j, at_pc s j = Holding -> j = i).

Lemma set_pc_eq i p f : set_pc i p f i = p.
Proof. unfold set_pc. by rewrite Z.eqb_refl. Qed.
Lemma set_pc_ne i j p f : j <> i -> set_pc i p f j = f j.
Proof. intros Hne. unfold set_pc. by rewrite (proj2 (Z.eqb_neq _ _)). Qed.

(** A CPU that does not hold the lock before or after does not matter. *)
Lemma spin_inv_other s i p :
  at_pc s i <> Holding -> p <> Holding -> spin_inv s ->
  spin_inv (mk_spin (value s) (set_pc i p (at_pc s))).
Proof.
  intros Hi Hp [[Hv Hn]|(Hv & k & Hk & Hu)]; [left|right]; cbn [value at_pc]; (split; [done|]).
  - intros j. unfold set_pc. destruct (Z.eqb_spec j i); auto.
  - exists k. assert (k <> i) by congruence. rewrite set_pc_ne by done. split; [done|].
    intros j. unfold set_pc. destruct (Z.eqb_spec j i); [done|auto].
Qed.

Lemma spin_inv_step s s' : spin_step s s' -> spin_inv s -> spin_inv s'.
Proof.
  intros Hstep Hinv. destruct Hstep as [i s Hi|i s Hi|i s Hi|i s Hi].
  - apply spin_inv_other; [congruence|done|done].
  - unfold exchange. destruct Hinv as [[Hv Hn]|(Hv & k & Hk & Hu)]; rewrite Hv; cbn [Z.eqb].
    + right. cbn [value at_pc]. split; [done|]. exists i. rewrite set_pc_eq. split; [done|].
      intros j. unfold set_pc. destruct (Z.eqb_spec j i); [done|]. intros Hj. by destruct (Hn j).
    + rewrite <- Hv. apply spin_inv_other; [congruence|done|]. right. split; [done|]. by exists k.
  - unfold spin_load. apply spin_inv_other; [congruence|by case_test|done].
  - left. cbn [value at_pc spinlock_unlock]. split; [done|]. intros j. unfold set_pc.
    destruct (Z.eqb_spec j i) as [->|Hne]; [done|]. intros Hj.
    destruct Hinv as [[_ Hn]|(_ & k & _ & Hu)]; [by apply (Hn i)|].
    apply Hne. transitivity k; [by apply Hu|symmetry; by apply Hu].
Qed.

Lemma spin_reachable s : rtc spin_step spin_init s -> spin_inv s.
Proof.
  intros Hr. assert (spin_inv spin_init) as Hi by (by left).
  induction Hr; eauto using spin_inv_step.
Qed.

(** ** The mutex *)

(** [mutex_lock] tries under the inner lock and yields when the mutex is held. *)
Inductive mpc :=
| MIdle | MLock (* in spinlock_lock of mutex_lock *) | MTest (* inner lock held *)
| MGot (* about to release the inner lock, mutex taken *)
| MYield (* about to release the inner lock and yield *)
| MOwner (* returned from mutex_lock *)
| MULock (* in spinlock_lock of mutex_unlock *) | MURelease.

Record mutex := mk_mutex { inner : bool; held : Z; owner : Z; at_mpc : Z -> mpc }.

Definition set_mpc (i : Z) (p : mpc) (f : Z -> mpc) (j : Z) : mpc := if j =? i then p else f j.

(** Steps of thread [i > 0]; the inner spin lock is the atomic acquire and
    release that the first part of the file justifies. *)
Inductive mutex_step : mutex -> mutex -> Prop :=
| mx_call i x : 0 < i -> at_mpc x i = MIdle ->
    mutex_step x (mk_mutex (inner x) (held x) (owner x) (set_mpc i MLock (at_mpc x)))
| mx_acquire i x : at_mpc x i = MLock -> inner x = false ->
    mutex_step x (mk_mutex true (held x) (owner x) (set_mpc i MTest (at_mpc x)))
| mx_take i x : at_mpc x i = MTest -> held x = 0 ->
    mutex_step x (mk_mutex (inner x) 1 i (set_mpc i MGot (at_mpc x)))
| mx_busy i x : at_mpc x i = MTest -> held x <> 0 ->
    mutex_step x (mk_mutex (inner x) (held x) (owner x) (set_mpc i MYield (at_mpc x)))
| mx_return i x : at_mpc x i = MGot ->
    mutex_step x (mk_mutex false (held x) (owner x) (set_mpc i MOwner (at_mpc x)))
| mx_retry i x : at_mpc x i = MYield ->
    mutex_step x (mk_mutex false (held x) (owner x) (set_mpc i MLock (at_mpc x)))
| mx_unlock i x : at_mpc x i = MOwner ->
    mutex_step x (mk_mutex (inner x) (held x) (owner x) (set_mpc i MULock (at_mpc x)))
| mx_uacquire i x : at_mpc x i = MULock -> inner x = false ->
    mutex_step x (mk_mutex true (held x) (owner x) (set_mpc i MURelease (at_mpc x)))
| mx_release i x : at_mpc x i = MURelease ->
    mutex_step x (mk_mutex false 0 0 (set_mpc i MIdle (at_mpc x))).

Definition mutex_init : mutex := mk_mutex false 0 0 (fun _ => MIdle).

(** Thread at a point where it owns the mutex; thread inside the inner lock. *)
Definition owns (p : mpc) : bool :=
  match p with MGot | MOwner | MULock | MURelease => true | _ => false end.
Definition inside (p : mpc) : bool :=
  match p with MTest | MGot | MYield | MURelease => true | _ => false end.

Record mutex_inv (x : mutex) : Prop := {
  mi_held : held x = if decide (owner x = 0) then 0 else 1;
  mi_owner : forall i, owns (at_mpc x i) = true <-> owner x = i /\ i <> 0;
  mi_inner : forall i, inside (at_mpc x i) = true -> inner x = true;
  mi_inside : forall i j, inside (at_mpc x i) = true -> inside (at_mpc x j) = true -> i = j;
  mi_zero : at_mpc x 0 = MIdle;
}.

Lemma set_mpc_eq i p f : set_mpc i p f i = p.
Proof. unfold set_mpc. by rewrite Z.eqb_refl. Qed.
Lemma set_mpc_ne i j p f : j <> i -> set_mpc i p f j = f j.
Proof. intros Hne. unfold set_mpc. by rewrite (proj2 (Z.eqb_neq _ _)). Qed.

(** Preservation, from the facts about the thread that moved. *)
Lemma mutex_inv_move x i p inn hld own :
  mutex_inv x -> i <> 0 ->
  hld = (if decide (own = 0) then 0 else 1) ->
  (forall j, j <> i -> (own = j /\ j <> 0) <-> (owner x = j /\ j <> 0)) ->
  (owns p = true <-> own = i) ->
  (inside p = true -> inn = true) ->
  (inside (at_mpc x i) = false -> inside p = true -> inner x = false) ->
  (inside (at_mpc x i) = false -> inn = inner x \/ inner x = false) ->
  mutex_inv (mk_mutex inn hld own (set_mpc i p (at_mpc x))).
Proof.
  intros [Hh Ho Hi Hin Hz] Hi0 Hhl Hoth Hown Hinp Hfree Hkeep.
  assert (forall j, j <> i -> inside (at_mpc x j) = true -> inside (at_mpc x i) = false) as Hex.
  { intros j Hne Hj. destruct (inside (at_mpc x i)) eqn:E; [|done]. by destruct Hne; apply Hin. }
  split; cbn [inner held owner at_mpc]; [done|..].
  - intros j. destruct (Z.eq_dec j i) as [->|Hne]; [rewrite set_mpc_eq; tauto|].
    rewrite set_mpc_ne by done. rewrite Ho. symmetry. by apply Hoth.
  - intros j. destruct (Z.eq_dec j i) as [->|Hne]; [by rewrite set_mpc_eq|].
    rewrite set_mpc_ne by done. intros Hj. pose proof (Hex j Hne Hj) as Hni.
    destruct (Hkeep Hni) as [->|Hf]; [by apply (Hi j)|]. by rewrite (Hi j Hj) in Hf.
  - intros j k. destruct (Z.eq_dec j i) as [->|Hj], (Z.eq_dec k i) as [->|Hk];
      rewrite ?set_mpc_eq, ?set_mpc_ne by done; intros A B; [done|..|by apply Hin].
    + rewrite (Hi k B) in Hfree. by specialize (Hfree (Hex k Hk B) A).
    + rewrite (Hi j A) in Hfree. by specialize (Hfree (Hex j Hj A) B).
  - by rewrite set_mpc_ne by congruence.
Qed.

Lemma mutex_inv_step x x' : mutex_step x x' -> mutex_inv x -> mutex_inv x'.
Proof.
  intros Hstep Hinv. pose proof Hinv as [Hh Ho Hi Hin Hz].
  destruct Hstep as [i x Hp Hat|i x Hat Hf|i x Hat Hd|i x Hat Hd|i x Hat|i x Hat|i x Hat|i x Hat Hf|i x Hat];
    assert (i <> 0) as Hnz by (intros ->; congruence || lia);
    specialize (Ho i) as Hoi; specialize (Hi i) as Hii; rewrite Hat in Hoi, Hii; cbn [owns inside] in Hoi, Hii;
    apply mutex_inv_move; auto; rewrite ?Hat; cbn [owns inside]; auto; try (intuition congruence).
  all: try (rewrite decide_False by done; done); try (rewrite decide_True by done; done).
  intros j Hne. rewrite Hd in Hh. destruct (decide (owner x = 0)); [|done]. intuition congruence.
Qed.

(** ** Properties *)

(** C18: mutual exclusion and freedom from lost locks: in every interleaving of
    any number of CPUs at most one holds the lock; when no CPU holds it the word
    is 0, so the next exchange by any waiting CPU takes it, and while a CPU holds
    it every exchange by another leaves that CPU spinning. *)
Theorem spinlock_mutual_exclusion s :
  rtc spin_step spin_init s ->
  (forall i j, at_pc s i = Holding -> at_pc s j = Holding -> i = j) /\
  (forall i, at_pc s i = Exchange -> (forall j, at_pc s j <> Holding) ->
     at_pc (exchange i s) i = Holding) /\
  (forall i k, at_pc s i = Exchange -> at_pc s k = Holding -> at_pc (exchange i s) i = Spin).
Proof.
  intros Hr. apply spin_reachable in Hr as [[Hv Hn]|(Hv & k & Hk & Hu)]; split_and!.
  - intros i j Hi. by destruct (Hn i).
  - intros i Hi _. unfold exchange. cbn [at_pc]. rewrite set_pc_eq, Hv. done.
  - intros i j _ Hj. by destruct (Hn j).
  - intros i j Hi Hj. transitivity k; [by apply Hu|symmetry; by apply Hu].
  - intros i _ Hn. by destruct (Hn k).
  - intros i j Hi Hj. unfold exchange. cbn [at_pc]. rewrite set_pc_eq, Hv. done.
Qed.

(** a mutex is owned by at most one thread between its [mutex_lock] and its
    [mutex_unlock], in every interleaving; the recorded owner is that thread and
    [held] is 1 exactly while there is one. *)
Theorem mutex_mutual_exclusion x :
  rtc mutex_step mutex_init x ->
  (forall i j, owns (at_mpc x i) = true -> owns (at_mpc x j) = true -> i = j) /\
  (forall i, at_mpc x i = MOwner -> held x = 1 /\ owner x = i) /\
  (held x = 0 <-> forall i, owns (at_mpc x i) = false).
Proof.
  intros Hr. assert (mutex_inv x) as [Hh Ho Hi Hin Hz].
  { assert (mutex_inv mutex_init) as H0.
    { split; try done. intros i. cbn. split; [done|]. intros [<- ?]. done. }
    induction Hr; eauto using mutex_inv_step. }
  split_and!.
  - intros i j [<- _]%Ho [<- _]%Ho. done.
  - intros i Hat. assert (owns (at_mpc x i) = true) as [<- Hnz]%Ho by (by rewrite Hat).
    split; [|done]. rewrite Hh. by rewrite decide_False.
  - rewrite Hh. split.
    + case_decide as E; [|done]. intros _ i. apply not_true_is_false. intros [<- ?]%Ho. done.
    + intros Hn. case_decide as E; [done|]. specialize (Hn (owner x)).
      assert (owns (at_mpc x (owner x)) = true) by (by apply Ho). congruence.
Qed.

(** ** Examples *)

Definition spin_one : spin := mk_spin 0 (set_pc 3 Exchange (fun _ => Idle)).

Lemma spinlock_mutual_exclusion_witness : at_pc (exchange 3 spin_one) 3 = Holding.
Proof.
  destruct (spinlock_mutual_exclusion spin_one) as (_ & H & _).
  - eapply rtc_l; [|apply rtc_refl]. apply (sp_enter 3 spin_init). reflexivity.
  - apply H; [reflexivity|]. intros j. unfold spin_one, set_pc. cbn. by destruct (j =? 3).
Defined.

Lemma mutex_mutual_exclusion_witness :
  let x := mk_mutex false 1 5 (set_mpc 5 MOwner (set_mpc 5 MGot (set_mpc 5 MTest
             (set_mpc 5 MLock (fun _ => MIdle))))) in
  held x = 1 /\ owner x = 5.
Proof.
  intros x. destruct (mutex_mutual_exclusion x) as (_ & H & _).
  - eapply rtc_l; [apply (mx_call 5); [lia|reflexivity]|].
    eapply rtc_l; [apply (mx_acquire 5); reflexivity|].
    eapply rtc_l; [apply (mx_take 5); reflexivity|].
    eapply rtc_l; [apply (mx_return 5); reflexivity|]. apply rtc_refl.
  - apply H. reflexivity.
Defined.
