(* ===== verification/Process.v ===== *)
(** Processes (kernel/process.c).

    The table of processes, the round-robin choice of the next ready process
    and the preemptive switch of [process_schedule_user_tick].  A [Process *]
    is the index of its table slot; a null result is [None].  The kernel's own
    process is slot 0, the shell is process 1.  The switch is modelled on the
    whole interrupt frame, so what a process resumes with is what was saved. *)
From stdpp Require Import base numbers list gmap option relations.
From Stdlib Require Import ZArith Lia.
From S2P Require Import Prelude Memory PageAllocator Vmm.

(** ** Definitions *)

Definition MAX_PROCESSES : Z := 32.
Definition ORE_PROC_UNUSED : Z := 0.
Definition ORE_PROC_READY : Z := 1.
Definition ORE_PROC_RUNNING : Z := 2.
Definition ORE_PROC_EXITED : Z := 3.
Definition ORE_PROC_BLOCKED : Z := 4.

Record InterruptFrame := mk_frame {
  f_r15 : Z;
  f_r14 : Z;
  f_r13 : Z;
  f_r12 : Z;
  f_r11 : Z;
  f_r10 : Z;
  f_r9 : Z;
  f_r8 : Z;
  f_rdi : Z;
  f_rsi : Z;
  f_rbp : Z;
  f_rdx : Z;
  f_rcx : Z;
  f_rbx : Z;
  f_rax : Z;
  f_vector : Z;
  f_error_code : Z;
  f_rip : Z;
  f_cs : Z;
  f_rflags : Z;
  f_rsp : Z;
  f_ss : Z;
}.

Record AddressSpace := mk_as { pml4_phys : Z; user_base : Z; user_limit : Z }.

Record UserAllocation := mk_alloc { ua_virt : Z; ua_phys : Z; ua_pages : Z; ua_used : bool }.

Record Handle := mk_handle { h_type : Z; h_offset : Z; h_flags : Z; h_path : list Z }.

Definition ORE_MAX_HANDLES : nat := 64.
Definition ORE_MAX_USER_ALLOCS : nat := 64.

Record Process := mk_process {
  p_pid : Z;
  p_name : list Z;
  p_state : Z;
  p_user_entry : Z;
  p_user_stack : Z;
  p_user_segment_count : Z;
  p_parent_pid : Z;
  p_syscall_count : Z;
  p_saved_user_rip : Z;
  p_saved_user_rsp : Z;
  p_waiting_for_pid : Z;
  p_wait_return_rip : Z;
  p_wait_return_rsp : Z;
  p_has_user_frame : bool;
  p_user_frame : InterruptFrame;
  p_args : list Z;
  p_address_space : AddressSpace;
  p_handles : list Handle;
  p_user_allocs : list UserAllocation;
  p_user_alloc_next : Z;
  p_user_alloc_pages_total : Z;
  p_exited : Z;
  p_exit_code : Z;
}.

Definition set_state (state' : Z) (p : Process) : Process :=
  mk_process (p_pid p) (p_name p) state' (p_user_entry p) (p_user_stack p)
    (p_user_segment_count p) (p_parent_pid p) (p_syscall_count p) (p_saved_user_rip p)
    (p_saved_user_rsp p) (p_waiting_for_pid p) (p_wait_return_rip p) (p_wait_return_rsp p)
    (p_has_user_frame p) (p_user_frame p) (p_args p) (p_address_space p) (p_handles p)
    (p_user_allocs p) (p_user_alloc_next p) (p_user_alloc_pages_total p) (p_exited p)
    (p_exit_code p).

Definition set_saved_user_rip (saved_user_rip' : Z) (p : Process) : Process :=
  mk_process (p_pid p) (p_name p) (p_state p) (p_user_entry p) (p_user_stack p)
    (p_user_segment_count p) (p_parent_pid p) (p_syscall_count p) saved_user_rip'
    (p_saved_user_rsp p) (p_waiting_for_pid p) (p_wait_return_rip p) (p_wait_return_rsp p)
    (p_has_user_frame p) (p_user_frame p) (p_args p) (p_address_space p) (p_handles p)
    (p_user_allocs p) (p_user_alloc_next p) (p_user_alloc_pages_total p) (p_exited p)
    (p_exit_code p).

Definition set_saved_user_rsp (saved_user_rsp' : Z) (p : Process) : Process :=
  mk_process (p_pid p) (p_name p) (p_state p) (p_user_entry p) (p_user_stack p)
    (p_user_segment_count p) (p_parent_pid p) (p_syscall_count p) (p_saved_user_rip p)
    saved_user_rsp' (p_waiting_for_pid p) (p_wait_return_rip p) (p_wait_return_rsp p)
    (p_has_user_frame p) (p_user_frame p) (p_args p) (p_address_space p) (p_handles p)
    (p_user_allocs p) (p_user_alloc_next p) (p_user_alloc_pages_total p) (p_exited p)
    (p_exit_code p).

Definition set_syscall_count (syscall_count' : Z) (p : Process) : Process :=
  mk_process (p_pid p) (p_name p) (p_state p) (p_user_entry p) (p_user_stack p)
    (p_user_segment_count p) (p_parent_pid p) syscall_count' (p_saved_user_rip p)
    (p_saved_user_rsp p) (p_waiting_for_pid p) (p_wait_return_rip p) (p_wait_return_rsp p)
    (p_has_user_frame p) (p_user_frame p) (p_args p) (p_address_space p) (p_handles p)
    (p_user_allocs p) (p_user_alloc_next p) (p_user_alloc_pages_total p) (p_exited p)
    (p_exit_code p).

Definition set_waiting_for_pid (waiting_for_pid' : Z) (p : Process) : Process :=
  mk_process (p_pid p) (p_name p) (p_state p) (p_user_entry p) (p_user_stack p)
    (p_user_segment_count p) (p_parent_pid p) (p_syscall_count p) (p_saved_user_rip p)
    (p_saved_user_rsp p) waiting_for_pid' (p_wait_return_rip p) (p_wait_return_rsp p)
    (p_has_user_frame p) (p_user_frame p) (p_args p) (p_address_space p) (p_handles p)
    (p_user_allocs p) (p_user_alloc_next p) (p_user_alloc_pages_total p) (p_exited p)
    (p_exit_code p).

Definition set_wait_return_rip (wait_return_rip' : Z) (p : Process) : Process :=
  mk_process (p_pid p) (p_name p) (p_state p) (p_user_entry p) (p_user_stack p)
    (p_user_segment_count p) (p_parent_pid p) (p_syscall_count p) (p_saved_user_rip p)
    (p_saved_user_rsp p) (p_waiting_for_pid p) wait_return_rip' (p_wait_return_rsp p)
    (p_has_user_frame p) (p_user_frame p) (p_args p) (p_address_space p) (p_handles p)
    (p_user_allocs p) (p_user_alloc_next p) (p_user_alloc_pages_total p) (p_exited p)
    (p_exit_code p).

Definition set_wait_return_rsp (wait_return_rsp' : Z) (p : Process) : Process :=
  mk_process (p_pid p) (p_name p) (p_state p) (p_user_entry p) (p_user_stack p)
    (p_user_segment_count p) (p_parent_pid p) (p_syscall_count p) (p_saved_user_rip p)
    (p_saved_user_rsp p) (p_waiting_for_pid p) (p_wait_return_rip p) wait_return_rsp'
    (p_has_user_frame p) (p_user_frame p) (p_args p) (p_address_space p) (p_handles p)
    (p_user_allocs p) (p_user_alloc_next p) (p_user_alloc_pages_total p) (p_exited p)
    (p_exit_code p).

Definition set_has_user_frame (has_user_frame' : bool) (p : Process) : Process :=
  mk_process (p_pid p) (p_name p) (p_state p) (p_user_entry p) (p_user_stack p)
    (p_user_segment_count p) (p_parent_pid p) (p_syscall_count p) (p_saved_user_rip p)
    (p_saved_user_rsp p) (p_waiting_for_pid p) (p_wait_return_rip p) (p_wait_return_rsp p)
    has_user_frame' (p_user_frame p) (p_args p) (p_address_space p) (p_handles p)
    (p_user_allocs p) (p_user_alloc_next p) (p_user_alloc_pages_total p) (p_exited p)
    (p_exit_code p).

Definition set_user_frame (user_frame' : InterruptFrame) (p : Process) : Process :=
  mk_process (p_pid p) (p_name p) (p_state p) (p_user_entry p) (p_user_stack p)
    (p_user_segment_count p) (p_parent_pid p) (p_syscall_count p) (p_saved_user_rip p)
    (p_saved_user_rsp p) (p_waiting_for_pid p) (p_wait_return_rip p) (p_wait_return_rsp p)
    (p_has_user_frame p) user_frame' (p_args p) (p_address_space p) (p_handles p)
    (p_user_allocs p) (p_user_alloc_next p) (p_user_alloc_pages_total p) (p_exited p)
    (p_exit_code p).

Definition set_address_space (address_space' : AddressSpace) (p : Process) : Process :=
  mk_process (p_pid p) (p_name p) (p_state p) (p_user_entry p) (p_user_stack p)
    (p_user_segment_count p) (p_parent_pid p) (p_syscall_count p) (p_saved_user_rip p)
    (p_saved_user_rsp p) (p_waiting_for_pid p) (p_wait_return_rip p) (p_wait_return_rsp p)
    (p_has_user_frame p) (p_user_frame p) (p_args p) address_space' (p_handles p)
    (p_user_allocs p) (p_user_alloc_next p) (p_user_alloc_pages_total p) (p_exited p)
    (p_exit_code p).

Definition set_user_alloc_next (user_alloc_next' : Z) (p : Process) : Process :=
  mk_process (p_pid p) (p_name p) (p_state p) (p_user_entry p) (p_user_stack p)
    (p_user_segment_count p) (p_parent_pid p) (p_syscall_count p) (p_saved_user_rip p)
    (p_saved_user_rsp p) (p_waiting_for_pid p) (p_wait_return_rip p) (p_wait_return_rsp p)
    (p_has_user_frame p) (p_user_frame p) (p_args p) (p_address_space p) (p_handles p)
    (p_user_allocs p) user_alloc_next' (p_user_alloc_pages_total p) (p_exited p)
    (p_exit_code p).

Definition set_user_alloc_pages_total (user_alloc_pages_total' : Z) (p : Process) : Process :=
  mk_process (p_pid p) (p_name p) (p_state p) (p_user_entry p) (p_user_stack p)
    (p_user_segment_count p) (p_parent_pid p) (p_syscall_count p) (p_saved_user_rip p)
    (p_saved_user_rsp p) (p_waiting_for_pid p) (p_wait_return_rip p) (p_wait_return_rsp p)
    (p_has_user_frame p) (p_user_frame p) (p_args p) (p_address_space p) (p_handles p)
    (p_user_allocs p) (p_user_alloc_next p) user_alloc_pages_total' (p_exited p)
    (p_exit_code p).

Definition set_user_allocs (user_allocs' : list UserAllocation) (p : Process) : Process :=
  mk_process (p_pid p) (p_name p) (p_state p) (p_user_entry p) (p_user_stack p)
    (p_user_segment_count p) (p_parent_pid p) (p_syscall_count p) (p_saved_user_rip p)
    (p_saved_user_rsp p) (p_waiting_for_pid p) (p_wait_return_rip p) (p_wait_return_rsp p)
    (p_has_user_frame p) (p_user_frame p) (p_args p) (p_address_space p) (p_handles p)
    user_allocs' (p_user_alloc_next p) (p_user_alloc_pages_total p) (p_exited p)
    (p_exit_code p).

Definition set_handles (handles' : list Handle) (p : Process) : Process :=
  mk_process (p_pid p) (p_name p) (p_state p) (p_user_entry p) (p_user_stack p)
    (p_user_segment_count p) (p_parent_pid p) (p_syscall_count p) (p_saved_user_rip p)
    (p_saved_user_rsp p) (p_waiting_for_pid p) (p_wait_return_rip p) (p_wait_return_rsp p)
    (p_has_user_frame p) (p_user_frame p) (p_args p) (p_address_space p) handles'
    (p_user_allocs p) (p_user_alloc_next p) (p_user_alloc_pages_total p) (p_exited p)
    (p_exit_code p).

Definition set_exited (exited' : Z) (p : Process) : Process :=
  mk_process (p_pid p) (p_name p) (p_state p) (p_user_entry p) (p_user_stack p)
    (p_user_segment_count p) (p_parent_pid p) (p_syscall_count p) (p_saved_user_rip p)
    (p_saved_user_rsp p) (p_waiting_for_pid p) (p_wait_return_rip p) (p_wait_return_rsp p)
    (p_has_user_frame p) (p_user_frame p) (p_args p) (p_address_space p) (p_handles p)
    (p_user_allocs p) (p_user_alloc_next p) (p_user_alloc_pages_total p) exited'
    (p_exit_code p).

Definition set_exit_code (exit_code' : Z) (p : Process) : Process :=
  mk_process (p_pid p) (p_name p) (p_state p) (p_user_entry p) (p_user_stack p)
    (p_user_segment_count p) (p_parent_pid p) (p_syscall_count p) (p_saved_user_rip p)
    (p_saved_user_rsp p) (p_waiting_for_pid p) (p_wait_return_rip p) (p_wait_return_rsp p)
    (p_has_user_frame p) (p_user_frame p) (p_args p) (p_address_space p) (p_handles p)
    (p_user_allocs p) (p_user_alloc_next p) (p_user_alloc_pages_total p) (p_exited p)
    exit_code'.

Definition set_parent_pid (parent_pid' : Z) (p : Process) : Process :=
  mk_process (p_pid p) (p_name p) (p_state p) (p_user_entry p) (p_user_stack p)
    (p_user_segment_count p) parent_pid' (p_syscall_count p) (p_saved_user_rip p)
    (p_saved_user_rsp p) (p_waiting_for_pid p) (p_wait_return_rip p) (p_wait_return_rsp p)
    (p_has_user_frame p) (p_user_frame p) (p_args p) (p_address_space p) (p_handles p)
    (p_user_allocs p) (p_user_alloc_next p) (p_user_alloc_pages_total p) (p_exited p)
    (p_exit_code p).

Definition set_args (args' : list Z) (p : Process) : Process :=
  mk_process (p_pid p) (p_name p) (p_state p) (p_user_entry p) (p_user_stack p)
    (p_user_segment_count p) (p_parent_pid p) (p_syscall_count p) (p_saved_user_rip p)
    (p_saved_user_rsp p) (p_waiting_for_pid p) (p_wait_return_rip p) (p_wait_return_rsp p)
    (p_has_user_frame p) (p_user_frame p) args' (p_address_space p) (p_handles p)
    (p_user_allocs p) (p_user_alloc_next p) (p_user_alloc_pages_total p) (p_exited p)
    (p_exit_code p).

Definition set_user_entry (user_entry' : Z) (p : Process) : Process :=
  mk_process (p_pid p) (p_name p) (p_state p) user_entry' (p_user_stack p)
    (p_user_segment_count p) (p_parent_pid p) (p_syscall_count p) (p_saved_user_rip p)
    (p_saved_user_rsp p) (p_waiting_for_pid p) (p_wait_return_rip p) (p_wait_return_rsp p)
    (p_has_user_frame p) (p_user_frame p) (p_args p) (p_address_space p) (p_handles p)
    (p_user_allocs p) (p_user_alloc_next p) (p_user_alloc_pages_total p) (p_exited p)
    (p_exit_code p).

Definition set_user_stack (user_stack' : Z) (p : Process) : Process :=
  mk_process (p_pid p) (p_name p) (p_state p) (p_user_entry p) user_stack'
    (p_user_segment_count p) (p_parent_pid p) (p_syscall_count p) (p_saved_user_rip p)
    (p_saved_user_rsp p) (p_waiting_for_pid p) (p_wait_return_rip p) (p_wait_return_rsp p)
    (p_has_user_frame p) (p_user_frame p) (p_args p) (p_address_space p) (p_handles p)
    (p_user_allocs p) (p_user_alloc_next p) (p_user_alloc_pages_total p) (p_exited p)
    (p_exit_code p).

Definition set_user_segment_count (user_segment_count' : Z) (p : Process) : Process :=
  mk_process (p_pid p) (p_name p) (p_state p) (p_user_entry p) (p_user_stack p)
    user_segment_count' (p_parent_pid p) (p_syscall_count p) (p_saved_user_rip p)
    (p_saved_user_rsp p) (p_waiting_for_pid p) (p_wait_return_rip p) (p_wait_return_rsp p)
    (p_has_user_frame p) (p_user_frame p) (p_args p) (p_address_space p) (p_handles p)
    (p_user_allocs p) (p_user_alloc_next p) (p_user_alloc_pages_total p) (p_exited p)
    (p_exit_code p).
Definition zero_frame : InterruptFrame := mk_frame 0 0 0 0 0 0 0 0 0 0 0 0 0 0 0 0 0 0 0 0 0 0.

(** A [Process] of zero bytes. *)
Definition zero_process : Process :=
  mk_process 0 [] ORE_PROC_UNUSED 0 0 0 0 0 0 0 0 0 0 false zero_frame [] (mk_as 0 0 0)
    (replicate ORE_MAX_HANDLES (mk_handle 0 0 0 []))
    (replicate ORE_MAX_USER_ALLOCS (mk_alloc 0 0 0 false)) 0 0 0 0.

#[export] Instance Process_inhabited : Inhabited Process := populate zero_process.

(** [processes], [process_count], [current_proc]; [kernel_proc] is slot 0. *)
Record proc_table := mk_table {
  processes : gmap Z Process;
  process_count : Z;
  current_proc : option Z;
}.

Definition proc (pt : proc_table) (i : Z) : Process := processes pt !!! i.

Definition update (i : Z) (f : Process -> Process) (pt : proc_table) : proc_table :=
  mk_table (<[i := f (proc pt i)]> (processes pt)) (process_count pt) (current_proc pt).

Definition process_kernel : Z := 0.

(** Names are C strings: the bytes before the terminator, at most 63 kept. *)
Definition store_process_name (name : list Z) : list Z := take 63 name.

Definition process_init (kernel_pml4 : Z) (name : list Z) (pt : proc_table) : proc_table :=
  let p := proc pt 0 in
  let p := mk_process 0 (store_process_name name) ORE_PROC_RUNNING (p_user_entry p) (p_user_stack p)
             (p_user_segment_count p) (p_parent_pid p) (p_syscall_count p) (p_saved_user_rip p)
             (p_saved_user_rsp p) (p_waiting_for_pid p) (p_wait_return_rip p) (p_wait_return_rsp p)
             (p_has_user_frame p) (p_user_frame p) (p_args p)
             (mk_as kernel_pml4 USER_BASE USER_LIMIT) (p_handles p) (p_user_allocs p)
             (p_user_alloc_next p) (p_user_alloc_pages_total p) (p_exited p) (p_exit_code p) in
  mk_table (<[0 := p]> (processes pt)) 1 (Some 0).

(** [address_space_clone_kernel] on non-null arguments. *)
Definition address_space_clone_kernel (src : AddressSpace) : AddressSpace :=
  mk_as (pml4_phys src) (user_base src) (user_limit src).

Definition process_create_kernel (name : list Z) (pt : proc_table) : option Z * proc_table :=
  if MAX_PROCESSES <=? process_count pt then (None, pt) else
  let i := process_count pt in
  let p := zero_process in
  let p := mk_process i (store_process_name name) ORE_PROC_READY (p_user_entry p) (p_user_stack p)
             (p_user_segment_count p) (p_parent_pid p) (p_syscall_count p) (p_saved_user_rip p)
             (p_saved_user_rsp p) (p_waiting_for_pid p) (p_wait_return_rip p) (p_wait_return_rsp p)
             (p_has_user_frame p) (p_user_frame p) (p_args p)
             (address_space_clone_kernel (p_address_space (proc pt process_kernel)))
             (p_handles p) (p_user_allocs p) (p_user_alloc_next p) (p_user_alloc_pages_total p)
             (p_exited p) (p_exit_code p) in
  (Some i, mk_table (<[i := p]> (processes pt)) (i + 1) (current_proc pt)).

Section CreateUser.
Context {S : Type} `{PageAllocator S}.

Definition process_create_user (kernel_pml4 : Z) (name : list Z) (pt : proc_table) (st : machine S)
  : outcome (option Z * proc_table * machine S) :=
  let '(r, pt) := process_create_kernel name pt in
  match r with
  | None => Ok (None, pt, st)
  | Some i =>
      let? (root, st) := vmm_create_user_pml4 kernel_pml4 st in
      let pt := update i (fun p =>
        set_user_alloc_next 0x000000a000000000
          (set_address_space (mk_as root (user_base (p_address_space p))
                                (user_limit (p_address_space p))) p)) pt in
      Ok (Some i, pt, st)
  end.
End CreateUser.

Definition process_current (pt : proc_table) : Z := default process_kernel (current_proc pt).

Definition process_set_current (i : Z) (pt : proc_table) : proc_table :=
  let pt := mk_table (processes pt) (process_count pt) (Some i) in
  update i (set_state ORE_PROC_RUNNING) pt.

(** The loop of [process_find]. *)
Fixpoint find_loop (n : nat) (i pid : Z) (pt : proc_table) : option Z :=
  match n with
  | O => None
  | S n => if p_pid (proc pt i) =? pid then Some i else find_loop n (i + 1) pid pt
  end.

Definition process_find (pid : Z) (pt : proc_table) : option Z :=
  find_loop (Z.to_nat (process_count pt)) 0 pid pt.

Definition process_table_count (pt : proc_table) : Z := process_count pt.

Definition process_table_at (index : Z) (pt : proc_table) : option Z :=
  if process_count pt <=? index then None else Some index.

(** The slot visited at step [scanned] of the scan. *)
Definition scan_slot (count start scanned : Z) : Z :=
  let i := start + scanned - 1 in if count <=? i then 1 + (i - count) else i.

Fixpoint next_ready_loop (n : nat) (scanned start exclude_pid : Z) (pt : proc_table) : option Z :=
  match n with
  | O => None
  | S n =>
      let i := scan_slot (process_count pt) start scanned in
      if negb (p_pid (proc pt i) =? exclude_pid) && (p_state (proc pt i) =? ORE_PROC_READY)
      then Some i
      else next_ready_loop n (scanned + 1) start exclude_pid pt
  end.

(** Both process.c and syscall.c have this function. *)
Definition next_ready_process (exclude_pid : Z) (pt : proc_table) : option Z :=
  if process_count pt <=? 1 then None else
  let start := u32 (exclude_pid + 1) in
  let start := if (start =? 0) || (process_count pt <=? start) then 1 else start in
  next_ready_loop (Z.to_nat (process_count pt - 1)) 1 start exclude_pid pt.

(** The frame of a process that was never preempted. *)
Definition fresh_frame (p : Process) : InterruptFrame :=
  mk_frame 0 0 0 0 0 0 0 0 0 0 0 0 0 0 0 32 0
    (if p_saved_user_rip p =? 0 then p_user_entry p else p_saved_user_rip p) 0x23 0x202
    (if p_saved_user_rsp p =? 0 then p_user_stack p else p_saved_user_rsp p) 0x1b.

(** [process_schedule_user_tick]: the result, the frame to return to and the
    table; the cr3 loaded is the [pml4_phys] of the new current process. *)
Definition process_schedule_user_tick (frame : InterruptFrame) (pt : proc_table)
  : Z * InterruptFrame * proc_table :=
  if negb (Z.land (f_cs frame) 3 =? 3) then (0, frame, pt) else
  let cur := process_current pt in
  if negb (p_state (proc pt cur) =? ORE_PROC_RUNNING) then (0, frame, pt) else
  if p_pid (proc pt cur) =? 1 then (0, frame, pt) else
  match next_ready_process (p_pid (proc pt cur)) pt with
  | None => (0, frame, pt)
  | Some next =>
      let pt := update cur (fun p =>
        set_state ORE_PROC_READY (set_saved_user_rsp (f_rsp frame) (set_saved_user_rip (f_rip frame)
          (set_has_user_frame true (set_user_frame frame p))))) pt in
      if p_has_user_frame (proc pt next) then
        (1, p_user_frame (proc pt next), process_set_current next pt)
      else
        let frame := fresh_frame (proc pt next) in
        let pt := update next (fun p => set_has_user_frame true (set_user_frame frame p)) pt in
        (1, frame, process_set_current next pt)
  end.

(** ** Table lemmas *)

Lemma proc_update i f pt j :
  proc (update i f pt) j = if j =? i then f (proc pt i) else proc pt j.
Proof.
  unfold proc, update. cbn [processes]. destruct (Z.eqb_spec j i) as [->|Hne].
  - apply lookup_total_insert_eq.
  - by apply lookup_total_insert_ne.
Qed.

Lemma proc_set_current i pt j :
  proc (process_set_current i pt) j =
  if j =? i then set_state ORE_PROC_RUNNING (proc pt i) else proc pt j.
Proof. unfold process_set_current. by rewrite proc_update. Qed.

(** The kernel is slot 0; slots hold their own pid; among the user processes
    only the current one is running. *)
Record table_ok (pt : proc_table) : Prop := {
  tk_count : 1 <= process_count pt <= MAX_PROCESSES;
  tk_pid : forall i, 0 <= i < process_count pt -> p_pid (proc pt i) = i;
  tk_current : 0 <= process_current pt < process_count pt;
  tk_running : forall i, 1 <= i < process_count pt -> p_state (proc pt i) = ORE_PROC_RUNNING ->
    i = process_current pt;
}.

Lemma find_loop_spec n i pid pt :
  (forall j, i <= j < i + Z.of_nat n -> p_pid (proc pt j) = j) ->
  find_loop n i pid pt = if (i <=? pid) && (pid <? i + Z.of_nat n) then Some pid else None.
Proof.
  revert i. induction n as [|n IH]; intros i Hp; cbn [find_loop]; [cmp_cases|].
  rewrite (Hp i) by lia. destruct (Z.eqb_spec i pid) as [->|Hne]; [cmp_cases|].
  rewrite IH by (intros; apply Hp; lia). cmp_cases.
Qed.

Lemma process_find_spec pid pt :
  table_ok pt -> process_find pid pt = if (0 <=? pid) && (pid <? process_count pt) then Some pid else None.
Proof.
  intros [Hc Hp _ _]. unfold process_find. rewrite find_loop_spec.
  - by rewrite Z2Nat.id by lia.
  - intros j Hj. apply Hp. lia.
Qed.

(** ** Round robin *)

(** A process that may be switched to, other than [e]. *)
Definition candidate (pt : proc_table) (e i : Z) : Prop :=
  1 <= i < process_count pt /\ i <> e /\ p_state (proc pt i) = ORE_PROC_READY.

(** Where the scan starts, and how far slot [i] is from it, wrapping from the
    last slot to slot 1. *)
Definition scan_start (e count : Z) : Z :=
  if (u32 (e + 1) =? 0) || (count <=? u32 (e + 1)) then 1 else u32 (e + 1).
Definition distance (start count i : Z) : Z := (i - start) mod (count - 1).

Lemma scan_slot_spec count start k :
  1 < count -> 1 <= start < count -> 1 <= k < count ->
  1 <= scan_slot count start k < count /\ distance start count (scan_slot count start k) = k - 1.
Proof.
  intros Hc Hs Hk. unfold scan_slot, distance. destruct (Z.leb_spec count (start + k - 1)).
  - split; [lia|]. replace (1 + (start + k - 1 - count) - start) with (k - 1 + -1 * (count - 1)) by lia.
    rewrite Z.mod_add, Z.mod_small by lia. done.
  - split; [lia|]. replace (start + k - 1 - start) with (k - 1) by lia. apply Z.mod_small. lia.
Qed.

Lemma distance_inj start count i j :
  1 <= i < count -> 1 <= j < count -> distance start count i = distance start count j -> i = j.
Proof.
  unfold distance. intros Hi Hj E. destruct (Z.eq_dec count 2); [lia|].
  assert ((i - j) mod (count - 1) = 0) as Hm.
  { replace (i - j) with (i - start - (j - start)) by lia. rewrite Zminus_mod, E, Z.sub_diag.
    apply Z.mod_0_l. lia. }
  apply Z.mod_divide in Hm as [q Hq]; [|lia].
  assert (-1 < q) by (apply Z.lt_nge; intros ?; assert (q * (count - 1) <= -1 * (count - 1))
    by (apply Z.mul_le_mono_nonneg_r; lia); lia).
  assert (q < 1) by (apply Z.lt_nge; intros ?; assert (1 * (count - 1) <= q * (count - 1))
    by (apply Z.mul_le_mono_nonneg_r; lia); lia).
  assert (q = 0) as -> by lia. lia.
Qed.

Lemma next_ready_loop_spec n k start e pt :
  table_ok pt -> 1 < process_count pt -> 1 <= start < process_count pt ->
  1 <= k -> k + Z.of_nat n = process_count pt ->
  match next_ready_loop n k start e pt with
  | Some i => candidate pt e i /\ k - 1 <= distance start (process_count pt) i /\
              forall j, candidate pt e j -> k - 1 <= distance start (process_count pt) j -> distance start (process_count pt) i <= distance start (process_count pt) j
  | None => forall j, candidate pt e j -> distance start (process_count pt) j < k - 1
  end.
Proof.
  intros Hok Hc Hs. revert k. induction n as [|n IH]; intros k Hk Hn; cbn [next_ready_loop].
  { intros j _. unfold distance.
    pose proof (Z.mod_pos_bound (j - start) (process_count pt - 1) ltac:(lia)). lia. }
  destruct (scan_slot_spec (process_count pt) start k Hc Hs ltac:(lia)) as [Hr Hd].
  set (i := scan_slot _ _ _) in *. rewrite (tk_pid _ Hok i) by lia.
  assert (forall j, candidate pt e j -> distance start (process_count pt) j = k - 1 -> j = i) as Hji.
  { intros j (Hj & _) Hdj. apply (distance_inj start (process_count pt)); auto. lia. }
  destruct (negb (i =? e) && (p_state (proc pt i) =? ORE_PROC_READY)) eqn:Ei.
  - bool_to_prop. split; [split; [lia|done]|]. split; [lia|]. intros j _ Hj. lia.
  - assert (~ candidate pt e i) as Hni.
    { intros (_ & Hne & Hst). rewrite Hst, (proj2 (Z.eqb_neq _ _)) in Ei by done. done. }
    specialize (IH (k + 1) ltac:(lia) ltac:(lia)). cbn zeta in IH.
    destruct (next_ready_loop n (k + 1) start e pt) as [i'|].
    + destruct IH as (H1 & H2 & H3). split; [done|]. split; [lia|].
      intros j Hj Hdj. destruct (Z.eq_dec (distance start (process_count pt) j) (k - 1)) as [E|]; [|apply H3; [done|lia]].
      by rewrite (Hji j Hj E) in Hj.
    + intros j Hj. specialize (IH j Hj). destruct (Z.eq_dec (distance start (process_count pt) j) (k - 1)) as [E|]; [|lia].
      by rewrite (Hji j Hj E) in Hj.
Qed.

Lemma scan_start_bound e count : 1 < count <= MAX_PROCESSES -> 1 <= scan_start e count < count.
Proof.
  intros Hc. unfold scan_start. pose proof (u32_bound (e + 1)) as Hb. unfold word32 in Hb.
  destruct (Z.eqb_spec (u32 (e + 1)) 0); cbn [orb]; [lia|].
  destruct (Z.leb_spec count (u32 (e + 1))); lia.
Qed.

Lemma next_ready_spec e pt :
  table_ok pt ->
  match next_ready_process e pt with
  | Some i => candidate pt e i /\
      forall j, candidate pt e j ->
        distance (scan_start e (process_count pt)) (process_count pt) i <=
        distance (scan_start e (process_count pt)) (process_count pt) j
  | None => forall j, ~ candidate pt e j
  end.
Proof.
  intros Hok. pose proof (tk_count _ Hok) as Hcnt. unfold next_ready_process.
  destruct (Z.leb_spec (process_count pt) 1).
  { intros j (Hj & _). lia. }
  fold (scan_start e (process_count pt)).
  pose proof (scan_start_bound e (process_count pt) ltac:(lia)) as Hs.
  pose proof (next_ready_loop_spec (Z.to_nat (process_count pt - 1)) 1 _ e pt Hok ltac:(lia) Hs
    ltac:(lia) ltac:(lia)) as Hl. cbn zeta in Hl.
  assert (forall j, 0 <= distance (scan_start e (process_count pt)) (process_count pt) j) as Hpos.
  { intros j. unfold distance. apply Z.mod_pos_bound. lia. }
  destruct (next_ready_loop _ _ _ _ _) as [i|].
  - destruct Hl as (H1 & _ & H3). split; [done|]. intros j Hj. apply H3; [done|]. apply Hpos.
  - intros j Hj. specialize (Hl j Hj). specialize (Hpos j). lia.
Qed.

(** ** The switch *)

(** The frame a process resumes with. *)
Definition resume_frame (p : Process) : InterruptFrame :=
  if p_has_user_frame p then p_user_frame p else fresh_frame p.

Definition preempts (frame : InterruptFrame) (pt : proc_table) : bool :=
  let cur := proc pt (process_current pt) in
  (Z.land (f_cs frame) 3 =? 3) && (p_state cur =? ORE_PROC_RUNNING) && negb (p_pid cur =? 1).

Lemma schedule_cases frame pt :
  table_ok pt ->
  let cur := process_current pt in
  match (if preempts frame pt then next_ready_process cur pt else None) with
  | None => process_schedule_user_tick frame pt = (0, frame, pt)
  | Some next => exists pt', process_schedule_user_tick frame pt =
                               (1, resume_frame (proc pt next), pt') /\
      next <> cur /\ process_current pt' = next /\ process_count pt' = process_count pt /\
      p_state (proc pt' next) = ORE_PROC_RUNNING /\ p_pid (proc pt' next) = next /\
      p_address_space (proc pt' next) = p_address_space (proc pt next) /\
      p_state (proc pt' cur) = ORE_PROC_READY /\ p_pid (proc pt' cur) = p_pid (proc pt cur) /\
      resume_frame (proc pt' cur) = frame /\
      (forall i, i <> cur -> i <> next -> proc pt' i = proc pt i)
  end.
Proof.
  intros Hok cur. unfold process_schedule_user_tick, preempts. fold cur.
  destruct (Z.land (f_cs frame) 3 =? 3); cbn [negb andb]; [|done].
  destruct (p_state (proc pt cur) =? ORE_PROC_RUNNING); cbn [negb andb]; [|done].
  destruct (p_pid (proc pt cur) =? 1); cbn [negb]; [done|].
  rewrite (tk_pid _ Hok cur) by apply Hok.
  pose proof (next_ready_spec cur pt Hok) as Hn.
  destruct (next_ready_process cur pt) as [next|]; [|done].
  destruct Hn as [(Hb & Hne & Hst) _]. set (upd := fun p => set_state _ _).
  set (pt1 := update cur upd pt).
  assert (proc pt1 next = proc pt next) as E1
    by (subst pt1; by rewrite proc_update, (proj2 (Z.eqb_neq _ _))).
  rewrite E1. unfold resume_frame.
  destruct (p_has_user_frame (proc pt next)) eqn:Eh.
  - eexists. split; [done|]. rewrite !proc_set_current, Z.eqb_refl, (proj2 (Z.eqb_neq cur next)) by done.
    subst pt1. rewrite !proc_update, Z.eqb_refl, (proj2 (Z.eqb_neq next cur)) by done.
    split_and!; try done; try (change (p_pid (proc pt next) = next); apply (tk_pid _ Hok); lia);
      try (change (p_pid (proc pt cur) = cur); apply (tk_pid _ Hok), Hok).
    intros i Hic Hin. rewrite proc_set_current, !proc_update.
    by rewrite ?(proj2 (Z.eqb_neq i next) Hin), ?(proj2 (Z.eqb_neq i cur) Hic).
  - eexists. split; [done|]. rewrite !proc_set_current, Z.eqb_refl, (proj2 (Z.eqb_neq cur next)) by done.
    rewrite !proc_update, Z.eqb_refl, (proj2 (Z.eqb_neq cur next)) by done.
    subst pt1. rewrite !proc_update, Z.eqb_refl, (proj2 (Z.eqb_neq next cur)) by done.
    split_and!; try done; try (change (p_pid (proc pt next) = next); apply (tk_pid _ Hok); lia);
      try (change (p_pid (proc pt cur) = cur); apply (tk_pid _ Hok), Hok).
    intros i Hic Hin. rewrite proc_set_current, !proc_update.
    by rewrite ?(proj2 (Z.eqb_neq i next) Hin), ?(proj2 (Z.eqb_neq i cur) Hic).
Qed.

Lemma schedule_table_ok frame pt r frame' pt' :
  table_ok pt -> process_schedule_user_tick frame pt = (r, frame', pt') -> table_ok pt'.
Proof.
  intros Hok E. pose proof (schedule_cases frame pt Hok) as Hs. cbn zeta in Hs.
  destruct (preempts frame pt); [|rewrite E in Hs; by injection Hs as _ _ ->].
  pose proof (next_ready_spec (process_current pt) pt Hok) as Hn.
  destruct (next_ready_process _ _) as [next|]; [|rewrite E in Hs; by injection Hs as _ _ ->].
  destruct Hs as (pt1 & E1 & Hne & Hcur & Hcnt & Hst & Hpid & _ & Hstc & Hpidc & _ & Hoth).
  rewrite E in E1. injection E1 as -> -> <-. destruct Hn as [(Hb & _) _].
  destruct Hok as [Hc Hp Hk Hr]. split; rewrite ?Hcnt, ?Hcur; auto; [|lia|].
  - intros i Hi. destruct (Z.eq_dec i next) as [->|]; [done|].
    destruct (Z.eq_dec i (process_current pt)) as [->|]; [rewrite Hpidc; auto|].
    rewrite Hoth by done. auto.
  - intros i Hi Hri. destruct (Z.eq_dec i next) as [->|]; [done|].
    destruct (Z.eq_dec i (process_current pt)) as [->|]; [by rewrite Hstc in Hri|].
    rewrite Hoth in Hri by done. by apply Hr in Hri.
Qed.

(** ** Properties *)

(** the choice of the next process is a fair cyclic scan: it returns the
    ready process closest after the excluded one (wrapping from the last slot to
    slot 1, never the kernel, never the excluded process), and nothing exactly
    when no other process is ready. *)
Theorem next_ready_process_correct e pt :
  table_ok pt ->
  match next_ready_process e pt with
  | Some i => candidate pt e i /\
      forall j, candidate pt e j -> j <> i ->
        distance (scan_start e (process_count pt)) (process_count pt) i <
        distance (scan_start e (process_count pt)) (process_count pt) j
  | None => forall j, ~ candidate pt e j
  end.
Proof.
  intros Hok. pose proof (next_ready_spec e pt Hok) as Hn.
  destruct (next_ready_process e pt) as [i|]; [|done]. destruct Hn as [Hi Hmin]. split; [done|].
  intros j Hj Hne. specialize (Hmin j Hj). apply Z.le_lteq in Hmin as [|E]; [done|].
  destruct Hne. symmetry. destruct Hi as [Hi _], Hj as [Hj _].
  by apply (distance_inj (scan_start e (process_count pt)) (process_count pt)).
Qed.

(** a timer tick in user mode either changes nothing (the interrupted code is
    the kernel or the shell, or nobody else is ready) or switches: the
    interrupted process is ready and will resume with exactly the interrupted
    frame, the next process runs with the frame it was preempted with (or its
    start frame) under its own page tables, no other process changes, and the
    table stays well formed. *)
Theorem preemption_correct frame pt :
  table_ok pt ->
  let cur := process_current pt in
  match (if preempts frame pt then next_ready_process cur pt else None) with
  | None => process_schedule_user_tick frame pt = (0, frame, pt)
  | Some next => exists pt', process_schedule_user_tick frame pt =
                               (1, resume_frame (proc pt next), pt') /\ table_ok pt' /\
      process_current pt' = next /\ p_state (proc pt' next) = ORE_PROC_RUNNING /\
      p_address_space (proc pt' next) = p_address_space (proc pt next) /\
      p_state (proc pt' cur) = ORE_PROC_READY /\ resume_frame (proc pt' cur) = frame /\
      (forall i, i <> cur -> i <> next -> proc pt' i = proc pt i)
  end.
Proof.
  intros Hok cur. pose proof (schedule_cases frame pt Hok) as Hs. cbn zeta in Hs. fold cur in Hs.
  destruct (if preempts frame pt then _ else _) as [next|]; [|done].
  destruct Hs as (pt' & E & H1 & H2 & H3 & H4 & H5 & H6 & H7 & H8 & H9 & H10).
  exists pt'. pose proof (schedule_table_ok _ _ _ _ _ Hok E). split_and!; auto.
Qed.

(** preemption is transparent: if a process is preempted at [frame] and a
    later tick switches back to it, it resumes with [frame], every register
    included. *)
Theorem preempt_resume_roundtrip frame pt g pt1 frame2 g2 pt2 :
  table_ok pt ->
  process_schedule_user_tick frame pt = (1, g, pt1) ->
  process_schedule_user_tick frame2 pt1 = (1, g2, pt2) ->
  process_current pt2 = process_current pt -> g2 = frame.
Proof.
  intros Hok E1 E2 Hcur. pose proof (schedule_table_ok _ _ _ _ _ Hok E1) as Hok1.
  pose proof (schedule_cases frame pt Hok) as Hs1. pose proof (schedule_cases frame2 pt1 Hok1) as Hs2.
  cbn zeta in Hs1, Hs2.
  destruct (if preempts frame pt then _ else _) as [n1|]; [|rewrite Hs1 in E1; discriminate E1].
  destruct (if preempts frame2 pt1 then _ else _) as [n2|]; [|rewrite Hs2 in E2; discriminate E2].
  destruct Hs1 as (pt' & E1' & _ & _ & _ & _ & _ & _ & _ & _ & Hres & _).
  destruct Hs2 as (pt'' & E2' & _ & Hc2 & _). rewrite E1 in E1'. rewrite E2 in E2'.
  injection E1' as _ <-. injection E2' as -> <-. rewrite <- Hc2, Hcur. exact Hres.
Qed.

(** ** Example: the kernel, the shell and two programs *)

Definition demo_proc (i st : Z) : Process :=
  set_state st (mk_process i [] 0 (0x8000000000 + i) 0x8ffffffff0 2 1 0 0 0 0 0 0 false zero_frame []
    (mk_as (0x200000 + 4096 * i) USER_BASE USER_LIMIT) [] [] 0 0 0 0).

Definition demo_table : proc_table :=
  mk_table (<[0 := demo_proc 0 ORE_PROC_RUNNING]> (<[1 := demo_proc 1 ORE_PROC_BLOCKED]>
    (<[2 := demo_proc 2 ORE_PROC_RUNNING]> (<[3 := demo_proc 3 ORE_PROC_READY]> ∅)))) 4 (Some 2).

Lemma demo_table_ok : table_ok demo_table.
Proof.
  split; [split; discriminate| |split; [discriminate|reflexivity]|].
  - intros i Hi. change (process_count demo_table) with 4 in Hi.
    assert (i = 0 \/ i = 1 \/ i = 2 \/ i = 3) as [->|[->|[->| ->]]] by lia; reflexivity.
  - intros i Hi. change (process_count demo_table) with 4 in Hi.
    assert (i = 1 \/ i = 2 \/ i = 3) as [->|[->| ->]] by lia; [discriminate|reflexivity|discriminate].
Qed.

(** The frame of a user program interrupted at [rip]. *)
Definition user_frame_at (rip : Z) : InterruptFrame :=
  mk_frame 15 14 13 12 11 10 9 8 7 6 5 4 3 2 1 32 0 rip 0x23 0x202 0x8ffffff000 0x1b.

Lemma next_ready_process_correct_witness :
  next_ready_process 2 demo_table = Some 3 /\ candidate demo_table 2 3.
Proof.
  pose proof (next_ready_process_correct 2 demo_table demo_table_ok) as H.
  assert (next_ready_process 2 demo_table = Some 3) as E by (vm_compute; reflexivity).
  rewrite E in H. split; [exact E|apply H].
Defined.

Lemma preemption_correct_witness : exists pt',
  process_schedule_user_tick (user_frame_at 0x8000000042) demo_table =
    (1, resume_frame (proc demo_table 3), pt') /\ process_current pt' = 3.
Proof.
  pose proof (preemption_correct (user_frame_at 0x8000000042) demo_table demo_table_ok) as H.
  assert (next_ready_process (process_current demo_table) demo_table = Some 3) as E
    by (vm_compute; reflexivity).
  assert (preempts (user_frame_at 0x8000000042) demo_table = true) as E'
    by (vm_compute; reflexivity).
  cbn zeta in H. rewrite E', E in H. destruct H as (pt' & H1 & _ & H2 & _).
  exists pt'. split; [exact H1|exact H2].
Defined.

Definition demo_table1 : proc_table :=
  (process_schedule_user_tick (user_frame_at 0x8000000042) demo_table).2.
Definition demo_tick2 := process_schedule_user_tick (user_frame_at 0x8000000777) demo_table1.

Lemma preempt_resume_roundtrip_witness : demo_tick2.1.2 = user_frame_at 0x8000000042.
Proof.
  apply (preempt_resume_roundtrip (user_frame_at 0x8000000042) demo_table
    (process_schedule_user_tick (user_frame_at 0x8000000042) demo_table).1.2 demo_table1
    (user_frame_at 0x8000000777) demo_tick2.1.2 demo_tick2.2 demo_table_ok);
    vm_compute; reflexivity.
Defined.
