(* ===== verification/Usermem.v ===== *)
(** User address spaces as the kernel sees them (kernel/syscall.c).

    [user_range_ok], [copy_from_user], [copy_to_user], [strlen_user] and
    [copy_user_string_optional] check user pointers against the page tables of
    the current process (the root in cr3) and move bytes through them.  The
    contract is the function [uload]: the byte a user program sees at a virtual
    address.  [space_ok] is the invariant of an address space: its user pages
    are distinct live frames outside the page tables, so a store through one
    user page is visible at exactly one address. *)
From stdpp Require Import base numbers list gmap strings.
From Stdlib Require Import ZArith Lia.
From S2P Require Import Prelude Memory PageAllocator Pmm Vmm.

(** ** Definitions *)

Definition ORE_ENOENT : Z := 2.
Definition ORE_EBADF : Z := 9.
Definition ORE_ENOMEM : Z := 12.
Definition ORE_EFAULT : Z := 14.
Definition ORE_EINVAL : Z := 22.
Definition ORE_ENOSYS : Z := 38.

Section Usermem.
Context {S : Type} `{PageAllocator S}.
Implicit Types st : machine S.

(** [vmm_virt_to_phys_in(root, va)]; it never panics without [create]. *)
Definition virt_to_phys (root va : Z) st : Z :=
  match vmm_virt_to_phys_in root va st with Ok p => p | Panic _ => 0 end.

(** The loop of [user_range_ok]: offsets [off], [off + 4096], ... *)
Fixpoint range_pages (n : nat) (root ptr off : Z) st : bool :=
  match n with
  | O => true
  | Datatypes.S n =>
      if virt_to_phys root (ptr + off) st =? 0 then false
      else range_pages n root ptr (off + 4096) st
  end.

Definition user_range_ok (root ptr len : Z) st : bool :=
  if (ptr =? 0) || (ptr <? USER_BASE) || (USER_LIMIT <=? ptr) then false
  else if USER_LIMIT - ptr <? len then false
  else if negb (range_pages (Z.to_nat ((len + 4095) / 4096)) root ptr 0 st) then false
  else negb (negb (len =? 0) && (virt_to_phys root (ptr + len - 1) st =? 0)).

(** What the processor reads and writes at a mapped address. *)
Definition uload (root va : Z) st : Z := load8 (m_mem st) (virt_to_phys root va st).
Definition ustore (root va v : Z) st : machine S :=
  with_machine_mem st (store8 (m_mem st) (virt_to_phys root va st) v).

(** The byte loop of [copy_from_user]; the kernel buffer is the result. *)
Fixpoint read_loop (n : nat) (root src : Z) st : list Z :=
  match n with
  | O => []
  | Datatypes.S n => uload root src st :: read_loop n root (src + 1) st
  end.

Definition copy_from_user (root src len : Z) st : Z * list Z :=
  if len =? 0 then (0, []) else
  if negb (user_range_ok root src len st) then (- ORE_EFAULT, []) else
  (0, read_loop (Z.to_nat len) root src st).

(** The byte loop of [copy_to_user] from a kernel buffer. *)
Fixpoint write_loop (root dst : Z) (bs : list Z) st : machine S :=
  match bs with
  | [] => st
  | b :: bs => write_loop root (dst + 1) bs (ustore root dst b st)
  end.

Definition copy_to_user (root dst : Z) (src : list Z) st : Z * machine S :=
  let len := Z.of_nat (length src) in
  if len =? 0 then (0, st) else
  if negb (user_range_ok root dst len st) then (- ORE_EFAULT, st) else
  (0, write_loop root dst src st).

(** The loop of [strlen_user] with [n] iterations left; [char] compares as a
    byte. *)
Fixpoint strlen_loop (n : nat) (root s i : Z) st : Z * Z :=
  match n with
  | O => (- ORE_EINVAL, 0)
  | Datatypes.S n =>
      if negb (user_range_ok root (s +u i) 1 st) then (- ORE_EFAULT, 0)
      else if uload root (s +u i) st =? 0 then (0, i)
      else strlen_loop n root s (i + 1) st
  end.

Definition strlen_user (root s max : Z) st : Z * Z := strlen_loop (Z.to_nat max) root s 0 st.

(** The string at a user pointer, up to [max] bytes with the terminator; a null
    pointer is the empty string. *)
Definition copy_user_string_optional (root user_ptr max : Z) st : Z * list Z :=
  if max =? 0 then (- ORE_EINVAL, []) else
  if user_ptr =? 0 then (0, [0]) else
  let '(err, len) := strlen_user root user_ptr (max - 1) st in
  if err <? 0 then (err, [0]) else
  let '(err, bs) := copy_from_user root user_ptr (len + 1) st in
  if err <? 0 then (err, [0]) else (0, bs).

End Usermem.

(** [copy_string]: the bytes written, terminator included. *)
Fixpoint copy_string (src : list Z) (max : nat) : list Z :=
  match max with
  | O | 1%nat => [0]
  | Datatypes.S max =>
      match src with
      | [] => [0]
      | c :: src => if c =? 0 then [0] else c :: copy_string src max
      end
  end.

(** ** Frames and tables *)

Section Spaces.
Context {S : Type} `{PageAllocatorOk S}.
Implicit Types (st : machine S) (R : Z -> Prop).

Definition user_va (v : Z) : Prop := USER_BASE <= v < USER_LIMIT.

Lemma user_canonical v : user_va v -> canonical v.
Proof. unfold user_va, canonical, USER_BASE, USER_LIMIT. lia. Qed.

(** The frame of a present entry. *)
Definition frame_of (e : Z) : Z := Z.land e PTE_ADDR_MASK.

(** A frame that user data may occupy. *)
Record frame_ok st R (f : Z) : Prop := {
  fr_phys : phys_ok f;
  fr_low : 1048576 <= f;
  fr_live : pa_live (m_pages st) (f / PAGE_SIZE);
  fr_data : forall x, f <= x < f + PAGE_SIZE -> ~ in_table (m_mem st) R x;
}.

Record space_ok R (root : Z) st : Prop := {
  sp_forest : forest_wf (m_pages st) (m_mem st) R;
  sp_root : R root;
  sp_mem : mem_ok (m_mem st);
  sp_frame : forall v, user_va v -> present (pte (m_mem st) root v) = true ->
    frame_ok st R (frame_of (pte (m_mem st) root v));
  sp_inj : forall v w, user_va v -> user_va w ->
    present (pte (m_mem st) root v) = true -> present (pte (m_mem st) root w) = true ->
    frame_of (pte (m_mem st) root v) = frame_of (pte (m_mem st) root w) ->
    v / PAGE_SIZE = w / PAGE_SIZE;
}.

Definition mapped (root va : Z) st : bool := negb (virt_to_phys root va st =? 0).

Lemma virt_to_phys_eq R root st va :
  space_ok R root st -> virt_to_phys root va st = translate (pte (m_mem st) root va) va.
Proof.
  intros Hs. unfold virt_to_phys. by rewrite (virt_to_phys_pte st R) by apply Hs.
Qed.

Lemma translate_frame e va : present e = true -> frame_of e mod PAGE_SIZE = 0 ->
  translate e va = frame_of e + va mod PAGE_SIZE.
Proof. intros Hp Hm. unfold translate. rewrite Hp. by apply lor_page_offset. Qed.

(** A user address is mapped exactly when its entry is present. *)
Lemma mapped_present R root st va :
  space_ok R root st -> user_va va -> mapped root va st = present (pte (m_mem st) root va).
Proof.
  intros Hs Hv. unfold mapped. rewrite (virt_to_phys_eq R root st) by done.
  destruct (present (pte (m_mem st) root va)) eqn:Hp.
  - destruct (sp_frame _ _ _ Hs va Hv Hp) as [[? Hm] Hlow _ _].
    rewrite translate_frame by done. apply negb_true_iff, Z.eqb_neq.
    pose proof (Z.mod_pos_bound va PAGE_SIZE eq_refl). lia.
  - unfold translate. by rewrite Hp.
Qed.

Lemma virt_to_phys_frame R root st va :
  space_ok R root st -> user_va va -> mapped root va st = true ->
  virt_to_phys root va st = frame_of (pte (m_mem st) root va) + va mod PAGE_SIZE /\
  frame_ok st R (frame_of (pte (m_mem st) root va)).
Proof.
  intros Hs Hv Hm. pose proof Hm as Hp. rewrite (mapped_present R) in Hp by done.
  pose proof (sp_frame _ _ _ Hs va Hv Hp) as Hf. split; [|done].
  rewrite (virt_to_phys_eq R root st) by done. apply translate_frame; [done|apply Hf].
Qed.

(** Two user addresses with the same physical byte are equal. *)
Lemma virt_to_phys_inj R root st v w :
  space_ok R root st -> user_va v -> user_va w -> mapped root v st = true ->
  mapped root w st = true -> virt_to_phys root v st = virt_to_phys root w st -> v = w.
Proof.
  intros Hs Hv Hw Mv Mw E.
  destruct (virt_to_phys_frame R root st v Hs Hv Mv) as [Ev [[? Hfv] _ _ _]].
  destruct (virt_to_phys_frame R root st w Hs Hw Mw) as [Ew [[? Hfw] _ _ _]].
  rewrite (mapped_present R) in Mv, Mw by done. rewrite Ev, Ew in E.
  pose proof (sp_inj _ _ _ Hs v w Hv Hw Mv Mw) as Hi.
  set (fv := frame_of (pte (m_mem st) root v)) in *. set (fw := frame_of (pte (m_mem st) root w)) in *.
  clearbody fv fw. unfold PAGE_SIZE in *.
  assert (fv = fw) as Hff by zlia. specialize (Hi Hff). zlia.
Qed.

(** ** Stores outside the tables *)

Lemma pte_frame s m m' R r w :
  forest_wf s m R -> R r -> (forall t, is_table m R t -> agree m' m t PAGE_SIZE) ->
  pte m' r w = pte m r w.
Proof.
  intros Hf Hr Ha. unfold pte. rewrite (walk_frame m m' s R) by (done || apply path_of_ok).
  destruct (walk m r (path_of w)) as [t|] eqn:E; [|done]. apply load_le_agree. intros x Hx.
  apply (Ha t); [exists r, (path_of w); split_and!; [done|apply path_of_ok|done]|].
  pose proof (index_of_bound 12 w ltac:(lia)). unfold PAGE_SIZE. lia.
Qed.

(** A change of memory outside the tables. *)
Lemma space_data R root st m' :
  space_ok R root st -> mem_ok m' ->
  (forall x, in_table (m_mem st) R x -> load8 m' x = load8 (m_mem st) x) ->
  space_ok R root (with_machine_mem st m') /\
  (forall r w, R r -> pte m' r w = pte (m_mem st) r w) /\
  (forall va, virt_to_phys root va (with_machine_mem st m') = virt_to_phys root va st).
Proof.
  intros Hs Hm Hx. pose proof (sp_forest _ _ _ Hs) as Hf.
  assert (forall t, is_table (m_mem st) R t -> agree m' (m_mem st) t PAGE_SIZE) as Ha.
  { intros t Ht x Hxt. apply Hx. by exists t. }
  assert (forall r p, R r -> path_ok p -> walk m' r p = walk (m_mem st) r p) as Hw.
  { intros r p Hr Hp. by apply (walk_frame _ _ (m_pages st) R). }
  assert (forall r w, R r -> pte m' r w = pte (m_mem st) r w) as Hp.
  { intros r w Hr. by apply (pte_frame (m_pages st) _ _ R). }
  assert (forest_wf (m_pages st) m' R) as Hf'.
  { destruct Hf as [F1 F2 F3]. split; [done|..].
    - intros r p t Hr Hq. rewrite Hw by done. by apply F2.
    - intros r1 r2 p q t H1 H2 Hq1 Hq2. rewrite !Hw by done. by apply F3. }
  assert (forall x, in_table m' R x -> in_table (m_mem st) R x) as Ht.
  { intros x (t & (r & p & Hr & Hq & Hwk) & Hxt). exists t. split; [|done]. exists r, p.
    by rewrite Hw in Hwk. }
  assert (space_ok R root (with_machine_mem st m')) as Hs'.
  { destruct Hs as [S1 S2 S3 S4 S5]. split; auto; cbn [with_machine_mem m_mem m_pages].
    - intros v Hv. rewrite Hp by done. intros Hpr. destruct (S4 v Hv Hpr) as [P1 P2 P3 P4].
      split; [done..|]. intros x Hxf Hxt. by apply (P4 x Hxf), Ht.
    - intros v w Hv Hw'. rewrite !Hp by done. auto. }
  split_and!; [done|done|]. intros va. rewrite !(virt_to_phys_eq R) by done.
  cbn [with_machine_mem m_mem]. by rewrite Hp by apply Hs.
Qed.

(** A store through a mapped user address is seen at that address only. *)
Lemma ustore_spec R root st va v :
  space_ok R root st -> user_va va -> mapped root va st = true ->
  let st' := ustore root va v st in
  space_ok R root st' /\ m_pages st' = m_pages st /\
  (forall w, virt_to_phys root w st' = virt_to_phys root w st) /\
  (forall w, user_va w -> mapped root w st = true ->
     uload root w st' = if w =? va then u8 v else uload root w st) /\
  (forall r w, R r -> pte (m_mem st') r w = pte (m_mem st) r w).
Proof.
  intros Hs Hv Hm st'. destruct (virt_to_phys_frame R root st va Hs Hv Hm) as [E Hf].
  destruct (space_data R root st (store8 (m_mem st) (virt_to_phys root va st) v) Hs) as (D1 & D2 & D3).
  { apply store8_ok, Hs. }
  { intros x Hx. rewrite load8_store8, (proj2 (Z.eqb_neq _ _)); [done|]. intros ->.
    apply (fr_data _ _ _ Hf (virt_to_phys root va st)); [|done]. rewrite E.
    pose proof (Z.mod_pos_bound va PAGE_SIZE eq_refl). lia. }
  split_and!; [done|done|done| |done].
  intros w Hw Mw. unfold uload, st', ustore. rewrite D3. cbn [with_machine_mem m_mem].
  rewrite load8_store8. destruct (Z.eqb_spec w va) as [->|Hne]; [by rewrite Z.eqb_refl|].
  rewrite (proj2 (Z.eqb_neq _ _)); [done|]. intros Heq. by apply Hne, (virt_to_phys_inj R root st).
Qed.

(** ** Ranges *)

Lemma mapped_page R root st v w :
  space_ok R root st -> user_va v -> user_va w -> v / PAGE_SIZE = w / PAGE_SIZE ->
  mapped root v st = mapped root w st.
Proof.
  intros Hs Hv Hw E. rewrite !(mapped_present R root st) by done.
  by rewrite (pte_page (m_mem st) root v w) by (by apply user_canonical || done).
Qed.

Lemma range_pages_spec n root ptr off st :
  range_pages n root ptr off st = true <->
  forall k, 0 <= k < Z.of_nat n -> mapped root (ptr + off + 4096 * k) st = true.
Proof.
  revert off. induction n as [|n IH]; intros off; cbn [range_pages].
  - split; [|done]. intros _ k Hk. lia.
  - fold (mapped root (ptr + off) st).
    assert (forall b, (if virt_to_phys root (ptr + off) st =? 0 then false else b) =
                      mapped root (ptr + off) st && b) as -> by (intros; unfold mapped; by case_match).
    rewrite andb_true_iff, IH. split.
    + intros [H1 H2] k Hk. destruct (Z.eq_dec k 0) as [->|].
      * by replace (ptr + off + 4096 * 0) with (ptr + off) by lia.
      * replace (ptr + off + 4096 * k) with (ptr + (off + 4096) + 4096 * (k - 1)) by lia.
        apply H2. lia.
    + intros Hk. split.
      * replace (ptr + off) with (ptr + off + 4096 * 0) by lia. apply Hk. lia.
      * intros k Hk'. replace (ptr + (off + 4096) + 4096 * k) with (ptr + off + 4096 * (k + 1)) by lia.
        apply Hk. lia.
Qed.

(** Every byte of a range lies on the page of a checked address. *)
Lemma range_point ptr len a :
  0 <= ptr -> ptr <= a < ptr + len ->
  a / 4096 = (ptr + len - 1) / 4096 \/
  exists k, 0 <= k < (len + 4095) / 4096 /\ a / 4096 = (ptr + 4096 * k) / 4096.
Proof.
  intros Hp Ha. destruct (Z.eq_dec (a / 4096) ((ptr + len - 1) / 4096)) as [|Hne]; [by left|].
  right. exists (a / 4096 - ptr / 4096). zlia.
Qed.

Lemma user_range_ok_spec R root st ptr len :
  space_ok R root st -> 0 <= len ->
  user_range_ok root ptr len st = true <->
  user_va ptr /\ ptr + len <= USER_LIMIT /\
  forall a, ptr <= a < ptr + len -> mapped root a st = true.
Proof.
  intros Hs Hl. unfold user_range_ok, user_va.
  destruct (_ || _ || _) eqn:E1.
  { split; [done|]. intros (H1 & _). exfalso. unfold USER_BASE in *. bool_to_prop. lia. }
  destruct (USER_LIMIT - ptr <? len) eqn:E2; [split; [done|]; intros (_ & H2 & _); bool_to_prop; lia|].
  assert (USER_BASE <= ptr < USER_LIMIT) as Hp by (unfold USER_BASE in *; bool_to_prop; lia).
  assert (ptr + len <= USER_LIMIT) as Hpl by (bool_to_prop; lia).
  assert (0 <= ptr) by (unfold USER_BASE in Hp; lia).
  assert (0 <= (len + 4095) / 4096) as Hn by zlia.
  assert (forall k, k < (len + 4095) / 4096 -> 4096 * k < len) as Hk by (intros; zlia).
  split.
  - intros Hr. destruct (range_pages _ _ _ _ _) eqn:E3; [|done]. cbn [negb] in Hr.
    rewrite range_pages_spec in E3. rewrite Z2Nat.id in E3 by done.
    split_and!; [lia..|]. intros a Ha.
    destruct (range_point ptr len a) as [Hpg|(k & Hk1 & Hpg)]; [done..| |].
    + rewrite (mapped_page R root st a (ptr + len - 1)) by (done || unfold user_va; lia).
      rewrite (proj2 (Z.eqb_neq len 0)) in Hr by lia. exact Hr.
    + pose proof (Hk k (proj2 Hk1)).
      rewrite (mapped_page R root st a (ptr + 4096 * k)) by (done || unfold user_va; lia).
      replace (ptr + 4096 * k) with (ptr + 0 + 4096 * k) by lia. by apply E3.
  - intros (_ & _ & Ha). rewrite (proj2 (range_pages_spec _ _ _ _ _)).
    + cbn [negb]. destruct (Z.eqb_spec len 0); [done|]. cbn [negb andb]. apply Ha. lia.
    + intros k Hk'. rewrite Z2Nat.id in Hk' by done. apply Ha. pose proof (Hk k). lia.
Qed.

(** ** The byte loops *)

(** What a sequence of stores through user pages does: [g] gives the new byte of
    each user address it wrote. *)
Record uwrites R (root : Z) (g : Z -> option Z) st st' : Prop := {
  uw_space : space_ok R root st';
  uw_pages : m_pages st' = m_pages st;
  uw_virt : forall w, virt_to_phys root w st' = virt_to_phys root w st;
  uw_load : forall w, user_va w -> mapped root w st = true ->
    uload root w st' = match g w with Some b => b | None => uload root w st end;
  uw_pte : forall r w, R r -> pte (m_mem st') r w = pte (m_mem st) r w;
}.

Lemma uw_mapped R root g st st' w : uwrites R root g st st' -> mapped root w st' = mapped root w st.
Proof. intros U. unfold mapped. by rewrite (uw_virt _ _ _ _ _ U). Qed.

Lemma uwrites_refl R root st : space_ok R root st -> uwrites R root (fun _ => None) st st.
Proof. intros Hs. by split. Qed.

Lemma uwrites_ext R root g g' st st' :
  (forall w, user_va w -> g w = g' w) -> uwrites R root g st st' -> uwrites R root g' st st'.
Proof. intros E [U1 U2 U3 U4 U5]. split; [done..| |done]. intros w Hw Hm. rewrite <- E by done. auto. Qed.

Lemma uwrites_trans R root g1 g2 st1 st2 st3 :
  uwrites R root g1 st1 st2 -> uwrites R root g2 st2 st3 ->
  uwrites R root (override g2 g1) st1 st3.
Proof.
  intros U V. split.
  - apply V.
  - by rewrite (uw_pages _ _ _ _ _ V), (uw_pages _ _ _ _ _ U).
  - intros w. by rewrite (uw_virt _ _ _ _ _ V), (uw_virt _ _ _ _ _ U).
  - intros w Hw Hm. rewrite (uw_load _ _ _ _ _ V) by (done || by rewrite (uw_mapped _ _ _ _ _ _ U)).
    unfold override. destruct (g2 w); [done|]. by apply U.
  - intros r w Hr. by rewrite (uw_pte _ _ _ _ _ V), (uw_pte _ _ _ _ _ U).
Qed.

Lemma ustore_writes R root st va v :
  space_ok R root st -> user_va va -> mapped root va st = true ->
  uwrites R root (fun w => if w =? va then Some (u8 v) else None) st (ustore root va v st).
Proof.
  intros Hs Hv Hm. destruct (ustore_spec R root st va v Hs Hv Hm) as (H1 & H2 & H3 & H4 & H5).
  split; [done..| |done]. intros w Hw Mw. rewrite H4 by done. by destruct (w =? va).
Qed.

(** The bytes [bs] at [dst]. *)
Definition bytes_at (dst : Z) (bs : list Z) (w : Z) : option Z :=
  if dst <=? w then bs !! Z.to_nat (w - dst) else None.

Lemma bytes_at_cons dst b bs w :
  bytes_at dst (b :: bs) w =
  override (bytes_at (dst + 1) bs) (fun w => if w =? dst then Some b else None) w.
Proof.
  unfold bytes_at, override. destruct (Z.eqb_spec w dst) as [->|Hne].
  - rewrite Z.sub_diag, Z.leb_refl, (proj2 (Z.leb_gt (dst + 1) dst)) by lia. done.
  - destruct (Z.leb_spec dst w), (Z.leb_spec (dst + 1) w); try lia; [|done].
    replace (Z.to_nat (w - dst)) with (Datatypes.S (Z.to_nat (w - (dst + 1)))) by lia.
    cbn. by destruct (bs !! _).
Qed.

Lemma write_loop_spec R root bs dst st :
  space_ok R root st -> USER_BASE <= dst -> dst + Z.of_nat (length bs) <= USER_LIMIT ->
  (forall a, dst <= a < dst + Z.of_nat (length bs) -> mapped root a st = true) ->
  Forall byte_ok bs ->
  uwrites R root (bytes_at dst bs) st (write_loop root dst bs st).
Proof.
  revert dst st. induction bs as [|b bs IH]; intros dst st Hs Hd Hl Hm Hb; cbn [write_loop length] in *.
  - eapply uwrites_ext, uwrites_refl, Hs. intros w _. unfold bytes_at. by case_match.
  - apply Forall_cons in Hb as [Hb Hbs].
    assert (user_va dst) as Hv by (unfold user_va; lia).
    assert (mapped root dst st = true) as Hmd by (apply Hm; lia).
    pose proof (ustore_writes R root st dst b Hs Hv Hmd) as U.
    specialize (IH (dst + 1) (ustore root dst b st) (uw_space _ _ _ _ _ U) ltac:(lia) ltac:(lia)).
    eapply uwrites_ext; [|eapply uwrites_trans; [exact U|apply IH; [|done]]].
    + intros w _. rewrite bytes_at_cons. unfold override. rewrite u8_small by done. done.
    + intros a Ha. rewrite (uw_mapped _ _ _ _ _ _ U). apply Hm. lia.
Qed.

(** The only bytes of memory that change are those behind the buffer. *)
Lemma write_loop_frame R root bs dst st x :
  space_ok R root st -> USER_BASE <= dst -> dst + Z.of_nat (length bs) <= USER_LIMIT ->
  (forall a, dst <= a < dst + Z.of_nat (length bs) -> mapped root a st = true) ->
  (forall a, dst <= a < dst + Z.of_nat (length bs) -> virt_to_phys root a st <> x) ->
  load8 (m_mem (write_loop root dst bs st)) x = load8 (m_mem st) x.
Proof.
  revert dst st. induction bs as [|b bs IH]; intros dst st Hs Hd Hl Hm Hx; cbn [write_loop length] in *; [done|].
  assert (user_va dst) as Hv by (unfold user_va; lia).
  destruct (ustore_spec R root st dst b Hs Hv ltac:(apply Hm; lia)) as (U1 & _ & U3 & _).
  rewrite IH; [|done|lia|lia| |].
  - unfold ustore. cbn [with_machine_mem m_mem]. rewrite load8_store8, (proj2 (Z.eqb_neq _ _)); [done|].
    intros E. by apply (Hx dst); [lia|].
  - intros a Ha. unfold mapped. rewrite U3. apply Hm. lia.
  - intros a Ha. rewrite U3. apply Hx. lia.
Qed.

Lemma read_loop_lookup n root src st (i : nat) :
  (i < n)%nat -> read_loop n root src st !! i = Some (uload root (src + Z.of_nat i) st).
Proof.
  revert src i. induction n as [|n IH]; intros src i Hi; [lia|]. cbn [read_loop].
  destruct i as [|i]; cbn [lookup list_lookup]; [by rewrite Z.add_0_r|].
  change (read_loop n root (src + 1) st !! i = Some (uload root (src + Z.of_nat (Datatypes.S i)) st)).
  rewrite IH by lia. do 2 f_equal. lia.
Qed.

Lemma read_loop_length n root src st : length (read_loop n root src st) = n.
Proof. revert src. induction n; intros; cbn; auto. Qed.

Lemma read_loop_bytes root src st bs :
  (forall i b, bs !! i = Some b -> uload root (src + Z.of_nat i) st = b) ->
  read_loop (length bs) root src st = bs.
Proof.
  intros Hb. apply list_eq. intros i. destruct (bs !! i) as [b|] eqn:E.
  - rewrite read_loop_lookup by by apply lookup_lt_Some in E. f_equal. by apply Hb.
  - apply lookup_ge_None_2. rewrite read_loop_length. by apply lookup_ge_None_1.
Qed.

(** ** Strings *)

(** The byte at a user address can be read. *)
Definition readable (root a : Z) st : Prop := user_va a /\ mapped root a st = true.

Lemma user_range_ok_byte R root st a :
  space_ok R root st -> user_range_ok root a 1 st = true <-> readable root a st.
Proof.
  intros Hs. rewrite (user_range_ok_spec R) by (done || lia). unfold readable, user_va. split.
  - intros (H1 & H2 & H3). split; [done|]. apply H3. lia.
  - intros [H1 H2]. split_and!; [lia..|]. intros b Hb. by replace b with a by lia.
Qed.

(** The first [k] bytes of the string at [s] are readable and not zero. *)
Definition nonzero_upto (root s k : Z) st : Prop :=
  forall j, 0 <= j < k -> readable root (s + j) st /\ uload root (s + j) st <> 0.

(** How a scan of [max] bytes at [s] ends. *)
Inductive scan_result (root s max : Z) st : Z -> Z -> Prop :=
  | scan_found len : 0 <= len < max -> nonzero_upto root s len st -> readable root (s + len) st ->
      uload root (s + len) st = 0 -> scan_result root s max st 0 len
  | scan_long : nonzero_upto root s max st -> scan_result root s max st (- ORE_EINVAL) 0
  | scan_fault k : 0 <= k < max -> nonzero_upto root s k st -> ~ readable root (s + k) st ->
      scan_result root s max st (- ORE_EFAULT) 0.

Lemma strlen_loop_spec R root n s i st :
  space_ok R root st -> word64 s -> 0 <= i -> nonzero_upto root s i st ->
  scan_result root s (i + Z.of_nat n) st
    (strlen_loop n root s i st).1 (strlen_loop n root s i st).2.
Proof.
  intros Hs Hw. revert i. induction n as [|n IH]; intros i Hi Hnz; cbn [strlen_loop].
  - rewrite Z.add_0_r. by apply scan_long.
  - assert (readable root (s +u i) st -> s +u i = s + i) as Hwrap.
    { destruct (Z.eq_dec i 0) as [->|]; [word_lia|].
      destruct (Hnz (i - 1) ltac:(lia)) as [[Hv _] _]. unfold user_va, USER_LIMIT in Hv. intros _.
      unfold USER_BASE in Hv. word_lia. }
    destruct (user_range_ok root (s +u i) 1 st) eqn:E; cbn [negb].
    + apply (user_range_ok_byte R) in E; [|done]. pose proof (Hwrap E) as Ew. rewrite Ew in E |- *.
      destruct (Z.eqb_spec (uload root (s + i) st) 0) as [E0|E0].
      * cbn [fst snd]. apply scan_found; [lia|done..].
      * replace (i + Z.of_nat (Datatypes.S n)) with (i + 1 + Z.of_nat n) by lia. apply IH; [lia|].
        intros j Hj. destruct (Z.eq_dec j i) as [->|]; [done|]. apply Hnz. lia.
    + apply (scan_fault _ _ _ _ i); [lia|done|]. intros Hr.
      assert (s +u i = s + i) as Ei.
      { destruct Hr as [Hv _]. unfold user_va, USER_BASE, USER_LIMIT in Hv. word_lia. }
      rewrite <- Ei in Hr. apply (user_range_ok_byte R) in Hr; [|done]. congruence.
Qed.

Lemma nonzero_range R root st s len :
  space_ok R root st -> 0 <= len -> nonzero_upto root s len st -> readable root (s + len) st ->
  user_range_ok root s (len + 1) st = true.
Proof.
  intros Hs Hl Hnz Hr. apply (user_range_ok_spec R); [done|lia|].
  assert (forall a, s <= a < s + (len + 1) -> readable root a st) as Ha.
  { intros a Ha. replace a with (s + (a - s)) by lia. destruct (Z.eq_dec (a - s) len) as [->|]; [done|].
    apply Hnz. lia. }
  destruct (Ha s ltac:(lia)) as [Hv _]. unfold readable, user_va in *.
  split_and!; [lia..|]. intros a H'. by apply Ha.
Qed.

(** ** Properties *)

(** C8: [copy_to_user] copies all of the buffer or nothing: it fails with
    EFAULT, leaving the machine as it was, exactly when some byte of the range
    is outside the user half or not mapped; otherwise the program sees the
    buffer at [dst] and its other bytes unchanged, every byte of physical memory that
    is not behind the buffer, the pages in use and every translation of every address
    space are as before, and [copy_from_user] reads the buffer back. *)
Theorem copy_to_user_correct R root dst bs st :
  space_ok R root st -> Forall byte_ok bs -> bs <> [] ->
  let len := Z.of_nat (length bs) in
  let '(err, st') := copy_to_user root dst bs st in
  (err = - ORE_EFAULT /\ st' = st /\
     ~ (forall a, dst <= a < dst + len -> readable root a st)) \/
  (err = 0 /\ (forall a, dst <= a < dst + len -> readable root a st) /\
     space_ok R root st' /\
     (forall w, readable root w st ->
        uload root w st' = match bytes_at dst bs w with Some b => b | None => uload root w st end) /\
     (forall r w, R r -> pte (m_mem st') r w = pte (m_mem st) r w) /\
     m_pages st' = m_pages st /\
     (forall x, (forall a, dst <= a < dst + len -> virt_to_phys root a st <> x) -> load8 (m_mem st') x = load8 (m_mem st) x) /\
     copy_from_user root dst len st' = (0, bs)).
Proof.
  intros Hs Hb Hne len. unfold copy_to_user. fold len.
  assert (0 < len) as Hlen by (destruct bs; [done|cbn in len; lia]).
  rewrite (proj2 (Z.eqb_neq len 0)) by lia.
  assert (user_range_ok root dst len st = true <-> forall a, dst <= a < dst + len -> readable root a st) as Hr.
  { rewrite (user_range_ok_spec R) by (done || lia). split.
    - intros (H1 & H2 & H3) a Ha. unfold readable, user_va in *. split; [lia|by apply H3].
    - intros Ha. destruct (Ha dst ltac:(lia)) as [Hv _]. destruct (Ha (dst + len - 1) ltac:(lia)) as [Hv' _].
      unfold user_va in *. split_and!; [lia..|]. intros a H'. by apply Ha. }
  destruct (user_range_ok root dst len st) eqn:E; cbn [negb].
  2: { left. split_and!; [done..|]. rewrite <- Hr. done. }
  right. apply (user_range_ok_spec R) in E as (E1 & E2 & E3); [|done|lia].
  pose proof (write_loop_spec R root bs dst st Hs (proj1 E1) E2 E3 Hb) as U.
  split_and!; [done|by apply Hr|apply U|intros w [Hv Hm]; by apply U|apply U|apply U| |].
  { intros x Hx. apply (write_loop_frame R); [done|apply E1|done|done|done]. }
  unfold copy_from_user. rewrite (proj2 (Z.eqb_neq len 0)) by lia.
  rewrite (proj2 (user_range_ok_spec R root _ dst len (uw_space _ _ _ _ _ U) ltac:(lia))); cbn [negb].
  - unfold len. rewrite Nat2Z.id. f_equal. apply read_loop_bytes. intros i b Hi.
    pose proof (lookup_lt_Some _ _ _ Hi) as Hlt.
    rewrite (uw_load _ _ _ _ _ U) by (unfold user_va in *; lia || apply E3; lia).
    unfold bytes_at. rewrite (proj2 (Z.leb_le _ _)) by lia.
    replace (Z.to_nat (dst + Z.of_nat i - dst)) with i by lia. by rewrite Hi.
  - split_and!; [done|done|]. intros a Ha. rewrite (uw_mapped _ _ _ _ _ _ U). by apply E3.
Qed.

(** [copy_user_string_optional] yields the C string at a user pointer, its
    terminator included and within [max] bytes, or fails: with EFAULT exactly
    when the scan meets an unreadable byte before a terminator, with EINVAL when
    the first [max - 1] bytes are readable and hold no terminator. *)
Theorem copy_user_string_correct R root ptr max st :
  space_ok R root st -> word64 ptr -> ptr <> 0 -> 0 < max ->
  let '(err, bs) := copy_user_string_optional root ptr max st in
  (err = 0 /\ exists s, bs = s ++ [0] /\ Z.of_nat (length bs) <= max - 1 /\ Forall (fun c => c <> 0) s /\
     forall i b, bs !! i = Some b ->
       readable root (ptr + Z.of_nat i) st /\ uload root (ptr + Z.of_nat i) st = b) \/
  (err = - ORE_EINVAL /\ bs = [0] /\ nonzero_upto root ptr (max - 1) st) \/
  (err = - ORE_EFAULT /\ bs = [0] /\ exists k, 0 <= k < max - 1 /\ nonzero_upto root ptr k st /\
     ~ readable root (ptr + k) st).
Proof.
  intros Hs Hw Hp Hmax. unfold copy_user_string_optional.
  rewrite (proj2 (Z.eqb_neq max 0)), (proj2 (Z.eqb_neq ptr 0)) by lia.
  pose proof (strlen_loop_spec R root (Z.to_nat (max - 1)) ptr 0 st Hs Hw ltac:(lia) ltac:(intros j; lia)) as Hl.
  fold (strlen_user root ptr (max - 1) st) in Hl. rewrite Z2Nat.id in Hl by lia.
  destruct (strlen_user root ptr (max - 1) st) as [err len]. cbn [fst snd] in Hl.
  destruct Hl as [len Hlen Hnz Hr Hz|Hnz|k Hk Hnz Hr].
  - change (0 <? 0) with false. cbv beta iota. unfold copy_from_user. rewrite (proj2 (Z.eqb_neq _ _)) by lia.
    rewrite (nonzero_range R) by (done || lia). cbn [negb].
    change (0 <? 0) with false. cbv beta iota. left.
    rewrite (Z2Nat.inj_add len 1), Nat.add_comm by lia. split; [done|].
    exists (read_loop (Z.to_nat len) root ptr st). split_and!.
    + apply list_eq. intros i. destruct (Nat.lt_trichotomy i (Z.to_nat len)) as [Hi|[->|Hi]].
      * by rewrite lookup_app_l, !read_loop_lookup by (rewrite ?read_loop_length; lia).
      * rewrite lookup_app_r, read_loop_length, Nat.sub_diag, read_loop_lookup
          by (rewrite ?read_loop_length; lia). cbn. by rewrite Z2Nat.id, Hz by lia.
      * rewrite !lookup_ge_None_2; [done|rewrite length_app, read_loop_length; cbn; lia|
          rewrite read_loop_length; cbn; lia].
    + rewrite read_loop_length. cbn. lia.
    + apply Forall_lookup. intros i x Hi. pose proof (lookup_lt_Some _ _ _ Hi) as Hlt.
      rewrite read_loop_length in Hlt. rewrite read_loop_lookup in Hi by done.
      injection Hi as <-. apply Hnz. lia.
    + intros i b Hi. pose proof (lookup_lt_Some _ _ _ Hi) as Hlt. rewrite read_loop_length in Hlt.
      rewrite read_loop_lookup in Hi by done. injection Hi as <-. split; [|done].
      destruct (Z.eq_dec (Z.of_nat i) len) as [->|]; [done|]. apply Hnz. cbn in Hlt. lia.
  - change (- ORE_EINVAL <? 0) with true. cbv beta iota. right. left. done.
  - change (- ORE_EFAULT <? 0) with true. cbv beta iota. right. right. split_and!; [done..|]. by exists k.
Qed.
End Spaces.

(** ** Giving frames to an address space *)

Section Mapping.
Context {S : Type} `{PageAllocatorOk S}.
Implicit Types (st : machine S) (R : Z -> Prop).

(** No user page of the space outside [va, va + count pages) has a frame of
    the run [p, p + count pages). *)
Definition run_unused (root va p count : Z) st : Prop :=
  forall v, user_va v -> present (pte (m_mem st) root v) = true ->
    ~ (va <= v < va + count * PAGE_SIZE) ->
    ~ (p <= frame_of (pte (m_mem st) root v) < p + count * PAGE_SIZE).

(** Pages [va, ...) of the space now map to the frames [p, ...). *)
Record maps R (root va p count flags : Z) st st' : Prop := {
  mp_space : space_ok R root st';
  mp_updates : updates R root (range_fun va (count * PAGE_SIZE) (map_entry va p flags))
    (m_pages st) (m_mem st) (m_pages st') (m_mem st');
  mp_in : forall w, va <= w < va + count * PAGE_SIZE -> virt_to_phys root w st' = p + (w - va);
  mp_out : forall w, user_va w -> ~ (va <= w < va + count * PAGE_SIZE) ->
    virt_to_phys root w st' = virt_to_phys root w st;
  mp_load_in : forall w, va <= w < va + count * PAGE_SIZE ->
    uload root w st' = load8 (m_mem st) (p + (w - va));
  mp_load_out : forall w, readable root w st -> ~ (va <= w < va + count * PAGE_SIZE) ->
    uload root w st' = uload root w st;
  mp_takes : takes (range_tables va (count * PAGE_SIZE)) (m_pages st) (m_pages st');
}.

(** Data frames stay outside the tables when tables are added. *)
Lemma frame_ok_updates R r f st st' x :
  updates R r f (m_pages st) (m_mem st) (m_pages st') (m_mem st') ->
  frame_ok st R x -> frame_ok st' R x.
Proof.
  intros U [P1 P2 P3 P4]. split; [done..|by apply U|]. intros y Hy (t & Ht & Hyt).
  destruct (u_tables _ _ _ _ _ _ _ U t Ht) as [Hold|Hnew]; [by apply (P4 y Hy); exists t|].
  apply Hnew. destruct Ht as (r' & q & Hr & Hq & Hw).
  destruct (fw_table _ _ _ (u_forest _ _ _ _ _ _ _ U) _ _ _ Hr Hq Hw) as [Hm _ _ _].
  replace (t / PAGE_SIZE) with (x / PAGE_SIZE); [done|].
  destruct P1 as [_ Hx]. unfold PAGE_SIZE in *. clear - Hx Hm Hy Hyt. zlia.
Qed.

Lemma range_fun_page va count e w :
  0 <= va -> va mod PAGE_SIZE = 0 -> 0 <= count ->
  range_fun va (count * PAGE_SIZE) e (w / PAGE_SIZE) =
  if (va <=? w) && (w <? va + count * PAGE_SIZE) then Some (e (w / PAGE_SIZE)) else None.
Proof.
  intros H1 H2 H3. unfold range_fun, PAGE_SIZE in *.
  destruct (va / 4096 <=? w / 4096) eqn:E1, (w / 4096 <? (va + count * 4096 + 4095) / 4096) eqn:E2,
    (va <=? w) eqn:E3, (w <? va + count * 4096) eqn:E4; cbn [andb]; try done; bool_to_prop; zlia.
Qed.

Lemma run_frame va p w :
  0 <= va -> va mod PAGE_SIZE = 0 -> p mod PAGE_SIZE = 0 ->
  (p / PAGE_SIZE + (w / PAGE_SIZE - va / PAGE_SIZE)) * PAGE_SIZE = p + PAGE_SIZE * ((w - va) / PAGE_SIZE)
  /\ p + PAGE_SIZE * ((w - va) / PAGE_SIZE) + w mod PAGE_SIZE = p + (w - va)
  /\ p / PAGE_SIZE * PAGE_SIZE = p.
Proof. unfold PAGE_SIZE. zlia. Qed.

Lemma run_same_page va p v w :
  va mod PAGE_SIZE = 0 ->
  p + PAGE_SIZE * ((v - va) / PAGE_SIZE) = p + PAGE_SIZE * ((w - va) / PAGE_SIZE) ->
  v / PAGE_SIZE = w / PAGE_SIZE.
Proof. unfold PAGE_SIZE. zlia. Qed.

Lemma run_bounds va p count w :
  va <= w < va + count * PAGE_SIZE ->
  p <= p + PAGE_SIZE * ((w - va) / PAGE_SIZE) < p + count * PAGE_SIZE.
Proof. unfold PAGE_SIZE. zlia. Qed.

Lemma frame_page f x : f mod PAGE_SIZE = 0 -> f <= x < f + PAGE_SIZE -> f / PAGE_SIZE = x / PAGE_SIZE.
Proof. unfold PAGE_SIZE. zlia. Qed.

Section Run.
Context (R : Z -> Prop) (root va p count flags : Z) (st : machine S).
Hypothesis Hs : space_ok R root st.
Hypothesis Hva : USER_BASE <= va /\ va mod PAGE_SIZE = 0 /\ va + count * PAGE_SIZE <= USER_LIMIT.
Hypothesis Hcount : 0 <= count.
Hypothesis Hp : p mod PAGE_SIZE = 0 /\ 0 <= p < 4503599627370496.
Hypothesis Hfr : forall k, 0 <= k < count -> frame_ok st R (p + PAGE_SIZE * k).
Hypothesis Hun : run_unused root va p count st.
Hypothesis Hfl : flags_ok flags.

Lemma run_fits : vrange_ok va (count * PAGE_SIZE) /\ phys_fits va p (count * PAGE_SIZE).
Proof.
  destruct Hva as (V1 & V2 & V3), Hp as [P1 P2].
  split; [unfold vrange_ok, USER_BASE, USER_LIMIT, PAGE_SIZE in *; lia|]. split; [lia|].
  assert (p + count * PAGE_SIZE <= 4503599627370496) as Hend.
  { destruct (Z.eq_dec count 0) as [->|]; [lia|].
    destruct (Hfr (count - 1) ltac:(lia)) as [[? Hm] _ _ _]. unfold PAGE_SIZE in *. zlia. }
  unfold PAGE_SIZE in *. clear - V1 V2 P1 Hend Hcount. unfold USER_BASE in V1. zlia.
Qed.

Lemma run_map st' res : vmm_map_in root va p (count * PAGE_SIZE) flags st = Ok (res, st') ->
  res = 0 /\ maps R root va p count flags st st'.
Proof.
  intros E. destruct run_fits as [Hrg Hfit]. destruct Hva as (V1 & V2 & V3), Hp as [P1 P2].
  pose proof (map_in_root_spec st R root va p (count * PAGE_SIZE) flags (sp_forest _ _ _ Hs)
    (sp_root _ _ _ Hs) Hfl Hrg (proj1 P2) Hfit) as Hm.
  unfold vmm_map_in in E. rewrite E in Hm. destruct Hm as (-> & U & T). split; [done|].
  assert (0 <= va) as V0 by (unfold USER_BASE in V1; lia).
  assert (forall w, user_va w -> pte (m_mem st') root w =
    if (va <=? w) && (w <? va + count * PAGE_SIZE) then pte_value (p + PAGE_SIZE * ((w - va) / PAGE_SIZE)) flags
    else pte (m_mem st) root w) as Hpte.
  { intros w Hw. rewrite (u_pte _ _ _ _ _ _ _ U w) by by apply user_canonical.
    rewrite range_fun_page by done. case_test; [|done]. unfold map_entry.
    by rewrite (proj1 (run_frame va p w V0 V2 P1)). }
  assert (forall w, va <= w < va + count * PAGE_SIZE -> user_va w) as Huw by (unfold user_va; lia).
  assert (forall w, va <= w < va + count * PAGE_SIZE ->
    frame_ok st R (p + PAGE_SIZE * ((w - va) / PAGE_SIZE))) as Hrun.
  { intros w Hw. apply Hfr. unfold PAGE_SIZE in *. zlia. }
  assert (forall w, va <= w < va + count * PAGE_SIZE ->
    present (pte (m_mem st') root w) = true /\
    frame_of (pte (m_mem st') root w) = p + PAGE_SIZE * ((w - va) / PAGE_SIZE)) as Hin.
  { intros w Hw. rewrite Hpte by auto.
    rewrite (proj2 (Z.leb_le _ _)), (proj2 (Z.ltb_lt _ _)) by lia. cbn [andb].
    split; [apply pte_value_present, Hfl|]. unfold frame_of.
    rewrite pte_value_addr by apply Hfl. apply phys_mask, (Hrun w Hw). }
  assert (forall w, user_va w -> ~ (va <= w < va + count * PAGE_SIZE) ->
    pte (m_mem st') root w = pte (m_mem st) root w) as Hout.
  { intros w Hw Hn. rewrite Hpte by done. case_test; [|done]. bool_to_prop. lia. }
  assert (machine_ok st') as Hmok.
  { pose proof (map_pages_ok (page_loop (align_down va PAGE_SIZE) (align_up (va +u count * PAGE_SIZE) PAGE_SIZE))
      root (align_down va PAGE_SIZE) (align_down p PAGE_SIZE) flags st) as Hl.
    unfold map_in_root in E. rewrite E in Hl. apply Hl. split; [apply (sp_forest _ _ _ Hs)|apply Hs]. }
  assert (space_ok R root st') as Hs'.
  { split; [apply U|apply Hs|apply Hmok|..].
    - intros v Hv Hpr. apply (frame_ok_updates R root _ st st' _ U).
      destruct (decide (va <= v < va + count * PAGE_SIZE)) as [Hd|Hd].
      + rewrite (proj2 (Hin v Hd)). auto.
      + rewrite Hout in * by done. by apply Hs.
    - intros v w Hv Hw Hpv Hpw Heq.
      destruct (decide (va <= v < va + count * PAGE_SIZE)) as [Hd|Hd],
        (decide (va <= w < va + count * PAGE_SIZE)) as [Hd'|Hd'].
      + rewrite (proj2 (Hin v Hd)), (proj2 (Hin w Hd')) in Heq. by apply (run_same_page va p v w).
      + rewrite (proj2 (Hin v Hd)) in Heq. rewrite Hout in Hpw, Heq by done. exfalso.
        apply (Hun w Hw Hpw Hd'). rewrite <- Heq. by apply run_bounds.
      + rewrite (proj2 (Hin w Hd')) in Heq. rewrite Hout in Hpv, Heq by done. exfalso.
        apply (Hun v Hv Hpv Hd). rewrite Heq. by apply run_bounds.
      + rewrite !Hout in * by done. by apply Hs. }
  assert (forall w, va <= w < va + count * PAGE_SIZE -> virt_to_phys root w st' = p + (w - va)) as Hvi.
  { intros w Hw. destruct (Hin w Hw) as [I1 I2]. rewrite (virt_to_phys_eq R) by done.
    rewrite translate_frame, I2 by (done || rewrite I2; apply (Hrun w Hw)).
    by destruct (run_frame va p w V0 V2 P1) as (_ & -> & _). }
  assert (forall w, user_va w -> ~ (va <= w < va + count * PAGE_SIZE) ->
    virt_to_phys root w st' = virt_to_phys root w st) as Hvo.
  { intros w Hw Hn. rewrite !(virt_to_phys_eq R) by done. by rewrite Hout. }
  assert (forall f x, frame_ok st R f -> f <= x < f + PAGE_SIZE -> load8 (m_mem st') x = load8 (m_mem st) x) as Hkeep.
  { intros f x [F1 F2 F3 F4] Hx. apply (u_frame _ _ _ _ _ _ _ U); [|by apply F4].
    by replace (x / PAGE_SIZE) with (f / PAGE_SIZE) by (apply frame_page; [apply F1|done]). }
  split; [done|done|done|done|..|done].
  - intros w Hw. unfold uload. rewrite Hvi by done.
    apply (Hkeep (p + PAGE_SIZE * ((w - va) / PAGE_SIZE))); [auto|].
    destruct (run_frame va p w V0 V2 P1) as (_ & <- & _).
    pose proof (Z.mod_pos_bound w PAGE_SIZE eq_refl). lia.
  - intros w [Hw Hm] Hn. unfold uload. rewrite Hvo by done.
    destruct (virt_to_phys_frame R root st w Hs Hw Hm) as [Ew Hf].
    apply (Hkeep _ _ Hf). rewrite Ew. pose proof (Z.mod_pos_bound w PAGE_SIZE eq_refl). lia.
Qed.
End Run.

(** ** Frames from the allocator *)

(** The state after the allocator handed out the run [p, p + count pages). *)
Record fresh_run R (root p count : Z) st st' : Prop := {
  fr_space : space_ok R root st';
  fr_addr : p mod PAGE_SIZE = 0 /\ 0 <= p < 4503599627370496;
  fr_frames : forall k, 0 <= k < count -> frame_ok st' R (p + PAGE_SIZE * k);
  fr_unused : forall va, run_unused root va p count st';
  fr_virt : forall w, virt_to_phys root w st' = virt_to_phys root w st;
  fr_load : forall w, readable root w st -> uload root w st' = uload root w st;
  fr_zero : forall x, p <= x < p + count * PAGE_SIZE -> load8 (m_mem st') x = 0;
  fr_pte : forall r w, R r -> pte (m_mem st') r w = pte (m_mem st) r w;
  fr_mono : forall q, pa_live (m_pages st) q -> pa_live (m_pages st') q;
  fr_dead : forall x, p <= x < p + count * PAGE_SIZE -> ~ pa_live (m_pages st) (x / PAGE_SIZE);
  fr_kept : forall x, pa_live (m_pages st) (x / PAGE_SIZE) -> load8 (m_mem st') x = load8 (m_mem st) x;
  fr_tables : forall x, in_table (m_mem st') R x -> in_table (m_mem st) R x;
  fr_top : pa_top (m_pages st') = pa_top (m_pages st);
  fr_takes : takes (Z.to_nat count) (m_pages st) (m_pages st');
}.

Lemma table_not_fresh s m R p count s' m' x :
  forest_wf s m R -> alloc_post count p s s' m m' -> in_table m R x -> ~ (p <= x < p + count * PAGE_SIZE).
Proof.
  intros Hf Hpost (t & (r & q & Hr & Hq & Hw) & Hx) Hin.
  destruct (fw_table _ _ _ Hf _ _ _ Hr Hq Hw) as [T1 _ _ T4]. destruct Hpost as [A1 _ _ A4 _ _ _ _].
  apply (A4 (t / PAGE_SIZE)); [|done]. unfold PAGE_SIZE in *. clear - T1 A1 Hx Hin. zlia.
Qed.

Lemma fresh_page p count k :
  p mod PAGE_SIZE = 0 -> 0 <= k < count ->
  (p + PAGE_SIZE * k) mod PAGE_SIZE = 0 /\
  p / PAGE_SIZE <= (p + PAGE_SIZE * k) / PAGE_SIZE < p / PAGE_SIZE + count /\
  (forall x, p + PAGE_SIZE * k <= x < p + PAGE_SIZE * k + PAGE_SIZE -> p <= x < p + count * PAGE_SIZE).
Proof. unfold PAGE_SIZE. intros H1 H2. split; [zlia|]. split; [zlia|]. intros x Hx. lia. Qed.

Lemma frame_not_fresh p count f :
  p mod PAGE_SIZE = 0 -> f mod PAGE_SIZE = 0 -> p <= f < p + count * PAGE_SIZE ->
  p / PAGE_SIZE <= f / PAGE_SIZE < p / PAGE_SIZE + count.
Proof. unfold PAGE_SIZE. zlia. Qed.

(** Marking more pages live keeps the forest. *)
Lemma forest_mono s s' m R :
  forest_wf s m R -> pa_wf s' -> (forall q, pa_live s q -> pa_live s' q) -> forest_wf s' m R.
Proof.
  intros [F1 F2 F3] Hw Hl. split; [done| |exact F3].
  intros r q t Hr Hq Hk. destruct (F2 r q t Hr Hq Hk). split; auto.
Qed.

Lemma space_alloc R root st count p s' m' :
  space_ok R root st -> 0 < count < 4294967296 ->
  pa_alloc_pages count (m_pages st) (m_mem st) = (p, s', m') -> p <> 0 ->
  fresh_run R root p count st (mk_machine s' m').
Proof.
  intros Hs Hc Ea Hp0. pose proof (takes_alloc count _ _ _ _ _ (fw_pages _ _ _ (sp_forest _ _ _ Hs)) ltac:(lia) Ea Hp0) as HT.
  apply pa_alloc_ok in Ea as Hpost; [|apply (sp_forest _ _ _ Hs)|lia|done].
  pose proof (sp_forest _ _ _ Hs) as Hf. pose proof (pa_top_bound _ (fw_pages _ _ _ Hf)) as Htop.
  pose proof Hpost as [A1 A2 A3 A4 A5 A6 A7 A8].
  assert (forall q, pa_live (m_pages st) q -> pa_live s' q) as Hl by (intros q Hq; apply A5; by left).
  destruct (space_data R root st m' Hs) as (D1 & D2 & D3).
  { rewrite A6. apply mem_zero_ok, Hs. }
  { intros x Hx. rewrite A6, load8_mem_zero.
    pose proof (table_not_fresh _ _ _ _ _ _ _ x Hf Hpost Hx). case_test; [|done]. bool_to_prop. lia. }
  assert (forall f, frame_ok (with_machine_mem st m') R f ->
    frame_ok (mk_machine s' m') R f /\ ~ (p <= f < p + count * PAGE_SIZE)) as Hold.
  { intros f [F1 F2 F3 F4]. split; [split; auto|]. intros Hin. apply (A4 (f / PAGE_SIZE)); [|done].
    apply frame_not_fresh; [done|apply F1|done]. }
  assert (space_ok R root (mk_machine s' m')) as Hs'.
  { destruct D1 as [S1 S2 S3 S4 S5]. split; [by eapply forest_mono|done|done| |done].
    intros v Hv Hpr. by apply Hold, S4. }
  assert (forall w, virt_to_phys root w (mk_machine s' m') = virt_to_phys root w st) as Hvirt.
  { intros w. rewrite <- D3, !(virt_to_phys_eq R) by done. done. }
  assert (0 <= p < 4503599627370496) as Hpb by (unfold PAGE_SIZE in *; lia).
  assert (forall x, in_table m' R x -> in_table (m_mem st) R x) as Htab.
  { intros x (t & (r & q & Hr & Hq & Hw) & Hxt). exists t. split; [|done]. exists r, q.
    split_and!; [done..|]. rewrite <- Hw. symmetry. apply (walk_frame _ _ (m_pages st) R); [done..|].
    intros t' Ht' y Hy. rewrite A6, load8_mem_zero.
    pose proof (table_not_fresh _ _ R _ _ _ _ y Hf Hpost ltac:(by exists t')).
    case_test; [|done]. bool_to_prop. lia. }
  assert (forall x, p <= x < p + count * PAGE_SIZE -> ~ pa_live (m_pages st) (x / PAGE_SIZE)) as Hdead.
  { intros x Hx. apply A4. clear - A1 Hx. unfold PAGE_SIZE in *. zlia. }
  split; [done|done|..].
  - intros k Hk. destruct (fresh_page p count k A1 Hk) as (K1 & K2 & K3). split.
    + split; [|done]. unfold PAGE_SIZE in *. lia.
    + unfold PAGE_SIZE in *. lia.
    + apply A5. by right.
    + intros x Hx Hin. by apply (table_not_fresh _ _ R _ _ _ _ x Hf Hpost); [apply Htab|apply K3].
  - intros va v Hv Hpr _. apply Hold. apply (sp_frame _ _ _ D1 v Hv Hpr).
  - done.
  - intros w [Hw Hm]. unfold uload. rewrite Hvirt. cbn [m_mem]. rewrite A6, load8_mem_zero.
    destruct (virt_to_phys_frame R root st w Hs Hw Hm) as [Ew [F1 F2 F3 F4]].
    case_test; [|done]. exfalso. bool_to_prop. rewrite Ew in *.
    apply (A4 (frame_of (pte (m_mem st) root w) / PAGE_SIZE)); [|done].
    apply frame_not_fresh; [done|apply F1|].
    pose proof (Z.mod_pos_bound w PAGE_SIZE eq_refl). destruct F1 as [_ F1].
    unfold PAGE_SIZE in *. clear - A1 F1 H1 H2 H3. zlia.
  - intros x Hx. cbn [m_mem]. rewrite A6, load8_mem_zero. case_test; [done|].
    apply andb_false_iff in E as [E|E]; bool_to_prop; lia.
  - intros r w Hr. by apply D2.
  - exact Hl.
  - exact Hdead.
  - intros x Hx. cbn [m_mem]. rewrite A6, load8_mem_zero. case_test; [|done]. bool_to_prop.
    by destruct (Hdead x ltac:(lia)).
  - exact Htab.
  - exact A8.
  - exact HT.
Qed.

(** Allocate, zero and map: the pages appear zeroed, nothing else changes. *)
Lemma space_alloc_map R root va count flags st st1 p st2 res :
  space_ok R root st ->
  USER_BASE <= va /\ va mod PAGE_SIZE = 0 /\ va + count * PAGE_SIZE <= USER_LIMIT ->
  0 < count -> flags_ok flags -> fresh_run R root p count st st1 ->
  vmm_map_in root va p (count * PAGE_SIZE) flags st1 = Ok (res, st2) ->
  res = 0 /\ maps R root va p count flags st1 st2 /\
  (forall w, va <= w < va + count * PAGE_SIZE -> readable root w st2 /\ uload root w st2 = 0) /\
  (forall w, ~ (va <= w < va + count * PAGE_SIZE) -> readable root w st ->
     readable root w st2 /\ uload root w st2 = uload root w st).
Proof.
  intros Hs Hva Hc Hfl Fr E.
  destruct (run_map R root va p count flags st1 (fr_space _ _ _ _ _ _ Fr) Hva ltac:(lia)
    (fr_addr _ _ _ _ _ _ Fr) (fr_frames _ _ _ _ _ _ Fr) (fr_unused _ _ _ _ _ _ Fr va) Hfl st2 res E) as [-> M].
  split_and!; [done|done|..].
  - intros w Hw. split.
    + split; [unfold user_va; lia|]. unfold mapped. rewrite (mp_in _ _ _ _ _ _ _ _ M w Hw).
      apply negb_true_iff, Z.eqb_neq. destruct (fr_frames _ _ _ _ _ _ Fr 0 ltac:(lia)) as [_ Hlow _ _]. lia.
    + rewrite (mp_load_in _ _ _ _ _ _ _ _ M w Hw). apply (fr_zero _ _ _ _ _ _ Fr). lia.
  - intros w Hn [Hw Hm]. assert (readable root w st1) as Hr1.
    { split; [done|]. unfold mapped. by rewrite (fr_virt _ _ _ _ _ _ Fr). }
    split.
    + split; [done|]. unfold mapped. rewrite (mp_out _ _ _ _ _ _ _ _ M w Hw Hn).
      apply (proj2 Hr1).
    + rewrite (mp_load_out _ _ _ _ _ _ _ _ M w Hr1 Hn). by apply (fr_load _ _ _ _ _ _ Fr).
Qed.
End Mapping.

(** ** Example: one page for a program *)

(** The page is allocated, zeroed and mapped writable at [USER_BASE]. *)
Definition demo_space : machine pmm_state :=
  let '(p, s, m) := pa_alloc_pages 1 (m_pages vmm_st1) (m_mem vmm_st1) in
  match vmm_map_in vmm_root USER_BASE p PAGE_SIZE (Z.lor VMM_USER VMM_WRITE) (mk_machine s m) with
  | Ok (_, st) => st
  | Panic _ => vmm_st1
  end.

Lemma space_ok_empty {S} `{PageAllocatorOk S} R root (st : machine S) :
  forest_wf (m_pages st) (m_mem st) R -> R root -> mem_ok (m_mem st) ->
  (forall v, present (pte (m_mem st) root v) = false) -> space_ok R root st.
Proof.
  intros Hf Hr Hm Hp. split; [done..| |].
  - intros v _ Hv. by rewrite Hp in Hv.
  - intros v w _ _ Hv. by rewrite Hp in Hv.
Qed.

Lemma new_table_zero {S} `{PageAllocatorOk S} (st : machine S) c st' :
  pa_wf (m_pages st) -> new_table st = Ok (c, st') ->
  (forall x, load8 (m_mem st) x = 0) -> forall x, load8 (m_mem st') x = 0.
Proof.
  intros Hw E Hz x. unfold new_table in E. destruct (pa_alloc_pages 1 _ _) as [[a s] m] eqn:Ea.
  destruct (Z.eqb_spec a 0) as [|Ha]; [discriminate E|].
  apply pa_alloc_ok in Ea as Hpost; [|done|lia|done]. injection E as <- <-. cbn [m_mem].
  rewrite (ap_zeroed _ _ _ _ _ _ Hpost), !load8_mem_zero, Hz. by repeat case_test.
Qed.

Lemma vmm_st1_zero x : load8 (m_mem vmm_st1) x = 0.
Proof. exact (new_table_zero vmm_st0 vmm_root vmm_st1 vmm_st0_wf vmm_st1_eq (fun _ => eq_refl) x). Qed.

Lemma vmm_st1_absent v : present (pte (m_mem vmm_st1) vmm_root v) = false.
Proof.
  assert (forall t i, entry (m_mem vmm_st1) t i = 0) as Hz.
  { intros t i. unfold entry, load64. cbn [load_le]. rewrite !vmm_st1_zero. reflexivity. }
  unfold pte, path_of. cbn [walk]. rewrite !Hz. reflexivity.
Qed.

Lemma vmm_st1_space : space_ok (eq vmm_root) vmm_root vmm_st1.
Proof.
  exact (space_ok_empty (eq vmm_root) vmm_root vmm_st1 vmm_st1_forest eq_refl vmm_st1_mem_ok vmm_st1_absent).
Qed.

Lemma demo_space_eq : exists p st1,
  fresh_run (eq vmm_root) vmm_root p 1 vmm_st1 st1 /\
  vmm_map_in vmm_root USER_BASE p (1 * PAGE_SIZE) (Z.lor VMM_USER VMM_WRITE) st1 = Ok (0, demo_space).
Proof.
  assert (match pa_alloc_pages 1 (m_pages vmm_st1) (m_mem vmm_st1) with
    | (p, s, m) => negb (p =? 0) && match vmm_map_in vmm_root USER_BASE p PAGE_SIZE
        (Z.lor VMM_USER VMM_WRITE) (mk_machine s m) with Ok (r, _) => r =? 0 | Panic _ => false end end = true)
    as E by (vm_compute; reflexivity).
  unfold demo_space.
  destruct (pa_alloc_pages 1 (m_pages vmm_st1) (m_mem vmm_st1)) as [[p s] m] eqn:Ea.
  apply andb_true_iff in E as [E1 E2]. apply negb_true_iff, Z.eqb_neq in E1.
  exists p, (mk_machine s m). split.
  { exact (space_alloc (eq vmm_root) vmm_root vmm_st1 1 p s m vmm_st1_space (conj eq_refl eq_refl) Ea E1). }
  change (1 * PAGE_SIZE) with PAGE_SIZE.
  destruct (vmm_map_in _ _ _ _ _ _) as [[r st]|msg]; [|discriminate E2].
  by apply Z.eqb_eq in E2 as ->.
Qed.

Lemma demo_space_ok :
  space_ok (eq vmm_root) vmm_root demo_space /\
  forall w, USER_BASE <= w < USER_BASE + PAGE_SIZE ->
    readable vmm_root w demo_space /\ uload vmm_root w demo_space = 0.
Proof.
  destruct demo_space_eq as (p & st1 & Fr & E).
  destruct (space_alloc_map (eq vmm_root) vmm_root USER_BASE 1 _ vmm_st1 st1 p demo_space 0
    vmm_st1_space ltac:(by split_and!) ltac:(lia) vmm_demo_flags Fr E)
    as (_ & M & Hz & _).
  split; [apply M|]. intros w Hw. apply Hz. lia.
Qed.

Lemma demo_buffer : Forall byte_ok [79; 114; 101; 0].
Proof. repeat constructor; unfold byte_ok; lia. Qed.

Lemma copy_to_user_correct_witness : exists st',
  copy_to_user vmm_root (USER_BASE + 8) [79; 114; 101; 0] demo_space = (0, st') /\
  copy_from_user vmm_root (USER_BASE + 8) 4 st' = (0, [79; 114; 101; 0]).
Proof.
  destruct demo_space_ok as [Hs Hz].
  pose proof (copy_to_user_correct (eq vmm_root) vmm_root (USER_BASE + 8) [79; 114; 101; 0] demo_space
    Hs demo_buffer ltac:(discriminate)) as Hc. cbv zeta in Hc.
  destruct (copy_to_user _ _ _ _) as [err st'].
  destruct Hc as [(_ & _ & Hn)|(-> & _ & _ & _ & _ & _ & _ & Hr)].
  - destruct Hn. intros a Ha. apply Hz. cbn [length] in Ha. unfold PAGE_SIZE. lia.
  - exists st'. split; [reflexivity|exact Hr].
Defined.

Lemma copy_user_string_correct_witness :
  exists bs, copy_user_string_optional vmm_root USER_BASE 64 demo_space = (0, bs) /\ exists s, bs = s ++ [0].
Proof.
  destruct demo_space_ok as [Hs Hz].
  pose proof (copy_user_string_correct (eq vmm_root) vmm_root USER_BASE 64 demo_space Hs
    ltac:(unfold word64, USER_BASE; lia) ltac:(discriminate) ltac:(lia)) as Hc.
  destruct (copy_user_string_optional _ _ _ _) as [err bs].
  destruct (Hz USER_BASE ltac:(unfold PAGE_SIZE; lia)) as [Hr H0].
  destruct Hc as [(-> & s & -> & _)|[(_ & _ & Hn)|(_ & _ & k & Hk & Hn & Hf)]].
  - exists (s ++ [0]). split; [reflexivity|by exists s].
  - destruct (Hn 0 ltac:(lia)) as [_ Hn0]. rewrite Z.add_0_r in Hn0. exfalso. exact (Hn0 H0).
  - destruct (Z.eq_dec k 0) as [->|Hk0].
    { rewrite Z.add_0_r in Hf. exfalso. exact (Hf Hr). }
    destruct (Hn 0 ltac:(lia)) as [_ Hn0]. rewrite Z.add_0_r in Hn0. exfalso. exact (Hn0 H0).
Defined.
