(* ===== verification/SelfTest.v ===== *)
(** The tests that the kernel runs on itself while it starts (kernel/memory_test.c
    and the end of kernel/vmm.c).

    Both stop the kernel when a check fails.  The theorems are that the checks of the
    results never fail: the kernel stops here only for want of memory, and the tests
    give back what they took. *)
From stdpp Require Import base numbers list gmap strings.
From Stdlib Require Import ZArith Lia.
From S2P Require Import Prelude Memory PageAllocator BootInfo Pmm Heap HeapGuard Vmm Usermem.

Section SelfTest.
Context {S : Type} `{PageAllocator S}.

(** ** Memory *)

Definition aligned_16 (p : Z) : bool := Z.land p 0xf =? 0.

(** The loop over the bytes of the zeroed block. *)
Fixpoint check_zero (n : nat) (m : mem) (p : Z) : bool :=
  match n with
  | O => true
  | Datatypes.S n => if negb (load8 m p =? 0) then false else check_zero n m (p + 1)
  end.

(** [option] of the allocator (no fuel) as an effect. *)
Definition lift {A} (x : option A) : eff A := match x with None => None | Some a => ret a end.
Definition panics {A} (msg : string) : eff A := Some (Panic msg).

Definition memory_self_test (fuel : nat) (h : heap_state S) : eff (heap_state S) :=
  let '(page, s, m) := pa_alloc_pages 1 (pages h) (hmem h) in
  if page =? 0 then panics "memory test: pmm_alloc_page failed" else
  let s := pa_free_pages page 1 s in
  let '(run, s, m) := pa_alloc_pages 4 s m in
  if run =? 0 then panics "memory test: pmm_alloc_pages failed" else
  if negb (Z.land run 0xfff =? 0) then panics "memory test: pages unaligned" else
  let h := mk_heap (heap_head h) (pa_free_pages run 4 s) m in
  let! (a, h) := lift (kmalloc fuel 24 h) in
  let! (b, h) := lift (kmalloc fuel 128 h) in
  let! (c, h) := lift (kmalloc fuel 3900 h) in
  if (a =? 0) || (b =? 0) || (c =? 0) then panics "memory test: kmalloc failed" else
  if negb (aligned_16 a) || negb (aligned_16 b) || negb (aligned_16 c) then panics "memory test: kmalloc alignment" else
  let! h := kfree fuel b h in
  let! (d, h) := lift (kmalloc fuel 64 h) in
  if (d =? 0) || negb (aligned_16 d) then panics "memory test: kmalloc reuse failed" else
  let! (z, h) := lift (kzalloc fuel 96 h) in
  if z =? 0 then panics "memory test: kzalloc failed" else
  if negb (check_zero 96 (hmem h) z) then panics "memory test: kzalloc nonzero" else
  let! h := kfree fuel a h in
  let! h := kfree fuel c h in
  let! h := kfree fuel d h in
  kfree fuel z h.

(** ** Page tables *)

(** [cr3] is the kernel's root; [vmm_map] and [vmm_unmap] change it. *)
Definition vmm_self_test (bi : BootInfo) (root : Z) (st : machine S) : outcome (machine S) :=
  let? p := vmm_virt_to_phys_in root (bi_kernel_base bi) st in
  if negb (p =? bi_kernel_base bi) then Panic "VMM: kernel identity translation failed" else
  let '(addr, s, m) := pa_alloc_pages 1 (m_pages st) (m_mem st) in
  if addr =? 0 then Panic "VMM: self-test alloc failed" else
  let? st := map_identity root addr PAGE_SIZE (Z.lor VMM_WRITE VMM_NX) "VMM: self-test map failed" (mk_machine s m) in
  let? p := vmm_virt_to_phys_in root addr st in
  if negb (p =? addr) then Panic "VMM: self-test translation failed" else
  let? st := vmm_unmap root addr PAGE_SIZE st in
  let? p := vmm_virt_to_phys_in root addr st in
  if negb (p =? 0) then Panic "VMM: self-test unmap failed" else
  let? st := map_identity root addr PAGE_SIZE (Z.lor VMM_WRITE VMM_NX) "VMM: self-test remap failed" st in
  Ok (mk_machine (pa_free_pages addr 1 (m_pages st)) (m_mem st)).
End SelfTest.

(** ** Memory test *)

Section MemoryTest.
Context {S : Type} `{PageAllocatorOk S}.
Context (G : Z -> Prop).
Implicit Types (h : heap_state S).
#[local] Abbreviation guarded := (guarded G).
#[local] Abbreviation after := (after G).

Lemma region_aligned h live p size : guarded h live -> (p, size) ∈ live -> aligned_16 p = true.
Proof.
  intros (bs & us & Hok & Hu & Hr)%(guarded_history G) Hin. destruct (live_region_ok h bs us live p size Hok Hu Hr Hin) as [Hp _]. unfold aligned_16.
  change 0xf with (Z.ones 4). rewrite Z.land_ones by lia. by apply Z.eqb_eq.
Qed.

(** The messages for want of memory. *)
Definition no_memory (msg : string) : Prop :=
  msg ∈ ["memory test: pmm_alloc_page failed"%string; "memory test: pmm_alloc_pages failed"%string;
         "memory test: kmalloc failed"%string; "memory test: kzalloc failed"%string].

(** How a step of the test ends: with the regions [live] and at most [k] more pages
    taken, or because fewer than [k] pages would leave no free run of four pages. *)
Definition tested k h live (r : outcome (heap_state S)) : Prop :=
  match r with
  | Ok h' => guarded h' live /\ after k h h'
  | Panic msg => no_memory msg /\ no_run 4 k (pages h)
  end.

Lemma tested_after k1 k2 h1 h2 live r : after k1 h1 h2 -> tested k2 h2 live r -> tested (k1 + k2) h1 live r.
Proof.
  intros A. destruct r as [h|msg]; [intros [Hi A2]; split; [done|by eapply after_trans]|].
  intros [Hm Hr]. split; [done|]. eapply no_run_takes; [apply A|done].
Qed.

Lemma tested_mono k k' h live r : (k <= k')%nat -> tested k h live r -> tested k' h live r.
Proof.
  intros Hk. destruct r as [h'|msg]; [intros [Hi A]; split; [done|by eapply after_mono]|].
  intros [Hm Hr]. split; [done|]. by eapply no_run_mono; [|exact Hk|exact Hr].
Qed.

(** [f], a computation with fuel, ends in a result as [Q] says when the fuel is enough. *)
Definition ends {A} (f : nat -> eff A) (Q : outcome A -> Prop) : Prop :=
  exists F r, (forall fuel, (F <= fuel)%nat -> f fuel = Some r) /\ Q r.

Lemma ends_alloc {A} size h live (f : nat -> Z * heap_state S -> eff A) Q :
  guarded h live -> 0 < size <= 8796093022192 ->
  (forall p h', guarded h' (grant p size live) -> after (Z.to_nat (pages_for size)) h h' -> (p = 0 -> no_run (pages_for size) 1 (pages h)) ->
     ends (fun fuel => f fuel (p, h')) Q) ->
  ends (fun fuel => let! r := lift (kmalloc fuel size h) in f fuel r) Q.
Proof.
  intros Hi Hs Hf. destruct (alloc_step G size h live Hi Hs) as (F1 & p & h' & Hk & Hi' & Ht & Hno). destruct (Hf p h' Hi' Ht (fun E => proj2 (Hno E))) as (F2 & r & Hr & HQ).
  exists (F1 + F2)%nat, r. split; [|done]. intros fuel Hfu. rewrite Hk by lia. cbn [lift ret eff_bind]. apply Hr. lia.
Qed.

Lemma ends_free {A} p size h live1 live2 (f : nat -> heap_state S -> eff A) Q :
  guarded h (live1 ++ (p, size) :: live2) ->
  (forall h', guarded h' (live1 ++ live2) -> after 0 h h' -> ends (fun fuel => f fuel h') Q) ->
  ends (fun fuel => let! h' := kfree fuel p h in f fuel h') Q.
Proof.
  intros Hi Hf. destruct (free_step G p size h live1 live2 Hi) as (F1 & h' & Hk & Hi' & Ht). destruct (Hf h' Hi' Ht) as (F2 & r & Hr & HQ).
  exists (F1 + F2)%nat, r. split; [|done]. intros fuel Hfu. rewrite Hk by lia. cbn [eff_bind]. apply Hr. lia.
Qed.

Lemma ends_panic {A} msg (Q : outcome A -> Prop) : Q (Panic msg) -> ends (fun _ => panics msg) Q.
Proof. intros HQ. by exists O, (Panic msg). Qed.

Lemma check_zero_ok n m p : (forall x, p <= x < p + Z.of_nat n -> load8 m x = 0) -> check_zero n m p = true.
Proof.
  revert p. induction n as [|n IH]; intros p Hz; [done|]. cbn [check_zero]. rewrite Hz by lia. cbn. apply IH. intros x Hx. apply Hz. lia.
Qed.

Lemma mem_zero_bytes p n (m : mem) : mem_zero p (Z.of_nat n) m = store_bytes m p (replicate n 0).
Proof.
  unfold mem_zero. rewrite Nat2Z.id. revert p m. assert (forall i p m, for_loop n i (fun j m => store8 m (p + j) 0) m = store_bytes m (p + i) (replicate n 0)) as Hl.
  { induction n as [|n IH]; intros i p m; [done|]. cbn [for_loop replicate store_bytes]. rewrite IH. f_equal. lia. }
  intros p m. rewrite Hl. by rewrite Z.add_0_r.
Qed.

(** The end of the test: the regions are given back. *)
Lemma release_all a c d z h live :
  guarded h ([(z, 96); (d, 64); (c, 3900); (a, 24)] ++ live) ->
  ends (fun fuel => let! h := kfree fuel a h in let! h := kfree fuel c h in let! h := kfree fuel d h in kfree fuel z h)
    (tested 0 h live).
Proof.
  intros Hi. apply (ends_free a 24 h [(z, 96); (d, 64); (c, 3900)] live); [exact Hi|]. intros h1 Hi1 T1.
  apply (ends_free c 3900 h1 [(z, 96); (d, 64)] live); [exact Hi1|]. intros h2 Hi2 T2.
  apply (ends_free d 64 h2 [(z, 96)] live); [exact Hi2|]. intros h3 Hi3 T3.
  destruct (free_step G z 96 h3 [] live Hi3) as (F & h4 & Hk & Hi4 & T4). exists F, (Ok h4). split; [exact Hk|].
  split; [exact Hi4|]. exact (after_trans _ 0 0 _ _ _ T1 (after_trans _ 0 0 _ _ _ T2 (after_trans _ 0 0 _ _ _ T3 T4))).
Qed.

Lemma zeroed_block d c a h live :
  guarded h ([(d, 64); (c, 3900); (a, 24)] ++ live) ->
  ends (fun fuel =>
    let! (z, h) := lift (kzalloc fuel 96 h) in
    if z =? 0 then panics "memory test: kzalloc failed" else
    if negb (check_zero 96 (hmem h) z) then panics "memory test: kzalloc nonzero" else
    let! h := kfree fuel a h in let! h := kfree fuel c h in let! h := kfree fuel d h in kfree fuel z h)
    (tested 1 h live).
Proof.
  intros Hi. destruct (alloc_step G 96 h _ Hi ltac:(lia)) as (F & z & h1 & Hk & Hi1 & T1 & Hno). unfold grant in Hi1.
  destruct (Z.eqb_spec z 0) as [->|Hz].
  { exists F, (Panic "memory test: kzalloc failed"). split; [intros fuel Hf; unfold kzalloc; by rewrite Hk by done|].
    split; [unfold no_memory; set_solver|]. by apply (no_run_mono 1 4 1 1), (Hno eq_refl). }
  set (h2 := with_mem h1 (mem_zero z 96 (hmem h1))).
  assert (guarded h2 ([(z, 96); (d, 64); (c, 3900); (a, 24)] ++ live) /\ after 0 h1 h2) as [Hi2 Haf].
  { unfold h2. change 96 with (Z.of_nat 96) at 1 3. rewrite mem_zero_bytes.
    apply (guarded_write G z 96 (replicate 96 0)); [exact Hi1|by left|rewrite length_replicate; lia|]. apply Forall_replicate. unfold byte_ok. lia. }
  destruct (release_all a c d z h2 live Hi2) as (F2 & r & Hr & HQ). exists (F + F2)%nat, r. split.
  - intros fuel Hf. unfold kzalloc. rewrite Hk by lia. rewrite (proj2 (Z.eqb_neq z 0)) by done. cbn [lift ret eff_bind]. fold h2.
    rewrite (proj2 (Z.eqb_neq z 0)) by done. rewrite check_zero_ok; [apply Hr; lia|]. intros x Hx. unfold h2. cbn [with_mem hmem].
    rewrite load8_mem_zero. rewrite (proj2 (Z.leb_le _ _)), (proj2 (Z.ltb_lt _ _)) by lia. done.
  - apply (tested_after 1 0 h h2); [exact (after_trans _ 1 0 _ _ _ T1 Haf)|exact HQ].
Qed.

(** The part of the test after the three requests. *)
Lemma reuse_block a b c h live :
  guarded h ([(c, 3900); (b, 128); (a, 24)] ++ live) ->
  ends (fun fuel =>
    let! h := kfree fuel b h in
    let! (d, h) := lift (kmalloc fuel 64 h) in
    if (d =? 0) || negb (aligned_16 d) then panics "memory test: kmalloc reuse failed" else
    let! (z, h) := lift (kzalloc fuel 96 h) in
    if z =? 0 then panics "memory test: kzalloc failed" else
    if negb (check_zero 96 (hmem h) z) then panics "memory test: kzalloc nonzero" else
    let! h := kfree fuel a h in let! h := kfree fuel c h in let! h := kfree fuel d h in kfree fuel z h)
    (tested 2 h live).
Proof.
  intros Hi. destruct (freed_reused G b 128 64 h [(c, 3900)] ((a, 24) :: live) Hi) as (F & h1 & d & h2 & Hk & Hd & Hi2 & T2);
    [lia|vm_compute; split; discriminate|].
  destruct (zeroed_block d c a h2 live Hi2) as (F2 & r & Hr & HQ). exists (F + F2)%nat, r. split; [|exact (tested_after 1 1 _ _ _ _ T2 HQ)].
  intros fuel Hf. destruct (Hk fuel ltac:(lia)) as [-> E]. cbn [eff_bind]. rewrite E. cbn [lift ret eff_bind].
  rewrite (proj2 (Z.eqb_neq d 0)), (region_aligned h2 _ d 64 Hi2) by (done || by left). apply Hr. lia.
Qed.

(** The memory test, with any heap and any regions in use, ends; it finds every
    address aligned, the freed block reused and the zeroed block zero, so that it stops
    the kernel only for want of memory (taking fewer than five of the free pages would
    leave no four in a row), and when it passes everything it took is given back and the regions of the other users of the heap are as before. *)
Theorem memory_self_test_passes h live :
  guarded h live -> ends (fun fuel => memory_self_test fuel h) (tested 5 h live).
Proof.
  intros Hi. pose proof (guarded_wf _ _ _ Hi) as Hw. unfold memory_self_test. destruct (pa_alloc_pages 1 (pages h) (hmem h)) as [[p1 s1] m1] eqn:E1.
  destruct (Z.eqb_spec p1 0) as [->|Hp1].
  { apply ends_panic. split; [unfold no_memory; set_solver|]. apply (no_run_mono 1 4 1 5); [lia|lia|]. apply (no_run_failed 1 _ _ _ _ Hw ltac:(lia) E1). }
  destruct (pages_returned G 1 h live p1 s1 m1 Hi ltac:(lia) E1 Hp1) as (_ & T1 & Hi1). cbv zeta in *.
  pose proof (guarded_wf _ _ _ Hi1) as Hw1. cbn [pages] in Hw1.
  destruct (pa_alloc_pages 4 (pa_free_pages p1 1 s1) m1) as [[p2 s2] m2] eqn:E2.
  destruct (Z.eqb_spec p2 0) as [->|Hp2].
  { apply ends_panic. split; [unfold no_memory; set_solver|]. apply (no_run_takes 4 0 5 _ _ (proj1 T1)). apply (no_run_mono 4 4 1 5); [lia|lia|].
    apply (no_run_failed 4 _ _ _ _ Hw1 ltac:(lia) E2). }
  destruct (pages_returned G 4 _ live p2 s2 m2 Hi1 ltac:(lia) E2 Hp2) as (Hal & T2 & Hi2). rewrite Hal. cbn [Z.eqb negb].
  cbn [heap_head] in *. set (h2 := mk_heap (heap_head h) (pa_free_pages p2 4 s2) m2) in *.
  assert (after 0 h h2) as T by exact (after_trans _ 0 0 _ _ _ T1 T2). clearbody h2. clear Hi Hi1 T1 T2.
  apply (ends_alloc 24 h2 live); [done|lia|]. intros a h3 Hi3 T3 N3. apply (ends_alloc 128 h3 (grant a 24 live)); [done|lia|]. intros b h4 Hi4 T4 N4.
  apply (ends_alloc 3900 h4 (grant b 128 (grant a 24 live))); [done|lia|]. intros c h5 Hi5 T5 N5. unfold grant in Hi5.
  pose proof (after_trans _ 0 1 _ _ _ T T3) as T03. pose proof (after_trans _ 1 1 _ _ _ T03 T4) as T04.
  pose proof (after_trans _ 2 1 _ _ _ T04 T5) as T05.
  assert (forall k hx, (k < 5)%nat -> after k h hx -> no_run 1 1 (pages hx) -> tested 5 h live (Panic "memory test: kmalloc failed")) as Hfail.
  { intros k hx Hk A N. split; [unfold no_memory; set_solver|]. apply (no_run_mono 1 4 (k + 1) 5); [lia|lia|]. by apply (no_run_takes _ k 1 _ (pages hx)); [apply A|]. }
  destruct (Z.eqb_spec a 0) as [Ea|Ha]; [apply ends_panic; by apply (Hfail 0%nat h2); [lia|done|apply N3]|].
  destruct (Z.eqb_spec b 0) as [Eb|Hb]; [apply ends_panic; by apply (Hfail 1%nat h3); [lia|done|apply N4]|].
  destruct (Z.eqb_spec c 0) as [Ec|Hc]; [apply ends_panic; by apply (Hfail 2%nat h4); [lia|done|apply N5]|]. cbn [orb].
  rewrite (region_aligned h5 _ a 24 Hi5), (region_aligned h5 _ b 128 Hi5), (region_aligned h5 _ c 3900 Hi5)
    by (rewrite !elem_of_cons; auto). cbn [negb orb].
  destruct (reuse_block a b c h5 live Hi5) as (F & r & Hr & HQ). exists F, r. split; [exact Hr|]. exact (tested_after 3 2 _ _ _ _ T05 HQ).
Qed.
End MemoryTest.

(** ** Page table test *)

Section TableTest.
Context {S : Type} `{PageAllocatorOk S}.
Implicit Types (st : machine S) (R : Z -> Prop).

(** A change of memory outside the tables. *)
Lemma forest_data s (m m' : mem) R :
  forest_wf s m R -> (forall x, in_table m R x -> load8 m' x = load8 m x) ->
  forest_wf s m' R /\ (forall t, is_table m' R t <-> is_table m R t) /\ (forall r w, R r -> pte m' r w = pte m r w).
Proof.
  intros Hf Hx. assert (forall t, is_table m R t -> agree m' m t PAGE_SIZE) as Ha by (intros t Ht x Hxt; apply Hx; by exists t).
  assert (forall r p, R r -> path_ok p -> walk m' r p = walk m r p) as Hw by (intros r p Hr Hp; by apply (walk_frame _ _ s R)).
  split; [|split].
  - destruct Hf as [F1 F2 F3]. split; [done|..].
    + intros r p t Hr Hp. rewrite Hw by done. by apply F2.
    + intros r1 r2 p q t H1 H2 Hp Hq. rewrite !Hw by done. by apply F3.
  - intros t. split; intros (r & p & Hr & Hp & E); exists r, p; by rewrite Hw in * by done.
  - intros r w Hr. by apply (pte_frame s _ _ R).
Qed.

(** A page taken from the allocator. *)
Lemma booting_alloc st0 root limit st addr s m :
  booting st0 root limit st -> pa_wf (m_pages st) -> pa_alloc_pages 1 (m_pages st) (m_mem st) = (addr, s, m) -> addr <> 0 ->
  booting st0 root limit (mk_machine s m) /\ (forall t, is_table m (eq root) t -> t / PAGE_SIZE <> addr / PAGE_SIZE).
Proof.
  intros [B Hid] Hw Ea Hne. apply pa_alloc_ok in Ea as A; [|done|lia|done]. pose proof (bu_forest _ _ _ B) as Hf.
  assert (forall x, in_table (m_mem st) (eq root) x -> load8 m x = load8 (m_mem st) x) as Hx.
  { intros x Hx. rewrite (ap_zeroed _ _ _ _ _ _ A), load8_mem_zero. pose proof (table_not_fresh _ _ _ _ _ _ _ x Hf A Hx) as Hn.
    case_test; [|done]. bool_to_prop. unfold PAGE_SIZE in *. lia. }
  destruct (forest_data _ _ _ _ Hf Hx) as (Hf' & Ht & Hp). destruct A as [A1 A2 A3 A4 A5 A6 A7 A8]. split.
  - split.
    + split; cbn [m_pages m_mem].
      * apply (forest_mono (m_pages st)); [done|done|]. intros q Hq. apply A5. by left.
      * intros q Hq. apply A5. left. by apply B.
      * by rewrite A8, (bu_top _ _ _ B).
      * intros t Htb. apply B. by apply Ht.
      * intros x Hlx. rewrite A6, load8_mem_zero. rewrite (bu_frame _ _ _ B x Hlx). case_test; [|done]. exfalso.
        apply (A4 (x / PAGE_SIZE)); [|by apply B]. bool_to_prop. unfold PAGE_SIZE in *. zlia.
    + intros w Hlw. destruct (Hid w Hlw) as (f & Hfl & E). exists f. split; [done|]. cbn [m_mem]. by rewrite Hp.
  - intros t Htb E. apply Ht in Htb as (r & p & Hr & Hpo & Hwk). destruct (fw_table _ _ _ Hf r p t Hr Hpo Hwk) as [_ _ _ Hl].
    apply (A4 (t / PAGE_SIZE)); [lia|done].
Qed.

(** A page in use that is no table stays none. *)
Lemma avoids_updates root f addr st st' :
  updates (eq root) root f (m_pages st) (m_mem st) (m_pages st') (m_mem st') -> pa_live (m_pages st) (addr / PAGE_SIZE) ->
  (forall t, is_table (m_mem st) (eq root) t -> t / PAGE_SIZE <> addr / PAGE_SIZE) ->
  pa_live (m_pages st') (addr / PAGE_SIZE) /\ (forall t, is_table (m_mem st') (eq root) t -> t / PAGE_SIZE <> addr / PAGE_SIZE).
Proof.
  intros U Hl Ha. split; [by apply U|]. intros t [Ht|Ht]%(u_tables _ _ _ _ _ _ _ U); [by apply Ha|]. intros E. by rewrite E in Ht.
Qed.

(** The page is given back. *)
Lemma booting_free st0 root limit addr st :
  booting st0 root limit st -> 0 < addr < 18446744073709551616 -> ~ pa_live (m_pages st0) (addr / PAGE_SIZE) ->
  (forall t, is_table (m_mem st) (eq root) t -> t / PAGE_SIZE <> addr / PAGE_SIZE) ->
  booting st0 root limit (mk_machine (pa_free_pages addr 1 (m_pages st)) (m_mem st)).
Proof.
  intros [[Hf B2 B3 B4 B5] Hid] Hr Hn Ha. destruct Hf as [F1 F2 F3]. destruct (pa_free_ok addr 1 (m_pages st) F1 Hr ltac:(lia)) as (W1 & W2 & W3).
  assert (forall q, pa_live (m_pages st) q -> q <> addr / PAGE_SIZE -> pa_live (pa_free_pages addr 1 (m_pages st)) q) as Hl.
  { intros q Hq Hne. apply W3; [by apply pa_live_top|]. split; [done|lia]. }
  split; [|done]. split; cbn [m_pages m_mem].
  - split; [done| |done]. intros r p t Hrr Hp Hw. destruct (F2 r p t Hrr Hp Hw) as [T1 T2 T3 T4]. split; [done..|].
    apply Hl; [done|]. apply Ha. by exists r, p.
  - intros q Hq. apply Hl; [by apply B2|]. intros ->. by apply Hn.
  - congruence.
  - exact B4.
  - exact B5.
Qed.

(** A page of the identity map is unmapped and mapped again. *)
Definition remap_test (root addr : Z) st : outcome (machine S) :=
  let? st := vmm_unmap root addr PAGE_SIZE st in
  let? p := vmm_virt_to_phys_in root addr st in
  if negb (p =? 0) then Panic "VMM: self-test unmap failed" else
  map_identity root addr PAGE_SIZE (Z.lor VMM_WRITE VMM_NX) "VMM: self-test remap failed" st.

Lemma remap_test_ok k st0 root limit addr st :
  booting st0 root limit st -> takes k (m_pages st0) (m_pages st) -> 0 <= limit <= 281474976710656 -> addr mod PAGE_SIZE = 0 -> 0 <= addr -> addr + PAGE_SIZE <= limit ->
  pa_live (m_pages st) (addr / PAGE_SIZE) -> (forall t, is_table (m_mem st) (eq root) t -> t / PAGE_SIZE <> addr / PAGE_SIZE) ->
  match remap_test root addr st with
  | Panic _ => out_of_pages (k + 3) (m_pages st0)
  | Ok st' => booting st0 root limit st' /\ takes (k + 3) (m_pages st0) (m_pages st') /\ (forall t, is_table (m_mem st') (eq root) t -> t / PAGE_SIZE <> addr / PAGE_SIZE)
  end.
Proof.
  intros B T Hlim Ha Hpos Hin Hl Hav. rewrite <- (range_tables_page addr Ha). pose proof (bu_forest _ _ _ (bo_built _ _ _ _ B)) as Hf.
  assert (vrange_ok addr PAGE_SIZE) as Hrg by (unfold vrange_ok, PAGE_SIZE in *; lia). pose proof Hrg as (R1 & R2 & R3).
  unfold remap_test, vmm_unmap. destruct (unmap_in_root_spec st (eq root) root addr PAGE_SIZE Hf eq_refl Hrg) as (st3 & -> & Ep3 & U3). cbn [outcome_bind].
  destruct (avoids_updates _ _ addr _ _ U3 Hl Hav) as [Hl3 Hav3]. pose proof (u_forest _ _ _ _ _ _ _ U3) as Hf3.
  rewrite (virt_to_phys_pte st3 (eq root) root addr Hf3 eq_refl). cbn [outcome_bind].
  assert (pte (m_mem st3) root addr = 0) as ->.
  { rewrite (u_pte _ _ _ _ _ _ _ U3 addr) by (unfold canonical, PAGE_SIZE in *; lia). unfold range_fun.
    rewrite (proj2 (Z.leb_le _ _)), (proj2 (Z.ltb_lt _ _)) by (unfold PAGE_SIZE; zlia). done. }
  change (negb (translate 0 addr =? 0)) with false. cbv iota. unfold map_identity, vmm_map.
  assert (flags_ok (Z.lor VMM_WRITE VMM_NX)) as Hfl by done.
  pose proof (map_in_root_spec st3 (eq root) root addr addr PAGE_SIZE _ Hf3 eq_refl Hfl Hrg R1
    (phys_end addr PAGE_SIZE addr Hrg R1 ltac:(unfold PAGE_SIZE in *; lia))) as M4.
  pose proof (built_updates _ _ _ _ _ (bo_built _ _ _ _ B) U3) as Bu3.
  destruct (map_in_root root addr addr PAGE_SIZE _ st3) as [[res st4]|msg']; cbn [outcome_bind]; [|rewrite Ep3 in M4; by eapply no_run_takes].
  destruct M4 as (-> & U4 & T4). rewrite Ep3 in T4. cbn [Z.ltb Z.compare]. destruct (avoids_updates _ _ addr _ _ U4 Hl3 Hav3) as [_ Hav4]. split; [|split; [by eapply takes_trans|done]].
  split; [by eapply built_updates|]. intros w Hlw. rewrite (u_pte _ _ _ _ _ _ _ U4 w) by (unfold canonical; lia). unfold range_fun. case_test.
  - eexists. split; [exact Hfl|]. unfold map_entry. do 2 f_equal. lia.
  - rewrite (u_pte _ _ _ _ _ _ _ U3 w) by (unfold canonical; lia). unfold range_fun. rewrite E. by apply (bo_identity _ _ _ _ B).
Qed.

(** Mapping a page of the identity map to itself. *)
Lemma map_test_ok k st0 root limit addr msg st :
  booting st0 root limit st -> takes k (m_pages st0) (m_pages st) -> 0 <= limit <= 281474976710656 -> addr mod PAGE_SIZE = 0 -> 0 <= addr -> addr + PAGE_SIZE <= limit ->
  pa_live (m_pages st) (addr / PAGE_SIZE) -> (forall t, is_table (m_mem st) (eq root) t -> t / PAGE_SIZE <> addr / PAGE_SIZE) ->
  match map_identity root addr PAGE_SIZE (Z.lor VMM_WRITE VMM_NX) msg st with
  | Panic _ => out_of_pages (k + 3) (m_pages st0)
  | Ok st' => booting st0 root limit st' /\ takes (k + 3) (m_pages st0) (m_pages st') /\ pa_live (m_pages st') (addr / PAGE_SIZE) /\
      (forall t, is_table (m_mem st') (eq root) t -> t / PAGE_SIZE <> addr / PAGE_SIZE)
  end.
Proof.
  intros B T Hlim Ha Hpos Hin Hl Hav. rewrite <- (range_tables_page addr Ha). assert (vrange_ok addr PAGE_SIZE) as Hrg by (unfold vrange_ok, PAGE_SIZE in *; lia). pose proof Hrg as (R1 & R2 & R3).
  assert (flags_ok (Z.lor VMM_WRITE VMM_NX)) as Hfl by done.
  pose proof (map_in_root_spec st (eq root) root addr addr PAGE_SIZE _ (bu_forest _ _ _ (bo_built _ _ _ _ B)) eq_refl Hfl Hrg R1
    (phys_end addr PAGE_SIZE addr Hrg R1 ltac:(unfold PAGE_SIZE in *; lia))) as M2.
  pose proof (map_identity_step k st0 st root limit addr PAGE_SIZE _ msg (bo_built _ _ _ _ B) T Hfl Hrg Hlim (or_introl (bo_identity _ _ _ _ B))) as B2.
  unfold map_identity, vmm_map in B2 |- *. destruct (map_in_root root addr addr PAGE_SIZE _ st) as [[res st2]|]; cbn [outcome_bind] in B2 |- *; [|done].
  destruct M2 as (-> & U2 & _). cbn [Z.ltb Z.compare] in B2 |- *. destruct B2 as [B2 T2]. split; [done|]. split; [done|]. exact (avoids_updates _ _ addr _ _ U2 Hl Hav).
Qed.

(** After [vmm_init] the page table test stops the kernel only for want of memory (it
    needs at most seven pages):
    the kernel's base translates to itself, the page taken is mapped, unmapped and
    mapped again as the translations show.  Afterwards all memory is still mapped to
    itself, the page is free again, and no byte of a page in use before has changed. *)
Theorem vmm_self_test_passes k bi root st0 st :
  let limit := pa_top (m_pages st0) * PAGE_SIZE in
  booting st0 root limit st -> takes k (m_pages st0) (m_pages st) -> 0 <= bi_kernel_base bi < limit -> pa_top (m_pages st0) <= 68719476736 ->
  match vmm_self_test bi root st with
  | Panic _ => out_of_pages (k + 7) (m_pages st0)
  | Ok st' => booting st0 root limit st'
  end.
Proof.
  intros limit B T Hk Htop. pose proof (bu_forest _ _ _ (bo_built _ _ _ _ B)) as Hf. pose proof (fw_pages _ _ _ Hf) as Hw.
  pose proof (bu_top _ _ _ (bo_built _ _ _ _ B)) as Et. pose proof (pa_top_bound _ Hw) as Htb.
  assert (0 <= limit <= 281474976710656) as Hlim by (unfold limit, PAGE_SIZE; lia). unfold vmm_self_test.
  rewrite (identity_translate st root limit _ Hf (bo_identity _ _ _ _ B)) by lia. cbn [outcome_bind]. rewrite Z.eqb_refl. cbn [negb].
  destruct (pa_alloc_pages 1 (m_pages st) (m_mem st)) as [[addr s] m] eqn:Ea. destruct (Z.eqb_spec addr 0) as [->|Hne].
  { eapply no_run_mono; [| |exact (no_run_takes _ _ _ _ _ T (no_run_failed 1 _ _ _ _ Hw ltac:(lia) Ea))]; lia. }
  pose proof (takes_trans _ _ _ _ _ T (takes_alloc 1 _ _ _ _ _ Hw ltac:(lia) Ea Hne)) as T1.
  assert (alloc_post 1 addr (m_pages st) s (m_mem st) m) as [A1 A2 A3 A4 A5 _ _ _] by (apply pa_alloc_ok; [done|lia|done|done]).
  destruct (booting_alloc st0 root limit st addr s m B Hw Ea Hne) as [B1 Hav1]. set (st1 := mk_machine s m) in *.
  assert (addr + PAGE_SIZE <= limit) as Hin by (unfold limit; rewrite <- Et; lia).
  assert (pa_live (m_pages st1) (addr / PAGE_SIZE)) as Hl1 by (apply A5; right; lia).
  pose proof (map_test_ok _ st0 root limit addr "VMM: self-test map failed" st1 B1 T1 Hlim A1 ltac:(lia) Hin Hl1 Hav1) as M2.
  destruct (map_identity root addr PAGE_SIZE _ "VMM: self-test map failed" st1) as [st2|msg]; cbn [outcome_bind]; [|eapply no_run_mono; [| |exact M2]; lia].
  destruct M2 as (B2 & T2 & Hl2 & Hav2).
  rewrite (identity_translate st2 root limit addr (bu_forest _ _ _ (bo_built _ _ _ _ B2)) (bo_identity _ _ _ _ B2)) by (unfold PAGE_SIZE in *; lia).
  cbn [outcome_bind]. rewrite Z.eqb_refl. cbn [negb].
  pose proof (remap_test_ok _ st0 root limit addr st2 B2 T2 Hlim A1 ltac:(lia) Hin Hl2 Hav2) as M4. unfold remap_test in M4.
  assert (forall s0, out_of_pages (k + Z.to_nat 1 + 3 + 3) s0 -> out_of_pages (k + 7) s0) as Hup by (intros s0 Ho; eapply no_run_mono; [| |exact Ho]; lia).
  destruct (vmm_unmap root addr PAGE_SIZE st2) as [st3|]; cbn [outcome_bind] in M4 |- *; [|by apply Hup].
  destruct (vmm_virt_to_phys_in root addr st3) as [p|]; cbn [outcome_bind] in M4 |- *; [|by apply Hup]. destruct (negb (p =? 0)); [by apply Hup|].
  destruct (map_identity root addr PAGE_SIZE _ _ st3) as [st4|]; cbn [outcome_bind]; [|by apply Hup]. destruct M4 as (B4 & _ & Hav4).
  apply booting_free; [done|unfold PAGE_SIZE in *; lia| |done].
  intros Hl. apply (A4 (addr / PAGE_SIZE)); [lia|]. by apply (bu_live _ _ _ (bo_built _ _ _ _ B)).
Qed.
End TableTest.
