(* ===== verification/Elf.v ===== *)
(** The user-program ELF parser (kernel/elf.c).

    [elf_validate] checks the file header, [elf_probe_user_image] collects the
    loadable segments of an image at address [image] of memory.  The reference
    definition [elf_segments] is what the parser means: the loadable program
    headers in file order, all of them within the file and at most eight. *)
From stdpp Require Import base numbers list gmap strings.
From Stdlib Require Import ZArith Lia.
From S2P Require Import Prelude Memory.

(** ** Definitions *)

Definition PT_LOAD : Z := 1.
Definition ET_EXEC : Z := 2.
Definition EM_X86_64 : Z := 62.
Definition sizeof_Ehdr : Z := 64.

Record Elf64_Ehdr := {
  e_ident : list Z; e_type : Z; e_machine : Z; e_version : Z; e_entry : Z; e_phoff : Z;
  e_shoff : Z; e_flags : Z; e_ehsize : Z; e_phentsize : Z; e_phnum : Z;
}.

Record Elf64_Phdr := {
  p_type : Z; p_flags : Z; p_offset : Z; p_vaddr : Z; p_paddr : Z; p_filesz : Z; p_memsz : Z;
  p_align : Z;
}.

(** The headers as they lie in memory. *)
Definition read_ehdr (m : mem) (a : Z) : Elf64_Ehdr := {|
  e_ident := load_bytes m a 16; e_type := load16 m (a + 16); e_machine := load16 m (a + 18);
  e_version := load32 m (a + 20); e_entry := load64 m (a + 24); e_phoff := load64 m (a + 32);
  e_shoff := load64 m (a + 40); e_flags := load32 m (a + 48); e_ehsize := load16 m (a + 52);
  e_phentsize := load16 m (a + 54); e_phnum := load16 m (a + 56) |}.

Definition read_phdr (m : mem) (a : Z) : Elf64_Phdr := {|
  p_type := load32 m a; p_flags := load32 m (a + 4); p_offset := load64 m (a + 8);
  p_vaddr := load64 m (a + 16); p_paddr := load64 m (a + 24); p_filesz := load64 m (a + 32);
  p_memsz := load64 m (a + 40); p_align := load64 m (a + 48) |}.

Record UserElfSegmentInfo := {
  seg_vaddr : Z; seg_file_offset : Z; seg_mem_size : Z; seg_file_size : Z; seg_flags : Z;
}.

(** [ei_segments] holds the entries filled so far. *)
Record UserElfInfo := {
  ei_entry : Z; ei_image_size : Z; ei_segment_count : Z; ei_segments : list UserElfSegmentInfo;
}.

Definition ident_ok (ident : list Z) : bool :=
  (nth 0 ident 0 =? 0x7f) && (nth 1 ident 0 =? 69) && (nth 2 ident 0 =? 76) && (nth 3 ident 0 =? 70) &&
  (nth 4 ident 0 =? 2) && (nth 5 ident 0 =? 1).

Definition elf_validate (m : mem) (image size : Z) : Z :=
  if (image =? 0) || (size <? sizeof_Ehdr) then -1 else
  let eh := read_ehdr m image in
  if negb (ident_ok (e_ident eh)) then -1 else
  if negb (e_type eh =? ET_EXEC) || negb (e_machine eh =? EM_X86_64) then -1 else
  if size <? e_phoff eh +u e_phentsize eh *u e_phnum eh then -1 else 0.

Definition segment_of (ph : Elf64_Phdr) : UserElfSegmentInfo := {|
  seg_vaddr := p_vaddr ph; seg_file_offset := p_offset ph; seg_mem_size := p_memsz ph;
  seg_file_size := p_filesz ph; seg_flags := p_flags ph |}.

(** The address of program header [i]. *)
Definition phdr_addr (eh : Elf64_Ehdr) (image i : Z) : Z :=
  image +u e_phoff eh +u i *u e_phentsize eh.

(** The loop of [elf_probe_user_image] from header [i], [n] headers left. *)
Fixpoint probe_loop (n : nat) (m : mem) (image size : Z) (eh : Elf64_Ehdr) (i : Z) (info : UserElfInfo)
  : Z * UserElfInfo :=
  match n with
  | O => (if ei_segment_count info =? 0 then -1 else 0, info)
  | S n =>
      let ph := read_phdr m (phdr_addr eh image i) in
      if negb (p_type ph =? PT_LOAD) || (p_memsz ph =? 0) then probe_loop n m image size eh (i + 1) info else
      if (size <? p_offset ph +u p_filesz ph) || (p_memsz ph <? p_filesz ph) then (-1, info) else
      if 8 <=? ei_segment_count info then (-1, info) else
      probe_loop n m image size eh (i + 1)
        {| ei_entry := ei_entry info; ei_image_size := ei_image_size info;
           ei_segment_count := ei_segment_count info + 1;
           ei_segments := ei_segments info ++ [segment_of ph] |}
  end.

Definition elf_probe_user_image (m : mem) (image size : Z) (info : UserElfInfo) : Z * UserElfInfo :=
  if elf_validate m image size <? 0 then (-1, info) else
  let eh := read_ehdr m image in
  probe_loop (Z.to_nat (e_phnum eh)) m image size eh 0
    {| ei_entry := e_entry eh; ei_image_size := size; ei_segment_count := 0; ei_segments := [] |}.

(** The header [elf_self_test] builds, at address [a]; [magic1] is the second
    identification byte. *)
Definition self_test_header (m : mem) (a magic1 : Z) : mem :=
  let m := mem_zero a sizeof_Ehdr m in
  let m := store8 m a 0x7f in
  let m := store8 m (a + 1) magic1 in
  let m := store8 m (a + 2) 76 in
  let m := store8 m (a + 3) 70 in
  let m := store8 m (a + 4) 2 in
  let m := store8 m (a + 5) 1 in
  let m := store_le 2 m (a + 16) ET_EXEC in
  let m := store_le 2 m (a + 18) EM_X86_64 in
  let m := store64 m (a + 32) sizeof_Ehdr in
  let m := store_le 2 m (a + 54) 56 in
  store_le 2 m (a + 56) 0.

Definition elf_self_test (m : mem) (a : Z) : outcome mem :=
  let m := self_test_header m a 69 in
  if elf_validate m a sizeof_Ehdr <? 0 then Panic "elf: valid self-test failed" else
  let m := store8 m (a + 1) 88 in
  if elf_validate m a sizeof_Ehdr =? 0 then Panic "elf: invalid self-test failed" else Ok m.

(** ** Reference definition *)

Definition phdrs (m : mem) (image : Z) : list Elf64_Phdr :=
  let eh := read_ehdr m image in
  map (fun i => read_phdr m (phdr_addr eh image (Z.of_nat i))) (seq 0 (Z.to_nat (e_phnum eh))).

Definition loadable (ph : Elf64_Phdr) : bool := (p_type ph =? PT_LOAD) && negb (p_memsz ph =? 0).

(** The file part of the segment lies in the file and fits its memory. *)
Definition segment_fits (size : Z) (ph : Elf64_Phdr) : bool :=
  (p_offset ph +u p_filesz ph <=? size) && (p_filesz ph <=? p_memsz ph).

Definition elf_segments (m : mem) (image size : Z) : option (list UserElfSegmentInfo) :=
  let ls := List.filter loadable (phdrs m image) in
  if (elf_validate m image size =? 0) && forallb (segment_fits size) ls &&
     negb (Nat.eqb (length ls) 0) && Nat.leb (length ls) 8
  then Some (map segment_of ls) else None.

(** ** The loop *)

Section Loop.
Context (m : mem) (image size : Z) (eh : Elf64_Ehdr).

Let headers (i n : nat) : list Elf64_Phdr :=
  List.filter loadable (map (fun k => read_phdr m (phdr_addr eh image (Z.of_nat k))) (seq i n)).

(** One header: skipped, refused or appended. *)
Lemma probe_loop_spec n i info :
  ei_segment_count info = Z.of_nat (length (ei_segments info)) -> (length (ei_segments info) <= 8)%nat ->
  let ls := headers i n in
  let k := (length (ei_segments info) + length ls)%nat in
  let '(err, info') := probe_loop n m image size eh (Z.of_nat i) info in
  err = (if forallb (segment_fits size) ls && Nat.leb k 8 && negb (Nat.eqb k 0) then 0 else -1) /\
  (err = 0 -> info' = {| ei_entry := ei_entry info; ei_image_size := ei_image_size info;
     ei_segment_count := Z.of_nat k; ei_segments := ei_segments info ++ map segment_of ls |}).
Proof.
  revert i info. induction n as [|n IH]; intros i info Hc H8; cbn [probe_loop].
  - unfold headers. cbn. rewrite Nat.add_0_r, app_nil_r, (proj2 (Nat.leb_le _ _)) by lia. rewrite Hc.
    destruct info as [e sz c ss]; cbn in *. subst c. cbn [andb].
    destruct (Nat.eqb_spec (length ss) 0) as [->|Hn]; cbn [negb Z.of_nat]; [done|].
    by rewrite (proj2 (Z.eqb_neq _ _)) by lia.
  - unfold headers. cbn [seq map List.filter]. fold (headers (S i) n).
    set (ph := read_phdr m (phdr_addr eh image (Z.of_nat i))).
    replace (Z.of_nat i + 1) with (Z.of_nat (S i)) by lia.
    assert (negb (p_type ph =? PT_LOAD) || (p_memsz ph =? 0) = negb (loadable ph)) as ->
      by (unfold loadable; by destruct (_ =? _), (_ =? _)).
    destruct (loadable ph); cbn [negb]; [|by apply IH].
    assert ((size <? p_offset ph +u p_filesz ph) || (p_memsz ph <? p_filesz ph) = negb (segment_fits size ph))
      as -> by (unfold segment_fits; by rewrite negb_andb, !Z.leb_antisym, !negb_involutive).
    cbn [forallb length map]. destruct (segment_fits size ph); cbn [negb andb]; [|done].
    destruct (Z.leb_spec 8 (ei_segment_count info)) as [Hge|Hlt].
    + rewrite (proj2 (Nat.leb_gt _ _)) by lia. rewrite andb_false_r. done.
    + specialize (IH (S i) {| ei_entry := ei_entry info; ei_image_size := ei_image_size info;
        ei_segment_count := ei_segment_count info + 1; ei_segments := ei_segments info ++ [segment_of ph] |}).
      cbn [ei_segment_count ei_segments ei_entry ei_image_size] in IH.
      rewrite length_app in IH. cbn [length] in IH.
      specialize (IH ltac:(lia) ltac:(lia)). rewrite <- app_assoc in IH. cbn [app] in IH.
      by replace (length (ei_segments info) + S (length (headers (S i) n)))%nat
        with (length (ei_segments info) + 1 + length (headers (S i) n))%nat by lia.
Qed.
End Loop.

(** ** Reads stay in the image *)

Lemma load_le_image m1 m2 image size a n :
  agree m1 m2 image size -> image <= a -> a + Z.of_nat n <= image + size ->
  load_le n m1 a = load_le n m2 a.
Proof. intros Ha H1 H2. apply load_le_agree. intros x Hx. apply Ha. lia. Qed.

Lemma load_bytes_image m1 m2 image size a n :
  agree m1 m2 image size -> 0 <= n -> image <= a -> a + n <= image + size ->
  load_bytes m1 a n = load_bytes m2 a n.
Proof.
  intros Ha Hn H1 H2. unfold load_bytes. apply map_ext_in. intros i Hi%in_seq. apply Ha. lia.
Qed.

Lemma read_ehdr_image m1 m2 image size :
  agree m1 m2 image size -> sizeof_Ehdr <= size -> read_ehdr m1 image = read_ehdr m2 image.
Proof.
  intros Ha Hs. unfold sizeof_Ehdr in Hs. unfold read_ehdr, load16, load32, load64.
  rewrite (load_bytes_image m1 m2 image size) by (done || lia).
  f_equal; apply (load_le_image m1 m2 image size); done || lia.
Qed.

Lemma read_phdr_image m1 m2 image size a :
  agree m1 m2 image size -> image <= a -> a + 56 <= image + size -> read_phdr m1 a = read_phdr m2 a.
Proof.
  intros Ha H1 H2. unfold read_phdr, load32, load64.
  f_equal; apply (load_le_image m1 m2 image size); done || lia.
Qed.

Lemma elf_validate_image m1 m2 image size :
  agree m1 m2 image size -> elf_validate m1 image size = elf_validate m2 image size.
Proof.
  intros Ha. unfold elf_validate. destruct (_ || _) eqn:E; [done|]. bool_to_prop.
  by rewrite (read_ehdr_image m1 m2 image size).
Qed.

(** ** Properties *)

Lemma elf_validate_range m image size : elf_validate m image size = 0 \/ elf_validate m image size = -1.
Proof. unfold elf_validate. repeat case_test; auto. Qed.

(** The parser accepts an image exactly when the reference definition does
    (a valid header, between one and eight loadable segments, each within the
    file and no larger there than in memory), and then reports the entry point
    and exactly the loadable segments in file order. *)
Theorem elf_probe_spec m image size info :
  let '(err, info') := elf_probe_user_image m image size info in
  match elf_segments m image size with
  | Some ss => err = 0 /\ (1 <= length ss <= 8)%nat /\
      info' = {| ei_entry := e_entry (read_ehdr m image); ei_image_size := size;
                 ei_segment_count := Z.of_nat (length ss); ei_segments := ss |} /\
      Forall (fun s => seg_file_offset s +u seg_file_size s <= size /\
                       seg_file_size s <= seg_mem_size s /\ seg_mem_size s <> 0) ss
  | None => err = -1
  end.
Proof.
  unfold elf_probe_user_image, elf_segments.
  destruct (elf_validate_range m image size) as [-> | ->]; [|by change (-1 =? 0) with false].
  change (0 <? 0) with false. change (0 =? 0) with true. cbn [andb].
  set (eh := read_ehdr m image).
  pose proof (probe_loop_spec m image size eh (Z.to_nat (e_phnum eh)) 0
    {| ei_entry := e_entry eh; ei_image_size := size; ei_segment_count := 0; ei_segments := [] |}
    eq_refl ltac:(cbn; lia)) as Hl.
  cbn [ei_segments ei_entry ei_image_size length Nat.add Z.of_nat app] in Hl.
  change (map (fun k => read_phdr m (phdr_addr eh image (Z.of_nat k))) (seq 0 (Z.to_nat (e_phnum eh))))
    with (phdrs m image) in Hl.
  set (ls := List.filter loadable (phdrs m image)) in *. fold ls.
  destruct (probe_loop _ _ _ _ _ _ _) as [err info']. destruct Hl as [-> Hi].
  destruct (forallb (segment_fits size) ls) eqn:Ef; cbn [andb] in *; [|done].
  destruct (Nat.leb_spec (length ls) 8) as [H8|]; cbn [andb] in *; [|by rewrite andb_false_r].
  destruct (Nat.eqb_spec (length ls) 0) as [|Hn]; cbn [negb andb] in *; [done|].
  rewrite length_map. split_and!; [done|lia|lia|by apply Hi|].
  apply Forall_map, List.Forall_forall. intros ph Hph.
  apply filter_In in Hph as Hl. destruct Hl as [_ Hl]. rewrite forallb_forall in Ef. specialize (Ef ph Hph).
  unfold segment_fits, loadable in *. bool_to_prop. cbn. lia.
Qed.

(** when the program header table does not wrap around the address space
    and its entries are full program headers, parsing reads no byte outside the
    image: the whole result is the same in any two memories that agree on it. *)
Theorem elf_probe_in_bounds m1 m2 image size info :
  agree m1 m2 image size -> 0 < image -> image + size <= 18446744073709551616 ->
  let eh := read_ehdr m1 image in
  56 <= e_phentsize eh -> 0 <= e_phnum eh < 65536 -> 0 <= e_phoff eh ->
  e_phoff eh + e_phentsize eh * e_phnum eh < 18446744073709551616 ->
  elf_probe_user_image m1 image size info = elf_probe_user_image m2 image size info.
Proof.
  intros Ha Hi Hs eh Hes Hn Hoff Hw. unfold elf_probe_user_image.
  rewrite (elf_validate_image m1 m2 image size) by done.
  destruct (elf_validate m2 image size <? 0) eqn:Ev; [done|].
  rewrite <- (elf_validate_image m1 m2 image size Ha) in Ev.
  assert (sizeof_Ehdr <= size /\ e_phoff eh + e_phentsize eh * e_phnum eh <= size) as [Hsz Htab].
  { unfold elf_validate in Ev. fold eh in Ev. destruct (_ || _) eqn:E1 in Ev; [done|].
    destruct (negb (ident_ok _)) in Ev; [done|]. destruct (_ || _) eqn:E2 in Ev; [done|].
    destruct (size <? _) eqn:E3 in Ev; [done|]. bool_to_prop. split; [lia|].
    rewrite (u64_small (e_phentsize eh * e_phnum eh)) in E3 by (unfold word64; nia).
    rewrite u64_small in E3 by (unfold word64; nia). lia. }
  rewrite <- (read_ehdr_image m1 m2 image size) by done. fold eh.
  assert (forall n i inf, 0 <= i -> i + Z.of_nat n <= e_phnum eh ->
    probe_loop n m1 image size eh i inf = probe_loop n m2 image size eh i inf) as Hl.
  { induction n as [|n IH]; intros i inf Hi0 Hin; cbn [probe_loop]; [done|].
    assert (phdr_addr eh image i = image + e_phoff eh + i * e_phentsize eh) as Hpa.
    { unfold phdr_addr. rewrite (u64_small (i * _)) by (unfold word64; nia).
      rewrite (u64_small (image + _)) by (unfold word64; nia). apply u64_small. unfold word64. nia. }
    rewrite (read_phdr_image m1 m2 image size) by (done || (rewrite Hpa; nia)).
    by rewrite !IH by lia. }
  apply Hl; lia.
Qed.

(** ** Examples *)

(** An image with one loadable segment: 8 bytes of the file at [0x8000000000]. *)
Definition demo_elf : mem :=
  let m := self_test_header ∅ 0x200000 69 in
  let m := store64 m (0x200000 + 24) 0x8000000000 in
  let m := store_le 2 m (0x200000 + 56) 1 in
  let p := 0x200000 + 64 in
  let m := store32 m p PT_LOAD in
  let m := store32 m (p + 4) 5 in
  let m := store64 m (p + 8) 120 in
  let m := store64 m (p + 16) 0x8000000000 in
  let m := store64 m (p + 32) 8 in
  let m := store64 m (p + 40) 16 in
  store_bytes m (p + 56) [1; 2; 3; 4; 5; 6; 7; 8].

Definition no_info : UserElfInfo :=
  {| ei_entry := 0; ei_image_size := 0; ei_segment_count := 0; ei_segments := [] |}.

Example demo_elf_parses :
  elf_probe_user_image demo_elf 0x200000 128 no_info =
  (0, {| ei_entry := 0x8000000000; ei_image_size := 128; ei_segment_count := 1;
         ei_segments := [{| seg_vaddr := 0x8000000000; seg_file_offset := 120; seg_mem_size := 16;
                            seg_file_size := 8; seg_flags := 5 |}] |}).
Proof. vm_compute. reflexivity. Qed.

Lemma demo_elf_agree : agree demo_elf (store8 demo_elf 0x300000 1) 0x200000 128.
Proof. intros x Hx. rewrite load8_store8, (proj2 (Z.eqb_neq _ _)) by lia. reflexivity. Qed.

Lemma elf_probe_in_bounds_witness :
  elf_probe_user_image demo_elf 0x200000 128 no_info =
  elf_probe_user_image (store8 demo_elf 0x300000 1) 0x200000 128 no_info.
Proof.
  apply (elf_probe_in_bounds demo_elf (store8 demo_elf 0x300000 1) 0x200000 128 no_info demo_elf_agree);
    [reflexivity|discriminate|vm_compute; discriminate|vm_compute; split; [discriminate|reflexivity]
    |vm_compute; discriminate|vm_compute; reflexivity].
Defined.

Example elf_self_test_passes : exists m, elf_self_test ∅ 0x100000 = Ok m.
Proof. eexists. vm_compute. reflexivity. Qed.

(** ** The size checks wrap *)

(** A header table at [2^64 - 56] is accepted: the sum in [elf_validate] wraps
    to zero, and the headers read lie before the image. *)
Lemma elf_validate_wraps :
  let m := store_le 2 (store64 (self_test_header ∅ 0x200000 69) (0x200000 + 32) (2 ^ 64 - 56)) (0x200000 + 56) 1 in
  elf_validate m 0x200000 64 = 0 /\ phdr_addr (read_ehdr m 0x200000) 0x200000 0 = 0x200000 - 56.
Proof. vm_compute. split; reflexivity. Qed.

(** A segment at file offset [2^64 - 8] with 16 bytes in the file is accepted. *)
Lemma elf_segment_wraps :
  let m := store64 (store64 demo_elf (0x200000 + 72) (2 ^ 64 - 8)) (0x200000 + 96) 16 in
  fst (elf_probe_user_image m 0x200000 128 no_info) = 0.
Proof. vm_compute. reflexivity. Qed.
