(* ===== verification/Loader.v ===== *)
(** Program loaders (kernel/syscall.c, kernel/user.c).

    Three routines fill a fresh address space: [load_user_image_into_process]
    (an ELF image, for spawn), [load_ore_image_into_process] (an OreImage, for
    spawn and exec) and the pieces of [user_init_spawn] (the first program).
    They map missing pages, write bytes through the page tables of the new
    process and set the page permissions.  The image lies in kernel memory at
    address [image].  The theorems say what the new program sees: through
    [uload], each byte of a segment is the byte of the file or zero. *)
From stdpp Require Import base numbers list gmap strings.
From Stdlib Require Import ZArith Lia.
From S2P Require Import Prelude Memory PageAllocator Pmm Vmm Process Usermem Elf.

(** ** Definitions *)

Definition align_down_local (value : Z) : Z := Z.land value (not64 4095).
Definition align_up_local (value : Z) : Z := Z.land (value +u 4095) (not64 4095).

Definition flags_for_elf_segment (ph_flags : Z) : Z :=
  if Z.land ph_flags 2 =? 0 then VMM_USER else Z.lor VMM_USER VMM_WRITE.

Definition USER_STACK_TOP : Z := 0x0000009000000000.
Definition USER_STACK_BASE : Z := USER_STACK_TOP - 8 * 4096.

(** How a loop that maps pages ends. *)
Inductive map_status := Mapped | NoMemory | MapFailed.

Section Loader.
Context {S : Type} `{PageAllocator S}.
Implicit Types st : machine S.

(** One page: allocate it, zero it when [zero], map it. *)
Definition map_new_page (zero : bool) (root va flags : Z) st : outcome (map_status * machine S) :=
  let '(page, s, m) := pa_alloc_pages 1 (m_pages st) (m_mem st) in
  if page =? 0 then Ok (NoMemory, mk_machine s m) else
  let m := if zero then mem_zero page 4096 m else m in
  let? (r, st) := vmm_map_in root va page 4096 flags (mk_machine s m) in
  Ok (if r <? 0 then MapFailed else Mapped, st).

(** The page loops: map every page of the range that is not mapped yet. *)
Fixpoint map_missing (zero : bool) (n : nat) (root va flags : Z) st : outcome (map_status * machine S) :=
  match n with
  | O => Ok (Mapped, st)
  | Datatypes.S n =>
      if virt_to_phys root va st =? 0 then
        let? (r, st) := map_new_page zero root va flags st in
        match r with
        | Mapped => map_missing zero n root (va +u 4096) flags st
        | _ => Ok (r, st)
        end
      else map_missing zero n root (va +u 4096) flags st
  end.

(** The stack loops: map every page of the range. *)
Fixpoint map_all (zero : bool) (n : nat) (root va flags : Z) st : outcome (map_status * machine S) :=
  match n with
  | O => Ok (Mapped, st)
  | Datatypes.S n =>
      let? (r, st) := map_new_page zero root va flags st in
      match r with
      | Mapped => map_all zero n root (va +u 4096) flags st
      | _ => Ok (r, st)
      end
  end.

Definition map_zeroed_user_pages (root start size flags : Z) st : outcome (Z * machine S) :=
  let page_start := align_down_local start in
  let page_end := align_up_local (start +u size) in
  let? (r, st) := map_missing true (page_loop page_start page_end) root page_start
                    (Z.lor flags VMM_WRITE) st in
  Ok (match r with Mapped => 0 | NoMemory => - ORE_ENOMEM | MapFailed => - ORE_EINVAL end, st).

(** Byte loops through the tables: [byte off st] is stored at [va + off]; false
    when an address has no translation. *)
Fixpoint poke_loop (n : nat) (root va off : Z) (byte : Z -> machine S -> Z) st : bool * machine S :=
  match n with
  | O => (true, st)
  | Datatypes.S n =>
      let phys := virt_to_phys root (va +u off) st in
      if phys =? 0 then (false, st) else
      poke_loop n root va (off + 1) byte (with_machine_mem st (store8 (m_mem st) phys (byte off st)))
  end.

(** [copy_to_user_phys(proc, va, src, size)]. *)
Definition copy_to_user_phys (root va src size : Z) st : Z * machine S :=
  let '(ok, st) := poke_loop (Z.to_nat size) root va 0 (fun off st => load8 (m_mem st) (src +u off)) st in
  (if ok then 0 else - ORE_EINVAL, st).

(** One segment of [load_user_image_into_process]: map, zero, copy, protect. *)
Definition load_segment (root image : Z) (seg : UserElfSegmentInfo) st : outcome (Z * machine S) :=
  let start := align_down_local (seg_vaddr seg) in
  let end_ := align_up_local (seg_vaddr seg +u seg_mem_size seg) in
  let? (r, st) := map_missing false (page_loop start end_) root start (Z.lor VMM_USER VMM_WRITE) st in
  match r with
  | Mapped =>
      let '(ok, st) := poke_loop (Z.to_nat (seg_mem_size seg)) root (seg_vaddr seg) 0 (fun _ _ => 0) st in
      if negb ok then Ok (-1, st) else
      let '(ok, st) := poke_loop (Z.to_nat (seg_file_size seg)) root (seg_vaddr seg) 0
                         (fun off st => load8 (m_mem st) (image +u (seg_file_offset seg +u off))) st in
      if negb ok then Ok (-1, st) else
      let? (r, st) := vmm_protect_in root start (end_ -u start) (flags_for_elf_segment (seg_flags seg)) st in
      Ok (if r <? 0 then -1 else 0, st)
  | _ => Ok (-1, st)
  end.

Fixpoint load_segments (root image : Z) (segs : list UserElfSegmentInfo) st : outcome (Z * machine S) :=
  match segs with
  | [] => Ok (0, st)
  | seg :: segs =>
      let? (r, st) := load_segment root image seg st in
      if r <? 0 then Ok (r, st) else load_segments root image segs st
  end.

(** The fields every loader sets at the end. *)
Definition set_program (entry segments : Z) (p : Process) : Process :=
  let stack := USER_STACK_TOP - 16 in
  set_user_segment_count segments (set_saved_user_rsp stack (set_saved_user_rip entry
    (set_user_stack stack (set_user_entry entry p)))).

Definition load_user_image_into_process (proc : Process) (image : Z) (info : UserElfInfo) st
  : outcome (Z * Process * machine S) :=
  let root := pml4_phys (p_address_space proc) in
  let? (r, st) := load_segments root image (ei_segments info) st in
  if r <? 0 then Ok (-1, proc, st) else
  let? (r, st) := map_all false (page_loop USER_STACK_BASE USER_STACK_TOP) root USER_STACK_BASE
                    (Z.lor (Z.lor VMM_USER VMM_WRITE) VMM_NX) st in
  match r with
  | Mapped => Ok (0, set_program (ei_entry info) (ei_segment_count info) proc, st)
  | _ => Ok (-1, proc, st)
  end.

(** ** OreImage *)

Record OreImageHeader := {
  oi_magic : Z; oi_version : Z; oi_header_size : Z; oi_entry : Z; oi_text_size : Z; oi_data_size : Z;
  oi_bss_size : Z; oi_reloc_count : Z;
}.

Record OreImageReloc := { r_offset : Z; r_symbol_offset : Z; r_type : Z; r_segment : Z }.

Definition read_ore_header (m : mem) (a : Z) : OreImageHeader := {|
  oi_magic := load64 m a; oi_version := load32 m (a + 8); oi_header_size := load32 m (a + 12);
  oi_entry := load64 m (a + 16); oi_text_size := load64 m (a + 24); oi_data_size := load64 m (a + 32);
  oi_bss_size := load64 m (a + 40); oi_reloc_count := load64 m (a + 48) |}.

Definition read_ore_reloc (m : mem) (a : Z) : OreImageReloc := {|
  r_offset := load64 m a; r_symbol_offset := load64 m (a + 8); r_type := load32 m (a + 16);
  r_segment := load32 m (a + 20) |}.

Definition sizeof_OreImageHeader : Z := 56.
Definition sizeof_OreImageReloc : Z := 24.
Definition ORE_IMAGE_MAGIC : Z := 0x31474d4945524f.
Definition ORE_IMAGE_VERSION : Z := 1.
Definition ORE_IMAGE_RELOC_ABS64 : Z := 1.
Definition ORE_IMAGE_RELOC_PC32 : Z := 2.

(** File offsets of the text and of the data. *)
Definition ore_text_off (hdr : OreImageHeader) : Z :=
  oi_header_size hdr +u oi_reloc_count hdr *u sizeof_OreImageReloc.
Definition ore_data_off (hdr : OreImageHeader) : Z := ore_text_off hdr +u oi_text_size hdr.

(** The checks before anything is mapped. *)
Definition ore_header_ok (hdr : OreImageHeader) (image_len : Z) : bool :=
  (oi_magic hdr =? ORE_IMAGE_MAGIC) && (oi_version hdr =? ORE_IMAGE_VERSION) &&
  negb ((oi_header_size hdr <? sizeof_OreImageHeader) || (4096 <? oi_header_size hdr)) &&
  negb ((oi_text_size hdr =? 0) || (262144 <? oi_text_size hdr) || (262144 <? oi_data_size hdr) ||
        (262144 <? oi_bss_size hdr)) &&
  negb ((256 <? oi_reloc_count hdr) || (ore_text_off hdr <? oi_header_size hdr) ||
        (ore_data_off hdr <? ore_text_off hdr) || (image_len <? ore_data_off hdr +u oi_data_size hdr)) &&
  negb (oi_text_size hdr <=? oi_entry hdr).

(** One relocation: the store is made at the physical address of its first
    byte. *)
Definition apply_reloc (root text_base data_base : Z) (r : OreImageReloc) st : Z * machine S :=
  let base := if r_segment r =? 0 then text_base else data_base in
  let place := base +u r_offset r in
  let target := base +u r_symbol_offset r in
  let phys := virt_to_phys root place st in
  if phys =? 0 then (- ORE_EINVAL, st) else
  if r_type r =? ORE_IMAGE_RELOC_ABS64 then (0, with_machine_mem st (store64 (m_mem st) phys target)) else
  if r_type r =? ORE_IMAGE_RELOC_PC32 then
    let disp := s64 (s64 target - s64 (place +u 4)) in
    if (disp <? -2147483648) || (2147483647 <? disp) then (- ORE_EINVAL, st)
    else (0, with_machine_mem st (store32 (m_mem st) phys disp))
  else (- ORE_EINVAL, st).

Fixpoint reloc_loop (n : nat) (root relocs text_base data_base i : Z) st : Z * machine S :=
  match n with
  | O => (0, st)
  | Datatypes.S n =>
      let r := read_ore_reloc (m_mem st) (relocs + i * sizeof_OreImageReloc) in
      let '(err, st) := apply_reloc root text_base data_base r st in
      if err <? 0 then (err, st) else reloc_loop n root relocs text_base data_base (i + 1) st
  end.

(** [if (err < 0) return err;] in a routine that returns a process. *)
Definition guard (err : Z) (proc : Process) st (k : outcome (Z * Process * machine S))
  : outcome (Z * Process * machine S) := if err <? 0 then Ok (err, proc, st) else k.

Definition load_ore_image_into_process (proc : Process) (image image_len : Z) st
  : outcome (Z * Process * machine S) :=
  if (image =? 0) || (image_len <? sizeof_OreImageHeader) then Ok (- ORE_EINVAL, proc, st) else
  let hdr := read_ore_header (m_mem st) image in
  if negb (ore_header_ok hdr image_len) then Ok (- ORE_EINVAL, proc, st) else
  let root := pml4_phys (p_address_space proc) in
  let text_off := ore_text_off hdr in
  let data_off := ore_data_off hdr in
  let text_base := USER_BASE in
  let data_base := align_up_local (text_base +u oi_text_size hdr) in
  let data_total := oi_data_size hdr +u oi_bss_size hdr in
  let data_span := if data_total =? 0 then 1 else data_total in
  let? (err, st) := map_zeroed_user_pages root text_base (oi_text_size hdr) VMM_USER st in
  guard err proc st (
  let? (err, st) := map_zeroed_user_pages root data_base data_span (Z.lor VMM_USER VMM_NX) st in
  guard err proc st (
  let '(err, st) := copy_to_user_phys root text_base (image +u text_off) (oi_text_size hdr) st in
  guard err proc st (
  let '(err, st) := if oi_data_size hdr =? 0 then (0, st)
                    else copy_to_user_phys root data_base (image +u data_off) (oi_data_size hdr) st in
  guard err proc st (
  let '(err, st) := reloc_loop (Z.to_nat (oi_reloc_count hdr)) root (image +u oi_header_size hdr)
                      text_base data_base 0 st in
  guard err proc st (
  let? (r, st) := vmm_protect_in root text_base (align_up_local (oi_text_size hdr)) VMM_USER st in
  if r <? 0 then Ok (- ORE_EINVAL, proc, st) else
  let? (r, st) := vmm_protect_in root data_base (align_up_local data_span)
                    (Z.lor (Z.lor VMM_USER VMM_WRITE) VMM_NX) st in
  if r <? 0 then Ok (- ORE_EINVAL, proc, st) else
  let? (r, st) := map_all true (page_loop USER_STACK_BASE USER_STACK_TOP) root USER_STACK_BASE
                    (Z.lor (Z.lor VMM_USER VMM_WRITE) VMM_NX) st in
  match r with
  | Mapped => Ok (0, set_program (text_base +u oi_entry hdr) 2 proc, st)
  | NoMemory => Ok (- ORE_ENOMEM, proc, st)
  | MapFailed => Ok (- ORE_EINVAL, proc, st)
  end))))).

(** ** The first program (user.c) *)

Definition valid_elf (m : mem) (image size : Z) : bool :=
  let eh := read_ehdr m image in
  (sizeof_Ehdr <=? size) &&
  (nth 0 (e_ident eh) 0 =? 0x7f) && (nth 1 (e_ident eh) 0 =? 69) && (nth 2 (e_ident eh) 0 =? 76) &&
  (nth 3 (e_ident eh) 0 =? 70) && (nth 4 (e_ident eh) 0 =? 2) && (e_machine eh =? 62) &&
  (e_phoff eh +u e_phentsize eh *u e_phnum eh <=? size).

Record LoadedSegment := { ls_start : Z; ls_size : Z; ls_flags : Z }.

Definition flags_for_segment (ph : Elf64_Phdr) : Z :=
  if Z.land (p_flags ph) 2 =? 0 then VMM_USER else Z.lor VMM_USER VMM_WRITE.

Definition map_segment (root image : Z) (ph : Elf64_Phdr) st : outcome (LoadedSegment * machine S) :=
  let start := align_down (p_vaddr ph) PAGE_SIZE in
  let end_ := align_up (p_vaddr ph +u p_memsz ph) PAGE_SIZE in
  let? (r, st) := map_missing false (page_loop start end_) root start (Z.lor VMM_USER VMM_WRITE) st in
  match r with
  | NoMemory => Panic "user: no memory for segment"
  | MapFailed => Panic "user: map segment failed"
  | Mapped =>
      let '(ok, st) := poke_loop (Z.to_nat (p_memsz ph)) root (p_vaddr ph) 0 (fun _ _ => 0) st in
      if negb ok then Panic "user: segment translation failed" else
      let '(ok, st) := poke_loop (Z.to_nat (p_filesz ph)) root (p_vaddr ph) 0
                         (fun off st => load8 (m_mem st) (image +u (p_offset ph +u off))) st in
      if negb ok then Panic "user: segment copy translation failed" else
      Ok ({| ls_start := start; ls_size := end_ -u start; ls_flags := flags_for_segment ph |}, st)
  end.

Definition map_user_stack (root : Z) st : outcome (Z * machine S) :=
  let? (r, st) := map_all false (page_loop USER_STACK_BASE USER_STACK_TOP) root USER_STACK_BASE
                    (Z.lor (Z.lor VMM_USER VMM_WRITE) VMM_NX) st in
  match r with
  | NoMemory => Panic "user: no stack memory"
  | MapFailed => Panic "user: map stack failed"
  | Mapped => Ok (USER_STACK_TOP - 16, st)
  end.

(** The two loops of [user_init_spawn] over the program headers and over the
    loaded segments. *)
Fixpoint map_segments (n : nat) (root image : Z) (eh : Elf64_Ehdr) (i : Z) (loaded : list LoadedSegment) st
  : outcome (list LoadedSegment * machine S) :=
  match n with
  | O => Ok (loaded, st)
  | Datatypes.S n =>
      let ph := read_phdr (m_mem st) (phdr_addr eh image i) in
      if (p_type ph =? PT_LOAD) && negb (p_memsz ph =? 0) then
        if 16 <=? Z.of_nat (length loaded) then Panic "user: too many ELF segments" else
        let? (seg, st) := map_segment root image ph st in
        map_segments n root image eh (i + 1) (loaded ++ [seg]) st
      else map_segments n root image eh (i + 1) loaded st
  end.

Fixpoint protect_segments (root : Z) (segs : list LoadedSegment) st : outcome (machine S) :=
  match segs with
  | [] => Ok st
  | seg :: segs =>
      let? (r, st) := vmm_protect_in root (ls_start seg) (ls_size seg) (ls_flags seg) st in
      if r <? 0 then Panic "user: protect segment failed" else protect_segments root segs st
  end.

(** The checks before user mode is entered, and the kernel stack for interrupts; the
    result is rsp0. *)
Definition prepare_entry (root entry user_stack : Z) st : outcome (Z * machine S) :=
  if (virt_to_phys root entry st =? 0) || (virt_to_phys root user_stack st =? 0)
  then Panic "user: entry or stack not mapped" else
  let? fe := vmm_flags root entry st in
  let? fs := vmm_flags root user_stack st in
  if (Z.land fe VMM_USER =? 0) || (Z.land fs VMM_USER =? 0)
  then Panic "user: entry or stack missing user flag" else
  let '(kernel_stack, s, m) := pa_alloc_pages 8 (m_pages st) (m_mem st) in
  if kernel_stack =? 0 then Panic "user: no rsp0 stack" else
  Ok (kernel_stack +u 8 *u PAGE_SIZE, mk_machine s m).

(** The part of [user_init_spawn] between reading the image and entering user
    mode: the address space is filled and checked.  The result is the process, its
    entry point, its stack pointer and rsp0. *)
Definition user_init_load (proc : Process) (image size : Z) st
  : outcome (Process * Z * Z * Z * machine S) :=
  if negb (valid_elf (m_mem st) image size) then Panic "user: invalid /init ELF" else
  let '(r, exec_info) := elf_probe_user_image (m_mem st) image size no_info in
  if r <? 0 then Panic "user: /init ELF probe failed" else
  let proc := set_user_segment_count (ei_segment_count exec_info) (set_user_entry (ei_entry exec_info) proc) in
  let root := pml4_phys (p_address_space proc) in
  let eh := read_ehdr (m_mem st) image in
  let? (segments, st) := map_segments (Z.to_nat (e_phnum eh)) root image eh 0 [] st in
  let? st := protect_segments root segments st in
  let? (user_stack, st) := map_user_stack root st in
  let proc := set_user_stack user_stack proc in
  let? (rsp0, st) := prepare_entry root (e_entry eh) user_stack st in
  Ok (proc, e_entry eh, user_stack, rsp0, st).
End Loader.

(** ** Kernel data under the changes of an address space *)

Section Spec.
Context {S : Type} `{PageAllocatorOk S}.
Implicit Types (st : machine S) (R : Z -> Prop).

(** A byte of kernel memory: live, in no table and in no frame of the program. *)
Definition kdata R root st (x : Z) : Prop :=
  pa_live (m_pages st) (x / PAGE_SIZE) /\ ~ in_table (m_mem st) R x /\
  forall v, user_va v -> present (pte (m_mem st) root v) = true ->
    ~ (frame_of (pte (m_mem st) root v) <= x < frame_of (pte (m_mem st) root v) + PAGE_SIZE).

(** What a step of a loader keeps: the space and every other address space,
    the kernel's data, and the translation of what was mapped. *)
Record keeps R (root : Z) st st' : Prop := {
  k_space : space_ok R root st';
  k_readable : forall w, readable root w st -> readable root w st';
  k_pte : forall r w, R r -> r <> root -> pte (m_mem st') r w = pte (m_mem st) r w;
  k_kdata : forall x, kdata R root st x -> kdata R root st' x /\ load8 (m_mem st') x = load8 (m_mem st) x;
}.

(** Pages were added, with zero bytes; nothing that was there changed. *)
Record extends R (root lo hi : Z) st st' : Prop := {
  ex_keeps : keeps R root st st';
  ex_load : forall w, readable root w st -> uload root w st' = uload root w st;
  ex_new : forall w, readable root w st' -> ~ readable root w st -> lo <= w < hi /\ uload root w st' = 0;
}.

Lemma keeps_refl R root st : space_ok R root st -> keeps R root st st.
Proof. intros Hs. by split. Qed.

Lemma keeps_trans R root st1 st2 st3 :
  keeps R root st1 st2 -> keeps R root st2 st3 -> keeps R root st1 st3.
Proof.
  intros [A1 A2 A3 A4] [B1 B2 B3 B4]. split; [done|auto|..].
  - intros r w Hr Hn. by rewrite B3, A3.
  - intros x Hx. destruct (A4 x Hx) as [Hx2 <-]. by apply B4.
Qed.

Lemma readable_dec root w st : readable root w st \/ ~ readable root w st.
Proof.
  unfold readable. destruct (decide (user_va w)) as [Hv|Hv]; [|right; by intros [? _]].
  destruct (mapped root w st); [left; done|right; by intros [_ ?]].
Qed.

Lemma extends_trans R root lo mid hi st1 st2 st3 :
  lo <= mid <= hi -> extends R root lo mid st1 st2 -> extends R root mid hi st2 st3 ->
  extends R root lo hi st1 st3.
Proof.
  intros Hle [A1 A2 A3] [B1 B2 B3]. split; [by eapply keeps_trans|..].
  - intros w Hw. rewrite B2 by by apply A1. auto.
  - intros w Hw3 Hn1. destruct (readable_dec root w st2) as [Hw2|Hn2].
    + rewrite B2 by done. destruct (A3 w Hw2 Hn1). split; [lia|done].
    + destruct (B3 w Hw3 Hn2). split; [lia|done].
Qed.

(** ** One page *)

(** Zeroing a fresh page again changes nothing the program or the kernel sees. *)
Lemma fresh_zero R root p count st st1 :
  fresh_run R root p count st st1 ->
  fresh_run R root p count st (with_machine_mem st1 (mem_zero p (count * PAGE_SIZE) (m_mem st1))).
Proof.
  intros F. pose proof F as [F1 F2 F3 F4 F5 F6 F7 F8 F9 F10 F11 F12 F13 F14].
  assert (forall x, load8 (mem_zero p (count * PAGE_SIZE) (m_mem st1)) x = load8 (m_mem st1) x) as He.
  { intros x. rewrite load8_mem_zero. case_test; [|done]. bool_to_prop. symmetry. apply F7. lia. }
  destruct (space_data R root st1 (mem_zero p (count * PAGE_SIZE) (m_mem st1)) F1) as (D1 & D2 & D3).
  { apply mem_zero_ok, F1. }
  { intros x _. apply He. }
  assert (forall x, in_table (mem_zero p (count * PAGE_SIZE) (m_mem st1)) R x -> in_table (m_mem st1) R x) as Ht.
  { intros x (t & (r & q & Hr & Hq & Hw) & Hxt). exists t. split; [|done]. exists r, q.
    split_and!; [done..|]. rewrite <- Hw. symmetry.
    apply (walk_frame _ _ (m_pages st1) R); [apply F1|done..|]. intros t' _ y _. apply He. }
  split; [done|done|..].
  - intros k Hk. destruct (F3 k Hk) as [P1 P2 P3 P4]. split; [done..|]. cbn [with_machine_mem m_mem]. intros x Hx Hin. by apply (P4 x Hx), Ht.
  - intros va v Hv. cbn [with_machine_mem m_mem]. rewrite D2 by apply F1. by apply F4.
  - intros w. by rewrite D3.
  - intros w Hw. unfold uload. rewrite D3. cbn [with_machine_mem m_mem]. rewrite He. by apply F6.
  - intros x Hx. cbn [with_machine_mem m_mem]. rewrite He. by apply F7.
  - intros r w Hr. cbn [with_machine_mem m_mem]. rewrite D2 by done. by apply F8.
  - exact F9.
  - exact F10.
  - intros x Hx. cbn [with_machine_mem m_mem]. rewrite He. by apply F11.
  - intros x Hx. by apply F12, Ht.
  - exact F13.
  - exact F14.
Qed.

(** A live byte outside the tables stays outside them when tables are added. *)
Lemma not_table_updates R r f st st' x :
  updates R r f (m_pages st) (m_mem st) (m_pages st') (m_mem st') ->
  pa_live (m_pages st) (x / PAGE_SIZE) -> ~ in_table (m_mem st) R x -> ~ in_table (m_mem st') R x.
Proof.
  intros U Hl Hn (t & Ht & Hxt). destruct (u_tables _ _ _ _ _ _ _ U t Ht) as [Hold|Hnew].
  - apply Hn. by exists t.
  - apply Hnew. destruct Ht as (r' & q & Hr & Hq & Hw).
    destruct (fw_table _ _ _ (u_forest _ _ _ _ _ _ _ U) _ _ _ Hr Hq Hw) as [Hm _ _ _].
    by rewrite (frame_page t x Hm Hxt).
Qed.

Definition page_va (va : Z) : Prop :=
  USER_BASE <= va /\ va mod PAGE_SIZE = 0 /\ va + 1 * PAGE_SIZE <= USER_LIMIT.

Lemma user_slot va pg e f : page_va va -> range_fun va (1 * PAGE_SIZE) f pg = Some e -> user_page pg.
Proof.
  intros (V1 & V2 & V3) He. unfold range_fun in He.
  destruct (_ && _) eqn:E in He; [|done]. bool_to_prop.
  unfold user_page, USER_BASE, USER_LIMIT, PAGE_SIZE in *. zlia.
Qed.

Lemma fresh_entry_frame R root va p flags v st st1 :
  fresh_run R root p 1 st st1 -> page_va va -> flags_ok flags ->
  va <= v < va + PAGE_SIZE -> frame_of (map_entry va p flags (v / PAGE_SIZE)) = p.
Proof.
  intros F (V1 & V2 & V3) Hfl Hv. destruct (fr_addr _ _ _ _ _ _ F) as [P1 P2].
  unfold map_entry, frame_of. rewrite pte_value_addr by done.
  assert (0 <= va) as V0 by (unfold USER_BASE in V1; lia).
  rewrite (proj1 (run_frame va p v V0 V2 P1)), (Z.div_small (v - va)) by (unfold PAGE_SIZE in *; lia).
  rewrite Z.mul_0_r, Z.add_0_r. apply phys_mask.
  pose proof (fr_phys _ _ _ (fr_frames _ _ _ _ _ _ F 0 ltac:(lia))) as Hp.
  by rewrite Z.mul_0_r, Z.add_0_r in Hp.
Qed.

(** A panic while mapping fresh pages means that pages for the tables are missing. *)
Lemma run_panic R root va p count flags st1 msg st :
  vmm_map_in root va p (count * PAGE_SIZE) flags st1 = Panic msg ->
  fresh_run R root p count st st1 -> 0 <= count ->
  USER_BASE <= va /\ va mod PAGE_SIZE = 0 /\ va + count * PAGE_SIZE <= USER_LIMIT ->
  flags_ok flags -> out_of_pages (range_tables va (count * PAGE_SIZE)) (m_pages st1).
Proof.
  intros E F Hc Hva Hfl. pose proof (fr_space _ _ _ _ _ _ F) as Hs. destruct (fr_addr _ _ _ _ _ _ F) as [P1 P2].
  destruct (run_fits R root va p count st1 Hva Hc (conj P1 P2)
    (fr_frames _ _ _ _ _ _ F) (fr_unused _ _ _ _ _ _ F va)) as [G1 G2].
  pose proof (map_in_root_spec st1 R root va p (count * PAGE_SIZE) flags (sp_forest _ _ _ Hs)
    (sp_root _ _ _ Hs) Hfl G1 (proj1 P2) G2) as Hm. unfold vmm_map_in in E. by rewrite E in Hm.
Qed.

(** Mapping a fresh page at a free address. *)
Lemma map_fresh R root va p flags st st1 st2 res :
  space_ok R root st -> page_va va -> flags_ok flags -> fresh_run R root p 1 st st1 ->
  (forall w, va <= w < va + PAGE_SIZE -> ~ readable root w st) ->
  vmm_map_in root va p PAGE_SIZE flags st1 = Ok (res, st2) ->
  res = 0 /\ extends R root va (va + PAGE_SIZE) st st2 /\
  (forall w, va <= w < va + PAGE_SIZE -> readable root w st2) /\ takes 4 (m_pages st) (m_pages st2).
Proof.
  intros Hs Hva Hfl F Hfree E. rewrite <- (Z.mul_1_l PAGE_SIZE) in E.
  destruct (space_alloc_map R root va 1 flags st st1 p st2 res Hs Hva ltac:(lia) Hfl F E) as (-> & M & Hin & Hout).
  rewrite Z.mul_1_l in *. split; [done|]. pose proof (mp_updates _ _ _ _ _ _ _ _ M) as U.
  assert (forall w, readable root w st -> ~ (va <= w < va + PAGE_SIZE)) as Hd.
  { intros w Hw Hr. by apply (Hfree w Hr). }
  assert (takes 4 (m_pages st) (m_pages st2)) as HT.
  { pose proof (mp_takes _ _ _ _ _ _ _ _ M) as TM. rewrite Z.mul_1_l, (range_tables_page va) in TM by apply Hva.
    exact (takes_trans 1 3 _ _ _ (fr_takes _ _ _ _ _ _ F) TM). }
  split; [|split; [intros w Hw; by apply Hin|exact HT]]. split; [split|..].
  - apply M.
  - intros w Hw. by apply Hout; [apply Hd|].
  - intros r w Hr Hn. rewrite (u_others _ _ _ _ _ _ _ U); [by apply (fr_pte _ _ _ _ _ _ F)|..]; [|done..].
    intros pg e. by apply user_slot.
  - intros x (K1 & K2 & K3). pose proof (fr_mono _ _ _ _ _ _ F _ K1) as L1.
    assert (~ in_table (m_mem st1) R x) as K2' by (intros Hx; by apply K2, (fr_tables _ _ _ _ _ _ F)).
    split.
    + split_and!; [by apply (u_live _ _ _ _ _ _ _ U)|by apply (not_table_updates _ _ _ _ _ _ U)|].
      intros v Hv Hp. rewrite (u_pte _ _ _ _ _ _ _ U v) in * by by apply user_canonical.
      rewrite range_fun_page in * by (apply Hva || (destruct Hva; unfold USER_BASE in *; lia)).
      destruct ((va <=? v) && (v <? va + 1 * PAGE_SIZE)) eqn:Ev.
      * bool_to_prop. rewrite (fresh_entry_frame R root va p flags v st st1) by (done || lia).
        intros Hx. by apply (fr_dead _ _ _ _ _ _ F x); [unfold PAGE_SIZE in *; lia|].
      * rewrite (fr_pte _ _ _ _ _ _ F) in * by apply Hs. by apply K3.
    + rewrite (u_frame _ _ _ _ _ _ _ U) by done. by apply (fr_kept _ _ _ _ _ _ F).
  - intros w Hw. by apply Hout; [apply Hd|].
  - intros w Hw Hn. destruct (decide (va <= w < va + PAGE_SIZE)) as [Hi|Hi]; [split; [done|by apply Hin]|].
    destruct Hn. destruct Hw as [Hv Hm]. split; [done|]. unfold mapped in *.
    by rewrite <- (fr_virt _ _ _ _ _ _ F), <- (mp_out _ _ _ _ _ _ _ _ M) by (rewrite ?Z.mul_1_l; done).
Qed.


(** [map_new_page] at a free page either extends the space by that page or
    finds no memory; the mapping itself does not fail. *)
Lemma map_new_page_spec zero R root va flags st :
  space_ok R root st -> page_va va -> flags_ok flags ->
  (forall w, va <= w < va + PAGE_SIZE -> ~ readable root w st) ->
  match map_new_page zero root va flags st with
  | Ok (Mapped, st') => extends R root va (va + PAGE_SIZE) st st' /\
      (forall w, va <= w < va + PAGE_SIZE -> readable root w st') /\ takes 4 (m_pages st) (m_pages st')
  | Ok (NoMemory, st') => st' = st /\ out_of_pages 4 (m_pages st)
  | Ok (MapFailed, _) => False
  | Panic _ => out_of_pages 4 (m_pages st)
  end.
Proof.
  intros Hs Hva Hfl Hfree. unfold map_new_page.
  pose proof (fw_pages _ _ _ (sp_forest _ _ _ Hs)) as Hw.
  destruct (pa_alloc_pages 1 (m_pages st) (m_mem st)) as [[p s1] m1] eqn:Ea.
  destruct (Z.eqb_spec p 0) as [->|Hp].
  { destruct (pa_alloc_none 1 _ _ _ _ Hw ltac:(lia) Ea) as [-> ->].
    split; [by destruct st|]. apply (no_run_mono 1 1 1 4); [lia|lia|]. exact (no_run_failed 1 _ _ _ _ Hw ltac:(lia) Ea). }
  pose proof (space_alloc R root st 1 p s1 m1 Hs ltac:(lia) Ea Hp) as F.
  set (st1 := mk_machine s1 (if zero then mem_zero p 4096 m1 else m1)).
  assert (fresh_run R root p 1 st st1) as F' by (destruct zero; [by apply fresh_zero in F|done]).
  destruct (vmm_map_in root va p 4096 flags st1) as [[res st2]|msg] eqn:Em; cbn [outcome_bind].
  2: { apply (no_run_takes 1 1 3 _ _ (fr_takes _ _ _ _ _ _ F')). rewrite <- (range_tables_page va), <- (Z.mul_1_l PAGE_SIZE) by apply Hva.
       by apply (run_panic R root va p 1 flags st1 msg st). }
  by destruct (map_fresh R root va p flags st st1 st2 res Hs Hva Hfl F' Hfree Em) as (-> & Hx).
Qed.

(** ** The page loops *)

(** The outcome of a loop that maps the pages of [lo, hi) and takes at most [k] pages. *)
Definition mapping R root (k : nat) lo hi st (o : outcome (map_status * machine S)) : Prop :=
  match o with
  | Ok (Mapped, st') => extends R root lo hi st st' /\ (forall w, lo <= w < hi -> readable root w st') /\ takes k (m_pages st) (m_pages st')
  | Ok (NoMemory, st') => keeps R root st st' /\ out_of_pages k (m_pages st)
  | Ok (MapFailed, _) => False
  | Panic _ => out_of_pages k (m_pages st)
  end.

Lemma extends_refl R root a st : space_ok R root st -> extends R root a a st st.
Proof. intros Hs. split; [by apply keeps_refl|done|by intros]. Qed.

(** A page mapped first, then the rest of the range. *)
Lemma mapping_cons R root k k' lo mid hi st st1 o :
  lo <= mid <= hi -> extends R root lo mid st st1 ->
  (forall w, lo <= w < mid -> readable root w st1) -> takes k (m_pages st) (m_pages st1) -> mapping R root k' mid hi st1 o ->
  mapping R root (k + k') lo hi st o.
Proof.
  intros Hle X Hr T. pose proof (ex_keeps _ _ _ _ _ _ X) as K.
  destruct o as [[[] st']|msg]; cbn [mapping]; [| |done|by apply no_run_takes].
  - intros (Y & Hr' & T'). split; [by eapply extends_trans|]. split; [|by eapply takes_trans]. intros w Hw.
    destruct (Z.lt_ge_cases w mid); [|apply Hr'; lia].
    apply (k_readable _ _ _ _ (ex_keeps _ _ _ _ _ _ Y)), Hr. lia.
  - intros [Y Ho]. split; [by eapply keeps_trans|by eapply no_run_takes].
Qed.

Lemma mapping_mono R root k k' lo hi st o : (k <= k')%nat -> mapping R root k lo hi st o -> mapping R root k' lo hi st o.
Proof.
  intros Hk. destruct o as [[[] st']|msg]; cbn [mapping]; [| |done|by apply no_run_mono].
  - intros (X & Hr & T). split; [done|]. split; [done|by eapply takes_mono].
  - intros [K Ho]. split; [done|by eapply no_run_mono; [|exact Hk|exact Ho]].
Qed.

Definition pages_va (n : nat) (va : Z) : Prop :=
  USER_BASE <= va /\ va mod PAGE_SIZE = 0 /\ va + Z.of_nat n * PAGE_SIZE <= USER_LIMIT.

Lemma pages_va_step n va : pages_va (Datatypes.S n) va ->
  page_va va /\ va +u 4096 = va + PAGE_SIZE /\ pages_va n (va + PAGE_SIZE) /\
  va + Z.of_nat (Datatypes.S n) * PAGE_SIZE = va + PAGE_SIZE + Z.of_nat n * PAGE_SIZE /\
  va <= va + PAGE_SIZE <= va + PAGE_SIZE + Z.of_nat n * PAGE_SIZE.
Proof.
  unfold pages_va, page_va, USER_BASE, USER_LIMIT, PAGE_SIZE. intros (H1 & H2 & H3).
  rewrite Nat2Z.inj_succ in *. rewrite u64_small by (unfold word64; lia).
  assert ((va + 4096) mod 4096 = 0) by zlia. lia.
Qed.

Lemma page_unreadable R root st va w :
  space_ok R root st -> page_va va -> mapped root va st = false -> va <= w < va + PAGE_SIZE ->
  ~ readable root w st.
Proof.
  intros Hs (V1 & V2 & V3) Hm Hw [Hv Hr].
  rewrite (mapped_page R root st w va) in Hr; [congruence|done|done|unfold user_va, PAGE_SIZE in *; lia|].
  symmetry. by apply frame_page.
Qed.

Lemma mapped_page_extends R root st va :
  space_ok R root st -> page_va va -> mapped root va st = true ->
  extends R root va (va + PAGE_SIZE) st st /\ forall w, va <= w < va + PAGE_SIZE -> readable root w st.
Proof.
  intros Hs (V1 & V2 & V3) Hm. split; [split; [by apply keeps_refl|done|by intros]|].
  intros w Hw. assert (user_va w) by (unfold user_va, PAGE_SIZE in *; lia). split; [done|].
  rewrite (mapped_page R root st w va); [done|done|done|unfold user_va, PAGE_SIZE in *; lia|].
  symmetry. by apply frame_page.
Qed.

Lemma map_missing_spec zero n R root va flags st :
  space_ok R root st -> pages_va n va -> flags_ok flags ->
  mapping R root (4 * n) va (va + Z.of_nat n * PAGE_SIZE) st (map_missing zero n root va flags st).
Proof.
  revert va st. induction n as [|n IH]; intros va st Hs Hva Hfl.
  - cbn [map_missing mapping]. rewrite Z.mul_0_l, Z.add_0_r. split; [by apply extends_refl|]. split; [intros; lia|apply takes_refl].
  - destruct (pages_va_step n va Hva) as (Hp & Ew & Hn & -> & Hle). cbn [map_missing]. rewrite Ew. replace (4 * Datatypes.S n)%nat with (4 + 4 * n)%nat by lia.
    assert (forall s : S, out_of_pages 4 s -> out_of_pages (4 + 4 * n) s) as Hup by (intros s; apply no_run_mono; lia).
    destruct (virt_to_phys root va st =? 0) eqn:Em.
    + pose proof (map_new_page_spec zero R root va flags st Hs Hp Hfl) as Hpg.
      assert (mapped root va st = false) as Hmf by (unfold mapped; by rewrite Em).
      specialize (Hpg (fun w Hw => page_unreadable R root st va w Hs Hp Hmf Hw)).
      destruct (map_new_page zero root va flags st) as [[[] st1]|msg]; cbn [outcome_bind].
      * destruct Hpg as (X & Hr & T). apply (mapping_cons _ _ _ _ _ _ _ _ _ _ Hle X Hr T), IH; [apply X|done..].
      * destruct Hpg as [-> Ho]. split; [by apply keeps_refl|by apply Hup].
      * done.
      * by apply Hup.
    + assert (mapped root va st = true) as Hmt by (unfold mapped; by rewrite Em).
      destruct (mapped_page_extends R root st va Hs Hp Hmt) as [X Hr].
      eapply mapping_mono; [|by apply (mapping_cons _ _ 0 (4 * n) _ _ _ _ _ _ Hle X Hr (takes_refl _)), IH]. lia.
Qed.

Lemma map_all_spec zero n R root va flags st :
  space_ok R root st -> pages_va n va -> flags_ok flags ->
  (forall w, va <= w < va + Z.of_nat n * PAGE_SIZE -> ~ readable root w st) ->
  mapping R root (4 * n) va (va + Z.of_nat n * PAGE_SIZE) st (map_all zero n root va flags st).
Proof.
  revert va st. induction n as [|n IH]; intros va st Hs Hva Hfl Hfree.
  - cbn [map_all mapping]. rewrite Z.mul_0_l, Z.add_0_r. split; [by apply extends_refl|]. split; [intros; lia|apply takes_refl].
  - destruct (pages_va_step n va Hva) as (Hp & Ew & Hn & Ee & Hle). rewrite Ee in *. cbn [map_all]. rewrite Ew. replace (4 * Datatypes.S n)%nat with (4 + 4 * n)%nat by lia.
    assert (forall s : S, out_of_pages 4 s -> out_of_pages (4 + 4 * n) s) as Hup by (intros s; apply no_run_mono; lia).
    pose proof (map_new_page_spec zero R root va flags st Hs Hp Hfl) as Hpg.
    specialize (Hpg (fun w Hw => Hfree w ltac:(lia))).
    destruct (map_new_page zero root va flags st) as [[[] st1]|msg]; cbn [outcome_bind].
    + destruct Hpg as (X & Hr & T). apply (mapping_cons _ _ _ _ _ _ _ _ _ _ Hle X Hr T), IH; [apply X|done..|].
      intros w Hw Hrd. destruct (readable_dec root w st) as [Hold|Hnew]; [by apply (Hfree w); [lia|]|].
      destruct (ex_new _ _ _ _ _ _ X w Hrd Hnew). lia.
    + destruct Hpg as [-> Ho]. split; [by apply keeps_refl|by apply Hup].
    + done.
    + by apply Hup.
Qed.

(** ** The byte loops *)

Lemma ustore_keeps R root st va v :
  space_ok R root st -> readable root va st -> keeps R root st (ustore root va v st).
Proof.
  intros Hs [Hv Hm]. destruct (ustore_spec R root st va v Hs Hv Hm) as (U1 & U2 & U3 & U4 & U5).
  destruct (virt_to_phys_frame R root st va Hs Hv Hm) as [Ep Fp].
  pose proof (Z.mod_pos_bound va PAGE_SIZE eq_refl) as Hb.
  split; [done|..].
  - intros w [Hw Hmw]. split; [done|]. unfold mapped in *. by rewrite U3.
  - intros r w Hr _. by apply U5.
  - intros x (K1 & K2 & K3).
    assert (x <> virt_to_phys root va st) as Hne.
    { intros ->. apply (K3 va Hv); [by rewrite <- (mapped_present R root st) by done|]. rewrite Ep. lia. }
    split; [|unfold ustore; cbn [with_machine_mem m_mem]; by rewrite load8_store8, (proj2 (Z.eqb_neq _ _))].
    split_and!; [done| |intros w Hw; rewrite U5 by apply Hs; by apply K3].
    intros (t & (r & q & Hr & Hq & Hk) & Hx). apply K2. exists t. split; [|done]. exists r, q.
    split_and!; [done..|]. rewrite <- Hk. symmetry.
    apply (walk_frame _ _ (m_pages st) R); [apply Hs|done..|]. intros t' Ht' y Hy.
    unfold ustore. cbn [with_machine_mem m_mem]. rewrite load8_store8, (proj2 (Z.eqb_neq _ _)); [done|].
    intros ->. apply (fr_data _ _ _ Fp (virt_to_phys root va st)); [rewrite Ep; lia|by exists t'].
Qed.

(** The bytes [f off] at [va + off] for [off] from [i], [n] of them. *)
Definition fill (va i : Z) (n : nat) (f : Z -> Z) (w : Z) : option Z :=
  if (va + i <=? w) && (w <? va + i + Z.of_nat n) then Some (f (w - va)) else None.

Lemma fill_step va i n f w :
  override (fill va (i + 1) n f) (fun w => if w =? va + i then Some (f i) else None) w =
  fill va i (Datatypes.S n) f w.
Proof.
  unfold override, fill. rewrite Nat2Z.inj_succ.
  destruct (Z.eqb_spec w (va + i)) as [->|Hne].
  - replace (va + i - va) with i by lia. cmp_cases.
  - destruct (Z.leb_spec (va + (i + 1)) w), (Z.leb_spec (va + i) w); try lia; cbn [andb];
      destruct (Z.ltb_spec w (va + (i + 1) + Z.of_nat n)),
        (Z.ltb_spec w (va + i + Z.succ (Z.of_nat n))); try lia; done.
Qed.

Lemma poke_loop_spec n R root va i byte f st :
  space_ok R root st -> 0 <= va -> 0 <= i ->
  (forall w, va + i <= w < va + i + Z.of_nat n -> readable root w st) ->
  (forall off st', i <= off < i + Z.of_nat n -> keeps R root st st' -> byte off st' = f off /\ byte_ok (f off)) ->
  let '(ok, st') := poke_loop n root va i byte st in
  ok = true /\ keeps R root st st' /\ uwrites R root (fill va i n f) st st'.
Proof.
  revert i st. induction n as [|n IH]; intros i st Hs Hva Hi Hr Hb; cbn [poke_loop].
  - split_and!; [done|by apply keeps_refl|]. eapply uwrites_ext, uwrites_refl, Hs.
    intros w _. unfold fill. cmp_cases.
  - rewrite Nat2Z.inj_succ in *. assert (readable root (va + i) st) as Hra by (apply Hr; lia).
    assert (va +u i = va + i) as ->.
    { destruct Hra as [Hv _]. unfold user_va, USER_LIMIT in Hv. apply u64_small. unfold word64. lia. }
    destruct (virt_to_phys root (va + i) st =? 0) eqn:Em.
    { destruct Hra as [_ Hm]. unfold mapped in Hm. by rewrite Em in Hm. }
    destruct (Hb i st ltac:(lia) (keeps_refl _ _ _ Hs)) as [-> Hbi].
    fold (ustore root (va + i) (f i) st). set (st1 := ustore root (va + i) (f i) st).
    pose proof (ustore_keeps R root st (va + i) (f i) Hs Hra) as K1. fold st1 in K1.
    pose proof (ustore_writes R root st (va + i) (f i) Hs (proj1 Hra) (proj2 Hra)) as U1. fold st1 in U1.
    specialize (IH (i + 1) st1 (k_space _ _ _ _ K1) Hva ltac:(lia)).
    destruct (poke_loop n root va (i + 1) byte st1) as [ok st'].
    destruct IH as (-> & K & U).
    { intros w Hw. apply K1, Hr. lia. }
    { intros off st2 Hoff Hk. apply Hb; [lia|]. by eapply keeps_trans. }
    split_and!; [done|by eapply keeps_trans|]. eapply uwrites_ext; [|by eapply uwrites_trans].
    intros w _. rewrite <- fill_step. unfold override. by rewrite u8_small.
Qed.

(** ** Permissions *)

(** Protecting a mapped range succeeds and changes only the flags. *)
Record protected_range R (root va : Z) (n : nat) (flags : Z) st st' : Prop := {
  pr_keeps : keeps R root st st';
  pr_pages : m_pages st' = m_pages st;
  pr_virt : forall w, user_va w -> virt_to_phys root w st' = virt_to_phys root w st;
  pr_load : forall w, readable root w st -> uload root w st' = uload root w st;
  pr_flags : forall w, va <= w < va + Z.of_nat n * PAGE_SIZE ->
    Z.land (pte (m_mem st') root w) (not64 PTE_ADDR_MASK) = Z.lor flags VMM_PRESENT;
  pr_rest : forall w, user_va w -> ~ (va <= w < va + Z.of_nat n * PAGE_SIZE) ->
    pte (m_mem st') root w = pte (m_mem st) root w;
}.

Lemma protect_entry R root st e v flags :
  space_ok R root st -> flags_ok flags -> user_va v -> e = pte (m_mem st) root v -> present e = true ->
  present (pte_value e flags) = true /\ frame_of (pte_value e flags) = frame_of e /\
  Z.land (pte_value e flags) (not64 PTE_ADDR_MASK) = Z.lor flags VMM_PRESENT.
Proof.
  intros Hs Hfl Hv -> Hp. split_and!.
  - apply pte_value_present, Hfl.
  - unfold frame_of. by apply pte_value_addr.
  - by apply flags_of_pte.
Qed.

Lemma protect_fun_page m r va n flags w :
  0 <= va -> va mod PAGE_SIZE = 0 ->
  protect_fun m r (va / PAGE_SIZE) n flags (w / PAGE_SIZE) =
  if (va <=? w) && (w <? va + Z.of_nat n * PAGE_SIZE)
  then Some (pte_value (pte m r (w / PAGE_SIZE * PAGE_SIZE)) flags) else None.
Proof.
  intros H1 H2. unfold protect_fun, PAGE_SIZE in *.
  destruct (va / 4096 <=? w / 4096) eqn:E1, (w / 4096 <? va / 4096 + Z.of_nat n) eqn:E2,
    (va <=? w) eqn:E3, (w <? va + Z.of_nat n * 4096) eqn:E4; cbn [andb]; try done; bool_to_prop; zlia.
Qed.

Lemma space_protect R root n va flags st :
  space_ok R root st -> pages_va n va -> flags_ok flags ->
  (forall w, va <= w < va + Z.of_nat n * PAGE_SIZE -> readable root w st) ->
  exists st', vmm_protect_in root va (Z.of_nat n * PAGE_SIZE) flags st = Ok (0, st') /\
    protected_range R root va n flags st st'.
Proof.
  intros Hs (V1 & V2 & V3) Hfl Hr. pose proof (sp_forest _ _ _ Hs) as Hf.
  assert (vrange_ok va (Z.of_nat n * PAGE_SIZE)) as Hrg
    by (unfold vrange_ok, USER_BASE, USER_LIMIT, PAGE_SIZE in *; lia).
  destruct (range_loop va _ Hrg) as [Ha Hn]. unfold vmm_protect_in, protect_in_root. rewrite Ha.
  rewrite Ha in Hn. replace (va / PAGE_SIZE * PAGE_SIZE) with va in * by (unfold PAGE_SIZE in *; zlia).
  replace (page_loop _ _) with n by (unfold PAGE_SIZE in *; zlia). clear Ha Hn.
  destruct (protect_pages_spec n st R root va flags Hf (sp_mem _ _ _ Hs) (sp_root _ _ _ Hs) Hfl V2)
    as (k & st' & Hk & Ep & Ee & U & _ & Hstop); [apply Hrg|apply Hrg|].
  pose proof (protect_pages_ok n root va flags st (conj (fw_pages _ _ _ Hf) (sp_mem _ _ _ Hs))) as Hl.
  rewrite Ee in *. cbn [leaves] in Hl.
  destruct (Nat.eqb_spec k n) as [->|Hne].
  2: { specialize (Hstop Hne). destruct (Hr (va + Z.of_nat k * PAGE_SIZE)) as [Hv Hm]; [unfold PAGE_SIZE; lia|].
       rewrite (mapped_present R) in Hm by done. congruence. }
  exists st'. split; [done|].
  assert (forall w, user_va w -> pte (m_mem st') root w =
    if (va <=? w) && (w <? va + Z.of_nat n * PAGE_SIZE) then pte_value (pte (m_mem st) root w) flags
    else pte (m_mem st) root w) as Hpte.
  { intros w Hw. rewrite (u_pte _ _ _ _ _ _ _ U w) by by apply user_canonical.
    rewrite protect_fun_page by (unfold USER_BASE in V1; lia || done). case_test; [|done].
    f_equal. apply pte_page; [apply user_canonical in Hw; unfold canonical, PAGE_SIZE in *; zlia|by apply user_canonical|].
    unfold PAGE_SIZE. zlia. }
  assert (forall w, user_va w -> present (pte (m_mem st') root w) = present (pte (m_mem st) root w) /\
    (present (pte (m_mem st) root w) = true ->
     frame_of (pte (m_mem st') root w) = frame_of (pte (m_mem st) root w))) as Hsame.
  { intros w Hw. rewrite Hpte by done. case_test; [|done]. bool_to_prop.
    assert (present (pte (m_mem st) root w) = true) as Hp.
    { rewrite <- (mapped_present R root st) by done. apply Hr. lia. }
    destruct (protect_entry R root st _ w flags Hs Hfl Hw eq_refl Hp) as (-> & -> & _). by rewrite Hp. }
  assert (space_ok R root st') as Hs'.
  { split; [apply U|apply Hs| |..].
    - apply Hl.
    - intros v Hv Hp. destruct (Hsame v Hv) as [E1 E2]. rewrite E1 in Hp. rewrite E2 by done.
      apply (frame_ok_updates R root _ st st' _ U). by apply Hs.
    - intros v w Hv Hw Hpv Hpw. destruct (Hsame v Hv) as [E1 E2], (Hsame w Hw) as [E3 E4].
      rewrite E1 in Hpv. rewrite E3 in Hpw. rewrite E2, E4 by done. by apply Hs. }
  assert (forall w, user_va w -> virt_to_phys root w st' = virt_to_phys root w st) as Hvirt.
  { intros w Hw. rewrite !(virt_to_phys_eq R) by done. destruct (Hsame w Hw) as [E1 E2].
    unfold translate. rewrite E1. case_test; [|done]. f_equal. by apply E2. }
  assert (forall x, pa_live (m_pages st) (x / PAGE_SIZE) -> ~ in_table (m_mem st) R x ->
    load8 (m_mem st') x = load8 (m_mem st) x) as Hkeep by apply U.
  split; [split|..].
  - done.
  - intros w [Hw Hm]. split; [done|]. unfold mapped in *. by rewrite Hvirt.
  - intros r w Hrr Hne. apply (u_others _ _ _ _ _ _ _ U); [|done..]. intros pg e.
    unfold protect_fun. case_test; [|done]. intros _. bool_to_prop.
    unfold user_page, USER_BASE, USER_LIMIT, PAGE_SIZE in *. zlia.
  - intros x (K1 & K2 & K3). split; [|by apply Hkeep].
    split_and!; [by apply U|by apply (not_table_updates _ _ _ _ _ _ U)|].
    intros v Hv Hp. destruct (Hsame v Hv) as [E1 E2]. rewrite E1 in Hp. rewrite E2 by done. by apply K3.
  - exact Ep.
  - exact Hvirt.
  - intros w [Hw Hm]. unfold uload. rewrite Hvirt by done.
    destruct (virt_to_phys_frame R root st w Hs Hw Hm) as [Ew [F1 F2 F3 F4]].
    pose proof (Z.mod_pos_bound w PAGE_SIZE eq_refl) as Hb.
    apply Hkeep; [|apply F4; rewrite Ew; lia]. rewrite <- (frame_page _ _ (proj2 F1)); [done|]. rewrite Ew. lia.
  - intros w Hw. destruct (Hr w Hw) as [Hv Hm]. rewrite Hpte by done.
    rewrite (proj2 (Z.leb_le _ _)), (proj2 (Z.ltb_lt _ _)) by lia. cbn [andb].
    rewrite (mapped_present R) in Hm by done.
    by destruct (protect_entry R root st _ w flags Hs Hfl Hv eq_refl Hm) as (_ & _ & ->).
  - intros w Hv Hw. rewrite Hpte by done. rewrite (proj2 (andb_false_iff _ _)); [done|].
    destruct (Z.leb_spec va w); [right; apply Z.ltb_ge; lia|by left].
Qed.

(** ** Segments *)

Lemma align_down_local_eq v : word64 v -> align_down_local v = v / PAGE_SIZE * PAGE_SIZE.
Proof. intros Hv. exact (align_down_page v Hv). Qed.

Lemma align_up_local_eq v :
  0 <= v <= 18446744073709551616 - 4096 -> align_up_local v = (v + 4095) / PAGE_SIZE * PAGE_SIZE.
Proof. intros Hv. rewrite <- (align_up_page v Hv). unfold align_up_local, align_up. f_equal. unfold PAGE_SIZE. word_lia. Qed.

(** The segment lies in the user half below [hi], its file part in memory. *)
Record segment_ok (hi image : Z) (seg : UserElfSegmentInfo) : Prop := {
  so_low : USER_BASE <= seg_vaddr seg;
  so_high : seg_vaddr seg + seg_mem_size seg <= hi;
  so_file : 0 <= seg_file_size seg <= seg_mem_size seg;
  so_image : 0 <= image /\ 0 <= seg_file_offset seg /\
    image + seg_file_offset seg + seg_file_size seg <= 18446744073709551616;
}.

(** What the program should see at [w]: bytes of the file, then zeros. *)
Definition segment_byte (m : mem) (image : Z) (seg : UserElfSegmentInfo) (w : Z) : option Z :=
  let off := w - seg_vaddr seg in
  if (0 <=? off) && (off <? seg_mem_size seg) then
    Some (if off <? seg_file_size seg then load8 m (image + seg_file_offset seg + off) else 0)
  else None.

(** The file part is kernel data. *)
Definition image_data R root st (image : Z) (seg : UserElfSegmentInfo) : Prop :=
  forall off, 0 <= off < seg_file_size seg -> kdata R root st (image + seg_file_offset seg + off).

(** Bytes [g] were written over zero-extended memory. *)
Record loaded R root (g : Z -> option Z) st st' : Prop := {
  ld_keeps : keeps R root st st';
  ld_load : forall w, readable root w st' -> uload root w st' =
    match g w with Some b => b | None => if mapped root w st then uload root w st else 0 end;
}.

Lemma loaded_trans R root g1 g2 st1 st2 st3 :
  loaded R root g1 st1 st2 -> loaded R root g2 st2 st3 ->
  (forall w, user_va w -> mapped root w st2 = false -> g1 w = None) ->
  loaded R root (override g2 g1) st1 st3.
Proof.
  intros A B Hg. pose proof (ld_keeps _ _ _ _ _ A) as KA. split.
  { eapply keeps_trans; [apply KA|apply B]. }
  intros w Hw. rewrite (ld_load _ _ _ _ _ B w Hw). unfold override. destruct (g2 w); [done|].
  destruct (mapped root w st2) eqn:Hm.
  - apply A. split; [apply Hw|done].
  - rewrite Hg by (apply Hw || done). destruct (mapped root w st1) eqn:Hm1; [|done].
    destruct (k_readable _ _ _ _ KA w (conj (proj1 Hw) Hm1)) as [_ Hm2]. congruence.
Qed.

Lemma segment_pages hi seg image :
  segment_ok hi image seg -> hi <= USER_LIMIT ->
  let start := align_down_local (seg_vaddr seg) in
  let end_ := align_up_local (seg_vaddr seg +u seg_mem_size seg) in
  let n := page_loop start end_ in
  pages_va n start /\ end_ -u start = Z.of_nat n * PAGE_SIZE /\
  start <= seg_vaddr seg /\ seg_vaddr seg + seg_mem_size seg <= start + Z.of_nat n * PAGE_SIZE /\
  start + Z.of_nat n * PAGE_SIZE < seg_vaddr seg + seg_mem_size seg + PAGE_SIZE /\
  (hi mod PAGE_SIZE = 0 -> start + Z.of_nat n * PAGE_SIZE <= hi).
Proof.
  intros [L1 L2 L3 _] Hhi. cbv zeta. unfold pages_va.
  unfold USER_LIMIT in *. unfold USER_BASE in *.
  rewrite (u64_small (seg_vaddr seg + seg_mem_size seg)) by (unfold word64; lia).
  rewrite align_down_local_eq, align_up_local_eq by (unfold word64; lia).
  destruct seg as [v fo ms fs fl]; cbn [seg_vaddr seg_mem_size seg_file_size] in *. clear - L1 L2 L3 Hhi.
  unfold page_loop, PAGE_SIZE. rewrite Z2Nat.id by zlia.
  rewrite u64_small by (unfold word64; zlia).
  split_and!; zlia.
Qed.

(** The bytes [load_segment] writes, zero first and the file over it. *)
Lemma segment_fill m image seg hi w :
  segment_ok hi image seg ->
  override (fill (seg_vaddr seg) 0 (Z.to_nat (seg_file_size seg))
              (fun off => load8 m (image + seg_file_offset seg + off)))
    (fill (seg_vaddr seg) 0 (Z.to_nat (seg_mem_size seg)) (fun _ => 0)) w = segment_byte m image seg w.
Proof.
  intros [_ _ Hf _]. unfold override, fill, segment_byte. rewrite !Z2Nat.id by lia. rewrite !Z.add_0_r.
  destruct (Z.leb_spec (seg_vaddr seg) w), (Z.leb_spec 0 (w - seg_vaddr seg)); try lia; cbn [andb]; [|done].
  destruct (Z.ltb_spec w (seg_vaddr seg + seg_file_size seg)),
    (Z.ltb_spec (w - seg_vaddr seg) (seg_file_size seg)),
    (Z.ltb_spec w (seg_vaddr seg + seg_mem_size seg)),
    (Z.ltb_spec (w - seg_vaddr seg) (seg_mem_size seg)); try lia; done.
Qed.

(** The pages that a segment meets, and what loading them can take: each a frame and up
    to three tables. *)
Definition seg_pages (seg : UserElfSegmentInfo) : nat :=
  page_loop (align_down_local (seg_vaddr seg)) (align_up_local (seg_vaddr seg +u seg_mem_size seg)).
Fixpoint program_cost (segs : list UserElfSegmentInfo) : nat :=
  match segs with [] => 0 | seg :: segs => 4 * seg_pages seg + program_cost segs end.

(** The outcome of loading segments with contents [g], for at most [k] pages. *)
Definition loading R root (k : nat) (g : Z -> option Z) st (o : outcome (Z * machine S)) : Prop :=
  match o with
  | Ok (r, st') =>
      (r = 0 /\ loaded R root g st st' /\ (forall w, user_va w -> g w <> None -> readable root w st') /\ takes k (m_pages st) (m_pages st')) \/
      (r = -1 /\ keeps R root st st' /\ out_of_pages k (m_pages st))
  | Panic _ => out_of_pages k (m_pages st)
  end.

Lemma elf_flags_ok f : flags_ok (flags_for_elf_segment f).
Proof. unfold flags_for_elf_segment. case_test; (split; [split; [discriminate|reflexivity]|reflexivity]). Qed.

(** The part that both ELF loaders share: the missing pages are mapped, the memory of
    the segment is cleared and the file copied over it. *)
Lemma fill_segment_spec R root hi image seg st :
  space_ok R root st -> hi <= USER_LIMIT -> segment_ok hi image seg -> image_data R root st image seg ->
  let start := align_down_local (seg_vaddr seg) in
  let n := page_loop start (align_up_local (seg_vaddr seg +u seg_mem_size seg)) in
  match map_missing false n root start (Z.lor VMM_USER VMM_WRITE) st with
  | Panic _ => out_of_pages (4 * n) (m_pages st)
  | Ok (MapFailed, _) => False
  | Ok (NoMemory, st1) => keeps R root st st1 /\ out_of_pages (4 * n) (m_pages st)
  | Ok (Mapped, st1) => exists st2 st3,
      poke_loop (Z.to_nat (seg_mem_size seg)) root (seg_vaddr seg) 0 (fun _ _ => 0) st1 = (true, st2) /\
      poke_loop (Z.to_nat (seg_file_size seg)) root (seg_vaddr seg) 0
        (fun off st => load8 (m_mem st) (image +u (seg_file_offset seg +u off))) st2 = (true, st3) /\
      loaded R root (segment_byte (m_mem st) image seg) st st3 /\
      (forall w, start <= w < start + Z.of_nat n * PAGE_SIZE -> readable root w st3) /\
      (hi mod PAGE_SIZE = 0 -> forall w, readable root w st3 -> hi <= w -> readable root w st) /\
      (forall w, pte (m_mem st3) root w = pte (m_mem st1) root w) /\ takes (4 * n) (m_pages st) (m_pages st3)
  end.
Proof.
  intros Hs Hhi Hok Himg start n. destruct (segment_pages hi seg image Hok Hhi) as (Pv & Hsz & P1 & P2 & P3 & P4).
  fold start n in Pv, Hsz, P1, P2, P3, P4.
  pose proof (map_missing_spec false n R root start (Z.lor VMM_USER VMM_WRITE) st Hs Pv vmm_demo_flags) as Hmap.
  destruct (map_missing _ _ _ _ _ _) as [[[] st1]|msg]; cbn [mapping] in *; [|done..].
  destruct Hmap as (X & Hr1 & HT). pose proof (ex_keeps _ _ _ _ _ _ X) as K1. pose proof Hok as [L1 L2 L3 L4].
  assert (0 <= seg_vaddr seg) as Hv0 by (unfold USER_BASE in L1; lia).
  pose proof (poke_loop_spec (Z.to_nat (seg_mem_size seg)) R root (seg_vaddr seg) 0 (fun _ _ => 0) (fun _ => 0) st1
    (k_space _ _ _ _ K1) Hv0 ltac:(lia)) as Hp. rewrite Z2Nat.id in Hp by lia.
  destruct (poke_loop _ root _ _ _ st1) as [ok st2]. destruct Hp as (-> & K2 & U2).
  { intros w Hw. apply Hr1. lia. }
  { intros off st' _ _. split; [done|]. unfold byte_ok. lia. }
  pose proof (keeps_trans _ _ _ _ _ K1 K2) as K12.
  pose proof (poke_loop_spec (Z.to_nat (seg_file_size seg)) R root (seg_vaddr seg) 0
    (fun off st => load8 (m_mem st) (image +u (seg_file_offset seg +u off)))
    (fun off => load8 (m_mem st) (image + seg_file_offset seg + off)) st2
    (k_space _ _ _ _ K2) Hv0 ltac:(lia)) as Hp. rewrite Z2Nat.id in Hp by lia.
  exists st2. destruct (poke_loop _ root _ _ _ st2) as [ok st3] eqn:E3. destruct Hp as (-> & K3 & U3).
  { intros w Hw. apply K2, Hr1. lia. }
  { intros off st' Hoff K. rewrite (u64_small (seg_file_offset seg + off)) by (unfold word64; lia).
    rewrite u64_small by (unfold word64; lia). rewrite Z.add_assoc.
    destruct (k_kdata _ _ _ _ (keeps_trans _ _ _ _ _ K12 K) _ (Himg off ltac:(lia))) as [_ E].
    split; [exact E|]. apply (sp_mem _ _ _ Hs). }
  exists st3. split; [done|]. split; [done|].
  assert (forall w, readable root w st3 -> readable root w st1) as Hback1.
  { intros w [Hv Hm]. split; [done|]. by rewrite (uw_mapped _ _ _ _ _ _ U3), (uw_mapped _ _ _ _ _ _ U2) in Hm. }
  split; [split; [exact (keeps_trans _ _ _ _ _ K12 K3)|]|split; [|split; [|split]]].
  - intros w Hw. destruct (Hback1 w Hw) as [Hv Hm].
    rewrite (uw_load _ _ _ _ _ (uwrites_trans _ _ _ _ _ _ _ U2 U3)) by done.
    rewrite (segment_fill (m_mem st) image seg hi w Hok). destruct (segment_byte _ _ _ _); [done|].
    destruct (mapped root w st) eqn:Ew; [by apply X|].
    apply (ex_new _ _ _ _ _ _ X); [done|]. intros [_ Hm']. congruence.
  - intros w Hw. by apply K3, K2, Hr1.
  - intros Hm w Hw Hge. destruct (readable_dec root w st) as [|Hn]; [done|].
    destruct (ex_new _ _ _ _ _ _ X w (Hback1 w Hw) Hn) as [Hin _]. specialize (P4 Hm). lia.
  - intros w. by rewrite (uw_pte _ _ _ _ _ U3), (uw_pte _ _ _ _ _ U2) by apply Hs.
  - by rewrite (uw_pages _ _ _ _ _ U3), (uw_pages _ _ _ _ _ U2).
Qed.

(** Permissions do not change what the program reads. *)
Lemma loaded_protect R root g st st1 va n flags st2 :
  loaded R root g st st1 -> protected_range R root va n flags st1 st2 ->
  loaded R root g st st2 /\ (forall w, readable root w st2 <-> readable root w st1).
Proof.
  intros A P. assert (forall w, readable root w st2 <-> readable root w st1) as Hiff.
  { intros w. unfold readable, mapped. split; intros [Hv Hm]; (split; [done|]); by rewrite (pr_virt _ _ _ _ _ _ _ P) in *. }
  split; [split|exact Hiff].
  - eapply keeps_trans; [apply A|apply P].
  - intros w Hw%Hiff. rewrite (pr_load _ _ _ _ _ _ _ P) by done. by apply A.
Qed.

Lemma load_segment_spec R root hi image seg st :
  space_ok R root st -> hi <= USER_LIMIT -> segment_ok hi image seg -> image_data R root st image seg ->
  loading R root (4 * seg_pages seg) (segment_byte (m_mem st) image seg) st (load_segment root image seg st) /\
  (forall st', load_segment root image seg st = Ok (0, st') -> hi mod PAGE_SIZE = 0 ->
     forall w, readable root w st' -> hi <= w -> readable root w st).
Proof.
  intros Hs Hhi Hok Himg. pose proof (fill_segment_spec R root hi image seg st Hs Hhi Hok Himg) as Hfill. cbv zeta in Hfill.
  unfold load_segment, seg_pages. destruct (segment_pages hi seg image Hok Hhi) as (Pv & Hsz & P1 & P2 & _). rewrite Hsz.
  set (start := align_down_local (seg_vaddr seg)) in *. set (n := page_loop start _) in *.
  destruct (map_missing _ _ _ _ _ _) as [[[] st1]|msg]; cbn [outcome_bind] in *; [| |done|done].
  2: { destruct Hfill as [K Ho]. split; [right; by split_and!|done]. }
  destruct Hfill as (st2 & st3 & -> & -> & A & Hr & Hb & _ & HT). cbn [negb].
  destruct (space_protect R root n start (flags_for_elf_segment (seg_flags seg)) st3 (k_space _ _ _ _ (ld_keeps _ _ _ _ _ A)) Pv
    (elf_flags_ok _) Hr) as (st4 & -> & P). cbn [outcome_bind]. change (0 <? 0) with false. cbn [loading].
  destruct (loaded_protect _ _ _ _ _ _ _ _ _ A P) as [A' Hiff].
  split; [left; split; [done|]; split; [done|]; split; [|by rewrite (pr_pages _ _ _ _ _ _ _ P)]|].
  - intros w Hv Hg. apply Hiff, Hr. unfold segment_byte in Hg. destruct (_ && _) eqn:Eb in Hg; [|done]. bool_to_prop. lia.
  - intros st' [= <-] Hm w Hw Hge. by apply (Hb Hm); [apply Hiff|].
Qed.

(** The contents of a program: a later segment wins. *)
Fixpoint program_byte (m : mem) (image : Z) (segs : list UserElfSegmentInfo) (w : Z) : option Z :=
  match segs with
  | [] => None
  | seg :: segs => override (program_byte m image segs) (segment_byte m image seg) w
  end.

Lemma segment_byte_keeps R root image hi seg st st' w :
  segment_ok hi image seg -> image_data R root st image seg -> keeps R root st st' ->
  segment_byte (m_mem st') image seg w = segment_byte (m_mem st) image seg w.
Proof.
  intros Hok Hd K. unfold segment_byte. case_test; [|done]. f_equal. case_test; [|done]. bool_to_prop.
  by apply (k_kdata _ _ _ _ K), Hd.
Qed.

Lemma program_byte_keeps R root image hi segs st st' w :
  Forall (segment_ok hi image) segs -> Forall (image_data R root st image) segs -> keeps R root st st' ->
  program_byte (m_mem st') image segs w = program_byte (m_mem st) image segs w.
Proof.
  intros Ho Hd K. induction segs as [|seg segs IH]; [done|]. cbn [program_byte]. unfold override.
  apply Forall_cons in Ho as [Ho1 Ho2]. apply Forall_cons in Hd as [Hd1 Hd2].
  by rewrite IH, (segment_byte_keeps R root image hi seg st st').
Qed.

Lemma loaded_ext R root g g' st st' :
  (forall w, g w = g' w) -> loaded R root g st st' -> loaded R root g' st st'.
Proof. intros E [K L]. split; [done|]. intros w Hw. rewrite <- E. by apply L. Qed.

Lemma load_segments_spec R root hi image segs st :
  space_ok R root st -> hi <= USER_LIMIT -> hi mod PAGE_SIZE = 0 ->
  Forall (segment_ok hi image) segs -> Forall (image_data R root st image) segs ->
  loading R root (program_cost segs) (program_byte (m_mem st) image segs) st (load_segments root image segs st) /\
  (forall st', load_segments root image segs st = Ok (0, st') ->
     forall w, readable root w st' -> hi <= w -> readable root w st).
Proof.
  intros Hs Hhi Hm. revert st Hs. induction segs as [|seg segs IH]; intros st Hs Ho Hd; cbn [load_segments].
  { split; [|by intros st' [= <-]]. left. split; [done|]. split; [|split; [done|apply takes_refl]].
    split; [by apply keeps_refl|]. intros w [Hv Hw]. cbn [program_byte]. by rewrite Hw. }
  apply Forall_cons in Ho as [Ho1 Ho2]. apply Forall_cons in Hd as [Hd1 Hd2].
  destruct (load_segment_spec R root hi image seg st Hs Hhi Ho1 Hd1) as [L1 B1].
  assert (forall s : S, out_of_pages (4 * seg_pages seg) s -> out_of_pages (program_cost (seg :: segs)) s) as Hup
    by (intros s; apply no_run_mono; cbn [program_cost]; lia).
  destruct (load_segment root image seg st) as [[r st1]|msg]; cbn [outcome_bind loading] in *; [|split; [by apply Hup|done]].
  destruct L1 as [(-> & A & Rd & T1)|(-> & K & Hout)].
  2: { change (-1 <? 0) with true. cbv iota. split; [right; split; [done|]; split; [done|by apply Hup]|by intros st' [= ]]. }
  change (0 <? 0) with false. cbv iota. pose proof (ld_keeps _ _ _ _ _ A) as K1.
  assert (Forall (image_data R root st1 image) segs) as Hd'.
  { eapply Forall_impl; [exact Hd2|]. intros s Hsd off Hoff. by apply (k_kdata _ _ _ _ K1), Hsd. }
  destruct (IH st1 (k_space _ _ _ _ K1) Ho2 Hd') as [L2 B2].
  split; [|intros st' E w Hw Hge; apply (B1 st1 eq_refl Hm); [by apply (B2 st' E)|done]].
  destruct (load_segments root image segs st1) as [[r st2]|msg]; cbn [loading] in *; [|by eapply no_run_takes].
  destruct L2 as [(-> & A2 & Rd2 & T2)|(-> & K & Hout)].
  2: { right. split; [done|]. split; [by eapply keeps_trans|by eapply no_run_takes]. }
  left. split; [done|]. split; [|split; [|by eapply takes_trans]].
  - eapply loaded_ext; [|eapply loaded_trans; [exact A|exact A2|]].
    + intros w. cbn [program_byte]. unfold override. by rewrite (program_byte_keeps R root image hi segs st st1).
    + intros w Hv Hw. destruct (segment_byte (m_mem st) image seg w) eqn:Eg; [|done].
      destruct (Rd w Hv) as [_ Hmw]; congruence.
  - intros w Hv Hg. cbn [program_byte] in Hg. unfold override in Hg.
    destruct (program_byte (m_mem st) image segs w) eqn:Eg.
    + apply (Rd2 w Hv). by rewrite (program_byte_keeps R root image hi segs st st1), Eg by done.
    + by apply (ld_keeps _ _ _ _ _ A2), Rd.
Qed.

(** ** Properties *)

Lemma stack_pages :
  pages_va (page_loop USER_STACK_BASE USER_STACK_TOP) USER_STACK_BASE /\
  USER_STACK_BASE + Z.of_nat (page_loop USER_STACK_BASE USER_STACK_TOP) * PAGE_SIZE = USER_STACK_TOP.
Proof. split; [split; [discriminate|split; [reflexivity|discriminate]]|reflexivity]. Qed.

Lemma stack_flags_ok : flags_ok (Z.lor (Z.lor VMM_USER VMM_WRITE) VMM_NX).
Proof. split; [split; [discriminate|reflexivity]|reflexivity]. Qed.

(** In an empty address space everything in use but the tables is kernel data. *)
Lemma empty_kept R root st st' x :
  space_ok R root st -> (forall w, ~ readable root w st) -> keeps R root st st' ->
  pa_live (m_pages st) (x / PAGE_SIZE) -> ~ in_table (m_mem st) R x ->
  pa_live (m_pages st') (x / PAGE_SIZE) /\ load8 (m_mem st') x = load8 (m_mem st) x.
Proof.
  intros Hs Hempty K Hl Ht. destruct (k_kdata _ _ _ _ K x) as [[Hl' _] E]; [|done]. split; [done|]. split; [done|].
  intros v Hv Hp. destruct (Hempty v). split; [done|]. by rewrite (mapped_present R).
Qed.

(** What the eight pages of the stack can take. *)
Definition stack_cost : nat := 32.

(** The stack over a loaded program. *)
Lemma stack_added R root k g st st1 :
  loaded R root g st st1 -> takes k (m_pages st) (m_pages st1) -> (forall w, ~ readable root w st) -> (forall w, user_va w -> g w <> None -> readable root w st1) ->
  (forall w, readable root w st1 -> USER_STACK_BASE <= w -> readable root w st) ->
  match map_all false (page_loop USER_STACK_BASE USER_STACK_TOP) root USER_STACK_BASE (Z.lor (Z.lor VMM_USER VMM_WRITE) VMM_NX) st1 with
  | Ok (Mapped, st2) => keeps R root st st2 /\
      (forall w, user_va w -> g w <> None \/ USER_STACK_BASE <= w < USER_STACK_TOP -> readable root w st2) /\
      (forall w, readable root w st2 -> uload root w st2 = default 0 (g w)) /\ takes (k + stack_cost) (m_pages st) (m_pages st2)
  | Ok (NoMemory, _) | Panic _ => out_of_pages (k + stack_cost) (m_pages st)
  | Ok (MapFailed, _) => False
  end.
Proof.
  intros A T Hempty Rd B. pose proof (ld_keeps _ _ _ _ _ A) as K1. destruct stack_pages as [Pv Pe].
  pose proof (map_all_spec false _ R root _ _ st1 (k_space _ _ _ _ K1) Pv stack_flags_ok) as Hmap. rewrite Pe in Hmap.
  change (4 * page_loop USER_STACK_BASE USER_STACK_TOP)%nat with stack_cost in Hmap. specialize (Hmap (fun w Hw Hr => Hempty w (B w Hr (proj1 Hw)))).
  destruct (map_all _ _ _ _ _ st1) as [[[] st2]|msg]; cbn [mapping] in *; [|by eapply no_run_takes; [|apply Hmap]|done|by eapply no_run_takes].
  destruct Hmap as (X & Hst & T2). pose proof (ex_keeps _ _ _ _ _ _ X) as K2. split; [by eapply keeps_trans|]. split; [|split; [|by eapply takes_trans]].
  - intros w Hv [Hg|Hw]; [by apply K2, Rd|by apply Hst].
  - intros w Hw. destruct (readable_dec root w st1) as [Hr1|Hn1].
    + rewrite (ex_load _ _ _ _ _ _ X) by done. rewrite (ld_load _ _ _ _ _ A) by done.
      destruct (g w); [done|]. destruct (mapped root w st) eqn:Em; [|done]. destruct (Hempty w). split; [apply Hw|done].
    + destruct (ex_new _ _ _ _ _ _ X w Hw Hn1) as [_ ->].
      destruct (g w) eqn:Eg; [|done]. destruct Hn1. apply Rd; [apply Hw|congruence].
Qed.

(** C9: loading an ELF image into a fresh address space succeeds unless fewer pages are
    free than four for each page of its segments and its stack, and then the process
    stays as it was.  On success every byte of every segment and of the stack is
    mapped, and the program sees exactly the bytes of the file at the segments'
    addresses and zero everywhere else; the tables of the other address spaces, and
    every byte of memory that was in use and is no table, are as before. *)
Theorem load_user_image_correct R proc image info st :
  let root := pml4_phys (p_address_space proc) in
  let segs := ei_segments info in
  space_ok R root st -> (forall w, ~ readable root w st) ->
  Forall (segment_ok USER_STACK_BASE image) segs -> Forall (image_data R root st image) segs ->
  match load_user_image_into_process proc image info st with
  | Panic _ => out_of_pages (program_cost segs + stack_cost) (m_pages st)
  | Ok (r, proc', st') =>
      (r = -1 /\ proc' = proc /\ out_of_pages (program_cost segs + stack_cost) (m_pages st)) \/
      (r = 0 /\ proc' = set_program (ei_entry info) (ei_segment_count info) proc /\ space_ok R root st' /\
       (forall w, user_va w -> program_byte (m_mem st) image segs w <> None \/
          USER_STACK_BASE <= w < USER_STACK_TOP -> readable root w st') /\
       (forall w, readable root w st' ->
          uload root w st' = default 0 (program_byte (m_mem st) image segs w)) /\
       (forall r w, R r -> r <> root -> pte (m_mem st') r w = pte (m_mem st) r w) /\
       (forall x, pa_live (m_pages st) (x / PAGE_SIZE) -> ~ in_table (m_mem st) R x ->
          pa_live (m_pages st') (x / PAGE_SIZE) /\ load8 (m_mem st') x = load8 (m_mem st) x))
  end.
Proof.
  intros root segs Hs Hempty Ho Hd. unfold load_user_image_into_process. fold root segs.
  destruct (load_segments_spec R root USER_STACK_BASE image segs st Hs ltac:(discriminate) eq_refl Ho Hd) as [L B].
  assert (forall s : S, out_of_pages (program_cost segs) s -> out_of_pages (program_cost segs + stack_cost) s) as Hup
    by (intros s; apply no_run_mono; lia).
  destruct (load_segments root image segs st) as [[r st1]|msg]; cbn [outcome_bind loading] in *; [|by apply Hup].
  destruct L as [(-> & A & Rd & T)|(-> & K & Hout)]; [|left; split; [done|]; split; [done|by apply Hup]].
  change (0 <? 0) with false. cbv iota. pose proof (stack_added R root _ _ st st1 A T Hempty Rd (fun w => B st1 eq_refl w)) as Hst.
  destruct (map_all _ _ _ _ _ st1) as [[[] st2]|msg]; cbn [outcome_bind] in *; [|by left|done|done].
  destruct Hst as (K & Hr & Hb & _). right. split; [done|]. split; [done|]. split; [apply K|]. split; [exact Hr|]. split; [exact Hb|].
  split; [apply K|]. intros x. by apply (empty_kept R root st).
Qed.

(** ** OreImage *)

Lemma write_loop_keeps R root bs dst st :
  space_ok R root st -> (forall a, dst <= a < dst + Z.of_nat (length bs) -> readable root a st) ->
  keeps R root st (write_loop root dst bs st).
Proof.
  revert dst st. induction bs as [|b bs IH]; intros dst st Hs Hr; cbn [write_loop length] in *.
  { by apply keeps_refl. }
  pose proof (ustore_keeps R root st dst b Hs (Hr dst ltac:(lia))) as K.
  eapply keeps_trans; [exact K|]. apply IH; [apply K|]. intros a Ha. apply K, Hr. lia.
Qed.

(** The next byte of the same page. *)
Lemma virt_to_phys_next R root st va :
  space_ok R root st -> user_va va -> user_va (va + 1) -> mapped root va st = true ->
  va mod PAGE_SIZE + 1 < PAGE_SIZE -> virt_to_phys root (va + 1) st = virt_to_phys root va st + 1.
Proof.
  intros Hs Hv Hv' Hm Hpg.
  assert (va / PAGE_SIZE = (va + 1) / PAGE_SIZE /\ (va + 1) mod PAGE_SIZE = va mod PAGE_SIZE + 1) as [E1 E2]
    by (unfold PAGE_SIZE in *; zlia).
  pose proof Hm as Hm'. rewrite (mapped_page R root st va (va + 1)) in Hm' by done.
  destruct (virt_to_phys_frame R root st va Hs Hv Hm) as [-> _].
  destruct (virt_to_phys_frame R root st (va + 1) Hs Hv' Hm') as [-> _].
  rewrite (pte_page (m_mem st) root va (va + 1)) by (done || by apply user_canonical). lia.
Qed.

(** A store that stays on one page is a store of bytes at user addresses. *)
Lemma store_le_user R root k va v st :
  space_ok R root st -> va mod PAGE_SIZE + Z.of_nat k <= PAGE_SIZE ->
  (forall a, va <= a < va + Z.of_nat k -> readable root a st) ->
  with_machine_mem st (store_le k (m_mem st) (virt_to_phys root va st) v) =
  write_loop root va (le_bytes k v) st.
Proof.
  revert va v st. induction k as [|k IH]; intros va v st Hs Hpg Hr; cbn [store_le le_bytes write_loop].
  { by destruct st. }
  rewrite Nat2Z.inj_succ in *. destruct (Hr va ltac:(lia)) as [Hv Hm].
  destruct (ustore_spec R root st va (u8 v) Hs Hv Hm) as (U1 & U2 & U3 & _).
  assert (ustore root va (u8 v) st = with_machine_mem st (store8 (m_mem st) (virt_to_phys root va st) v)) as Eu.
  { unfold ustore, store8. by rewrite (u8_small (u8 v)) by apply u8_bound. }
  destruct k as [|k].
  { cbn [store_le le_bytes write_loop]. by rewrite Eu. }
  rewrite Nat2Z.inj_succ in *. destruct (Hr (va + 1) ltac:(lia)) as [Hv' Hm'].
  rewrite <- IH; [|done|unfold PAGE_SIZE in *; zlia|].
  2: { intros a Ha. destruct (Hr a ltac:(lia)) as [Ha1 Ha2]. split; [done|]. unfold mapped. by rewrite U3. }
  rewrite U3, (virt_to_phys_next R root st va) by (done || (unfold PAGE_SIZE in *; lia)). by rewrite Eu.
Qed.

Section Reloc.
Context (text_base data_base : Z).

Definition reloc_base (r : OreImageReloc) : Z := if r_segment r =? 0 then text_base else data_base.
Definition reloc_place (r : OreImageReloc) : Z := reloc_base r +u r_offset r.
Definition reloc_target (r : OreImageReloc) : Z := reloc_base r +u r_symbol_offset r.
Definition reloc_disp (r : OreImageReloc) : Z := s64 (s64 (reloc_target r) - s64 (reloc_place r +u 4)).

(** The bytes a relocation writes at its place. *)
Definition reloc_bytes (r : OreImageReloc) : list Z :=
  if r_type r =? ORE_IMAGE_RELOC_ABS64 then le_bytes 8 (reloc_target r) else le_bytes 4 (reloc_disp r).

(** A relocation of a known type whose place is on one page of [lo, hi). *)
Definition reloc_fits (lo hi : Z) (r : OreImageReloc) : Prop :=
  let len := Z.of_nat (length (reloc_bytes r)) in
  lo <= reloc_place r /\ reloc_place r + len <= hi /\ reloc_place r mod PAGE_SIZE + len <= PAGE_SIZE /\
  (r_type r = ORE_IMAGE_RELOC_ABS64 \/
   r_type r = ORE_IMAGE_RELOC_PC32 /\ -2147483648 <= reloc_disp r <= 2147483647).

Definition relocs_at (m : mem) (a : Z) (i n : nat) : list OreImageReloc :=
  map (fun k => read_ore_reloc m (a + Z.of_nat k * sizeof_OreImageReloc)) (seq i n).

Fixpoint relocs_byte (rs : list OreImageReloc) (w : Z) : option Z :=
  match rs with
  | [] => None
  | r :: rs => override (relocs_byte rs) (bytes_at (reloc_place r) (reloc_bytes r)) w
  end.

Lemma apply_reloc_spec R root lo hi r st :
  space_ok R root st -> (forall a, lo <= a < hi -> readable root a st) -> reloc_fits lo hi r ->
  exists st', apply_reloc root text_base data_base r st = (0, st') /\
    keeps R root st st' /\ uwrites R root (bytes_at (reloc_place r) (reloc_bytes r)) st st'.
Proof.
  intros Hs Hr (F1 & F2 & F3 & F4). unfold apply_reloc.
  fold (reloc_base r). fold (reloc_place r) (reloc_target r).
  assert (0 < Z.of_nat (length (reloc_bytes r))) as Hlen
    by (unfold reloc_bytes; case_test; rewrite le_bytes_length; lia).
  assert (forall a, reloc_place r <= a < reloc_place r + Z.of_nat (length (reloc_bytes r)) -> readable root a st)
    as Hra by (intros; apply Hr; lia).
  destruct (virt_to_phys root (reloc_place r) st =? 0) eqn:Em.
  { destruct (Hra (reloc_place r) ltac:(lia)) as [_ Hm]. unfold mapped in Hm. by rewrite Em in Hm. }
  destruct (Hra (reloc_place r) ltac:(lia)) as [Hv1 _].
  destruct (Hra (reloc_place r + Z.of_nat (length (reloc_bytes r)) - 1) ltac:(lia)) as [Hv2 _].
  exists (write_loop root (reloc_place r) (reloc_bytes r) st).
  split; [|split; [by apply write_loop_keeps|apply write_loop_spec; [done|apply Hv1|unfold user_va in Hv2; lia| |]]].
  - unfold reloc_bytes, ORE_IMAGE_RELOC_ABS64, ORE_IMAGE_RELOC_PC32 in *.
    destruct F4 as [E|[E Hd]]; rewrite E in *.
    + change (1 =? 1) with true in *. cbv iota in *. rewrite le_bytes_length in *.
      by rewrite <- (store_le_user R root 8).
    + change (2 =? 1) with false in *. change (2 =? 2) with true. cbv iota in *. rewrite le_bytes_length in *.
      fold (reloc_disp r). rewrite <- (store_le_user R root 4) by done.
      destruct (Z.ltb_spec (reloc_disp r) (-2147483648)), (Z.ltb_spec 2147483647 (reloc_disp r)); try lia. done.
  - intros a Ha. by apply Hra.
  - unfold reloc_bytes. case_test; apply le_bytes_ok.
Qed.
End Reloc.
End Spec.

(** ** Example *)

Definition demo_proc : Process := set_address_space (mk_as vmm_root USER_BASE USER_LIMIT) zero_process.
Definition demo_image : Z := 0x10000.
(** The example address space with [bs] in kernel memory. *)
Definition demo_bytes_st (bs : list Z) : machine pmm_state :=
  with_machine_mem vmm_st1 (store_bytes (m_mem vmm_st1) demo_image bs).
Definition demo_load_st : machine pmm_state := demo_bytes_st [1; 2; 3; 4; 5; 6; 7; 8].
Definition demo_seg : UserElfSegmentInfo :=
  {| seg_vaddr := USER_BASE + 0x10; seg_file_offset := 0; seg_mem_size := 16; seg_file_size := 8; seg_flags := 5 |}.
Definition demo_info : UserElfInfo :=
  {| ei_entry := USER_BASE + 0x10; ei_image_size := 8; ei_segment_count := 1; ei_segments := [demo_seg] |}.

Lemma demo_load_runs :
  match load_user_image_into_process demo_proc demo_image demo_info demo_load_st with
  | Ok (r, _, _) => r =? 0 | Panic _ => false end = true.
Proof. vm_compute. reflexivity. Qed.

Example demo_load_bytes :
  match load_user_image_into_process demo_proc demo_image demo_info demo_load_st with
  | Ok (r, _, st) => (uload vmm_root (USER_BASE + 0x12) st =? 3) && (uload vmm_root (USER_BASE + 0x1a) st =? 0)
  | Panic _ => false end = true.
Proof. vm_compute. reflexivity. Qed.

Lemma table_high {S} `{PageAllocatorOk S} (s : S) m R x : forest_wf s m R -> in_table m R x -> 1048576 <= x.
Proof.
  intros Hf (t & (r & q & Hr & Hq & Hw) & Hx). destruct (fw_table _ _ _ Hf _ _ _ Hr Hq Hw). lia.
Qed.

(** A write below the tables keeps an address space and its contents. *)
Lemma space_low {S} `{PageAllocatorOk S} R root (st : machine S) a bs :
  space_ok R root st -> a + Z.of_nat (length bs) <= 1048576 ->
  let st' := with_machine_mem st (store_bytes (m_mem st) a bs) in
  space_ok R root st' /\ (forall w, virt_to_phys root w st' = virt_to_phys root w st) /\
  (forall r w, R r -> pte (m_mem st') r w = pte (m_mem st) r w).
Proof.
  intros Hs Ha st'. destruct (space_data R root st (store_bytes (m_mem st) a bs) Hs) as (D1 & D2 & D3).
  - apply store_bytes_ok, Hs.
  - intros x Hx. apply store_bytes_out. pose proof (table_high _ _ _ _ (sp_forest _ _ _ Hs) Hx). lia.
  - done.
Qed.

Lemma with_mem_pages {S} (st : machine S) m : m_pages (with_machine_mem st m) = m_pages st.
Proof. reflexivity. Qed.

(** Pages 16 and 17 hold the bytes. *)
Lemma demo_pages_live k : 16 <= k < 18 -> pa_live (m_pages vmm_st1) k.
Proof.
  intros Hk. assert (k = 16 \/ k = 17) as [-> | ->] by lia;
    (split; [vm_compute; split; [discriminate|reflexivity]|vm_compute; reflexivity]).
Qed.

Section DemoBytes.
Context (bs : list Z) (Hbs : Z.of_nat (length bs) <= 8192).

Lemma demo_bytes_space : space_ok (eq vmm_root) vmm_root (demo_bytes_st bs) /\
  (forall w, present (pte (m_mem (demo_bytes_st bs)) vmm_root w) = false).
Proof.
  destruct (space_low (eq vmm_root) vmm_root vmm_st1 demo_image bs vmm_st1_space)
    as (Hs & _ & Hp); [unfold demo_image; lia|].
  split; [exact Hs|]. intros w. unfold demo_bytes_st. rewrite Hp by done. apply vmm_st1_absent.
Qed.

Lemma demo_bytes_empty w : ~ readable vmm_root w (demo_bytes_st bs).
Proof.
  intros [Hv Hm]. destruct demo_bytes_space as [Hs Hp]. rewrite (mapped_present (eq vmm_root)) in Hm by done.
  rewrite Hp in Hm. discriminate Hm.
Qed.

Lemma demo_bytes_data off : 0 <= off < 8192 -> kdata (eq vmm_root) vmm_root (demo_bytes_st bs) (demo_image + off).
Proof.
  intros Hoff. destruct demo_bytes_space as [Hs Hp]. split_and!.
  - unfold demo_bytes_st. rewrite with_mem_pages. apply demo_pages_live. unfold demo_image, PAGE_SIZE. zlia.
  - intros Hx. pose proof (table_high _ _ _ _ (sp_forest _ _ _ Hs) Hx). unfold demo_image in *. lia.
  - intros v _ Hv. rewrite Hp in Hv. discriminate Hv.
Qed.
End DemoBytes.

Lemma demo_load_space : space_ok (eq vmm_root) vmm_root demo_load_st /\
  (forall w, present (pte (m_mem demo_load_st) vmm_root w) = false).
Proof. apply demo_bytes_space. discriminate. Qed.

Lemma demo_load_empty w : ~ readable vmm_root w demo_load_st.
Proof. apply demo_bytes_empty. discriminate. Qed.

Lemma demo_seg_ok : segment_ok USER_STACK_BASE demo_image demo_seg.
Proof. split; cbn; unfold USER_BASE, USER_STACK_BASE, USER_STACK_TOP, demo_image; lia. Qed.

Lemma demo_image_data : image_data (eq vmm_root) vmm_root demo_load_st demo_image demo_seg.
Proof.
  intros off Hoff. cbn [demo_seg seg_file_size seg_file_offset] in *. rewrite Z.add_0_r.
  apply demo_bytes_data; [discriminate|lia].
Qed.

Lemma load_user_image_correct_witness : exists proc' st',
  load_user_image_into_process demo_proc demo_image demo_info demo_load_st = Ok (0, proc', st') /\
  (forall w, readable vmm_root w st' ->
     uload vmm_root w st' = default 0 (program_byte (m_mem demo_load_st) demo_image [demo_seg] w)).
Proof.
  pose proof (load_user_image_correct (eq vmm_root) demo_proc demo_image demo_info demo_load_st
    (proj1 demo_load_space) demo_load_empty
    (List.Forall_cons _ _ _ demo_seg_ok (List.Forall_nil _))
    (List.Forall_cons _ _ _ demo_image_data (List.Forall_nil _))) as Hc.
  pose proof demo_load_runs as Hrun. cbv zeta in Hc.
  destruct (load_user_image_into_process _ _ _ _) as [[[r p'] st']|msg]; [|discriminate Hrun].
  apply Z.eqb_eq in Hrun. subst r.
  destruct Hc as [(Hc & _)|(_ & _ & _ & _ & Hl & _)]; [discriminate Hc|].
  exists p', st'. split; [reflexivity|exact Hl].
Defined.
