(* ===== verification/InitLoad.v ===== *)
(** The first program: the loading part of [user_init_spawn] (kernel/user.c).

    Its two passes map and fill all segments before any permission is set, and stop the
    kernel on every error.  The theorem is that on an image whose segments lie in user
    memory below the stack the kernel stops only for want of memory or because the entry
    point is in no segment, and otherwise the program sees what the file describes. *)
From stdpp Require Import base numbers list gmap strings.
From Stdlib Require Import ZArith Lia.
From S2P Require Import Prelude Memory PageAllocator Pmm Vmm Process Usermem Elf Loader.

Section Init.
Context {S : Type} `{PageAllocatorOk S}.
Implicit Types (st : machine S) (R : Z -> Prop).

(** ** Pages of the program are accessible from ring 3 *)

Definition has_user (e : Z) : Prop := Z.testbit e 2 = true.
Definition user_pages (root : Z) st : Prop := forall w, user_va w -> present (pte (m_mem st) root w) = true -> has_user (pte (m_mem st) root w).

Lemma has_user_flags e flags : has_user flags -> Z.land e (not64 PTE_ADDR_MASK) = Z.lor flags VMM_PRESENT -> has_user e.
Proof.
  unfold has_user. intros Hf He. apply (f_equal (fun z => Z.testbit z 2)) in He. rewrite Z.land_spec, Z.lor_spec, Hf in He.
  cbn [orb] in He. by apply andb_prop in He as [He _].
Qed.

Lemma user_pages_same root st st' : (forall w, pte (m_mem st') root w = pte (m_mem st) root w) -> user_pages root st -> user_pages root st'.
Proof. intros E Hu w Hw. rewrite E. by apply Hu. Qed.

Lemma map_new_page_user zero R root va flags st st' :
  space_ok R root st -> page_va va -> flags_ok flags -> has_user flags -> user_pages root st ->
  map_new_page zero root va flags st = Ok (Mapped, st') -> user_pages root st'.
Proof.
  intros Hs Hva Hfl Hus Hu. unfold map_new_page.
  destruct (pa_alloc_pages 1 (m_pages st) (m_mem st)) as [[p s1] m1] eqn:Ea. destruct (Z.eqb_spec p 0) as [->|Hp]; [discriminate|].
  pose proof (space_alloc R root st 1 p s1 m1 Hs ltac:(lia) Ea Hp) as F.
  set (st1 := mk_machine s1 (if zero then mem_zero p 4096 m1 else m1)).
  assert (fresh_run R root p 1 st st1) as F' by (destruct zero; [by apply fresh_zero in F|done]).
  destruct (vmm_map_in root va p 4096 flags st1) as [[res st2]|msg] eqn:Em; cbn [outcome_bind]; [|discriminate].
  change 4096 with (1 * PAGE_SIZE) in Em.
  destruct (space_alloc_map R root va 1 flags st st1 p st2 res Hs Hva ltac:(lia) Hfl F' Em) as (-> & M & _).
  intros [= <-] w Hw Hpr. pose proof (mp_updates _ _ _ _ _ _ _ _ M) as U.
  rewrite (u_pte _ _ _ _ _ _ _ U w) in * by by apply user_canonical.
  rewrite range_fun_page in * by (apply Hva || (destruct Hva; unfold USER_BASE in *; lia)). destruct (_ && _) eqn:Ev.
  - unfold map_entry. eapply has_user_flags; [exact Hus|by apply flags_of_pte].
  - rewrite (fr_pte _ _ _ _ _ _ F') in * by apply Hs. by apply Hu.
Qed.

Lemma map_missing_user zero n R root va flags st st' :
  space_ok R root st -> pages_va n va -> flags_ok flags -> has_user flags -> user_pages root st ->
  map_missing zero n root va flags st = Ok (Mapped, st') -> user_pages root st'.
Proof.
  revert va st. induction n as [|n IH]; intros va st Hs Hva Hfl Hus Hu; cbn [map_missing]; [by intros [= <-]|].
  destruct (pages_va_step n va Hva) as (Hp & Ew & Hn & _ & _). rewrite Ew. destruct (virt_to_phys root va st =? 0) eqn:Em; [|by apply IH].
  assert (mapped root va st = false) as Hmf by (unfold mapped; by rewrite Em).
  pose proof (map_new_page_spec zero R root va flags st Hs Hp Hfl (fun w Hw => page_unreadable R root st va w Hs Hp Hmf Hw)) as Hpg.
  pose proof (map_new_page_user zero R root va flags st) as Hpu.
  destruct (map_new_page zero root va flags st) as [[[] st1]|msg]; cbn [outcome_bind]; try discriminate.
  apply IH; [apply Hpg|done..|]. by apply Hpu.
Qed.

Lemma map_all_user zero n R root va flags st st' :
  space_ok R root st -> pages_va n va -> flags_ok flags -> has_user flags ->
  (forall w, va <= w < va + Z.of_nat n * PAGE_SIZE -> ~ readable root w st) -> user_pages root st ->
  map_all zero n root va flags st = Ok (Mapped, st') -> user_pages root st'.
Proof.
  revert va st. induction n as [|n IH]; intros va st Hs Hva Hfl Hus Hfree Hu; cbn [map_all]; [by intros [= <-]|].
  destruct (pages_va_step n va Hva) as (Hp & Ew & Hn & Ee & Hle). rewrite Ew, Ee in *.
  pose proof (map_new_page_spec zero R root va flags st Hs Hp Hfl (fun w Hw => Hfree w ltac:(lia))) as Hpg.
  pose proof (map_new_page_user zero R root va flags st) as Hpu.
  destruct (map_new_page zero root va flags st) as [[[] st1]|msg]; cbn [outcome_bind]; try discriminate. destruct Hpg as [X Hr].
  apply IH; [apply X|done..| |by apply Hpu]. intros w Hw Hrd. destruct (readable_dec root w st) as [Hold|Hnew]; [by apply (Hfree w); [lia|]|].
  destruct (ex_new _ _ _ _ _ _ X w Hrd Hnew). lia.
Qed.

(** ** Segments *)

(** A range of pages that was mapped for a segment, with the flags it will get. *)
Definition range_ready (root : Z) (ls : LoadedSegment) st : Prop :=
  exists n, pages_va n (ls_start ls) /\ ls_size ls = Z.of_nat n * PAGE_SIZE /\ flags_ok (ls_flags ls) /\ has_user (ls_flags ls) /\
    forall w, ls_start ls <= w < ls_start ls + ls_size ls -> readable root w st.

Lemma range_ready_mono root ls st st' : (forall w, readable root w st -> readable root w st') -> range_ready root ls st -> range_ready root ls st'.
Proof. intros Hm (n & H1 & H2 & H3 & H4 & H5). exists n. split_and!; auto. Qed.

Lemma segment_flags_ok ph : flags_ok (flags_for_segment ph) /\ has_user (flags_for_segment ph).
Proof. unfold flags_for_segment. destruct (_ =? 0); (split; [split; [split; [discriminate|reflexivity]|reflexivity]|reflexivity]). Qed.

Lemma align_local v : 0 <= v <= 18446744073709551616 - 4096 -> align_down v PAGE_SIZE = align_down_local v /\ align_up v PAGE_SIZE = align_up_local v.
Proof. intros Hv. split; [done|]. by rewrite align_up_page, align_up_local_eq. Qed.

Lemma map_segment_spec R root hi image ph st :
  space_ok R root st -> hi <= USER_LIMIT -> hi mod PAGE_SIZE = 0 -> segment_ok hi image (segment_of ph) -> image_data R root st image (segment_of ph) ->
  match map_segment root image ph st with
  | Panic _ => out_of_pages (4 * seg_pages (segment_of ph)) (m_pages st)
  | Ok (ls, st') => loaded R root (segment_byte (m_mem st) image (segment_of ph)) st st' /\ range_ready root ls st' /\
      (forall w, user_va w -> segment_byte (m_mem st) image (segment_of ph) w <> None -> readable root w st') /\
      (forall w, readable root w st' -> hi <= w -> readable root w st) /\ (user_pages root st -> user_pages root st') /\
      takes (4 * seg_pages (segment_of ph)) (m_pages st) (m_pages st')
  end.
Proof.
  intros Hs Hhi Hm Hok Himg. pose proof (fill_segment_spec R root hi image (segment_of ph) st Hs Hhi Hok Himg) as Hfill. cbv zeta in Hfill.
  destruct (segment_pages hi (segment_of ph) image Hok Hhi) as (Pv & Hsz & P1 & P2 & _). pose proof Hok as [L1 L2 L3 _].
  unfold map_segment, seg_pages. cbv zeta. cbn [segment_of seg_vaddr seg_mem_size seg_file_size seg_file_offset] in *.
  unfold USER_LIMIT in Hhi. unfold USER_BASE in L1. rewrite (u64_small (p_vaddr ph + p_memsz ph)) in * by (unfold word64; lia).
  destruct (align_local (p_vaddr ph) ltac:(lia)) as [-> _]. destruct (align_local (p_vaddr ph + p_memsz ph) ltac:(lia)) as [_ ->].
  set (start := align_down_local (p_vaddr ph)) in *. set (n := page_loop start _) in *.
  pose proof (map_missing_user false n R root start (Z.lor VMM_USER VMM_WRITE) st) as Hus.
  destruct (map_missing _ _ _ _ _ _) as [[[] st1]|msg]; cbn [outcome_bind] in *; [|by destruct Hfill|done|done].
  destruct Hfill as (st2 & st3 & -> & -> & A & Hr & Hb & Hpte & HT). cbn [negb]. destruct (segment_flags_ok ph) as [F1 F2].
  split; [done|]. split; [|split; [|split; [|split; [|exact HT]]]].
  - exists n. cbn [ls_start ls_size ls_flags]. rewrite Hsz. by split_and!.
  - intros w Hv Hg. apply Hr. unfold segment_byte in Hg. destruct (_ && _) eqn:Eb in Hg; [|done].
    cbn [segment_of seg_vaddr seg_mem_size] in Eb. bool_to_prop. lia.
  - exact (Hb Hm).
  - intros Hu. apply (user_pages_same root st1); [done|]. exact (Hus st1 Hs Pv vmm_demo_flags eq_refl Hu eq_refl).
Qed.

(** The headers of an image that is kernel data do not change while it is loaded. *)
Definition image_kept R root st (image size : Z) : Prop := forall x, image <= x < image + size -> kdata R root st x.

Lemma image_kept_agree R root st st' image size :
  keeps R root st st' -> image_kept R root st image size -> image_kept R root st' image size /\ agree (m_mem st') (m_mem st) image size.
Proof. intros K Hi. split; intros x Hx; by apply (k_kdata _ _ _ _ K), Hi. Qed.

(** The table of headers lies in the image. *)
Definition headers_in (eh : Elf64_Ehdr) (image size : Z) (n : nat) : Prop :=
  forall k, (k < n)%nat -> image <= phdr_addr eh image (Z.of_nat k) /\ phdr_addr eh image (Z.of_nat k) + 56 <= image + size.

Definition headers (m : mem) (image : Z) (eh : Elf64_Ehdr) (i n : nat) : list Elf64_Phdr :=
  List.filter loadable (map (fun k => read_phdr m (phdr_addr eh image (Z.of_nat k))) (seq i n)).

Lemma headers_agree m m' image size eh i n :
  agree m' m image size -> headers_in eh image size (i + n) -> headers m' image eh i n = headers m image eh i n.
Proof.
  intros Ha Hh. unfold headers. f_equal. apply map_ext_in. intros k Hk%in_seq.
  destruct (Hh k ltac:(lia)). by apply (read_phdr_image m' m image size).
Qed.

(** ** The two passes *)

Lemma map_segments_spec R root hi image size eh n i loaded_ st :
  let hs := headers (m_mem st) image eh i n in
  let segs := map segment_of hs in
  space_ok R root st -> hi <= USER_LIMIT -> hi mod PAGE_SIZE = 0 -> image_kept R root st image size -> headers_in eh image size (i + n) ->
  Forall (segment_ok hi image) segs -> Forall (fun s => seg_file_offset s + seg_file_size s <= size) segs ->
  (length loaded_ + length hs <= 16)%nat -> Forall (fun ls => range_ready root ls st) loaded_ ->
  match map_segments n root image eh (Z.of_nat i) loaded_ st with
  | Panic _ => out_of_pages (program_cost segs) (m_pages st)
  | Ok (rs, st') => loaded R root (program_byte (m_mem st) image segs) st st' /\ Forall (fun ls => range_ready root ls st') rs /\
      (forall w, user_va w -> program_byte (m_mem st) image segs w <> None -> readable root w st') /\
      (forall w, readable root w st' -> hi <= w -> readable root w st) /\ (user_pages root st -> user_pages root st') /\
      takes (program_cost segs) (m_pages st) (m_pages st')
  end.
Proof.
  revert i loaded_ st. induction n as [|n IH]; intros i loaded_ st hs segs Hs Hhi Hm Hk Hh Hok Hfile Hlen Hrd; cbn [map_segments].
  { split; [|split; [done|split; [done|split; [done|split; [done|apply takes_refl]]]]].
    split; [by apply keeps_refl|]. intros w [Hv Hw]. cbn. by rewrite Hw. }
  set (ph := read_phdr (m_mem st) (phdr_addr eh image (Z.of_nat i))).
  replace (Z.of_nat i + 1) with (Z.of_nat (Datatypes.S i)) by lia. replace (i + Datatypes.S n)%nat with (Datatypes.S i + n)%nat in Hh by lia.
  assert (hs = (if loadable ph then [ph] else []) ++ headers (m_mem st) image eh (Datatypes.S i) n) as Ehs.
  { unfold hs, headers. cbn [seq map List.filter]. fold ph. by destruct (loadable ph). }
  unfold segs in *. rewrite Ehs in *. fold (loadable ph). destruct (loadable ph); cbn [app map length] in *; [|by apply IH].
  apply Forall_cons in Hok as [Ho1 Ho2]. apply Forall_cons in Hfile as [Hf1 Hf2].
  rewrite (proj2 (Z.leb_gt _ _)) by lia.
  assert (image_data R root st image (segment_of ph)) as Himg.
  { intros off Hoff. apply Hk. destruct (so_image _ _ _ Ho1) as (? & ? & _). lia. }
  pose proof (map_segment_spec R root hi image ph st Hs Hhi Hm Ho1 Himg) as H1.
  destruct (map_segment root image ph st) as [[ls st1]|msg]; cbn [outcome_bind]; [|eapply no_run_mono; [| |exact H1]; cbn [program_cost]; lia].
  destruct H1 as (A1 & Hr1 & Hc1 & Hb1 & Hu1 & T1). pose proof (ld_keeps _ _ _ _ _ A1) as K1.
  destruct (image_kept_agree R root st st1 image size K1 Hk) as [Hk1 Ha1].
  pose proof (headers_agree _ _ image size eh (Datatypes.S i) n Ha1 Hh) as Eh.
  specialize (IH (Datatypes.S i) (loaded_ ++ [ls]) st1). cbv zeta in IH. rewrite Eh in IH.
  specialize (IH (k_space _ _ _ _ K1) Hhi Hm Hk1 Hh Ho2 Hf2). rewrite length_app in IH. cbn [length] in IH. specialize (IH ltac:(lia)).
  assert (Forall (fun ls => range_ready root ls st1) (loaded_ ++ [ls])) as Hrd1.
  { apply Forall_app. split; [|by apply Forall_singleton]. eapply Forall_impl; [exact Hrd|]. intros l. apply range_ready_mono, K1. }
  specialize (IH Hrd1). destruct (map_segments n root image eh _ _ st1) as [[rs st2]|msg]; [|cbn [program_cost]; by eapply no_run_takes].
  destruct IH as (A2 & Hrd2 & Hc2 & Hb2 & Hu2 & T2).
  set (rest := map segment_of (headers (m_mem st) image eh (Datatypes.S i) n)) in *.
  assert (forall w, program_byte (m_mem st1) image rest w = program_byte (m_mem st) image rest w) as Epb.
  { intros w. apply (program_byte_keeps R root image hi rest st st1); [done| |done]. apply Forall_forall. intros s Hin off Hoff. apply Hk.
    rewrite Forall_forall in Ho2, Hf2. destruct (so_image _ _ _ (Ho2 s Hin)) as (? & ? & _). pose proof (Hf2 s Hin). cbn in *. lia. }
  split; [|split; [done|split; [|split; [auto|split; [auto|cbn [program_cost]; by eapply takes_trans]]]]].
  - eapply loaded_ext; [|eapply loaded_trans; [exact A1|exact A2|]].
    + intros w. cbn [program_byte]. unfold override. by rewrite Epb.
    + intros w Hv Hw. destruct (segment_byte (m_mem st) image (segment_of ph) w) eqn:Eg; [|done].
      destruct (Hc1 w Hv) as [_ Hmw]; congruence.
  - intros w Hv Hg. cbn [program_byte] in Hg. unfold override in Hg.
    destruct (program_byte (m_mem st) image rest w) eqn:Eg.
    + apply (Hc2 w Hv). by rewrite Epb, Eg.
    + by apply (ld_keeps _ _ _ _ _ A2), Hc1.
Qed.

Lemma protect_segments_spec R root g st0 rs st :
  loaded R root g st0 st -> Forall (fun ls => range_ready root ls st) rs ->
  exists st', protect_segments root rs st = Ok st' /\ m_pages st' = m_pages st /\ loaded R root g st0 st' /\ (forall w, readable root w st' <-> readable root w st) /\
    (user_pages root st -> user_pages root st').
Proof.
  revert st. induction rs as [|ls rs IH]; intros st A Hrd; cbn [protect_segments]; [by exists st|].
  apply Forall_cons in Hrd as [(n & Pv & Esz & F1 & F2 & Hr) Hrd]. rewrite Esz in *.
  destruct (space_protect R root n (ls_start ls) (ls_flags ls) st (k_space _ _ _ _ (ld_keeps _ _ _ _ _ A)) Pv F1 Hr) as (st1 & -> & P).
  cbn [outcome_bind]. change (0 <? 0) with false. destruct (loaded_protect _ _ _ _ _ _ _ _ _ A P) as [A1 Hiff].
  destruct (IH st1 A1) as (st' & E & Ep & A' & Hiff' & Hu').
  { eapply Forall_impl; [exact Hrd|]. intros l. apply range_ready_mono. intros w. apply Hiff. }
  exists st'. split; [done|]. split; [by rewrite Ep, (pr_pages _ _ _ _ _ _ _ P)|]. split; [done|]. split; [intros w; by rewrite Hiff', Hiff|]. intros Hu. apply Hu'. intros w Hv Hp.
  destruct (decide (ls_start ls <= w < ls_start ls + Z.of_nat n * PAGE_SIZE)) as [Hin|Hout].
  - eapply has_user_flags; [exact F2|]. by apply (pr_flags _ _ _ _ _ _ _ P).
  - rewrite (pr_rest _ _ _ _ _ _ _ P) in * by done. by apply Hu.
Qed.

(** ** The program *)

(** The check of the entry point and of the stack fails only for an entry point outside
    the program. *)
Lemma user_flag_set R root w st :
  space_ok R root st -> user_pages root st -> readable root w st ->
  virt_to_phys root w st <> 0 /\ exists f, vmm_flags root w st = Ok f /\ (Z.land f VMM_USER =? 0) = false.
Proof.
  intros Hs Hu [Hv Hm]. split; [unfold mapped in Hm; intros E; by rewrite E in Hm|].
  rewrite (mapped_present R) in Hm by done. rewrite (flags_pte st R) by apply Hs. rewrite Hm. eexists. split; [done|].
  apply Z.eqb_neq. intros Hz. apply (f_equal (fun z => Z.testbit z 2)) in Hz. rewrite !Z.land_spec, (Hu w Hv Hm) in Hz. discriminate Hz.
Qed.

Lemma prepare_entry_spec R root entry user_stack st :
  space_ok R root st -> user_pages root st -> readable root user_stack st ->
  match prepare_entry root entry user_stack st with
  | Panic msg => no_run 8 1 (m_pages st) \/ ~ readable root entry st
  | Ok (rsp0, st') => (user_va entry -> readable root entry st') /\ space_ok R root st' /\
      (forall w, readable root w st' <-> readable root w st) /\ (forall w, readable root w st -> uload root w st' = uload root w st) /\
      (forall r w, R r -> pte (m_mem st') r w = pte (m_mem st) r w) /\
      (forall x, pa_live (m_pages st) (x / PAGE_SIZE) -> pa_live (m_pages st') (x / PAGE_SIZE) /\ load8 (m_mem st') x = load8 (m_mem st) x) /\
      (forall x, rsp0 - 8 * PAGE_SIZE <= x < rsp0 -> ~ pa_live (m_pages st) (x / PAGE_SIZE) /\ pa_live (m_pages st') (x / PAGE_SIZE))
  end.
Proof.
  intros Hs Hu Hst. unfold prepare_entry. destruct (user_flag_set R root user_stack st Hs Hu Hst) as (V2 & fs & E2 & F2).
  rewrite (proj2 (Z.eqb_neq _ _) V2), orb_false_r. destruct (Z.eqb_spec (virt_to_phys root entry st) 0) as [V1|V1].
  { right. intros Hr. by destruct (user_flag_set R root entry st Hs Hu Hr). }
  rewrite (flags_pte st R root entry) by apply Hs. cbn [outcome_bind]. rewrite E2. cbn [outcome_bind]. rewrite F2, orb_false_r.
  destruct (Z.eqb_spec (Z.land (if present (pte (m_mem st) root entry) then Z.land (pte (m_mem st) root entry) (not64 PTE_ADDR_MASK) else 0) VMM_USER) 0) as [Hz|Hz].
  { right. intros Hr. destruct (user_flag_set R root entry st Hs Hu Hr) as (_ & f & E & F). rewrite (flags_pte st R root entry) in E by apply Hs.
    injection E as <-. by apply Z.eqb_neq in F. }
  destruct (pa_alloc_pages 8 (m_pages st) (m_mem st)) as [[p s] m] eqn:Ea. destruct (Z.eqb_spec p 0) as [->|Hp].
  { left. exact (no_run_failed 8 _ _ _ _ (fw_pages _ _ _ (sp_forest _ _ _ Hs)) ltac:(lia) Ea). }
  pose proof (space_alloc R root st 8 p s m Hs ltac:(lia) Ea Hp) as F. pose proof (fr_addr _ _ _ _ _ _ F) as [_ Hpb].
  assert (forall w, readable root w (mk_machine s m) <-> readable root w st) as Hiff.
  { intros w. unfold readable, mapped. by rewrite (fr_virt _ _ _ _ _ _ F). }
  split; [|split; [apply F|split; [exact Hiff|split; [apply F|split; [apply F|split]]]]].
  - intros Hv. apply Hiff. split; [done|]. unfold mapped. by rewrite (proj2 (Z.eqb_neq _ _)).
  - intros x Hx. split; by apply F.
  - change (8 *u PAGE_SIZE) with (8 * PAGE_SIZE). rewrite u64_small by (unfold word64, PAGE_SIZE; lia). intros x Hx.
    pose proof (pa_alloc_ok 8 (m_pages st) (m_mem st) p s m (fw_pages _ _ _ (sp_forest _ _ _ Hs)) ltac:(lia) Ea Hp) as Ap. pose proof (ap_aligned _ _ _ _ _ _ Ap).
    assert (p / PAGE_SIZE <= x / PAGE_SIZE < p / PAGE_SIZE + 8) as Hq by (unfold PAGE_SIZE in *; zlia).
    split; [by apply (ap_fresh _ _ _ _ _ _ Ap)|]. apply (ap_live _ _ _ _ _ _ Ap). by right.
Qed.

Lemma program_user m image segs w : Forall (segment_ok USER_STACK_BASE image) segs -> program_byte m image segs w <> None -> user_va w.
Proof.
  induction segs as [|seg segs IH]; [done|]. intros [[L1 L2 L3 _] Ho]%Forall_cons. cbn [program_byte]. unfold override.
  destruct (program_byte m image segs w); [intros _; by apply IH|]. unfold segment_byte. case_test; [|done]. intros _. bool_to_prop.
  unfold user_va, USER_BASE, USER_LIMIT, USER_STACK_BASE, USER_STACK_TOP in *. lia.
Qed.

(** Both passes and the stack. *)
Lemma program_mapped R root image size eh segs st :
  space_ok R root st -> (forall w, ~ readable root w st) -> image_kept R root st image size ->
  headers_in eh image size (Z.to_nat (e_phnum eh)) -> segs = map segment_of (headers (m_mem st) image eh 0 (Z.to_nat (e_phnum eh))) ->
  (length segs <= 8)%nat -> Forall (segment_ok USER_STACK_BASE image) segs -> Forall (fun s => seg_file_offset s + seg_file_size s <= size) segs ->
  match map_segments (Z.to_nat (e_phnum eh)) root image eh 0 [] st with
  | Panic _ => out_of_pages (program_cost segs + stack_cost) (m_pages st)
  | Ok (rs, st1) => exists st2, protect_segments root rs st1 = Ok st2 /\
      match map_user_stack root st2 with
      | Panic _ => out_of_pages (program_cost segs + stack_cost) (m_pages st)
      | Ok (stack, st3) => stack = USER_STACK_TOP - 16 /\ takes (program_cost segs + stack_cost) (m_pages st) (m_pages st3) /\ keeps R root st st3 /\ user_pages root st3 /\
          (forall w, user_va w -> program_byte (m_mem st) image segs w <> None \/ USER_STACK_BASE <= w < USER_STACK_TOP -> readable root w st3) /\
          (forall w, readable root w st3 -> uload root w st3 = default 0 (program_byte (m_mem st) image segs w))
      end
  end.
Proof.
  intros Hs Hempty Hk Hh Esegs Hlen Hseg Hfile.
  pose proof (map_segments_spec R root USER_STACK_BASE image size eh (Z.to_nat (e_phnum eh)) 0 [] st Hs ltac:(discriminate) eq_refl Hk Hh) as Hm.
  cbv zeta in Hm. rewrite <- Esegs in Hm. specialize (Hm Hseg Hfile).
  assert (length (headers (m_mem st) image eh 0 (Z.to_nat (e_phnum eh))) = length segs) as El by (rewrite Esegs; by rewrite length_map).
  rewrite El in Hm. specialize (Hm ltac:(cbn; lia) (Forall_nil_2 _)). change (Z.of_nat 0) with 0 in Hm.
  destruct (map_segments _ root image eh 0 [] st) as [[rs st1]|msg]; [|eapply no_run_mono; [| |exact Hm]; lia].
  destruct Hm as (A1 & Hrd & Hc & Hb & Hu & T1).
  destruct (protect_segments_spec R root _ st rs st1 A1 Hrd) as (st2 & E & Ep & A2 & Hiff & Hu2). rewrite <- Ep in T1. exists st2. split; [done|].
  assert (user_pages root st) as Hu0.
  { intros w Hv Hpr. destruct (Hempty w). split; [done|]. by rewrite (mapped_present R). }
  specialize (Hu2 (Hu Hu0)).
  assert (forall w, readable root w st2 -> USER_STACK_BASE <= w -> readable root w st) as Hb2 by (intros w Hw; apply Hb, Hiff, Hw).
  pose proof (stack_added R root _ _ st st2 A2 T1 Hempty (fun w Hv Hg => proj2 (Hiff w) (Hc w Hv Hg)) Hb2) as Hst.
  unfold map_user_stack. destruct stack_pages as [Pv Pe].
  pose proof (map_all_user false (page_loop USER_STACK_BASE USER_STACK_TOP) R root USER_STACK_BASE (Z.lor (Z.lor VMM_USER VMM_WRITE) VMM_NX) st2) as Hu3.
  destruct (map_all _ _ _ _ _ st2) as [[[] st3]|msg]; cbn [outcome_bind]; [|done..]. destruct Hst as (K3 & Hmap & Hbytes & HT). split; [done|]. split; [done|]. split; [done|]. split; [|done].
  apply (Hu3 st3 (k_space _ _ _ _ (ld_keeps _ _ _ _ _ A2)) Pv stack_flags_ok eq_refl); [|done|done].
  rewrite Pe. intros w Hw Hr. apply (Hempty w), (Hb2 w Hr). lia.
Qed.

(** What the kernel has prepared when it enters ring 3. *)
Record init_ready R (proc : Process) (image : Z) (segs : list UserElfSegmentInfo) st (proc' : Process) (entry stack rsp0 : Z) st' : Prop := {
  ir_proc : proc' = set_user_stack stack (set_user_segment_count (Z.of_nat (length segs)) (set_user_entry entry proc));
  ir_entry : user_va entry -> readable (pml4_phys (p_address_space proc)) entry st';
  ir_stack : stack = USER_STACK_TOP - 16;
  ir_space : space_ok R (pml4_phys (p_address_space proc)) st';
  ir_mapped : forall w, user_va w -> program_byte (m_mem st) image segs w <> None \/ USER_STACK_BASE <= w < USER_STACK_TOP ->
    readable (pml4_phys (p_address_space proc)) w st';
  ir_bytes : forall w, readable (pml4_phys (p_address_space proc)) w st' ->
    uload (pml4_phys (p_address_space proc)) w st' = default 0 (program_byte (m_mem st) image segs w);
  ir_others : forall r w, R r -> r <> pml4_phys (p_address_space proc) -> pte (m_mem st') r w = pte (m_mem st) r w;
  ir_kept : forall x, pa_live (m_pages st) (x / PAGE_SIZE) -> ~ in_table (m_mem st) R x ->
    pa_live (m_pages st') (x / PAGE_SIZE) /\ load8 (m_mem st') x = load8 (m_mem st) x;
  ir_rsp0 : forall x, rsp0 - 8 * PAGE_SIZE <= x < rsp0 ->
    ~ kdata R (pml4_phys (p_address_space proc)) st x /\ pa_live (m_pages st') (x / PAGE_SIZE);
}.

(** C10: the first program.  On an image that is kernel data, whose table of headers lies
    in it and whose segments lie in user memory below the stack, the kernel stops only
    because the image is not an executable, because fewer pages are free than four for
    each page of its segments and its stack, because that many pages leave no eight in
    a row, or because the entry point is in no segment.  Otherwise it enters ring 3 at
    the entry point of the file with a program that sees exactly the bytes of its
    segments and zeros elsewhere and a stack that is mapped; the tables of the other
    address spaces and every byte in use that is no table are as before, and interrupts
    arrive on eight pages that held no kernel data. *)
Theorem user_init_load_correct R proc image size st :
  let root := pml4_phys (p_address_space proc) in
  let m := m_mem st in
  let eh := read_ehdr m image in
  space_ok R root st -> (forall w, ~ readable root w st) -> 0 < image ->
  image_kept R root st image size -> headers_in eh image size (Z.to_nat (e_phnum eh)) ->
  (forall segs, elf_segments m image size = Some segs -> Forall (segment_ok USER_STACK_BASE image) segs) ->
  match user_init_load proc image size st with
  | Panic _ => valid_elf m image size = false \/ elf_segments m image size = None \/
      exists segs, elf_segments m image size = Some segs /\
        (out_of_pages (program_cost segs + stack_cost) (m_pages st) \/ no_run 8 (program_cost segs + stack_cost + 1) (m_pages st) \/
         program_byte m image segs (e_entry eh) = None)
  | Ok (proc', entry, stack, rsp0, st') => entry = e_entry eh /\
      exists segs, elf_segments m image size = Some segs /\ init_ready R proc image segs st proc' entry stack rsp0 st'
  end.
Proof.
  intros root m eh Hs Hempty Hi Hk Hh Hseg. unfold user_init_load. fold m root eh.
  destruct (valid_elf m image size); cbn [negb]; [|by left]. pose proof (elf_probe_spec m image size no_info) as Hp.
  destruct (elf_probe_user_image m image size no_info) as [err info].
  destruct (elf_segments m image size) as [segs|] eqn:Eseg; [|subst err; right; by left].
  destruct Hp as (-> & Hlen & -> & Hfits). change (0 <? 0) with false. cbv iota zeta. cbn [ei_segment_count ei_entry].
  change (pml4_phys (p_address_space (set_user_segment_count _ (set_user_entry _ proc)))) with root.
  specialize (Hseg segs eq_refl).
  assert (segs = map segment_of (headers m image eh 0 (Z.to_nat (e_phnum eh)))) as Esegs.
  { unfold elf_segments in Eseg. destruct (_ && _); [|discriminate]. by injection Eseg as <-. }
  assert (Forall (fun s => seg_file_offset s + seg_file_size s <= size) segs) as Hfile.
  { apply Forall_forall. intros s Hin. rewrite Forall_forall in Hfits, Hseg. destruct (Hfits s Hin) as [Hu _].
    destruct (so_image _ _ _ (Hseg s Hin)) as (_ & Hoff & Hend). pose proof (so_file _ _ _ (Hseg s Hin)).
    rewrite u64_small in Hu by (unfold word64; lia). done. }
  pose proof (program_mapped R root image size eh segs st Hs Hempty Hk Hh Esegs (proj2 Hlen) Hseg Hfile) as Hm.
  destruct (map_segments _ root image eh 0 [] st) as [[rs st1]|msg]; cbn [outcome_bind]; [|right; right; exists segs; split; [done|by left]].
  destruct Hm as (st2 & -> & Hm). cbn [outcome_bind].
  destruct (map_user_stack root st2) as [[stack st3]|msg]; cbn [outcome_bind]; [|right; right; exists segs; split; [done|by left]].
  destruct Hm as (-> & T3 & K3 & Hus & Hmap & Hbytes). fold m in Hmap, Hbytes. set (g := program_byte m image segs) in *.
  assert (readable root (USER_STACK_TOP - 16) st3) as Hst.
  { apply Hmap; [|right]; unfold user_va, USER_BASE, USER_LIMIT, USER_STACK_BASE, USER_STACK_TOP; lia. }
  pose proof (prepare_entry_spec R root (e_entry eh) (USER_STACK_TOP - 16) st3 (k_space _ _ _ _ K3) Hus Hst) as He.
  destruct (prepare_entry root (e_entry eh) (USER_STACK_TOP - 16) st3) as [[rsp0 st4]|msg]; cbn [outcome_bind].
  - destruct He as (He1 & He2 & He3 & He4 & He5 & He7 & He6). split; [done|]. exists segs. split; [done|]. split; fold root m g.
    + done.
    + done.
    + done.
    + done.
    + intros w Hv Hw. by apply He3, Hmap.
    + intros w Hw%He3. rewrite He4 by done. by apply Hbytes.
    + intros r w Hr Hne. rewrite He5 by done. by apply K3.
    + intros x Hl Ht. destruct (empty_kept R root st st3 x Hs Hempty K3 Hl Ht) as [Hl3 E3]. destruct (He7 x Hl3) as [Hl4 E4]. split; [done|]. by rewrite E4.
    + intros x Hx. destruct (He6 x Hx) as [Hx1 Hx2]. split; [|done]. intros Hkd. by apply (k_kdata _ _ _ _ K3) in Hkd as [[Hl _] _].
  - right. right. exists segs. split; [done|]. fold g. right.
    destruct He as [He|He]; [left; by eapply no_run_takes|right].
    destruct (g (e_entry eh)) as [b|] eqn:Eg; [|done]. destruct He.
    apply Hmap; [|left; congruence]. apply (program_user m image segs (e_entry eh) Hseg). fold g. congruence.
Qed.
End Init.

(** ** Example *)

(** The file of [demo_elf] in kernel memory. *)
Definition demo_init_st : machine pmm_state := demo_bytes_st (load_bytes demo_elf 0x200000 128).

Lemma demo_init_segments : elf_segments (m_mem demo_init_st) demo_image 128 =
  Some [{| seg_vaddr := USER_BASE; seg_file_offset := 120; seg_mem_size := 16; seg_file_size := 8; seg_flags := 5 |}].
Proof. vm_compute. reflexivity. Qed.

Lemma demo_init_runs :
  match user_init_load demo_proc demo_image 128 demo_init_st with
  | Ok (_, entry, _, _, st) => (entry =? USER_BASE) && (uload vmm_root (USER_BASE + 2) st =? 3) | Panic _ => false end = true.
Proof. vm_compute. reflexivity. Qed.

Lemma demo_init_segments_ok segs :
  elf_segments (m_mem demo_init_st) demo_image 128 = Some segs -> Forall (segment_ok USER_STACK_BASE demo_image) segs.
Proof.
  rewrite demo_init_segments. intros [= <-]. apply Forall_singleton.
  split; cbn; unfold USER_BASE, USER_STACK_BASE, USER_STACK_TOP, demo_image; lia.
Qed.

Lemma demo_init_headers : headers_in (read_ehdr (m_mem demo_init_st) demo_image) demo_image 128 1.
Proof. intros k Hk. replace k with 0%nat by lia. vm_compute. split; discriminate. Qed.

Lemma user_init_load_correct_witness : exists proc' stack rsp0 st' segs,
  user_init_load demo_proc demo_image 128 demo_init_st = Ok (proc', e_entry (read_ehdr (m_mem demo_init_st) demo_image), stack, rsp0, st') /\
  init_ready (eq vmm_root) demo_proc demo_image segs demo_init_st proc' (e_entry (read_ehdr (m_mem demo_init_st) demo_image)) stack rsp0 st'.
Proof.
  assert (Z.of_nat (length (load_bytes demo_elf 0x200000 128)) <= 8192) as Hlen by (vm_compute; discriminate).
  pose proof (user_init_load_correct (eq vmm_root) demo_proc demo_image 128 demo_init_st (proj1 (demo_bytes_space _ Hlen))
    (demo_bytes_empty _ Hlen) eq_refl) as Hc.
  pose proof demo_init_runs as Hrun. cbv zeta in Hc.
  assert (image_kept (eq vmm_root) vmm_root demo_init_st demo_image 128) as Hk.
  { intros x Hx. replace x with (demo_image + (x - demo_image)) by lia. apply (demo_bytes_data _ Hlen). lia. }
  specialize (Hc Hk demo_init_headers demo_init_segments_ok).
  destruct (user_init_load demo_proc demo_image 128 demo_init_st) as [[[[[p e] stack] rsp0] st']|msg]; [|discriminate Hrun].
  destruct Hc as (-> & segs & _ & Hr). exists p, stack, rsp0, st', segs. split; [reflexivity|exact Hr].
Defined.
