(* ===== verification/OreImage.v ===== *)
(** The OreImage loader, verified (kernel/syscall.c,
    [load_ore_image_into_process]; the definitions are in Loader.v).

    An OreImage has a header, relocations, text and data; the loader maps text,
    data and bss at fixed addresses, copies, relocates, protects and maps the
    stack.  The theorem states the memory the program starts with. *)
From stdpp Require Import base numbers list gmap strings.
From Stdlib Require Import ZArith Lia.
From S2P Require Import Prelude Memory PageAllocator Pmm Vmm Process Usermem Elf Loader.

Section OreImage.
Context {S : Type} `{PageAllocatorOk S}.
Implicit Types (st : machine S) (R : Z -> Prop).

(** ** Relocations *)

Lemma read_reloc_keeps R root st st' a :
  keeps R root st st' -> (forall off, 0 <= off < sizeof_OreImageReloc -> kdata R root st (a + off)) ->
  read_ore_reloc (m_mem st') a = read_ore_reloc (m_mem st) a.
Proof.
  intros K Hd. unfold sizeof_OreImageReloc in Hd.
  assert (forall x, a <= x < a + 24 -> load8 (m_mem st') x = load8 (m_mem st) x) as Hl.
  { intros x Hx. replace x with (a + (x - a)) by lia. apply (k_kdata _ _ _ _ K), Hd. lia. }
  unfold read_ore_reloc, load64, load32.
  f_equal; apply load_le_agree; intros x Hx; apply Hl; lia.
Qed.

Lemma relocs_at_keeps R root st st' a i n :
  keeps R root st st' ->
  (forall off, Z.of_nat i * sizeof_OreImageReloc <= off < Z.of_nat (i + n) * sizeof_OreImageReloc ->
     kdata R root st (a + off)) ->
  relocs_at (m_mem st') a i n = relocs_at (m_mem st) a i n.
Proof.
  intros K Hd. unfold relocs_at. apply map_ext_in. intros k Hk%in_seq.
  apply (read_reloc_keeps R root); [done|]. intros off Hoff. rewrite <- Z.add_assoc. apply Hd.
  unfold sizeof_OreImageReloc in *. lia.
Qed.

Lemma reloc_loop_spec R root relocs tb db lo hi n i st :
  space_ok R root st -> (forall a, lo <= a < hi -> readable root a st) ->
  (forall off, Z.of_nat i * sizeof_OreImageReloc <= off < Z.of_nat (i + n) * sizeof_OreImageReloc ->
     kdata R root st (relocs + off)) ->
  Forall (reloc_fits tb db lo hi) (relocs_at (m_mem st) relocs i n) ->
  exists st', reloc_loop n root relocs tb db (Z.of_nat i) st = (0, st') /\ keeps R root st st' /\
    uwrites R root (relocs_byte tb db (relocs_at (m_mem st) relocs i n)) st st'.
Proof.
  revert i st. induction n as [|n IH]; intros i st Hs Hr Hd Hf; cbn [reloc_loop].
  { exists st. split_and!; [done|by apply keeps_refl|by apply uwrites_refl]. }
  unfold relocs_at in Hf |- *. cbn [seq map] in *. apply Forall_cons in Hf as [Hf1 Hf2].
  fold (relocs_at (m_mem st) relocs (Datatypes.S i) n) in *.
  destruct (apply_reloc_spec tb db R root lo hi _ st Hs Hr Hf1) as (st1 & -> & K1 & U1).
  change (0 <? 0) with false. cbv iota.
  assert (forall off, Z.of_nat (Datatypes.S i) * sizeof_OreImageReloc <= off <
    Z.of_nat (Datatypes.S i + n) * sizeof_OreImageReloc -> kdata R root st (relocs + off)) as Hd'.
  { intros off Hoff. apply Hd. unfold sizeof_OreImageReloc in *. lia. }
  pose proof (relocs_at_keeps R root st st1 relocs (Datatypes.S i) n K1 Hd') as Er.
  replace (Z.of_nat i + 1) with (Z.of_nat (Datatypes.S i)) by lia.
  destruct (IH (Datatypes.S i) st1) as (st2 & E2 & K2 & U2).
  - apply K1.
  - intros a Ha. by apply K1, Hr.
  - intros off Hoff. by apply (k_kdata _ _ _ _ K1), Hd'.
  - by rewrite Er.
  - exists st2. split_and!; [done|by eapply keeps_trans|]. rewrite Er in U2.
    eapply uwrites_trans; [exact U1|exact U2].
Qed.

(** ** Steps of a load *)

(** Bytes [g] are now in place, all of them mapped. *)
Record places R root (g : Z -> option Z) st st' : Prop := {
  pl_loaded : loaded R root g st st';
  pl_mapped : forall w, user_va w -> g w <> None -> readable root w st';
}.

Lemma places_trans R root g1 g2 st1 st2 st3 :
  places R root g1 st1 st2 -> places R root g2 st2 st3 -> places R root (override g2 g1) st1 st3.
Proof.
  intros [A1 A2] [B1 B2]. split.
  - apply (loaded_trans _ _ _ _ _ _ _ A1 B1). intros w Hv Hm. destruct (g1 w) eqn:E; [|done].
    destruct (A2 w Hv) as [_ Hm']; congruence.
  - intros w Hv Hg. unfold override in Hg. destruct (g2 w) eqn:E.
    + apply B2; [done|congruence].
    + by apply (ld_keeps _ _ _ _ _ B1), A2.
Qed.

Lemma places_ext R root g g' st st' :
  (forall w, g w = g' w) -> places R root g st st' -> places R root g' st st'.
Proof. intros E [A B]. split; [by eapply loaded_ext|]. intros w Hv. rewrite <- E. by apply B. Qed.

Lemma extends_places R root lo hi st st' : extends R root lo hi st st' -> places R root (fun _ => None) st st'.
Proof.
  intros X. split; [split; [apply X|]|done]. intros w Hw. destruct (mapped root w st) eqn:E.
  - apply X. split; [apply Hw|done].
  - apply (ex_new _ _ _ _ _ _ X w Hw). intros [_ Hm]. congruence.
Qed.

Lemma uwrites_places R root g st st' :
  keeps R root st st' -> uwrites R root g st st' ->
  (forall w, g w <> None -> readable root w st) -> places R root g st st'.
Proof.
  intros K U Hg. split; [split; [done|]|intros w _ Hw; by apply K, Hg].
  intros w [Hv Hm]. rewrite (uw_mapped _ _ _ _ _ _ U) in Hm. rewrite Hm. by apply U.
Qed.

Lemma protected_places R root va n flags st st' :
  protected_range R root va n flags st st' -> places R root (fun _ => None) st st'.
Proof.
  intros P. split; [split; [apply P|]|done]. intros w [Hv Hm].
  assert (mapped root w st = true) as Hm0 by (unfold mapped in *; by rewrite <- (pr_virt _ _ _ _ _ _ _ P)).
  rewrite Hm0. by apply P.
Qed.

(** A new page range lies where nothing was readable. *)
Lemma extends_out R root lo hi st st' w :
  extends R root lo hi st st' -> readable root w st' -> ~ (lo <= w < hi) -> readable root w st.
Proof.
  intros X Hw Hn. destruct (readable_dec root w st) as [|Hd]; [done|].
  by destruct (ex_new _ _ _ _ _ _ X w Hw Hd).
Qed.

(** What mapping the pages of [lo, hi) can take. *)
Definition pages_cost (lo hi : Z) : nat := 4 * Z.to_nat ((hi - lo) / PAGE_SIZE).

Lemma map_zeroed_spec R root start size flags st :
  space_ok R root st -> start mod PAGE_SIZE = 0 -> USER_BASE <= start -> 0 < size ->
  start + size + PAGE_SIZE <= USER_LIMIT -> flags_ok (Z.lor flags VMM_WRITE) ->
  let hi := (start + size + 4095) / PAGE_SIZE * PAGE_SIZE in
  match map_zeroed_user_pages root start size flags st with
  | Ok (r, st') =>
      (r = 0 /\ extends R root start hi st st' /\ (forall w, start <= w < hi -> readable root w st') /\
       takes (pages_cost start hi) (m_pages st) (m_pages st')) \/
      (r = - ORE_ENOMEM /\ keeps R root st st' /\ out_of_pages (pages_cost start hi) (m_pages st))
  | Panic _ => out_of_pages (pages_cost start hi) (m_pages st)
  end.
Proof.
  intros Hs Hm Hb Hsz Hl Hfl hi. unfold map_zeroed_user_pages, USER_BASE, USER_LIMIT, PAGE_SIZE in *.
  rewrite (u64_small (start + size)) by (unfold word64; lia).
  rewrite align_down_local_eq, align_up_local_eq by (unfold word64; lia). fold hi.
  replace (start / PAGE_SIZE * PAGE_SIZE) with start by (unfold PAGE_SIZE; clear - Hm; zlia).
  set (n := page_loop start _).
  assert (start + Z.of_nat n * 4096 = hi) as En.
  { unfold n, hi, page_loop, PAGE_SIZE. clear - Hm Hsz. rewrite Z2Nat.id by zlia. zlia. }
  assert (pages_cost start hi = (4 * n)%nat) as ->.
  { unfold pages_cost. rewrite <- En. unfold PAGE_SIZE. f_equal. rewrite <- (Nat2Z.id n) at 2. f_equal. clear. zlia. }
  assert (pages_va n start) as Pv.
  { unfold pages_va, USER_BASE, USER_LIMIT, PAGE_SIZE. split_and!; [lia|done|]. rewrite En. unfold hi. clear - Hl. zlia. }
  pose proof (map_missing_spec true n R root start (Z.lor flags VMM_WRITE) st Hs Pv Hfl) as Hmap.
  unfold PAGE_SIZE in Hmap. rewrite En in Hmap.
  change ((start + size + 4095) / PAGE_SIZE * PAGE_SIZE) with hi in n. fold n.
  destruct (map_missing _ _ _ _ _ _) as [[[] st']|msg]; cbn [outcome_bind mapping] in *; [| |done|done].
  - left. destruct Hmap as (X & Hr & T). split; [done|]. split; [done|]. split; [done|exact T].
  - right. destruct Hmap as [K Ho]. split; [done|]. split; [done|exact Ho].
Qed.

(** ** The header *)

Definition ore_data_base (hdr : OreImageHeader) : Z := (USER_BASE + oi_text_size hdr + 4095) / PAGE_SIZE * PAGE_SIZE.
Definition ore_span (hdr : OreImageHeader) : Z :=
  if oi_data_size hdr + oi_bss_size hdr =? 0 then 1 else oi_data_size hdr + oi_bss_size hdr.
Definition ore_end (hdr : OreImageHeader) : Z := (ore_data_base hdr + ore_span hdr + 4095) / PAGE_SIZE * PAGE_SIZE.

(** What an accepted header guarantees. *)
Record ore_layout (hdr : OreImageHeader) (len : Z) : Prop := {
  ol_hs : 56 <= oi_header_size hdr <= 4096;
  ol_text : 0 < oi_text_size hdr <= 262144;
  ol_data : 0 <= oi_data_size hdr <= 262144;
  ol_bss : 0 <= oi_bss_size hdr <= 262144;
  ol_count : 0 <= oi_reloc_count hdr <= 256;
  ol_entry : 0 <= oi_entry hdr < oi_text_size hdr;
  ol_text_off : ore_text_off hdr = oi_header_size hdr + 24 * oi_reloc_count hdr;
  ol_data_off : ore_data_off hdr = ore_text_off hdr + oi_text_size hdr;
  ol_len : ore_data_off hdr + oi_data_size hdr <= len;
}.

Lemma ore_header_layout m image len :
  mem_ok m -> ore_header_ok (read_ore_header m image) len = true -> ore_layout (read_ore_header m image) len.
Proof.
  intros Hm Hok. set (hdr := read_ore_header m image) in *.
  assert (word64 (oi_entry hdr) /\ word64 (oi_text_size hdr) /\ word64 (oi_data_size hdr) /\
    word64 (oi_bss_size hdr) /\ word64 (oi_reloc_count hdr) /\ word32 (oi_header_size hdr)) as (B1 & B2 & B3 & B4 & B5 & B6).
  { unfold hdr; cbn. split_and!; (by apply load64_bound) || by apply load32_bound. }
  clearbody hdr. unfold ore_header_ok, sizeof_OreImageHeader in Hok.
  repeat (apply andb_true_iff in Hok as [Hok ?]). 
  repeat match goal with H : negb (_ || _) = true |- _ => apply negb_true_iff in H; bool_to_prop end.
  repeat match goal with H : negb _ = true |- _ => apply negb_true_iff in H; bool_to_prop end.
  assert (ore_text_off hdr = oi_header_size hdr + 24 * oi_reloc_count hdr) as E1.
  { unfold ore_text_off, sizeof_OreImageReloc. unfold word64, word32 in *.
    rewrite (u64_small (oi_reloc_count hdr * 24)) by (unfold word64; lia). rewrite u64_small by (unfold word64; lia). lia. }
  assert (ore_data_off hdr = ore_text_off hdr + oi_text_size hdr) as E2.
  { unfold ore_data_off. unfold word64, word32 in *. rewrite E1. apply u64_small. unfold word64. lia. }
  unfold word64, word32 in *. rewrite (u64_small (ore_data_off hdr + _)) in * by (unfold word64; lia).
  split; lia.
Qed.

(** The image's bytes at their addresses; bss is what is left. *)
Definition ore_byte (m : mem) (image : Z) (hdr : OreImageHeader) (w : Z) : option Z :=
  override (fill (ore_data_base hdr) 0 (Z.to_nat (oi_data_size hdr))
              (fun off => load8 m (image + ore_data_off hdr + off)))
    (fill USER_BASE 0 (Z.to_nat (oi_text_size hdr)) (fun off => load8 m (image + ore_text_off hdr + off))) w.

Lemma ore_addresses hdr len :
  ore_layout hdr len ->
  align_up_local (USER_BASE +u oi_text_size hdr) = ore_data_base hdr /\
  USER_BASE < ore_data_base hdr /\ ore_data_base hdr mod PAGE_SIZE = 0 /\
  USER_BASE + oi_text_size hdr <= ore_data_base hdr /\
  ore_data_base hdr + oi_data_size hdr <= ore_end hdr /\ ore_data_base hdr < ore_end hdr /\
  ore_end hdr + PAGE_SIZE <= USER_STACK_BASE /\ 0 < ore_span hdr <= 524288 /\
  (let t := oi_data_size hdr +u oi_bss_size hdr in (if t =? 0 then 1 else t) = ore_span hdr) /\
  USER_BASE + align_up_local (oi_text_size hdr) = ore_data_base hdr /\
  ore_data_base hdr + align_up_local (ore_span hdr) = ore_end hdr.
Proof.
  intros [L1 L2 L3 L4 L5 L6 L7 L8 L9].
  assert (0 < ore_span hdr <= 524288 /\ oi_data_size hdr <= ore_span hdr) as [Hsp Hds]
    by (unfold ore_span; case_test; bool_to_prop; lia).
  assert (let t := oi_data_size hdr +u oi_bss_size hdr in (if t =? 0 then 1 else t) = ore_span hdr) as Et.
  { unfold ore_span. rewrite (u64_small (oi_data_size hdr + _)) by (unfold word64; lia). done. }
  unfold ore_end, ore_data_base in *. revert Et Hsp Hds. generalize (ore_span hdr). intros sp Et Hsp Hds.
  rewrite (u64_small (USER_BASE + _)) by (unfold USER_BASE, word64; lia).
  rewrite !align_up_local_eq by (unfold USER_BASE; lia).
  unfold USER_BASE, PAGE_SIZE, USER_STACK_BASE, USER_STACK_TOP. clear - L2 L3 Hsp Hds Et.
  split_and!; (exact Et || zlia).
Qed.

(** ** The copies *)

Lemma fill_range va n f w : fill va 0 n f w <> None -> va <= w < va + Z.of_nat n.
Proof. unfold fill. rewrite Z.add_0_r. destruct (_ && _) eqn:E; [|done]. bool_to_prop. lia. Qed.

Lemma fill_nil va i f w : fill va i 0 f w = None.
Proof. unfold fill. cmp_cases. Qed.

Lemma copy_phys_spec R root va src size st :
  space_ok R root st -> 0 <= va -> 0 <= src -> 0 <= size -> src + size <= 18446744073709551616 ->
  (forall w, va <= w < va + size -> readable root w st) ->
  (forall off, 0 <= off < size -> kdata R root st (src + off)) ->
  exists st', copy_to_user_phys root va src size st = (0, st') /\
    places R root (fill va 0 (Z.to_nat size) (fun off => load8 (m_mem st) (src + off))) st st' /\
    (forall w, mapped root w st' = mapped root w st) /\ m_pages st' = m_pages st.
Proof.
  intros Hs Hva Hsrc Hsz Hb Hr Hd. unfold copy_to_user_phys.
  pose proof (poke_loop_spec (Z.to_nat size) R root va 0 (fun off st => load8 (m_mem st) (src +u off))
    (fun off => load8 (m_mem st) (src + off)) st Hs Hva ltac:(lia)) as Hp. rewrite Z2Nat.id in Hp by done.
  destruct (poke_loop _ _ _ _ _ _) as [ok st']. destruct Hp as (-> & K & U).
  { intros w Hw. apply Hr. lia. }
  { intros off st'' Hoff K. rewrite u64_small by (unfold word64; lia).
    destruct (k_kdata _ _ _ _ K _ (Hd off ltac:(lia))) as [_ ->]. split; [done|]. apply (sp_mem _ _ _ Hs). }
  exists st'. split_and!; [done| |intros w; by apply (uw_mapped _ _ _ _ _ _ U)|apply U].
  apply uwrites_places; [done..|]. intros w Hw%fill_range. apply Hr. lia.
Qed.

Lemma fill_keeps R root st st' va n src w :
  keeps R root st st' -> (forall off, 0 <= off < Z.of_nat n -> kdata R root st (src + off)) ->
  fill va 0 n (fun off => load8 (m_mem st') (src + off)) w =
  fill va 0 n (fun off => load8 (m_mem st) (src + off)) w.
Proof.
  intros K Hd. unfold fill. case_test; [|done]. f_equal. bool_to_prop. apply (k_kdata _ _ _ _ K), Hd. lia.
Qed.

Lemma relocs_byte_range tb db lo hi rs w :
  Forall (reloc_fits tb db lo hi) rs -> relocs_byte tb db rs w <> None -> lo <= w < hi.
Proof.
  induction rs as [|r rs IH]; intros Hf; cbn [relocs_byte]; [done|]. apply Forall_cons in Hf as [Hf1 Hf2].
  unfold override. destruct (relocs_byte tb db rs w) eqn:E; [intros _; apply IH; [done|congruence]|].
  unfold bytes_at. destruct (Z.leb_spec (reloc_place tb db r) w) as [Hle|]; [|done]. intros Hn.
  destruct (reloc_bytes tb db r !! Z.to_nat (w - reloc_place tb db r)) eqn:El; [|done].
  apply lookup_lt_Some in El. destruct Hf1 as (F1 & F2 & _). lia.
Qed.

(** Text, data and bss are in place after the five filling steps; the outcome
    of one of the two mapping steps may be a lack of memory. *)
Lemma ore_copy_spec R root image len st hdr st2 :
  ore_layout hdr len -> 0 <= image -> image + len < 18446744073709551616 ->
  (forall off, 0 <= off < len -> kdata R root st (image + off)) ->
  places R root (fun _ => None) st st2 ->
  (forall w, USER_BASE <= w < ore_end hdr -> readable root w st2) ->
  exists st3 st4, copy_to_user_phys root USER_BASE (image +u ore_text_off hdr) (oi_text_size hdr) st2 = (0, st3) /\
    (if oi_data_size hdr =? 0 then (0, st3)
     else copy_to_user_phys root (ore_data_base hdr) (image +u ore_data_off hdr) (oi_data_size hdr) st3) = (0, st4) /\
    places R root (ore_byte (m_mem st) image hdr) st st4 /\
    (forall w, mapped root w st4 = mapped root w st2) /\ m_pages st4 = m_pages st2.
Proof.
  intros L Hi Hil Hd P Hr. destruct (ore_addresses hdr len L) as (_ & A2 & A3 & A4 & A5 & A6 & _).
  pose proof L as [L1 L2 L3 L4 L5 L6 L7 L8 L9]. pose proof (ld_keeps _ _ _ _ _ (pl_loaded _ _ _ _ _ P)) as K2.
  rewrite (u64_small (image + ore_text_off hdr)), (u64_small (image + ore_data_off hdr)) by (unfold word64; lia).
  assert (forall a off, 0 <= a -> 0 <= off -> a + off < len -> kdata R root st (image + a + off)) as Hd'.
  { intros a off H1 H2 H3. rewrite <- Z.add_assoc. apply Hd. lia. }
  destruct (copy_phys_spec R root USER_BASE (image + ore_text_off hdr) (oi_text_size hdr) st2
    (k_space _ _ _ _ K2) ltac:(discriminate) ltac:(lia) ltac:(lia) ltac:(lia)) as (st3 & -> & P3 & M3 & E3).
  { intros w Hw. apply Hr. lia. }
  { intros off Hoff. apply (k_kdata _ _ _ _ K2), Hd'; lia. }
  pose proof (places_trans _ _ _ _ _ _ _ P P3) as P03.
  pose proof (ld_keeps _ _ _ _ _ (pl_loaded _ _ _ _ _ P03)) as K3.
  assert (forall w, fill USER_BASE 0 (Z.to_nat (oi_text_size hdr)) (fun off => load8 (m_mem st2) (image + ore_text_off hdr + off)) w
    = fill USER_BASE 0 (Z.to_nat (oi_text_size hdr)) (fun off => load8 (m_mem st) (image + ore_text_off hdr + off)) w) as Et.
  { intros w. apply (fill_keeps R root st st2); [done|]. intros off Hoff. apply Hd'; lia. }
  exists st3. destruct (Z.eqb_spec (oi_data_size hdr) 0) as [E0|E0].
  - exists st3. split_and!; [done|done| |done|done]. eapply places_ext; [|exact P03]. intros w. unfold ore_byte, override.
    rewrite E0, Et. change (Z.to_nat 0) with O. rewrite fill_nil. by destruct (fill _ _ _ _ w).
  - destruct (copy_phys_spec R root (ore_data_base hdr) (image + ore_data_off hdr) (oi_data_size hdr) st3
      (k_space _ _ _ _ K3) ltac:(unfold USER_BASE in *; lia) ltac:(lia) ltac:(lia) ltac:(lia)) as (st4 & -> & P4 & M4 & E4).
    { intros w Hw. apply (ld_keeps _ _ _ _ _ (pl_loaded _ _ _ _ _ P3)), Hr. lia. }
    { intros off Hoff. apply (k_kdata _ _ _ _ K3), Hd'; lia. }
    exists st4. split_and!; [done|done| |intros w; by rewrite M4|by rewrite E4].
    eapply places_ext; [|exact (places_trans _ _ _ _ _ _ _ P03 P4)].
    intros w. unfold ore_byte, override at 1 2 3. rewrite Et.
    rewrite (fill_keeps R root st st3) by (done || (intros off Hoff; apply Hd'; lia)).
    destruct (fill (ore_data_base hdr) _ _ _ w); [done|]. by destruct (fill USER_BASE _ _ _ w).
Qed.

(** ** The whole load *)

Lemma text_flags_ok : flags_ok VMM_USER /\ flags_ok (Z.lor VMM_USER VMM_WRITE) /\
  flags_ok (Z.lor (Z.lor VMM_USER VMM_NX) VMM_WRITE).
Proof. split_and!; (split; [split; [discriminate|reflexivity]|reflexivity]). Qed.

(** Protecting the pages of an aligned mapped range. *)
Lemma protect_pages_places R root va size flags st :
  space_ok R root st -> flags_ok flags -> USER_BASE <= va -> va mod PAGE_SIZE = 0 ->
  size mod PAGE_SIZE = 0 -> 0 <= size -> va + size <= USER_LIMIT ->
  (forall w, va <= w < va + size -> readable root w st) ->
  exists st', vmm_protect_in root va size flags st = Ok (0, st') /\ places R root (fun _ => None) st st' /\
    (forall w, readable root w st' -> readable root w st) /\ m_pages st' = m_pages st.
Proof.
  intros Hs Hfl Hb Hm Hsm Hs0 Hl Hr. set (n := Z.to_nat (size / PAGE_SIZE)).
  assert (Z.of_nat n * PAGE_SIZE = size) as En by (unfold n, PAGE_SIZE in *; clear - Hsm Hs0; zlia).
  destruct (space_protect R root n va flags st Hs) as (st' & E & P).
  - unfold pages_va. rewrite En. done.
  - done.
  - rewrite En. done.
  - exists st'. rewrite En in E. split_and!; [done|by eapply protected_places| |apply P].
    intros w [Hv Hmp]. split; [done|]. unfold mapped in *. by rewrite <- (pr_virt _ _ _ _ _ _ _ P).
Qed.

Lemma places_keeps R root g st st' : places R root g st st' -> keeps R root st st'.
Proof. intros P. apply P. Qed.

Section Load.
Context (R : Z -> Prop) (proc : Process) (image len : Z) (st : machine S).
Let root := pml4_phys (p_address_space proc).
Let hdr := read_ore_header (m_mem st) image.
Let relocs := relocs_at (m_mem st) (image + oi_header_size hdr) 0 (Z.to_nat (oi_reloc_count hdr)).

(** What the program should see. *)
Definition ore_contents (w : Z) : option Z :=
  override (relocs_byte USER_BASE (ore_data_base hdr) relocs) (ore_byte (m_mem st) image hdr) w.

Hypothesis Hs : space_ok R root st.
Hypothesis Himg : 0 < image /\ image + len < 18446744073709551616.
Hypothesis Hdata : forall off, 0 <= off < len -> kdata R root st (image + off).
Hypothesis Hlay : ore_layout hdr len.
Hypothesis Hrel : Forall (reloc_fits USER_BASE (ore_data_base hdr) USER_BASE (ore_end hdr)) relocs.

(** Copy and relocate. *)
Lemma ore_fill_spec st2 :
  places R root (fun _ => None) st st2 ->
  (forall w, USER_BASE <= w < ore_end hdr -> readable root w st2) ->
  exists st3 st4 st5,
    copy_to_user_phys root USER_BASE (image +u ore_text_off hdr) (oi_text_size hdr) st2 = (0, st3) /\
    (if oi_data_size hdr =? 0 then (0, st3)
     else copy_to_user_phys root (ore_data_base hdr) (image +u ore_data_off hdr) (oi_data_size hdr) st3) = (0, st4) /\
    reloc_loop (Z.to_nat (oi_reloc_count hdr)) root (image +u oi_header_size hdr) USER_BASE (ore_data_base hdr) 0 st4
      = (0, st5) /\
    places R root ore_contents st st5 /\ (forall w, USER_BASE <= w < ore_end hdr -> readable root w st5) /\
    (forall w, mapped root w st5 = mapped root w st2) /\ m_pages st5 = m_pages st2.
Proof.
  intros P Hr. pose proof Hlay as [L1 L2 L3 L4 L5 L6 L7 L8 L9].
  destruct (ore_copy_spec R root image len st hdr st2 Hlay ltac:(lia) ltac:(lia) Hdata P Hr)
    as (st3 & st4 & E3 & E4 & P4 & M4 & Ep4).
  exists st3, st4. pose proof (places_keeps _ _ _ _ _ P4) as K4.
  assert (forall off, Z.of_nat 0 * sizeof_OreImageReloc <= off <
    Z.of_nat (0 + Z.to_nat (oi_reloc_count hdr)) * sizeof_OreImageReloc ->
    kdata R root st (image + oi_header_size hdr + off)) as Hk.
  { intros off Hoff. rewrite <- Z.add_assoc. apply Hdata. unfold sizeof_OreImageReloc in Hoff. lia. }
  pose proof (relocs_at_keeps R root st st4 _ _ _ K4 Hk) as Er. fold relocs in Er.
  assert (forall w, USER_BASE <= w < ore_end hdr -> readable root w st4) as Hr4.
  { intros w Hw. destruct (Hr w Hw) as [Hv Hm]. split; [done|]. by rewrite M4. }
  rewrite (u64_small (image + oi_header_size hdr)) by (unfold word64; lia).
  destruct (reloc_loop_spec R root (image + oi_header_size hdr) USER_BASE (ore_data_base hdr) USER_BASE (ore_end hdr)
    (Z.to_nat (oi_reloc_count hdr)) 0 st4 (k_space _ _ _ _ K4) Hr4) as (st5 & E5 & K5 & U5).
  { intros off Hoff. by apply (k_kdata _ _ _ _ K4), Hk. }
  { by rewrite Er. }
  rewrite Er in U5. exists st5. split_and!; [done|done|done| | | |].
  - eapply places_trans; [exact P4|]. apply uwrites_places; [done..|].
    intros w Hw. apply Hr4. by apply (relocs_byte_range _ _ _ _ _ w Hrel).
  - intros w Hw. by apply K5, Hr4.
  - intros w. by rewrite (uw_mapped _ _ _ _ _ _ U5).
  - by rewrite (uw_pages _ _ _ _ _ U5).
Qed.

Hypothesis Hempty : forall w, ~ readable root w st.

(** What the load can take: four pages for each page of text, data and stack. *)
Definition map_cost : nat := pages_cost USER_BASE (ore_data_base hdr) + pages_cost (ore_data_base hdr) (ore_end hdr).
Definition ore_cost : nat := map_cost + stack_cost.

(** Map text and data. *)
Lemma ore_map_spec :
  match map_zeroed_user_pages root USER_BASE (oi_text_size hdr) VMM_USER st with
  | Panic _ => out_of_pages ore_cost (m_pages st)
  | Ok (r1, st1) => (r1 = - ORE_ENOMEM /\ out_of_pages ore_cost (m_pages st)) \/ r1 = 0 /\
      match map_zeroed_user_pages root (ore_data_base hdr) (ore_span hdr) (Z.lor VMM_USER VMM_NX) st1 with
      | Panic _ => out_of_pages ore_cost (m_pages st)
      | Ok (r2, st2) => (r2 = - ORE_ENOMEM /\ out_of_pages ore_cost (m_pages st)) \/ r2 = 0 /\
          places R root (fun _ => None) st st2 /\
          (forall w, USER_BASE <= w < ore_end hdr -> readable root w st2) /\
          (forall w, readable root w st2 -> USER_BASE <= w < ore_end hdr) /\ takes map_cost (m_pages st) (m_pages st2)
      end
  end.
Proof.
  destruct (ore_addresses hdr len Hlay) as (_ & A2 & A3 & A4 & A5 & A6 & A7 & A8 & _).
  destruct text_flags_ok as (F1 & F2 & F3). pose proof (ol_text _ _ Hlay) as Ht.
  pose proof (map_zeroed_spec R root USER_BASE (oi_text_size hdr) VMM_USER st Hs eq_refl ltac:(lia) ltac:(lia)
    ltac:(unfold USER_BASE, PAGE_SIZE, USER_LIMIT; lia) F2) as M1. fold (ore_data_base hdr) in M1. cbv zeta in M1.
  assert (forall k (s : S), (k <= ore_cost)%nat -> out_of_pages k s -> out_of_pages ore_cost s) as Hup by (intros k s Hk; by apply no_run_mono).
  destruct (map_zeroed_user_pages root USER_BASE _ _ st) as [[r1 st1]|msg]; [|eapply Hup; [|exact M1]; unfold ore_cost, map_cost; lia].
  destruct M1 as [(-> & X1 & R1 & T1)|(-> & _ & Ho)]; [right; split; [done|]|left; split; [done|]; eapply Hup; [|exact Ho]; unfold ore_cost, map_cost; lia].
  pose proof (ex_keeps _ _ _ _ _ _ X1) as K1.
  pose proof (map_zeroed_spec R root (ore_data_base hdr) (ore_span hdr) (Z.lor VMM_USER VMM_NX) st1
    (k_space _ _ _ _ K1) A3 ltac:(lia) ltac:(lia)) as M2. fold (ore_end hdr) in M2. cbv zeta in M2.
  assert (ore_data_base hdr + ore_span hdr <= ore_end hdr) by (unfold ore_end, PAGE_SIZE; clear; zlia).
  specialize (M2 ltac:(unfold USER_LIMIT, USER_STACK_BASE, USER_STACK_TOP, PAGE_SIZE in *; lia) F3).
  destruct (map_zeroed_user_pages root (ore_data_base hdr) _ _ st1) as [[r2 st2]|msg];
    [|apply (Hup map_cost); [unfold ore_cost; lia|]; by eapply no_run_takes].
  destruct M2 as [(-> & X2 & R2 & T2)|(-> & _ & Ho)];
    [right; split; [done|]|left; split; [done|]; apply (Hup map_cost); [unfold ore_cost; lia|]; by eapply no_run_takes].
  split; [|split; [|split; [|by eapply takes_trans]]].
  - eapply places_ext; [|eapply places_trans; [exact (extends_places _ _ _ _ _ _ X1)|exact (extends_places _ _ _ _ _ _ X2)]]. done.
  - intros w Hw. destruct (Z.lt_ge_cases w (ore_data_base hdr)).
    + apply (ex_keeps _ _ _ _ _ _ X2), R1. lia.
    + apply R2. lia.
  - intros w Hw. destruct (decide (USER_BASE <= w < ore_end hdr)) as [|Hn]; [done|exfalso].
    apply (Hempty w), (extends_out _ _ _ _ _ _ _ X1); [|lia]. apply (extends_out _ _ _ _ _ _ _ X2); [done|lia].
Qed.

(** The memory of the program once the load is complete. *)
Definition ore_program_ready (st' : machine S) : Prop :=
  space_ok R root st' /\
  (forall w, USER_BASE <= w < ore_end hdr \/ USER_STACK_BASE <= w < USER_STACK_TOP -> readable root w st') /\
  (forall w, readable root w st' -> uload root w st' = default 0 (ore_contents w)) /\
  (forall r w, R r -> r <> root -> pte (m_mem st') r w = pte (m_mem st) r w) /\
  (forall x, pa_live (m_pages st) (x / PAGE_SIZE) -> ~ in_table (m_mem st) R x ->
     pa_live (m_pages st') (x / PAGE_SIZE) /\ load8 (m_mem st') x = load8 (m_mem st) x).

(** Protect the pages and map the stack, from the filled space [st5]. *)
Lemma ore_finish_spec st5 :
  places R root ore_contents st st5 -> (forall w, USER_BASE <= w < ore_end hdr -> readable root w st5) ->
  (forall w, readable root w st5 -> USER_BASE <= w < ore_end hdr) -> takes map_cost (m_pages st) (m_pages st5) ->
  exists st6 st7, vmm_protect_in root USER_BASE (align_up_local (oi_text_size hdr)) VMM_USER st5 = Ok (0, st6) /\
    vmm_protect_in root (ore_data_base hdr) (align_up_local (ore_span hdr))
      (Z.lor (Z.lor VMM_USER VMM_WRITE) VMM_NX) st6 = Ok (0, st7) /\
    match map_all true (page_loop USER_STACK_BASE USER_STACK_TOP) root USER_STACK_BASE
            (Z.lor (Z.lor VMM_USER VMM_WRITE) VMM_NX) st7 with
    | Ok (Mapped, st8) => ore_program_ready st8
    | Ok (NoMemory, _) => out_of_pages ore_cost (m_pages st)
    | Ok (MapFailed, _) => False
    | Panic _ => out_of_pages ore_cost (m_pages st)
    end.
Proof.
  intros P5 R5 B5 T5. destruct (ore_addresses hdr len Hlay) as (_ & A2 & A3 & A4 & A5 & A6 & A7 & A8 & _ & A10 & A11).
  destruct text_flags_ok as (F1 & _). pose proof (ol_text _ _ Hlay) as Ht.
  pose proof (places_keeps _ _ _ _ _ P5) as K5.
  assert (forall v, 0 < v <= 524288 -> align_up_local v mod PAGE_SIZE = 0 /\ 0 <= align_up_local v) as Hal.
  { intros v Hv. rewrite align_up_local_eq by lia. unfold PAGE_SIZE. clear - Hv. zlia. }
  destruct (Hal (oi_text_size hdr) ltac:(lia)) as [T1 T2], (Hal (ore_span hdr) ltac:(lia)) as [D1 D2].
  unfold USER_LIMIT, USER_STACK_BASE, USER_STACK_TOP, PAGE_SIZE in A7.
  destruct (protect_pages_places R root USER_BASE _ VMM_USER st5 (k_space _ _ _ _ K5) F1 ltac:(lia) eq_refl T1 T2)
    as (st6 & E6 & P6 & B6 & Q6); [unfold USER_LIMIT; lia|intros w Hw; apply R5; lia|].
  pose proof (places_keeps _ _ _ _ _ P6) as K6.
  destruct (protect_pages_places R root (ore_data_base hdr) _ _ st6 (k_space _ _ _ _ K6) stack_flags_ok ltac:(lia) A3 D1 D2)
    as (st7 & E7 & P7 & B7 & Q7); [unfold USER_LIMIT; lia|intros w Hw; apply K6, R5; lia|].
  pose proof (places_keeps _ _ _ _ _ P7) as K7.
  exists st6, st7. split_and!; [done..|]. destruct stack_pages as [Pv Pe].
  pose proof (map_all_spec true _ R root _ _ st7 (k_space _ _ _ _ K7) Pv stack_flags_ok) as Hmap. rewrite Pe in Hmap.
  assert (forall w, USER_STACK_BASE <= w < USER_STACK_TOP -> ~ readable root w st7) as Hfree.
  { intros w Hw Hr. pose proof (B5 w (B6 w (B7 w Hr))). unfold USER_STACK_BASE, USER_STACK_TOP in *. lia. }
  rewrite <- Q6, <- Q7 in T5. change (4 * page_loop USER_STACK_BASE USER_STACK_TOP)%nat with stack_cost in Hmap.
  specialize (Hmap Hfree). pose proof (keeps_trans _ _ _ _ _ (keeps_trans _ _ _ _ _ K5 K6) K7) as K.
  destruct (map_all _ _ _ _ _ st7) as [[[] st8]|msg]; cbn [mapping] in Hmap; [| |done|by eapply no_run_takes].
  2: { destruct Hmap as [_ Ho]. by eapply no_run_takes. }
  destruct Hmap as (X & Hst & _). pose proof (ex_keeps _ _ _ _ _ _ X) as K8.
  pose proof (places_trans _ _ _ _ _ _ _ (places_trans _ _ _ _ _ _ _
    (places_trans _ _ _ _ _ _ _ P5 P6) P7) (extends_places _ _ _ _ _ _ X)) as P8.
  split; [apply K8|]. split; [|split; [|split]].
  - intros w [Hw|Hw]; [by apply K8, K7, K6, R5|by apply Hst].
  - intros w Hw. rewrite (ld_load _ _ _ _ _ (pl_loaded _ _ _ _ _ P8) w Hw). unfold override.
    destruct (ore_contents w); [done|]. destruct (mapped root w st) eqn:Em; [|done].
    destruct (Hempty w). split; [apply Hw|done].
  - intros r w Hr Hne. by rewrite (k_pte _ _ _ _ K8), (k_pte _ _ _ _ K).
  - intros x. apply (empty_kept R root st); [done|done|]. by eapply keeps_trans.
Qed.
End Load.

(** ** Properties *)

(** The whole load, from the specifications of its steps. *)
Lemma load_ore_image_spec R proc image len st :
  let root := pml4_phys (p_address_space proc) in
  let hdr := read_ore_header (m_mem st) image in
  let accepted := (sizeof_OreImageHeader <=? len) && ore_header_ok hdr len in
  space_ok R root st -> (forall w, ~ readable root w st) ->
  0 < image -> image + len < 18446744073709551616 ->
  (forall off, 0 <= off < len -> kdata R root st (image + off)) ->
  (accepted = true -> Forall (reloc_fits USER_BASE (ore_data_base hdr) USER_BASE (ore_end hdr))
     (relocs_at (m_mem st) (image + oi_header_size hdr) 0 (Z.to_nat (oi_reloc_count hdr)))) ->
  match load_ore_image_into_process proc image len st with
  | Panic _ => accepted = true /\ out_of_pages (ore_cost image st) (m_pages st)
  | Ok (r, proc', st') =>
      if accepted then
        (r = - ORE_ENOMEM /\ proc' = proc /\ out_of_pages (ore_cost image st) (m_pages st)) \/
        (r = 0 /\ proc' = set_program (USER_BASE + oi_entry hdr) 2 proc /\
         ore_program_ready R proc image st st')
      else r = - ORE_EINVAL /\ proc' = proc /\ st' = st
  end.
Proof.
  intros root hdr accepted Hs Hempty Hi Hil Hd Hrel. unfold load_ore_image_into_process.
  rewrite (proj2 (Z.eqb_neq image 0)) by lia. cbn [orb]. fold root hdr.
  unfold accepted in *. clear accepted. rewrite Z.leb_antisym in *.
  destruct (len <? sizeof_OreImageHeader); cbn [negb andb] in *; [done|].
  destruct (ore_header_ok hdr len) eqn:Eok; cbn [negb]; [|done].
  specialize (Hrel eq_refl). pose proof (ore_header_layout (m_mem st) image len (sp_mem _ _ _ Hs) Eok) as L.
  fold hdr in L. destruct (ore_addresses hdr len L) as (E1 & _ & _ & _ & _ & _ & _ & _ & E9 & _).
  rewrite E1. cbv zeta in E9 |- *. rewrite E9.
  pose proof (ore_map_spec R proc image len st Hs L Hempty) as M. fold root hdr in M.
  destruct (map_zeroed_user_pages root USER_BASE _ _ st) as [[r1 st1]|msg]; cbn [outcome_bind]; [|done].
  destruct M as [[-> Ho]|[-> M]]; [by left|]. unfold guard at 1. change (0 <? 0) with false. cbv iota.
  destruct (map_zeroed_user_pages root (ore_data_base hdr) _ _ st1) as [[r2 st2]|msg]; cbn [outcome_bind]; [|done].
  destruct M as [[-> Ho]|(-> & P2 & R2 & B2 & T2)]; [by left|]. unfold guard at 1. change (0 <? 0) with false. cbv iota.
  destruct (ore_fill_spec R proc image len st (conj Hi Hil) Hd L Hrel st2 P2 R2)
    as (st3 & st4 & st5 & E3 & E4 & E5 & P5 & R5 & M5 & Q5). fold root hdr in E3, E4, E5, R5.
  rewrite E3. unfold guard at 1. change (0 <? 0) with false. cbv iota.
  rewrite E4. unfold guard at 1. change (0 <? 0) with false. cbv iota.
  rewrite E5. unfold guard. change (0 <? 0) with false. cbv iota.
  destruct (ore_finish_spec R proc image len st Hs L Hempty st5 P5 R5) as (st6 & st7 & E6 & E7 & M).
  { intros w [Hv Hm]. apply B2. split; [done|]. by rewrite <- M5. }
  { by rewrite Q5. }
  fold hdr root in E6, E7. rewrite E6. cbn [outcome_bind]. change (0 <? 0) with false. cbv iota. rewrite E7.
  cbn [outcome_bind]. change (0 <? 0) with false. cbv iota. fold root in M.
  destruct (map_all _ _ _ _ _ st7) as [[[] st8]|msg]; cbn [outcome_bind]; [|by left|done|done].
  right. split_and!; [done| |done].
  rewrite u64_small; [done|]. destruct (ol_entry _ _ L), (ol_text _ _ L). unfold word64, USER_BASE. lia.
Qed.

End OreImage.

(** ** Example: an image with one relocation *)

(** Little-endian bytes of the header, one absolute relocation of text + 8 to
    text + 3, sixteen bytes of text and four of data. *)
Definition demo_ore : list Z :=
  le_bytes 8 ORE_IMAGE_MAGIC ++ le_bytes 4 1 ++ le_bytes 4 56 ++ le_bytes 8 0 ++ le_bytes 8 16 ++
  le_bytes 8 4 ++ le_bytes 8 8 ++ le_bytes 8 1 ++
  le_bytes 8 8 ++ le_bytes 8 3 ++ le_bytes 4 ORE_IMAGE_RELOC_ABS64 ++ le_bytes 4 0 ++
  [1; 2; 3; 4; 5; 6; 7; 8; 9; 10; 11; 12; 13; 14; 15; 16] ++ [33; 34; 35; 36].

Definition demo_ore_st : machine pmm_state := demo_bytes_st demo_ore.

Example demo_ore_runs :
  match load_ore_image_into_process demo_proc demo_image 100 demo_ore_st with
  | Ok (r, p, st) => (r =? 0) && (p_user_entry p =? USER_BASE) &&
      (uload vmm_root (USER_BASE + 2) st =? 3) && (uload vmm_root (USER_BASE + 8) st =? 3) &&
      (uload vmm_root (USER_BASE + 12) st =? 0x80) && (uload vmm_root (USER_BASE + 4096 + 1) st =? 34) &&
      (uload vmm_root (USER_BASE + 4096 + 5) st =? 0)
  | Panic _ => false end = true.
Proof. vm_compute. reflexivity. Qed.

Lemma demo_ore_short : Z.of_nat (length demo_ore) <= 8192.
Proof. vm_compute. discriminate. Qed.

Lemma demo_ore_hdr : read_ore_header (m_mem demo_ore_st) demo_image =
  {| oi_magic := ORE_IMAGE_MAGIC; oi_version := 1; oi_header_size := 56; oi_entry := 0; oi_text_size := 16;
     oi_data_size := 4; oi_bss_size := 8; oi_reloc_count := 1 |}.
Proof. vm_compute. reflexivity. Qed.

Lemma demo_ore_relocs : relocs_at (m_mem demo_ore_st) (demo_image + 56) 0 1 =
  [{| r_offset := 8; r_symbol_offset := 3; r_type := ORE_IMAGE_RELOC_ABS64; r_segment := 0 |}].
Proof. vm_compute. reflexivity. Qed.

Lemma demo_ore_fits :
  let hdr := read_ore_header (m_mem demo_ore_st) demo_image in
  Forall (reloc_fits USER_BASE (ore_data_base hdr) USER_BASE (ore_end hdr))
    (relocs_at (m_mem demo_ore_st) (demo_image + oi_header_size hdr) 0 (Z.to_nat (oi_reloc_count hdr))).
Proof.
  rewrite demo_ore_hdr. cbv zeta. cbn [oi_header_size oi_reloc_count].
  change (Z.to_nat 1) with 1%nat. rewrite demo_ore_relocs. constructor; [|constructor].
  split; [discriminate|]. split; [discriminate|]. split; [discriminate|]. left. reflexivity.
Qed.


(** ** Relocations reach any mapped address *)

(** The place of a relocation is not checked against the image: any address
    the tables translate, kernel memory included, is written. *)
Lemma reloc_writes_anywhere {S} `{PageAllocator S} (st : machine S) root data_base a target :
  word64 a -> word64 target -> virt_to_phys root a st <> 0 ->
  let r := {| r_offset := a -u USER_BASE; r_symbol_offset := target -u USER_BASE;
              r_type := ORE_IMAGE_RELOC_ABS64; r_segment := 0 |} in
  apply_reloc root USER_BASE data_base r st =
  (0, with_machine_mem st (store64 (m_mem st) (virt_to_phys root a st) target)).
Proof.
  intros Ha Ht Hp r. unfold apply_reloc, r. cbn [r_segment r_offset r_symbol_offset r_type].
  change (0 =? 0) with true. cbv iota.
  assert (USER_BASE +u (a -u USER_BASE) = a) as -> by (unfold USER_BASE; word_lia).
  assert (USER_BASE +u (target -u USER_BASE) = target) as -> by (unfold USER_BASE; word_lia).
  by rewrite (proj2 (Z.eqb_neq _ _)).
Qed.
