(* ===== verification/Ports.v ===== *)
(** Port input and output (the inline functions of kernel/kernel.h).

    The devices behind the ports are hardware, not code: a type [D] of device
    states with the four instructions.  Drivers are functions on [D]; what a
    driver relies on is a named hypothesis about the device it drives. *)
From Stdlib Require Import ZArith List.
From S2P Require Import Prelude.
Import ListNotations.

Class Ports (D : Type) := {
  outb : Z -> Z -> D -> D;
  outw : Z -> Z -> D -> D;
  inb : Z -> D -> Z * D;
  inw : Z -> D -> Z * D;
}.

(** 32-bit registers in memory ([mmio_read32], [mmio_write32]). *)
Class Mmio (M : Type) := {
  mmio_read32 : Z -> M -> Z * M;
  mmio_write32 : Z -> Z -> M -> M;
}.

Section Ports.
Context {D : Type} `{Ports D}.

(** [n] bytes, or 16-bit words, read from the same port. *)
Fixpoint read_bytes (n : nat) (port : Z) (d : D) : list Z * D :=
  match n with
  | O => ([], d)
  | S n => let '(b, d) := inb port d in let '(bs, d) := read_bytes n port d in (b :: bs, d)
  end.

Fixpoint read_words (n : nat) (port : Z) (d : D) : list Z * D :=
  match n with
  | O => ([], d)
  | S n => let '(w, d) := inw port d in let '(ws, d) := read_words n port d in (w :: ws, d)
  end.
End Ports.
