(* ===== verification/Cstring.v ===== *)
(** C strings.

    A string is the list of its bytes before the terminator; [s[i]] is
    [char_at s i], which reads the terminator as zero.  The comparison and copy
    loops that the kernel files repeat under local names are here once:
    [str_eq] (initramfs.c; [str_eq_local] in vfs.c, [name_eq] in block.c),
    [starts_with] ([str_prefix_eq] in vfs.c) and [copy_name]. *)
From stdpp Require Import base numbers list.
From Stdlib Require Import ZArith Lia.
From S2P Require Import Prelude.

(** The bytes of a string literal. *)
Definition bytes_of (s : String.string) : list Z :=
  map (fun c => Z.of_nat (Ascii.nat_of_ascii c)) (String.list_ascii_of_string s).

(** A character literal. *)
Definition ch (c : Ascii.ascii) : Z := Z.of_nat (Ascii.nat_of_ascii c).
Arguments ch c%_char_scope.

Lemma bytes_of_range s : Forall byte_ok (bytes_of s).
Proof.
  unfold bytes_of. apply Forall_fmap, Forall_forall. intros c _. unfold compose, byte_ok.
  pose proof (Ascii.nat_ascii_bounded c). lia.
Qed.

Definition char_at (s : list Z) (i : nat) : Z := nth i s 0.

(** Bytes of a string: none is the terminator. *)
Definition cstring (s : list Z) : Prop := Forall (fun c => byte_ok c /\ c <> 0) s.

(** [while ( *a && *b && *a == *b) a++, b++; return *a == *b;] *)
Fixpoint str_eq (a b : list Z) : bool :=
  match a, b with
  | x :: a, y :: b => if x =? y then str_eq a b else false
  | [], [] => true
  | _, _ => false
  end.

(** The first [length p] bytes are [p]. *)
Fixpoint starts_with (s p : list Z) {struct p} : bool :=
  match p with
  | [] => true
  | c :: p => match s with [] => false | x :: s => if x =? c then starts_with s p else false end
  end.

(** [copy_name] into [char dst[128]]: at most 127 bytes and a terminator. *)
Definition copy_name (src : list Z) : list Z := take 127 src.
Definition copy_name_len (src : list Z) (len : nat) : list Z := take 127 (take len src).

Lemma str_eq_spec a b : str_eq a b = true <-> a = b.
Proof.
  revert b. induction a as [|x a IH]; intros [|y b]; cbn [str_eq]; try done.
  destruct (Z.eqb_spec x y) as [->|Hne]; [rewrite IH|]; split; congruence.
Qed.

Lemma str_eq_refl a : str_eq a a = true.
Proof. by apply str_eq_spec. Qed.

Lemma starts_with_spec s p : starts_with s p = true <-> exists r, s = p ++ r.
Proof.
  revert s. induction p as [|c p IH]; intros s; cbn [starts_with].
  - split; intros _; [by exists s|reflexivity].
  - destruct s as [|x s]; [split; [done|intros [r Hr]; discriminate Hr]|].
    destruct (Z.eqb_spec x c) as [->|Hne].
    + rewrite IH. split; intros [r Hr]; exists r; cbn in *; congruence.
    + split; [done|]. intros [r Hr]. cbn in Hr. congruence.
Qed.

Lemma copy_name_short s : (length s <= 127)%nat -> copy_name s = s.
Proof. intros Hs. by apply take_ge. Qed.

Lemma char_at_app_l s r i : (i < length s)%nat -> char_at (s ++ r) i = char_at s i.
Proof. intros Hi. unfold char_at. by apply app_nth1. Qed.

(** ** Numbers *)

(** Digits of [n] in base [b], the most significant first, before [acc]. *)
Fixpoint digits_from (fuel : nat) (b n : Z) (acc : list Z) : list Z :=
  match fuel with
  | O => acc
  | S fuel => if n <? b then n :: acc else digits_from fuel b (n / b) (n mod b :: acc)
  end.
Definition digits (b n : Z) : list Z := digits_from 64 b n [].

(** Value of digits that follow the number [v]. *)
Definition digits_from_value (b v : Z) (ds : list Z) : Z := fold_left (fun v d => v * b + d) ds v.

Lemma digits_from_spec b fuel n acc :
  2 <= b -> 0 <= n < b ^ Z.of_nat fuel -> (fuel <> 0)%nat ->
  digits_from_value b 0 (digits_from fuel b n acc) = digits_from_value b n acc.
Proof.
  intros Hb. revert n acc. induction fuel as [|fuel IH]; intros n acc Hn Hf; [done|]. cbn [digits_from].
  destruct (Z.ltb_spec n b); [done|]. rewrite Nat2Z.inj_succ, Z.pow_succ_r in Hn by lia.
  assert (n = b * (n / b) + n mod b) as E by (apply Z.div_mod; lia).
  rewrite IH.
  - unfold digits_from_value. cbn [fold_left]. f_equal. lia.
  - split; [apply Z.div_pos; lia|]. apply Z.div_lt_upper_bound; lia.
  - intros ->. change (b ^ Z.of_nat 0) with 1 in Hn. lia.
Qed.

Lemma digits_from_range b fuel n acc :
  2 <= b -> 0 <= n -> Forall (fun d => 0 <= d < b) acc -> Forall (fun d => 0 <= d < b) (digits_from fuel b n acc).
Proof.
  intros Hb. revert n acc. induction fuel as [|fuel IH]; intros n acc Hn Ha; cbn [digits_from]; [done|].
  destruct (Z.ltb_spec n b); [constructor; [lia|done]|].
  apply IH; [apply Z.div_pos; lia|]. constructor; [apply Z.mod_pos_bound; lia|done].
Qed.

(** The digits of a 64-bit number have its value. *)
Lemma digits_denote b n : 2 <= b -> word64 n -> digits_from_value b 0 (digits b n) = n.
Proof.
  intros Hb Hn. unfold digits. rewrite digits_from_spec; [done|done| |done].
  unfold word64 in Hn. split; [lia|]. assert (2 ^ 64 <= b ^ 64) by (apply Z.pow_le_mono_l; lia). lia.
Qed.

Lemma digits_range b n : 2 <= b -> 0 <= n -> Forall (fun d => 0 <= d < b) (digits b n).
Proof. intros. by apply digits_from_range. Qed.
