(* ===== verification/Abi.v ===== *)
(** Numbers of the system calls (include/ore_abi.h). *)
From Stdlib Require Import ZArith.
Open Scope Z_scope.

Definition ORE_SYS_WRITE : Z := 1.
Definition ORE_SYS_READ : Z := 2.
Definition ORE_SYS_EXIT : Z := 3.
Definition ORE_SYS_YIELD : Z := 4.
Definition ORE_SYS_OPEN : Z := 5.
Definition ORE_SYS_READDIR : Z := 6.
Definition ORE_SYS_STAT : Z := 7.
Definition ORE_SYS_CLOSE : Z := 8.
Definition ORE_SYS_FILE_READ : Z := 9.
Definition ORE_SYS_INFO : Z := 10.
Definition ORE_SYS_SPAWN : Z := 11.
Definition ORE_SYS_WAIT : Z := 12.
Definition ORE_SYS_GETPID : Z := 13.
Definition ORE_SYS_SLEEP : Z := 14.
Definition ORE_SYS_PROC_INFO : Z := 15.
Definition ORE_SYS_ARGS : Z := 16.
Definition ORE_SYS_EXEC_IMAGE : Z := 17.
Definition ORE_SYS_MOD_INFO : Z := 18.
Definition ORE_SYS_KCMD : Z := 19.
Definition ORE_SYS_GFX_INFO : Z := 20.
Definition ORE_SYS_GFX_PRESENT : Z := 21.
Definition ORE_SYS_INPUT_STATE : Z := 22.
Definition ORE_SYS_USER_ALLOC_PAGES : Z := 23.
Definition ORE_SYS_USER_FREE_PAGES : Z := 24.
Definition ORE_SYS_TERRAIN_RENDER : Z := 25.
Definition ORE_SYS_NET_INFO : Z := 26.
Definition ORE_SYS_NET_RECV : Z := 27.
Definition ORE_SYS_NET_SEND : Z := 28.

