(* ===== verification/Serial.v ===== *)
(** The serial log and the panic screen (kernel/serial.c, kernel/panic.c).

    The line is a 16550 behind the ports: the registers it is programmed with, what
    it has sent and how many more polls find it busy.  [kprintf] runs on such a
    device; its format is the memory from the pointer on, with the terminator and
    what follows it, and its arguments are the slots that [va_arg] walks over.

    The first theorem is that the log shows the text of the message.  The second
    interleaves processors: the spin lock keeps the messages whole. *)
From stdpp Require Import base numbers list relations.
From Stdlib Require Import ZArith Lia.
From Stdlib Require Import(notations) Ascii String.
From S2P Require Import Prelude Ports Cstring Spinlock.

Definition COM1 : Z := 0x3f8.

(** ** The device *)

(** Registers of the line by the offset of their port; offsets 0 and 1 are the
    divisor while bit 7 of the line control is set. *)
Record uart_regs := mk_uart {
  ur_divisor_low : Z;
  ur_divisor_high : Z;
  ur_interrupts : Z;
  ur_fifo : Z;
  ur_line : Z;
  ur_modem : Z
}.
Definition dlab (r : uart_regs) : bool := Z.testbit (ur_line r) 7.
Definition uart_write (offset v : Z) (r : uart_regs) : uart_regs :=
  let '(mk_uart dl dh ie ff ln md) := r in
  if offset =? 0 then if dlab r then mk_uart v dh ie ff ln md else r
  else if offset =? 1 then if dlab r then mk_uart dl v ie ff ln md else mk_uart dl dh v ff ln md
  else if offset =? 2 then mk_uart dl dh ie v ln md
  else if offset =? 3 then mk_uart dl dh ie ff v md
  else if offset =? 4 then mk_uart dl dh ie ff ln v
  else r.

(** What the driver relies on: writes go to the registers, a byte written to an
    idle line is sent, bit 5 of the status is set when the line is idle, and a busy
    line is idle after at most [uart_delay] readings of its status. *)
Class Uart (D : Type) `{Ports D} := {
  uart_state : D -> uart_regs;
  uart_sent : D -> list Z;
  uart_busy : D -> nat;
  uart_delay : nat;
  uart_busy_delay d : (uart_busy d <= uart_delay)%nat;
  uart_outb offset v d : 0 <= offset <= 4 -> uart_state (outb (COM1 + offset) v d) = uart_write offset v (uart_state d);
  uart_outb_control offset v d : 1 <= offset <= 4 -> uart_sent (outb (COM1 + offset) v d) = uart_sent d;
  uart_outb_data v d : uart_sent (outb COM1 v d) =
    if dlab (uart_state d) then uart_sent d else if decide (uart_busy d = O) then uart_sent d ++ [v] else uart_sent d;
  uart_status d : Z.testbit (fst (inb (COM1 + 5) d)) 5 = bool_decide (uart_busy d = O);
  uart_status_state d : uart_state (snd (inb (COM1 + 5) d)) = uart_state d;
  uart_status_sent d : uart_sent (snd (inb (COM1 + 5) d)) = uart_sent d;
  uart_status_busy d : uart_busy (snd (inb (COM1 + 5) d)) = pred (uart_busy d)
}.

(** ** The driver *)

(** An argument slot: a number, or a string that may be null. *)
Inductive karg := KInt (slot : Z) | KStr (s : option (list Z)).

Section Serial.
Context {D : Type} `{Ports D}.
Implicit Types d : D.

Definition serial_init d : D :=
  let d := outb (COM1 + 1) 0x00 d in
  let d := outb (COM1 + 3) 0x80 d in
  let d := outb (COM1 + 0) 0x03 d in
  let d := outb (COM1 + 1) 0x00 d in
  let d := outb (COM1 + 3) 0x03 d in
  let d := outb (COM1 + 2) 0xc7 d in
  outb (COM1 + 4) 0x0b d.

Definition serial_ready d : Z * D := let '(v, d) := inb (COM1 + 5) d in (Z.land v 0x20, d).

Definition serial_read_byte d : Z * D :=
  let '(v, d) := inb (COM1 + 5) d in
  if Z.land v 0x01 =? 0 then (-1, d) else inb COM1 d.

(** [while (!serial_ready()) {}]: [None] when the fuel is used up. *)
Fixpoint serial_wait (fuel : nat) d : option D :=
  match fuel with
  | O => None
  | S fuel => let '(v, d) := serial_ready d in if v =? 0 then serial_wait fuel d else Some d
  end.
Definition serial_send (fuel : nat) (c : Z) d : option D := outb COM1 (u8 c) <$> serial_wait fuel d.
Definition serial_putc (fuel : nat) (c : Z) d : option D :=
  if c =? 10 then serial_send fuel 13 d ≫= serial_send fuel c else serial_send fuel c d.
Fixpoint serial_write (fuel : nat) (s : list Z) d : option D :=
  match s with
  | [] => Some d
  | c :: s => serial_putc fuel c d ≫= serial_write fuel s
  end.

(** The digits are stored from the last one on, at most as many as [buf] holds,
    and printed from the end of [buf]. *)
Fixpoint uint_loop (room : nat) (v base : Z) (buf : list Z) : list Z :=
  match room with
  | O => buf
  | S room => if v =? 0 then buf else uint_loop room (v / base) base (nth (Z.to_nat (v mod base)) (bytes_of "0123456789abcdef") 0 :: buf)
  end.
Definition print_uint (fuel : nat) (v base : Z) d : option D :=
  if v =? 0 then serial_putc fuel (ch "0") d else serial_write fuel (uint_loop 32 v base []) d.

(** The loop of [kprintf].  [None] when the line stays busy, when memory is read
    beyond what is given, and when an argument is missing or not a string. *)
Definition arg_int (args : list karg) : option (Z * list karg) :=
  match args with KInt v :: args => Some (v, args) | _ => None end.
Definition arg_str (args : list karg) : option (option (list Z) * list karg) :=
  match args with KStr s :: args => Some (s, args) | _ => None end.

Fixpoint kprintf_loop (fuel : nat) (fmt : list Z) (args : list karg) d : option D :=
  match fmt with
  | [] => None
  | c :: fmt =>
      if c =? 0 then Some d else
      if negb (c =? ch "%") then serial_putc fuel c d ≫= kprintf_loop fuel fmt args else
      match fmt with
      | [] => None
      | c :: fmt =>
          if c =? ch "s" then
            '(s, args) ← arg_str args;
            serial_write fuel (default (bytes_of "(null)") s) d ≫= kprintf_loop fuel fmt args
          else if c =? ch "u" then
            '(v, args) ← arg_int args;
            print_uint fuel (u32 v) 10 d ≫= kprintf_loop fuel fmt args
          else if c =? ch "x" then
            '(v, args) ← arg_int args;
            print_uint fuel (u32 v) 16 d ≫= kprintf_loop fuel fmt args
          else
            let other := if c =? ch "p" then
                '(v, args) ← arg_int args;
                (serial_write fuel (bytes_of "0x") d ≫= print_uint fuel (u64 v) 16) ≫= kprintf_loop fuel fmt args
              else serial_putc fuel c d ≫= kprintf_loop fuel fmt args in
            if c =? ch "l" then
              match fmt with
              | [] => None
              | c :: fmt =>
                  if c =? ch "x" then
                    '(v, args) ← arg_int args;
                    print_uint fuel (u64 v) 16 d ≫= kprintf_loop fuel fmt args
                  else other
              end
            else other
      end
  end.

(** The state of [kprintf] on one processor: the line, the lock and the interrupt
    flag.  A lock that is held when it is wanted is [None]: nobody releases it. *)
Record serial_state := mk_serial { sr_dev : D; sr_locked : bool; sr_if : bool }.

Definition kprintf (fuel : nat) (fmt : list Z) (args : list karg) (s : serial_state) : option serial_state :=
  let flags := sr_if s in
  if sr_locked s then None else
  d ← kprintf_loop fuel fmt args (sr_dev s);
  Some (mk_serial d false flags).

(** [panic]: the message and then the halt loop, with interrupts off. *)
Definition panic (fuel : nat) (message : list Z) (s : serial_state) : option serial_state :=
  s ← kprintf fuel (bytes_of "PANIC: %s" ++ [10; 0]) [KStr (Some message)] s;
  Some (mk_serial (sr_dev s) (sr_locked s) false).
End Serial.
Arguments serial_state : clear implicits.
Arguments mk_serial {D}.
Arguments sr_dev {D}.
Arguments sr_locked {D}.
Arguments sr_if {D}.

(** ** Messages *)

(** What a message is made of. *)
Inductive piece :=
| PText (s : list Z)
| PPercent
| PStr (s : option (list Z))
| PDec (v : Z)
| PHex (v : Z)
| PLongHex (v : Z)
| PPtr (v : Z).

Definition piece_format (p : piece) : list Z :=
  match p with
  | PText s => s
  | PPercent => bytes_of "%%"
  | PStr _ => bytes_of "%s"
  | PDec _ => bytes_of "%u"
  | PHex _ => bytes_of "%x"
  | PLongHex _ => bytes_of "%lx"
  | PPtr _ => bytes_of "%p"
  end.
Definition piece_args (p : piece) : list karg :=
  match p with
  | PText _ | PPercent => []
  | PStr s => [KStr s]
  | PDec v | PHex v | PLongHex v | PPtr v => [KInt v]
  end.
Definition hex_char (d : Z) : Z := nth (Z.to_nat d) (bytes_of "0123456789abcdef") 0.
Definition numeral (base v : Z) : list Z := map hex_char (digits base v).
Definition piece_text (p : piece) : list Z :=
  match p with
  | PText s => s
  | PPercent => bytes_of "%"
  | PStr s => default (bytes_of "(null)") s
  | PDec v => numeral 10 v
  | PHex v | PLongHex v => numeral 16 v
  | PPtr v => bytes_of "0x" ++ numeral 16 v
  end.
Definition piece_ok (p : piece) : Prop :=
  match p with
  | PText s => Forall (fun c => byte_ok c /\ c <> 0 /\ c <> ch "%") s
  | PPercent => True
  | PStr s => Forall byte_ok (default [] s)
  | PDec v | PHex v => word32 v
  | PLongHex v | PPtr v => word64 v
  end.

(** What the line has sent after a character: a carriage return goes before a
    newline. *)
Definition serial_sent (c : Z) (out : list Z) : list Z := if c =? 10 then out ++ [13; 10] else out ++ [c].
Definition crlf (bs : list Z) : list Z := flat_map (fun c => if c =? 10 then [13; 10] else [c]) bs.

Lemma serial_sent_crlf c out : serial_sent c out = out ++ crlf [c].
Proof. unfold serial_sent, crlf. cbn. by case_test. Qed.

Lemma crlf_app s r : crlf (s ++ r) = crlf s ++ crlf r.
Proof. apply flat_map_app. Qed.

Lemma uint_loop_digits base room fuel v acc :
  2 <= base -> 0 < v < base ^ Z.of_nat room -> (room <= fuel)%nat ->
  uint_loop room v base (map hex_char acc) = map hex_char (digits_from fuel base v acc).
Proof.
  intros Hb. revert fuel v acc. induction room as [|room IH]; intros fuel v acc Hv Hf.
  { change (base ^ Z.of_nat 0) with 1 in Hv. lia. }
  destruct fuel as [|fuel]; [lia|]. cbn [uint_loop digits_from]. rewrite (proj2 (Z.eqb_neq v 0)) by lia.
  fold (hex_char (v mod base)). change (hex_char (v mod base) :: map hex_char acc) with (map hex_char (v mod base :: acc)).
  rewrite Nat2Z.inj_succ, Z.pow_succ_r in Hv by lia.
  destruct (Z.ltb_spec v base).
  - rewrite Z.div_small, Z.mod_small by lia. by destruct room.
  - apply IH; [|lia]. split; [apply Z.div_str_pos; lia|]. apply Z.div_lt_upper_bound; lia.
Qed.

Lemma uint_text base v : 10 <= base -> word64 v -> v <> 0 -> uint_loop 32 v base [] = numeral base v.
Proof.
  intros Hb Hv Hz. apply (uint_loop_digits base 32 64 v []); [lia| |lia].
  assert (10 ^ 32 <= base ^ Z.of_nat 32) by (apply Z.pow_le_mono_l; lia). unfold word64 in Hv. lia.
Qed.

Lemma numeral_bytes base v : 2 <= base <= 16 -> 0 <= v -> Forall byte_ok (numeral base v).
Proof.
  intros Hb Hv. apply Forall_fmap. eapply Forall_impl; [apply (digits_range base v); lia|]. intros d Hd. cbn beta in *.
  assert (forallb (fun d => (0 <=? hex_char d) && (hex_char d <? 256)) (seqZ 0 16) = true) as Ht by reflexivity.
  rewrite forallb_forall in Ht. assert (In d (seqZ 0 16)) as Hin by (apply list_elem_of_In, elem_of_seqZ; lia).
  destruct (andb_prop _ _ (Ht d Hin)) as [?%Z.leb_le ?%Z.ltb_lt]. unfold compose, byte_ok. lia.
Qed.

(** ** The driver on the line *)

(** Eight data bits, no parity, 38400 baud, no interrupts. *)
Definition line_ok (r : uart_regs) : Prop :=
  ur_divisor_low r = 3 /\ ur_divisor_high r = 0 /\ ur_line r = 3 /\ ur_interrupts r = 0.

Lemma uart_write_data v r : dlab r = false -> uart_write 0 v r = r.
Proof. unfold uart_write. destruct r. cbn [Z.eqb]. by intros ->. Qed.

Section Line.
Context {D : Type} `{Uart D}.
Implicit Types d : D.

(** [d'] is [d] after sending the text [s]. *)
Definition sends (s : list Z) d d' : Prop := uart_state d' = uart_state d /\ uart_sent d' = uart_sent d ++ crlf s.

Lemma sends_nil d : sends [] d d.
Proof. split; [done|]. by rewrite app_nil_r. Qed.
Lemma sends_app s r d d1 d2 : sends s d d1 -> sends r d1 d2 -> sends (s ++ r) d d2.
Proof. intros [Hs1 Ht1] [Hs2 Ht2]. split; [congruence|]. by rewrite crlf_app, Ht2, Ht1, <- app_assoc. Qed.

Lemma line_dlab d : line_ok (uart_state d) -> dlab (uart_state d) = false.
Proof. intros (_ & _ & Hl & _). unfold dlab. by rewrite Hl. Qed.

Lemma serial_wait_idle fuel d :
  (uart_busy d < fuel)%nat ->
  exists d', serial_wait fuel d = Some d' /\ uart_state d' = uart_state d /\ uart_sent d' = uart_sent d /\ uart_busy d' = O.
Proof.
  revert d. induction fuel as [|fuel IH]; intros d Hf; [lia|]. cbn [serial_wait]. unfold serial_ready.
  pose proof (uart_status d) as Hb. pose proof (uart_status_state d) as Hs. pose proof (uart_status_sent d) as Ht.
  pose proof (uart_status_busy d) as Hn. destruct (inb (COM1 + 5) d) as [v d1]. cbn [fst snd] in *.
  change 0x20 with (Z.shiftl 1 5). rewrite land_bit, Hb by lia. case_bool_decide as E; cbn [negb].
  - exists d1. split; [done|]. split; [done|]. split; [done|]. by rewrite Hn, E.
  - destruct (IH d1) as (d' & E1 & E2 & E3 & E4); [lia|]. exists d'. split; [done|]. by rewrite E2, E3.
Qed.

Lemma serial_init_ok d :
  dlab (uart_state d) = false -> line_ok (uart_state (serial_init d)) /\ uart_sent (serial_init d) = uart_sent d.
Proof.
  intros Hd0.
  unfold serial_init. set (d1 := outb (COM1 + 1) 0 d). set (d2 := outb (COM1 + 3) 0x80 d1).
  assert (dlab (uart_state d2) = true) as Hd.
  { unfold d2. rewrite uart_outb by lia. unfold uart_write. by destruct (uart_state d1). }
  assert (ur_interrupts (uart_state d2) = 0) as Hi.
  { unfold d2, d1. rewrite !uart_outb by lia. revert Hd0. destruct (uart_state d). unfold uart_write. cbn [Z.eqb]. by intros ->. }
  rewrite !uart_outb, !uart_outb_control by lia. split.
  - revert Hd. destruct (uart_state d2) as [dl dh ie ff ln md]. unfold uart_write, dlab. cbn -[Z.testbit] in *.
    intros Hd. rewrite !Hd. cbn -[Z.testbit]. rewrite !Hd. by subst ie.
  - change (COM1 + 0) with COM1. rewrite uart_outb_data, Hd. unfold d2, d1. by rewrite !uart_outb_control by lia.
Qed.

Context (fuel : nat) (Hfuel : (uart_delay < fuel)%nat).

Lemma serial_send_ok c d :
  line_ok (uart_state d) -> byte_ok c ->
  exists d', serial_send fuel c d = Some d' /\ uart_state d' = uart_state d /\ uart_sent d' = uart_sent d ++ [c].
Proof.
  intros Hl Hc. destruct (serial_wait_idle fuel d) as (d1 & E1 & E2 & E3 & E4); [pose proof (uart_busy_delay d); lia|].
  exists (outb COM1 c d1). unfold serial_send. rewrite E1, u8_small by done. split; [done|]. split.
  - change COM1 with (COM1 + 0) at 1. rewrite uart_outb by lia. rewrite E2. apply uart_write_data. by apply line_dlab.
  - rewrite uart_outb_data, E2, (line_dlab d), E3 by done. by rewrite decide_True.
Qed.

Lemma serial_putc_ok c d :
  line_ok (uart_state d) -> byte_ok c -> exists d', serial_putc fuel c d = Some d' /\ sends [c] d d'.
Proof.
  intros Hl Hc. unfold serial_putc, sends, crlf. cbn. case_test.
  - destruct (serial_send_ok 13 d) as (d1 & E1 & Hs1 & Ht1); [done|unfold byte_ok; lia|]. rewrite E1. cbn [mbind option_bind].
    destruct (serial_send_ok c d1) as (d2 & E2 & Hs2 & Ht2); [by rewrite Hs1|done|]. exists d2. split; [done|]. split; [congruence|].
    rewrite Ht2, Ht1, <- app_assoc. cbn. do 3 f_equal. lia.
  - destruct (serial_send_ok c d) as (d1 & E1 & Hs1 & Ht1); [done..|]. exists d1. done.
Qed.

Lemma serial_write_ok s d :
  line_ok (uart_state d) -> Forall byte_ok s -> exists d', serial_write fuel s d = Some d' /\ sends s d d'.
Proof.
  intros Hl Hs. revert d Hl. induction Hs as [|c s Hc Hs IH]; intros d Hl.
  { exists d. split; [done|apply sends_nil]. }
  destruct (serial_putc_ok c d) as (d1 & E1 & H1); [done..|]. cbn [serial_write]. rewrite E1. cbn [mbind option_bind].
  destruct (IH d1) as (d2 & E2 & H2); [by destruct H1 as [-> _]|]. exists d2. split; [done|]. by apply (sends_app [c] s d d1).
Qed.

Lemma print_uint_ok v base d :
  line_ok (uart_state d) -> 10 <= base <= 16 -> word64 v ->
  exists d', print_uint fuel v base d = Some d' /\ sends (numeral base v) d d'.
Proof.
  intros Hl Hb Hv. unfold print_uint. case_test.
  - assert (v = 0) as -> by lia. replace (numeral base 0) with [ch "0"].
    { by apply serial_putc_ok. }
    unfold numeral, digits. cbn [digits_from]. by rewrite (proj2 (Z.ltb_lt 0 base)) by lia.
  - rewrite uint_text by (done || lia). apply serial_write_ok; [done|]. apply numeral_bytes; unfold word64 in Hv; lia.
Qed.

(** A piece of the format prints its text and takes its arguments. *)
Lemma piece_printed p rest args d :
  piece_ok p -> line_ok (uart_state d) ->
  exists d', sends (piece_text p) d d' /\
    kprintf_loop fuel (piece_format p ++ rest) (piece_args p ++ args) d = kprintf_loop fuel rest args d'.
Proof.
  assert (forall d (x : option D) s k, (exists d', x = Some d' /\ sends s d d') ->
    exists d', sends s d d' /\ x ≫= k = (k d' : option D)) as Hk by (intros d0 x s k (d' & -> & Hs); by exists d').
  intros Hp Hl. destruct p as [s| |s|v|v|v|v]; cbn [piece_ok] in Hp.
  - cbn [piece_format piece_args piece_text app]. revert d Hl. induction Hp as [|c s (Hc & Hz & Hne) Hs IH]; intros d Hl.
    { exists d. split; [apply sends_nil|done]. }
    destruct (serial_putc_ok c d) as (d1 & E1 & H1); [done..|].
    destruct (IH d1) as (d2 & H2 & E2); [by destruct H1 as [-> _]|]. exists d2. split; [by apply (sends_app [c] s d d1)|].
    cbn [app kprintf_loop]. rewrite (proj2 (Z.eqb_neq c 0)), (proj2 (Z.eqb_neq c (ch "%"))) by done. cbn [negb]. by rewrite E1.
  - apply Hk. by apply serial_putc_ok.
  - apply Hk. apply serial_write_ok; [done..|]. destruct s as [s|]; [done|apply bytes_of_range].
  - replace (piece_text (PDec v)) with (numeral 10 (u32 v)) by (by rewrite u32_small). apply Hk. apply print_uint_ok; [done|lia|]. apply u32_word64.
  - replace (piece_text (PHex v)) with (numeral 16 (u32 v)) by (by rewrite u32_small). apply Hk. apply print_uint_ok; [done|lia|]. apply u32_word64.
  - replace (piece_text (PLongHex v)) with (numeral 16 (u64 v)) by (by rewrite u64_small). apply Hk. apply print_uint_ok; [done|lia|]. apply u64_bound.
  - replace (piece_text (PPtr v)) with (bytes_of "0x" ++ numeral 16 (u64 v)) by (by rewrite u64_small).
    apply (Hk d (serial_write fuel (bytes_of "0x") d ≫= print_uint fuel (u64 v) 16) (bytes_of "0x" ++ numeral 16 (u64 v))).
    destruct (serial_write_ok (bytes_of "0x") d) as (d1 & E1 & H1); [done|apply bytes_of_range|]. rewrite E1. cbn [mbind option_bind].
    destruct (print_uint_ok (u64 v) 16 d1) as (d2 & E2 & H2); [by destruct H1 as [-> _]|lia|apply u64_bound|].
    exists d2. split; [done|]. by apply (sends_app _ _ d d1).
Qed.

Definition message_format (ps : list piece) : list Z := flat_map piece_format ps.
Definition message_args (ps : list piece) : list karg := flat_map piece_args ps.
Definition message_text (ps : list piece) : list Z := flat_map piece_text ps.

Lemma pieces_printed ps rest d :
  Forall piece_ok ps -> line_ok (uart_state d) ->
  exists d', sends (message_text ps) d d' /\ kprintf_loop fuel (message_format ps ++ 0 :: rest) (message_args ps) d = Some d'.
Proof.
  intros Hps. revert d. induction Hps as [|p ps Hp Hps IH]; intros d Hl.
  { exists d. split; [apply sends_nil|done]. }
  unfold message_format, message_args, message_text. cbn [flat_map]. rewrite <- app_assoc.
  destruct (piece_printed p (message_format ps ++ 0 :: rest) (message_args ps) d) as (d1 & H1 & E1); [done..|].
  destruct (IH d1) as (d2 & H2 & E2); [by destruct H1 as [-> _]|]. exists d2. split; [by apply (sends_app _ _ d d1)|].
  fold (message_format ps) (message_args ps). by rewrite E1.
Qed.
End Line.

(** ** Several processors *)

(** Processors that run [kprintf]: the lock of [Spinlock], the message each is
    printing, the bytes it has yet to send for it, the line, and the messages that are
    complete.  A line feed is two bytes, and each byte is a step of its own. *)
Definition wire (ps : list piece) : list Z := crlf (message_text ps).
Record log := mk_log {
  lg_lock : spin;
  lg_message : Z -> list piece;
  lg_left : Z -> list Z;
  lg_line : list Z;
  lg_done : list (list piece)
}.
Definition set_at {A} (i : Z) (v : A) (f : Z -> A) (j : Z) : A := if j =? i then v else f j.

Inductive log_step : log -> log -> Prop :=
| lg_call i ps l : at_pc (lg_lock l) i = Idle -> Forall piece_ok ps ->
    log_step l (mk_log (mk_spin (value (lg_lock l)) (set_pc i Exchange (at_pc (lg_lock l))))
      (set_at i ps (lg_message l)) (set_at i (wire ps) (lg_left l)) (lg_line l) (lg_done l))
| lg_exchange i l : at_pc (lg_lock l) i = Exchange ->
    log_step l (mk_log (exchange i (lg_lock l)) (lg_message l) (lg_left l) (lg_line l) (lg_done l))
| lg_load i l : at_pc (lg_lock l) i = Spin ->
    log_step l (mk_log (spin_load i (lg_lock l)) (lg_message l) (lg_left l) (lg_line l) (lg_done l))
| lg_send i c s l : at_pc (lg_lock l) i = Holding -> lg_left l i = c :: s ->
    log_step l (mk_log (lg_lock l) (lg_message l) (set_at i s (lg_left l)) (lg_line l ++ [c]) (lg_done l))
| lg_unlock i l : at_pc (lg_lock l) i = Holding -> lg_left l i = [] ->
    log_step l (mk_log (spinlock_unlock i (lg_lock l)) (lg_message l) (lg_left l) (lg_line l) (lg_done l ++ [lg_message l i])).

Definition log_init : log := mk_log spin_init (fun _ => []) (fun _ => []) [] [].

(** The line holds the complete messages, then the part of the message of the
    holder of the lock that it has printed; the others have printed nothing. *)
Record log_inv (l : log) : Prop := mk_log_inv {
  li_spin : spin_inv (lg_lock l);
  li_wait i : at_pc (lg_lock l) i = Exchange \/ at_pc (lg_lock l) i = Spin -> lg_left l i = wire (lg_message l i);
  li_line : exists part, lg_line l = flat_map wire (lg_done l) ++ part /\
    ((part = [] /\ forall i, at_pc (lg_lock l) i <> Holding) \/
     exists i, at_pc (lg_lock l) i = Holding /\ wire (lg_message l i) = part ++ lg_left l i);
  li_pieces i : at_pc (lg_lock l) i <> Idle -> Forall piece_ok (lg_message l i);
  li_done : Forall (Forall piece_ok) (lg_done l)
}.

Lemma set_at_eq {A} i (v : A) f : set_at i v f i = v.
Proof. unfold set_at. by rewrite Z.eqb_refl. Qed.
Lemma set_at_ne {A} i j (v : A) f : j <> i -> set_at i v f j = f j.
Proof. intros Hne. unfold set_at. by rewrite (proj2 (Z.eqb_neq _ _)). Qed.

Lemma holding_unique s i j : spin_inv s -> at_pc s i = Holding -> at_pc s j = Holding -> i = j.
Proof. intros [[_ Hn]|(_ & k & _ & Hu)] Hi Hj; [by destruct (Hn i)|]. by rewrite (Hu i), (Hu j). Qed.

(** A step of a processor that neither takes nor releases the lock. *)
Lemma log_inv_pass l i p msg left :
  log_inv l -> at_pc (lg_lock l) i <> Holding -> p <> Holding ->
  (p = Exchange \/ p = Spin -> left i = wire (msg i)) -> Forall piece_ok (msg i) ->
  (forall j, j <> i -> msg j = lg_message l j /\ left j = lg_left l j) ->
  log_inv (mk_log (mk_spin (value (lg_lock l)) (set_pc i p (at_pc (lg_lock l)))) msg left (lg_line l) (lg_done l)).
Proof.
  intros [Hs Hw (part & Hl & Hp) Hok Hd] Hi Hpn Hlm Hmi Hoth. split; cbn [lg_lock lg_left lg_message lg_line lg_done at_pc].
  - by apply spin_inv_other.
  - intros j. destruct (Z.eq_dec j i) as [->|Hne]; [rewrite set_pc_eq; exact Hlm|]. rewrite set_pc_ne by done.
    destruct (Hoth j Hne) as [-> ->]. apply Hw.
  - exists part. split; [done|]. destruct Hp as [[-> Hn]|(k & Hk & Hm)]; [left|right].
    + split; [done|]. intros j. unfold set_pc. case_test; [done|apply Hn].
    + assert (k <> i) as Hki by congruence. exists k. rewrite set_pc_ne by done. by destruct (Hoth k Hki) as [-> ->].
  - intros j. destruct (Z.eq_dec j i) as [->|Hne]; [done|]. rewrite set_pc_ne by done. destruct (Hoth j Hne) as [-> _]. apply Hok.
  - done.
Qed.

Lemma log_inv_take l i :
  log_inv l -> at_pc (lg_lock l) i = Exchange -> value (lg_lock l) = 0 ->
  log_inv (mk_log (exchange i (lg_lock l)) (lg_message l) (lg_left l) (lg_line l) (lg_done l)).
Proof.
  intros [Hs Hw (part & Hl & Hp) Hok Hd] Hi Hv. assert (forall j, at_pc (lg_lock l) j <> Holding) as Hn.
  { destruct Hs as [[_ Hn]|[Hv' _]]; [done|lia]. }
  assert (part = []) as -> by (destruct Hp as [[-> _]|(k & Hk & _)]; [done|by destruct (Hn k)]).
  split; cbn [lg_lock lg_left lg_message lg_line lg_done].
  - eapply spin_inv_step; [by apply sp_exchange|done].
  - intros j. unfold exchange. rewrite Hv. cbn [at_pc Z.eqb]. unfold set_pc. case_test; [naive_solver|apply Hw].
  - exists []. split; [done|]. right. exists i. unfold exchange. rewrite Hv. cbn [at_pc Z.eqb]. rewrite set_pc_eq.
    split; [done|]. symmetry. apply Hw. by left.
  - intros j. unfold exchange. rewrite Hv. cbn [at_pc Z.eqb]. unfold set_pc.
    case_test; [bool_to_prop; subst j; intros _; apply Hok; congruence|apply Hok].
  - done.
Qed.

Lemma log_inv_send l i c s :
  log_inv l -> at_pc (lg_lock l) i = Holding -> lg_left l i = c :: s ->
  log_inv (mk_log (lg_lock l) (lg_message l) (set_at i s (lg_left l)) (lg_line l ++ [c]) (lg_done l)).
Proof.
  intros [Hs Hw (part & Hl & Hp) Hok Hd] Hi Hleft. split; cbn [lg_lock lg_left lg_message lg_line lg_done]; [done| | |done|done].
  - intros j Hj. rewrite set_at_ne by (intros ->; intuition congruence). by apply Hw.
  - exists (part ++ [c]). rewrite Hl, <- app_assoc. split; [done|]. right. exists i.
    split; [done|]. rewrite set_at_eq. destruct Hp as [[_ Hn]|(k & Hk & Hm)]; [by destruct (Hn i)|].
    assert (k = i) as -> by (by eapply holding_unique). by rewrite Hm, Hleft, <- app_assoc.
Qed.

Lemma log_inv_unlock l i :
  log_inv l -> at_pc (lg_lock l) i = Holding -> lg_left l i = [] ->
  log_inv (mk_log (spinlock_unlock i (lg_lock l)) (lg_message l) (lg_left l) (lg_line l) (lg_done l ++ [lg_message l i])).
Proof.
  intros [Hs Hw (part & Hl & Hp) Hok Hd] Hi Hleft. split; cbn [lg_lock lg_left lg_message lg_line lg_done].
  - eapply spin_inv_step; [by apply sp_unlock|done].
  - intros j. cbn [spinlock_unlock at_pc]. unfold set_pc. case_test; [naive_solver|apply Hw].
  - exists []. destruct Hp as [[_ Hn]|(k & Hk & Hm)]; [by destruct (Hn i)|].
    assert (k = i) as -> by (by eapply holding_unique). rewrite Hleft, app_nil_r in Hm. rewrite flat_map_app. cbn [flat_map].
    rewrite !app_nil_r, Hm. split; [done|]. left. split; [done|]. intros j. cbn [spinlock_unlock at_pc]. unfold set_pc.
    case_test; [done|]. intros Hj. assert (j = i) as -> by (by eapply holding_unique). by rewrite Z.eqb_refl in E.
  - intros j. cbn [spinlock_unlock at_pc]. unfold set_pc. case_test; [done|apply Hok].
  - apply Forall_app; split; [done|]. apply Forall_singleton, Hok. congruence.
Qed.

Lemma log_inv_step l l' : log_step l l' -> log_inv l -> log_inv l'.
Proof.
  intros Hstep Hinv. destruct Hstep as [i ps l Hi Hps|i l Hi|i l Hi|i c s l Hi Hleft|i l Hi Hleft].
  - apply log_inv_pass; [done|congruence|done|by rewrite !set_at_eq|by rewrite set_at_eq|]. intros j Hne. by rewrite !set_at_ne.
  - destruct (Z.eq_dec (value (lg_lock l)) 0) as [Hv|Hv]; [by apply log_inv_take|].
    assert (exchange i (lg_lock l) = mk_spin (value (lg_lock l)) (set_pc i Spin (at_pc (lg_lock l)))) as ->.
    { unfold exchange. rewrite (proj2 (Z.eqb_neq _ _)) by done. f_equal. pose proof (li_spin _ Hinv) as [[? _]|[? _]]; [lia|done]. }
    apply log_inv_pass; [done|congruence|done| |apply (li_pieces _ Hinv); congruence|done]. intros _. apply (li_wait _ Hinv). by left.
  - apply log_inv_pass; [done|congruence|by case_test| |apply (li_pieces _ Hinv); congruence|done]. intros _. apply (li_wait _ Hinv). by right.
  - by apply log_inv_send.
  - by apply log_inv_unlock.
Qed.

(** ** Properties *)

Section Properties.
Context {D : Type} `{Uart D}.

(** after [serial_init] of a line that is not in divisor mode, the line runs
    with eight bits at 38400 baud without interrupts, every [kprintf] of a message
    ends, leaves the lock free and the interrupt flag as it was, and the line carries
    exactly the texts of the messages: literal text, strings, decimal and hexadecimal
    numbers. *)
Theorem kprintf_prints fuel (msgs : list (list piece)) (d : D) intr :
  (uart_delay < fuel)%nat -> dlab (uart_state d) = false -> Forall (Forall piece_ok) msgs ->
  exists s', foldl (fun s ps => s ≫= kprintf fuel (message_format ps ++ [0]) (message_args ps))
      (Some (mk_serial (serial_init d) false intr)) msgs = Some s' /\
    line_ok (uart_state (sr_dev s')) /\ sr_locked s' = false /\ sr_if s' = intr /\
    uart_sent (sr_dev s') = uart_sent d ++ crlf (flat_map message_text msgs).
Proof.
  intros Hf Hd Hm. destruct (serial_init_ok d Hd) as [Hl0 Ht0]. rewrite <- Ht0. clear Hd Ht0.
  revert Hl0. generalize (serial_init d). clear d. induction Hm as [|ps msgs Hps Hm IH]; intros d Hl.
  { exists (mk_serial d false intr). cbn. rewrite app_nil_r. done. }
  destruct (pieces_printed fuel Hf ps [] d) as (d1 & [Hs1 Ht1] & E1); [done..|].
  destruct (IH d1) as (s' & E & H1 & H2 & H3 & H4); [by rewrite Hs1|]. exists s'. cbn [foldl mbind option_bind].
  unfold kprintf at 2. cbn [sr_locked sr_dev sr_if]. rewrite E1. cbn [mbind option_bind]. rewrite E.
  split; [done|]. split; [done|]. split; [done|]. split; [done|]. rewrite H4, Ht1. cbn [flat_map]. by rewrite crlf_app, app_assoc.
Qed.
End Properties.

(** C33: however the processors that call [kprintf] interleave, byte by byte, the line
    holds what calls of [kprintf] one after the other would have put on it, for the
    messages that are complete in the order of their completion, followed by the part that
    the one holder of the lock has sent of its own.  (Programs that write through
    ORE_SYS_WRITE do not take the lock, see [user_write_splits_message].) *)
Theorem log_messages_whole {D} `{Uart D} fuel (d : D) intr l :
  (uart_delay < fuel)%nat -> dlab (uart_state d) = false -> rtc log_step log_init l ->
  exists s' part, foldl (fun s ps => s ≫= kprintf fuel (message_format ps ++ [0]) (message_args ps))
      (Some (mk_serial (serial_init d) false intr)) (lg_done l) = Some s' /\
    uart_sent d ++ lg_line l = uart_sent (sr_dev s') ++ part /\
    ((part = [] /\ forall i, at_pc (lg_lock l) i <> Holding) \/
     exists i, at_pc (lg_lock l) i = Holding /\ wire (lg_message l i) = part ++ lg_left l i).
Proof.
  intros Hf Hd Hr. assert (log_inv log_init) as Hinit.
  { split; cbn; [by left|done| |done|apply Forall_nil_2]. exists []. split; [done|]. by left. }
  assert (log_inv l) as [_ _ (part & Hl & Hp) _ Hok] by (induction Hr; eauto using log_inv_step).
  destruct (kprintf_prints fuel (lg_done l) d intr Hf Hd Hok) as (s' & E & _ & _ & _ & Ht). exists s', part.
  split; [done|]. split; [|done]. rewrite Ht, Hl, <- !app_assoc. do 2 f_equal. clear. induction (lg_done l) as [|ps ms IH]; [done|].
  cbn [flat_map]. rewrite crlf_app, IH. done.
Qed.

(** ** The format of the code *)

(** A format that ends in a percent sign is read past its terminator: what follows
    it in memory is printed. *)
Theorem trailing_percent_overruns {D} `{Ports D} fuel (rest : list Z) (args : list karg) (d : D) :
  kprintf_loop fuel (bytes_of "%" ++ 0 :: rest) args d = serial_putc fuel 0 d ≫= kprintf_loop fuel rest args.
Proof. done. Qed.

(** The message of a program that cannot be loaded asks for a signed number, which
    [kprintf] does not have: it prints a letter, keeps the argument for the next
    number, and the size is not printed. *)
Definition load_failed_format : list Z := bytes_of "process: OreImage load failed pid %u path %s err %d size 0x%lx" ++ [10; 0].

(** Two argument lists that print the same after some text. *)
Lemma text_same_args {D} `{Ports D} fuel s fmt a a' (d : D) :
  forallb (fun c => negb (c =? 0) && negb (c =? ch "%")) s = true ->
  (forall d, kprintf_loop fuel fmt a d = kprintf_loop fuel fmt a' d) ->
  kprintf_loop fuel (s ++ fmt) a d = kprintf_loop fuel (s ++ fmt) a' d.
Proof.
  intros Hs Hf. revert d. induction s as [|c s IH]; intros d; [apply Hf|]. cbn [forallb] in Hs.
  apply andb_prop in Hs as [[Hz Hp]%andb_prop Hs]. cbn [app kprintf_loop]. rewrite Hp. destruct (c =? 0); [done|].
  destruct (serial_putc fuel c d) as [d'|]; [|done]. cbn [mbind option_bind]. by apply IH.
Qed.

Theorem load_failed_hides_size {D} `{Ports D} fuel pid path err size size' (d : D) :
  kprintf_loop fuel load_failed_format [KInt pid; KStr path; KInt err; KInt size] d =
  kprintf_loop fuel load_failed_format [KInt pid; KStr path; KInt err; KInt size'] d.
Proof.
  assert (forall (x : option D) f g, (forall d, f d = g d) -> x ≫= f = (x ≫= g : option D)) as Hb
    by (intros [x|] f g Hfg; [apply Hfg|done]).
  change load_failed_format with (bytes_of "process: OreImage load failed pid " ++ bytes_of "%u" ++ bytes_of " path " ++
    bytes_of "%s" ++ bytes_of " err " ++ bytes_of "%d" ++ bytes_of " size 0x" ++ bytes_of "%lx" ++ [10; 0]).
  apply text_same_args; [done|]. intros d1. apply Hb. clear d1. intros d1.
  apply text_same_args; [done|]. intros d2. apply Hb. clear d2. intros d2.
  apply text_same_args; [done|]. intros d3. apply Hb. clear d3. intros d3.
  apply text_same_args; [done|]. intros d4. apply Hb. clear d4. intros d4. reflexivity.
Qed.

(** [ORE_SYS_WRITE] sends bytes without the lock: they can fall inside a message. *)
Inductive log_step_user : log -> log -> Prop :=
| lu_kernel l l' : log_step l l' -> log_step_user l l'
| lu_write c l : log_step_user l (mk_log (lg_lock l) (lg_message l) (lg_left l) (lg_line l ++ crlf [c]) (lg_done l)).
Lemma ab_ok : Forall piece_ok [PText (bytes_of "ab")].
Proof. apply Forall_singleton. cbn. repeat (apply Forall_cons; split; [unfold byte_ok; repeat split; done || lia|]). apply Forall_nil_2. Qed.

Theorem user_write_splits_message :
  exists l, rtc log_step_user log_init l /\ lg_done l = [[PText (bytes_of "ab")]] /\ lg_line l = bytes_of "axb".
Proof.
  eexists. split.
  - eapply rtc_l; [apply lu_kernel, (lg_call 0 [PText (bytes_of "ab")]); [reflexivity|exact ab_ok]|].
    eapply rtc_l; [apply lu_kernel, (lg_exchange 0); reflexivity|].
    eapply rtc_l; [apply lu_kernel, (lg_send 0 (ch "a") (bytes_of "b")); reflexivity|].
    eapply rtc_l; [apply (lu_write (ch "x"))|].
    eapply rtc_l; [apply lu_kernel, (lg_send 0 (ch "b") []); reflexivity|].
    eapply rtc_l; [apply lu_kernel, (lg_unlock 0); reflexivity|]. apply rtc_refl.
  - by vm_compute.
Qed.

(** ** Examples *)

(** A line that is busy for one poll after each byte. *)
Record demo_uart := mk_demo_uart { du_regs : uart_regs; du_sent : list Z; du_busy : bool }.
#[export] Instance demo_uart_ports : Ports demo_uart := {|
  outb port v d :=
    let r := uart_write (port - COM1) v (du_regs d) in
    if (port =? COM1) && negb (dlab (du_regs d)) && negb (du_busy d) then mk_demo_uart r (du_sent d ++ [v]) true
    else mk_demo_uart r (du_sent d) (du_busy d);
  outw _ _ d := d;
  inb port d := if port =? COM1 + 5 then (if du_busy d then 0x00 else 0x60, mk_demo_uart (du_regs d) (du_sent d) false) else (0, d);
  inw _ d := (0, d)
|}.
#[export] Program Instance demo_uart_ok : Uart demo_uart := {|
  uart_state := du_regs; uart_sent := du_sent; uart_busy d := if du_busy d then 1%nat else O; uart_delay := 1
|}.
Next Obligation. intros d. cbn. by case_test; lia. Qed.
Next Obligation. intros o v d Ho. cbn [outb demo_uart_ports]. replace (COM1 + o - COM1) with o by lia. by case_test. Qed.
Next Obligation. intros o v d Ho. cbn [outb demo_uart_ports]. by rewrite (proj2 (Z.eqb_neq _ _)) by lia. Qed.
Next Obligation. intros v d. cbn [outb demo_uart_ports]. rewrite Z.eqb_refl. by destruct (dlab (du_regs d)), (du_busy d). Qed.
Next Obligation. intros d. cbn [inb demo_uart_ports]. rewrite Z.eqb_refl. by destruct (du_busy d). Qed.
Next Obligation. done. Qed.
Next Obligation. done. Qed.
Next Obligation. intros d. cbn [inb demo_uart_ports]. rewrite Z.eqb_refl. cbn. by case_test. Qed.

Definition demo_message : list piece := [PText (bytes_of "cpu "); PDec 7; PText (bytes_of " at 0x"); PLongHex 0xbeef; PPercent; PText [10]].

Lemma kprintf_prints_witness :
  exists s', kprintf 2 (message_format demo_message ++ [0]) (message_args demo_message)
      (mk_serial (serial_init (mk_demo_uart (mk_uart 0 0 0 0 0 0) [] false)) false true) = Some s' /\
    uart_sent (sr_dev s') = bytes_of "cpu 7 at 0xbeef%" ++ [13; 10] /\ sr_if s' = true.
Proof.
  destruct (kprintf_prints 2 [demo_message] (mk_demo_uart (mk_uart 0 0 0 0 0 0) [] false) true) as (s' & E & _ & _ & Hi & Ht).
  - cbn. lia.
  - reflexivity.
  - apply Forall_singleton. apply Forall_forall. intros p Hp.
    repeat (apply elem_of_cons in Hp as [->|Hp]); [..|by apply elem_of_nil in Hp]; cbn; try done.
    all: repeat (apply Forall_cons; split; [unfold byte_ok; repeat split; done || lia|]); try apply Forall_nil_2; unfold word32, word64; lia.
  - exists s'. split; [exact E|]. split; [exact Ht|exact Hi].
Defined.

Definition demo_log : log :=
  mk_log (exchange 2 (mk_spin 0 (set_pc 2 Exchange (fun _ => Idle)))) (set_at 2 [PText (bytes_of "ab")] (fun _ => []))
    (set_at 2 (bytes_of "b") (set_at 2 (bytes_of "ab") (fun _ => []))) (bytes_of "a") [].

Lemma log_messages_whole_witness :
  exists part, lg_line demo_log = part /\ wire (lg_message demo_log 2) = part ++ bytes_of "b".
Proof.
  destruct (log_messages_whole 2 (mk_demo_uart (mk_uart 0 0 0 0 0 0) [] false) true demo_log) as (s' & part & E & H & Hh).
  - cbn. lia.
  - reflexivity.
  - eapply rtc_l; [apply (lg_call 2 [PText (bytes_of "ab")]); [reflexivity|exact ab_ok]|].
    eapply rtc_l; [apply (lg_exchange 2); reflexivity|].
    eapply rtc_l; [apply (lg_send 2 (ch "a") (bytes_of "b")); reflexivity|]. apply rtc_refl.
  - exists part. injection E as <-. split; [exact H|]. destruct Hh as [[-> Hn]|(i & Hi & Hm)]; [by destruct (Hn 2)|].
    assert (i = 2) as ->; [|exact Hm]. revert Hi. cbn. unfold set_pc. destruct (Z.eqb_spec i 2); [done|discriminate].
Defined.
