(* ===== verification/Block.v ===== *)
(** Block devices (kernel/block.c).

    The root device is a QEMU fw_cfg item or an ATA slave, both driven through
    ports.  [fwcfg_ok] states the documented behaviour of fw_cfg: selecting an
    item rewinds it and each read of the data port returns its next byte.  The
    theorem: a sector read returns exactly those bytes of the item. *)
From stdpp Require Import base numbers list gmap strings.
From Stdlib Require Import ZArith Lia.
From S2P Require Import Prelude Cstring Ports.

(** ** Definitions *)

(** [BlockDevice]; the [read] pointer is the constructor. *)
Inductive BlockDevice :=
  | FwcfgDisk (block_count : Z)
  | AtaSecondary (block_count : Z).

Definition block_count (dev : BlockDevice) : Z :=
  match dev with FwcfgDisk n => n | AtaSecondary n => n end.

Record block_state := mk_blocks { root_block : option BlockDevice; fwcfg_disk_selector : Z }.

Section Block.
Context {D : Type} `{Ports D}.

Definition io_wait (d : D) : D := outb 0x80 0 d.

Fixpoint ata_wait_loop (n : nat) (mask value : Z) (d : D) : Z * D :=
  match n with
  | O => (-1, d)
  | S n =>
      let '(status, d) := inb 0x1F7 d in
      if negb (Z.land status 0x01 =? 0) then (-1, d) else
      if Z.land status mask =? value then (0, d) else ata_wait_loop n mask value d
  end.

Definition ata_wait (mask value : Z) (d : D) : Z * D := ata_wait_loop (Z.to_nat 1000000) mask value d.

(** The result and the sector count. *)
Definition ata_identify_slave (d : D) : Z * Z * D :=
  let d := io_wait (outb 0x1F6 0xB0 d) in
  let d := outb 0x1F5 0 (outb 0x1F4 0 (outb 0x1F3 0 (outb 0x1F2 0 d))) in
  let d := io_wait (outb 0x1F7 0xEC d) in
  let '(status, d) := inb 0x1F7 d in
  if status =? 0 then (-1, 0, d) else
  let '(r, d) := ata_wait 0x88 0x08 d in
  if r <? 0 then (-1, 0, d) else
  let '(identify, d) := read_words 256 0x1F0 d in
  let lba28 := Z.lor (Z.shiftl (nth 61 identify 0) 16) (nth 60 identify 0) in
  (if lba28 =? 0 then -1 else 0, lba28, d).

(** The bytes of the words, low byte first. *)
Definition word_bytes (words : list Z) : list Z :=
  flat_map (fun w => [Z.land w 0xFF; u8 (Z.shiftr w 8)]) words.

Fixpoint ata_read_loop (n : nat) (lba b : Z) (d : D) : Z * list Z * D :=
  match n with
  | O => (0, [], d)
  | S n =>
      let cur := u32 (lba + b) in
      let '(r, d) := ata_wait 0x80 0 d in
      if r <? 0 then (-1, [], d) else
      let d := outb 0x1F6 (Z.lor (Z.lor 0xE0 0x10) (Z.land (Z.shiftr cur 24) 0x0F)) d in
      let d := outb 0x1F2 1 d in
      let d := outb 0x1F3 (Z.land cur 0xFF) d in
      let d := outb 0x1F4 (Z.land (Z.shiftr cur 8) 0xFF) d in
      let d := outb 0x1F5 (Z.land (Z.shiftr cur 16) 0xFF) d in
      let d := outb 0x1F7 0x20 d in
      let '(r, d) := ata_wait 0x88 0x08 d in
      if r <? 0 then (-1, [], d) else
      let '(words, d) := read_words 256 0x1F0 d in
      let '(r, rest, d) := ata_read_loop n lba (b + 1) d in
      (r, word_bytes words ++ rest, d)
  end.

(** The bytes are what was written to the (non-null) buffer. *)
Definition ata_read_slave (lba blocks : Z) (d : D) : Z * list Z * D :=
  if (blocks =? 0) || (0x0FFFFFFF <? lba +u blocks) then (-1, [], d)
  else ata_read_loop (Z.to_nat blocks) lba 0 d.

Definition fwcfg_read8 (d : D) : Z * D := inb 0x511 d.

Definition fwcfg_read_be16 (d : D) : Z * D :=
  let '(a, d) := fwcfg_read8 d in
  let '(b, d) := fwcfg_read8 d in
  (Z.lor (Z.shiftl a 8) b, d).

Definition fwcfg_read_be32 (d : D) : Z * D :=
  let '(a, d) := fwcfg_read8 d in
  let '(b, d) := fwcfg_read8 d in
  let '(c, d) := fwcfg_read8 d in
  let '(e, d) := fwcfg_read8 d in
  (Z.lor (Z.lor (Z.lor (Z.shiftl a 24) (Z.shiftl b 16)) (Z.shiftl c 8)) e, d).

Definition fwcfg_select (selector : Z) (d : D) : D := outw 0x510 selector d.

(** The string in a [char] array: the bytes before the first zero. *)
Fixpoint until_nul (bs : list Z) : list Z :=
  match bs with [] => [] | b :: bs => if b =? 0 then [] else b :: until_nul bs end.

Definition disk_item_name : list Z := bytes_of "opt/ore/disk"%string.

(** The loop of [fwcfg_find_disk]; the result is the size and the selector. *)
Fixpoint find_disk_loop (n : nat) (d : D) : option (Z * Z) * D :=
  match n with
  | O => (None, d)
  | S n =>
      let '(file_size, d) := fwcfg_read_be32 d in
      let '(file_selector, d) := fwcfg_read_be16 d in
      let '(_, d) := fwcfg_read_be16 d in
      let '(name, d) := read_bytes 56 0x511 d in
      if str_eq (until_nul (take 55 name)) disk_item_name then (Some (file_size, file_selector), d)
      else find_disk_loop n d
  end.

Definition fwcfg_find_disk (d : D) : option (Z * Z) * D :=
  let d := fwcfg_select 0x0019 d in
  let '(count, d) := fwcfg_read_be32 d in
  find_disk_loop (Z.to_nat (Z.min count 128)) d.

(** [n] bytes of the data port read and dropped. *)
Fixpoint fwcfg_skip (n : nat) (d : D) : D :=
  match n with O => d | S n => fwcfg_skip n (fwcfg_read8 d).2 end.

Definition fwcfg_read_disk (selector lba blocks : Z) (d : D) : Z * list Z * D :=
  if blocks =? 0 then (-1, [], d) else
  let offset := lba *u 512 in
  let bytes := blocks *u 512 in
  let d := fwcfg_select selector d in
  let d := fwcfg_skip (Z.to_nat offset) d in
  let '(out, d) := read_bytes (Z.to_nat bytes) 0x511 d in
  (0, out, d).

Definition block_init (bs : block_state) (d : D) : block_state * D :=
  let '(found, d) := fwcfg_find_disk d in
  let ata d :=
    let '(r, sectors, d) := ata_identify_slave d in
    (mk_blocks (if r =? 0 then Some (AtaSecondary sectors) else None) (fwcfg_disk_selector bs), d) in
  match found with
  | Some (fw_size, fw_selector) =>
      if 512 <=? fw_size then (mk_blocks (Some (FwcfgDisk (fw_size / 512))) fw_selector, d) else ata d
  | None => ata d
  end.

Definition block_root_read (bs : block_state) (lba blocks : Z) (d : D) : Z * list Z * D :=
  match root_block bs with
  | None => (-1, [], d)
  | Some dev =>
      if block_count dev <? lba +u blocks then (-1, [], d) else
      match dev with
      | FwcfgDisk _ => fwcfg_read_disk (fwcfg_disk_selector bs) lba blocks d
      | AtaSecondary _ => ata_read_slave lba blocks d
      end
  end.

Definition block_root_count (bs : block_state) : Z :=
  match root_block bs with Some dev => block_count dev | None => 0 end.
End Block.

(** ** The fw_cfg device *)

Section Fwcfg.
Context {D : Type} `{Ports D}.

(** [item k] is the contents of item [k]; [cursor d k pos]: the next read of the
    data port returns byte [pos] of item [k], zero past its end. *)
Record fwcfg_ok (item : Z -> list Z) (cursor : D -> Z -> nat -> Prop) : Prop := {
  fw_select : forall k d, cursor (outw 0x510 k d) k O;
  fw_read : forall d k pos, cursor d k pos ->
    (inb 0x511 d).1 = nth pos (item k) 0 /\ cursor (inb 0x511 d).2 k (S pos);
}.

Context (item : Z -> list Z) (cursor : D -> Z -> nat -> Prop).
Hypothesis Hfw : fwcfg_ok item cursor.

Lemma fwcfg_skip_spec n d k pos : cursor d k pos -> cursor (fwcfg_skip n d) k (n + pos).
Proof.
  revert d pos. induction n as [|n IH]; intros d pos Hc; cbn [fwcfg_skip]; [done|].
  replace (S n + pos)%nat with (n + S pos)%nat by lia. by apply IH, (fw_read _ _ Hfw).
Qed.

Lemma read_bytes_spec n d k pos :
  cursor d k pos ->
  (read_bytes n 0x511 d).1 = map (fun i => nth i (item k) 0) (seq pos n) /\
  cursor (read_bytes n 0x511 d).2 k (pos + n).
Proof.
  revert d pos. induction n as [|n IH]; intros d pos Hc; cbn [read_bytes seq map].
  { rewrite Nat.add_0_r. done. }
  destruct (fw_read _ _ Hfw d k pos Hc) as [H1 H2]. destruct (inb 0x511 d) as [b d1]. cbn [fst snd] in *.
  destruct (IH d1 (S pos) H2) as [H3 H4]. destruct (read_bytes n 0x511 d1) as [bs d2]. cbn [fst snd] in *.
  subst. split; [done|]. by rewrite Nat.add_succ_r.
Qed.
End Fwcfg.

(** [n] bytes of a list from [pos], zero past its end. *)
Definition slice (bs : list Z) (pos n : nat) : list Z := map (fun i => nth i bs 0) (seq pos n).

Lemma slice_take bs pos n : (pos + n <= length bs)%nat -> slice bs pos n = take n (drop pos bs).
Proof.
  intros Hn. apply list_eq. intros i. unfold slice.
  destruct (decide (i < n)%nat) as [Hi|Hi].
  - rewrite lookup_take_lt, lookup_drop by done. rewrite list_lookup_fmap, lookup_seq_lt by done. cbn.
    destruct (nth_lookup_or_length bs (pos + i) 0) as [E|E]; [by rewrite E|lia].
  - rewrite !lookup_ge_None_2; [done|rewrite length_take; lia|rewrite length_map, length_seq; lia].
Qed.

Lemma fwcfg_read_slice {D} `{Ports D} item cursor (Hfw : fwcfg_ok item cursor) sel lba blocks (d : D) :
  0 <= lba < 36028797018963968 -> 0 < blocks < 4294967296 ->
  exists d', fwcfg_read_disk sel lba blocks d =
    (0, slice (item sel) (Z.to_nat (lba * 512)) (Z.to_nat (blocks * 512)), d').
Proof.
  intros Hl Hb. unfold fwcfg_read_disk. rewrite (proj2 (Z.eqb_neq blocks 0)) by lia.
  rewrite (u64_small (lba * 512)), (u64_small (blocks * 512)) by (unfold word64; lia).
  pose proof (fw_select _ _ Hfw sel d) as Hc.
  apply (fwcfg_skip_spec item cursor Hfw (Z.to_nat (lba * 512))) in Hc. rewrite Nat.add_0_r in Hc.
  destruct (read_bytes_spec item cursor Hfw (Z.to_nat (blocks * 512)) _ _ _ Hc) as [Hr _].
  fold (fwcfg_select sel d) in Hr. destruct (read_bytes _ _ _) as [out d']. cbn [fst] in *. rewrite Hr. by exists d'.
Qed.

(** ** Properties *)

(** reading sectors of a fw_cfg root device returns exactly those bytes of
    the item, and fails without touching the device exactly when the range is
    empty or ends beyond the device. *)
Theorem block_root_read_correct {D} `{Ports D} (item : Z -> list Z) cursor bs n lba blocks (d : D) :
  fwcfg_ok item cursor -> root_block bs = Some (FwcfgDisk n) ->
  word32 blocks -> 0 <= lba < 36028797018963968 ->
  let r := block_root_read bs lba blocks d in
  if (0 <? blocks) && (lba + blocks <=? n)
  then r.1 = (0, slice (item (fwcfg_disk_selector bs)) (Z.to_nat (lba * 512)) (Z.to_nat (blocks * 512)))
  else r = (-1, [], d).
Proof.
  intros Hfw Hroot Hb Hl r. unfold r, block_root_read. rewrite Hroot. cbn [block_count].
  unfold word32 in Hb. rewrite u64_small by (unfold word64; lia).
  destruct (Z.ltb_spec n (lba + blocks)), (Z.leb_spec (lba + blocks) n); try lia;
    destruct (Z.ltb_spec 0 blocks); try lia; cbn [andb]; try done.
  - by destruct (fwcfg_read_slice item cursor Hfw (fwcfg_disk_selector bs) lba blocks d ltac:(lia) ltac:(lia)) as [d' ->].
  - unfold fwcfg_read_disk. by rewrite (proj2 (Z.eqb_eq blocks 0)) by lia.
Qed.

(** ** Example: a device with one item *)

(** The selected item and the position in it. *)
Definition demo_item (k : Z) : list Z := if k =? 32 then replicate 512 7 ++ replicate 512 9 else [].
Definition demo_dev : Type := Z * nat.

#[export] Instance demo_ports : Ports demo_dev := {
  outb _ _ d := d;
  outw port v d := if port =? 0x510 then (v, O) else d;
  inb port d := if port =? 0x511 then (nth d.2 (demo_item d.1) 0, (d.1, S d.2)) else (0, d);
  inw _ d := (0, d);
}.

Lemma demo_fwcfg : fwcfg_ok demo_item (fun d k pos => d = (k, pos)).
Proof. split; [done|]. intros d k pos ->. done. Qed.

Lemma block_root_read_correct_witness :
  (block_root_read (mk_blocks (Some (FwcfgDisk 2)) 32) 1 1 ((0, O) : demo_dev)).1 = (0, replicate 512 9).
Proof.
  pose proof (block_root_read_correct demo_item (fun d k pos => d = (k, pos))
    (mk_blocks (Some (FwcfgDisk 2)) 32) 2 1 1 ((0, O) : demo_dev) demo_fwcfg eq_refl
    (conj Z.le_0_1 eq_refl) (conj Z.le_0_1 eq_refl)) as Hr. cbv zeta in Hr.
  change ((0 <? 1) && (1 + 1 <=? 2)) with true in Hr. cbv iota in Hr. etransitivity; [exact Hr|].
  vm_compute. reflexivity.
Defined.
