(* ===== verification/Initramfs.v ===== *)
(** The initial file system (kernel/initramfs.c).

    [initramfs_init] walks a tar archive in memory once and records up to 64
    files; the recorded names and data point into the archive.  The model keeps
    the name as the bytes before its terminator (or before the end of the
    archive) and the data as its address.  [tar] is the archive format as a
    writer produces it, and the theorem is that the walk recovers its files. *)
From stdpp Require Import base numbers list gmap.
From Stdlib Require Import ZArith Lia.
From S2P Require Import Prelude Memory BootInfo Cstring.

(** ** Definitions *)

Definition TAR_BLOCK : Z := 512.

Record InitramfsFile := mk_file { f_name : list Z; f_data : Z; f_size : Z; f_type : Z }.

(** [archive_base], [archive_size] and [files] with [file_count] entries. *)
Record initramfs := mk_initramfs { archive_base : Z; archive_size : Z; files : list InitramfsFile }.

(** The string at [a], at most [n] bytes. *)
Fixpoint cstr (n : nat) (m : mem) (a : Z) : list Z :=
  match n with
  | O => []
  | S n => if load8 m a =? 0 then [] else load8 m a :: cstr n m (a + 1)
  end.

(** [char] comparisons with '0' and '7' agree on bytes and signed chars. *)
Definition octal_step (value c : Z) : Z :=
  if (48 <=? c) && (c <=? 55) then u64 (Z.shiftl value 3) +u (c - 48) else value.

Definition parse_octal (s : list Z) : Z := foldl octal_step 0 s.

Definition block_empty (m : mem) (p : Z) : bool := forallb (fun b => b =? 0) (load_bytes m p TAR_BLOCK).

(** The loop of [initramfs_init] from offset [off]. *)
Fixpoint scan_archive (fuel : nat) (m : mem) (base size off : Z) (fs : list InitramfsFile)
  : option (list InitramfsFile) :=
  if (size <? off +u TAR_BLOCK) || (64 <=? Z.of_nat (length fs)) then Some fs else
  match fuel with
  | O => None
  | S fuel =>
      let hdr := base + off in
      if block_empty m hdr then Some fs else
      let name := cstr (Z.to_nat (size - off)) m hdr in
      let fsize := parse_octal (load_bytes m (hdr + 124) 12) in
      let typeflag := load8 m (hdr + 156) in
      let off := off +u TAR_BLOCK in
      let fs := if negb (char_at name 0 =? 0) && negb (typeflag =? 53)
                then fs ++ [mk_file name (base + off) fsize 1] else fs in
      scan_archive fuel m base size (off +u (fsize +u TAR_BLOCK -u 1) / TAR_BLOCK *u TAR_BLOCK) fs
  end.

Definition initramfs_init (fuel : nat) (m : mem) (bi : BootInfo) : option initramfs :=
  let base := bi_initramfs_base bi in
  let size := bi_initramfs_size bi in
  if (base =? 0) || (size =? 0) then Some (mk_initramfs base size []) else
  match scan_archive fuel m base size 0 [] with
  | Some fs => Some (mk_initramfs base size fs)
  | None => None
  end.

Definition initramfs_count (fs : initramfs) : Z := Z.of_nat (length (files fs)).

Definition initramfs_file (fs : initramfs) (index : Z) : option InitramfsFile :=
  if initramfs_count fs <=? index then None else files fs !! Z.to_nat index.

(** [if (p[0] == '/') p++;] *)
Definition strip_slash (p : list Z) : list Z :=
  match p with c :: r => if c =? 47 then r else p | [] => [] end.

Fixpoint lookup_loop (l : list InitramfsFile) (p : list Z) : option InitramfsFile :=
  match l with
  | [] => None
  | f :: l => if str_eq (f_name f) p then Some f else lookup_loop l p
  end.

Definition initramfs_lookup_raw (fs : initramfs) (path : list Z) : option InitramfsFile :=
  lookup_loop (files fs) (strip_slash path).

(** ** The archive format *)

(** Octal digits of a size field, most significant first. *)
Fixpoint octal (n : nat) (v : Z) : list Z :=
  match n with O => [] | S n => octal n (v / 8) ++ [48 + v mod 8] end.

(** A header block for a member; the fields the walk ignores are arbitrary. *)
Record tar_header (h name : list Z) (size flag : Z) : Prop := {
  th_length : length h = 512%nat;
  th_name : exists rest, h = name ++ 0 :: rest;
  th_cstring : cstring name;
  th_nonempty : name <> [];
  th_size : exists pre post, h = pre ++ octal 11 size ++ 0 :: post /\ length pre = 124%nat;
  th_flag : nth 156 h 0 = flag;
  th_range : 0 <= size < 8589934592;
}.

Record member := mk_member { m_header : list Z; m_name : list Z; m_content : list Z; m_flag : Z }.

Definition member_ok (e : member) : Prop :=
  tar_header (m_header e) (m_name e) (Z.of_nat (length (m_content e))) (m_flag e).

(** The content is padded to whole blocks. *)
Definition padding (n : nat) : nat := Z.to_nat ((Z.of_nat n + 511) / 512 * 512 - Z.of_nat n).

Definition member_bytes (e : member) : list Z :=
  m_header e ++ m_content e ++ replicate (padding (length (m_content e))) 0.

Definition tar (es : list member) (trailer : list Z) : list Z := flat_map member_bytes es ++ trailer.

(** What follows the members: an empty block, or less than a block. *)
Definition tar_end (trailer : list Z) : Prop :=
  (length trailer < 512)%nat \/ exists r, trailer = replicate 512 0 ++ r.

Definition regular (e : member) : bool := negb (m_flag e =? 53).

(** The bytes [bs] lie in memory at [a]. *)
Definition mem_at (m : mem) (a : Z) (bs : list Z) : Prop :=
  forall i b, bs !! i = Some b -> load8 m (a + Z.of_nat i) = b.

(** ** Lemmas *)

Lemma octal_length n v : length (octal n v) = n.
Proof. revert v. induction n as [|n IH]; intros v; cbn; [done|]. rewrite length_app, IH. cbn. lia. Qed.

Lemma parse_octal_digits n v : (n <= 20)%nat -> 0 <= v < 8 ^ Z.of_nat n -> foldl octal_step 0 (octal n v) = v.
Proof.
  revert v. induction n as [|n IH]; intros v Hn Hv; cbn [octal]; [cbn in *; lia|].
  rewrite foldl_app. rewrite Nat2Z.inj_succ, Z.pow_succ_r in Hv by lia.
  rewrite IH by (lia || zlia). cbn [foldl]. unfold octal_step.
  pose proof (Z.mod_pos_bound v 8 ltac:(lia)).
  rewrite (proj2 (Z.leb_le _ _)), (proj2 (Z.leb_le _ _)) by lia. cbn [andb].
  rewrite Z.shiftl_mul_pow2 by lia.
  assert (8 ^ Z.of_nat n <= 8 ^ 19) by (apply Z.pow_le_mono_r; lia).
  change (8 ^ 19) with 144115188075855872 in *. change (2 ^ 3) with 8. word_lia.
Qed.

Lemma parse_octal_field size : 0 <= size < 8589934592 -> parse_octal (octal 11 size ++ [0]) = size.
Proof.
  intros Hs. unfold parse_octal. rewrite foldl_app, parse_octal_digits by (lia || done). done.
Qed.

Lemma mem_at_app m a bs1 bs2 :
  mem_at m a (bs1 ++ bs2) <-> mem_at m a bs1 /\ mem_at m (a + Z.of_nat (length bs1)) bs2.
Proof.
  split.
  - intros Hm. split.
    + intros i b Hi. apply Hm. by apply lookup_app_l_Some.
    + intros i b Hi. specialize (Hm (length bs1 + i)%nat b).
      rewrite lookup_app_r, Nat.add_comm, Nat.add_sub in Hm by lia. rewrite <- Hm by done. f_equal. lia.
  - intros [H1 H2] i b Hi. apply lookup_app_Some in Hi as [Hi|[Hl Hi]]; [by apply H1|].
    rewrite <- (H2 _ _ Hi). f_equal. lia.
Qed.

Lemma mem_at_load_bytes m a bs : mem_at m a bs -> load_bytes m a (Z.of_nat (length bs)) = bs.
Proof.
  intros Hm. unfold load_bytes. rewrite Nat2Z.id. apply list_eq. intros i. rewrite list_lookup_fmap.
  destruct (decide (i < length bs)%nat) as [Hi|Hi].
  - rewrite lookup_seq_lt by done. destruct (lookup_lt_is_Some_2 bs i Hi) as [b Hb]. rewrite Hb. cbn.
    f_equal. by apply Hm.
  - rewrite lookup_seq_ge, lookup_ge_None_2 by lia. done.
Qed.

Lemma cstr_at n m a s :
  mem_at m a (s ++ [0]) -> cstring s -> (length s < n)%nat -> cstr n m a = s.
Proof.
  revert n a. induction s as [|c s IH]; intros n a Hm Hc Hn; destruct n as [|n]; cbn [length] in *; [lia| |lia|].
  - cbn [cstr]. pose proof (Hm O 0 eq_refl) as H0. rewrite Z.add_0_r in H0. by rewrite H0.
  - apply Forall_cons in Hc as [[_ Hc] Hs]. cbn [cstr].
    pose proof (Hm O c eq_refl) as H0. rewrite Z.add_0_r in H0. rewrite H0, (proj2 (Z.eqb_neq c 0)) by done.
    f_equal. apply IH; [|done|lia]. intros i b Hi. rewrite <- (Hm (S i) b Hi). f_equal. lia.
Qed.

Lemma padding_spec n : Z.of_nat n + Z.of_nat (padding n) = (Z.of_nat n + 511) / 512 * 512.
Proof. unfold padding. zlia. Qed.

Lemma member_length e : member_ok e ->
  Z.of_nat (length (member_bytes e)) = 512 + (Z.of_nat (length (m_content e)) + 511) / 512 * 512.
Proof.
  intros Hok. unfold member_bytes. rewrite !length_app, length_replicate, (th_length _ _ _ _ Hok).
  pose proof (padding_spec (length (m_content e))). lia.
Qed.

(** ** The walk *)

Section Walk.
Context (m : mem) (base size : Z).
Hypothesis Hsize : 0 <= base /\ 0 <= size < 4611686018427387904.

Definition file_of (off : Z) (e : member) : InitramfsFile :=
  mk_file (m_name e) (base + off + 512) (Z.of_nat (length (m_content e))) 1.

(** What the walk reads from a header block. *)
Lemma header_reads off e rest :
  member_ok e -> 0 <= off -> mem_at m (base + off) (m_header e ++ rest) ->
  off + Z.of_nat (length (m_header e ++ rest)) = size ->
  block_empty m (base + off) = false /\
  cstr (Z.to_nat (size - off)) m (base + off) = m_name e /\
  parse_octal (load_bytes m (base + off + 124) 12) = Z.of_nat (length (m_content e)) /\
  load8 m (base + off + 156) = m_flag e.
Proof.
  intros Hok Ho Hm Hl. apply mem_at_app in Hm as [Hh _]. rewrite length_app in Hl.
  destruct Hok as [L1 [rn L2] L3 L4 (pre & post & L5 & L6) L7 L8]. split_and!.
  - unfold block_empty. destruct (forallb _ _) eqn:E; [|done]. exfalso.
    destruct (m_name e) as [|c s]; [done|]. apply Forall_cons in L3 as [[_ Hc] _].
    rewrite L2 in Hh. pose proof (Hh O c eq_refl) as H0. rewrite Z.add_0_r in H0.
    rewrite forallb_forall in E. specialize (E c). rewrite Z.eqb_eq in E. apply Hc, E.
    apply list_elem_of_In. unfold load_bytes, TAR_BLOCK. apply list_elem_of_lookup_2 with O.
    change (Z.to_nat 512) with (S 511). cbn [seq map]. change (Z.of_nat 0) with 0. by rewrite Z.add_0_r, H0.
  - apply cstr_at; [|done|pose proof L1 as L1'; rewrite L2, length_app in L1'; cbn in L1'; lia].
    rewrite L2 in Hh. change (0 :: rn) with ([0] ++ rn) in Hh. rewrite app_assoc in Hh.
    by apply mem_at_app in Hh as [Hh _].
  - rewrite L5 in Hh. apply mem_at_app in Hh as [_ Hh]. rewrite L6 in Hh.
    change (0 :: post) with ([0] ++ post) in Hh. rewrite app_assoc in Hh. apply mem_at_app in Hh as [Hh _].
    change (Z.of_nat 124) with 124 in Hh. pose proof (mem_at_load_bytes _ _ _ Hh) as Hb.
    rewrite length_app, octal_length in Hb. change (Z.of_nat (11 + length [0])) with 12 in Hb.
    rewrite Hb. by apply parse_octal_field.
  - rewrite <- L7. destruct (nth_lookup_or_length (m_header e) 156 0) as [E|E]; [|lia].
    exact (Hh 156%nat _ E).
Qed.

Lemma scan_stop fuel off fs trailer :
  0 <= off -> mem_at m (base + off) trailer -> off + Z.of_nat (length trailer) = size -> tar_end trailer ->
  scan_archive (S fuel) m base size off fs = Some fs.
Proof.
  intros Ho Hm Hl He. cbn [scan_archive]. rewrite (u64_small (off + TAR_BLOCK)) by (unfold word64, TAR_BLOCK; lia).
  destruct (Z.ltb_spec size (off + TAR_BLOCK)) as [|Hge]; cbn [orb]; [done|]. case_test; [done|].
  destruct He as [Hs|[r ->]]; [unfold TAR_BLOCK in *; lia|].
  apply mem_at_app in Hm as [Hm _]. apply mem_at_load_bytes in Hm. rewrite length_replicate in Hm.
  unfold block_empty. change TAR_BLOCK with (Z.of_nat 512). rewrite Hm. done.
Qed.

(** The files of the members from offset [off]. *)
Fixpoint files_from (off : Z) (es : list member) : list InitramfsFile :=
  match es with
  | [] => []
  | e :: es => (if regular e then [file_of off e] else []) ++
               files_from (off + Z.of_nat (length (member_bytes e))) es
  end.

Lemma scan_members es trailer fuel off fs :
  Forall member_ok es -> tar_end trailer -> 0 <= off ->
  mem_at m (base + off) (tar es trailer) -> off + Z.of_nat (length (tar es trailer)) = size ->
  (length fs + length (files_from off es) <= 64)%nat -> (length es < fuel)%nat ->
  scan_archive fuel m base size off fs = Some (fs ++ files_from off es).
Proof.
  intros Hok He. revert fuel off fs. induction es as [|e es IH]; intros fuel off fs Ho Hm Hl H64 Hf.
  - cbn [tar flat_map app files_from] in *. rewrite app_nil_r. destruct fuel as [|fuel]; [cbn in Hf; lia|].
    by apply (scan_stop fuel off fs trailer).
  - apply Forall_cons in Hok as [Hoke Hok]. specialize (IH Hok).
    destruct fuel as [|fuel]; [cbn in Hf; lia|]. cbn [length] in Hf.
    assert (tar (e :: es) trailer = member_bytes e ++ tar es trailer) as Et.
    { unfold tar. cbn [flat_map]. by rewrite app_assoc. }
    rewrite Et in Hm, Hl. pose proof (member_length e Hoke) as Hml.
    pose proof (th_range _ _ _ _ Hoke) as Hrng. rewrite length_app in Hl.
    set (n := Z.of_nat (length (m_content e))) in *.
    assert (0 <= n) as Hn by lia. assert (0 <= (n + 511) / 512) as Hq by zlia.
    assert ((n + 511) / 512 * 512 < 8589934592 + 1024) as Hqb by zlia.
    destruct (header_reads off e (m_content e ++ replicate (padding (length (m_content e))) 0 ++ tar es trailer) Hoke Ho)
      as (E1 & E2 & E3 & E4).
    { unfold member_bytes in Hm. by rewrite <- !app_assoc in Hm. }
    { unfold member_bytes in Hl. rewrite !length_app in *. lia. }
    cbn [scan_archive]. rewrite (u64_small (off + TAR_BLOCK)) by (unfold word64, TAR_BLOCK; lia).
    rewrite (proj2 (Z.ltb_ge size (off + TAR_BLOCK))) by (unfold TAR_BLOCK; lia). cbn [orb].
    destruct (Z.leb_spec 64 (Z.of_nat (length fs))) as [Hfull|Hroom].
    { destruct (files_from off (e :: es)) as [|f l]; [by rewrite app_nil_r|cbn [length] in H64; lia]. }
    rewrite E1, E2, E3, E4. fold n.
    unfold TAR_BLOCK in *.
    rewrite (u64_small (n + 512)) by (unfold word64; lia).
    replace (n + 512 - 1) with (n + 511) by lia.
    rewrite (u64_small (n + 511)), (u64_small ((n + 511) / 512 * 512)) by (unfold word64; lia).
    rewrite (u64_small (off + 512 + _)) by (unfold word64; lia).
    replace (off + 512 + (n + 511) / 512 * 512) with (off + Z.of_nat (length (member_bytes e))) by lia.
    assert (negb (char_at (m_name e) 0 =? 0) = true) as ->.
    { pose proof (th_cstring _ _ _ _ Hoke) as Hc. pose proof (th_nonempty _ _ _ _ Hoke) as Hne.
      destruct (m_name e) as [|c s]; [done|]. apply Forall_cons in Hc as [[_ Hc] _].
      unfold char_at. cbn [nth]. by rewrite (proj2 (Z.eqb_neq c 0)). }
    cbn [andb]. fold (regular e). apply mem_at_app in Hm as [_ Hm]. rewrite <- Z.add_assoc in Hm.
    cbn [files_from] in *. rewrite length_app in H64.
    rewrite IH; [|lia|done|lia| |lia].
    + destruct (regular e); [|done]. rewrite <- app_assoc. cbn [app]. unfold file_of. fold n.
      by rewrite (Z.add_assoc base off 512).
    + destruct (regular e); rewrite ?length_app; cbn [length] in *; lia.
Qed.
End Walk.

(** ** Files and members *)

Definition holds (m : mem) (f : InitramfsFile) (e : member) : Prop :=
  f_name f = m_name e /\ f_size f = Z.of_nat (length (m_content e)) /\ f_type f = 1 /\
  load_bytes m (f_data f) (f_size f) = m_content e.

Lemma files_from_hold m base es trailer off :
  Forall member_ok es -> mem_at m (base + off) (tar es trailer) ->
  Forall2 (holds m) (files_from base off es) (List.filter regular es).
Proof.
  revert off. induction es as [|e es IH]; intros off Hok Hm; cbn [files_from List.filter]; [constructor|].
  apply Forall_cons in Hok as [Hoke Hok].
  assert (tar (e :: es) trailer = member_bytes e ++ tar es trailer) as Et.
  { unfold tar. cbn [flat_map]. by rewrite app_assoc. }
  rewrite Et in Hm. apply mem_at_app in Hm as [He Hm]. rewrite <- Z.add_assoc in Hm.
  specialize (IH _ Hok Hm). destruct (regular e); [|done]. cbn [app]. constructor; [|done].
  unfold member_bytes in He. apply mem_at_app in He as [_ He]. apply mem_at_app in He as [He _].
  rewrite (th_length _ _ _ _ Hoke) in He. split_and!; [done..|]. by apply mem_at_load_bytes.
Qed.

Lemma lookup_loop_find m l es p :
  Forall2 (holds m) l es ->
  match List.find (fun e => str_eq (m_name e) p) es with
  | Some e => exists f, lookup_loop l p = Some f /\ holds m f e
  | None => lookup_loop l p = None
  end.
Proof.
  induction 1 as [|f e l es Hf _ IH]; cbn [List.find lookup_loop]; [done|].
  pose proof Hf as (-> & _). destruct (str_eq (m_name e) p); [by exists f|done].
Qed.

(** ** Termination *)

Lemma octal_step_bound v c k : 0 <= v < k -> 8 * k <= 18446744073709551616 -> 0 <= octal_step v c < 8 * k.
Proof.
  intros Hv Hk. unfold octal_step. case_test; [|lia]. bool_to_prop. rewrite Z.shiftl_mul_pow2 by lia.
  change (2 ^ 3) with 8. word_lia.
Qed.

Lemma parse_octal_bound s : (length s <= 20)%nat -> 0 <= parse_octal s < 8 ^ Z.of_nat (length s).
Proof.
  unfold parse_octal. induction s as [|c s IH] using rev_ind; intros Hl; [cbn; lia|].
  rewrite length_app in *. cbn [length] in *. rewrite foldl_app. cbn [foldl].
  replace (Z.of_nat (length s + 1)) with (Z.succ (Z.of_nat (length s))) by lia. rewrite Z.pow_succ_r by lia.
  apply octal_step_bound; [apply IH; lia|].
  assert (8 ^ Z.of_nat (length s) <= 8 ^ 19) by (apply Z.pow_le_mono_r; lia).
  change (8 ^ 19) with 144115188075855872 in *. lia.
Qed.

(** The files the walk may record. *)
Definition file_in (base size : Z) (f : InitramfsFile) : Prop :=
  f_type f = 1 /\ base + 512 <= f_data f <= base + size /\ 0 <= f_size f < 68719476736.

Lemma scan_archive_total fuel m base size off fs :
  0 <= size < 4611686018427387904 -> 0 <= off <= size + 137438953472 -> (size - off) / 512 < Z.of_nat fuel ->
  Forall (file_in base size) fs -> (length fs <= 64)%nat ->
  exists fs', scan_archive fuel m base size off fs = Some fs' /\
    Forall (file_in base size) fs' /\ (length fs' <= 64)%nat.
Proof.
  intros Hs. revert off fs. induction fuel as [|fuel IH]; intros off fs Ho Hf Hfs H64; cbn [scan_archive];
    unfold TAR_BLOCK; rewrite (u64_small (off + 512)) by (unfold word64; lia).
  - rewrite (proj2 (Z.ltb_lt size (off + 512))) by zlia. by exists fs.
  - destruct (Z.ltb_spec size (off + 512)) as [|Hin]; cbn [orb]; [by exists fs|].
    destruct (Z.leb_spec 64 (Z.of_nat (length fs))); [by exists fs|].
    destruct (block_empty m (base + off)); [by exists fs|].
    pose proof (parse_octal_bound (load_bytes m (base + off + 124) 12)) as Hp.
    replace (length (load_bytes m (base + off + 124) 12)) with 12%nat in Hp
      by (unfold load_bytes; by rewrite length_map, length_seq).
    specialize (Hp ltac:(lia)). change (8 ^ Z.of_nat 12) with 68719476736 in Hp.
    set (n := parse_octal _) in *. clearbody n.
    rewrite (u64_small (n + 512)), (u64_small (n + 512 - 1)) by (unfold word64; lia).
    assert (0 <= (n + 512 - 1) / 512 * 512 < 68719476736 + 1024) as Hq by zlia.
    rewrite (u64_small ((n + 512 - 1) / 512 * 512)) by (unfold word64; lia).
    rewrite (u64_small (off + 512 + _)) by (unfold word64; lia).
    apply IH; [lia|zlia|..]; case_test; try done.
    + apply Forall_app. split; [done|]. constructor; [|constructor]. unfold file_in. cbn. lia.
    + rewrite length_app. cbn. lia.
Qed.

(** ** Properties *)

(** C19: walking an archive written by tar (at most 64 regular members, any
    values in the fields the walk ignores) records exactly the regular members
    in order, with their names, sizes and contents, and looking up a path finds
    the first member of that name, with or without a leading slash. *)
Theorem initramfs_roundtrip m bi es trailer fuel :
  let base := bi_initramfs_base bi in
  mem_at m base (tar es trailer) -> bi_initramfs_size bi = Z.of_nat (length (tar es trailer)) ->
  0 < base -> 0 < bi_initramfs_size bi < 4611686018427387904 ->
  Forall member_ok es -> tar_end trailer -> (length (List.filter regular es) <= 64)%nat -> (length es < fuel)%nat ->
  exists fs, initramfs_init fuel m bi = Some fs /\
    Forall2 (holds m) (files fs) (List.filter regular es) /\
    forall path,
      match List.find (fun e => str_eq (m_name e) (strip_slash path)) (List.filter regular es) with
      | Some e => exists f, initramfs_lookup_raw fs path = Some f /\ holds m f e
      | None => initramfs_lookup_raw fs path = None
      end.
Proof.
  intros base Hm Hsz Hb Hs Hok He H64 Hf. unfold initramfs_init. fold base.
  rewrite (proj2 (Z.eqb_neq base 0)), (proj2 (Z.eqb_neq (bi_initramfs_size bi) 0)) by lia. cbn [orb].
  assert (mem_at m (base + 0) (tar es trailer)) as Hm0 by by rewrite Z.add_0_r.
  pose proof (files_from_hold m base es trailer 0 Hok Hm0) as Hh. pose proof (Forall2_length _ _ _ Hh) as Hlen.
  rewrite (scan_members m base (bi_initramfs_size bi) ltac:(lia) es trailer fuel 0 [] Hok He ltac:(lia) Hm0);
    [|lia|cbn [length]; lia|done].
  eexists. split; [done|]. cbn [files app]. split; [done|]. intros path. by apply lookup_loop_find.
Qed.

(** the walk terminates on any memory contents: one iteration per 512 bytes
    of the archive is enough fuel; it records at most 64 files, whose data
    starts inside the archive. *)
Theorem initramfs_init_total m bi fuel :
  0 <= bi_initramfs_size bi < 4611686018427387904 -> bi_initramfs_size bi / 512 < Z.of_nat fuel ->
  exists fs, initramfs_init fuel m bi = Some fs /\ initramfs_count fs <= 64 /\
    Forall (file_in (bi_initramfs_base bi) (bi_initramfs_size bi)) (files fs).
Proof.
  intros Hs Hf. unfold initramfs_init. case_test.
  { eexists. split; [done|]. cbn. split; [unfold initramfs_count; cbn; lia|constructor]. }
  destruct (scan_archive_total fuel m (bi_initramfs_base bi) (bi_initramfs_size bi) 0 [] Hs) as (fs & -> & Hfs & Hl);
    [lia|by rewrite Z.sub_0_r|constructor|cbn; lia|].
  eexists. split; [done|]. unfold initramfs_count. cbn [files]. split; [lia|done].
Qed.

(** ** Example: an archive with one file *)

Lemma mem_at_store m a bs : Forall byte_ok bs -> mem_at (store_bytes m a bs) a bs.
Proof.
  intros Hb i b Hi. pose proof (lookup_lt_Some _ _ _ Hi) as Hl. rewrite load8_store_bytes.
  rewrite (proj2 (Z.leb_le _ _)), (proj2 (Z.ltb_lt _ _)) by lia. cbn [andb].
  replace (Z.to_nat (a + Z.of_nat i - a)) with i by lia. rewrite (nth_lookup_Some _ _ _ _ Hi).
  apply u8_small. rewrite Forall_lookup in Hb. by apply (Hb i).
Qed.

Definition demo_header (size : Z) : list Z :=
  [105; 110; 105; 116] ++ replicate 120 0 ++ octal 11 size ++ 0 :: replicate 20 0 ++ 48 :: replicate 355 0.
Definition demo_member : member := mk_member (demo_header 3) [105; 110; 105; 116] [1; 2; 3] 48.
Definition demo_tar : list Z := tar [demo_member] (replicate 512 0).
Definition demo_tar_boot (size : Z) : BootInfo := {|
  bi_magic := ORE_BOOTINFO_MAGIC; bi_rsdp := 0; bi_kernel_base := 0; bi_kernel_size := 0;
  bi_initramfs_base := 0x200000; bi_initramfs_size := size;
  bi_framebuffer := {| fb_base := 0; fb_width := 0; fb_height := 0; fb_pixels_per_scanline := 0; fb_pixel_format := 0 |};
  bi_memory_map_entries := 0; bi_memory_map_descriptor_size := 0; bi_memory_map := []; bi_cmdline := [] |}.
Definition demo_tar_mem : mem := store_bytes ∅ 0x200000 demo_tar.

Lemma demo_member_ok : member_ok demo_member.
Proof.
  split.
  - reflexivity.
  - by exists (replicate 119 0 ++ octal 11 3 ++ 0 :: replicate 20 0 ++ 48 :: replicate 355 0).
  - repeat constructor; unfold byte_ok; cbn; lia.
  - discriminate.
  - exists ([105; 110; 105; 116] ++ replicate 120 0), (replicate 20 0 ++ 48 :: replicate 355 0). done.
  - reflexivity.
  - cbn. lia.
Qed.

Lemma demo_tar_bytes : Forall byte_ok demo_tar.
Proof.
  assert (forallb (fun b => (0 <=? b) && (b <? 256)) demo_tar = true) as Hb by (vm_compute; reflexivity).
  apply List.Forall_forall. intros b Hin. rewrite forallb_forall in Hb. specialize (Hb b Hin).
  bool_to_prop. unfold byte_ok. lia.
Qed.

Lemma initramfs_roundtrip_witness : exists fs f,
  initramfs_init 4 demo_tar_mem (demo_tar_boot 1536) = Some fs /\
  initramfs_lookup_raw fs [47; 105; 110; 105; 116] = Some f /\ holds demo_tar_mem f demo_member.
Proof.
  destruct (initramfs_roundtrip demo_tar_mem (demo_tar_boot 1536) [demo_member] (replicate 512 0) 4)
    as (fs & E & _ & Hl).
  - exact (mem_at_store ∅ 0x200000 demo_tar demo_tar_bytes).
  - reflexivity.
  - reflexivity.
  - split; reflexivity.
  - constructor; [exact demo_member_ok|constructor].
  - right. by exists [].
  - cbn. lia.
  - cbn. lia.
  - destruct (Hl [47; 105; 110; 105; 116]) as (f & Ef & Hf). exists fs, f. split; [exact E|split; [exact Ef|exact Hf]].
Defined.

Lemma initramfs_init_total_witness : exists fs,
  initramfs_init 4 demo_tar_mem (demo_tar_boot 1536) = Some fs /\ initramfs_count fs <= 64.
Proof.
  destruct (initramfs_init_total demo_tar_mem (demo_tar_boot 1536) 4) as (fs & E & Hc & _).
  - cbn. lia.
  - reflexivity.
  - exists fs. split; [exact E|exact Hc].
Defined.

(** The size of a member is not checked against the archive: a one-block archive
    can record a file of [2^33 - 1] bytes, and reading it reads past the end. *)
Lemma initramfs_size_unchecked :
  match initramfs_init 2 (store_bytes ∅ 0x200000 (demo_header 8589934591)) (demo_tar_boot 512) with
  | Some fs => map f_size (files fs)
  | None => []
  end = [8589934591].
Proof. vm_compute. reflexivity. Qed.
