(* ===== verification/Vfs.v ===== *)
(** The virtual file system (kernel/vfs.c).

    Paths below "/disk" name entries of the OREFS table read from the root block
    device when it is mounted; every other path names a file of the initramfs.
    Directories exist by the names of the files below them.  A read returns the
    bytes it copies to the caller's buffer.  Temporary buffers come from the
    kernel heap, so the operations on disk files thread the heap.

    [vfs_content] is the abstract file system, the contents of a path, and
    [dir_children] the names of a directory; the theorems relate reads and
    directory listings to them. *)
From stdpp Require Import base numbers list gmap strings.
From Stdlib Require Import ZArith Lia.
From S2P Require Import Prelude Memory PageAllocator BootInfo Pmm Heap HeapGuard Cstring Ports Block Initramfs.

(** ** Definitions *)

Definition ORE_VFS_FILE : Z := 1.
Definition ORE_VFS_DIR : Z := 2.

Record VfsStat := mk_stat { vs_name : list Z; vs_type : Z; vs_size : Z }.

Definition OREFS_MAX_ENTRIES : Z := 128.
Definition sizeof_OreFsEntry : Z := 128.

(** An entry; the name is the string at the start of its 128 bytes. *)
Record OreFsEntry := mk_entry { de_name : list Z; de_offset : Z; de_size : Z; de_type : Z }.

(** [mounted], [disk_mounted] and [disk_entries] with [disk_entry_count]. *)
Record vfs_state := mk_vfs { mounted : bool; disk_mounted : bool; disk_entries : list OreFsEntry }.

(** A little-endian number in a byte list. *)
Definition le_at (bs : list Z) (i n : nat) : Z :=
  foldr (fun b acc => b + 256 * acc) 0 (slice bs i n).

(** Entry [i] of a table of bytes. *)
Definition entry_at (table : list Z) (i : nat) : OreFsEntry :=
  let e := drop (128 * i) table in
  mk_entry (until_nul e) (le_at e 96 8) (le_at e 104 8) (le_at e 112 4).

Definition starts_with_dir (name dir : list Z) : bool :=
  match dir with
  | [] => true
  | _ => starts_with name dir && (char_at name (length dir) =? 47)
  end.

Definition path_has_children (fs : initramfs) (path : list Z) : bool :=
  existsb (fun f => starts_with_dir (f_name f) (strip_slash path)) (files fs).

(** The bytes before the first '/' (or the end). *)
Fixpoint component (s : list Z) : list Z :=
  match s with [] => [] | c :: s => if c =? 47 then [] else c :: component s end.

(** [direct_child] and [disk_direct_child] on a name, a type and a size. *)
Definition child_of (dir name : list Z) (type size : Z) : option VfsStat :=
  if negb (starts_with_dir name dir) then None else
  let rel := drop (match dir with [] => 0 | _ => length dir + 1 end) name in
  if char_at rel 0 =? 0 then None else
  let child := copy_name_len rel (length (component rel)) in
  if char_at rel (length (component rel)) =? 47
  then Some (mk_stat child ORE_VFS_DIR 0) else Some (mk_stat child type size).

Definition direct_child (dir : list Z) (f : InitramfsFile) : option VfsStat :=
  child_of dir (f_name f) (f_type f) (f_size f).
Definition disk_direct_child (dir : list Z) (e : OreFsEntry) : option VfsStat :=
  child_of dir (de_name e) (de_type e) (de_size e).

Definition disk_path (path : list Z) : option (list Z) :=
  if str_eq path (bytes_of "/disk"%string) then Some [] else
  if starts_with path (bytes_of "/disk/"%string) then Some (drop 6 path) else None.

Fixpoint disk_lookup_loop (l : list OreFsEntry) (rel : list Z) : option OreFsEntry :=
  match l with
  | [] => None
  | e :: l => if str_eq (de_name e) rel then Some e else disk_lookup_loop l rel
  end.

Definition disk_lookup (v : vfs_state) (path : list Z) : option OreFsEntry :=
  disk_lookup_loop (disk_entries v) (strip_slash (default path (disk_path path))).

Definition disk_has_children (v : vfs_state) (rel : list Z) : bool :=
  match rel with
  | [] => negb (Nat.eqb (length (disk_entries v)) 0)
  | _ => existsb (fun e => starts_with (de_name e) rel && (char_at (de_name e) (length rel) =? 47))
           (disk_entries v)
  end.

Section Vfs.
Context {S : Type} `{PageAllocator S} {D : Type} `{Ports D}.

(** A result together with the heap and the devices. *)
Definition io (A : Type) : Type := option (outcome (A * heap_state S * D)).

(** [tmp = kmalloc(size); ... kfree(tmp);] around a sector read: the bytes of
    the buffer, or [None] when allocation or reading fails. *)
Definition read_sectors (fuel : nat) (bs : block_state) (lba sectors : Z) (h : heap_state S) (d : D)
  : io (option (list Z)) :=
  match kmalloc fuel (sectors *u 512) h with
  | None => None
  | Some (tmp, h) =>
      if tmp =? 0 then Some (Ok (None, h, d)) else
      let '(r, out, d) := block_root_read bs lba (u32 sectors) d in
      let h := with_mem h (store_bytes (hmem h) tmp out) in
      let buf := load_bytes (hmem h) tmp (sectors *u 512) in
      match kfree fuel tmp h with
      | None => None
      | Some (Panic msg) => Some (Panic msg)
      | Some (Ok h) => Some (Ok (if r <? 0 then None else Some buf, h, d))
      end
  end.

Definition mount_disk (fuel : nat) (bs : block_state) (v : vfs_state) (h : heap_state S) (d : D)
  : io (Z * vfs_state) :=
  let '(r, sector, d) := block_root_read bs 0 1 d in
  if r <? 0 then Some (Ok (-1, v, h, d)) else
  if negb (starts_with sector (bytes_of "OREFS1"%string)) then Some (Ok (-1, v, h, d)) else
  let count := le_at sector 12 4 in
  if OREFS_MAX_ENTRIES <? count then Some (Ok (-1, v, h, d)) else
  let entry_bytes := u32 (count * sizeof_OreFsEntry) in
  let entry_sectors := u32 (entry_bytes + 511) / 512 in
  let done_ table h d :=
    Some (Ok (0, mk_vfs (mounted v) true (map (entry_at table) (seq 0 (Z.to_nat count))), h, d)) in
  if entry_sectors =? 0 then done_ [] h d else
  match read_sectors fuel bs 1 (u32 entry_sectors) h d with
  | None => None
  | Some (Panic msg) => Some (Panic msg)
  | Some (Ok (None, h, d)) => Some (Ok (-1, v, h, d))
  | Some (Ok (Some tmp, h, d)) => done_ (take (Z.to_nat entry_bytes) tmp) h d
  end.

Definition vfs_init (v : vfs_state) : vfs_state := mk_vfs false (disk_mounted v) (disk_entries v).

Definition vfs_mount_initramfs (fuel : nat) (bs : block_state) (v : vfs_state) (h : heap_state S) (d : D)
  : io (Z * vfs_state) :=
  let v := mk_vfs true (disk_mounted v) (disk_entries v) in
  match mount_disk fuel bs v h d with
  | Some (Ok (r, v, h, d)) => Some (Ok (0, v, h, d))
  | o => o
  end.

(** Bytes [offset, offset + n) of a disk entry, for the caller's buffer. *)
Definition read_disk_entry (fuel : nat) (bs : block_state) (e : OreFsEntry) (offset buffer_size : Z)
    (h : heap_state S) (d : D) : io (Z * list Z) :=
  if negb (de_type e =? ORE_VFS_FILE) then Some (Ok (-1, [], h, d)) else
  if de_size e <=? offset then Some (Ok (0, [], h, d)) else
  let remaining := de_size e - offset in
  let n := if remaining <? buffer_size then remaining else buffer_size in
  let disk_offset := de_offset e +u offset in
  let first_lba := disk_offset / 512 in
  let lba_off := disk_offset mod 512 in
  let sectors := (lba_off +u n +u 511) / 512 in
  match read_sectors fuel bs first_lba sectors h d with
  | None => None
  | Some (Panic msg) => Some (Panic msg)
  | Some (Ok (None, h, d)) => Some (Ok (-1, [], h, d))
  | Some (Ok (Some tmp, h, d)) => Some (Ok (n, slice tmp (Z.to_nat lba_off) (Z.to_nat n), h, d))
  end.

Definition vfs_read_file_at (fuel : nat) (v : vfs_state) (bs : block_state) (fs : initramfs)
    (path : list Z) (offset buffer_size : Z) (h : heap_state S) (d : D) : io (Z * list Z) :=
  if negb (mounted v) then Some (Ok (-1, [], h, d)) else
  match (if disk_mounted v then disk_path path else None) with
  | Some rel =>
      match disk_lookup v rel with
      | None => Some (Ok (-1, [], h, d))
      | Some e => read_disk_entry fuel bs e offset buffer_size h d
      end
  | None =>
      match initramfs_lookup_raw fs path with
      | None => Some (Ok (-1, [], h, d))
      | Some f =>
          if f_size f <=? offset then Some (Ok (0, [], h, d)) else
          let remaining := f_size f - offset in
          let n := if remaining <? buffer_size then remaining else buffer_size in
          Some (Ok (n, load_bytes (hmem h) (f_data f + offset) n, h, d))
      end
  end.

Definition vfs_read_file (fuel : nat) (v : vfs_state) (bs : block_state) (fs : initramfs)
    (path : list Z) (buffer_size : Z) (h : heap_state S) (d : D) : io (Z * list Z) :=
  vfs_read_file_at fuel v bs fs path 0 buffer_size h d.
End Vfs.

Definition vfs_stat (v : vfs_state) (fs : initramfs) (path : list Z) : Z * VfsStat :=
  let none := (-1, mk_stat [] 0 0) in
  if negb (mounted v) then none else
  if str_eq path [47] then (0, mk_stat [47] ORE_VFS_DIR 0) else
  match (if disk_mounted v then disk_path path else None) with
  | Some [] => (0, mk_stat (bytes_of "disk"%string) ORE_VFS_DIR 0)
  | Some rel =>
      match disk_lookup v rel with
      | Some e => (0, mk_stat (copy_name (de_name e)) (de_type e) (de_size e))
      | None => if disk_has_children v rel then (0, mk_stat (copy_name rel) ORE_VFS_DIR 0) else none
      end
  | None =>
      match initramfs_lookup_raw fs path with
      | None =>
          if negb (path_has_children fs path) then none
          else (0, mk_stat (copy_name (strip_slash path)) ORE_VFS_DIR 0)
      | Some f => (0, mk_stat (copy_name (f_name f)) (f_type f) (f_size f))
      end
  end.

(** The listing loops: [prev] are the entries before the current one.  The
    result is the entry, or the number emitted. *)
Fixpoint readdir_loop {A} (child : A -> option VfsStat) (prev l : list A) (emitted index : Z) : VfsStat + Z :=
  match l with
  | [] => inr emitted
  | x :: l =>
      match child x with
      | None => readdir_loop child (prev ++ [x]) l emitted index
      | Some c =>
          let duplicate := existsb (fun y => match child y with
            | Some c' => str_eq (vs_name c) (vs_name c') | None => false end) prev in
          if duplicate then readdir_loop child (prev ++ [x]) l emitted index
          else if emitted =? index then inl (mk_stat (copy_name (vs_name c)) (vs_type c) (vs_size c))
          else readdir_loop child (prev ++ [x]) l (u32 (emitted + 1)) index
      end
  end.

Definition vfs_readdir_path (v : vfs_state) (fs : initramfs) (path : option (list Z)) (index : Z) : Z * VfsStat :=
  let none := (-1, mk_stat [] 0 0) in
  if negb (mounted v) then none else
  let p := default [47] path in
  match (if disk_mounted v then disk_path p else None) with
  | Some disk_rel =>
      match readdir_loop (disk_direct_child disk_rel) [] (disk_entries v) 0 index with
      | inl st => (0, st)
      | inr _ => none
      end
  | None =>
      let dir := copy_name (strip_slash p) in
      match readdir_loop (direct_child dir) [] (files fs) 0 index with
      | inl st => (0, st)
      | inr emitted =>
          if (char_at dir 0 =? 0) && disk_mounted v && (index =? emitted)
          then (0, mk_stat (bytes_of "disk"%string) ORE_VFS_DIR 0) else none
      end
  end.

Definition vfs_readdir (v : vfs_state) (fs : initramfs) (index : Z) : Z * VfsStat :=
  vfs_readdir_path v fs (Some [47]) index.

Definition vfs_self_test {S} `{PageAllocator S} {D} `{Ports D} (fuel : nat) (v : vfs_state) (bs : block_state)
    (fs : initramfs) (h : heap_state S) (d : D) : option (outcome (heap_state S * D)) :=
  if (vfs_stat v fs [47]).1 <? 0 then Some (Panic "vfs: root stat failed") else
  if initramfs_count fs =? 0 then Some (Ok (h, d)) else
  match initramfs_file fs 0 with
  | None => Some (Panic "vfs: missing first file")
  | Some file =>
      match vfs_read_file fuel v bs fs (f_name file) 32 h d with
      | None => None
      | Some (Panic msg) => Some (Panic msg)
      | Some (Ok (n, _, h, d)) => if n <? 0 then Some (Panic "vfs: read failed") else Some (Ok (h, d))
      end
  end.

(** ** Temporary buffers *)

Section Read.
Context {S : Type} `{PageAllocatorOk S} {D : Type} `{Ports D}.

Lemma load_store_bytes m a bs n :
  Forall byte_ok bs -> (n <= length bs)%nat -> take n (load_bytes (store_bytes m a bs) a (Z.of_nat (length bs))) = take n bs.
Proof. intros Hb Hn. by rewrite (mem_at_load_bytes _ _ _ (mem_at_store m a bs Hb)). Qed.

(** With enough fuel, a sector read returns the device's bytes, or [None] when
    memory has no free pages for the buffer; the heap's clients keep their regions
    and the pages [G] of the rest of the kernel their bytes. *)
Lemma read_sectors_spec G (bs : block_state) lba sectors h live (d d' : D) out :
  guarded G h live -> 0 < sectors < 4294967296 ->
  block_root_read bs lba sectors d = (0, out, d') -> Forall byte_ok out ->
  Z.of_nat (length out) = sectors * 512 ->
  exists F res h' d'', (forall fuel, (F <= fuel)%nat ->
      read_sectors fuel bs lba sectors h d = Some (Ok (res, h', d''))) /\
    guarded G h' live /\ after G (Z.to_nat (pages_for (sectors * 512))) h h' /\
    (res = Some out \/ res = None /\ h' = h /\ d'' = d /\ no_run (pages_for (sectors * 512)) 1 (pages h)).
Proof.
  intros Hi Hs Hr Hb Hl. unfold read_sectors.
  rewrite (u64_small (sectors * 512)), (u32_small sectors) by (unfold word64, word32; lia).
  destruct (alloc_step G (sectors * 512) h live Hi ltac:(lia)) as (F1 & tmp & h1 & Hk & Hi1 & A1 & Hno). unfold grant in Hi1.
  destruct (Z.eqb_spec tmp 0) as [->|Hne].
  { destruct (Hno eq_refl) as [-> Hn]. exists F1, None, h, d. split; [intros fuel Hf; by rewrite Hk|].
    split; [done|]. split; [done|]. by right. }
  destruct (guarded_write G tmp (sectors * 512) out h1 _ Hi1 ltac:(by left) ltac:(lia) Hb) as [Hi2 A2].
  destruct (free_step G tmp (sectors * 512) _ [] live Hi2) as (F2 & h3 & Hf & Hi3 & A3).
  exists (F1 + F2)%nat, (Some out), h3, d'. split; [|split; [done|split; [|by left]]].
  - intros fuel Hfu. rewrite Hk by lia. rewrite (proj2 (Z.eqb_neq tmp 0)) by done. rewrite Hr.
    rewrite Hf by lia. change (0 <? 0) with false. cbv iota. cbn [with_mem hmem].
    rewrite <- Hl, (mem_at_load_bytes _ _ _ (mem_at_store (hmem h1) tmp out Hb)). done.
  - eapply after_mono; [|exact (after_trans G _ _ _ _ _ A1 (after_trans G _ _ _ _ _ A2 A3))]. lia.
Qed.
End Read.

(** ** The abstract file system *)

(** The contents of a path: [disk] are the bytes of the root device and [m] is
    the memory the archive lies in. *)
Definition vfs_content (v : vfs_state) (fs : initramfs) (m : mem) (disk : list Z) (path : list Z)
  : option (list Z) :=
  if negb (mounted v) then None else
  match (if disk_mounted v then disk_path path else None) with
  | Some rel =>
      match disk_lookup v rel with
      | Some e => if de_type e =? ORE_VFS_FILE
                  then Some (slice disk (Z.to_nat (de_offset e)) (Z.to_nat (de_size e))) else None
      | None => None
      end
  | None =>
      match initramfs_lookup_raw fs path with
      | Some f => Some (load_bytes m (f_data f) (f_size f))
      | None => None
      end
  end.

(** Bytes [offset, offset + n) of a content, as many as there are. *)
Definition read_of (c : list Z) (offset n : Z) : list Z := take (Z.to_nat n) (drop (Z.to_nat offset) c).

Lemma slice_lookup bs p n i : (i < n)%nat -> slice bs p n !! i = Some (nth (p + i) bs 0).
Proof. intros Hi. unfold slice. by rewrite list_lookup_fmap, lookup_seq_lt. Qed.

Lemma slice_length bs p n : length (slice bs p n) = n.
Proof. unfold slice. by rewrite length_map, length_seq. Qed.

(** A list given by its length and its bytes is a slice. *)
Lemma slice_eq bs p n l :
  length l = n -> (forall i, (i < n)%nat -> l !! i = Some (nth (p + i) bs 0)) -> l = slice bs p n.
Proof.
  intros Hl Hi. apply list_eq. intros i. destruct (decide (i < n)%nat) as [H|H].
  - by rewrite Hi, slice_lookup.
  - rewrite !lookup_ge_None_2; [done|rewrite slice_length; lia|lia].
Qed.

Lemma slice_slice bs p n q k : (q + k <= n)%nat -> slice (slice bs p n) q k = slice bs (p + q) k.
Proof.
  intros Hq. apply slice_eq; [by rewrite slice_length|]. intros i Hi. rewrite slice_lookup by done. f_equal.
  rewrite (nth_lookup_Some _ _ _ (nth (p + (q + i)) bs 0)); [f_equal; lia|]. apply slice_lookup. lia.
Qed.

Lemma read_of_slice bs p n off k :
  0 <= off -> 0 <= k -> (Z.to_nat off + Z.to_nat k <= n)%nat ->
  read_of (slice bs p n) off k = slice bs (p + Z.to_nat off) (Z.to_nat k).
Proof.
  intros Ho Hk Hn. unfold read_of. rewrite <- slice_take by (rewrite slice_length; lia). by apply slice_slice.
Qed.

Lemma read_of_load m a size off k :
  0 <= off -> 0 <= k -> off + k <= size -> read_of (load_bytes m a size) off k = load_bytes m (a + off) k.
Proof.
  intros Ho Hk Hs. unfold read_of, load_bytes. apply list_eq. intros i.
  destruct (decide (i < Z.to_nat k)%nat) as [Hi|Hi].
  - rewrite lookup_take_lt, lookup_drop, !list_lookup_fmap, !lookup_seq_lt by lia. cbn. do 2 f_equal. lia.
  - rewrite !lookup_ge_None_2; [done|rewrite length_map, length_seq; lia|rewrite length_take; lia].
Qed.

(** The sectors that hold [n] bytes at disk offset [o]. *)
Lemma sector_span o n total :
  0 <= o -> 0 < n -> o + n <= total * 512 -> total < 4294967296 ->
  let lba := o / 512 in let off := o mod 512 in let sectors := (off +u n +u 511) / 512 in
  0 < sectors < 4294967296 /\ lba + sectors <= total /\ 0 <= off < 512 /\ o = lba * 512 + off /\
  off + n <= sectors * 512 /\ 0 <= lba.
Proof.
  intros Ho Hn Ht Hw. cbv zeta. pose proof (Z.mod_pos_bound o 512 ltac:(lia)).
  rewrite (u64_small (o mod 512 + n)), u64_small by (unfold word64; lia). zlia.
Qed.

Section Correct.
Context {S : Type} `{PageAllocatorOk S} {D : Type} `{Ports D}.
Context (item : Z -> list Z) (cursor : D -> Z -> nat -> Prop) (bs : block_state) (total : Z).
Hypothesis Hfw : fwcfg_ok item cursor.
Hypothesis Hroot : root_block bs = Some (FwcfgDisk total).
Hypothesis Htotal : 0 <= total < 4294967296.
Let disk := item (fwcfg_disk_selector bs).
Hypothesis Hdisk : Forall byte_ok disk.

(** The sectors of the root device. *)
Lemma disk_sectors lba n (d : D) :
  0 <= lba -> 0 < n < 4294967296 -> lba + n <= total ->
  exists d', block_root_read bs lba n d = (0, slice disk (Z.to_nat (lba * 512)) (Z.to_nat (n * 512)), d').
Proof.
  intros Hl Hn Hb. unfold block_root_read. rewrite Hroot. cbn [block_count].
  rewrite u64_small by (unfold word64; lia). rewrite (proj2 (Z.ltb_ge _ _)) by lia.
  destruct (fwcfg_read_slice item cursor Hfw (fwcfg_disk_selector bs) lba n d) as [d' ->]; [lia|lia|].
  by exists d'.
Qed.

Lemma slice_bytes_ok p n : Forall byte_ok (slice disk p n).
Proof.
  unfold slice. apply Forall_map, List.Forall_forall. intros i _.
  destruct (nth_lookup_or_length disk i 0) as [E|E].
  - rewrite Forall_lookup in Hdisk. by apply (Hdisk i).
  - rewrite nth_overflow by done. unfold byte_ok. lia.
Qed.

Definition entry_ok (e : OreFsEntry) : Prop :=
  0 <= de_offset e /\ 0 <= de_size e /\ de_offset e + de_size e <= total * 512.

(** The bytes of the temporary buffer for a read of a disk file: the sectors
    that hold the bytes asked for. *)
Definition buffer_bytes (e : OreFsEntry) (offset size : Z) : Z :=
  ((de_offset e + offset) mod 512 + Z.min (de_size e - offset) size + 511) / 512 * 512.

(** The outcome of a read of contents [c]: it fails only when it needs a buffer
    and memory has no free run of pages for it, and then the heap is unchanged. *)
Definition reads (c : list Z) (offset size : Z) (buffer : option Z) (h h' : heap_state S) (r : Z) (out : list Z) : Prop :=
  (out = read_of c offset size /\ r = Z.of_nat (length out)) \/
  (r = -1 /\ out = [] /\ h' = h /\ exists n, buffer = Some n /\ 0 < n /\ no_run (pages_for n) 1 (pages h)).

Lemma read_disk_entry_spec G e offset size h live (d : D) :
  entry_ok e -> de_type e = ORE_VFS_FILE -> 0 <= offset -> 0 < size -> guarded G h live ->
  exists F r out h' d', (forall fuel, (F <= fuel)%nat ->
      read_disk_entry fuel bs e offset size h d = Some (Ok (r, out, h', d'))) /\
    guarded G h' live /\ after G (Z.to_nat (pages_for (buffer_bytes e offset size))) h h' /\
    reads (slice disk (Z.to_nat (de_offset e)) (Z.to_nat (de_size e))) offset size (Some (buffer_bytes e offset size)) h h' r out.
Proof.
  intros (E1 & E2 & E3) Ht Ho Hs Hi. unfold read_disk_entry. rewrite Ht. cbn [negb Z.eqb Pos.eqb ORE_VFS_FILE].
  destruct (Z.leb_spec (de_size e) offset) as [Hend|Hin].
  { exists O, 0, [], h, d. split; [done|]. split; [done|]. split; [by eapply after_mono; [|apply after_refl]; lia|]. left. unfold read_of.
    rewrite drop_ge, take_nil by (rewrite slice_length; lia). done. }
  rewrite (u64_small (de_offset e + offset)) by (unfold word64; lia).
  set (n := if de_size e - offset <? size then de_size e - offset else size).
  assert (0 < n /\ offset + n <= de_size e /\ n <= size /\ (n = size \/ n = de_size e - offset)) as (N1 & N2 & N3 & N4)
    by (unfold n; case_test; bool_to_prop; lia).
  destruct (sector_span (de_offset e + offset) n total ltac:(lia) N1 ltac:(lia) ltac:(lia))
    as (Z1 & Z2 & Z3 & Z4 & Z5 & Z6). cbv zeta in *.
  set (lba := (de_offset e + offset) / 512) in *. set (lo := (de_offset e + offset) mod 512) in *.
  set (sectors := (lo +u n +u 511) / 512) in *.
  destruct (disk_sectors lba sectors d Z6 Z1 Z2) as [d1 Hr].
  destruct (read_sectors_spec G bs lba sectors h live d d1 _ Hi Z1 Hr (slice_bytes_ok _ _)) as (F & res & h' & d' & Hrd & Hi' & Ha & Hres).
  { rewrite slice_length. lia. }
  assert (buffer_bytes e offset size = sectors * 512) as Hbuf.
  { unfold buffer_bytes, sectors. fold lo. rewrite (u64_small (lo + n)), u64_small by (unfold word64; lia). do 2 f_equal.
    unfold n. case_test; bool_to_prop; lia. }
  rewrite Hbuf. destruct Hres as [->|(-> & -> & _ & Hex)].
  - exists F, n, (slice disk (Z.to_nat (de_offset e) + Z.to_nat offset) (Z.to_nat n)), h', d'.
    split; [|split; [done|split; [done|]]].
    + intros fuel Hf. rewrite Hrd by done. rewrite slice_slice by lia. do 5 f_equal. f_equal. lia.
    + left. split; [|rewrite slice_length; lia]. destruct N4 as [->|Hrem].
      * symmetry. apply read_of_slice; lia.
      * rewrite <- (read_of_slice disk (Z.to_nat (de_offset e)) (Z.to_nat (de_size e)) offset n) by lia.
        unfold read_of. rewrite !take_ge; [done|rewrite length_drop, slice_length; lia..].
  - exists F, (-1), [], h, d'. split; [intros fuel Hf; by rewrite Hrd|]. split; [done|]. split; [done|].
    right. split_and!; [done..|]. exists (sectors * 512). split_and!; [done|lia|done].
Qed.
End Correct.

(** ** Directory listings *)

(** The children of a listing, each name once, in the order of the table. *)
Fixpoint children {A} (child : A -> option VfsStat) (seen : list (list Z)) (l : list A) : list VfsStat :=
  match l with
  | [] => []
  | x :: l =>
      match child x with
      | None => children child seen l
      | Some c =>
          if decide (vs_name c ∈ seen) then children child seen l
          else c :: children child (vs_name c :: seen) l
      end
  end.

Lemma children_length {A} (child : A -> option VfsStat) l seen : (length (children child seen l) <= length l)%nat.
Proof.
  revert seen. induction l as [|x l IH]; intros seen; cbn; [done|].
  destruct (child x) as [c|]; [|specialize (IH seen); lia].
  destruct (decide _); [specialize (IH seen)|specialize (IH (vs_name c :: seen))]; cbn; lia.
Qed.

Lemma children_names {A} (child : A -> option VfsStat) l seen n :
  n ∈ map vs_name (children child seen l) <->
  (n ∉ seen) /\ exists x c, x ∈ l /\ child x = Some c /\ vs_name c = n.
Proof.
  revert seen. induction l as [|x l IH]; intros seen; cbn.
  { split; [by intros ?%elem_of_nil|]. by intros (_ & x & c & ?%elem_of_nil & _). }
  destruct (child x) as [c|] eqn:Ec; [destruct (decide _) as [Hd|Hd]|].
  - rewrite IH. split; intros (Hn & y & c' & Hy & Hc & <-); (split; [done|]);
      [exists y, c'; by rewrite elem_of_cons; auto|].
    apply elem_of_cons in Hy as [->|Hy]; [congruence|]. by exists y, c'.
  - cbn. rewrite elem_of_cons, IH. split.
    + intros [->|(Hn & y & c' & Hy & Hc & <-)]; [|apply not_elem_of_cons in Hn as [? ?]].
      * split; [done|]. exists x, c. by rewrite elem_of_cons; auto.
      * split; [done|]. exists y, c'. by rewrite elem_of_cons; auto.
    + intros (Hn & y & c' & Hy & Hc & <-). apply elem_of_cons in Hy as [->|Hy]; [left; congruence|].
      destruct (decide (vs_name c' = vs_name c)) as [->|Hne]; [by left|]. right.
      split; [by apply not_elem_of_cons|]. by exists y, c'.
  - rewrite IH. split; intros (Hn & y & c' & Hy & Hc & <-); (split; [done|]);
      [exists y, c'; by rewrite elem_of_cons; auto|].
    apply elem_of_cons in Hy as [->|Hy]; [congruence|]. by exists y, c'.
Qed.

Lemma children_nodup {A} (child : A -> option VfsStat) l seen : NoDup (map vs_name (children child seen l)).
Proof.
  revert seen. induction l as [|x l IH]; intros seen; cbn; [constructor|].
  destruct (child x) as [c|]; [|apply IH]. destruct (decide _); [apply IH|].
  cbn. constructor; [|apply IH]. rewrite children_names. intros [Hn _]. apply Hn. by left.
Qed.

Lemma children_ext {A} (child : A -> option VfsStat) l s1 s2 :
  (forall n, n ∈ s1 <-> n ∈ s2) -> children child s1 l = children child s2 l.
Proof.
  revert s1 s2. induction l as [|x l IH]; intros s1 s2 Hs; cbn; [done|].
  destruct (child x) as [c|]; [|by apply IH].
  destruct (decide (vs_name c ∈ s1)) as [H1|H1], (decide (vs_name c ∈ s2)) as [H2|H2];
    [by apply IH|by apply Hs in H1|by apply Hs in H2|].
  f_equal. apply IH. intros n. by rewrite !elem_of_cons, Hs.
Qed.

(** The names of a component fit in the caller's buffer. *)
Definition short_names {A} (child : A -> option VfsStat) : Prop :=
  forall x c, child x = Some c -> copy_name (vs_name c) = vs_name c.

Lemma child_of_short dir name type size c :
  child_of dir name type size = Some c -> copy_name (vs_name c) = vs_name c.
Proof.
  unfold child_of. intros Hc. apply copy_name_short.
  repeat case_match; simplify_eq; cbn; unfold copy_name_len; rewrite length_take; lia.
Qed.

Definition seen_names {A} (child : A -> option VfsStat) (prev : list A) : list (list Z) :=
  map vs_name (omap child prev).

Lemma seen_duplicate {A} (child : A -> option VfsStat) prev c :
  existsb (fun y => match child y with
    | Some c' => str_eq (vs_name c) (vs_name c') | None => false end) prev
  = bool_decide (vs_name c ∈ seen_names child prev).
Proof.
  apply eq_bool_prop_intro. rewrite !Is_true_true. rewrite bool_decide_eq_true, existsb_exists. unfold seen_names.
  rewrite list_elem_of_fmap. split.
  - intros (y & Hy%list_elem_of_In & Hm). destruct (child y) as [c'|] eqn:Ec; [|done].
    apply str_eq_spec in Hm. exists c'. split; [done|]. apply list_elem_of_omap. by exists y.
  - intros (c' & Hn & (y & Hy & Ec)%list_elem_of_omap). exists y. split; [by apply list_elem_of_In|].
    rewrite Ec. by apply str_eq_spec.
Qed.

(** The listing loop walks the children. *)
Lemma readdir_loop_spec {A} (child : A -> option VfsStat) prev l emitted index :
  short_names child -> 0 <= emitted -> emitted + Z.of_nat (length l) < 4294967296 -> emitted <= index ->
  let cs := children child (seen_names child prev) l in
  readdir_loop child prev l emitted index =
  match cs !! Z.to_nat (index - emitted) with
  | Some c => inl c
  | None => inr (emitted + Z.of_nat (length cs))
  end.
Proof.
  intros Hsh. revert prev emitted. induction l as [|x l IH]; intros prev emitted He Hb Hi; cbn.
  { f_equal. lia. }
  assert (forall c, child x = Some c -> children child (seen_names child (prev ++ [x])) l =
    children child (vs_name c :: seen_names child prev) l) as Hsnoc.
  { intros c Ec. apply children_ext. intros n. unfold seen_names. rewrite omap_app, map_app. cbn. rewrite Ec. cbn.
    rewrite elem_of_app, !elem_of_cons, elem_of_nil. tauto. }
  cbn [length] in Hb. destruct (child x) as [c|] eqn:Ec.
  - rewrite seen_duplicate. case_bool_decide as Hd.
    + rewrite decide_True by done. rewrite IH by lia. rewrite (Hsnoc c) by done. cbn zeta.
      rewrite (children_ext child l (vs_name c :: seen_names child prev) (seen_names child prev)); [done|].
      intros n. rewrite elem_of_cons. split; [by intros [->|]|by right].
    + rewrite decide_False by done. destruct (Z.eqb_spec emitted index) as [->|Hne].
      * rewrite Z.sub_diag. cbn. by rewrite (Hsh _ _ Ec); destruct c.
      * rewrite u32_small by (unfold word32; lia). rewrite IH by lia. rewrite (Hsnoc c) by done. cbn zeta.
        replace (Z.to_nat (index - emitted)) with (Datatypes.S (Z.to_nat (index - (emitted + 1)))) by lia.
        cbn [lookup list_lookup length]. destruct (_ !! _); [done|]. f_equal. lia.
  - rewrite IH by lia. cbn zeta. f_equal.
    unfold seen_names. rewrite omap_app, map_app. cbn. rewrite Ec. cbn. by rewrite app_nil_r.
Qed.

(** ** Lookups *)

Lemma disk_lookup_in v path e : disk_lookup v path = Some e -> In e (disk_entries v).
Proof.
  unfold disk_lookup. induction (disk_entries v) as [|x l IH]; cbn; [done|].
  destruct (str_eq _ _); [intros [= ->]; by left|]. intros Hl. right. by apply IH.
Qed.

Lemma lookup_raw_in fs path f : initramfs_lookup_raw fs path = Some f -> In f (files fs).
Proof.
  unfold initramfs_lookup_raw. induction (files fs) as [|x l IH]; cbn; [done|].
  destruct (str_eq _ _); [intros [= ->]; by left|]. intros Hl. right. by apply IH.
Qed.

Lemma load_bytes_length m a n : length (load_bytes m a n) = Z.to_nat n.
Proof. unfold load_bytes. by rewrite length_map, length_seq. Qed.

(** The bytes copied from a file in memory. *)
Lemma read_of_file m a n offset size :
  0 <= offset -> offset < n -> 0 < size ->
  let k := if n - offset <? size then n - offset else size in
  load_bytes m (a + offset) k = read_of (load_bytes m a n) offset size /\
  k = Z.of_nat (length (load_bytes m (a + offset) k)).
Proof.
  intros Ho Hn Hs k. assert (0 < k /\ offset + k <= n /\ (k = size \/ k = n - offset /\ n - offset < size)) as (K1 & K2 & K3)
    by (unfold k; case_test; bool_to_prop; lia).
  split; [|rewrite load_bytes_length; lia].
  rewrite <- (read_of_load m a n offset k) by lia. destruct K3 as [->|[Hk Hlt]]; [done|].
  unfold read_of. rewrite !take_ge; [done|rewrite length_drop, load_bytes_length; lia..].
Qed.

(** ** Properties *)

(** The buffer a read of the path needs: files of the archive are read in place. *)
Definition path_buffer (v : vfs_state) (path : list Z) (offset size : Z) : option Z :=
  match (if disk_mounted v then disk_path path else None) with
  | Some rel => option_map (fun e => buffer_bytes e offset size) (disk_lookup v rel)
  | None => None
  end.

(** C20: reading a path returns the bytes of the abstract file system from the
    given offset, as many as fit, and -1 when the path names no regular file; a read
    of a disk file fails only when memory has no free run of pages for the buffer of
    the sectors that hold those bytes, and then the heap is unchanged (a file of the
    archive is read in place and never fails).  The read always terminates, the
    heap's clients keep their regions, and the pages [G] that are in use outside the
    heap keep their bytes. *)
Theorem vfs_read_correct {S} `{PageAllocatorOk S} {D} `{Ports D} (item : Z -> list Z) cursor bs total
    (v : vfs_state) (fs : initramfs) path offset size G h live (d : D) :
  fwcfg_ok item cursor -> root_block bs = Some (FwcfgDisk total) -> 0 <= total < 4294967296 ->
  Forall byte_ok (item (fwcfg_disk_selector bs)) ->
  Forall (entry_ok total) (disk_entries v) ->
  Forall (fun f => 0 <= f_size f) (files fs) ->
  guarded G h live -> 0 <= offset -> 0 < size ->
  exists F r out h' d', (forall fuel, (F <= fuel)%nat ->
      vfs_read_file_at fuel v bs fs path offset size h d = Some (Ok (r, out, h', d'))) /\
    guarded G h' live /\ (forall x, G (x / PAGE_SIZE) -> load8 (hmem h') x = load8 (hmem h) x) /\
    match vfs_content v fs (hmem h) (item (fwcfg_disk_selector bs)) path with
    | None => r = -1 /\ out = []
    | Some c => reads c offset size (path_buffer v path offset size) h h' r out
    end.
Proof.
  intros Hfw Hroot Ht Hb He Hf Hi Ho Hs. unfold vfs_content, vfs_read_file_at, path_buffer.
  destruct (mounted v); cbn [negb]; [|by exists O, (-1), [], h, d].
  destruct (if disk_mounted v then disk_path path else None) as [rel|].
  - destruct (disk_lookup v rel) as [e|] eqn:El; [|by exists O, (-1), [], h, d].
    destruct (Z.eqb_spec (de_type e) ORE_VFS_FILE) as [Hty|Hty].
    + destruct (read_disk_entry_spec item cursor bs total Hfw Hroot Ht Hb G e offset size h live d) as (F & r & out & h' & d' & Hr & Hi' & A & Hc); try done.
      { rewrite List.Forall_forall in He. apply He. by apply (disk_lookup_in v rel). }
      exists F, r, out, h', d'. split; [done|]. split; [done|]. split; [apply A|done].
    + exists O, (-1), [], h, d. unfold read_disk_entry.
      rewrite (proj2 (Z.eqb_neq _ _)) by done. done.
  - destruct (initramfs_lookup_raw fs path) as [f|] eqn:El; [|by exists O, (-1), [], h, d].
    assert (0 <= f_size f) as Hz.
    { rewrite List.Forall_forall in Hf. apply Hf. by apply (lookup_raw_in fs path). }
    exists O. destruct (Z.leb_spec (f_size f) offset).
    + exists 0, [], h, d. split; [done|]. split; [done|]. split; [done|]. left. unfold read_of.
      rewrite drop_ge, take_nil by (rewrite load_bytes_length; lia). done.
    + eexists _, _, h, d. split; [done|]. split; [done|]. split; [done|]. left. apply read_of_file; lia.
Qed.

(** The listing of a directory: what [vfs_readdir_path] enumerates. *)
Definition dir_entries (v : vfs_state) (fs : initramfs) (path : list Z) : list VfsStat :=
  match (if disk_mounted v then disk_path path else None) with
  | Some rel => children (disk_direct_child rel) [] (disk_entries v)
  | None =>
      let dir := copy_name (strip_slash path) in
      children (direct_child dir) [] (files fs) ++
      (if (char_at dir 0 =? 0) && disk_mounted v then [mk_stat (bytes_of "disk"%string) ORE_VFS_DIR 0] else [])
  end.

(** calls of readdir with the indices 0, 1, 2, ... enumerate a directory: the
    listing is the reference list of its children (with the mount point of the
    disk at the end of the root) and a larger index fails; a directory of the disk
    lists each name once, and exactly the first components of the entries below
    it. *)
Theorem vfs_readdir_correct v fs path index :
  mounted v = true -> word32 index ->
  Z.of_nat (length (disk_entries v)) < 4294967296 -> Z.of_nat (length (files fs)) < 4294967296 ->
  vfs_readdir_path v fs path index =
  match dir_entries v fs (default [47] path) !! Z.to_nat index with
  | Some st => (0, st)
  | None => (-1, mk_stat [] 0 0)
  end /\
  forall rel, (if disk_mounted v then disk_path (default [47] path) else None) = Some rel ->
    NoDup (map vs_name (dir_entries v fs (default [47] path))) /\
    forall n, n ∈ map vs_name (dir_entries v fs (default [47] path)) <->
      exists e c, e ∈ disk_entries v /\ disk_direct_child rel e = Some c /\ vs_name c = n.
Proof.
  intros Hm Hx Hd Hf. split.
  2: { intros rel Hp. unfold dir_entries. rewrite Hp. split; [apply children_nodup|].
       intros n. rewrite children_names. split; [by intros [_ ?]|]. intros ?. split; [apply not_elem_of_nil|done]. }
  unfold word32 in Hx. unfold vfs_readdir_path, dir_entries. rewrite Hm. cbn [negb].
  destruct (if disk_mounted v then _ else None) as [rel|].
  - rewrite readdir_loop_spec; [|intros x c; apply child_of_short|lia..]. cbn zeta.
    rewrite Z.sub_0_r. change (seen_names _ []) with (@nil (list Z)). by destruct (_ !! _).
  - rewrite readdir_loop_spec; [|intros x c; apply child_of_short|lia..]. cbn zeta.
    rewrite Z.sub_0_r. change (seen_names _ []) with (@nil (list Z)).
    set (cs := children _ _ _). set (b := (char_at _ _ =? 0) && disk_mounted v).
    destruct (cs !! Z.to_nat index) as [c|] eqn:El; [by rewrite (lookup_app_l_Some _ _ _ _ El)|].
    apply lookup_ge_None in El. rewrite lookup_app_r by done. rewrite Z.add_0_l.
    destruct b; cbn [andb]; [|done]. destruct (Z.eqb_spec index (Z.of_nat (length cs))) as [->|Hne].
    + by rewrite Nat2Z.id, Nat.sub_diag.
    + rewrite lookup_ge_None_2; [done|]. cbn. lia.
Qed.

(** A read of no bytes at a sector boundary of a disk file fails (the size of the
    temporary buffer is zero), where the same read of an initramfs file, or at
    any other offset, returns 0. *)
Lemma zero_read_fails {S} `{PageAllocator S} {D} `{Ports D} fuel bs e (h : heap_state S) (d : D) :
  de_type e = ORE_VFS_FILE -> 0 < de_size e -> de_offset e = 0 ->
  read_disk_entry fuel bs e 0 0 h d = Some (Ok (-1, [], h, d)).
Proof.
  intros Ht Hs Ho. unfold read_disk_entry. rewrite Ht, Ho. cbn [negb Z.eqb Pos.eqb ORE_VFS_FILE].
  rewrite (proj2 (Z.leb_gt _ _)), (proj2 (Z.ltb_ge _ _)) by lia. reflexivity.
Qed.

(** ** Examples *)

Definition demo_entry : OreFsEntry := mk_entry (bytes_of "bin/a"%string) 510 4 ORE_VFS_FILE.
Definition demo_vfs : vfs_state :=
  mk_vfs true true [demo_entry; mk_entry (bytes_of "bin/b"%string) 0 8 ORE_VFS_FILE;
                    mk_entry (bytes_of "etc"%string) 0 8 ORE_VFS_FILE].
Definition demo_empty_fs : initramfs := mk_initramfs 0 0 [].
Definition demo_blocks : block_state := mk_blocks (Some (FwcfgDisk 2)) 32.

Lemma demo_disk_bytes : Forall byte_ok (demo_item 32).
Proof.
  apply Forall_app. split; apply Forall_replicate; unfold byte_ok; lia.
Qed.

Lemma heap0_enough : ~ no_run (pages_for 1024) 1 (pages heap0).
Proof. apply (pmm_enough 1 1 0x105); [lia|lia|vm_compute; discriminate|vm_compute; reflexivity]. Qed.

Lemma vfs_read_correct_witness : exists F h' d', forall fuel, (F <= fuel)%nat ->
    vfs_read_file_at fuel demo_vfs demo_blocks demo_empty_fs (bytes_of "/disk/bin/a"%string) 1 2 heap0
      ((0, O) : demo_dev) = Some (Ok (2, [7; 9], h', d')).
Proof.
  destruct (vfs_read_correct demo_item (fun d k pos => d = (k, pos)) demo_blocks 2 demo_vfs demo_empty_fs
    (bytes_of "/disk/bin/a"%string) 1 2 (fun q => q = 0x104) heap0 [] ((0, O) : demo_dev)) as (F & r & out & h' & d' & Hr & _ & _ & Hc).
  - exact demo_fwcfg.
  - reflexivity.
  - lia.
  - exact demo_disk_bytes.
  - repeat constructor; cbn; lia.
  - constructor.
  - split; [exists [], []; split; [exact heap0_ok|split; [reflexivity|split; [constructor|]]]|].
    + intros x (b & Hb & _) _. inversion Hb.
    + intros q ->. split; [split; [lia|vm_compute; reflexivity]|vm_compute; reflexivity].
  - lia.
  - lia.
  - exists F, h', d'. destruct Hc as [[-> ->]|(_ & _ & _ & n & E & _ & Hno)]; [exact Hr|].
    injection E as <-. destruct (heap0_enough Hno).
Defined.

Lemma vfs_readdir_correct_witness :
  vfs_readdir_path demo_vfs demo_empty_fs (Some (bytes_of "/disk"%string)) 1 =
  (0, mk_stat (bytes_of "etc"%string) ORE_VFS_FILE 8).
Proof.
  destruct (vfs_readdir_correct demo_vfs demo_empty_fs (Some (bytes_of "/disk"%string)) 1) as [-> _];
    [reflexivity|unfold word32; lia|cbn; lia|cbn; lia|vm_compute; reflexivity].
Defined.
