(* ===== verification/UserAlloc.v ===== *)
(** Page allocation by programs (kernel/syscall.c: [user_alloc_pages_sys] and
    [user_free_pages_sys]).

    A process owns at most 64 runs of pages in the window that starts at
    [USER_ALLOC_BASE].  [allocs_ok] is the invariant of the table of runs: the
    used entries lie in the window below the bump pointer, do not overlap, add up
    to the recorded total, and each address of a run translates into the run's
    physical pages.  Both calls preserve it and say what happens to every
    address of the space. *)
From stdpp Require Import base numbers list gmap.
From Stdlib Require Import ZArith Lia.
From S2P Require Import Prelude Memory PageAllocator Pmm Vmm Process Usermem Elf Loader.

(** ** Definitions *)

Definition USER_ALLOC_BASE : Z := 0x000000a000000000.
Definition USER_ALLOC_LIMIT : Z := USER_ALLOC_BASE + 4 * 1024 * 1024.

(** The first entry that is not used. *)
Fixpoint free_slot (l : list UserAllocation) : option nat :=
  match l with
  | [] => None
  | a :: l => if negb (ua_used a) then Some O else option_map S (free_slot l)
  end.

(** The entry that [user_free_pages_sys] releases. *)
Fixpoint find_alloc (l : list UserAllocation) (ptr count : Z) : option nat :=
  match l with
  | [] => None
  | a :: l =>
      if ua_used a && (ua_virt a =? ptr) && (ua_pages a =? u32 count) then Some O
      else option_map S (find_alloc l ptr count)
  end.

Section UserAlloc.
Context {S : Type} `{PageAllocator S}.
Implicit Types (st : machine S).

Definition alloc_flags : Z := Z.lor VMM_USER (Z.lor VMM_WRITE VMM_NX).

Definition user_alloc_pages_sys (count : Z) (pt : proc_table) st : outcome (Z * proc_table * machine S) :=
  let cur := process_current pt in
  if cur =? process_kernel then Ok (- ORE_EINVAL, pt, st) else
  let p := proc pt cur in
  if (count =? 0) || (1024 <? count) then Ok (- ORE_EINVAL, pt, st) else
  if 1024 <? p_user_alloc_pages_total p +u count then Ok (- ORE_ENOMEM, pt, st) else
  match free_slot (p_user_allocs p) with
  | None => Ok (- ORE_ENOMEM, pt, st)
  | Some slot =>
      let bytes := count *u 4096 in
      let va := align_up (p_user_alloc_next p) 4096 in
      let va := if va <? USER_ALLOC_BASE then USER_ALLOC_BASE else va in
      if (va +u bytes <? va) || (USER_ALLOC_LIMIT <? va +u bytes) then Ok (- ORE_ENOMEM, pt, st) else
      let '(phys, s, m) := pa_alloc_pages (u32 count) (m_pages st) (m_mem st) in
      if phys =? 0 then Ok (- ORE_ENOMEM, pt, mk_machine s m) else
      let st := mk_machine s (mem_zero phys bytes m) in
      let? (res, st) := vmm_map_in (pml4_phys (p_address_space p)) va phys bytes alloc_flags st in
      if res <? 0 then Ok (- ORE_EINVAL, pt, mk_machine (pa_free_pages phys (u32 count) (m_pages st)) (m_mem st)) else
      let pt := update cur (fun p =>
        set_user_alloc_next (va +u bytes)
          (set_user_alloc_pages_total (p_user_alloc_pages_total p +u count)
            (set_user_allocs (<[slot := mk_alloc va phys (u32 count) true]> (p_user_allocs p)) p))) pt in
      Ok (va, pt, st)
  end.

Definition user_free_pages_sys (ptr count : Z) (pt : proc_table) st : outcome (Z * proc_table * machine S) :=
  let cur := process_current pt in
  if (cur =? process_kernel) || (ptr =? 0) || (count =? 0) then Ok (- ORE_EINVAL, pt, st) else
  let p := proc pt cur in
  match find_alloc (p_user_allocs p) ptr count with
  | None => Ok (- ORE_EINVAL, pt, st)
  | Some i =>
      let a := nth i (p_user_allocs p) (mk_alloc 0 0 0 false) in
      let bytes := ua_pages a *u 4096 in
      let? st := vmm_unmap_in (pml4_phys (p_address_space p)) (ua_virt a) bytes st in
      let st := mk_machine (pa_free_pages (ua_phys a) (ua_pages a) (m_pages st)) (m_mem st) in
      let pt := update cur (fun p =>
        set_user_alloc_pages_total (u64 (p_user_alloc_pages_total p - ua_pages a))
          (set_user_allocs (<[i := mk_alloc 0 0 0 false]> (p_user_allocs p)) p)) pt in
      Ok (0, pt, st)
  end.
End UserAlloc.

(** ** Taking frames from an address space *)

Section Unmap.
Context {S : Type} `{PageAllocatorOk S}.
Implicit Types (st : machine S) (R : Z -> Prop).

(** Pages [va, ...) of the space are gone; nothing else changed. *)
Record unmaps R (root va count : Z) st st' : Prop := {
  um_space : space_ok R root st';
  um_pages : m_pages st' = m_pages st;
  um_absent : forall w, va <= w < va + count * PAGE_SIZE -> present (pte (m_mem st') root w) = false;
  um_kept : forall w, user_va w -> ~ (va <= w < va + count * PAGE_SIZE) ->
    pte (m_mem st') root w = pte (m_mem st) root w;
  um_tables : forall x, in_table (m_mem st') R x -> in_table (m_mem st) R x;
  um_data : forall x, pa_live (m_pages st) (x / PAGE_SIZE) -> ~ in_table (m_mem st) R x ->
    load8 (m_mem st') x = load8 (m_mem st) x;
}.

Lemma space_unmap R root va count st :
  space_ok R root st -> USER_BASE <= va /\ va mod PAGE_SIZE = 0 /\ va + count * PAGE_SIZE <= USER_LIMIT ->
  0 <= count -> exists st', vmm_unmap_in root va (count * PAGE_SIZE) st = Ok st' /\ unmaps R root va count st st'.
Proof.
  intros Hs (V1 & V2 & V3) Hc. assert (0 <= va) as V0 by (unfold USER_BASE in V1; lia).
  destruct (unmap_in_root_spec st R root va (count * PAGE_SIZE) (sp_forest _ _ _ Hs) (sp_root _ _ _ Hs))
    as (st' & E & Ep & U); [unfold vrange_ok, USER_BASE, USER_LIMIT, PAGE_SIZE in *; lia|].
  exists st'. split; [exact E|].
  assert (forall w, user_va w -> pte (m_mem st') root w =
    if (va <=? w) && (w <? va + count * PAGE_SIZE) then 0 else pte (m_mem st) root w) as Hpte.
  { intros w Hw. rewrite (u_pte _ _ _ _ _ _ _ U w) by by apply user_canonical.
    rewrite range_fun_page by done. by case_test. }
  assert (forall w, va <= w < va + count * PAGE_SIZE -> present (pte (m_mem st') root w) = false) as Hin.
  { intros w Hw. rewrite Hpte by (unfold user_va; lia).
    rewrite (proj2 (Z.leb_le _ _)), (proj2 (Z.ltb_lt _ _)) by lia. done. }
  assert (forall w, user_va w -> ~ (va <= w < va + count * PAGE_SIZE) ->
    pte (m_mem st') root w = pte (m_mem st) root w) as Hout.
  { intros w Hw Hn. rewrite Hpte by done. case_test; [|done]. bool_to_prop. lia. }
  assert (forall v, user_va v -> present (pte (m_mem st') root v) = true ->
    ~ (va <= v < va + count * PAGE_SIZE)) as Hpr by (intros v Hv Hp Hd; rewrite (Hin v Hd) in Hp; done).
  assert (forall t, is_table (m_mem st') R t -> is_table (m_mem st) R t) as Ht.
  { intros t Ht. destruct (u_tables _ _ _ _ _ _ _ U t Ht) as [Hold|Hnew]; [done|]. destruct Hnew.
    destruct Ht as (r & q & Hr & Hq & Hw).
    destruct (fw_table _ _ _ (u_forest _ _ _ _ _ _ _ U) _ _ _ Hr Hq Hw) as [_ _ _ Hl]. by rewrite Ep in Hl. }
  split; [|done|done|done|intros x (t & Hx & ?); exists t; auto|apply U].
  split; [apply U|apply Hs| |..].
  - apply (unmap_pages_ok _ _ _ _ _ (conj (fw_pages _ _ _ (sp_forest _ _ _ Hs)) (sp_mem _ _ _ Hs)) E).
  - intros v Hv Hp. rewrite Hout by auto. apply (frame_ok_updates R root _ st st' _ U), (sp_frame _ _ _ Hs v Hv).
    by rewrite <- Hout by auto.
  - intros v w Hv Hw Hpv Hpw. pose proof (Hout v Hv (Hpr v Hv Hpv)) as Ev. pose proof (Hout w Hw (Hpr w Hw Hpw)) as Ew.
    rewrite Ev in *. rewrite Ew in *. by apply Hs.
Qed.

(** Freeing frames that neither a page of the space nor a table occupies. *)
Lemma space_free R root p count st :
  space_ok R root st -> p mod PAGE_SIZE = 0 -> 0 < p < 4503599627370496 -> 0 <= count < 4294967296 ->
  (forall v, user_va v -> present (pte (m_mem st) root v) = true ->
     ~ (p <= frame_of (pte (m_mem st) root v) < p + count * PAGE_SIZE)) ->
  (forall x, p <= x < p + count * PAGE_SIZE -> ~ in_table (m_mem st) R x) ->
  space_ok R root (mk_machine (pa_free_pages p count (m_pages st)) (m_mem st)).
Proof.
  intros Hs Hm Hp Hc Hun Htab. pose proof (sp_forest _ _ _ Hs) as [F1 F2 F3].
  destruct (pa_free_ok p count (m_pages st) F1 ltac:(lia) Hc) as (W & _ & L).
  assert (forall f, f mod PAGE_SIZE = 0 -> ~ (p <= f < p + count * PAGE_SIZE) ->
    pa_live (m_pages st) (f / PAGE_SIZE) -> pa_live (pa_free_pages p count (m_pages st)) (f / PAGE_SIZE)) as Hl.
  { intros f Hf Hn Hlive. apply L; [by apply pa_live_top|]. split; [done|]. intros Hq. apply Hn.
    clear - Hm Hf Hq. unfold PAGE_SIZE in *. zlia. }
  split; [split|apply Hs|apply Hs| |apply Hs].
  - done.
  - intros r q t Hr Hq Hw. destruct (F2 r q t Hr Hq Hw) as [T1 T2 T3 T4]. split; [done..|].
    apply Hl; [done| |done]. intros Hn. apply (Htab t Hn). exists t.
    split; [by exists r, q|]. unfold PAGE_SIZE. lia.
  - done.
  - cbn [m_mem]. intros v Hv Hpr. destruct (sp_frame _ _ _ Hs v Hv Hpr) as [P1 P2 P3 P4]. split; [done..| |done].
    cbn [m_pages]. apply Hl; [apply P1|by apply Hun|done].
Qed.
End Unmap.

(** ** The table of runs *)

Lemma free_slot_spec l i : free_slot l = Some i -> exists a, l !! i = Some a /\ ua_used a = false.
Proof.
  revert i. induction l as [|a l IH]; intros i; cbn; [done|]. destruct (ua_used a) eqn:E; cbn.
  - destruct (free_slot l) as [j|]; cbn; [|done]. intros [= <-]. by apply IH.
  - intros [= <-]. by exists a.
Qed.

Lemma find_alloc_spec l ptr count i :
  find_alloc l ptr count = Some i ->
  exists a, l !! i = Some a /\ ua_used a = true /\ ua_virt a = ptr /\ ua_pages a = u32 count.
Proof.
  revert i. induction l as [|a l IH]; intros i; cbn; [done|].
  destruct (_ && _) eqn:E.
  - intros [= <-]. exists a. apply andb_true_iff in E as [[E1 E2]%andb_true_iff E3]. bool_to_prop. done.
  - destruct (find_alloc l ptr count) as [j|]; cbn; [|done]. intros [= <-]. by apply IH.
Qed.

Lemma find_alloc_none l ptr count a i :
  find_alloc l ptr count = None -> l !! i = Some a -> ua_used a = true -> ua_virt a = ptr ->
  ua_pages a <> u32 count.
Proof.
  revert i. induction l as [|b l IH]; intros i; cbn; [done|].
  destruct (ua_used b && (ua_virt b =? ptr) && (ua_pages b =? u32 count)) eqn:E; [done|].
  destruct (find_alloc l ptr count) eqn:El; [done|]. intros _ Hi Hu Hv Hp.
  destruct i as [|i]; cbn in Hi; [|by apply (IH i)]. injection Hi as ->.
  rewrite Hu, Hv, Hp, !Z.eqb_refl in E. done.
Qed.

(** The pages of the used entries. *)
Definition used_pages (a : UserAllocation) : Z := if ua_used a then ua_pages a else 0.
Definition total_pages (l : list UserAllocation) : Z := foldr (fun a n => used_pages a + n) 0 l.

Lemma total_pages_insert l i a b :
  l !! i = Some a -> total_pages (<[i := b]> l) = total_pages l - used_pages a + used_pages b.
Proof.
  revert i. induction l as [|c l IH]; intros [|i] Hi; cbn in Hi; [done..|injection Hi as ->; cbn; lia|].
  specialize (IH i Hi). change (<[S i := b]> (c :: l)) with (c :: <[i := b]> l).
  unfold total_pages in *. cbn [foldr]. rewrite IH. lia.
Qed.

Lemma total_pages_nonneg l :
  (forall i a, l !! i = Some a -> ua_used a = true -> 0 <= ua_pages a) -> 0 <= total_pages l.
Proof.
  induction l as [|a l IH]; intros Hl; [done|].
  specialize (IH (fun i => Hl (S i))). pose proof (Hl O a eq_refl) as Ha.
  unfold total_pages in *. cbn [foldr]. unfold used_pages at 1. destruct (ua_used a); [specialize (Ha eq_refl)|]; lia.
Qed.

Section Runs.
Context {S : Type} `{PageAllocatorOk S}.
Implicit Types (st : machine S) (R : Z -> Prop).

(** A used entry: its addresses lie in the window below [next] and translate
    into its frames. *)
Record run_ok (root next : Z) st (a : UserAllocation) : Prop := {
  ru_pages : 0 < ua_pages a <= 1024;
  ru_virt : USER_ALLOC_BASE <= ua_virt a /\ ua_virt a mod PAGE_SIZE = 0;
  ru_end : ua_virt a + ua_pages a * PAGE_SIZE <= next;
  ru_phys : ua_phys a mod PAGE_SIZE = 0 /\ 0 < ua_phys a < 4503599627370496;
  ru_maps : forall w, ua_virt a <= w < ua_virt a + ua_pages a * PAGE_SIZE ->
    virt_to_phys root w st = ua_phys a + (w - ua_virt a);
}.

Definition runs_apart (a b : UserAllocation) : Prop :=
  ua_virt a + ua_pages a * PAGE_SIZE <= ua_virt b \/ ua_virt b + ua_pages b * PAGE_SIZE <= ua_virt a.

Definition proc_root (p : Process) : Z := pml4_phys (p_address_space p).

Record allocs_ok R (p : Process) st : Prop := {
  al_space : space_ok R (proc_root p) st;
  al_next : USER_ALLOC_BASE <= p_user_alloc_next p <= USER_ALLOC_LIMIT /\ p_user_alloc_next p mod PAGE_SIZE = 0;
  al_total : p_user_alloc_pages_total p = total_pages (p_user_allocs p) /\ 0 <= p_user_alloc_pages_total p <= 1024;
  al_run : forall i a, p_user_allocs p !! i = Some a -> ua_used a = true ->
    run_ok (proc_root p) (p_user_alloc_next p) st a;
  al_apart : forall i j a b, p_user_allocs p !! i = Some a -> p_user_allocs p !! j = Some b -> i <> j ->
    ua_used a = true -> ua_used b = true -> runs_apart a b;
}.

(** What a run occupies. *)
Lemma run_window root next st a w :
  run_ok root next st a -> next <= USER_ALLOC_LIMIT -> ua_virt a <= w < ua_virt a + ua_pages a * PAGE_SIZE ->
  USER_ALLOC_BASE <= w < next /\ user_va w.
Proof.
  intros [_ [Hv _] He _ _] Hn Hw. unfold user_va, USER_BASE, USER_LIMIT, USER_ALLOC_LIMIT, USER_ALLOC_BASE in *. lia.
Qed.

(** A change of the machine that keeps the translations of a run. *)
Lemma run_ok_mono root next next' st st' a :
  next <= next' -> (forall w, ua_virt a <= w < ua_virt a + ua_pages a * PAGE_SIZE ->
    virt_to_phys root w st' = virt_to_phys root w st) ->
  run_ok root next st a -> run_ok root next' st' a.
Proof.
  intros Hn Hv [R1 R2 R3 R4 R5]. split; [done|done|lia|done|]. intros w Hw. rewrite Hv by done. by apply R5.
Qed.

Lemma alloc_flags_ok : flags_ok alloc_flags.
Proof. split; [unfold word64, alloc_flags, VMM_USER, VMM_WRITE, VMM_NX; split; [done|reflexivity]|reflexivity]. Qed.

(** The flags of a new page: present, accessible from ring 3, writable, not executable. *)
Definition new_flags : Z := Z.lor VMM_PRESENT (Z.lor VMM_USER (Z.lor VMM_WRITE VMM_NX)).

(** The address the bump pointer gives. *)
Lemma alloc_address next :
  USER_ALLOC_BASE <= next <= USER_ALLOC_LIMIT -> next mod PAGE_SIZE = 0 ->
  (if align_up next 4096 <? USER_ALLOC_BASE then USER_ALLOC_BASE else align_up next 4096) = next.
Proof.
  intros Hn Hm. unfold USER_ALLOC_LIMIT, USER_ALLOC_BASE in *. change 4096 with PAGE_SIZE at 1 2.
  rewrite align_up_page by lia. unfold PAGE_SIZE in *.
  replace ((next + 4095) / 4096 * 4096) with next by (clear - Hm; zlia).
  by rewrite (proj2 (Z.ltb_ge _ _)) by lia.
Qed.

(** Why an allocation is refused. *)
Definition refused (count : Z) (p : Process) st (err : Z) : Prop :=
  (err = - ORE_EINVAL /\ (count = 0 \/ 1024 < count)) \/
  (err = - ORE_ENOMEM /\
     (1024 < p_user_alloc_pages_total p + count \/ free_slot (p_user_allocs p) = None \/
      USER_ALLOC_LIMIT < p_user_alloc_next p + count * PAGE_SIZE \/
      (pa_alloc_pages count (m_pages st) (m_mem st)).1.1 = 0)).

(** The process after an allocation. *)
Definition with_run (slot : nat) (va phys count : Z) (p : Process) : Process :=
  set_user_alloc_next (va + count * PAGE_SIZE)
    (set_user_alloc_pages_total (p_user_alloc_pages_total p + count)
      (set_user_allocs (<[slot := mk_alloc va phys count true]> (p_user_allocs p)) p)).

Lemma with_run_ok R p st st1 st2 slot a phys count :
  allocs_ok R p st -> 0 < count -> p_user_alloc_pages_total p + count <= 1024 ->
  p_user_allocs p !! slot = Some a -> ua_used a = false ->
  p_user_alloc_next p + count * PAGE_SIZE <= USER_ALLOC_LIMIT ->
  fresh_run R (proc_root p) phys count st st1 ->
  maps R (proc_root p) (p_user_alloc_next p) phys count alloc_flags st1 st2 ->
  allocs_ok R (with_run slot (p_user_alloc_next p) phys count p) st2.
Proof.
  intros [A1 [A2 A2'] [A3 A3'] A4 A5] Hc Ht Hslot Hfree Hlim F M.
  assert (run_ok (proc_root p) (p_user_alloc_next p + count * PAGE_SIZE) st2
    (mk_alloc (p_user_alloc_next p) phys count true)) as Hnew.
  { destruct (fr_addr _ _ _ _ _ _ F) as [P1 P2]. pose proof (fr_low _ _ _ (fr_frames _ _ _ _ _ _ F 0 ltac:(lia))).
    split; cbn [ua_pages ua_virt ua_phys]; [lia|lia|lia|lia|apply M]. }
  assert (forall a, run_ok (proc_root p) (p_user_alloc_next p) st a ->
    run_ok (proc_root p) (p_user_alloc_next p + count * PAGE_SIZE) st2 a) as Hold.
  { intros b Hb. apply (run_ok_mono _ (p_user_alloc_next p) _ st); [unfold PAGE_SIZE; lia| |done].
    intros w Hw. destruct (run_window _ _ _ _ _ Hb (proj2 A2) Hw) as [W1 W2].
    rewrite (mp_out _ _ _ _ _ _ _ _ M) by (done || lia). apply (fr_virt _ _ _ _ _ _ F). }
  split; cbn [with_run p_user_alloc_next p_user_alloc_pages_total p_user_allocs p_address_space set_user_alloc_next
    set_user_alloc_pages_total set_user_allocs]; unfold proc_root; cbn [p_address_space].
  - apply M.
  - unfold PAGE_SIZE in *. zlia.
  - rewrite (total_pages_insert _ _ _ _ Hslot). unfold used_pages. rewrite Hfree. cbn [ua_used ua_pages]. lia.
  - intros i b Hi Hu. destruct (decide (i = slot)) as [->|Hne].
    + rewrite list_lookup_insert_eq in Hi by by eapply lookup_lt_Some. by injection Hi as <-.
    + rewrite list_lookup_insert_ne in Hi by done. by apply Hold, (A4 i).
  - assert (forall i b, i <> slot -> p_user_allocs p !! i = Some b -> ua_used b = true ->
      ua_virt b + ua_pages b * PAGE_SIZE <= p_user_alloc_next p) as Hend by (intros i b _ Hi Hu; by apply (A4 i b)).
    intros i j b c Hi Hj Hne Hb Hcu. unfold runs_apart.
    destruct (decide (i = slot)) as [->|Hi'], (decide (j = slot)) as [->|Hj']; [done|..].
    + rewrite list_lookup_insert_eq in Hi by by eapply lookup_lt_Some. rewrite list_lookup_insert_ne in Hj by done.
      injection Hi as <-. right. cbn [ua_virt]. by apply (Hend j).
    + rewrite list_lookup_insert_eq in Hj by by eapply lookup_lt_Some. rewrite list_lookup_insert_ne in Hi by done.
      injection Hj as <-. left. cbn [ua_virt]. by apply (Hend i).
    + rewrite list_lookup_insert_ne in Hi, Hj by done. by apply (A5 i j b c).
Qed.

Lemma update_ext i f g pt : f (proc pt i) = g (proc pt i) -> update i f pt = update i g pt.
Proof. unfold update. by intros ->. Qed.

(** ** Allocation *)

(** Allocating, zeroing and mapping the pages of a run. *)
Lemma alloc_run R root va count phys s m st :
  space_ok R root st -> 0 < count <= 1024 ->
  USER_BASE <= va /\ va mod PAGE_SIZE = 0 /\ va + count * PAGE_SIZE <= USER_LIMIT ->
  pa_alloc_pages count (m_pages st) (m_mem st) = (phys, s, m) -> phys <> 0 ->
  let st1 := mk_machine s (mem_zero phys (count * PAGE_SIZE) m) in
  fresh_run R root phys count st st1 /\
  match vmm_map_in root va phys (count * PAGE_SIZE) alloc_flags st1 with
  | Panic _ => out_of_pages (Z.to_nat count + range_tables va (count * PAGE_SIZE)) (m_pages st)
  | Ok (res, st2) => res = 0 /\ maps R root va phys count alloc_flags st1 st2 /\
      (forall w, va <= w < va + count * PAGE_SIZE -> readable root w st2 /\ uload root w st2 = 0 /\ vmm_flags root w st2 = Ok new_flags) /\
      (forall w, ~ (va <= w < va + count * PAGE_SIZE) -> readable root w st ->
         readable root w st2 /\ uload root w st2 = uload root w st) /\
      (forall r w, R r -> r <> root -> pte (m_mem st2) r w = pte (m_mem st) r w) /\
      (forall x, pa_live (m_pages st) (x / PAGE_SIZE) -> ~ in_table (m_mem st) R x ->
         pa_live (m_pages st2) (x / PAGE_SIZE) /\ load8 (m_mem st2) x = load8 (m_mem st) x)
  end.
Proof.
  intros Hs Hc Hva Ea Hp st1.
  pose proof (fresh_zero _ _ _ _ _ _ (space_alloc R root st count phys s m Hs ltac:(lia) Ea Hp)) as F.
  fold st1 in F. cbn [with_machine_mem m_pages m_mem] in F. change (with_machine_mem _ _) with st1 in F.
  split; [exact F|]. destruct (vmm_map_in _ _ _ _ _ st1) as [[res st2]|msg] eqn:E.
  - destruct (space_alloc_map R root va count alloc_flags st st1 phys st2 res Hs Hva ltac:(lia) alloc_flags_ok F E)
      as (-> & M & Hin & Hout).
    pose proof (mp_updates _ _ _ _ _ _ _ _ M) as U.
    split; [done|]. split; [exact M|]. split; [|split; [exact Hout|split]].
    + intros w Hw. destruct (Hin w Hw) as [Hr Hz]. split; [done|]. split; [done|].
      rewrite (flags_pte st2 R) by apply M. rewrite (u_pte _ _ _ _ _ _ _ U w) by apply user_canonical, Hr.
      rewrite range_fun_page by (destruct Hva; unfold USER_BASE in *; lia).
      rewrite (proj2 (Z.leb_le _ _)), (proj2 (Z.ltb_lt _ _)) by lia. cbn [andb]. unfold map_entry.
      rewrite pte_value_present, flags_of_pte by apply alloc_flags_ok. reflexivity.
    + intros r w Hr Hne. rewrite (u_others _ _ _ _ _ _ _ U); [|..|done|done].
      * by apply (fr_pte _ _ _ _ _ _ F).
      * intros pg e He. unfold range_fun in He. destruct (_ && _) eqn:Eb in He; [|done]. bool_to_prop.
        apply (user_range va (count * PAGE_SIZE)); [apply Hva|apply Hva|done].
    + intros x Hl Hn. pose proof (fr_mono _ _ _ _ _ _ F _ Hl) as Hl1. split; [by apply U|].
      rewrite (u_frame _ _ _ _ _ _ _ U) by (done || (intros Ht; by apply Hn, (fr_tables _ _ _ _ _ _ F))). by apply F.
  - apply (no_run_takes _ _ _ _ _ (fr_takes _ _ _ _ _ _ F)).
    apply (run_panic R root va phys count alloc_flags st1 msg st E F ltac:(lia) Hva alloc_flags_ok).
Qed.

(** C12: a program's request for pages is refused, with nothing changed, exactly
    for one of the documented reasons (the last one that the page allocator has no such
    run).  Otherwise, unless fewer pages are free than the run and its page tables can
    need (a panic), it returns the bump pointer; the pages appear there zeroed, and
    with exactly the flags of a page that programs may read and write but not execute;
    every other readable byte of the program, the tables of the other address spaces
    and every byte in use that is no table are as before; the run is recorded, and the
    invariant of the table of runs is kept. *)
Theorem user_alloc_pages_correct R count pt st :
  let cur := process_current pt in let p := proc pt cur in let root := proc_root p in
  cur <> process_kernel -> allocs_ok R p st -> word64 count ->
  match user_alloc_pages_sys count pt st with
  | Panic _ => out_of_pages (Z.to_nat count + range_tables (p_user_alloc_next p) (count * PAGE_SIZE)) (m_pages st)
  | Ok (r, pt', st') =>
      (refused count p st r /\ pt' = pt /\ st' = st) \/
      (exists slot phys, (forall e, ~ refused count p st e) /\ r = p_user_alloc_next p /\ pt' = update cur (with_run slot r phys count) pt /\
         allocs_ok R (with_run slot r phys count p) st' /\
         (forall w, r <= w < r + count * PAGE_SIZE ->
            readable root w st' /\ uload root w st' = 0 /\ vmm_flags root w st' = Ok new_flags) /\
         (forall w, ~ (r <= w < r + count * PAGE_SIZE) -> readable root w st ->
            readable root w st' /\ uload root w st' = uload root w st) /\
         (forall r' w, R r' -> r' <> root -> pte (m_mem st') r' w = pte (m_mem st) r' w) /\
         (forall x, pa_live (m_pages st) (x / PAGE_SIZE) -> ~ in_table (m_mem st) R x ->
            pa_live (m_pages st') (x / PAGE_SIZE) /\ load8 (m_mem st') x = load8 (m_mem st) x))
  end.
Proof.
  intros cur p root Hk Ha Hw. unfold word64 in Hw. unfold user_alloc_pages_sys. fold cur. fold p.
  rewrite (proj2 (Z.eqb_neq _ _)) by done. pose proof Ha as [Hs [A2 A2'] [A3 A3'] _ _].
  destruct ((count =? 0) || (1024 <? count)) eqn:Ec.
  { left. split_and!; [|done..]. left. split; [done|]. apply orb_true_iff in Ec as [Ec|Ec]; bool_to_prop; lia. }
  apply orb_false_iff in Ec as [Ec1 Ec2]. bool_to_prop.
  rewrite !(u64_small (_ + count)), !(u64_small (count * 4096)) by (unfold word64; lia).
  destruct (Z.ltb_spec 1024 (p_user_alloc_pages_total p + count)).
  { left. split_and!; [|done..]. right. auto. }
  destruct (free_slot (p_user_allocs p)) as [slot|] eqn:Es; [|left; split_and!; [right; auto|done..]].
  rewrite alloc_address by done. change 4096 with PAGE_SIZE.
  assert (p_user_alloc_next p +u count * PAGE_SIZE = p_user_alloc_next p + count * PAGE_SIZE) as ->
    by (apply u64_small; unfold word64, USER_ALLOC_LIMIT, USER_ALLOC_BASE, PAGE_SIZE in *; lia).
  destruct (_ || _) eqn:El.
  { left. split_and!; [|done..]. right. split; [done|]. right. right. left.
    apply orb_true_iff in El as [El|El]; bool_to_prop; unfold PAGE_SIZE in *; lia. }
  apply orb_false_iff in El as [_ El]. bool_to_prop. rewrite u32_small by (unfold word32; lia).
  destruct (pa_alloc_pages count (m_pages st) (m_mem st)) as [[phys s] m] eqn:Ea.
  destruct (Z.eqb_spec phys 0) as [->|Hp].
  { apply pa_alloc_none in Ea as Hn; [|apply (sp_forest _ _ _ Hs)|lia]. destruct Hn as [-> ->].
    left. split_and!; [|done|by destruct st]. right. split; [done|]. by rewrite Ea; auto. }
  assert (USER_BASE <= p_user_alloc_next p /\ p_user_alloc_next p mod PAGE_SIZE = 0 /\
    p_user_alloc_next p + count * PAGE_SIZE <= USER_LIMIT) as Hva
    by (unfold USER_BASE, USER_LIMIT, USER_ALLOC_LIMIT, USER_ALLOC_BASE in *; lia).
  destruct (alloc_run R root _ count phys s m st Hs ltac:(lia) Hva Ea Hp) as [F Hmap].
  cbv zeta in F, Hmap. fold (proc_root p). fold root.
  destruct (vmm_map_in _ _ _ _ _ _) as [[res st2]|msg]; cbn [outcome_bind]; [|exact Hmap].
  destruct Hmap as (-> & M & Hin & Hout & Hoth). change (0 <? 0) with false. cbv iota.
  destruct (free_slot_spec _ _ Es) as (a & Hslot & Hfree).
  right. exists slot, phys. split; [|split; [done|]; split; [|split; [|split; [exact Hin|split; [exact Hout|exact Hoth]]]]].
  - intros e [[_ Hr]|[_ [Hr|[Hr|[Hr|Hr]]]]]; [lia|lia|congruence|lia|]. by rewrite Ea in Hr.
  - apply update_ext. fold p. unfold with_run. rewrite u64_small by (unfold word64; lia). done.
  - eapply (with_run_ok R p st _ st2 slot a phys count Ha); [lia|lia|done|done|lia|exact F|exact M].
Qed.

(** ** Release *)

(** The process after the release of entry [i]. *)
Definition without_run (i : nat) (pages : Z) (p : Process) : Process :=
  set_user_alloc_pages_total (p_user_alloc_pages_total p - pages)
    (set_user_allocs (<[i := mk_alloc 0 0 0 false]> (p_user_allocs p)) p).

(** The frames of a run. *)
Lemma run_frames R root next st a w :
  space_ok R root st -> run_ok root next st a -> next <= USER_ALLOC_LIMIT ->
  ua_virt a <= w < ua_virt a + ua_pages a * PAGE_SIZE ->
  readable root w st /\
  frame_of (pte (m_mem st) root w) = ua_phys a + PAGE_SIZE * ((w - ua_virt a) / PAGE_SIZE) /\
  frame_ok st R (frame_of (pte (m_mem st) root w)).
Proof.
  intros Hs Hr Hn Hw. destruct (run_window _ _ _ _ _ Hr Hn Hw) as [_ Hu].
  pose proof Hr as [R1 [R2 R2'] R3 [R4 R4'] R5]. pose proof (R5 w Hw) as E.
  assert (mapped root w st = true) as Hm by (unfold mapped; apply negb_true_iff, Z.eqb_neq; lia).
  destruct (virt_to_phys_frame R root st w Hs Hu Hm) as [Ef Hf]. rewrite E in Ef.
  split; [by split|]. split; [|done]. destruct Hf as [[_ Hfm] _ _ _].
  unfold PAGE_SIZE in *. clear - Ef Hfm R2' R4. zlia.
Qed.

(** A frame of the run belongs to a page of the run. *)
Lemma run_frame_page R root next st a v :
  space_ok R root st -> run_ok root next st a -> next <= USER_ALLOC_LIMIT ->
  user_va v -> present (pte (m_mem st) root v) = true ->
  ua_phys a <= frame_of (pte (m_mem st) root v) < ua_phys a + ua_pages a * PAGE_SIZE ->
  ua_virt a <= v < ua_virt a + ua_pages a * PAGE_SIZE.
Proof.
  intros Hs Hr Hn Hv Hp Hf. pose proof Hr as [R1 [R2 R2'] R3 [R4 R4'] R5].
  destruct (sp_frame _ _ _ Hs v Hv Hp) as [[_ Hfm] _ _ _].
  set (f := frame_of (pte (m_mem st) root v)) in *. set (w := ua_virt a + (f - ua_phys a)).
  destruct (run_frames R root next st a w Hs Hr Hn ltac:(unfold w; lia)) as ([Hw Hm] & Ew & _).
  rewrite (mapped_present R) in Hm by done.
  assert (v / PAGE_SIZE = w / PAGE_SIZE) as Hpg.
  { apply (sp_inj _ _ _ Hs); [done..|]. fold f. rewrite Ew. unfold w, PAGE_SIZE in *. clear - Hfm R4. zlia. }
  unfold w, PAGE_SIZE in *. clear - Hpg R2' R4 Hfm Hf. zlia.
Qed.

Lemma run_data R root next st a x :
  space_ok R root st -> run_ok root next st a -> next <= USER_ALLOC_LIMIT ->
  ua_phys a <= x < ua_phys a + ua_pages a * PAGE_SIZE -> ~ in_table (m_mem st) R x.
Proof.
  intros Hs Hr Hn Hx. pose proof Hr as [R1 [R2 R2'] R3 [R4 R4'] R5].
  set (w := ua_virt a + (x - ua_phys a)).
  destruct (run_frames R root next st a w Hs Hr Hn ltac:(unfold w; lia)) as (_ & Ew & Hf).
  apply (fr_data _ _ _ Hf). rewrite Ew. unfold w, PAGE_SIZE in *. clear - R2' R4. zlia.
Qed.

(** Unmapping a run and freeing its frames. *)
Lemma release_run R root next st a :
  space_ok R root st -> run_ok root next st a -> next <= USER_ALLOC_LIMIT ->
  exists st1, vmm_unmap_in root (ua_virt a) (ua_pages a * PAGE_SIZE) st = Ok st1 /\
    let st' := mk_machine (pa_free_pages (ua_phys a) (ua_pages a) (m_pages st1)) (m_mem st1) in
    space_ok R root st' /\ m_pages st1 = m_pages st /\
    (forall w, ua_virt a <= w < ua_virt a + ua_pages a * PAGE_SIZE -> ~ readable root w st') /\
    (forall w, user_va w -> ~ (ua_virt a <= w < ua_virt a + ua_pages a * PAGE_SIZE) ->
       virt_to_phys root w st' = virt_to_phys root w st /\
       (readable root w st -> uload root w st' = uload root w st)).
Proof.
  intros Hs Hr Hn. pose proof Hr as [R1 [R2 R2'] R3 [R4 R4'] R5].
  destruct (space_unmap R root (ua_virt a) (ua_pages a) st Hs) as (st1 & E & [U1 U2 U3 U4 U5 U6]).
  { unfold USER_BASE, USER_LIMIT, USER_ALLOC_LIMIT, USER_ALLOC_BASE in *. lia. }
  { lia. }
  exists st1. split; [exact E|]. cbv zeta.
  assert (space_ok R root (mk_machine (pa_free_pages (ua_phys a) (ua_pages a) (m_pages st1)) (m_mem st1))) as Hs'.
  { apply space_free; [done|done|done|lia|..].
    - intros v Hv Hp Hf. destruct (decide (ua_virt a <= v < ua_virt a + ua_pages a * PAGE_SIZE)) as [Hd|Hd].
      + rewrite (U3 v Hd) in Hp. done.
      + rewrite (U4 v Hv Hd) in Hp, Hf. apply Hd. by apply (run_frame_page R root next st).
    - intros x Hx Hin. apply (run_data R root next st a x Hs Hr Hn Hx), U5, Hin. }
  split; [exact Hs'|]. split; [exact U2|]. split.
  - intros w Hw [Hv Hm]. rewrite (mapped_present R) in Hm by done. cbn [m_mem] in Hm. by rewrite (U3 w Hw) in Hm.
  - intros w Hw Hd.
    assert (virt_to_phys root w (mk_machine (pa_free_pages (ua_phys a) (ua_pages a) (m_pages st1)) (m_mem st1)) =
      virt_to_phys root w st) as Ev.
    { rewrite !(virt_to_phys_eq R) by done. cbn [m_mem]. by rewrite U4. }
    split; [exact Ev|]. intros [_ Hm]. unfold uload. rewrite Ev. cbn [m_mem].
    destruct (virt_to_phys_frame R root st w Hs Hw Hm) as [Ef [F1 _ F3 F4]].
    pose proof (Z.mod_pos_bound w PAGE_SIZE eq_refl). apply U6; [|apply F4; lia].
    replace (virt_to_phys root w st / PAGE_SIZE) with (frame_of (pte (m_mem st) root w) / PAGE_SIZE); [done|].
    apply frame_page; [apply F1|lia].
Qed.

Lemma without_run_ok R p st st' i a :
  allocs_ok R p st -> p_user_allocs p !! i = Some a -> ua_used a = true ->
  space_ok R (proc_root p) st' ->
  (forall w, user_va w -> ~ (ua_virt a <= w < ua_virt a + ua_pages a * PAGE_SIZE) ->
     virt_to_phys (proc_root p) w st' = virt_to_phys (proc_root p) w st) ->
  allocs_ok R (without_run i (ua_pages a) p) st'.
Proof.
  intros [A1 A2 [A3 A3'] A4 A5] Hi Hu Hs' Hv.
  assert (forall j b, <[i := mk_alloc 0 0 0 false]> (p_user_allocs p) !! j = Some b -> ua_used b = true ->
    j <> i /\ p_user_allocs p !! j = Some b) as Hj.
  { intros j b Hj Hb. destruct (decide (j = i)) as [->|Hne].
    - rewrite list_lookup_insert_eq in Hj by by eapply lookup_lt_Some. by injection Hj as <-.
    - by rewrite list_lookup_insert_ne in Hj. }
  pose proof (ru_pages _ _ _ _ (A4 i a Hi Hu)) as Hpg.
  split; cbn [without_run p_user_alloc_next p_user_alloc_pages_total p_user_allocs p_address_space
    set_user_alloc_pages_total set_user_allocs]; unfold proc_root; cbn [p_address_space].
  - exact Hs'.
  - exact A2.
  - rewrite (total_pages_insert _ _ _ _ Hi). unfold used_pages at 2. unfold used_pages. rewrite Hu. cbn [ua_used].
    pose proof (total_pages_insert _ _ _ (mk_alloc 0 0 0 false) Hi) as Hz. unfold used_pages in Hz. rewrite Hu in Hz.
    cbn [ua_used] in Hz. pose proof (total_pages_nonneg (<[i := mk_alloc 0 0 0 false]> (p_user_allocs p))
      ltac:(intros j b Hjb Hb; destruct (Hj j b Hjb Hb) as [_ Hb']; pose proof (ru_pages _ _ _ _ (A4 j b Hb' Hb)); lia)).
    lia.
  - intros j b Hjb Hb. destruct (Hj j b Hjb Hb) as [Hne Hb'].
    pose proof (A4 j b Hb' Hb) as Hrb. apply (run_ok_mono _ (p_user_alloc_next p) _ st); [lia| |exact Hrb].
    intros w Hw. destruct (run_window _ _ _ _ _ Hrb (proj2 (proj1 A2)) Hw) as [_ Huw].
    apply Hv; [done|]. destruct (A5 j i b a Hb' Hi Hne Hb Hu); lia.
  - intros j k b c Hjb Hkc Hne Hb Hc. destruct (Hj j b Hjb Hb) as [_ Hb'], (Hj k c Hkc Hc) as [_ Hc'].
    by apply (A5 j k).
Qed.

(** releasing a run of the program succeeds exactly when the table records
    it with that address and count; then its addresses are no longer readable,
    its frames go back to the allocator, every other readable byte keeps its
    contents, and the invariant is kept.  Otherwise nothing changes.  The call
    never panics. *)
Theorem user_free_pages_correct R ptr count pt st :
  let cur := process_current pt in let p := proc pt cur in let root := proc_root p in
  cur <> process_kernel -> allocs_ok R p st ->
  exists r pt' st', user_free_pages_sys ptr count pt st = Ok (r, pt', st') /\
    ((r = - ORE_EINVAL /\ pt' = pt /\ st' = st /\
        (ptr = 0 \/ count = 0 \/ forall i a, p_user_allocs p !! i = Some a -> ua_used a = true ->
           ua_virt a = ptr -> ua_pages a <> u32 count)) \/
     (exists i a, p_user_allocs p !! i = Some a /\ ua_used a = true /\ ua_virt a = ptr /\
        ua_pages a = u32 count /\ r = 0 /\ pt' = update cur (without_run i (ua_pages a)) pt /\
        allocs_ok R (without_run i (ua_pages a) p) st' /\
        (forall w, ptr <= w < ptr + ua_pages a * PAGE_SIZE -> ~ readable root w st') /\
        (forall w, ~ (ptr <= w < ptr + ua_pages a * PAGE_SIZE) -> readable root w st ->
           readable root w st' /\ uload root w st' = uload root w st) /\
        (forall q, pa_live (m_pages st') q <-> pa_live (m_pages st) q /\
           ~ (ua_phys a / PAGE_SIZE <= q < ua_phys a / PAGE_SIZE + ua_pages a)))).
Proof.
  intros cur p root Hk Ha. unfold user_free_pages_sys. fold cur. fold p.
  rewrite (proj2 (Z.eqb_neq cur process_kernel)) by done. cbn [orb].
  destruct ((ptr =? 0) || (count =? 0)) eqn:E0.
  { eexists _, _, _. split; [done|]. left. split_and!; [done..|]. apply orb_true_iff in E0 as [E0|E0]; bool_to_prop; auto. }
  destruct (find_alloc (p_user_allocs p) ptr count) as [i|] eqn:Ef.
  2: { eexists _, _, _. split; [done|]. left. split_and!; [done..|]. right. right. intros i a. by apply find_alloc_none. }
  destruct (find_alloc_spec _ _ _ _ Ef) as (a & Hi & Hu & Hv & Hc).
  rewrite (nth_lookup_Some _ _ _ _ Hi). pose proof Ha as [Hs [A2 A2'] [A3 A3'] A4 A5].
  pose proof (A4 i a Hi Hu) as Hr. pose proof Hr as [R1 R2 R3 R4 R5].
  rewrite u64_small by (unfold word64; lia). fold (proc_root p). fold root. change 4096 with PAGE_SIZE.
  destruct (release_run R root _ st a Hs Hr (proj2 A2)) as (st1 & -> & Hs' & Ep & Hin & Hout).
  cbn [outcome_bind]. eexists _, _, _. split; [reflexivity|]. right. exists i, a.
  split; [done|]. split; [done|]. split; [done|]. split; [done|]. split; [done|]. subst ptr. split; [|split; [|split; [|split]]].
  - apply update_ext. fold p. unfold without_run. rewrite u64_small; [done|].
    pose proof (al_total _ _ _ (without_run_ok R p st _ i a Ha Hi Hu Hs' ltac:(intros; by apply Hout))) as [_ Ht].
    cbn in Ht. unfold word64. lia.
  - apply (without_run_ok R p st); [done..|]. intros w Hw Hn. by apply Hout.
  - exact Hin.
  - intros w Hn [Hw Hm]. destruct (Hout w Hw Hn) as [Ev El]. split; [split; [done|]|by apply El].
    unfold mapped. by rewrite Ev.
  - intros q. cbn [m_pages]. rewrite Ep.
    destruct (pa_free_ok (ua_phys a) (ua_pages a) (m_pages st) (fw_pages _ _ _ (sp_forest _ _ _ Hs)) ltac:(lia) ltac:(lia))
      as (_ & Ht & L).
    split; [|intros [Hl Hn]; apply L; [by apply pa_live_top|done]].
    intros Hl. apply L; [|done]. rewrite <- Ht. by apply pa_live_top.
Qed.
End Runs.

(** The window is never reused: once the bump pointer has reached its end no
    request succeeds, whatever has been released. *)
Lemma alloc_window_exhausted {S} `{PageAllocator S} count pt (st : machine S) :
  let p := proc pt (process_current pt) in
  process_current pt <> process_kernel -> 0 < count <= 1024 ->
  p_user_alloc_next p = USER_ALLOC_LIMIT -> p_user_alloc_pages_total p = 0 ->
  user_alloc_pages_sys count pt st = Ok (- ORE_ENOMEM, pt, st).
Proof.
  intros p Hk Hc Hn Ht. unfold user_alloc_pages_sys. fold p. rewrite (proj2 (Z.eqb_neq _ _)) by done.
  rewrite (proj2 (Z.eqb_neq count 0)), (proj2 (Z.ltb_ge 1024 count)) by lia. cbn [orb]. rewrite Ht, Hn.
  rewrite Z.add_0_l, (u64_small count), (proj2 (Z.ltb_ge 1024 count)) by (unfold word64; lia).
  destruct (free_slot _) as [slot|]; [|done].
  rewrite alloc_address by (done || unfold USER_ALLOC_LIMIT, USER_ALLOC_BASE; lia).
  rewrite (u64_small (count * 4096)), u64_small
    by (unfold word64, USER_ALLOC_LIMIT, USER_ALLOC_BASE; lia).
  rewrite (proj2 (Z.ltb_lt USER_ALLOC_LIMIT _)) by lia. by rewrite orb_true_r.
Qed.

(** The page count is compared after truncation to 32 bits. *)
Lemma free_count_truncated l ptr count : find_alloc l ptr (count + 4294967296) = find_alloc l ptr count.
Proof.
  induction l as [|a l IH]; cbn; [done|]. rewrite IH.
  replace (u32 (count + 4294967296)) with (u32 count); [done|]. unfold u32. zlia.
Qed.

(** ** Examples *)

Definition demo_user : Process :=
  set_user_alloc_next USER_ALLOC_BASE (set_address_space (mk_as vmm_root USER_BASE USER_LIMIT) zero_process).
Definition demo_users : proc_table := mk_table {[1 := demo_user]} 2 (Some 1).

Lemma demo_user_proc : proc demo_users (process_current demo_users) = demo_user.
Proof. reflexivity. Qed.

Lemma demo_user_allocs : allocs_ok (eq vmm_root) demo_user vmm_st1.
Proof.
  assert (forall i a, p_user_allocs demo_user !! i = Some a -> ua_used a = false) as Hu.
  { intros i a Hi. apply lookup_replicate in Hi as [-> _]. done. }
  split.
  - exact vmm_st1_space.
  - split; [split; discriminate|reflexivity].
  - split; [reflexivity|split; discriminate].
  - intros i a Hi Ht. rewrite (Hu i a Hi) in Ht. done.
  - intros i j a b Hi _ _ Ht. rewrite (Hu i a Hi) in Ht. done.
Qed.

Lemma demo_alloc_ok :
  match user_alloc_pages_sys 2 demo_users vmm_st1 with
  | Ok (r, _, _) => r =? USER_ALLOC_BASE
  | Panic _ => false
  end = true.
Proof. vm_compute. reflexivity. Qed.

Lemma user_alloc_pages_correct_witness : exists pt' st' slot phys,
  user_alloc_pages_sys 2 demo_users vmm_st1 = Ok (USER_ALLOC_BASE, pt', st') /\
  pt' = update 1 (with_run slot USER_ALLOC_BASE phys 2) demo_users /\
  allocs_ok (eq vmm_root) (with_run slot USER_ALLOC_BASE phys 2 demo_user) st' /\
  uload vmm_root (USER_ALLOC_BASE + 5000) st' = 0.
Proof.
  pose proof demo_alloc_ok as Hok.
  pose proof (user_alloc_pages_correct (eq vmm_root) 2 demo_users vmm_st1) as Hc. cbv zeta in Hc.
  rewrite demo_user_proc in Hc. specialize (Hc ltac:(discriminate) demo_user_allocs ltac:(unfold word64; lia)).
  destruct (user_alloc_pages_sys 2 demo_users vmm_st1) as [[[r pt'] st']|msg]; [|discriminate Hok].
  apply Z.eqb_eq in Hok. subst r. destruct Hc as [([[Hr _]|[Hr _]] & _)|(slot & phys & _ & _ & E & Ha & Hz & _)];
    [discriminate Hr|discriminate Hr|].
  exists pt', st', slot, phys. split; [reflexivity|]. split; [exact E|]. split; [exact Ha|].
  apply (Hz (USER_ALLOC_BASE + 5000)). unfold PAGE_SIZE. lia.
Defined.

(** The example's process with a run of two pages. *)
Lemma demo_run_ok :
  let '(phys, s, m) := pa_alloc_pages 2 (m_pages vmm_st1) (m_mem vmm_st1) in
  negb (phys =? 0) && is_ok (vmm_map_in vmm_root USER_ALLOC_BASE phys 8192 alloc_flags (mk_machine s (mem_zero phys 8192 m)))
  = true.
Proof. vm_compute. reflexivity. Qed.

Lemma demo_run : exists phys st,
  allocs_ok (eq vmm_root) (with_run 0 USER_ALLOC_BASE phys 2 demo_user) st.
Proof.
  pose proof demo_run_ok as Hok. destruct (pa_alloc_pages 2 _ _) as [[phys s] m] eqn:Ea.
  apply andb_true_iff in Hok as [Hp Hok]. apply negb_true_iff, Z.eqb_neq in Hp.
  destruct (alloc_run (eq vmm_root) vmm_root USER_ALLOC_BASE 2 phys s m vmm_st1 vmm_st1_space ltac:(lia)
    ltac:(split; [discriminate|split; [reflexivity|discriminate]]) Ea Hp) as [F Hm].
  cbv zeta in F, Hm. change (2 * PAGE_SIZE) with 8192 in *.
  destruct (vmm_map_in _ _ _ _ _ _) as [[res st2]|msg]; [|discriminate Hok].
  destruct Hm as (_ & M & _). exists phys, st2.
  eapply (with_run_ok (eq vmm_root) demo_user vmm_st1 _ st2 0 (mk_alloc 0 0 0 false) phys 2 demo_user_allocs);
    [lia|discriminate|reflexivity|reflexivity|discriminate|exact F|exact M].
Qed.

Lemma user_free_pages_correct_witness : exists phys st pt' st',
  let p := with_run 0 USER_ALLOC_BASE phys 2 demo_user in
  user_free_pages_sys USER_ALLOC_BASE 2 (mk_table {[1 := p]} 2 (Some 1)) st = Ok (0, pt', st') /\
  ~ readable vmm_root USER_ALLOC_BASE st'.
Proof.
  destruct demo_run as (phys & st & Ha). exists phys, st.
  set (p := with_run 0 USER_ALLOC_BASE phys 2 demo_user) in *. set (pt := mk_table {[1 := p]} 2 (Some 1)).
  destruct (user_free_pages_correct (eq vmm_root) USER_ALLOC_BASE 2 pt st) as (r & pt' & st' & E & Hc).
  - discriminate.
  - exact Ha.
  - exists pt', st'. cbv zeta. destruct Hc as [(_ & _ & _ & Hn)|(i & a & Hi & Hu & Hv & Hp & -> & _ & _ & Hd & _)].
    + destruct Hn as [Hn|[Hn|Hn]]; [discriminate Hn|discriminate Hn|].
      destruct (Hn O (mk_alloc USER_ALLOC_BASE phys 2 true) eq_refl eq_refl eq_refl). reflexivity.
    + split; [exact E|]. apply Hd. rewrite Hp. unfold PAGE_SIZE. change (u32 2) with 2. lia.
Defined.
