(* ===== verification/Control.v ===== *)
(** Process control system calls (kernel/syscall.c).

    Yield, wait, exit and the timer tick move the processor between processes.
    [control] is the state they work on: the process table, the loaded page
    tables, the user return point of the current call and the override of it.
    [control_step] is the relation of all interleavings of these operations;
    [life_ok] is its invariant. *)
From stdpp Require Import base numbers list gmap option relations.
From Stdlib Require Import ZArith Lia.
From S2P Require Import Prelude Memory PageAllocator Vmm Process Usermem.

(** ** Definitions *)

(** [c_sysret] is [g_sysret_rip] and [g_sysret_rsp] when [g_sysret_override] is
    set. *)
Record control := mk_control {
  c_procs : proc_table;
  c_cr3 : Z;
  c_syscall_count : Z;
  c_user_rip : Z;
  c_user_rsp : Z;
  c_sysret : option (Z * Z);
}.

Definition with_procs (pt : proc_table) (c : control) : control :=
  mk_control pt (c_cr3 c) (c_syscall_count c) (c_user_rip c) (c_user_rsp c) (c_sysret c).

Definition current (c : control) : Z := process_current (c_procs c).
Definition cproc (c : control) (i : Z) : Process := proc (c_procs c) i.

Definition syscall_override_return (rip rsp : Z) (c : control) : control :=
  mk_control (c_procs c) (c_cr3 c) (c_syscall_count c) (c_user_rip c) (c_user_rsp c) (Some (rip, rsp)).

Definition write_cr3 (root : Z) (c : control) : control :=
  mk_control (c_procs c) root (c_syscall_count c) (c_user_rip c) (c_user_rsp c) (c_sysret c).

Definition syscall_count_current (c : control) : Z := p_syscall_count (cproc c (current c)).

(** The start of [syscall_dispatch], entered by the program at [rip], [rsp]. *)
Definition syscall_entry (rip rsp : Z) (c : control) : control :=
  let pt := update (current c) (fun p => set_syscall_count (p_syscall_count p +u 1) p) (c_procs c) in
  mk_control pt (c_cr3 c) (c_syscall_count c +u 1) rip rsp None.

Definition or_else (a b : Z) : Z := if a =? 0 then b else a.

Definition enter_process_from_syscall (next : Z) (c : control) : control :=
  let c := with_procs (process_set_current next (c_procs c)) c in
  let p := cproc c next in
  syscall_override_return (or_else (p_saved_user_rip p) (p_user_entry p))
    (or_else (p_saved_user_rsp p) (p_user_stack p)) (write_cr3 (pml4_phys (p_address_space p)) c).

Definition schedule_next_from_syscall (c : control) : Z * control :=
  let cur := current c in
  match next_ready_process (p_pid (cproc c cur)) (c_procs c) with
  | None => (0, c)
  | Some next =>
      let c := if p_state (cproc c cur) =? ORE_PROC_RUNNING
               then with_procs (update cur (fun p => set_state ORE_PROC_READY
                      (set_saved_user_rsp (c_user_rsp c) (set_saved_user_rip (c_user_rip c) p))) (c_procs c)) c
               else c in
      (1, enter_process_from_syscall next c)
  end.

(** [ORE_SYS_YIELD]. *)
Definition sys_yield (c : control) : Z * control := (0, (schedule_next_from_syscall c).2).

(** [ORE_SYS_GETPID]. *)
Definition sys_getpid (c : control) : Z := p_pid (cproc c (current c)).

(** [ORE_SYS_WAIT]. *)
Definition sys_wait (a1 : Z) (c : control) : Z * control :=
  let cur := current c in
  match process_find (u32 a1) (c_procs c) with
  | None => (- ORE_EINVAL, c)
  | Some child =>
      if p_pid (cproc c child) =? p_pid (cproc c cur) then (- ORE_EINVAL, c) else
      if negb (p_parent_pid (cproc c child) =? p_pid (cproc c cur)) then (- ORE_EINVAL, c) else
      if p_state (cproc c child) =? ORE_PROC_READY then
        let pt := update cur (fun p => set_state ORE_PROC_BLOCKED
                    (set_waiting_for_pid (p_pid (cproc c child))
                      (set_wait_return_rsp (c_user_rsp c) (set_wait_return_rip (c_user_rip c) p)))) (c_procs c) in
        (0, enter_process_from_syscall child (with_procs pt c))
      else (p_exit_code (cproc c child), c)
  end.

(** The exiting process: [exited], [exit_code], the state and the return point. *)
Definition mark_exited (a1 : Z) (p : Process) : Process :=
  set_saved_user_rsp 0 (set_saved_user_rip 0 (set_state ORE_PROC_EXITED (set_exit_code (s32 a1) (set_exited 1 p)))).

(** [if (next) ... for (;;) hlt]: [None] is the halt loop. *)
Definition exit_to_next (pid : Z) (c : control) : option (Z * control) :=
  match next_ready_process pid (c_procs c) with
  | Some next => Some (0, enter_process_from_syscall next c)
  | None => None
  end.

(** [ORE_SYS_EXIT]. *)
Definition sys_exit (a1 : Z) (c : control) : option (Z * control) :=
  let cur := current c in
  let c := with_procs (update cur (mark_exited a1) (c_procs c)) c in
  let p := cproc c cur in
  if p_parent_pid p =? 0 then exit_to_next (p_pid p) c else
  match process_find (p_parent_pid p) (c_procs c) with
  | None => exit_to_next (p_pid p) c
  | Some parent =>
      let pp := cproc c parent in
      if negb (p_wait_return_rip pp =? 0) && negb (p_wait_return_rsp pp =? 0) then
        let c := with_procs (process_set_current parent (c_procs c)) c in
        let c := write_cr3 (pml4_phys (p_address_space pp)) c in
        let c := syscall_override_return (p_wait_return_rip pp) (p_wait_return_rsp pp) c in
        let c := with_procs (update parent (fun p => set_waiting_for_pid 0
                   (set_wait_return_rsp 0 (set_wait_return_rip 0 p))) (c_procs c)) c in
        Some (u32 (p_exit_code p), c)
      else
        let c := if (p_state pp =? ORE_PROC_BLOCKED) && (p_waiting_for_pid pp =? p_pid p)
                 then with_procs (update parent (fun p => set_state ORE_PROC_READY (set_waiting_for_pid 0 p))
                        (c_procs c)) c
                 else c in
        exit_to_next (p_pid p) c
  end.

(** The timer tick: the frame returned to, with the page tables of the process
    switched to. *)
Definition user_tick (frame : InterruptFrame) (c : control) : InterruptFrame * control :=
  let '(r, frame, pt) := process_schedule_user_tick frame (c_procs c) in
  let c := with_procs pt c in
  (frame, if r =? 1 then write_cr3 (pml4_phys (p_address_space (cproc c (current c)))) c else c).

(** A program enters the kernel with one of these calls, or is interrupted. *)
Inductive control_step : control -> control -> Prop :=
| step_yield c rip rsp : control_step c (sys_yield (syscall_entry rip rsp c)).2
| step_wait c rip rsp pid : control_step c (sys_wait pid (syscall_entry rip rsp c)).2
| step_exit c rip rsp code r c' :
    sys_exit code (syscall_entry rip rsp c) = Some (r, c') -> control_step c c'
| step_tick c frame : control_step c (user_tick frame c).2.

(** ** The invariant *)

(** A process with a return point for a wait. *)
Definition waits (p : Process) : Prop := p_wait_return_rip p <> 0 /\ p_wait_return_rsp p <> 0.

Record life_ok (c : control) : Prop := {
  lf_table : table_ok (c_procs c);
  lf_running : p_state (cproc c (current c)) = ORE_PROC_RUNNING;
  lf_cr3 : c_cr3 c = pml4_phys (p_address_space (cproc c (current c)));
  lf_waits : forall i, 0 <= i < process_count (c_procs c) -> waits (cproc c i) ->
    p_state (cproc c i) = ORE_PROC_BLOCKED;
}.

(** Between leaving one process and entering the next: no user process runs. *)
Record idle_ok (pt : proc_table) : Prop := {
  id_count : 1 <= process_count pt <= MAX_PROCESSES;
  id_pid : forall i, 0 <= i < process_count pt -> p_pid (proc pt i) = i;
  id_idle : forall i, 1 <= i < process_count pt -> p_state (proc pt i) <> ORE_PROC_RUNNING;
  id_waits : forall i, 0 <= i < process_count pt -> waits (proc pt i) -> p_state (proc pt i) = ORE_PROC_BLOCKED;
}.

(** Leaving the current process for another state. *)
Lemma leave_idle c f :
  life_ok c ->
  (p_pid (f (cproc c (current c))) = p_pid (cproc c (current c)) /\
   p_state (f (cproc c (current c))) <> ORE_PROC_RUNNING /\
   (waits (f (cproc c (current c))) -> p_state (f (cproc c (current c))) = ORE_PROC_BLOCKED)) ->
  idle_ok (update (current c) f (c_procs c)).
Proof.
  unfold cproc. intros [[T1 T2 T3 T4] Hr _ Hw] (F1 & F2 & F3). unfold cproc in Hr, Hw. fold (current c) in T3.
  split; cbn [update process_count]; [done|..]; intros i Hi; rewrite proc_update;
    destruct (Z.eqb_spec i (current c)) as [->|Hne].
  - rewrite F1. by apply T2.
  - by apply T2.
  - done.
  - intros Hs. apply Hne. by apply T4.
  - done.
  - by apply Hw.
Qed.

Lemma idle_update pt i f :
  idle_ok pt -> p_pid (f (proc pt i)) = p_pid (proc pt i) -> p_state (f (proc pt i)) <> ORE_PROC_RUNNING ->
  (waits (f (proc pt i)) -> p_state (f (proc pt i)) = ORE_PROC_BLOCKED) -> idle_ok (update i f pt).
Proof.
  intros [I1 I2 I3 I4] F1 F2 F3. split; cbn [update process_count]; [done|..]; intros j Hj;
    rewrite proc_update; destruct (Z.eqb_spec j i) as [->|Hne]; auto. rewrite F1. auto.
Qed.

(** Entering a process that does not wait. *)
Lemma enter_life next c c' :
  idle_ok (c_procs c) -> 0 <= next < process_count (c_procs c) ->
  c_procs c' = process_set_current next (c_procs c) ->
  c_cr3 c' = pml4_phys (p_address_space (cproc c next)) -> ~ waits (cproc c next) -> life_ok c'.
Proof.
  intros [I1 I2 I3 I4] Hn Ep Ec Hw. unfold cproc in *.
  assert (current c' = next) as Ecur by (unfold current; by rewrite Ep).
  split; unfold cproc; rewrite ?Ecur, ?Ep.
  - split; cbn [process_set_current update process_count]; [done|..]; intros;
      rewrite ?proc_set_current in *; cbn [process_current process_set_current current_proc update default] in *.
    + destruct (Z.eqb_spec i next) as [->|]; [by apply I2|by apply I2].
    + done.
    + destruct (Z.eqb_spec i next) as [->|Hne]; [done|]. by destruct (I3 i).
  - by rewrite proc_set_current, Z.eqb_refl.
  - rewrite Ec, proc_set_current, Z.eqb_refl. done.
  - intros i Hi. rewrite proc_set_current. destruct (Z.eqb_spec i next) as [->|Hne]; [|by apply I4].
    intros Hwt. by destruct Hw.
Qed.

(** ** Steps *)

Lemma current_pid c : life_ok c -> p_pid (cproc c (current c)) = current c.
Proof. intros Hl. apply (tk_pid _ (lf_table _ Hl)), (lf_table _ Hl). Qed.

Lemma find_ok c pid i :
  life_ok c -> process_find pid (c_procs c) = Some i -> i = pid /\ 0 <= i < process_count (c_procs c).
Proof.
  intros Hl. rewrite process_find_spec by apply Hl. case_test; [|done]. intros [= <-]. bool_to_prop. done.
Qed.

Lemma entry_proc rip rsp c i :
  cproc (syscall_entry rip rsp c) i =
  if i =? current c then set_syscall_count (p_syscall_count (cproc c i) +u 1) (cproc c i) else cproc c i.
Proof. unfold cproc, syscall_entry. cbn [c_procs]. rewrite proc_update. by destruct (Z.eqb_spec i (current c)) as [->|]. Qed.

Lemma entry_life rip rsp c : life_ok c -> life_ok (syscall_entry rip rsp c).
Proof.
  intros [[T1 T2 T3 T4] Hr Hc Hw].
  assert (current (syscall_entry rip rsp c) = current c) as Ecur by done.
  assert (forall i, p_pid (cproc (syscall_entry rip rsp c) i) = p_pid (cproc c i) /\
    p_state (cproc (syscall_entry rip rsp c) i) = p_state (cproc c i) /\
    p_address_space (cproc (syscall_entry rip rsp c) i) = p_address_space (cproc c i) /\
    (waits (cproc (syscall_entry rip rsp c) i) -> waits (cproc c i))) as He.
  { intros i. rewrite entry_proc. by case_test. }
  unfold cproc in *. split; unfold cproc.
  - split; [done|..].
    + intros i Hi. rewrite (proj1 (He i)). by apply T2.
    + done.
    + intros i Hi. rewrite (proj1 (proj2 (He i))). by apply T4.
  - rewrite Ecur. by rewrite (proj1 (proj2 (He (current c)))).
  - rewrite Ecur. by rewrite (proj1 (proj2 (proj2 (He (current c))))).
  - intros i Hi Hwt. rewrite (proj1 (proj2 (He i))). apply Hw; [done|]. by apply He.
Qed.

(** A ready process other than the current one. *)
Lemma next_ready_ok c next :
  life_ok c -> next_ready_process (current c) (c_procs c) = Some next ->
  1 <= next < process_count (c_procs c) /\ next <> current c /\
  p_state (cproc c next) = ORE_PROC_READY /\ ~ waits (cproc c next).
Proof.
  intros Hl E. pose proof (next_ready_spec (current c) (c_procs c) (lf_table _ Hl)) as Hn. rewrite E in Hn.
  destruct Hn as [(Hb & Hne & Hst) _]. split_and!; [lia|lia|done|done|].
  intros Hw. apply (lf_waits _ Hl) in Hw; [|lia]. unfold cproc in Hw. rewrite Hw in Hst. done.
Qed.

(** The process left by a yield. *)
Definition yielded (rip rsp : Z) (p : Process) : Process :=
  set_state ORE_PROC_READY (set_saved_user_rsp rsp (set_saved_user_rip rip p)).

Lemma yield_cases c :
  life_ok c ->
  match next_ready_process (current c) (c_procs c) with
  | None => sys_yield c = (0, c)
  | Some next =>
      let c' := enter_process_from_syscall next
                  (with_procs (update (current c) (yielded (c_user_rip c) (c_user_rsp c)) (c_procs c)) c) in
      sys_yield c = (0, c') /\ life_ok c'
  end.
Proof.
  intros Hl. unfold sys_yield, schedule_next_from_syscall. rewrite current_pid by done.
  destruct (next_ready_process _ _) as [next|] eqn:En; [|done].
  rewrite (lf_running _ Hl). cbn [Z.eqb Pos.eqb ORE_PROC_RUNNING]. split; [done|].
  destruct (next_ready_ok c next Hl En) as (Hb & Hne & Hst & Hw).
  set (c1 := with_procs _ c).
  assert (cproc c1 next = cproc c next) as En1.
  { unfold c1, cproc. cbn [with_procs c_procs]. by rewrite proc_update, (proj2 (Z.eqb_neq _ _)). }
  apply (enter_life next c1).
  - apply leave_idle; [done|]. split_and!; [done|done|]. intros Hwt.
    pose proof (lf_waits _ Hl (current c) ltac:(apply (lf_table _ Hl)) Hwt) as Hb'. by rewrite (lf_running _ Hl) in Hb'.
  - cbn [c1 with_procs c_procs update process_count]. lia.
  - done.
  - cbn [enter_process_from_syscall syscall_override_return write_cr3 c_cr3]. unfold cproc.
    cbn [with_procs c_procs]. by rewrite proc_set_current, Z.eqb_refl.
  - by rewrite En1.
Qed.

(** The process that waits. *)
Definition waiting (pid rip rsp : Z) (p : Process) : Process :=
  set_state ORE_PROC_BLOCKED (set_waiting_for_pid pid (set_wait_return_rsp rsp (set_wait_return_rip rip p))).

Lemma wait_cases c a1 :
  life_ok c ->
  let child := u32 a1 in
  if (child <? process_count (c_procs c)) && negb (child =? current c) &&
     (p_parent_pid (cproc c child) =? current c)
  then
    if p_state (cproc c child) =? ORE_PROC_READY then
      let c' := enter_process_from_syscall child
                  (with_procs (update (current c) (waiting child (c_user_rip c) (c_user_rsp c)) (c_procs c)) c) in
      sys_wait a1 c = (0, c') /\ life_ok c'
    else sys_wait a1 c = (p_exit_code (cproc c child), c)
  else sys_wait a1 c = (- ORE_EINVAL, c).
Proof.
  intros Hl child. unfold sys_wait. rewrite process_find_spec by apply Hl. fold child.
  assert (0 <= child) as H0 by apply u32_bound. rewrite (proj2 (Z.leb_le 0 child) H0). cbn [andb].
  destruct (Z.ltb_spec child (process_count (c_procs c))) as [Hb|]; cbn [andb]; [|done].
  assert (p_pid (cproc c child) = child) as Ep by (apply (tk_pid _ (lf_table _ Hl)); lia).
  rewrite Ep, current_pid by done.
  destruct (Z.eqb_spec child (current c)) as [|Hne]; cbn [negb andb]; [done|].
  destruct (p_parent_pid (cproc c child) =? current c); cbn [negb]; [|done].
  destruct (Z.eqb_spec (p_state (cproc c child)) ORE_PROC_READY) as [Hst|]; [|done]. split; [done|].
  set (c1 := with_procs _ c).
  assert (cproc c1 child = cproc c child) as En1.
  { unfold c1, cproc. cbn [with_procs c_procs]. by rewrite proc_update, (proj2 (Z.eqb_neq _ _)). }
  apply (enter_life child c1).
  - by apply leave_idle.
  - cbn [c1 with_procs c_procs update process_count]. lia.
  - done.
  - cbn [enter_process_from_syscall syscall_override_return write_cr3 c_cr3]. unfold cproc.
    cbn [with_procs c_procs]. by rewrite proc_set_current, Z.eqb_refl.
  - rewrite En1. intros Hw. apply (lf_waits _ Hl) in Hw; [|lia]. by rewrite Hst in Hw.
Qed.

Lemma idle_table pt : idle_ok pt -> 0 <= process_current pt < process_count pt -> table_ok pt.
Proof. intros [I1 I2 I3 _] Hc. split; [done..|]. intros i Hi Hs. by destruct (I3 i Hi). Qed.

Lemma update_current i f pt :
  f (set_state ORE_PROC_RUNNING (proc pt i)) = set_state ORE_PROC_RUNNING (f (proc pt i)) ->
  update i f (process_set_current i pt) = process_set_current i (update i f pt).
Proof.
  intros E. unfold process_set_current, update, proc. cbn [processes process_count current_proc].
  rewrite !lookup_total_insert_eq, !insert_insert_eq. unfold proc in E. by rewrite E.
Qed.

(** The table after the current process has exited. *)
Definition after_exit (a1 : Z) (c : control) : control :=
  with_procs (update (current c) (mark_exited a1) (c_procs c)) c.

Lemma after_exit_proc a1 c i :
  cproc (after_exit a1 c) i = if i =? current c then mark_exited a1 (cproc c i) else cproc c i.
Proof.
  unfold cproc, after_exit. cbn [with_procs c_procs]. rewrite proc_update.
  by destruct (Z.eqb_spec i (current c)) as [->|].
Qed.

Lemma after_exit_idle a1 c : life_ok c -> idle_ok (c_procs (after_exit a1 c)).
Proof.
  intros Hl. apply leave_idle; [done|]. split_and!; [done|done|]. intros Hw.
  pose proof (lf_waits _ Hl (current c) ltac:(apply (lf_table _ Hl)) Hw) as Hb. by rewrite (lf_running _ Hl) in Hb.
Qed.

(** The parent is resumed from its wait. *)
Definition resumed (p : Process) : Process := set_waiting_for_pid 0 (set_wait_return_rsp 0 (set_wait_return_rip 0 p)).
(** The parent that waits for the process becomes ready. *)
Definition woken (p : Process) : Process := set_state ORE_PROC_READY (set_waiting_for_pid 0 p).

Definition resume_parent (a1 parent : Z) (c : control) : control :=
  let p := cproc c parent in
  mk_control (process_set_current parent (update parent resumed (c_procs (after_exit a1 c))))
    (pml4_phys (p_address_space p)) (c_syscall_count c) (c_user_rip c) (c_user_rsp c)
    (Some (p_wait_return_rip p, p_wait_return_rsp p)).

(** The table the next process is chosen from. *)
Definition exit_table (a1 : Z) (c : control) : proc_table :=
  let parent := p_parent_pid (cproc c (current c)) in
  let pp := cproc (after_exit a1 c) parent in
  if (0 <? parent) && (parent <? process_count (c_procs c)) &&
     (p_state pp =? ORE_PROC_BLOCKED) && (p_waiting_for_pid pp =? current c)
  then update parent woken (c_procs (after_exit a1 c)) else c_procs (after_exit a1 c).

(** The parent has a return point of a wait. *)
Definition parent_waits (c : control) : bool :=
  let parent := p_parent_pid (cproc c (current c)) in
  (0 <? parent) && (parent <? process_count (c_procs c)) &&
  negb (p_wait_return_rip (cproc c parent) =? 0) && negb (p_wait_return_rsp (cproc c parent) =? 0).

Lemma exit_cases c a1 :
  life_ok c ->
  let parent := p_parent_pid (cproc c (current c)) in
  if parent_waits c
  then sys_exit a1 c = Some (u32 (s32 a1), resume_parent a1 parent c)
  else sys_exit a1 c = exit_to_next (current c) (with_procs (exit_table a1 c) c).
Proof.
  intros Hl parent. pose proof (after_exit_idle a1 c Hl) as Hi. unfold sys_exit, parent_waits. fold (after_exit a1 c).
  assert (process_find parent (c_procs (after_exit a1 c)) =
    if (0 <=? parent) && (parent <? process_count (c_procs c)) then Some parent else None) as Ef.
  { rewrite process_find_spec; [done|]. apply idle_table; [done|apply (lf_table _ Hl)]. }
  assert (cproc (after_exit a1 c) (current c) = mark_exited a1 (cproc c (current c))) as Ec
    by (by rewrite after_exit_proc, Z.eqb_refl).
  rewrite Ec. cbn [mark_exited set_saved_user_rsp set_saved_user_rip set_state set_exit_code set_exited p_parent_pid
    p_pid p_exit_code]. fold parent. rewrite current_pid by done. unfold exit_table. fold parent.
  destruct (Z.eqb_spec parent 0) as [Hp0|Hp0].
  { by rewrite (proj2 (Z.ltb_ge 0 parent)) by lia. }
  rewrite Ef. destruct (Z.leb_spec 0 parent), (Z.ltb_spec 0 parent); cbn [andb]; try lia; [|done].
  destruct (parent <? process_count (c_procs c)) eqn:Eb; cbn [andb]; [|done].
  assert (forall i, p_wait_return_rip (cproc (after_exit a1 c) i) = p_wait_return_rip (cproc c i) /\
    p_wait_return_rsp (cproc (after_exit a1 c) i) = p_wait_return_rsp (cproc c i) /\
    p_address_space (cproc (after_exit a1 c) i) = p_address_space (cproc c i)) as Hf.
  { intros i. rewrite after_exit_proc. by case_test. }
  destruct (Hf parent) as (-> & -> & ->).
  destruct (negb (p_wait_return_rip (cproc c parent) =? 0) && negb (p_wait_return_rsp (cproc c parent) =? 0)) eqn:Ew.
  - unfold resume_parent. by rewrite <- update_current.
  - destruct ((_ =? ORE_PROC_BLOCKED) && _); done.
Qed.

Lemma exit_table_idle a1 c :
  life_ok c -> parent_waits c = false -> idle_ok (exit_table a1 c).
Proof.
  intros Hl Hn. pose proof (after_exit_idle a1 c Hl) as Hi. unfold exit_table, parent_waits in *.
  set (parent := p_parent_pid (cproc c (current c))) in *.
  destruct ((0 <? parent) && (parent <? process_count (c_procs c))) eqn:E; cbn [andb] in *; [|done].
  destruct ((_ =? ORE_PROC_BLOCKED) && _) eqn:E2; [|done].
  apply idle_update; [done..|]. intros [W1 W2].
  assert (p_wait_return_rip (proc (c_procs (after_exit a1 c)) parent) = p_wait_return_rip (cproc c parent) /\
    p_wait_return_rsp (proc (c_procs (after_exit a1 c)) parent) = p_wait_return_rsp (cproc c parent)) as [F1 F2].
  { change (proc (c_procs (after_exit a1 c)) parent) with (cproc (after_exit a1 c) parent).
    rewrite after_exit_proc. by case_test. }
  change (p_wait_return_rip (proc (c_procs (after_exit a1 c)) parent) <> 0) in W1.
  change (p_wait_return_rsp (proc (c_procs (after_exit a1 c)) parent) <> 0) in W2.
  rewrite F1 in W1. rewrite F2 in W2.
  by rewrite (proj2 (Z.eqb_neq _ _) W1), (proj2 (Z.eqb_neq _ _) W2) in Hn.
Qed.

Lemma parent_waits_spec c :
  life_ok c -> parent_waits c = true ->
  let parent := p_parent_pid (cproc c (current c)) in
  1 <= parent < process_count (c_procs c) /\ parent <> current c /\ waits (cproc c parent) /\
  p_state (cproc c parent) = ORE_PROC_BLOCKED.
Proof.
  intros Hl E parent. unfold parent_waits in E. fold parent in E. bool_to_prop.
  assert (waits (cproc c parent)) as Hw by (by split).
  pose proof (lf_waits _ Hl parent ltac:(lia) Hw) as Hb. split; [lia|]. split; [|by split].
  intros Ep. rewrite Ep, (lf_running _ Hl) in Hb. done.
Qed.

Lemma exit_life c a1 r c' : life_ok c -> sys_exit a1 c = Some (r, c') -> life_ok c'.
Proof.
  intros Hl E. pose proof (exit_cases c a1 Hl) as Hc. cbv zeta in Hc.
  set (parent := p_parent_pid (cproc c (current c))) in *.
  destruct (parent_waits c) eqn:Ew; rewrite Hc in E.
  - injection E as _ <-. destruct (parent_waits_spec c Hl Ew) as (Hb & Hne & Hw & Hst). fold parent in Hb, Hne, Hw, Hst.
    assert (cproc (after_exit a1 c) parent = cproc c parent) as Ep
      by (by rewrite after_exit_proc, (proj2 (Z.eqb_neq _ _))).
    apply (enter_life parent (with_procs (update parent resumed (c_procs (after_exit a1 c))) c)); cbn [with_procs c_procs].
    + apply idle_update; [by apply after_exit_idle|done|..].
      * change (p_state (cproc (after_exit a1 c) parent) <> ORE_PROC_RUNNING). by rewrite Ep, Hst.
      * by intros [? _].
    + cbn [update process_count after_exit with_procs c_procs]. lia.
    + done.
    + unfold cproc. cbn [with_procs c_procs resume_parent c_cr3]. rewrite proc_update, Z.eqb_refl.
      change (pml4_phys (p_address_space (cproc c parent)) =
        pml4_phys (p_address_space (cproc (after_exit a1 c) parent))). by rewrite Ep.
    + unfold cproc. cbn [with_procs c_procs]. rewrite proc_update, Z.eqb_refl. by intros [? _].
  - pose proof (exit_table_idle a1 c Hl Ew) as Hi.
    assert (process_count (exit_table a1 c) = process_count (c_procs c) /\
      process_current (exit_table a1 c) = current c) as [E1 E2] by (unfold exit_table; by case_test).
    unfold exit_to_next in E. cbn [with_procs c_procs] in E.
    pose proof (next_ready_spec (current c) (exit_table a1 c)) as Hn.
    destruct (next_ready_process _ _) as [next|]; [|done]. injection E as _ <-.
    destruct Hn as [(Hb & Hne & Hst) _].
    { apply idle_table; [done|]. rewrite E1, E2. apply (lf_table _ Hl). }
    apply (enter_life next (with_procs (exit_table a1 c) c)); [done|cbn [with_procs c_procs]; lia|done|..].
    + cbn [enter_process_from_syscall syscall_override_return write_cr3 c_cr3]. unfold cproc.
      cbn [with_procs c_procs]. by rewrite proc_set_current, Z.eqb_refl.
    + intros Hw. apply (id_waits _ Hi) in Hw; [|lia]. by rewrite Hst in Hw.
Qed.

(** The interrupted process and the frame of the process switched to. *)
Definition preempted (frame : InterruptFrame) (p : Process) : Process :=
  set_state ORE_PROC_READY (set_saved_user_rsp (f_rsp frame) (set_saved_user_rip (f_rip frame)
    (set_has_user_frame true (set_user_frame frame p)))).
Definition framed (p : Process) : Process :=
  if p_has_user_frame p then p else set_has_user_frame true (set_user_frame (fresh_frame p) p).

Lemma tick_cases frame c :
  life_ok c ->
  user_tick frame c = (frame, c) \/
  exists next, 1 <= next < process_count (c_procs c) /\ next <> current c /\
    p_state (cproc c next) = ORE_PROC_READY /\ ~ waits (cproc c next) /\
    (user_tick frame c).1 = resume_frame (cproc c next) /\
    let pt := update (current c) (preempted frame) (c_procs c) in
    let c' := (user_tick frame c).2 in
    c_cr3 c' = pml4_phys (p_address_space (cproc c next)) /\
    (c_procs c' = process_set_current next pt \/ c_procs c' = process_set_current next (update next framed pt)).
Proof.
  intros Hl. unfold user_tick, process_schedule_user_tick. fold (current c). fold (cproc c (current c)).
  destruct (negb _); [left; by destruct c|]. rewrite (lf_running _ Hl). cbn [Z.eqb Pos.eqb negb ORE_PROC_RUNNING].
  rewrite current_pid by done. destruct (_ =? 1); [left; by destruct c|].
  destruct (next_ready_process _ _) as [next|] eqn:En; [|left; by destruct c].
  destruct (next_ready_ok c next Hl En) as (Hb & Hne & Hst & Hw). fold (preempted frame).
  assert (proc (update (current c) (preempted frame) (c_procs c)) next = cproc c next) as E1
    by (by rewrite proc_update, (proj2 (Z.eqb_neq _ _))).
  right. exists next. unfold resume_frame. fold (preempted frame). change (fun p => set_state ORE_PROC_READY _) with (preempted frame).
  rewrite E1. destruct (p_has_user_frame (cproc c next)) eqn:Eh.
  - split; [lia|]. split; [done|]. split; [done|]. split; [done|]. split; [done|]. cbv zeta. split.
    + unfold cproc, current. cbn [snd with_procs write_cr3 c_cr3 c_procs Z.eqb Pos.eqb].
      change (process_current (process_set_current next ?pt)) with next. fold (current c) (cproc c next). rewrite proc_set_current, Z.eqb_refl, E1. done.
    + by left.
  - split; [lia|]. split; [done|]. split; [done|]. split; [done|]. split; [done|]. cbv zeta. split.
    + unfold cproc, current. cbn [snd with_procs write_cr3 c_cr3 c_procs Z.eqb Pos.eqb].
      change (process_current (process_set_current next ?pt)) with next. fold (current c) (cproc c next). rewrite proc_set_current, Z.eqb_refl, proc_update, Z.eqb_refl, E1. done.
    + right. cbn [snd with_procs write_cr3 c_procs Z.eqb Pos.eqb]. f_equal.
      unfold update at 1 3. f_equal. f_equal. unfold framed. rewrite E1, Eh. done.
Qed.

Lemma running_not_waits c : life_ok c -> ~ waits (cproc c (current c)).
Proof.
  intros Hl Hw. apply (lf_waits _ Hl) in Hw; [|apply (lf_table _ Hl)]. by rewrite (lf_running _ Hl) in Hw.
Qed.

Lemma tick_life frame c : life_ok c -> life_ok (user_tick frame c).2.
Proof.
  intros Hl. destruct (tick_cases frame c Hl) as [->|(next & Hb & Hne & Hst & Hw & _ & Hc & Hp)]; [done|].
  set (pt := update (current c) (preempted frame) (c_procs c)) in *.
  assert (idle_ok pt) as Hi.
  { apply leave_idle; [done|]. split; [done|]. split; [done|]. intros Hwt. by destruct (running_not_waits c Hl). }
  assert (proc pt next = cproc c next) as En by (unfold pt; by rewrite proc_update, (proj2 (Z.eqb_neq _ _))).
  destruct Hp as [Hp|Hp].
  - apply (enter_life next (with_procs pt c)); [done|cbn; lia|done|by unfold cproc; cbn [with_procs c_procs]; rewrite En|].
    unfold cproc. cbn [with_procs c_procs]. by rewrite En.
  - assert (forall p, p_pid (framed p) = p_pid p /\ p_state (framed p) = p_state p /\
      p_address_space (framed p) = p_address_space p /\ (waits (framed p) -> waits p)) as Hf
      by (intros p; unfold framed; by case_test).
    apply (enter_life next (with_procs (update next framed pt) c)); cbn [with_procs c_procs].
    + apply idle_update; [done|apply Hf|..].
      * rewrite (proj1 (proj2 (Hf _))), En, Hst. done.
      * intros Hwt. apply Hf in Hwt. by rewrite En in Hwt.
    + cbn. lia.
    + done.
    + unfold cproc. cbn [with_procs c_procs]. rewrite proc_update, Z.eqb_refl.
      by rewrite (proj1 (proj2 (proj2 (Hf _)))), En.
    + unfold cproc. cbn [with_procs c_procs]. rewrite proc_update, Z.eqb_refl. intros Hwt. apply Hf in Hwt. by rewrite En in Hwt.
Qed.

Lemma step_life c c' : control_step c c' -> life_ok c -> life_ok c'.
Proof.
  intros Hs Hl. destruct Hs as [c rip rsp|c rip rsp pid|c rip rsp code r c' E|c frame].
  - pose proof (yield_cases _ (entry_life rip rsp c Hl)) as Hy.
    destruct (next_ready_process _ _); [by destruct Hy as [-> ?]|]. rewrite Hy. by apply entry_life.
  - pose proof (wait_cases _ pid (entry_life rip rsp c Hl)) as Hw. cbv zeta in Hw. revert Hw.
    repeat case_test; [by intros [-> ?]|..]; intros ->; by apply entry_life.
  - by eapply exit_life, E; apply entry_life.
  - by apply tick_life.
Qed.

(** ** Which processes a step changes *)

(** The outcome of a step for the processes other than the one that made it. *)
Definition switches (c c' : control) : Prop :=
  (current c' = current c /\ forall i, i <> current c -> cproc c' i = cproc c i) \/
  (current c' <> current c /\
   (p_state (cproc c (current c')) = ORE_PROC_READY \/ p_state (cproc c (current c')) = ORE_PROC_BLOCKED) /\
   forall i, i <> current c -> i <> current c' ->
     cproc c' i = cproc c i \/
     (p_state (cproc c i) = ORE_PROC_BLOCKED /\ ~ waits (cproc c i) /\ cproc c' i = woken (cproc c i))).

Lemma enter_proc next c i :
  cproc (enter_process_from_syscall next c) i =
  if i =? next then set_state ORE_PROC_RUNNING (cproc c i) else cproc c i.
Proof.
  unfold cproc, enter_process_from_syscall. cbn [syscall_override_return write_cr3 with_procs c_procs].
  rewrite proc_set_current. by destruct (Z.eqb_spec i next) as [->|].
Qed.

Lemma update_proc f c i :
  cproc (with_procs (update (current c) f (c_procs c)) c) i =
  if i =? current c then f (cproc c i) else cproc c i.
Proof.
  unfold cproc. cbn [with_procs c_procs]. rewrite proc_update. by destruct (Z.eqb_spec i (current c)) as [->|].
Qed.

(** A switch after an update of the current process. *)
Lemma switch_frame next f c :
  next <> current c -> p_state (cproc c next) = ORE_PROC_READY ->
  switches c (enter_process_from_syscall next (with_procs (update (current c) f (c_procs c)) c)).
Proof.
  intros Hne Hst. right. change (current (enter_process_from_syscall _ _)) with next.
  split; [done|]. split; [by left|]. intros i H1 H2. left.
  rewrite enter_proc, update_proc. by rewrite (proj2 (Z.eqb_neq _ _) H1), (proj2 (Z.eqb_neq _ _) H2).
Qed.

Lemma switches_refl c : switches c c.
Proof. left. done. Qed.

Lemma yield_switches c : life_ok c -> switches c (sys_yield c).2.
Proof.
  intros Hl. pose proof (yield_cases c Hl) as Hy. destruct (next_ready_process _ _) as [next|] eqn:En.
  - destruct Hy as [-> _]. destruct (next_ready_ok c next Hl En) as (_ & Hne & Hst & _). by apply switch_frame.
  - rewrite Hy. apply switches_refl.
Qed.

Lemma wait_switches c a1 : life_ok c -> switches c (sys_wait a1 c).2.
Proof.
  intros Hl. pose proof (wait_cases c a1 Hl) as Hw. cbv zeta in Hw. revert Hw.
  case_test; [case_test|]; [|intros ->; apply switches_refl..].
  intros [-> _]. bool_to_prop. by apply switch_frame.
Qed.

Lemma exit_table_proc a1 c i :
  i <> current c -> parent_waits c = false ->
  proc (exit_table a1 c) i = cproc c i \/
  (p_state (cproc c i) = ORE_PROC_BLOCKED /\ ~ waits (cproc c i) /\ proc (exit_table a1 c) i = woken (cproc c i)).
Proof.
  intros Hi Hw. unfold exit_table. unfold parent_waits in Hw. set (parent := p_parent_pid _).
  assert (cproc (after_exit a1 c) i = cproc c i) as Ei by (by rewrite after_exit_proc, (proj2 (Z.eqb_neq _ _))).
  case_test; [|left; exact Ei]. rewrite proc_update. destruct (Z.eqb_spec i parent) as [->|]; [|left; exact Ei].
  right. bool_to_prop. rewrite Ei in *. change (proc (c_procs (after_exit a1 c)) parent) with (cproc (after_exit a1 c) parent).
  rewrite Ei. split; [done|]. split; [|done]. intros [W1 W2]. fold parent in Hw.
  by rewrite (proj2 (Z.ltb_lt 0 parent)), (proj2 (Z.ltb_lt parent _)), (proj2 (Z.eqb_neq _ _) W1),
    (proj2 (Z.eqb_neq _ _) W2) in Hw.
Qed.

Lemma exit_switches c a1 r c' : life_ok c -> sys_exit a1 c = Some (r, c') -> switches c c'.
Proof.
  intros Hl E. pose proof (exit_cases c a1 Hl) as Hc. cbv zeta in Hc.
  set (parent := p_parent_pid (cproc c (current c))) in *. right.
  destruct (parent_waits c) eqn:Ew; rewrite Hc in E.
  - injection E as _ <-. destruct (parent_waits_spec c Hl Ew) as (Hb & Hne & Hw & Hst). fold parent in Hb, Hne, Hw, Hst.
    change (current (resume_parent a1 parent c)) with parent. split; [done|]. split; [by right|].
    intros i H1 H2. left. unfold cproc. cbn [resume_parent c_procs].
    rewrite proc_set_current, (proj2 (Z.eqb_neq _ _) H2), proc_update, (proj2 (Z.eqb_neq _ _) H2).
    fold (cproc (after_exit a1 c) i) (cproc c i). by rewrite after_exit_proc, (proj2 (Z.eqb_neq _ _) H1).
  - unfold exit_to_next in E. cbn [with_procs c_procs] in E.
    pose proof (exit_table_idle a1 c Hl Ew) as Hi.
    assert (process_count (exit_table a1 c) = process_count (c_procs c) /\
      process_current (exit_table a1 c) = current c) as [E1 E2] by (unfold exit_table; by case_test).
    pose proof (next_ready_spec (current c) (exit_table a1 c)) as Hn.
    destruct (next_ready_process _ _) as [next|]; [|done]. injection E as _ <-.
    destruct Hn as [(Hb & Hne & Hst) _].
    { apply idle_table; [done|]. rewrite E1, E2. apply (lf_table _ Hl). }
    change (current (enter_process_from_syscall next _)) with next. split; [done|]. split.
    + destruct (exit_table_proc a1 c next Hne Ew) as [En|[Hbl _]]; [left; by rewrite <- En|by right].
    + intros i H1 H2. rewrite enter_proc, (proj2 (Z.eqb_neq _ _) H2). by apply exit_table_proc.
Qed.

Lemma tick_switches frame c : life_ok c -> switches c (user_tick frame c).2.
Proof.
  intros Hl. destruct (tick_cases frame c Hl) as [->|(next & Hb & Hne & Hst & Hw & _ & Hc & Hp)]; [apply switches_refl|].
  right. set (c' := (user_tick frame c).2) in *.
  assert (current c' = next) as -> by (unfold current; destruct Hp as [->| ->]; done).
  split; [done|]. split; [by left|]. intros i H1 H2. left. unfold cproc.
  destruct Hp as [->| ->]; rewrite proc_set_current, (proj2 (Z.eqb_neq _ _) H2), !proc_update,
    ?(proj2 (Z.eqb_neq _ _) H2), ?(proj2 (Z.eqb_neq _ _) H1); done.
Qed.

(** Every step leaves the other processes as they are, except that a blocked
    process may be woken. *)
Lemma step_switches c c' : control_step c c' -> life_ok c -> switches c c'.
Proof.
  intros Hs Hl. assert (forall rip rsp, switches (syscall_entry rip rsp c) c' -> switches c c') as Hentry.
  { intros rip rsp. unfold switches. change (current (syscall_entry rip rsp c)) with (current c).
    assert (forall i, i <> current c -> cproc (syscall_entry rip rsp c) i = cproc c i) as He
      by (intros i Hi; by rewrite entry_proc, (proj2 (Z.eqb_neq _ _))).
    intros [[H1 H2]|(H1 & H2 & H3)]; [left|right].
    - split; [done|]. intros i Hi. by rewrite H2, He.
    - rewrite He in H2 by done. split; [done|]. split; [done|]. intros i Hi Hi'.
      rewrite <- (He i Hi). by apply H3. }
  destruct Hs as [c rip rsp|c rip rsp pid|c rip rsp code r c' E|c frame].
  - apply (Hentry rip rsp), yield_switches. by apply entry_life.
  - apply (Hentry rip rsp), wait_switches. by apply entry_life.
  - apply (Hentry rip rsp). by eapply exit_switches, E; apply entry_life.
  - by apply tick_switches.
Qed.

(** ** Properties *)

(** C13: in every interleaving of yields, waits, exits and timer ticks the table
    of processes stays well formed: the current process is the only running user
    process, its page tables are the ones loaded, and only blocked processes have
    a return point for a wait. *)
Theorem process_lifecycle c c' : life_ok c -> rtc control_step c c' -> life_ok c'.
Proof. intros Hl Hr. induction Hr; eauto using step_life. Qed.

(** a process that has exited never runs again and keeps its exit code, so
    every later wait of its parent returns that code. *)
Theorem exited_is_final c c' i a1 :
  life_ok c -> 1 <= i -> p_state (cproc c i) = ORE_PROC_EXITED -> rtc control_step c c' ->
  cproc c' i = cproc c i /\ current c' <> i /\
  (u32 a1 = i -> i < process_count (c_procs c') -> p_parent_pid (cproc c i) = current c' ->
   sys_wait a1 c' = (p_exit_code (cproc c i), c')).
Proof.
  intros Hl Hi He Hr.
  assert (life_ok c' /\ cproc c' i = cproc c i) as [Hl' Hp].
  { clear a1. revert He. induction Hr as [c|c c1 c' Hs Hr IH]; intros He; [done|].
    pose proof (step_life _ _ Hs Hl) as Hl1. pose proof (step_switches _ _ Hs Hl) as Hsw.
    assert (i <> current c) as Hne by (intros ->; by rewrite (lf_running _ Hl) in He).
    assert (cproc c1 i = cproc c i) as E1.
    { destruct Hsw as [[_ Hk]|(Hcur & Hst & Hk)]; [by apply Hk|].
      destruct (Hk i Hne) as [?|[Hb _]]; [|done|by rewrite He in Hb].
      intros ->. rewrite He in Hst. by destruct Hst. }
    destruct (IH Hl1 ltac:(by rewrite E1)) as [? E2]. split; [done|]. by rewrite E2. }
  split; [done|]. split.
  - intros Hc. pose proof (lf_running _ Hl') as Hrun. by rewrite Hc, Hp, He in Hrun.
  - intros Ha Hn Hpar. pose proof (wait_cases c' a1 Hl') as Hw. cbv zeta in Hw. rewrite Ha, Hp, He, Hpar in Hw.
    rewrite (proj2 (Z.ltb_lt _ _) Hn), Z.eqb_refl, (proj2 (Z.eqb_neq i (current c'))) in Hw; [done|].
    intros Hc. pose proof (lf_running _ Hl') as Hrun. by rewrite <- Hc, Hp, He in Hrun.
Qed.

(** Steps that leave process [a] away from the processor. *)
Definition away (a : Z) (c c' : control) : Prop := control_step c c' /\ current c' <> a.

Lemma away_keeps a c c' :
  life_ok c -> current c <> a -> (p_state (cproc c a) <> ORE_PROC_BLOCKED \/ waits (cproc c a)) ->
  rtc (away a) c c' -> life_ok c' /\ current c' <> a /\ cproc c' a = cproc c a.
Proof.
  intros Hl Hc Hb Hr. induction Hr as [c|c c1 c' [Hs Hc1] Hr IH]; [done|].
  pose proof (step_switches _ _ Hs Hl) as Hsw.
  assert (cproc c1 a = cproc c a) as E.
  { destruct Hsw as [[_ Hk]|(_ & _ & Hk)]; [by apply Hk|].
    destruct (Hk a) as [?|(Hb' & Hw & _)]; [done..|]. by destruct Hb. }
  rewrite <- E. apply IH; [by eapply step_life|done|]. by rewrite E.
Qed.

Lemma step_count c c' : control_step c c' -> process_count (c_procs c') = process_count (c_procs c).
Proof.
  intros Hs. destruct Hs as [c rip rsp|c rip rsp pid|c rip rsp code r c' E|c frame].
  - unfold sys_yield, schedule_next_from_syscall. cbn [snd]. by repeat case_match.
  - unfold sys_wait. by repeat case_match.
  - unfold sys_exit, exit_to_next in E. repeat case_match; simplify_eq; done.
  - unfold user_tick, process_schedule_user_tick. by repeat case_match; simplify_eq.
Qed.

Lemma away_count a c c' : rtc (away a) c c' -> process_count (c_procs c') = process_count (c_procs c).
Proof. intros Hr. induction Hr as [c|c c1 c' [Hs _] _ IH]; [done|]. rewrite IH. by apply step_count. Qed.

(** C14: a process that waits for a child is resumed by the exit of the first
    child to exit after that, however many other steps lie between: at the
    return point of its wait call, in its own address space, with the child's
    exit code as the result, and the child is marked exited. *)
Theorem wait_resumed_by_exit c a1 rip rsp c2 rip' rsp' code :
  let a := current c in let child := u32 a1 in
  let c1 := (sys_wait a1 (syscall_entry rip rsp c)).2 in
  life_ok c -> a <> 0 -> rip <> 0 -> rsp <> 0 ->
  child < process_count (c_procs c) -> child <> a -> p_parent_pid (cproc c child) = a ->
  p_state (cproc c child) = ORE_PROC_READY ->
  rtc (away a) c1 c2 -> p_parent_pid (cproc c2 (current c2)) = a ->
  exists c3, sys_exit code (syscall_entry rip' rsp' c2) = Some (u32 (s32 code), c3) /\
    current c3 = a /\ c_sysret c3 = Some (rip, rsp) /\
    c_cr3 c3 = pml4_phys (p_address_space (cproc c a)) /\
    p_state (cproc c3 (current c2)) = ORE_PROC_EXITED /\ p_exit_code (cproc c3 (current c2)) = s32 code.
Proof.
  intros a child c1 Hl Ha Hrip Hrsp Hb Hne Hpar Hst Hr Hpar2.
  pose proof (entry_life rip rsp c Hl) as He. pose proof (wait_cases _ a1 He) as Hw. cbv zeta in Hw.
  change (current (syscall_entry rip rsp c)) with a in Hw.
  assert (cproc (syscall_entry rip rsp c) child = cproc c child) as Ec
    by (by rewrite entry_proc, (proj2 (Z.eqb_neq _ _))).
  fold child in Hw. change (process_count (c_procs (syscall_entry rip rsp c))) with (process_count (c_procs c)) in Hw.
  rewrite Ec, Hpar, Hst, (proj2 (Z.ltb_lt _ _) Hb), (proj2 (Z.eqb_neq _ _) Hne), !Z.eqb_refl in Hw.
  cbn [negb andb] in Hw. destruct Hw as [Hw Hl1]. unfold c1 in Hr. rewrite Hw in Hr. cbn [snd] in Hr.
  set (c1' := enter_process_from_syscall _ _) in *. clear c1.
  set (c0 := syscall_entry rip rsp c) in *.
  assert (cproc c1' a = waiting child rip rsp (cproc c0 a)) as E1.
  { unfold c1'. rewrite enter_proc, (proj2 (Z.eqb_neq a child)) by done.
    change a with (current c0). rewrite update_proc. by rewrite Z.eqb_refl. }
  destruct (away_keeps a c1' c2 Hl1) as (Hl2 & Hc2 & E2); [done|right; rewrite E1; by split|done|].
  set (c2' := syscall_entry rip' rsp' c2). pose proof (entry_life rip' rsp' c2 Hl2) as Hl2'. fold c2' in Hl2'.
  assert (cproc c2' a = waiting child rip rsp (cproc c0 a)) as E2'.
  { unfold c2'. rewrite entry_proc, (proj2 (Z.eqb_neq a _)) by done. by rewrite E2. }
  assert (p_parent_pid (cproc c2' (current c2')) = a) as Hp2.
  { change (current c2') with (current c2). unfold c2'. rewrite entry_proc, Z.eqb_refl. exact Hpar2. }
  assert (0 < a < process_count (c_procs c2')) as Hab.
  { change (process_count (c_procs c2')) with (process_count (c_procs c2)). rewrite (away_count a c1' c2 Hr).
    change (process_count (c_procs c1')) with (process_count (c_procs c)).
    pose proof (tk_current _ (lf_table _ Hl)) as Hk. fold (current c) in Hk. fold a in Hk. lia. }
  pose proof (exit_cases c2' code Hl2') as Hx. cbv zeta in Hx. rewrite Hp2 in Hx.
  assert (parent_waits c2' = true) as Hpw.
  { unfold parent_waits. rewrite Hp2, E2', (proj2 (Z.ltb_lt _ _) (proj1 Hab)), (proj2 (Z.ltb_lt _ _) (proj2 Hab)).
    cbn [waiting set_state set_waiting_for_pid set_wait_return_rsp set_wait_return_rip p_wait_return_rip p_wait_return_rsp].
    by rewrite (proj2 (Z.eqb_neq _ _) Hrip), (proj2 (Z.eqb_neq _ _) Hrsp). }
  rewrite Hpw in Hx. exists (resume_parent code a c2'). split; [exact Hx|]. split; [done|].
  assert (cproc (resume_parent code a c2') (current c2) = mark_exited code (cproc c2' (current c2))) as Em.
  { unfold cproc. cbn [resume_parent c_procs].
    rewrite proc_set_current, (proj2 (Z.eqb_neq (current c2) a)), proc_update, (proj2 (Z.eqb_neq (current c2) a)) by done.
    fold (cproc (after_exit code c2') (current c2)). rewrite after_exit_proc. by rewrite Z.eqb_refl. }
  assert (c_sysret (resume_parent code a c2') = Some (rip, rsp) /\
    c_cr3 (resume_parent code a c2') = pml4_phys (p_address_space (cproc c0 a))) as [-> ->]
    by (unfold resume_parent; cbn [c_sysret c_cr3]; by rewrite E2').
  split; [done|]. split.
  - unfold c0. change (pml4_phys (p_address_space (cproc (syscall_entry rip rsp c) a)) =
      pml4_phys (p_address_space (cproc c a))). rewrite entry_proc. by case_test.
  - by rewrite Em.
Qed.

(** [c'] is entered from [c] through a system call. *)
Definition by_syscall (c c' : control) : Prop :=
  exists rip rsp, let c0 := syscall_entry rip rsp c in
    c' = (sys_yield c0).2 \/ (exists a1, c' = (sys_wait a1 c0).2) \/ (exists code r, sys_exit code c0 = Some (r, c')).

(** A call that enters a ready process returns to its saved point. *)
Lemma syscall_enters c c' a :
  life_ok c -> by_syscall c c' -> current c <> a -> current c' = a -> p_state (cproc c a) = ORE_PROC_READY ->
  c_sysret c' = Some (or_else (p_saved_user_rip (cproc c a)) (p_user_entry (cproc c a)),
                      or_else (p_saved_user_rsp (cproc c a)) (p_user_stack (cproc c a))).
Proof.
  intros Hl (rip & rsp & Hs) Hne Hcur Hst. cbv zeta in Hs. pose proof (entry_life rip rsp c Hl) as He.
  set (c0 := syscall_entry rip rsp c) in *.
  assert (cproc c0 a = cproc c a) as E0 by (unfold c0; by rewrite entry_proc, (proj2 (Z.eqb_neq _ _))).
  assert (current c0 <> a) as Hne0 by exact Hne. rewrite <- E0 in Hst |- *.
  assert (forall pt, proc pt a = cproc c0 a -> c_sysret (enter_process_from_syscall a (with_procs pt c0)) =
    Some (or_else (p_saved_user_rip (cproc c0 a)) (p_user_entry (cproc c0 a)),
          or_else (p_saved_user_rsp (cproc c0 a)) (p_user_stack (cproc c0 a)))) as Hent.
  { intros pt Ep. unfold enter_process_from_syscall. cbn [syscall_override_return c_sysret]. unfold cproc at 1 2 3 4.
    cbn [with_procs c_procs]. by rewrite proc_set_current, Z.eqb_refl, Ep. }
  destruct Hs as [->|[[a1 ->]|(code & r & E)]].
  - pose proof (yield_cases c0 He) as Hy. destruct (next_ready_process _ _) as [next|]; [|by rewrite Hy in Hcur].
    destruct Hy as [Hy _]. rewrite Hy in *. change (next = a) in Hcur. subst next. apply Hent.
    by rewrite proc_update, (proj2 (Z.eqb_neq a _)).
  - pose proof (wait_cases c0 a1 He) as Hw. cbv zeta in Hw. revert Hw.
    case_test; [case_test|]; intros Hw; [|by rewrite Hw in Hcur..].
    destruct Hw as [Hw _]. rewrite Hw in *. change (u32 a1 = a) in Hcur. rewrite Hcur. apply Hent.
    by rewrite proc_update, (proj2 (Z.eqb_neq a _)).
  - pose proof (exit_cases c0 code He) as Hx. cbv zeta in Hx. destruct (parent_waits c0) eqn:Ew; rewrite Hx in E.
    + injection E as _ <-. destruct (parent_waits_spec c0 He Ew) as (_ & _ & _ & Hb). change (p_parent_pid (cproc c0 (current c0)) = a) in Hcur.
      rewrite Hcur, Hst in Hb. done.
    + unfold exit_to_next in E. destruct (next_ready_process _ _) as [next|]; [|done]. injection E as _ <-.
      change (next = a) in Hcur. subst next. apply Hent.
      by destruct (exit_table_proc code c0 a ltac:(done) Ew) as [?|[Hb _]]; [|rewrite Hst in Hb].
Qed.

(** a yield is transparent: a process that yields at a return point, and
    that a later system call of any process switches back to after any number of
    steps in between, continues at that point. *)
Theorem yield_resumes c rip rsp c2 c3 :
  let a := current c in let c1 := (sys_yield (syscall_entry rip rsp c)).2 in
  life_ok c -> rip <> 0 -> rsp <> 0 -> current c1 <> a ->
  rtc (away a) c1 c2 -> by_syscall c2 c3 -> current c3 = a ->
  c_sysret c3 = Some (rip, rsp) /\ c_cr3 c3 = pml4_phys (p_address_space (cproc c3 a)).
Proof.
  intros a c1 Hl Hrip Hrsp Hsw Hr Hs Hcur. pose proof (entry_life rip rsp c Hl) as He.
  pose proof (yield_cases _ He) as Hy. unfold c1 in Hsw, Hr. set (c0 := syscall_entry rip rsp c) in *.
  destruct (next_ready_process _ _) as [next|]; [|by rewrite Hy in Hsw].
  destruct Hy as [Hy Hl1]. rewrite Hy in *. set (c1' := enter_process_from_syscall _ _) in *. cbn [snd] in *. clear c1.
  assert (cproc c1' a = yielded rip rsp (cproc c0 a)) as E1.
  { change (next <> a) in Hsw. unfold c1'. rewrite enter_proc, (proj2 (Z.eqb_neq a next)) by done.
    change a with (current c0). rewrite update_proc. by rewrite Z.eqb_refl. }
  destruct (away_keeps a c1' c2 Hl1 Hsw) as (Hl2 & Hc2 & E2); [left; by rewrite E1|done|]. split.
  - rewrite (syscall_enters c2 c3 a Hl2 Hs Hc2 Hcur) by (by rewrite E2, E1). rewrite E2, E1.
    cbn [yielded set_state set_saved_user_rsp set_saved_user_rip p_saved_user_rip p_saved_user_rsp].
    unfold or_else. by rewrite (proj2 (Z.eqb_neq _ _) Hrip), (proj2 (Z.eqb_neq _ _) Hrsp).
  - assert (life_ok c3) as Hl3.
    { destruct Hs as (rip' & rsp' & [->|[[a1 ->]|(code & r & E)]]).
      - exact (step_life _ _ (step_yield c2 rip' rsp') Hl2).
      - exact (step_life _ _ (step_wait c2 rip' rsp' a1) Hl2).
      - exact (step_life _ _ (step_exit c2 rip' rsp' code r c3 E) Hl2). }
    rewrite (lf_cr3 _ Hl3). by rewrite Hcur.
Qed.

(** ** Examples *)

(** The shell (process 1) runs; its children 2 and 3 are ready. *)
Definition demo_shell (s3 : Z) : control :=
  mk_control (mk_table (<[0 := demo_proc 0 ORE_PROC_BLOCKED]> (<[1 := demo_proc 1 ORE_PROC_RUNNING]>
    (<[2 := demo_proc 2 ORE_PROC_READY]> (<[3 := set_exit_code 7 (demo_proc 3 s3)]> ∅)))) 4 (Some 1))
    0x201000 0 0 0 None.

Lemma demo_shell_life s3 : s3 <> ORE_PROC_RUNNING -> life_ok (demo_shell s3).
Proof.
  intros Hs. split; [split; [split; discriminate| |split; [discriminate|reflexivity]|]|reflexivity|reflexivity|].
  - intros i Hi. change (process_count (c_procs (demo_shell s3))) with 4 in Hi.
    assert (i = 0 \/ i = 1 \/ i = 2 \/ i = 3) as [->|[->|[->| ->]]] by lia; reflexivity.
  - intros i Hi. change (process_count (c_procs (demo_shell s3))) with 4 in Hi.
    assert (i = 1 \/ i = 2 \/ i = 3) as [->|[->| ->]] by lia; [reflexivity|discriminate|].
    intros E. destruct Hs. exact E.
  - intros i Hi. change (process_count (c_procs (demo_shell s3))) with 4 in Hi.
    assert (i = 0 \/ i = 1 \/ i = 2 \/ i = 3) as [->|[->|[->| ->]]] by lia; intros [W _]; destruct W; reflexivity.
Qed.

Definition demo_rip : Z := 0x8000001000.
Definition demo_rsp : Z := 0x8ffffff000.
Definition demo_ready : control := demo_shell ORE_PROC_READY.
Definition demo_waiting : control := (sys_wait 2 (syscall_entry demo_rip demo_rsp demo_ready)).2.

Lemma process_lifecycle_witness : life_ok demo_waiting.
Proof.
  apply (process_lifecycle demo_ready); [apply demo_shell_life; discriminate|].
  apply rtc_once, (step_wait demo_ready demo_rip demo_rsp 2).
Defined.

Lemma exited_is_final_witness : exists c',
  c' = (user_tick zero_frame (demo_shell ORE_PROC_EXITED)).2 /\ sys_wait 3 c' = (7, c').
Proof.
  eexists. split; [reflexivity|].
  destruct (exited_is_final (demo_shell ORE_PROC_EXITED) (user_tick zero_frame (demo_shell ORE_PROC_EXITED)).2 3 3)
    as (_ & _ & Hw).
  - apply demo_shell_life. discriminate.
  - lia.
  - reflexivity.
  - apply rtc_once, step_tick.
  - apply Hw; reflexivity.
Defined.

Lemma wait_resumed_by_exit_witness : exists c3,
  sys_exit 5 (syscall_entry 0x8000000123 0x8ffffffe00 demo_waiting) = Some (5, c3) /\
  current c3 = 1 /\ c_sysret c3 = Some (demo_rip, demo_rsp).
Proof.
  destruct (wait_resumed_by_exit demo_ready 2 demo_rip demo_rsp demo_waiting 0x8000000123 0x8ffffffe00 5)
    as (c3 & E & Hc & Hs & _).
  - apply demo_shell_life. discriminate.
  - discriminate.
  - discriminate.
  - discriminate.
  - reflexivity.
  - discriminate.
  - reflexivity.
  - reflexivity.
  - apply rtc_refl.
  - reflexivity.
  - exists c3. split; [exact E|]. split; [exact Hc|exact Hs].
Defined.

(** The shell yields to 2, which yields to 3, which yields back. *)
Definition demo_y1 : control := (sys_yield (syscall_entry demo_rip demo_rsp demo_ready)).2.
Definition demo_y2 : control := (sys_yield (syscall_entry 0x8000002222 demo_rsp demo_y1)).2.
Definition demo_y3 : control := (sys_yield (syscall_entry 0x8000003333 demo_rsp demo_y2)).2.

Lemma yield_resumes_witness : c_sysret demo_y3 = Some (demo_rip, demo_rsp).
Proof.
  apply (yield_resumes demo_ready demo_rip demo_rsp demo_y2 demo_y3).
  - apply demo_shell_life. discriminate.
  - discriminate.
  - discriminate.
  - vm_compute. discriminate.
  - apply rtc_once. split; [apply step_yield|vm_compute; discriminate].
  - exists 0x8000003333, demo_rsp. left. reflexivity.
  - vm_compute. reflexivity.
Defined.

(** The shell waits for process 2; process 2 yields to process 3, another child,
    which exits with code 9: the wait for 2 returns 9 while 2 is still alive. *)
Lemma exit_resumes_wrong_wait :
  let c1 := (sys_yield (syscall_entry 0x8000002222 demo_rsp demo_waiting)).2 in
  match sys_exit 9 (syscall_entry 0x8000003333 demo_rsp c1) with
  | Some (r, c) => (p_waiting_for_pid (cproc demo_waiting 1) =? 2) && (r =? 9) && (current c =? 1) &&
                   (p_state (cproc c 2) =? ORE_PROC_READY)
  | None => false
  end = true.
Proof. vm_compute. reflexivity. Qed.

(** Process 2 is preempted at 0x111, resumed by a tick, and yields at 0x222; the
    next tick that switches to it restores the frame of the preemption, not the
    point of the yield. *)
Lemma tick_restores_stale_frame :
  let c0 := mk_control demo_table 0x202000 0 0 0 None in
  let c1 := (user_tick (user_frame_at 0x8000000111) c0).2 in
  let c2 := (user_tick (user_frame_at 0x8000000999) c1).2 in
  let c3 := (sys_yield (syscall_entry 0x8000000222 demo_rsp c2)).2 in
  let '(frame, c4) := user_tick (user_frame_at 0x8000000aaa) c3 in
  (current c2 =? 2) && (current c4 =? 2) && (p_saved_user_rip (cproc c3 2) =? 0x8000000222) &&
  (f_rip frame =? 0x8000000111) = true.
Proof. vm_compute. reflexivity. Qed.
