(* ===== verification/Descriptors.v ===== *)
(** Descriptor tables and interrupts (kernel/gdt.c, kernel/idt.c, kernel/cpu.c and
    [syscall_init] of kernel/syscall.c).

    The tables are the words that the code writes; how the processor reads them is
    written down beside it ([segment], [tss_segment], [gate]), from the format of
    the descriptors.  The theorems say what the selectors that the kernel uses stand
    for, that a gate leads to its handler, and what an interrupt does. *)
From stdpp Require Import base numbers list gmap.
From Stdlib Require Import ZArith Lia.
From S2P Require Import Prelude Memory PageAllocator Scheduler Process Control.

(** ** Segments *)

(** [Tss64]: packed, 104 bytes. *)
Record Tss64 := mk_tss { tss_rsp0 : Z; tss_rsp1 : Z; tss_rsp2 : Z; tss_ist : list Z; tss_iomap_base : Z }.
Definition SIZEOF_TSS : Z := 4 + 3 * 8 + 8 + 7 * 8 + 8 + 2 + 2.
Definition tss_zero : Tss64 := mk_tss 0 0 0 (replicate 7 0) 0.

(** The static state of gdt.c, and what the processor has loaded. *)
Record gdt_state := mk_gdt {
  gdt : list Z;
  tss : Tss64;
  gdtr_limit : Z;
  gdtr_base : Z;
  reg_cs : Z;
  reg_ds : Z;
  reg_es : Z;
  reg_ss : Z;
  reg_tr : Z
}.

Definition set_tss_descriptor (index : nat) (base limit : Z) (g : list Z) : list Z :=
  let lo := Z.lor (Z.lor (Z.lor (Z.lor (Z.land limit 0xffff)
                (Z.shiftl (Z.land base 0xffffff) 16))
                (Z.shiftl 0x89 40))
                (Z.shiftl (Z.land (Z.shiftr limit 16) 0xf) 48))
                (u64 (Z.shiftl (Z.land (Z.shiftr base 24) 0xff) 56)) in
  <[S index := Z.shiftr base 32]> (<[index := lo]> g).

Definition tss_set_rsp0 (rsp0 : Z) (s : gdt_state) : gdt_state :=
  let t := tss s in
  mk_gdt (gdt s) (mk_tss rsp0 (tss_rsp1 t) (tss_rsp2 t) (tss_ist t) (tss_iomap_base t)) (gdtr_limit s) (gdtr_base s)
    (reg_cs s) (reg_ds s) (reg_es s) (reg_ss s) (reg_tr s).

(** [gdt_init]; the addresses of the two tables are those of the linker. *)
Definition gdt_init (gdt_addr tss_addr : Z) (s : gdt_state) : gdt_state :=
  let g := <[0%nat := 0]> (gdt s) in
  let g := <[1%nat := 0x00af9a000000ffff]> g in
  let g := <[2%nat := 0x00af92000000ffff]> g in
  let g := <[3%nat := 0x00aff2000000ffff]> g in
  let g := <[4%nat := 0x00affa000000ffff]> g in
  let t := tss s in
  let t := mk_tss (tss_rsp0 t) (tss_rsp1 t) (tss_rsp2 t) (tss_ist t) SIZEOF_TSS in
  let g := set_tss_descriptor 5 tss_addr (SIZEOF_TSS - 1) g in
  mk_gdt g t (7 * 8 - 1) gdt_addr 0x08 0x10 0x10 0x10 0x28.

(** ** The system call registers *)

Definition MSR_EFER : Z := 0xc0000080.
Definition MSR_STAR : Z := 0xc0000081.
Definition MSR_LSTAR : Z := 0xc0000082.
Definition MSR_FMASK : Z := 0xc0000084.
Definition EFER_SCE : Z := 1.

(** Machine registers as [rdmsr] and [wrmsr] see them: two halves. *)
Abbreviation msrs := (gmap Z (Z * Z)).
Definition read_msr (msr : Z) (r : msrs) : Z := let '(lo, hi) := default (0, 0) (r !! msr) in Z.lor (Z.shiftl hi 32) lo.
Definition write_msr (msr value : Z) (r : msrs) : msrs := <[msr := (u32 value, u32 (Z.shiftr value 32))]> r.

Definition cpu_enable_nxe (r : msrs) : msrs :=
  let efer := read_msr MSR_EFER r in write_msr MSR_EFER (Z.lor efer (Z.shiftl 1 11)) r.

Definition syscall_init (entry : Z) (r : msrs) : msrs :=
  let efer := read_msr MSR_EFER r in
  let r := write_msr MSR_EFER (Z.lor efer EFER_SCE) r in
  let r := write_msr MSR_LSTAR entry r in
  let r := write_msr MSR_FMASK 0x200 r in
  write_msr MSR_STAR (Z.lor (Z.shiftl 0x08 32) (Z.shiftl 0x13 48)) r.

(** ** Gates *)

Record IdtEntry := mk_gate {
  offset_low : Z;
  selector : Z;
  ist : Z;
  type_attr : Z;
  offset_mid : Z;
  offset_high : Z;
  zero : Z
}.
Definition no_gate : IdtEntry := mk_gate 0 0 0 0 0 0 0.

Definition set_gate (vector handler : Z) (idt : list IdtEntry) : list IdtEntry :=
  <[Z.to_nat vector := mk_gate (u16 handler) 0x08 0 0x8e (u16 (Z.shiftr handler 16)) (u32 (Z.shiftr handler 32)) 0]> idt.

(** [for (i = 0; i <= 32; ++i)]. *)
Definition idt_init (isr_stub_table : Z -> Z) (idt : list IdtEntry) : list IdtEntry :=
  for_loop 33 0 (fun i idt => set_gate (u8 i) (isr_stub_table i) idt) idt.

(** [sizeof(idt) - 1] and the address that [idt_load_current_cpu] loads. *)
Definition idt_load_current_cpu (idt_addr : Z) : Z * Z := (256 * 16 - 1, idt_addr).

(** ** How the processor reads them *)

(** A code or data segment: accessed by selector, with the bits that long mode
    looks at. *)
Record segment := mk_segment { sg_present : bool; sg_dpl : Z; sg_code : bool; sg_writable : bool; sg_long : bool }.
Definition decode_segment (d : Z) : option segment :=
  if Z.testbit d 44 then
    Some (mk_segment (Z.testbit d 47) (Z.land (Z.shiftr d 45) 3) (Z.testbit d 43)
            (negb (Z.testbit d 43) && Z.testbit d 41) (Z.testbit d 53))
  else None.

Definition selector_index (sel : Z) : nat := Z.to_nat (sel / 8).
Definition selector_rpl (sel : Z) : Z := sel mod 4.
Definition segment_at (g : list Z) (sel : Z) : option segment := g !! selector_index sel ≫= decode_segment.

(** An available 64-bit task segment: base and limit. *)
Definition tss_at (g : list Z) (sel : Z) : option (Z * Z) :=
  lo ← g !! selector_index sel;
  hi ← g !! S (selector_index sel);
  if negb (Z.testbit lo 44) && Z.testbit lo 47 && (Z.land (Z.shiftr lo 40) 0xf =? 9) then
    Some (Z.land (Z.shiftr lo 16) 0xffffff + Z.land (Z.shiftr lo 56) 0xff * 2 ^ 24 + Z.land hi 0xffffffff * 2 ^ 32,
          Z.land lo 0xffff + Z.land (Z.shiftr lo 48) 0xf * 2 ^ 16)
  else None.

(** Selectors of [syscall] and [sysret] (with a 64-bit operand) for a value of
    [STAR]: code and stack. *)
Definition syscall_selectors (star : Z) : Z * Z := let s := Z.land (Z.shiftr star 32) 0xfffc in (s, s + 8).
Definition sysret_selectors (star : Z) : Z * Z :=
  let s := Z.shiftr star 48 in (Z.lor (s + 16) 3, Z.lor (s + 8) 3).

(** A present interrupt gate that only ring 0 may call by instruction and that keeps the
    stack of the task state: its handler and code selector. *)
Definition gate_target (e : IdtEntry) : option (Z * Z) :=
  if Z.testbit (type_attr e) 7 && (Z.land (type_attr e) 0x7f =? 14) && (ist e =? 0) then
    Some (offset_low e + offset_mid e * 2 ^ 16 + offset_high e * 2 ^ 32, selector e)
  else None.

(** ** Lemmas *)

Lemma lor_shiftl_add a b k : 0 <= k -> 0 <= a < 2 ^ k -> Z.lor a (Z.shiftl b k) = a + b * 2 ^ k.
Proof.
  intros Hk Ha. rewrite <- Z.shiftl_mul_pow2 by done.
  assert (Z.land a (Z.shiftl b k) = 0) as Hd.
  { apply Z.bits_inj'. intros i Hi. rewrite Z.land_spec, Z.bits_0, Z.shiftl_spec by done. destruct (Z_lt_dec i k).
    - rewrite (Z.testbit_neg_r b) by lia. apply andb_false_r.
    - replace (Z.testbit a i) with false; [done|]. symmetry. destruct (Z.eq_dec a 0) as [->|]; [apply Z.bits_0|].
      apply Z.bits_above_log2; [lia|]. apply Z.lt_le_trans with k; [|lia]. apply Z.log2_lt_pow2; lia. }
  by rewrite Z.add_nocarry_lxor, Z.lxor_lor.
Qed.

Lemma land_mask x k m : 0 <= k -> m = 2 ^ k - 1 -> Z.land x m = x mod 2 ^ k.
Proof. intros Hk ->. rewrite <- Z.land_ones by done. by rewrite Z.ones_equiv. Qed.

(** The task descriptor as a sum of its fields. *)
Lemma tss_descriptor base limit :
  word64 base -> 0 <= limit < 2 ^ 16 ->
  Z.lor (Z.lor (Z.lor (Z.lor (Z.land limit 0xffff) (Z.shiftl (Z.land base 0xffffff) 16)) (Z.shiftl 0x89 40))
    (Z.shiftl (Z.land (Z.shiftr limit 16) 0xf) 48)) (u64 (Z.shiftl (Z.land (Z.shiftr base 24) 0xff) 56)) =
  limit + base mod 2 ^ 24 * 2 ^ 16 + 0x89 * 2 ^ 40 + base / 2 ^ 24 mod 2 ^ 8 * 2 ^ 56.
Proof.
  intros Hb Hl. rewrite (land_mask limit 16), (land_mask base 24), (land_mask (Z.shiftr limit 16) 4), (land_mask (Z.shiftr base 24) 8) by done.
  rewrite !Z.shiftr_div_pow2 by lia. rewrite (Z.mod_small limit), (Z.div_small limit) by lia. change (0 mod 2 ^ 4) with 0.
  set (x := base mod 2 ^ 24). set (y := base / 2 ^ 24 mod 2 ^ 8).
  assert (0 <= x < 2 ^ 24) as Hx by (apply Z.mod_pos_bound; lia). assert (0 <= y < 2 ^ 8) as Hy by (apply Z.mod_pos_bound; lia).
  rewrite (u64_small (Z.shiftl y 56)) by (unfold word64; rewrite Z.shiftl_mul_pow2 by lia; lia).
  rewrite (lor_shiftl_add limit), (lor_shiftl_add _ 0x89 40) by lia. rewrite Z.shiftl_0_l, Z.lor_0_r.
  by rewrite lor_shiftl_add by lia.
Qed.

(** Powers of two as numbers. *)
Ltac powers :=
  repeat match goal with
  | |- context [2 ^ ?k] => let v := eval vm_compute in (2 ^ k) in change (2 ^ k) with v
  | H : context [2 ^ ?k] |- _ => let v := eval vm_compute in (2 ^ k) in change (2 ^ k) with v in H
  end.

Lemma testbit_div x k : 0 <= k -> Z.testbit x k = (x / 2 ^ k mod 2 =? 1).
Proof.
  intros Hk. pose proof (Z.testbit_spec' x k Hk) as Hs. rewrite <- Hs. by destruct (Z.testbit x k).
Qed.

Lemma tss_at_set g base limit :
  word64 base -> 0 <= limit < 2 ^ 16 -> length g = 7%nat -> tss_at (set_tss_descriptor 5 base limit g) 0x28 = Some (base, limit).
Proof.
  intros Hb Hl Hg. unfold tss_at, set_tss_descriptor. rewrite tss_descriptor by done.
  change (selector_index 0x28) with 5%nat. rewrite (list_lookup_insert_ne _ 6 5) by lia.
  rewrite !list_lookup_insert_eq by (rewrite ?length_insert; lia). cbn [mbind option_bind].
  set (lo := limit + _ + _ + _).
  rewrite !testbit_div by done.
  rewrite (land_mask (Z.shiftr lo 40) 4), (land_mask (Z.shiftr lo 16) 24), (land_mask (Z.shiftr lo 56) 8),
    (land_mask lo 16), (land_mask (Z.shiftr lo 48) 4), (land_mask (Z.shiftr base 32) 32) by done. rewrite !Z.shiftr_div_pow2 by done.
  assert (base = base mod 2 ^ 24 + base / 2 ^ 24 mod 2 ^ 8 * 2 ^ 24 + base / 2 ^ 32 mod 2 ^ 32 * 2 ^ 32) as Hbase.
  { unfold word64 in Hb. powers. zlia. }
  replace (Some (base, limit)) with
    (Some (base mod 2 ^ 24 + base / 2 ^ 24 mod 2 ^ 8 * 2 ^ 24 + base / 2 ^ 32 mod 2 ^ 32 * 2 ^ 32, limit)) by (by rewrite <- Hbase).
  revert Hl. unfold lo. clear.
  generalize (Z.mod_pos_bound base (2 ^ 24) eq_refl), (Z.mod_pos_bound (base / 2 ^ 24) (2 ^ 8) eq_refl).
  generalize (base mod 2 ^ 24), (base / 2 ^ 24 mod 2 ^ 8), (base / 2 ^ 32 mod 2 ^ 32). intros x y z Hx Hy Hl.
  set (lo := limit + _ + _ + _). powers.
  assert (lo / 17592186044416 mod 2 = 0) as -> by (unfold lo; clear -Hx Hy Hl; powers; zlia).
  assert (lo / 140737488355328 mod 2 = 1) as -> by (unfold lo; clear -Hx Hy Hl; powers; zlia).
  assert (lo / 1099511627776 mod 16 = 9) as -> by (unfold lo; clear -Hx Hy Hl; powers; zlia).
  cbn [Z.eqb negb andb].
  f_equal. f_equal; unfold lo; clear -Hx Hy Hl; powers; zlia.
Qed.

Lemma set_gate_target v handler idt :
  0 <= v < Z.of_nat (length idt) -> word64 handler -> set_gate v handler idt !! Z.to_nat v ≫= gate_target = Some (handler, 0x08).
Proof.
  intros Hv Hh. unfold set_gate. rewrite list_lookup_insert_eq by lia. cbn [mbind option_bind].
  unfold gate_target. cbn [type_attr ist offset_low offset_mid offset_high selector].
  change (Z.testbit 0x8e 7 && (Z.land 0x8e 0x7f =? 14) && (0 =? 0)) with true.
  f_equal. f_equal. rewrite !Z.shiftr_div_pow2 by lia. unfold word64 in Hh. unfold u16, u32. powers. zlia.
Qed.

Lemma idt_init_length table idt : length (idt_init table idt) = length idt.
Proof. apply (for_loop_proj length). intros j l. unfold set_gate. apply length_insert. Qed.

Lemma idt_init_gates table idt v :
  length idt = 256%nat -> (forall i, 0 <= i <= 32 -> word64 (table i)) -> 0 <= v < 256 ->
  if v <=? 32 then idt_init table idt !! Z.to_nat v ≫= gate_target = Some (table v, 0x08)
  else idt_init table idt !! Z.to_nat v = idt !! Z.to_nat v.
Proof.
  intros Hl Ht Hv.
  set (P := fun (j : Z) (l : list IdtEntry) => length l = 256%nat /\
    if v <? j then l !! Z.to_nat v ≫= gate_target = Some (table v, 0x08) else l !! Z.to_nat v = idt !! Z.to_nat v).
  destruct (for_loop_inv P (fun i l => set_gate (u8 i) (table i) l) 33 0 idt) as [_ Hp].
  - split; [done|]. by rewrite (proj2 (Z.ltb_ge v 0)) by lia.
  - intros j l Hj [Hll Hp]. rewrite u8_small by (unfold byte_ok; lia).
    split; [unfold set_gate; by rewrite length_insert|]. destruct (Z.eq_dec v j) as [->|Hne].
    + rewrite (proj2 (Z.ltb_lt j (j + 1))) by lia. apply set_gate_target; [lia|apply Ht; lia].
    + replace (v <? j + 1) with (v <? j) by (apply eq_iff_eq_true; rewrite !Z.ltb_lt; lia).
      unfold set_gate. rewrite list_lookup_insert_ne by lia. exact Hp.
  - change (0 + Z.of_nat 33) with 33 in Hp. replace (v <=? 32) with (v <? 33) by (apply eq_iff_eq_true; rewrite Z.ltb_lt, Z.leb_le; lia).
    exact Hp.
Qed.

Lemma read_write_msr msr v r : word64 v -> read_msr msr (write_msr msr v r) = v.
Proof.
  intros Hv. unfold read_msr, write_msr. rewrite lookup_insert_eq. cbn [default from_option id].
  unfold word64 in Hv. assert (0 <= u32 v < 2 ^ 32) by (unfold u32; powers; zlia).
  rewrite Z.lor_comm, lor_shiftl_add by (done || lia). rewrite Z.shiftr_div_pow2 by lia. unfold u32. powers. zlia.
Qed.

Lemma read_write_msr_ne msr msr' v r : msr <> msr' -> read_msr msr (write_msr msr' v r) = read_msr msr r.
Proof. intros Hne. unfold read_msr, write_msr. by rewrite lookup_insert_ne. Qed.

(** ** Interrupts *)

(** What the timer interrupt reaches: the tick counters of the processors, the
    processes, the threads, and how often the interrupt was acknowledged. *)
Record irq_state := mk_irq { g_timer_ticks : list Z; iq_control : control; iq_sched : sched_state; iq_eoi : nat }.

Definition timer_ticks (cpu_id : Z) (ticks : list Z) : Z :=
  if ORE_MAX_CPUS <=? cpu_id then 0 else nth (Z.to_nat cpu_id) ticks 0.

(** Where the interrupt returns to: the frame on the current stack, a stack of
    another thread, or nowhere. *)
Inductive isr_result := Resumes (frame : InterruptFrame) | Switches (sp : Z) | Panics.

(** [isr_dispatch]; [cpu] is the answer of [current_cpu_id] ([Smp.current_cpu_id]; 0 for
    a processor whose identifier is in no entry of the table) and [frame_addr] the address
    of the frame. *)
Definition isr_dispatch (fuel : nat) (cpu vector frame_addr : Z) (frame : InterruptFrame) (s : irq_state)
  : option (isr_result * irq_state) :=
  if vector =? 32 then
    let ticks := if cpu <? ORE_MAX_CPUS
                 then <[Z.to_nat cpu := nth (Z.to_nat cpu) (g_timer_ticks s) 0 +u 1]> (g_timer_ticks s) else g_timer_ticks s in
    let s := mk_irq ticks (iq_control s) (iq_sched s) (S (iq_eoi s)) in
    let switched := fst (fst (process_schedule_user_tick frame (c_procs (iq_control s)))) in
    let '(frame', c) := if cpu =? 0 then user_tick frame (iq_control s) else (frame, iq_control s) in
    let s := mk_irq ticks c (iq_sched s) (iq_eoi s) in
    if (cpu =? 0) && negb (switched =? 0) then Some (Resumes frame', s) else
    '(sp, k) ← scheduler_tick fuel cpu (timer_ticks cpu ticks) frame_addr (iq_sched s);
    Some (Switches sp, mk_irq ticks c k (iq_eoi s))
  else Some (Panics, s).

Lemma scheduler_tick_total c now isp s Q :
  queues s Q -> exists sp s' Q', scheduler_tick SCHED_FUEL c now isp s = Some (sp, s') /\ queues s' Q' /\ (c <> 0 -> sp = 0 /\ s' = s).
Proof.
  intros Hq. destruct (Z.eq_dec c 0) as [->|Hc]; cycle 1.
  { unfold scheduler_tick. rewrite (proj2 (Z.eqb_neq _ _)) by done. cbn. eauto 10. }
  destruct (started (cpu s 0)) eqn:Hst; cycle 1.
  { unfold scheduler_tick. rewrite Hst. cbn. eauto 10. }
  pose proof (tick_spec SCHED_FUEL s Q now isp Hq (le_n _) Hst) as Ht. cbn zeta in Ht.
  destruct (ready s Q now); [destruct Ht as (s1 & E & Hq' & _)|destruct Ht as (sp & s1 & E & Hq' & _)]; rewrite E;
    (eexists _, _, _; split; [done|]; split; [done|done]).
Qed.

Lemma gdt_words (g : list Z) : length g = 7%nat -> exists a0 a1 a2 a3 a4 a5 a6, g = [a0; a1; a2; a3; a4; a5; a6].
Proof. intros Hg. do 8 (destruct g as [|? g]; try done). eauto 10. Qed.

(** ** Properties *)

(** after [gdt_init] and [syscall_init] every selector in use lies inside the
    table and means what its user needs: the code and stack of the kernel at ring 0,
    which the [syscall] instruction also loads; the long-mode code and the writable
    data of ring 3, which [sysret] and the frames of fresh processes load; and the
    task register describes the task segment at its address with its size.  The
    entry point and the extended features survive the split into halves. *)
Theorem kernel_selectors gdt_addr tss_addr entry s r p :
  length (gdt s) = 7%nat -> word64 tss_addr -> word64 entry -> word64 (read_msr MSR_EFER r) ->
  let g := gdt_init gdt_addr tss_addr s in
  let m := syscall_init entry (cpu_enable_nxe r) in
  let star := read_msr MSR_STAR m in
  let kernel_code := Some (mk_segment true 0 true false true) in
  let kernel_data := Some (mk_segment true 0 false true true) in
  let user_code := Some (mk_segment true 3 true false true) in
  let user_data := Some (mk_segment true 3 false true true) in
  segment_at (gdt g) (reg_cs g) = kernel_code /\ segment_at (gdt g) (reg_ss g) = kernel_data /\
  reg_ds g = reg_ss g /\ reg_es g = reg_ss g /\
  syscall_selectors star = (reg_cs g, reg_ss g) /\
  sysret_selectors star = (f_cs (fresh_frame p), f_ss (fresh_frame p)) /\
  segment_at (gdt g) (f_cs (fresh_frame p)) = user_code /\ segment_at (gdt g) (f_ss (fresh_frame p)) = user_data /\
  selector_rpl (f_cs (fresh_frame p)) = 3 /\ selector_rpl (f_ss (fresh_frame p)) = 3 /\
  tss_at (gdt g) (reg_tr g) = Some (tss_addr, SIZEOF_TSS - 1) /\
  (forall sel, sel ∈ [reg_cs g; reg_ss g; f_cs (fresh_frame p); f_ss (fresh_frame p); reg_tr g + 8] ->
     8 * (sel / 8) + 7 <= gdtr_limit g) /\
  read_msr MSR_LSTAR m = entry /\ read_msr MSR_FMASK m = 0x200 /\
  read_msr MSR_EFER m = Z.lor (Z.lor (read_msr MSR_EFER r) 0x800) 1.
Proof.
  intros Hg Ht He Hr g m star kc kd uc ud. destruct s as [gd t gl gb cs ds es ss tr]. cbn [gdt] in Hg.
  destruct (gdt_words gd Hg) as (a0 & a1 & a2 & a3 & a4 & a5 & a6 & ->).
  assert (star = Z.lor (Z.shiftl 0x08 32) (Z.shiftl 0x13 48)) as ->.
  { apply read_write_msr. unfold word64. split; vm_compute; congruence. }
  assert (tss_at (gdt g) (reg_tr g) = Some (tss_addr, SIZEOF_TSS - 1)) as Htss.
  { apply tss_at_set; [done|unfold SIZEOF_TSS; lia|]. by rewrite !length_insert. }
  do 10 (split; [reflexivity|]). split; [exact Htss|]. split; [|split; [|split]].
  - intros sel Hsel. change (sel ∈ [0x08; 0x10; 0x23; 0x1b; 0x30]) in Hsel. change (gdtr_limit g) with 55.
    repeat (apply elem_of_cons in Hsel as [->|Hsel]); [vm_compute; congruence..|]. by apply elem_of_nil in Hsel.
  - unfold m, syscall_init. rewrite !read_write_msr_ne by done. by apply read_write_msr.
  - unfold m, syscall_init. rewrite read_write_msr_ne by done. by apply read_write_msr.
  - unfold m, syscall_init. rewrite !read_write_msr_ne by done.
    assert (word64 (Z.lor (read_msr MSR_EFER r) 0x800)) as H1 by (apply word64_lor; [done|unfold word64; lia]).
    unfold cpu_enable_nxe. cbv zeta. change (Z.shiftl 1 11) with 0x800. rewrite read_write_msr; [by rewrite read_write_msr|].
    rewrite read_write_msr by done. apply word64_lor; [done|unfold word64, EFER_SCE; lia].
Qed.

(** C34: after [idt_init] the gates of the exceptions and of the timer, vectors 0 to
    32, lead to their handlers, wherever these are in the 64-bit space, for ring 0 only
    and on the stack of the task state, in the code segment that [gdt_init] makes the ring 0 long-mode code; no other gate changes. *)
Theorem gates_lead_to_handlers table idt gdt_addr tss_addr s v :
  length idt = 256%nat -> length (gdt s) = 7%nat -> (forall i, 0 <= i <= 32 -> word64 (table i)) -> 0 <= v < 256 ->
  if v <=? 32 then
    exists cs, idt_init table idt !! Z.to_nat v ≫= gate_target = Some (table v, cs) /\
      segment_at (gdt (gdt_init gdt_addr tss_addr s)) cs = Some (mk_segment true 0 true false true)
  else idt_init table idt !! Z.to_nat v = idt !! Z.to_nat v.
Proof.
  intros Hi Hg Ht Hv. pose proof (idt_init_gates table idt v Hi Ht Hv) as H. destruct (v <=? 32); [|done].
  exists 0x08. split; [done|]. destruct (gdt_words (gdt s) Hg) as (a0 & a1 & a2 & a3 & a4 & a5 & a6 & Eg).
  unfold gdt_init. cbn [gdt]. rewrite Eg. reflexivity.
Qed.

(** C35: a timer interrupt on any processor ends, is acknowledged once and counted on
    that processor only; it keeps the invariant of the processes and that of the run
    queues, and on the other processors it touches neither.  Any other vector that
    reaches the dispatcher panics. *)
Theorem timer_interrupt cpu vector addr frame s Q :
  0 <= cpu < ORE_MAX_CPUS -> length (g_timer_ticks s) = Z.to_nat ORE_MAX_CPUS -> life_ok (iq_control s) -> queues (iq_sched s) Q ->
  exists r s', isr_dispatch SCHED_FUEL cpu vector addr frame s = Some (r, s') /\
    if vector =? 32 then
      r <> Panics /\ iq_eoi s' = S (iq_eoi s) /\
      (forall c, 0 <= c < ORE_MAX_CPUS -> timer_ticks c (g_timer_ticks s') =
         if c =? cpu then timer_ticks c (g_timer_ticks s) +u 1 else timer_ticks c (g_timer_ticks s)) /\
      life_ok (iq_control s') /\ (exists Q', queues (iq_sched s') Q') /\
      (cpu <> 0 -> r = Switches 0 /\ iq_control s' = iq_control s /\ iq_sched s' = iq_sched s)
    else r = Panics /\ s' = s.
Proof.
  intros Hcpu Hlen Hlife Hq. unfold isr_dispatch. destruct (Z.eqb_spec vector 32) as [->|Hv]; [|eauto].
  rewrite (proj2 (Z.ltb_lt _ _)) by lia. cbn [iq_control iq_sched iq_eoi g_timer_ticks].
  set (ticks := <[_ := _]> (g_timer_ticks s)).
  assert (forall c, 0 <= c < ORE_MAX_CPUS -> timer_ticks c ticks =
    if c =? cpu then timer_ticks c (g_timer_ticks s) +u 1 else timer_ticks c (g_timer_ticks s)) as Ht.
  { intros c Hc. unfold timer_ticks. rewrite (proj2 (Z.leb_gt _ _)) by lia. unfold ticks. rewrite !nth_lookup.
    destruct (Z.eqb_spec c cpu) as [->|Hne]; [rewrite list_lookup_insert_eq by lia|rewrite list_lookup_insert_ne by lia]; done. }
  destruct (if cpu =? 0 then _ else _) as [frame' c] eqn:Ec.
  assert (life_ok c /\ (cpu <> 0 -> c = iq_control s)) as [Hl' Hsame].
  { destruct (Z.eqb_spec cpu 0) as [->|Hne]; [|by simplify_eq]. split; [|done].
    rewrite <- (f_equal snd Ec : snd _ = c). by apply tick_life. }
  destruct (scheduler_tick_total cpu (timer_ticks cpu ticks) addr (iq_sched s) Q Hq) as (sp & k & Q' & E & Hq' & Hk).
  destruct ((cpu =? 0) && _) eqn:Hsw.
  - eexists _, _. split; [done|]. cbn [g_timer_ticks iq_control iq_sched iq_eoi]. split; [done|]. split; [done|].
    split; [done|]. split; [done|]. split; [by exists Q|]. intros Hne. apply andb_prop in Hsw as [Hz%Z.eqb_eq _]. done.
  - rewrite E. cbn [mbind option_bind]. eexists _, _. split; [done|]. cbn [g_timer_ticks iq_control iq_sched iq_eoi].
    split; [done|]. split; [done|]. split; [done|]. split; [done|]. split; [by exists Q'|]. intros Hne.
    destruct (Hk Hne) as [-> ->]. by rewrite Hsame.
Qed.

(** The local interrupt controller is told to deliver spurious interrupts at vector
    255, which has no gate. *)
Theorem spurious_vector_has_no_gate table : idt_init table (replicate 256 no_gate) !! 255%nat ≫= gate_target = None.
Proof. reflexivity. Qed.

(** ** Examples *)

Definition boot_gdt : gdt_state := mk_gdt (replicate 7 0) tss_zero 0 0 0 0 0 0 0.

Lemma kernel_selectors_witness :
  tss_at (gdt (gdt_init 0x300000 0xffff800000401080 boot_gdt)) 0x28 = Some (0xffff800000401080, 103).
Proof.
  destruct (kernel_selectors 0x300000 0xffff800000401080 0x201000 boot_gdt ∅ zero_process) as (_ & _ & _ & _ & _ & _ & _ & _ & _ & _ & H & _).
  - reflexivity.
  - unfold word64. lia.
  - unfold word64. lia.
  - vm_compute. split; congruence.
  - exact H.
Defined.

Lemma gates_lead_to_handlers_witness :
  exists cs, idt_init (fun i => 0xffff800000200000 + 16 * i) (replicate 256 no_gate) !! 14%nat ≫= gate_target =
    Some (0xffff8000002000e0, cs).
Proof.
  destruct (gates_lead_to_handlers (fun i => 0xffff800000200000 + 16 * i) (replicate 256 no_gate) 0x300000 0x301000 boot_gdt 14)
    as (cs & H & _).
  - reflexivity.
  - reflexivity.
  - intros i Hi. unfold word64. lia.
  - lia.
  - exists cs. exact H.
Defined.

Definition demo_irq : irq_state := mk_irq (replicate 64 0) (demo_shell ORE_PROC_READY) (scheduler_init boot_sched) 0.

Lemma timer_interrupt_witness :
  exists r s', isr_dispatch SCHED_FUEL 3 32 0x7000 zero_frame demo_irq = Some (r, s') /\ timer_ticks 3 (g_timer_ticks s') = 1 /\
    timer_ticks 0 (g_timer_ticks s') = 0.
Proof.
  destruct (timer_interrupt 3 32 0x7000 zero_frame demo_irq (fun _ => [])) as (r & s' & E & H).
  - unfold ORE_MAX_CPUS. lia.
  - reflexivity.
  - by apply demo_shell_life.
  - apply queues_init.
  - exists r, s'. split; [exact E|]. destruct H as (_ & _ & Ht & _).
    rewrite (Ht 3), (Ht 0) by (unfold ORE_MAX_CPUS; lia). split; reflexivity.
Defined.
