(* ===== verification/Smp.v ===== *)
(** The other processors (kernel/smp.c, kernel/lapic.c, [current_cpu_id] of
    kernel/cpu.c).

    The local interrupt controller is a device with 32-bit registers: it knows the
    identifier of its processor, sends the interrupts written to its command
    register, and is busy for a while after each.  The boot processor prepares the
    page at [TRAMPOLINE_BASE], then for every other processor takes a stack, writes
    the configuration and sends the start-up interrupts.  A processor that answers
    reads the configuration that is in memory and enters [ap_main]. *)
From stdpp Require Import base numbers list gmap.
From Stdlib Require Import ZArith Lia.
From Stdlib Require Import(notations) String.
From S2P Require Import Prelude Memory PageAllocator BootInfo Pmm Ports Scheduler.

Definition LAPIC_ID : Z := 0x20.
Definition LAPIC_EOI : Z := 0xb0.
Definition LAPIC_SVR : Z := 0xf0.
Definition LAPIC_ICR_LOW : Z := 0x300.
Definition LAPIC_ICR_HIGH : Z := 0x310.
Definition LAPIC_LVT_TIMER : Z := 0x320.
Definition LAPIC_TIMER_INITCNT : Z := 0x380.
Definition LAPIC_TIMER_DIVIDE : Z := 0x3e0.
Definition TIMER_VECTOR : Z := 32.
Definition TIMER_PERIODIC : Z := Z.shiftl 1 17.

Definition TRAMPOLINE_BASE : Z := 0x8000.
Definition TRAMPOLINE_CFG_CR3 : Z := 0x8f00.
Definition TRAMPOLINE_CFG_STACK : Z := 0x8f08.
Definition TRAMPOLINE_CFG_ENTRY : Z := 0x8f10.
Definition TRAMPOLINE_CFG_CPU_ID : Z := 0x8f18.
Definition TRAMPOLINE_CFG_STARTED : Z := 0x8f1c.
Definition TRAMPOLINE_GDT : Z := 0x8f40.
Definition TRAMPOLINE_GDT_PTR : Z := 0x8f70.

Record CpuInfo := mk_cpuinfo {
  logical_id : Z;
  apic_id : Z;
  cpu_started : bool;
  cpu_online : bool;
  stack_base : Z;
  stack_top : Z
}.

(** ** The interrupt controller *)

(** What the code relies on, for the controller at [base]: reading the identifier
    and the command register changes nothing but the time that is left; a command
    is sent to the processor in the high half; other registers do not send. *)
Class Lapic (M : Type) `{Mmio M} (base : Z) := {
  lapic_self : M -> Z;
  lapic_dest : M -> Z;
  lapic_sent : M -> list (Z * Z);
  lapic_busy : M -> nat;
  lapic_delay : nat;
  lapic_self_byte m : byte_ok (lapic_self m);
  lapic_busy_delay m : (lapic_busy m <= lapic_delay)%nat;
  lapic_id_read m : fst (mmio_read32 (base + LAPIC_ID) m) = Z.shiftl (lapic_self m) 24;
  lapic_read_same reg m : let m' := snd (mmio_read32 (base + reg) m) in
    lapic_self m' = lapic_self m /\ lapic_dest m' = lapic_dest m /\ lapic_sent m' = lapic_sent m;
  lapic_icr_read m : Z.testbit (fst (mmio_read32 (base + LAPIC_ICR_LOW) m)) 12 = negb (bool_decide (lapic_busy m = O));
  lapic_icr_busy m : lapic_busy (snd (mmio_read32 (base + LAPIC_ICR_LOW) m)) = pred (lapic_busy m);
  lapic_write_self reg v m : lapic_self (mmio_write32 (base + reg) v m) = lapic_self m;
  lapic_write_dest reg v m : lapic_dest (mmio_write32 (base + reg) v m) =
    if reg =? LAPIC_ICR_HIGH then Z.shiftr v 24 else lapic_dest m;
  lapic_write_sent reg v m : lapic_sent (mmio_write32 (base + reg) v m) =
    if (reg =? LAPIC_ICR_LOW) && bool_decide (lapic_busy m = O) then lapic_sent m ++ [(lapic_dest m, v)] else lapic_sent m;
  lapic_high_idle v m : lapic_busy (mmio_write32 (base + LAPIC_ICR_HIGH) v m) = lapic_busy m
}.

Section Controller.
Context {M : Type} `{Mmio M} (base : Z).
Implicit Types m : M.

Definition lapic_read (reg : Z) m : Z * M := mmio_read32 (base + reg) m.
Definition lapic_write (reg value : Z) m : M := mmio_write32 (base + reg) value m.

(** [while (lapic_read(LAPIC_ICR_LOW) & (1u << 12)) {}]. *)
Fixpoint lapic_wait_icr (fuel : nat) m : option M :=
  match fuel with
  | O => None
  | S fuel => let '(v, m) := lapic_read LAPIC_ICR_LOW m in if Z.land v (Z.shiftl 1 12) =? 0 then Some m else lapic_wait_icr fuel m
  end.

Definition lapic_send_ipi (fuel : nat) (apic_id low : Z) m : option M :=
  m ← lapic_wait_icr fuel m;
  let m := lapic_write LAPIC_ICR_HIGH (Z.shiftl apic_id 24) m in
  let m := lapic_write LAPIC_ICR_LOW low m in
  lapic_wait_icr fuel m.

Definition lapic_init_current_cpu m : M :=
  let '(v, m) := lapic_read LAPIC_SVR m in
  let m := lapic_write LAPIC_SVR (Z.lor (Z.lor v 0x100) 0xff) m in
  lapic_write LAPIC_EOI 0 m.

Definition lapic_eoi m : M := lapic_write LAPIC_EOI 0 m.

(** The index of the processor that runs: the first entry with its identifier. *)
Fixpoint find_apic (i : Z) (apic : Z) (cpus : list CpuInfo) : Z :=
  match cpus with
  | [] => 0
  | c :: cpus => if apic_id c =? apic then i else find_apic (i + 1) apic cpus
  end.
Definition current_cpu_id (cpus : list CpuInfo) m : Z * M :=
  let '(v, m) := mmio_read32 (base + 0x20) m in (find_apic 0 (u8 (Z.shiftr v 24)) cpus, m).

(** [lapic_timer_init_current_cpu]: the tick counters are reset first. *)
Definition lapic_timer_init_current_cpu (cpus : list CpuInfo) (ticks : list Z) m : list Z * M :=
  let '(cpu, m) := current_cpu_id cpus m in
  let ticks := if cpu <? ORE_MAX_CPUS then <[Z.to_nat cpu := 0]> ticks else ticks in
  let m := lapic_write LAPIC_TIMER_DIVIDE 0x3 m in
  let m := lapic_write LAPIC_LVT_TIMER (Z.lor TIMER_VECTOR TIMER_PERIODIC) m in
  (ticks, lapic_write LAPIC_TIMER_INITCNT 10000000 m).
End Controller.

Definition pic_disable {D} `{Ports D} (d : D) : D := outb 0xa1 0xff (outb 0x21 0xff d).

(** ** Starting the processors *)

(** A processor that has run the trampoline: what it read from the configuration. *)
Record ap_entry := mk_entry { e_apic : Z; e_cpu : Z; e_stack : Z; e_entry : Z; e_cr3 : Z }.

Section Smp.
Context {M : Type} `{Mmio M} {S : Type} `{PageAllocator S}.

(** The entries of [g_cpus] in use, memory, the pages, the controller, and the
    processors that have entered. *)
Record smp_state := mk_smp {
  g_cpus : list CpuInfo;
  sm_mem : mem;
  sm_pages : S;
  sm_lapic : M;
  sm_entered : list ap_entry
}.

(** What start-up depends on: the controller, the processors of the tables, the
    code and the addresses of the kernel, and which processors answer before the wait
    for them is over; the others do not answer at all during [smp_init]. *)
Record smp_env := mk_env {
  en_base : Z;
  en_apic_ids : list Z;
  en_trampoline : list Z;
  en_cr3 : Z;
  en_ap_main : Z;
  en_answers : Z -> bool
}.
Context (env : smp_env).

Definition trampoline_gdt : list Z :=
  [0; 0x00cf9a000000ffff; 0x00cf92000000ffff; 0x00af9a000000ffff; 0x00af92000000ffff].

Definition prepare_trampoline (m : mem) : outcome mem :=
  let code := en_trampoline env in
  if 0xf00 <? Z.of_nat (length code) then Panic "AP trampoline too large" else
  let m := store_bytes m TRAMPOLINE_BASE code in
  let m := for_loop 5 0 (fun i m => store64 m (TRAMPOLINE_GDT + 8 * i) (nth (Z.to_nat i) trampoline_gdt 0)) m in
  let m := store_le 2 m TRAMPOLINE_GDT_PTR (5 * 8 - 1) in
  Ok (store32 m (TRAMPOLINE_GDT_PTR + 2) TRAMPOLINE_GDT).

(** [for (i = 0; i < cpus && g_cpu_count < ORE_MAX_CPUS; ++i)]. *)
Definition fill_cpus (bsp : Z) (ids : list Z) : list CpuInfo :=
  imap (fun i id => mk_cpuinfo (Z.of_nat i) id (id =? bsp) (id =? bsp) 0 0) (take (Z.to_nat ORE_MAX_CPUS) ids).

(** The inner loop: the last entry with the identifier. *)
Definition find_cpu (apic : Z) (cpus : list CpuInfo) : option nat :=
  foldl (fun r p => if apic_id (snd p) =? apic then Some (fst p) else r) None (imap pair cpus).

Definition write_config (top id : Z) (m : mem) : mem :=
  let m := store64 m TRAMPOLINE_CFG_CR3 (en_cr3 env) in
  let m := store64 m TRAMPOLINE_CFG_STACK top in
  let m := store64 m TRAMPOLINE_CFG_ENTRY (en_ap_main env) in
  let m := store32 m TRAMPOLINE_CFG_CPU_ID id in
  store32 m TRAMPOLINE_CFG_STARTED 0.

(** [ap_main]: the entry of the processor is marked. *)
Definition mark_online (c : CpuInfo) : CpuInfo := mk_cpuinfo (logical_id c) (apic_id c) true true (stack_base c) (stack_top c).
Definition ap_main (cpu_id : Z) (cpus : list CpuInfo) : list CpuInfo :=
  if cpu_id <? Z.of_nat (length cpus) then alter mark_online (Z.to_nat cpu_id) cpus else cpus.

(** A processor that answers runs the trampoline.  Within [smp_init] it does so before the
    wait for it is over or not at all; [late_processor_takes_next_stack] is what happens
    when it does so later. *)
Definition ap_start (apic : Z) (s : smp_state) : smp_state :=
  if en_answers env apic then
    let m := sm_mem s in
    let e := mk_entry apic (load32 m TRAMPOLINE_CFG_CPU_ID) (load64 m TRAMPOLINE_CFG_STACK) (load64 m TRAMPOLINE_CFG_ENTRY)
               (load64 m TRAMPOLINE_CFG_CR3) in
    mk_smp (ap_main (e_cpu e) (g_cpus s)) m (sm_pages s) (sm_lapic s) (sm_entered s ++ [e])
  else s.

Definition with_stack (base : Z) (c : CpuInfo) : CpuInfo :=
  mk_cpuinfo (logical_id c) (apic_id c) (cpu_started c) (cpu_online c) base (base +u 4 * 4096).

(** INIT, then twice the start-up interrupt with the page of the trampoline. *)
Definition send_startup (fuel : nat) (apic : Z) (l : M) : option M :=
  let vector := Z.lor 0x600 (Z.shiftr TRAMPOLINE_BASE 12) in
  l ← lapic_send_ipi (en_base env) fuel apic 0x4500 l;
  l ← lapic_send_ipi (en_base env) fuel apic vector l;
  lapic_send_ipi (en_base env) fuel apic vector l.

(** One turn of the loop over the processors; the wait at its end only decides on a
    message. *)
Definition start_cpu (fuel : nat) (bsp apic : Z) (s : smp_state) : eff smp_state :=
  if apic =? bsp then ret s else
  match find_cpu apic (g_cpus s) with
  | None => ret s
  | Some j =>
      let '(stack, pages, m) := pa_alloc_pages 4 (sm_pages s) (sm_mem s) in
      if stack =? 0 then Some (Panic "no AP stack pages") else
      let cpus := alter (with_stack stack) j (g_cpus s) in
      let c := nth j cpus (mk_cpuinfo 0 0 false false 0 0) in
      let m := write_config (stack_top c) (logical_id c) m in
      match send_startup fuel apic (sm_lapic s) with
      | None => None
      | Some l => ret (ap_start apic (mk_smp cpus m pages l (sm_entered s)))
      end
  end.

Fixpoint start_cpus (fuel : nat) (bsp : Z) (ids : list Z) (s : smp_state) : eff smp_state :=
  match ids with
  | [] => ret s
  | id :: ids => let! s := start_cpu fuel bsp id s in start_cpus fuel bsp ids s
  end.

Definition smp_init (fuel : nat) (s : smp_state) : eff smp_state :=
  if Z.of_nat (length (en_apic_ids env)) =? 0 then ret s else
  let l := lapic_init_current_cpu (en_base env) (sm_lapic s) in
  let '(v, l) := lapic_read (en_base env) LAPIC_ID l in
  let bsp := u8 (Z.shiftr v 24) in
  let cpus := fill_cpus bsp (en_apic_ids env) in
  let! m := Some (prepare_trampoline (sm_mem s)) in
  let! s := start_cpus fuel bsp (en_apic_ids env) (mk_smp cpus m (sm_pages s) l (sm_entered s)) in
  ret (mk_smp (g_cpus s) (sm_mem s) (sm_pages s) (lapic_write (en_base env) LAPIC_EOI 0 (sm_lapic s)) (sm_entered s)).
End Smp.
Arguments smp_state : clear implicits.
Arguments mk_smp {M S}.
Arguments g_cpus {M S}.
Arguments sm_mem {M S}.
Arguments sm_pages {M S}.
Arguments sm_lapic {M S}.
Arguments sm_entered {M S}.

(** ** The controller *)

Section Ipi.
Context {M : Type} `{Lapic M base}.

Lemma lapic_wait_idle fuel m :
  (lapic_busy m < fuel)%nat ->
  exists m', lapic_wait_icr base fuel m = Some m' /\ lapic_busy m' = O /\
    lapic_self m' = lapic_self m /\ lapic_dest m' = lapic_dest m /\ lapic_sent m' = lapic_sent m.
Proof.
  revert m. induction fuel as [|fuel IH]; intros m Hf; [lia|]. cbn [lapic_wait_icr]. unfold lapic_read.
  pose proof (lapic_icr_read m) as Hr. pose proof (lapic_icr_busy m) as Hb. pose proof (lapic_read_same LAPIC_ICR_LOW m) as Hs.
  cbv zeta in Hs. destruct (mmio_read32 (base + LAPIC_ICR_LOW) m) as [v m1]. cbn [fst snd] in *.
  rewrite land_bit, Hr by lia. case_bool_decide as E; cbn [negb].
  - exists m1. split; [done|]. split; [by rewrite Hb, E|done].
  - destruct (IH m1) as (m' & E1 & Hb' & H1 & H2 & H3); [lia|]. exists m'. split; [done|]. split; [done|].
    destruct Hs as (-> & -> & ->) in H1, H2, H3. done.
Qed.

Lemma lapic_send_ok fuel apic low m :
  (lapic_delay < fuel)%nat -> byte_ok apic ->
  exists m', lapic_send_ipi base fuel apic low m = Some m' /\ lapic_self m' = lapic_self m /\
    lapic_sent m' = lapic_sent m ++ [(apic, low)].
Proof.
  intros Hf Ha. destruct (lapic_wait_idle fuel m) as (m1 & E1 & Hb1 & Hs1 & Hd1 & Ht1); [pose proof (lapic_busy_delay m); lia|].
  unfold lapic_send_ipi. rewrite E1. cbn [mbind option_bind]. unfold lapic_write.
  set (m2 := mmio_write32 _ _ m1). set (m3 := mmio_write32 _ low m2).
  destruct (lapic_wait_idle fuel m3) as (m4 & E4 & Hb4 & Hs4 & Hd4 & Ht4); [pose proof (lapic_busy_delay m3); lia|].
  exists m4. split; [done|]. split; [rewrite Hs4; unfold m3, m2; by rewrite !lapic_write_self, Hs1|].
  assert (lapic_busy m2 = O) as Hb2 by (rewrite <- Hb1; apply lapic_high_idle).
  rewrite Ht4. unfold m3. rewrite lapic_write_sent, Z.eqb_refl. rewrite (bool_decide_true _ Hb2). cbn [andb]. unfold m2. rewrite lapic_write_sent, lapic_write_dest, Z.eqb_refl, Ht1.
  rewrite Z.shiftr_shiftl_l, Z.sub_diag, Z.shiftl_0_r by lia. done.
Qed.

Definition startup_ipis (apic : Z) : list (Z * Z) := [(apic, 0x4500); (apic, 0x608); (apic, 0x608)].
End Ipi.

(** ** The trampoline *)

Definition in_code (a : Z) : Prop := TRAMPOLINE_BASE <= a < TRAMPOLINE_CFG_CR3 \/ TRAMPOLINE_GDT <= a < TRAMPOLINE_BASE + 4096.

(** The code, its descriptor table and the pointer to it. *)
Record trampoline_ok (code : list Z) (m : mem) : Prop := mk_trampoline {
  tr_code : in_memory m TRAMPOLINE_BASE code;
  tr_gdt i : 0 <= i < 5 -> load64 m (TRAMPOLINE_GDT + 8 * i) = nth (Z.to_nat i) trampoline_gdt 0;
  tr_limit : load16 m TRAMPOLINE_GDT_PTR = 39;
  tr_base : load32 m (TRAMPOLINE_GDT_PTR + 2) = TRAMPOLINE_GDT
}.

Lemma trampoline_agree code m m' :
  Z.of_nat (length code) <= 0xf00 -> (forall a, in_code a -> load8 m' a = load8 m a) -> trampoline_ok code m -> trampoline_ok code m'.
Proof.
  intros Hc Ha [H1 H2 H3 H4]. unfold in_code, TRAMPOLINE_BASE, TRAMPOLINE_CFG_CR3, TRAMPOLINE_GDT, TRAMPOLINE_GDT_PTR in *. split.
  - intros i b Hi. pose proof (lookup_lt_Some _ _ _ Hi). rewrite Ha by (unfold TRAMPOLINE_BASE; lia). by apply H1.
  - intros i Hi. etrans; [|by apply H2]. apply load_le_agree. intros x Hx. apply Ha. unfold TRAMPOLINE_GDT in Hx. lia.
  - etrans; [|exact H3]. apply load_le_agree. intros x Hx. apply Ha. unfold TRAMPOLINE_GDT_PTR in Hx. lia.
  - etrans; [|exact H4]. apply load_le_agree. intros x Hx. apply Ha. unfold TRAMPOLINE_GDT_PTR in Hx. lia.
Qed.

Lemma prepare_trampoline_ok env m :
  Z.of_nat (length (en_trampoline env)) <= 0xf00 -> forallb (fun b => (0 <=? b) && (b <? 256)) (en_trampoline env) = true ->
  exists m', prepare_trampoline env m = Ok m' /\ trampoline_ok (en_trampoline env) m' /\
    forall a, ~ (TRAMPOLINE_BASE <= a < TRAMPOLINE_BASE + 4096) -> load8 m' a = load8 m a.
Proof.
  intros Hl Hb. unfold prepare_trampoline. rewrite (proj2 (Z.ltb_ge _ _)) by lia. cbn [for_loop]. eexists. split; [reflexivity|].
  set (m0 := store_bytes m TRAMPOLINE_BASE (en_trampoline env)).
  assert (in_memory m0 TRAMPOLINE_BASE (en_trampoline env)) as H0 by (by apply store_bytes_in_memory).
  assert (forall a, ~ (TRAMPOLINE_BASE <= a < TRAMPOLINE_BASE + 0xf00) -> load8 m0 a = load8 m a) as Hf.
  { intros a Ha. apply store_bytes_out. lia. }
  clearbody m0. unfold TRAMPOLINE_BASE, TRAMPOLINE_GDT, TRAMPOLINE_GDT_PTR in *. split; [split|].
  - intros i b Hi. pose proof (lookup_lt_Some _ _ _ Hi). unfold TRAMPOLINE_BASE, store32, store64. rewrite !store_le_frame by lia. by apply H0.
  - intros i Hi. assert (i = 0 \/ i = 1 \/ i = 2 \/ i = 3 \/ i = 4) as Hcase by lia. unfold load64, store64, store32, TRAMPOLINE_GDT.
    destruct Hcase as [->|[->|[->|[->| ->]]]]; do 2 (rewrite load_le_store_le_ne by lia).
    all: repeat (rewrite load_le_store_le_ne by lia); rewrite load_le_store_le_eq; reflexivity.
  - unfold load16, store32, TRAMPOLINE_GDT_PTR. rewrite load_le_store_le_ne by lia. rewrite load_le_store_le_eq. reflexivity.
  - unfold load32, store32, TRAMPOLINE_GDT_PTR. rewrite load_le_store_le_eq. reflexivity.
  - intros a Ha. unfold store32, store64. rewrite !store_le_frame by lia. apply Hf. lia.
Qed.

Section Config.
Context (env : smp_env) (top id : Z) (m : mem).
Context (Hc : word64 (en_cr3 env)) (He : word64 (en_ap_main env)) (Ht : word64 top) (Hi : word32 id).

Lemma write_config_frame a : ~ (TRAMPOLINE_CFG_CR3 <= a < TRAMPOLINE_CFG_CR3 + 0x20) -> load8 (write_config env top id m) a = load8 m a.
Proof.
  unfold write_config, TRAMPOLINE_CFG_CR3, TRAMPOLINE_CFG_STACK, TRAMPOLINE_CFG_ENTRY, TRAMPOLINE_CFG_CPU_ID, TRAMPOLINE_CFG_STARTED, store32, store64.
  intros Ha. by rewrite !store_le_frame by lia.
Qed.

(** The trampoline reads back what was written. *)
Lemma config_read :
  let m' := write_config env top id m in
  load32 m' TRAMPOLINE_CFG_CPU_ID = id /\ load64 m' TRAMPOLINE_CFG_STACK = top /\
  load64 m' TRAMPOLINE_CFG_ENTRY = en_ap_main env /\ load64 m' TRAMPOLINE_CFG_CR3 = en_cr3 env.
Proof.
  unfold write_config, TRAMPOLINE_CFG_CR3, TRAMPOLINE_CFG_STACK, TRAMPOLINE_CFG_ENTRY, TRAMPOLINE_CFG_CPU_ID, TRAMPOLINE_CFG_STARTED,
    load32, load64, store32, store64. cbv zeta.
  split; [|split; [|split]]; repeat (rewrite load_le_store_le_ne by lia); rewrite load_le_store_le_eq; by apply Z.mod_small.
Qed.
End Config.

Lemma find_cpu_snoc apic l c : find_cpu apic (l ++ [c]) = if apic_id c =? apic then Some (length l) else find_cpu apic l.
Proof. unfold find_cpu. rewrite imap_app, foldl_app. cbn. by rewrite Nat.add_0_r. Qed.

Lemma find_cpu_unique apic l j c :
  l !! j = Some c -> apic_id c = apic -> (forall i d, l !! i = Some d -> apic_id d = apic -> i = j) -> find_cpu apic l = Some j.
Proof.
  intros Hj Hc. induction l as [|d l IH] using rev_ind; intros Hu; [done|]. rewrite find_cpu_snoc.
  assert ((l ++ [d]) !! length l = Some d) as Hd by (by rewrite lookup_app_r, Nat.sub_diag).
  destruct (Z.eqb_spec (apic_id d) apic) as [E|E]; [by rewrite (Hu _ _ Hd E)|]. apply IH.
  - apply lookup_app_Some in Hj as [Hj|[Hlen Hj]]; [done|]. apply list_lookup_singleton_Some in Hj as [_ ->]. done.
  - intros i d' Hi. apply Hu. by apply lookup_app_l_Some.
Qed.

(** ** The loop over the processors *)

Section Start.
Context {S : Type} `{PageAllocatorOk S} {M : Type} `{Mmio M} (env : smp_env) `{!Lapic M (en_base env)}.
Implicit Types (s : smp_state M S).

Definition stack_range (c : CpuInfo) (a : Z) : Prop := stack_base c <= a < stack_base c + 16384.

(** The stack of a processor: four pages that nobody used. *)
Record stack_ok (pages0 pages : S) (c : CpuInfo) : Prop := mk_stack {
  so_aligned : stack_base c mod PAGE_SIZE = 0;
  so_low : 1048576 <= stack_base c;
  so_top : stack_top c = stack_base c + 16384;
  so_fresh q : stack_base c / PAGE_SIZE <= q < stack_base c / PAGE_SIZE + 4 -> ~ pa_live pages0 q /\ pa_live pages q
}.

(** The processors [l] of [ids] have been started. *)
Record started_inv (s0 : smp_state M S) (bsp : Z) (ids l : list Z) s : Prop := mk_started {
  iv_len : length (g_cpus s) = length ids;
  iv_cpu i id : ids !! i = Some id -> exists c, g_cpus s !! i = Some c /\ logical_id c = Z.of_nat i /\ apic_id c = id /\
    cpu_online c = (id =? bsp) || (bool_decide (id ∈ l) && en_answers env id) /\ cpu_started c = cpu_online c;
  iv_stack i c : g_cpus s !! i = Some c -> apic_id c ∈ l -> apic_id c <> bsp -> stack_ok (sm_pages s0) (sm_pages s) c;
  iv_disjoint i j c d a : g_cpus s !! i = Some c -> g_cpus s !! j = Some d -> apic_id c ∈ l -> apic_id d ∈ l ->
    apic_id c <> bsp -> apic_id d <> bsp -> stack_range c a -> stack_range d a -> i = j;
  iv_entered : map e_apic (sm_entered s) = filter (fun id => id <> bsp /\ en_answers env id = true) l;
  iv_entry e : e ∈ sm_entered s -> exists i c, g_cpus s !! i = Some c /\ apic_id c = e_apic e /\ e_cpu e = Z.of_nat i /\
    e_stack e = stack_top c /\ e_entry e = en_ap_main env /\ e_cr3 e = en_cr3 env;
  iv_sent : lapic_sent (sm_lapic s) = lapic_sent (sm_lapic s0) ++ flat_map startup_ipis (filter (fun id => id <> bsp) l);
  iv_trampoline : trampoline_ok (en_trampoline env) (sm_mem s);
  iv_mem a : pa_live (sm_pages s0) (a / PAGE_SIZE) -> ~ (TRAMPOLINE_BASE <= a < TRAMPOLINE_BASE + 4096) ->
    load8 (sm_mem s) a = load8 (sm_mem s0) a;
  iv_wf : pa_wf (sm_pages s);
  iv_live q : pa_live (sm_pages s0) q -> pa_live (sm_pages s) q
}.

Context (fuel : nat) (bsp : Z) (ids : list Z) (s0 : smp_state M S).
Context (Hfuel : (lapic_delay < fuel)%nat) (Hids : NoDup ids) (Hbytes : Forall byte_ok ids) (Hcount : Z.of_nat (length ids) <= ORE_MAX_CPUS).
Context (Hcr3 : word64 (en_cr3 env)) (Hentry : word64 (en_ap_main env)).
Context (Hcode : Z.of_nat (length (en_trampoline env)) <= 0xf00).

Lemma send_startup_ok apic (l : M) :
  byte_ok apic -> exists l', send_startup env fuel apic l = Some l' /\ lapic_sent l' = lapic_sent l ++ startup_ipis apic.
Proof.
  intros Ha. unfold send_startup. cbv zeta. change (Z.lor 0x600 (Z.shiftr TRAMPOLINE_BASE 12)) with 0x608.
  destruct (lapic_send_ok fuel apic 0x4500 l) as (l1 & E1 & _ & T1); [done..|].
  destruct (lapic_send_ok fuel apic 0x608 l1) as (l2 & E2 & _ & T2); [done..|].
  destruct (lapic_send_ok fuel apic 0x608 l2) as (l3 & E3 & _ & T3); [done..|].
  rewrite E1. cbn [mbind option_bind]. rewrite E2. cbn [mbind option_bind]. exists l3. split; [done|].
  by rewrite T3, T2, T1, <- !app_assoc.
Qed.

Lemma started_unique l s i j c d :
  started_inv s0 bsp ids l s -> g_cpus s !! i = Some c -> g_cpus s !! j = Some d -> apic_id c = apic_id d -> i = j.
Proof.
  intros Hi Hc Hd E. assert (forall i c, g_cpus s !! i = Some c -> ids !! i = Some (apic_id c)) as Hid.
  { clear -Hi. intros i c Hc. pose proof (lookup_lt_Some _ _ _ Hc) as Hlt. rewrite (iv_len _ _ _ _ _ Hi) in Hlt.
    destruct (lookup_lt_is_Some_2 _ _ Hlt) as [id Hid]. destruct (iv_cpu _ _ _ _ _ Hi i id Hid) as (c' & Hc' & _ & Ha & _). congruence. }
  apply Hid in Hc, Hd. rewrite E in Hc. by apply (NoDup_lookup _ _ _ _ Hids Hc Hd).
Qed.

Lemma started_find l s k id : started_inv s0 bsp ids l s -> ids !! k = Some id -> find_cpu id (g_cpus s) = Some k.
Proof.
  intros Hi Hk. destruct (iv_cpu _ _ _ _ _ Hi k id Hk) as (c & Hc & _ & Ha & _). apply (find_cpu_unique id _ k c); [done..|].
  intros i d Hd Hda. eapply started_unique; [exact Hi|exact Hd|exact Hc|congruence].
Qed.

(** What is left of the entry of a processor after it was started. *)
Definition started_entry (stack : Z) (up : bool) (c : CpuInfo) : CpuInfo :=
  if up then mark_online (with_stack stack c) else with_stack stack c.

Lemma ap_start_result (cpus : list CpuInfo) k id stack m (pages : S) (lp : M) en :
  (k < length cpus)%nat -> Z.of_nat (length cpus) <= ORE_MAX_CPUS -> word64 (stack + 16384) ->
  let m' := write_config env (stack + 16384) (Z.of_nat k) m in
  ap_start env id (mk_smp (alter (with_stack stack) k cpus) m' pages lp en) =
  mk_smp (alter (started_entry stack (en_answers env id)) k cpus) m' pages lp
    (en ++ if en_answers env id then [mk_entry id (Z.of_nat k) (stack + 16384) (en_ap_main env) (en_cr3 env)] else []).
Proof.
  intros Hk Hlen Hst m'. unfold ap_start, started_entry. destruct (en_answers env id); [|by rewrite app_nil_r]. cbn [sm_mem g_cpus sm_pages sm_lapic sm_entered].
  destruct (config_read env (stack + 16384) (Z.of_nat k) m) as (C1 & C2 & C3 & C4); [done..|unfold word32, ORE_MAX_CPUS in *; lia|].
  fold m' in C1, C2, C3, C4. rewrite C1, C2, C3, C4. f_equal. unfold ap_main. cbn [e_cpu]. rewrite length_alter, (proj2 (Z.ltb_lt _ _)), Nat2Z.id by lia. clear. revert k. induction cpus as [|c cpus IH]; intros [|k]; [done..|]. cbn. f_equal. apply IH.
Qed.

Lemma stack_fresh l s stack pages m up c :
  started_inv s0 bsp ids l s -> alloc_post 4 stack (sm_pages s) pages (sm_mem s) m -> stack_ok (sm_pages s0) pages (started_entry stack up c).
Proof.
  intros Hi Hp. pose proof (pa_top_bound _ (iv_wf _ _ _ _ _ Hi)). destruct Hp as [Hal Hlow Hhigh Hfr Hlv _ _ _].
  assert (stack_base (started_entry stack up c) = stack /\ stack_top (started_entry stack up c) = stack +u 4 * 4096) as [E1 E2].
  { unfold started_entry. by destruct up. }
  split; rewrite ?E1; [done|done| |].
  - rewrite E2. apply u64_small. unfold word64, PAGE_SIZE in *. lia.
  - intros q Hq. split; [|apply Hlv; by right]. intros Hn. apply (Hfr q Hq). by apply Hi.
Qed.

Lemma stack_kept s pages stack m c :
  alloc_post 4 stack (sm_pages s) pages (sm_mem s) m -> stack_ok (sm_pages s0) (sm_pages s) c -> stack_ok (sm_pages s0) pages c.
Proof.
  intros Hp [H1' H2' H3' H4']. split; [done..|]. intros q Hq. destruct (H4' q Hq) as [Hn Hlv]. split; [done|].
  apply (ap_live _ _ _ _ _ _ Hp). by left.
Qed.

Lemma stack_apart s pages stack m c a :
  alloc_post 4 stack (sm_pages s) pages (sm_mem s) m -> stack_ok (sm_pages s0) (sm_pages s) c ->
  stack_range c a -> stack <= a < stack + 16384 -> False.
Proof.
  intros Hp [Hal _ _ Hfr] Hr Ha. pose proof (ap_aligned _ _ _ _ _ _ Hp) as Hal'. unfold stack_range, PAGE_SIZE in *.
  apply (ap_fresh _ _ _ _ _ _ Hp (a / 4096)); unfold PAGE_SIZE; [clear Hfr; zlia|]. apply Hfr. clear Hfr. zlia.
Qed.

(** The state with the stack and the configuration, before the processor runs. *)
Lemma started_next l s k id stack pages m lp :
  started_inv s0 bsp ids l s -> ids !! k = Some id -> id ∉ l -> id <> bsp ->
  alloc_post 4 stack (sm_pages s) pages (sm_mem s) m ->
  lapic_sent lp = lapic_sent (sm_lapic s) ++ startup_ipis id ->
  started_inv s0 bsp ids (l ++ [id])
    (ap_start env id (mk_smp (alter (with_stack stack) k (g_cpus s)) (write_config env (stack + 16384) (Z.of_nat k) m) pages lp (sm_entered s))).
Proof.
  intros Hi Hk Hl Hne Hp Hsent. destruct (iv_cpu _ _ _ _ _ Hi k id Hk) as (c & Hc & Hlog & Ha & Hon & Hst).
  pose proof (ap_low _ _ _ _ _ _ Hp) as Hlow. pose proof (ap_high _ _ _ _ _ _ Hp) as Hhigh.
  pose proof (pa_top_bound _ (iv_wf _ _ _ _ _ Hi)) as Htop. pose proof (lookup_lt_Some _ _ _ Hc) as Hklen.
  pose proof (iv_len _ _ _ _ _ Hi) as Hlen. unfold PAGE_SIZE in Hhigh.
  rewrite ap_start_result; [|done|lia|unfold word64; lia].
  set (up := en_answers env id). set (m' := write_config _ _ _ m).
  assert (forall i d, alter (started_entry stack up) k (g_cpus s) !! i = Some d ->
    (i = k /\ d = started_entry stack up c) \/ (i <> k /\ g_cpus s !! i = Some d /\ apic_id d <> id)) as Hcase.
  { intros i d Hd. rewrite list_lookup_alter in Hd. destruct (decide (k = i)) as [<-|Hki].
    - rewrite Hc in Hd. left. cbn in Hd. by simplify_eq.
    - right. split; [done|]. split; [done|]. intros Hda. apply Hki. eapply started_unique; [exact Hi|exact Hc|exact Hd|congruence]. }
  split; cbn [g_cpus sm_mem sm_pages sm_lapic sm_entered].
  - by rewrite length_alter.
  - intros i id' Hid'. destruct (decide (i = k)) as [->|Hik].
    + assert (id' = id) as -> by congruence. exists (started_entry stack up c). rewrite list_lookup_alter_eq, Hc.
      rewrite (bool_decide_true (id ∈ l ++ [id])) by (apply elem_of_app; right; by apply list_elem_of_singleton).
      rewrite (bool_decide_false (id ∈ l)), (proj2 (Z.eqb_neq id bsp)) in * by done. cbn [orb andb] in *. fold up.
      unfold started_entry. by destruct up.
    + destruct (iv_cpu _ _ _ _ _ Hi i id' Hid') as (d & Hd & Hr). exists d. rewrite list_lookup_alter_ne by done. split; [done|].
      assert (id' <> id) as Hid by (intros ->; apply Hik; by apply (NoDup_lookup _ _ _ id Hids)).
      rewrite (bool_decide_ext (id' ∈ l ++ [id]) (id' ∈ l)); [done|]. rewrite elem_of_app, list_elem_of_singleton. tauto.
  - intros i d Hd Hdl Hdb. destruct (Hcase i d Hd) as [[-> ->]|(Hik & Hd' & Hda)].
    + by apply (stack_fresh l s stack pages m).
    + apply (stack_kept s pages stack m); [done|]. eapply iv_stack; [exact Hi|exact Hd'| |done].
      apply elem_of_app in Hdl as [?|?%list_elem_of_singleton]; done.
  - intros i j d1 d2 a Hd1 Hd2 Hl1 Hl2 Hb1 Hb2 Hr1 Hr2.
    assert (forall d, apic_id d ∈ l ++ [id] -> apic_id d <> id -> apic_id d ∈ l) as Hin.
    { intros d Hd Hn. by apply elem_of_app in Hd as [?|?%list_elem_of_singleton]. }
    assert (forall i d, g_cpus s !! i = Some d -> apic_id d ∈ l -> apic_id d <> bsp -> stack_range d a ->
      stack_range (started_entry stack up c) a -> False) as Hno.
    { clear Hd1 Hd2. intros i' d Hd Hdl Hdb Hra Hrn. eapply (stack_apart s pages stack m); [exact Hp|eapply iv_stack; eassumption|exact Hra|].
      revert Hrn. unfold stack_range, started_entry. by destruct up. }
    destruct (Hcase i d1 Hd1) as [[-> ->]|(Hik & Hd1' & Ha1)], (Hcase j d2 Hd2) as [[-> ->]|(Hjk & Hd2' & Ha2)]; [done| | |].
    + exfalso. eauto.
    + exfalso. eauto.
    + eapply (iv_disjoint _ _ _ _ _ Hi i j d1 d2 a); eauto.
  - rewrite map_app, (iv_entered _ _ _ _ _ Hi), filter_app. f_equal. unfold up. destruct (en_answers env id) eqn:Hup.
    + rewrite filter_cons_True by done. done.
    + rewrite filter_cons_False by (intros [_ ?]; congruence). done.
  - assert (forall i d, g_cpus s !! i = Some d -> i <> k -> alter (started_entry stack up) k (g_cpus s) !! i = Some d) as Hkeep.
    { intros i d Hd Hik. by rewrite list_lookup_alter_ne. }
    intros e [He|He]%elem_of_app.
    + destruct (iv_entry _ _ _ _ _ Hi e He) as (i & d & Hd & Hda & Hr). exists i, d. split; [|done]. apply Hkeep; [done|]. intros ->.
      assert (e_apic e ∈ map e_apic (sm_entered s)) as Hin by (by apply list_elem_of_fmap_2).
      rewrite (iv_entered _ _ _ _ _ Hi) in Hin. apply list_elem_of_filter in Hin as [_ Hin]. apply Hl. congruence.
    + unfold up in *. destruct (en_answers env id); [|by apply elem_of_nil in He]. apply list_elem_of_singleton in He as ->.
      exists k, (started_entry stack true c). rewrite list_lookup_alter_eq, Hc. split; [done|]. split; [done|]. split; [done|].
      split; [|done]. cbn. symmetry. apply u64_small. unfold word64. lia.
  - rewrite Hsent, (iv_sent _ _ _ _ _ Hi), filter_app, flat_map_app, <- app_assoc. rewrite filter_cons_True by done. done.
  - apply (trampoline_agree _ (sm_mem s)); [done| |apply Hi]. intros a Ha0. unfold m'.
    unfold in_code, TRAMPOLINE_BASE, TRAMPOLINE_CFG_CR3, TRAMPOLINE_GDT in Ha0.
    rewrite write_config_frame by (unfold TRAMPOLINE_CFG_CR3; lia). rewrite (ap_zeroed _ _ _ _ _ _ Hp), load8_mem_zero.
    by rewrite (proj2 (Z.leb_gt stack a)) by lia.
  - intros a Hlive Ha0. unfold m'. rewrite write_config_frame by (unfold TRAMPOLINE_CFG_CR3, TRAMPOLINE_BASE in *; lia).
    rewrite (ap_zeroed _ _ _ _ _ _ Hp), load8_mem_zero. destruct ((stack <=? a) && _) eqn:Hin; [|by apply Hi]. exfalso.
    apply andb_prop in Hin as [?%Z.leb_le ?%Z.ltb_lt]. apply (ap_fresh _ _ _ _ _ _ Hp (a / PAGE_SIZE)); [|by apply Hi].
    pose proof (ap_aligned _ _ _ _ _ _ Hp). unfold PAGE_SIZE in *. zlia.
  - apply Hp.
  - intros q Hq. apply (ap_live _ _ _ _ _ _ Hp). left. by apply Hi.
Qed.

Lemma started_self l s : started_inv s0 bsp ids l s -> started_inv s0 bsp ids (l ++ [bsp]) s.
Proof.
  intros Hi. assert (forall id, id ∈ l ++ [bsp] -> id <> bsp -> id ∈ l) as Hin.
  { intros id Hd Hn. by apply elem_of_app in Hd as [?|?%list_elem_of_singleton]. }
  split; [apply Hi| | | | |apply Hi| |apply Hi..].
  - intros i id Hid. destruct (iv_cpu _ _ _ _ _ Hi i id Hid) as (c & Hc & H1' & H2' & H3' & H4'). exists c.
    split; [done|]. split; [done|]. split; [done|]. split; [|done]. rewrite H3'. destruct (Z.eqb_spec id bsp) as [->|Hne]; [done|].
    cbn [orb]. f_equal. apply bool_decide_ext. rewrite elem_of_app, list_elem_of_singleton. tauto.
  - intros i c Hc Hl Hb. eapply iv_stack; eauto.
  - intros i j c d a Hc Hd Hcl Hdl Hcb Hdb. eapply (iv_disjoint _ _ _ _ _ Hi); eauto.
  - rewrite (iv_entered _ _ _ _ _ Hi), filter_app, filter_cons_False by tauto. by rewrite app_nil_r.
  - rewrite (iv_sent _ _ _ _ _ Hi), filter_app, (filter_cons_False _ bsp) by tauto. by rewrite app_nil_r.
Qed.

Lemma start_cpu_ok l s k id :
  started_inv s0 bsp ids l s -> ids !! k = Some id -> id ∉ l ->
  (start_cpu env fuel bsp id s = Some (Panic "no AP stack pages") /\ no_run 4 1 (sm_pages s)) \/
  exists s', start_cpu env fuel bsp id s = ret s' /\ started_inv s0 bsp ids (l ++ [id]) s' /\ takes 4 (sm_pages s) (sm_pages s').
Proof.
  intros Hi Hk Hl. unfold start_cpu. destruct (Z.eqb_spec id bsp) as [->|Hne].
  { right. exists s. split; [done|]. split; [by apply started_self|]. eapply takes_mono; [|apply takes_refl]. lia. }
  rewrite (started_find l s k id Hi Hk). destruct (pa_alloc_pages 4 _ _) as [[stack pages] m] eqn:Ea.
  destruct (Z.eqb_spec stack 0) as [->|Hz]; [left; split; [done|]; by eapply no_run_failed; [apply Hi| |exact Ea]; lia|right].
  pose proof (takes_alloc 4 _ _ _ _ _ (iv_wf _ _ _ _ _ Hi) ltac:(lia) Ea Hz) as Htk.
  pose proof (pa_alloc_ok 4 _ _ _ _ _ (iv_wf _ _ _ _ _ Hi) ltac:(lia) Ea Hz) as Hp.
  destruct (send_startup_ok id (sm_lapic s)) as (lp & El & Hsent).
  { rewrite Forall_forall in Hbytes. apply Hbytes. by eapply list_elem_of_lookup_2. }
  destruct (iv_cpu _ _ _ _ _ Hi k id Hk) as (c & Hc & Hlog & _).
  rewrite (nth_lookup_Some _ _ _ (with_stack stack c)) by (by rewrite list_lookup_alter_eq, Hc). rewrite El.
  cbn [with_stack stack_top logical_id]. rewrite Hlog.
  assert (stack +u 4 * 4096 = stack + 16384) as ->.
  { apply u64_small. pose proof (pa_top_bound _ (iv_wf _ _ _ _ _ Hi)). pose proof (ap_high _ _ _ _ _ _ Hp). pose proof (ap_low _ _ _ _ _ _ Hp).
    unfold word64, PAGE_SIZE in *. lia. }
  eexists. split; [done|]. split; [by apply started_next|]. unfold ap_start. by destruct (en_answers env id).
Qed.

Lemma start_cpus_ok l r s :
  l ++ r = ids -> started_inv s0 bsp ids l s ->
  (start_cpus env fuel bsp r s = Some (Panic "no AP stack pages") /\ no_run 4 (4 * length r) (sm_pages s)) \/
  exists s', start_cpus env fuel bsp r s = ret s' /\ started_inv s0 bsp ids ids s'.
Proof.
  revert l s. induction r as [|id r IH]; intros l s Hl Hi; cbn [start_cpus].
  { right. exists s. split; [done|]. by rewrite app_nil_r in Hl; subst l. }
  assert (ids !! length l = Some id) as Hk by (by rewrite <- Hl, lookup_app_r, Nat.sub_diag).
  assert (id ∉ l) as Hni.
  { rewrite <- Hl in Hids. apply NoDup_app in Hids as (_ & Hd & _). intros Hin. apply (Hd id Hin). apply elem_of_cons. by left. }
  destruct (start_cpu_ok l s (length l) id Hi Hk Hni) as [[-> Hno]|(s' & -> & Hi' & Htk)].
  { left. split; [done|]. eapply no_run_mono; [| |exact Hno]; cbn [length]; lia. }
  cbn [eff_bind ret]. destruct (IH (l ++ [id]) s') as [[-> Hno]|Hr]; [by rewrite <- app_assoc|done| |by right].
  left. split; [done|]. eapply no_run_mono; [| |exact (no_run_takes _ _ _ _ _ Htk Hno)]; cbn [length]; lia.
Qed.

(** Before the loop. *)
Lemma started_start m l :
  trampoline_ok (en_trampoline env) m -> lapic_sent l = lapic_sent (sm_lapic s0) ->
  (forall a, ~ (TRAMPOLINE_BASE <= a < TRAMPOLINE_BASE + 4096) -> load8 m a = load8 (sm_mem s0) a) ->
  pa_wf (sm_pages s0) -> sm_entered s0 = [] ->
  started_inv s0 bsp ids [] (mk_smp (fill_cpus bsp ids) m (sm_pages s0) l (sm_entered s0)).
Proof.
  intros Htr Hl Hm Hw Hen. unfold fill_cpus. rewrite take_ge by (clear -Hcount; unfold ORE_MAX_CPUS in *; lia).
  split; cbn [g_cpus sm_mem sm_pages sm_lapic sm_entered]; [by rewrite length_imap| | | | | | |done| |done|done].
  - intros i id Hid. eexists. rewrite list_lookup_imap, Hid. split; [done|]. cbn. split; [done|]. split; [done|]. split; [|done].
    by rewrite orb_false_r.
  - intros i c _ Hin. by apply elem_of_nil in Hin.
  - intros i j c d a _ _ Hin. by apply elem_of_nil in Hin.
  - by rewrite Hen.
  - intros e He. rewrite Hen in He. by apply elem_of_nil in He.
  - by rewrite Hl, app_nil_r.
  - intros a _ Ha. by apply Hm.
Qed.
End Start.

Section Reading.
Context {M : Type} `{Lapic M base}.

Lemma lapic_init_same m :
  lapic_self (lapic_init_current_cpu base m) = lapic_self m /\ lapic_sent (lapic_init_current_cpu base m) = lapic_sent m.
Proof.
  unfold lapic_init_current_cpu, lapic_read, lapic_write. pose proof (lapic_read_same LAPIC_SVR m) as Hs. cbv zeta in Hs.
  destruct (mmio_read32 (base + LAPIC_SVR) m) as [v m1]. cbn [snd] in Hs. rewrite !lapic_write_self, !lapic_write_sent. cbn. tauto.
Qed.

Lemma lapic_id_spec m :
  exists m' v, lapic_read base LAPIC_ID m = (v, m') /\ u8 (Z.shiftr v 24) = lapic_self m /\ lapic_sent m' = lapic_sent m.
Proof.
  unfold lapic_read. pose proof (lapic_read_same LAPIC_ID m) as Hs. cbv zeta in Hs. pose proof (lapic_id_read m) as Hi.
  destruct (mmio_read32 (base + LAPIC_ID) m) as [v m1]. cbn [fst snd] in *. exists m1, v. split; [done|]. split; [|tauto].
  rewrite Hi, Z.shiftr_shiftl_l, Z.sub_diag, Z.shiftl_0_r by lia. apply u8_small, lapic_self_byte.
Qed.
End Reading.

(** ** Properties *)

(** C36: with at most 64 processors of distinct identifiers, of which each answers
    the start-up interrupts before the wait for it is over or not at all, [smp_init]
    either panics, and then memory had no free run of four pages or would have none
    with fewer than four more pages per processor in use, or: entry [i] of the table is the
    processor [i] of the tables of the firmware, on line exactly when it is the boot
    processor or has answered; every other processor got the INIT and two start-up
    interrupts, in the order of the table, and has a stack of its own of four pages
    that nobody used; each that answered entered [ap_main] with its own number and
    its own stack, on the page tables of the boot processor; the trampoline is
    intact, and memory in use elsewhere has not changed.  For a processor that
    answers later, see [late_processor_takes_next_stack]. *)
Theorem smp_init_correct {S : Type} `{PageAllocatorOk S} {M : Type} `{Mmio M} (env : smp_env) `{!Lapic M (en_base env)} fuel (s : smp_state M S) :
  let ids := en_apic_ids env in
  let bsp := lapic_self (sm_lapic s) in
  (lapic_delay < fuel)%nat -> NoDup ids -> Forall byte_ok ids -> 0 < Z.of_nat (length ids) <= ORE_MAX_CPUS ->
  word64 (en_cr3 env) -> word64 (en_ap_main env) -> Z.of_nat (length (en_trampoline env)) <= 0xf00 ->
  forallb (fun b => (0 <=? b) && (b <? 256)) (en_trampoline env) = true -> pa_wf (sm_pages s) -> sm_entered s = [] ->
  (smp_init env fuel s = Some (Panic "no AP stack pages") /\ no_run 4 (4 * length ids) (sm_pages s)) \/
  exists s', smp_init env fuel s = ret s' /\ length (g_cpus s') = length ids /\
    (forall i id, ids !! i = Some id -> exists c, g_cpus s' !! i = Some c /\ logical_id c = Z.of_nat i /\ apic_id c = id /\
       cpu_online c = (id =? bsp) || en_answers env id /\
       (id <> bsp -> stack_ok (sm_pages s) (sm_pages s') c)) /\
    (forall i j c d a, g_cpus s' !! i = Some c -> g_cpus s' !! j = Some d -> apic_id c <> bsp -> apic_id d <> bsp ->
       stack_range c a -> stack_range d a -> i = j) /\
    lapic_sent (sm_lapic s') = lapic_sent (sm_lapic s) ++ flat_map startup_ipis (filter (fun id => id <> bsp) ids) /\
    map e_apic (sm_entered s') = filter (fun id => id <> bsp /\ en_answers env id = true) ids /\
    (forall e, e ∈ sm_entered s' -> exists i c, g_cpus s' !! i = Some c /\ apic_id c = e_apic e /\ e_cpu e = Z.of_nat i /\
       e_stack e = stack_top c /\ e_entry e = en_ap_main env /\ e_cr3 e = en_cr3 env) /\
    trampoline_ok (en_trampoline env) (sm_mem s') /\
    (forall a, pa_live (sm_pages s) (a / PAGE_SIZE) -> ~ (TRAMPOLINE_BASE <= a < TRAMPOLINE_BASE + 4096) ->
       load8 (sm_mem s') a = load8 (sm_mem s) a).
Proof.
  intros ids bsp Hf Hnd Hby Hn Hc He Hl Hb Hw Hen. unfold smp_init. fold ids. rewrite (proj2 (Z.eqb_neq _ 0)) by lia.
  destruct (lapic_init_same (sm_lapic s)) as [Hs1 Ht1]. set (l1 := lapic_init_current_cpu _ _) in *.
  destruct (lapic_id_spec l1) as (l2 & v & -> & Hv & Ht2). rewrite Hv, Hs1. fold bsp.
  destruct (prepare_trampoline_ok env (sm_mem s) Hl Hb) as (m & -> & Htr & Hfr). cbn [eff_bind].
  set (s1 := mk_smp _ m _ l2 _).
  assert (started_inv env s bsp ids [] s1) as Hi by (apply started_start; [lia|done|congruence|done..]).
  destruct (start_cpus_ok env fuel bsp ids s Hf Hnd Hby ltac:(lia) Hc He Hl [] ids s1 eq_refl Hi) as [[-> Hno]|(s' & -> & Hi')]; [by left|].
  right. eexists. split; [reflexivity|]. cbn [g_cpus sm_mem sm_pages sm_lapic sm_entered].
  assert (forall i c, g_cpus s' !! i = Some c -> apic_id c ∈ ids) as Hin.
  { intros i c Hci. pose proof (lookup_lt_Some _ _ _ Hci) as Hlt. rewrite (iv_len _ _ _ _ _ _ Hi') in Hlt.
    destruct (lookup_lt_is_Some_2 _ _ Hlt) as [id Hid]. destruct (iv_cpu _ _ _ _ _ _ Hi' i id Hid) as (c' & Hc' & _ & Ha & _).
    assert (c' = c) as -> by congruence. rewrite Ha. by eapply list_elem_of_lookup_2. }
  split; [apply Hi'|]. split; [|split; [|split; [|split; [apply Hi'|split; [apply Hi'|split; apply Hi']]]]].
  - intros i id Hid. destruct (iv_cpu _ _ _ _ _ _ Hi' i id Hid) as (c & Hci & H1' & H2' & H3' & _). exists c.
    rewrite (bool_decide_true (id ∈ ids)) in H3' by (by eapply list_elem_of_lookup_2).
    split; [done|]. split; [done|]. split; [done|]. split; [done|]. intros Hne. apply (iv_stack _ _ _ _ _ _ Hi' i); [done|eauto|congruence].
  - intros i j c d a Hci Hdj Hcb Hdb. apply (iv_disjoint _ _ _ _ _ _ Hi'); eauto.
  - unfold lapic_write. rewrite lapic_write_sent. apply Hi'.
Qed.

(** ** Examples *)

(** A controller that is busy for one reading after each command. *)
Record demo_lapic := mk_demo_lapic { dl_dest : Z; dl_sent : list (Z * Z); dl_busy : bool }.
#[export] Instance demo_lapic_mmio : Mmio demo_lapic := {|
  mmio_read32 a l :=
    if a =? LAPIC_ID then (0, l)
    else if a =? LAPIC_ICR_LOW then (if dl_busy l then Z.shiftl 1 12 else 0, mk_demo_lapic (dl_dest l) (dl_sent l) false)
    else (0, l);
  mmio_write32 a v l :=
    if a =? LAPIC_ICR_HIGH then mk_demo_lapic (Z.shiftr v 24) (dl_sent l) (dl_busy l)
    else if (a =? LAPIC_ICR_LOW) && negb (dl_busy l) then mk_demo_lapic (dl_dest l) (dl_sent l ++ [(dl_dest l, v)]) true
    else l
|}.
#[export] Program Instance demo_lapic_ok : Lapic demo_lapic 0 := {|
  lapic_self _ := 0; lapic_dest := dl_dest; lapic_sent := dl_sent; lapic_busy l := if dl_busy l then 1%nat else O; lapic_delay := 1
|}.
Next Obligation. intros l. unfold byte_ok. lia. Qed.
Next Obligation. intros l. cbn. by case_test; lia. Qed.
Next Obligation. done. Qed.
Next Obligation. intros reg l. cbn [mmio_read32 demo_lapic_mmio Z.add]. by repeat case_test. Qed.
Next Obligation. intros l. cbn. by destruct (dl_busy l). Qed.
Next Obligation. intros l. cbn. by destruct (dl_busy l). Qed.
Next Obligation. done. Qed.
Next Obligation. intros reg v l. cbn [mmio_write32 demo_lapic_mmio]. change (0 + reg) with reg. destruct (reg =? LAPIC_ICR_HIGH); [done|]. by case_test. Qed.
Next Obligation.
  intros reg v l. cbn [mmio_write32 demo_lapic_mmio]. change (0 + reg) with reg. destruct (Z.eqb_spec reg LAPIC_ICR_HIGH) as [->|]; [done|].
  destruct (reg =? LAPIC_ICR_LOW); [|done]. by destruct (dl_busy l).
Qed.
Next Obligation. done. Qed.

(** Three processors; the second answers, the third does not. *)
Definition demo_smp_env (answers : Z -> bool) : smp_env := mk_env 0 [0; 4; 7] [0xfa; 0xf4] 0x101000 0x201000 answers.
Definition demo_smp : smp_state demo_lapic pmm_state := mk_smp [] ∅ demo_pmm (mk_demo_lapic 0 [] false) [].

Lemma smp_init_correct_witness :
  exists s', smp_init (demo_smp_env (Z.eqb 4)) 2 demo_smp = ret s' /\ map e_apic (sm_entered s') = [4] /\
    lapic_sent (sm_lapic s') = [(4, 0x4500); (4, 0x608); (4, 0x608); (7, 0x4500); (7, 0x608); (7, 0x608)].
Proof.
  destruct (smp_init_correct (demo_smp_env (Z.eqb 4)) 2 demo_smp) as [[E _]|(s' & E & _ & _ & _ & Hs & He & _)].
  - cbn. lia.
  - change (NoDup [0; 4; 7]). apply NoDup_cons; split; [set_solver|]. apply NoDup_cons; split; [set_solver|]. apply NoDup_singleton.
  - repeat (apply Forall_cons; split; [unfold byte_ok; lia|]). apply Forall_nil_2.
  - cbn. unfold ORE_MAX_CPUS. lia.
  - unfold word64. cbn. lia.
  - unfold word64. cbn. lia.
  - cbn. lia.
  - reflexivity.
  - exact demo_pmm_wf.
  - reflexivity.
  - exfalso. assert (match smp_init (demo_smp_env (Z.eqb 4)) 2 demo_smp with Some (Ok _) => true | _ => false end = true) as Hok
      by (vm_compute; reflexivity). rewrite E in Hok. discriminate Hok.
  - exists s'. split; [exact E|]. split; [exact He|exact Hs].
Defined.

(** A processor that answers after the wait is over finds the configuration of the
    one that was started next: it enters as that processor, on its stack. *)
Theorem late_processor_takes_next_stack :
  exists s c, smp_init (demo_smp_env (fun _ => false)) 2 demo_smp = ret s /\ g_cpus s !! 2%nat = Some c /\
    sm_entered (ap_start (demo_smp_env (fun _ => true)) 4 s) = [mk_entry 4 2 (stack_top c) 0x201000 0x101000].
Proof.
  assert (match smp_init (demo_smp_env (fun _ => false)) 2 demo_smp with
    | Some (Ok s) => option_map (fun c => (stack_top c, sm_entered (ap_start (demo_smp_env (fun _ => true)) 4 s))) (g_cpus s !! 2%nat)
    | _ => None end = Some (0x10d000, [mk_entry 4 2 0x10d000 0x201000 0x101000])) as H by (vm_compute; reflexivity).
  destruct (smp_init (demo_smp_env (fun _ => false)) 2 demo_smp) as [[s|]|]; [|discriminate H..].
  destruct (g_cpus s !! 2%nat) as [c|] eqn:Ec; [|discriminate H]. exists s, c. cbn [option_map] in H. injection H as H1 H2.
  rewrite H1. done.
Qed.
