(* ===== verification/Syscall.v ===== *)
(** The system calls on files, arguments and programs (kernel/syscall.c).

    [kernel] gathers the state the calls share: process control, the machine
    (page allocator and memory), the kernel heap, the file systems and the block
    device.  Each handler of [syscall_dispatch] is one definition, from its first
    guard to its result; a result below zero is the error code.

    Structures that the kernel fills on its stack and copies to the program are
    lists of bytes; what is not assigned keeps the bytes of the [stack]
    argument. *)
From stdpp Require Import base numbers list gmap strings.
From Stdlib Require Import ZArith Lia.
From S2P Require Import Prelude Memory PageAllocator BootInfo Pmm Heap HeapGuard Vmm Process Usermem Elf Loader.
From S2P Require Import Cstring Ports Block Initramfs Vfs UserAlloc Control.

(** ** Definitions *)

Section Syscall.
Context {S : Type} `{PageAllocator S} {D : Type} `{Ports D}.

Record kernel := mk_kernel {
  k_control : control;
  k_machine : machine S;
  k_heap_head : Z;
  k_vfs : vfs_state;
  k_initramfs : initramfs;
  k_blocks : block_state;
  k_dev : D;
  k_kernel_pml4 : Z;
  k_next_synthetic_pid : Z;
  k_last_synthetic_pid : Z;
}.

Definition with_control (c : control) (k : kernel) : kernel :=
  mk_kernel c (k_machine k) (k_heap_head k) (k_vfs k) (k_initramfs k) (k_blocks k) (k_dev k) (k_kernel_pml4 k)
    (k_next_synthetic_pid k) (k_last_synthetic_pid k).
Definition with_machine (st : machine S) (k : kernel) : kernel :=
  mk_kernel (k_control k) st (k_heap_head k) (k_vfs k) (k_initramfs k) (k_blocks k) (k_dev k) (k_kernel_pml4 k)
    (k_next_synthetic_pid k) (k_last_synthetic_pid k).
Definition with_dev (d : D) (k : kernel) : kernel :=
  mk_kernel (k_control k) (k_machine k) (k_heap_head k) (k_vfs k) (k_initramfs k) (k_blocks k) d (k_kernel_pml4 k)
    (k_next_synthetic_pid k) (k_last_synthetic_pid k).
Definition with_pids (next last : Z) (k : kernel) : kernel :=
  mk_kernel (k_control k) (k_machine k) (k_heap_head k) (k_vfs k) (k_initramfs k) (k_blocks k) (k_dev k)
    (k_kernel_pml4 k) next last.

(** The heap lives in the machine. *)
Definition kheap (k : kernel) : heap_state S := mk_heap (k_heap_head k) (m_pages (k_machine k)) (m_mem (k_machine k)).
Definition with_heap (h : heap_state S) (k : kernel) : kernel :=
  mk_kernel (k_control k) (mk_machine (pages h) (hmem h)) (heap_head h) (k_vfs k) (k_initramfs k) (k_blocks k)
    (k_dev k) (k_kernel_pml4 k) (k_next_synthetic_pid k) (k_last_synthetic_pid k).

Definition k_procs (k : kernel) : proc_table := c_procs (k_control k).
Definition k_cur (k : kernel) : Z := current (k_control k).
Definition with_table (pt : proc_table) (k : kernel) : kernel := with_control (with_procs pt (k_control k)) k.
Definition on_process (i : Z) (f : Process -> Process) (k : kernel) : kernel :=
  with_table (update i f (k_procs k)) k.

Definition kalloc (fuel : nat) (size : Z) (k : kernel) : eff (Z * kernel) :=
  match kmalloc fuel size (kheap k) with
  | None => None
  | Some (p, h) => ret (p, with_heap h k)
  end.
Definition krelease (fuel : nat) (p : Z) (k : kernel) : eff kernel :=
  let! h := kfree fuel p (kheap k) in ret (with_heap h k).

(** The page tables of the running program. *)
Definition k_root (k : kernel) : Z := c_cr3 (k_control k).

(** [strlen_user] and [copy_from_user] into [char path_copy[max + 1]]. *)
Definition user_path (ptr max : Z) (k : kernel) : Z + list Z :=
  let '(err, len) := strlen_user (k_root k) ptr max (k_machine k) in
  if err <? 0 then inl err else
  let '(err, bs) := copy_from_user (k_root k) ptr (len + 1) (k_machine k) in
  if err <? 0 then inl err else inr (until_nul bs).

(** [copy_to_user] of a structure. *)
Definition put_user (dst : Z) (bs : list Z) (k : kernel) : Z * kernel :=
  let '(err, st) := copy_to_user (k_root k) dst bs (k_machine k) in (err, with_machine st k).

(** *** Handles *)

Definition current_handles (k : kernel) : list Handle := p_handles (proc (k_procs k) (k_cur k)).
Definition set_handle (i : nat) (h : Handle) (k : kernel) : kernel :=
  on_process (k_cur k) (fun p => set_handles (<[i := h]> (p_handles p)) p) k.

Definition null_handle : Handle := mk_handle 0 0 0 [].
Definition handle_at (k : kernel) (i : Z) : Handle := nth (Z.to_nat i) (current_handles k) null_handle.

(** The first handle from [i] whose type is 0. *)
Fixpoint free_handle (l : list Handle) (i : nat) : option nat :=
  match l with
  | [] => None
  | h :: l => if h_type h =? 0 then Some i else free_handle l (Datatypes.S i)
  end.

Definition sys_open (a1 : Z) (k : kernel) : Z * kernel :=
  match user_path a1 127 k with
  | inl err => (err, k)
  | inr path =>
      let '(r, st) := vfs_stat (k_vfs k) (k_initramfs k) path in
      if r <? 0 then (- ORE_ENOENT, k) else
      match free_handle (drop 1 (current_handles k)) 1 with
      | None => (- ORE_EINVAL, k)
      | Some i => (Z.of_nat i, set_handle i (mk_handle (vs_type st) 0 (h_flags (handle_at k (Z.of_nat i)))
                                 (until_nul (copy_string path 128))) k)
      end
  end.

Definition sys_close (a1 : Z) (k : kernel) : Z * kernel :=
  if (Z.of_nat ORE_MAX_HANDLES <=? a1) || (h_type (handle_at k a1) =? 0) then (- ORE_EBADF, k) else
  (0, set_handle (Z.to_nat a1) (mk_handle 0 0 (h_flags (handle_at k a1)) []) k).

(** The bytes read go to the program's buffer, which is not part of the heap. *)
Definition sys_file_read (fuel : nat) (a1 a2 a3 : Z) (k : kernel) : eff (Z * kernel) :=
  if (Z.of_nat ORE_MAX_HANDLES <=? a1) || negb (h_type (handle_at k a1) =? ORE_VFS_FILE) then ret (- ORE_EBADF, k) else
  if negb (user_range_ok (k_root k) a2 a3 (k_machine k)) then ret (- ORE_EFAULT, k) else
  let f := handle_at k a1 in
  let! (n, out, h, d) := vfs_read_file_at fuel (k_vfs k) (k_blocks k) (k_initramfs k) (h_path f) (h_offset f) a3
                           (kheap k) (k_dev k) in
  let k := with_dev d (with_heap h k) in
  let k := with_machine (write_loop (k_root k) a2 out (k_machine k)) k in
  ret (n, if 0 <? n then set_handle (Z.to_nat a1) (mk_handle (h_type f) (h_offset f +u n) (h_flags f) (h_path f)) k else k).

(** *** Structures for the program *)

(** A string in [char[n]]: the bytes after the terminator are not assigned. *)
Definition char_array (n : nat) (s stack : list Z) : list Z :=
  take n (s ++ [0] ++ drop (length s + 1) (slice stack 0 n)).

(** [OreVfsStat]: [reserved] is not assigned. *)
Definition stat_bytes (st : VfsStat) (stack : list Z) : list Z :=
  char_array 128 (vs_name st) stack ++ le_bytes 4 (vs_type st) ++ slice stack 132 4 ++ le_bytes 8 (vs_size st).

Definition sys_readdir (a1 a2 a3 : Z) (stack : list Z) (k : kernel) : Z * kernel :=
  let list_dir path :=
    let '(r, st) := vfs_readdir_path (k_vfs k) (k_initramfs k) path (u32 a1) in
    if r <? 0 then (- ORE_ENOENT, k) else
    let '(err, k) := put_user a2 (stat_bytes st stack) k in (if err <? 0 then err else 0, k) in
  if a3 =? 0 then list_dir (Some [47]) else
  match user_path a3 127 k with
  | inl err => (err, k)
  | inr path => list_dir (Some path)
  end.

Definition sys_stat (a1 a2 : Z) (stack : list Z) (k : kernel) : Z * kernel :=
  match user_path a1 127 k with
  | inl err => (err, k)
  | inr path =>
      let '(r, st) := vfs_stat (k_vfs k) (k_initramfs k) path in
      if r <? 0 then (- ORE_ENOENT, k) else
      let '(err, k) := put_user a2 (stat_bytes st stack) k in (if err <? 0 then err else 0, k)
  end.

(** [OreProcessInfo], with the padding before [syscall_count]. *)
Definition process_info_bytes (p : Process) (stack : list Z) : list Z :=
  le_bytes 4 (p_pid p) ++ le_bytes 4 (p_parent_pid p) ++ le_bytes 4 (p_state p) ++ le_bytes 4 (p_exit_code p) ++
  le_bytes 4 (p_user_segment_count p) ++ slice stack 20 4 ++ le_bytes 8 (p_syscall_count p) ++
  le_bytes 8 (p_user_entry p) ++ le_bytes 8 (p_user_stack p) ++
  char_array 32 (until_nul (copy_string (p_name p) 32)) (slice stack 48 32).

Definition sys_proc_info (a1 a2 : Z) (stack : list Z) (k : kernel) : Z * kernel :=
  match process_table_at (u32 a1) (k_procs k) with
  | None => (- ORE_ENOENT, k)
  | Some i =>
      let '(err, k) := put_user a2 (process_info_bytes (proc (k_procs k) i) stack) k in (if err <? 0 then err else 0, k)
  end.

(** [ORE_SYS_ARGS]: the string is cut to the buffer.  [process_current] is the kernel's
    process when no other runs, so the test of the code for null does not hold. *)
Definition sys_args (a1 a2 : Z) (k : kernel) : Z * kernel :=
  if negb (user_range_ok (k_root k) a1 a2 (k_machine k)) then (- ORE_EFAULT, k) else
  if a2 =? 0 then (0, k) else
  let s := take (Z.to_nat (a2 - 1)) (p_args (proc (k_procs k) (k_cur k))) in
  (Z.of_nat (length s), with_machine (write_loop (k_root k) a1 (s ++ [0]) (k_machine k)) k).

(** *** Programs *)

(** Bytes stored in a kernel buffer. *)
Definition fill_buffer (p : Z) (bs : list Z) (k : kernel) : kernel :=
  with_machine (with_machine_mem (k_machine k) (store_bytes (m_mem (k_machine k)) p bs)) k.

Definition create_user (name : list Z) (k : kernel) : eff (option Z * kernel) :=
  match process_create_user (k_kernel_pml4 k) name (k_procs k) (k_machine k) with
  | Panic msg => Some (Panic msg)
  | Ok (child, pt, st) => ret (child, with_table pt (with_machine st k))
  end.

(** A loader run on a process of the table. *)
Definition load_into (child : Z) (load : Process -> machine S -> outcome (Z * Process * machine S)) (k : kernel)
  : eff (Z * kernel) :=
  match load (proc (k_procs k) child) (k_machine k) with
  | Panic msg => Some (Panic msg)
  | Ok (err, p, st) => ret (err, on_process child (fun _ => p) (with_machine st k))
  end.

(** The fields of a new child. *)
Definition child_ready (parent : Z) (args : list Z) (p : Process) : Process :=
  set_args (until_nul (copy_string args 128)) (set_parent_pid parent (set_exit_code 0 (set_exited 0
    (set_state ORE_PROC_READY p)))).

Definition start_child (child : Z) (args : list Z) (k : kernel) : kernel :=
  on_process child (child_ready (p_pid (proc (k_procs k) (k_cur k))) args) k.

(** [OreImage] or ELF, by the magic at the start of the image; the ELF summary
    starts as [exec_info]. *)
Definition load_program (child image size : Z) (exec_info : UserElfInfo) (k : kernel) : eff (Z * kernel) :=
  if (sizeof_OreImageHeader <=? size) &&
     (oi_magic (read_ore_header (m_mem (k_machine k)) image) =? ORE_IMAGE_MAGIC)
  then load_into child (fun p st => load_ore_image_into_process p image size st) k
  else
    let '(err, info) := elf_probe_user_image (m_mem (k_machine k)) image size exec_info in
    if err <? 0 then ret (- ORE_EINVAL, k) else
    let! (err, k) := load_into child (fun p st => load_user_image_into_process p image info st) k in
    ret (if err <? 0 then - ORE_EINVAL else 0, k).

Definition sys_spawn (fuel : nat) (a1 a2 : Z) (exec_info : UserElfInfo) (k : kernel) : eff (Z * kernel) :=
  match user_path a1 127 k with
  | inl err => ret (err, k)
  | inr path =>
      let '(err, args) := copy_user_string_optional (k_root k) a2 128 (k_machine k) in
      if err <? 0 then ret (err, k) else
      let '(r, st) := vfs_stat (k_vfs k) (k_initramfs k) path in
      if r <? 0 then ret (- ORE_ENOENT, k) else
      if negb (vs_type st =? ORE_VFS_FILE) || (vs_size st =? 0) || (512 * 1024 <? vs_size st)
      then ret (- ORE_EINVAL, k) else
      let! (image, k) := kalloc fuel (vs_size st) k in
      if image =? 0 then ret (- ORE_EINVAL, k) else
      let! (n, out, h, d) := vfs_read_file fuel (k_vfs k) (k_blocks k) (k_initramfs k) path (vs_size st)
                               (kheap k) (k_dev k) in
      let k := fill_buffer image out (with_dev d (with_heap h k)) in
      if negb (n =? vs_size st) then let! k := krelease fuel image k in ret (- ORE_EINVAL, k) else
      let! (child, k) := create_user path k in
      match child with
      | None => let! k := krelease fuel image k in ret (- ORE_EINVAL, k)
      | Some child =>
          let! (err, k) := load_program child image (vs_size st) exec_info k in
          let! k := krelease fuel image k in
          if err <? 0 then ret (err, k) else
          let k := start_child child args k in
          let pid := p_pid (proc (k_procs k) child) in
          let '(next, last) := if pid =? 0 then (u32 (k_next_synthetic_pid k + 1), k_next_synthetic_pid k)
                               else (k_next_synthetic_pid k, pid) in
          ret (last, with_pids next last k)
      end
  end.

Definition sys_exec_image (fuel : nat) (a1 a2 a3 : Z) (k : kernel) : eff (Z * kernel) :=
  if negb (user_range_ok (k_root k) a1 a2 (k_machine k)) || (a2 <? sizeof_OreImageHeader) || (1024 * 1024 <? a2)
  then ret (- ORE_EFAULT, k) else
  let '(err, args) := copy_user_string_optional (k_root k) a3 128 (k_machine k) in
  if err <? 0 then ret (err, k) else
  let! (image, k) := kalloc fuel a2 k in
  if image =? 0 then ret (- ORE_ENOMEM, k) else
  let '(err, bs) := copy_from_user (k_root k) a1 a2 (k_machine k) in
  if err <? 0 then let! k := krelease fuel image k in ret (err, k) else
  let k := fill_buffer image bs k in
  let! (child, k) := create_user (bytes_of "ore-image"%string) k in
  match child with
  | None => let! k := krelease fuel image k in ret (- ORE_ENOMEM, k)
  | Some child =>
      let! (err, k) := load_into child (fun p st => load_ore_image_into_process p image a2 st) k in
      let! k := krelease fuel image k in
      if err <? 0 then ret (err, k) else
      let k := start_child child args k in
      let c := k_control k in
      let pt := update (k_cur k) (waiting (p_pid (proc (k_procs k) child)) (c_user_rip c) (c_user_rsp c)) (k_procs k) in
      ret (0, with_control (enter_process_from_syscall child (with_procs pt c)) k)
  end.
End Syscall.

(** ** Handles *)

Section Files.
Context {S : Type} `{PageAllocatorOk S} {D : Type} `{Ports D}.
Implicit Types (k : kernel (S:=S) (D:=D)).

Lemma handle_at_set k i h j :
  (i < length (current_handles k))%nat ->
  handle_at (set_handle i h k) j = if Nat.eqb (Z.to_nat j) i then h else handle_at k j.
Proof.
  intros Hi. unfold handle_at, set_handle, on_process, with_table, current_handles, k_procs, k_cur.
  cbn [with_control k_control with_procs c_procs current].
  change (process_current (update _ _ (c_procs (k_control k)))) with (current (k_control k)).
  change (current _) with (current (k_control k)) at 1. rewrite proc_update, Z.eqb_refl.
  cbn [set_handles p_handles]. unfold current_handles, k_procs, k_cur in Hi.
  destruct (Nat.eqb_spec (Z.to_nat j) i) as [->|Hne].
  - apply nth_lookup_Some. by apply list_lookup_insert_eq.
  - by rewrite !nth_lookup, list_lookup_insert_ne.
Qed.

(** What [sys_file_read] leaves alone. *)
Definition same_files k k' : Prop :=
  k_vfs k' = k_vfs k /\ k_initramfs k' = k_initramfs k /\ k_blocks k' = k_blocks k /\ k_cur k' = k_cur k.

End Files.

(** The [reserved] field of a [stat] result, and the bytes after the name, are
    what the kernel's stack held. *)
Lemma stat_leaks_stack st stack :
  (length (vs_name st) <= 127)%nat ->
  slice (stat_bytes st stack) 132 4 = slice stack 132 4 /\
  forall i, (length (vs_name st) < i < 128)%nat -> nth i (stat_bytes st stack) 0 = nth i stack 0.
Proof.
  intros Hl. assert (length (char_array 128 (vs_name st) stack) = 128%nat) as Hc.
  { unfold char_array. rewrite length_take, !length_app, length_drop, slice_length. cbn [length]. lia. }
  split.
  - apply list_eq. intros i. destruct (decide (i < 4)%nat) as [Hi|Hi].
    + rewrite !slice_lookup by done. f_equal. unfold stat_bytes.
      rewrite (app_nth2 (char_array _ _ _)), Hc by (rewrite Hc; lia).
      rewrite app_nth2, le_bytes_length by (rewrite le_bytes_length; lia).
      rewrite app_nth1 by (rewrite slice_length; lia).
      rewrite (nth_lookup_Some _ _ _ (nth (132 + (132 + i - 128 - 4)) stack 0)); [f_equal; lia|].
      apply slice_lookup. lia.
    + rewrite !lookup_ge_None_2; [done|rewrite slice_length; lia..].
  - intros i Hi. unfold stat_bytes. rewrite app_nth1 by (rewrite Hc; lia). unfold char_array.
    rewrite <- (app_nil_r (take 128 _)). 
    rewrite (nth_lookup_Some _ _ _ (nth i stack 0)); [done|]. rewrite app_nil_r.
    rewrite lookup_take_lt by lia. rewrite lookup_app_r by lia. rewrite lookup_app_r by (cbn; lia). cbn [length].
    rewrite lookup_drop. replace (length (vs_name st) + 1 + _)%nat with i by lia. apply slice_lookup. lia.
Qed.

(** ** Examples *)

(** A program with one page of memory and handle 1 open on "/disk/bin/a". *)
Definition demo_file : Handle := mk_handle ORE_VFS_FILE 1 0 (bytes_of "/disk/bin/a"%string).
Definition demo_reader : Process :=
  set_handles (null_handle :: demo_file :: replicate 62 null_handle)
    (set_state ORE_PROC_RUNNING (set_address_space (mk_as vmm_root USER_BASE USER_LIMIT) zero_process)).
Definition demo_kernel_with (st : machine pmm_state) (fs : initramfs) : kernel (D:=demo_dev) :=
  mk_kernel (mk_control (mk_table {[0 := zero_process; 1 := demo_reader]} 2 (Some 1)) vmm_root 0 0 0 None)
    st 0 demo_vfs fs demo_blocks ((0, O) : demo_dev) vmm_root 2 0.
Definition demo_kernel : kernel (D:=demo_dev) := demo_kernel_with demo_space demo_empty_fs.

Lemma demo_kernel_heap : guarded (fun q => q = vmm_root / PAGE_SIZE) (kheap demo_kernel) [].
Proof.
  split; [exists [], []; split; [|split; [reflexivity|split; [constructor|intros x (b & Hb & _) _; inversion Hb]]]|].
  2: { intros q ->. split; [split; [vm_compute; discriminate|vm_compute; reflexivity]|vm_compute; reflexivity]. }
  split; [reflexivity|exact I|constructor|exact I|constructor|].
  exact (fw_pages _ _ _ (sp_forest _ _ _ (proj1 demo_space_ok))).
Qed.

Lemma demo_buffer_ok : user_range_ok vmm_root (USER_BASE + 8) 2 demo_space = true.
Proof. vm_compute. reflexivity. Qed.

Lemma demo_kernel_enough :
  ~ no_run (pages_for (buffer_bytes demo_entry (h_offset (handle_at demo_kernel 1)) 2)) 1 (m_pages (k_machine demo_kernel)).
Proof.
  assert (pages_for (buffer_bytes demo_entry (h_offset (handle_at demo_kernel 1)) 2) = 1) as -> by (vm_compute; reflexivity).
  apply (pmm_enough 1 1 0x123); [lia|lia|vm_compute; discriminate|vm_compute; reflexivity].
Qed.


(** A spawn whose image is no program fails, but the process made for it stays in
    the table, ready to be scheduled, with the null entry point. *)
Lemma failed_spawn_leaves_ready_process :
  let st := write_loop vmm_root USER_BASE (bytes_of "/x"%string ++ [0]) demo_space in
  let fs := mk_initramfs 0x9000 1024 [mk_file (bytes_of "x"%string) 0x9200 8 1] in
  match sys_spawn 8 USER_BASE 0 no_info (demo_kernel_with st fs) with
  | Some (Ok (r, k)) =>
      (r =? - ORE_EINVAL) && (process_count (k_procs k) =? 3) &&
      (p_state (proc (k_procs k) 2) =? ORE_PROC_READY) && (p_user_entry (proc (k_procs k) 2) =? 0) &&
      match next_ready_process 1 (k_procs k) with Some next => next =? 2 | None => false end
  | _ => false
  end = true.
Proof. vm_compute. reflexivity. Qed.
