(* ===== verification/Net.v ===== *)
(** The network card driver (kernel/net.c).

    The NE2000 keeps received frames in a ring of 256-byte pages of its memory.
    Page [bnry] is the last one read, page [curr] the next one it fills; a frame
    starts with a header of four bytes: status, next page, length.  The driver is
    a function on the ports; [ne2000_ok] is what it relies on, the chip's
    documented registers and its remote DMA.  The theorem compares the receive
    path, with its split copy at the end of the ring, with a reference that reads
    the ring byte by byte. *)
From stdpp Require Import base numbers list sets.
From Stdlib Require Import ZArith Lia.
From S2P Require Import Prelude Usermem Ports Block.

(** ** Definitions *)

Definition NE_BASE : Z := 0x300.
Definition NE_DATA : Z := NE_BASE + 0x10.
Definition NE_RESET : Z := NE_BASE + 0x1f.
Definition NE_CR : Z := 0x00.
Definition NE_PSTART : Z := 0x01.
Definition NE_PSTOP : Z := 0x02.
Definition NE_BNRY : Z := 0x03.
Definition NE_TPSR : Z := 0x04.
Definition NE_TBCR0 : Z := 0x05.
Definition NE_TBCR1 : Z := 0x06.
Definition NE_ISR : Z := 0x07.
Definition NE_RSAR0 : Z := 0x08.
Definition NE_RSAR1 : Z := 0x09.
Definition NE_RBCR0 : Z := 0x0a.
Definition NE_RBCR1 : Z := 0x0b.
Definition NE_RCR : Z := 0x0c.
Definition NE_TCR : Z := 0x0d.
Definition NE_DCR : Z := 0x0e.
Definition NE_IMR : Z := 0x0f.
Definition NE_PAR0 : Z := 0x01.
Definition NE_CURR : Z := 0x07.
Definition NE_MAR0 : Z := 0x08.
Definition NE_CMD_STOP : Z := 0x21.
Definition NE_CMD_START : Z := 0x22.
Definition NE_CMD_PAGE1 : Z := 0x62.
Definition NE_CMD_RREAD : Z := 0x0a.
Definition NE_CMD_RWRITE : Z := 0x12.
Definition NE_ISR_PRX : Z := 0x01.
Definition NE_ISR_PTX : Z := 0x02.
Definition NE_ISR_TXE : Z := 0x08.
Definition NE_ISR_RDC : Z := 0x40.
Definition NE_TX_PAGE : Z := 0x40.
Definition NE_RX_START : Z := 0x46.
Definition NE_RX_STOP : Z := 0x80.
Definition ORE_NET_MAX_FRAME : Z := 1518.

(** [net_ready] and [net_mac]. *)
Record net_state := mk_net { net_ready : bool; net_mac : list Z }.

Record OreNetInfo := mk_net_info { ni_ready : Z; ni_mtu : Z; ni_mac : list Z; ni_ip : Z; ni_gateway : Z; ni_dns : Z }.

Section Net.
Context {D : Type} `{Ports D}.

Definition io_wait_local (d : D) : D := outb 0x80 0 d.
Definition ne_write (reg value : Z) (d : D) : D := outb (NE_BASE + reg) value d.
Definition ne_read (reg : Z) (d : D) : Z * D := inb (NE_BASE + reg) d.
Definition ne_select_page0 (d : D) : D := ne_write NE_CR NE_CMD_START d.
Definition ne_select_page1 (d : D) : D := ne_write NE_CR NE_CMD_PAGE1 d.

(** At most [n] reads of a register until a test holds. *)
Fixpoint ne_poll (n : nat) (reg : Z) (test : Z -> bool) (d : D) : Z * D :=
  match n with
  | O => (-1, d)
  | S n => let '(v, d) := ne_read reg d in if test v then (0, d) else ne_poll n reg test d
  end.

Definition ne_wait_rdc (d : D) : Z * D :=
  ne_poll (Z.to_nat 1000000) NE_ISR (fun v => negb (Z.land v NE_ISR_RDC =? 0)) d.

(** The registers of a remote DMA of [len] bytes at [addr]. *)
Definition ne_remote_setup (cmd addr len : Z) (d : D) : D :=
  let d := ne_select_page0 d in
  let d := ne_write NE_ISR NE_ISR_RDC d in
  let d := ne_write NE_RBCR0 (u8 (Z.land len 0xff)) d in
  let d := ne_write NE_RBCR1 (u8 (Z.shiftr len 8)) d in
  let d := ne_write NE_RSAR0 (u8 (Z.land addr 0xff)) d in
  let d := ne_write NE_RSAR1 (u8 (Z.shiftr addr 8)) d in
  ne_write NE_CR cmd d.

(** The bytes read; the last word may be used for one byte only. *)
Definition ne_remote_read (src len : Z) (d : D) : list Z * D :=
  let d := ne_remote_setup NE_CMD_RREAD src len d in
  let '(words, d) := read_words (Z.to_nat ((len + 1) / 2)) NE_DATA d in
  let '(_, d) := ne_wait_rdc d in
  (take (Z.to_nat len) (word_bytes words), ne_select_page0 d).

(** Bytes as 16-bit words, low byte first. *)
Fixpoint words_of (bs : list Z) : list Z :=
  match bs with
  | [] => []
  | [b] => [b]
  | b :: c :: bs => Z.lor b (u16 (Z.shiftl c 8)) :: words_of bs
  end.

Fixpoint write_words (ws : list Z) (d : D) : D :=
  match ws with [] => d | w :: ws => write_words ws (outw NE_DATA w d) end.

Definition ne_remote_write (dst : Z) (src : list Z) (d : D) : D :=
  let d := ne_remote_setup NE_CMD_RWRITE dst (Z.of_nat (length src)) d in
  let d := write_words (words_of src) d in
  let '(_, d) := ne_wait_rdc d in
  ne_select_page0 d.

(** Registers [reg], [reg + 1], ... *)
Fixpoint ne_write_all (reg : Z) (vs : list Z) (d : D) : D :=
  match vs with [] => d | v :: vs => ne_write_all (reg + 1) vs (ne_write reg v d) end.

Definition mac_absent (mac : list Z) : bool :=
  forallb (fun b => b =? 0) (take 3 mac) || forallb (fun b => b =? 0xff) (take 3 mac).

Definition net_init (d : D) : net_state * D :=
  let '(reset, d) := inb NE_RESET d in
  let d := io_wait_local (outb NE_RESET reset d) in
  let '(_, d) := ne_poll (Z.to_nat 100000) NE_ISR (fun v => negb (Z.land v 0x80 =? 0)) d in
  let d := ne_write NE_CR NE_CMD_STOP d in
  let d := ne_write NE_DCR 0x49 d in
  let d := ne_write NE_RBCR0 0 d in
  let d := ne_write NE_RBCR1 0 d in
  let d := ne_write NE_RCR 0x20 d in
  let d := ne_write NE_TCR 0x02 d in
  let d := ne_write NE_PSTART NE_RX_START d in
  let d := ne_write NE_PSTOP NE_RX_STOP d in
  let d := ne_write NE_BNRY NE_RX_START d in
  let d := ne_write NE_ISR 0xff d in
  let d := ne_write NE_IMR 0x00 d in
  let '(prom, d) := ne_remote_read 0 32 d in
  let mac := map (fun i => nth (i * 2) prom 0) (seq 0 6) in
  if mac_absent mac then (mk_net false mac, d) else
  let d := ne_select_page1 d in
  let d := ne_write_all NE_PAR0 mac d in
  let d := ne_write_all NE_MAR0 (replicate 8 0xff) d in
  let d := ne_write NE_CURR (NE_RX_START + 1) d in
  let d := ne_select_page0 d in
  let d := ne_write NE_RCR 0x04 d in
  let d := ne_write NE_TCR 0x00 d in
  let d := ne_write NE_ISR 0xff d in
  (mk_net true mac, d).

Definition net_info (n : net_state) : OreNetInfo :=
  mk_net_info (if net_ready n then 1 else 0) 1500 (net_mac n) 0x0a00020f 0x0a000202 0x0a000203.

(** The completion loop of [net_send_frame]. *)
Fixpoint send_wait (n : nat) (len : Z) (d : D) : Z * D :=
  match n with
  | O => (len, d)
  | S n =>
      let '(isr, d) := ne_read NE_ISR d in
      if negb (Z.land isr NE_ISR_PTX =? 0) then (len, ne_write NE_ISR NE_ISR_PTX d) else
      if negb (Z.land isr NE_ISR_TXE =? 0) then (- ORE_EINVAL, ne_write NE_ISR NE_ISR_TXE d) else
      send_wait n len d
  end.

(** Frames are padded with zeros to 60 bytes. *)
Definition net_send_frame (n : net_state) (frame : list Z) (d : D) : Z * D :=
  let len := Z.of_nat (length frame) in
  if negb (net_ready n) || (len <? 14) || (ORE_NET_MAX_FRAME <? len) then (- ORE_EINVAL, d) else
  let tx_len := if len <? 60 then 60 else len in
  let frame := if len <? 60 then frame ++ replicate (Z.to_nat (60 - len)) 0 else frame in
  let '(_, d) := ne_poll (Z.to_nat 1000000) NE_CR (fun v => Z.land v 0x04 =? 0) d in
  let d := ne_write NE_ISR (Z.lor NE_ISR_PTX NE_ISR_TXE) d in
  let d := ne_remote_write (NE_TX_PAGE * 256) frame d in
  let d := ne_write NE_TPSR NE_TX_PAGE d in
  let d := ne_write NE_TBCR0 (u8 (Z.land tx_len 0xff)) d in
  let d := ne_write NE_TBCR1 (u8 (Z.shiftr tx_len 8)) d in
  let d := ne_write NE_CR (Z.lor NE_CMD_START 0x04) d in
  send_wait (Z.to_nat 1000000) len d.

(** The result and the bytes written to the buffer. *)
Definition net_recv_frame (n : net_state) (cap : Z) (d : D) : Z * list Z * D :=
  if negb (net_ready n) || (cap <? 64) then (- ORE_EINVAL, [], d) else
  let '(curr, d) := ne_read NE_CURR (ne_select_page1 d) in
  let '(bnry, d) := ne_read NE_BNRY (ne_select_page0 d) in
  let page := u8 (bnry + 1) in
  let page := if NE_RX_STOP <=? page then NE_RX_START else page in
  if page =? curr then (0, [], d) else
  let '(hdr, d) := ne_remote_read (u16 (page * 256)) 4 d in
  let next := nth 1 hdr 0 in
  let count := Z.lor (nth 2 hdr 0) (u16 (Z.shiftl (nth 3 hdr 0) 8)) in
  if (next <? NE_RX_START) || (NE_RX_STOP <=? next) || (count <? 4) || (1600 <? count)
  then (- ORE_EINVAL, [], ne_write NE_BNRY NE_RX_START d) else
  let frame_len := u16 (count - 4) in
  let frame_len := if cap <? frame_len then u16 cap else frame_len in
  let src := u16 (page * 256 + 4) in
  let first := u16 (NE_RX_STOP * 256 - src) in
  let '(out, d) :=
    if frame_len <=? first then ne_remote_read src frame_len d
    else
      let '(a, d) := ne_remote_read src first d in
      let '(b, d) := ne_remote_read (u16 (NE_RX_START * 256)) (u16 (frame_len - first)) d in
      (a ++ b, d) in
  let new_bnry := u8 (next - 1) in
  let new_bnry := if new_bnry <? NE_RX_START then NE_RX_STOP - 1 else new_bnry in
  let d := ne_write NE_BNRY new_bnry d in
  let d := ne_write NE_ISR NE_ISR_PRX d in
  (frame_len, out, d).
End Net.

(** ** The chip *)

(** The command register, the boundary, the address and the byte count of the remote
    DMA, the first page of the ring and the page after its last, and the memory of the
    chip. *)
Record nic := mk_nic { n_cr : Z; n_bnry : Z; n_rsar : Z; n_rbcr : Z; n_start : Z; n_stop : Z; n_ram : Z -> Z }.

Definition with_cr (v : Z) (c : nic) : nic := mk_nic v (n_bnry c) (n_rsar c) (n_rbcr c) (n_start c) (n_stop c) (n_ram c).
Definition with_bnry (v : Z) (c : nic) : nic := mk_nic (n_cr c) v (n_rsar c) (n_rbcr c) (n_start c) (n_stop c) (n_ram c).
Definition with_rsar (v : Z) (c : nic) : nic := mk_nic (n_cr c) (n_bnry c) v (n_rbcr c) (n_start c) (n_stop c) (n_ram c).
Definition with_rbcr (v : Z) (c : nic) : nic := mk_nic (n_cr c) (n_bnry c) (n_rsar c) v (n_start c) (n_stop c) (n_ram c).
Definition with_start (v : Z) (c : nic) : nic := mk_nic (n_cr c) (n_bnry c) (n_rsar c) (n_rbcr c) v (n_stop c) (n_ram c).
Definition with_stop (v : Z) (c : nic) : nic := mk_nic (n_cr c) (n_bnry c) (n_rsar c) (n_rbcr c) (n_start c) v (n_ram c).

(** The bits of the command register: page select in bits 6 and 7; stop in bit 0, start
    in bit 1, and in bits 3 to 5 the remote DMA, 1 for a read. *)
Definition page0 (c : nic) : bool := Z.land (n_cr c) 0xc0 =? 0.
Definition remote_reading (c : nic) : bool := Z.land (n_cr c) 0x3b =? 0x0a.

(** After a word of a remote read: the address goes on, from the end of the ring to its
    start, and the byte count goes down to zero. *)
Definition dma_next (c : nic) : nic :=
  let a := n_rsar c + 2 in
  with_rbcr (Z.max 0 (n_rbcr c - 2)) (with_rsar (if a =? n_stop c * 256 then n_start c * 256 else a) c).

Section Chip.
Context {D : Type} `{Ports D}.

(** The registers that [net_init] and the receive path use, as the data sheet describes them, while no
    frame arrives.  The data port gives the memory of the chip only during a remote
    read with bytes left. *)
Record ne2000_ok (view : D -> nic) : Prop := {
  ne_cr : forall v d, byte_ok v -> Z.testbit v 2 = false -> view (outb NE_BASE v d) = with_cr v (view d);
  ne_bnry_write : forall v d, page0 (view d) = true ->
    view (outb (NE_BASE + NE_BNRY) v d) = with_bnry v (view d);
  ne_rsar0 : forall v d, page0 (view d) = true -> byte_ok v ->
    view (outb (NE_BASE + NE_RSAR0) v d) = with_rsar (n_rsar (view d) / 256 * 256 + v) (view d);
  ne_rsar1 : forall v d, page0 (view d) = true -> byte_ok v ->
    view (outb (NE_BASE + NE_RSAR1) v d) = with_rsar (v * 256 + n_rsar (view d) mod 256) (view d);
  ne_rbcr0 : forall v d, page0 (view d) = true -> byte_ok v ->
    view (outb (NE_BASE + NE_RBCR0) v d) = with_rbcr (n_rbcr (view d) / 256 * 256 + v) (view d);
  ne_rbcr1 : forall v d, page0 (view d) = true -> byte_ok v ->
    view (outb (NE_BASE + NE_RBCR1) v d) = with_rbcr (v * 256 + n_rbcr (view d) mod 256) (view d);
  ne_pstart : forall v d, page0 (view d) = true -> view (outb (NE_BASE + NE_PSTART) v d) = with_start v (view d);
  ne_pstop : forall v d, page0 (view d) = true -> view (outb (NE_BASE + NE_PSTOP) v d) = with_stop v (view d);
  ne_quiet : forall reg v d, page0 (view d) = true -> reg ∈ [NE_ISR; NE_RCR; NE_TCR; NE_DCR; NE_IMR] ->
    view (outb (NE_BASE + reg) v d) = view d;
  ne_quiet1 : forall reg v d, page0 (view d) = false -> 1 <= reg <= 15 -> view (outb (NE_BASE + reg) v d) = view d;
  ne_bnry_read : forall d, page0 (view d) = true ->
    (inb (NE_BASE + NE_BNRY) d).1 = n_bnry (view d) /\ view (inb (NE_BASE + NE_BNRY) d).2 = view d;
  ne_reg7_read : forall d, view (inb (NE_BASE + NE_ISR) d).2 = view d;
  ne_data : forall d, remote_reading (view d) = true -> 0 < n_rbcr (view d) -> n_rsar (view d) mod 2 = 0 ->
    (inw NE_DATA d).1 = n_ram (view d) (n_rsar (view d)) + 256 * n_ram (view d) (n_rsar (view d) + 1) /\
    view (inw NE_DATA d).2 = dma_next (view d);
  ne_ram : forall d a, byte_ok (n_ram (view d) a);
}.

Context (view : D -> nic) (Hne : ne2000_ok view).

Lemma ne_isr_write v d : page0 (view d) = true -> view (outb (NE_BASE + NE_ISR) v d) = view d.
Proof. intros Hp. apply (ne_quiet _ Hne); [done|apply list_elem_of_here]. Qed.

Lemma view_page0 d : view (ne_select_page0 d) = with_cr NE_CMD_START (view d).
Proof. by apply (ne_cr _ Hne NE_CMD_START d). Qed.

Lemma view_page1 d : view (ne_select_page1 d) = with_cr NE_CMD_PAGE1 (view d).
Proof. by apply (ne_cr _ Hne NE_CMD_PAGE1 d). Qed.

Lemma poll_view n test d : view (ne_poll n NE_ISR test d).2 = view d.
Proof.
  revert d. induction n as [|n IH]; intros d; cbn [ne_poll]; [done|]. unfold ne_read.
  pose proof (ne_reg7_read _ Hne d) as Hv. destruct (inb _ d) as [v d1]. cbn [snd] in Hv.
  destruct (test v); cbn [snd]; [done|]. by rewrite IH.
Qed.

Lemma low_byte x : 0 <= x < 65536 -> u8 (Z.land x 0xff) = x mod 256 /\ u8 (Z.shiftr x 8) = x / 256 /\ byte_ok (x mod 256) /\ byte_ok (x / 256).
Proof.
  intros Hx. unfold u8, byte_ok. change 0xff with (Z.ones 8). rewrite Z.land_ones, Z.shiftr_div_pow2 by lia. change (2 ^ 8) with 256. zlia.
Qed.

(** The registers of the remote DMA, its command last. *)
Lemma setup_view cmd addr len d :
  0 <= addr < 65536 -> 0 <= len < 65536 -> byte_ok cmd -> Z.testbit cmd 2 = false ->
  view (ne_remote_setup cmd addr len d) = with_cr cmd (with_rbcr len (with_rsar addr (view d))).
Proof.
  intros Ha Hl Hb Hc. unfold ne_remote_setup, ne_write. set (c0 := with_cr NE_CMD_START (view d)).
  destruct (low_byte addr Ha) as (-> & -> & A1 & A2). destruct (low_byte len Hl) as (-> & -> & L1 & L2).
  set (d0 := ne_select_page0 d). assert (view d0 = c0) as E0 by apply view_page0.
  set (d1 := outb (NE_BASE + NE_ISR) _ d0). assert (view d1 = c0) as E1.
  { rewrite <- E0. apply ne_isr_write. by rewrite E0. }
  set (d2 := outb _ _ d1). assert (view d2 = with_rbcr (n_rbcr c0 / 256 * 256 + len mod 256) c0) as E2.
  { rewrite <- E1. apply (ne_rbcr0 _ Hne); [by rewrite E1|done]. }
  set (d3 := outb _ _ d2). assert (view d3 = with_rbcr len c0) as E3.
  { unfold d3. rewrite (ne_rbcr1 _ Hne), E2 by (done || by rewrite E2). unfold with_rbcr. cbn [n_rbcr n_cr n_bnry n_rsar n_start n_stop n_ram]. f_equal. zlia. }
  set (d4 := outb _ _ d3). assert (view d4 = with_rsar (n_rsar c0 / 256 * 256 + addr mod 256) (with_rbcr len c0)) as E4.
  { unfold d4. by rewrite (ne_rsar0 _ Hne), E3 by (done || by rewrite E3). }
  set (d5 := outb _ _ d4). assert (view d5 = with_rsar addr (with_rbcr len c0)) as E5.
  { unfold d5. rewrite (ne_rsar1 _ Hne), E4 by (done || by rewrite E4). unfold with_rsar. cbn [n_rbcr n_cr n_bnry n_rsar n_start n_stop n_ram with_rbcr]. f_equal. zlia. }
  change NE_CR with 0. rewrite Z.add_0_r, (ne_cr _ Hne), E5 by done. reflexivity.
Qed.

(** What the remote DMA leaves alone. *)
Definition same_ring (c c' : nic) : Prop :=
  n_ram c' = n_ram c /\ n_bnry c' = n_bnry c /\ n_start c' = n_start c /\ n_stop c' = n_stop c.

(** The memory of the chip from [a]. *)
Definition ram_bytes (ram : Z -> Z) (a : Z) (n : nat) : list Z := map (fun i => ram (a + Z.of_nat i)) (seq 0 n).

Lemma ram_bytes_cons ram a n : ram_bytes ram a (S n) = ram a :: ram_bytes ram (a + 1) n.
Proof.
  unfold ram_bytes. cbn [seq map]. f_equal; [f_equal; lia|]. rewrite <- seq_shift, map_map.
  apply map_ext. intros i. f_equal. lia.
Qed.

Lemma word_split b c : byte_ok b -> byte_ok c ->
  Z.land (b + 256 * c) 0xFF = b /\ u8 (Z.shiftr (b + 256 * c) 8) = c.
Proof.
  unfold byte_ok, u8. intros Hb Hc. change 0xFF with (Z.ones 8). rewrite Z.land_ones, Z.shiftr_div_pow2 by lia.
  change (2 ^ 8) with 256. zlia.
Qed.

Lemma read_words_view n d :
  remote_reading (view d) = true -> 2 * Z.of_nat n <= n_rbcr (view d) + 1 -> n_rsar (view d) mod 2 = 0 ->
  n_rsar (view d) + 2 * Z.of_nat n <= n_stop (view d) * 256 ->
  let '(ws, d') := read_words n NE_DATA d in
  word_bytes ws = ram_bytes (n_ram (view d)) (n_rsar (view d)) (2 * n) /\ same_ring (view d) (view d').
Proof.
  revert d. induction n as [|n IH]; intros d Hp Hc Ha Hs; cbn [read_words]; [done|].
  destruct (ne_data _ Hne d Hp ltac:(lia) Ha) as [Hw Hv]. destruct (inw NE_DATA d) as [w d1]. cbn [fst snd] in Hw, Hv.
  assert (n = O \/ n_rsar (view d1) = n_rsar (view d) + 2) as Hnext.
  { destruct n; [by left|right]. rewrite Hv. unfold dma_next. cbn [n_rsar with_rbcr with_rsar]. rewrite (proj2 (Z.eqb_neq _ _)) by lia. done. }
  assert (word_bytes [w] = ram_bytes (n_ram (view d)) (n_rsar (view d)) 2) as Hb1.
  { unfold ram_bytes, word_bytes. cbn [flat_map app seq map]. rewrite Hw. rewrite Z.add_0_r.
    destruct (word_split _ _ (ne_ram _ Hne d (n_rsar (view d))) (ne_ram _ Hne d (n_rsar (view d) + 1))) as [-> ->]. done. }
  destruct n as [|n]; [cbn [read_words]; split; [done|by rewrite Hv]|]. destruct Hnext as [|Hnext]; [done|].
  specialize (IH d1). rewrite Hnext in IH.
  destruct (read_words (S n) NE_DATA d1) as [ws d2].
  destruct IH as [Hb Hv2]; [by rewrite Hv|rewrite Hv; cbn [dma_next n_rbcr with_rbcr]; lia|zlia|rewrite Hv; cbn [dma_next n_stop with_rbcr with_rsar]; lia|].
  rewrite Hv in Hb, Hv2. cbn [dma_next with_rbcr with_rsar n_ram] in Hb. split; [|exact Hv2].
  replace (2 * S (S n))%nat with (S (S (2 * S n))) by lia. rewrite !ram_bytes_cons. unfold word_bytes in *. cbn [flat_map] in *.
  rewrite Hb. rewrite app_nil_r in Hb1. rewrite Hb1. unfold ram_bytes at 1. cbn [seq map app]. rewrite Z.add_0_r. do 3 f_equal. lia.
Qed.

Lemma take_seq_le n m p : (n <= m)%nat -> take n (seq p m) = seq p n.
Proof.
  revert p n. induction m as [|m IH]; intros p [|n] Hn; [done|lia|done|]. cbn. f_equal. apply IH. lia.
Qed.

Lemma remote_read_view src len d :
  0 <= src -> src mod 2 = 0 -> 0 <= len < 65536 -> src + (len + 1) / 2 * 2 <= n_stop (view d) * 256 -> n_stop (view d) <= 255 ->
  let '(bs, d') := ne_remote_read src len d in
  bs = ram_bytes (n_ram (view d)) src (Z.to_nat len) /\ same_ring (view d) (view d') /\ page0 (view d') = true.
Proof.
  intros Hs Ha Hl Hstop Hst. unfold ne_remote_read. set (d0 := ne_remote_setup _ _ _ d).
  assert (view d0 = with_cr NE_CMD_RREAD (with_rbcr len (with_rsar src (view d)))) as E0 by (apply setup_view; [zlia|zlia|done..]).
  pose proof (read_words_view (Z.to_nat ((len + 1) / 2)) d0) as Hr. rewrite E0 in Hr.
  cbn [with_cr with_rbcr with_rsar n_rbcr n_rsar n_ram n_stop] in Hr.
  destruct (read_words _ NE_DATA d0) as [ws d1]. destruct Hr as [Hw Hv]; [done|zlia|done|zlia|].
  unfold ne_wait_rdc. pose proof (poll_view (Z.to_nat 1000000) (fun v => negb (Z.land v NE_ISR_RDC =? 0)) d1) as Hp.
  destruct (ne_poll _ _ _ d1) as [r d2]. cbn [snd] in Hp. rewrite view_page0, Hp. split; [|split; [exact Hv|done]].
  rewrite Hw. unfold ram_bytes. rewrite firstn_map. f_equal. apply take_seq_le. zlia.
Qed.

Lemma write_all_view reg vs d :
  page0 (view d) = false -> 1 <= reg -> reg + Z.of_nat (length vs) <= 16 -> view (ne_write_all reg vs d) = view d.
Proof.
  revert reg d. induction vs as [|v vs IH]; intros reg d Hp Hr Hl; cbn [ne_write_all length] in *; [done|]. unfold ne_write.
  assert (view (outb (NE_BASE + reg) v d) = view d) as E by (apply (ne_quiet1 _ Hne); [done|lia]). rewrite IH; [done|by rewrite E|lia|lia].
Qed.

(** The setting of the registers of the ring. *)
Lemma ring_setup d :
  page0 (view d) = true ->
  let d := ne_write NE_DCR 0x49 d in
  let d := ne_write NE_RBCR0 0 d in
  let d := ne_write NE_RBCR1 0 d in
  let d := ne_write NE_RCR 0x20 d in
  let d := ne_write NE_TCR 0x02 d in
  let d := ne_write NE_PSTART NE_RX_START d in
  let d := ne_write NE_PSTOP NE_RX_STOP d in
  let d := ne_write NE_BNRY NE_RX_START d in
  let d := ne_write NE_ISR 0xff d in
  let d := ne_write NE_IMR 0x00 d in
  n_start (view d) = NE_RX_START /\ n_stop (view d) = NE_RX_STOP /\ n_bnry (view d) = NE_RX_START.
Proof.
  intros P. unfold ne_write.
  assert (forall reg v x, page0 (view x) = true -> reg ∈ [NE_ISR; NE_RCR; NE_TCR; NE_DCR; NE_IMR] ->
    view (outb (NE_BASE + reg) v x) = view x) as Q by exact (ne_quiet _ Hne).
  set (d1 := outb _ _ d). assert (view d1 = view d) as E1 by (apply Q; [done|set_solver]).
  set (d2 := outb _ _ d1). assert (page0 (view d2) = true) as E2 by (unfold d2; rewrite (ne_rbcr0 _ Hne), E1 by (done || by rewrite E1); done).
  set (d3 := outb _ _ d2). assert (page0 (view d3) = true) as E3 by (unfold d3; rewrite (ne_rbcr1 _ Hne) by done; done).
  set (d4 := outb _ _ d3). assert (view d4 = view d3) as E4 by (apply Q; [done|set_solver]).
  set (d5 := outb _ _ d4). assert (view d5 = view d3) as E5 by (rewrite <- E4; apply Q; [by rewrite E4|set_solver]).
  set (d6 := outb _ _ d5). assert (view d6 = with_start NE_RX_START (view d3)) as E6 by (rewrite <- E5; apply (ne_pstart _ Hne); by rewrite E5).
  set (d7 := outb _ _ d6). assert (view d7 = with_stop NE_RX_STOP (view d6)) as E7 by (apply (ne_pstop _ Hne); by rewrite E6).
  set (d8 := outb _ _ d7). assert (view d8 = with_bnry NE_RX_START (view d7)) as E8 by (apply (ne_bnry_write _ Hne); by rewrite E7, E6).
  assert (page0 (view d8) = true) as P8 by (by rewrite E8, E7, E6).
  set (d9 := outb _ _ d8). assert (view d9 = view d8) as E9 by (apply Q; [done|set_solver]).
  cbv zeta. rewrite Q by (by rewrite E9 || set_solver). rewrite E9, E8, E7, E6. done.
Qed.

(** [net_init] sets up the ring that [net_recv_frame] relies on. *)
Lemma net_init_ring d :
  let '(n, d') := net_init d in net_ready n = true ->
  n_start (view d') = NE_RX_START /\ n_stop (view d') = NE_RX_STOP /\ n_bnry (view d') = NE_RX_START.
Proof.
  unfold net_init. destruct (inb NE_RESET d) as [reset d0]. destruct (ne_poll _ _ _ _) as [r d1].
  set (d2 := ne_write NE_CR NE_CMD_STOP d1). assert (page0 (view d2) = true) as P2.
  { unfold d2, ne_write. change NE_CR with 0. by rewrite Z.add_0_r, (ne_cr _ Hne). }
  pose proof (ring_setup d2 P2) as Hr. cbv zeta in Hr |- *.
  match goal with |- context [ne_remote_read 0 32 ?x] => set (d3 := x) in * end. destruct Hr as (S3 & T3 & B3).
  pose proof (remote_read_view 0 32 d3) as Hp. rewrite T3 in Hp. destruct (ne_remote_read 0 32 d3) as [prom d4].
  destruct Hp as (_ & (_ & B4 & S4 & T4) & _); [lia|done|lia|done|done|]. rewrite B3 in B4. rewrite S3 in S4. rewrite T3 in T4.
  set (mac := map _ _). destruct (mac_absent mac); [done|]. intros _.
  set (d5 := ne_select_page1 d4). assert (view d5 = with_cr NE_CMD_PAGE1 (view d4)) as E5 by apply view_page1.
  set (d6 := ne_write_all NE_PAR0 mac d5). assert (view d6 = view d5) as E6 by (apply write_all_view; [by rewrite E5|done|by unfold mac; rewrite length_map]).
  set (d7 := ne_write_all _ _ d6). assert (view d7 = view d5) as E7 by (rewrite <- E6; apply write_all_view; [by rewrite E6, E5|done|done]).
  set (d8 := ne_write _ _ d7). assert (view d8 = view d5) as E8 by (rewrite <- E7; apply (ne_quiet1 _ Hne); [by rewrite E7, E5|done]).
  set (d9 := ne_select_page0 d8). assert (view d9 = with_cr NE_CMD_START (view d8)) as E9 by apply view_page0.
  assert (page0 (view d9) = true) as P9 by (by rewrite E9). unfold ne_write.
  set (d10 := outb _ _ d9). assert (view d10 = view d9) as E10 by (apply (ne_quiet _ Hne); [done|set_solver]).
  set (d11 := outb _ _ d10). assert (view d11 = view d9) as E11 by (rewrite <- E10; apply (ne_quiet _ Hne); [by rewrite E10|set_solver]).
  rewrite (ne_quiet _ Hne) by (by rewrite E11 || set_solver). rewrite E11, E9, E8, E5. done.
Qed.

(** ** The ring *)

(** Byte [i] of the frame that starts at a page, after its header: the ring goes
    back to its first page. *)
Definition ring_addr (page i : Z) : Z :=
  let a := page * 256 + 4 + i in
  if a <? NE_RX_STOP * 256 then a else a - (NE_RX_STOP - NE_RX_START) * 256.
Definition frame_bytes (ram : Z -> Z) (page : Z) (len : nat) : list Z :=
  map (fun i => ram (ring_addr page (Z.of_nat i))) (seq 0 len).
(** The page after the boundary. *)
Definition rx_page (bnry : Z) : Z := if bnry + 1 <? NE_RX_STOP then bnry + 1 else NE_RX_START.
Definition frame_next (ram : Z -> Z) (page : Z) : Z := ram (page * 256 + 1).
Definition frame_count (ram : Z -> Z) (page : Z) : Z := ram (page * 256 + 2) + 256 * ram (page * 256 + 3).

Lemma seq_from p n : seq p n = map (Nat.add p) (seq 0 n).
Proof.
  induction p as [|p IH]; [by rewrite map_id|]. rewrite <- seq_shift, IH, map_map. done.
Qed.

(** The copy in one or two pieces. *)
Lemma ring_copy ram page len :
  NE_RX_START <= page < NE_RX_STOP -> 0 <= len <= 1596 ->
  let src := page * 256 + 4 in let first := NE_RX_STOP * 256 - src in
  frame_bytes ram page (Z.to_nat len) =
  if len <=? first then ram_bytes ram src (Z.to_nat len)
  else ram_bytes ram src (Z.to_nat first) ++ ram_bytes ram (NE_RX_START * 256) (Z.to_nat (len - first)).
Proof.
  intros Hp Hl src first. assert (src = page * 256 + 4) as Es by done.
  assert (first = 32768 - src) as Ef by done. clearbody src first.
  unfold NE_RX_START, NE_RX_STOP in *. unfold frame_bytes, ram_bytes.
  destruct (Z.leb_spec len first) as [Hle|Hgt].
  - apply map_ext_in. intros i Hi. apply in_seq in Hi. unfold ring_addr, NE_RX_STOP, NE_RX_START.
    rewrite (proj2 (Z.ltb_lt _ _)) by lia. by rewrite Es.
  - replace (Z.to_nat len) with (Z.to_nat first + Z.to_nat (len - first))%nat by lia.
    rewrite seq_app, map_app. f_equal.
    + apply map_ext_in. intros i Hi. apply in_seq in Hi. unfold ring_addr, NE_RX_STOP, NE_RX_START.
      rewrite (proj2 (Z.ltb_lt _ _)) by lia. by rewrite Es.
    + rewrite Nat.add_0_l, seq_from, map_map.
      apply map_ext_in. intros i Hi. apply in_seq in Hi. unfold ring_addr, NE_RX_STOP, NE_RX_START.
      rewrite (proj2 (Z.ltb_ge _ _)) by lia. f_equal. lia.
Qed.

Lemma u16_small x : 0 <= x < 65536 -> u16 x = x.
Proof. intros Hx. by apply Z.mod_small. Qed.

(** The read in one or two pieces. *)
Lemma read_pieces page len d :
  NE_RX_START <= page < NE_RX_STOP -> 0 <= len <= 1596 -> n_stop (view d) = NE_RX_STOP ->
  let src := page * 256 + 4 in let first := NE_RX_STOP * 256 - src in
  let '(out, d') :=
    if len <=? first then ne_remote_read src len d
    else
      let '(a, d) := ne_remote_read src first d in
      let '(b, d) := ne_remote_read (u16 (NE_RX_START * 256)) (u16 (len - first)) d in
      (a ++ b, d) in
  out = (if len <=? first then ram_bytes (n_ram (view d)) src (Z.to_nat len)
         else ram_bytes (n_ram (view d)) src (Z.to_nat first) ++
              ram_bytes (n_ram (view d)) (NE_RX_START * 256) (Z.to_nat (len - first))) /\
  same_ring (view d) (view d') /\ page0 (view d') = true.
Proof.
  intros Hp Hl Hd src first. assert (0 <= src < 65536 /\ src mod 2 = 0 /\ 0 <= first <= 32768 /\ src + first = NE_RX_STOP * 256 /\ first mod 2 = 0) as (Hs & Hev & Hf & Hsf & Hfe)
    by (unfold first, src, NE_RX_START, NE_RX_STOP in *; zlia).
  assert (NE_RX_STOP * 256 = 32768 /\ NE_RX_START * 256 = 17920) as [Es Et] by done.
  clearbody src first. destruct (Z.leb_spec len first) as [Hle|Hgt].
  - apply remote_read_view; rewrite ?Hd, ?Es; [lia|done|lia|zlia|done].
  - pose proof (remote_read_view src first d) as H1. rewrite Hd in H1.
    destruct (ne_remote_read src first d) as [a d1]. destruct H1 as (-> & (M1 & B1 & S1 & T1) & P1); [lia|done|lia|zlia|done|].
    rewrite u16_small by lia. rewrite u16_small by lia.
    pose proof (remote_read_view (NE_RX_START * 256) (len - first) d1) as H2. rewrite T1, Hd, M1 in H2.
    destruct (ne_remote_read _ _ d1) as [b d2]. destruct H2 as (-> & (M2 & B2 & S2 & T2) & P2); [lia|done|lia|zlia|done|].
    split; [done|]. split; [|done]. unfold same_ring. by rewrite M2, B2, S2, T2, M1, B1, S1, T1.
Qed.

(** The boundary that makes [next] the next page. *)
Lemma new_boundary next :
  NE_RX_START <= next < NE_RX_STOP ->
  let b := u8 (next - 1) in let b := if b <? NE_RX_START then NE_RX_STOP - 1 else b in
  NE_RX_START <= b < NE_RX_STOP /\ rx_page b = next.
Proof.
  unfold NE_RX_START, NE_RX_STOP, rx_page, NE_RX_STOP, NE_RX_START. intros Hn. rewrite u8_small by (unfold byte_ok; lia).
  cbv zeta. destruct (Z.ltb_spec (next - 1) 70).
  - replace next with 70 by lia. done.
  - split; [lia|]. rewrite (proj2 (Z.ltb_lt _ _)) by lia. lia.
Qed.

Lemma header_fields b c : byte_ok b -> byte_ok c -> Z.lor b (u16 (Z.shiftl c 8)) = b + 256 * c.
Proof.
  unfold byte_ok. intros Hb Hc. rewrite Z.shiftl_mul_pow2 by lia. change (2 ^ 8) with 256.
  unfold u16. rewrite Z.mod_small by lia. rewrite (Z.mul_comm 256), <- Z.add_lor_land.
  replace (Z.land b (c * 256)) with 0; [lia|]. symmetry. apply Z.bits_inj'. intros i Hi.
  rewrite Z.land_spec, Z.bits_0. destruct (Z.ltb_spec i 8).
  - change 256 with (2 ^ 8). rewrite Z.mul_pow2_bits_low by lia. apply andb_false_r.
  - rewrite (testbit_above 8 b) by lia. done.
Qed.

(** C21: receiving follows the ring, with the chip's remote DMA as documented and no
    frame arriving meanwhile: when the page after the boundary is the one
    the chip fills next there is no frame; otherwise, for a header with a valid
    next page and length, the buffer gets exactly the bytes of the frame (cut to
    its capacity), read around the end of the ring, and the boundary moves so that
    the next call reads the page the header names; a corrupt header is refused and
    the boundary reset to the start of the ring. *)
Theorem net_recv_correct n cap d :
  net_ready n = true -> 64 <= cap -> NE_RX_START <= n_bnry (view d) < NE_RX_STOP -> n_stop (view d) = NE_RX_STOP ->
  let ram := n_ram (view d) in let page := rx_page (n_bnry (view d)) in
  let curr := (ne_read NE_CURR (ne_select_page1 d)).1 in
  let next := frame_next ram page in let count := frame_count ram page in
  let '(r, out, d') := net_recv_frame n cap d in
  n_ram (view d') = ram /\ n_stop (view d') = NE_RX_STOP /\
  if page =? curr then r = 0 /\ out = [] /\ n_bnry (view d') = n_bnry (view d)
  else if (NE_RX_START <=? next) && (next <? NE_RX_STOP) && (4 <=? count) && (count <=? 1600)
  then r = Z.min (count - 4) cap /\ out = frame_bytes ram page (Z.to_nat r) /\
       NE_RX_START <= n_bnry (view d') < NE_RX_STOP /\ rx_page (n_bnry (view d')) = next
  else r = - ORE_EINVAL /\ out = [] /\ n_bnry (view d') = NE_RX_START.
Proof.
  intros Hr Hcap Hb Hstop ram page curr next count. unfold net_recv_frame. rewrite Hr, (proj2 (Z.ltb_ge _ _)) by lia.
  cbn [negb orb]. pose proof (ne_reg7_read _ Hne (ne_select_page1 d)) as Hv7. fold NE_CURR in Hv7.
  unfold curr. unfold ne_read at 1. unfold ne_read at 2. destruct (inb _ (ne_select_page1 d)) as [cur d1].
  cbn [fst snd] in Hv7 |- *. clear curr. rewrite view_page1 in Hv7.
  set (d2 := ne_select_page0 d1). assert (view d2 = with_cr NE_CMD_START (view d)) as E2.
  { unfold d2. by rewrite view_page0, Hv7. }
  unfold ne_read. destruct (ne_bnry_read _ Hne d2) as [Hbn Hv3]; [by rewrite E2|].
  destruct (inb _ d2) as [bnry d3]. cbn [fst snd] in Hbn, Hv3. rewrite E2 in Hbn, Hv3. cbn in Hbn. subst bnry.
  assert ((if NE_RX_STOP <=? u8 (n_bnry (view d) + 1) then NE_RX_START else u8 (n_bnry (view d) + 1)) = page) as ->.
  { unfold page, rx_page, NE_RX_STOP, NE_RX_START in *. rewrite u8_small by (unfold byte_ok; lia). cmp_cases. }
  assert (NE_RX_START <= page < NE_RX_STOP) as Hpg by (unfold page, rx_page, NE_RX_STOP, NE_RX_START in *; cmp_cases).
  destruct (Z.eqb_spec page cur) as [He|He]; [by rewrite Hv3|].
  assert (u16 (page * 256) = page * 256) as -> by (unfold u16, NE_RX_START, NE_RX_STOP in *; zlia).
  pose proof (remote_read_view (page * 256) 4 d3) as Hh. rewrite Hv3 in Hh. cbn [with_cr n_stop] in Hh. rewrite Hstop in Hh.
  destruct (ne_remote_read (page * 256) 4 d3) as [hdr d4].
  destruct Hh as (-> & (Hm4 & Hb4 & _ & Hs4) & Hp4); [unfold NE_RX_START in *; lia|zlia|lia|unfold NE_RX_START, NE_RX_STOP in *; zlia|done|].
  cbn [with_cr n_ram n_bnry n_stop] in Hm4, Hb4, Hs4 |- *. rewrite Hstop in Hs4. fold ram in Hm4 |- *.
  assert (forall i, (i < 4)%nat -> nth i (ram_bytes ram (page * 256) (Z.to_nat 4)) 0 = ram (page * 256 + Z.of_nat i)) as Hn.
  { intros i Hi. unfold ram_bytes. rewrite (nth_lookup_Some _ _ _ (ram (page * 256 + Z.of_nat i))); [done|].
    by rewrite list_lookup_fmap, lookup_seq_lt by (cbn; lia). }
  rewrite !Hn by lia. change (ram (page * 256 + Z.of_nat 1)) with next. rewrite header_fields by apply (ne_ram _ Hne d).
  change (ram (page * 256 + Z.of_nat 2) + 256 * ram (page * 256 + Z.of_nat 3)) with count.
  assert (n_ram (view (ne_write NE_BNRY NE_RX_START d4)) = ram /\ n_stop (view (ne_write NE_BNRY NE_RX_START d4)) = NE_RX_STOP /\ - ORE_EINVAL = - ORE_EINVAL /\ @nil Z = [] /\
    n_bnry (view (ne_write NE_BNRY NE_RX_START d4)) = NE_RX_START) as Hbad.
  { unfold ne_write. rewrite (ne_bnry_write _ Hne) by done. cbn [with_bnry n_ram n_bnry n_stop]. by rewrite Hm4, Hs4. }
  destruct (Z.leb_spec NE_RX_START next) as [N1|N1], (Z.ltb_spec next NE_RX_START) as [N2|N2]; try lia; cbn [andb orb].
  2: exact Hbad.
  destruct (Z.ltb_spec next NE_RX_STOP) as [N3|N3], (Z.leb_spec NE_RX_STOP next) as [N4|N4]; try lia; cbn [andb orb].
  2: exact Hbad.
  destruct (Z.leb_spec 4 count) as [C1|C1], (Z.ltb_spec count 4) as [C2|C2]; try lia; cbn [andb orb].
  2: exact Hbad.
  destruct (Z.leb_spec count 1600) as [C3|C3], (Z.ltb_spec 1600 count) as [C4|C4]; try lia; cbn [andb orb].
  2: exact Hbad.
  rewrite (u16_small (count - 4)), (u16_small (page * 256 + 4)) by (unfold NE_RX_START, NE_RX_STOP in *; lia).
  set (len := if cap <? count - 4 then u16 cap else count - 4).
  assert (len = Z.min (count - 4) cap /\ 0 <= len <= 1596) as [El Hl].
  { unfold len. destruct (Z.ltb_spec cap (count - 4)); [rewrite u16_small by lia|]; lia. }
  clearbody len. pose proof (ring_copy ram page len Hpg Hl) as Hcopy. cbv zeta in Hcopy.
  rewrite u16_small by (unfold NE_RX_START, NE_RX_STOP in *; lia).
  set (first := NE_RX_STOP * 256 - (page * 256 + 4)) in *.
  pose proof (read_pieces page len d4 Hpg Hl Hs4) as Hrp. cbv zeta in Hrp. rewrite Hm4 in Hrp. fold first in Hrp.
  destruct (if len <=? first then ne_remote_read _ _ _ else _) as [out d5]. destruct Hrp as (-> & (Hm5 & Hb5 & _ & Hs5) & Hp5).
  destruct (new_boundary next (conj N1 N3)) as [B1 B2]. cbv zeta in B1, B2. set (nb := if _ <? NE_RX_START then _ else _) in *.
  unfold ne_write. set (d6 := outb (NE_BASE + NE_BNRY) nb d5).
  assert (view d6 = with_bnry nb (view d5)) as E6 by (by apply (ne_bnry_write _ Hne)).
  rewrite ne_isr_write by (by rewrite E6). rewrite E6. cbn [with_bnry n_ram n_bnry n_stop].
  split; [congruence|]. split; [congruence|]. rewrite <- El. split; [done|]. split; [by rewrite Hcopy|]. split; [exact B1|exact B2].
Qed.
End Chip.

(** ** Example: a chip with a frame across the end of the ring *)

Definition chip_write (port v : Z) (c : nic) : nic :=
  if port =? NE_BASE then with_cr v c else
  if negb (page0 c) then c else
  if port =? NE_BASE + NE_PSTART then with_start v c else
  if port =? NE_BASE + NE_PSTOP then with_stop v c else
  if port =? NE_BASE + NE_BNRY then with_bnry v c else
  if port =? NE_BASE + NE_RSAR0 then with_rsar (n_rsar c / 256 * 256 + v) c else
  if port =? NE_BASE + NE_RSAR1 then with_rsar (v * 256 + n_rsar c mod 256) c else
  if port =? NE_BASE + NE_RBCR0 then with_rbcr (n_rbcr c / 256 * 256 + v) c else
  if port =? NE_BASE + NE_RBCR1 then with_rbcr (v * 256 + n_rbcr c mod 256) c else c.
Definition chip_read (port : Z) (c : nic) : Z :=
  if port =? NE_BASE + NE_BNRY then n_bnry c else
  if port =? NE_BASE + NE_ISR then (if page0 c then NE_ISR_RDC else 0x48) else 0.

(** Without a remote read the data port gives ones. *)
#[export] Instance chip_ports : Ports nic := {
  outb := chip_write;
  outw _ _ c := c;
  inb port c := (chip_read port c, c);
  inw port c :=
    if remote_reading c && (0 <? n_rbcr c) then (u8 (n_ram c (n_rsar c)) + 256 * u8 (n_ram c (n_rsar c + 1)), dma_next c)
    else (0xffff, c);
}.

Definition chip_view (c : nic) : nic := mk_nic (n_cr c) (n_bnry c) (n_rsar c) (n_rbcr c) (n_start c) (n_stop c) (fun a => u8 (n_ram c a)).

Lemma chip_ok : ne2000_ok chip_view.
Proof.
  split.
  - intros v d _ _. reflexivity.
  - intros v d Hp. change (page0 d = true) in Hp. cbn. unfold chip_write. cbn. rewrite Hp. reflexivity.
  - intros v d Hp _. change (page0 d = true) in Hp. cbn. unfold chip_write. cbn. rewrite Hp. reflexivity.
  - intros v d Hp _. change (page0 d = true) in Hp. cbn. unfold chip_write. cbn. rewrite Hp. reflexivity.
  - intros v d Hp _. change (page0 d = true) in Hp. cbn. unfold chip_write. cbn. rewrite Hp. reflexivity.
  - intros v d Hp _. change (page0 d = true) in Hp. cbn. unfold chip_write. cbn. rewrite Hp. reflexivity.
  - intros v d Hp. change (page0 d = true) in Hp. cbn. unfold chip_write. cbn. rewrite Hp. reflexivity.
  - intros v d Hp. change (page0 d = true) in Hp. cbn. unfold chip_write. cbn. rewrite Hp. reflexivity.
  - intros reg v d Hp Hr. change (page0 d = true) in Hp. cbn [outb chip_ports]. unfold chip_write. rewrite Hp.
    repeat (apply elem_of_cons in Hr as [->|Hr]; [reflexivity|]). by apply elem_of_nil in Hr.
  - intros reg v d Hp Hr. change (page0 d = false) in Hp. cbn [outb chip_ports]. unfold chip_write. rewrite Hp.
    rewrite (proj2 (Z.eqb_neq _ _)) by lia. reflexivity.
  - intros d _. split; reflexivity.
  - intros d. reflexivity.
  - intros d Hr Hc _. change (remote_reading d = true) in Hr. change (0 < n_rbcr d) in Hc. cbn [inw chip_ports].
    rewrite Hr, (proj2 (Z.ltb_lt _ _) Hc). split; reflexivity.
  - intros d a. apply u8_bound.
Qed.

(** A header at the last page: next page 0x48, 264 bytes with the header. *)
Definition demo_ram (a : Z) : Z :=
  if a =? 0x7f01 then 0x47 else if a =? 0x7f02 then 8 else if a =? 0x7f03 then 1 else a mod 251.
Definition demo_chip : nic := mk_nic NE_CMD_START 0x7e 0 0 NE_RX_START NE_RX_STOP demo_ram.

Lemma net_recv_correct_witness : exists d',
  net_recv_frame (mk_net true []) 1518 demo_chip =
    (260, frame_bytes (fun a => u8 (demo_ram a)) 0x7f 260, d') /\
  rx_page (n_bnry (chip_view d')) = 0x47.
Proof.
  pose proof (net_recv_correct chip_view chip_ok (mk_net true []) 1518 demo_chip eq_refl ltac:(lia)
    ltac:(unfold NE_RX_START, NE_RX_STOP; cbn; lia) eq_refl) as Hr. cbv zeta in Hr.
  destruct (net_recv_frame _ _ _) as [[r out] d']. destruct Hr as (_ & _ & Hr).
  change (rx_page (n_bnry (chip_view demo_chip))) with 0x7f in Hr.
  change (ne_read NE_CURR (ne_select_page1 demo_chip)).1 with 0x48 in Hr. change (0x7f =? 0x48) with false in Hr.
  change (frame_next (n_ram (chip_view demo_chip)) 0x7f) with 0x47 in Hr.
  change (frame_count (n_ram (chip_view demo_chip)) 0x7f) with 264 in Hr. cbv iota in Hr.
  destruct Hr as (-> & -> & _ & Hp). exists d'. split; [reflexivity|exact Hp].
Defined.
