(* ===== verification/Okmod.v ===== *)
(** Kernel modules (kernel/okmod.c).

    A module file is a header, text and data.  Loading checks the header, places
    the module in fresh pages, makes the text read-only and the rest writable and
    not executable, and calls the module's entry point.  The code of a module is
    not part of the kernel: [run_init] and [run_command] stand for it. *)
From stdpp Require Import base numbers list gmap strings.
From Stdlib Require Import ZArith Lia.
From S2P Require Import Prelude Memory PageAllocator BootInfo Pmm Heap Vmm Process Usermem Elf Loader.
From S2P Require Import Cstring Ports Block Initramfs Vfs UserAlloc Control Syscall.

(** ** Definitions *)

Definition OKMOD_MAX_SIZE : Z := 128 * 1024.
Definition OKMOD_PAGE_SIZE : Z := 4096.
Definition OKMOD_MAX_MODULES : nat := 16.
Definition ORE_KMOD_MAGIC : Z := 0x31444f4d4b45524f.
Definition ORE_KMOD_VERSION : Z := 1.
Definition ORE_KERNEL_ABI_VERSION : Z := 1.

Record OreModuleInfo := mk_module {
  mi_name : list Z; mi_path : list Z; mi_state : Z; mi_abi_version : Z; mi_init_rc : Z;
  mi_text_base : Z; mi_text_size : Z; mi_data_size : Z; mi_has_command : bool;
}.
Definition zero_module : OreModuleInfo := mk_module [] [] 0 0 0 0 0 0 false.

Definition set_mi_state (s : Z) (i : OreModuleInfo) : OreModuleInfo :=
  mk_module (mi_name i) (mi_path i) s (mi_abi_version i) (mi_init_rc i) (mi_text_base i) (mi_text_size i)
    (mi_data_size i) (mi_has_command i).

(** [loaded_modules], [module_table] and [module_commands] (0 is no command). *)
Record okmod_state := mk_okmod { loaded_modules : nat; module_table : list OreModuleInfo; module_commands : list Z }.

Record OreKModHeader := {
  km_magic : Z; km_version : Z; km_header_size : Z; km_kernel_abi_version : Z; km_entry : Z; km_text_size : Z;
  km_data_size : Z; km_bss_size : Z; km_reloc_count : Z; km_import_count : Z; km_export_count : Z;
  km_command_entry : Z; km_name : list Z;
}.
Definition sizeof_OreKModHeader : Z := 120.

Definition read_kmod (m : mem) (a : Z) : OreKModHeader := {|
  km_magic := load64 m a; km_version := load32 m (a + 8); km_header_size := load32 m (a + 12);
  km_kernel_abi_version := load32 m (a + 16); km_entry := load64 m (a + 24); km_text_size := load64 m (a + 32);
  km_data_size := load64 m (a + 40); km_bss_size := load64 m (a + 48); km_reloc_count := load64 m (a + 56);
  km_import_count := load64 m (a + 64); km_export_count := load64 m (a + 72); km_command_entry := load64 m (a + 80);
  km_name := until_nul (load_bytes m (a + 88) 32);
|}.

Definition has_suffix_okmod (s suffix : list Z) : bool :=
  if Nat.ltb (length s) (length suffix) then false
  else str_eq (drop (length s - length suffix) s) suffix.

(** The part after the last '/'. *)
Fixpoint base_name (base path : list Z) : list Z :=
  match path with [] => base | c :: path => base_name (if c =? 47 then path else base) path end.

Fixpoint until_dot (s : list Z) : list Z :=
  match s with [] => [] | c :: s => if c =? 46 then [] else c :: until_dot s end.

Definition module_name_from_path (path : list Z) : list Z := take 31 (until_dot (base_name path path)).

(** [copy_str_okmod] into an array of [cap] bytes. *)
Definition copy_str_okmod (src : list Z) (cap : nat) : list Z := take (cap - 1) src.

Definition kmod_header_ok (hdr : OreKModHeader) : bool :=
  negb (negb (km_magic hdr =? ORE_KMOD_MAGIC) || negb (km_version hdr =? ORE_KMOD_VERSION) ||
        negb (km_kernel_abi_version hdr =? ORE_KERNEL_ABI_VERSION) || (km_header_size hdr <? sizeof_OreKModHeader) ||
        negb (km_reloc_count hdr =? 0) || negb (km_import_count hdr =? 0) || negb (km_export_count hdr =? 0)).

Definition kmod_data_off (hdr : OreKModHeader) : Z := km_header_size hdr +u km_text_size hdr.
Definition kmod_total (hdr : OreKModHeader) : Z := km_text_size hdr +u km_data_size hdr +u km_bss_size hdr.

Definition kmod_layout_ok (hdr : OreKModHeader) (size : Z) : bool :=
  negb ((km_text_size hdr =? 0) || (km_text_size hdr <=? km_entry hdr) ||
        (size <? kmod_data_off hdr +u km_data_size hdr) || (OKMOD_MAX_SIZE <? kmod_total hdr)).

Section Okmod.
Context {S : Type} `{PageAllocator S} {D : Type} `{Ports D}.
Context (run_init : Z -> kernel (S:=S) (D:=D) -> Z * kernel (S:=S) (D:=D)).
Context (run_command : Z -> Z -> Z -> kernel (S:=S) (D:=D) -> Z * kernel (S:=S) (D:=D)).
Implicit Types (k : kernel (S:=S) (D:=D)).

(** The slot being filled: entry [loaded_modules] of the table. *)
Definition set_slot (f : OreModuleInfo -> OreModuleInfo) (om : okmod_state) : okmod_state :=
  mk_okmod (loaded_modules om)
    (<[loaded_modules om := f (nth (loaded_modules om) (module_table om) zero_module)]> (module_table om))
    (module_commands om).

Definition k_mem k : mem := m_mem (k_machine k).

(** The copy of text and data and the zeroed rest. *)
Definition place_module (mem_ file pages : Z) (hdr : OreKModHeader) (m : mem) : mem :=
  let m := mem_zero mem_ (pages * OKMOD_PAGE_SIZE) m in
  let m := mem_copy mem_ (file + km_header_size hdr) (km_text_size hdr) m in
  let m := mem_copy (mem_ + km_text_size hdr) (file + kmod_data_off hdr) (km_data_size hdr) m in
  mem_zero (mem_ + km_text_size hdr + km_data_size hdr) (km_bss_size hdr) m.

(** The protection of text, then of the rest. *)
Definition protect_module (mem_ pages : Z) (hdr : OreKModHeader) k : eff (Z * kernel (S:=S) (D:=D)) :=
  match vmm_protect (k_kernel_pml4 k) mem_ (km_text_size hdr) VMM_PRESENT (k_machine k) with
  | Panic msg => Some (Panic msg)
  | Ok (r, st) =>
      if r <? 0 then ret (-1, with_machine st k) else
      if km_text_size hdr <? pages * OKMOD_PAGE_SIZE then
        match vmm_protect (k_kernel_pml4 k) (mem_ + km_text_size hdr) (pages * OKMOD_PAGE_SIZE - km_text_size hdr)
                (Z.lor VMM_PRESENT (Z.lor VMM_WRITE VMM_NX)) st with
        | Panic msg => Some (Panic msg)
        | Ok (_, st) => ret (0, with_machine st k)
        end
      else ret (0, with_machine st k)
  end.

Definition free_module_pages (mem_ pages : Z) k : kernel :=
  with_machine (mk_machine (pa_free_pages mem_ pages (m_pages (k_machine k))) (m_mem (k_machine k))) k.

(** From the entry point to the result, once the module is in place. *)
Definition start_module (fuel : nat) (mem_ file pages : Z) (hdr : OreKModHeader) (om : okmod_state) k
  : eff (Z * okmod_state * kernel) :=
  let '(rc, k) := run_init (mem_ + km_entry hdr) k in
  let has_command := negb (km_command_entry hdr =? 0xffffffffffffffff) && (km_command_entry hdr <? km_text_size hdr) in
  let om := set_slot (fun i => mk_module (mi_name i) (mi_path i) (mi_state i) (mi_abi_version i) rc mem_
              (km_text_size hdr) (km_data_size hdr) (has_command || mi_has_command i)) om in
  let om := if has_command
            then mk_okmod (loaded_modules om) (module_table om)
                   (<[loaded_modules om := mem_ + km_command_entry hdr]> (module_commands om)) else om in
  if rc <? 0 then
    let om := set_slot (set_mi_state 4) om in
    let k := free_module_pages mem_ pages k in
    let! k := krelease fuel file k in ret (-1, om, k)
  else
    let om := set_slot (set_mi_state 3) om in
    let om := mk_okmod (Datatypes.S (loaded_modules om)) (module_table om) (module_commands om) in
    let! k := krelease fuel file k in ret (0, om, k).

(** From the file in memory to the result: the slot of the table, the checks of the
    header, fresh pages, protection and the start. *)
Definition install_module (fuel : nat) (path : list Z) (file size : Z) (om : okmod_state) k : eff (Z * okmod_state * kernel) :=
  let hdr := read_kmod (k_mem k) file in
  let name := if (sizeof_OreKModHeader <=? km_header_size hdr) && negb (char_at (km_name hdr) 0 =? 0)
              then copy_str_okmod (km_name hdr) 32 else module_name_from_path path in
  let om := set_slot (fun _ => mk_module name (copy_str_okmod path 128) 2 (km_kernel_abi_version hdr) 0 0 0 0 false) om in
  if negb (kmod_header_ok hdr) then
    let! k := krelease fuel file k in ret (-1, set_slot (set_mi_state 4) om, k) else
  if negb (kmod_layout_ok hdr size) then
    let! k := krelease fuel file k in ret (-1, set_slot (set_mi_state 4) om, k) else
  let pages := u32 ((kmod_total hdr +u OKMOD_PAGE_SIZE - 1) / OKMOD_PAGE_SIZE) in
  let '(mem_, s, m) := pa_alloc_pages pages (m_pages (k_machine k)) (m_mem (k_machine k)) in
  let k := with_machine (mk_machine s m) k in
  if mem_ =? 0 then let! k := krelease fuel file k in ret (-1, om, k) else
  let k := with_machine (mk_machine s (place_module mem_ file pages hdr m)) k in
  let! (r, k) := protect_module mem_ pages hdr k in
  if r <? 0 then
    let k := free_module_pages mem_ pages k in
    let! k := krelease fuel file k in ret (-1, set_slot (set_mi_state 4) om, k) else
  start_module fuel mem_ file pages hdr om k.

Definition okmod_load_one (fuel : nat) (path : list Z) (om : okmod_state) k : eff (Z * okmod_state * kernel) :=
  if Nat.leb OKMOD_MAX_MODULES (loaded_modules om) then ret (-1, om, k) else
  let '(r, st) := vfs_stat (k_vfs k) (k_initramfs k) path in
  if r <? 0 then ret (-1, om, k) else
  if negb (vs_type st =? ORE_VFS_FILE) || (vs_size st <? sizeof_OreKModHeader) || (OKMOD_MAX_SIZE <? vs_size st)
  then ret (-1, om, k) else
  let! (file, k) := kalloc fuel (vs_size st) k in
  if file =? 0 then ret (-1, om, k) else
  let! (n, out, h, d) := vfs_read_file fuel (k_vfs k) (k_blocks k) (k_initramfs k) path (vs_size st)
                           (kheap k) (k_dev k) in
  let k := fill_buffer file out (with_dev d (with_heap h k)) in
  if negb (n =? vs_size st) then let! k := krelease fuel file k in ret (-1, om, k) else
  install_module fuel path file (vs_size st) om k.

Definition module_path (name : list Z) : list Z := take 159 (bytes_of "/disk/kernel/"%string ++ name).

(** The loop of [okmod_init] from directory index [i]; [n] iterations of fuel. *)
Fixpoint okmod_init_loop (n : nat) (fuel : nat) (i : Z) (om : okmod_state) k : eff (okmod_state * kernel) :=
  match n with
  | O => None
  | Datatypes.S n =>
      let '(r, st) := vfs_readdir_path (k_vfs k) (k_initramfs k) (Some (bytes_of "/disk/kernel"%string)) i in
      if negb (r =? 0) then ret (om, k) else
      if negb (vs_type st =? ORE_VFS_FILE) || negb (has_suffix_okmod (vs_name st) (bytes_of ".okmod"%string))
      then okmod_init_loop n fuel (u32 (i + 1)) om k else
      let! (_, om, k) := okmod_load_one fuel (module_path (vs_name st)) om k in
      okmod_init_loop n fuel (u32 (i + 1)) om k
  end.

Definition okmod_init (n fuel : nat) k : eff (okmod_state * kernel) :=
  okmod_init_loop n fuel 0 (mk_okmod 0 (replicate OKMOD_MAX_MODULES zero_module) (replicate OKMOD_MAX_MODULES 0)) k.

Definition okmod_count (om : okmod_state) : Z := Z.of_nat (loaded_modules om).

Definition okmod_info (index : Z) (om : okmod_state) : option OreModuleInfo :=
  if Z.of_nat (loaded_modules om) <=? index then None
  else Some (nth (Z.to_nat index) (module_table om) zero_module).

(** The first loaded module with a command of that name, from entry [i]. *)
Fixpoint find_command (n i : nat) (name : list Z) (om : okmod_state) : option Z :=
  match n with
  | O => None
  | Datatypes.S n =>
      let e := nth i (module_table om) zero_module in
      let c := nth i (module_commands om) 0 in
      if mi_has_command e && str_eq (mi_name e) name && negb (c =? 0) then Some c
      else find_command n (Datatypes.S i) name om
  end.

(** [out] is the address of the buffer, or 0. *)
Definition okmod_run_command (name : list Z) (out out_len : Z) (om : okmod_state) k : Z * kernel :=
  if char_at name 0 =? 0 then (-1, k) else
  let k := if negb (out =? 0) && negb (out_len =? 0)
           then with_machine (with_machine_mem (k_machine k) (store8 (k_mem k) out 0)) k else k in
  match find_command (loaded_modules om) 0 name om with
  | Some c => run_command c out out_len k
  | None => (-1, k)
  end.
End Okmod.

(** ** Gaps of the checks *)

(** The sums of the layout check wrap: a header that claims 2^64 - 8 bytes of
    data passes for a file of 200 bytes. *)
Lemma kmod_layout_wraps :
  let hdr := {| km_magic := ORE_KMOD_MAGIC; km_version := 1; km_header_size := 120; km_kernel_abi_version := 1;
    km_entry := 0; km_text_size := 16; km_data_size := 18446744073709551608; km_bss_size := 0; km_reloc_count := 0;
    km_import_count := 0; km_export_count := 0; km_command_entry := 0; km_name := [] |} in
  kmod_header_ok hdr && kmod_layout_ok hdr 200 = true /\ 200 < km_data_size hdr.
Proof. split; [reflexivity|reflexivity]. Qed.

(** Pages are protected whole: when the text does not end at a page boundary the
    second call of [protect_module], which makes its range not executable,
    reaches the page of the last bytes of the text. *)
Lemma text_end_not_executable mem_ pages text :
  mem_ mod PAGE_SIZE = 0 -> 0 < text < pages * OKMOD_PAGE_SIZE -> text mod PAGE_SIZE <> 0 ->
  in_pages (mem_ + text) (pages * OKMOD_PAGE_SIZE - text) (mem_ + text - 1) = true.
Proof.
  unfold in_pages, OKMOD_PAGE_SIZE, PAGE_SIZE. intros Hm Ht Hn. apply andb_true_iff.
  rewrite Z.leb_le, Z.ltb_lt. zlia.
Qed.
