(* ===== verification/Terrain.v ===== *)
(** Terrain renderer (kernel/terrain.c).

    A job is rendered into a buffer of 640 x 480 colour indices.  The columns are
    divided among the processors: the caller renders the first slice, other
    processors that poll render theirs, and after a bounded wait the caller
    renders the slices that are not marked done.  [rstep] is that protocol at the
    granularity of single stores; [parallel_render] shows that the picture does
    not depend on the interleaving, and [late_worker] that a slow processor can
    still store into the buffer after the call has returned.

    Arithmetic on [int32_t] wraps, as the unoptimised code of the kernel does;
    [/] on it truncates. *)
From stdpp Require Import base numbers list gmap relations.
From Stdlib Require Import ZArith Lia.
From S2P Require Import Prelude Usermem.

Definition TERRAIN_W : Z := 640.
Definition TERRAIN_H : Z := 480.
Definition TERRAIN_MAX_WORKERS : Z := 8.

Record OreTerrainJob := mk_job {
  j_seed : Z; j_frame : Z; j_camera_x : Z; j_camera_y : Z; j_camera_z : Z; j_yaw : Z; j_pitch : Z;
  j_speed : Z; j_flags : Z; j_reserved : Z }.

(** [buffer[i]]. *)
Abbreviation buffer := (gmap Z Z).
Definition put (i c : Z) (b : buffer) : buffer := <[i := c]> b.

Definition idiv (a b : Z) : Z := Z.quot a b.
Notation "x +i y" := (s32 (x + y)) (at level 50, left associativity).
Notation "x -i y" := (s32 (x - y)) (at level 50, left associativity).
Notation "x *i y" := (s32 (x * y)) (at level 40, left associativity).

Definition terrain_hash (x : Z) : Z :=
  let x := Z.lxor x (Z.shiftr x 16) in
  let x := u32 (x * 0x7feb352d) in
  let x := Z.lxor x (Z.shiftr x 15) in
  let x := u32 (x * 0x846ca68b) in
  Z.lxor x (Z.shiftr x 16).

Definition terrain_noise (x z seed : Z) : Z :=
  let h := terrain_hash (Z.lxor (Z.lxor (u32 (u32 x * 73856093)) (u32 (u32 z * 19349663))) (u32 seed)) in
  Z.land h 255 - 128.

(** ** Rectangles *)

Definition draw_row (x0 w py color : Z) (b : buffer) : buffer :=
  for_loop (Z.to_nat w) 0 (fun x b =>
    let px := x0 +i x in
    if (px <? 0) || (TERRAIN_W <=? px) then b else put (py * TERRAIN_W + px) color b) b.

Definition draw_rect (x0 y0 w h color : Z) (b : buffer) : buffer :=
  for_loop (Z.to_nat h) 0 (fun y b =>
    let py := y0 +i y in
    if (py <? 0) || (TERRAIN_H <=? py) then b else draw_row x0 w py color b) b.

(** ** Sky *)

Definition horizon_of (job : OreTerrainJob) : Z := 154 + idiv (j_pitch job) 24.

Definition sky_color (y : Z) : Z := if y <? 58 then 1 else if y <? 124 then 2 else 3.

(** [for (y = y0; y < y1; ++y)] for unsigned bounds. *)
Definition count (y0 y1 : Z) : nat := Z.to_nat (y1 - y0).

Definition clear_sky (job : OreTerrainJob) (y0 y1 : Z) (b : buffer) : buffer :=
  let horizon := horizon_of job in
  let b := for_loop (count y0 y1) y0 (fun y b =>
    for_loop (Z.to_nat TERRAIN_W) 0 (fun x b => put (y * TERRAIN_W + x) (sky_color y) b) b) b in
  if (y0 <? u32 horizon) && (u32 (horizon - 34) <? y1) then
    let start := if u32 (horizon - 34) <? y0 then y0 else u32 (horizon - 34) in
    let end_ := if y1 <? u32 horizon then y1 else u32 horizon in
    for_loop (count start end_) start (fun y b =>
      for_loop (Z.to_nat TERRAIN_W) 0 (fun x b =>
        let mx := x -i 320 +i idiv (j_yaw job) 7 in
        let peak := horizon -i 12 -i idiv (terrain_noise (idiv mx 42) 11 (j_seed job)) 5 in
        if peak <=? s32 y then put (y * TERRAIN_W + x) 7 b else b) b) b
  else b.

(** ** Ground *)

Definition row_step (dy : Z) : Z := if dy <? 95 then 3 else if dy <? 185 then 2 else 1.

(** The colour of column [x] in the band of rows that starts at [y]. *)
Definition voxel_color (job : OreTerrainJob) (y x : Z) : Z :=
  let dy := s32 y -i horizon_of job +i 1 in
  let depth := idiv 36000 (dy + 10) in
  let wz := j_camera_z job +i depth *i 12 in
  let curve := idiv (terrain_noise (idiv wz 330) 17 (j_seed job) *i dy) 150 in
  let center := 320 +i idiv (j_yaw job) 2 +i curve in
  let half := 10 +i idiv (dy *i dy) 360 in
  let half := if 305 <? half then 305 else half in
  let bank := idiv (j_yaw job) 12 in
  let ground := if (235 <? dy) && (Z.land (u32 (idiv wz 160)) 1 =? 0) then 5 else 4 in
  let shoulder := if 170 <? dy then 9 else 6 in
  let water := if Z.land (u32 (u32 (idiv wz 80) + y / 7)) 1 =? 0 then 14 else 3 in
  let grid := if Z.land (u32 (idiv wz 96)) 7 =? 0 then 15 else 0 in
  let sx := s32 x -i center -i bank in
  let inside := (- half <? sx) && (sx <? half) in
  let c := if inside then water
           else if (- half - 22 <? sx) && (sx <? half + 22) then shoulder else ground in
  let c := if negb (grid =? 0) && (45 <? dy) then if inside then 15 else 9 else c in
  let lane1 := idiv (- half * 2) 3 in
  let lane2 := idiv (half * 2) 3 in
  let c := if ((lane1 - 1 <=? sx) && (sx <=? lane1 + 1)) || ((lane2 - 1 <=? sx) && (sx <=? lane2 + 1)) then 8 else c in
  if ((-2 <=? sx) && (sx <=? 2)) || ((- half - 2 <=? sx) && (sx <=? - half + 2)) ||
     ((half - 2 <=? sx) && (sx <=? half + 2)) then 15 else c.

(** The stores for column [x] of the band at [y]. *)
Definition put_column (job : OreTerrainJob) (y y_step x : Z) (b : buffer) : buffer :=
  let c := voxel_color job y x in
  let b := put (y * TERRAIN_W + x) c b in
  let b := if (y_step =? 2) && (y + 1 <? TERRAIN_H) then put ((y + 1) * TERRAIN_W + x) c b else b in
  let b := if (y_step =? 3) && (y + 1 <? TERRAIN_H) then put ((y + 1) * TERRAIN_W + x) c b else b in
  if (y_step =? 3) && (y + 2 <? TERRAIN_H) then put ((y + 2) * TERRAIN_W + x) c b else b.

(** Every band has at least one row, so [TERRAIN_H] turns are enough. *)
Fixpoint voxel_rows (fuel : nat) (job : OreTerrainJob) (x0 x1 y : Z) (b : buffer) : buffer :=
  match fuel with
  | O => b
  | Datatypes.S fuel =>
      if y <? TERRAIN_H then
        let y_step := row_step (s32 y -i horizon_of job +i 1) in
        let b := for_loop (count x0 x1) x0 (put_column job y y_step) b in
        voxel_rows fuel job x0 x1 (y + y_step) b
      else b
  end.

Definition render_voxel_slice (job : OreTerrainJob) (x0 x1 : Z) (b : buffer) : buffer :=
  voxel_rows (Z.to_nat TERRAIN_H) job x0 x1 (u32 (horizon_of job)) b.

Definition slice_start (worker workers : Z) : Z := TERRAIN_W * worker / workers.
Definition render_slice (job : OreTerrainJob) (worker workers : Z) (b : buffer) : buffer :=
  render_voxel_slice job (slice_start worker workers) (slice_start (worker + 1) workers) b.

(** ** Objects *)

Definition draw_object (kind x y size : Z) (b : buffer) : buffer :=
  if kind =? 0 then
    draw_rect (x -i size) (y -i size * 4) (size * 2 + 2) (size * 2) 5
      (draw_rect x (y -i size * 3) (idiv size 2 + 1) (size * 3) 6 b)
  else if kind =? 1 then
    draw_rect (x +i idiv size 2) (y -i idiv size 2) (idiv size 2 + 1) (idiv size 2 + 1) 8
      (draw_rect (x -i size) y (size * 2 + 1) (idiv size 2 + 1) 15 b)
  else if kind =? 2 then
    draw_rect (x +i size) (y -i size * 2) (size + 5) (idiv size 2 + 1) 12
      (draw_rect (x -i idiv size 2) (y -i size * 2) size size 12
        (draw_rect (x -i size) (y -i size) (size * 2 + 2) size 12 b))
  else draw_rect (x -i idiv size 2) (y -i idiv size 2) (size + 1) (size + 1) 7 b.

(** Object [i]: the buffer and the number of objects drawn. *)
Definition draw_object_i (job : OreTerrainJob) (y0 y1 i : Z) (s : buffer * Z) : buffer * Z :=
  let '(b, objects) := s in
  let h := terrain_hash (Z.lxor (u32 (j_seed job)) (u32 (i * 977))) in
  let dz := Z.land h 4095 - Z.land (j_camera_z job) 4095 in
  let dz := (if dz <? 0 then dz + 4096 else dz) + 90 in
  let world_x := Z.land (Z.shiftr h 11) 2047 - 1024 in
  let world_x := if (-150 <? world_x) && (world_x <? 150)
                 then world_x + (if world_x <? 0 then -190 else 190) else world_x in
  let x := 320 +i idiv (j_yaw job) 3 +i idiv ((world_x -i idiv (j_camera_x job) 3) *i 280) dz in
  let y := 158 + idiv (j_pitch job) 24 +i 18 +i idiv 36000 dz in
  let size := 3 + idiv 1500 dz in
  let size := if 28 <? size then 28 else size in
  if (u32 (u32 y + u32 (size * 3)) <? y0) || (y1 <=? u32 y) then s else
  (draw_object (Z.shiftr h 24 mod 4) x y size b, u32 (objects + 1)).

Definition draw_objects_for_slice (job : OreTerrainJob) (y0 y1 : Z) (b : buffer) : buffer * Z :=
  for_loop 42 0 (draw_object_i job y0 y1) (b, 0).

(** ** The call *)

Record OreTerrainResult := mk_result {
  res_workers_used : Z; res_objects_rendered : Z; res_collision_flags : Z; res_reserved : Z; res_checksum : Z }.

Definition worker_count (cpus : Z) : Z :=
  let workers := if cpus =? 0 then 1 else cpus in
  if TERRAIN_MAX_WORKERS <? workers then TERRAIN_MAX_WORKERS else workers.

(** [for (i = 0; i < len; i += 97)]. *)
Definition checksum_step (b : buffer) (i : Z) (checksum : Z) : Z :=
  Z.lxor checksum (default 0 (b !! (i * 97))) *u 1099511628211.
Definition buffer_checksum (len : Z) (b : buffer) : Z :=
  for_loop (Z.to_nat ((len + 96) / 97)) 0 (checksum_step b) 1469598103934665603.

(** Sky, ground and objects. *)
Definition terrain_picture (workers : Z) (job : OreTerrainJob) (b : buffer) : buffer * Z :=
  let b := clear_sky job 0 TERRAIN_H b in
  let b := for_loop (Z.to_nat workers) 0 (fun cpu => render_slice job cpu workers) b in
  draw_objects_for_slice job 0 TERRAIN_H b.

(** [terrain_render_user], the slices in the order of the processors; the timer
    is not modelled.  That the other processors' stores do not change the picture
    is [parallel_render]. *)
Definition terrain_render_user (cpus : Z) (job : OreTerrainJob) (b : buffer) (len : Z)
  : Z * buffer * option OreTerrainResult :=
  if negb (len =? TERRAIN_W * TERRAIN_H) then (- ORE_EINVAL, b, None) else
  let workers := worker_count cpus in
  let '(b, objects) := terrain_picture workers job b in
  (0, b, Some (mk_result workers objects 0 0 (buffer_checksum len b))).

(** ** The protocol *)

(** The stores of a slice, in order. *)
Definition column_writes (job : OreTerrainJob) (y y_step x : Z) : list (Z * Z) :=
  let c := voxel_color job y x in
  [(y * TERRAIN_W + x, c)] ++
  (if (y_step =? 2) && (y + 1 <? TERRAIN_H) then [((y + 1) * TERRAIN_W + x, c)] else []) ++
  (if (y_step =? 3) && (y + 1 <? TERRAIN_H) then [((y + 1) * TERRAIN_W + x, c)] else []) ++
  (if (y_step =? 3) && (y + 2 <? TERRAIN_H) then [((y + 2) * TERRAIN_W + x, c)] else []).

Definition columns (x0 x1 : Z) : list Z := seqZ x0 (Z.of_nat (count x0 x1)).

Fixpoint rows_writes (fuel : nat) (job : OreTerrainJob) (x0 x1 y : Z) : list (Z * Z) :=
  match fuel with
  | O => []
  | Datatypes.S fuel =>
      if y <? TERRAIN_H then
        let y_step := row_step (s32 y -i horizon_of job +i 1) in
        concat (map (column_writes job y y_step) (columns x0 x1)) ++ rows_writes fuel job x0 x1 (y + y_step)
      else []
  end.
Definition range_writes (job : OreTerrainJob) (x0 x1 : Z) : list (Z * Z) :=
  rows_writes (Z.to_nat TERRAIN_H) job x0 x1 (u32 (horizon_of job)).
Definition slice_writes (job : OreTerrainJob) (worker workers : Z) : list (Z * Z) :=
  range_writes job (slice_start worker workers) (slice_start (worker + 1) workers).

Definition apply_writes (ws : list (Z * Z)) (b : buffer) : buffer := fold_left (fun b w => put (fst w) (snd w) b) ws b.

(** Where the caller is: rendering slice [k] with the stores that are left,
    waiting, looking for slices that are not done from [cpu] on, or finished. *)
Inductive caller :=
| Rendering (k : Z) (ws : list (Z * Z))
| Waiting
| Taking (cpu : Z)
| Returned.

(** [terrain_job] with the buffer, the caller and the processors that are inside
    [render_slice] with the stores that are left. *)
Record rstate := mk_rs {
  rs_buffer : buffer; rs_active : bool; rs_started : Z; rs_done : Z;
  rs_caller : caller; rs_workers : gmap Z (list (Z * Z)) }.

Section Protocol.
Context (job : OreTerrainJob) (workers : Z).

Inductive rstep : rstate -> rstate -> Prop :=
| caller_store b a st d k i c ws w :
    rstep (mk_rs b a st d (Rendering k ((i, c) :: ws)) w) (mk_rs (put i c b) a st d (Rendering k ws) w)
| caller_first b a st d w :
    rstep (mk_rs b a st d (Rendering 0 []) w) (mk_rs b a st (Z.lor d 1) Waiting w)
| caller_wait b a st d w : rstep (mk_rs b a st d Waiting w) (mk_rs b a st d (Taking 1) w)
| caller_skip b a st d w cpu :
    cpu < workers -> Z.testbit d cpu = true ->
    rstep (mk_rs b a st d (Taking cpu) w) (mk_rs b a st d (Taking (cpu + 1)) w)
| caller_take b a st d w cpu :
    cpu < workers -> Z.testbit d cpu = false ->
    rstep (mk_rs b a st d (Taking cpu) w)
          (mk_rs b a (Z.lor st (Z.shiftl 1 cpu)) d (Rendering cpu (slice_writes job cpu workers)) w)
| caller_taken b a st d w cpu :
    0 < cpu -> rstep (mk_rs b a st d (Rendering cpu []) w) (mk_rs b a st (Z.lor d (Z.shiftl 1 cpu)) (Taking (cpu + 1)) w)
| caller_return b a st d w cpu :
    workers <= cpu ->
    rstep (mk_rs b a st d (Taking cpu) w)
          (mk_rs (fst (draw_objects_for_slice job 0 TERRAIN_H b)) false st d Returned w)
| worker_poll b st d cl w cpu :
    0 < cpu < workers -> cpu < TERRAIN_MAX_WORKERS -> Z.testbit d cpu = false -> w !! cpu = None ->
    rstep (mk_rs b true st d cl w)
          (mk_rs b true (Z.lor st (Z.shiftl 1 cpu)) d cl (<[cpu := slice_writes job cpu workers]> w))
| worker_store b a st d cl w cpu i c ws :
    w !! cpu = Some ((i, c) :: ws) -> rstep (mk_rs b a st d cl w) (mk_rs (put i c b) a st d cl (<[cpu := ws]> w))
| worker_done b a st d cl w cpu :
    w !! cpu = Some [] ->
    rstep (mk_rs b a st d cl w) (mk_rs b a st (Z.lor d (Z.shiftl 1 cpu)) cl (delete cpu w)).

(** The sky is painted, the job is active and the caller starts its slice; no other
    processor is inside a slice. *)
Definition render_started (b : buffer) : rstate :=
  mk_rs (clear_sky job 0 TERRAIN_H b) true 1 0 (Rendering 0 (slice_writes job 0 workers)) ∅.
End Protocol.

(** ** Stores of a slice *)

Lemma apply_writes_app ws ws' b : apply_writes (ws ++ ws') b = apply_writes ws' (apply_writes ws b).
Proof. apply fold_left_app. Qed.

Lemma apply_writes_snoc ws i c b : apply_writes (ws ++ [(i, c)]) b = <[i := c]> (apply_writes ws b).
Proof. by rewrite apply_writes_app. Qed.

Lemma put_column_writes job y y_step x b : put_column job y y_step x b = apply_writes (column_writes job y y_step x) b.
Proof.
  unfold put_column, column_writes. cbv zeta. rewrite !apply_writes_app.
  by destruct (_ && _), (_ && _), (_ && _).
Qed.

Lemma for_loop_writes (f : Z -> buffer -> buffer) (g : Z -> list (Z * Z)) n x b :
  (forall x b, f x b = apply_writes (g x) b) ->
  for_loop n x f b = apply_writes (concat (map g (seqZ x (Z.of_nat n)))) b.
Proof.
  intros Hf. revert x b. induction n as [|n IH]; intros x b; cbn [for_loop]; [done|].
  rewrite seqZ_cons by lia. cbn [map concat]. rewrite apply_writes_app, IH, Hf.
  by replace (Z.pred (Z.of_nat (Datatypes.S n))) with (Z.of_nat n) by lia.
Qed.

Lemma render_range_writes job x0 x1 b : render_voxel_slice job x0 x1 b = apply_writes (range_writes job x0 x1) b.
Proof.
  unfold render_voxel_slice, range_writes. generalize (u32 (horizon_of job)) as y.
  induction (Z.to_nat TERRAIN_H) as [|fuel IH] in b |- *; intros y; cbn [voxel_rows rows_writes]; [done|].
  destruct (y <? TERRAIN_H); [|done]. cbv zeta. rewrite apply_writes_app, IH.
  f_equal. apply for_loop_writes. intros. apply put_column_writes.
Qed.

Lemma render_slice_writes job k workers b :
  render_slice job k workers b = apply_writes (slice_writes job k workers) b.
Proof. unfold render_slice, slice_writes. apply render_range_writes. Qed.

(** A store of the band at [y] in column [x]. *)
Lemma column_writes_elem job y y_step x i c :
  0 <= x < TERRAIN_W -> 1 <= y_step <= 3 -> y < TERRAIN_H -> (i, c) ∈ column_writes job y y_step x ->
  c = voxel_color job y x /\ i mod TERRAIN_W = x /\ y <= i / TERRAIN_W < y + y_step /\ i / TERRAIN_W < TERRAIN_H.
Proof.
  intros Hx Hs Hy H. assert (exists k, 0 <= k < y_step /\ y + k < TERRAIN_H /\ i = (y + k) * TERRAIN_W + x /\ c = voxel_color job y x)
    as (k & Hk & Hk' & -> & ->).
  { unfold column_writes in H. rewrite !elem_of_app in H. destruct H as [H | [H | [H | H]]].
    - apply list_elem_of_singleton in H as [= -> ->]. exists 0. rewrite Z.add_0_r. split; [lia|done].
    - destruct (Z.eqb_spec y_step 2), (Z.ltb_spec (y + 1) TERRAIN_H); simpl in H; try by apply elem_of_nil in H.
      apply list_elem_of_singleton in H as [= -> ->]. exists 1. split; [lia|done].
    - destruct (Z.eqb_spec y_step 3), (Z.ltb_spec (y + 1) TERRAIN_H); simpl in H; try by apply elem_of_nil in H.
      apply list_elem_of_singleton in H as [= -> ->]. exists 1. split; [lia|done].
    - destruct (Z.eqb_spec y_step 3), (Z.ltb_spec (y + 2) TERRAIN_H); simpl in H; try by apply elem_of_nil in H.
      apply list_elem_of_singleton in H as [= -> ->]. exists 2. split; [lia|done]. }
  unfold TERRAIN_W in *. split; [done|]. rewrite Z.div_add_l, Z.div_small by lia.
  split; [rewrite Z.add_comm, Z_mod_plus_full; apply Z.mod_small; lia|lia].
Qed.

Lemma row_step_range dy : 1 <= row_step dy <= 3.
Proof. unfold row_step. destruct (_ <? _); [lia|]. destruct (_ <? _); lia. Qed.

Lemma columns_elem x0 x1 x : x ∈ columns x0 x1 <-> x0 <= x < x1.
Proof. unfold columns, count. rewrite elem_of_seqZ. lia. Qed.

(** The bands of rows. *)
Fixpoint bands (fuel : nat) (job : OreTerrainJob) (y : Z) : list Z :=
  match fuel with
  | O => []
  | Datatypes.S fuel =>
      if y <? TERRAIN_H then y :: bands fuel job (y + row_step (s32 y -i horizon_of job +i 1)) else []
  end.

Definition band_writes (job : OreTerrainJob) (y x : Z) : list (Z * Z) :=
  column_writes job y (row_step (s32 y -i horizon_of job +i 1)) x.

Lemma rows_writes_elem fuel job x0 x1 y w :
  w ∈ rows_writes fuel job x0 x1 y <-> exists y' x, y' ∈ bands fuel job y /\ x0 <= x < x1 /\ w ∈ band_writes job y' x.
Proof.
  revert y. induction fuel as [|fuel IH]; intros y; cbn [rows_writes bands].
  { split; [intros []%elem_of_nil|intros (? & ? & []%elem_of_nil & _)]. }
  destruct (y <? TERRAIN_H); [|split; [intros []%elem_of_nil|intros (? & ? & []%elem_of_nil & _)]].
  cbv zeta. rewrite elem_of_app, IH. split.
  - intros [H | (y' & x & H1 & H2 & H3)].
    + apply list_elem_of_In, in_concat in H as (l & Hl & Hw). apply in_map_iff in Hl as (x & <- & Hx).
      exists y, x. split; [left|]. split; [by apply columns_elem, list_elem_of_In|]. by apply list_elem_of_In.
    + exists y', x. split; [by right|done].
  - intros (y' & x & [-> | H1]%elem_of_cons & H2 & H3); [left|right; by exists y', x].
    apply list_elem_of_In, in_concat. exists (band_writes job y x). split; [|by apply list_elem_of_In].
    apply in_map_iff. exists x. split; [done|]. by apply list_elem_of_In, columns_elem.
Qed.

Lemma bands_range fuel job y y' : y' ∈ bands fuel job y -> y <= y' < TERRAIN_H.
Proof.
  revert y. induction fuel as [|fuel IH]; intros y; cbn [bands]; [by intros []%elem_of_nil|].
  destruct (Z.ltb_spec y TERRAIN_H); [|by intros []%elem_of_nil].
  intros [-> | H']%elem_of_cons; [lia|]. apply IH in H'. pose proof (row_step_range (s32 y -i horizon_of job +i 1)). lia.
Qed.

(** Different bands have different rows. *)
Lemma bands_disjoint fuel job y y1 y2 r :
  y1 ∈ bands fuel job y -> y2 ∈ bands fuel job y ->
  y1 <= r < y1 + row_step (s32 y1 -i horizon_of job +i 1) -> y2 <= r < y2 + row_step (s32 y2 -i horizon_of job +i 1) ->
  y1 = y2.
Proof.
  revert y. induction fuel as [|fuel IH]; intros y; cbn [bands]; [by intros []%elem_of_nil|].
  destruct (y <? TERRAIN_H); [|by intros []%elem_of_nil].
  intros [-> | H1]%elem_of_cons [-> | H2]%elem_of_cons Hr1 Hr2; [done| | |by eapply IH].
  - apply bands_range in H2. lia.
  - apply bands_range in H1. lia.
Qed.

(** All stores of the picture; each place is stored with one colour. *)
Definition picture_writes (job : OreTerrainJob) : list (Z * Z) := range_writes job 0 TERRAIN_W.

Lemma range_writes_elem job x0 x1 i c :
  0 <= x0 -> x1 <= TERRAIN_W -> (i, c) ∈ range_writes job x0 x1 <-> (i, c) ∈ picture_writes job /\ x0 <= i mod TERRAIN_W < x1.
Proof.
  intros H0 H1. unfold picture_writes, range_writes. rewrite !rows_writes_elem. split.
  - intros (y & x & Hy & Hx & Hw). split; [exists y, x; split; [done|]; split; [lia|done]|].
    apply bands_range in Hy. apply column_writes_elem in Hw as (_ & <- & _); [done|lia|apply row_step_range|lia].
  - intros [(y & x & Hy & Hx & Hw) Hi]. exists y, x. split; [done|]. split; [|done].
    apply bands_range in Hy. apply column_writes_elem in Hw as (_ & <- & _); [done|lia|apply row_step_range|lia].
Qed.

Lemma picture_functional job i c c' : (i, c) ∈ picture_writes job -> (i, c') ∈ picture_writes job -> c = c'.
Proof.
  unfold picture_writes, range_writes. rewrite !rows_writes_elem.
  intros (y1 & x1 & Hy1 & Hx1 & H1) (y2 & x2 & Hy2 & Hx2 & H2).
  pose proof (bands_range _ _ _ _ Hy1). pose proof (bands_range _ _ _ _ Hy2).
  apply column_writes_elem in H1 as (-> & <- & Hr1 & _); [|lia|apply row_step_range|lia].
  apply column_writes_elem in H2 as (-> & <- & Hr2 & _); [|lia|apply row_step_range|lia].
  by rewrite (bands_disjoint _ _ _ _ _ _ Hy1 Hy2 Hr1 Hr2).
Qed.

Lemma u32_nonneg z : 0 <= u32 z.
Proof. unfold u32. apply Z.mod_pos_bound. lia. Qed.

Lemma picture_in_bounds job i c : (i, c) ∈ picture_writes job -> 0 <= i < TERRAIN_W * TERRAIN_H.
Proof.
  unfold picture_writes, range_writes. rewrite rows_writes_elem. intros (y & x & Hy & Hx & Hw).
  apply bands_range in Hy. apply column_writes_elem in Hw as (_ & Hm & Hr & Hh); [|lia|apply row_step_range|lia].
  pose proof (u32_nonneg (horizon_of job)). unfold TERRAIN_W, TERRAIN_H in *. zlia.
Qed.

(** From here on only the elements of these lists matter. *)
#[local] Opaque rows_writes voxel_rows.

(** ** Slices *)

Section Slices.
Context (workers : Z) (Hw : 1 <= workers <= TERRAIN_MAX_WORKERS).

Lemma slice_start_mono k : 0 <= k -> 0 <= slice_start k workers <= slice_start (k + 1) workers.
Proof.
  intros Hk. unfold slice_start, TERRAIN_W. split; [apply Z.div_pos; lia|]. apply Z.div_le_mono; lia.
Qed.

Lemma slice_start_end : slice_start workers workers = TERRAIN_W.
Proof. unfold slice_start. apply Z.div_mul. lia. Qed.

Lemma slice_start_le k : 0 <= k <= workers -> 0 <= slice_start k workers <= TERRAIN_W.
Proof.
  intros Hk. unfold slice_start, TERRAIN_W. split; [apply Z.div_pos; lia|]. apply Z.div_le_upper_bound; lia.
Qed.

(** Every column is in a slice. *)
Lemma slice_of_column x : 0 <= x < TERRAIN_W ->
  exists k, 0 <= k < workers /\ slice_start k workers <= x < slice_start (k + 1) workers.
Proof.
  intros Hx. assert (forall n, x < slice_start (Z.of_nat n) workers ->
    exists k, 0 <= k < Z.of_nat n /\ slice_start k workers <= x < slice_start (k + 1) workers) as H.
  { induction n as [|n IH]; intros Hn; [unfold slice_start in Hn; simpl in Hn; rewrite Z.mul_0_r, Zdiv_0_l in Hn; lia|].
    destruct (Z.ltb_spec x (slice_start (Z.of_nat n) workers)) as [Hlt|Hge].
    - destruct (IH Hlt) as (k & Hk & Hr). exists k. split; [lia|done].
    - exists (Z.of_nat n). split; [lia|]. split; [done|]. by replace (Z.of_nat n + 1) with (Z.of_nat (Datatypes.S n)) by lia. }
  destruct (H (Z.to_nat workers)) as (k & Hk & Hr); [rewrite Z2Nat.id by lia; rewrite slice_start_end; lia|].
  exists k. split; [lia|done].
Qed.

Lemma slice_writes_elem job k i c :
  0 <= k < workers -> (i, c) ∈ slice_writes job k workers <->
  (i, c) ∈ picture_writes job /\ slice_start k workers <= i mod TERRAIN_W < slice_start (k + 1) workers.
Proof.
  intros Hk. unfold slice_writes. apply range_writes_elem; [apply slice_start_mono; lia|apply slice_start_le; lia].
Qed.

(** Every store of the picture belongs to a slice. *)
Lemma picture_slice job i c :
  (i, c) ∈ picture_writes job -> exists k, 0 <= k < workers /\ (i, c) ∈ slice_writes job k workers.
Proof.
  intros Hi. destruct (slice_of_column (i mod TERRAIN_W)) as (k & Hk & Hr); [apply Z.mod_pos_bound; done|].
  exists k. split; [done|]. by apply slice_writes_elem.
Qed.
End Slices.

(** ** Pictures *)

(** [b] is the picture of [job] over the background [b0]. *)
Definition painted (job : OreTerrainJob) (b0 b : buffer) : Prop :=
  (forall i c, (i, c) ∈ picture_writes job -> b !! i = Some c) /\
  (forall i, (forall c, (i, c) ∉ picture_writes job) -> b !! i = b0 !! i).

(** Stores of the picture only. *)
Definition of_picture (job : OreTerrainJob) (ws : list (Z * Z)) : Prop := forall w, w ∈ ws -> w ∈ picture_writes job.

Lemma apply_writes_lookup job ws b i :
  of_picture job ws ->
  (forall c, (i, c) ∈ ws -> apply_writes ws b !! i = Some c) /\
  ((forall c, (i, c) ∉ ws) -> apply_writes ws b !! i = b !! i).
Proof.
  revert b. induction ws as [|[j d] ws IH] using rev_ind; intros b Hp; [split; [by intros c []%elem_of_nil|done]|].
  rewrite apply_writes_snoc.
  destruct (IH b) as [IH1 IH2]; [intros w Hw; apply Hp, elem_of_app; by left|].
  destruct (decide (i = j)) as [->|Hne].
  - rewrite lookup_insert_eq. split.
    + intros c Hc. f_equal. apply (picture_functional job j); apply Hp; [|done]. apply elem_of_app. right. by left.
    + intros Hn. destruct (Hn d). apply elem_of_app. right. by left.
  - rewrite lookup_insert_ne by done. split.
    + intros c [Hc | Hc]%elem_of_app; [by apply IH1|]. apply list_elem_of_singleton in Hc. congruence.
    + intros Hn. apply IH2. intros c Hc. apply (Hn c), elem_of_app. by left.
Qed.

Lemma painted_unique job b0 b1 b2 : painted job b0 b1 -> painted job b0 b2 -> b1 = b2.
Proof.
  intros [A1 A2] [B1 B2]. apply map_eq. intros i.
  destruct (decide (i ∈ map fst (picture_writes job))) as [Hi|Hi].
  - apply list_elem_of_fmap in Hi as ([j c] & -> & Hi). cbn [fst]. by rewrite (A1 _ _ Hi), (B1 _ _ Hi).
  - rewrite A2, B2; [done|..]; intros c Hc; apply Hi, list_elem_of_fmap; by exists (i, c).
Qed.

Lemma render_painted job b : painted job b (render_voxel_slice job 0 TERRAIN_W b).
Proof.
  rewrite render_range_writes. fold (picture_writes job). split.
  - intros i c Hc. by apply (proj1 (apply_writes_lookup job _ b i (fun w H => H))).
  - intros i Hn. by apply (proj2 (apply_writes_lookup job _ b i (fun w H => H))).
Qed.

Lemma slices_painted job workers b :
  1 <= workers <= TERRAIN_MAX_WORKERS ->
  painted job b (for_loop (Z.to_nat workers) 0 (fun cpu => render_slice job cpu workers) b).
Proof.
  intros Hw. rewrite (for_loop_writes _ (fun k => slice_writes job k workers)) by (intros; apply render_slice_writes).
  rewrite Z2Nat.id by lia. set (ws := concat _).
  assert (forall i c, (i, c) ∈ ws <-> (i, c) ∈ picture_writes job) as Hws.
  { intros i c. unfold ws. rewrite (list_elem_of_In (concat _)), in_concat. split.
    - intros (l & Hl & Hi). apply in_map_iff in Hl as (k & <- & Hk).
      apply list_elem_of_In, elem_of_seqZ in Hk. apply list_elem_of_In, (slice_writes_elem workers Hw) in Hi; [apply Hi|lia].
    - intros Hi. destruct (picture_slice workers Hw job i c Hi) as (k & Hk & Hi').
      exists (slice_writes job k workers). split; [|by apply list_elem_of_In]. apply in_map_iff. exists k.
      split; [done|]. apply list_elem_of_In, elem_of_seqZ. lia. }
  assert (of_picture job ws) as Hp by (intros [i c] H; by apply Hws). split.
  - intros i c Hc. apply (proj1 (apply_writes_lookup job ws b i Hp)). by apply Hws.
  - intros i Hn. apply (proj2 (apply_writes_lookup job ws b i Hp)). intros c Hc. apply (Hn c). by apply Hws.
Qed.

(** ** Interleavings *)

#[local] Opaque picture_writes slice_writes range_writes.

Section Interleavings.
Context (job : OreTerrainJob) (workers : Z) (Hw : 1 <= workers <= TERRAIN_MAX_WORKERS) (b0 : buffer).

(** Processor [k] has [ws] left of its slice. *)
Definition progress (b : buffer) (k : Z) (ws : list (Z * Z)) : Prop :=
  0 <= k < workers /\ (forall w, w ∈ ws -> w ∈ slice_writes job k workers) /\
  (forall i c, (i, c) ∈ slice_writes job k workers -> (i, c) ∈ ws \/ b !! i = Some c).

Definition slice_done (b : buffer) (k : Z) : Prop :=
  forall i c, (i, c) ∈ slice_writes job k workers -> b !! i = Some c.

Definition caller_ok (b : buffer) (d : Z) (cl : caller) : Prop :=
  match cl with
  | Rendering k ws => progress b k ws /\ (forall j, 0 <= j < k -> Z.testbit d j = true)
  | Waiting => Z.testbit d 0 = true
  | Taking cpu => 1 <= cpu /\ (forall j, 0 <= j < cpu -> Z.testbit d j = true)
  | Returned => False
  end.

(** Until the caller returns. *)
Record rendering (s : rstate) : Prop := mk_rendering {
  rd_background : forall i, (forall c, (i, c) ∉ picture_writes job) -> rs_buffer s !! i = b0 !! i;
  rd_done : forall k, 0 <= k < workers -> Z.testbit (rs_done s) k = true -> slice_done (rs_buffer s) k;
  rd_caller : caller_ok (rs_buffer s) (rs_done s) (rs_caller s);
  rd_workers : forall k ws, rs_workers s !! k = Some ws -> progress (rs_buffer s) k ws
}.

Lemma progress_start b k : 0 <= k < workers -> progress b k (slice_writes job k workers).
Proof. intros Hk. split; [done|]. split; [done|]. by left. Qed.

Lemma progress_picture b k ws w : progress b k ws -> w ∈ ws -> w ∈ picture_writes job.
Proof.
  intros (Hk & Hin & _) Hws. apply Hin in Hws. destruct w. by apply (slice_writes_elem workers Hw) in Hws as [? _].
Qed.

(** A store of the picture keeps what is painted. *)
Lemma put_kept b i c i' c' :
  (i, c) ∈ picture_writes job -> (i', c') ∈ picture_writes job -> b !! i' = Some c' -> put i c b !! i' = Some c'.
Proof.
  intros H H' Hb. unfold put. destruct (decide (i = i')) as [->|]; [|by rewrite lookup_insert_ne].
  rewrite lookup_insert_eq. f_equal. by apply (picture_functional job i').
Qed.

Lemma slice_picture k i c : 0 <= k < workers -> (i, c) ∈ slice_writes job k workers -> (i, c) ∈ picture_writes job.
Proof. intros Hk H. by apply (slice_writes_elem workers Hw) in H as [? _]. Qed.

Lemma progress_put b i c k ws : (i, c) ∈ picture_writes job -> progress b k ws -> progress (put i c b) k ws.
Proof.
  intros Hi (Hk & Hin & Hout). split; [done|]. split; [done|]. intros i' c' H'.
  destruct (Hout i' c' H') as [|Hb]; [by left|right]. apply put_kept; [exact Hi|exact (slice_picture k i' c' Hk H')|exact Hb].
Qed.

(** Processor [k] performs its next store. *)
Lemma progress_store b i c k ws : progress b k ((i, c) :: ws) -> progress (put i c b) k ws.
Proof.
  intros Hp. pose proof (progress_picture _ _ _ (i, c) Hp (list_elem_of_here _ _)) as Hi.
  pose proof (progress_put b i c k _ Hi Hp) as (Hk & Hin & Hout). split; [done|].
  split; [intros w Hwi; apply Hin; by right|]. intros i' c' H'.
  destruct (Hout i' c' H') as [[E | Ho]%elem_of_cons|]; [|by left|by right].
  right. injection E as -> ->. unfold put. apply lookup_insert_eq.
Qed.

Lemma progress_end b k : progress b k [] -> slice_done b k.
Proof. intros (_ & _ & Hout) i c Hi. destruct (Hout i c Hi) as [[]%elem_of_nil|]; done. Qed.

Lemma slice_done_put b i c k : 0 <= k < workers -> (i, c) ∈ picture_writes job -> slice_done b k -> slice_done (put i c b) k.
Proof. intros Hk Hi Hd i' c' H'. apply put_kept; [exact Hi|exact (slice_picture k i' c' Hk H')|exact (Hd i' c' H')]. Qed.

Lemma caller_ok_put b i c d cl : (i, c) ∈ picture_writes job -> caller_ok b d cl -> caller_ok (put i c b) d cl.
Proof. intros Hi. destruct cl; cbn [caller_ok]; [|exact id..]. intros [Hp Hd]. split; [by apply progress_put|done]. Qed.

(** The state after a store of the picture, but for the processor that did it. *)
Lemma rendering_put s i c :
  (i, c) ∈ picture_writes job -> rendering s ->
  rendering (mk_rs (put i c (rs_buffer s)) (rs_active s) (rs_started s) (rs_done s) (rs_caller s) (rs_workers s)).
Proof.
  intros Hi [Hb Hd Hc Hk]. constructor; cbn [rs_buffer rs_done rs_caller rs_workers].
  - intros j Hj. unfold put. rewrite lookup_insert_ne; [by apply Hb|]. intros ->. by apply (Hj c).
  - intros k Hk' Hbit. apply slice_done_put; [done..|]. by apply Hd.
  - by apply caller_ok_put.
  - intros k ws Hws. apply progress_put; [done|]. by apply Hk.
Qed.

Lemma testbit_lor_shift d k j : 0 <= k -> 0 <= j ->
  Z.testbit (Z.lor d (Z.shiftl 1 k)) j = Z.testbit d j || (j =? k).
Proof.
  intros Hk Hj. rewrite Z.lor_spec. f_equal. rewrite Z.shiftl_1_l.
  destruct (Z.eqb_spec j k) as [->|]; [by apply Z.pow2_bits_true|by apply Z.pow2_bits_false].
Qed.

Lemma caller_ok_done b d k cl : 0 <= k -> caller_ok b d cl -> caller_ok b (Z.lor d (Z.shiftl 1 k)) cl.
Proof.
  intros Hk. destruct cl; cbn [caller_ok]; [|intros H..|exact id].
  - intros [Hp Hd]. split; [done|]. intros j Hj. rewrite testbit_lor_shift by lia. by rewrite Hd.
  - rewrite testbit_lor_shift by lia. by rewrite H.
  - destruct H as [H1 H2]. split; [done|]. intros j Hj. rewrite testbit_lor_shift by lia. by rewrite H2.
Qed.

(** Slice [k] is marked done. *)
Lemma rendering_done s k :
  rendering s -> 0 <= k < workers -> slice_done (rs_buffer s) k ->
  rendering (mk_rs (rs_buffer s) (rs_active s) (rs_started s) (Z.lor (rs_done s) (Z.shiftl 1 k)) (rs_caller s) (rs_workers s)).
Proof.
  intros [Hb Hd Hc Hws] Hk Hsd. constructor; cbn [rs_buffer rs_done rs_caller rs_workers]; [exact Hb| |apply caller_ok_done; [lia|exact Hc]|exact Hws].
  intros j Hj. rewrite testbit_lor_shift by lia. intros [Hbit | ->%Z.eqb_eq]%orb_prop; [by apply Hd|done].
Qed.

(** Other fields. *)
Lemma rendering_with s a st cl w :
  rendering s -> caller_ok (rs_buffer s) (rs_done s) cl ->
  (forall k ws, w !! k = Some ws -> progress (rs_buffer s) k ws) ->
  rendering (mk_rs (rs_buffer s) a st (rs_done s) cl w).
Proof. intros [] Hc Hk. by constructor. Qed.

Lemma rendering_step s s' :
  rendering s -> rstep job workers s s' -> rs_caller s' = Returned \/ rendering s'.
Proof.
  intros Hr Hs. destruct Hs; [..|by left| | |]; right; pose proof Hr as [Hb Hd Hc Hk]; cbn [rs_buffer rs_done rs_caller rs_workers caller_ok] in Hb, Hd, Hc, Hk.
  - destruct Hc as [Hp Hj]. pose proof (progress_picture _ _ _ (i, c) Hp (list_elem_of_here _ _)) as Hi.
    pose proof (rendering_put _ i c Hi Hr) as Hr'. apply (rendering_with _ a st (Rendering k ws) w) in Hr'; [done| |apply Hr'].
    split; [by apply progress_store|done].
  - destruct Hc as [Hp _]. pose proof (rendering_done _ 0 Hr ltac:(lia) (progress_end _ _ Hp)) as Hr'.
    change (Z.shiftl 1 0) with 1 in Hr'. apply (rendering_with _ a st Waiting w) in Hr'; [done| |apply Hr'].
    cbn [caller_ok rs_done]. rewrite Z.lor_spec. by rewrite orb_true_r.
  - apply (rendering_with _ a st (Taking 1) w Hr); [|done]. split; [lia|]. intros j Hj. by replace j with 0 by lia.
  - destruct Hc as [H1 H2]. apply (rendering_with _ a st (Taking (cpu + 1)) w Hr); [|done]. split; [lia|].
    intros j Hj. destruct (decide (j = cpu)) as [->|]; [done|]. apply H2. lia.
  - destruct Hc as [H1 H2]. apply (rendering_with _ a (Z.lor st (Z.shiftl 1 cpu)) (Rendering cpu (slice_writes job cpu workers)) w Hr);
      [|done]. split; [apply progress_start; lia|done].
  - destruct Hc as [Hp Hj]. destruct Hp as (Hcpu & Hp'). pose proof (rendering_done _ cpu Hr Hcpu (progress_end _ _ (conj Hcpu Hp'))) as Hr'.
    apply (rendering_with _ a st (Taking (cpu + 1)) w) in Hr'; [done| |apply Hr'].
    split; [lia|]. cbn [rs_done]. intros j Hj'. rewrite testbit_lor_shift by lia.
    destruct (Z.eqb_spec j cpu) as [->|]; [by rewrite orb_true_r|]. rewrite Hj by lia. done.
  - apply (rendering_with _ true (Z.lor st (Z.shiftl 1 cpu)) cl (<[cpu:=slice_writes job cpu workers]> w) Hr); [done|].
    intros k ws Hkw. destruct (decide (k = cpu)) as [->|Hne].
    + rewrite lookup_insert_eq in Hkw. injection Hkw as <-. apply progress_start. lia.
    + rewrite lookup_insert_ne in Hkw by done. by apply Hk.
  - pose proof (Hk _ _ H) as Hp. pose proof (progress_picture _ _ _ (i, c) Hp (list_elem_of_here _ _)) as Hi.
    pose proof (rendering_put _ i c Hi Hr) as Hr'. apply (rendering_with _ a st cl (<[cpu:=ws]> w)) in Hr'; [done|apply Hr'|].
    intros k ws' Hkw. destruct (decide (k = cpu)) as [->|Hne].
    + rewrite lookup_insert_eq in Hkw. injection Hkw as <-. by apply progress_store.
    + rewrite lookup_insert_ne in Hkw by done. by apply (rd_workers _ Hr').
  - pose proof (Hk _ _ H) as Hp. pose proof (rendering_done _ cpu Hr (proj1 Hp) (progress_end _ _ Hp)) as Hr'.
    apply (rendering_with _ a st cl (delete cpu w)) in Hr'; [done|apply Hr'|].
    intros k ws' Hkw. apply lookup_delete_Some in Hkw as [_ Hkw]. by apply Hk.
Qed.
End Interleavings.

Lemma rendering_reachable job workers b s :
  1 <= workers <= TERRAIN_MAX_WORKERS -> rtc (rstep job workers) (render_started job workers b) s ->
  rs_caller s = Returned \/ rendering job workers (clear_sky job 0 TERRAIN_H b) s.
Proof.
  intros Hw. revert s. refine (rtc_ind_r _ _ _ _); [|intros s s' _ Hstep IH].
  - right. constructor; cbn [render_started rs_buffer rs_done rs_caller rs_workers caller_ok]; [done| | |].
    + intros k _ Hbit. by rewrite Z.bits_0 in Hbit.
    + split; [apply progress_start; lia|lia].
    + intros k ws Hk. by rewrite lookup_empty in Hk.
  - destruct IH as [IH|IH]; [left|by eapply rendering_step]. inversion Hstep; subst; cbn [rs_caller] in *; congruence.
Qed.

Lemma worker_count_range cpus : 0 <= cpus -> 1 <= worker_count cpus <= TERRAIN_MAX_WORKERS.
Proof.
  intros Hc. unfold worker_count. destruct (Z.eqb_spec cpus 0); cbv zeta; unfold TERRAIN_MAX_WORKERS in *;
    destruct (_ <? _) eqn:E; lia.
Qed.

(** C26: the picture does not depend on how the processors interleave during one call
    that starts while no other processor is inside a slice of an earlier call: whenever
    the caller has gone through all slices, however the stores of the other
    processors were mixed with its own and whichever slices it had to render
    itself, the buffer is exactly the one of the sequential loop over the slices,
    which is that of one slice over all columns.  (A call can return with a processor
    still inside its slice, see [late_worker].) *)
Theorem parallel_render cpus job b s cpu :
  let workers := worker_count cpus in
  let sky := clear_sky job 0 TERRAIN_H b in
  0 <= cpus -> rtc (rstep job workers) (render_started job workers b) s ->
  rs_caller s = Taking cpu -> workers <= cpu ->
  rs_buffer s = for_loop (Z.to_nat workers) 0 (fun k => render_slice job k workers) sky /\
  rs_buffer s = render_voxel_slice job 0 TERRAIN_W sky.
Proof.
  intros workers sky Hc Hs Ht Hcpu. pose proof (worker_count_range cpus Hc) as Hw. fold workers in Hw.
  destruct (rendering_reachable job workers b s Hw Hs) as [E|[Hb Hd Hcl _]]; [congruence|].
  rewrite Ht in Hcl. destruct Hcl as [_ Hall].
  assert (painted job sky (rs_buffer s)) as Hp.
  { split; [|exact Hb]. intros i c Hi. destruct (picture_slice workers Hw job i c Hi) as (k & Hk & Hi').
    apply (Hd k Hk); [apply Hall; lia|exact Hi']. }
  split; (eapply painted_unique; [exact Hp|]); [by apply slices_painted|apply render_painted].
Qed.

(** ** Bounds *)

Definition outside (i : Z) : Prop := ~ (0 <= i < TERRAIN_W * TERRAIN_H).

Lemma put_outside i j c b : outside i -> 0 <= j < TERRAIN_W * TERRAIN_H -> put j c b !! i = b !! i.
Proof. intros Hi Hj. unfold put. apply lookup_insert_ne. intros ->. by apply Hi. Qed.

Lemma loop_outside n j (f : Z -> buffer -> buffer) i (b : buffer) :
  (forall k (b : buffer), j <= k < j + Z.of_nat n -> f k b !! i = b !! i) -> for_loop n j f b !! i = b !! i.
Proof.
  revert j b. induction n as [|n IH]; intros j b Hf; cbn [for_loop]; [done|].
  rewrite IH by (intros; apply Hf; lia). apply Hf. lia.
Qed.

Lemma draw_rect_outside i x0 y0 w h color b : outside i -> draw_rect x0 y0 w h color b !! i = b !! i.
Proof.
  intros Hi. unfold draw_rect, draw_row. apply loop_outside. intros y b' _.
  cbv zeta. destruct ((y0 +i y <? 0) || _) eqn:Ey; [done|]. apply loop_outside. intros x b'' _.
  destruct ((x0 +i x <? 0) || _) eqn:Ex; [done|]. apply put_outside; [done|].
  apply orb_false_elim in Ey as [Ey1%Z.ltb_ge Ey2%Z.leb_gt]. apply orb_false_elim in Ex as [Ex1%Z.ltb_ge Ex2%Z.leb_gt].
  unfold TERRAIN_W, TERRAIN_H in *. lia.
Qed.

Lemma clear_sky_outside i job b : outside i -> clear_sky job 0 TERRAIN_H b !! i = b !! i.
Proof.
  intros Hi. assert (forall y x c b, 0 <= y < TERRAIN_H -> 0 <= x < TERRAIN_W -> put (y * TERRAIN_W + x) c b !! i = b !! i) as Hp.
  { intros. apply put_outside; [done|]. unfold TERRAIN_W, TERRAIN_H in *. lia. }
  unfold clear_sky. cbv zeta. set (b1 := for_loop (count 0 TERRAIN_H) _ _ _).
  assert (b1 !! i = b !! i) as H1.
  { apply loop_outside. intros y b' Hy. apply loop_outside. intros x b'' Hx.
    apply Hp; unfold count, TERRAIN_H, TERRAIN_W in *; lia. }
  destruct (_ && _); [|done]. rewrite <- H1. clearbody b1. clear H1.
  pose proof (u32_nonneg (horizon_of job - 34)).
  apply loop_outside. intros y b' Hy. apply loop_outside. intros x b'' Hx.
  destruct (_ <=? _); [|done]. apply Hp; [|unfold TERRAIN_W in *; lia].
  revert Hy. unfold count. destruct (_ <? 0), (Z.ltb_spec TERRAIN_H (u32 (horizon_of job))); lia.
Qed.

Lemma draw_object_outside i kind x y size b : outside i -> draw_object kind x y size b !! i = b !! i.
Proof.
  intros Hi. unfold draw_object. destruct (kind =? 0); [by rewrite !draw_rect_outside|].
  destruct (kind =? 1); [by rewrite !draw_rect_outside|]. destruct (kind =? 2); by rewrite !draw_rect_outside.
Qed.

Lemma draw_objects_outside i job y0 y1 b : outside i -> fst (draw_objects_for_slice job y0 y1 b) !! i = b !! i.
Proof.
  intros Hi. unfold draw_objects_for_slice.
  rewrite (for_loop_proj (fun s : buffer * Z => fst s !! i)); [done|]. intros j [b' n]. unfold draw_object_i. cbv zeta.
  destruct (_ || _); [done|]. cbn [fst]. by apply draw_object_outside.
Qed.

Lemma terrain_picture_outside i workers job b :
  1 <= workers <= TERRAIN_MAX_WORKERS -> outside i -> fst (terrain_picture workers job b) !! i = b !! i.
Proof.
  intros Hw Hi. unfold terrain_picture. cbv zeta. rewrite draw_objects_outside by exact Hi.
  destruct (slices_painted job workers (clear_sky job 0 TERRAIN_H b) Hw) as [_ Hp].
  rewrite (Hp i); [by apply clear_sky_outside|]. intros c Hi'. by apply Hi, (picture_in_bounds job i c).
Qed.

Lemma slice_in_bounds job workers k i c :
  1 <= workers <= TERRAIN_MAX_WORKERS -> 0 <= k < workers -> (i, c) ∈ slice_writes job k workers ->
  0 <= i < TERRAIN_W * TERRAIN_H.
Proof.
  intros Hw Hk Hi. apply (slice_writes_elem _ Hw) in Hi as [Hi _]; [|done]. by apply picture_in_bounds in Hi.
Qed.

(** a rendering call stores inside of the buffer it is given: it is refused
    without a store unless the length is that of the picture, and otherwise no
    byte outside of the picture changes; neither does a store of any slice, in
    any interleaving, go outside. *)
Theorem terrain_in_bounds cpus job b len r b' result :
  0 <= cpus -> terrain_render_user cpus job b len = (r, b', result) ->
  (r = 0 <-> len = TERRAIN_W * TERRAIN_H) /\ (r <> 0 -> r = - ORE_EINVAL /\ b' = b /\ result = None) /\
  (forall i, ~ (0 <= i < TERRAIN_W * TERRAIN_H) -> b' !! i = b !! i) /\
  (forall k i c, 0 <= k < worker_count cpus -> (i, c) ∈ slice_writes job k (worker_count cpus) ->
     0 <= i < TERRAIN_W * TERRAIN_H).
Proof.
  intros Hc. pose proof (worker_count_range cpus Hc) as Hw. unfold terrain_render_user.
  pose proof (fun i => terrain_picture_outside i (worker_count cpus) job b Hw) as Hout.
  destruct (terrain_picture (worker_count cpus) job b) as [b2 n]. generalize (buffer_checksum len b2).
  intros sum E. pose proof (fun k i c => slice_in_bounds job (worker_count cpus) k i c Hw) as Hin.
  destruct (Z.eqb_spec len (TERRAIN_W * TERRAIN_H)) as [El|El]; cbn [negb] in E; injection E as <- <- <-.
  - split; [done|]. split; [done|]. split; [exact Hout|exact Hin].
  - split; [done|]. split; [done|]. split; [done|exact Hin].
Qed.

(** ** A slow processor *)

Lemma caller_stores job workers b a st d k ws w : exists b',
  rtc (rstep job workers) (mk_rs b a st d (Rendering k ws) w) (mk_rs b' a st d (Rendering k []) w).
Proof.
  revert b. induction ws as [|[i c] ws IH]; intros b; [exists b; apply rtc_refl|].
  destruct (IH (put i c b)) as [b' Hb]. exists b'. eapply rtc_l; [apply caller_store|exact Hb].
Qed.

(** Two processors: the other one polls, and the bounded wait of the caller ends
    before it has made any store, so the caller renders both slices. *)
Lemma slow_path job b : exists b',
  rtc (rstep job 2) (render_started job 2 b) (mk_rs b' true 3 3 (Taking 2) {[1 := slice_writes job 1 2]}).
Proof.
  unfold render_started. set (ws := slice_writes job 1 2).
  destruct (caller_stores job 2 (clear_sky job 0 TERRAIN_H b) true 3 0 0 (slice_writes job 0 2) {[1 := ws]}) as [b1 H1].
  destruct (caller_stores job 2 b1 true 3 1 1 ws {[1 := ws]}) as [b2 H2]. exists b2.
  eapply rtc_l; [apply (worker_poll job 2 _ 1 0 _ _ 1); done|].
  change (Z.lor 1 (Z.shiftl 1 1)) with 3. rewrite insert_empty.
  etransitivity; [exact H1|]. eapply rtc_l; [apply caller_first|]. change (Z.lor 0 1) with 1.
  eapply rtc_l; [apply caller_wait|]. eapply rtc_l; [apply caller_take; [lia|reflexivity]|].
  change (Z.lor 3 (Z.shiftl 1 1)) with 3. etransitivity; [exact H2|]. apply rtc_once, caller_taken. lia.
Qed.

(** The call can then return while the other processor still has all its stores
    to do. *)
Theorem late_worker job b : exists s,
  rtc (rstep job 2) (render_started job 2 b) s /\
  rs_caller s = Returned /\ rs_workers s !! 1 = Some (slice_writes job 1 2).
Proof.
  destruct (slow_path job b) as [b' H]. eexists. split; [|split].
  - eapply rtc_r; [exact H|]. apply caller_return. lia.
  - reflexivity.
  - apply lookup_singleton_eq.
Qed.

(** ** Examples *)

Definition demo_job : OreTerrainJob := mk_job 7 0 0 0 100 30 24 0 0 0.

(** The stores of two columns of its second slice. *)
Example demo_columns_stores : (100 <? Z.of_nat (length (range_writes demo_job 320 322))) = true.
Proof. vm_compute. reflexivity. Qed.

Lemma parallel_render_witness : exists s,
  rtc (rstep demo_job 2) (render_started demo_job 2 ∅) s /\ rs_workers s <> ∅ /\
  rs_buffer s = render_voxel_slice demo_job 0 TERRAIN_W (clear_sky demo_job 0 TERRAIN_H ∅).
Proof.
  destruct (slow_path demo_job ∅) as [b' H]. eexists. split; [exact H|]. split; [apply map_non_empty_singleton|].
  apply (parallel_render 2 demo_job ∅ _ 2); [lia|exact H|reflexivity|vm_compute; discriminate].
Defined.

Lemma terrain_in_bounds_witness : exists b' result,
  terrain_render_user 4 demo_job ∅ 307200 = (0, b', result) /\
  forall i, ~ (0 <= i < TERRAIN_W * TERRAIN_H) -> b' !! i = None.
Proof.
  destruct (terrain_render_user 4 demo_job ∅ 307200) as [[r b'] result] eqn:E.
  destruct (terrain_in_bounds 4 demo_job ∅ 307200 r b' result ltac:(lia) E) as (Hr & _ & Hout & _).
  exists b', result. rewrite (proj2 Hr eq_refl). split; [reflexivity|]. intros i Hi. rewrite (Hout i Hi). apply lookup_empty.
Defined.
