(* ===== verification/Acpi.v ===== *)
(** ACPI tables (kernel/acpi.c).

    [acpi_init] follows the root pointer to the root table, finds the first table
    with the signature APIC and reads the processors and the address of the
    interrupt controller from it.  Tables are bytes of memory. *)
From stdpp Require Import base numbers list.
From Stdlib Require Import ZArith Lia.
From S2P Require Import Prelude Memory.

Definition MAX_CPUS : Z := 64.

(** Sizes of the packed structures and offsets of the fields that are read. *)
Definition sizeof_SdtHeader : Z := 36.
Definition sizeof_Madt : Z := 44.
Definition rsdp_revision (m : mem) (a : Z) : Z := load8 m (a + 15).
Definition rsdp_rsdt_address (m : mem) (a : Z) : Z := load32 m (a + 16).
Definition rsdp_xsdt_address (m : mem) (a : Z) : Z := load64 m (a + 24).
Definition sdt_length (m : mem) (a : Z) : Z := load32 m (a + 4).
Definition madt_lapic_addr (m : mem) (a : Z) : Z := load32 m (a + 36).

(** [cpu_apic_ids] up to [cpu_count_value], and [lapic_base_value]. *)
Record acpi_state := mk_acpi { cpu_apic_ids : list Z; lapic_base_value : Z }.

Definition cpu_count_value (s : acpi_state) : Z := Z.of_nat (length (cpu_apic_ids s)).

Definition sig_eq (m : mem) (a : Z) (sig : list Z) : bool :=
  bool_decide (map (fun i => load8 m (a + i)) [0; 1; 2; 3] = sig).
Definition SIG_APIC : list Z := [65; 80; 73; 67].
Definition SIG_XSDT : list Z := [88; 83; 68; 84].

Definition acpi_checksum (m : mem) (p len : Z) : Z :=
  for_loop (Z.to_nat len) 0 (fun i sum => u8 (sum + load8 m (p + i))) 0.

(** One entry of the table at [p]. *)
Definition madt_entry (m : mem) (p : Z) (s : acpi_state) : acpi_state :=
  let type := load8 m p in
  let len := load8 m (p + 1) in
  if (type =? 0) && (8 <=? len) then
    let apic_id := load8 m (p + 3) in
    let flags := load32 m (p + 4) in
    if negb (Z.land flags 1 =? 0) && (cpu_count_value s <? MAX_CPUS)
    then mk_acpi (cpu_apic_ids s ++ [apic_id]) (lapic_base_value s) else s
  else if (type =? 5) && (12 <=? len) then mk_acpi (cpu_apic_ids s) (load64 m (p + 4))
  else s.

(** [None] is the model running out of fuel. *)
Fixpoint madt_loop (fuel : nat) (m : mem) (p end_ : Z) (s : acpi_state) : option acpi_state :=
  match fuel with
  | O => None
  | S fuel =>
      if p + 2 <=? end_ then
        let len := load8 m (p + 1) in
        if (len <? 2) || (end_ <? p + len) then Some s
        else madt_loop fuel m (p + len) end_ (madt_entry m p s)
      else Some s
  end.

Definition parse_madt (m : mem) (madt : Z) (s : acpi_state) : option acpi_state :=
  let length := sdt_length m madt in
  if negb (acpi_checksum m madt length =? 0) then Some s else
  madt_loop (S (Z.to_nat length)) m (madt + sizeof_Madt) (madt + length)
    (mk_acpi (cpu_apic_ids s) (madt_lapic_addr m madt)).

(** The tables of the root table from entry [i] on. *)
Fixpoint root_loop (n : nat) (m : mem) (entry_base entry_size i : Z) (s : acpi_state) : option acpi_state :=
  match n with
  | O => Some s
  | S n =>
      let addr := if entry_size =? 8 then load64 m (entry_base + u32 (i * 8)) else load32 m (entry_base + u32 (i * 4)) in
      if sig_eq m addr SIG_APIC then parse_madt m addr s
      else root_loop n m entry_base entry_size (i + 1) s
  end.

Definition root_table (m : mem) (rsdp : Z) : Z :=
  if (2 <=? rsdp_revision m rsdp) && negb (rsdp_xsdt_address m rsdp =? 0)
  then rsdp_xsdt_address m rsdp else rsdp_rsdt_address m rsdp.

Definition acpi_init (m : mem) (rsdp_addr : Z) (s : acpi_state) : option acpi_state :=
  let s := mk_acpi [] (lapic_base_value s) in
  if rsdp_addr =? 0 then Some s else
  let root := root_table m rsdp_addr in
  if (root =? 0) || negb (acpi_checksum m root (sdt_length m root) =? 0) then Some s else
  let entry_size := if sig_eq m root SIG_XSDT then 8 else 4 in
  let entries := (sdt_length m root -u sizeof_SdtHeader) / entry_size in
  root_loop (Z.to_nat (u32 entries)) m (root + sizeof_SdtHeader) entry_size 0 s.

Definition acpi_cpu_count (s : acpi_state) : Z := cpu_count_value s.
Definition acpi_cpu_apic_id (s : acpi_state) (index : Z) : Z :=
  if index <? cpu_count_value s then nth (Z.to_nat index) (cpu_apic_ids s) 0 else 0xff.
Definition acpi_lapic_base (s : acpi_state) : Z := lapic_base_value s.

(** ** Termination and bounds *)

Definition cpus_ok (s : acpi_state) : Prop := cpu_count_value s <= MAX_CPUS.

Lemma madt_entry_cpus m p s : cpus_ok s -> cpus_ok (madt_entry m p s).
Proof.
  unfold cpus_ok, madt_entry. intros Hc. destruct (_ && _).
  - destruct (negb _ && _) eqn:E; [|done]. apply andb_prop in E as [_ E%Z.ltb_lt].
    unfold cpu_count_value in *. cbn [cpu_apic_ids]. rewrite length_app. simpl. lia.
  - by destruct (_ && _).
Qed.

Lemma madt_loop_total fuel m p end_ s :
  Z.max 0 (end_ - p) < Z.of_nat fuel -> cpus_ok s -> exists s', madt_loop fuel m p end_ s = Some s' /\ cpus_ok s'.
Proof.
  revert p s. induction fuel as [|fuel IH]; intros p s Hf Hc; cbn [madt_loop]; [lia|]. cbv zeta.
  destruct (Z.leb_spec (p + 2) end_); [|by exists s].
  destruct ((load8 m (p + 1) <? 2) || _) eqn:E; [by exists s|]. apply orb_false_elim in E as [E1%Z.ltb_ge E2%Z.ltb_ge].
  apply IH; [lia|by apply madt_entry_cpus].
Qed.

Lemma parse_madt_total m madt s : cpus_ok s -> exists s', parse_madt m madt s = Some s' /\ cpus_ok s'.
Proof.
  intros Hc. unfold parse_madt. destruct (negb _); [by exists s|]. apply madt_loop_total; [|done].
  unfold sizeof_Madt. lia.
Qed.

(** On any memory the search ends and records at most 64 processors. *)
Theorem acpi_init_total m rsdp s : exists s', acpi_init m rsdp s = Some s' /\ cpus_ok s'.
Proof.
  assert (cpus_ok (mk_acpi [] (lapic_base_value s))) as Hc by done.
  unfold acpi_init. destruct (rsdp =? 0); [by eexists|]. destruct (_ || _); [by eexists|].
  cbv zeta. generalize (if sig_eq m (root_table m rsdp) SIG_XSDT then 8 else 4) as size. intros size.
  generalize 0 as i. induction (Z.to_nat _) as [|n IH]; intros i; cbn [root_loop]; [by eexists|].
  cbv zeta. destruct (sig_eq _ _ _); [by apply parse_madt_total|apply IH].
Qed.

(** ** Tables *)

(** Entries of the table of processors: a local interrupt controller with its
    flags, a 64-bit address of the controllers, anything else. *)
Inductive madt_item :=
| LocalApic (uid apic_id flags : Z)
| LapicOverride (reserved address : Z)
| OtherItem (type : Z) (body : list Z).

Definition encode_item (x : madt_item) : list Z :=
  match x with
  | LocalApic uid id flags => [0; 8; uid; id] ++ le_bytes 4 flags
  | LapicOverride reserved address => [5; 12] ++ le_bytes 2 reserved ++ le_bytes 8 address
  | OtherItem type body => [type; 2 + Z.of_nat (length body)] ++ body
  end.

Definition item_ok (x : madt_item) : Prop :=
  match x with
  | LocalApic uid id flags => word32 flags
  | LapicOverride reserved address => word64 address
  | OtherItem type body => type <> 0 /\ type <> 5 /\ Z.of_nat (length body) <= 253
  end.

(** The processors of a table that are enabled, and the address of the
    controllers. *)
Definition enabled_cpu (x : madt_item) : option Z :=
  match x with LocalApic _ id flags => if Z.odd flags then Some id else None | _ => None end.
Definition lapic_of (base : Z) (x : madt_item) : Z :=
  match x with LapicOverride _ address => address | _ => base end.

Definition add_item (s : acpi_state) (x : madt_item) : acpi_state :=
  mk_acpi (take (Z.to_nat MAX_CPUS) (cpu_apic_ids s ++ option_list (enabled_cpu x))) (lapic_of (lapic_base_value s) x).

Lemma take_full_ids s : cpus_ok s -> take (Z.to_nat MAX_CPUS) (cpu_apic_ids s ++ []) = cpu_apic_ids s.
Proof. intros Hc. rewrite app_nil_r. apply take_ge. unfold cpus_ok, cpu_count_value, MAX_CPUS in *. lia. Qed.

Lemma land_1_odd n : (Z.land n 1 =? 0) = negb (Z.odd n).
Proof. change 1 with (Z.ones 1). rewrite Z.land_ones by lia. change (2 ^ 1) with 2. rewrite Zmod_odd. by destruct (Z.odd n). Qed.

Lemma item_head m p x : in_memory m p (encode_item x) ->
  load8 m (p + 1) = Z.of_nat (length (encode_item x)) /\
  load8 m p = match x with LocalApic _ _ _ => 0 | LapicOverride _ _ => 5 | OtherItem t _ => t end.
Proof.
  intros Hm. pose proof (Hm 0%nat) as H0. pose proof (Hm 1%nat) as H1.
  change (Z.of_nat 0) with 0 in H0. change (Z.of_nat 1) with 1 in H1. rewrite Z.add_0_r in H0.
  destruct x as [uid id flags|r a|t body]; cbn [encode_item app] in *; rewrite (H0 _ eq_refl), (H1 _ eq_refl);
    cbn [length]; rewrite ?length_app, ?le_bytes_length; split; (reflexivity || lia).
Qed.

(** Reading one entry. *)
Lemma madt_entry_item m p x s :
  item_ok x -> cpus_ok s -> in_memory m p (encode_item x) -> madt_entry m p s = add_item s x.
Proof.
  intros Hx Hc Hm. destruct (item_head m p x Hm) as [Hl Ht]. unfold madt_entry, add_item. rewrite Hl, Ht.
  destruct x as [uid id flags|r a|t body]; cbn [encode_item] in *.
  - rewrite length_app, le_bytes_length. cbn [length Nat.add]. change (0 =? 0) with true. change (8 <=? Z.of_nat 8) with true.
    cbn [andb]. apply in_memory_app in Hm as [H1 H2]. cbn [length] in H2.
    unfold load32. rewrite (load_le_bytes 4 m (p + 4) flags Hx H2).
    replace (load8 m (p + 3)) with id by (symmetry; apply (H1 3%nat id eq_refl)). rewrite land_1_odd, negb_involutive. cbn [enabled_cpu lapic_of].
    destruct (Z.odd flags); cbn [andb option_list]; [|rewrite take_full_ids by done; by destruct s].
    unfold cpus_ok, cpu_count_value, MAX_CPUS in *. destruct (Z.ltb_spec (Z.of_nat (length (cpu_apic_ids s))) 64).
    + rewrite take_ge; [done|]. rewrite length_app. simpl. lia.
    + rewrite take_app_le by lia. rewrite take_ge by lia. by destruct s.
  - rewrite !length_app, !le_bytes_length. cbn [length Nat.add]. change (5 =? 0) with false. change (5 =? 5) with true.
    change (12 <=? Z.of_nat 12) with true. cbn [andb enabled_cpu lapic_of option_list].
    rewrite take_full_ids by done. f_equal.
    rewrite app_assoc in Hm. apply in_memory_app in Hm as [_ Hm]. rewrite length_app, le_bytes_length in Hm.
    unfold load64. by apply load_le_bytes.
  - destruct Hx as (H0 & H5 & _). rewrite (proj2 (Z.eqb_neq t 0)), (proj2 (Z.eqb_neq t 5)) by done.
    cbn [andb enabled_cpu lapic_of option_list]. rewrite take_full_ids by done. by destruct s.
Qed.

Lemma encode_length x : item_ok x -> 2 <= Z.of_nat (length (encode_item x)) <= 255.
Proof.
  destruct x as [uid id flags|r a|t body]; cbn [encode_item item_ok]; intros H;
    rewrite ?length_app, ?le_bytes_length; cbn [length]; lia.
Qed.

Lemma add_item_ok s x : cpus_ok (add_item s x).
Proof.
  unfold cpus_ok, cpu_count_value, add_item. cbn [cpu_apic_ids]. rewrite length_take. unfold MAX_CPUS. lia.
Qed.

Lemma madt_loop_items items fuel m p end_ s :
  Forall item_ok items -> cpus_ok s -> in_memory m p (concat (map encode_item items)) ->
  end_ = p + Z.of_nat (length (concat (map encode_item items))) -> end_ - p < Z.of_nat fuel ->
  madt_loop fuel m p end_ s = Some (fold_left add_item items s).
Proof.
  intros Hi. revert fuel p s. induction Hi as [|x items Hx Hi IH]; intros fuel p s Hc Hm He Hf.
  - destruct fuel as [|fuel]; [simpl in *; lia|]. cbn [madt_loop]. rewrite (proj2 (Z.leb_gt _ _)); [done|]. simpl in He. lia.
  - destruct fuel as [|fuel]; [simpl in *; lia|]. cbn [map concat] in *. rewrite length_app in He.
    apply in_memory_app in Hm as [H1 H2]. pose proof (encode_length x Hx) as Hl.
    destruct (item_head m p x H1) as [El _]. cbn [madt_loop]. cbv zeta. rewrite El.
    rewrite (proj2 (Z.leb_le _ _)) by lia. rewrite !(proj2 (Z.ltb_ge _ _)) by lia. cbn [orb].
    rewrite (madt_entry_item m p x s Hx Hc H1). cbn [fold_left].
    apply IH; [apply add_item_ok|done|lia|lia].
Qed.

Lemma add_items_ids items s :
  cpus_ok s ->
  cpu_apic_ids (fold_left add_item items s) = take (Z.to_nat MAX_CPUS) (cpu_apic_ids s ++ omap enabled_cpu items) /\
  lapic_base_value (fold_left add_item items s) = fold_left lapic_of items (lapic_base_value s).
Proof.
  revert s. induction items as [|x items IH]; intros s Hc; [by rewrite take_full_ids|].
  cbn [fold_left]. destruct (IH (add_item s x) (add_item_ok s x)) as [-> ->]. split; [|done].
  cbn [cpu_apic_ids add_item]. set (k := Z.to_nat MAX_CPUS).
  assert (omap enabled_cpu (x :: items) = option_list (enabled_cpu x) ++ omap enabled_cpu items) as ->
    by (simpl; by destruct (enabled_cpu x)).
  rewrite app_assoc. generalize (cpu_apic_ids s ++ option_list (enabled_cpu x)) as l. intros l.
  rewrite !take_app, take_take, length_take, Nat.min_id. f_equal. f_equal. lia.
Qed.

(** ** The root table *)

Lemma root_loop_find m base tables i s :
  in_memory m base (concat (map (le_bytes 8) tables)) -> Forall word64 tables ->
  0 <= i -> (i + Z.of_nat (length tables)) * 8 < 4294967296 ->
  forall base0, base = base0 + i * 8 ->
  root_loop (length tables) m base0 8 i s =
  match list_find (fun a => sig_eq m a SIG_APIC = true) tables with
  | Some (_, a) => parse_madt m a s
  | None => Some s
  end.
Proof.
  intros Hm Ht. revert base i Hm. induction Ht as [|a tables Ha Ht IH]; intros base i Hm Hi Hb base0 ->; [done|].
  cbn [map concat length root_loop list_find] in *. cbv zeta. apply in_memory_app in Hm as [H1 H2].
  rewrite le_bytes_length in H2. change (8 =? 8) with true. cbv iota.
  unfold u32. rewrite Z.mod_small by lia. unfold load64. rewrite (load_le_bytes 8 m _ a) by done.
  destruct (decide (sig_eq m a SIG_APIC = true)) as [E|E]; [by rewrite E|]. apply not_true_is_false in E. rewrite E.
  rewrite (IH (base0 + i * 8 + Z.of_nat 8) (i + 1)) by (done || lia).
  by destruct (list_find _ tables) as [[j b]|].
Qed.

(** What a firmware with 64-bit tables provides: the root pointer, the root table
    with the addresses of the tables, and the table of processors, with valid
    checksums. *)
Record acpi_tables (m : mem) (rsdp root : Z) (tables : list Z) (madt : Z) (items : list madt_item) : Prop := mk_tables {
  tb_mem : mem_ok m;
  tb_rsdp : rsdp <> 0;
  tb_root : 2 <= rsdp_revision m rsdp /\ rsdp_xsdt_address m rsdp = root /\ root <> 0;
  tb_xsdt : in_memory m root SIG_XSDT;
  tb_root_length : sdt_length m root = sizeof_SdtHeader + 8 * Z.of_nat (length tables);
  tb_root_sum : acpi_checksum m root (sdt_length m root) = 0;
  tb_entries : in_memory m (root + sizeof_SdtHeader) (concat (map (le_bytes 8) tables));
  tb_words : Forall word64 tables;
  tb_first : exists i, list_find (fun a => sig_eq m a SIG_APIC = true) tables = Some (i, madt);
  tb_madt_length : sdt_length m madt = sizeof_Madt + Z.of_nat (length (concat (map encode_item items)));
  tb_madt_sum : acpi_checksum m madt (sdt_length m madt) = 0;
  tb_items : in_memory m (madt + sizeof_Madt) (concat (map encode_item items));
  tb_items_ok : Forall item_ok items
}.

Lemma sig_eq_in_memory m a sig : length sig = 4%nat -> in_memory m a sig -> sig_eq m a sig = true.
Proof.
  intros Hl Hm. unfold sig_eq. apply bool_decide_eq_true.
  destruct sig as [|b0 [|b1 [|b2 [|b3 [|]]]]]; try discriminate. cbn [map].
  f_equal; [apply (Hm 0%nat b0 eq_refl)|]. f_equal; [apply (Hm 1%nat b1 eq_refl)|].
  f_equal; [apply (Hm 2%nat b2 eq_refl)|]. f_equal. apply (Hm 3%nat b3 eq_refl).
Qed.

(** C27: from well-formed firmware tables the kernel learns exactly the processors
    they list as enabled, in their order and at most 64, and the address of the
    interrupt controllers, the 64-bit one when it is given. *)
Theorem acpi_init_correct m rsdp root tables madt items s :
  acpi_tables m rsdp root tables madt items ->
  acpi_init m rsdp s =
    Some (mk_acpi (take (Z.to_nat MAX_CPUS) (omap enabled_cpu items)) (fold_left lapic_of items (madt_lapic_addr m madt))).
Proof.
  intros []. destruct tb_root0 as (Hrev & Hx & Hr). destruct tb_first0 as [i Hfind].
  assert (root_table m rsdp = root) as Eroot.
  { unfold root_table. rewrite (proj2 (Z.leb_le _ _)) by done. rewrite Hx, (proj2 (Z.eqb_neq root 0)) by done. done. }
  unfold acpi_init. rewrite (proj2 (Z.eqb_neq rsdp 0)) by done. cbv zeta. rewrite Eroot, tb_root_sum0.
  rewrite (proj2 (Z.eqb_neq root 0)) by done. cbn [Z.eqb negb orb].
  rewrite (sig_eq_in_memory m root SIG_XSDT) by done.
  pose proof (load32_bound m (root + 4) tb_mem0) as Hlen. fold (sdt_length m root) in Hlen.
  rewrite tb_root_length0 in *. unfold sizeof_SdtHeader, word32 in Hlen. unfold sizeof_SdtHeader.
  set (n := length tables) in *.
  assert (Z.to_nat (u32 ((36 + 8 * Z.of_nat n -u 36) / 8)) = n) as ->.
  { unfold u32, u64. rewrite (Z.mod_small (36 + _ - 36)) by lia. replace (36 + 8 * Z.of_nat n - 36) with (Z.of_nat n * 8) by lia.
    rewrite Z.div_mul by lia. rewrite Z.mod_small by lia. lia. }
  unfold n. rewrite (root_loop_find m (root + sizeof_SdtHeader) tables 0 _ tb_entries0 tb_words0)
    by (unfold sizeof_SdtHeader, n in *; lia).
  rewrite Hfind. unfold parse_madt. cbv zeta. rewrite tb_madt_sum0. cbn [Z.eqb negb].
  rewrite (madt_loop_items items) with (s := mk_acpi [] (madt_lapic_addr m madt)); [|done..| |].
  - destruct (add_items_ids items (mk_acpi [] (madt_lapic_addr m madt))) as [E1 E2]; [done|].
    f_equal. destruct (fold_left add_item items _) as [ids lapic]. cbn in E1, E2 |- *. by subst.
  - rewrite tb_madt_length0. lia.
  - rewrite tb_madt_length0. unfold sizeof_Madt. lia.
Qed.

(** ** Example: three processors, one of them disabled *)

(** A table with the checksum in byte 9. *)
Definition with_checksum (bs : list Z) : list Z := <[9%nat := (256 - foldr Z.add 0 bs mod 256) mod 256]> bs.
Definition table (sig : list Z) (bytes : list Z) : list Z :=
  with_checksum (sig ++ le_bytes 4 (36 + Z.of_nat (length bytes)) ++ repeat 0 28 ++ bytes).

Definition demo_items : list madt_item :=
  [LocalApic 0 0 1; LocalApic 1 2 0; OtherItem 1 [0; 0; 0; 0]; LapicOverride 0 0xfee01000; LocalApic 2 4 1].
Definition demo_tables : list Z := [0x3000; 0x4000].
Definition demo_acpi : mem :=
  store_bytes (store_bytes (store_bytes (store_bytes ∅
    0x1000 (repeat 0 15 ++ [2] ++ le_bytes 4 0 ++ le_bytes 4 36 ++ le_bytes 8 0x2000))
    0x2000 (table SIG_XSDT (concat (map (le_bytes 8) demo_tables))))
    0x3000 (table [70; 65; 67; 80] []))
    0x4000 (table SIG_APIC (le_bytes 4 0xfee00000 ++ le_bytes 4 0 ++ concat (map encode_item demo_items))).

Lemma demo_acpi_tables : acpi_tables demo_acpi 0x1000 0x2000 demo_tables 0x4000 demo_items.
Proof.
  constructor.
  - unfold demo_acpi. do 4 apply store_bytes_ok. apply empty_mem_ok.
  - discriminate.
  - split; [vm_compute; discriminate|]. split; [vm_compute; reflexivity|discriminate].
  - apply load_bytes_in_memory. vm_compute. reflexivity.
  - vm_compute. reflexivity.
  - vm_compute. reflexivity.
  - apply load_bytes_in_memory. vm_compute. reflexivity.
  - repeat (apply Forall_cons; split; [vm_compute; split; [discriminate|reflexivity]|]). apply Forall_nil_2.
  - exists 1%nat. vm_compute. reflexivity.
  - vm_compute. reflexivity.
  - vm_compute. reflexivity.
  - apply load_bytes_in_memory. vm_compute. reflexivity.
  - repeat (apply Forall_cons; split; [|]); try apply Forall_nil_2; vm_compute; repeat split; discriminate || reflexivity.
Qed.

Lemma acpi_init_correct_witness :
  acpi_init demo_acpi 0x1000 (mk_acpi [7] 0) = Some (mk_acpi [0; 4] 0xfee01000).
Proof. exact (acpi_init_correct _ _ _ _ _ _ (mk_acpi [7] 0) demo_acpi_tables). Defined.

(** ** A root table shorter than its header *)

(** The number of entries is computed without a check of the length, so a table
    of 16 bytes is read as if it had more than four billion entries. *)
Example short_root_table : u32 ((16 -u sizeof_SdtHeader) / 8) = 4294967293.
Proof. reflexivity. Qed.
