(* ===== verification/Uefi.v ===== *)
(** The UEFI loader (boot/uefi/loader.c).

    [efi_main] reads the kernel and the initramfs with the firmware's file
    protocol, loads the segments of the kernel, fills the boot information and
    leaves the firmware.  The firmware is not part of the repository: its services
    are a record of operations over a state of its own and the memory. *)
From stdpp Require Import base numbers list.
From Stdlib Require Import ZArith Lia.
From S2P Require Import Prelude Memory BootInfo Elf.

(** [EFI_STATUS]. *)
Definition EFI_SUCCESS : Z := 0.
Definition EFI_ERROR_BIT : Z := 0x8000000000000000.
Definition EFI_ERROR (st : Z) : bool := negb (Z.land st EFI_ERROR_BIT =? 0).
Definition EFI_LOAD_ERROR : Z := Z.lor EFI_ERROR_BIT 1.

(** The services that are used.  Results are a status, the value stored through
    the pointer argument, and the state. *)
Record firmware (F : Type) := mk_firmware {
  open_protocol : Z -> list Z -> F -> Z * Z * F;
  open_volume : Z -> F -> Z * Z * F;
  file_open : Z -> list Z -> F -> Z * Z * F;
  file_read : Z -> Z -> Z -> F -> mem -> Z * Z * F * mem;
  file_close : Z -> F -> F;
  allocate_pool : Z -> F -> Z * Z * F;
  allocate_pages : Z -> Z -> F -> Z * F;
  locate_framebuffer : F -> option OreFramebuffer;
  configuration_tables : F -> list (list Z * Z);
  get_memory_map : Z -> Z -> F -> mem -> Z * (Z * Z * Z) * F * mem;
  exit_boot_services : Z -> F -> Z * F;
  device_handle : Z -> F -> Z }.
Arguments open_protocol {F}. Arguments open_volume {F}. Arguments file_open {F}. Arguments file_read {F}.
Arguments file_close {F}. Arguments allocate_pool {F}. Arguments allocate_pages {F}. Arguments locate_framebuffer {F}.
Arguments configuration_tables {F}. Arguments get_memory_map {F}. Arguments exit_boot_services {F}. Arguments device_handle {F}.

(** The bytes of the identifiers. *)
Definition loaded_image_guid : list Z :=
  [0xa1; 0x31; 0x1b; 0x5b; 0x62; 0x95; 0xd2; 0x11; 0x8e; 0x3f; 0x00; 0xa0; 0xc9; 0x69; 0x72; 0x3b].
Definition simple_fs_guid : list Z :=
  [0x22; 0x5b; 0x4e; 0x96; 0x59; 0x64; 0xd2; 0x11; 0x8e; 0x39; 0x00; 0xa0; 0xc9; 0x69; 0x72; 0x3b].
Definition acpi20_guid : list Z :=
  [0x71; 0xe8; 0x68; 0x88; 0xf1; 0xe4; 0xd3; 0x11; 0xbc; 0x22; 0x00; 0x80; 0xc7; 0x3c; 0x88; 0x81].
Definition acpi10_guid : list Z :=
  [0x30; 0x2d; 0x9d; 0xeb; 0x88; 0x2d; 0xd3; 0x11; 0x9a; 0x16; 0x00; 0x90; 0x27; 0x3f; 0xc1; 0x4d].

(** ** The kernel image *)

Definition sizeof_Phdr : Z := 56.

(** [ph[i]]: the size of an entry is that of the structure. *)
Definition kernel_phdr (m : mem) (elf : Z) (eh : Elf64_Ehdr) (i : Z) : Elf64_Phdr :=
  read_phdr m (elf +u e_phoff eh +u i *u sizeof_Phdr).

Definition load_addr (ph : Elf64_Phdr) : Z := if p_paddr ph =? 0 then p_vaddr ph else p_paddr ph.

(** The extent of the loadable segments. *)
Definition extent_step (m : mem) (elf : Z) (eh : Elf64_Ehdr) (i : Z) (s : Z * Z) : Z * Z :=
  let '(min_addr, max_addr) := s in
  let ph := kernel_phdr m elf eh i in
  if negb (loadable ph) then s else
  let addr := load_addr ph in
  (if addr <? min_addr then addr else min_addr,
   if max_addr <? addr +u p_memsz ph then addr +u p_memsz ph else max_addr).

Definition copy_step (elf : Z) (eh : Elf64_Ehdr) (i : Z) (m : mem) : mem :=
  let ph := kernel_phdr m elf eh i in
  if negb (loadable ph) then m
  else mem_copy (load_addr ph) (elf +u p_offset ph) (p_filesz ph) m.

(** The loop reads the count in each round: the copies may change it. *)
Fixpoint copy_segments (fuel : nat) (elf : Z) (eh : Elf64_Ehdr) (i : Z) (m : mem) : mem :=
  match fuel with
  | O => m
  | S fuel =>
      if negb (i <? e_phnum (read_ehdr m elf)) then m
      else copy_segments fuel elf eh (i + 1) (copy_step elf eh i m)
  end.

Definition UINT64_MAX : Z := 18446744073709551615.
Definition kernel_extent (m : mem) (elf : Z) (eh : Elf64_Ehdr) : Z * Z :=
  for_loop (Z.to_nat (e_phnum eh)) 0 (extent_step m elf eh) (UINT64_MAX, 0).

Definition kernel_magic (m : mem) (elf : Z) : bool :=
  (load8 m elf =? 0x7f) && (load8 m (elf + 1) =? 69) && (load8 m (elf + 2) =? 76) && (load8 m (elf + 3) =? 70).

Section Loader.
Context {F : Type} (fw : firmware F).

(** Entry, base and size of the loaded kernel, or an error status. *)
Definition load_kernel (elf : Z) (f : F) (m : mem) : (Z + Z * Z * Z) * F * mem :=
  if negb (kernel_magic m elf) then (inl EFI_LOAD_ERROR, f, m) else
  let eh := read_ehdr m elf in
  let '(min_addr, max_addr) := kernel_extent m elf eh in
  if (min_addr =? UINT64_MAX) || (max_addr <=? min_addr) then (inl EFI_LOAD_ERROR, f, m) else
  let aligned_base := Z.land min_addr (not64 0xfff) in
  let aligned_end := Z.land (max_addr +u 0xfff) (not64 0xfff) in
  let pages := (aligned_end -u aligned_base) / 0x1000 in
  let '(st, f) := allocate_pages fw aligned_base pages f in
  if EFI_ERROR st then (inl st, f, m) else
  let m := mem_zero aligned_base (aligned_end -u aligned_base) m in
  let m := copy_segments (Z.to_nat 65536) elf eh 0 m in
  (inr (e_entry eh, aligned_base, aligned_end -u aligned_base), f, m).

(** ** Files *)

Definition FILE_CAP : Z := 16 * 1024 * 1024.

(** Status, buffer and size. *)
Definition read_file (image : Z) (path : list Z) (f : F) (m : mem) : Z * Z * Z * F * mem :=
  let '(st, loaded, f) := open_protocol fw image loaded_image_guid f in
  if EFI_ERROR st then (st, 0, 0, f, m) else
  let '(st, fs, f) := open_protocol fw (device_handle fw loaded f) simple_fs_guid f in
  if EFI_ERROR st then (st, 0, 0, f, m) else
  let '(st, root, f) := open_volume fw fs f in
  if EFI_ERROR st then (st, 0, 0, f, m) else
  let '(st, file, f) := file_open fw root path f in
  if EFI_ERROR st then (st, 0, 0, f, m) else
  let '(st, buffer, f) := allocate_pool fw FILE_CAP f in
  if EFI_ERROR st then (st, buffer, 0, f, m) else
  let '(st, size, f, m) := file_read fw file FILE_CAP buffer f m in
  (st, buffer, size, file_close fw file f, m).

(** ** Boot information *)

(** The first table with one of the identifiers. *)
Definition fill_acpi (f : F) : Z :=
  match list_find (fun t => fst t = acpi20_guid \/ fst t = acpi10_guid) (configuration_tables fw f) with
  | Some (_, (_, table)) => table
  | None => 0
  end.

Definition no_framebuffer : OreFramebuffer :=
  {| fb_base := 0; fb_width := 0; fb_height := 0; fb_pixels_per_scanline := 0; fb_pixel_format := 0 |}.
Definition fill_framebuffer (f : F) : OreFramebuffer := default no_framebuffer (locate_framebuffer fw f).

(** [EFI_MEMORY_DESCRIPTOR] at [a]: the type has 32 bits, the rest is aligned. *)
Definition read_descriptor (m : mem) (a : Z) : OreMemoryDescriptor :=
  {| d_type := load32 m a; d_physical_start := load64 m (a + 8); d_virtual_start := load64 m (a + 16);
     d_number_of_pages := load64 m (a + 24); d_attribute := load64 m (a + 32) |}.

Definition sizeof_OreMemoryDescriptor : Z := 40.

(** Number of entries that are kept, and the entries. *)
Definition map_entries (mmap_size desc_size : Z) : Z :=
  let entries := mmap_size / desc_size in if ORE_MEMMAP_MAX <? entries then ORE_MEMMAP_MAX else entries.
Definition copy_memory_map (m : mem) (mmap mmap_size desc_size : Z) : list OreMemoryDescriptor :=
  map (fun i => read_descriptor m (mmap +u Z.of_nat i *u desc_size)) (seq 0 (Z.to_nat (map_entries mmap_size desc_size))).

Definition kernel_elf_path : list Z := [92; 107; 101; 114; 110; 101; 108; 46; 101; 108; 102].
Definition initramfs_path : list Z := [92; 105; 110; 105; 116; 114; 97; 109; 102; 115; 46; 116; 97; 114].

(** How the loader ends: it returns a status to the firmware or enters the
    kernel. *)
Inductive boot_result :=
| Return (st : Z) (f : F) (m : mem)
| Enter (entry : Z) (bi : BootInfo) (f : F) (m : mem).

(** The end of [efi_main], with the information gathered so far. *)
Definition leave_firmware (entry kernel_base kernel_size initramfs_base initramfs_size : Z) (f : F) (m : mem)
  : boot_result :=
  let framebuffer := fill_framebuffer f in
  let rsdp := fill_acpi f in
  let '(_, (mmap_size, _, desc_size), f, m) := get_memory_map fw 0 0 f m in
  let mmap_size := mmap_size +u desc_size *u 8 in
  let '(st, mmap, f) := allocate_pool fw mmap_size f in
  if EFI_ERROR st then Return st f m else
  let '(st, (mmap_size, map_key, desc_size), f, m) := get_memory_map fw mmap_size mmap f m in
  if EFI_ERROR st then Return st f m else
  let bi := {| bi_magic := ORE_BOOTINFO_MAGIC; bi_rsdp := rsdp; bi_kernel_base := kernel_base;
               bi_kernel_size := kernel_size; bi_initramfs_base := initramfs_base;
               bi_initramfs_size := initramfs_size; bi_framebuffer := framebuffer;
               bi_memory_map_entries := map_entries mmap_size desc_size;
               bi_memory_map_descriptor_size := sizeof_OreMemoryDescriptor;
               bi_memory_map := copy_memory_map m mmap mmap_size desc_size; bi_cmdline := [] |} in
  let '(st, f) := exit_boot_services fw map_key f in
  if negb (EFI_ERROR st) then Enter entry bi f m else
  let '(st, (_, map_key, _), f, m) := get_memory_map fw mmap_size mmap f m in
  if EFI_ERROR st then Return st f m else
  let '(st, f) := exit_boot_services fw map_key f in
  if EFI_ERROR st then Return st f m else Enter entry bi f m.

Definition efi_main (image : Z) (f : F) (m : mem) : boot_result :=
  let '(st, kernel_file, _, f, m) := read_file image kernel_elf_path f m in
  if EFI_ERROR st then Return st f m else
  let '(loaded, f, m) := load_kernel kernel_file f m in
  match loaded with
  | inl st => Return st f m
  | inr (entry, kernel_base, kernel_size) =>
      let '(st, _, f) := allocate_pool fw sizeof_BootInfo f in
      if EFI_ERROR st then Return st f m else
      let '(st, initramfs, initramfs_size, f, m) := read_file image initramfs_path f m in
      let '(initramfs, initramfs_size) := if EFI_ERROR st then (0, 0) else (initramfs, initramfs_size) in
      leave_firmware entry kernel_base kernel_size initramfs initramfs_size f m
  end.
End Loader.

(** ** The loaded kernel *)

(** The headers of the file, and those of the segments that are loaded. *)
Definition kernel_phdrs (m : mem) (elf : Z) : list Elf64_Phdr :=
  let eh := read_ehdr m elf in map (kernel_phdr m elf eh) (seqZ 0 (e_phnum eh)).

(** The bytes of a segment over those of [g]. *)
Definition over_segment (m : mem) (elf : Z) (g : Z -> Z) (ph : Elf64_Phdr) (a : Z) : Z :=
  if loadable ph && (load_addr ph <=? a) && (a <? load_addr ph + p_filesz ph)
  then load8 m (elf + p_offset ph + (a - load_addr ph)) else g a.

(** Memory of the kernel: later segments over earlier ones, over zeroes. *)
Definition kernel_memory (m : mem) (elf base end_ : Z) (phs : list Elf64_Phdr) : Z -> Z :=
  fold_left (over_segment m elf) phs (fun a => if (base <=? a) && (a <? end_) then 0 else load8 m a).

(** A file whose headers and segments are inside of it, and whose segments fit in
    their memory, none of it at the top of the address space. *)
Record kernel_file (m : mem) (elf size : Z) : Prop := mk_kernel_file {
  kf_mem : mem_ok m;
  kf_place : 0 <= elf /\ elf + size < 18446744073709551616;
  kf_header : 64 <= size;
  kf_table : e_phoff (read_ehdr m elf) + e_phnum (read_ehdr m elf) * sizeof_Phdr <= size;
  kf_segments : Forall (fun ph => loadable ph = true ->
    p_filesz ph <= p_memsz ph /\ p_offset ph + p_filesz ph <= size /\
    load_addr ph + p_memsz ph + 4096 <= 18446744073709551616) (kernel_phdrs m elf)
}.

(** The range [[base, end_)] is whole pages around the segments: it covers each
    of them, and starts and ends in the page of one. *)
Record kernel_range (phs : list Elf64_Phdr) (base end_ : Z) : Prop := mk_kernel_range {
  kr_aligned : base mod 4096 = 0 /\ end_ mod 4096 = 0;
  kr_covers : Forall (fun ph => loadable ph = true -> base <= load_addr ph /\ load_addr ph + p_memsz ph <= end_) phs;
  kr_first : exists ph, ph ∈ phs /\ loadable ph = true /\ base <= load_addr ph < base + 4096;
  kr_last : exists ph, ph ∈ phs /\ loadable ph = true /\ end_ - 4096 < load_addr ph + p_memsz ph <= end_
}.

(** *** Extent *)

Definition ph_words (ph : Elf64_Phdr) : Prop :=
  word64 (p_offset ph) /\ word64 (load_addr ph) /\ word64 (p_filesz ph) /\ word64 (p_memsz ph).

Lemma read_phdr_words m a : mem_ok m -> ph_words (read_phdr m a).
Proof.
  intros Hm. unfold ph_words, load_addr. cbn. split; [by apply load64_bound|].
  split; [|split; by apply load64_bound]. destruct (_ =? 0); by apply load64_bound.
Qed.

(** The loop is a fold over the headers. *)
Lemma for_loop_fold {A B} (g : A -> B -> B) (h : Z -> A) n i s :
  for_loop n i (fun j => g (h j)) s = fold_left (fun s x => g x s) (map h (seqZ i (Z.of_nat n))) s.
Proof.
  revert i s. induction n as [|n IH]; intros i s; [done|]. cbn [for_loop]. rewrite seqZ_cons by lia. cbn [map fold_left].
  rewrite IH. by replace (Z.pred (Z.of_nat (S n))) with (Z.of_nat n) by lia.
Qed.

Definition extent_of (s : Z * Z) (ph : Elf64_Phdr) : Z * Z :=
  let '(min_addr, max_addr) := s in
  if negb (loadable ph) then s else
  (if load_addr ph <? min_addr then load_addr ph else min_addr,
   if max_addr <? load_addr ph +u p_memsz ph then load_addr ph +u p_memsz ph else max_addr).

Lemma kernel_extent_fold m elf :
  0 <= e_phnum (read_ehdr m elf) ->
  kernel_extent m elf (read_ehdr m elf) = fold_left extent_of (kernel_phdrs m elf) (UINT64_MAX, 0).
Proof.
  intros Hn. unfold kernel_extent, kernel_phdrs. cbv zeta.
  rewrite (for_loop_fold (fun ph s => extent_of s ph) (kernel_phdr m elf (read_ehdr m elf))).
  by rewrite Z2Nat.id.
Qed.

(** No segment yet, or the least start and the greatest end. *)
Definition extent_ok (phs : list Elf64_Phdr) (s : Z * Z) : Prop :=
  (s = (UINT64_MAX, 0) /\ Forall (fun ph => loadable ph = false) phs) \/
  (Forall (fun ph => loadable ph = true -> fst s <= load_addr ph /\ load_addr ph + p_memsz ph <= snd s) phs /\
   (exists ph, ph ∈ phs /\ loadable ph = true /\ fst s = load_addr ph) /\
   (exists ph, ph ∈ phs /\ loadable ph = true /\ snd s = load_addr ph + p_memsz ph)).

Definition ph_ok (ph : Elf64_Phdr) : Prop :=
  loadable ph = true -> ph_words ph /\ load_addr ph + p_memsz ph + 4096 <= 18446744073709551616.

Lemma loadable_memsz ph : loadable ph = true -> p_memsz ph <> 0.
Proof. unfold loadable. intros [_ H]%andb_prop. by apply negb_true_iff, Z.eqb_neq in H. Qed.

Lemma extent_of_ok phs ph s : ph_ok ph -> extent_ok phs s -> extent_ok (phs ++ [ph]) (extent_of s ph).
Proof.
  intros Hph Hs. destruct s as [lo hi]. unfold extent_of. destruct (loadable ph) eqn:E; cbn [negb].
  - destruct (Hph E) as [(_ & Ha & _ & Hz) Hb]. pose proof (loadable_memsz ph E). unfold word64 in *.
    rewrite (u64_small (load_addr ph + p_memsz ph)) by (unfold word64; lia). right. destruct Hs as [[Hs Hno]|(Hall & Hlo & Hhi)].
    + injection Hs as -> ->. unfold UINT64_MAX. rewrite (proj2 (Z.ltb_lt _ _)) by lia. rewrite (proj2 (Z.ltb_lt _ _)) by lia.
      split; [|split; exists ph; (split; [apply elem_of_app; right; by left|done])].
      apply Forall_app; split; [|apply Forall_singleton; simpl; lia].
      eapply Forall_impl; [exact Hno|]. simpl. congruence.
    + cbn [fst snd] in *. destruct Hlo as (p1 & Hp1 & El1 & E1), Hhi as (p2 & Hp2 & El2 & E2). split; [|split].
      * apply Forall_app; split; [|apply Forall_singleton; intros _; destruct (Z.ltb_spec (load_addr ph) lo), (Z.ltb_spec hi (load_addr ph + p_memsz ph)); lia].
        eapply Forall_impl; [exact Hall|]. simpl. intros q Hq Eq. specialize (Hq Eq).
        destruct (Z.ltb_spec (load_addr ph) lo), (Z.ltb_spec hi (load_addr ph + p_memsz ph)); lia.
      * destruct (_ <? lo); [exists ph; split; [apply elem_of_app; right; by left|done]|exists p1; split; [apply elem_of_app; by left|done]].
      * destruct (hi <? _); [exists ph; split; [apply elem_of_app; right; by left|done]|exists p2; split; [apply elem_of_app; by left|done]].
  - destruct Hs as [[Hs Hno]|(Hall & (p1 & Hp1 & E1) & (p2 & Hp2 & E2))]; [left|right].
    + split; [done|]. apply Forall_app; split; [done|by apply Forall_singleton].
    + split; [apply Forall_app; split; [done|apply Forall_singleton; congruence]|].
      split; [exists p1|exists p2]; (split; [apply elem_of_app; by left|done]).
Qed.

Lemma extent_fold_ok phs : Forall ph_ok phs -> extent_ok phs (fold_left extent_of phs (UINT64_MAX, 0)).
Proof.
  induction phs as [|ph phs IH] using rev_ind; intros H; [by left|].
  apply Forall_app in H as [H1 H2]. rewrite fold_left_app. apply extent_of_ok; [exact (Forall_inv H2)|by apply IH].
Qed.

(** The extent is found exactly when there is a segment, and its pages are the
    range of the kernel. *)
Lemma extent_range phs lo hi :
  Forall ph_ok phs -> fold_left extent_of phs (UINT64_MAX, 0) = (lo, hi) ->
  if existsb loadable phs
  then (lo =? UINT64_MAX) || (hi <=? lo) = false /\
       kernel_range phs (Z.land lo (not64 0xfff)) (Z.land (hi +u 0xfff) (not64 0xfff)) /\
       0 <= Z.land lo (not64 0xfff) <= Z.land (hi +u 0xfff) (not64 0xfff) /\
       Z.land (hi +u 0xfff) (not64 0xfff) < 18446744073709551616
  else (lo =? UINT64_MAX) || (hi <=? lo) = true.
Proof.
  intros Hphs E. pose proof (extent_fold_ok phs Hphs) as [[E0 Hno]|(Hall & (p1 & Hp1 & El1 & E1) & (p2 & Hp2 & El2 & E2))].
  { rewrite E in E0. injection E0 as -> ->. destruct (existsb loadable phs) eqn:Eb; [|done].
    apply existsb_exists in Eb as (p & Hp%list_elem_of_In & Hl). rewrite Forall_forall in Hno. by rewrite Hno in Hl. }
  rewrite E in *. cbn [fst snd] in *.
  rewrite (proj2 (existsb_exists _ _)) by (exists p1; split; [by apply list_elem_of_In|done]).
  rewrite Forall_forall in Hphs, Hall.
  destruct (Hphs p1 Hp1 El1) as [(_ & Ha1 & _ & Hz1) Hb1], (Hphs p2 Hp2 El2) as [(_ & Ha2 & _ & Hz2) Hb2].
  pose proof (loadable_memsz p1 El1). destruct (Hall p1 Hp1 El1), (Hall p2 Hp2 El2). unfold word64 in *.
  split; [unfold UINT64_MAX; apply orb_false_iff; split; [apply Z.eqb_neq|apply Z.leb_gt]; lia|].
  rewrite (u64_small (hi + 0xfff)) by (unfold word64; lia).
  assert (0 <= lo < hi /\ hi + 4096 <= 18446744073709551616) as Hlh by lia.
  assert (Z.land lo (not64 0xfff) = lo / 4096 * 4096) as -> by (apply (land_not64_ones lo 12); unfold word64; lia).
  assert (Z.land (hi + 0xfff) (not64 0xfff) = (hi + 0xfff) / 4096 * 4096) as ->
    by (apply (land_not64_ones (hi + 0xfff) 12); unfold word64; lia).
  split; [|clear - Hlh; destruct Hlh as [? ?]; split; zlia].
  split.
  - split; apply Z.mod_mul; lia.
  - apply Forall_forall. intros q Hq Eq. destruct (Hall q Hq Eq). clear - H4 H5. zlia.
  - exists p1. do 2 (split; [done|]). rewrite <- E1. clear. zlia.
  - exists p2. do 2 (split; [done|]). rewrite <- E2. clear. zlia.
Qed.

(** *** Copies *)

Section Copy.
Context (m : mem) (elf size base end_ : Z).
Hypothesis Hfile : kernel_file m elf size.
Hypothesis Hapart : elf + size <= base \/ end_ <= elf.
Hypothesis Hcover : Forall (fun ph => loadable ph = true -> base <= load_addr ph /\ load_addr ph + p_memsz ph <= end_)
  (kernel_phdrs m elf).
#[local] Abbreviation eh := (read_ehdr m elf).

(** The file is as it was. *)
Definition file_kept (m' : mem) : Prop := mem_ok m' /\ agree m' m elf size.

Lemma phnum_bound : 0 <= e_phnum eh < 65536.
Proof. pose proof (load_le_bound 2 m (elf + 56) (kf_mem _ _ _ Hfile)). cbn in *. lia. Qed.

Lemma kept_ehdr m' : file_kept m' -> read_ehdr m' elf = eh.
Proof. intros [_ Ha]. apply (read_ehdr_image m' m elf size Ha). unfold sizeof_Ehdr. apply (kf_header _ _ _ Hfile). Qed.

Lemma kept_phdr m' i : file_kept m' -> 0 <= i < e_phnum eh -> kernel_phdr m' elf eh i = kernel_phdr m elf eh i.
Proof.
  intros [_ Ha] Hi. pose proof (kf_table _ _ _ Hfile) as Ht. pose proof (kf_place _ _ _ Hfile) as Hp.
  pose proof (load64_bound m (elf + 32) (kf_mem _ _ _ Hfile)) as Ho. change (load64 m (elf + 32)) with (e_phoff eh) in Ho.
  unfold sizeof_Phdr, word64 in *. unfold kernel_phdr, sizeof_Phdr.
  rewrite (u64_small (i * 56)) by (unfold word64; nia). rewrite (u64_small (elf + e_phoff eh)) by (unfold word64; nia).
  rewrite u64_small by (unfold word64; nia). apply (read_phdr_image m' m elf size _ Ha); nia.
Qed.

Lemma kernel_phdr_in i : 0 <= i < e_phnum eh -> kernel_phdr m elf eh i ∈ kernel_phdrs m elf.
Proof. intros Hi. apply list_elem_of_fmap. exists i. split; [done|]. by apply elem_of_seqZ. Qed.

(** One copy puts the segment over the memory. *)
Lemma copy_step_spec m' i :
  file_kept m' -> 0 <= i < e_phnum eh ->
  file_kept (copy_step elf eh i m') /\
  forall a, load8 (copy_step elf eh i m') a = over_segment m elf (load8 m') (kernel_phdr m elf eh i) a.
Proof.
  intros Hk Hi. unfold copy_step, over_segment. rewrite (kept_phdr m' i Hk Hi). pose proof (kernel_phdr_in i Hi) as Hin.
  set (ph := kernel_phdr m elf eh i) in *. destruct (loadable ph) eqn:El; cbn [negb andb]; [|done].
  pose proof (kf_segments _ _ _ Hfile) as Hs. rewrite Forall_forall in Hs, Hcover.
  destruct (Hs ph Hin El) as (H1 & H2 & H3), (Hcover ph Hin El) as [H4 H5], (kf_place _ _ _ Hfile) as [P1 P2].
  assert (ph_words ph) as (W1 & W2 & W3 & W4) by apply read_phdr_words, (kf_mem _ _ _ Hfile). unfold word64 in *. destruct Hk as [Hok Hag].
  rewrite (u64_small (elf + p_offset ph)) by (unfold word64; lia).
  assert (forall a, load8 (mem_copy (load_addr ph) (elf + p_offset ph) (p_filesz ph) m') a =
    if (load_addr ph <=? a) && (a <? load_addr ph + p_filesz ph)
    then load8 m (elf + p_offset ph + (a - load_addr ph)) else load8 m' a) as Hl.
  { intros a. rewrite load8_mem_copy by (done || lia). cmp_cases. apply Hag. lia. }
  split; [split|exact Hl].
  - intros a. rewrite Hl. case_test; [apply (kf_mem _ _ _ Hfile)|apply Hok].
  - intros a Ha. rewrite Hl. rewrite (Hag a Ha). cmp_cases.
Qed.

Lemma over_segment_ext g g' ph a : g a = g' a -> over_segment m elf g ph a = over_segment m elf g' ph a.
Proof. intros H. unfold over_segment. by case_test. Qed.

Lemma fold_over_ext phs g g' a :
  (forall x, g x = g' x) -> fold_left (over_segment m elf) phs g a = fold_left (over_segment m elf) phs g' a.
Proof.
  revert g g'. induction phs as [|ph phs IH]; intros g g' H; [apply H|]. cbn [fold_left]. apply IH.
  intros x. by apply over_segment_ext.
Qed.

(** The rounds that are left. *)
Lemma copy_segments_spec n fuel i m' :
  file_kept m' -> 0 <= i -> i + Z.of_nat n = e_phnum eh -> (n < fuel)%nat ->
  file_kept (copy_segments fuel elf eh i m') /\
  forall a, load8 (copy_segments fuel elf eh i m') a =
    fold_left (over_segment m elf) (map (kernel_phdr m elf eh) (seqZ i (Z.of_nat n))) (load8 m') a.
Proof.
  revert fuel i m'. induction n as [|n IH]; intros fuel i m' Hk Hi Hn Hf; (destruct fuel as [|fuel]; [lia|]);
    cbn [copy_segments]; rewrite (kept_ehdr m' Hk).
  - rewrite (proj2 (Z.ltb_ge _ _)) by lia. done.
  - rewrite (proj2 (Z.ltb_lt _ _)) by lia. cbn [negb].
    destruct (copy_step_spec m' i Hk) as [Hk' Hl]; [lia|].
    destruct (IH fuel (i + 1) _ Hk') as [Hk'' Hr]; [lia..|]. split; [done|]. intros a. rewrite Hr.
    rewrite (seqZ_cons i (Z.of_nat (S n))) by lia. cbn [map fold_left]. replace (Z.pred (Z.of_nat (S n))) with (Z.of_nat n) by lia.
    unfold Z.succ. by apply fold_over_ext.
Qed.

Lemma kernel_copied :
  let m' := copy_segments (Z.to_nat 65536) elf eh 0 (mem_zero base (end_ - base) m) in
  mem_ok m' /\ forall a, load8 m' a = kernel_memory m elf base end_ (kernel_phdrs m elf) a.
Proof.
  cbv zeta. pose proof phnum_bound as Hb.
  destruct (copy_segments_spec (Z.to_nat (e_phnum eh)) (Z.to_nat 65536) 0 (mem_zero base (end_ - base) m)) as [[Hok _] Hl]; [|lia..|].
  { split; [apply mem_zero_ok, (kf_mem _ _ _ Hfile)|]. intros x Hx. rewrite load8_mem_zero. cmp_cases. }
  split; [done|]. intros a. rewrite Hl. rewrite Z2Nat.id by lia. apply fold_over_ext. intros x. rewrite load8_mem_zero.
  by replace (base + (end_ - base)) with end_ by lia.
Qed.
End Copy.

(** ** Properties *)

Lemma kernel_phdrs_ok m elf size : kernel_file m elf size -> Forall ph_ok (kernel_phdrs m elf).
Proof.
  intros [Hm _ _ _ Hs]. rewrite Forall_forall in *. intros ph Hph El. split; [|by apply Hs].
  apply list_elem_of_fmap in Hph as (i & -> & _). by apply read_phdr_words.
Qed.

(** C29: [load_kernel] refuses a file without the magic number or without a
    loadable segment, and leaves the memory as it is.  For any other file whose
    segments lie in it, it asks the firmware for exactly the pages around its
    segments; if that fails the status is returned and the memory is unchanged, and
    if the pages are not those of the file, the result is the entry of the header
    and that range, and every byte of the memory is that of the last segment that
    covers it, zero in the rest of the range and as before elsewhere. *)
Theorem load_kernel_correct {F} (fw : firmware F) m elf size f :
  kernel_file m elf size ->
  let phs := kernel_phdrs m elf in
  if negb (kernel_magic m elf) || negb (existsb loadable phs)
  then load_kernel fw elf f m = (inl EFI_LOAD_ERROR, f, m)
  else exists base end_, kernel_range phs base end_ /\
    match allocate_pages fw base ((end_ - base) / 4096) f with
    | (st, f') =>
        if EFI_ERROR st then load_kernel fw elf f m = (inl st, f', m)
        else elf + size <= base \/ end_ <= elf ->
          exists m', load_kernel fw elf f m = (inr (e_entry (read_ehdr m elf), base, end_ - base), f', m') /\
          mem_ok m' /\ forall a, load8 m' a = kernel_memory m elf base end_ phs a
    end.
Proof.
  intros Hf phs. unfold load_kernel. destruct (kernel_magic m elf); cbn [negb orb]; [|done]. cbv zeta.
  rewrite kernel_extent_fold by apply (phnum_bound m elf size Hf).
  destruct (fold_left extent_of (kernel_phdrs m elf) (UINT64_MAX, 0)) as [lo hi] eqn:E.
  pose proof (extent_range _ _ _ (kernel_phdrs_ok m elf size Hf) E) as Hr. fold phs in Hr, E.
  destruct (existsb loadable phs); cbn [negb]; [|by rewrite Hr].
  destruct Hr as (-> & Hr & Hle & Htop).
  set (base := Z.land lo (not64 0xfff)) in *. set (end_ := Z.land (hi +u 0xfff) (not64 0xfff)) in *.
  exists base, end_. split; [done|]. rewrite (u64_small (end_ - base)) by (unfold word64; lia).
  destruct (allocate_pages fw base _ f) as [st f']. destruct (EFI_ERROR st); [done|]. intros Hd.
  eexists. split; [done|]. apply (kernel_copied m elf size base end_ Hf Hd). apply (kr_covers _ _ _ Hr).
Qed.

Lemma load_kernel_error {F} (fw : firmware F) elf f m st f' m' :
  load_kernel fw elf f m = (inl st, f', m') -> EFI_ERROR st = true.
Proof. unfold load_kernel. intros H. repeat case_match; simplify_eq; done. Qed.

(** The hand-over: what the information holds when the kernel is entered. *)
Definition handed_over {F} (fw : firmware F) (base size : Z) (bi : BootInfo) (f' : F) : Prop :=
  bi_magic bi = ORE_BOOTINFO_MAGIC /\ bi_kernel_base bi = base /\ bi_kernel_size bi = size /\
  (exists mmap cap f1 m1 mmap_size key desc_size f2 m2 st,
    get_memory_map fw cap mmap f1 m1 = (st, (mmap_size, key, desc_size), f2, m2) /\ EFI_ERROR st = false /\
    bi_memory_map bi = copy_memory_map m2 mmap mmap_size desc_size) /\
  Z.of_nat (length (bi_memory_map bi)) = Z.max 0 (bi_memory_map_entries bi) /\
  bi_memory_map_entries bi <= ORE_MEMMAP_MAX /\
  (exists key f1 st, exit_boot_services fw key f1 = (st, f') /\ EFI_ERROR st = false).

Lemma map_entries_le mmap_size desc_size : map_entries mmap_size desc_size <= ORE_MEMMAP_MAX.
Proof. unfold map_entries. cbv zeta. destruct (Z.ltb_spec ORE_MEMMAP_MAX (mmap_size / desc_size)); lia. Qed.

Lemma copy_memory_map_length m mmap mmap_size desc_size :
  Z.of_nat (length (copy_memory_map m mmap mmap_size desc_size)) = Z.max 0 (map_entries mmap_size desc_size).
Proof. unfold copy_memory_map. rewrite length_map, length_seq. lia. Qed.

Lemma leave_firmware_ends {F} (fw : firmware F) entry base size ibase isize f m :
  match leave_firmware fw entry base size ibase isize f m with
  | Return st _ _ => EFI_ERROR st = true
  | Enter entry' bi f' _ => entry' = entry /\ handed_over fw base size bi f'
  end.
Proof.
  unfold leave_firmware. cbv zeta.
  destruct (get_memory_map fw 0 0 f m) as [[[? [[size0 ?] desc0]] f1] m1].
  destruct (allocate_pool fw _ f1) as [[st mmap] f2]. destruct (EFI_ERROR st) eqn:E1; [done|].
  destruct (get_memory_map fw _ mmap f2 m1) as [[[st' [[msize key] desc]] f3] m2] eqn:Hmap. destruct (EFI_ERROR st') eqn:E2; [done|].
  assert (forall fl, (exists key f1 st, exit_boot_services fw key f1 = (st, fl) /\ EFI_ERROR st = false) ->
    handed_over fw base size
      {| bi_magic := ORE_BOOTINFO_MAGIC; bi_rsdp := fill_acpi fw f; bi_kernel_base := base;
         bi_kernel_size := size; bi_initramfs_base := ibase; bi_initramfs_size := isize;
         bi_framebuffer := fill_framebuffer fw f; bi_memory_map_entries := map_entries msize desc;
         bi_memory_map_descriptor_size := sizeof_OreMemoryDescriptor;
         bi_memory_map := copy_memory_map m2 mmap msize desc; bi_cmdline := [] |} fl) as Hh.
  { intros fl Hl. do 3 (split; [done|]). split; [by eauto 20|].
    split; [apply copy_memory_map_length|]. split; [apply map_entries_le|exact Hl]. }
  destruct (exit_boot_services fw key f3) as [st3 f4] eqn:Hx. destruct (EFI_ERROR st3) eqn:E3; cbn [negb]; [|split; [done|]; by eauto 6].
  destruct (get_memory_map fw msize mmap f4 m2) as [[[st4 [[msize' key'] desc']] f5] m3]. destruct (EFI_ERROR st4) eqn:E4; [done|].
  destruct (exit_boot_services fw key' f5) as [st5 f6] eqn:Hx'. destruct (EFI_ERROR st5) eqn:E5; [done|].
  split; [done|]. by eauto 6.
Qed.

(** the kernel is entered only after the firmware has accepted the end of its
    services as the last call, and with what was loaded: the entry and the range
    that [load_kernel] returned for the file that was read, the magic number, and at
    most [ORE_MEMMAP_MAX] descriptors, read from a map the firmware has written.
    Any other end of the loader returns an error status. *)
Theorem efi_main_enters {F} (fw : firmware F) image f m :
  match efi_main fw image f m with
  | Return st _ _ => EFI_ERROR st = true
  | Enter entry bi f' _ => exists st file size f1 m1 base total f2 m2,
      read_file fw image kernel_elf_path f m = (st, file, size, f1, m1) /\ EFI_ERROR st = false /\
      load_kernel fw file f1 m1 = (inr (entry, base, total), f2, m2) /\
      handed_over fw base total bi f'
  end.
Proof.
  unfold efi_main.
  destruct (read_file fw image kernel_elf_path f m) as [[[[st file] size] f1] m1] eqn:Hr. destruct (EFI_ERROR st) eqn:E1; [done|].
  destruct (load_kernel fw file f1 m1) as [[[st2|[[entry base] total]] f2] m2] eqn:Hk; [by eapply load_kernel_error|].
  destruct (allocate_pool fw sizeof_BootInfo f2) as [[st3 ?] f3]. destruct (EFI_ERROR st3) eqn:E3; [done|].
  destruct (read_file fw image initramfs_path f3 m2) as [[[[st4 ib] isz] f4] m3].
  destruct (if EFI_ERROR st4 then (0, 0) else (ib, isz)) as [ib' isz'].
  pose proof (leave_firmware_ends fw entry base total ib' isz' f4 m3) as Hl.
  destruct (leave_firmware fw entry base total ib' isz' f4 m3); [done|]. destruct Hl as [-> Hl].
  by eauto 20.
Qed.

(** ** Examples *)

(** A firmware whose state counts the requests to end its services.  The kernel is
    the file of [Elf.demo_elf], there is no initramfs, and the memory map has one
    descriptor, of as many pages as there were requests and 100 more; the first
    [refused] requests are refused. *)
Definition demo_firmware (refused : nat) : firmware nat := {|
  open_protocol := fun h _ f => (EFI_SUCCESS, h + 1, f);
  open_volume := fun fs f => (EFI_SUCCESS, 7, f);
  file_open := fun _ path f => if decide (path = kernel_elf_path) then (EFI_SUCCESS, 8, f) else (EFI_LOAD_ERROR, 0, f);
  file_read := fun _ _ buffer f _ => (EFI_SUCCESS, 128, f, demo_elf);
  file_close := fun _ f => f;
  allocate_pool := fun size f => (EFI_SUCCESS, if size =? FILE_CAP then 0x200000 else 0x400000, f);
  allocate_pages := fun _ _ f => (EFI_SUCCESS, f);
  locate_framebuffer := fun _ => None;
  configuration_tables := fun _ => [(acpi10_guid, 0xe0000)];
  get_memory_map := fun size mmap f m =>
    if size <? 48 then (EFI_LOAD_ERROR, (48, 0, 48), f, m)
    else (EFI_SUCCESS, (48, Z.of_nat f, 48), f, store64 (store32 m mmap 7) (mmap + 24) (100 + Z.of_nat f));
  exit_boot_services := fun _ f => (if (f <? refused)%nat then EFI_LOAD_ERROR else EFI_SUCCESS, S f);
  device_handle := fun h _ => h |}.

Definition demo_phdr : Elf64_Phdr :=
  {| p_type := PT_LOAD; p_flags := 5; p_offset := 120; p_vaddr := 0x8000000000; p_paddr := 0; p_filesz := 8;
     p_memsz := 16; p_align := 0 |}.

Lemma demo_kernel_phdrs : kernel_phdrs demo_elf 0x200000 = [demo_phdr].
Proof. vm_compute. reflexivity. Qed.

Lemma demo_kernel_file : kernel_file demo_elf 0x200000 128.
Proof.
  split; [|lia|lia|vm_compute; discriminate|].
  - unfold demo_elf, self_test_header. cbv zeta. unfold store32, store64. apply store_bytes_ok.
    repeat lazymatch goal with
    | |- mem_ok (store8 _ _ _) => apply store8_ok
    | |- mem_ok (store_le _ _ _ _) => apply store_le_ok
    end. apply mem_zero_ok, empty_mem_ok.
  - rewrite demo_kernel_phdrs. apply Forall_singleton. intros _. cbn. lia.
Qed.

Lemma load_kernel_correct_witness :
  exists base end_ m', kernel_range (kernel_phdrs demo_elf 0x200000) base end_ /\
  load_kernel (demo_firmware 0) 0x200000 0%nat demo_elf =
    (inr (e_entry (read_ehdr demo_elf 0x200000), base, end_ - base), 0%nat, m') /\
  forall a, load8 m' a = kernel_memory demo_elf 0x200000 base end_ (kernel_phdrs demo_elf 0x200000) a.
Proof.
  pose proof (load_kernel_correct (demo_firmware 0) demo_elf 0x200000 128 0%nat demo_kernel_file) as H.
  cbv zeta in H. rewrite demo_kernel_phdrs in *.
  assert (negb (kernel_magic demo_elf 0x200000) || negb (existsb loadable [demo_phdr]) = false) as E by (vm_compute; reflexivity).
  rewrite E in H. destruct H as (base & end_ & Hr & H). exists base, end_. cbn [allocate_pages demo_firmware] in H.
  destruct H as (m' & H1 & _ & H2).
  - left. destruct (kr_first _ _ _ Hr) as (ph & Hph%list_elem_of_singleton & _ & Hb). subst ph.
    change (load_addr demo_phdr) with 0x8000000000 in Hb. lia.
  - exists m'. split; [exact Hr|]. split; [exact H1|exact H2].
Defined.

(** The end of the loader, with the map the kernel sees. *)
Definition entered (r : @boot_result nat) : option (Z * Z * Z * list Z) :=
  match r with
  | Enter entry bi f _ => Some (entry, bi_kernel_size bi, Z.of_nat f, map d_number_of_pages (bi_memory_map bi))
  | Return _ _ _ => None
  end.

Example demo_boot : entered (efi_main (demo_firmware 0) 1 0%nat ∅) = Some (0x8000000000, 4096, 1, [100]).
Proof. vm_compute. reflexivity. Qed.

(** When the first request is refused because the map has changed, the map is
    fetched again, but the boot information keeps the descriptors of the old one. *)
Lemma stale_memory_map :
  entered (efi_main (demo_firmware 1) 1 0%nat ∅) = Some (0x8000000000, 4096, 2, [100]) /\
  snd (fst (get_memory_map (demo_firmware 1) 480 0x400000 1%nat ∅)) = 1%nat /\
  load64 (snd (get_memory_map (demo_firmware 1) 480 0x400000 1%nat ∅)) (0x400000 + 24) = 101.
Proof. vm_compute. done. Qed.
