(* ===== verification/Console.v ===== *)
(** The framebuffer console (kernel/console.c): the pixels, the text cells with
    their cursor and the escape sequences, and the full-screen pictures.

    The framebuffer is the map of its 32-bit words by index.  The lock and the
    interrupt flag around [console_write] are those of [Spinlock]; the messages on
    the serial port are not part of the state. *)
From stdpp Require Import base numbers list gmap.
From Stdlib Require Import ZArith Lia.
From Stdlib Require Import(notations) Ascii String.
From S2P Require Import Prelude BootInfo Cstring Usermem.

Definition CELL_W : Z := 12.
Definition CELL_H : Z := 18.
Definition TOP_BAR_H : Z := 32.
Definition LEFT_PAD : Z := 16.
Definition BG : Z := 0x000b1014.
Definition PANEL_BG : Z := 0x00101920.
Definition BAR_BG : Z := 0x00182026.
Definition FG : Z := 0x00e6edf3.
Definition DIM : Z := 0x008aa0ad.
Definition ACCENT : Z := 0x004ed7b7.
Definition BLUE : Z := 0x0064b5f6.
Definition YELLOW : Z := 0x00f3cc60.
Definition RED : Z := 0x00ff6b6b.
Definition GREEN : Z := 0x0068d391.
Definition MAGENTA : Z := 0x00c792ea.
Definition CYAN : Z := 0x005fd7e5.
Definition WHITE : Z := 0x00ffffff.

Definition game_palette : list Z :=
  [0x00000000; 0x0011233d; 0x00236fc2; 0x004cc9f0; 0x002f7d32; 0x006fc45a; 0x007a4a28; 0x007f8a93;
   0x00e8eef2; 0x00f5d76e; 0x00e89242; 0x00d64646; 0x00ef4fc3; 0x008746d6; 0x002073a8; 0x00fff6a8].

(** ** Pixels *)

Abbreviation pixmap := (gmap Z Z).

Section Pixels.
Context (fb : OreFramebuffer).

Definition pixel_index (x y : Z) : Z := u32 (y * fb_pixels_per_scanline fb + x).

Definition put_pixel (x y color : Z) (p : pixmap) : pixmap :=
  if (fb_base fb =? 0) || (fb_width fb <=? x) || (fb_height fb <=? y) then p
  else <[pixel_index x y := color]> p.

(** The loops end at the first of their two bounds. *)
Definition fill_rect (x0 y0 w h color : Z) (p : pixmap) : pixmap :=
  for_loop (Z.to_nat (Z.min (u32 (y0 + h)) (fb_height fb) - y0)) y0
    (fun y => for_loop (Z.to_nat (Z.min (u32 (x0 + w)) (fb_width fb) - x0)) x0 (fun x => put_pixel x y color)) p.

Definition letters : list (list Z) :=
  [[14;17;17;31;17;17;17]; [30;17;17;30;17;17;30]; [14;17;16;16;16;17;14]; [30;17;17;17;17;17;30];
   [31;16;16;30;16;16;31]; [31;16;16;30;16;16;16]; [14;17;16;23;17;17;15]; [17;17;17;31;17;17;17];
   [14;4;4;4;4;4;14]; [7;2;2;2;18;18;12]; [17;18;20;24;20;18;17]; [16;16;16;16;16;16;31];
   [17;27;21;21;17;17;17]; [17;25;21;19;17;17;17]; [14;17;17;17;17;17;14]; [30;17;17;30;16;16;16];
   [14;17;17;17;21;18;13]; [30;17;17;30;20;18;17]; [15;16;16;14;1;1;30]; [31;4;4;4;4;4;4];
   [17;17;17;17;17;17;14]; [17;17;17;17;17;10;4]; [17;17;17;21;21;21;10]; [17;17;10;4;10;17;17];
   [17;17;10;4;4;4;4]; [31;1;2;4;8;16;31]].

Definition signs : list (Z * list Z) :=
  [(ch "0", [14;17;19;21;25;17;14]); (ch "1", [4;12;4;4;4;4;14]); (ch "2", [14;17;1;2;4;8;31]);
   (ch "3", [30;1;1;14;1;1;30]); (ch "4", [2;6;10;18;31;2;2]); (ch "5", [31;16;30;1;1;17;14]);
   (ch "6", [6;8;16;30;17;17;14]); (ch "7", [31;1;2;4;8;8;8]); (ch "8", [14;17;17;14;17;17;14]);
   (ch "9", [14;17;17;15;1;2;12]); (ch " ", [0;0;0;0;0;0;0]); (ch "!", [4;4;4;4;4;0;4]);
   (ch ":", [0;4;4;0;4;4;0]); (ch ".", [0;0;0;0;0;12;12]); (ch ",", [0;0;0;0;0;4;8]);
   (ch "/", [1;1;2;4;8;16;16]); (ch "-", [0;0;0;31;0;0;0]); (ch "_", [0;0;0;0;0;0;31]);
   (ch ">", [16;8;4;2;4;8;16]); (ch "<", [1;2;4;8;4;2;1]); (ch "=", [0;0;31;0;31;0;0]);
   (ch "+", [0;4;4;31;4;4;0]); (34, [10;10;0;0;0;0;0]); (ch "'", [4;4;0;0;0;0;0]);
   (ch "(", [2;4;8;8;8;4;2]); (ch ")", [8;4;2;2;2;4;8]); (ch "*", [0;21;14;31;14;21;0]);
   (ch "#", [10;31;10;10;31;10;0])].

Definition qmark : list Z := [14;17;1;2;4;0;4].

(** A character is its byte; the tests on a signed [char] agree with it. *)
Definition glyph_rows (c : Z) : list Z :=
  let c := if (ch "a" <=? c) && (c <=? ch "z") then c - ch "a" + ch "A" else c in
  if (ch "A" <=? c) && (c <=? ch "Z") then nth (Z.to_nat (c - ch "A")) letters []
  else match List.find (fun s => fst s =? c) signs with Some (_, r) => r | None => qmark end.

Definition draw_glyph (px py c color : Z) (p : pixmap) : pixmap :=
  let rows5 := glyph_rows c in
  for_loop 7 0 (fun y => for_loop 5 0 (fun x p =>
    if negb (Z.land (nth (Z.to_nat y) rows5 0) (Z.shiftl 1 (4 - x)) =? 0) then
      let gx := u32 (px + 1 + x * 2) in
      let gy := u32 (py + 2 + y * 2) in
      let p := put_pixel gx gy color p in
      let p := put_pixel (u32 (gx + 1)) gy color p in
      let p := put_pixel gx (u32 (gy + 1)) color p in
      put_pixel (u32 (gx + 1)) (u32 (gy + 1)) color p
    else p)) p.

Fixpoint draw_text_px (x y : Z) (s : list Z) (color : Z) (p : pixmap) : pixmap :=
  match s with
  | [] => p
  | c :: s => draw_text_px (u32 (x + CELL_W)) y s color (draw_glyph x y c color p)
  end.

Definition draw_status_bar (p : pixmap) : pixmap :=
  if fb_base fb =? 0 then p else
  let p := fill_rect 0 0 (fb_width fb) TOP_BAR_H BAR_BG p in
  let p := fill_rect 0 (TOP_BAR_H - 3) (fb_width fb) 1 BLUE p in
  let p := fill_rect 0 (TOP_BAR_H - 2) (fb_width fb) 2 ACCENT p in
  let p := fill_rect 8 7 24 18 ACCENT p in
  let p := draw_text_px 40 9 (bytes_of "ORE") FG p in
  let p := draw_text_px 80 9 (bytes_of "interactive system") ACCENT p in
  draw_text_px (if 224 <? fb_width fb then fb_width fb - 224 else 8) 9 (bytes_of "disk / smp / ring3") DIM p.
End Pixels.

(** ** The console *)

Record escape := mk_escape { esc_state : Z; esc_param : Z; esc_params : list Z; esc_param_count : Z }.
Record text_attributes := mk_attributes { current_fg : Z; current_bg : Z; inverse : Z }.

Record console := mk_console {
  con_fb : OreFramebuffer;
  pixels : pixmap;
  cursor_x : Z;
  cursor_y : Z;
  cols : Z;
  rows : Z;
  text_origin_y : Z;
  text_origin_x : Z;
  con_esc : escape;
  con_attrs : text_attributes;
  gfx_mode_active : Z
}.

Definition set_pixels (k : console) (p : pixmap) : console :=
  mk_console (con_fb k) p (cursor_x k) (cursor_y k) (cols k) (rows k) (text_origin_y k) (text_origin_x k)
    (con_esc k) (con_attrs k) (gfx_mode_active k).
Definition set_cursor (k : console) (x y : Z) : console :=
  mk_console (con_fb k) (pixels k) x y (cols k) (rows k) (text_origin_y k) (text_origin_x k)
    (con_esc k) (con_attrs k) (gfx_mode_active k).
Definition set_esc (k : console) (e : escape) : console :=
  mk_console (con_fb k) (pixels k) (cursor_x k) (cursor_y k) (cols k) (rows k) (text_origin_y k) (text_origin_x k)
    e (con_attrs k) (gfx_mode_active k).
Definition set_attrs (k : console) (a : text_attributes) : console :=
  mk_console (con_fb k) (pixels k) (cursor_x k) (cursor_y k) (cols k) (rows k) (text_origin_y k) (text_origin_x k)
    (con_esc k) a (gfx_mode_active k).
Definition set_gfx (k : console) (g : Z) : console :=
  mk_console (con_fb k) (pixels k) (cursor_x k) (cursor_y k) (cols k) (rows k) (text_origin_y k) (text_origin_x k)
    (con_esc k) (con_attrs k) g.

Definition panel_width (fb : OreFramebuffer) : Z := if 16 <? fb_width fb then fb_width fb - 16 else fb_width fb.

Definition clear_screen (k : console) : console :=
  let fb := con_fb k in
  if fb_base fb =? 0 then k else
  let p := fill_rect fb 0 0 (fb_width fb) (fb_height fb) BG (pixels k) in
  let p := draw_status_bar fb p in
  let p := fill_rect fb 8 (u32 (text_origin_y k - 8)) (panel_width fb) (u32 (fb_height fb - text_origin_y k)) PANEL_BG p in
  set_cursor (set_pixels k p) 0 0.

Definition cell_x (k : console) (cx : Z) : Z := u32 (text_origin_x k + cx * CELL_W).
Definition cell_y (k : console) (cy : Z) : Z := u32 (text_origin_y k + cy * CELL_H).

Definition clear_cell (cx cy : Z) (k : console) : console :=
  set_pixels k (fill_rect (con_fb k) (cell_x k cx) (cell_y k cy) CELL_W CELL_H (current_bg (con_attrs k)) (pixels k)).

(** [p[(dst_y + y) * pitch + x] = p[(src_y + y) * pitch + x]] *)
Definition copy_pixel (fb : OreFramebuffer) (dst_y src_y x : Z) (p : pixmap) : pixmap :=
  <[pixel_index fb x (u32 dst_y) := default 0 (p !! pixel_index fb x (u32 src_y))]> p.

Definition scroll_up (k : console) : console :=
  let fb := con_fb k in
  if (fb_base fb =? 0) || (rows k =? 0) then k else
  let src_y := u32 (text_origin_y k + CELL_H) in
  let dst_y := text_origin_y k in
  let copy_h := if 1 <? rows k then u32 ((rows k - 1) * CELL_H) else 0 in
  let p := for_loop (Z.to_nat copy_h) 0 (fun y =>
             for_loop (Z.to_nat (fb_width fb)) 0 (fun x => copy_pixel fb (dst_y + y) (src_y + y) x)) (pixels k) in
  set_pixels k (fill_rect fb 8 (cell_y k (u32 (rows k - 1))) (panel_width fb) CELL_H PANEL_BG p).

Definition newline (k : console) : console :=
  let k := set_cursor k 0 (u32 (cursor_y k + 1)) in
  if rows k <=? cursor_y k then
    let k := scroll_up k in set_cursor k (cursor_x k) (u32 (rows k - 1))
  else k.

Definition ansi_color (code fallback : Z) : Z :=
  if code =? 30 then 0x001b232b else if code =? 31 then RED else if code =? 32 then GREEN
  else if code =? 33 then YELLOW else if code =? 34 then BLUE else if code =? 35 then MAGENTA
  else if code =? 36 then CYAN else if code =? 37 then FG else if code =? 90 then DIM
  else if code =? 91 then RED else if code =? 92 then GREEN else if code =? 93 then YELLOW
  else if code =? 94 then BLUE else if code =? 95 then MAGENTA else if code =? 96 then CYAN
  else if code =? 97 then WHITE else fallback.

Definition ansi_bg (code fallback : Z) : Z :=
  if (40 <=? code) && (code <=? 47) then ansi_color (code - 10) fallback
  else if (100 <=? code) && (code <=? 107) then ansi_color (code - 60) fallback
  else fallback.

Definition default_attributes : text_attributes := mk_attributes FG PANEL_BG 0.

Definition sgr_one (a : text_attributes) (p : Z) : text_attributes :=
  if p =? 0 then default_attributes
  else if p =? 1 then mk_attributes WHITE (current_bg a) (inverse a)
  else if p =? 2 then mk_attributes DIM (current_bg a) (inverse a)
  else if p =? 7 then mk_attributes (current_fg a) (current_bg a) 1
  else if (p =? 22) || (p =? 27) then mk_attributes (current_fg a) (current_bg a) 0
  else if ((30 <=? p) && (p <=? 37)) || ((90 <=? p) && (p <=? 97)) then
    mk_attributes (ansi_color p (current_fg a)) (current_bg a) (inverse a)
  else if ((40 <=? p) && (p <=? 47)) || ((100 <=? p) && (p <=? 107)) then
    mk_attributes (current_fg a) (ansi_bg p (current_bg a)) (inverse a)
  else a.

Definition sgr_apply (e : escape) (a : text_attributes) : text_attributes :=
  if esc_param_count e =? 0 then default_attributes
  else fold_left sgr_one (take (Z.to_nat (esc_param_count e)) (esc_params e)) a.

Definition esc_reset (e : escape) : escape := mk_escape 0 0 (esc_params e) 0.

Definition esc_push_param (e : escape) : escape :=
  if esc_param_count e <? 4
  then mk_escape (esc_state e) 0 (<[Z.to_nat (esc_param_count e) := esc_param e]> (esc_params e)) (esc_param_count e + 1)
  else mk_escape (esc_state e) 0 (esc_params e) (esc_param_count e).

(** [None] is the result 0: the character is not part of a sequence. *)
Definition handle_escape (c : Z) (k : console) : option console :=
  let e := con_esc k in
  if esc_state e =? 0 then None
  else if esc_state e =? 1 then
    if c =? ch "[" then Some (set_esc k (mk_escape 2 0 (esc_params e) 0))
    else Some (set_esc k (esc_reset e))
  else if (ch "0" <=? c) && (c <=? ch "9") then
    Some (set_esc k (mk_escape (esc_state e) (u32 (esc_param e * 10 + (c - ch "0"))) (esc_params e) (esc_param_count e)))
  else if c =? ch ";" then Some (set_esc k (esc_push_param e))
  else if c =? ch "J" then let k := clear_screen k in Some (set_esc k (esc_reset e))
  else if c =? ch "H" then Some (set_esc (set_cursor k 0 0) (esc_reset e))
  else if c =? ch "m" then
    let e := esc_push_param e in
    Some (set_esc (set_attrs k (sgr_apply e (con_attrs k))) (esc_reset e))
  else Some (set_esc k (esc_reset e)).

(** The character in the cell of the cursor. *)
Definition draw_char (c : Z) (k : console) : console :=
  let a := con_attrs k in
  let fg := if inverse a =? 0 then current_fg a else current_bg a in
  let bg := if inverse a =? 0 then current_bg a else current_fg a in
  let x := cell_x k (cursor_x k) in
  let y := cell_y k (cursor_y k) in
  set_pixels k (draw_glyph (con_fb k) x y c fg (fill_rect (con_fb k) x y CELL_W CELL_H bg (pixels k))).

Definition put_char (c : Z) (k : console) : console :=
  if (fb_base (con_fb k) =? 0) || (cols k =? 0) || (rows k =? 0) then k else
  match handle_escape c k with
  | Some k => k
  | None =>
      if c =? 27 then
        let e := con_esc k in set_esc k (mk_escape 1 (esc_param e) (esc_params e) (esc_param_count e))
      else if c =? 13 then k
      else if c =? 10 then newline k
      else if c =? 8 then
        let k := if cursor_x k =? 0 then k else set_cursor k (cursor_x k - 1) (cursor_y k) in
        clear_cell (cursor_x k) (cursor_y k) k
      else
        let k := draw_char c k in
        let k := set_cursor k (u32 (cursor_x k + 1)) (cursor_y k) in
        if cols k <=? cursor_x k then newline k else k
  end.

(** The string is given without its terminator. *)
Definition console_write (s : list Z) (k : console) : console :=
  let k := if gfx_mode_active k =? 0 then k else clear_screen (set_gfx k 0) in
  fold_left (fun k c => put_char c k) s k.

(** A zero byte is the empty string. *)
Definition console_putc (c : Z) (k : console) : console := console_write (if c =? 0 then [] else [c]) k.

(** The variables before [console_init]. *)
Definition console_zero (p : pixmap) : console :=
  mk_console {| fb_base := 0; fb_width := 0; fb_height := 0; fb_pixels_per_scanline := 0; fb_pixel_format := 0 |}
    p 0 0 0 0 0 0 (mk_escape 0 0 [0; 0; 0; 0] 0) (mk_attributes 0 0 0) 0.

Definition console_init (fb : OreFramebuffer) (k : console) : console :=
  let oy := TOP_BAR_H + 16 in
  let k := mk_console fb (pixels k) 0 0
    (if LEFT_PAD * 2 <? fb_width fb then (fb_width fb - LEFT_PAD * 2) / CELL_W else 0)
    (if oy <? fb_height fb then (fb_height fb - oy) / CELL_H else 0)
    oy LEFT_PAD (con_esc k) default_attributes (gfx_mode_active k) in
  if fb_base fb =? 0 then k
  else console_write (bytes_of "Ore framebuffer console online" ++ [10]) (clear_screen k).

(** ** Pictures *)

Definition ORE_GFX_LOGICAL_WIDTH : Z := 640.
Definition ORE_GFX_LOGICAL_HEIGHT : Z := 480.
Definition ORE_GFX_FORMAT_INDEXED16 : Z := 1.

Record OreGfxInfo := mk_gfx_info {
  gi_width : Z; gi_height : Z; gi_logical_width : Z; gi_logical_height : Z;
  gi_format : Z; gi_pitch : Z; gi_palette_count : Z; gi_reserved : Z }.

(** The pointer [info] is not null. *)
Definition console_gfx_info (k : console) : Z + OreGfxInfo :=
  if fb_base (con_fb k) =? 0 then inl (- ORE_EINVAL)
  else inr (mk_gfx_info (fb_width (con_fb k)) (fb_height (con_fb k)) ORE_GFX_LOGICAL_WIDTH ORE_GFX_LOGICAL_HEIGHT
              ORE_GFX_FORMAT_INDEXED16 ORE_GFX_LOGICAL_WIDTH 16 0).

(** [buffer] is the picture, or [None] for a null pointer. *)
Definition console_gfx_present_indexed16 (buffer : option (Z -> Z)) (width height : Z) (k : console) : Z * console :=
  let fb := con_fb k in
  match buffer with
  | None => ((- ORE_EINVAL), k)
  | Some buffer =>
      if fb_base fb =? 0 then ((- ORE_EINVAL), k)
      else if negb (width =? ORE_GFX_LOGICAL_WIDTH) || negb (height =? ORE_GFX_LOGICAL_HEIGHT) then ((- ORE_EINVAL), k)
      else if (fb_width fb <? width) || (fb_height fb <? height) then ((- ORE_EINVAL), k)
      else
        let x0 := (fb_width fb - width) / 2 in
        let y0 := (fb_height fb - height) / 2 in
        let k := if gfx_mode_active k =? 0
          then set_gfx (set_pixels k (fill_rect fb 0 0 (fb_width fb) (fb_height fb) 0 (pixels k))) 1 else k in
        let p := for_loop (Z.to_nat height) 0 (fun y =>
          for_loop (Z.to_nat width) 0 (fun x p =>
            <[u32 ((y0 + y) * fb_pixels_per_scanline fb) + x0 + x :=
                nth (Z.to_nat (Z.land (buffer (u32 (y * width) + x)) 15)) game_palette 0]> p)) (pixels k) in
        (0, set_pixels k p)
  end.

(** ** Painting *)

(** A framebuffer whose indices do not wrap. *)
Record fb_ok (fb : OreFramebuffer) : Prop := mk_fb_ok {
  fo_base : fb_base fb <> 0;
  fo_width : 0 < fb_width fb <= fb_pixels_per_scanline fb;
  fo_height : 0 < fb_height fb;
  fo_size : fb_height fb * fb_pixels_per_scanline fb < 4294967296
}.

Definition inside (fb : OreFramebuffer) (x y : Z) : Prop := 0 <= x < fb_width fb /\ 0 <= y < fb_height fb.

(** Colour of a pixel of the screen. *)
Definition at_pixel (fb : OreFramebuffer) (p : pixmap) (x y : Z) : Z := default 0 (p !! pixel_index fb x y).

(** Words of the framebuffer that are not on the screen are as they were. *)
Definition off_screen (fb : OreFramebuffer) (p p' : pixmap) : Prop :=
  forall i, (forall x y, inside fb x y -> i <> pixel_index fb x y) -> p' !! i = p !! i.

#[export] Instance off_screen_preorder fb : PreOrder (off_screen fb).
Proof. split; [by intros p i|]. intros p q r H1 H2 i Hi. by rewrite H2, H1. Qed.

(** A loop whose rounds paint, each where its predicate tells. *)
Lemma paint_loop (g : pixmap -> Z) (cov : Z -> bool) color f n i p :
  (forall j q, i <= j < i + Z.of_nat n -> g (f j q) = if cov j then color else g q) ->
  g (for_loop n i f p) = if existsb cov (seqZ i (Z.of_nat n)) then color else g p.
Proof.
  revert i p. induction n as [|n IH]; intros i p Hf; [done|]. cbn [for_loop].
  rewrite (seqZ_cons i (Z.of_nat (S n))) by lia. replace (Z.pred (Z.of_nat (S n))) with (Z.of_nat n) by lia.
  unfold Z.succ. cbn [existsb]. rewrite IH by (intros; apply Hf; lia). rewrite Hf by lia.
  by destruct (cov i), (existsb cov _).
Qed.

Lemma existsb_seqZ (cov : Z -> bool) i n j :
  i <= j < i + n -> (forall x, i <= x < i + n -> cov x = (x =? j)) -> existsb cov (seqZ i n) = true.
Proof.
  intros Hj Hc. apply existsb_exists. exists j. split; [|rewrite Hc by done; apply Z.eqb_refl].
  apply list_elem_of_In, elem_of_seqZ. lia.
Qed.

Lemma existsb_none (cov : Z -> bool) i n : (forall x, i <= x < i + n -> cov x = false) -> existsb cov (seqZ i n) = false.
Proof.
  intros Hc. destruct (existsb cov _) eqn:E; [|done]. apply existsb_exists in E as (x & Hx%list_elem_of_In & E).
  apply elem_of_seqZ in Hx. by rewrite Hc in E.
Qed.

Lemma loop_off_screen fb f n i p :
  (forall j q, i <= j < i + Z.of_nat n -> off_screen fb q (f j q)) -> off_screen fb p (for_loop n i f p).
Proof.
  intros Hf. apply (for_loop_inv (fun _ q => off_screen fb p q)); [done|]. intros j q Hj Hq. etrans; [exact Hq|]. by apply Hf.
Qed.

Section Painting.
Context (fb : OreFramebuffer) (Hfb : fb_ok fb).
#[local] Abbreviation at' := (at_pixel fb).

Lemma pixel_index_eq x y : inside fb x y -> pixel_index fb x y = y * fb_pixels_per_scanline fb + x.
Proof.
  intros [Hx Hy]. destruct Hfb as [_ Hw Hh Hs]. unfold pixel_index. apply u32_small. unfold word32.
  split; [|apply Z.lt_le_trans with ((y + 1) * fb_pixels_per_scanline fb)]; nia.
Qed.

Lemma pixel_index_inj x y x' y' :
  inside fb x y -> inside fb x' y' -> pixel_index fb x y = pixel_index fb x' y' -> x = x' /\ y = y'.
Proof.
  intros H H' E. rewrite !pixel_index_eq in E by done. destruct H as [Hx Hy], H' as [Hx' Hy'], Hfb as [_ Hw _ _].
  assert (y = y'); [|split; [subst|]; lia].
  destruct (Z.lt_trichotomy y y') as [?|[?|?]]; [|done|]; exfalso; nia.
Qed.

Lemma at_insert x y x' y' c p :
  inside fb x y -> inside fb x' y' ->
  at' (<[pixel_index fb x' y' := c]> p) x y = if (x' =? x) && (y' =? y) then c else at' p x y.
Proof.
  intros H H'. unfold at_pixel. destruct (decide (pixel_index fb x' y' = pixel_index fb x y)) as [E|E].
  - rewrite E, lookup_insert_eq. destruct (pixel_index_inj _ _ _ _ H' H E) as [-> ->]. by rewrite !Z.eqb_refl.
  - rewrite lookup_insert_ne by done. destruct (Z.eqb_spec x' x), (Z.eqb_spec y' y); try done. by subst.
Qed.

Lemma insert_off_screen x y c p : inside fb x y -> off_screen fb p (<[pixel_index fb x y := c]> p).
Proof. intros H i Hi. rewrite lookup_insert_ne; [done|]. intros E. by apply (Hi x y H). Qed.

Lemma at_put_pixel x y x' y' c p :
  inside fb x y -> 0 <= x' -> 0 <= y' ->
  at' (put_pixel fb x' y' c p) x y = if (x' =? x) && (y' =? y) then c else at' p x y.
Proof.
  intros H Hx Hy. unfold put_pixel. rewrite (proj2 (Z.eqb_neq _ _)) by apply Hfb. cbn [orb].
  destruct (Z.leb_spec (fb_width fb) x'), (Z.leb_spec (fb_height fb) y'); cbn [orb];
    try (by apply at_insert; [|split]); destruct H; cmp_cases.
Qed.

Lemma put_pixel_off_screen x y c p : 0 <= x -> 0 <= y -> off_screen fb p (put_pixel fb x y c p).
Proof.
  intros Hx Hy. unfold put_pixel. destruct (_ || _) eqn:E; [done|]. apply insert_off_screen.
  split; cmp_cases; apply orb_false_iff in E as [E E2]; apply orb_false_iff in E as [_ E1];
    apply Z.leb_gt in E1, E2; lia.
Qed.

Lemma at_fill_rect x0 y0 w h color p x y :
  inside fb x y -> 0 <= x0 -> 0 <= y0 -> 0 <= w -> 0 <= h -> x0 + w < 4294967296 -> y0 + h < 4294967296 ->
  at' (fill_rect fb x0 y0 w h color p) x y =
  if (x0 <=? x) && (x <? x0 + w) && (y0 <=? y) && (y <? y0 + h) then color else at' p x y.
Proof.
  intros H Hx0 Hy0 Hw Hh Hxw Hyh. unfold fill_rect. rewrite !u32_small by (unfold word32; lia).
  set (nx := Z.to_nat (Z.min (x0 + w) (fb_width fb) - x0)). set (ny := Z.to_nat (Z.min (y0 + h) (fb_height fb) - y0)).
  rewrite (paint_loop (fun p => at' p x y) (fun j => (x0 <=? x) && (x <? x0 + w) && (j =? y)) color).
  - destruct ((x0 <=? x) && (x <? x0 + w)) eqn:Ex; cbn [andb].
    + destruct (decide (y0 <= y < y0 + h)) as [Hy|Hy].
      * rewrite (existsb_seqZ _ _ _ y) by (destruct H; intros; lia). cmp_cases.
      * rewrite existsb_none; [cmp_cases|]. intros j Hj. apply Z.eqb_neq. lia.
    + by rewrite existsb_none.
  - intros j q Hj. rewrite (paint_loop (fun p => at' p x y) (fun i => (i =? x) && (j =? y)) color).
    + destruct (Z.eqb_spec j y); [|rewrite andb_false_r, existsb_none by (intros; apply andb_false_r); done].
      rewrite andb_true_r. destruct (decide (x0 <= x < x0 + w)) as [Hx|Hx].
      * rewrite (existsb_seqZ _ _ _ x) by (destruct H; intros; rewrite ?andb_true_r; lia). cmp_cases.
      * rewrite existsb_none by (intros; rewrite andb_true_r; apply Z.eqb_neq; lia). cmp_cases.
    + intros i q' Hi. apply at_put_pixel; [done|lia..].
Qed.

Lemma fill_rect_off_screen x0 y0 w h color p : 0 <= x0 -> 0 <= y0 -> off_screen fb p (fill_rect fb x0 y0 w h color p).
Proof.
  intros Hx Hy. apply loop_off_screen. intros j q Hj. apply loop_off_screen. intros i q' Hi.
  apply put_pixel_off_screen; lia.
Qed.

(** *** Glyphs *)

(** Whether the glyph of [c] covers the pixel of its cell. *)
Definition dot (c gx gy : Z) : bool := negb (Z.land (nth (Z.to_nat gy) (glyph_rows c) 0) (Z.shiftl 1 (4 - gx)) =? 0).
Definition ink (c dx dy : Z) : bool :=
  (1 <=? dx) && (dx <? 11) && (2 <=? dy) && (dy <? 16) && dot c ((dx - 1) / 2) ((dy - 2) / 2).

(** The square of a dot. *)
Definition square (px py gx gy x y : Z) : bool :=
  (px + 1 + gx * 2 <=? x) && (x <? px + 3 + gx * 2) && (py + 2 + gy * 2 <=? y) && (y <? py + 4 + gy * 2).

Lemma at_square px py gx gy color p x y :
  inside fb x y -> 0 <= px -> 0 <= py -> px + 12 < 4294967296 -> py + 18 < 4294967296 -> 0 <= gx < 5 -> 0 <= gy < 7 ->
  at' (let gx := u32 (px + 1 + gx * 2) in let gy := u32 (py + 2 + gy * 2) in
       let p := put_pixel fb gx gy color p in
       let p := put_pixel fb (u32 (gx + 1)) gy color p in
       let p := put_pixel fb gx (u32 (gy + 1)) color p in
       put_pixel fb (u32 (gx + 1)) (u32 (gy + 1)) color p) x y =
  if square px py gx gy x y then color else at' p x y.
Proof.
  intros H Hpx Hpy Hpx' Hpy' Hgx Hgy. cbv zeta. rewrite !(u32_small (px + 1 + _)), !(u32_small (py + 2 + _)) by (unfold word32; lia).
  rewrite !u32_small by (unfold word32; lia). rewrite !at_put_pixel by (done || lia). unfold square. cmp_cases.
Qed.

Lemma ink_squares px py c x y :
  existsb (fun gy => existsb (fun gx => dot c gx gy && square px py gx gy x y) (seqZ 0 5)) (seqZ 0 7) = ink c (x - px) (y - py).
Proof.
  unfold ink. apply eq_true_iff_eq. rewrite existsb_exists, !andb_true_iff, !Z.leb_le, !Z.ltb_lt. split.
  - intros (gy & Hgy%list_elem_of_In%elem_of_seqZ & (gx & Hgx%list_elem_of_In%elem_of_seqZ & E)%existsb_exists).
    unfold square in E. rewrite !andb_true_iff, !Z.leb_le, !Z.ltb_lt in E. destruct E as (Hd & ((H1 & H2) & H3) & H4).
    assert ((x - px - 1) / 2 = gx) as -> by (clear - H1 H2; zlia).
    assert ((y - py - 2) / 2 = gy) as -> by (clear - H3 H4; zlia). split; [lia|done].
  - intros [(((H1 & H2) & H3) & H4) Hd]. exists ((y - py - 2) / 2).
    split; [apply list_elem_of_In, elem_of_seqZ; clear - H3 H4; zlia|].
    apply existsb_exists. exists ((x - px - 1) / 2). split; [apply list_elem_of_In, elem_of_seqZ; clear - H1 H2; zlia|].
    rewrite Hd. unfold square. rewrite !andb_true_iff, !Z.leb_le, !Z.ltb_lt. split; [done|]. clear Hd.
    split; [split; [split|]|]; zlia.
Qed.

Lemma at_draw_glyph px py c color p x y :
  inside fb x y -> 0 <= px -> 0 <= py -> px + 12 < 4294967296 -> py + 18 < 4294967296 ->
  at' (draw_glyph fb px py c color p) x y = if ink c (x - px) (y - py) then color else at' p x y.
Proof.
  intros H Hpx Hpy Hpx' Hpy'. unfold draw_glyph. cbv zeta. rewrite <- ink_squares. apply (paint_loop (fun p => at' p x y)).
  intros gy q Hgy. apply (paint_loop (fun p => at' p x y)). intros gx q' Hgx. fold (dot c gx gy).
  destruct (dot c gx gy); [|done]. cbn [andb]. apply at_square; [done|lia..].
Qed.

Lemma draw_glyph_off_screen px py c color p : off_screen fb p (draw_glyph fb px py c color p).
Proof.
  apply loop_off_screen. intros gy q Hgy. apply loop_off_screen. intros gx q' Hgx. case_test; [|done].
  pose proof u32_bound as Hb. unfold word32 in Hb. cbv zeta.
  repeat (etrans; [|apply put_pixel_off_screen; apply Hb]). done.
Qed.

(** Glyphs have no dot above or below their rows. *)
Lemma at_glyph_rows px py c color p x y :
  inside fb x y -> 0 <= py -> py + 18 < 4294967296 -> ~ (py <= y < py + 18) ->
  at' (draw_glyph fb px py c color p) x y = at' p x y.
Proof.
  intros H Hpy Hpy' Hy. unfold draw_glyph. cbv zeta.
  rewrite (paint_loop (fun p => at' p x y) (fun _ => false) color); [by rewrite existsb_none|].
  intros gy q Hgy. rewrite (paint_loop (fun p => at' p x y) (fun _ => false) color); [by rewrite existsb_none|].
  intros gx q' Hgx. case_test; [|done]. pose proof u32_bound as Hb. unfold word32 in Hb.
  rewrite !(u32_small (py + 2 + _)) by (unfold word32; lia). rewrite (u32_small (py + 2 + gy * 2 + 1)) by (unfold word32; lia).
  rewrite !at_put_pixel by (done || apply Hb || lia).
  rewrite !(proj2 (Z.eqb_neq _ y)) by lia. by rewrite !andb_false_r.
Qed.

Lemma at_text_rows px py s color p x y :
  inside fb x y -> 0 <= py -> py + 18 < 4294967296 -> ~ (py <= y < py + 18) ->
  at' (draw_text_px fb px py s color p) x y = at' p x y.
Proof.
  intros H H1 H2 H3. revert px p. induction s as [|c s IH]; intros px p; cbn [draw_text_px]; [done|].
  by rewrite IH, at_glyph_rows.
Qed.

Lemma draw_text_off_screen px py s color p : off_screen fb p (draw_text_px fb px py s color p).
Proof.
  revert px p. induction s as [|c s IH]; intros px p; cbn [draw_text_px]; [done|].
  etrans; [apply draw_glyph_off_screen|apply IH].
Qed.

(** The status bar is above the text. *)
Lemma at_status_bar p x y : inside fb x y -> TOP_BAR_H <= y -> at' (draw_status_bar fb p) x y = at' p x y.
Proof.
  intros H Hy. pose proof Hfb as [Hb Hw Hh Hs]. assert (fb_width fb < 4294967296) by nia. unfold draw_status_bar.
  rewrite (proj2 (Z.eqb_neq _ _)) by done. cbv zeta. unfold TOP_BAR_H in *.
  rewrite !at_text_rows by (done || lia). rewrite !at_fill_rect by (done || lia). cmp_cases.
Qed.

Lemma status_bar_off_screen p : off_screen fb p (draw_status_bar fb p).
Proof.
  unfold draw_status_bar. case_test; [done|]. cbv zeta.
  repeat first [etrans; [|apply draw_text_off_screen]|etrans; [|apply fill_rect_off_screen; unfold TOP_BAR_H; lia]]. done.
Qed.

(** *** Scrolling *)

Lemma at_copy_row dst src p x y :
  inside fb x y -> 0 <= dst < fb_height fb -> 0 <= src < fb_height fb -> dst <> src ->
  at' (for_loop (Z.to_nat (fb_width fb)) 0 (copy_pixel fb dst src) p) x y = if y =? dst then at' p x src else at' p x y.
Proof.
  intros H Hd Hs Hne. pose proof Hfb as [_ Hw Hh Hz]. assert (fb_height fb < 4294967296) by nia.
  set (P := fun j q => forall x y, inside fb x y -> at' q x y = if (y =? dst) && (x <? j) then at' p x src else at' p x y).
  assert (P (0 + Z.of_nat (Z.to_nat (fb_width fb))) (for_loop (Z.to_nat (fb_width fb)) 0 (copy_pixel fb dst src) p)) as Hl.
  { apply for_loop_inv; [intros x' y' [Hx' _]; cmp_cases|]. intros j q Hj IH x' y' H'. unfold copy_pixel.
    rewrite !u32_small by (unfold word32; lia). rewrite at_insert by (done || (split; lia)).
    fold (at_pixel fb q j src). rewrite !IH by (done || (split; lia)). rewrite (proj2 (Z.eqb_neq src dst)) by lia. cbn [andb].
    destruct (Z.eqb_spec j x'), (Z.eqb_spec dst y'), (Z.eqb_spec y' dst); subst; cbn [andb]; cmp_cases. }
  rewrite (Hl x y H). destruct H. cmp_cases.
Qed.

Lemma copy_row_off_screen dst src p :
  0 <= dst < fb_height fb -> off_screen fb p (for_loop (Z.to_nat (fb_width fb)) 0 (copy_pixel fb dst src) p).
Proof.
  intros Hd. pose proof Hfb as [_ Hw Hh Hz]. assert (fb_height fb < 4294967296) by nia.
  apply loop_off_screen. intros j q Hj. unfold copy_pixel. rewrite (u32_small dst) by (unfold word32; lia).
  apply insert_off_screen. split; lia.
Qed.

(** Rows [[oy, oy + n)] become the rows [d] below them. *)
Lemma at_copy_rows oy d n p x y :
  inside fb x y -> 0 <= oy -> 0 < d -> oy + d + Z.of_nat n <= fb_height fb ->
  at' (for_loop n 0 (fun j => for_loop (Z.to_nat (fb_width fb)) 0 (copy_pixel fb (oy + j) (oy + d + j))) p) x y =
  if (oy <=? y) && (y <? oy + Z.of_nat n) then at' p x (y + d) else at' p x y.
Proof.
  intros H Ho Hd Hn.
  set (P := fun j q => forall x y, inside fb x y ->
    at' q x y = if (oy <=? y) && (y <? oy + j) then at' p x (y + d) else at' p x y).
  assert (P (0 + Z.of_nat n)
    (for_loop n 0 (fun j => for_loop (Z.to_nat (fb_width fb)) 0 (copy_pixel fb (oy + j) (oy + d + j))) p)) as Hl.
  { apply for_loop_inv; [intros x' y' _; cmp_cases|]. intros j q Hj IH x' y' H'.
    rewrite at_copy_row by (done || lia). destruct (Z.eqb_spec y' (oy + j)) as [->|Hne].
    - rewrite IH by (destruct H'; split; lia). cmp_cases. f_equal. lia.
    - rewrite IH by done. cmp_cases. }
  rewrite (Hl x y H). done.
Qed.
End Painting.

(** ** The state of the console *)

Record console_ok (k : console) : Prop := mk_console_ok {
  co_fb : fb_ok (con_fb k);
  co_origin : text_origin_x k = LEFT_PAD /\ text_origin_y k = TOP_BAR_H + 16;
  co_cols : 0 <= cols k /\ (cols k = 0 \/ LEFT_PAD + cols k * CELL_W <= fb_width (con_fb k) - LEFT_PAD);
  co_rows : 0 <= rows k /\ (rows k = 0 \/ TOP_BAR_H + 16 + rows k * CELL_H <= fb_height (con_fb k));
  co_x : 0 <= cursor_x k <= Z.max 0 (cols k - 1);
  co_y : 0 <= cursor_y k <= Z.max 0 (rows k - 1);
  co_state : 0 <= esc_state (con_esc k) <= 2;
  co_params : length (esc_params (con_esc k)) = 4%nat /\ 0 <= esc_param_count (con_esc k) <= 4
}.

(** A step keeps the state well formed and the words off the screen. *)
Record safe_step (k k' : console) : Prop := mk_safe_step {
  ss_ok : console_ok k';
  ss_fb : con_fb k' = con_fb k;
  ss_grid : cols k' = cols k /\ rows k' = rows k;
  ss_off : off_screen (con_fb k) (pixels k) (pixels k')
}.

Lemma safe_refl k : console_ok k -> safe_step k k.
Proof. by split. Qed.

Lemma safe_trans k1 k2 k3 : safe_step k1 k2 -> safe_step k2 k3 -> safe_step k1 k3.
Proof.
  intros [_ F1 [C1 R1] O1] [K F2 [C2 R2] O2]. split; [done|congruence|by split; congruence|].
  etrans; [exact O1|]. by rewrite <- F1.
Qed.

Lemma console_word k : console_ok k -> fb_width (con_fb k) < 4294967296 /\ fb_height (con_fb k) < 4294967296.
Proof. intros [[_ Hw Hh Hs] _ _ _ _ _ _ _]. split; nia. Qed.

Lemma set_pixels_safe k p : console_ok k -> off_screen (con_fb k) (pixels k) p -> safe_step k (set_pixels k p).
Proof. intros [] Hp. by split. Qed.

Lemma set_cursor_safe k x y :
  console_ok k -> 0 <= x <= Z.max 0 (cols k - 1) -> 0 <= y <= Z.max 0 (rows k - 1) -> safe_step k (set_cursor k x y).
Proof. intros [] Hx Hy. by split. Qed.

Lemma set_esc_safe k e :
  console_ok k -> 0 <= esc_state e <= 2 -> length (esc_params e) = 4%nat /\ 0 <= esc_param_count e <= 4 -> safe_step k (set_esc k e).
Proof. intros [] ? ?. by split. Qed.

Lemma set_attrs_safe k a : console_ok k -> safe_step k (set_attrs k a).
Proof. intros []. by split. Qed.

Lemma set_gfx_safe k g : console_ok k -> safe_step k (set_gfx k g).
Proof. intros []. by split. Qed.

Lemma clear_screen_safe k : console_ok k -> safe_step k (clear_screen k).
Proof.
  intros Hk. unfold clear_screen. case_test; [by apply safe_refl|]. cbv zeta.
  assert (safe_step k (set_pixels k (fill_rect (con_fb k) 8 (u32 (text_origin_y k - 8)) (panel_width (con_fb k))
    (u32 (fb_height (con_fb k) - text_origin_y k)) PANEL_BG (draw_status_bar (con_fb k)
      (fill_rect (con_fb k) 0 0 (fb_width (con_fb k)) (fb_height (con_fb k)) BG (pixels k)))))) as H.
  { apply set_pixels_safe; [done|]. etrans; [|apply fill_rect_off_screen; [lia|apply u32_bound]].
    etrans; [|apply status_bar_off_screen]. apply fill_rect_off_screen; lia. }
  eapply safe_trans; [exact H|]. apply set_cursor_safe; [apply H|lia..].
Qed.

Lemma clear_cell_safe cx cy k : console_ok k -> safe_step k (clear_cell cx cy k).
Proof. intros Hk. apply set_pixels_safe; [done|]. apply fill_rect_off_screen; apply u32_bound. Qed.

Lemma scroll_up_safe k : console_ok k -> safe_step k (scroll_up k).
Proof.
  intros Hk. unfold scroll_up. case_test; [by apply safe_refl|]. cbv zeta. pose proof (console_word k Hk) as [_ Hh].
  destruct Hk as [Hfb [Hox Hoy] Hc Hr Hx Hy He Hp]. apply set_pixels_safe; [by split|].
  etrans; [|apply fill_rect_off_screen; [lia|apply u32_bound]]. unfold CELL_H, TOP_BAR_H in *.
  apply loop_off_screen. intros j q Hj. apply copy_row_off_screen; [done|].
  apply orb_false_iff in E as [_ E%Z.eqb_neq]. destruct (Z.ltb_spec 1 (rows k)); [|cbn in Hj; lia].
  rewrite u32_small in Hj by (unfold word32; lia). lia.
Qed.

Lemma scroll_up_cursor k x y : scroll_up (set_cursor k x y) = set_cursor (scroll_up k) x y.
Proof. unfold scroll_up. cbn. by case_test. Qed.

Lemma scroll_up_rows k : rows (scroll_up k) = rows k.
Proof. unfold scroll_up. by case_test. Qed.

Lemma newline_eq k : console_ok k -> rows k <> 0 ->
  newline k = if cursor_y k + 1 =? rows k then set_cursor (scroll_up k) 0 (rows k - 1) else set_cursor k 0 (cursor_y k + 1).
Proof.
  intros Hk Hr. pose proof (console_word k Hk) as [_ Hh]. destruct (co_rows _ Hk) as [Hr0 Hr1]. pose proof (co_y _ Hk) as Hy.
  unfold CELL_H, TOP_BAR_H in *. unfold newline. cbv zeta. rewrite (u32_small (cursor_y k + 1)) by (unfold word32; lia).
  rewrite scroll_up_cursor. cbn [rows cursor_y cursor_x set_cursor]. rewrite scroll_up_rows.
  rewrite (u32_small (rows k - 1)) by (unfold word32; lia).
  destruct (Z.leb_spec (rows k) (cursor_y k + 1)), (Z.eqb_spec (cursor_y k + 1) (rows k)); done || lia.
Qed.

Lemma newline_safe k : console_ok k -> rows k <> 0 -> safe_step k (newline k).
Proof.
  intros Hk Hr. rewrite newline_eq by done. pose proof (scroll_up_safe k Hk) as Hs. pose proof (co_y _ Hk). destruct (co_rows _ Hk) as [Hr0 _].
  destruct (Z.eqb_spec (cursor_y k + 1) (rows k)); [|apply set_cursor_safe; [done|lia..]].
  eapply safe_trans; [exact Hs|]. apply set_cursor_safe; [apply Hs|lia|]. destruct (ss_grid _ _ Hs). lia.
Qed.

Lemma esc_push_ok e :
  length (esc_params e) = 4%nat /\ 0 <= esc_param_count e <= 4 ->
  length (esc_params (esc_push_param e)) = 4%nat /\ 0 <= esc_param_count (esc_push_param e) <= 4.
Proof.
  intros [Hl Hc]. unfold esc_push_param. destruct (Z.ltb_spec (esc_param_count e) 4); cbn; [|done].
  rewrite length_insert. lia.
Qed.

Lemma esc_push_state e : esc_state (esc_push_param e) = esc_state e.
Proof. unfold esc_push_param. by case_test. Qed.

Lemma handle_escape_safe c k : console_ok k -> match handle_escape c k with Some k' => safe_step k k' | None => esc_state (con_esc k) = 0 end.
Proof.
  intros Hk. unfold handle_escape. cbv zeta. pose proof (co_params _ Hk) as [Hp Hc]. pose proof (co_state _ Hk) as Hs.
  assert (forall k', safe_step k k' -> forall e, esc_params e = esc_params (con_esc k) \/ esc_params e = esc_params (esc_push_param (con_esc k)) ->
    0 <= esc_state e <= 2 -> 0 <= esc_param_count e <= 4 -> safe_step k (set_esc k' e)) as Hset.
  { intros k' Hk' e He Hst Hct. eapply safe_trans; [exact Hk'|]. apply set_esc_safe; [apply Hk'|done|].
    pose proof (esc_push_ok _ (conj Hp Hc)) as [Hp' _]. destruct He as [->| ->]; done. }
  pose proof (safe_refl k Hk) as Hr. pose proof (esc_push_ok _ (conj Hp Hc)) as [_ Hc'].
  destruct (Z.eqb_spec (esc_state (con_esc k)) 0); [done|].
  repeat match goal with |- context [if ?b then _ else _] => destruct b end;
    (apply Hset; [|cbn; by auto|cbn; try lia|cbn; try lia]);
    try done; try (by apply clear_screen_safe); try (apply set_cursor_safe; [done|lia..]); try (by apply set_attrs_safe).
  by rewrite esc_push_state.
Qed.

Lemma draw_char_safe c k : console_ok k -> safe_step k (draw_char c k).
Proof.
  intros Hk. apply set_pixels_safe; [done|]. etrans; [|apply draw_glyph_off_screen]. apply fill_rect_off_screen; apply u32_bound.
Qed.

(** The column does not matter for the next line. *)
Lemma newline_x k x : newline (set_cursor k x (cursor_y k)) = newline k.
Proof. done. Qed.

Lemma put_char_safe c k : console_ok k -> safe_step k (put_char c k).
Proof.
  intros Hk. unfold put_char. destruct (_ || _) eqn:E; [by apply safe_refl|].
  apply orb_false_iff in E as [E Hr%Z.eqb_neq]. apply orb_false_iff in E as [_ Hc%Z.eqb_neq].
  pose proof (handle_escape_safe c k Hk) as He. destruct (handle_escape c k); [done|].
  destruct (c =? 27). { apply set_esc_safe; [done|cbn; lia|apply (co_params _ Hk)]. }
  destruct (c =? 13); [by apply safe_refl|]. destruct (c =? 10); [by apply newline_safe|].
  pose proof (co_x _ Hk) as Hx. pose proof (co_y _ Hk) as Hy. destruct (co_cols _ Hk) as [Hc0 Hc1].
  destruct (console_word k Hk) as [Hw _]. unfold LEFT_PAD, CELL_W in Hc1. destruct (c =? 8); cbv zeta.
  - assert (safe_step k (if cursor_x k =? 0 then k else set_cursor k (cursor_x k - 1) (cursor_y k))) as Hs.
    { destruct (Z.eqb_spec (cursor_x k) 0); [by apply safe_refl|apply set_cursor_safe; [done|lia..]]. }
    eapply safe_trans; [exact Hs|]. apply clear_cell_safe, Hs.
  - pose proof (draw_char_safe c k Hk) as Hd. cbn [cursor_x cursor_y draw_char set_pixels].
    rewrite (u32_small (cursor_x k + 1)) by (unfold word32; lia). cbn [cols cursor_x set_cursor].
    change (cols (draw_char c k)) with (cols k). change (cursor_y k) with (cursor_y (draw_char c k)).
    eapply safe_trans; [exact Hd|]. destruct (Z.leb_spec (cols k) (cursor_x k + 1)).
    + rewrite newline_x. by apply newline_safe; [apply Hd|].
    + apply set_cursor_safe; [apply Hd|cbn; lia..].
Qed.

Lemma console_write_safe s k : console_ok k -> safe_step k (console_write s k).
Proof.
  intros Hk. unfold console_write. cbv zeta.
  assert (safe_step k (if gfx_mode_active k =? 0 then k else clear_screen (set_gfx k 0))) as Hg.
  { case_test; [by apply safe_refl|]. pose proof (set_gfx_safe k 0 Hk) as H. eapply safe_trans; [exact H|].
    apply clear_screen_safe, H. }
  eapply safe_trans; [exact Hg|]. destruct Hg as [Hg _ _ _]. revert Hg. generalize (if gfx_mode_active k =? 0 then k else clear_screen (set_gfx k 0)).
  clear k Hk. induction s as [|c s IH]; intros k Hk; cbn [fold_left]; [by apply safe_refl|].
  pose proof (put_char_safe c k Hk) as H. eapply safe_trans; [exact H|]. apply IH, H.
Qed.

(** *** Pictures *)

(** The index of the picture loop is that of the pixel. *)
Lemma picture_index fb x y : fb_ok fb -> inside fb x y -> u32 (y * fb_pixels_per_scanline fb) + x = pixel_index fb x y.
Proof.
  intros Hfb H. rewrite pixel_index_eq by done. f_equal. destruct Hfb as [_ Hw Hh Hs], H as [Hx Hy].
  apply u32_small. unfold word32. nia.
Qed.

Lemma gfx_present_safe buffer w h k : console_ok k -> safe_step k (snd (console_gfx_present_indexed16 buffer w h k)).
Proof.
  intros Hk. unfold console_gfx_present_indexed16. destruct buffer as [buffer|]; [|by apply safe_refl].
  destruct (fb_base _ =? 0); [by apply safe_refl|]. destruct (_ || _); [by apply safe_refl|].
  destruct (_ || _) eqn:E; [by apply safe_refl|]. apply orb_false_iff in E as [Ew%Z.ltb_ge Eh%Z.ltb_ge]. cbv zeta. cbn [snd].
  set (k1 := if gfx_mode_active k =? 0 then _ else k).
  assert (safe_step k k1) as H1.
  { unfold k1. case_test; [|by apply safe_refl]. pose proof (set_pixels_safe k _ Hk
      (fill_rect_off_screen (con_fb k) 0 0 (fb_width (con_fb k)) (fb_height (con_fb k)) 0 (pixels k) ltac:(lia) ltac:(lia))) as H.
    eapply safe_trans; [exact H|]. apply set_gfx_safe, H. }
  eapply safe_trans; [exact H1|]. apply set_pixels_safe; [apply H1|]. rewrite (ss_fb _ _ H1).
  apply loop_off_screen. intros y q Hy. apply loop_off_screen. intros x q' Hx. rewrite <- Z.add_assoc.
  assert (inside (con_fb k) ((fb_width (con_fb k) - w) / 2 + x) ((fb_height (con_fb k) - h) / 2 + y)) as Hi.
  { clear - Ew Eh Hx Hy. split; zlia. }
  rewrite picture_index by (done || apply (co_fb _ Hk)). by apply insert_off_screen.
Qed.

Lemma console_init_eq fb k :
  fb_ok fb -> length (esc_params (con_esc k)) = 4%nat /\ 0 <= esc_param_count (con_esc k) <= 4 -> 0 <= esc_state (con_esc k) <= 2 ->
  exists k0, console_ok k0 /\ con_fb k0 = fb /\ pixels k0 = pixels k /\ con_esc k0 = con_esc k /\ con_attrs k0 = default_attributes /\
    gfx_mode_active k0 = gfx_mode_active k /\
    cols k0 = (if 32 <? fb_width fb then (fb_width fb - 32) / 12 else 0) /\
    rows k0 = (if 48 <? fb_height fb then (fb_height fb - 48) / 18 else 0) /\
    console_init fb k = console_write (bytes_of "Ore framebuffer console online" ++ [10]) (clear_screen k0).
Proof.
  intros Hfb Hp Hs. unfold console_init. cbv zeta. rewrite (proj2 (Z.eqb_neq _ _)) by apply Hfb.
  match goal with |- context [clear_screen ?k0] => exists k0 end.
  split; [|repeat apply conj; reflexivity]. split; cbn; unfold LEFT_PAD, CELL_W, CELL_H, TOP_BAR_H; try done.
  - destruct (Z.ltb_spec (16 * 2) (fb_width fb)); [|lia]. zlia.
  - destruct (Z.ltb_spec (32 + 16) (fb_height fb)); [|lia]. zlia.
  - lia.
  - lia.
Qed.

(** What is done with the console. *)
Inductive con_op :=
| Write (s : list Z)
| Present (buffer : option (Z -> Z)) (width height : Z).
Definition con_step (k : console) (op : con_op) : console :=
  match op with
  | Write s => console_write s k
  | Present buffer w h => snd (console_gfx_present_indexed16 buffer w h k)
  end.

Lemma con_steps_safe ops k : console_ok k -> safe_step k (fold_left con_step ops k).
Proof.
  revert k. induction ops as [|op ops IH]; intros k Hk; cbn [fold_left]; [by apply safe_refl|].
  assert (safe_step k (con_step k op)) as H by (destruct op; [by apply console_write_safe|by apply gfx_present_safe]).
  eapply safe_trans; [exact H|]. apply IH, H.
Qed.

(** C28: whatever is written and presented, the console stays well formed: the
    cursor is in the grid, the grid is on the screen, the parameters of an escape
    sequence are in their array; and no word of the framebuffer outside of the
    screen is changed. *)
Theorem console_in_bounds fb p ops :
  fb_ok fb ->
  let k := fold_left con_step ops (console_init fb (console_zero p)) in
  console_ok k /\ con_fb k = fb /\ off_screen fb p (pixels k).
Proof.
  intros Hfb k. destruct (console_init_eq fb (console_zero p) Hfb) as (k0 & H0 & Efb & Ep & _ & _ & _ & _ & _ & Ei); [cbn; lia..|].
  pose proof (clear_screen_safe k0 H0) as H1.
  pose proof (console_write_safe (bytes_of "Ore framebuffer console online" ++ [10]) _ (ss_ok _ _ H1)) as H2.
  rewrite <- Ei in H2. pose proof (con_steps_safe ops _ (ss_ok _ _ H2)) as H3. fold k in H3.
  pose proof (safe_trans _ _ _ H1 (safe_trans _ _ _ H2 H3)) as [Hk Hf _ Ho].
  rewrite Efb in Hf, Ho. rewrite Ep in Ho. done.
Qed.

(** The loops of a picture: the colour at [(x0 + x, y0 + y)] is [col x y]. *)
Lemma at_picture fb x0 y0 w h col p x y :
  fb_ok fb -> inside fb x y -> 0 <= x0 -> 0 <= y0 -> x0 + Z.of_nat w <= fb_width fb -> y0 + Z.of_nat h <= fb_height fb ->
  at_pixel fb (for_loop h 0 (fun j => for_loop w 0 (fun i p =>
    <[u32 ((y0 + j) * fb_pixels_per_scanline fb) + x0 + i := col i j]> p)) p) x y =
  if (x0 <=? x) && (x <? x0 + Z.of_nat w) && (y0 <=? y) && (y <? y0 + Z.of_nat h) then col (x - x0) (y - y0)
  else at_pixel fb p x y.
Proof.
  intros Hfb H Hx0 Hy0 Hw Hh.
  assert (forall j q, 0 <= j < Z.of_nat h ->
    at_pixel fb (for_loop w 0 (fun i p => <[u32 ((y0 + j) * fb_pixels_per_scanline fb) + x0 + i := col i j]> p) q) x y =
    if (x0 <=? x) && (x <? x0 + Z.of_nat w) && (y0 + j =? y) then col (x - x0) j else at_pixel fb q x y) as Hrow.
  { intros j q Hj. apply (for_loop_inv (fun i q' => at_pixel fb q' x y =
      if (x0 <=? x) && (x <? x0 + i) && (y0 + j =? y) then col (x - x0) j else at_pixel fb q x y)); [cmp_cases|].
    intros i q' Hi IH. rewrite <- Z.add_assoc, picture_index by (done || (split; lia)).
    rewrite at_insert by (done || (split; lia)). rewrite IH. destruct (Z.eqb_spec (x0 + i) x), (Z.eqb_spec (y0 + j) y);
      cbn [andb]; rewrite ?andb_false_r; try done; cmp_cases. f_equal. lia. }
  apply (for_loop_inv (fun j q => at_pixel fb q x y =
    if (x0 <=? x) && (x <? x0 + Z.of_nat w) && (y0 <=? y) && (y <? y0 + j) then col (x - x0) (y - y0) else at_pixel fb p x y)); [cmp_cases|].
  intros j q Hj IH. rewrite Hrow by lia. rewrite IH. destruct ((x0 <=? x) && (x <? x0 + Z.of_nat w)); cbn [andb]; [|done].
  destruct (Z.eqb_spec (y0 + j) y); cmp_cases. f_equal. lia.
Qed.

(** a picture of 640 by 480 colour numbers is shown in the middle of a screen
    that is large enough, in the colours of the palette; around it the screen is
    black when the mode has just changed, and as it was otherwise.  Every other
    call returns [-EINVAL] and changes nothing. *)
Theorem gfx_present_correct buffer w h k :
  console_ok k ->
  let fb := con_fb k in
  match buffer, bool_decide (w = 640 /\ h = 480 /\ 640 <= fb_width fb /\ 480 <= fb_height fb) with
  | Some b, true => exists k',
      console_gfx_present_indexed16 buffer w h k = (0, k') /\ gfx_mode_active k' <> 0 /\
      forall x y, inside fb x y ->
        let dx := x - (fb_width fb - 640) / 2 in
        let dy := y - (fb_height fb - 480) / 2 in
        at_pixel fb (pixels k') x y =
          if (0 <=? dx) && (dx <? 640) && (0 <=? dy) && (dy <? 480) then nth (Z.to_nat (b (dy * 640 + dx) mod 16)) game_palette 0
          else if gfx_mode_active k =? 0 then 0 else at_pixel fb (pixels k) x y
  | _, _ => console_gfx_present_indexed16 buffer w h k = (- ORE_EINVAL, k)
  end.
Proof.
  intros Hk fb. unfold console_gfx_present_indexed16. destruct buffer as [b|]; [|done]. fold fb.
  pose proof (co_fb _ Hk) as Hfb. fold fb in Hfb. rewrite (proj2 (Z.eqb_neq (fb_base fb) 0)) by apply Hfb.
  unfold ORE_GFX_LOGICAL_WIDTH, ORE_GFX_LOGICAL_HEIGHT. case_bool_decide as Hc; cycle 1.
  { destruct (Z.eqb_spec w 640), (Z.eqb_spec h 480); cbn [negb orb]; try done.
    destruct (Z.ltb_spec (fb_width fb) w), (Z.ltb_spec (fb_height fb) h); cbn [orb]; try done. exfalso. apply Hc. lia. }
  destruct Hc as (-> & -> & Hw & Hh). cbn [Z.eqb Pos.eqb negb orb].
  rewrite (proj2 (Z.ltb_ge _ _) Hw), (proj2 (Z.ltb_ge _ _) Hh). cbn [orb]. cbv zeta.
  eexists. split; [done|]. split; [destruct (Z.eqb_spec (gfx_mode_active k) 0); done|]. intros x y H. cbn [pixels set_pixels].
  pose proof (co_fb _ Hk) as [_ Hfw Hfh Hfs]. fold fb in Hfw, Hfh, Hfs. assert (fb_width fb < 4294967296 /\ fb_height fb < 4294967296) as [? ?] by (split; nia).
  pose proof (at_picture fb ((fb_width fb - 640) / 2) ((fb_height fb - 480) / 2) (Z.to_nat 640) (Z.to_nat 480)
    (fun i j => nth (Z.to_nat (Z.land (b (u32 (j * 640) + i)) 15)) game_palette 0)) as Hp. cbv beta in Hp.
  rewrite Hp; clear Hp; [|done|done|clear - Hw Hh; zlia..].
  rewrite !Z2Nat.id by lia. set (x0 := (fb_width fb - 640) / 2). set (y0 := (fb_height fb - 480) / 2).
  replace ((x0 <=? x) && (x <? x0 + 640) && (y0 <=? y) && (y <? y0 + 480))
    with ((0 <=? x - x0) && (x - x0 <? 640) && (0 <=? y - y0) && (y - y0 <? 480)) by (clear; cmp_cases).
  destruct (_ && _) eqn:E.
  - bool_to_prop. rewrite u32_small by (unfold word32; lia). change 15 with (Z.ones 4). by rewrite Z.land_ones.
  - destruct (Z.eqb_spec (gfx_mode_active k) 0) as [Eg|Eg]; [|done]. cbn [pixels set_gfx set_pixels].
    rewrite at_fill_rect by (done || lia). destruct H. cmp_cases.
Qed.

(** ** Examples *)

(** A screen of 4 columns and 2 rows, with words beyond each line. *)
Definition demo_fb : OreFramebuffer :=
  {| fb_base := 0xe0000000; fb_width := 80; fb_height := 100; fb_pixels_per_scanline := 96; fb_pixel_format := 1 |}.
Lemma demo_fb_ok : fb_ok demo_fb.
Proof. split; cbn; lia. Qed.

Lemma console_in_bounds_witness :
  let k := fold_left con_step [Write [27; 91; 55; 109; 65; 10; 8]; Present (Some (fun _ => 3)) 640 480]
             (console_init demo_fb (console_zero ∅)) in
  console_ok k /\ con_fb k = demo_fb /\ off_screen demo_fb ∅ (pixels k).
Proof. apply (console_in_bounds demo_fb ∅ _ demo_fb_ok). Defined.

(** A screen of 800 by 600 with a picture mode that is not active yet. *)
Definition large_fb : OreFramebuffer :=
  {| fb_base := 0xe0000000; fb_width := 800; fb_height := 600; fb_pixels_per_scanline := 800; fb_pixel_format := 1 |}.
Definition large_console : console :=
  mk_console large_fb ∅ 0 0 64 30 48 16 (mk_escape 0 0 [0; 0; 0; 0] 0) default_attributes 0.
Lemma large_console_ok : console_ok large_console.
Proof. split; try split; cbn; unfold LEFT_PAD, TOP_BAR_H, CELL_W, CELL_H; lia. Qed.

Lemma gfx_present_correct_witness :
  exists k', console_gfx_present_indexed16 (Some (fun i => i)) 640 480 large_console = (0, k') /\
  at_pixel large_fb (pixels k') 83 60 = 0x004cc9f0 /\ at_pixel large_fb (pixels k') 79 60 = 0.
Proof.
  pose proof (gfx_present_correct (Some (fun i => i)) 640 480 large_console large_console_ok) as H. cbv zeta in H.
  rewrite bool_decide_eq_true_2 in H by (cbn; lia). destruct H as (k' & H & _ & Hp). exists k'. split; [exact H|].
  change large_fb with (con_fb large_console). split; [rewrite (Hp 83 60)|rewrite (Hp 79 60)];
    first [split; cbn; lia|vm_compute; reflexivity].
Defined.

(** The codes of bright backgrounds choose no colour: 60 less than them there is
    none. *)
Lemma bright_background_ignored a p : 100 <= p <= 107 -> sgr_one a p = a.
Proof.
  intros Hp. unfold sgr_one, ansi_bg, ansi_color. rewrite !(proj2 (Z.eqb_neq p _)) by lia. cbn [orb].
  rewrite (proj2 (Z.leb_gt p 37)), (proj2 (Z.leb_gt p 97)), !andb_false_r by lia. cbn [orb].
  rewrite (proj2 (Z.leb_gt p 47)), andb_false_r by lia. cbn [orb].
  rewrite (proj2 (Z.leb_le 100 p)), (proj2 (Z.leb_le p 107)) by lia. cbn [andb].
  rewrite !(proj2 (Z.eqb_neq (p - 60) _)) by lia. by destruct a.
Qed.
