(* ===== verification/Terminal.v ===== *)
(** What the console promises: a terminal of character cells.

    The abstract terminal has a cursor, the attributes of new text and a grid of
    cells; it executes tokens.  The refinement theorem shows that writing the text
    of any sequence of tokens (characters, control characters and escape sequences
    with their decimal parameters) makes the pixels of the framebuffer those of the
    grid.  The parser of the escape sequences is therefore also the inverse of the
    printer [encode]. *)
From stdpp Require Import base numbers list gmap.
From Stdlib Require Import ZArith Lia.
From Stdlib Require Import(notations) Ascii String.
From S2P Require Import Prelude BootInfo Cstring Console.

(** ** The terminal *)

(** A cell is erased in one colour, has the panel of [clear_screen] in its first
    [n] lines and the background below, or shows a character. *)
Inductive cell :=
| Erased (bg : Z)
| Cleared (n : Z)
| Shown (c fg bg : Z).

Definition cell_pixel (x : cell) (dx dy : Z) : Z :=
  match x with
  | Erased bg => bg
  | Cleared n => if dy <? n then PANEL_BG else BG
  | Shown c fg bg => if ink c dx dy then fg else bg
  end.

Record terminal := mk_terminal { t_x : Z; t_y : Z; t_attrs : text_attributes; t_cells : Z -> Z -> cell }.

Inductive token :=
| TChar (c : Z)
| TNewline
| TReturn
| TBack
| TClear
| THome
| TSgr (ps : list Z).

Section Terminal.
(** Size of the grid, and height of the screen. *)
Context (ncols nrows height : Z).

Definition set_cell (t : terminal) (x y : Z) (v : cell) : terminal :=
  mk_terminal (t_x t) (t_y t) (t_attrs t)
    (fun cx cy => if (cx =? x) && (cy =? y) then v else t_cells t cx cy).
Definition move (t : terminal) (x y : Z) : terminal := mk_terminal x y (t_attrs t) (t_cells t).

Definition t_newline (t : terminal) : terminal :=
  if t_y t + 1 =? nrows then
    mk_terminal 0 (nrows - 1) (t_attrs t)
      (fun cx cy => if cy =? nrows - 1 then Erased PANEL_BG else t_cells t cx (cy + 1))
  else move t 0 (t_y t + 1).

Definition t_char (c : Z) (t : terminal) : terminal :=
  let a := t_attrs t in
  let t := set_cell t (t_x t) (t_y t)
    (if inverse a =? 0 then Shown c (current_fg a) (current_bg a) else Shown c (current_bg a) (current_fg a)) in
  if t_x t + 1 =? ncols then t_newline t else move t (t_x t + 1) (t_y t).

Definition t_clear (t : terminal) : terminal :=
  mk_terminal 0 0 (t_attrs t) (fun cx cy => Cleared (height - 8 - (48 + 18 * cy))).

Definition term_step (t : terminal) (k : token) : terminal :=
  match k with
  | TChar c => t_char c t
  | TNewline => t_newline t
  | TReturn => t
  | TBack => let x := Z.max 0 (t_x t - 1) in set_cell (move t x (t_y t)) x (t_y t) (Erased (current_bg (t_attrs t)))
  | TClear => t_clear t
  | THome => move t 0 0
  | TSgr ps => mk_terminal (t_x t) (t_y t)
      (fold_left sgr_one (take 4 (if decide (ps = []) then [0] else ps)) (t_attrs t)) (t_cells t)
  end.
End Terminal.

(** ** The text of tokens *)

Definition decimal (n : Z) : list Z := map (fun d => 48 + d) (digits 10 n).
Fixpoint encode_params (ps : list Z) : list Z :=
  match ps with
  | [] => []
  | [p] => decimal p
  | p :: ps => decimal p ++ [ch ";"] ++ encode_params ps
  end.
Definition encode (k : token) : list Z :=
  match k with
  | TChar c => [c]
  | TNewline => [10]
  | TReturn => [13]
  | TBack => [8]
  | TClear => [27; ch "["; ch "J"]
  | THome => [27; ch "["; ch "H"]
  | TSgr ps => [27; ch "["] ++ encode_params ps ++ [ch "m"]
  end.

Definition token_ok (k : token) : Prop :=
  match k with
  | TChar c => byte_ok c /\ c ∉ [0; 8; 10; 13; 27]
  | TSgr ps => Forall word32 ps
  | _ => True
  end.

(** ** Refinement *)

(** The pixels of the cell at [cx], [cy]. *)
Definition cell_at (k : console) (cx cy dx dy : Z) : Z :=
  at_pixel (con_fb k) (pixels k) (LEFT_PAD + cx * CELL_W + dx) (TOP_BAR_H + 16 + cy * CELL_H + dy).

Record refines (k : console) (t : terminal) : Prop := mk_refines {
  rf_ok : console_ok k;
  rf_size : 0 < cols k /\ 0 < rows k;
  rf_text : gfx_mode_active k = 0 /\ esc_state (con_esc k) = 0;
  rf_cursor : cursor_x k = t_x t /\ cursor_y k = t_y t;
  rf_attrs : con_attrs k = t_attrs t;
  rf_cells : forall cx cy dx dy, 0 <= cx < cols k -> 0 <= cy < rows k -> 0 <= dx < 12 -> 0 <= dy < 18 ->
    cell_at k cx cy dx dy = cell_pixel (t_cells t cx cy) dx dy
}.

Section Cells.
Context (k : console).
Hypothesis Hk : console_ok k.
Hypothesis Hsize : 0 < cols k /\ 0 < rows k.
#[local] Abbreviation fb := (con_fb k).

Lemma grid_bounds : 32 + cols k * 12 <= fb_width fb < 4294967296 /\ 48 + rows k * 18 <= fb_height fb < 4294967296.
Proof.
  destruct (console_word k Hk) as [Hw Hh], Hk as [_ _ [_ Hc] [_ Hr] _ _ _ _].
  unfold LEFT_PAD, CELL_W, TOP_BAR_H, CELL_H in *. lia.
Qed.

Lemma cell_inside cx cy dx dy : 0 <= cx < cols k -> 0 <= cy < rows k -> 0 <= dx < 12 -> 0 <= dy < 18 ->
  inside fb (LEFT_PAD + cx * CELL_W + dx) (TOP_BAR_H + 16 + cy * CELL_H + dy).
Proof. intros. pose proof grid_bounds. unfold LEFT_PAD, CELL_W, TOP_BAR_H, CELL_H. split; lia. Qed.

Lemma cell_origin cx cy : 0 <= cx < cols k -> 0 <= cy < rows k ->
  cell_x k cx = LEFT_PAD + cx * CELL_W /\ cell_y k cy = TOP_BAR_H + 16 + cy * CELL_H.
Proof.
  intros. pose proof grid_bounds. destruct (co_origin _ Hk) as [Ex Ey]. unfold cell_x, cell_y. rewrite Ex, Ey.
  unfold LEFT_PAD, CELL_W, TOP_BAR_H, CELL_H in *. split; apply u32_small; unfold word32; lia.
Qed.

(** Filling a cell changes this cell only. *)
Lemma fill_cell x y color p cx cy dx dy :
  0 <= x < cols k -> 0 <= y < rows k -> 0 <= cx < cols k -> 0 <= cy < rows k -> 0 <= dx < 12 -> 0 <= dy < 18 ->
  at_pixel fb (fill_rect fb (cell_x k x) (cell_y k y) CELL_W CELL_H color p)
    (LEFT_PAD + cx * CELL_W + dx) (TOP_BAR_H + 16 + cy * CELL_H + dy) =
  if (cx =? x) && (cy =? y) then color
  else at_pixel fb p (LEFT_PAD + cx * CELL_W + dx) (TOP_BAR_H + 16 + cy * CELL_H + dy).
Proof.
  intros Hx Hy Hcx Hcy Hdx Hdy. pose proof grid_bounds as [Hw Hh]. destruct (cell_origin x y Hx Hy) as [-> ->].
  rewrite at_fill_rect; [|apply Hk|by apply cell_inside|unfold LEFT_PAD, CELL_W, TOP_BAR_H, CELL_H in *; lia..].
  unfold LEFT_PAD, CELL_W, TOP_BAR_H, CELL_H. cmp_cases.
Qed.

Lemma glyph_cell x y c color p cx cy dx dy :
  0 <= x < cols k -> 0 <= y < rows k -> 0 <= cx < cols k -> 0 <= cy < rows k -> 0 <= dx < 12 -> 0 <= dy < 18 ->
  at_pixel fb (draw_glyph fb (cell_x k x) (cell_y k y) c color p)
    (LEFT_PAD + cx * CELL_W + dx) (TOP_BAR_H + 16 + cy * CELL_H + dy) =
  if (cx =? x) && (cy =? y) && ink c dx dy then color
  else at_pixel fb p (LEFT_PAD + cx * CELL_W + dx) (TOP_BAR_H + 16 + cy * CELL_H + dy).
Proof.
  intros Hx Hy Hcx Hcy Hdx Hdy. pose proof grid_bounds as [Hw Hh]. destruct (cell_origin x y Hx Hy) as [-> ->].
  rewrite at_draw_glyph; [|apply Hk|by apply cell_inside|unfold LEFT_PAD, CELL_W, TOP_BAR_H, CELL_H in *; lia..].
  unfold LEFT_PAD, CELL_W, TOP_BAR_H, CELL_H.
  destruct (Z.eqb_spec cx x) as [->|Hne], (Z.eqb_spec cy y) as [->|Hne']; cbn [andb].
  - by replace (16 + x * 12 + dx - (16 + x * 12)) with dx by lia; replace (32 + 16 + y * 18 + dy - (32 + 16 + y * 18)) with dy by lia.
  - unfold ink at 1. cmp_cases.
  - unfold ink at 1. cmp_cases.
  - unfold ink at 1. cmp_cases.
Qed.

Lemma scroll_cell cx cy dx dy :
  0 <= cx < cols k -> 0 <= cy < rows k -> 0 <= dx < 12 -> 0 <= dy < 18 ->
  cell_at (scroll_up k) cx cy dx dy = if cy =? rows k - 1 then PANEL_BG else cell_at k cx (cy + 1) dx dy.
Proof.
  intros Hcx Hcy Hdx Hdy. pose proof grid_bounds as [Hw Hh]. pose proof (co_fb _ Hk) as Hfb.
  destruct (co_origin _ Hk) as [Ex Ey]. unfold cell_at, scroll_up.
  rewrite (proj2 (Z.eqb_neq _ 0)) by apply Hfb. rewrite (proj2 (Z.eqb_neq (rows k) 0)) by lia. cbn [orb]. cbv zeta.
  cbn [pixels con_fb set_pixels]. rewrite (u32_small (rows k - 1)) by (unfold word32; lia).
  destruct (cell_origin 0 (rows k - 1)) as [_ Ec]; [lia..|]. rewrite Ec, Ey. pose proof (cell_inside cx cy dx dy Hcx Hcy Hdx Hdy) as Hi.
  assert (0 <= panel_width fb /\ 8 + panel_width fb = fb_width fb - 8) as [Hp0 Hp].
  { unfold panel_width. destruct (Z.ltb_spec 16 (fb_width fb)); lia. }
  unfold LEFT_PAD, CELL_W, TOP_BAR_H, CELL_H in *. rewrite (u32_small (32 + 16 + 18)) by (unfold word32; lia).
  rewrite at_fill_rect; [|done|done|lia..]. rewrite Hp.
  replace (if 1 <? rows k then u32 ((rows k - 1) * 18) else 0) with ((rows k - 1) * 18)
    by (destruct (Z.ltb_spec 1 (rows k)); [rewrite u32_small by (unfold word32; lia)|]; lia).
  rewrite (at_copy_rows fb Hfb (32 + 16) 18); [|done|lia..]. rewrite Z2Nat.id by lia.
  replace (32 + 16 + (cy + 1) * 18 + dy) with (32 + 16 + cy * 18 + dy + 18) by lia. cmp_cases.
Qed.

Lemma clear_cells cx cy dx dy :
  0 <= cx < cols k -> 0 <= cy < rows k -> 0 <= dx < 12 -> 0 <= dy < 18 ->
  cell_at (clear_screen k) cx cy dx dy = cell_pixel (Cleared (fb_height fb - 8 - (48 + 18 * cy))) dx dy.
Proof.
  intros Hcx Hcy Hdx Hdy. pose proof grid_bounds as [Hw Hh]. pose proof (co_fb _ Hk) as Hfb.
  destruct (co_origin _ Hk) as [Ex Ey]. unfold cell_at, clear_screen.
  rewrite (proj2 (Z.eqb_neq _ 0)) by apply Hfb. cbv zeta. cbn [pixels con_fb set_pixels set_cursor].
  pose proof (cell_inside cx cy dx dy Hcx Hcy Hdx Hdy) as Hi. rewrite Ey.
  assert (0 <= panel_width fb /\ 8 + panel_width fb = fb_width fb - 8) as [Hp0 Hp].
  { unfold panel_width. destruct (Z.ltb_spec 16 (fb_width fb)); lia. }
  unfold LEFT_PAD, CELL_W, TOP_BAR_H, CELL_H in *. rewrite !u32_small by (unfold word32; lia).
  rewrite at_fill_rect; [|done|done|lia..]. rewrite at_status_bar; [|done|done|unfold TOP_BAR_H; lia].
  rewrite at_fill_rect; [|done|done|lia..]. rewrite Hp. cbn [cell_pixel]. cmp_cases.
Qed.
End Cells.

(** *** Single characters *)

(** Changes that do not draw. *)
Lemma refines_set k t k' t' :
  refines k t -> console_ok k' -> con_fb k' = con_fb k -> pixels k' = pixels k -> cols k' = cols k -> rows k' = rows k ->
  gfx_mode_active k' = gfx_mode_active k -> esc_state (con_esc k') = 0 ->
  cursor_x k' = t_x t' -> cursor_y k' = t_y t' -> con_attrs k' = t_attrs t' -> t_cells t' = t_cells t -> refines k' t'.
Proof.
  intros [_ Hs [Hg _] _ _ Hc] Hk' Ef Ep Ec Er Eg Ee Hx Hy Ha Et. split; [done| | |done|done|]; rewrite ?Ec, ?Er, ?Eg; try done.
  rewrite Et. unfold cell_at. by rewrite Ef, Ep.
Qed.

Lemma newline_refines k t : refines k t -> refines (newline k) (t_newline (rows k) t).
Proof.
  intros H. pose proof H as [Hk Hs [Hg He] [Ex Ey] Ha Hc]. pose proof (newline_safe k Hk ltac:(lia)) as Hn.
  rewrite newline_eq in * by (done || lia). unfold t_newline. rewrite <- Ey.
  destruct (Z.eqb_spec (cursor_y k + 1) (rows k)); cycle 1.
  { apply (refines_set k t); try done. apply Hn. }
  assert (Hsc : cols (scroll_up k) = cols k /\ rows (scroll_up k) = rows k /\ con_fb (scroll_up k) = con_fb k /\
    gfx_mode_active (scroll_up k) = gfx_mode_active k /\ con_esc (scroll_up k) = con_esc k /\ con_attrs (scroll_up k) = con_attrs k).
  { unfold scroll_up. case_test; done. }
  destruct Hsc as (E1 & E2 & E3 & E4 & E5 & E6).
  split; [apply Hn| | | | |]; cbn [cols rows con_esc con_attrs gfx_mode_active set_cursor cursor_x cursor_y t_x t_y t_attrs t_cells];
    rewrite ?E1, ?E2, ?E4, ?E5, ?E6; try done.
  intros cx cy dx dy Hcx Hcy Hdx Hdy. change (cell_at (set_cursor (scroll_up k) 0 (rows k - 1)) cx cy dx dy) with (cell_at (scroll_up k) cx cy dx dy).
  rewrite scroll_cell by done. destruct (Z.eqb_spec cy (rows k - 1)); [done|]. apply Hc; lia.
Qed.

Lemma clear_refines k t : refines k t -> refines (clear_screen k) (t_clear (fb_height (con_fb k)) t).
Proof.
  intros [Hk Hs [Hg He] [Ex Ey] Ha Hc]. pose proof (clear_screen_safe k Hk) as Hn.
  pose proof (clear_cells k Hk Hs) as Hcell. destruct (ss_grid _ _ Hn) as [E1 E2].
  assert (Hsc : gfx_mode_active (clear_screen k) = gfx_mode_active k /\ con_esc (clear_screen k) = con_esc k /\
    con_attrs (clear_screen k) = con_attrs k /\ cursor_x (clear_screen k) = 0 /\ cursor_y (clear_screen k) = 0).
  { unfold clear_screen. rewrite (proj2 (Z.eqb_neq _ 0)) by apply Hk. done. }
  destruct Hsc as (E4 & E5 & E6 & E7 & E8).
  split; [apply Hn| | | | |]; rewrite ?E1, ?E2, ?E4, ?E5, ?E6; done.
Qed.

(** The console as the guards of [put_char] see it. *)
Lemma put_char_ready k t : refines k t ->
  (fb_base (con_fb k) =? 0) || (cols k =? 0) || (rows k =? 0) = false /\ forall c, handle_escape c k = None.
Proof.
  intros [Hk Hs [_ He] _ _ _]. split.
  - rewrite (proj2 (Z.eqb_neq _ 0)) by apply Hk. rewrite !(proj2 (Z.eqb_neq _ _)) by lia. done.
  - intros c. unfold handle_escape. by rewrite He.
Qed.

Lemma cursor_in k t : refines k t -> 0 <= cursor_x k < cols k /\ 0 <= cursor_y k < rows k.
Proof. intros [[_ _ _ _ Hx Hy _ _] Hs _ _ _ _]. lia. Qed.

Lemma back_refines k t : refines k t -> refines (put_char 8 k) (term_step (cols k) (rows k) (fb_height (con_fb k)) t TBack).
Proof.
  intros H. pose proof H as [Hk Hs [Hg He] [Ex Ey] Ha Hc]. destruct (put_char_ready k t H) as [Hr Hn]. destruct (cursor_in k t H).
  pose proof (put_char_safe 8 k Hk) as Hsafe. unfold put_char in *. rewrite Hr, Hn in *. cbn [Z.eqb Pos.eqb] in *. cbv zeta in *.
  assert ((if cursor_x k =? 0 then k else set_cursor k (cursor_x k - 1) (cursor_y k)) =
          set_cursor k (Z.max 0 (cursor_x k - 1)) (cursor_y k)) as E.
  { destruct (Z.eqb_spec (cursor_x k) 0) as [E|E]; [|f_equal; lia]. rewrite Z.max_l by lia. rewrite <- E at 1. by destruct k. }
  rewrite E in *. cbn [cursor_x cursor_y set_cursor] in *. split; [apply Hsafe|done|done|cbn; lia|done|].
  intros cx cy dx dy Hcx Hcy Hdx Hdy. unfold cell_at. cbn [pixels con_fb clear_cell set_pixels set_cursor con_attrs].
  change (cell_x (set_cursor k _ _)) with (cell_x k). change (cell_y (set_cursor k _ _)) with (cell_y k).
  rewrite fill_cell; [|done|done|lia|lia|done..]. cbn [t_cells term_step set_cell move]. rewrite <- Ex, <- Ey, <- Ha.
  destruct (_ && _); [done|]. by apply Hc.
Qed.

Lemma draw_char_refines c k t : refines k t ->
  refines (draw_char c k) (set_cell t (t_x t) (t_y t)
    (if inverse (t_attrs t) =? 0 then Shown c (current_fg (t_attrs t)) (current_bg (t_attrs t))
     else Shown c (current_bg (t_attrs t)) (current_fg (t_attrs t)))).
Proof.
  intros H. pose proof H as [Hk Hs [Hg He] [Ex Ey] Ha Hc]. destruct (cursor_in k t H).
  split; [apply (draw_char_safe c k Hk)|done..|].
  intros cx cy dx dy Hcx Hcy Hdx Hdy. unfold cell_at, draw_char. cbv zeta. cbn [pixels con_fb set_pixels].
  change (cols (set_pixels k _)) with (cols k) in Hcx. change (rows (set_pixels k _)) with (rows k) in Hcy.
  rewrite glyph_cell, fill_cell by done. cbn [t_cells set_cell]. rewrite <- Ex, <- Ey, <- Ha.
  destruct ((cx =? cursor_x k) && (cy =? cursor_y k)); cbn [andb]; [|by apply Hc].
  by destruct (inverse (con_attrs k) =? 0); cbn [cell_pixel].
Qed.

Lemma char_refines c k t : refines k t -> token_ok (TChar c) -> refines (put_char c k) (t_char (cols k) (rows k) c t).
Proof.
  intros H [Hb Hne]. pose proof H as [Hk Hs [Hg He] [Ex Ey] Ha Hc]. destruct (put_char_ready k t H) as [Hr Hn].
  destruct (cursor_in k t H) as [Hx Hy]. pose proof (put_char_safe c k Hk) as Hsafe. pose proof (grid_bounds k Hk Hs) as [Hw _].
  assert (c <> 27 /\ c <> 13 /\ c <> 10 /\ c <> 8) as (N1 & N2 & N3 & N4).
  { rewrite !not_elem_of_cons in Hne. tauto. }
  pose proof (draw_char_refines c k t H) as Hd. unfold put_char in *. rewrite Hr, Hn in *.
  rewrite !(proj2 (Z.eqb_neq c _)) in * by done. cbv zeta in *. change (cursor_x (draw_char c k)) with (cursor_x k) in *.
  change (cursor_y (draw_char c k)) with (cursor_y k) in *. rewrite (u32_small (cursor_x k + 1)) in * by (unfold word32; lia).
  cbn [cols cursor_x set_cursor] in *. change (cols (draw_char c k)) with (cols k) in *. unfold t_char. cbv zeta.
  cbn [t_x t_y set_cell]. rewrite <- Ex in *. rewrite <- Ey in *.
  destruct (Z.leb_spec (cols k) (cursor_x k + 1)), (Z.eqb_spec (cursor_x k + 1) (cols k)); try lia.
  - exact (newline_refines (draw_char c k) _ Hd).
  - eapply refines_set; [exact Hd|apply Hsafe|done..].
Qed.

(** *** Escape sequences *)

Definition feed (s : list Z) (k : console) : console := fold_left (fun k c => put_char c k) s k.

Lemma feed_app s1 s2 k : feed (s1 ++ s2) k = feed s2 (feed s1 k).
Proof. apply fold_left_app. Qed.

Definition live (k : console) : Prop := (fb_base (con_fb k) =? 0) || (cols k =? 0) || (rows k =? 0) = false.

Lemma put_escape c k e :
  live k -> esc_state e = 2 ->
  put_char c (set_esc k e) =
    if (ch "0" <=? c) && (c <=? ch "9") then
      set_esc k (mk_escape 2 (u32 (esc_param e * 10 + (c - ch "0"))) (esc_params e) (esc_param_count e))
    else if c =? ch ";" then set_esc k (esc_push_param e)
    else if c =? ch "J" then set_esc (clear_screen (set_esc k e)) (esc_reset e)
    else if c =? ch "H" then set_esc (set_cursor k 0 0) (esc_reset e)
    else if c =? ch "m" then
      set_esc (set_attrs k (sgr_apply (esc_push_param e) (con_attrs k))) (esc_reset (esc_push_param e))
    else set_esc k (esc_reset e).
Proof.
  intros Hl He. unfold put_char. change ((fb_base (con_fb (set_esc k e)) =? 0) || (cols (set_esc k e) =? 0) || (rows (set_esc k e) =? 0))
    with ((fb_base (con_fb k) =? 0) || (cols k =? 0) || (rows k =? 0)). rewrite Hl. unfold handle_escape.
  cbn [con_esc set_esc]. rewrite He. cbn [Z.eqb Pos.eqb]. repeat case_test; done.
Qed.

Lemma digits_u32 b v ds : u32 (digits_from_value b (u32 v) ds) = u32 (digits_from_value b v ds).
Proof.
  revert v. induction ds as [|d ds IH]; intros v; [cbn; unfold u32; by rewrite Zmod_mod|].
  change (u32 (digits_from_value b (u32 v * b + d) ds) = u32 (digits_from_value b (v * b + d) ds)).
  rewrite <- IH, <- (IH (v * b + d)). do 2 f_equal. unfold u32. rewrite Zplus_mod, Zmult_mod, Zmod_mod, <- Zmult_mod. by rewrite <- Zplus_mod.
Qed.

Lemma feed_digits k ds v ps n :
  live k -> Forall (fun d => 0 <= d < 10) ds -> word32 v ->
  feed (map (fun d => 48 + d) ds) (set_esc k (mk_escape 2 v ps n)) = set_esc k (mk_escape 2 (u32 (digits_from_value 10 v ds)) ps n).
Proof.
  intros Hl Hds. revert v. induction Hds as [|d ds Hd Hds IH]; intros v Hv.
  { cbn. by rewrite u32_small. }
  cbn [map]. change (feed (48 + d :: map (fun d => 48 + d) ds) ?x) with (feed (map (fun d => 48 + d) ds) (put_char (48 + d) x)).
  rewrite put_escape by done. change (ch "0") with 48. change (ch "9") with 57.
  rewrite (proj2 (Z.leb_le 48 (48 + d))), (proj2 (Z.leb_le (48 + d) 57)) by lia. cbn [andb esc_param esc_params esc_param_count].
  rewrite IH by apply u32_bound. rewrite digits_u32. cbn [digits_from_value fold_left]. by replace (48 + d - 48) with d by lia.
Qed.

Lemma feed_decimal k p ps n :
  live k -> word32 p -> feed (decimal p) (set_esc k (mk_escape 2 0 ps n)) = set_esc k (mk_escape 2 p ps n).
Proof.
  intros Hl Hp. unfold decimal, word32 in *. rewrite feed_digits; [|done|apply digits_range; lia|unfold word32; lia].
  rewrite digits_denote by (unfold word64; lia). by rewrite u32_small.
Qed.

(** The parameters read so far. *)
Definition params (e : escape) : list Z := take (Z.to_nat (esc_param_count e)) (esc_params e).

Lemma params_push e :
  length (esc_params e) = 4%nat /\ 0 <= esc_param_count e <= 4 -> params (esc_push_param e) = take 4 (params e ++ [esc_param e]).
Proof.
  intros [Hl Hc]. unfold params, esc_push_param. destruct (Z.ltb_spec (esc_param_count e) 4); cbn [esc_params esc_param_count].
  - replace (Z.to_nat (esc_param_count e + 1)) with (S (Z.to_nat (esc_param_count e))) by lia.
    rewrite (take_S_r _ _ (esc_param e)) by (apply list_lookup_insert_eq; lia). rewrite take_insert_ge by lia.
    rewrite (take_ge _ 4); [done|]. rewrite length_app, length_take. cbn. lia.
  - replace (esc_param_count e) with 4 by lia. change (Z.to_nat 4) with 4%nat. rewrite take_app_le by (rewrite length_take; lia).
    rewrite take_take. done.
Qed.

Lemma take_take_app {A} n (l l' : list A) : take n (take n l ++ l') = take n (l ++ l').
Proof. rewrite !take_app, take_take, Nat.min_id, length_take. do 2 f_equal. lia. Qed.

(** Reading [encode_params] and the final character applies the first four. *)
Lemma feed_params k ps e :
  live k -> Forall word32 ps -> ps <> [] -> esc_state e = 2 -> esc_param e = 0 ->
  length (esc_params e) = 4%nat /\ 0 <= esc_param_count e <= 4 ->
  exists e', feed (encode_params ps ++ [ch "m"]) (set_esc k e) =
    set_esc (set_attrs k (fold_left sgr_one (take 4 (params e ++ ps)) (con_attrs k))) e' /\
    esc_state e' = 0 /\ length (esc_params e') = 4%nat /\ 0 <= esc_param_count e' <= 4.
Proof.
  intros Hl Hps. revert e. induction Hps as [|p ps Hp Hps IH]; intros e Hne Hst Hpa Hok; [done|].
  assert (e = mk_escape 2 0 (esc_params e) (esc_param_count e)) as Ee by (destruct e; cbn in *; by subst).
  set (e1 := mk_escape 2 p (esc_params e) (esc_param_count e)).
  assert (length (esc_params e1) = 4%nat /\ 0 <= esc_param_count e1 <= 4) as Hok1 by done.
  pose proof (esc_push_ok e1 Hok1) as Hok2. pose proof (params_push e1 Hok1) as Hpush. cbn [esc_param e1] in Hpush.
  change (params e1) with (params e) in Hpush. destruct ps as [|q ps].
  - rewrite Ee. cbn [encode_params]. rewrite feed_app, feed_decimal by done. fold e1.
    change (feed [ch "m"] ?x) with (put_char (ch "m") x). rewrite put_escape by done. cbn [Z.leb Z.eqb andb].
    change (ch "0" <=? ch "m") with true. change (ch "m" <=? ch "9") with false. change (ch "m" =? ch ";") with false.
    change (ch "m" =? ch "J") with false. change (ch "m" =? ch "H") with false. change (ch "m" =? ch "m") with true. cbn [andb].
    exists (esc_reset (esc_push_param e1)). split; [|split; [done|]; cbn; split; [apply Hok2|lia]].
    f_equal. f_equal. unfold sgr_apply. destruct (Z.eqb_spec (esc_param_count (esc_push_param e1)) 0) as [E0|E0].
    { exfalso. unfold esc_push_param in E0. destruct Hok1, (Z.ltb_spec (esc_param_count e1) 4); cbn in *; lia. }
    fold (params (esc_push_param e1)). by rewrite Hpush, <- Ee.
  - change (encode_params (p :: q :: ps)) with (decimal p ++ [ch ";"] ++ encode_params (q :: ps)).
    rewrite Ee. rewrite <- !app_assoc, feed_app, feed_decimal by done. fold e1. rewrite feed_app.
    change (feed [ch ";"] ?x) with (put_char (ch ";") x). rewrite put_escape by done.
    change (ch "0" <=? ch ";") with true. change (ch ";" <=? ch "9") with false. change (ch ";" =? ch ";") with true. cbn [andb].
    destruct (IH (esc_push_param e1)) as (e' & Hf & Hrest); [done|by rewrite esc_push_state|unfold esc_push_param; by case_test|done|].
    exists e'. rewrite Hf. split; [|done]. f_equal. f_equal. f_equal. rewrite Hpush, <- Ee, take_take_app, <- app_assoc. done.
Qed.

Lemma refines_live k t : refines k t -> live k.
Proof. intros H. apply (put_char_ready k t H). Qed.

(** The introducer. *)
Lemma feed_start k t : refines k t -> feed [27; ch "["] k = set_esc k (mk_escape 2 0 (esc_params (con_esc k)) 0).
Proof.
  intros H. destruct (put_char_ready k t H) as [Hr Hn]. cbn [feed fold_left]. unfold put_char at 2. rewrite Hr, Hn. cbn [Z.eqb Pos.eqb]. cbv zeta.
  unfold put_char. change ((fb_base (con_fb (set_esc k _)) =? 0) || (cols (set_esc k _) =? 0) || (rows (set_esc k _) =? 0))
    with ((fb_base (con_fb k) =? 0) || (cols k =? 0) || (rows k =? 0)). by rewrite Hr.
Qed.

(** The end of a sequence, after the changes it makes. *)
Lemma refines_esc k t e :
  refines k t -> esc_state e = 0 -> length (esc_params e) = 4%nat /\ 0 <= esc_param_count e <= 4 -> refines (set_esc k e) t.
Proof.
  intros H He Hp. pose proof H as [Hk _ _ [? ?] ? _].
  apply (refines_set k t); try done. apply (ss_ok k), set_esc_safe; [done|lia|done].
Qed.

Lemma sgr_refines k t a : refines k t -> refines (set_attrs k a) (mk_terminal (t_x t) (t_y t) a (t_cells t)).
Proof.
  intros H. pose proof H as [Hk _ [_ He] [? ?] ? _].
  apply (refines_set k t); try done. apply (ss_ok k), set_attrs_safe, Hk.
Qed.

Lemma home_refines k t : refines k t -> refines (set_cursor k 0 0) (move t 0 0).
Proof.
  intros H. pose proof H as [Hk _ [_ He] [? ?] ? _].
  apply (refines_set k t); try done. apply (ss_ok k), set_cursor_safe; [done|lia..].
Qed.

Lemma feed_sgr k t ps :
  refines k t -> Forall word32 ps ->
  exists e, feed (encode (TSgr ps)) k =
    set_esc (set_attrs k (fold_left sgr_one (take 4 (if decide (ps = []) then [0] else ps)) (con_attrs k))) e /\
    esc_state e = 0 /\ length (esc_params e) = 4%nat /\ 0 <= esc_param_count e <= 4.
Proof.
  intros H Hps. pose proof (refines_live k t H) as Hl. pose proof (co_params _ (rf_ok _ _ H)) as [Hp _].
  cbn [encode]. rewrite feed_app, (feed_start k t H). set (e0 := mk_escape 2 0 (esc_params (con_esc k)) 0).
  assert (length (esc_params e0) = 4%nat /\ 0 <= esc_param_count e0 <= 4) as Hok by (cbn; lia).
  destruct (decide (ps = [])) as [->|Hne]; [|by apply (feed_params k ps e0)].
  cbn [encode_params app]. change (feed [ch "m"] ?x) with (put_char (ch "m") x). rewrite put_escape by done.
  exists (esc_reset (esc_push_param e0)). split; [|split; [done|]; cbn; split; [by rewrite length_insert|lia]].
  cbn. f_equal. destruct (esc_params (con_esc k)) as [|p0 l]; [done|]. done.
Qed.

(** One token. *)
Lemma token_refines k t tok :
  refines k t -> token_ok tok -> refines (feed (encode tok) k) (term_step (cols k) (rows k) (fb_height (con_fb k)) t tok).
Proof.
  intros H Htok. pose proof H as [Hk _ [_ He] _ Ha _]. destruct (put_char_ready k t H) as [Hr Hn].
  pose proof (co_params _ Hk) as [Hp Hct]. destruct tok as [c| | | | | |ps]; cbn [encode].
  - by apply char_refines.
  - cbn [feed fold_left]. unfold put_char. rewrite Hr, Hn. cbn [Z.eqb Pos.eqb]. by apply newline_refines.
  - cbn [feed fold_left]. unfold put_char. by rewrite Hr, Hn.
  - by apply back_refines.
  - change [27; ch "["; ch "J"] with ([27; ch "["] ++ [ch "J"]). rewrite feed_app, (feed_start k t H).
    change (feed [ch "J"] ?x) with (put_char (ch "J") x). rewrite put_escape by (done || exact Hr). cbn [term_step].
    change (clear_screen (set_esc k ?e)) with (clear_screen (set_esc k e)).
    replace (clear_screen (set_esc k (mk_escape 2 0 (esc_params (con_esc k)) 0)))
      with (set_esc (clear_screen k) (mk_escape 2 0 (esc_params (con_esc k)) 0)) by (unfold clear_screen; cbn; by case_test).
    cbn. apply (refines_esc (clear_screen k)); [by apply clear_refines|done|cbn; lia].
  - change [27; ch "["; ch "H"] with ([27; ch "["] ++ [ch "H"]). rewrite feed_app, (feed_start k t H).
    change (feed [ch "H"] ?x) with (put_char (ch "H") x). rewrite put_escape by (done || exact Hr). cbn [term_step].
    apply (refines_esc (set_cursor k 0 0)); [by apply home_refines|done|cbn; lia].
  - fold (encode (TSgr ps)). destruct (feed_sgr k t ps H Htok) as (e & -> & Hs & Hl & Hc). cbn [term_step]. rewrite <- Ha.
    apply refines_esc; [|done|done]. by apply sgr_refines.
Qed.

Lemma feed_safe s k : console_ok k -> safe_step k (feed s k).
Proof.
  revert k. induction s as [|c s IH]; intros k Hk; [by apply safe_refl|].
  pose proof (put_char_safe c k Hk) as H. eapply safe_trans; [exact H|]. apply IH, H.
Qed.

Lemma tokens_refine k t toks :
  refines k t -> Forall token_ok toks ->
  refines (feed (flat_map encode toks) k) (fold_left (term_step (cols k) (rows k) (fb_height (con_fb k))) toks t).
Proof.
  intros H Ht. revert k t H. induction Ht as [|tok toks Htok Htoks IH]; intros k t H; [done|].
  cbn [flat_map fold_left]. rewrite feed_app. pose proof (token_refines k t tok H Htok) as H'.
  destruct (feed_safe (encode tok) k (rf_ok _ _ H)) as [_ Ef [Ec Er] _]. specialize (IH _ _ H'). by rewrite Ef, Ec, Er in IH.
Qed.

(** ** Properties *)

Definition banner : list token := map TChar (bytes_of "Ore framebuffer console online") ++ [TNewline].
Definition text_cols (fb : OreFramebuffer) : Z := (fb_width fb - 32) / 12.
Definition text_rows (fb : OreFramebuffer) : Z := (fb_height fb - 48) / 18.
Definition first_terminal (fb : OreFramebuffer) : terminal :=
  t_clear (fb_height fb) (mk_terminal 0 0 default_attributes (fun _ _ => Erased 0)).

Lemma console_write_feed s k : gfx_mode_active k = 0 -> console_write s k = feed s k.
Proof. intros H. unfold console_write. by rewrite H. Qed.

Definition printable (c : Z) : bool := (14 <=? c) && (c <? 256) && negb (c =? 27).

Lemma char_ok c : printable c = true -> token_ok (TChar c).
Proof.
  unfold printable. intros H. bool_to_prop. cbn. split; [unfold byte_ok; lia|].
  rewrite !not_elem_of_cons. repeat split; try lia. apply not_elem_of_nil.
Qed.

Lemma text_ok s : forallb printable s = true -> Forall token_ok (map TChar s).
Proof.
  intros H. rewrite forallb_forall in H. apply Forall_fmap, Forall_forall. intros c Hc%list_elem_of_In. by apply char_ok, H.
Qed.

Lemma banner_ok : Forall token_ok banner.
Proof. apply Forall_app; split; [by apply text_ok|by apply Forall_singleton]. Qed.

Lemma console_init_refines fb p :
  fb_ok fb -> 44 <= fb_width fb -> 66 <= fb_height fb ->
  let k := console_init fb (console_zero p) in
  con_fb k = fb /\ cols k = text_cols fb /\ rows k = text_rows fb /\
  refines k (fold_left (term_step (text_cols fb) (text_rows fb) (fb_height fb)) banner (first_terminal fb)).
Proof.
  intros Hfb Hw Hh k. unfold k. destruct (console_init_eq fb (console_zero p) Hfb) as (k0 & H0 & Ef & _ & Ee & Ea & Eg & Ec & Er & ->); [cbn; lia..|].
  rewrite (proj2 (Z.ltb_lt _ _)) in Ec by lia. rewrite (proj2 (Z.ltb_lt _ _)) in Er by lia. fold (text_cols fb) in Ec. fold (text_rows fb) in Er.
  assert (0 < cols k0 /\ 0 < rows k0) as Hs by (rewrite Ec, Er; unfold text_cols, text_rows; clear - Hw Hh; zlia).
  pose proof (clear_screen_safe k0 H0) as Hn. pose proof (clear_cells k0 H0 Hs) as Hcell. destruct (ss_grid _ _ Hn) as [E1 E2].
  assert (Hsc : gfx_mode_active (clear_screen k0) = 0 /\ esc_state (con_esc (clear_screen k0)) = 0 /\
    con_attrs (clear_screen k0) = default_attributes /\ cursor_x (clear_screen k0) = 0 /\ cursor_y (clear_screen k0) = 0).
  { unfold clear_screen. rewrite (proj2 (Z.eqb_neq _ 0)) by apply H0. cbn. by rewrite Eg, Ee, Ea. }
  destruct Hsc as (E4 & E5 & E6 & E7 & E8).
  assert (refines (clear_screen k0) (first_terminal fb)) as Hr.
  { split; [apply Hn| | | | |]; rewrite ?E1, ?E2; try done. rewrite <- Ef. exact Hcell. }
  rewrite (console_write_feed _ (clear_screen k0)) by done.
  pose proof (tokens_refine _ _ banner Hr banner_ok) as Hb. rewrite E1, E2, (ss_fb _ _ Hn), Ef, Ec, Er in Hb.
  change (flat_map encode banner) with (bytes_of "Ore framebuffer console online" ++ [10]) in Hb.
  pose proof (feed_safe (bytes_of "Ore framebuffer console online" ++ [10]) _ (ss_ok _ _ Hn)) as [_ F1 [F2 F3] _].
  rewrite F1, F2, F3, E1, E2, (ss_fb _ _ Hn). done.
Qed.

(** on a screen with room for a character, the console shows a terminal: after
    it is initialised and the text of any sequence of tokens (characters, newlines,
    backspaces and the sequences for clearing, moving home and attributes with
    decimal parameters) is written, cursor and attributes are those of the abstract
    terminal and each pixel of each cell is that of the cell of its grid, whatever
    the framebuffer held before. *)
Theorem console_shows_terminal fb p toks :
  fb_ok fb -> 44 <= fb_width fb -> 66 <= fb_height fb -> Forall token_ok toks ->
  refines (console_write (flat_map encode toks) (console_init fb (console_zero p)))
    (fold_left (term_step (text_cols fb) (text_rows fb) (fb_height fb)) (banner ++ toks) (first_terminal fb)).
Proof.
  intros Hfb Hw Hh Ht. destruct (console_init_refines fb p Hfb Hw Hh) as (Ef & Ec & Er & Hr).
  rewrite fold_left_app, console_write_feed by apply Hr. pose proof (tokens_refine _ _ toks Hr Ht) as H. by rewrite Ef, Ec, Er in H.
Qed.

(** ** Examples *)

Definition demo_tokens : list token :=
  [TClear; TSgr [31; 44]; TChar (ch "A"); TSgr [7]; TChar (ch "b"); TNewline; TSgr []; TChar (ch "C"); TChar (ch "D"); TBack].

Lemma demo_tokens_ok : Forall token_ok demo_tokens.
Proof.
  unfold demo_tokens. repeat (apply Forall_cons; split); try apply Forall_nil_2;
    try exact I; try (apply char_ok; reflexivity).
  all: cbn [token_ok]; repeat (apply Forall_cons; split); try apply Forall_nil_2; unfold word32; lia.
Qed.

Lemma console_shows_terminal_witness :
  let t := fold_left (term_step 4 2 100) (banner ++ demo_tokens) (first_terminal demo_fb) in
  refines (console_write (flat_map encode demo_tokens) (console_init demo_fb (console_zero ∅))) t /\
  map (t_cells t 0) [0; 1] = [Shown (ch "A") RED BLUE; Shown (ch "C") FG PANEL_BG] /\
  map (t_cells t 1) [0; 1] = [Shown (ch "b") BLUE RED; Erased PANEL_BG] /\ (t_x t, t_y t) = (1, 1).
Proof.
  split.
  - apply (console_shows_terminal demo_fb ∅ demo_tokens demo_fb_ok); [cbn; lia|cbn; lia|exact demo_tokens_ok].
  - split; [|split]; vm_compute; reflexivity.
Defined.

(** The text and the pixels of the example, computed. *)
Example demo_text : flat_map encode demo_tokens =
  [27] ++ bytes_of "[J" ++ [27] ++ bytes_of "[31;44mA" ++ [27] ++ bytes_of "[7mb" ++ [10; 27] ++ bytes_of "[mCD" ++ [8].
Proof. vm_compute. reflexivity. Qed.

(** On a screen of 1024 by 768 the panel of [clear_screen] ends before the last row
    of text does: eight lines of its cells have the colour of the frame. *)
Lemma panel_too_short :
  let fb := {| fb_base := 0xe0000000; fb_width := 1024; fb_height := 768; fb_pixels_per_scanline := 1024; fb_pixel_format := 1 |} in
  text_rows fb = 40 /\ map (fun dy => cell_pixel (t_cells (first_terminal fb) 0 39) 0 dy) [9; 10; 17] = [PANEL_BG; BG; BG].
Proof. vm_compute. done. Qed.
