(* ===== verification/Keyboard.v ===== *)
(** Keys (kernel/console.c): the serial line and the PS/2 keyboard, polled.

    What the ports hold is an argument: the byte of the serial line or -1, and the
    scan code of the keyboard if there is one. *)
From stdpp Require Import base numbers list.
From Stdlib Require Import ZArith Lia.
From Stdlib Require Import(notations) Ascii String.
From S2P Require Import Prelude Cstring.

Definition ORE_INPUT_LEFT : Z := Z.shiftl 1 0.
Definition ORE_INPUT_RIGHT : Z := Z.shiftl 1 1.
Definition ORE_INPUT_UP : Z := Z.shiftl 1 2.
Definition ORE_INPUT_DOWN : Z := Z.shiftl 1 3.
Definition ORE_INPUT_FIRE : Z := Z.shiftl 1 4.
Definition ORE_INPUT_QUIT : Z := Z.shiftl 1 5.

Record keyboard := mk_keyboard { ps2_shift : Z; ps2_e0 : Z; input_keys : Z; input_ascii : Z; input_frame : Z }.

Definition set_e0 (k : keyboard) (e : Z) : keyboard :=
  mk_keyboard (ps2_shift k) e (input_keys k) (input_ascii k) (input_frame k).
Definition set_shift (k : keyboard) (s : Z) : keyboard :=
  mk_keyboard s (ps2_e0 k) (input_keys k) (input_ascii k) (input_frame k).

Definition input_set_ascii (ascii : Z) (k : keyboard) : keyboard :=
  mk_keyboard (ps2_shift k) (ps2_e0 k) (input_keys k) ascii (u32 (input_frame k + 1)).

Definition input_bit_for_ascii (c : Z) : Z :=
  if (c =? ch "a") || (c =? ch "A") then ORE_INPUT_LEFT
  else if (c =? ch "d") || (c =? ch "D") then ORE_INPUT_RIGHT
  else if (c =? ch "w") || (c =? ch "W") then ORE_INPUT_UP
  else if (c =? ch "s") || (c =? ch "S") then ORE_INPUT_DOWN
  else if c =? ch " " then ORE_INPUT_FIRE
  else if (c =? ch "q") || (c =? ch "Q") || (c =? 27) then ORE_INPUT_QUIT
  else 0.

Definition input_set_key (bit : Z) (down : bool) (k : keyboard) : keyboard :=
  if bit =? 0 then k else
  mk_keyboard (ps2_shift k) (ps2_e0 k)
    (if down then Z.lor (input_keys k) bit else Z.land (input_keys k) (Z.lxor bit 0xffffffff))
    (input_ascii k) (u32 (input_frame k + 1)).

Definition input_bit_for_scancode (sc e0 : Z) : Z :=
  if negb (e0 =? 0) then
    if sc =? 0x4b then ORE_INPUT_LEFT else if sc =? 0x4d then ORE_INPUT_RIGHT
    else if sc =? 0x48 then ORE_INPUT_UP else if sc =? 0x50 then ORE_INPUT_DOWN else 0
  else if sc =? 0x1e then ORE_INPUT_LEFT
  else if sc =? 0x20 then ORE_INPUT_RIGHT
  else if sc =? 0x11 then ORE_INPUT_UP
  else if sc =? 0x1f then ORE_INPUT_DOWN
  else if sc =? 0x39 then ORE_INPUT_FIRE
  else if (sc =? 0x10) || (sc =? 0x01) then ORE_INPUT_QUIT
  else 0.

(** The initialised entries of the tables; the others are zero. *)
Definition normal : list (Z * Z) :=
  [(0x01, 27); (0x02, ch "1"); (0x03, ch "2"); (0x04, ch "3"); (0x05, ch "4"); (0x06, ch "5"); (0x07, ch "6");
   (0x08, ch "7"); (0x09, ch "8"); (0x0A, ch "9"); (0x0B, ch "0"); (0x0C, ch "-"); (0x0D, ch "="); (0x0E, 8);
   (0x0F, 9); (0x10, ch "q"); (0x11, ch "w"); (0x12, ch "e"); (0x13, ch "r"); (0x14, ch "t"); (0x15, ch "y");
   (0x16, ch "u"); (0x17, ch "i"); (0x18, ch "o"); (0x19, ch "p"); (0x1A, ch "["); (0x1B, ch "]"); (0x1C, 10);
   (0x1E, ch "a"); (0x1F, ch "s"); (0x20, ch "d"); (0x21, ch "f"); (0x22, ch "g"); (0x23, ch "h"); (0x24, ch "j");
   (0x25, ch "k"); (0x26, ch "l"); (0x27, ch ";"); (0x28, ch "'"); (0x29, ch "`"); (0x2B, 92); (0x2C, ch "z");
   (0x2D, ch "x"); (0x2E, ch "c"); (0x2F, ch "v"); (0x30, ch "b"); (0x31, ch "n"); (0x32, ch "m"); (0x33, ch ",");
   (0x34, ch "."); (0x35, ch "/"); (0x39, ch " ")].
Definition shifted : list (Z * Z) :=
  [(0x01, 27); (0x02, ch "!"); (0x03, ch "@"); (0x04, ch "#"); (0x05, ch "$"); (0x06, ch "%"); (0x07, ch "^");
   (0x08, ch "&"); (0x09, ch "*"); (0x0A, ch "("); (0x0B, ch ")"); (0x0C, ch "_"); (0x0D, ch "+"); (0x0E, 8);
   (0x0F, 9); (0x10, ch "Q"); (0x11, ch "W"); (0x12, ch "E"); (0x13, ch "R"); (0x14, ch "T"); (0x15, ch "Y");
   (0x16, ch "U"); (0x17, ch "I"); (0x18, ch "O"); (0x19, ch "P"); (0x1A, ch "{"); (0x1B, ch "}"); (0x1C, 10);
   (0x1E, ch "A"); (0x1F, ch "S"); (0x20, ch "D"); (0x21, ch "F"); (0x22, ch "G"); (0x23, ch "H"); (0x24, ch "J");
   (0x25, ch "K"); (0x26, ch "L"); (0x27, ch ":"); (0x28, 34); (0x29, ch "~"); (0x2B, ch "|"); (0x2C, ch "Z");
   (0x2D, ch "X"); (0x2E, ch "C"); (0x2F, ch "V"); (0x30, ch "B"); (0x31, ch "N"); (0x32, ch "M"); (0x33, ch "<");
   (0x34, ch ">"); (0x35, ch "?"); (0x39, ch " ")].
Definition table_char (t : list (Z * Z)) (sc : Z) : Z :=
  match List.find (fun e => fst e =? sc) t with Some (_, c) => c | None => 0 end.

Definition console_read_key (serial : Z) (ps2 : option Z) (k : keyboard) : Z * keyboard :=
  if 0 <=? serial then (serial, input_set_ascii (u32 serial) k) else
  match ps2 with
  | None => (-1, k)
  | Some sc =>
      if sc =? 0xE0 then (-1, set_e0 k 1) else
      let released := Z.land sc 0x80 in
      let sc := Z.land sc 0x7F in
      let was_e0 := ps2_e0 k in
      if (sc =? 0x2A) || (sc =? 0x36) then (-1, set_e0 (set_shift k (if released =? 0 then 1 else 0)) 0) else
      let k := input_set_key (input_bit_for_scancode sc was_e0) (released =? 0) k in
      if negb (released =? 0) then (-1, set_e0 k 0) else
      if negb (ps2_e0 k =? 0) then (-1, set_e0 k 0) else
      let c := table_char (if ps2_shift k =? 0 then normal else shifted) sc in
      if negb (c =? 0) then (c, input_set_ascii c k) else (-1, k)
  end.

Record OreInputState := mk_input_state { is_keys : Z; is_ascii : Z; is_mouse_x : Z; is_mouse_y : Z; is_buttons : Z; is_frame : Z }.

(** The pointer is not null. *)
Definition input_state_poll (serial : Z) (ps2 : option Z) (k : keyboard) : OreInputState * keyboard :=
  let '(key, k) := console_read_key serial ps2 k in
  let transient := if 0 <=? key then input_bit_for_ascii (u32 key) else 0 in
  (mk_input_state (Z.lor (input_keys k) transient) (input_ascii k) 0 0 0 (input_frame k),
   mk_keyboard (ps2_shift k) (ps2_e0 k) (input_keys k) 0 (input_frame k)).

(** ** Events *)

(** A key of the main block or an extended one is pressed or released. *)
Record key_event := mk_event { ev_extended : bool; ev_code : Z; ev_down : bool }.

(** Its scan codes. *)
Definition scancodes (e : key_event) : list Z :=
  (if ev_extended e then [0xE0] else []) ++ [ev_code e + (if ev_down e then 0 else 0x80)].

Definition event_ok (e : key_event) : Prop := 0 <= ev_code e < 0x60.

(** What the keys mean: shift, the keys that are held, and the text. *)
Record typing := mk_typing { ty_shift : bool; ty_held : Z; ty_text : list Z }.

Definition is_shift (sc : Z) : bool := (sc =? 0x2A) || (sc =? 0x36).
Definition type_event (t : typing) (e : key_event) : typing :=
  let sc := ev_code e in
  if is_shift sc then mk_typing (ev_down e) (ty_held t) (ty_text t) else
  let bit := input_bit_for_scancode sc (Z.b2z (ev_extended e)) in
  let c := table_char (if ty_shift t then shifted else normal) sc in
  mk_typing (ty_shift t)
    (if ev_down e then Z.lor (ty_held t) bit else Z.ldiff (ty_held t) bit)
    (if ev_down e && negb (ev_extended e) && negb (c =? 0) then ty_text t ++ [c] else ty_text t).

(** Polling with the scan codes of a list: the keys that are returned. *)
Fixpoint poll_all (scs : list Z) (k : keyboard) : list Z * keyboard :=
  match scs with
  | [] => ([], k)
  | sc :: scs =>
      let '(key, k) := console_read_key (-1) (Some sc) k in
      let '(keys, k) := poll_all scs k in
      (if 0 <=? key then key :: keys else keys, k)
  end.

(** ** Decoding *)

(** The code and the direction of a scan code. *)
Lemma split_scancode sc down : 0 <= sc < 0x60 ->
  let b := sc + (if down : bool then 0 else 0x80) in
  b <> 0xE0 /\ (Z.land b 0x80 =? 0) = down /\ Z.land b 0x7F = sc.
Proof.
  intros Hsc b. subst b.
  assert (forallb (fun sc => forallb (fun d : bool => let b := sc + (if d then 0 else 0x80) in
    negb (b =? 0xE0) && Bool.eqb (Z.land b 0x80 =? 0) d && (Z.land b 0x7F =? sc)) [true; false]) (seqZ 0 0x60) = true) as H
    by (vm_compute; reflexivity).
  rewrite forallb_forall in H. specialize (H sc). rewrite forallb_forall in H.
  assert (In down [true; false]) as Hd by (destruct down; cbn; auto).
  specialize (H ltac:(apply list_elem_of_In, elem_of_seqZ; lia) down Hd). cbv zeta in H.
  apply andb_prop in H as [[H1 H2]%andb_prop H3]. apply negb_true_iff, Z.eqb_neq in H1. apply Bool.eqb_prop in H2.
  by apply Z.eqb_eq in H3.
Qed.

Lemma bit_bound sc e0 : 0 <= input_bit_for_scancode sc e0 < 64.
Proof.
  unfold input_bit_for_scancode. repeat case_test; (split; [vm_compute; discriminate|reflexivity]).
Qed.

Lemma table_char_nonneg (shift : bool) sc : 0 <= table_char (if shift then shifted else normal) sc.
Proof.
  assert (forallb (fun e => 0 <=? snd e) (normal ++ shifted) = true) as H by (vm_compute; reflexivity).
  rewrite forallb_forall in H. unfold table_char. destruct (List.find _ _) as [[x c]|] eqn:E; [|lia].
  apply find_some in E as [E _]. apply Z.leb_le. apply (H (x, c)). apply in_or_app. destruct shift; auto.
Qed.

(** Clearing a bit of a 32-bit word. *)
Lemma land_not_ldiff h b : word32 h -> Z.land h (Z.lxor b 0xffffffff) = Z.ldiff h b.
Proof.
  intros Hh. apply Z.bits_inj'. intros i Hi. rewrite Z.land_spec, Z.lxor_spec, Z.ldiff_spec.
  change 0xffffffff with (Z.ones 32). rewrite Z.testbit_ones_nonneg by lia.
  destruct (Z.ltb_spec i 32); [by rewrite xorb_true_r|]. by rewrite (testbit_above 32 h i) by (unfold word32 in Hh; lia).
Qed.

Lemma ldiff_bound h b : word32 h -> word32 (Z.ldiff h b).
Proof.
  intros Hh. assert (Z.ldiff h b = Z.ldiff h b mod 2 ^ 32) as ->; [|apply Z.mod_pos_bound; lia].
  apply Z.bits_inj'. intros i Hi. destruct (Z.ltb_spec i 32); [by rewrite Z.mod_pow2_bits_low by lia|].
  rewrite Z.mod_pow2_bits_high, Z.ldiff_spec by lia. by rewrite (testbit_above 32 h i) by (unfold word32 in Hh; lia).
Qed.

Lemma lor_bound h b : word32 h -> 0 <= b < 64 -> word32 (Z.lor h b).
Proof.
  unfold word32. intros Hh Hb. split; [apply Z.lor_nonneg; lia|].
  destruct (Z.eq_dec (Z.lor h b) 0) as [->|Hz]; [lia|].
  assert (0 < Z.lor h b) by (pose proof (proj2 (Z.lor_nonneg h b) ltac:(lia)); lia).
  change 4294967296 with (2 ^ 32). apply Z.log2_lt_pow2; [done|]. rewrite Z.log2_lor by lia.
  apply Z.max_lub_lt; [destruct (Z.eq_dec h 0) as [->|]; [done|]|destruct (Z.eq_dec b 0) as [->|]; [done|]]; apply Z.log2_lt_pow2; lia.
Qed.

(** The state is that of the typing. *)
Record decodes (k : keyboard) (t : typing) : Prop := mk_decodes {
  kd_shift : ps2_shift k = Z.b2z (ty_shift t);
  kd_e0 : ps2_e0 k = 0;
  kd_held : input_keys k = ty_held t;
  kd_word : word32 (ty_held t)
}.

Lemma poll_app scs1 scs2 k :
  poll_all (scs1 ++ scs2) k =
  let '(keys1, k) := poll_all scs1 k in let '(keys2, k) := poll_all scs2 k in (keys1 ++ keys2, k).
Proof.
  revert k. induction scs1 as [|sc scs1 IH]; intros k; cbn [poll_all app]; [by destruct (poll_all scs2 k)|].
  destruct (console_read_key (-1) (Some sc) k) as [key k1]. rewrite IH. destruct (poll_all scs1 k1) as [keys1 k2].
  destruct (poll_all scs2 k2) as [keys2 k3]. by destruct (0 <=? key).
Qed.

(** The state after the prefix of an event. *)
Lemma read_event k t e :
  ps2_shift k = Z.b2z (ty_shift t) -> ps2_e0 k = Z.b2z (ev_extended e) -> input_keys k = ty_held t -> word32 (ty_held t) ->
  event_ok e ->
  let '(key, k') := console_read_key (-1) (Some (ev_code e + (if ev_down e then 0 else 0x80))) k in
  ty_text (type_event t e) = ty_text t ++ (if 0 <=? key then [key] else []) /\ decodes k' (type_event t e).
Proof.
  intros Hs He Hh Hw Hok. destruct (split_scancode (ev_code e) (ev_down e) Hok) as (Hne & Hd & Hc).
  unfold console_read_key. change (0 <=? -1) with false. rewrite (proj2 (Z.eqb_neq _ _) Hne). cbv zeta. rewrite Hd, Hc.
  unfold type_event. cbv zeta. fold (is_shift (ev_code e)).
  destruct (is_shift (ev_code e)). { cbn. rewrite app_nil_r. split; [done|]. by split; cbn. }
  rewrite He. set (bit := input_bit_for_scancode (ev_code e) (Z.b2z (ev_extended e))).
  pose proof (bit_bound (ev_code e) (Z.b2z (ev_extended e))) as Hb. fold bit in Hb.
  set (k1 := input_set_key bit (ev_down e) k).
  assert (ps2_shift k1 = Z.b2z (ty_shift t) /\ ps2_e0 k1 = Z.b2z (ev_extended e) /\
    input_keys k1 = (if ev_down e then Z.lor (ty_held t) bit else Z.ldiff (ty_held t) bit) /\ word32 (input_keys k1)) as (E1 & E2 & E3 & E4).
  { unfold k1, input_set_key. destruct (Z.eqb_spec bit 0) as [->|Hbz].
    - rewrite Hh, Z.lor_0_r, Z.ldiff_0_r. by destruct (ev_down e).
    - cbn. rewrite Hh, land_not_ldiff by done. destruct (ev_down e); (do 3 (split; [done|])); [by apply lor_bound|by apply ldiff_bound]. }
  clearbody k1 bit. set (tab := if ty_shift t then shifted else normal). pose proof (table_char_nonneg (ty_shift t) (ev_code e)) as Ht. fold tab in Ht.
  destruct (ev_down e); cbn [negb andb]; cycle 1.
  { cbn. rewrite app_nil_r. split; [done|]. by split; cbn; rewrite <- ?E3. }
  rewrite E2. destruct (ev_extended e); cbn [Z.b2z Z.eqb negb andb].
  { cbn. rewrite app_nil_r. split; [done|]. by split; cbn; rewrite <- ?E3. }
  replace (if ps2_shift k1 =? 0 then normal else shifted) with tab by (rewrite E1; by destruct (ty_shift t)).
  destruct (Z.eqb_spec (table_char tab (ev_code e)) 0); cbn [negb].
  { cbn. rewrite app_nil_r. split; [done|]. by split; cbn; rewrite <- ?E3. }
  rewrite (proj2 (Z.leb_le _ _) Ht). split; [done|]. by split; cbn; rewrite <- ?E3.
Qed.

Lemma poll_event k t e :
  decodes k t -> event_ok e ->
  let '(keys, k') := poll_all (scancodes e) k in ty_text (type_event t e) = ty_text t ++ keys /\ decodes k' (type_event t e).
Proof.
  intros [Hs He Hh Hw] Hok. unfold scancodes. destruct (ev_extended e) eqn:Ee.
  - cbn [app poll_all]. change (console_read_key (-1) (Some 0xE0) k) with (-1, set_e0 k 1). cbn iota beta.
    pose proof (read_event (set_e0 k 1) t e Hs) as H. rewrite Ee in H. specialize (H eq_refl Hh Hw Hok).
    destruct (console_read_key _ _ (set_e0 k 1)) as [key k'] eqn:E. change (0 <=? -1) with false. cbn iota. by destruct (0 <=? key).
  - cbn [app poll_all]. pose proof (read_event k t e Hs) as H. rewrite Ee in H. specialize (H He Hh Hw Hok).
    destruct (console_read_key _ _ k) as [key k'] eqn:E. by destruct (0 <=? key).
Qed.

Lemma poll_events k t evs :
  decodes k t -> Forall event_ok evs ->
  let '(keys, k') := poll_all (flat_map scancodes evs) k in
  let t' := fold_left type_event evs t in
  ty_text t' = ty_text t ++ keys /\ decodes k' t'.
Proof.
  intros H Hevs. revert k t H. induction Hevs as [|e evs He Hevs IH]; intros k t H; cbn [flat_map fold_left].
  { cbn. by rewrite app_nil_r. }
  rewrite poll_app. pose proof (poll_event k t e H He) as Hp. destruct (poll_all (scancodes e) k) as [keys1 k1].
  destruct Hp as [E1 H1]. specialize (IH k1 _ H1). destruct (poll_all (flat_map scancodes evs) k1) as [keys2 k2].
  destruct IH as [E2 H2]. split; [|done]. by rewrite E2, E1, app_assoc.
Qed.

(** ** Typing text *)

(** The keys that type a character: with the shift key when only the shifted table
    has it. *)
Definition press (sc : Z) : list key_event := [mk_event false sc true; mk_event false sc false].
Definition keystrokes (c : Z) : list key_event :=
  match List.find (fun e => snd e =? c) normal with
  | Some (sc, _) => press sc
  | None =>
      match List.find (fun e => snd e =? c) shifted with
      | Some (sc, _) => mk_event false 0x2A true :: press sc ++ [mk_event false 0x2A false]
      | None => []
      end
  end.
Definition typable (c : Z) : bool := existsb (fun e => snd e =? c) (normal ++ shifted).

Lemma keystrokes_type c text : typable c = true ->
  Forall event_ok (keystrokes c) /\ fold_left type_event (keystrokes c) (mk_typing false 0 text) = mk_typing false 0 (text ++ [c]).
Proof.
  unfold typable. rewrite existsb_exists. intros (e & He & E%Z.eqb_eq). subst c. revert e He. apply List.Forall_forall.
  repeat (apply List.Forall_cons; [split; [repeat (apply Forall_cons; split); try apply Forall_nil_2; vm_compute; split; congruence|reflexivity]|]).
  apply List.Forall_nil.
Qed.

(** Any text of characters that the tables have is typed by its keystrokes. *)
Theorem typed_text k s :
  decodes k (mk_typing false 0 []) -> Forall (fun c => typable c = true) s ->
  let '(keys, k') := poll_all (flat_map scancodes (flat_map keystrokes s)) k in
  keys = s /\ decodes k' (mk_typing false 0 s).
Proof.
  intros Hk Hs. assert (forall text, Forall event_ok (flat_map keystrokes s) /\
    fold_left type_event (flat_map keystrokes s) (mk_typing false 0 text) = mk_typing false 0 (text ++ s)) as H.
  { clear k Hk. induction Hs as [|c s Hc Hs IH]; intros text; cbn [flat_map]; [by rewrite app_nil_r|].
    destruct (keystrokes_type c text Hc) as [H1 H2], (IH (text ++ [c])) as [H3 H4].
    split; [by apply Forall_app|]. by rewrite fold_left_app, H2, H4, <- app_assoc. }
  destruct (H []) as [Hok Hf]. pose proof (poll_events k _ _ Hk Hok) as Hp.
  destruct (poll_all _ k) as [keys k']. cbv zeta in Hp. rewrite Hf in Hp. by destruct Hp.
Qed.

(** ** Properties *)

(** the state machine of the scan codes decodes events: for any sequence of
    keys pressed and released, extended or not, polling with their scan codes
    returns the typed characters under the shift state of the moment, and ends with
    the shift state, the set of held control keys and no prefix pending. *)
Theorem keyboard_decodes k t evs :
  decodes k t -> Forall event_ok evs ->
  let '(keys, k') := poll_all (flat_map scancodes evs) k in
  let t' := fold_left type_event evs t in
  ty_text t' = ty_text t ++ keys /\ decodes k' t'.
Proof. apply poll_events. Qed.

(** ** Examples *)

(** Shift and H, then i, with the left arrow held: the text and the keys. *)
Definition demo_events : list key_event :=
  [mk_event true 0x4b true; mk_event false 0x2A true] ++ press 0x23 ++ [mk_event false 0x2A false] ++ press 0x17.

Lemma keyboard_decodes_witness :
  let '(keys, k') := poll_all (flat_map scancodes demo_events) (mk_keyboard 0 0 0 0 0) in
  keys = bytes_of "Hi" /\ input_keys k' = ORE_INPUT_LEFT.
Proof.
  assert (decodes (mk_keyboard 0 0 0 0 0) (mk_typing false 0 [])) as Hk by (split; cbn; unfold word32; try done; lia).
  assert (Forall event_ok demo_events) as He
    by (repeat (apply Forall_cons; split); try apply Forall_nil_2; unfold event_ok; cbn; lia).
  pose proof (keyboard_decodes (mk_keyboard 0 0 0 0 0) (mk_typing false 0 []) demo_events Hk He) as H.
  destruct (poll_all (flat_map scancodes demo_events) (mk_keyboard 0 0 0 0 0)) as [keys k']. destruct H as [H1 H2].
  split; [symmetry; exact H1|]. rewrite (kd_held _ _ H2). vm_compute. reflexivity.
Defined.
