(* ===== verification/Shell.v ===== *)
(** The shell (user/init.c): its string routines, the splitting of a line into
    arguments, the commands, the history and the line editor.

    The system calls are a record of operations over the state [W] of the rest of
    the system; each [sys_write] to the terminal is one call.  The line is the array
    of its characters: [split] writes terminators into it and returns the indices
    of the arguments. *)
From stdpp Require Import base numbers list.
From Stdlib Require Import ZArith Lia.
From Stdlib Require Import(notations) Ascii String.
From S2P Require Import Prelude Cstring.

Definition LINE_MAX : Z := 256.
Definition ARGV_MAX : nat := 8.
Definition HISTORY_MAX : Z := 8.

Definition esc_seq (s : list Z) : list Z := 27 :: s.
Definition C_RESET : list Z := esc_seq (bytes_of "[0m").
Definition C_DIM : list Z := esc_seq (bytes_of "[90m").
Definition C_RED : list Z := esc_seq (bytes_of "[91m").
Definition C_GREEN : list Z := esc_seq (bytes_of "[92m").
Definition C_YELLOW : list Z := esc_seq (bytes_of "[93m").
Definition C_BLUE : list Z := esc_seq (bytes_of "[94m").
Definition C_MAGENTA : list Z := esc_seq (bytes_of "[95m").
Definition C_CYAN : list Z := esc_seq (bytes_of "[96m").
Definition C_WHITE : list Z := esc_seq (bytes_of "[97m").

(** ** Strings *)

(** The string at an index of a character array: up to the terminator. *)
Fixpoint until_zero (s : list Z) : list Z :=
  match s with
  | [] => []
  | c :: s => if c =? 0 then [] else c :: until_zero s
  end.
Definition c_str (buf : list Z) (p : nat) : list Z := until_zero (drop p buf).

Fixpoint strcmp (a b : list Z) : Z :=
  match a, b with
  | x :: a, y :: b => if x =? y then strcmp a b else x - y
  | x :: _, [] => x
  | [], y :: _ => - y
  | [], [] => 0
  end.

(** [int] wraps. *)
Fixpoint atoi_from (value : Z) (s : list Z) : Z :=
  match s with
  | c :: s => if (ch "0" <=? c) && (c <=? ch "9") then atoi_from (s32 (value * 10 + (c - ch "0"))) s else value
  | [] => value
  end.
Definition atoi (s : list Z) : Z := atoi_from 0 s.

Definition hex_digit (d : Z) : Z := nth (Z.to_nat d) (bytes_of "0123456789abcdef") 0.

(** The loop fills the buffer of 32 characters from its end. *)
Fixpoint putu_loop (fuel : nat) (value base i : Z) (acc : list Z) : list Z :=
  match fuel with
  | O => acc
  | S fuel =>
      if (value =? 0) || (i =? 0) then acc
      else putu_loop fuel (value / base) base (i - 1) (hex_digit (value mod base) :: acc)
  end.

(** The strings that are written. *)
Definition putu_base (value base : Z) (sign : bool) : list (list Z) :=
  let '(out, value) := if sign && (s64 value <? 0) then ([bytes_of "-"], u64 (- s64 value)) else ([], value) in
  out ++ [if value =? 0 then bytes_of "0" else putu_loop 32 value base 31 []].

Inductive arg := AStr (s : list Z) | AInt (v : Z).
Definition int_arg (a : list arg) : Z * list arg := match a with AInt v :: a => (v, a) | _ => (0, a) end.
Definition str_arg (a : list arg) : list Z * list arg := match a with AStr s :: a => (s, a) | _ => ([], a) end.

(** The writes of [printf]; the arguments are those of the format. *)
Fixpoint printf_writes (fmt : list Z) (a : list arg) : list (list Z) :=
  match fmt with
  | [] => []
  | c :: fmt' =>
      if negb (c =? ch "%") then [c] :: printf_writes fmt' a else
      match fmt' with
      | [] => [[0]]
      | d :: fmt =>
          if d =? ch "s" then let '(s, a) := str_arg a in s :: printf_writes fmt a
          else if d =? ch "u" then let '(v, a) := int_arg a in putu_base (u64 v) 10 false ++ printf_writes fmt a
          else if d =? ch "d" then let '(v, a) := int_arg a in putu_base (u64 v) 10 true ++ printf_writes fmt a
          else if d =? ch "x" then let '(v, a) := int_arg a in putu_base (u64 v) 16 false ++ printf_writes fmt a
          else [d] :: printf_writes fmt a
      end
  end.

(** [None] for a null pointer. *)
Definition normalize_path (path : option (list Z)) : option (list Z) :=
  match path with
  | None | Some [] => None
  | Some (c :: s) => if c =? ch "/" then Some (c :: s) else Some (ch "/" :: take 158 (c :: s))
  end.

(** ** Splitting *)

Definition DQUOT : Z := 34.
Definition blank_char (c : Z) : bool := (c =? 32) || (c =? 9).

(** [while (test(p[0])) p++] in the array; no character after its end. *)
Fixpoint advance (test : Z -> bool) (s : list Z) (p : nat) : nat :=
  match s with
  | c :: s => if test c then advance test s (S p) else p
  | [] => p
  end.
Definition scan (test : Z -> bool) (buf : list Z) (p : nat) : nat := advance test (drop p buf) p.

Fixpoint trim_end (fuel : nat) (buf : list Z) (s e : nat) : list Z :=
  match fuel with
  | O => buf
  | S fuel =>
      if (s <? e)%nat && blank_char (char_at buf (e - 1)) then trim_end fuel (<[(e - 1)%nat := 0]> buf) s (e - 1) else buf
  end.

Definition trim (buf : list Z) (p : nat) : list Z * nat :=
  let s := scan blank_char buf p in
  let e := (s + length (c_str buf s))%nat in
  (trim_end (length buf) buf s e, s).

(** One argument: the array, the pointer and the index of the argument. *)
Definition split_arg (buf : list Z) (p : nat) : list Z * nat * nat :=
  if char_at buf p =? DQUOT then
    let a := S p in
    let q := scan (fun c => negb (c =? 0) && negb (c =? DQUOT)) buf a in
    if char_at buf q =? DQUOT then (<[q := 0]> buf, S q, a) else (buf, q, a)
  else (buf, scan (fun c => negb (c =? 0) && negb (blank_char c)) buf p, p).

Fixpoint split_loop (fuel : nat) (buf : list Z) (p : nat) (argv : list nat) (max : nat) : list Z * list nat :=
  match fuel with
  | O => (buf, argv)
  | S fuel =>
      if (char_at buf p =? 0) || (max <=? length argv)%nat then (buf, argv) else
      let '(buf, p, a) := split_arg buf p in
      let argv := argv ++ [a] in
      if char_at buf p =? 0 then (buf, argv) else
      let buf := <[p := 0]> buf in
      split_loop fuel buf (scan blank_char buf (S p)) argv max
  end.

Definition split (line : list Z) (max : nat) : list Z * list nat :=
  let '(buf, p) := trim line 0 in split_loop (S (length buf)) buf p [] max.

(** The arguments as strings. *)
Definition argv_strings (line : list Z) (max : nat) : list (list Z) :=
  let '(buf, argv) := split line max in map (c_str buf) argv.

(** ** Joining *)

(** [for (j = 0; s[j] && pos + k < cap; ++j) out[pos++] = s[j]] *)
Fixpoint append_chars (k cap : Z) (s out : list Z) : list Z :=
  match s with
  | [] => out
  | c :: s => if Z.of_nat (length out) + k <? cap then append_chars k cap s (out ++ [c]) else out
  end.

Fixpoint join_loop (cap : Z) (first : bool) (args : list (list Z)) (out : list Z) : list Z :=
  match args with
  | [] => out
  | a :: args =>
      if Z.of_nat (length out) + 1 <? cap then
        let out := if negb first && (Z.of_nat (length out) + 1 <? cap) then out ++ [32] else out in
        join_loop cap false args (append_chars 1 cap a out)
      else out
  end.
Definition join_args (cap : Z) (args : list (list Z)) : list Z := join_loop cap true args [].

Definition disk_bin_path (name : list Z) : list Z :=
  let path := append_chars 1 160 (bytes_of "/disk/bin/") [] in
  let path := append_chars 6 160 name path in
  path ++ bytes_of ".oimg".

(** ** Commands *)

Record SysInfo := mk_sys_info {
  si_total_pages : Z; si_free_pages : Z; si_used_pages : Z; si_reserved_pages : Z; si_uptime_ticks : Z; si_cpu_count : Z; si_pid : Z }.
Record ProcessInfo := mk_process_info {
  pi_pid : Z; pi_ppid : Z; pi_state : Z; pi_segment_count : Z; pi_syscall_count : Z; pi_entry : Z; pi_stack : Z; pi_name : list Z }.
Record ModuleInfo := mk_module_info {
  mo_name : list Z; mo_path : list Z; mo_state : Z; mo_abi_version : Z; mo_init_rc : Z; mo_text_base : Z; mo_text_size : Z; mo_has_command : Z }.

(** The system calls the shell makes; [None] for a negative result. *)
Record syscalls (W : Type) := mk_syscalls {
  sys_write : list Z -> W -> W;
  sys_spawn_args : list Z -> list Z -> W -> Z * W;
  sys_spawn : list Z -> W -> Z * W;
  sys_wait : Z -> W -> Z * W;
  sys_yield : W -> W;
  sys_sleep : Z -> W -> W;
  sys_info : W -> option SysInfo * W;
  sys_proc_info : Z -> W -> option ProcessInfo * W;
  sys_mod_info : Z -> W -> option ModuleInfo * W;
  sys_kcmd : list Z -> Z -> W -> Z * list Z * W }.
Arguments sys_write {W}. Arguments sys_spawn_args {W}. Arguments sys_spawn {W}. Arguments sys_wait {W}. Arguments sys_yield {W}.
Arguments sys_sleep {W}. Arguments sys_info {W}. Arguments sys_proc_info {W}. Arguments sys_mod_info {W}. Arguments sys_kcmd {W}.

(** How a command ends: the shell goes on, exits, or faults. *)
Inductive ending := Goes_on | Exits | Faults.

Section Commands.
Context {W : Type} (os : syscalls W).

Definition puts (s : list Z) (w : W) : W := sys_write os s w.
Definition writes (ss : list (list Z)) (w : W) : W := fold_left (fun w s => sys_write os s w) ss w.
Definition printf (fmt : String.string) (a : list arg) (w : W) : W := writes (printf_writes (bytes_of fmt) a) w.
Definition printf_line (fmt : String.string) (a : list arg) (w : W) : W := writes (printf_writes (bytes_of fmt ++ [10]) a) w.
Definition text (s : String.string) : list Z := bytes_of s ++ [10].

Definition cmd_help (w : W) : W :=
  let w := puts (C_CYAN ++ bytes_of "commands" ++ C_RESET ++ [10]) w in
  let w := puts (text "  help about lang history clear theme demo") w in
  let w := puts (text "  ls [path] cat <path> echo <text> stat <path> sysinfo osh mounts ore <file>") w in
  let w := puts (text "  ping dns http gfxtest inputtest terraintest skyrun [--smoke] raycast [--smoke]") w in
  let w := puts (text "  mem cpu uptime ps mods kcmd <name> sleep <ticks>") w in
  let w := puts (text "  spawn <path> yield run <path> preempt fault exit") w in
  puts (text "  default file tools are OreImage apps from /disk/bin/*.oimg") w.

Definition cmd_about (w : W) : W :=
  let w := puts (C_CYAN ++ bytes_of "Ore" ++ C_RESET ++ text " is a small x86_64 OS built from its own UEFI loader up.") w in
  let w := puts (C_DIM ++ bytes_of "kernel:" ++ C_RESET ++ text " SMP, VMM, ring3, syscalls, initramfs, /disk") w in
  puts (C_DIM ++ bytes_of "shell: " ++ C_RESET ++ text "single foreground environment with small user binaries") w.

Definition cmd_lang (w : W) : W :=
  let w := puts (C_CYAN ++ text "OreLang v0.1" ++ C_RESET) w in
  let w := puts (text "  native C-like language compiled by /bin/orec") w in
  let w := puts (text "  examples: hello.ore, count.ore, fib.ore, branch.ore, func.ore, recur.ore, ptr2.ore, array.ore, struct.ore, abi.ore, bytes.ore, bits.ore, extern.ore") w in
  let w := puts (text "  apps: /disk/apps/hello.ore, /disk/apps/echo.ore, /disk/apps/stat.ore") w in
  let w := puts (text "  syntax: let x: int = 1; while (x <= 3) { puti(x); x = x + 1; }") w in
  let w := puts (text "  supported: typed ptr arithmetic, [N]T arrays, struct, #[packed], sizeof, alignof, offsetof, extern declarations") w in
  puts (text "  run: ore /disk/examples/hello.ore") w.

Definition failed (s : String.string) (w : W) : W := puts (C_RED ++ text s ++ C_RESET) w.
Definition usage (s : String.string) (w : W) : W := puts (C_YELLOW ++ text s ++ C_RESET) w.

Definition cmd_mem (w : W) : W :=
  let '(info, w) := sys_info os w in
  match info with
  | None => failed "mem: sys_info failed" w
  | Some i => printf_line "pages total=%u free=%u used=%u reserved=%u"
                [AInt (si_total_pages i); AInt (si_free_pages i); AInt (si_used_pages i); AInt (si_reserved_pages i)] w
  end.
Definition cmd_cpu (w : W) : W :=
  let '(info, w) := sys_info os w in
  match info with
  | None => failed "cpu: sys_info failed" w
  | Some i => printf_line "cpus=%u pid=%u" [AInt (si_cpu_count i); AInt (si_pid i)] w
  end.
Definition cmd_uptime (w : W) : W :=
  let '(info, w) := sys_info os w in
  match info with
  | None => failed "uptime: sys_info failed" w
  | Some i => printf_line "ticks=%u" [AInt (si_uptime_ticks i)] w
  end.

(** The loops end at the first index the kernel refuses; it has fewer entries than
    the fuel. *)
Definition table_fuel : nat := Z.to_nat 65536.

Fixpoint mods_loop (fuel : nat) (i shown : Z) (w : W) : Z * W :=
  match fuel with
  | O => (shown, w)
  | S fuel =>
      let '(mod_, w) := sys_mod_info os i w in
      match mod_ with
      | None => (shown, w)
      | Some m =>
          let w := printf_line "%s %u %u %d 0x%x 0x%x cmd=%u %s"
            [AStr (mo_name m); AInt (mo_state m); AInt (mo_abi_version m); AInt (mo_init_rc m); AInt (mo_text_base m);
             AInt (mo_text_size m); AInt (mo_has_command m); AStr (mo_path m)] w in
          mods_loop fuel (u32 (i + 1)) (u32 (shown + 1)) w
      end
  end.
Definition cmd_mods (w : W) : W :=
  let w := puts (C_DIM ++ text "name state abi rc text size path" ++ C_RESET) w in
  let '(shown, w) := mods_loop table_fuel 0 0 w in
  if shown =? 0 then usage "mods: none loaded" w else w.

Definition proc_state_name (state : Z) : list Z :=
  if state =? 1 then bytes_of "ready" else if state =? 2 then bytes_of "running"
  else if state =? 3 then bytes_of "exited" else if state =? 4 then bytes_of "blocked" else bytes_of "unused".

Fixpoint ps_loop (fuel : nat) (i : Z) (w : W) : W :=
  match fuel with
  | O => w
  | S fuel =>
      let '(info, w) := sys_proc_info os i w in
      match info with
      | None => w
      | Some p =>
          let w := printf_line "%u %u %s %u 0x%x 0x%x %u %s"
            [AInt (pi_pid p); AInt (pi_ppid p); AStr (proc_state_name (pi_state p)); AInt (pi_syscall_count p);
             AInt (pi_entry p); AInt (pi_stack p); AInt (pi_segment_count p); AStr (pi_name p)] w in
          ps_loop fuel (u32 (i + 1)) w
      end
  end.
Definition cmd_ps (w : W) : W :=
  ps_loop table_fuel 0 (puts (C_DIM ++ text "pid ppid state   syscalls entry stack segments name" ++ C_RESET) w).

Definition cmd_run (path : option (list Z)) (args : list Z) (w : W) : W :=
  match normalize_path path with
  | None => usage "usage: run <path>" w
  | Some p =>
      let '(pid, w) := sys_spawn_args os p args w in
      if pid <? 0 then failed "run: not found or bad executable" w else
      let '(rc, w) := sys_wait os pid w in
      printf_line "run: pid=%u exit=%d" [AInt pid; AInt rc] w
  end.

Definition cmd_exec_wait (path args : list Z) (w : W) : W :=
  let '(pid, w) := sys_spawn_args os path args w in
  if pid <? 0 then failed "exec: not found or bad executable" w else
  let '(rc, w) := sys_wait os pid w in
  if rc <? 0 then failed "exec: wait failed" w else w.

Definition cmd_exec_ore_app (name args : list Z) (w : W) : W := cmd_exec_wait (disk_bin_path name) args w.

(** Whether the program was found. *)
Definition cmd_try_disk_bin (argv : list (list Z)) (w : W) : bool * W :=
  let '(pid, w) := sys_spawn_args os (disk_bin_path (nth 0 argv [])) (join_args 160 (drop 1 argv)) w in
  if pid <? 0 then (false, w) else
  let '(rc, w) := sys_wait os pid w in
  (true, printf_line "run: pid=%u exit=%d" [AInt pid; AInt rc] w).

Definition cmd_spawn (path : option (list Z)) (w : W) : W :=
  match normalize_path path with
  | None => usage "usage: spawn <path>" w
  | Some p =>
      let '(pid, w) := sys_spawn os p w in
      if pid <? 0 then failed "spawn: not found or bad executable" w
      else printf_line "spawn: pid=%u ready" [AInt pid] w
  end.

Definition cmd_kcmd (argv : list (list Z)) (w : W) : W :=
  match argv !! 1%nat with
  | None => usage "usage: kcmd <name>" w
  | Some name =>
      let '(rc, out, w) := sys_kcmd os name 512 w in
      if rc <? 0 then failed "kcmd: not found" w else
      let w := if bool_decide (out = []) then w else puts out w in
      printf_line "kcmd: %s rc=%u" [AStr name; AInt rc] w
  end.

(** ** History *)

Record history_t := mk_history { history : list (list Z); history_count : Z }.

Fixpoint history_loop (fuel : nat) (h : history_t) (i : Z) (w : W) : W :=
  match fuel with
  | O => w
  | S fuel =>
      if negb (i <? history_count h) then w else
      let w := printf_line "%u %s" [AInt i; AStr (nth (Z.to_nat (i mod HISTORY_MAX)) (history h) [])] w in
      history_loop fuel h (u32 (i + 1)) w
  end.
Definition cmd_history (h : history_t) (w : W) : W :=
  let start := if HISTORY_MAX <? history_count h then history_count h - HISTORY_MAX else 0 in
  history_loop (Z.to_nat HISTORY_MAX) h start w.

Definition remember (line : list Z) (h : history_t) : history_t :=
  match line with
  | [] => h
  | _ =>
      let slot := history_count h mod HISTORY_MAX in
      mk_history (<[Z.to_nat slot := take 255 line]> (history h)) (u32 (history_count h + 1))
  end.

(** ** The commands *)

Definition arg_or (argv : list (list Z)) (i : nat) (s : list Z) : list Z := default s (argv !! i).
Definition is_cmd (argv : list (list Z)) (name : String.string) : bool := strcmp (nth 0 argv []) (bytes_of name) =? 0.

Definition cmd_theme (w : W) : W :=
  puts (C_RED ++ bytes_of "red " ++ C_GREEN ++ bytes_of "green " ++ C_YELLOW ++ bytes_of "yellow " ++ C_BLUE ++ bytes_of "blue " ++
        C_MAGENTA ++ bytes_of "magenta " ++ C_CYAN ++ bytes_of "cyan " ++ C_WHITE ++ text "white" ++ C_RESET) w.
Definition cmd_demo (w : W) : W :=
  let w := puts (C_CYAN ++ text "+------------------------+" ++ C_RESET) w in
  let w := puts (C_CYAN ++ bytes_of "|" ++ C_RESET ++ bytes_of " Ore interactive shell  " ++ C_CYAN ++ text "|" ++ C_RESET) w in
  puts (C_CYAN ++ text "+------------------------+" ++ C_RESET) w.
Definition cmd_mounts (w : W) : W :=
  puts (C_GREEN ++ bytes_of "/ram" ++ C_RESET ++ text " initramfs ro" ++ C_GREEN ++ bytes_of "/disk" ++ C_RESET ++ text " orefs ro") w.
Definition clear_text : list Z := esc_seq (bytes_of "[2J") ++ esc_seq (bytes_of "[H").

Definition dispatch (h : history_t) (argv : list (list Z)) (w : W) : ending * W :=
  let goes w := (Goes_on, w) in
  if bool_decide (argv = []) then goes w
  else if is_cmd argv "help" then goes (cmd_help w)
  else if is_cmd argv "about" then goes (cmd_about w)
  else if is_cmd argv "lang" then goes (cmd_lang w)
  else if is_cmd argv "history" then goes (cmd_history h w)
  else if is_cmd argv "ls" then goes (cmd_exec_ore_app (bytes_of "ls") (arg_or argv 1 (bytes_of "/")) w)
  else if is_cmd argv "cat" then goes (cmd_exec_ore_app (bytes_of "cat") (arg_or argv 1 []) w)
  else if is_cmd argv "echo" then goes (cmd_exec_ore_app (bytes_of "echo") (join_args 160 (drop 1 argv)) w)
  else if is_cmd argv "stat" then goes (cmd_exec_ore_app (bytes_of "stat") (arg_or argv 1 []) w)
  else if is_cmd argv "mem" then goes (cmd_mem w)
  else if is_cmd argv "cpu" then goes (cmd_cpu w)
  else if is_cmd argv "uptime" || is_cmd argv "ticks" then goes (cmd_uptime w)
  else if is_cmd argv "ps" then goes (cmd_ps w)
  else if is_cmd argv "mods" then goes (cmd_mods w)
  else if is_cmd argv "kcmd" then goes (cmd_kcmd argv w)
  else if is_cmd argv "sleep" then
    goes (sys_sleep os (match argv !! 1%nat with Some a => u64 (atoi a) | None => 1 end) w)
  else if is_cmd argv "spawn" then goes (cmd_spawn (argv !! 1%nat) w)
  else if is_cmd argv "yield" then goes (sys_yield os w)
  else if is_cmd argv "preempt" then
    goes (sys_yield os (cmd_spawn (Some (bytes_of "/bin/count")) (cmd_spawn (Some (bytes_of "/bin/count")) w)))
  else if is_cmd argv "run" then goes (cmd_run (argv !! 1%nat) (join_args 192 (drop 2 argv)) w)
  else if is_cmd argv "ore" then goes (cmd_exec_wait (bytes_of "/bin/orec") (join_args 192 (drop 1 argv)) w)
  else if is_cmd argv "mounts" then goes (cmd_mounts w)
  else if is_cmd argv "theme" then goes (cmd_theme w)
  else if is_cmd argv "demo" then goes (cmd_demo w)
  else if is_cmd argv "fault" then (Faults, w)
  else if is_cmd argv "clear" then goes (puts clear_text w)
  else if is_cmd argv "exit" then (Exits, w)
  else
    let '(found, w) := cmd_try_disk_bin argv w in
    if found then goes w else
    let w := puts (C_RED ++ bytes_of "unknown command: " ++ C_RESET) w in
    let w := puts (nth 0 argv []) w in
    goes (puts [10] w).

(** The line is an array; the arguments are read from it after the split. *)
Definition run_command (h : history_t) (line : list Z) (w : W) : ending * W := dispatch h (argv_strings line ARGV_MAX) w.

(** ** The line editor *)

Record editor := mk_editor { ed_line : list Z; ed_len : Z; ed_history : history_t }.

Definition prompt (w : W) : W :=
  puts (C_GREEN ++ bytes_of "ore" ++ C_RESET ++ C_DIM ++ bytes_of ":" ++ C_RESET ++ C_CYAN ++ bytes_of "/" ++ C_RESET ++ C_YELLOW ++
        bytes_of " > " ++ C_RESET) w.

(** One character that [sys_read] has returned, a byte. *)
Definition shell_key (c : Z) (e : editor) (w : W) : ending * editor * W :=
  let c := if c =? 13 then 10 else c in
  if c =? 10 then
    let line := <[Z.to_nat (ed_len e) := 0]> (ed_line e) in
    let w := puts [10] w in
    let h := remember (c_str line 0) (ed_history e) in
    let '(r, w) := run_command h line w in
    let e := mk_editor (fst (split line ARGV_MAX)) 0 h in
    match r with
    | Goes_on => (Goes_on, e, prompt w)
    | r => (r, e, w)
    end
  else if (c =? 8) || (c =? 127) then
    if ed_len e =? 0 then (Goes_on, e, w)
    else (Goes_on, mk_editor (ed_line e) (ed_len e - 1) (ed_history e), puts [8; 32; 8] w)
  else if c <? 32 then (Goes_on, e, w)
  else
    let c := if 128 <=? c then ch "?" else c in
    if ed_len e + 1 <? LINE_MAX then
      (Goes_on, mk_editor (<[Z.to_nat (ed_len e) := c]> (ed_line e)) (ed_len e + 1) (ed_history e), puts [c] w)
    else (Goes_on, e, w).

(** The start of [main]: the greeting and the three commands. *)
Definition shell_start (w : W) : W :=
  let h := mk_history (replicate 8 []) 0 in
  let w := puts clear_text w in
  let w := puts (C_CYAN ++ text "ORE USERSYSTEM v0.2" ++ C_RESET) w in
  let w := puts (C_DIM ++ text "ring3 shell / initramfs / persistent disk / SMP kernel" ++ [10] ++ C_RESET) w in
  let w := puts (C_GREEN ++ bytes_of "ready" ++ C_RESET ++ bytes_of "  type " ++ C_YELLOW ++ bytes_of "help" ++ C_RESET ++ bytes_of ", " ++
    C_YELLOW ++ bytes_of "lang" ++ C_RESET ++ bytes_of ", or " ++ C_YELLOW ++ bytes_of "theme" ++ C_RESET ++ [10; 10]) w in
  let w := puts (C_DIM ++ text "$ help" ++ C_RESET) w in
  let '(_, w) := run_command h (bytes_of "help" ++ [0]) w in
  let w := puts (C_DIM ++ text "$ ls" ++ C_RESET) w in
  let '(_, w) := run_command h (bytes_of "ls" ++ [0]) w in
  let w := puts (C_DIM ++ text "$ cat /init.txt" ++ C_RESET) w in
  let '(_, w) := run_command h (bytes_of "cat /init.txt" ++ [0]) w in
  prompt w.
End Commands.

(** ** Lines of words *)

(** A word is written as it is or between quotes. *)
Inductive word := Plain (s : list Z) | Quoted (s : list Z).
Definition word_value (w : word) : list Z := match w with Plain s | Quoted s => s end.
Definition word_text (w : word) : list Z := match w with Plain s => s | Quoted s => DQUOT :: s ++ [DQUOT] end.

Definition plain_char (c : Z) : bool := negb (c =? 0) && negb (blank_char c).
Definition quoted_char (c : Z) : bool := negb (c =? 0) && negb (c =? DQUOT).
Definition word_ok (w : word) : bool :=
  match w with
  | Plain s => negb (bool_decide (s = [])) && forallb plain_char s && negb (hd 0 s =? DQUOT)
  | Quoted s => forallb quoted_char s
  end.

(** Words with blanks before each of them, and after the first at least one. *)
Definition blanks (s : list Z) : bool := forallb blank_char s.
Definition seps (ws : list (list Z * word)) : list Z := concat (map (fun bw => fst bw ++ word_text (snd bw)) ws).
Definition sep_ok (bw : list Z * word) : bool := negb (bool_decide (fst bw = [])) && blanks (fst bw) && word_ok (snd bw).

Lemma char_at_app pre c rest : char_at (pre ++ c :: rest) (length pre) = c.
Proof. unfold char_at. rewrite app_nth2 by lia. by rewrite Nat.sub_diag. Qed.

Lemma insert_app_at {A} (pre : list A) c v rest : <[length pre := v]> (pre ++ c :: rest) = pre ++ v :: rest.
Proof. replace (length pre) with (length pre + 0)%nat by lia. by rewrite insert_app_r. Qed.

Lemma scan_app test pre s c rest :
  forallb test s = true -> test c = false -> scan test (pre ++ s ++ c :: rest) (length pre) = (length pre + length s)%nat.
Proof.
  intros Hs Hc. unfold scan. rewrite drop_app_length. generalize (length pre) as p. induction s as [|x s IH]; intros p; cbn.
  - by rewrite Hc, Nat.add_0_r.
  - cbn in Hs. apply andb_prop in Hs as [-> Hs]. rewrite IH by done. lia.
Qed.

Lemma until_zero_app s rest : forallb (fun c => negb (c =? 0)) s = true -> until_zero (s ++ 0 :: rest) = s.
Proof. induction s as [|c s IH]; [done|]. cbn. intros [H1 H2]%andb_prop. apply negb_true_iff in H1. by rewrite H1, IH. Qed.

Lemma c_str_app pre s rest : forallb (fun c => negb (c =? 0)) s = true -> c_str (pre ++ s ++ 0 :: rest) (length pre) = s.
Proof. intros H. unfold c_str. rewrite drop_app_length. by apply until_zero_app. Qed.

Lemma plain_nonzero s : forallb plain_char s = true -> forallb (fun c => negb (c =? 0)) s = true.
Proof. rewrite !forallb_forall. intros H c Hc. specialize (H c Hc). by apply andb_prop in H as [? _]. Qed.
Lemma quoted_nonzero s : forallb quoted_char s = true -> forallb (fun c => negb (c =? 0)) s = true.
Proof. rewrite !forallb_forall. intros H c Hc. specialize (H c Hc). by apply andb_prop in H as [? _]. Qed.

(** Words start and end with a character that is neither blank nor zero. *)
Lemma word_start w : word_ok w = true -> exists c s, word_text w = c :: s /\ plain_char c = true.
Proof.
  destruct w as [s|s]; cbn; [|by eauto]. intros [[H1 H2]%andb_prop _]%andb_prop.
  destruct s as [|c s]; [done|]. cbn in H2. apply andb_prop in H2 as [H2 _]. by eauto.
Qed.
Lemma word_end w : word_ok w = true -> exists s c, word_text w = s ++ [c] /\ blank_char c = false.
Proof.
  destruct w as [s|s]; cbn.
  - intros [[H1 H2]%andb_prop _]%andb_prop. destruct s as [|c s _] using rev_ind; [done|].
    rewrite forallb_app in H2. apply andb_prop in H2 as [_ H2]. cbn in H2. rewrite andb_true_r in H2.
    apply andb_prop in H2 as [_ H2]. apply negb_true_iff in H2. by eauto.
  - intros _. exists (DQUOT :: s), DQUOT. done.
Qed.

Lemma char_cons_app pre c s rest : char_at (pre ++ (c :: s) ++ rest) (length pre) = c.
Proof. apply char_at_app. Qed.

(** One word: the argument, and the pointer at the character after the word. *)
Lemma split_arg_word pre w c rest :
  word_ok w = true -> blank_char c || (c =? 0) = true ->
  exists pre' a, split_arg (pre ++ word_text w ++ c :: rest) (length pre) = (pre' ++ c :: rest, length pre', a) /\
    (c = 0 -> c_str (pre' ++ c :: rest) a = word_value w) /\ (forall t, c_str (pre' ++ 0 :: t) a = word_value w) /\
    exists s, pre' = pre ++ s.
Proof.
  intros Hw Hc. unfold split_arg. destruct w as [s|s]; cbn [word_text word_value word_ok] in *.
  - apply andb_prop in Hw as [[H1 H2]%andb_prop H3]. destruct s as [|x s]; [done|]. rewrite char_cons_app.
    cbn [hd] in H3. apply negb_true_iff in H3. rewrite H3. exists (pre ++ x :: s), (length pre).
    change (fun c0 => negb (c0 =? 0) && negb (blank_char c0)) with plain_char.
    rewrite (scan_app plain_char pre (x :: s) c rest) by (done || (unfold plain_char; by destruct (blank_char c), (c =? 0))).
    assert (forall t, c_str ((pre ++ x :: s) ++ 0 :: t) (length pre) = x :: s) as Ht.
    { intros t. rewrite <- app_assoc. apply c_str_app. by apply plain_nonzero. }
    split; [by rewrite <- app_assoc, length_app|]. split; [intros ->; apply Ht|]. split; [exact Ht|by eauto].
  - rewrite char_cons_app, Z.eqb_refl. change (fun c0 => negb (c0 =? 0) && negb (c0 =? DQUOT)) with quoted_char.
    replace (pre ++ (DQUOT :: s ++ [DQUOT]) ++ c :: rest) with ((pre ++ [DQUOT]) ++ s ++ DQUOT :: c :: rest)
      by (cbn [app]; by rewrite <- !app_assoc).
    replace (S (length pre)) with (length (pre ++ [DQUOT])) by (rewrite length_app; cbn; lia).
    rewrite (scan_app quoted_char _ s DQUOT) by done. rewrite <- length_app, app_assoc, char_at_app, Z.eqb_refl, insert_app_at.
    exists (((pre ++ [DQUOT]) ++ s) ++ [0]), (length (pre ++ [DQUOT])).
    assert (forall t, c_str ((((pre ++ [DQUOT]) ++ s) ++ [0]) ++ t) (length (pre ++ [DQUOT])) = s) as Ht.
    { intros t. rewrite <- (app_assoc _ [0] t), <- (app_assoc (pre ++ [DQUOT]) s). cbn [app]. apply c_str_app. by apply quoted_nonzero. }
    split; [|split; [intros _; apply Ht|split; [intros t; apply Ht|exists ([DQUOT] ++ s ++ [0]); by rewrite <- !app_assoc]]].
    do 2 f_equal; [by rewrite <- (app_assoc _ [0])|rewrite (length_app _ [0]); cbn; lia].
Qed.

Lemma split_loop_words ws w pre rest fuel argv max :
  word_ok w = true -> forallb sep_ok ws = true -> (length ws < fuel)%nat ->
  exists buf' argv', split_loop fuel (pre ++ word_text w ++ seps ws ++ 0 :: rest) (length pre) argv max = (buf', argv ++ argv') /\
    map (c_str buf') argv' = take (max - length argv) (map word_value (w :: map snd ws)) /\ exists t, buf' = pre ++ t.
Proof.
  revert w pre rest fuel argv. induction ws as [|[b w2] ws IH]; intros w pre rest fuel argv Hw Hws Hf;
    (destruct fuel as [|fuel]; [lia|]); cbn [split_loop];
    destruct (word_start w Hw) as (x & s & Ex & Hx); 
    (assert (forall r, char_at (pre ++ word_text w ++ r) (length pre) = x) as -> by (intros r; rewrite Ex; apply char_cons_app));
    apply andb_prop in Hx as [Hx0%negb_true_iff _]; rewrite Hx0; cbn [orb];
    (destruct (Nat.leb_spec max (length argv)) as [Hm|Hm];
      [eexists _, []; replace (max - length argv)%nat with 0%nat by lia; rewrite app_nil_r; by eauto|]).
  - change (seps [] ++ 0 :: rest) with (0 :: rest). destruct (split_arg_word pre w 0 rest Hw eq_refl) as (pre' & a & -> & H0 & _ & t & ->).
    rewrite char_at_app. cbn [Z.eqb]. exists ((pre ++ t) ++ 0 :: rest), [a]. split; [done|]. split; [|rewrite <- app_assoc; by eauto].
    cbn [map]. rewrite H0 by done. destruct (max - length argv)%nat eqn:E; [lia|]. cbn. by rewrite take_nil.
  - cbn in Hws. apply andb_prop in Hws as [Hsep Hws]. unfold sep_ok in Hsep. cbn [fst snd] in Hsep.
    apply andb_prop in Hsep as [[Hb1 Hb2]%andb_prop Hw2]. destruct b as [|b bs]; [done|].
    unfold blanks in Hb2. cbn [forallb] in Hb2. apply andb_prop in Hb2 as [Hb Hbs].
    assert (seps ((b :: bs, w2) :: ws) ++ 0 :: rest = b :: bs ++ word_text w2 ++ seps ws ++ 0 :: rest) as ->.
    { unfold seps. cbn [map concat fst snd]. cbn [app]. by rewrite <- !app_assoc. }
    destruct (split_arg_word pre w b (bs ++ word_text w2 ++ seps ws ++ 0 :: rest) Hw) as (pre' & a & -> & _ & H1 & t & Et); [by rewrite Hb|].
    rewrite char_at_app. assert ((b =? 0) = false) as -> by (unfold blank_char in Hb; destruct (Z.eqb_spec b 0) as [->|]; done).
    rewrite insert_app_at. destruct (word_start w2 Hw2) as (y & s2 & Ey & Hy). apply andb_prop in Hy as [_ Hy%negb_true_iff].
    replace (pre' ++ 0 :: bs ++ word_text w2 ++ seps ws ++ 0 :: rest)
      with ((pre' ++ [0]) ++ bs ++ y :: s2 ++ seps ws ++ 0 :: rest) by (rewrite Ey; cbn [app]; by rewrite <- !app_assoc).
    replace (S (length pre')) with (length (pre' ++ [0])) by (rewrite length_app; cbn; lia).
    rewrite (scan_app blank_char (pre' ++ [0]) bs y) by done. rewrite <- length_app.
    destruct (IH w2 ((pre' ++ [0]) ++ bs) rest fuel (argv ++ [a]) Hw2 Hws ltac:(cbn in Hf; lia)) as (buf' & argv' & Hl & Hm' & u & Eu).
    rewrite Ey in Hl. rewrite <- !app_assoc in Hl. cbn [app] in Hl. rewrite <- !app_assoc. cbn [app].
    exists buf', (a :: argv'). split; [exact Hl|]. split.
    + rewrite length_app in Hm'. cbn [length] in Hm'. cbn [map]. rewrite Hm'.
      replace (max - length argv)%nat with (S (max - (length argv + 1))) by lia. cbn [take snd map]. f_equal.
      rewrite Eu, <- !app_assoc. apply H1.
    + rewrite Eu, Et, <- !app_assoc. by eauto.
Qed.

Lemma trim_end_blanks b pre body c rest fuel :
  blanks b = true -> blank_char c = false -> (length b <= fuel)%nat ->
  exists rest', trim_end fuel (pre ++ (body ++ [c]) ++ b ++ 0 :: rest) (length pre) (length pre + length (body ++ [c]) + length b) =
    pre ++ (body ++ [c]) ++ 0 :: rest' /\ length rest' = (length b + length rest)%nat.
Proof.
  intros Hb Hc. revert rest fuel. induction b as [|x b IH] using rev_ind; intros rest fuel Hf.
  - exists rest. split; [|done]. cbn [app length]. destruct fuel as [|fuel]; [done|]. cbn [trim_end].
    rewrite Nat.add_0_r, length_app. cbn [length].
    replace (length pre + (length body + 1) - 1)%nat with (length (pre ++ body)) by (rewrite length_app; lia).
    rewrite <- app_assoc, app_assoc. cbn [app]. rewrite char_at_app, Hc, andb_false_r. by rewrite <- app_assoc.
  - unfold blanks in Hb. rewrite forallb_app in Hb. apply andb_prop in Hb as [Hb Hx]. cbn in Hx. rewrite andb_true_r in Hx.
    rewrite length_app in Hf. cbn [length] in Hf. destruct fuel as [|fuel]; [lia|]. cbn [trim_end].
    set (n := (length pre + length (body ++ [c]) + length b)%nat).
    replace (length pre + length (body ++ [c]) + length (b ++ [x]))%nat with (S n) by (unfold n; rewrite (length_app b); cbn; lia).
    replace (S n - 1)%nat with n by lia.
    assert (n = length (pre ++ (body ++ [c]) ++ b)) as En by (unfold n; rewrite (length_app pre), (length_app (body ++ [c])); lia).
    replace (pre ++ (body ++ [c]) ++ (b ++ [x]) ++ 0 :: rest) with ((pre ++ (body ++ [c]) ++ b) ++ x :: 0 :: rest)
      by (by rewrite <- !app_assoc).
    rewrite (proj2 (Nat.ltb_lt _ _)) by (unfold n; lia). rewrite En, char_at_app, Hx, insert_app_at. cbn [andb].
    destruct (IH Hb (0 :: rest) fuel ltac:(lia)) as (rest' & Hr & Hl). exists rest'. rewrite <- En. unfold n. rewrite <- Hr. split.
    + f_equal. by rewrite <- !app_assoc.
    + rewrite Hl, length_app. cbn. lia.
Qed.

(** The text of a line: blanks, the words with their separators, blanks. *)
Definition line_text (w0 : list Z) (ws : list (list Z * word)) (wn : list Z) : list Z :=
  match ws with
  | [] => w0 ++ wn
  | (_, w) :: ws => w0 ++ (word_text w ++ seps ws) ++ wn
  end.
Definition words_ok (ws : list (list Z * word)) : bool :=
  match ws with [] => true | (_, w) :: ws => word_ok w && forallb sep_ok ws end.

Lemma seps_end ws w : word_ok w = true -> forallb sep_ok ws = true ->
  exists s c, word_text w ++ seps ws = s ++ [c] /\ blank_char c = false.
Proof.
  intros Hw Hws. destruct ws as [|[b w2] ws _] using rev_ind.
  - unfold seps. cbn [map concat]. rewrite app_nil_r. by apply word_end.
  - rewrite forallb_app in Hws. apply andb_prop in Hws as [_ Hws]. cbn in Hws. rewrite andb_true_r in Hws.
    apply andb_prop in Hws as [_ Hw2]. destruct (word_end w2 Hw2) as (s & c & E & Hc).
    exists (word_text w ++ seps ws ++ b ++ s), c. split; [|done]. unfold seps. rewrite map_app, concat_app. cbn [map concat fst snd].
    rewrite E, app_nil_r. by rewrite <- !app_assoc.
Qed.

Lemma blank_nonzero s : blanks s = true -> forallb (fun c => negb (c =? 0)) s = true.
Proof. unfold blanks. rewrite !forallb_forall. intros H c Hc. specialize (H c Hc). destruct (Z.eqb_spec c 0) as [->|]; done. Qed.

Lemma word_nonzero w : word_ok w = true -> forallb (fun c => negb (c =? 0)) (word_text w) = true.
Proof.
  destruct w as [s|s]; cbn; [intros [[_ H]%andb_prop _]%andb_prop; by apply plain_nonzero|].
  intros H. rewrite forallb_app, quoted_nonzero by done. done.
Qed.

Lemma seps_nonzero ws : forallb sep_ok ws = true -> forallb (fun c => negb (c =? 0)) (seps ws) = true.
Proof.
  induction ws as [|[b w] ws IH]; [done|]. cbn. intros [Hs Hws]%andb_prop. unfold sep_ok in Hs. cbn [fst snd] in Hs.
  apply andb_prop in Hs as [[_ Hb]%andb_prop Hw]. fold (seps ws). rewrite !forallb_app, blank_nonzero, word_nonzero, IH by done. done.
Qed.

Lemma seps_length ws : forallb sep_ok ws = true -> (length ws <= length (seps ws))%nat.
Proof.
  induction ws as [|[b w] ws IH]; [done|]. cbn [forallb seps map concat length fst snd]. intros [Hs Hws]%andb_prop.
  unfold sep_ok in Hs. cbn [fst snd] in Hs. apply andb_prop in Hs as [[Hb _]%andb_prop _]. fold (seps ws).
  rewrite !length_app. specialize (IH Hws). destruct b; [done|]. cbn [length]. lia.
Qed.

(** Splitting undoes writing. *)
Lemma split_words w0 ws wn rest max :
  blanks w0 = true -> blanks wn = true -> words_ok ws = true ->
  argv_strings (line_text w0 ws wn ++ 0 :: rest) max = take max (map word_value (map snd ws)).
Proof.
  intros H0 Hn Hws. unfold argv_strings, split, trim. destruct ws as [|[b w] ws]; cbn [line_text words_ok] in *.
  - assert (blanks (w0 ++ wn) = true) as Hb by (unfold blanks in *; by rewrite forallb_app, H0, Hn).
    set (buf := (w0 ++ wn) ++ 0 :: rest).
    assert (scan blank_char buf 0 = length (w0 ++ wn)) as -> by exact (scan_app blank_char [] (w0 ++ wn) 0 rest Hb eq_refl).
    assert (c_str buf (length (w0 ++ wn)) = []) as -> by exact (c_str_app (w0 ++ wn) [] rest eq_refl).
    cbn [length]. rewrite Nat.add_0_r.
    assert (trim_end (length buf) buf (length (w0 ++ wn)) (length (w0 ++ wn)) = buf) as ->.
    { destruct (length buf); [done|]. cbn [trim_end]. by rewrite Nat.ltb_irrefl. }
    cbn [split_loop]. assert (char_at buf (length (w0 ++ wn)) = 0) as -> by apply char_at_app. cbn. by rewrite take_nil.
  - apply andb_prop in Hws as [Hw Hws]. destruct (seps_end ws w Hw Hws) as (body & c & Eb & Hc).
    destruct (word_start w Hw) as (x & s & Ex & Hx). apply andb_prop in Hx as [_ Hx%negb_true_iff].
    set (line := (w0 ++ (word_text w ++ seps ws) ++ wn) ++ 0 :: rest).
    assert (line = w0 ++ (body ++ [c]) ++ wn ++ 0 :: rest) as El by (unfold line; by rewrite Eb, <- !app_assoc).
    assert (scan blank_char line 0 = length w0) as ->.
    { pose proof (scan_app blank_char [] w0 x (s ++ seps ws ++ wn ++ 0 :: rest) H0 Hx) as Hs. cbn [length app Nat.add] in Hs. rewrite <- Hs.
      unfold line. by rewrite Ex, <- !app_assoc. }
    assert (c_str line (length w0) = (body ++ [c]) ++ wn) as ->.
    { rewrite El, (app_assoc (body ++ [c])). apply c_str_app. rewrite forallb_app, <- Eb, forallb_app, word_nonzero, seps_nonzero, blank_nonzero by done. done. }
    rewrite length_app, El, (Nat.add_assoc (length w0)).
    destruct (trim_end_blanks wn w0 body c rest (length (w0 ++ (body ++ [c]) ++ wn ++ 0 :: rest)) Hn Hc) as (rest' & -> & _);
      [rewrite !length_app; lia|].
    rewrite <- Eb, <- app_assoc. pose proof (seps_length ws Hws) as Hl.
    destruct (split_loop_words ws w w0 rest' (S (length (w0 ++ word_text w ++ seps ws ++ 0 :: rest'))) [] max Hw Hws) as (buf' & argv' & -> & Hm & _);
      [rewrite !length_app; lia|]. cbn [app length] in *. rewrite Nat.sub_0_r in Hm. exact Hm.
Qed.

(** ** Joining *)

Definition join_words (args : list (list Z)) : list Z :=
  match args with [] => [] | a :: args => a ++ concat (map (cons 32) args) end.

Lemma append_chars_spec k cap s out : append_chars k cap s out = out ++ take (Z.to_nat (cap - k - Z.of_nat (length out))) s.
Proof.
  revert out. induction s as [|c s IH]; intros out; cbn [append_chars]; [by rewrite take_nil, app_nil_r|].
  destruct (Z.ltb_spec (Z.of_nat (length out) + k) cap).
  - rewrite IH, length_app, <- app_assoc. cbn [length app]. f_equal.
    replace (Z.to_nat (cap - k - Z.of_nat (length out))) with (S (Z.to_nat (cap - k - Z.of_nat (length out + 1)))) by lia. done.
  - replace (Z.to_nat (cap - k - Z.of_nat (length out))) with 0%nat by lia. by rewrite app_nil_r.
Qed.

Lemma join_loop_spec cap args out :
  1 <= cap -> Z.of_nat (length out) <= cap - 1 ->
  join_loop cap false args out = take (Z.to_nat (cap - 1)) (out ++ concat (map (cons 32) args)).
Proof.
  intros Hc. revert out. induction args as [|a args IH]; intros out Ho; cbn [join_loop map concat].
  { rewrite app_nil_r, take_ge by lia. done. }
  destruct (Z.ltb_spec (Z.of_nat (length out) + 1) cap); cycle 1.
  { rewrite take_app_le by lia. by rewrite take_ge by lia. }
  cbn [negb andb]. rewrite append_chars_spec, length_app. cbn [length].
  set (n := Z.to_nat (cap - 1 - Z.of_nat (length out + 1))).
  rewrite IH by (rewrite !length_app, length_take; cbn [length]; lia).
  replace (out ++ (32 :: a) ++ concat (map (cons 32) args)) with ((out ++ [32]) ++ a ++ concat (map (cons 32) args)) by (by rewrite <- app_assoc).
  rewrite <- (app_assoc (out ++ [32])). replace (Z.to_nat (cap - 1)) with (length (out ++ [32%Z]) + n)%nat by (rewrite length_app; cbn [length]; lia).
  rewrite !take_app_add. f_equal. rewrite !take_app, take_take, length_take.
  rewrite Nat.min_id. f_equal. f_equal. lia.
Qed.

Lemma join_args_spec cap args : 1 <= cap -> join_args cap args = take (Z.to_nat (cap - 1)) (join_words args).
Proof.
  intros Hc. unfold join_args. destruct args as [|a args]; cbn [join_loop join_words]; [by rewrite take_nil|].
  cbn [length negb andb]. destruct (Z.ltb_spec (Z.of_nat 0 + 1) cap); cycle 1.
  { by replace (Z.to_nat (cap - 1)) with 0%nat by lia. }
  rewrite append_chars_spec. cbn [length app Z.of_nat]. rewrite Z.sub_0_r.
  rewrite join_loop_spec by (rewrite ?length_take; lia).
  rewrite !take_app, take_take, length_take, Nat.min_id. f_equal. f_equal. lia.
Qed.

Definition program_path (name : list Z) : list Z := bytes_of "/disk/bin/" ++ take 144 name ++ bytes_of ".oimg".
Lemma disk_bin_path_spec name : disk_bin_path name = program_path name.
Proof. unfold disk_bin_path. cbv zeta. rewrite (append_chars_spec 6), <- app_assoc. reflexivity. Qed.

(** ** Editing *)

(** What the keys make of a line, and what is written for them. *)
Definition edit_key (s : list Z) (c : Z) : list Z :=
  if (c =? 8) || (c =? 127) then removelast s
  else if c <? 32 then s
  else if Z.of_nat (length s) + 1 <? LINE_MAX then s ++ [if 128 <=? c then ch "?" else c] else s.
Definition echo_key (s : list Z) (c : Z) : list (list Z) :=
  if (c =? 8) || (c =? 127) then (if bool_decide (s = []) then [] else [[8; 32; 8]])
  else if c <? 32 then []
  else if Z.of_nat (length s) + 1 <? LINE_MAX then [[if 128 <=? c then ch "?" else c]] else [].
Definition edit (ks : list Z) : list Z := fold_left edit_key ks [].
Fixpoint echo (s ks : list Z) : list (list Z) :=
  match ks with [] => [] | c :: ks => echo_key s c ++ echo (edit_key s c) ks end.

(** The keys one after the other, up to the one that ends the shell. *)
Fixpoint shell_keys {W} (os : syscalls W) (ks : list Z) (e : editor) (w : W) : ending * editor * W :=
  match ks with
  | [] => (Goes_on, e, w)
  | c :: ks =>
      match shell_key os c e w with
      | (Goes_on, e, w) => shell_keys os ks e w
      | r => r
      end
  end.

Record ed_ok (e : editor) (s : list Z) : Prop := mk_ed_ok {
  eo_size : length (ed_line e) = 256%nat;
  eo_len : ed_len e = Z.of_nat (length s);
  eo_max : ed_len e <= 255;
  eo_text : take (length s) (ed_line e) = s
}.

Lemma shell_key_edit {W} (os : syscalls W) c e s w :
  ed_ok e s -> c <> 10 -> c <> 13 ->
  exists e', shell_key os c e w = (Goes_on, e', writes os (echo_key s c) w) /\ ed_ok e' (edit_key s c) /\ ed_history e' = ed_history e.
Proof.
  intros [Hs Hl Hm Ht] H10 H13. unfold shell_key, echo_key, edit_key. rewrite (proj2 (Z.eqb_neq c 13)), (proj2 (Z.eqb_neq c 10)) by done.
  destruct ((c =? 8) || (c =? 127)).
  - rewrite Hl. destruct s as [|x s _] using rev_ind; [cbn; exists e; by split|].
    rewrite length_app in *. cbn [length] in *. rewrite (proj2 (Z.eqb_neq _ 0)) by lia.
    rewrite bool_decide_eq_false_2 by (by destruct s). rewrite removelast_last.
    eexists. split; [done|]. split; [|done]. split; cbn [ed_line ed_len]; [done|lia|lia|].
    replace (take (length s) (ed_line e)) with (take (length s) (take (length s + 1) (ed_line e))) by (rewrite take_take; f_equal; lia).
    rewrite Ht. apply take_app_length.
  - destruct (c <? 32); [exists e; by split|]. rewrite Hl. destruct (Z.of_nat (length s) + 1 <? LINE_MAX) eqn:E; [|exists e; by split].
    apply Z.ltb_lt in E. unfold LINE_MAX in E. eexists. split; [done|]. split; [|done]. rewrite Nat2Z.id.
    split; cbn [ed_line ed_len]; rewrite ?length_app, ?length_insert; cbn [length]; [done|lia|lia|].
    rewrite Nat.add_1_r, (take_S_r _ _ (if 128 <=? c then ch "?" else c)) by (apply list_lookup_insert_eq; lia).
    rewrite take_insert_ge by lia. by rewrite Ht.
Qed.

Lemma shell_keys_edit {W} (os : syscalls W) ks e s w :
  ed_ok e s -> Forall (fun c => c <> 10 /\ c <> 13) ks ->
  exists e', (forall ks', shell_keys os (ks ++ ks') e w = shell_keys os ks' e' (writes os (echo s ks) w)) /\
    ed_ok e' (fold_left edit_key ks s) /\ ed_history e' = ed_history e.
Proof.
  intros He Hks. revert e s w He. induction Hks as [|c ks [H1 H2] Hks IH]; intros e s w He; [by exists e|].
  destruct (shell_key_edit os c e s w He H1 H2) as (e1 & E1 & He1 & Hh1).
  destruct (IH e1 (edit_key s c) (writes os (echo_key s c) w) He1) as (e2 & E2 & He2 & Hh2).
  exists e2. split; [|split; [done|congruence]]. intros ks'. cbn [app shell_keys fold_left echo]. rewrite E1, E2.
  unfold writes. by rewrite fold_left_app.
Qed.

(** The end of the line: the string before the terminator. *)
Lemma ed_line_end e s : ed_ok e s -> exists rest, <[Z.to_nat (ed_len e) := 0]> (ed_line e) = s ++ 0 :: rest.
Proof.
  intros [Hs Hl Hm Ht]. rewrite Hl, Nat2Z.id. destruct (drop (length s) (ed_line e)) as [|x rest] eqn:Ed.
  { apply (f_equal length) in Ed. rewrite length_drop in Ed. cbn in Ed. lia. }
  exists rest. rewrite <- (take_drop (length s) (ed_line e)) at 1. rewrite Ht, Ed. apply insert_app_at.
Qed.

(** Splitting keeps the size of the array. *)
Lemma split_arg_length buf p : length (fst (fst (split_arg buf p))) = length buf.
Proof. unfold split_arg. cbv zeta. repeat case_test; cbn; by rewrite ?length_insert. Qed.

Lemma split_loop_length fuel buf p argv max : length (fst (split_loop fuel buf p argv max)) = length buf.
Proof.
  revert buf p argv. induction fuel as [|fuel IH]; intros buf p argv; cbn [split_loop]; [done|]. case_test; [done|].
  pose proof (split_arg_length buf p) as Hl. destruct (split_arg buf p) as [[buf1 p1] a]. cbn [fst] in Hl.
  case_test; [done|]. by rewrite IH, length_insert.
Qed.

Lemma trim_end_length fuel buf s e : length (trim_end fuel buf s e) = length buf.
Proof.
  revert buf e. induction fuel as [|fuel IH]; intros buf e; cbn [trim_end]; [done|]. case_test; [|done]. by rewrite IH, length_insert.
Qed.

Lemma split_length line max : length (fst (split line max)) = length line.
Proof. unfold split, trim. cbv zeta. by rewrite split_loop_length, trim_end_length. Qed.

(** ** Programs *)

Definition builtins : list String.string :=
  ["help"; "about"; "lang"; "history"; "ls"; "cat"; "echo"; "stat"; "mem"; "cpu"; "uptime"; "ticks"; "ps"; "mods"; "kcmd"; "sleep";
   "spawn"; "yield"; "preempt"; "run"; "ore"; "mounts"; "theme"; "demo"; "fault"; "clear"; "exit"]%string.
Definition is_builtin (argv : list (list Z)) : bool := existsb (is_cmd argv) builtins.

Lemma dispatch_program {W} (os : syscalls W) h argv w :
  argv <> [] -> is_builtin argv = false ->
  dispatch os h argv w =
    (Goes_on, let '(found, w) := cmd_try_disk_bin os argv w in
     if found then w else
     puts os [10] (puts os (nth 0 argv []) (puts os (C_RED ++ bytes_of "unknown command: " ++ C_RESET) w))).
Proof.
  intros Hne Hb. unfold dispatch. rewrite bool_decide_eq_false_2 by done. cbv zeta.
  unfold is_builtin, builtins in Hb. cbn [existsb] in Hb.
  repeat (apply orb_false_iff in Hb as [-> Hb]). cbn [orb].
  destruct (cmd_try_disk_bin os argv w) as [found w']. by destruct found.
Qed.

(** ** History *)

Definition printed_history {W} (os : syscalls W) (ls : list (list Z)) (from n : Z) (w : W) : W :=
  fold_left (fun w i => printf_line os "%u %s" [AInt i; AStr (take 255 (nth (Z.to_nat i) ls []))] w) (seqZ from n) w.

(** The ring holds the last lines. *)
Record history_ok (h : history_t) (ls : list (list Z)) : Prop := mk_history_ok {
  ho_size : length (history h) = 8%nat;
  ho_count : history_count h = Z.of_nat (length ls);
  ho_lines : forall i, 0 <= i < Z.of_nat (length ls) -> Z.of_nat (length ls) - 8 <= i ->
    nth (Z.to_nat (i mod 8)) (history h) [] = take 255 (nth (Z.to_nat i) ls [])
}.

Lemma remember_ok h ls line :
  history_ok h ls -> line <> [] -> Z.of_nat (length ls) + 1 < 4294967296 -> history_ok (remember line h) (ls ++ [line]).
Proof.
  intros [Hs Hc Hl] Hne Hn. destruct line as [|x line]; [done|]. unfold remember. cbv zeta. rewrite Hc.
  split; cbn [history history_count]; rewrite ?length_app, ?length_insert; cbn [length]; [done|rewrite u32_small by (unfold word32; lia); lia|].
  intros i Hi Hi'. unfold HISTORY_MAX. set (n := Z.of_nat (length ls)) in *.
  rewrite (nth_lookup (<[_:=_]> _)). destruct (Z.eq_dec i n) as [->|Hni].
  - rewrite list_lookup_insert_eq by (rewrite Hs; pose proof (Z.mod_pos_bound n 8); lia). cbn [default].
    rewrite app_nth2 by lia. by replace (Z.to_nat n - length ls)%nat with 0%nat by lia.
  - assert (Z.to_nat (n mod 8) <> Z.to_nat (i mod 8)) as Hd.
    { intros E. apply Hni. assert (n mod 8 = i mod 8) as E' by (pose proof (Z.mod_pos_bound n 8); pose proof (Z.mod_pos_bound i 8); lia).
      clear - E' Hi Hi' n. replace (Z.of_nat (length ls + 1)) with (n + 1) in * by (unfold n; lia). zlia. }
    rewrite list_lookup_insert_ne by done. rewrite <- nth_lookup, Hl by lia. by rewrite app_nth1 by lia.
Qed.

Lemma history_loop_spec {W} (os : syscalls W) h ls n i fuel w :
  history_ok h ls -> Z.of_nat (length ls) < 4294967296 -> 0 <= i -> Z.of_nat (length ls) - 8 <= i ->
  i + Z.of_nat n = Z.of_nat (length ls) -> (n <= fuel)%nat ->
  history_loop os fuel h i w = printed_history os ls i (Z.of_nat n) w.
Proof.
  intros Hh Hlen. revert i fuel w. induction n as [|n IH]; intros i fuel w Hi Hi8 Hn Hf.
  - destruct fuel; cbn [history_loop]; [done|]. rewrite (ho_count _ _ Hh). by rewrite (proj2 (Z.ltb_ge _ _)) by lia.
  - destruct fuel as [|fuel]; [lia|]. cbn [history_loop]. rewrite (ho_count _ _ Hh), (proj2 (Z.ltb_lt _ _)) by lia. cbn [negb]. cbv zeta.
    rewrite (u32_small (i + 1)) by (unfold word32; lia). rewrite IH by lia. unfold printed_history, HISTORY_MAX.
    rewrite (seqZ_cons i (Z.of_nat (S n))) by lia. cbn [fold_left]. rewrite (ho_lines _ _ Hh) by lia.
    by replace (Z.pred (Z.of_nat (S n))) with (Z.of_nat n) by lia.
Qed.

(** ** Properties *)

(** Arguments between quotes, with a blank between them. *)
Definition quoted (args : list (list Z)) : list (list Z * word) := map (fun a => ([32], Quoted a)) args.

(** any arguments without quotation marks and terminators, written between
    quotation marks with blanks between them, are what the in-place splitting of the
    line returns, up to the maximal number; blanks around them do not matter, nor
    does what the array holds after the line. *)
Theorem split_roundtrip args w0 wn rest :
  Forall (fun a => forallb quoted_char a = true) args -> blanks w0 = true -> blanks wn = true ->
  argv_strings (line_text w0 (quoted args) wn ++ 0 :: rest) ARGV_MAX = take 8 args.
Proof.
  intros Ha H0 Hn. rewrite split_words; [|done|done|].
  - unfold quoted. rewrite !map_map. cbn. by rewrite map_id.
  - unfold quoted. destruct Ha as [|a args Ha Hargs]; [done|]. cbn [map words_ok]. apply andb_true_intro. split; [exact Ha|].
    induction Hargs as [|b args Hb Hargs IH]; [done|]. cbn [map forallb]. apply andb_true_intro. split; [|exact IH].
    unfold sep_ok. cbn [fst snd]. cbn. by rewrite Hb.
Qed.

(** C30: when a line is typed whose words are a program's name and its arguments,
    with backspaces, ignored keys and all, the shell echoes it, starts exactly
    [/disk/bin/<name>.oimg] with the arguments joined by blanks, waits for this
    process and reports its exit, or reports an unknown command when the start
    fails; then it prompts with an empty line and the line in its history. *)
Theorem shell_runs_program {W} (os : syscalls W) e ks w0 ws wn w :
  ed_ok e [] -> Forall (fun c => c <> 10 /\ c <> 13) ks ->
  edit ks = line_text w0 ws wn -> blanks w0 = true -> blanks wn = true -> words_ok ws = true -> ws <> [] ->
  let argv := take 8 (map word_value (map snd ws)) in
  is_builtin argv = false ->
  exists e', ed_ok e' [] /\ ed_history e' = remember (edit ks) (ed_history e) /\
  shell_keys os (ks ++ [10]) e w =
    let w := puts os [10] (writes os (echo [] ks) w) in
    let '(pid, w) := sys_spawn_args os (program_path (nth 0 argv [])) (take 159 (join_words (drop 1 argv))) w in
    if pid <? 0 then
      (Goes_on, e', prompt os (puts os [10] (puts os (nth 0 argv []) (puts os (C_RED ++ bytes_of "unknown command: " ++ C_RESET) w))))
    else
      let '(rc, w) := sys_wait os pid w in
      (Goes_on, e', prompt os (printf_line os "run: pid=%u exit=%d" [AInt pid; AInt rc] w)).
Proof.
  intros He Hks Hedit H0 Hn Hws Hne argv Hb. destruct (shell_keys_edit os ks e [] w He Hks) as (e1 & E1 & He1 & Hh1).
  fold (edit ks) in He1. destruct (ed_line_end e1 (edit ks) He1) as (rest & Er).
  assert (length (edit ks ++ 0 :: rest) = 256%nat) as Hlen by (rewrite <- Er, length_insert; apply He1).
  assert (argv_strings (edit ks ++ 0 :: rest) ARGV_MAX = argv) as Ea by (rewrite Hedit; by apply split_words).
  assert (argv <> []) as Hargv by (destruct ws as [|[]]; done).
  assert (c_str (edit ks ++ 0 :: rest) 0 = edit ks) as Ec.
  { apply (c_str_app [] (edit ks)). rewrite Hedit. destruct ws as [|[b w'] ws]; [done|]. cbn [line_text words_ok] in *.
    apply andb_prop in Hws as [Hw Hws]. rewrite !forallb_app, blank_nonzero, word_nonzero, seps_nonzero, blank_nonzero by done. done. }
  exists (mk_editor (fst (split (edit ks ++ 0 :: rest) ARGV_MAX)) 0 (remember (edit ks) (ed_history e))).
  split; [|split; [done|]].
  - split; cbn [ed_line ed_len length]; [|done|lia|done]. by rewrite split_length.
  - rewrite E1. cbn [shell_keys]. unfold shell_key. cbn [Z.eqb Pos.eqb]. rewrite Er, Ec, Hh1. unfold run_command. rewrite Ea.
    rewrite dispatch_program by done. unfold cmd_try_disk_bin. rewrite disk_bin_path_spec, join_args_spec by lia.
    change (Z.to_nat (160 - 1)) with 159%nat.
    destruct (sys_spawn_args os _ _ _) as [pid w1]. destruct (pid <? 0); [done|]. by destruct (sys_wait os pid w1) as [rc w2].
Qed.

(** the history command lists the last eight non-empty lines in the order they
    were entered, numbered from the first line of the session, each cut to the
    length of its slot. *)
Theorem history_lists_last {W} (os : syscalls W) lines w :
  let ls := filter (fun l => l <> []) lines in
  let h := fold_left (fun h l => remember l h) lines (mk_history (replicate 8 []) 0) in
  let n := Z.of_nat (length ls) in
  n < 4294967296 ->
  cmd_history os h w = printed_history os ls (Z.max 0 (n - 8)) (Z.min n 8) w.
Proof.
  intros ls h n Hn.
  assert (history_ok h ls) as Hh.
  { subst h n ls. induction lines as [|l lines IH] using rev_ind.
    - split; cbn; try done. intros; lia.
    - rewrite fold_left_app, filter_app in *. cbn [fold_left]. rewrite length_app in Hn.
      specialize (IH ltac:(lia)). destruct l as [|x l].
      + rewrite filter_cons_False, filter_nil, app_nil_r by auto. exact IH.
      + rewrite filter_cons_True, filter_nil in * by done. apply remember_ok; [exact IH|done|]. cbn in Hn. lia. }
  unfold cmd_history. rewrite (ho_count _ _ Hh). fold n. cbv zeta. unfold HISTORY_MAX.
  rewrite (history_loop_spec os h ls (Z.to_nat (Z.min n 8))); [|done|done|destruct (Z.ltb_spec 8 n); lia..].
  rewrite Z2Nat.id by lia. f_equal. destruct (Z.ltb_spec 8 n); lia.
Qed.

(** ** Numbers *)

Lemma putu_loop_digits base v i acc fuel :
  2 <= base <= 16 -> 0 < v -> v < base ^ i -> 0 <= i <= Z.of_nat fuel ->
  putu_loop fuel v base i (map hex_digit acc) = map hex_digit (digits_from fuel base v acc).
Proof.
  intros Hb. revert v i acc. induction fuel as [|fuel IH]; intros v i acc Hv Hi Hf.
  { assert (i = 0) as -> by lia. change (base ^ 0) with 1 in Hi. lia. }
  cbn [putu_loop digits_from]. rewrite (proj2 (Z.eqb_neq v 0)) by lia.
  destruct (Z.eqb_spec i 0) as [->|Hi0]; [change (base ^ 0) with 1 in Hi; lia|]. cbn [orb].
  change (hex_digit (v mod base) :: map hex_digit acc) with (map hex_digit (v mod base :: acc)).
  destruct (Z.ltb_spec v base).
  - rewrite Z.div_small, Z.mod_small by lia. by destruct fuel.
  - apply IH; [apply Z.div_str_pos; lia| |lia]. apply Z.div_lt_upper_bound; [lia|]. rewrite <- Z.pow_succ_r by lia.
    by replace (Z.succ (i - 1)) with i by lia.
Qed.

(** A 64-bit number fits in the buffer of [putu_base]: what is written are the
    digits of the number. *)
Theorem putu_writes_digits v base : word64 v -> base = 10 \/ base = 16 ->
  exists ds, putu_base v base false = [map hex_digit ds] /\ Forall (fun d => 0 <= d < base) ds /\ digits_from_value base 0 ds = v.
Proof.
  intros Hv Hbase. unfold word64 in Hv. assert (2 <= base <= 16) as Hb by lia.
  assert (v < base ^ 31) as Hp by (destruct Hbase as [->| ->]; cbn; lia).
  unfold putu_base. cbn [andb]. destruct (Z.eqb_spec v 0) as [->|Hz].
  { exists [0]. split; [reflexivity|]. split; [apply Forall_singleton; lia|done]. }
  exists (digits_from 32 base v []). split; [cbn [app]; f_equal; by apply (putu_loop_digits base v 31 []); lia|].
  split; [apply digits_from_range; [lia|lia|constructor]|]. rewrite digits_from_spec; [done|lia| |done].
  split; [lia|]. etrans; [exact Hp|]. apply Z.pow_lt_mono_r; lia.
Qed.

(** ** Examples *)

(** A system that keeps what it is asked to do; processes get the number 7 and exit
    with 3. *)
Definition log_os : syscalls (list (list Z)) := {|
  sys_write := fun s w => w ++ [s];
  sys_spawn_args := fun p a w => (7, w ++ [bytes_of "spawn"; p; a]);
  sys_spawn := fun p w => (7, w ++ [bytes_of "spawn"; p]);
  sys_wait := fun pid w => (3, w ++ [bytes_of "wait"; [pid]]);
  sys_yield := fun w => w;
  sys_sleep := fun _ w => w;
  sys_info := fun w => (None, w);
  sys_proc_info := fun _ w => (None, w);
  sys_mod_info := fun _ w => (None, w);
  sys_kcmd := fun _ _ w => (-2, [], w) |}.

Definition demo_editor : editor := mk_editor (replicate 256 33) 0 (mk_history (replicate 8 []) 0).

(** The line is typed with a correction: ["hx"], backspace, ["i  a "] and ["b c"]
    between quotation marks. *)
Definition demo_keys : list Z := bytes_of "hx" ++ [8] ++ bytes_of "i  a " ++ [34] ++ bytes_of "b c" ++ [34; 32].
Definition demo_words : list (list Z * word) :=
  [([], Plain (bytes_of "hi")); ([32; 32], Plain (bytes_of "a")); ([32], Quoted (bytes_of "b c"))].

Lemma shell_runs_program_witness :
  exists e' w', shell_keys log_os (demo_keys ++ [10]) demo_editor [] = (Goes_on, e', w') /\
  drop (length (echo [] demo_keys) + 1) (take (length (echo [] demo_keys) + 6) w') =
    [bytes_of "spawn"; bytes_of "/disk/bin/hi.oimg"; bytes_of "a b c"; bytes_of "wait"; [7]] /\
  ed_history e' = remember (bytes_of "hi  a " ++ [34] ++ bytes_of "b c" ++ [34; 32]) (ed_history demo_editor).
Proof.
  destruct (shell_runs_program log_os demo_editor demo_keys [] demo_words [32] []) as (e' & _ & Hh & E).
  - split; [reflexivity|reflexivity|cbn; lia|reflexivity].
  - apply Forall_forall. intros c Hc. assert (forallb (fun c => negb (c =? 10) && negb (c =? 13)) demo_keys = true) as H by reflexivity.
    rewrite forallb_forall in H. apply list_elem_of_In in Hc. specialize (H c Hc).
    apply andb_prop in H as [H1%negb_true_iff%Z.eqb_neq H2%negb_true_iff%Z.eqb_neq]. split; [exact H1|exact H2].
  - reflexivity.
  - reflexivity.
  - reflexivity.
  - reflexivity.
  - discriminate.
  - reflexivity.
  - exists e'. eexists. split; [exact E|]. split; [vm_compute; reflexivity|exact Hh].
Defined.

Lemma split_roundtrip_witness :
  argv_strings (line_text [32] (quoted [bytes_of "a b"; []; bytes_of "c"]) [9; 32] ++ 0 :: [1; 2]) ARGV_MAX = [bytes_of "a b"; []; bytes_of "c"].
Proof. apply (split_roundtrip [bytes_of "a b"; []; bytes_of "c"] [32] [9; 32] [1; 2]); [repeat constructor|reflexivity|reflexivity]. Defined.

Lemma history_lists_last_witness :
  cmd_history log_os (fold_left (fun h l => remember l h) (map (fun c => [c]) (bytes_of "abcdefghij")) (mk_history (replicate 8 []) 0)) [] =
  printed_history log_os (map (fun c => [c]) (bytes_of "abcdefghij")) 2 8 [].
Proof. apply (history_lists_last log_os (map (fun c => [c]) (bytes_of "abcdefghij")) []). reflexivity. Defined.

(** The character after a closing quotation mark is lost: the line ["a"b c], with a
    quoted first word, has the arguments [a] and [c]. *)
Lemma char_after_quote_lost :
  argv_strings ([34] ++ bytes_of "a" ++ [34] ++ bytes_of "b c" ++ [0]) ARGV_MAX = [bytes_of "a"; bytes_of "c"].
Proof. vm_compute. reflexivity. Qed.
