(* ===== verification/Dispatch.v ===== *)
(** The system call dispatcher (kernel/syscall.c, [syscall_dispatch]).

    [system] is the state of the whole kernel: that of [Syscall], the console and
    the keyboard, the modules, the network card, the serial line and the clock.  The
    calls that other files model are taken from there; the rest, which tie the
    components together, are here.

    What the hardware provides during a call is a record of inputs: the results of
    polling the keyboard, the readings of the clock, the old bytes of the kernel
    stack.  A call that has not found what it waits for when they run out is
    [Waits]. *)
From stdpp Require Import base numbers list gmap strings.
From Stdlib Require Import ZArith Lia.
From S2P Require Import Prelude Memory PageAllocator BootInfo Pmm Heap Vmm Process Usermem Elf Loader.
From S2P Require Import Cstring Ports Block Initramfs Vfs UserAlloc Control Syscall Abi.
From S2P Require Import Serial Net Okmod Terrain Console Terminal Keyboard.

Record inputs := mk_inputs {
  in_polls : list (Z * option Z);
  in_ticks : list Z;
  in_stack : list Z;
  in_exec_info : UserElfInfo;
  in_render_ticks : Z
}.

(** How a call ends: with the value of the register, in the halt loop of
    [ORE_SYS_EXIT] (interrupts are masked there: nothing runs after it, and the
    state that goes with it is that of the entry), or not yet. *)
Inductive sys_result := Returns (rax : Z) | Halts | Waits.

Section Dispatch.
Context {D : Type} `{Ports D}.
#[local] Abbreviation kern := (kernel (S:=pmm_state) (D:=D)).
Context (run_command : Z -> Z -> Z -> kern -> Z * kern).

Record system := mk_system {
  sy_kernel : kern;
  sy_console : console;
  sy_keyboard : keyboard;
  sy_okmod : okmod_state;
  sy_net : net_state;
  sy_serial : list Z;
  sy_ticks : Z;
  sy_cpu_count : Z
}.

Definition with_kernel (k : kern) (sy : system) : system :=
  mk_system k (sy_console sy) (sy_keyboard sy) (sy_okmod sy) (sy_net sy) (sy_serial sy) (sy_ticks sy) (sy_cpu_count sy).
Definition with_output (c : console) (out : list Z) (sy : system) : system :=
  mk_system (sy_kernel sy) c (sy_keyboard sy) (sy_okmod sy) (sy_net sy) out (sy_ticks sy) (sy_cpu_count sy).
Definition with_keyboard (kb : keyboard) (sy : system) : system :=
  mk_system (sy_kernel sy) (sy_console sy) kb (sy_okmod sy) (sy_net sy) (sy_serial sy) (sy_ticks sy) (sy_cpu_count sy).
Definition with_ticks (t : Z) (sy : system) : system :=
  mk_system (sy_kernel sy) (sy_console sy) (sy_keyboard sy) (sy_okmod sy) (sy_net sy) (sy_serial sy) t (sy_cpu_count sy).

(** ** Terminal *)

(** The serial line is what it has sent for programs and for unknown calls, without the
    kernel's messages about processes; [Serial] has the driver. *)
Definition write_bytes (bs : list Z) (sy : system) : system :=
  fold_left (fun sy c => with_output (console_putc c (sy_console sy)) (serial_sent c (sy_serial sy)) sy) bs sy.

(** [ORE_SYS_WRITE]; the bytes are read as they are written. *)
Definition sys_write (a1 a2 a3 : Z) (sy : system) : Z * system :=
  let k := sy_kernel sy in
  if (negb (a1 =? 1) && negb (a1 =? 2)) || negb (user_range_ok (k_root k) a2 a3 (k_machine k)) then (- ORE_EFAULT, sy) else
  (a3, write_bytes (read_loop (Z.to_nat a3) (k_root k) a2 (k_machine k)) sy).

(** Polls until there is a key. *)
Fixpoint read_key_loop (polls : list (Z * option Z)) (kb : keyboard) : option Z * keyboard :=
  match polls with
  | [] => (None, kb)
  | (serial, ps2) :: polls =>
      let '(key, kb) := console_read_key serial ps2 kb in
      if key <? 0 then read_key_loop polls kb else (Some key, kb)
  end.

(** [ORE_SYS_READ]; no key among the polls is no result yet. *)
Definition sys_read (polls : list (Z * option Z)) (a1 a2 a3 : Z) (sy : system) : option Z * system :=
  let k := sy_kernel sy in
  if negb (a1 =? 0) then (Some (- ORE_EBADF), sy) else
  if negb (user_range_ok (k_root k) a2 a3 (k_machine k)) then (Some (- ORE_EFAULT), sy) else
  if a3 =? 0 then (Some 0, sy) else
  let '(key, kb) := read_key_loop polls (sy_keyboard sy) in
  let sy := with_keyboard kb sy in
  match key with
  | None => (None, sy)
  | Some key => (Some 1, with_kernel (with_machine (write_loop (k_root k) a2 [u8 key] (k_machine k)) k) sy)
  end.

(** ** Structures for the program *)

Definition put_struct (dst : Z) (bs : list Z) (sy : system) : Z * system :=
  let '(err, k) := put_user dst bs (sy_kernel sy) in (if err <? 0 then err else 0, with_kernel k sy).

(** [ORE_SYS_INFO]. *)
Definition sys_info_bytes (sy : system) : list Z :=
  let s := m_pages (k_machine (sy_kernel sy)) in
  le_bytes 8 (pmm_total_pages s) ++ le_bytes 8 (pmm_free_pages_count s) ++ le_bytes 8 (pmm_used_pages s) ++
  le_bytes 8 (pmm_reserved_pages s) ++ le_bytes 8 (sy_ticks sy) ++ le_bytes 4 (sy_cpu_count sy) ++
  le_bytes 4 (sys_getpid (k_control (sy_kernel sy))).
Definition sys_info (a1 : Z) (sy : system) : Z * system := put_struct a1 (sys_info_bytes sy) sy.

(** A string in a zeroed [char[n]]. *)
Definition padded (n : nat) (s : list Z) : list Z := take n (s ++ replicate n 0).

(** [ORE_SYS_MOD_INFO]. *)
Definition module_info_bytes (i : OreModuleInfo) : list Z :=
  padded 32 (mi_name i) ++ padded 128 (mi_path i) ++ le_bytes 4 (mi_state i) ++ le_bytes 4 (mi_abi_version i) ++
  le_bytes 4 (mi_init_rc i) ++ le_bytes 4 0 ++ le_bytes 8 (mi_text_base i) ++ le_bytes 8 (mi_text_size i) ++
  le_bytes 8 (mi_data_size i) ++ le_bytes 4 (if mi_has_command i then 1 else 0) ++ le_bytes 4 0.
Definition sys_mod_info (a1 a2 : Z) (sy : system) : Z * system :=
  match okmod_info (u32 a1) (sy_okmod sy) with
  | None => (- ORE_ENOENT, sy)
  | Some i => put_struct a2 (module_info_bytes i) sy
  end.

(** [ORE_SYS_GFX_INFO]. *)
Definition gfx_info_bytes (i : OreGfxInfo) : list Z :=
  le_bytes 4 (gi_width i) ++ le_bytes 4 (gi_height i) ++ le_bytes 4 (gi_logical_width i) ++ le_bytes 4 (gi_logical_height i) ++
  le_bytes 4 (gi_format i) ++ le_bytes 4 (gi_pitch i) ++ le_bytes 4 (gi_palette_count i) ++ le_bytes 4 (gi_reserved i).
Definition sys_gfx_info (a1 : Z) (sy : system) : Z * system :=
  match console_gfx_info (sy_console sy) with
  | inl rc => (rc, sy)
  | inr i => put_struct a1 (gfx_info_bytes i) sy
  end.

(** [ORE_SYS_GFX_PRESENT]: the picture is read from the program. *)
Definition sys_gfx_present (a1 a2 a3 a4 : Z) (sy : system) : Z * system :=
  let k := sy_kernel sy in
  let width := u32 a3 in
  let height := u32 a4 in
  if negb (width =? ORE_GFX_LOGICAL_WIDTH) || negb (height =? ORE_GFX_LOGICAL_HEIGHT) then (- ORE_EINVAL, sy) else
  if negb (a2 =? width *u height) then (- ORE_EINVAL, sy) else
  if negb (user_range_ok (k_root k) a1 a2 (k_machine k)) then (- ORE_EFAULT, sy) else
  let '(rc, c) := console_gfx_present_indexed16 (Some (fun i => uload (k_root k) (a1 + i) (k_machine k))) width height
                    (sy_console sy) in
  (rc, with_output c (sy_serial sy) sy).

(** [ORE_SYS_INPUT_STATE]: one poll. *)
Definition input_state_bytes (i : OreInputState) : list Z :=
  le_bytes 4 (is_keys i) ++ le_bytes 4 (is_ascii i) ++ le_bytes 4 (is_mouse_x i) ++ le_bytes 4 (is_mouse_y i) ++
  le_bytes 4 (is_buttons i) ++ le_bytes 4 (is_frame i).
Definition sys_input_state (poll : Z * option Z) (a1 : Z) (sy : system) : Z * system :=
  let '(st, kb) := input_state_poll (fst poll) (snd poll) (sy_keyboard sy) in
  put_struct a1 (input_state_bytes st) (with_keyboard kb sy).

(** [ORE_SYS_SLEEP]: the clock is read once, then until the time is over. *)
Fixpoint sleep_loop (ticks : list Z) (start a1 : Z) : option Z :=
  match ticks with
  | [] => None
  | t :: ticks => if t -u start <? a1 then sleep_loop ticks start a1 else Some t
  end.
Definition sys_sleep (ticks : list Z) (a1 : Z) (sy : system) : option Z * system :=
  match sleep_loop ticks (sy_ticks sy) a1 with
  | None => (None, sy)
  | Some t => (Some 0, with_ticks t sy)
  end.

(** ** Network *)

Definition net_info_bytes (i : OreNetInfo) (stack : list Z) : list Z :=
  le_bytes 4 (ni_ready i) ++ le_bytes 4 (ni_mtu i) ++ ni_mac i ++ slice stack 14 2 ++ le_bytes 4 (ni_ip i) ++
  le_bytes 4 (ni_gateway i) ++ le_bytes 4 (ni_dns i).
Definition sys_net_info (a1 : Z) (stack : list Z) (sy : system) : Z * system :=
  put_struct a1 (net_info_bytes (net_info (sy_net sy)) stack) sy.

Definition sys_net_recv (a1 a2 : Z) (sy : system) : Z * system :=
  let k := sy_kernel sy in
  if (ORE_NET_MAX_FRAME <? a2) || negb (user_range_ok (k_root k) a1 a2 (k_machine k)) then (- ORE_EFAULT, sy) else
  let '(n, frame, d) := net_recv_frame (sy_net sy) a2 (k_dev k) in
  let sy := with_kernel (with_dev d k) sy in
  if n <=? 0 then (n, sy) else
  let '(err, k) := put_user a1 frame (sy_kernel sy) in
  (if err <? 0 then err else n, with_kernel k sy).

Definition sys_net_send (a1 a2 : Z) (sy : system) : Z * system :=
  let k := sy_kernel sy in
  if (ORE_NET_MAX_FRAME <? a2) || negb (user_range_ok (k_root k) a1 a2 (k_machine k)) then (- ORE_EFAULT, sy) else
  let '(err, frame) := copy_from_user (k_root k) a1 a2 (k_machine k) in
  if err <? 0 then (err, sy) else
  let '(n, d) := net_send_frame (sy_net sy) frame (k_dev k) in
  (n, with_kernel (with_dev d k) sy).

(** ** Calls with a buffer in the kernel *)

(** [ORE_SYS_KCMD]. *)
Definition sys_kcmd (fuel : nat) (a1 a2 a3 : Z) (sy : system) : eff (Z * system) :=
  let k := sy_kernel sy in
  match user_path a1 31 k with
  | inl err => ret (err, sy)
  | inr name =>
      if negb (a3 =? 0) && negb (user_range_ok (k_root k) a2 a3 (k_machine k)) then ret (- ORE_EFAULT, sy) else
      if 4096 <? a3 then ret (- ORE_EINVAL, sy) else
      let! (out, k) := (if a3 =? 0 then ret (0, k) else kalloc fuel a3 k) in
      if negb (a3 =? 0) && (out =? 0) then ret (- ORE_ENOMEM, with_kernel k sy) else
      let '(rc, k) := okmod_run_command run_command name out a3 (sy_okmod sy) k in
      let '(err, k) :=
        if (0 <=? rc) && negb (out =? 0) && negb (a3 =? 0) then
          let k := fill_buffer (out + a3 - 1) [0] k in
          put_user a2 (load_bytes (m_mem (k_machine k)) out a3) k
        else (0, k) in
      let! k := (if out =? 0 then ret k else krelease fuel out k) in
      ret ((if err <? 0 then err else if rc <? 0 then - ORE_ENOENT else u32 rc), with_kernel k sy)
  end.

(** [OreTerrainJob] from its bytes. *)
Definition terrain_job (bs : list Z) : OreTerrainJob :=
  let m := store_bytes ∅ 0 bs in
  mk_job (load64 m 0) (load64 m 8) (s32 (load32 m 16)) (s32 (load32 m 20)) (s32 (load32 m 24)) (s32 (load32 m 28))
    (s32 (load32 m 32)) (s32 (load32 m 36)) (load32 m 40) (load32 m 44).
Definition terrain_result_bytes (r : OreTerrainResult) (render_ticks : Z) : list Z :=
  le_bytes 4 (res_workers_used r) ++ le_bytes 4 (res_objects_rendered r) ++ le_bytes 4 (res_collision_flags r) ++
  le_bytes 4 (res_reserved r) ++ le_bytes 8 (res_checksum r) ++ le_bytes 8 render_ticks.

(** The picture in the buffer of the kernel. *)
Definition buffer_of (bs : list Z) : buffer := list_to_map (zip (seqZ 0 (Z.of_nat (length bs))) bs).
Definition buffer_bytes (len : Z) (b : buffer) : list Z := map (fun i => default 0 (b !! i)) (seqZ 0 len).

(** [ORE_SYS_TERRAIN_RENDER]. *)
Definition sys_terrain_render (fuel : nat) (render_ticks a1 a2 a3 a4 : Z) (sy : system) : eff (Z * system) :=
  let k := sy_kernel sy in
  let '(err, bs) := copy_from_user (k_root k) a1 48 (k_machine k) in
  if err <? 0 then ret (err, sy) else
  if negb (a3 =? ORE_GFX_LOGICAL_WIDTH * ORE_GFX_LOGICAL_HEIGHT) then ret (- ORE_EINVAL, sy) else
  if negb (user_range_ok (k_root k) a2 a3 (k_machine k)) || negb (user_range_ok (k_root k) a4 32 (k_machine k))
  then ret (- ORE_EFAULT, sy) else
  let! (tmp, k) := kalloc fuel a3 k in
  if tmp =? 0 then ret (- ORE_ENOMEM, with_kernel k sy) else
  let '(rc, b, result) := terrain_render_user (sy_cpu_count sy) (terrain_job bs)
                            (buffer_of (load_bytes (m_mem (k_machine k)) tmp a3)) a3 in
  let k := fill_buffer tmp (buffer_bytes a3 b) k in
  let '(err, k) :=
    match result with
    | Some r =>
        let '(err, k) := put_user a2 (load_bytes (m_mem (k_machine k)) tmp a3) k in
        if err <? 0 then (err, k) else put_user a4 (terrain_result_bytes r render_ticks) k
    | None => (0, k)
    end in
  let! k := krelease fuel tmp k in
  ret ((if rc <? 0 then rc else if err <? 0 then err else 0), with_kernel k sy).

(** ** The dispatcher *)

Definition returns (r : Z * system) : eff (sys_result * system) := ret (Returns (u64 (fst r)), snd r).
Definition returns_k (r : Z * kern) (sy : system) : eff (sys_result * system) := returns (fst r, with_kernel (snd r) sy).
Definition returns_c (r : Z * control) (sy : system) : eff (sys_result * system) :=
  returns_k (fst r, with_control (snd r) (sy_kernel sy)) sy.
Definition waits (r : option Z * system) : eff (sys_result * system) :=
  match fst r with Some v => returns (v, snd r) | None => ret (Waits, snd r) end.
Definition lift_pages (r : outcome (Z * proc_table * machine pmm_state)) (sy : system) : eff (sys_result * system) :=
  let! (v, pt, st) := Some r in returns_k (v, with_table pt (with_machine st (sy_kernel sy))) sy.

(** The program enters at [rip], [rsp]. *)
(** [kprintf("user: invalid syscall 0x%lx\n", number)]. *)
Definition invalid_message (number : Z) : list piece :=
  [PText (bytes_of "user: invalid syscall 0x"%string); PLongHex number; PText [10]].
Definition invalid_syscall (number : Z) (sy : system) : system :=
  with_output (sy_console sy) (sy_serial sy ++ wire (invalid_message number)) sy.

Definition syscall_dispatch (fuel : nat) (inp : inputs) (rip rsp number a1 a2 a3 a4 : Z) (sy : system)
  : eff (sys_result * system) :=
  let sy := with_kernel (with_control (syscall_entry rip rsp (k_control (sy_kernel sy))) (sy_kernel sy)) sy in
  let k := sy_kernel sy in
  let stack := in_stack inp in
  if number =? ORE_SYS_WRITE then returns (sys_write a1 a2 a3 sy)
  else if number =? ORE_SYS_READ then waits (sys_read (in_polls inp) a1 a2 a3 sy)
  else if number =? ORE_SYS_EXIT then
    match sys_exit a1 (k_control k) with Some r => returns_c r sy | None => ret (Halts, sy) end
  else if number =? ORE_SYS_YIELD then returns_c (sys_yield (k_control k)) sy
  else if number =? ORE_SYS_OPEN then returns_k (sys_open a1 k) sy
  else if number =? ORE_SYS_READDIR then returns_k (sys_readdir a1 a2 a3 stack k) sy
  else if number =? ORE_SYS_STAT then returns_k (sys_stat a1 a2 stack k) sy
  else if number =? ORE_SYS_CLOSE then returns_k (sys_close a1 k) sy
  else if number =? ORE_SYS_FILE_READ then let! r := sys_file_read fuel a1 a2 a3 k in returns_k r sy
  else if number =? ORE_SYS_INFO then returns (sys_info a1 sy)
  else if number =? ORE_SYS_SPAWN then let! r := sys_spawn fuel a1 a2 (in_exec_info inp) k in returns_k r sy
  else if number =? ORE_SYS_WAIT then returns_c (sys_wait a1 (k_control k)) sy
  else if number =? ORE_SYS_GETPID then returns (sys_getpid (k_control k), sy)
  else if number =? ORE_SYS_SLEEP then waits (sys_sleep (in_ticks inp) a1 sy)
  else if number =? ORE_SYS_ARGS then returns_k (sys_args a1 a2 k) sy
  else if number =? ORE_SYS_EXEC_IMAGE then let! r := sys_exec_image fuel a1 a2 a3 k in returns_k r sy
  else if number =? ORE_SYS_PROC_INFO then returns_k (sys_proc_info a1 a2 stack k) sy
  else if number =? ORE_SYS_MOD_INFO then returns (sys_mod_info a1 a2 sy)
  else if number =? ORE_SYS_KCMD then let! r := sys_kcmd fuel a1 a2 a3 sy in returns r
  else if number =? ORE_SYS_GFX_INFO then returns (sys_gfx_info a1 sy)
  else if number =? ORE_SYS_GFX_PRESENT then returns (sys_gfx_present a1 a2 a3 a4 sy)
  else if number =? ORE_SYS_INPUT_STATE then returns (sys_input_state (default (-1, None) (head (in_polls inp))) a1 sy)
  else if number =? ORE_SYS_USER_ALLOC_PAGES then lift_pages (user_alloc_pages_sys a1 (k_procs k) (k_machine k)) sy
  else if number =? ORE_SYS_USER_FREE_PAGES then lift_pages (user_free_pages_sys a1 a2 (k_procs k) (k_machine k)) sy
  else if number =? ORE_SYS_TERRAIN_RENDER then
    let! r := sys_terrain_render fuel (in_render_ticks inp) a1 a2 a3 a4 sy in returns r
  else if number =? ORE_SYS_NET_INFO then returns (sys_net_info a1 stack sy)
  else if number =? ORE_SYS_NET_RECV then returns (sys_net_recv a1 a2 sy)
  else if number =? ORE_SYS_NET_SEND then returns (sys_net_send a1 a2 sy)
  else returns (- ORE_ENOSYS, invalid_syscall number sy).
End Dispatch.

(** ** Confinement *)

Section Confined.
Context {S : Type} `{PageAllocatorOk S}.
Implicit Types (st : machine S) (R : Z -> Prop).

(** The memory changes at most where the program has mapped pages; the page tables
    of all address spaces and the page allocator stay as they are. *)
Record confined R (root : Z) st st' : Prop := mk_confined {
  cf_space : space_ok R root st';
  cf_pages : m_pages st' = m_pages st;
  cf_virt : forall w, virt_to_phys root w st' = virt_to_phys root w st;
  cf_pte : forall r w, R r -> pte (m_mem st') r w = pte (m_mem st) r w;
  cf_frame : forall x, (forall v, readable root v st -> virt_to_phys root v st <> x) ->
    load8 (m_mem st') x = load8 (m_mem st) x
}.

Lemma confined_refl R root st : space_ok R root st -> confined R root st st.
Proof. by split. Qed.

Lemma confined_trans R root st1 st2 st3 : confined R root st1 st2 -> confined R root st2 st3 -> confined R root st1 st3.
Proof.
  intros [H1 P1 V1 T1 F1] [H2 P2 V2 T2 F2]. split; [done|congruence|intros; by rewrite V2|intros; by rewrite T2, T1|].
  intros x Hx. rewrite F2, F1; [done|done|]. intros v [Hv Hm]. rewrite V1. apply Hx. split; [done|].
  unfold mapped in *. by rewrite <- V1.
Qed.

Lemma ustore_confined R root st va v : space_ok R root st -> readable root va st -> confined R root st (ustore root va v st).
Proof.
  intros Hs [Hv Hm]. pose proof (ustore_writes R root st va v Hs Hv Hm) as [U1 U2 U3 _ U5]. split; try done.
  intros x Hx. unfold ustore. cbn. rewrite load8_store8. rewrite (proj2 (Z.eqb_neq _ _)); [done|].
  intros E. apply (Hx va); [by split|]. done.
Qed.

Lemma write_loop_confined R root bs dst st :
  space_ok R root st -> (forall a, dst <= a < dst + Z.of_nat (length bs) -> readable root a st) ->
  confined R root st (write_loop root dst bs st).
Proof.
  revert dst st. induction bs as [|b bs IH]; intros dst st Hs Hr; cbn [write_loop length] in *; [by apply confined_refl|].
  pose proof (ustore_confined R root st dst b Hs (Hr dst ltac:(lia))) as C. eapply confined_trans; [exact C|].
  apply IH; [apply C|]. intros a Ha. destruct (Hr a ltac:(lia)) as [Hv Hm]. split; [done|]. unfold mapped. by rewrite (cf_virt _ _ _ _ C).
Qed.

Lemma range_readable R root ptr len st :
  space_ok R root st -> 0 <= len -> user_range_ok root ptr len st = true -> forall a, ptr <= a < ptr + len -> readable root a st.
Proof.
  intros Hs Hl E a Ha. apply (user_range_ok_spec R) in E as (E1 & E2 & E3); [|done|done].
  unfold user_va in E1. split; [unfold user_va; lia|by apply E3].
Qed.

Lemma copy_to_user_confined R root dst bs st : space_ok R root st -> confined R root st (snd (copy_to_user root dst bs st)).
Proof.
  intros Hs. unfold copy_to_user. cbv zeta. destruct (_ =? 0); [by apply confined_refl|].
  destruct (user_range_ok root dst _ st) eqn:E; cbn [negb snd]; [|by apply confined_refl].
  apply write_loop_confined; [done|]. by apply (range_readable R root dst (Z.of_nat (length bs)) st Hs ltac:(lia)).
Qed.
End Confined.

Section Queries.
Context {D : Type} `{Ports D}.
#[local] Abbreviation kern := (kernel (S:=pmm_state) (D:=D)).
Context (run_command : Z -> Z -> Z -> kern -> Z * kern).
Context (R : Z -> Prop).
Implicit Types (sy : system (D:=D)) (k : kern).

(** A call that does not change the kernel: of its state only the device and the
    memory of the calling program are different. *)
Definition query (k k' : kern) : Prop :=
  exists st d, k' = with_dev d (with_machine st k) /\ confined R (k_root k) (k_machine k) st.

Definition kernel_ok (k : kern) : Prop := space_ok R (k_root k) (k_machine k).

Lemma with_machine_same (k : kern) : with_dev (k_dev k) (with_machine (k_machine k) k) = k.
Proof. by destruct k. Qed.

Lemma query_refl k : kernel_ok k -> query k k.
Proof. intros Hk. exists (k_machine k), (k_dev k). split; [by rewrite with_machine_same|by apply confined_refl]. Qed.

Lemma query_trans k1 k2 k3 : query k1 k2 -> query k2 k3 -> query k1 k3.
Proof.
  intros (st1 & d1 & -> & C1) (st2 & d2 & -> & C2). exists st2, d2. split; [done|]. eapply confined_trans; [exact C1|]. exact C2.
Qed.

Lemma query_machine k st : confined R (k_root k) (k_machine k) st -> query k (with_machine st k).
Proof. intros C. exists st, (k_dev k). split; [by destruct k|done]. Qed.

Lemma query_dev k d : kernel_ok k -> query k (with_dev d k).
Proof. intros Hk. exists (k_machine k), d. split; [by destruct k|by apply confined_refl]. Qed.

Lemma query_ok k k' : query k k' -> kernel_ok k'.
Proof. intros (st & d & -> & C). apply C. Qed.

Lemma put_user_query dst bs k : kernel_ok k -> query k (snd (put_user dst bs k)).
Proof.
  intros Hk. unfold put_user. pose proof (copy_to_user_confined R (k_root k) dst bs (k_machine k) Hk) as C.
  destruct (copy_to_user (k_root k) dst bs (k_machine k)) as [err st]. by apply query_machine.
Qed.

(** The calls of the other files. *)
Lemma sys_stat_query a1 a2 stack k : kernel_ok k -> query k (snd (sys_stat a1 a2 stack k)).
Proof.
  intros Hk. unfold sys_stat. destruct (user_path a1 127 k) as [|path]; [by apply query_refl|].
  destruct (vfs_stat _ _ _) as [r st]. destruct (r <? 0); [by apply query_refl|].
  pose proof (put_user_query a2 (stat_bytes st stack) k Hk) as Q. by destruct (put_user a2 _ k) as [err k'].
Qed.

Lemma sys_readdir_query a1 a2 a3 stack k : kernel_ok k -> query k (snd (sys_readdir a1 a2 a3 stack k)).
Proof.
  intros Hk. unfold sys_readdir. cbv zeta.
  assert (forall path, query k (snd (let '(r, st) := vfs_readdir_path (k_vfs k) (k_initramfs k) path (u32 a1) in
    if r <? 0 then (- ORE_ENOENT, k) else
    let '(err, k) := put_user a2 (stat_bytes st stack) k in (if err <? 0 then err else 0, k)))) as Hl.
  { intros path. destruct (vfs_readdir_path _ _ _ _) as [r st]. destruct (r <? 0); [by apply query_refl|].
    pose proof (put_user_query a2 (stat_bytes st stack) k Hk) as Q. by destruct (put_user a2 _ k) as [err k']. }
  destruct (a3 =? 0); [apply Hl|]. destruct (user_path a3 127 k); [by apply query_refl|apply Hl].
Qed.

Lemma sys_proc_info_query a1 a2 stack k : kernel_ok k -> query k (snd (sys_proc_info a1 a2 stack k)).
Proof.
  intros Hk. unfold sys_proc_info. destruct (process_table_at _ _) as [i|]; [|by apply query_refl].
  pose proof (put_user_query a2 (process_info_bytes (proc (k_procs k) i) stack) k Hk) as Q. by destruct (put_user a2 _ k) as [err k'].
Qed.

Lemma write_query k dst bs n :
  kernel_ok k -> Z.of_nat (length bs) <= n -> user_range_ok (k_root k) dst n (k_machine k) = true ->
  query k (with_machine (write_loop (k_root k) dst bs (k_machine k)) k).
Proof.
  intros Hk Hn E. apply query_machine, write_loop_confined; [done|]. intros a Ha.
  apply (range_readable R (k_root k) dst n (k_machine k) Hk ltac:(lia) E). lia.
Qed.

Lemma sys_args_query a1 a2 k : kernel_ok k -> 0 <= a2 -> query k (snd (sys_args a1 a2 k)).
Proof.
  intros Hk Ha. unfold sys_args. destruct (user_range_ok _ a1 a2 _) eqn:E; cbn [negb]; [|by apply query_refl].
  destruct (Z.eqb_spec a2 0); [by apply query_refl|]. cbv zeta. cbn [snd]. eapply write_query; [done| |exact E].
  rewrite length_app, length_take. cbn. lia.
Qed.

(** What a call with a number leaves alone beside the kernel: the modules, the state of
    the network and the number of processors; the line but for ORE_SYS_WRITE and unknown
    numbers; the screen but for ORE_SYS_WRITE and ORE_SYS_GFX_PRESENT; the keyboard but
    for ORE_SYS_READ and ORE_SYS_INPUT_STATE; the clock but for ORE_SYS_SLEEP. *)
Definition known_call (number : Z) : bool := (1 <=? number) && (number <=? 28).
Definition is_call (number : Z) (calls : list Z) : bool := existsb (Z.eqb number) calls.
Record rest_same (number : Z) (sy sy' : system (D:=D)) : Prop := mk_rest {
  rs_okmod : sy_okmod sy' = sy_okmod sy;
  rs_net : sy_net sy' = sy_net sy;
  rs_cpus : sy_cpu_count sy' = sy_cpu_count sy;
  rs_serial : is_call number [ORE_SYS_WRITE] = false -> known_call number = true -> sy_serial sy' = sy_serial sy;
  rs_console : is_call number [ORE_SYS_WRITE; ORE_SYS_GFX_PRESENT] = false -> sy_console sy' = sy_console sy;
  rs_keyboard : is_call number [ORE_SYS_READ; ORE_SYS_INPUT_STATE] = false -> sy_keyboard sy' = sy_keyboard sy;
  rs_ticks : is_call number [ORE_SYS_SLEEP] = false -> sy_ticks sy' = sy_ticks sy
}.

Lemma rest_kernel number k sy : rest_same number sy (with_kernel k sy).
Proof. by split. Qed.

Lemma put_struct_rest number dst bs sy : rest_same number sy (snd (put_struct dst bs sy)).
Proof. unfold put_struct. destruct (put_user dst bs (sy_kernel sy)) as [err k]. apply rest_kernel. Qed.

Lemma sys_write_rest a1 a2 a3 sy : rest_same ORE_SYS_WRITE sy (snd (sys_write a1 a2 a3 sy)).
Proof.
  unfold sys_write. cbv zeta. case_test; [by split|]. cbn [snd]. generalize (read_loop (Z.to_nat a3) (k_root (sy_kernel sy)) a2 (k_machine (sy_kernel sy))).
  intros bs. clear E. revert sy. induction bs as [|b bs IH]; intros sy; [by split|].
  destruct (IH (with_output (console_putc b (sy_console sy)) (serial_sent b (sy_serial sy)) sy)). by split.
Qed.

Lemma sys_read_rest polls a1 a2 a3 sy : rest_same ORE_SYS_READ sy (snd (sys_read polls a1 a2 a3 sy)).
Proof.
  unfold sys_read. cbv zeta. do 3 (case_test; [by split|]). by destruct (read_key_loop polls _) as [[key|] kb].
Qed.

Lemma sys_gfx_present_rest a1 a2 a3 a4 sy : rest_same ORE_SYS_GFX_PRESENT sy (snd (sys_gfx_present a1 a2 a3 a4 sy)).
Proof.
  unfold sys_gfx_present. cbv zeta. do 3 (case_test; [by split|]). by destruct (console_gfx_present_indexed16 _ _ _ _) as [rc c].
Qed.

Lemma sys_input_state_rest poll a1 sy : rest_same ORE_SYS_INPUT_STATE sy (snd (sys_input_state poll a1 sy)).
Proof.
  unfold sys_input_state. destruct (input_state_poll _ _ _) as [st kb]. destruct (put_struct_rest ORE_SYS_INPUT_STATE a1 (input_state_bytes st) (with_keyboard kb sy)).
  by split.
Qed.

Lemma sys_net_recv_rest a1 a2 sy : rest_same ORE_SYS_NET_RECV sy (snd (sys_net_recv a1 a2 sy)).
Proof.
  unfold sys_net_recv. cbv zeta. case_test; [by split|]. destruct (net_recv_frame _ _ _) as [[n frame] d]. case_test; [apply rest_kernel|].
  by destruct (put_user a1 frame _) as [err k'].
Qed.

Lemma sys_net_send_rest a1 a2 sy : rest_same ORE_SYS_NET_SEND sy (snd (sys_net_send a1 a2 sy)).
Proof.
  unfold sys_net_send. cbv zeta. case_test; [by split|]. destruct (copy_from_user _ _ _ _) as [err frame]. case_test; [by split|].
  destruct (net_send_frame _ _ _) as [n d]. apply rest_kernel.
Qed.

(** The calls of this file, as changes of the system. *)
Definition query_sy (sy sy' : system) : Prop := query (sy_kernel sy) (sy_kernel sy').

Lemma put_struct_query dst bs sy : kernel_ok (sy_kernel sy) -> query_sy sy (snd (put_struct dst bs sy)).
Proof.
  intros Hk. unfold put_struct. pose proof (put_user_query dst bs (sy_kernel sy) Hk) as Q.
  by destruct (put_user dst bs (sy_kernel sy)) as [err k'].
Qed.

Lemma write_bytes_kernel bs sy : sy_kernel (write_bytes bs sy) = sy_kernel sy.
Proof. revert sy. induction bs as [|b bs IH]; intros sy; [done|]. exact (IH (with_output (console_putc b (sy_console sy)) (serial_sent b (sy_serial sy)) sy)). Qed.

Lemma sys_write_query a1 a2 a3 sy : kernel_ok (sy_kernel sy) -> query_sy sy (snd (sys_write a1 a2 a3 sy)).
Proof.
  intros Hk. unfold sys_write, query_sy. cbv zeta. case_test; [by apply query_refl|]. cbn [snd]. rewrite write_bytes_kernel. by apply query_refl.
Qed.

Lemma sys_read_query polls a1 a2 a3 sy : kernel_ok (sy_kernel sy) -> 0 <= a3 -> query_sy sy (snd (sys_read polls a1 a2 a3 sy)).
Proof.
  intros Hk Ha. unfold sys_read, query_sy. cbv zeta. case_test; [by apply query_refl|].
  destruct (user_range_ok _ a2 a3 _) eqn:Er; cbn [negb]; [|by apply query_refl]. destruct (Z.eqb_spec a3 0); [by apply query_refl|].
  destruct (read_key_loop polls _) as [[key|] kb]; [|by apply query_refl]. cbn [snd sy_kernel with_kernel].
  eapply write_query; [done| |exact Er]. cbn. lia.
Qed.

Lemma sys_mod_info_query a1 a2 sy : kernel_ok (sy_kernel sy) -> query_sy sy (snd (sys_mod_info a1 a2 sy)).
Proof. intros Hk. unfold sys_mod_info. destruct (okmod_info _ _); [by apply put_struct_query|by apply query_refl]. Qed.

Lemma sys_gfx_info_query a1 sy : kernel_ok (sy_kernel sy) -> query_sy sy (snd (sys_gfx_info a1 sy)).
Proof. intros Hk. unfold sys_gfx_info. destruct (console_gfx_info _); [by apply query_refl|by apply put_struct_query]. Qed.

Lemma sys_gfx_present_query a1 a2 a3 a4 sy : kernel_ok (sy_kernel sy) -> query_sy sy (snd (sys_gfx_present a1 a2 a3 a4 sy)).
Proof.
  intros Hk. unfold sys_gfx_present, query_sy. cbv zeta. do 3 (case_test; [by apply query_refl|]).
  destruct (console_gfx_present_indexed16 _ _ _ _) as [rc c]. by apply query_refl.
Qed.

Lemma sys_input_state_query poll a1 sy : kernel_ok (sy_kernel sy) -> query_sy sy (snd (sys_input_state poll a1 sy)).
Proof. intros Hk. unfold sys_input_state. destruct (input_state_poll _ _ _) as [st kb]. exact (put_struct_query a1 _ (with_keyboard kb sy) Hk). Qed.

Lemma sys_sleep_query ticks a1 sy : kernel_ok (sy_kernel sy) -> query_sy sy (snd (sys_sleep ticks a1 sy)).
Proof. intros Hk. unfold sys_sleep, query_sy. destruct (sleep_loop _ _ _); by apply query_refl. Qed.

Lemma sys_net_recv_query a1 a2 sy : kernel_ok (sy_kernel sy) -> query_sy sy (snd (sys_net_recv a1 a2 sy)).
Proof.
  intros Hk. unfold sys_net_recv, query_sy. cbv zeta. case_test; [by apply query_refl|].
  destruct (net_recv_frame _ _ _) as [[n frame] d]. pose proof (query_dev (sy_kernel sy) d Hk) as Q.
  case_test; [done|]. cbn [sy_kernel with_kernel]. pose proof (put_user_query a1 frame (with_dev d (sy_kernel sy)) (query_ok _ _ Q)) as Q'.
  destruct (put_user a1 frame _) as [err k']. cbn [snd sy_kernel with_kernel] in *. exact (query_trans _ _ _ Q Q').
Qed.

Lemma sys_net_send_query a1 a2 sy : kernel_ok (sy_kernel sy) -> query_sy sy (snd (sys_net_send a1 a2 sy)).
Proof.
  intros Hk. unfold sys_net_send, query_sy. cbv zeta. case_test; [by apply query_refl|].
  destruct (copy_from_user _ _ _ _) as [err frame]. case_test; [by apply query_refl|].
  destruct (net_send_frame _ _ _) as [n d]. by apply query_dev.
Qed.

(** The calls that change the kernel: processes, handles, the heap or the page
    tables. *)
Definition changes_kernel (number : Z) : bool :=
  existsb (Z.eqb number)
    [ORE_SYS_EXIT; ORE_SYS_YIELD; ORE_SYS_OPEN; ORE_SYS_CLOSE; ORE_SYS_FILE_READ; ORE_SYS_SPAWN; ORE_SYS_WAIT; ORE_SYS_EXEC_IMAGE;
     ORE_SYS_KCMD; ORE_SYS_USER_ALLOC_PAGES; ORE_SYS_USER_FREE_PAGES; ORE_SYS_TERRAIN_RENDER].

(** What a branch of the dispatcher leads to. *)
Definition dispatched (sy : system (D:=D)) (number : Z) (x : eff (sys_result * system)) : Prop :=
  exists r sy', x = ret (r, sy') /\ query (sy_kernel sy) (sy_kernel sy') /\ rest_same number sy sy' /\
    (is_call number [ORE_SYS_READ; ORE_SYS_SLEEP] = false -> exists v, r = Returns v) /\
    (known_call number = false -> r = Returns (2 ^ 64 - ORE_ENOSYS) /\ sy' = invalid_syscall number sy).

Lemma returns_confined sy number r :
  known_call number = true -> query_sy sy (snd r) -> rest_same number sy (snd r) -> dispatched sy number (returns r).
Proof.
  intros Hn Q S. exists (Returns (u64 (fst r))), (snd r). split; [done|]. split; [exact Q|]. split; [done|]. split; [by eexists|congruence].
Qed.

Lemma returns_k_confined sy number r :
  known_call number = true -> query (sy_kernel sy) (snd r) -> dispatched sy number (returns_k r sy).
Proof. intros Hn Q. apply returns_confined; [done|done|apply rest_kernel]. Qed.

Lemma waits_confined sy number r :
  is_call number [ORE_SYS_READ; ORE_SYS_SLEEP] = true -> known_call number = true -> query_sy sy (snd r) -> rest_same number sy (snd r) ->
  dispatched sy number (waits r).
Proof.
  intros Hw Hn Q S. unfold waits. destruct (fst r) as [v|]; [by apply (returns_confined sy number (v, snd r))|].
  exists Waits, (snd r). split; [done|]. split; [exact Q|]. split; [done|]. split; congruence.
Qed.

(** C31: every other system call, with any arguments and also with an unknown number,
    is confined to the calling program: it counts the call, and of the whole kernel
    it changes at most the network card and bytes of the memory that the program
    itself has mapped in the user half; no page table, no allocation, no process and
    no byte of the kernel or of another program changes.  Of the rest of the system only
    ORE_SYS_WRITE changes the serial line, only it and ORE_SYS_GFX_PRESENT the screen.
    Every call but ORE_SYS_READ and ORE_SYS_SLEEP, which may go on waiting, returns.  An
    unknown number returns [-ENOSYS] after a message on the serial line, and changes
    nothing else. *)
Theorem syscall_query_confined fuel inp rip rsp number a1 a2 a3 a4 sy :
  kernel_ok (sy_kernel sy) -> 0 <= a2 -> 0 <= a3 -> changes_kernel number = false ->
  let sy1 := with_kernel (with_control (syscall_entry rip rsp (k_control (sy_kernel sy))) (sy_kernel sy)) sy in
  exists r sy', syscall_dispatch run_command fuel inp rip rsp number a1 a2 a3 a4 sy = ret (r, sy') /\
    query (sy_kernel sy1) (sy_kernel sy') /\ rest_same number sy1 sy' /\
    (is_call number [ORE_SYS_READ; ORE_SYS_SLEEP] = false -> exists v, r = Returns v) /\
    (known_call number = false -> r = Returns (2 ^ 64 - ORE_ENOSYS) /\ sy' = invalid_syscall number sy1).
Proof.
  intros Hk Ha2 Ha3 Hn sy1. unfold syscall_dispatch. fold sy1.
  assert (kernel_ok (sy_kernel sy1)) as Hk1 by exact Hk.
  pose proof Hn as Hc. unfold changes_kernel in Hn. cbn [existsb] in Hn. rewrite !orb_false_iff in Hn. destruct_and! Hn.
  repeat match goal with E : (number =? ?c) = false |- _ => rewrite E; clear E end. cbv zeta.
  match goal with |- exists r sy', ?x = _ /\ _ => change (dispatched sy1 number x) end.
  repeat match goal with
  | |- context [number =? ?c] => destruct (Z.eqb_spec number c) as [->|?];
      [match goal with
       | |- dispatched _ _ (returns_k _ _) => apply returns_k_confined; [reflexivity|]
       | |- dispatched _ _ (returns _) => apply returns_confined; [reflexivity|..]
       | |- dispatched _ _ (waits _) => apply waits_confined; [reflexivity|reflexivity|..]
       end|]
  end.
  - by apply sys_write_query.
  - apply sys_write_rest.
  - by apply sys_read_query.
  - apply sys_read_rest.
  - by apply sys_readdir_query.
  - by apply sys_stat_query.
  - by apply put_struct_query.
  - apply put_struct_rest.
  - by apply query_refl.
  - by split.
  - by apply sys_sleep_query.
  - unfold sys_sleep. by destruct (sleep_loop _ _ _).
  - by apply sys_args_query.
  - by apply sys_proc_info_query.
  - by apply sys_mod_info_query.
  - unfold sys_mod_info. destruct (okmod_info _ _); [apply put_struct_rest|by split].
  - by apply sys_gfx_info_query.
  - unfold sys_gfx_info. destruct (console_gfx_info _); [by split|apply put_struct_rest].
  - by apply sys_gfx_present_query.
  - apply sys_gfx_present_rest.
  - by apply sys_input_state_query.
  - apply sys_input_state_rest.
  - by apply put_struct_query.
  - apply put_struct_rest.
  - by apply sys_net_recv_query.
  - apply sys_net_recv_rest.
  - by apply sys_net_send_query.
  - apply sys_net_send_rest.
  - exists (Returns (u64 (- ORE_ENOSYS))), (invalid_syscall number sy1). split; [done|]. split; [by apply query_refl|].
    assert (known_call number = false) as Hu.
    { unfold known_call. apply not_true_is_false. intros [H1%Z.leb_le H2%Z.leb_le]%andb_prop.
      assert (number ∈ seqZ 1 28) as Hin by (apply elem_of_seqZ; lia). change (seqZ 1 28) with (map (fun i => Z.of_nat i) (seq 1 28)) in Hin.
      cbn [seq map] in Hin. repeat (apply elem_of_cons in Hin as [->|Hin];
        [first [discriminate Hc|match goal with Hne : _ <> _ |- _ => exact (Hne eq_refl) end]|]). by apply elem_of_nil in Hin. }
    split; [|split; [by eexists|by intros _]]. split; [done|done|done|congruence|done|done|done].
Qed.
End Queries.

(** ** Writing to the terminal *)

Lemma put_char_gfx c k : gfx_mode_active (put_char c k) = gfx_mode_active k.
Proof.
  assert (forall k, gfx_mode_active (clear_screen k) = gfx_mode_active k) as Hc by (intros k'; unfold clear_screen; by case_test).
  assert (forall k, gfx_mode_active (newline k) = gfx_mode_active k) as Hn.
  { intros k'. unfold newline. cbv zeta. case_test; [|done]. unfold scroll_up. by case_test. }
  unfold put_char. case_test; [done|]. destruct (handle_escape c k) as [k'|] eqn:He.
  - unfold handle_escape in He. cbv zeta in He. repeat (case_match; simplify_eq; try done). exact (Hc k).
  - cbv zeta. do 3 (case_test; [done || apply Hn|]). case_test; [by case_test|]. case_test; [by rewrite Hn|done].
Qed.

Lemma console_putc_feed c k : gfx_mode_active k = 0 -> c <> 0 -> console_putc c k = put_char c k.
Proof. intros Hg Hc. unfold console_putc, console_write. by rewrite (proj2 (Z.eqb_neq c 0)), Hg. Qed.

Lemma encode_params_nonzero ps : Forall word32 ps -> Forall (fun c => c <> 0) (encode_params ps).
Proof.
  assert (forall p, word32 p -> Forall (fun c => c <> 0) (decimal p)) as Hd.
  { intros p Hp. unfold decimal. apply Forall_fmap. eapply Forall_impl; [apply (digits_range 10 p); unfold word32 in Hp; lia|].
    simpl. intros d Hd0. lia. }
  induction 1 as [|p ps Hp Hps IH]; [done|]. destruct ps as [|q ps]; [by apply Hd|].
  change (encode_params (p :: q :: ps)) with (decimal p ++ [59] ++ encode_params (q :: ps)).
  apply Forall_app; split; [by apply Hd|]. apply Forall_app; split; [by apply Forall_singleton|done].
Qed.

Lemma encode_nonzero toks : Forall token_ok toks -> Forall (fun c => c <> 0) (flat_map encode toks).
Proof.
  induction 1 as [|tok toks Htok Htoks IH]; [done|]. cbn [flat_map]. apply Forall_app; split; [|done].
  destruct tok as [c| | | | | |ps]; cbn [encode]; try (repeat (apply Forall_cons; split); done || apply Forall_nil_2).
  - apply Forall_singleton. intros ->. destruct Htok as [_ Hne]. rewrite !not_elem_of_cons in Hne. tauto.
  - apply Forall_cons; split; [done|]. apply Forall_cons; split; [done|]. apply Forall_app; split; [|by apply Forall_singleton].
    by apply encode_params_nonzero.
Qed.

Section Write.
Context {D : Type} `{Ports D}.
#[local] Abbreviation kern := (kernel (S:=pmm_state) (D:=D)).
Context (run_command : Z -> Z -> Z -> kern -> Z * kern).
Implicit Types (sy : system (D:=D)).

Lemma write_bytes_output bs sy :
  gfx_mode_active (sy_console sy) = 0 -> Forall (fun c => c <> 0) bs ->
  write_bytes bs sy = with_output (feed bs (sy_console sy)) (sy_serial sy ++ crlf bs) sy.
Proof.
  intros Hg Hbs. revert sy Hg. induction Hbs as [|c bs Hc Hbs IH]; intros sy Hg.
  { cbn. rewrite app_nil_r. by destruct sy. }
  change (write_bytes (c :: bs) sy) with (write_bytes bs (with_output (console_putc c (sy_console sy)) (serial_sent c (sy_serial sy)) sy)).
  rewrite console_putc_feed by done. rewrite IH by (cbn; by rewrite put_char_gfx). cbn [sy_console sy_serial with_output].
  unfold with_output. cbn. f_equal. unfold serial_sent. destruct (c =? 10); by rewrite <- app_assoc.
Qed.

(** C32: a program that writes the text of terminal tokens from its memory gets its
    length back, the console shows the terminal after these tokens, the serial line
    carries the text, and the kernel only counts the call. *)
Theorem write_shows_terminal R fuel inp rip rsp fd a2 a4 toks t sy :
  let bs := flat_map encode toks in
  let n := Z.of_nat (length bs) in
  let k := sy_kernel sy in
  space_ok R (k_root k) (k_machine k) -> refines (sy_console sy) t -> Forall token_ok toks ->
  fd = 1 \/ fd = 2 -> user_va a2 -> a2 + n <= USER_LIMIT ->
  (forall i b, bs !! i = Some b ->
    mapped (k_root k) (a2 + Z.of_nat i) (k_machine k) = true /\ uload (k_root k) (a2 + Z.of_nat i) (k_machine k) = b) ->
  exists sy', syscall_dispatch run_command fuel inp rip rsp ORE_SYS_WRITE fd a2 n a4 sy = ret (Returns n, sy') /\
    refines (sy_console sy')
      (fold_left (term_step (cols (sy_console sy)) (rows (sy_console sy)) (fb_height (con_fb (sy_console sy)))) toks t) /\
    sy_serial sy' = sy_serial sy ++ crlf bs /\
    sy_kernel sy' = with_control (syscall_entry rip rsp (k_control k)) k.
Proof.
  intros bs n k Hs Hr Ht Hfd Hv Hlim Hmem. unfold syscall_dispatch. rewrite Z.eqb_refl. cbv zeta.
  set (sy1 := with_kernel (with_control (syscall_entry rip rsp (k_control (sy_kernel sy))) (sy_kernel sy)) sy).
  assert (user_range_ok (k_root k) a2 n (k_machine k) = true) as Hrange.
  { apply (user_range_ok_spec R); [done|lia|]. split; [done|]. split; [done|]. intros a Ha.
    destruct (lookup_lt_is_Some_2 bs (Z.to_nat (a - a2))) as [b Hb]; [lia|].
    destruct (Hmem _ _ Hb) as [Hm _]. by replace (a2 + Z.of_nat (Z.to_nat (a - a2))) with a in Hm by lia. }
  assert (sys_write fd a2 n sy1 = (n, write_bytes bs sy1)) as ->.
  { unfold sys_write. cbv zeta. change (k_root (sy_kernel sy1)) with (k_root k). change (k_machine (sy_kernel sy1)) with (k_machine k).
    rewrite Hrange. replace (negb (fd =? 1) && negb (fd =? 2)) with false by (by destruct Hfd as [->| ->]). cbn [orb negb].
    replace (Z.to_nat n) with (length bs) by (unfold n; lia). f_equal. f_equal. apply read_loop_bytes. intros i b Hb. by apply Hmem. }
  rewrite write_bytes_output; [|apply Hr|by apply encode_nonzero].
  exists (with_output (feed bs (sy_console sy1)) (sy_serial sy1 ++ crlf bs) sy1).
  split; [|split; [by apply (tokens_refine (sy_console sy))|done]].
  unfold returns. cbn [fst snd]. rewrite u64_small; [done|]. unfold word64, user_va, USER_BASE, USER_LIMIT in *. lia.
Qed.
End Write.

(** ** Examples *)

Definition no_modules (_ _ _ : Z) (k : kernel (S:=pmm_state) (D:=demo_dev)) : Z * kernel (S:=pmm_state) (D:=demo_dev) := (-1, k).
Definition demo_inputs : inputs := mk_inputs [(-1, None); (111, None)] [] [] no_info 0.
Definition demo_system (st : machine pmm_state) : system (D:=demo_dev) :=
  mk_system (demo_kernel_with st demo_empty_fs) (console_init demo_fb (console_zero ∅)) (mk_keyboard 0 0 0 0 0)
    (mk_okmod 0 [] []) (mk_net false []) [] 0 1.

Definition written_tokens : list token := [TChar 79; TSgr [31]; TChar 114; TNewline].
Definition demo_text_space : machine pmm_state := write_loop vmm_root USER_BASE (flat_map encode written_tokens) demo_space.

Lemma demo_text_written : uwrites (eq vmm_root) vmm_root (bytes_at USER_BASE (flat_map encode written_tokens)) demo_space demo_text_space.
Proof.
  destruct demo_space_ok as [Hs Hz].
  assert (Z.of_nat (length (flat_map encode written_tokens)) = 8) as El by (vm_compute; reflexivity).
  refine (write_loop_spec (eq vmm_root) vmm_root (flat_map encode written_tokens) USER_BASE demo_space Hs _ _ _ _).
  - apply Z.le_refl.
  - rewrite El. unfold USER_BASE, USER_LIMIT. lia.
  - intros a Ha. rewrite El in Ha. apply (Hz a). unfold PAGE_SIZE. lia.
  - assert (forallb (fun b => (0 <=? b) && (b <? 256)) (flat_map encode written_tokens) = true) as Hb by (vm_compute; reflexivity).
    rewrite forallb_forall in Hb. apply Forall_forall. intros b Hin%list_elem_of_In. specialize (Hb b Hin).
    apply andb_prop in Hb as [Hb1%Z.leb_le Hb2%Z.ltb_lt]. by split.
Qed.

#[local] Opaque demo_text_space demo_space console_init.

Lemma write_shows_terminal_witness :
  let t := fold_left (term_step 4 2 100) banner (first_terminal demo_fb) in
  exists sy', syscall_dispatch no_modules 0 demo_inputs 0 0 ORE_SYS_WRITE 1 USER_BASE 8 0 (demo_system demo_text_space) =
    ret (Returns 8, sy') /\ refines (sy_console sy') (fold_left (term_step 4 2 100) written_tokens t).
Proof.
  intros t. pose proof demo_text_written as U. destruct (console_init_refines demo_fb ∅ demo_fb_ok) as (Ef & Ec & Er & Hr); [cbn; lia..|].
  destruct (write_shows_terminal no_modules (eq vmm_root) 0 demo_inputs 0 0 1 USER_BASE 0 written_tokens t (demo_system demo_text_space))
    as (sy' & H1 & H2 & _).
  - exact (uw_space _ _ _ _ _ U).
  - exact Hr.
  - repeat (apply Forall_cons; split); try apply Forall_nil_2; try exact I; try (apply char_ok; reflexivity).
  - left. reflexivity.
  - unfold user_va, USER_BASE, USER_LIMIT. lia.
  - change (Z.of_nat (length (flat_map encode written_tokens))) with 8. unfold USER_BASE, USER_LIMIT. lia.
  - intros i b Hb. destruct demo_space_ok as [_ Hz]. pose proof (lookup_lt_Some _ _ _ Hb) as Hi.
    change (length (flat_map encode written_tokens)) with 8%nat in Hi.
    change (k_root (sy_kernel (demo_system demo_text_space))) with vmm_root.
    change (k_machine (sy_kernel (demo_system demo_text_space))) with demo_text_space.
    destruct (Hz (USER_BASE + Z.of_nat i)) as [[Hv Hm] _]; [unfold PAGE_SIZE; lia|].
    split; [rewrite (uw_mapped _ _ _ _ _ _ U); exact Hm|]. rewrite (uw_load _ _ _ _ _ U _ Hv Hm). unfold bytes_at.
    rewrite (proj2 (Z.leb_le _ _)) by lia. replace (Z.to_nat (USER_BASE + Z.of_nat i - USER_BASE)) with i by lia. by rewrite Hb.
  - exists sy'. split; [exact H1|]. change (sy_console (demo_system demo_text_space)) with (console_init demo_fb (console_zero ∅)) in H2.
    rewrite Ec, Er, Ef in H2. exact H2.
Defined.

Lemma syscall_query_confined_witness :
  exists r sy', syscall_dispatch no_modules 0 demo_inputs 0 0 ORE_SYS_READ 0 (USER_BASE + 8) 1 0 (demo_system demo_space) = ret (r, sy') /\
    query (eq vmm_root) (with_control (syscall_entry 0 0 (k_control (sy_kernel (demo_system demo_space)))) (sy_kernel (demo_system demo_space)))
      (sy_kernel sy').
Proof.
  destruct (syscall_query_confined no_modules (eq vmm_root) 0 demo_inputs 0 0 ORE_SYS_READ 0 (USER_BASE + 8) 1 0 (demo_system demo_space))
    as (r & sy' & H1 & H2 & _).
  - exact (proj1 demo_space_ok).
  - unfold USER_BASE. lia.
  - lia.
  - reflexivity.
  - exists r, sy'. split; [exact H1|exact H2].
Defined.
