(* ===== verification/Entry.v ===== *)
(** The start of the kernel (kernel/main.c) and of its first program
    (kernel/user.c, [user_init_spawn]).

    [kernel_entry] runs the initialisation of every component in the order of the
    code, on one state: the system of [Dispatch] with the descriptor tables, the model
    specific registers, the scheduler and the interrupt controllers.  Messages and the
    wait for the first ticks are left out.  [boot_memory] is the part that sets up
    memory; its theorem establishes the invariants that the other files assume. *)
From stdpp Require Import base numbers list gmap strings.
From Stdlib Require Import ZArith Lia.
From S2P Require Import Prelude Memory PageAllocator BootInfo Pmm Heap HeapGuard Vmm Scheduler Process Usermem SelfTest Elf Loader.
From S2P Require Import Cstring Ports Serial Block Initramfs Vfs UserAlloc Control Descriptors Smp Syscall.
From S2P Require Import Net Okmod Acpi Console Terminal Keyboard Dispatch.

(** ** Memory *)

(** [pmm_init] to [vmm_self_test]: the root of the page tables, the heap with the
    pages and the memory, and what the firmware's tables say. *)
Definition boot_memory (fuel : nat) (bi : BootInfo) (bi_addr : Z) (m : mem) (ac : acpi_state)
  : eff (Z * heap_state pmm_state * acpi_state) :=
  let! (_, s) := Some (pmm_init bi bi_addr) in
  let h := heap_init (mk_heap 0 s m) in
  let! h := memory_self_test fuel h in
  let! ac := lift (acpi_init (hmem h) (bi_rsdp bi) ac) in
  let! (root, st) := Some (vmm_init bi (acpi_lapic_base ac) (mk_machine (pages h) (hmem h))) in
  let! st := Some (vmm_self_test bi root st) in
  ret (root, mk_heap (heap_head h) (m_pages st) (m_mem st), ac).

Section Entry.
Context {D : Type} `{Ports D} {M : Type} `{Mmio M}.
#[local] Abbreviation kern := (kernel (S:=pmm_state) (D:=D)).
Context (run_init : Z -> kern -> Z * kern).

(** What the linker and the machine provide. *)
Record boot_env := mk_boot_env {
  be_gdt : Z;
  be_tss : Z;
  be_isr_stubs : Z -> Z;
  be_syscall_entry : Z;
  be_trampoline : list Z;
  be_ap_main : Z;
  be_answers : Z -> bool;
  be_stack : Z
}.
Context (env : boot_env).

Record boot := mk_boot {
  bt_system : system (D:=D);
  bt_gdt : gdt_state;
  bt_idt : list IdtEntry;
  bt_msrs : msrs;
  bt_acpi : acpi_state;
  bt_sched : sched_state;
  bt_lapic : M;
  bt_cpus : list CpuInfo;
  bt_entered : list ap_entry;
  bt_ticks : list Z
}.

(** How [kernel_entry] ends: in the halt loop for a wrong boot structure, or in the
    first program at its entry point with its stack. *)
Inductive boot_end := Halted (b : boot) | Entered (b : boot) (entry stack : Z).

(** ** The first program *)

Definition USER_FILE_MAX : Z := 512 * 1024.

Definition user_init_spawn (fuel : nat) (path : list Z) (k : kern) (g : gdt_state) : eff (kern * gdt_state * Z * Z) :=
  let! (r, pt, st) := Some (process_create_user (k_kernel_pml4 k) path (k_procs k) (k_machine k)) in
  match r with
  | None => panics "user: cannot create init process"
  | Some i =>
      let k := with_table (process_set_current i pt) (with_machine st k) in
      let '(rc, vst) := vfs_stat (k_vfs k) (k_initramfs k) path in
      if rc <? 0 then panics "user: /init missing" else
      let size := vs_size vst in
      if (size =? 0) || (USER_FILE_MAX <? size) then panics "user: /init invalid size" else
      let! (image, k) := kalloc fuel size k in
      if image =? 0 then panics "user: no memory for init image" else
      let! (n, out, h, d) := vfs_read_file fuel (k_vfs k) (k_blocks k) (k_initramfs k) path size (kheap k) (k_dev k) in
      let k := fill_buffer image out (with_dev d (with_heap h k)) in
      if negb (n =? size) then panics "user: cannot read /init" else
      let! (p, entry, stack, rsp0, st) := Some (user_init_load (proc (k_procs k) i) image size (k_machine k)) in
      let k := on_process i (fun _ => p) (with_machine st k) in
      let k := with_control (write_cr3 (pml4_phys (p_address_space p)) (k_control k)) k in
      ret (k, tss_set_rsp0 rsp0 g, entry, stack)
  end.

(** ** Devices and files *)

Definition boot_files (n fuel : nat) (bi : BootInfo) (sy : system (D:=D)) : eff (system (D:=D)) :=
  let k := sy_kernel sy in
  let con := console_init (bi_framebuffer bi) (sy_console sy) in
  let '(net, d) := net_init (k_dev k) in
  let! fs := lift (initramfs_init fuel (m_mem (k_machine k)) bi) in
  let '(bs, d) := block_init (k_blocks k) d in
  let! (_, v, h, d) := vfs_mount_initramfs fuel bs (vfs_init (k_vfs k)) (kheap k) d in
  let! (h, d) := vfs_self_test fuel v bs fs h d in
  let k := with_heap h (mk_kernel (k_control k) (k_machine k) (k_heap_head k) v fs bs d (k_kernel_pml4 k)
                          (k_next_synthetic_pid k) (k_last_synthetic_pid k)) in
  let! (om, k) := okmod_init run_init n fuel k in
  ret (mk_system k con (sy_keyboard sy) om net (sy_serial sy) (sy_ticks sy) (sy_cpu_count sy)).

(** ** Processors *)

Definition boot_cpus (fuel : nat) (b : boot) : eff boot :=
  let sy := bt_system b in
  let k := sy_kernel sy in
  let senv := mk_env (acpi_lapic_base (bt_acpi b)) (cpu_apic_ids (bt_acpi b)) (be_trampoline env) (k_kernel_pml4 k)
                (be_ap_main env) (be_answers env) in
  let! s := smp_init senv fuel (mk_smp (bt_cpus b) (m_mem (k_machine k)) (m_pages (k_machine k)) (bt_lapic b) (bt_entered b)) in
  let '(cpu, l) := current_cpu_id (en_base senv) (g_cpus s) (sm_lapic s) in
  let sched := scheduler_start_current_cpu cpu (bt_sched b) in
  let '(ticks, l) := lapic_timer_init_current_cpu (en_base senv) (g_cpus s) (bt_ticks b) l in
  let k := with_machine (mk_machine (sm_pages s) (sm_mem s)) k in
  let sy := mk_system k (sy_console sy) (sy_keyboard sy) (sy_okmod sy) (sy_net sy) (sy_serial sy) (sy_ticks sy)
              (Z.of_nat (length (g_cpus s))) in
  ret (mk_boot sy (bt_gdt b) (bt_idt b) (bt_msrs b) (bt_acpi b) sched l (g_cpus s) (sm_entered s) ticks).

(** ** The entry point *)

Definition on_dev (f : D -> D) (b : boot) : boot :=
  let sy := bt_system b in
  let k := sy_kernel sy in
  mk_boot (with_kernel (with_dev (f (k_dev k)) k) sy) (bt_gdt b) (bt_idt b) (bt_msrs b) (bt_acpi b) (bt_sched b) (bt_lapic b)
    (bt_cpus b) (bt_entered b) (bt_ticks b).

(** The descriptor tables and the old interrupt controller. *)
Definition boot_descriptors_init (b : boot) : boot :=
  let b := on_dev pic_disable b in
  mk_boot (bt_system b) (gdt_init (be_gdt env) (be_tss env) (bt_gdt b)) (idt_init (be_isr_stubs env) (bt_idt b)) (bt_msrs b) (bt_acpi b)
    (bt_sched b) (bt_lapic b) (bt_cpus b) (bt_entered b) (bt_ticks b).

(** The kernel with its memory. *)
Definition with_memory (root : Z) (h : heap_state pmm_state) (k : kern) : kern :=
  with_heap h (mk_kernel (write_cr3 root (k_control k)) (k_machine k) (k_heap_head k) (k_vfs k) (k_initramfs k) (k_blocks k)
                 (k_dev k) root (k_next_synthetic_pid k) (k_last_synthetic_pid k)).

(** From [console_init] on. *)
Definition boot_rest (n fuel : nat) (bi : BootInfo) (root : Z) (h : heap_state pmm_state) (ac : acpi_state) (b : boot) : eff boot_end :=
  let r := cpu_enable_nxe (bt_msrs b) in
  let! sy := boot_files n fuel bi (with_kernel (with_memory root h (sy_kernel (bt_system b))) (bt_system b)) in
  let r := syscall_init (be_syscall_entry env) r in
  let k := sy_kernel sy in
  let! m := Some (elf_self_test (m_mem (k_machine k)) (be_stack env)) in
  let k := with_machine (with_machine_mem (k_machine k) m) k in
  let k := with_table (process_init root (bytes_of "kernel"%string) (k_procs k)) k in
  let sched := scheduler_init (bt_sched b) in
  let! b := boot_cpus fuel (mk_boot (with_kernel k sy) (bt_gdt b) (bt_idt b) r ac sched (bt_lapic b) (bt_cpus b) (bt_entered b) (bt_ticks b)) in
  let! (k, g, entry, stack) := user_init_spawn fuel (bytes_of "/init"%string) (sy_kernel (bt_system b)) (bt_gdt b) in
  ret (Entered (mk_boot (with_kernel k (bt_system b)) g (bt_idt b) (bt_msrs b) (bt_acpi b) (bt_sched b) (bt_lapic b) (bt_cpus b)
                  (bt_entered b) (bt_ticks b)) entry stack).

(** [boot_info] with its address; [None] is the null pointer. *)
Definition kernel_entry (n fuel : nat) (boot_info : option (BootInfo * Z)) (b : boot) : eff boot_end :=
  let b := on_dev serial_init b in
  match boot_info with
  | None => ret (Halted b)
  | Some (bi, bi_addr) =>
      if negb (bi_magic bi =? ORE_BOOTINFO_MAGIC) then ret (Halted b) else
      let b := boot_descriptors_init b in
      let! (root, h, ac) := boot_memory fuel bi bi_addr (m_mem (k_machine (sy_kernel (bt_system b)))) (bt_acpi b) in
      boot_rest n fuel bi root h ac b
  end.
End Entry.

(** ** The memory of the kernel *)

Section BootMemory.
Context (bi : BootInfo) (bi_addr : Z) (m : mem) (ac : acpi_state).
Let top : Z := max_phys_of (boot_descriptors bi).

(** The page may be given out: usable, and holding nothing that the loader left. *)
Definition free_for_use (ba bytes q : Z) : bool := covered (boot_descriptors bi) q && negb (protected bi bi_addr ba bytes q).

(** The firmware's tables, which lie in reserved pages, give an address of the
    interrupt controllers that can be mapped. *)
Definition firmware_ok : Prop := forall ba s m' ac', pmm_init bi bi_addr = Ok (ba, s) -> mem_ok m' ->
  (forall x, 0 <= x < top -> free_for_use ba (bitmap_bytes s) (x / PAGE_SIZE) = false -> load8 m' x = load8 m x) ->
  acpi_init m' (bi_rsdp bi) ac = Some ac' -> vrange_ok (acpi_lapic_base ac') PAGE_SIZE.

(** The pages that the start of memory management takes at most: five for the memory
    test; the root and the tables of memory, of the framebuffer and of the interrupt
    controllers; seven for the test of the page tables. *)
Definition boot_pages : nat :=
  5 + (1 + range_tables 0 top + range_tables (fb_base (bi_framebuffer bi)) (fb_bytes (bi_framebuffer bi)) + 6) + 7.

(** For want of memory: there is no room for the bitmap; or the allocator that
    [pmm_init] sets up has no four free pages in a row (or would have none with four
    pages less), and the memory test says so; or it has fewer than [boot_pages] free pages. *)
Definition starved (msg : string) : Prop :=
  (pmm_init bi bi_addr = Panic msg /\ no_bitmap_room bi) \/
  exists ba s, pmm_init bi bi_addr = Ok (ba, s) /\ ((no_memory msg /\ no_run 4 5 s) \/ out_of_pages boot_pages s).

(** The invariants of memory after the start. *)
Record memory_ready (root : Z) (h : heap_state pmm_state) (ac' : acpi_state) : Prop := {
  mr_heap : history_inv (h, []);
  mr_tables : forest_wf (pages h) (hmem h) (eq root);
  mr_identity : forall w, 0 <= w < top -> vmm_virt_to_phys_in root w (mk_machine (pages h) (hmem h)) = Ok w;
  mr_top : pa_top (pages h) * PAGE_SIZE = top;
  mr_cpus : cpus_ok ac';
  mr_reserved : exists ba s, pmm_init bi bi_addr = Ok (ba, s) /\
    forall x, 0 <= x < top -> free_for_use ba (bitmap_bytes s) (x / PAGE_SIZE) = false ->
      load8 (hmem h) x = load8 m x /\ pa_live (pages h) (x / PAGE_SIZE);
}.

Lemma built_heap G (h : heap_state pmm_state) live root st :
  guarded G h live -> built (mk_machine (pages h) (hmem h)) root st ->
  guarded G (mk_heap (heap_head h) (m_pages st) (m_mem st)) live /\ forall x, G (x / PAGE_SIZE) -> load8 (m_mem st) x = load8 (hmem h) x.
Proof.
  intros Hg [B1 B2 B3 B4 B5]. cbn [m_pages m_mem] in *. split; [apply (guarded_frame G h); [done|apply B1|done|done]|].
  intros x Hx. apply B5. by apply (gd_live _ _ _ Hg).
Qed.

(** The start of memory management ends; it stops the kernel only for want of memory. *)
Lemma boot_memory_correct :
  boot_ok bi bi_addr -> mem_ok m -> top <= 281474976710656 -> 0 <= bi_kernel_base bi < top ->
  vrange_ok (fb_base (bi_framebuffer bi)) (fb_bytes (bi_framebuffer bi)) -> firmware_ok ->
  ends (fun fuel => boot_memory fuel bi bi_addr m ac)
    (fun r => match r with Ok (root, h, ac') => memory_ready root h ac' | Panic msg => starved msg end).
Proof.
  intros Hb Hm Htop Hk Hfb Hfw. unfold boot_memory. destruct (pmm_init bi bi_addr) as [[ba s]|msg] eqn:Ep; cbn [eff_bind].
  2: { exists O, (Panic msg). split; [done|]. left. split; [done|]. by eapply pmm_init_panics. }
  destruct (pmm_init_spec bi bi_addr ba s Hb Ep) as (Et & Hwf & _ & _ & _ & Hbits). fold top in Et.
  set (G := pa_live s). set (h0 := heap_init (mk_heap 0 s m)).
  assert (guarded G h0 []) as Hg0.
  { split; [|done]. exists [], []. split; [by split|]. split; [done|]. split; [done|]. by intros x (b & ?%elem_of_nil & _). }
  assert (forall x, 0 <= x < top -> free_for_use ba (bitmap_bytes s) (x / PAGE_SIZE) = false -> G (x / PAGE_SIZE)) as HG.
  { intros x Hx Hf. split; [unfold PAGE_SIZE in *; zlia|]. destruct (bitmap_test (bitmap s) (x / PAGE_SIZE)) eqn:E; [done|].
    apply Hbits in E as [E1 E2]; [|unfold PAGE_SIZE in *; zlia]. unfold free_for_use in Hf. by rewrite E1, E2 in Hf. }
  destruct (memory_self_test_passes G h0 [] Hg0) as (F & [h1|msg] & Hrun & Hres).
  2: { exists F, (Panic msg). split; [intros fuel Hf; by rewrite Hrun by done|]. right. exists ba, s. split; [done|]. by left. }
  destruct Hres as [Hg1 (T1 & M1 & F1)]. change (pages h0) with s in T1. change (hmem h0) with m in M1, F1.
  destruct (acpi_init_total (hmem h1) (bi_rsdp bi) ac) as (ac1 & Eac & Hcpu).
  assert (vrange_ok (acpi_lapic_base ac1) PAGE_SIZE) as Hla.
  { apply (Hfw ba s (hmem h1) ac1); [done|by apply M1| |done]. intros x Hx Hf. by apply F1, HG. }
  set (st1 := mk_machine (pages h1) (hmem h1)). pose proof (guarded_wf _ _ _ Hg1) as Hw1.
  assert (pa_top (m_pages st1) * PAGE_SIZE = top) as Et1 by (cbn [st1 m_pages]; rewrite (proj1 T1); exact Et).
  assert (pa_top (m_pages st1) <= 68719476736) as Hlim by (unfold PAGE_SIZE in Et1; lia).
  assert (forall r, (let! (root, st) := Some (vmm_init bi (acpi_lapic_base ac1) st1) in let! st := Some (vmm_self_test bi root st) in
      ret (root, mk_heap (heap_head h1) (m_pages st) (m_mem st), ac1)) = Some r ->
    forall fuel, (F <= fuel)%nat -> (let! h := memory_self_test fuel h0 in let! ac := lift (acpi_init (hmem h) (bi_rsdp bi) ac) in
      let! (root, st) := Some (vmm_init bi (acpi_lapic_base ac) (mk_machine (pages h) (hmem h))) in let! st := Some (vmm_self_test bi root st) in
      ret (root, mk_heap (heap_head h) (m_pages st) (m_mem st), ac)) = Some r) as Hgo.
  { intros r E fuel Hf. rewrite Hrun by done. cbn [eff_bind]. rewrite Eac. exact E. }
  assert (5 + (init_tables bi (acpi_lapic_base ac1) (pa_top (m_pages st1)) + 7) <= boot_pages)%nat as Hbp.
  { unfold init_tables, boot_pages. rewrite Et1. pose proof (range_tables_any _ (proj1 Hla)). lia. }
  pose proof (vmm_init_spec bi (acpi_lapic_base ac1) st1 Hw1 Hlim Hfb Hla) as Hv.
  destruct (vmm_init bi (acpi_lapic_base ac1) st1) as [[root st2]|msg] eqn:Ev.
  2: { exists F, (Panic msg). split; [by apply Hgo|]. right. exists ba, s. split; [done|]. right.
       eapply no_run_mono; [| |exact (no_run_takes _ _ _ _ _ T1 Hv)]; lia. }
  destruct Hv as [Hv T2].
  pose proof (vmm_self_test_passes _ bi root st1 st2 Hv T2 ltac:(by rewrite Et1) Hlim) as Ht. cbn [eff_bind] in Hgo.
  destruct (vmm_self_test bi root st2) as [st3|msg] eqn:Es.
  2: { exists F, (Panic msg). split; [by apply Hgo|]. right. exists ba, s. split; [done|]. right.
       eapply no_run_mono; [| |exact (no_run_takes _ _ _ _ _ T1 Ht)]; lia. }
  eexists F, _. split; [by apply Hgo|].
  destruct Ht as [Bu Hid]. destruct (built_heap G h1 [] root st3 Hg1 Bu) as [Hg3 F3]. split; cbn [pages hmem].
  - by apply (guarded_history G).
  - apply Bu.
  - intros w Hw. rewrite Et1 in Hid.
    apply (identity_translate (mk_machine (m_pages st3) (m_mem st3)) root top); [apply Bu|done|done|lia].
  - by rewrite (bu_top _ _ _ Bu).
  - done.
  - exists ba, s. split; [done|]. intros x Hx Hf. pose proof (HG x Hx Hf) as HGx. split; [by rewrite F3, F1|]. by apply (gd_live _ _ _ Hg3).
Qed.
End BootMemory.

(** ** Properties *)

(** C38: the start of the kernel.  With a null or wrong boot structure it sets up the
    serial line and halts.  Otherwise, on a machine whose memory map is as UEFI
    documents it, the start of memory management ends, and stops the kernel only for
    want of memory ([starved]: no room for the bitmap, no four free pages in a row for
    the memory test, or fewer free pages than the page tables and the tests take): no
    check of a test fails.  The rest of the start then runs with a
    well-formed empty heap, with page tables that are a well-formed tree under which
    all managed memory is mapped to itself, and with every byte outside the free
    memory (the kernel, the initial file system, the boot structure, the firmware's
    tables) as the loader left it, in a page that stays in use. *)
Theorem kernel_entry_starts {D} `{Ports D} {M} `{Mmio M} run_init env n (boot_info : option (BootInfo * Z)) (b : boot (D:=D) (M:=M)) :
  let m := m_mem (k_machine (sy_kernel (bt_system b))) in
  match boot_info with
  | Some (bi, bi_addr) =>
      if bi_magic bi =? ORE_BOOTINFO_MAGIC then
        let top := max_phys_of (boot_descriptors bi) in
        boot_ok bi bi_addr -> mem_ok m -> top <= 281474976710656 -> 0 <= bi_kernel_base bi < top ->
        vrange_ok (fb_base (bi_framebuffer bi)) (fb_bytes (bi_framebuffer bi)) -> firmware_ok bi bi_addr m (bt_acpi b) ->
        exists F, (exists msg, starved bi bi_addr msg /\ forall fuel, (F <= fuel)%nat -> kernel_entry run_init env n fuel boot_info b = Some (Panic msg)) \/
          (exists root h ac, memory_ready bi bi_addr m root h ac /\ forall fuel, (F <= fuel)%nat ->
             kernel_entry run_init env n fuel boot_info b =
             boot_rest run_init env n fuel bi root h ac (boot_descriptors_init env (on_dev serial_init b)))
      else forall fuel, kernel_entry run_init env n fuel boot_info b = ret (Halted (on_dev serial_init b))
  | None => forall fuel, kernel_entry run_init env n fuel boot_info b = ret (Halted (on_dev serial_init b))
  end.
Proof.
  intros m. unfold kernel_entry. destruct boot_info as [[bi bi_addr]|]; [|done]. destruct (bi_magic bi =? ORE_BOOTINFO_MAGIC); cbn [negb]; [|done].
  cbv iota zeta. intros H1 H2 H3 H4 H5 H6. destruct (boot_memory_correct bi bi_addr m (bt_acpi b) H1 H2 H3 H4 H5 H6) as (F & r & Hrun & Hr). exists F.
  destruct r as [[[root h] ac]|msg]; [right; exists root, h, ac|left; exists msg]; (split; [done|]); intros fuel Hf;
    pose proof (Hrun fuel Hf) as E; cbv zeta; unfold boot_descriptors_init, on_dev in *; cbn in *; unfold m in E; rewrite E; reflexivity.
Qed.

(** ** Example: the 1.25 MiB machine of [Pmm] *)

Definition demo_env : boot_env := mk_boot_env 0x100100 0x100200 (fun v => 0x101000 + 16 * v) 0x102000 [0xfa; 0xf4] 0x103000 (fun _ => false) 0x90000.
Definition demo_start : boot (D:=demo_dev) (M:=demo_lapic) :=
  mk_boot (demo_system (mk_machine demo_pmm ∅)) boot_gdt (replicate 256 no_gate) ∅ (mk_acpi [] 0xfee00000) boot_sched
    (mk_demo_lapic 0 [] false) [] [] [].
Definition no_init (_ : Z) (k : kernel (S:=pmm_state) (D:=demo_dev)) : Z * kernel (S:=pmm_state) (D:=demo_dev) := (0, k).

(** Memory suffices there. *)
Example demo_memory_starts :
  match boot_memory 64 demo_boot 0x120000 ∅ (mk_acpi [] 0xfee00000) with Some (Ok _) => true | _ => false end = true.
Proof. vm_compute. reflexivity. Qed.

Lemma demo_firmware_ok : firmware_ok demo_boot 0x120000 ∅ (mk_acpi [] 0xfee00000).
Proof. intros ba s m' ac' _ _ _ E. cbn in E. simplify_eq. unfold vrange_ok, PAGE_SIZE. cbn. lia. Qed.

Lemma demo_not_starved msg : ~ starved demo_boot 0x120000 msg.
Proof.
  unfold starved. rewrite demo_pmm_init. intros [[E _]|(ba & s & E & Hs)]; [discriminate E|].
  assert (s = demo_pmm) as -> by congruence. clear E. revert Hs.
  assert (boot_pages demo_boot = 22%nat) as -> by (vm_compute; reflexivity). intros [[_ Hs]|Hs]; revert Hs.
  - apply (pmm_enough 4 5 0x123); [lia|lia|vm_compute; discriminate|vm_compute; reflexivity].
  - apply (pmm_enough 1 22 0x123); [lia|lia|vm_compute; discriminate|vm_compute; reflexivity].
Qed.

Lemma kernel_entry_starts_witness :
  exists F root h ac, memory_ready demo_boot 0x120000 ∅ root h ac /\ forall fuel, (F <= fuel)%nat ->
       kernel_entry no_init demo_env 0 fuel (Some (demo_boot, 0x120000)) demo_start =
       boot_rest no_init demo_env 0 fuel demo_boot root h ac (boot_descriptors_init demo_env (on_dev serial_init demo_start)).
Proof.
  destruct (kernel_entry_starts no_init demo_env 0 (Some (demo_boot, 0x120000)) demo_start demo_boot_ok empty_mem_ok
           ltac:(vm_compute; discriminate) ltac:(vm_compute; split; [discriminate|reflexivity]) vmm_demo_fb demo_firmware_ok)
    as (F & [(msg & Hs & _)|(root & h & ac & Hm & Hrun)]); [destruct (demo_not_starved msg Hs)|].
  exists F, root, h, ac. split; [exact Hm|exact Hrun].
Defined.
