(* ===== verification/Programs.v ===== *)
(** The small programs (user/cat.c, ls.c, stat.c, echo.c, count.c, hello.c).

    The programs are clients of the system calls: [Os] has the calls they make, with
    an array that a call fills as its value before and after, and [OsOk] states what
    the kernel promises them.  [KernelOs] implements both with the dispatcher of the
    kernel.  An array that a program has not written holds what was on its stack. *)
From stdpp Require Import base numbers list.
From Stdlib Require Import ZArith Lia.
From Stdlib Require Import(notations) Ascii String.
From S2P Require Import Prelude Cstring Block Vfs Serial.

Class Os (W : Type) := {
  os_write : list Z -> W -> Z * W;
  os_args : list Z -> W -> Z * list Z * W;
  os_open : list Z -> W -> Z * W;
  os_read : Z -> list Z -> Z -> W -> Z * list Z * W;
  os_close : Z -> W -> Z * W;
  os_stat : list Z -> W -> option VfsStat * W;
  os_readdir : list Z -> Z -> W -> option VfsStat * W
}.

(** ** The programs *)

Section Programs.
Context {W : Type} `{Os W}.

(** [puts]: up to the terminator. *)
Definition u_puts (s : list Z) (w : W) : W := snd (os_write (until_nul s) w).

(** [putu] fills its buffer of 24 characters from the end; the last is the
    terminator. *)
Fixpoint u_putu_loop (i : nat) (v : Z) (b : list Z) : list Z :=
  match i with
  | O => b
  | S i => if v =? 0 then b else u_putu_loop i (v / 10) (u8 (ch "0" + v mod 10) :: b)
  end.
Definition u_putu (v : Z) (w : W) : W := if v =? 0 then u_puts (bytes_of "0") w else u_puts (u_putu_loop 23 v []) w.

Definition hello_main (w : W) : Z * W := (0, u_puts (bytes_of "hello from /bin/hello" ++ [10]) w).

Definition put_digit (value : Z) (w : W) : W := snd (os_write [u8 (ch "0" + value mod 10)] w).
Definition count_main (w : W) : Z * W :=
  (0, for_loop 5 0 (fun i w => u_puts [10] (put_digit i (u_puts (bytes_of "count ") w))) w).

(** [args] is the array on the stack. *)
Definition echo_main (args : list Z) (w : W) : Z * W :=
  let '(_, args, w) := os_args args w in (0, u_puts [10] (u_puts args w)).

(** [for (;;)] of cat; the result is the last length and the buffer, or the failure
    of a read. *)
Fixpoint cat_loop (fuel : nat) (fd last : Z) (buf : list Z) (w : W) : option (option (Z * list Z) * W) :=
  match fuel with
  | O => None
  | S fuel =>
      let '(n, buf, w) := os_read fd buf (256 - 1) w in
      if n <? 0 then Some (None, snd (os_close fd (u_puts (bytes_of "cat: read failed" ++ [10]) w))) else
      if n =? 0 then Some (Some (last, buf), w) else
      let buf := <[Z.to_nat n := 0]> buf in
      cat_loop fuel fd n buf (u_puts buf w)
  end.

Definition cat_main (fuel : nat) (path buf : list Z) (w : W) : option (Z * W) :=
  let '(n, path, w) := os_args path w in
  if n <=? 0 then Some (1, u_puts (bytes_of "usage: cat <path>" ++ [10]) w) else
  let '(fd, w) := os_open (until_nul path) w in
  if fd <? 0 then Some (1, u_puts (bytes_of "cat: not found" ++ [10]) w) else
  match cat_loop fuel fd 0 buf w with
  | None => None
  | Some (None, w) => Some (1, w)
  | Some (Some (last, buf), w) =>
      let w := if (0 <? last) && negb (nth (Z.to_nat (last - 1)) buf 0 =? 10) then u_puts [10] w else w in
      Some (0, snd (os_close fd w))
  end.

Fixpoint ls_loop (fuel : nat) (path : list Z) (i shown : Z) (w : W) : option (Z * W) :=
  match fuel with
  | O => None
  | S fuel =>
      let '(st, w) := os_readdir (until_nul path) i w in
      match st with
      | None => Some (shown, w)
      | Some st =>
          let w := u_puts (vs_name st) w in
          let w := if vs_type st =? ORE_VFS_DIR then u_puts (bytes_of "/") w else w in
          let w := u_puts [10] (u_putu (vs_size st) (u_puts (bytes_of " ") w)) in
          ls_loop fuel path (u32 (i + 1)) (u32 (shown + 1)) w
      end
  end.
Definition ls_main (fuel : nat) (path : list Z) (w : W) : option (Z * W) :=
  let '(n, path, w) := os_args path w in
  let path := if n <=? 0 then <[1%nat := 0]> (<[0%nat := ch "/"]> path) else path in
  match ls_loop fuel path 0 0 w with
  | None => None
  | Some (shown, w) => Some (0, if shown =? 0 then u_puts (bytes_of "ls: empty or not found" ++ [10]) w else w)
  end.

Definition stat_main (path : list Z) (w : W) : Z * W :=
  let '(n, path, w) := os_args path w in
  if n <=? 0 then (1, u_puts (bytes_of "usage: stat <path>" ++ [10]) w) else
  let '(st, w) := os_stat (until_nul path) w in
  match st with
  | None => (1, u_puts (bytes_of "stat: not found" ++ [10]) w)
  | Some st =>
      let w := u_puts (vs_name st) w in
      let w := u_putu (vs_type st) (u_puts (bytes_of " type=") w) in
      let w := u_putu (vs_size st) (u_puts (bytes_of " size=") w) in
      (0, u_puts [10] w)
  end.
End Programs.

(** ** What the kernel promises *)

(** The observations of a program: the text that was written, its arguments, the
    files and directories, and its open files with their positions. *)
Class OsOk (W : Type) `{Os W} := {
  os_ok : W -> Prop;
  os_out : W -> list Z;
  os_arg : W -> list Z;
  os_find : W -> list Z -> option VfsStat;
  os_file : W -> list Z -> option (list Z);
  os_dir : W -> list Z -> list VfsStat;
  os_handle : W -> Z -> option (list Z * Z);
  os_can_open : W -> Prop;
  os_same w w' := os_ok w' /\ os_arg w' = os_arg w /\ (forall p, os_find w' p = os_find w p) /\
    (forall p, os_file w' p = os_file w p) /\ (forall p, os_dir w' p = os_dir w p);
  os_quiet w w' := os_same w w' /\ os_out w' = os_out w /\ (forall fd, os_handle w' fd = os_handle w fd) /\ (os_can_open w -> os_can_open w');
  os_arg_string w : os_ok w -> cstring (os_arg w) /\ (length (os_arg w) <= 127)%nat;
  os_find_stat w p st : os_ok w -> cstring p -> os_find w p = Some st ->
    cstring (vs_name st) /\ (length (vs_name st) <= 127)%nat /\ word32 (vs_type st) /\ word64 (vs_size st);
  os_dir_stat w p st : os_ok w -> st ∈ os_dir w p ->
    cstring (vs_name st) /\ (length (vs_name st) <= 127)%nat /\ word32 (vs_type st) /\ word64 (vs_size st);
  os_dir_length w p : os_ok w -> Z.of_nat (length (os_dir w p)) < 4294967295;
  os_file_found w p c : os_ok w -> os_file w p = Some c -> Forall byte_ok c /\ exists st, os_find w p = Some st;
  os_write_ok s w : os_ok w -> Forall byte_ok s -> (length s <= 256)%nat ->
    exists w', os_write s w = (Z.of_nat (length s), w') /\ os_same w w' /\ os_out w' = os_out w ++ crlf s /\
      (forall fd, os_handle w' fd = os_handle w fd) /\ (os_can_open w -> os_can_open w');
  os_args_ok buf w : os_ok w -> length buf = 128%nat -> Forall byte_ok buf ->
    exists w', os_args buf w = (Z.of_nat (length (os_arg w)), os_arg w ++ [0] ++ drop (length (os_arg w) + 1) buf, w') /\ os_quiet w w';
  os_open_ok p w : os_ok w -> cstring p -> (length p <= 126)%nat ->
    exists fd w', os_open p w = (fd, w') /\
      match os_find w p with
      | Some _ => os_can_open w -> 0 <= fd /\ os_same w w' /\ os_out w' = os_out w /\ os_handle w fd = None /\
          (forall fd', os_handle w' fd' = if fd' =? fd then Some (p, 0) else os_handle w fd')
      | None => fd < 0 /\ os_quiet w w'
      end;
  os_read_ok fd buf n p off c w : os_ok w -> 0 <= fd -> os_handle w fd = Some (p, off) -> os_file w p = Some c -> 0 <= off ->
    0 < n <= Z.of_nat (length buf) -> (length buf <= 256)%nat -> Forall byte_ok buf ->
    let out := read_of c off n in
    exists w', os_read fd buf n w = (Z.of_nat (length out), out ++ drop (length out) buf, w') /\ os_same w w' /\ os_out w' = os_out w /\
      (forall fd', os_handle w' fd' = if fd' =? fd then Some (p, off + Z.of_nat (length out)) else os_handle w fd');
  os_close_ok fd p off w : os_ok w -> 0 <= fd -> os_handle w fd = Some (p, off) ->
    exists w', os_close fd w = (0, w') /\ os_same w w' /\ os_out w' = os_out w /\
      (forall fd', os_handle w' fd' = if fd' =? fd then None else os_handle w fd');
  os_stat_ok p w : os_ok w -> cstring p -> (length p <= 126)%nat -> exists w', os_stat p w = (os_find w p, w') /\ os_quiet w w';
  os_readdir_ok p i w : os_ok w -> cstring p -> (length p <= 126)%nat -> word32 i ->
    exists w', os_readdir p i w = (os_dir w p !! Z.to_nat i, w') /\ os_quiet w w'
}.

(** ** Lemmas *)

Lemma until_nul_string s r : Forall (fun c => c <> 0) s -> until_nul (s ++ 0 :: r) = s.
Proof. induction 1 as [|c s Hc Hs IH]; [done|]. cbn. by rewrite (proj2 (Z.eqb_neq c 0)), IH. Qed.
Lemma until_nul_all s : Forall (fun c => c <> 0) s -> until_nul s = s.
Proof. induction 1 as [|c s Hc Hs IH]; [done|]. cbn. by rewrite (proj2 (Z.eqb_neq c 0)), IH. Qed.
Lemma cstring_nonzero s : cstring s -> Forall (fun c => c <> 0) s.
Proof. intros Hs. eapply Forall_impl; [exact Hs|]. by intros c [_ Hc]. Qed.
Lemma cstring_bytes s : cstring s -> Forall byte_ok s.
Proof. intros Hs. eapply Forall_impl; [exact Hs|]. by intros c [Hc _]. Qed.

(** Text of a literal. *)
Definition literal (s : list Z) : bool := forallb (fun c => (0 <? c) && (c <? 256)) s && (length s <=? 256)%nat.
Lemma literal_cstring s : literal s = true -> cstring s /\ (length s <= 256)%nat.
Proof.
  unfold literal. rewrite andb_true_iff, forallb_forall, Nat.leb_le. intros [Hs Hl]. split; [|done].
  apply Forall_forall. intros c Hc%list_elem_of_In. apply Hs, andb_prop in Hc as [?%Z.ltb_lt ?%Z.ltb_lt]. unfold byte_ok. lia.
Qed.

Lemma u_putu_digits i fuel v acc :
  0 < v < 10 ^ Z.of_nat i -> (i <= fuel)%nat -> u_putu_loop i v (map (Z.add 48) acc) = map (Z.add 48) (digits_from fuel 10 v acc).
Proof.
  revert fuel v acc. induction i as [|i IH]; intros fuel v acc Hv Hf; [simpl in Hv; lia|]. destruct fuel as [|fuel]; [lia|].
  cbn [u_putu_loop digits_from]. rewrite (proj2 (Z.eqb_neq v 0)) by lia. rewrite Nat2Z.inj_succ, Z.pow_succ_r in Hv by lia.
  assert (u8 (ch "0" + v mod 10) = 48 + v mod 10) as -> by (change (ch "0") with 48; unfold u8; zlia).
  change (48 + v mod 10 :: map (Z.add 48) acc) with (map (Z.add 48) (v mod 10 :: acc)). destruct (Z.ltb_spec v 10).
  - rewrite Z.div_small, Z.mod_small by lia. by destruct i.
  - apply IH; [zlia|lia].
Qed.

Definition decimal_text (v : Z) : list Z := map (Z.add 48) (digits 10 v).

Lemma digits_from_length b fuel n acc : (length (digits_from fuel b n acc) <= fuel + length acc)%nat.
Proof.
  revert n acc. induction fuel as [|fuel IH]; intros n acc; cbn [digits_from]; [lia|]. case_test; [cbn; lia|].
  etrans; [apply IH|]. cbn. lia.
Qed.

Lemma decimal_cstring v : 0 <= v -> cstring (decimal_text v).
Proof.
  intros Hv. apply Forall_fmap. eapply Forall_impl; [apply (digits_range 10 v); lia|]. intros d Hd. cbn in *. unfold byte_ok. lia.
Qed.

Lemma last_take_drop (c : list Z) k : (0 < k <= length c)%nat -> nth (k - 1) c 0 = List.last (take k c) 0.
Proof.
  intros Hk. destruct k as [|k]; [lia|]. destruct (lookup_lt_is_Some_2 c k) as [x Hx]; [lia|].
  rewrite (take_S_r _ _ x Hx), last_last. replace (S k - 1)%nat with k by lia. by apply nth_lookup_Some.
Qed.

Section Clients.
Context {W : Type} `{OsOk W}.
Implicit Types w : W.

(** [w'] is [w] after writing the text [s]. *)
Definition says (s : list Z) w w' : Prop :=
  os_same w w' /\ os_out w' = os_out w ++ crlf s /\ (forall fd, os_handle w' fd = os_handle w fd) /\ (os_can_open w -> os_can_open w').

Lemma same_refl w : os_ok w -> os_same w w.
Proof. by intros Hw. Qed.
Lemma same_trans w1 w2 w3 : os_same w1 w2 -> os_same w2 w3 -> os_same w1 w3.
Proof.
  intros (A1 & A2 & A3 & A4 & A5) (B1 & B2 & B3 & B4 & B5). split; [done|]. split; [congruence|].
  split; [intros p; by rewrite B3|]. split; intros p; [by rewrite B4|by rewrite B5].
Qed.
Lemma says_nil w w' : os_quiet w w' <-> says [] w w'.
Proof. unfold says, os_quiet. change (crlf []) with (@nil Z). by rewrite app_nil_r. Qed.
Lemma says_app s r w1 w2 w3 : says s w1 w2 -> says r w2 w3 -> says (s ++ r) w1 w3.
Proof.
  intros (A1 & A2 & A3 & A4) (B1 & B2 & B3 & B4). split; [by eapply same_trans|].
  split; [by rewrite B2, A2, crlf_app, app_assoc|]. split; [intros fd; by rewrite B3|auto].
Qed.
Lemma says_ok s w w' : says s w w' -> os_ok w'.
Proof. by intros [[? _] _]. Qed.

Lemma u_puts_ok s w : os_ok w -> cstring s -> (length s <= 256)%nat -> says s w (u_puts s w).
Proof.
  intros Hw Hs Hl. unfold u_puts. rewrite until_nul_all by (by apply cstring_nonzero).
  destruct (os_write_ok s w) as (w' & -> & Hr); [done|by apply cstring_bytes|done|done].
Qed.

Lemma puts_literal s w : os_ok w -> literal s = true -> says s w (u_puts s w).
Proof. intros Hw [Hs Hl]%literal_cstring. by apply u_puts_ok. Qed.

Lemma u_putu_ok v w : os_ok w -> word64 v -> says (decimal_text v) w (u_putu v w).
Proof.
  intros Hw Hv. unfold u_putu. case_test; [assert (v = 0) as -> by lia; by apply puts_literal|].
  assert (u_putu_loop 23 v [] = decimal_text v) as ->.
  { apply (u_putu_digits 23 64 v []); [|lia]. unfold word64 in Hv. change (10 ^ Z.of_nat 23) with 100000000000000000000000. lia. }
  apply u_puts_ok; [done|apply decimal_cstring; unfold word64 in Hv; lia|]. unfold decimal_text. rewrite length_map.
  etrans; [apply digits_from_length|]. cbn. lia.
Qed.

(** *** cat *)

(** The text that cat prints for a file: a newline is added at the end. *)
Definition cat_text (c : list Z) : list Z :=
  c ++ (if negb (bool_decide (c = [])) && negb (List.last c 0 =? 10) then [10] else []).

(** The state while cat reads: [off] bytes of the file have been printed. *)
Lemma cat_loop_prints fd p c fuel off last buf w :
  os_ok w -> 0 <= fd -> os_file w p = Some c -> Forall (fun x => x <> 0) c ->
  os_handle w fd = Some (p, Z.of_nat off) -> length buf = 256%nat -> Forall byte_ok buf -> (off <= length c)%nat ->
  (length c - off < fuel)%nat ->
  (off = O /\ last = 0 \/ off <> O /\ 0 < last /\ nth (Z.to_nat (last - 1)) buf 0 = List.last (take off c) 0) ->
  exists last' buf' w', cat_loop fuel fd last buf w = Some (Some (last', buf'), w') /\
    os_same w w' /\ os_out w' = os_out w ++ crlf (drop off c) /\
    (forall fd', os_handle w' fd' = if fd' =? fd then Some (p, Z.of_nat (length c)) else os_handle w fd') /\
    (if bool_decide (c = []) then last' = 0 else 0 < last' /\ nth (Z.to_nat (last' - 1)) buf' 0 = List.last c 0).
Proof.
  revert off last buf w. induction fuel as [|fuel IH]; intros off last buf w Hw Hfd Hc Hz Hh Hbl Hbb Hoff Hf Hlast; [lia|].
  cbn [cat_loop]. destruct (os_read_ok fd buf 255 p (Z.of_nat off) c w) as (w1 & Er & Hs1 & Ho1 & Hh1); [done|done|done|done|lia|lia|lia|done|].
  cbv zeta in *. change (256 - 1) with 255. rewrite Er. clear Er.
  set (out := read_of c (Z.of_nat off) 255) in *.
  assert (out = take 255 (drop off c)) as Eout by (unfold out, read_of; by rewrite Nat2Z.id).
  assert (length out = Nat.min 255 (length c - off)) as Elen by (rewrite Eout, length_take, length_drop; lia).
  rewrite (proj2 (Z.ltb_ge _ 0)) by lia. destruct (Z.eqb_spec (Z.of_nat (length out)) 0) as [E0|E0].
  - assert (off = length c) as -> by lia. exists last, (out ++ drop (length out) buf), w1. split; [done|]. split; [done|].
    rewrite drop_all. split; [by rewrite Ho1, app_nil_r|]. split; [intros fd'; rewrite Hh1; case_test; [do 2 f_equal; lia|done]|].
    assert (out = []) as -> by (apply nil_length_inv; lia). cbn [app length]. rewrite drop_0, take_ge in * by done.
    destruct Hlast as [[Hl ->]|Hl]; [rewrite bool_decide_true by (by apply nil_length_inv); done|].
    case_bool_decide as Ec; [|tauto]. subst c. by destruct Hl as [Hl _].
  - assert (out = take (length out) (drop off c)) as Eout'.
    { rewrite Elen, Eout. destruct (Nat.le_gt_cases 255 (length c - off)); [by rewrite Nat.min_l by lia|].
      rewrite !take_ge; [done|rewrite length_drop; lia..]. }
    set (n := length out) in *.
    assert (<[Z.to_nat (Z.of_nat n) := 0]> (out ++ drop n buf) = out ++ 0 :: drop (n + 1) buf) as ->.
    { rewrite Nat2Z.id. destruct (lookup_lt_is_Some_2 buf n) as [x Hx]; [lia|]. rewrite (drop_S _ _ _ Hx).
      rewrite insert_app_r_alt, Nat.sub_diag by done. cbn. do 3 f_equal. lia. }
    assert (Forall (fun x => x <> 0) out) as Hoz by (rewrite Eout; by apply Forall_take, Forall_drop).
    destruct (os_file_found w p c Hw Hc) as [Hcb _].
    assert (Forall byte_ok out) as Hob by (rewrite Eout; by apply Forall_take, Forall_drop).
    assert (says out w1 (u_puts (out ++ 0 :: drop (n + 1) buf) w1)) as Hsay.
    { unfold u_puts. rewrite until_nul_string by done. destruct (os_write_ok out w1) as (w2 & -> & Hr); [apply Hs1|done|lia|done]. }
    set (w2 := u_puts _ w1) in *. destruct Hsay as (Hs2 & Ho2 & Hh2 & _).
    destruct (IH (off + n)%nat (Z.of_nat n) (out ++ 0 :: drop (n + 1) buf) w2) as (last' & buf' & w' & E & Hs' & Ho' & Hh' & Hl').
    + apply Hs2.
    + done.
    + destruct Hs2 as (_ & _ & _ & -> & _). destruct Hs1 as (_ & _ & _ & -> & _). done.
    + done.
    + rewrite Hh2, Hh1, Z.eqb_refl. do 2 f_equal. lia.
    + rewrite length_app. cbn. rewrite length_drop. lia.
    + apply Forall_app; split; [done|]. apply Forall_cons; split; [unfold byte_ok; lia|by apply Forall_drop].
    + lia.
    + lia.
    + right. split; [lia|]. split; [lia|]. replace (Z.to_nat (Z.of_nat n - 1)) with (n - 1)%nat by lia. rewrite app_nth1 by lia.
      rewrite <- take_take_drop, <- Eout'.
      destruct (exists_last_or_nil out) as [->|(o & x & Eo)]; [cbn in n; lia|]. rewrite Eo, app_assoc, last_last.
      unfold n. rewrite Eo, length_app. cbn. rewrite app_nth2 by lia. by replace (length o + 1 - 1 - length o)%nat with O by lia.
    + exists last', buf', w'. split; [done|]. split; [eapply same_trans; [exact Hs1|eapply same_trans; [exact Hs2|exact Hs']]|].
      split.
      { rewrite Ho', Ho2, Ho1, <- app_assoc, <- crlf_app. f_equal. f_equal. rewrite <- drop_drop.
        rewrite Eout' at 1. apply take_drop. }
      split; [|done]. intros fd'. rewrite Hh', Hh2, Hh1. by case_test.
Qed.

(** The argument in its array. *)
Lemma args_string w buf : os_ok w -> length buf = 128%nat -> Forall byte_ok buf ->
  exists buf' w', os_args buf w = (Z.of_nat (length (os_arg w)), buf', w') /\ says [] w w' /\ until_nul buf' = os_arg w /\
    length buf' = 128%nat.
Proof.
  intros Hw Hb Hby. destruct (os_args_ok buf w) as (w' & E & Hq); [done..|]. destruct (os_arg_string w Hw) as [Hs Hl].
  eexists _, w'. split; [exact E|]. split; [by apply says_nil|]. split; [by apply until_nul_string, cstring_nonzero|].
  rewrite !length_app, length_drop. cbn. lia.
Qed.

(** *** ls *)

Definition entry_line (st : VfsStat) : list Z :=
  vs_name st ++ (if vs_type st =? ORE_VFS_DIR then [47] else []) ++ [32] ++ decimal_text (vs_size st) ++ [10].

Lemma entry_printed st w :
  os_ok w -> cstring (vs_name st) -> (length (vs_name st) <= 127)%nat -> word64 (vs_size st) ->
  says (entry_line st) w (u_puts [10] (u_putu (vs_size st) (u_puts (bytes_of " ")
    (let w := u_puts (vs_name st) w in if vs_type st =? ORE_VFS_DIR then u_puts (bytes_of "/") w else w)))).
Proof.
  intros Hw Hn Hl Hz. pose proof (u_puts_ok (vs_name st) w Hw Hn ltac:(lia)) as H1. set (w1 := u_puts _ w) in *. cbv zeta.
  assert (says (if vs_type st =? ORE_VFS_DIR then [47] else []) w1 (if vs_type st =? ORE_VFS_DIR then u_puts (bytes_of "/") w1 else w1)) as H2.
  { case_test; [apply (puts_literal (bytes_of "/")); [by eapply says_ok|done]|].
    apply says_nil. split; [apply same_refl; by eapply says_ok|done]. }
  set (w2 := if vs_type st =? ORE_VFS_DIR then u_puts (bytes_of "/") w1 else w1) in *.
  pose proof (puts_literal (bytes_of " ") w2 (says_ok _ _ _ H2) eq_refl) as H3. set (w3 := u_puts _ w2) in *.
  pose proof (u_putu_ok (vs_size st) w3 (says_ok _ _ _ H3) Hz) as H4. set (w4 := u_putu _ w3) in *.
  pose proof (puts_literal [10] w4 (says_ok _ _ _ H4) eq_refl) as H5.
  eapply says_app; [exact H1|]. eapply says_app; [exact H2|]. eapply says_app; [exact H3|]. eapply says_app; [exact H4|exact H5].
Qed.

Lemma ls_loop_lists path p l fuel i w :
  os_ok w -> until_nul path = p -> cstring p -> (length p <= 126)%nat -> drop i (os_dir w p) = l -> (i <= length (os_dir w p))%nat ->
  (length l < fuel)%nat ->
  exists w', ls_loop fuel path (Z.of_nat i) (Z.of_nat i) w = Some (Z.of_nat (i + length l), w') /\ says (flat_map entry_line l) w w'.
Proof.
  intros Hw Hp Hs Hl. revert i l w Hw. induction fuel as [|fuel IH]; intros i l w Hw Hd Hi Hf; [lia|]. cbn [ls_loop]. rewrite Hp.
  pose proof (os_dir_length w p Hw) as Hlen.
  destruct (os_readdir_ok p (Z.of_nat i) w) as (w1 & -> & Hq%says_nil); [done..|unfold word32; lia|]. rewrite Nat2Z.id.
  destruct l as [|st l].
  - rewrite lookup_ge_None_2; [exists w1; rewrite Nat.add_0_r; done|]. apply (f_equal length) in Hd. rewrite length_drop in Hd. cbn in Hd. lia.
  - assert (os_dir w p !! i = Some st) as Est by (rewrite <- (Nat.add_0_r i), <- lookup_drop, Hd; done). rewrite Est.
    destruct (os_dir_stat w p st Hw) as (Hn & Hnl & _ & Hz); [by eapply list_elem_of_lookup_2|].
    pose proof (entry_printed st w1 (says_ok _ _ _ Hq) Hn Hnl Hz) as Hline. cbv zeta in Hline. set (w2 := u_puts [10] _) in *.
    assert (os_dir w2 p = os_dir w p) as Ed.
    { destruct Hline as [(_ & _ & _ & _ & ->) _]. by destruct Hq as [(_ & _ & _ & _ & ->) _]. }
    pose proof (lookup_lt_Some _ _ _ Est) as Hlt. rewrite (drop_S _ _ _ Est) in Hd. injection Hd as Hd.
    destruct (IH (S i) l w2) as (w' & E & Hrest); [by eapply says_ok|by rewrite Ed|rewrite Ed; lia|cbn in Hf; lia|].
    rewrite !u32_small by (unfold word32; lia). replace (Z.of_nat i + 1) with (Z.of_nat (S i)) by lia. rewrite E.
    exists w'. split; [do 2 f_equal; cbn; lia|]. cbn [flat_map]. change (entry_line st ++ flat_map entry_line l) with ([] ++ entry_line st ++ flat_map entry_line l).
    eapply says_app; [exact Hq|]. eapply says_app; [exact Hline|exact Hrest].
Qed.

(** ** Properties *)

(** cat of a file without null bytes writes exactly its contents, and a newline
    if they do not end with one, and leaves the files and the open files of the
    program as they were; it ends after at most as many reads as the file has
    bytes.  For a path that does not exist it says so and returns 1. *)
Theorem cat_prints fuel path buf w :
  let p := os_arg w in
  os_ok w -> length path = 128%nat -> Forall byte_ok path -> length buf = 256%nat -> Forall byte_ok buf -> p <> [] -> (length p <= 126)%nat ->
  (forall c, os_file w p = Some c -> Forall (fun x => x <> 0) c -> os_can_open w -> (length c < fuel)%nat ->
     exists w', cat_main fuel path buf w = Some (0, w') /\ os_same w w' /\ os_out w' = os_out w ++ crlf (cat_text c) /\
       forall fd, os_handle w' fd = os_handle w fd) /\
  (os_find w p = None -> exists w', cat_main fuel path buf w = Some (1, w') /\ says (bytes_of "cat: not found" ++ [10]) w w').
Proof.
  intros p Hw Hpl Hpb Hbl Hbb Hne Hlen. unfold cat_main.
  destruct (args_string w path) as (path' & w1 & -> & Hq & Hun & _); [done..|]. fold p in Hun |- *.
  assert (0 < Z.of_nat (length p)) as Hpos by (destruct p; cbn; lia || done). rewrite (proj2 (Z.leb_gt _ 0)) by lia. rewrite Hun.
  destruct (os_arg_string w Hw) as [Hps _]. fold p in Hps.
  destruct (os_open_ok p w1) as (fd & w2 & -> & Ho); [by eapply says_ok|done|done|].
  destruct Hq as (Hs1 & Ho1 & Hh1 & Hc1). pose proof Hs1 as (Hok1 & _ & Hf1 & Hfi1 & _). rewrite app_nil_r in Ho1. rewrite Hf1 in Ho. split.
  - intros c Hc Hz Hcan Hfuel. destruct (os_file_found w p c Hw Hc) as [_ [st Est]]. rewrite Est in Ho.
    destruct (Ho (Hc1 Hcan)) as (Hfd & Hs2 & Ho2 & Hnone & Hh2). rewrite (proj2 (Z.ltb_ge fd 0)) by done.
    pose proof Hs2 as (Hok2 & _ & _ & Hfi2 & _).
    destruct (cat_loop_prints fd p c fuel 0 0 buf w2) as (last & buf' & w3 & -> & Hs3 & Ho3 & Hh3 & Hl3);
      [done|done|by rewrite Hfi2, Hfi1|done|by rewrite Hh2, Z.eqb_refl|done|done|lia|lia|by left|].
    set (w4 := if (0 <? last) && negb (nth (Z.to_nat (last - 1)) buf' 0 =? 10) then u_puts [10] w3 else w3).
    assert (says (if negb (bool_decide (c = [])) && negb (List.last c 0 =? 10) then [10] else []) w3 w4) as Hs4.
    { unfold w4. case_bool_decide as Ec; cbn [negb andb].
      - subst last. apply says_nil. split; [apply same_refl, Hs3|done].
      - destruct Hl3 as [Hl Hn]. rewrite (proj2 (Z.ltb_lt 0 last)), Hn by done. cbn [andb].
        destruct (negb (List.last c 0 =? 10)); [apply puts_literal; [apply Hs3|done]|]. apply says_nil. split; [apply same_refl, Hs3|done]. }
    destruct Hs4 as (Hs4 & Ho4 & Hh4 & _).
    destruct (os_close_ok fd p (Z.of_nat (length c)) w4) as (w5 & -> & Hs5 & Ho5 & Hh5); [apply Hs4|done|by rewrite Hh4, Hh3, Z.eqb_refl|].
    exists w5. split; [done|]. split; [do 4 (eapply same_trans; [eassumption|]); done|].
    split; [by rewrite Ho5, Ho4, Ho3, Ho2, Ho1, drop_0, <- app_assoc, <- crlf_app|].
    intros fd'. rewrite Hh5. destruct (Z.eqb_spec fd' fd) as [->|Hn]; [by rewrite <- Hh1, Hnone|].
    by rewrite Hh4, Hh3, (proj2 (Z.eqb_neq _ _)), Hh2, (proj2 (Z.eqb_neq _ _)), Hh1.
  - intros Hn. rewrite Hn in Ho. destruct Ho as [Hneg Hq2%says_nil]. rewrite (proj2 (Z.ltb_lt fd 0)) by done. eexists. split; [done|].
    change (bytes_of "cat: not found" ++ [10]) with ([] ++ [] ++ bytes_of "cat: not found" ++ [10]) at 1.
    eapply says_app; [|eapply says_app; [exact Hq2|apply puts_literal; [by eapply says_ok|done]]].
    split; [done|]. by rewrite Ho1, app_nil_r.
Qed.

(** ls writes one line for each entry of the directory, in order, with a slash
    after the name of a directory and the size in decimal; for a directory without
    entries it says so.  Without an argument it lists the root. *)
Theorem ls_lists fuel path w :
  let p := if decide (os_arg w = []) then [47] else os_arg w in
  os_ok w -> length path = 128%nat -> Forall byte_ok path -> (length p <= 126)%nat -> (length (os_dir w p) < fuel)%nat ->
  exists w', ls_main fuel path w = Some (0, w') /\
    says (if decide (os_dir w p = []) then bytes_of "ls: empty or not found" ++ [10] else flat_map entry_line (os_dir w p)) w w'.
Proof.
  intros p Hw Hl Hb Hp Hf. unfold ls_main. destruct (args_string w path) as (path' & w1 & -> & Hq & Hun & Hlen'); [done..|].
  destruct (os_arg_string w Hw) as [Hs _]. set (path2 := if _ <=? 0 then _ else path').
  assert (until_nul path2 = p /\ cstring p) as [Hp2 Hps].
  { unfold path2, p. destruct (decide (os_arg w = [])) as [E|E].
    - rewrite E. cbn. do 2 (destruct path' as [|? path']; [done|]). split; [done|]. by apply (literal_cstring [47]).
    - rewrite (proj2 (Z.leb_gt _ 0)); [done|]. destruct (os_arg w); cbn; lia || done. }
  pose proof Hq as [(_ & _ & _ & _ & Hd1) _].
  destruct (ls_loop_lists path2 p (os_dir w p) fuel 0 w1) as (w2 & E & Hs2);
    [by eapply says_ok|done|done|done|by rewrite Hd1, drop_0|lia|done|].
  change (Z.of_nat 0) with 0 in E. rewrite E. clear E. cbn [Nat.add]. eexists. split; [done|].
  destruct (decide (os_dir w p = [])) as [Ed|Ed].
  - rewrite Ed in *. cbn [length Z.of_nat Z.eqb flat_map] in *.
    change (bytes_of "ls: empty or not found" ++ [10]) with ([] ++ [] ++ bytes_of "ls: empty or not found" ++ [10]) at 1.
    eapply says_app; [exact Hq|]. eapply says_app; [exact Hs2|]. apply puts_literal; [by eapply says_ok|done].
  - rewrite (proj2 (Z.eqb_neq _ 0)) by (destruct (os_dir w p); cbn; lia || done).
    change (flat_map entry_line (os_dir w p)) with ([] ++ flat_map entry_line (os_dir w p)). by eapply says_app.
Qed.

(** stat writes the name, the type and the size of a path that exists, and says
    that one that does not was not found; echo writes its arguments and count its
    five lines. *)
Theorem small_programs_print path w :
  os_ok w -> length path = 128%nat -> Forall byte_ok path ->
  (os_arg w <> [] -> (length (os_arg w) <= 126)%nat ->
   match os_find w (os_arg w) with
   | Some st => exists w', stat_main path w = (0, w') /\
       says (vs_name st ++ bytes_of " type=" ++ decimal_text (vs_type st) ++ bytes_of " size=" ++ decimal_text (vs_size st) ++ [10]) w w'
   | None => exists w', stat_main path w = (1, w') /\ says (bytes_of "stat: not found" ++ [10]) w w'
   end) /\
  (exists w', echo_main path w = (0, w') /\ says (os_arg w ++ [10]) w w') /\
  (exists w', count_main w = (0, w') /\ says (flat_map (fun d => bytes_of "count " ++ decimal_text d ++ [10]) (seqZ 0 5)) w w').
Proof.
  intros Hw Hl Hb. destruct (args_string w path) as (path' & w1 & Ea & Hq & Hun & _); [done..|].
  destruct (os_arg_string w Hw) as [Hs Hsl]. split; [|split].
  - intros Hne Hlen. unfold stat_main. rewrite Ea, Hun.
    rewrite (proj2 (Z.leb_gt _ 0)) by (destruct (os_arg w); cbn; lia || done).
    destruct (os_stat_ok (os_arg w) w1) as (w2 & -> & Hq2%says_nil); [by eapply says_ok|done|done|].
    pose proof Hq as [(_ & _ & Hf & _) _]. rewrite Hf. pose proof (says_app _ _ _ _ _ Hq Hq2) as H0'. cbn [app] in H0'.
    pose proof (says_ok _ _ _ H0') as Hok. destruct (os_find w (os_arg w)) as [st|] eqn:Est.
    + destruct (os_find_stat w _ st Hw Hs Est) as (Hn & Hnl & Ht & Hz). eexists. split; [done|].
      apply (says_app [] _ _ _ _ H0'). apply (says_app _ _ _ _ _ (u_puts_ok (vs_name st) w2 Hok Hn ltac:(lia))).
      eapply says_app; [apply puts_literal; [|done]; eapply says_ok, u_puts_ok; [done|done|lia]|].
      eapply says_app; [apply u_putu_ok; [|unfold word64, word32 in *; lia]|].
      { eapply says_ok, puts_literal; [|done]. eapply says_ok, u_puts_ok; [done|done|lia]. }
      set (w3 := u_putu (vs_type st) _). assert (os_ok w3) as Hok3.
      { eapply says_ok, u_putu_ok; [|unfold word64, word32 in *; lia]. eapply says_ok, puts_literal; [|done]. eapply says_ok, u_puts_ok; [done|done|lia]. }
      pose proof (puts_literal (bytes_of " size=") w3 Hok3 eq_refl) as H4. eapply says_app; [exact H4|].
      pose proof (u_putu_ok (vs_size st) _ (says_ok _ _ _ H4) Hz) as H5. eapply says_app; [exact H5|].
      apply puts_literal; [by eapply says_ok|done].
    + eexists. split; [done|]. apply (says_app [] _ _ _ _ H0'). by apply puts_literal.
  - unfold echo_main. rewrite Ea. eexists. split; [done|]. apply (says_app [] _ _ _ _ Hq).
    assert (says (os_arg w) w1 (u_puts path' w1)) as H1.
    { unfold u_puts. rewrite Hun. destruct (os_write_ok (os_arg w) w1) as (w2 & -> & Hr); [by eapply says_ok|by apply cstring_bytes|lia|done]. }
    eapply says_app; [exact H1|]. apply puts_literal; [by eapply says_ok|done].
  - eexists. split; [done|]. change (seqZ 0 5) with [0; 1; 2; 3; 4]. cbn [for_loop flat_map].
    assert (forall d w, os_ok w -> 0 <= d < 10 -> says (bytes_of "count " ++ decimal_text d ++ [10]) w (u_puts [10] (put_digit d (u_puts (bytes_of "count ") w)))) as Hd.
    { clear. intros d w Hw Hd. pose proof (puts_literal (bytes_of "count ") w Hw eq_refl) as H1. set (w1 := u_puts _ w) in *.
      eapply says_app; [exact H1|]. assert (says (decimal_text d) w1 (put_digit d w1)) as H2.
      { unfold put_digit. assert (u8 (ch "0" + d mod 10) = 48 + d) as -> by (change (ch "0") with 48; unfold u8; zlia).
        replace (decimal_text d) with [48 + d] by (unfold decimal_text, digits; cbn [digits_from]; by rewrite (proj2 (Z.ltb_lt d 10)) by lia).
        destruct (os_write_ok [48 + d] w1) as (w2 & -> & Hr); [by eapply says_ok|apply Forall_singleton; unfold byte_ok; lia|cbn; lia|done]. }
      eapply says_app; [exact H2|]. apply puts_literal; [by eapply says_ok|done]. }
    pose proof (Hd 0 w Hw ltac:(lia)) as D0. pose proof (Hd 1 _ (says_ok _ _ _ D0) ltac:(lia)) as D1.
    pose proof (Hd 2 _ (says_ok _ _ _ D1) ltac:(lia)) as D2. pose proof (Hd 3 _ (says_ok _ _ _ D2) ltac:(lia)) as D3.
    pose proof (Hd 4 _ (says_ok _ _ _ D3) ltac:(lia)) as D4. rewrite app_nil_r. do 3 (eapply says_app; [eassumption|]). eapply says_app; [exact D3|exact D4].
Qed.
End Clients.

(** A null byte ends what cat writes of a piece of the file. *)
Theorem cat_stops_at_null {W} `{Os W} s r (w : W) : Forall (fun c => c <> 0) s -> u_puts (s ++ 0 :: r) w = u_puts s w.
Proof. intros Hs. unfold u_puts. by rewrite until_nul_string, until_nul_all. Qed.
