(* ===== verification/KernelOs.v ===== *)
(** The kernel as the operating system of the small programs.

    A program keeps its arrays in an area of its memory: the string arguments at the
    start, the buffers behind it.  A system call of a program stores the argument
    arrays there, enters the dispatcher, and reads the arrays that the kernel
    fills.  [kernel_os_ok] discharges what [Programs] relies on, so that the programs
    print what their theorems say when they run on the kernel: the chain goes from
    the archive in memory through the file system, the dispatcher and the user
    memory to the serial line. *)
From stdpp Require Import base numbers list gmap strings.
From Stdlib Require Import ZArith Lia.
From S2P Require Import Prelude Memory PageAllocator BootInfo Pmm Heap Vmm Process Usermem Elf Loader.
From S2P Require Import Cstring Ports Block Initramfs Vfs UserAlloc Control Syscall Abi.
From S2P Require Import Serial Net Okmod Terrain Console Terminal Keyboard Dispatch Programs.

(** Little-endian value of a field. *)
Fixpoint le_value (bs : list Z) : Z := match bs with [] => 0 | b :: bs => b + 256 * le_value bs end.
Lemma le_value_bytes k v : 0 <= v < 256 ^ Z.of_nat k -> le_value (le_bytes k v) = v.
Proof.
  revert v. induction k as [|k IH]; intros v Hv; cbn [le_bytes le_value]; [simpl in Hv; lia|].
  rewrite Nat2Z.inj_succ, Z.pow_succ_r in Hv by lia. rewrite IH by zlia. unfold u8. zlia.
Qed.

(** The fields of [OreVfsStat] that the programs read. *)
Definition SIZEOF_STAT : nat := 144.
Definition decode_stat (bs : list Z) : VfsStat :=
  mk_stat (until_nul (take 128 bs)) (le_value (take 4 (drop 128 bs))) (le_value (take 8 (drop 136 bs))).

(** ** Strings and structures in the memory of a program *)

Lemma s64_u64 v : -9223372036854775808 <= v < 9223372036854775808 -> s64 (u64 v) = v.
Proof. intros Hv. unfold s64, u64. case_test; bool_to_prop; zlia. Qed.

Lemma copy_string_all p n : Forall (fun c => c <> 0) p -> (length p < n)%nat -> copy_string p n = p ++ [0].
Proof.
  intros Hp. revert n. induction Hp as [|c p Hc Hp IH]; intros n Hn; destruct n as [|n]; [lia| |lia|].
  - by destruct n.
  - destruct n as [|n]; [cbn in Hn; lia|]. change (copy_string (c :: p) (Datatypes.S (Datatypes.S n))) with
      (if c =? 0 then [0] else c :: copy_string p (Datatypes.S n)).
    rewrite (proj2 (Z.eqb_neq c 0)), IH by (done || cbn in Hn; lia). done.
Qed.

Lemma free_handle_spec l i j : free_handle l i = Some j ->
  (i <= j < i + length l)%nat /\ exists h, l !! (j - i)%nat = Some h /\ h_type h = 0.
Proof.
  revert i. induction l as [|h l IH]; intros i E; [done|]. cbn [free_handle] in E. destruct (Z.eqb_spec (h_type h) 0) as [Hh|Hh].
  - injection E as <-. rewrite Nat.sub_diag. split; [cbn; lia|by exists h].
  - apply IH in E as [Hj (h' & Hl & Hz)]. split; [cbn; lia|]. exists h'. split; [|done].
    by replace (j - i)%nat with (Datatypes.S (j - Datatypes.S i)) by lia.
Qed.

Lemma char_array_length n s stack : (length s < n)%nat -> length (char_array n s stack) = n.
Proof. intros Hs. unfold char_array. rewrite length_take, !length_app, length_drop, slice_length. cbn [length]. lia. Qed.

Lemma slice_byte_ok bs p n : Forall byte_ok bs -> Forall byte_ok (slice bs p n).
Proof.
  intros Hb. unfold slice. apply Forall_map, List.Forall_forall. intros i _.
  destruct (nth_lookup_or_length bs i 0) as [E|E]; [rewrite Forall_lookup in Hb; by apply (Hb i)|].
  rewrite nth_overflow by done. unfold byte_ok. lia.
Qed.

Definition stat_ok (st : VfsStat) : Prop :=
  cstring (vs_name st) /\ (length (vs_name st) <= 127)%nat /\ word32 (vs_type st) /\ word64 (vs_size st).

Lemma stat_bytes_length st stack : stat_ok st -> length (stat_bytes st stack) = SIZEOF_STAT.
Proof. intros (_ & Hl & _). unfold stat_bytes. rewrite !length_app, char_array_length, !le_bytes_length, slice_length by lia. done. Qed.

Lemma stat_bytes_ok st stack : stat_ok st -> Forall byte_ok stack -> Forall byte_ok (stat_bytes st stack).
Proof.
  intros (Hn & _) Hs. unfold stat_bytes, char_array. repeat (apply Forall_app; split); try apply le_bytes_ok; [|by apply slice_byte_ok].
  apply Forall_take. repeat (apply Forall_app; split); [by apply cstring_bytes|apply Forall_singleton; unfold byte_ok; lia|].
  by apply Forall_drop, slice_byte_ok.
Qed.

(** The program reads the fields that the kernel stored. *)
Lemma decode_stat_bytes st stack : stat_ok st -> decode_stat (stat_bytes st stack) = st.
Proof.
  intros (Hn & Hl & Ht & Hz). pose proof (char_array_length 128 (vs_name st) stack ltac:(lia)) as Hc.
  unfold decode_stat, stat_bytes. destruct st as [name type size]. cbn [vs_name vs_type vs_size] in *. f_equal.
  - rewrite take_app_length' by done. unfold char_array. rewrite take_app_ge by lia.
    destruct (128 - length name)%nat as [|r] eqn:Er; [lia|]. cbn [app take]. by apply until_nul_string, cstring_nonzero.
  - rewrite drop_app_length' by done. rewrite take_app_length' by (by rewrite le_bytes_length). by apply le_value_bytes.
  - rewrite app_assoc, app_assoc. rewrite drop_app_length' by (by rewrite !length_app, Hc, le_bytes_length, slice_length).
    rewrite take_ge by (by rewrite le_bytes_length). by apply le_value_bytes.
Qed.

Section UserBytes.
Context {S : Type} `{PageAllocatorOk S}.
Implicit Types (st : machine S) (R : Z -> Prop).

(** The program sees the bytes [bs] at [a]. *)
Definition holds (root a : Z) (bs : list Z) st : Prop :=
  forall i b, bs !! i = Some b -> readable root (a + Z.of_nat i) st /\ uload root (a + Z.of_nat i) st = b.

Lemma holds_read root a bs st : holds root a bs st -> read_loop (length bs) root a st = bs.
Proof. intros Hh. apply read_loop_bytes. intros i b Hb. by apply Hh. Qed.

Lemma holds_app_l root a bs cs st : holds root a (bs ++ cs) st -> holds root a bs st.
Proof. intros Hh i b Hb. apply Hh. by apply lookup_app_l_Some. Qed.

(** A store at the start of an array replaces its first bytes. *)
Lemma store_holds R root a bs old st :
  space_ok R root st -> holds root a old st -> (length bs <= length old)%nat -> Forall byte_ok bs ->
  holds root a (bs ++ drop (length bs) old) (write_loop root a bs st).
Proof.
  intros Hs Hold Hlen Hb. destruct (decide (bs = [])) as [->|Hne]; [done|].
  assert (forall i, (i < length old)%nat -> readable root (a + Z.of_nat i) st) as Hr.
  { intros i Hi. destruct (lookup_lt_is_Some_2 old i Hi) as [b Eb]. by apply (Hold i b). }
  assert (length bs <> O) as Hl0 by (by destruct bs).
  destruct (Hr O ltac:(lia)) as [[Hv0 _] _]. destruct (Hr (length bs - 1)%nat ltac:(lia)) as [[_ Hv1] _].
  assert (uwrites R root (bytes_at a bs) st (write_loop root a bs st)) as U.
  { apply write_loop_spec; [done|lia|lia| |done]. intros b Hbd. destruct (Hr (Z.to_nat (b - a)) ltac:(lia)) as [_ Hm].
    by replace (a + Z.of_nat (Z.to_nat (b - a))) with b in Hm by lia. }
  intros i b Hi. assert (i < length old)%nat as Hlt by (apply lookup_lt_Some in Hi; rewrite length_app, length_drop in Hi; lia).
  destruct (Hr i Hlt) as [Hv Hm]. split; [split; [done|by rewrite (uw_mapped _ _ _ _ _ _ U)]|].
  rewrite (uw_load _ _ _ _ _ U) by done. unfold bytes_at. rewrite (proj2 (Z.leb_le _ _)) by lia.
  replace (Z.to_nat (a + Z.of_nat i - a)) with i by lia. destruct (decide (i < length bs)%nat) as [Hin|Hin].
  - rewrite lookup_app_l in Hi by done. by rewrite Hi.
  - rewrite lookup_app_r, lookup_drop in Hi by lia. replace (length bs + (i - length bs))%nat with i in Hi by lia.
    rewrite lookup_ge_None_2 by lia. by apply Hold.
Qed.

(** An array is readable bytes. *)
Lemma readable_holds root a n st :
  (forall x, a <= x < a + Z.of_nat n -> readable root x st) -> holds root a (read_loop n root a st) st.
Proof.
  intros Hr i b Hi. pose proof (lookup_lt_Some _ _ _ Hi) as Hl. rewrite read_loop_length in Hl.
  rewrite read_loop_lookup in Hi by done. injection Hi as <-. split; [apply Hr; lia|done].
Qed.

(** A string in memory is the path the kernel sees. *)
Lemma scan_string R root a s st :
  space_ok R root st -> word64 a -> holds root a (s ++ [0]) st -> Forall (fun c => c <> 0) s -> (length s < 127)%nat ->
  strlen_user root a 127 st = (0, Z.of_nat (length s)) /\
  copy_from_user root a (Z.of_nat (length s) + 1) st = (0, s ++ [0]).
Proof.
  intros Hs Ha Hh Hz Hl.
  assert (nonzero_upto root a (Z.of_nat (length s)) st) as Hnz.
  { intros j Hj. destruct (lookup_lt_is_Some_2 s (Z.to_nat j)) as [c Hc]; [lia|].
    destruct (Hh (Z.to_nat j) c) as [Hr Hu]; [by apply lookup_app_l_Some|]. rewrite Z2Nat.id in Hr, Hu by lia.
    split; [done|]. rewrite Hu. by apply (Forall_lookup_1 _ _ _ _ Hz Hc). }
  destruct (Hh (length s) 0) as [Hr0 Hu0]; [by rewrite lookup_app_r, Nat.sub_diag by lia|].
  assert (strlen_user root a 127 st = (0, Z.of_nat (length s))) as Hlen.
  { pose proof (strlen_loop_spec R root 127 a 0 st Hs Ha ltac:(lia) ltac:(intros j Hj; lia)) as Hsc.
    change (strlen_loop 127 root a 0 st) with (strlen_user root a 127 st) in Hsc. rewrite Z.add_0_l in Hsc.
    destruct (strlen_user root a 127 st) as [err len]. cbn [fst snd] in Hsc. destruct Hsc as [len Hb Hn Hr Hu|Hn|k Hk Hn Hr].
    - f_equal. destruct (Z.lt_trichotomy len (Z.of_nat (length s))) as [E|[E|E]]; [|done|].
      + by destruct (Hnz len ltac:(lia)) as [_ ?].
      + by destruct (Hn (Z.of_nat (length s)) ltac:(lia)) as [_ ?].
    - by destruct (Hn (Z.of_nat (length s)) ltac:(lia)) as [_ ?].
    - destruct (Z.lt_trichotomy k (Z.of_nat (length s))) as [E|[->|E]]; [|done|].
      + by destruct (Hnz k ltac:(lia)) as [? _].
      + by destruct (Hn (Z.of_nat (length s)) ltac:(lia)) as [_ ?]. }
  split; [done|]. unfold copy_from_user. rewrite (proj2 (Z.eqb_neq _ 0)) by lia. rewrite (nonzero_range R) by (done || lia). cbn [negb].
  f_equal. replace (Z.to_nat (Z.of_nat (length s) + 1)) with (length (s ++ [0])) by (rewrite length_app; cbn; lia). by apply holds_read.
Qed.
End UserBytes.

Section KernelOs.
Context {D : Type} `{Ports D}.
#[local] Abbreviation kern := (kernel (S:=pmm_state) (D:=D)).
#[local] Abbreviation system := (system (D:=D)).
Context (run_command : Z -> Z -> Z -> kern -> Z * kern) (fuel : nat) (inp : inputs) (rip rsp area : Z).
Implicit Types (sy : system) (k : kern).

Definition BUF : Z := area + 256.
Definition STAT : Z := area + 512.

(** Stores of the program, and what it reads back. *)
Definition user_store (dst : Z) (bs : list Z) sy : system :=
  let k := sy_kernel sy in with_kernel (with_machine (write_loop (k_root k) dst bs (k_machine k)) k) sy.
Definition user_load (src : Z) (n : nat) sy : list Z := let k := sy_kernel sy in read_loop n (k_root k) src (k_machine k).

(** [syscall6]: the result as the wrappers of user.h return it. *)
Definition syscall6 (number a1 a2 a3 : Z) sy : Z * system :=
  match syscall_dispatch run_command fuel inp rip rsp number a1 a2 a3 0 sy with
  | Some (Ok (Returns v, sy)) => (s64 v, sy)
  | _ => (-1, sy)
  end.

Definition kernel_os : Os system := {|
  os_write s sy := syscall6 ORE_SYS_WRITE 1 BUF (Z.of_nat (length s)) (user_store BUF s sy);
  os_args buf sy :=
    let '(n, sy) := syscall6 ORE_SYS_ARGS BUF (Z.of_nat (length buf)) 0 (user_store BUF buf sy) in (n, user_load BUF (length buf) sy, sy);
  os_open p sy := syscall6 ORE_SYS_OPEN area 0 0 (user_store area (p ++ [0]) sy);
  os_read fd buf n sy :=
    let '(r, sy) := syscall6 ORE_SYS_FILE_READ fd BUF n (user_store BUF buf sy) in (r, user_load BUF (length buf) sy, sy);
  os_close fd sy := syscall6 ORE_SYS_CLOSE fd 0 0 sy;
  os_stat p sy :=
    let '(r, sy) := syscall6 ORE_SYS_STAT area STAT 0 (user_store area (p ++ [0]) sy) in
    (if r <? 0 then None else Some (decode_stat (user_load STAT SIZEOF_STAT sy)), sy);
  os_readdir p i sy :=
    let '(r, sy) := syscall6 ORE_SYS_READDIR i STAT area (user_store area (p ++ [0]) sy) in
    (if r <? 0 then None else Some (decode_stat (user_load STAT SIZEOF_STAT sy)), sy)
|}.
#[local] Existing Instance kernel_os.

(** ** The invariant *)

Context (R : Z -> Prop) (Hstack : Forall byte_ok (in_stack inp)).

Definition record_ok (name : list Z) (type size : Z) : Prop := cstring name /\ word32 type /\ type <> 0 /\ word64 size.

(** A handle is closed, or open on a path that exists with its type. *)
Definition handle_ok k (h : Handle) : Prop :=
  h_type h = 0 \/ 0 <= h_offset h < 2 ^ 62 /\ exists st, vfs_stat (k_vfs k) (k_initramfs k) (h_path h) = (0, st) /\ vs_type st = h_type h.

(** A file of the archive: no page of the program lies in its contents. *)
Definition archive_file_ok k (f : InitramfsFile) : Prop :=
  record_ok (f_name f) (f_type f) (f_size f) /\ f_type f = ORE_VFS_FILE /\ f_size f < 2 ^ 61 /\
  forall x v, f_data f <= x < f_data f + f_size f -> readable (k_root k) v (k_machine k) -> virt_to_phys (k_root k) v (k_machine k) <> x.

Record kernel_os_inv k : Prop := mk_kernel_os_inv {
  ko_space : space_ok R (k_root k) (k_machine k);
  ko_area a : area <= a < area + 1024 -> readable (k_root k) a (k_machine k);
  ko_handles : length (current_handles k) = ORE_MAX_HANDLES;
  ko_handle fd : 0 <= fd < 64 -> handle_ok k (handle_at k fd);
  ko_args : cstring (p_args (proc (k_procs k) (k_cur k))) /\ (length (p_args (proc (k_procs k) (k_cur k))) <= 127)%nat;
  ko_mounted : mounted (k_vfs k) = true;
  ko_disk : Forall (fun e => record_ok (de_name e) (de_type e) (de_size e)) (disk_entries (k_vfs k));
  ko_files : Forall (archive_file_ok k) (files (k_initramfs k));
  ko_counts : Z.of_nat (length (disk_entries (k_vfs k))) < 2147483648 /\ Z.of_nat (length (files (k_initramfs k))) < 2147483648;
}.

(** ** The observations *)

Definition kernel_find k (p : list Z) : option VfsStat :=
  let '(r, st) := vfs_stat (k_vfs k) (k_initramfs k) p in if r <? 0 then None else Some st.

(** The contents of the files of the archive. *)
Definition archive_file k (p : list Z) : option InitramfsFile :=
  if str_eq p [47] then None else
  match (if disk_mounted (k_vfs k) then disk_path p else None) with
  | Some _ => None
  | None => initramfs_lookup_raw (k_initramfs k) p
  end.
Definition kernel_file k (p : list Z) : option (list Z) :=
  (fun f => load_bytes (m_mem (k_machine k)) (f_data f) (f_size f)) <$> archive_file k p.

Definition kernel_handle k (fd : Z) : option (list Z * Z) :=
  if (0 <=? fd) && (fd <? 64) && negb (h_type (handle_at k fd) =? 0)
  then Some (h_path (handle_at k fd), h_offset (handle_at k fd)) else None.
Definition kernel_can_open k : Prop := free_handle (drop 1 (current_handles k)) 1 <> None.

(** ** What a call keeps *)

(** [k'] has the files, the arguments and the page tables of [k], and its memory
    differs at most in the pages of the program. *)
Record view k k' : Prop := mk_view {
  v_root : k_root k' = k_root k;
  v_vfs : k_vfs k' = k_vfs k;
  v_files : k_initramfs k' = k_initramfs k;
  v_args : p_args (proc (k_procs k') (k_cur k')) = p_args (proc (k_procs k) (k_cur k));
  v_conf : confined R (k_root k) (k_machine k) (k_machine k');
}.

Lemma view_trans k1 k2 k3 : view k1 k2 -> view k2 k3 -> view k1 k3.
Proof.
  intros [A1 A2 A3 A4 A5] [B1 B2 B3 B4 B5]. split; [congruence..|]. eapply confined_trans; [exact A5|]. by rewrite A1 in B5.
Qed.

Lemma view_readable k k' a : view k k' -> readable (k_root k') a (k_machine k') <-> readable (k_root k) a (k_machine k).
Proof. intros [-> _ _ _ C]. unfold readable, mapped. by rewrite (cf_virt _ _ _ _ C). Qed.

Lemma view_handle_ok k k' h : view k k' -> handle_ok k h -> handle_ok k' h.
Proof. intros [_ E1 E2 _ _]. unfold handle_ok. by rewrite E1, E2. Qed.

(** The contents of the archive lie outside the program. *)
Lemma view_file k k' p : kernel_os_inv k -> view k k' -> kernel_file k' p = kernel_file k p.
Proof.
  intros Hk V. unfold kernel_file. assert (archive_file k' p = archive_file k p) as -> by (unfold archive_file; by rewrite (v_vfs _ _ V), (v_files _ _ V)).
  destruct (archive_file k p) as [f|] eqn:Ef; [|done]. cbn. f_equal.
  assert (archive_file_ok k f) as (_ & _ & _ & Hout).
  { pose proof (ko_files _ Hk) as Hf. rewrite List.Forall_forall in Hf. apply Hf. unfold archive_file in Ef.
    destruct (str_eq p [47]); [done|]. destruct (if disk_mounted _ then _ else _); [done|]. by apply lookup_raw_in in Ef. }
  unfold load_bytes. apply map_ext_in. intros i Hi%in_seq. apply (cf_frame _ _ _ _ (v_conf _ _ V)). intros v Hv. apply Hout; [lia|done].
Qed.

Lemma view_inv k k' :
  kernel_os_inv k -> view k k' -> length (current_handles k') = ORE_MAX_HANDLES ->
  (forall fd, 0 <= fd < 64 -> handle_ok k (handle_at k' fd)) -> kernel_os_inv k'.
Proof.
  intros [I1 I2 I3 I4 I5 I6 I7 I8 I9] V Hl Hh. pose proof V as [V1 V2 V3 V4 V5]. split.
  - rewrite V1. apply V5.
  - intros a Ha. by apply (view_readable k k'), I2.
  - done.
  - intros fd Hfd. by eapply view_handle_ok, Hh.
  - by rewrite V4.
  - by rewrite V2.
  - by rewrite V2.
  - rewrite V3. eapply Forall_impl; [exact I8|]. intros f (F1 & F2 & F3 & F4). split; [done|]. split; [done|]. split; [done|].
    intros x v Hx Hv%(view_readable k k'); [|done]. rewrite V1, (cf_virt _ _ _ _ V5). by apply F4.
  - by rewrite V2, V3.
Qed.

(** A step that also keeps the handles. *)
Definition keeps k k' : Prop := view k k' /\ current_handles k' = current_handles k.

Lemma kernel_keeps_trans k1 k2 k3 : keeps k1 k2 -> keeps k2 k3 -> keeps k1 k3.
Proof. intros [V1 H1] [V2 H2]. split; [by eapply view_trans|congruence]. Qed.

Lemma keeps_handle k k' fd : keeps k k' -> handle_at k' fd = handle_at k fd.
Proof. intros [_ E]. unfold handle_at. by rewrite E. Qed.

Lemma keeps_inv k k' : kernel_os_inv k -> keeps k k' -> kernel_os_inv k'.
Proof.
  intros Hk [V E]. apply (view_inv k); [done|done|by rewrite E; apply Hk|]. intros fd Hfd. rewrite (keeps_handle k k') by done. by apply Hk.
Qed.

Lemma keeps_machine k st : confined R (k_root k) (k_machine k) st -> keeps k (with_machine st k).
Proof. intros C. split; [by split|done]. Qed.

Lemma keeps_query k k' : query R k k' -> keeps k k'.
Proof. intros (st & d & -> & C). split; [by split|done]. Qed.

Definition enter k : kern := with_control (syscall_entry rip rsp (k_control k)) k.

Lemma enter_process k : proc (k_procs (enter k)) (k_cur (enter k)) =
  set_syscall_count (p_syscall_count (proc (k_procs k) (k_cur k)) +u 1) (proc (k_procs k) (k_cur k)).
Proof.
  unfold k_procs, k_cur, enter, with_control, syscall_entry. cbn [k_control c_procs].
  change (current (mk_control _ _ _ _ _ _)) with (current (k_control k)). by rewrite proc_update, Z.eqb_refl.
Qed.

Lemma keeps_enter k : kernel_os_inv k -> keeps k (enter k).
Proof.
  intros Hk. split; [|unfold current_handles; by rewrite enter_process]. split; [done|done|done|by rewrite enter_process|].
  apply confined_refl, Hk.
Qed.

(** ** The arrays of the program *)

Lemma area_readable k a n : kernel_os_inv k -> area <= a -> a + Z.of_nat n <= area + 1024 ->
  forall x, a <= x < a + Z.of_nat n -> readable (k_root k) x (k_machine k).
Proof. intros Hk Ha Hn x Hx. apply Hk. lia. Qed.

Lemma area_word k : kernel_os_inv k -> USER_BASE <= area /\ area + 1024 <= USER_LIMIT.
Proof.
  intros Hk. destruct (ko_area _ Hk area ltac:(lia)) as [[H1 _] _]. destruct (ko_area _ Hk (area + 1023) ltac:(lia)) as [[_ H2] _]. lia.
Qed.

Lemma area_range k a n : kernel_os_inv k -> area <= a < area + 1024 -> 0 <= n -> a + n <= area + 1024 ->
  user_range_ok (k_root k) a n (k_machine k) = true.
Proof.
  intros Hk Ha Hn Hl. destruct (area_word k Hk). apply (user_range_ok_spec R); [apply Hk|done|]. unfold user_va.
  split; [lia|]. split; [lia|]. intros x Hx. apply Hk. lia.
Qed.

(** A store into the area: what the program sees, and what stays. *)
Lemma area_store k a bs :
  kernel_os_inv k -> area <= a -> a + Z.of_nat (length bs) <= area + 1024 -> Forall byte_ok bs ->
  let k' := with_machine (write_loop (k_root k) a bs (k_machine k)) k in
  keeps k k' /\ holds (k_root k) a bs (k_machine k').
Proof.
  intros Hk Ha Hl Hb k'. pose proof (area_readable k a (length bs) Hk Ha Hl) as Hr. split.
  - apply keeps_machine, write_loop_confined; [apply Hk|done].
  - pose proof (store_holds R (k_root k) a bs (read_loop (length bs) (k_root k) a (k_machine k)) (k_machine k) (ko_space _ Hk)
      (readable_holds _ _ _ _ Hr)) as Hs. rewrite read_loop_length in Hs. apply holds_app_l with (drop (length bs) (read_loop (length bs) (k_root k) a (k_machine k))).
    by apply Hs.
Qed.

Lemma path_seen k p :
  kernel_os_inv k -> holds (k_root k) area (p ++ [0]) (k_machine k) -> cstring p -> (length p <= 126)%nat -> user_path area 127 k = inr p.
Proof.
  intros Hk Hh Hp Hl. destruct (area_word k Hk) as [H1 H2].
  destruct (scan_string R (k_root k) area p (k_machine k)) as [E1 E2]; [apply Hk|unfold word64, USER_BASE, USER_LIMIT in *; lia|done|by apply cstring_nonzero|lia|].
  unfold user_path. rewrite E1. cbn [Z.ltb Z.compare]. rewrite E2. cbn [Z.ltb Z.compare]. f_equal. by apply until_nul_string, cstring_nonzero.
Qed.

Lemma path_bytes p : cstring p -> Forall byte_ok (p ++ [0]).
Proof. intros Hp. apply Forall_app; split; [by apply cstring_bytes|]. apply Forall_singleton. unfold byte_ok. lia. Qed.

(** A structure that the kernel stores in the area. *)
Lemma put_area k a bs :
  kernel_os_inv k -> area <= a -> bs <> [] -> a + Z.of_nat (length bs) <= area + 1024 -> Forall byte_ok bs ->
  exists k', put_user a bs k = (0, k') /\ keeps k k' /\ read_loop (length bs) (k_root k') a (k_machine k') = bs.
Proof.
  intros Hk Ha Hne Hl Hb. destruct (area_store k a bs Hk Ha Hl Hb) as [Kp Hh]. cbv zeta in *.
  eexists. split; [|split; [exact Kp|apply holds_read, Hh]].
  unfold put_user, copy_to_user. cbv zeta. assert (length bs <> O) by (by destruct bs). rewrite (proj2 (Z.eqb_neq _ 0)) by lia.
  rewrite (area_range k a (Z.of_nat (length bs))) by (done || lia). done.
Qed.

(** ** The file system seen through the calls *)

Definition kernel_arg k : list Z := p_args (proc (k_procs k) (k_cur k)).
Definition kernel_dir k (p : list Z) : list VfsStat := dir_entries (k_vfs k) (k_initramfs k) p.

Lemma cstring_copy_name s : cstring s -> cstring (copy_name s) /\ (length (copy_name s) <= 127)%nat.
Proof. intros Hs. split; [by apply Forall_take|]. unfold copy_name. rewrite length_take. lia. Qed.
Lemma cstring_strip s : cstring s -> cstring (strip_slash s).
Proof. intros Hs. destruct Hs as [|c s Hc Hs]; [constructor|]. cbn. case_test; [done|by constructor]. Qed.
Lemma cstring_disk_path p rel : cstring p -> disk_path p = Some rel -> cstring rel.
Proof. intros Hp. unfold disk_path. case_test; [by intros [= <-]; constructor|]. case_test; [|done]. intros [= <-]. by apply Forall_drop. Qed.

Lemma stat_ok_copy name type size : cstring name -> word32 type -> word64 size -> stat_ok (mk_stat (copy_name name) type size).
Proof. intros Hn Ht Hz. destruct (cstring_copy_name name Hn). by split. Qed.

Lemma dir_stat_ok name : cstring name -> stat_ok (mk_stat (copy_name name) ORE_VFS_DIR 0) /\ ORE_VFS_DIR <> 0.
Proof. intros Hn. split; [|done]. apply stat_ok_copy; [done|unfold word32, ORE_VFS_DIR; lia|unfold word64; lia]. Qed.

Lemma root_stat_ok : stat_ok (mk_stat [47] ORE_VFS_DIR 0) /\ stat_ok (mk_stat (bytes_of "disk"%string) ORE_VFS_DIR 0).
Proof.
  split; [apply (dir_stat_ok [47]), (literal_cstring [47]); reflexivity|].
  apply (dir_stat_ok (bytes_of "disk"%string)), (literal_cstring (bytes_of "disk"%string)). reflexivity.
Qed.

Lemma vfs_stat_ok k p st :
  kernel_os_inv k -> cstring p -> kernel_find k p = Some st ->
  vfs_stat (k_vfs k) (k_initramfs k) p = (0, st) /\ stat_ok st /\ vs_type st <> 0.
Proof.
  intros Hk Hp. destruct root_stat_ok as [R1 R2]. unfold kernel_find.
  destruct (vfs_stat (k_vfs k) (k_initramfs k) p) as [r st'] eqn:E. unfold vfs_stat in E. rewrite (ko_mounted _ Hk) in E. cbn [negb] in E.
  assert (forall f, In f (files (k_initramfs k)) -> record_ok (f_name f) (f_type f) (f_size f)) as Hf.
  { intros f Hf. pose proof (ko_files _ Hk) as Hfs. rewrite List.Forall_forall in Hfs. by destruct (Hfs f Hf) as (? & _). }
  assert (forall e, In e (disk_entries (k_vfs k)) -> record_ok (de_name e) (de_type e) (de_size e)) as He.
  { intros e He. pose proof (ko_disk _ Hk) as Hd. rewrite List.Forall_forall in Hd. by apply Hd. }
  destruct (str_eq p [47]); [injection E as <- <-; by intros [= <-]|].
  destruct (if disk_mounted (k_vfs k) then disk_path p else None) as [rel|] eqn:Ed.
  - assert (cstring rel) as Hrel by (destruct (disk_mounted _); [by eapply cstring_disk_path|done]).
    destruct rel as [|c rel]; [injection E as <- <-; by intros [= <-]|].
    destruct (disk_lookup (k_vfs k) (c :: rel)) as [e|] eqn:El.
    + injection E as <- <-. intros [= <-]. destruct (He e) as (N & T & T0 & Z0); [by eapply disk_lookup_in|]. split; [done|].
      split; [by apply stat_ok_copy|done].
    + destruct (disk_has_children _ _); injection E as <- <-; [|done]. intros [= <-]. split; [done|by apply dir_stat_ok].
  - destruct (initramfs_lookup_raw (k_initramfs k) p) as [f|] eqn:El.
    + injection E as <- <-. intros [= <-]. destruct (Hf f) as (N & T & T0 & Z0); [by eapply lookup_raw_in|]. split; [done|].
      split; [by apply stat_ok_copy|done].
    + destruct (negb _); injection E as <- <-; [done|]. intros [= <-]. split; [done|by apply dir_stat_ok, cstring_strip].
Qed.

Lemma vfs_stat_none k p : kernel_find k p = None -> exists st, vfs_stat (k_vfs k) (k_initramfs k) p = (-1, st).
Proof.
  unfold kernel_find. destruct (vfs_stat (k_vfs k) (k_initramfs k) p) as [r st] eqn:E. intros Hn. exists st.
  assert (r = 0 \/ r = -1) as [->| ->]; [|done|done]. revert E. unfold vfs_stat. repeat (case_match; simplify_eq); intros [= <- <-]; auto.
Qed.

Lemma children_in {A} (child : A -> option VfsStat) seen l st : st ∈ children child seen l -> exists x, In x l /\ child x = Some st.
Proof.
  revert seen. induction l as [|x l IH]; intros seen; cbn; [by intros ?%elem_of_nil|].
  destruct (child x) as [c|] eqn:Ec; [destruct (decide _)|].
  - intros (y & Hy & E)%IH. exists y. auto.
  - intros [->|(y & Hy & E)%IH]%elem_of_cons; [exists x; auto|exists y; auto].
  - intros (y & Hy & E)%IH. exists y. auto.
Qed.

Lemma child_stat_ok dir name type size st : record_ok name type size -> child_of dir name type size = Some st -> stat_ok st.
Proof.
  intros (Hn & Ht & _ & Hz). unfold child_of. case_test; [done|]. cbv zeta. set (rel := drop _ name).
  assert (cstring rel) as Hrel by (by apply Forall_drop). case_test; [done|].
  assert (cstring (copy_name_len rel (length (component rel))) /\ (length (copy_name_len rel (length (component rel))) <= 127)%nat) as [H1 H2].
  { unfold copy_name_len. split; [by apply Forall_take, Forall_take|]. rewrite length_take. lia. }
  case_test; intros [= <-]; (split; [done|]); (split; [done|]); cbn; [split; [unfold word32, ORE_VFS_DIR; lia|unfold word64; lia]|done].
Qed.

Lemma kernel_dir_stat k p st : kernel_os_inv k -> st ∈ kernel_dir k p -> stat_ok st.
Proof.
  intros Hk. unfold kernel_dir, dir_entries. destruct (if disk_mounted _ then _ else _) as [rel|].
  - intros (e & He & Ec)%children_in. eapply child_stat_ok, Ec. pose proof (ko_disk _ Hk) as Hd. rewrite List.Forall_forall in Hd. by apply Hd.
  - cbv zeta. intros [(f & Hf & Ec)%children_in|Hl]%elem_of_app.
    + eapply child_stat_ok, Ec. pose proof (ko_files _ Hk) as Hd. rewrite List.Forall_forall in Hd. by destruct (Hd f Hf) as (? & _).
    + destruct (_ && _); [|by apply elem_of_nil in Hl]. apply list_elem_of_singleton in Hl as ->. apply root_stat_ok.
Qed.

Lemma kernel_dir_length k p : kernel_os_inv k -> Z.of_nat (length (kernel_dir k p)) < 4294967295.
Proof.
  intros Hk. destruct (ko_counts _ Hk) as [H1 H2]. unfold kernel_dir, dir_entries. destruct (if disk_mounted _ then _ else _) as [rel|].
  - pose proof (children_length (disk_direct_child rel) (disk_entries (k_vfs k)) []). lia.
  - cbv zeta. rewrite length_app. pose proof (children_length (direct_child (copy_name (strip_slash p))) (files (k_initramfs k)) []).
    destruct (_ && _); cbn; lia.
Qed.

(** A file of the archive as its entry. *)
Lemma kernel_file_entry k p c :
  kernel_os_inv k -> kernel_file k p = Some c ->
  exists f, archive_file_ok k f /\ c = load_bytes (m_mem (k_machine k)) (f_data f) (f_size f) /\
    (if disk_mounted (k_vfs k) then disk_path p else None) = None /\ initramfs_lookup_raw (k_initramfs k) p = Some f /\
    vfs_stat (k_vfs k) (k_initramfs k) p = (0, mk_stat (copy_name (f_name f)) ORE_VFS_FILE (f_size f)).
Proof.
  intros Hk. unfold kernel_file, archive_file. destruct (str_eq p [47]) eqn:Es; [done|].
  destruct (if disk_mounted _ then _ else _) as [rel|] eqn:Ed; [done|]. destruct (initramfs_lookup_raw _ p) as [f|] eqn:El; [|done].
  cbn. intros [= <-]. exists f. assert (archive_file_ok k f) as Hf.
  { pose proof (ko_files _ Hk) as Hfs. rewrite List.Forall_forall in Hfs. apply Hfs. by eapply lookup_raw_in. }
  split; [done|]. split; [done|]. split; [done|]. split; [done|]. unfold vfs_stat. rewrite (ko_mounted _ Hk), Es, Ed, El. cbn [negb].
  destruct Hf as (_ & -> & _). done.
Qed.

(** ** The calls *)

(** What the observations of a program keep. *)
Definition same_os k k' : Prop :=
  kernel_os_inv k' /\ kernel_arg k' = kernel_arg k /\ (forall p, kernel_find k' p = kernel_find k p) /\
  (forall p, kernel_file k' p = kernel_file k p) /\ (forall p, kernel_dir k' p = kernel_dir k p).
Definition quiet_os sy sy' : Prop :=
  same_os (sy_kernel sy) (sy_kernel sy') /\ sy_serial sy' = sy_serial sy /\
  (forall fd, kernel_handle (sy_kernel sy') fd = kernel_handle (sy_kernel sy) fd) /\
  (kernel_can_open (sy_kernel sy) -> kernel_can_open (sy_kernel sy')).

Lemma same_os_trans k1 k2 k3 : same_os k1 k2 -> same_os k2 k3 -> same_os k1 k3.
Proof.
  intros (A1 & A2 & A3 & A4 & A5) (B1 & B2 & B3 & B4 & B5). split; [done|]. split; [by rewrite B2|].
  split; [intros p; by rewrite B3|]. split; intros p; [by rewrite B4|by rewrite B5].
Qed.

Lemma view_same k k' : kernel_os_inv k -> view k k' -> kernel_os_inv k' -> same_os k k'.
Proof.
  intros Hk V Hk'. split; [done|]. split; [apply V|]. unfold kernel_find, kernel_dir. rewrite (v_vfs _ _ V), (v_files _ _ V).
  split; [done|]. split; [|done]. intros p. by apply view_file.
Qed.

Lemma keeps_same k k' :
  kernel_os_inv k -> keeps k k' ->
  same_os k k' /\ (forall fd, kernel_handle k' fd = kernel_handle k fd) /\ (kernel_can_open k -> kernel_can_open k').
Proof.
  intros Hk Kp. split; [apply view_same; [done|apply Kp|by eapply keeps_inv]|].
  split; [intros fd; unfold kernel_handle; by rewrite (keeps_handle k k')|]. destruct Kp as [_ E]. unfold kernel_can_open. by rewrite E.
Qed.

Lemma keeps_quiet sy sy' :
  kernel_os_inv (sy_kernel sy) -> keeps (sy_kernel sy) (sy_kernel sy') -> sy_serial sy' = sy_serial sy -> quiet_os sy sy'.
Proof. intros Hk Kp Hs. destruct (keeps_same _ _ Hk Kp) as (H1 & H2 & H3). by split. Qed.

Definition entered sy : system := with_kernel (enter (sy_kernel sy)) sy.

Lemma syscall6_returns number a1 a2 a3 sy r :
  syscall_dispatch run_command fuel inp rip rsp number a1 a2 a3 0 sy = returns r -> -9223372036854775808 <= fst r < 9223372036854775808 ->
  syscall6 number a1 a2 a3 sy = r.
Proof. intros E Hv. unfold syscall6. rewrite E. unfold returns, ret. rewrite s64_u64 by done. by destruct r. Qed.

(** The kernel after the program has stored an argument and entered the call. *)
Lemma stored_entered sy a bs :
  kernel_os_inv (sy_kernel sy) -> area <= a -> a + Z.of_nat (length bs) <= area + 1024 -> Forall byte_ok bs ->
  let k := sy_kernel (entered (user_store a bs sy)) in
  keeps (sy_kernel sy) k /\ kernel_os_inv k /\ holds (k_root k) a bs (k_machine k).
Proof.
  intros Hk Ha Hl Hb k. destruct (area_store (sy_kernel sy) a bs Hk Ha Hl Hb) as [Kp Hh]. cbv zeta in *.
  set (k1 := with_machine _ _) in *. assert (k = enter k1) as -> by done. pose proof (keeps_inv _ _ Hk Kp) as Hk1.
  assert (keeps (sy_kernel sy) (enter k1)) as Kp2 by (eapply kernel_keeps_trans; [exact Kp|by apply keeps_enter]).
  split; [done|]. split; [exact (keeps_inv _ _ Hk Kp2)|]. exact Hh.
Qed.

Lemma write_bytes_serial bs sy : sy_serial (write_bytes bs sy) = sy_serial sy ++ crlf bs.
Proof.
  revert sy. induction bs as [|c bs IH]; intros sy; [cbn; by rewrite app_nil_r|].
  change (write_bytes (c :: bs) sy) with (write_bytes bs (with_output (console_putc c (sy_console sy)) (serial_sent c (sy_serial sy)) sy)).
  rewrite IH. cbn [sy_serial with_output]. rewrite serial_sent_crlf, <- app_assoc, <- crlf_app. done.
Qed.

Lemma kernel_write s sy :
  kernel_os_inv (sy_kernel sy) -> Forall byte_ok s -> (length s <= 256)%nat ->
  exists sy', os_write s sy = (Z.of_nat (length s), sy') /\ same_os (sy_kernel sy) (sy_kernel sy') /\
    sy_serial sy' = sy_serial sy ++ crlf s /\ (forall fd, kernel_handle (sy_kernel sy') fd = kernel_handle (sy_kernel sy) fd) /\
    (kernel_can_open (sy_kernel sy) -> kernel_can_open (sy_kernel sy')).
Proof.
  intros Hk Hb Hl. destruct (stored_entered sy BUF s Hk) as (Kp & Hk1 & Hh); [unfold BUF; lia..|done|]. cbv zeta in *.
  set (sy1 := entered (user_store BUF s sy)) in *. exists (write_bytes s sy1). split.
  - cbn [os_write kernel_os]. apply syscall6_returns; [|cbn [fst]; lia].
    change (syscall_dispatch run_command fuel inp rip rsp ORE_SYS_WRITE 1 BUF (Z.of_nat (length s)) 0 (user_store BUF s sy))
      with (returns (sys_write 1 BUF (Z.of_nat (length s)) sy1)). f_equal. unfold sys_write. cbv zeta.
    rewrite (area_range (sy_kernel sy1) BUF (Z.of_nat (length s))) by (done || unfold BUF; lia). cbn [Z.eqb Pos.eqb negb andb orb].
    rewrite Nat2Z.id, holds_read by done. done.
  - rewrite write_bytes_kernel, write_bytes_serial. destruct (keeps_same _ _ Hk Kp) as (H1 & H2 & H3). split; [done|]. by split.
Qed.

Lemma kernel_args buf sy :
  kernel_os_inv (sy_kernel sy) -> length buf = 128%nat -> Forall byte_ok buf ->
  let s := kernel_arg (sy_kernel sy) in
  exists sy', os_args buf sy = (Z.of_nat (length s), s ++ [0] ++ drop (length s + 1) buf, sy') /\ quiet_os sy sy'.
Proof.
  intros Hk Hlen Hb s. destruct (ko_args _ Hk) as [Hs Hsl]. fold (kernel_arg (sy_kernel sy)) in Hs, Hsl. fold s in Hs, Hsl.
  destruct (stored_entered sy BUF buf Hk) as (Kp & Hk1 & Hh); [unfold BUF; lia..|done|]. cbv zeta in *.
  set (sy1 := entered (user_store BUF buf sy)) in *. set (k1 := sy_kernel sy1) in *.
  set (k2 := with_machine (write_loop (k_root k1) BUF (s ++ [0]) (k_machine k1)) k1).
  assert (sys_args BUF 128 k1 = (Z.of_nat (length s), k2)) as Ea.
  { unfold sys_args. rewrite (area_range k1 BUF 128) by (done || unfold BUF; lia). cbn [negb Z.eqb].
    change (p_args _) with (kernel_arg k1). assert (kernel_arg k1 = s) as -> by apply Kp. rewrite take_ge by (cbn; lia). done. }
  assert (length (s ++ [0]) = (length s + 1)%nat) as El by (rewrite length_app; cbn; lia).
  destruct (area_store k1 BUF (s ++ [0]) Hk1) as [Kp2 _]; [unfold BUF; lia|unfold BUF; rewrite El; lia|by apply path_bytes|]. fold k2 in Kp2.
  pose proof (store_holds R (k_root k1) BUF (s ++ [0]) buf (k_machine k1) (ko_space _ Hk1) Hh ltac:(lia) (path_bytes s Hs)) as Hh2.
  apply holds_read in Hh2. rewrite El, <- app_assoc in Hh2.
  assert (read_loop (length buf) (k_root k2) BUF (k_machine k2) = s ++ [0] ++ drop (length s + 1) buf) as Hrd.
  { rewrite <- Hh2. f_equal. rewrite !length_app, length_drop. cbn. lia. }
  exists (with_kernel k2 sy1). split.
  - cbn [os_args kernel_os]. rewrite (syscall6_returns ORE_SYS_ARGS BUF _ 0 _ (Z.of_nat (length s), with_kernel k2 sy1)).
    + f_equal. f_equal. exact Hrd.
    + rewrite Hlen. change (Z.of_nat 128) with 128.
      change (syscall_dispatch run_command fuel inp rip rsp ORE_SYS_ARGS BUF 128 0 0 (user_store BUF buf sy))
        with (returns_k (sys_args BUF 128 k1) sy1). by rewrite Ea.
    + cbn [fst]. lia.
  - apply keeps_quiet; [done| |done]. eapply kernel_keeps_trans; [exact Kp|exact Kp2].
Qed.

(** *** Structures *)

(** The call stores a stat structure, which the program reads. *)
Lemma stat_stored k st :
  kernel_os_inv k -> stat_ok st ->
  exists k', put_user STAT (stat_bytes st (in_stack inp)) k = (0, k') /\ keeps k k' /\
    decode_stat (read_loop SIZEOF_STAT (k_root k') STAT (k_machine k')) = st.
Proof.
  intros Hk Hst. pose proof (stat_bytes_length st (in_stack inp) Hst) as Hl.
  destruct (put_area k STAT (stat_bytes st (in_stack inp)) Hk) as (k' & E & Kp & Hr).
  - unfold STAT. lia.
  - intros E. by rewrite E in Hl.
  - rewrite Hl. unfold STAT, SIZEOF_STAT. lia.
  - by apply stat_bytes_ok.
  - exists k'. split; [done|]. split; [done|]. rewrite <- Hl, Hr. by apply decode_stat_bytes.
Qed.

Lemma path_stored sy p :
  kernel_os_inv (sy_kernel sy) -> cstring p -> (length p <= 126)%nat ->
  let k := sy_kernel (entered (user_store area (p ++ [0]) sy)) in
  keeps (sy_kernel sy) k /\ kernel_os_inv k /\ user_path area 127 k = inr p /\
  k_vfs k = k_vfs (sy_kernel sy) /\ k_initramfs k = k_initramfs (sy_kernel sy).
Proof.
  intros Hk Hp Hl k. destruct (stored_entered sy area (p ++ [0]) Hk) as (Kp & Hk1 & Hh);
    [lia|rewrite length_app; cbn; lia|by apply path_bytes|]. fold k in Kp, Hk1, Hh.
  split; [done|]. split; [done|]. split; [by apply path_seen|done].
Qed.

Lemma kernel_stat p sy :
  kernel_os_inv (sy_kernel sy) -> cstring p -> (length p <= 126)%nat ->
  exists sy', os_stat p sy = (kernel_find (sy_kernel sy) p, sy') /\ quiet_os sy sy'.
Proof.
  intros Hk Hp Hl. destruct (path_stored sy p Hk Hp Hl) as (Kp & Hk1 & Hpath & Ev & Ei).
  set (sy1 := entered (user_store area (p ++ [0]) sy)) in *. set (k1 := sy_kernel sy1) in *.
  assert (forall v k2, sys_stat area STAT (in_stack inp) k1 = (v, k2) -> -9223372036854775808 <= v < 9223372036854775808 ->
    syscall6 ORE_SYS_STAT area STAT 0 (user_store area (p ++ [0]) sy) = (v, with_kernel k2 sy1)) as Hcall.
  { intros v k2 E Hv. apply syscall6_returns; [|done].
    change (syscall_dispatch run_command fuel inp rip rsp ORE_SYS_STAT area STAT 0 0 (user_store area (p ++ [0]) sy))
      with (returns_k (sys_stat area STAT (in_stack inp) k1) sy1). by rewrite E. }
  unfold sys_stat in Hcall. rewrite Hpath, Ev, Ei in Hcall. destruct (kernel_find (sy_kernel sy) p) as [st|] eqn:Ef.
  - destruct (vfs_stat_ok _ p st Hk Hp Ef) as (E & Hst & _). rewrite E in Hcall. cbn [Z.ltb Z.compare] in Hcall.
    destruct (stat_stored k1 st Hk1 Hst) as (k2 & Ep & Kp2 & Hd). rewrite Ep in Hcall. exists (with_kernel k2 sy1). split.
    + cbn [os_stat kernel_os]. rewrite (Hcall 0 k2 eq_refl ltac:(lia)). cbn [Z.ltb Z.compare]. f_equal. f_equal. exact Hd.
    + apply keeps_quiet; [done| |done]. eapply kernel_keeps_trans; [exact Kp|exact Kp2].
  - destruct (vfs_stat_none _ p Ef) as [st E]. rewrite E in Hcall. cbn [Z.ltb Z.compare] in Hcall. exists (with_kernel k1 sy1). split.
    + cbn [os_stat kernel_os]. by rewrite (Hcall (- ORE_ENOENT) k1 eq_refl ltac:(unfold ORE_ENOENT; lia)).
    + by apply keeps_quiet.
Qed.

Lemma kernel_readdir p i sy :
  kernel_os_inv (sy_kernel sy) -> cstring p -> (length p <= 126)%nat -> word32 i ->
  exists sy', os_readdir p i sy = (kernel_dir (sy_kernel sy) p !! Z.to_nat i, sy') /\ quiet_os sy sy'.
Proof.
  intros Hk Hp Hl Hi. destruct (path_stored sy p Hk Hp Hl) as (Kp & Hk1 & Hpath & Ev & Ei).
  set (sy1 := entered (user_store area (p ++ [0]) sy)) in *. set (k1 := sy_kernel sy1) in *.
  assert (forall v k2, sys_readdir i STAT area (in_stack inp) k1 = (v, k2) -> -9223372036854775808 <= v < 9223372036854775808 ->
    syscall6 ORE_SYS_READDIR i STAT area (user_store area (p ++ [0]) sy) = (v, with_kernel k2 sy1)) as Hcall.
  { intros v k2 E Hv. apply syscall6_returns; [|done].
    change (syscall_dispatch run_command fuel inp rip rsp ORE_SYS_READDIR i STAT area 0 (user_store area (p ++ [0]) sy))
      with (returns_k (sys_readdir i STAT area (in_stack inp) k1) sy1). by rewrite E. }
  destruct (ko_counts _ Hk) as [C1 C2]. destruct (area_word _ Hk) as [A1 _].
  destruct (vfs_readdir_correct (k_vfs (sy_kernel sy)) (k_initramfs (sy_kernel sy)) (Some p) i (ko_mounted _ Hk) Hi) as [Er _]; [lia..|].
  change (default [47] (Some p)) with p in Er. fold (kernel_dir (sy_kernel sy) p) in Er.
  unfold sys_readdir in Hcall. cbv beta zeta in Hcall. rewrite (proj2 (Z.eqb_neq area 0)) in Hcall by (unfold USER_BASE in A1; lia).
  rewrite Hpath, Ev, Ei, (u32_small i), Er in Hcall by done. destruct (kernel_dir (sy_kernel sy) p !! Z.to_nat i) as [st|] eqn:Ed; cbn [Z.ltb Z.compare] in Hcall.
  - destruct (stat_stored k1 st Hk1) as (k2 & Ep & Kp2 & Hd); [by eapply (kernel_dir_stat _ p), list_elem_of_lookup_2|].
    rewrite Ep in Hcall. exists (with_kernel k2 sy1). split.
    + cbn [os_readdir kernel_os]. rewrite (Hcall 0 k2 eq_refl ltac:(lia)). cbn [Z.ltb Z.compare]. f_equal. f_equal. exact Hd.
    + apply keeps_quiet; [done| |done]. eapply kernel_keeps_trans; [exact Kp|exact Kp2].
  - exists (with_kernel k1 sy1). split.
    + cbn [os_readdir kernel_os]. by rewrite (Hcall (- ORE_ENOENT) k1 eq_refl ltac:(unfold ORE_ENOENT; lia)).
    + by apply keeps_quiet.
Qed.

(** *** Handles *)

Lemma set_handle_view k i h : kernel_os_inv k -> (i < ORE_MAX_HANDLES)%nat ->
  view k (set_handle i h k) /\ length (current_handles (set_handle i h k)) = ORE_MAX_HANDLES.
Proof.
  intros Hk Hi.
  assert (proc (k_procs (set_handle i h k)) (k_cur (set_handle i h k)) =
    set_handles (<[i := h]> (current_handles k)) (proc (k_procs k) (k_cur k))) as Ep.
  { unfold set_handle, on_process, with_table, current_handles, k_procs, k_cur. cbn [with_control k_control with_procs c_procs].
    change (current (with_procs _ _)) with (current (k_control k)). by rewrite proc_update, Z.eqb_refl. }
  split; [split; [done|done|done|by rewrite Ep|apply confined_refl, Hk]|].
  unfold current_handles at 1. rewrite Ep. cbn [set_handles p_handles]. rewrite length_insert. apply Hk.
Qed.

(** Changing one handle. *)
Lemma set_handle_same k fd h : kernel_os_inv k -> 0 <= fd < 64 -> handle_ok k h ->
  let k' := set_handle (Z.to_nat fd) h k in
  same_os k k' /\ kernel_os_inv k' /\ forall fd', kernel_handle k' fd' =
    if fd' =? fd then (if h_type h =? 0 then None else Some (h_path h, h_offset h)) else kernel_handle k fd'.
Proof.
  intros Hk Hfd Hh k'.
  assert (Z.to_nat fd < ORE_MAX_HANDLES)%nat as Hlt by (change ORE_MAX_HANDLES with (Z.to_nat 64); lia).
  destruct (set_handle_view k (Z.to_nat fd) h Hk Hlt) as [V Hl]. fold k' in V, Hl.
  assert (forall j, handle_at k' j = if Nat.eqb (Z.to_nat j) (Z.to_nat fd) then h else handle_at k j) as Hat.
  { intros j. apply handle_at_set. by rewrite (ko_handles _ Hk). }
  assert (kernel_os_inv k') as Hk'.
  { apply (view_inv k); [done..|]. intros j Hj. rewrite Hat. destruct (Nat.eqb _ _); [done|by apply Hk]. }
  split; [by apply view_same|]. split; [done|]. intros j. unfold kernel_handle. rewrite Hat. destruct (Z.eqb_spec j fd) as [->|Hne].
  - rewrite Nat.eqb_refl, (proj2 (Z.leb_le 0 fd)), (proj2 (Z.ltb_lt fd 64)) by lia. cbn [andb]. by destruct (h_type h =? 0).
  - destruct (Nat.eqb_spec (Z.to_nat j) (Z.to_nat fd)) as [E|E]; [|done].
    destruct (Z.leb_spec 0 j); [lia|done].
Qed.

Lemma kernel_open p sy :
  kernel_os_inv (sy_kernel sy) -> cstring p -> (length p <= 126)%nat ->
  exists fd sy', os_open p sy = (fd, sy') /\
    match kernel_find (sy_kernel sy) p with
    | Some _ => kernel_can_open (sy_kernel sy) -> 0 <= fd /\ same_os (sy_kernel sy) (sy_kernel sy') /\ sy_serial sy' = sy_serial sy /\
        kernel_handle (sy_kernel sy) fd = None /\
        (forall fd', kernel_handle (sy_kernel sy') fd' = if fd' =? fd then Some (p, 0) else kernel_handle (sy_kernel sy) fd')
    | None => fd < 0 /\ quiet_os sy sy'
    end.
Proof.
  intros Hk Hp Hl. destruct (path_stored sy p Hk Hp Hl) as (Kp & Hk1 & Hpath & Ev & Ei).
  set (sy1 := entered (user_store area (p ++ [0]) sy)) in *. set (k1 := sy_kernel sy1) in *.
  assert (forall v k2, sys_open area k1 = (v, k2) -> -9223372036854775808 <= v < 9223372036854775808 ->
    os_open p sy = (v, with_kernel k2 sy1)) as Hcall.
  { intros v k2 E Hv. cbn [os_open kernel_os]. apply syscall6_returns; [|done].
    change (syscall_dispatch run_command fuel inp rip rsp ORE_SYS_OPEN area 0 0 0 (user_store area (p ++ [0]) sy))
      with (returns_k (sys_open area k1) sy1). by rewrite E. }
  unfold sys_open in Hcall. rewrite Hpath, Ev, Ei in Hcall.
  assert (current_handles k1 = current_handles (sy_kernel sy)) as Eh by apply Kp. rewrite Eh in Hcall.
  destruct (kernel_find (sy_kernel sy) p) as [st|] eqn:Ef.
  2:{ destruct (vfs_stat_none _ p Ef) as [st E]. rewrite E in Hcall. cbn [Z.ltb Z.compare] in Hcall. exists (- ORE_ENOENT), (with_kernel k1 sy1).
      split; [apply Hcall; [done|unfold ORE_ENOENT; lia]|]. split; [unfold ORE_ENOENT; lia|by apply keeps_quiet]. }
  destruct (vfs_stat_ok _ p st Hk Hp Ef) as (E & _ & Hty). rewrite E in Hcall. cbn [Z.ltb Z.compare] in Hcall. unfold kernel_can_open.
  destruct (free_handle (drop 1 (current_handles (sy_kernel sy))) 1) as [i|] eqn:Efree.
  2:{ exists (- ORE_EINVAL), (with_kernel k1 sy1). split; [apply Hcall; [done|unfold ORE_EINVAL; lia]|done]. }
  apply free_handle_spec in Efree as [Hi (h & Hlk & Hh0)]. rewrite length_drop, (ko_handles _ Hk) in Hi. change ORE_MAX_HANDLES with 64%nat in Hi.
  rewrite copy_string_all in Hcall by (lia || by apply cstring_nonzero). rewrite until_nul_string in Hcall by (by apply cstring_nonzero).
  set (h2 := mk_handle (vs_type st) 0 (h_flags (handle_at k1 (Z.of_nat i))) p) in *.
  assert (handle_ok k1 h2) as Hok2.
  { right. cbn [h2 h_offset h_path h_type]. split; [lia|]. exists st. by rewrite Ev, Ei, E. }
  destruct (set_handle_same k1 (Z.of_nat i) h2 Hk1 ltac:(lia) Hok2) as (Hs2 & Hk2 & Hat). rewrite Nat2Z.id in *.
  exists (Z.of_nat i), (with_kernel (set_handle i h2 k1) sy1). split; [apply Hcall; [done|lia]|]. intros _. split; [lia|].
  destruct (keeps_same _ _ Hk Kp) as (S1 & S6 & _).
  split; [|split; [done|split]].
  - exact (same_os_trans _ _ _ S1 Hs2).
  - unfold kernel_handle, handle_at. rewrite Nat2Z.id. rewrite lookup_drop in Hlk. replace (1 + (i - 1))%nat with i in Hlk by lia.
    rewrite (nth_lookup_Some _ _ _ _ Hlk), Hh0. by rewrite andb_false_r.
  - intros j. cbn [sy_kernel with_kernel]. rewrite Hat, S6. cbn [h2 h_type h_path h_offset]. by rewrite (proj2 (Z.eqb_neq _ 0)).
Qed.

Lemma handle_open k fd p off : kernel_handle k fd = Some (p, off) ->
  0 <= fd < 64 /\ h_type (handle_at k fd) <> 0 /\ h_path (handle_at k fd) = p /\ h_offset (handle_at k fd) = off.
Proof.
  unfold kernel_handle. destruct (Z.leb_spec 0 fd); [|done]. destruct (Z.ltb_spec fd 64); [|done].
  destruct (Z.eqb_spec (h_type (handle_at k fd)) 0); [done|]. cbn. intros [= <- <-]. by split.
Qed.

Lemma entered_keeps sy : kernel_os_inv (sy_kernel sy) -> keeps (sy_kernel sy) (sy_kernel (entered sy)) /\ kernel_os_inv (sy_kernel (entered sy)).
Proof. intros Hk. pose proof (keeps_enter _ Hk) as Kp. split; [done|]. exact (keeps_inv _ _ Hk Kp). Qed.

Lemma kernel_close fd p off sy :
  kernel_os_inv (sy_kernel sy) -> 0 <= fd -> kernel_handle (sy_kernel sy) fd = Some (p, off) ->
  exists sy', os_close fd sy = (0, sy') /\ same_os (sy_kernel sy) (sy_kernel sy') /\ sy_serial sy' = sy_serial sy /\
    (forall fd', kernel_handle (sy_kernel sy') fd' = if fd' =? fd then None else kernel_handle (sy_kernel sy) fd').
Proof.
  intros Hk Hfd (Hb & Hty & _)%handle_open. destruct (entered_keeps sy Hk) as [Kp Hk1].
  set (sy1 := entered sy) in *. set (k1 := sy_kernel sy1) in *. pose proof (keeps_handle _ _ fd Kp) as Eh.
  set (h2 := mk_handle 0 0 (h_flags (handle_at k1 fd)) []).
  destruct (set_handle_same k1 fd h2 Hk1 Hb) as (Hs2 & Hk2 & Hat); [by left|].
  exists (with_kernel (set_handle (Z.to_nat fd) h2 k1) sy1).
  destruct (keeps_same _ _ Hk Kp) as (S1 & S6 & _).
  split; [|split; [|split; [done|]]].
  - cbn [os_close kernel_os]. apply syscall6_returns; [|cbn [fst]; lia].
    change (syscall_dispatch run_command fuel inp rip rsp ORE_SYS_CLOSE fd 0 0 0 sy) with (returns_k (sys_close fd k1) sy1).
    unfold sys_close. change (Z.of_nat ORE_MAX_HANDLES) with 64. rewrite (proj2 (Z.leb_gt 64 fd)) by lia.
    by rewrite Eh, (proj2 (Z.eqb_neq _ 0)), <- Eh.
  - exact (same_os_trans _ _ _ S1 Hs2).
  - intros j. cbn [sy_kernel with_kernel]. by rewrite Hat, S6.
Qed.

Lemma heap_same k : with_dev (k_dev k) (with_heap (kheap k) k) = k.
Proof. destruct k as [c [s m] hh v i b d r n1 n2]. done. Qed.

(** A read of an archive file, in the kernel. *)
Lemma archive_read k fd n p off c :
  kernel_os_inv k -> kernel_handle k fd = Some (p, off) -> kernel_file k p = Some c -> 0 <= off -> 0 < n -> BUF + n <= area + 1024 ->
  let out := read_of c off n in
  let h := handle_at k fd in
  let k1 := with_machine (write_loop (k_root k) BUF out (k_machine k)) k in
  sys_file_read fuel fd BUF n k =
    ret (Z.of_nat (length out), if 0 <? Z.of_nat (length out)
      then set_handle (Z.to_nat fd) (mk_handle (h_type h) (h_offset h +u Z.of_nat (length out)) (h_flags h) (h_path h)) k1 else k1) /\
  h_type h = ORE_VFS_FILE /\ Forall byte_ok out /\ (out <> [] -> off < 2 ^ 61).
Proof.
  intros Hk Hh Hc Ho Hn Hb out h k1. destruct (handle_open _ _ _ _ Hh) as (Hfd & Hty & Hp & Hoff). fold h in Hty, Hp, Hoff.
  destruct (kernel_file_entry k p c Hk Hc) as (f & (_ & _ & Hsz & _) & -> & Ed & El & Es).
  assert (h_type h = ORE_VFS_FILE) as Hfile.
  { destruct (ko_handle _ Hk fd Hfd) as [Hz|(_ & st & Est & Et)]; [done|]. fold h in Est, Et. rewrite Hp, Es in Est. injection Est as <-. by rewrite <- Et. }
  assert (Forall byte_ok (load_bytes (m_mem (k_machine k)) (f_data f) (f_size f))) as Hby.
  { unfold load_bytes. apply Forall_map, List.Forall_forall. intros i _. apply (sp_mem _ _ _ (ko_space _ Hk)). }
  assert (vfs_read_file_at fuel (k_vfs k) (k_blocks k) (k_initramfs k) p off n (kheap k) (k_dev k) =
    Some (Ok (Z.of_nat (length out), out, kheap k, k_dev k))) as Ev.
  { unfold vfs_read_file_at. rewrite (ko_mounted _ Hk), Ed, El. cbn [negb]. destruct (Z.leb_spec (f_size f) off) as [Hge|Hlt].
    - assert (out = []) as -> by (unfold out, read_of; rewrite drop_ge by (rewrite load_bytes_length; lia); apply take_nil). done.
    - destruct (read_of_file (m_mem (k_machine k)) (f_data f) (f_size f) off n Ho Hlt Hn) as [E1 E2]. cbv zeta in E1, E2 |- *.
      rewrite E1 in E2. change (hmem (kheap k)) with (m_mem (k_machine k)). rewrite E1, E2. done. }
  split; [|split; [done|split]].
  - unfold sys_file_read. change (Z.of_nat ORE_MAX_HANDLES) with 64. fold h. rewrite (proj2 (Z.leb_gt 64 fd)), Hfile by lia.
    cbn [orb Z.eqb Pos.eqb ORE_VFS_FILE negb]. rewrite (area_range k BUF n) by (done || unfold BUF in *; lia). cbn [negb].
    rewrite Hp, Hoff, Ev. cbn [eff_bind]. rewrite heap_same. fold k1. by rewrite <- Hfile.
  - unfold out, read_of. by apply Forall_take, Forall_drop.
  - intros Hne. destruct (Z.lt_ge_cases off (f_size f)) as [Hlt|Hge]; [lia|]. destruct Hne. unfold out, read_of.
    rewrite drop_ge by (rewrite load_bytes_length; lia). apply take_nil.
Qed.

Lemma kernel_read fd buf n p off c sy :
  kernel_os_inv (sy_kernel sy) -> 0 <= fd -> kernel_handle (sy_kernel sy) fd = Some (p, off) -> kernel_file (sy_kernel sy) p = Some c -> 0 <= off ->
  0 < n <= Z.of_nat (length buf) -> (length buf <= 256)%nat -> Forall byte_ok buf ->
  let out := read_of c off n in
  exists sy', os_read fd buf n sy = (Z.of_nat (length out), out ++ drop (length out) buf, sy') /\ same_os (sy_kernel sy) (sy_kernel sy') /\
    sy_serial sy' = sy_serial sy /\
    (forall fd', kernel_handle (sy_kernel sy') fd' = if fd' =? fd then Some (p, off + Z.of_nat (length out)) else kernel_handle (sy_kernel sy) fd').
Proof.
  intros Hk Hfd Hh Hc Ho Hn Hl Hb out. destruct (stored_entered sy BUF buf Hk) as (Kp & Hk1 & Hbuf); [unfold BUF; lia..|done|]. cbv zeta in *.
  set (sy1 := entered (user_store BUF buf sy)) in *. set (k1 := sy_kernel sy1) in *. destruct (keeps_same _ _ Hk Kp) as (S1 & S6 & _).
  destruct (archive_read k1 fd n p off c Hk1) as (Er & Hfile & Hby & Hsz);
    [by rewrite S6|by rewrite (view_file _ _ p Hk (proj1 Kp))|done|lia|unfold BUF; lia|]. fold out in Er, Hby, Hsz.
  rewrite <- S6 in Hh. destruct (handle_open _ _ _ _ Hh) as (Hfb & Hty & Hp & Hoff). set (h := handle_at k1 fd) in *.
  set (k2 := with_machine (write_loop (k_root k1) BUF out (k_machine k1)) k1) in *.
  assert (length out <= Z.to_nat n)%nat as Hlen by (unfold out, read_of; rewrite length_take; lia).
  destruct (area_store k1 BUF out Hk1) as [Kp2 _]; [unfold BUF; lia..|done|]. fold k2 in Kp2. pose proof (keeps_inv _ _ Hk1 Kp2) as Hk2.
  destruct (keeps_same _ _ Hk1 Kp2) as (S2 & S7 & _).
  pose proof (holds_read _ _ _ _ (store_holds R (k_root k1) BUF out buf (k_machine k1) (ko_space _ Hk1) Hbuf ltac:(lia) Hby)) as Hrd.
  set (k3 := if 0 <? Z.of_nat (length out) then _ else k2) in Er.
  assert (k_root k3 = k_root k1 /\ k_machine k3 = write_loop (k_root k1) BUF out (k_machine k1)) as [Eroot Emach]
    by (unfold k3; by destruct (0 <? Z.of_nat (length out))).
  exists (with_kernel k3 sy1). split.
  - cbn [os_read kernel_os]. rewrite (syscall6_returns ORE_SYS_FILE_READ fd BUF n _ (Z.of_nat (length out), with_kernel k3 sy1)).
    + f_equal. f_equal. unfold user_load. cbv zeta. cbn [sy_kernel with_kernel]. rewrite Eroot, Emach. rewrite <- Hrd at 1. f_equal.
      rewrite length_app, length_drop. lia.
    + change (syscall_dispatch run_command fuel inp rip rsp ORE_SYS_FILE_READ fd BUF n 0 (user_store BUF buf sy))
        with (let! r := sys_file_read fuel fd BUF n k1 in returns_k r sy1). by rewrite Er.
    + cbn [fst]. lia.
  - cbn [sy_kernel with_kernel sy_serial]. unfold k3. destruct (Z.ltb_spec 0 (Z.of_nat (length out))) as [Hpos|Hzero].
    + assert (off < 2 ^ 61) as Hlt by (apply Hsz; by destruct out; cbn in Hpos; [lia|]). rewrite Hoff.
      rewrite u64_small by (unfold word64; lia).
      destruct (set_handle_same k2 fd (mk_handle (h_type h) (off + Z.of_nat (length out)) (h_flags h) (h_path h)) Hk2 Hfb) as (S3 & _ & Hat).
      { right. cbn [h_offset h_path h_type]. split; [lia|]. destruct (ko_handle _ Hk1 fd Hfb) as [?|(_ & Hst)]; [done|]. exact Hst. }
      split; [exact (same_os_trans _ _ _ S1 (same_os_trans _ _ _ S2 S3))|]. split; [done|]. intros j.
      rewrite Hat, S7, S6. cbn [h_type h_path h_offset]. by rewrite (proj2 (Z.eqb_neq _ 0)), Hp.
    + split; [exact (same_os_trans _ _ _ S1 S2)|]. split; [done|]. intros j. rewrite S7. replace (Z.of_nat (length out)) with 0 by lia.
      rewrite Z.add_0_r. destruct (Z.eqb_spec j fd) as [->|]; [done|apply S6].
Qed.

(** ** The promise *)

Lemma kernel_file_found k p c : kernel_os_inv k -> kernel_file k p = Some c -> Forall byte_ok c /\ exists st, kernel_find k p = Some st.
Proof.
  intros Hk Hc. destruct (kernel_file_entry k p c Hk Hc) as (f & _ & -> & _ & _ & Es). split.
  - unfold load_bytes. apply Forall_map, List.Forall_forall. intros i _. apply (sp_mem _ _ _ (ko_space _ Hk)).
  - unfold kernel_find. rewrite Es. by eexists.
Qed.

#[local] Instance kernel_os_ok : OsOk system := {|
  os_ok sy := kernel_os_inv (sy_kernel sy);
  os_out sy := sy_serial sy;
  os_arg sy := kernel_arg (sy_kernel sy);
  os_find sy p := kernel_find (sy_kernel sy) p;
  os_file sy p := kernel_file (sy_kernel sy) p;
  os_dir sy p := kernel_dir (sy_kernel sy) p;
  os_handle sy fd := kernel_handle (sy_kernel sy) fd;
  os_can_open sy := kernel_can_open (sy_kernel sy);
  os_arg_string sy Hk := ko_args _ Hk;
  os_find_stat sy p st Hk Hp E := proj1 (proj2 (vfs_stat_ok _ p st Hk Hp E));
  os_dir_stat sy p st := kernel_dir_stat (sy_kernel sy) p st;
  os_dir_length sy p := kernel_dir_length (sy_kernel sy) p;
  os_file_found sy p c := kernel_file_found (sy_kernel sy) p c;
  os_write_ok := kernel_write;
  os_args_ok := kernel_args;
  os_open_ok := kernel_open;
  os_read_ok := kernel_read;
  os_close_ok := kernel_close;
  os_stat_ok := kernel_stat;
  os_readdir_ok := kernel_readdir
|}.

(** ** Properties *)

(** C37: cat on the kernel: for an argument of at most 126 characters that names a file of
    the archive without null bytes, with a handle free, the program ends with code 0 after at most as many reads as the file
    has bytes, the serial line has got exactly the contents that lie in memory (with
    a newline at the end), and the files, the arguments and the handles of the process
    are as before.  For a path that does not exist it writes that and returns 1. *)
Theorem cat_on_kernel cat_fuel path buf sy :
  let k := sy_kernel sy in
  let p := kernel_arg k in
  kernel_os_inv k -> length path = 128%nat -> Forall byte_ok path -> length buf = 256%nat -> Forall byte_ok buf -> p <> [] -> (length p <= 126)%nat ->
  (forall c, kernel_file k p = Some c -> Forall (fun x => x <> 0) c -> kernel_can_open k -> (length c < cat_fuel)%nat ->
     exists sy', cat_main cat_fuel path buf sy = Some (0, sy') /\ same_os k (sy_kernel sy') /\
       sy_serial sy' = sy_serial sy ++ crlf (cat_text c) /\
       forall fd, kernel_handle (sy_kernel sy') fd = kernel_handle k fd) /\
  (kernel_find k p = None -> exists sy', cat_main cat_fuel path buf sy = Some (1, sy') /\ same_os k (sy_kernel sy') /\
     sy_serial sy' = sy_serial sy ++ crlf (bytes_of "cat: not found"%string ++ [10])).
Proof.
  intros k p Hk Hpl Hpb Hbl Hbb Hne Hlen. pose proof (cat_prints cat_fuel path buf sy) as Hcat. destruct (Hcat Hk Hpl Hpb Hbl Hbb Hne Hlen) as [H1 H2]. split; [exact H1|].
  intros Hn. destruct (H2 Hn) as (sy' & E & Hs & Ho & _). by exists sy'.
Qed.

(** ls and stat on the kernel write what the file system has: one line for each
    entry of the directory in the order of the archive, and the name, type and size
    of a path. *)
Theorem listing_on_kernel ls_fuel path sy :
  let k := sy_kernel sy in
  let p := if decide (kernel_arg k = []) then [47] else kernel_arg k in
  kernel_os_inv k -> length path = 128%nat -> Forall byte_ok path -> (length p <= 126)%nat -> (length (kernel_dir k p) < ls_fuel)%nat ->
  (exists sy', ls_main ls_fuel path sy = Some (0, sy') /\ same_os k (sy_kernel sy') /\ sy_serial sy' = sy_serial sy ++
     crlf (if decide (kernel_dir k p = []) then bytes_of "ls: empty or not found"%string ++ [10] else flat_map entry_line (kernel_dir k p))) /\
  (forall st, kernel_arg k <> [] -> kernel_find k p = Some st -> exists sy', stat_main path sy = (0, sy') /\ same_os k (sy_kernel sy') /\
     sy_serial sy' = sy_serial sy ++ crlf (vs_name st ++ bytes_of " type="%string ++ decimal_text (vs_type st) ++ bytes_of " size="%string ++
       decimal_text (vs_size st) ++ [10])).
Proof.
  intros k p Hk Hl Hb Hp Hf. split.
  - pose proof (ls_lists ls_fuel path sy) as Hls. destruct (Hls Hk Hl Hb Hp Hf) as (sy' & E & Hs & Ho & _). exists sy'. by split.
  - intros st Hne Hst. pose proof (small_programs_print path sy) as Hsm. destruct (Hsm Hk Hl Hb) as [H1 _]. subst p. rewrite decide_False in Hp, Hst by done.
    specialize (H1 Hne Hp). change (os_find sy (os_arg sy)) with (kernel_find k (kernel_arg k)) in H1. rewrite Hst in H1.
    destruct H1 as (sy' & E & Hs & Ho & _). exists sy'. by split.
Qed.
End KernelOs.

(** ** Examples *)

(** A process with the argument "/etc/motd"; the archive has this file, with the
    contents "ore" at 0x9200. *)
Definition motd : list Z := bytes_of "ore"%string.
Definition motd_path : list Z := bytes_of "/etc/motd"%string.
Definition motd_space : machine pmm_state := with_machine_mem demo_space (store_bytes (m_mem demo_space) 0x9200 motd).
Definition motd_reader : Process :=
  set_args motd_path (set_handles (replicate 64 null_handle)
    (set_state ORE_PROC_RUNNING (set_address_space (mk_as vmm_root USER_BASE USER_LIMIT) zero_process))).
Definition motd_fs : initramfs := mk_initramfs 0x9000 1024 [mk_file (bytes_of "etc/motd"%string) 0x9200 3 ORE_VFS_FILE].
Definition motd_kernel : kernel (D:=demo_dev) :=
  mk_kernel (mk_control (mk_table {[0 := zero_process; 1 := motd_reader]} 2 (Some 1)) vmm_root 0 0 0 None)
    motd_space 0 demo_vfs motd_fs demo_blocks ((0, O) : demo_dev) vmm_root 2 0.
Definition motd_system : system (D:=demo_dev) :=
  mk_system motd_kernel (console_init demo_fb (console_zero ∅)) (mk_keyboard 0 0 0 0 0) (mk_okmod 0 [] []) (mk_net false []) [] 0 1.

(** Contents in low memory are in no table and no page of the program. *)
Lemma motd_space_ok :
  space_ok (eq vmm_root) vmm_root motd_space /\ (forall va, virt_to_phys vmm_root va motd_space = virt_to_phys vmm_root va demo_space).
Proof.
  destruct demo_space_ok as [Hs _].
  destruct (space_data (eq vmm_root) vmm_root demo_space (store_bytes (m_mem demo_space) 0x9200 motd)) as (H1 & _ & H3); [exact Hs|..].
  - apply store_bytes_ok, Hs.
  - intros x (t & (r & q & Hr & Hq & Hw) & Hx). apply store_bytes_out. destruct (fw_table _ _ _ (sp_forest _ _ _ Hs) _ _ _ Hr Hq Hw) as [_ Hlow _ _].
    change (length motd) with 3%nat. lia.
  - split; [exact H1|exact H3].
Qed.

#[local] Opaque demo_space motd_space console_init.

Lemma motd_kernel_ok : kernel_os_inv USER_BASE (eq vmm_root) motd_kernel.
Proof.
  destruct motd_space_ok as [Hs Hv]. destruct demo_space_ok as [_ Hz].
  assert (forall v, readable vmm_root v motd_space -> 1048576 <= virt_to_phys vmm_root v motd_space) as Hlow.
  { intros v [Hu Hm]. destruct (virt_to_phys_frame (eq vmm_root) vmm_root motd_space v Hs Hu Hm) as [-> [_ Hl _ _]].
    pose proof (Z.mod_pos_bound v PAGE_SIZE eq_refl). lia. }
  assert (literal motd_path = true) as Hlit by reflexivity. apply literal_cstring in Hlit as [Hc _].
  split.
  - exact Hs.
  - intros a Ha. destruct (Hz a) as [[Hu Hm] _]; [unfold PAGE_SIZE; lia|]. split; [exact Hu|]. unfold mapped in *.
    change (k_root motd_kernel) with vmm_root. change (k_machine motd_kernel) with motd_space. rewrite Hv. exact Hm.
  - reflexivity.
  - intros fd Hfd. left. unfold handle_at. change (current_handles motd_kernel) with (replicate 64 null_handle).
    rewrite nth_lookup. destruct (replicate 64 null_handle !! Z.to_nat fd) as [h|] eqn:E; [|reflexivity].
    apply lookup_replicate_1 in E as [-> _]. reflexivity.
  - split; [exact Hc|]. vm_compute. lia.
  - reflexivity.
  - change (disk_entries (k_vfs motd_kernel)) with (disk_entries demo_vfs).
    assert (forall e, In e (disk_entries demo_vfs) -> literal (de_name e) = true /\ de_type e = ORE_VFS_FILE /\ 0 <= de_size e < 10) as He.
    { intros e [<-|[<-|[<-|[]]]]; (split; [reflexivity|split; [reflexivity|cbn; lia]]). }
    apply List.Forall_forall. intros e Hin. destruct (He e Hin) as (E1 & E2 & E3). apply literal_cstring in E1 as [E1 _].
    split; [exact E1|]. rewrite E2. split; [unfold word32, ORE_VFS_FILE; lia|]. split; [discriminate|]. unfold word64. lia.
  - apply Forall_singleton. split; [|split; [reflexivity|split; [cbn; lia|]]].
    + split; [apply (literal_cstring (bytes_of "etc/motd"%string)); reflexivity|]. cbn. unfold word32, word64, ORE_VFS_FILE. lia.
    + cbn [f_data f_size]. change (k_root motd_kernel) with vmm_root. change (k_machine motd_kernel) with motd_space.
      intros x v Hx Hr E. specialize (Hlow v Hr). lia.
  - split; [vm_compute|vm_compute]; reflexivity.
Qed.

Lemma motd_contents : kernel_file motd_kernel motd_path = Some motd.
Proof.
  assert (archive_file motd_kernel motd_path = Some (mk_file (bytes_of "etc/motd"%string) 0x9200 3 ORE_VFS_FILE)) as E by (vm_compute; reflexivity).
  unfold kernel_file. rewrite E. cbn [fmap option_fmap option_map f_data f_size].
  pose proof (mem_at_load_bytes _ _ _ (mem_at_store (m_mem demo_space) 0x9200 motd (bytes_of_range _))) as Hl. exact (f_equal Some Hl).
Qed.

Lemma cat_on_kernel_witness : exists sy',
  cat_main (H:=kernel_os no_modules 0 demo_inputs 0 0 USER_BASE) 4 (replicate 128 0) (replicate 256 0) motd_system = Some (0, sy') /\
  sy_serial sy' = bytes_of "ore"%string ++ [13; 10].
Proof.
  destruct (cat_on_kernel no_modules 0 demo_inputs 0 0 USER_BASE (eq vmm_root) (Forall_nil_2 _) 4 (replicate 128 0) (replicate 256 0) motd_system)
    as [H1 _].
  - exact motd_kernel_ok.
  - reflexivity.
  - apply Forall_replicate. unfold byte_ok. lia.
  - reflexivity.
  - apply Forall_replicate. unfold byte_ok. lia.
  - discriminate.
  - vm_compute. lia.
  - destruct (H1 motd) as (sy' & E & _ & Ho & _).
    + exact motd_contents.
    + apply cstring_nonzero, (literal_cstring motd). reflexivity.
    + discriminate.
    + cbn. lia.
    + exists sy'. split; [exact E|exact Ho].
Defined.

Lemma listing_on_kernel_witness : exists sy' sy'',
  ls_main (H:=kernel_os no_modules 0 demo_inputs 0 0 USER_BASE) 1 (replicate 128 0) motd_system = Some (0, sy') /\
  sy_serial sy' = bytes_of "ls: empty or not found"%string ++ [13; 10] /\
  stat_main (H:=kernel_os no_modules 0 demo_inputs 0 0 USER_BASE) (replicate 128 0) motd_system = (0, sy'') /\
  sy_serial sy'' = bytes_of "etc/motd type=1 size=3"%string ++ [13; 10].
Proof.
  destruct (listing_on_kernel no_modules 0 demo_inputs 0 0 USER_BASE (eq vmm_root) (Forall_nil_2 _) 1 (replicate 128 0) motd_system) as [H1 H2].
  - exact motd_kernel_ok.
  - reflexivity.
  - apply Forall_replicate. unfold byte_ok. lia.
  - vm_compute. lia.
  - vm_compute. lia.
  - destruct H1 as (sy' & E1 & _ & O1).
    destruct (H2 (mk_stat (bytes_of "etc/motd"%string) ORE_VFS_FILE 3)) as (sy'' & E2 & _ & O2).
    + discriminate.
    + vm_compute. reflexivity.
    + exists sy', sy''. split; [exact E1|]. split; [rewrite O1; vm_compute; reflexivity|]. split; [exact E2|rewrite O2; vm_compute; reflexivity].
Defined.
