(* ===== verification/X86.v ===== *)
(** The instructions that OreLang programs use.

    A machine-code semantics of the subset of x86-64 that user/orec.c emits,
    after the processor manual: [decode] reads an instruction from the bytes at
    the instruction pointer, [exec] performs it.  The program text is separate
    from data memory, because the loader maps it read-only.  An instruction
    outside of the subset, a division fault and a jump out of the text have no
    step. *)
From stdpp Require Import base numbers list relations.
From Stdlib Require Import ZArith Lia.
From S2P Require Import Prelude Memory.

Inductive reg := RAX | RCX | RDX | RBX | RSP | RBP | RSI | RDI | R8 | R9 | R10 | R11 | R12 | R13 | R14 | R15.

Definition reg_code (r : reg) : Z :=
  match r with
  | RAX => 0 | RCX => 1 | RDX => 2 | RBX => 3 | RSP => 4 | RBP => 5 | RSI => 6 | RDI => 7
  | R8 => 8 | R9 => 9 | R10 => 10 | R11 => 11 | R12 => 12 | R13 => 13 | R14 => 14 | R15 => 15
  end.
Definition reg_eqb (a b : reg) : bool := reg_code a =? reg_code b.

(** The register of a four-bit number. *)
Definition reg_of (n : Z) : reg :=
  nth (Z.to_nat n) [RAX; RCX; RDX; RBX; RSP; RBP; RSI; RDI; R8; R9; R10; R11; R12; R13; R14; R15] R15.

(** Zero, sign and overflow flag of a comparison; [None] when the last flags
    written are not those of a comparison. *)
Record flags := mk_flags { f_zero : bool; f_sign : bool; f_over : bool }.

Record cpu := mk_cpu { regs : reg -> Z; rip : Z; cc : option flags; cmem : mem }.

Definition get (r : reg) (s : cpu) : Z := regs s r.
Definition set (r : reg) (v : Z) (s : cpu) : cpu :=
  mk_cpu (fun x => if reg_eqb r x then v else regs s x) (rip s) (cc s) (cmem s).
Definition set_rip (v : Z) (s : cpu) : cpu := mk_cpu (regs s) v (cc s) (cmem s).
Definition set_cc (f : option flags) (s : cpu) : cpu := mk_cpu (regs s) (rip s) f (cmem s).
Definition set_mem (m : mem) (s : cpu) : cpu := mk_cpu (regs s) (rip s) (cc s) m.

(** ** Instructions *)

(** A register, or memory at a base register (the address of the next
    instruction for [None]) plus a displacement. *)
Inductive operand := OReg (r : reg) | OMem (base : option reg) (disp : Z).

Inductive alu := ADD | OR | AND | SUB | XOR | CMP.
Inductive cond := CE | CNE | CL | CGE | CLE | CG.

Inductive instr :=
| Mov (n : nat) (dst src : operand)  (** [n] bytes *)
| MovImm (r : reg) (imm : Z)
| MovImm8 (dst : operand) (imm : Z)
| MovZx (r : reg) (src : operand)
| Lea (r : reg) (src : operand)
| Push (r : reg)
| Pop (r : reg)
| Alu (op : alu) (dst src : operand)
| AluImm (op : alu) (dst : operand) (imm : Z)
| AddImm8 (dst : operand) (imm : Z)
| Imul (r : reg) (src : operand)
| ImulImm (r : reg) (src : operand) (imm : Z)
| Not (dst : operand)
| Neg (dst : operand)
| Div (src : operand)
| Idiv (src : operand)
| Dec (dst : operand)
| Cqo
| Shl (dst : operand)
| Sar (dst : operand)
| Setcc (c : cond) (dst : operand)
| Jcc (c : cond) (rel : Z)
| Jmp (rel : Z)
| Call (rel : Z)
| Ret
| Syscall.

(** ** Decoding *)

(** The value of little-endian bytes, and of a signed displacement. *)
Fixpoint le_value (bs : list Z) : Z := match bs with [] => 0 | b :: bs => b + 256 * le_value bs end.
Definition s8 (x : Z) : Z := if u8 x <? 128 then u8 x else u8 x - 256.

Definition imm8 (bs : list Z) : option Z := match bs with b :: _ => Some (s8 b) | [] => None end.
Definition imm32 (bs : list Z) : option Z :=
  if Nat.ltb (length bs) 4 then None else Some (s32 (le_value (take 4 bs))).
Definition imm64 (bs : list Z) : option Z :=
  if Nat.ltb (length bs) 8 then None else Some (le_value (take 8 bs)).

(** ModR/M: the register field, the operand, the number of bytes. *)
Definition modrm (rexr rexb : bool) (bs : list Z) : option (Z * operand * nat) :=
  match bs with
  | [] => None
  | b :: bs =>
      let md := b / 64 in
      let field := b / 8 mod 8 + (if rexr then 8 else 0) in
      let rm := b mod 8 in
      let base := reg_of (rm + if rexb then 8 else 0) in
      if md =? 3 then Some (field, OReg base, 1%nat)
      else if (rm =? 4) && (md =? 1) then
        match bs with
        | sib :: bs => if sib =? 0x24 then d ← imm8 bs; Some (field, OMem (Some RSP) d, 3%nat) else None
        | [] => None
        end
      else if rm =? 4 then None
      else if md =? 2 then d ← imm32 bs; Some (field, OMem (Some base) d, 5%nat)
      else if md =? 1 then d ← imm8 bs; Some (field, OMem (Some base) d, 2%nat)
      else if rm =? 5 then d ← imm32 bs; Some (field, OMem None d, 5%nat)
      else Some (field, OMem (Some base) 0, 1%nat)
  end.

Definition cond_of (n : Z) : option cond :=
  if n =? 4 then Some CE else if n =? 5 then Some CNE else if n =? 12 then Some CL
  else if n =? 13 then Some CGE else if n =? 14 then Some CLE else if n =? 15 then Some CG else None.

Definition alu_of (n : Z) : option alu :=
  if n =? 0 then Some ADD else if n =? 1 then Some OR else if n =? 4 then Some AND
  else if n =? 5 then Some SUB else if n =? 6 then Some XOR else if n =? 7 then Some CMP else None.

(** An opcode after its prefixes: REX present, W, R, B.  The instruction and
    the number of bytes after the opcode. *)
Definition decode_op (w r b : bool) (op : Z) (bs : list Z) : option (instr * nat) :=
  let width := if w then 8%nat else 4%nat in
  if (0x50 <=? op) && (op <? 0x58) then Some (Push (reg_of (op - 0x50 + if b then 8 else 0)), O)
  else if (0x58 <=? op) && (op <? 0x60) then Some (Pop (reg_of (op - 0x58 + if b then 8 else 0)), O)
  else if (0xB8 <=? op) && (op <? 0xC0) && w then
    v ← imm64 bs; Some (MovImm (reg_of (op - 0xB8 + if b then 8 else 0)) v, 8%nat)
  else if op =? 0x05 then if w then v ← imm32 bs; Some (AluImm ADD (OReg RAX) v, 4%nat) else None
  else if op =? 0x99 then if w then Some (Cqo, O) else None
  else if op =? 0xC3 then Some (Ret, O)
  else if op =? 0xE8 then d ← imm32 bs; Some (Call d, 4%nat)
  else if op =? 0xE9 then d ← imm32 bs; Some (Jmp d, 4%nat)
  else
    '(field, o, n) ← modrm r b bs;
    let rest := drop n bs in
    if op =? 0x88 then Some (Mov 1 o (OReg (reg_of field)), n)
    else if op =? 0x89 then Some (Mov width o (OReg (reg_of field)), n)
    else if op =? 0x8B then Some (Mov width (OReg (reg_of field)) o, n)
    else if op =? 0x80 then
      if field =? 0 then v ← imm8 rest; Some (AddImm8 o v, (n + 1)%nat) else None
    else if op =? 0xC6 then if field =? 0 then v ← imm8 rest; Some (MovImm8 o v, (n + 1)%nat) else None
    else if negb w then None
    else if op =? 0x8D then Some (Lea (reg_of field) o, n)
    else if (op mod 8 =? 1) && (op <? 0x40) then a ← alu_of (op / 8); Some (Alu a o (OReg (reg_of field)), n)
    else if op =? 0x81 then a ← alu_of field; v ← imm32 rest; Some (AluImm a o v, (n + 4)%nat)
    else if op =? 0x83 then a ← alu_of field; v ← imm8 rest; Some (AluImm a o v, (n + 1)%nat)
    else if op =? 0x6B then v ← imm8 rest; Some (ImulImm (reg_of field) o v, (n + 1)%nat)
    else if op =? 0xF7 then
      if field =? 2 then Some (Not o, n) else if field =? 3 then Some (Neg o, n)
      else if field =? 6 then Some (Div o, n) else if field =? 7 then Some (Idiv o, n) else None
    else if op =? 0xFF then if field =? 1 then Some (Dec o, n) else None
    else if op =? 0xD3 then
      if field =? 4 then Some (Shl o, n) else if field =? 7 then Some (Sar o, n) else None
    else None.

(** Opcodes that start with 0F. *)
Definition decode_0f (w r b : bool) (op : Z) (bs : list Z) : option (instr * nat) :=
  if op =? 0x05 then Some (Syscall, O)
  else if (0x80 <=? op) && (op <? 0x90) then c ← cond_of (op - 0x80); d ← imm32 bs; Some (Jcc c d, 4%nat)
  else
    '(field, o, n) ← modrm r b bs;
    if (0x90 <=? op) && (op <? 0xA0) then c ← cond_of (op - 0x90); Some (Setcc c o, n)
    else if op =? 0xB6 then Some (MovZx (reg_of field) o, n)
    else if op =? 0xAF then if w then Some (Imul (reg_of field) o, n) else None
    else None.

(** The instruction at the head of [bs] and its length. *)
Definition decode (bs : list Z) : option (instr * nat) :=
  match bs with
  | [] => None
  | p :: tl =>
      let '(w, r, b, k, bs) :=
        if (0x40 <=? p) && (p <? 0x50) then (Z.testbit p 3, Z.testbit p 2, Z.testbit p 0, 1%nat, tl)
        else (false, false, false, O, bs) in
      match bs with
      | [] => None
      | op :: bs =>
          if op =? 0x0F then
            match bs with
            | [] => None
            | op :: bs => '(i, n) ← decode_0f w r b op bs; Some (i, (k + 2 + n)%nat)
            end
          else '(i, n) ← decode_op w r b op bs; Some (i, (k + 1 + n)%nat)
      end
  end.

(** ** Execution *)

Definition address (base : option reg) (disp : Z) (s : cpu) : Z :=
  u64 ((match base with Some r => get r s | None => rip s end) + disp).

(** The low [n] bytes of an operand. *)
Definition read (n : nat) (o : operand) (s : cpu) : Z :=
  match o with
  | OReg r => get r s mod 256 ^ Z.of_nat n
  | OMem base disp => load_le n (cmem s) (address base disp s)
  end.

(** A write of four bytes to a register clears the upper half, one of a single
    byte keeps the rest. *)
Definition write (n : nat) (o : operand) (v : Z) (s : cpu) : cpu :=
  match o with
  | OReg r => set r (match n with 1%nat => get r s / 256 * 256 + u8 v | 4%nat => u32 v | _ => u64 v end) s
  | OMem base disp => set_mem (store_le n (cmem s) (address base disp s) v) s
  end.

Definition alu_result (op : alu) (a b : Z) : Z :=
  match op with
  | ADD => u64 (a + b)
  | OR => Z.lor a b
  | AND => Z.land a b
  | SUB | CMP => u64 (a - b)
  | XOR => Z.lxor a b
  end.

Definition cmp_flags (a b : Z) : flags :=
  let d := u64 (a - b) in
  mk_flags (d =? 0) (s64 d <? 0) (negb (s64 a - s64 b =? s64 d)).

Definition holds (c : cond) (f : flags) : bool :=
  match c with
  | CE => f_zero f
  | CNE => negb (f_zero f)
  | CL => xorb (f_sign f) (f_over f)
  | CGE => negb (xorb (f_sign f) (f_over f))
  | CLE => f_zero f || xorb (f_sign f) (f_over f)
  | CG => negb (f_zero f) && negb (xorb (f_sign f) (f_over f))
  end.

(** The instruction pointer of [s] is that of the next instruction. *)
Definition exec_alu (op : alu) (dst : operand) (b : Z) (s : cpu) : cpu :=
  let a := read 8 dst s in
  match op with
  | CMP => set_cc (Some (cmp_flags a b)) s
  | _ => set_cc None (write 8 dst (alu_result op a b) s)
  end.

Definition push (v : Z) (s : cpu) : cpu :=
  let sp := u64 (get RSP s - 8) in set_mem (store64 (cmem s) sp v) (set RSP sp s).

Inductive effect :=
| Next (s : cpu)   (** the instruction completed *)
| Trap (s : cpu).  (** a system call, for the kernel *)

Definition exec (i : instr) (s : cpu) : option effect :=
  match i with
  | Mov n dst src => Some (Next (write n dst (read n src s) s))
  | MovImm r imm => Some (Next (set r (u64 imm) s))
  | MovImm8 dst imm => Some (Next (write 1 dst imm s))
  | MovZx r src => Some (Next (set r (read 1 src s) s))
  | Lea r src =>
      match src with OMem base disp => Some (Next (set r (address base disp s) s)) | OReg _ => None end
  | Push r => Some (Next (push (get r s) s))
  | Pop r => Some (Next (set r (load64 (cmem s) (get RSP s)) (set RSP (u64 (get RSP s + 8)) s)))
  | Alu op dst src => Some (Next (exec_alu op dst (read 8 src s) s))
  | AluImm op dst imm => Some (Next (exec_alu op dst (u64 imm) s))
  | AddImm8 dst imm => Some (Next (set_cc None (write 1 dst (read 1 dst s + imm) s)))
  | Imul r src => Some (Next (set_cc None (set r (u64 (get r s * read 8 src s)) s)))
  | ImulImm r src imm => Some (Next (set_cc None (set r (u64 (read 8 src s * imm)) s)))
  | Not dst => Some (Next (write 8 dst (not64 (read 8 dst s)) s))
  | Neg dst => Some (Next (set_cc None (write 8 dst (u64 (- read 8 dst s)) s)))
  | Div src =>
      let d := read 8 src s in
      let n := get RDX s * 18446744073709551616 + get RAX s in
      if (d =? 0) || (18446744073709551616 <=? n / d) then None
      else Some (Next (set_cc None (set RDX (n mod d) (set RAX (n / d) s))))
  | Idiv src =>
      let d := s64 (read 8 src s) in
      let n := s64 (get RDX s) * 18446744073709551616 + get RAX s in
      if (d =? 0) || negb ((-9223372036854775808 <=? Z.quot n d) && (Z.quot n d <? 9223372036854775808)) then None
      else Some (Next (set_cc None (set RDX (u64 (Z.rem n d)) (set RAX (u64 (Z.quot n d)) s))))
  | Dec dst => Some (Next (set_cc None (write 8 dst (u64 (read 8 dst s - 1)) s)))
  | Cqo => Some (Next (set RDX (if s64 (get RAX s) <? 0 then 18446744073709551615 else 0) s))
  | Shl dst => Some (Next (set_cc None (write 8 dst (u64 (Z.shiftl (read 8 dst s) (get RCX s mod 64))) s)))
  | Sar dst => Some (Next (set_cc None (write 8 dst (u64 (Z.shiftr (s64 (read 8 dst s)) (get RCX s mod 64))) s)))
  | Setcc c dst =>
      match cc s with Some f => Some (Next (write 1 dst (if holds c f then 1 else 0) s)) | None => None end
  | Jcc c rel =>
      match cc s with Some f => Some (Next (if holds c f then set_rip (u64 (rip s + rel)) s else s)) | None => None end
  | Jmp rel => Some (Next (set_rip (u64 (rip s + rel)) s))
  | Call rel => Some (Next (set_rip (u64 (rip s + rel)) (push (rip s) s)))
  | Ret => Some (Next (set_rip (load64 (cmem s) (get RSP s)) (set RSP (u64 (get RSP s + 8)) s)))
  | Syscall => Some (Trap s)
  end.

(** One instruction of the text [C] loaded at [base]. *)
Definition step (C : list Z) (base : Z) (s : cpu) : option effect :=
  if (rip s <? base) || (base + Z.of_nat (length C) <=? rip s) then None else
  '(i, n) ← decode (drop (Z.to_nat (rip s - base)) C);
  exec i (set_rip (rip s + Z.of_nat n) s).

Definition steps (C : list Z) (base : Z) : relation cpu := rtc (fun s s' => step C base s = Some (Next s')).

(** ** Assembled code *)

(** [b] is the encoding of [i], whatever follows. *)
Definition encodes (b : list Z) (i : instr) : Prop :=
  forall rest, decode (b ++ rest) = Some (i, length b).

(** Code with the bytes of each instruction. *)
Definition code : Type := list (list Z * instr).
Definition code_bytes (cd : code) : list Z := concat (map fst cd).
Definition encoded (cd : code) : Prop := Forall (fun bi => encodes bi.1 bi.2) cd.

Lemma code_bytes_app a b : code_bytes (a ++ b) = code_bytes a ++ code_bytes b.
Proof. unfold code_bytes. by rewrite map_app, concat_app. Qed.

Lemma le_value_le_bytes k v : le_value (le_bytes k v) = v mod 256 ^ Z.of_nat k.
Proof.
  revert v. induction k as [|k IH]; intros v; cbn [le_bytes le_value].
  - by rewrite Z.mod_1_r.
  - rewrite IH. replace (Z.of_nat (S k)) with (Z.of_nat k + 1) by lia.
    rewrite Z.pow_add_r, Z.pow_1_r by lia. unfold u8.
    assert (0 < 256 ^ Z.of_nat k) by (apply Z.pow_pos_nonneg; lia).
    rewrite (Z.mul_comm (256 ^ _)), Z.rem_mul_r by lia. lia.
Qed.

Lemma take_le_bytes k v rest : take k (le_bytes k v ++ rest) = le_bytes k v.
Proof. rewrite take_app_le by (rewrite le_bytes_length; lia). apply take_ge. rewrite le_bytes_length. lia. Qed.

Lemma imm32_le v rest : -2147483648 <= v < 2147483648 -> imm32 (le_bytes 4 (u32 v) ++ rest) = Some v.
Proof.
  intros Hv. unfold imm32. rewrite length_app, le_bytes_length, take_le_bytes, le_value_le_bytes.
  cbn [Nat.ltb Nat.leb Nat.add]. f_equal. unfold s32, u32. change (256 ^ Z.of_nat 4) with 4294967296.
  rewrite !Zmod_mod. cmp_cases; zlia.
Qed.

Lemma imm64_le v rest : word64 v -> imm64 (le_bytes 8 (u64 v) ++ rest) = Some v.
Proof.
  intros Hv. unfold imm64. rewrite length_app, le_bytes_length, take_le_bytes, le_value_le_bytes.
  cbn [Nat.ltb Nat.leb Nat.add]. f_equal. change (256 ^ Z.of_nat 8) with 18446744073709551616.
  rewrite (u64_small v) by done. by apply Z.mod_small.
Qed.

(** ** Straight-line code *)

Definition plain_operand (o : operand) : bool := match o with OMem None _ => false | _ => true end.

(** The instruction neither reads nor changes the instruction pointer. *)
Definition plain (i : instr) : bool :=
  match i with
  | Mov _ d s | Alu _ d s => plain_operand d && plain_operand s
  | MovImm8 o _ | MovZx _ o | Lea _ o | AluImm _ o _ | AddImm8 o _ | Imul _ o | ImulImm _ o _
  | Not o | Neg o | Div o | Idiv o | Dec o | Shl o | Sar o | Setcc _ o => plain_operand o
  | MovImm _ _ | Push _ | Pop _ | Cqo => true
  | Jcc _ _ | Jmp _ | Call _ | Ret | Syscall => false
  end.

(** The instructions one after the other. *)
Fixpoint run (l : list instr) (s : cpu) : option cpu :=
  match l with
  | [] => Some s
  | i :: l => match exec i s with Some (Next s) => run l s | _ => None end
  end.

Lemma run_app a b s : run (a ++ b) s = s' ← run a s; run b s'.
Proof. revert s. induction a as [|i a IH]; intros s; cbn [run app]; [done|]. destruct (exec i s) as [[]|]; cbn; auto. Qed.

Lemma read_rip n o a s : plain_operand o = true -> read n o (set_rip a s) = read n o s.
Proof. by destruct o as [|[|]]. Qed.

Lemma write_rip n o v a s : plain_operand o = true -> write n o v (set_rip a s) = set_rip a (write n o v s).
Proof. by destruct o as [|[|]]. Qed.

Lemma exec_plain i a s s' :
  plain i = true -> exec i s = Some (Next s') -> exec i (set_rip a s) = Some (Next (set_rip a s')).
Proof.
  destruct i; cbn [plain]; intros Hp; try discriminate Hp; bool_to_prop; unfold exec, exec_alu; rewrite ?read_rip, ?write_rip by done;
    try (intros [= <-]; reflexivity).
  - destruct src as [|[|]]; [discriminate|by intros [= <-]|discriminate].
  - intros [= <-]. by destruct op.
  - intros [= <-]. by destruct op.
  - change (get RDX (set_rip a s)) with (get RDX s). change (get RAX (set_rip a s)) with (get RAX s).
    case_test; intros [= <-]. reflexivity.
  - change (get RDX (set_rip a s)) with (get RDX s). change (get RAX (set_rip a s)) with (get RAX s).
    case_test; intros [= <-]. reflexivity.
  - change (cc (set_rip a s)) with (cc s). destruct (cc s); intros [= <-]. by rewrite write_rip.
Qed.

Lemma run_plain (l : code) a s s' :
  Forall (fun bi => plain bi.2 = true /\ bi.1 <> []) l ->
  run (map snd l) s = Some s' -> run (map snd l) (set_rip a s) = Some (set_rip a s').
Proof.
  revert s. induction l as [|[b i] l IH]; intros s Hp Hrun; cbn [map snd run] in *; [by injection Hrun as <-|].
  apply Forall_cons in Hp as [[Hp _] Hp2]. cbn [snd] in Hp.
  destruct (exec i s) as [[s2|]|] eqn:Ex; [|discriminate|discriminate].
  rewrite (exec_plain _ _ _ _ Hp Ex). by apply IH.
Qed.

Lemma set_rip_twice a b s : set_rip a (set_rip b s) = set_rip a s.
Proof. done. Qed.

Lemma step_encoded C base C1 b i C3 s :
  encodes b i -> b <> [] -> C = C1 ++ b ++ C3 -> rip s = base + Z.of_nat (length C1) ->
  step C base s = exec i (set_rip (base + Z.of_nat (length (C1 ++ b))) s).
Proof.
  intros He Hb -> Hr. unfold step. rewrite !length_app, Hr.
  assert (0 < length b)%nat by (destruct b; [done|cbn; lia]).
  rewrite (proj2 (Z.ltb_ge _ _)), (proj2 (Z.leb_gt _ _)) by lia. cbn [orb].
  replace (Z.to_nat (base + Z.of_nat (length C1) - base)) with (length C1) by lia.
  rewrite drop_app_length, He. cbn. f_equal. f_equal. lia.
Qed.

(** Straight-line code runs from its first byte to the byte after it. *)
Lemma steps_code C base C1 cd C3 s s' :
  encoded cd -> Forall (fun bi => plain bi.2 = true /\ bi.1 <> []) cd ->
  C = C1 ++ code_bytes cd ++ C3 -> rip s = base + Z.of_nat (length C1) ->
  run (map snd cd) s = Some s' ->
  steps C base s (set_rip (base + Z.of_nat (length (C1 ++ code_bytes cd))) s').
Proof.
  intros He Hp -> Hr Hrun. revert C1 s s' He Hp Hr Hrun.
  induction cd as [|[b i] cd IH]; intros C1 s s' He Hp Hr Hrun; cbn [code_bytes map fst snd concat app run] in *.
  - injection Hrun as <-. rewrite app_nil_r, <- Hr. destruct s; apply rtc_refl.
  - apply Forall_cons in He as [He1 He2]. apply Forall_cons in Hp as [[Hp1 Hb1] Hp2].
    destruct (exec i s) as [[s1|s1]|] eqn:Ex; [|discriminate|discriminate]. cbn [fst snd] in *.
    eapply rtc_l.
    { rewrite (step_encoded _ base C1 b i (code_bytes cd ++ C3)); [|done|done| |done].
      - by apply exec_plain.
      - unfold code_bytes. by rewrite <- !app_assoc. }
    specialize (IH (C1 ++ b) (set_rip (base + Z.of_nat (length (C1 ++ b))) s1)
      (set_rip (base + Z.of_nat (length (C1 ++ b))) s')).
    unfold code_bytes in *. rewrite <- !app_assoc in IH. rewrite <- !app_assoc.
    rewrite <- (set_rip_twice _ (base + Z.of_nat (length (C1 ++ b))) s').
    apply IH; [done|done|done|]. by apply run_plain.
Qed.
