(* ===== verification/OrecLex.v ===== *)
(** The OreLang compiler, front end (user/orec.c).

    Source text is the list of the characters that are left; advancing a
    [const char *] drops the head.  A parser returns [Done] with its results,
    [Fail] where the C code returns -1 (the compilation is then abandoned, so no
    state is kept), [Undef] where it stores outside of an array or goes on behind the
    terminator of the source and [Timeout] when the model's fuel runs out.

    This file holds the lexer, the types and the tables of structures and
    functions that are collected before code is generated. *)
From stdpp Require Import base numbers list.
From Stdlib Require Import ZArith Lia.
From Stdlib Require Import(notations) Ascii String.
From S2P Require Import Prelude Cstring.

(** ** Results *)

Inductive res (A : Type) : Type :=
| Done (a : A)
| Fail
| Undef
| Timeout.
Arguments Done {A} a.
Arguments Fail {A}.
Arguments Undef {A}.
Arguments Timeout {A}.

Definition res_bind {A B} (x : res A) (f : A -> res B) : res B :=
  match x with
  | Done a => f a
  | Fail => Fail
  | Undef => Undef
  | Timeout => Timeout
  end.

Declare Scope res_scope.
Delimit Scope res_scope with res.
Notation "'let*' p ':=' c 'in' k" := (res_bind c (fun p => k))
  (at level 10, p pattern, c at level 100, k at level 200,
   format "'[v' 'let*'  p  ':='  c  'in' '/' k ']'") : res_scope.
#[global] Open Scope res_scope.

(** [if (x < 0) return -1] for a parser without state. *)
Definition need {A} (x : option A) : res A :=
  match x with Some a => Done a | None => Fail end.

Definition check (b : bool) : res unit := if b then Done tt else Fail.

(** ** Characters *)

(** Quotation mark, newline, carriage return, tab. *)
Definition DQUOTE : Z := 34.
Definition NL : Z := 10.
Definition CR : Z := 13.
Definition TAB : Z := 9.

(** [*s]. *)
Definition peek (s : list Z) : Z := char_at s 0.

Definition is_alpha (c : Z) : bool :=
  ((ch "a" <=? c) && (c <=? ch "z")) || ((ch "A" <=? c) && (c <=? ch "Z")) || (c =? ch "_").
Definition is_digit (c : Z) : bool := (ch "0" <=? c) && (c <=? ch "9").
Definition is_alnum (c : Z) : bool := is_alpha c || is_digit c.
Definition is_space (c : Z) : bool := (c =? ch " ") || (c =? TAB) || (c =? NL) || (c =? CR).

Definition keyword_at (s : list Z) (kw : String.string) : bool :=
  starts_with s (bytes_of kw) && negb (is_alnum (char_at s (String.length kw))).
Arguments keyword_at s kw%_string_scope.

(** [skip_ws]; [comment] is the state of the inner loop over a comment. *)
Fixpoint skip_from (comment : bool) (p : list Z) : list Z :=
  match p with
  | [] => []
  | c :: r =>
      if comment then skip_from (negb (c =? NL)) r
      else if is_space c then skip_from false r
      else if (c =? ch "/") && (peek r =? ch "/") then skip_from true r
      else p
  end.
Definition skip_ws (p : list Z) : list Z := skip_from false p.

(** [while (is_alnum( *s))]. *)
Fixpoint alnum_run (s : list Z) : list Z :=
  match s with
  | c :: r => if is_alnum c then c :: alnum_run r else []
  | [] => []
  end.

(** An identifier; the name keeps 31 characters. *)
Definition parse_ident (p : list Z) : option (list Z * list Z) :=
  let s := skip_ws p in
  if negb (is_alpha (peek s)) then None
  else Some (take 31 (alnum_run s), drop (length (alnum_run s)) s).

(** [name_eq] of a name with a literal. *)
Definition name_is (name : list Z) (s : String.string) : bool := str_eq name (bytes_of s).
Arguments name_is name s%_string_scope.

Definition consume (p : list Z) (c : Z) : option (list Z) :=
  let s := skip_ws p in if negb (peek s =? c) then None else Some (drop 1 s).

Fixpoint parse_uint_from (v : Z) (p : list Z) : Z * list Z :=
  match p with
  | c :: r => if is_digit c then parse_uint_from (v *u 10 +u (c - ch "0")) r else (v, p)
  | [] => (v, p)
  end.
Definition parse_uint (p : list Z) : Z * list Z := parse_uint_from 0 p.

(** The loop over a string literal, with the bound of the buffer as the largest
    length at which it continues.  Returns the characters and the rest. *)
Fixpoint string_chars (room : nat) (s : list Z) : list Z * list Z :=
  match room, s with
  | S room, c :: r =>
      if c =? DQUOTE then ([], s) else
      let '(c, r) :=
        if c =? ch "\" then
          match r with
          | e :: r' => if e =? ch "n" then (NL, r') else if e =? ch "r" then (CR, r')
                       else if e =? ch "t" then (TAB, r') else (c, r)
          | [] => (c, r)
          end
        else (c, r) in
      let '(str, r) := string_chars room r in (c :: str, r)
  | _, _ => ([], s)
  end.

(** ** Types *)

Inductive TypeKind :=
| TY_VOID | TY_BOOL | TY_CHAR | TY_U8 | TY_I32 | TY_U32 | TY_INT | TY_U64 | TY_PTR | TY_ARRAY | TY_STRUCT.

#[global] Instance TypeKind_eq_dec : EqDecision TypeKind.
Proof. solve_decision. Defined.

Definition kind_eqb (a b : TypeKind) : bool := bool_decide (a = b).

Record Ty := mk_ty {
  t_kind : TypeKind; t_size : Z; t_align : Z; t_base : Z; t_count : Z; t_struc : Z }.

Definition ty_int : Ty := mk_ty TY_INT 8 8 0 0 0.
Definition ty_char : Ty := mk_ty TY_CHAR 1 1 0 0 0.
Definition ty_void : Ty := mk_ty TY_VOID 0 1 0 0 0.
Definition ty_bool : Ty := mk_ty TY_BOOL 1 1 0 0 0.

Definition or_else (x d : Z) : Z := if x =? 0 then d else x.

Definition ty_ptr (base : Ty) : Ty :=
  mk_ty TY_PTR 8 8
    (match t_kind base with
     | TY_CHAR | TY_U8 => 1
     | TY_I32 | TY_U32 => 4
     | TY_VOID => 1
     | _ => or_else (t_size base) 8
     end) 0 0.

(** The kind that [ty_array_element], and loads and stores through pointers,
    give a value of [size] bytes. *)
Definition kind_of_size (size : Z) : TypeKind :=
  if size =? 1 then TY_U8 else if size =? 4 then TY_U32 else TY_INT.
Definition sized_value (size : Z) : Ty :=
  mk_ty (kind_of_size size) size (if size <? 8 then size else 8) 0 0 0.

Definition ty_array_element (array : Ty) : Ty := sized_value (or_else (t_base array) 1).

Definition align_up_u32 (v a : Z) : Z := if a =? 0 then v else u32 (u32 (v + a - 1) / a * a).

Definition type_is_ptr (t : Ty) : bool := kind_eqb (t_kind t) TY_PTR || kind_eqb (t_kind t) TY_ARRAY.
Definition type_is_int_like (t : Ty) : bool :=
  match t_kind t with
  | TY_INT | TY_U64 | TY_I32 | TY_U32 | TY_CHAR | TY_U8 | TY_BOOL => true
  | _ => false
  end.
Definition type_pointee_size (t : Ty) : Z :=
  match t_kind t with
  | TY_ARRAY | TY_PTR => or_else (t_base t) 1
  | _ => 1
  end.

(** ** Structures *)

Record Field := mk_field { fd_name : list Z; fd_type : Ty; fd_offset : Z }.
Record StructDef := mk_struct {
  sd_name : list Z; sd_fields : list Field; sd_size : Z; sd_align : Z; sd_packed : bool }.

(** The first entry of a table with a name. *)
Fixpoint find_named {A} (key : A -> list Z) (name : list Z) (l : list A) (i : Z) : option (Z * A) :=
  match l with
  | [] => None
  | x :: l => if str_eq (key x) name then Some (i, x) else find_named key name l (i + 1)
  end.

Definition find_struct (structs : list StructDef) (name : list Z) : option (Z * StructDef) :=
  find_named sd_name name structs 0.
Definition find_field (st : StructDef) (name : list Z) : option Field :=
  option_map snd (find_named fd_name name (sd_fields st) 0).

(** The suffix [[count]] of a type. *)
Definition array_of (elem : Ty) (count : Z) : Ty :=
  let base := or_else (t_size elem) 1 in
  mk_ty TY_ARRAY (u32 (base * count)) (or_else (t_align elem) 1) base count (t_struc elem).

Definition basic_type (name : list Z) : option Ty :=
  if name_is name "void" then Some ty_void
  else if name_is name "bool" then Some (mk_ty TY_BOOL 1 1 0 0 0)
  else if name_is name "char" then Some ty_char
  else if name_is name "u8" then Some (mk_ty TY_U8 1 1 0 0 0)
  else if name_is name "i32" then Some (mk_ty TY_I32 4 4 0 0 0)
  else if name_is name "u32" then Some (mk_ty TY_U32 4 4 0 0 0)
  else if name_is name "int" then Some ty_int
  else if name_is name "u64" then Some (mk_ty TY_U64 8 8 0 0 0)
  else None.

(** [s[0] == '[' ... ']']: the count and the rest. *)
Definition parse_count (s : list Z) : res (Z * list Z) :=
  let '(count, s) := parse_uint s in
  let* s := need (consume s (ch "]")) in
  Done (u32 count, s).

Fixpoint parse_type (fuel : nat) (structs : list StructDef) (p : list Z) : res (Ty * list Z) :=
  match fuel with
  | O => Timeout
  | S fuel =>
      let s := skip_ws p in
      if peek s =? ch "[" then
        let* (count, s) := parse_count (drop 1 s) in
        let* (elem, s) := parse_type fuel structs s in
        Done (array_of elem count, s)
      else
        let* (name, s) := need (parse_ident s) in
        let* (out, s) :=
          match basic_type name with
          | Some t => Done (t, s)
          | None =>
              if name_is name "ptr" then
                let* s := need (consume s (ch "<")) in
                let* (base, s) := parse_type fuel structs s in
                let* s := need (consume s (ch ">")) in
                Done (ty_ptr base, s)
              else
                let* (idx, st) := need (find_struct structs name) in
                Done (mk_ty TY_STRUCT (sd_size st) (sd_align st) 0 0 idx, s)
          end in
        let s := skip_ws s in
        if peek s =? ch "[" then
          let* (count, s) := parse_count (drop 1 s) in
          Done (array_of out count, s)
        else Done (out, s)
  end.

(** [if ( *p == quote) p++] after the loop over a string that is skipped: escapes
    are two characters. *)
Fixpoint skip_string (p : list Z) : list Z :=
  match p with
  | [] => []
  | c :: r =>
      if c =? DQUOTE then p
      else if c =? ch "\" then match r with [] => [] | _ :: r' => skip_string r' end
      else skip_string r
  end.
Definition skip_literal (p : list Z) : list Z :=
  let p := skip_string p in if peek p =? DQUOTE then drop 1 p else p.

(** [while ( *p && *p != c) p++]. *)
Fixpoint skip_to (c : Z) (p : list Z) : list Z :=
  match p with
  | [] => []
  | x :: r => if x =? c then p else skip_to c r
  end.
Definition skip_past (c : Z) (p : list Z) : list Z :=
  let p := skip_to c p in if peek p =? c then drop 1 p else p.

Definition MAX_STRUCTS : Z := 16.
Definition MAX_FIELDS : Z := 32.

(** A field is placed at the next multiple of its alignment. *)
Definition place_field (st : StructDef) (name : list Z) (t : Ty) : StructDef :=
  let align := if sd_packed st then 1 else or_else (t_align t) 1 in
  let offset := align_up_u32 (sd_size st) align in
  mk_struct (sd_name st) (sd_fields st ++ [mk_field name t offset]) (u32 (offset + t_size t))
    (if sd_align st <? align then align else sd_align st) (sd_packed st).

Fixpoint scan_fields (fuel : nat) (structs : list StructDef) (st : StructDef) (p : list Z)
  : res (StructDef * list Z) :=
  match fuel with
  | O => Timeout
  | S fuel' =>
      if peek p =? 0 then Done (st, p) else
      let p := skip_ws p in
      if peek p =? ch "}" then Done (st, drop 1 p) else
      if MAX_FIELDS <=? Z.of_nat (length (sd_fields st)) then Fail else
      let* (name, p) := need (parse_ident p) in
      let* p := need (consume p (ch ":")) in
      let* (t, p) := parse_type fuel structs p in
      let* p := need (consume p (ch ";")) in
      scan_fields fuel' structs (place_field st name t) p
  end.

(** [#[packed]] before a structure. *)
Definition packed_attribute (p : list Z) : bool * list Z :=
  if (peek p =? ch "#") && (char_at p 1 =? ch "[") then
    match parse_ident (drop 2 p) with
    | Some (attr, a) =>
        if name_is attr "packed" && (peek (skip_ws a) =? ch "]") then (true, drop 1 (skip_ws a)) else (false, p)
    | None => (false, p)
    end
  else (false, p).

(** The structure whose keyword has been read. *)
Definition scan_struct (fuel : nat) (structs : list StructDef) (packed : bool) (p : list Z)
  : res (StructDef * list Z) :=
  if MAX_STRUCTS <=? Z.of_nat (length structs) then Fail else
  let* (name, p) := need (parse_ident p) in
  let* p := need (consume p (ch "{")) in
  let* (st, p) := scan_fields fuel structs (mk_struct name [] 0 1 packed) p in
  let st := mk_struct (sd_name st) (sd_fields st) (align_up_u32 (sd_size st) (sd_align st)) (sd_align st) packed in
  let p := skip_ws p in
  Done (st, if peek p =? ch ";" then drop 1 p else p).

Fixpoint scan_structs (fuel : nat) (structs : list StructDef) (p : list Z) : res (list StructDef) :=
  match fuel with
  | O => Timeout
  | S fuel' =>
      if peek p =? 0 then Done structs else
      let p := skip_ws p in
      if peek p =? DQUOTE then scan_structs fuel' structs (skip_literal (drop 1 p)) else
      let '(packed, p) := packed_attribute p in
      if negb (keyword_at p "struct") then scan_structs fuel' structs (drop 1 p) else
      let* (st, p) := scan_struct fuel structs packed (drop 6 p) in
      scan_structs fuel' (structs ++ [st]) p
  end.

(** ** Functions *)

Definition MAX_FUNCS : Z := 96.
Definition MAX_PARAMS : Z := 6.

Record Function := mk_fn {
  fn_name : list Z; fn_body : list Z; fn_addr : Z; fn_params : list (list Z * Ty); fn_ret : Ty;
  fn_extern : bool; fn_unsafe : bool; fn_kernel : bool; fn_user : bool; fn_export : bool }.

Definition fn_argc (f : Function) : Z := Z.of_nat (length (fn_params f)).

Definition find_func (funcs : list Function) (name : list Z) : option (Z * Function) :=
  find_named fn_name name funcs 0.

(** [copy_name] into [char dst[32]]. *)
Definition copy_name32 (src : list Z) : list Z := take 31 src.

(** The closing brace of a body; [None] is a null result. *)
Fixpoint find_matching_brace (fuel : nat) (depth : Z) (p : list Z) : res (option (list Z)) :=
  match fuel with
  | O => Timeout
  | S fuel =>
      if peek p =? 0 then Done None else
      if (peek p =? ch "/") && (char_at p 1 =? ch "/") then find_matching_brace fuel depth (skip_to NL p) else
      let p := if peek p =? DQUOTE then skip_string (drop 1 p) else p in
      if peek p =? ch "{" then find_matching_brace fuel (u32 (depth + 1)) (drop 1 p)
      else if peek p =? ch "}" then
        if u32 (depth - 1) =? 0 then Done (Some p) else find_matching_brace fuel (u32 (depth - 1)) (drop 1 p)
      else find_matching_brace fuel depth (drop 1 p)
  end.

Record attributes := mk_attrs { at_unsafe : bool; at_kernel : bool; at_user : bool; at_export : bool }.

Definition add_attribute (attr : list Z) (a : attributes) : option attributes :=
  if name_is attr "unsafe" then Some (mk_attrs true (at_kernel a) (at_user a) (at_export a))
  else if name_is attr "kernel" then Some (mk_attrs (at_unsafe a) true (at_user a) (at_export a))
  else if name_is attr "user" then Some (mk_attrs (at_unsafe a) (at_kernel a) true (at_export a))
  else if name_is attr "export" then Some (mk_attrs (at_unsafe a) (at_kernel a) (at_user a) true)
  else if name_is attr "packed" then Some a
  else None.

Fixpoint scan_attributes (fuel : nat) (a : attributes) (p : list Z) : res (attributes * list Z) :=
  match fuel with
  | O => Timeout
  | S fuel =>
      if negb ((peek p =? ch "#") && (char_at p 1 =? ch "[")) then Done (a, p) else
      let* a :=
        match parse_ident (drop 2 p) with
        | Some (attr, _) => need (add_attribute attr a)
        | None => Done a
        end in
      scan_attributes fuel a (skip_ws (skip_past (ch "]") p))
  end.

(** The parameters between the parentheses; the rest starts with the closing
    one. *)
Fixpoint scan_params (fuel : nat) (structs : list StructDef) (params : list (list Z * Ty)) (p : list Z)
  : res (list (list Z * Ty) * list Z) :=
  match fuel with
  | O => Timeout
  | S fuel' =>
      if MAX_PARAMS <=? Z.of_nat (length params) then Fail else
      let* (param, p) := need (parse_ident p) in
      let p := skip_ws p in
      let* (t, p) := if peek p =? ch ":" then parse_type fuel structs (drop 1 p) else Done (ty_int, p) in
      let params := params ++ [(copy_name32 param, t)] in
      let p := skip_ws p in
      if peek p =? ch ")" then Done (params, p)
      else if negb (peek p =? ch ",") then Fail
      else scan_params fuel' structs params (drop 1 p)
  end.

(** The function whose keyword has been read: its entry and where the scan goes
    on. *)
Definition scan_function (fuel : nat) (structs : list StructDef) (a : attributes) (is_extern : bool) (p : list Z)
  : res (Function * list Z) :=
  let* (name, p) := need (parse_ident p) in
  let* p := need (consume p (ch "(")) in
  let p := skip_ws p in
  let* (params, p) := if peek p =? ch ")" then Done ([], p) else scan_params fuel structs [] p in
  let* _ := check (peek p =? ch ")") in
  let p := skip_ws (drop 1 p) in
  let* (ret, p) :=
    if (peek p =? ch "-") && (char_at p 1 =? ch ">") then parse_type fuel structs (drop 2 p) else Done (ty_int, p) in
  let is_extern := is_extern && (peek (skip_ws p) =? ch ";") in
  let fn body :=
    mk_fn name body 0 params ret is_extern (at_unsafe a) (at_kernel a) (at_user a) (at_export a) in
  if is_extern then
    let* p := need (consume p (ch ";")) in
    Done (fn [], p)
  else
    let p := skip_to (ch "{") p in
    let* _ := check (peek p =? ch "{") in
    let* brace := find_matching_brace fuel 1 (drop 1 p) in
    let* end_ := need brace in
    Done (fn (drop 1 p), drop 1 end_).

Fixpoint scan_loop (fuel : nat) (structs : list StructDef) (funcs : list Function) (p : list Z)
  : res (list Function) :=
  match fuel with
  | O => Timeout
  | S fuel' =>
      let p := skip_ws p in
      if peek p =? 0 then Done funcs else
      if peek p =? DQUOTE then scan_loop fuel' structs funcs (skip_literal (drop 1 p)) else
      if keyword_at p "import" then scan_loop fuel' structs funcs (skip_past (ch ";") p) else
      let* (a, p) := scan_attributes fuel (mk_attrs false false false false) p in
      if keyword_at p "struct" then
        let p := skip_past (ch "}") p in
        scan_loop fuel' structs funcs (if peek p =? ch ";" then drop 1 p else p)
      else
        let is_extern := keyword_at p "extern" in
        let p := if is_extern then skip_ws (drop 6 p) else p in
        if negb (keyword_at p "fn") then
          match p with [] => Undef | _ :: p => scan_loop fuel' structs funcs p end
        else
        if MAX_FUNCS <=? Z.of_nat (length funcs) then Fail else
        let* (f, p) := scan_function fuel structs a is_extern (drop 2 p) in
        scan_loop fuel' structs (funcs ++ [f]) p
  end.

Definition scan_functions (fuel : nat) (kmod : bool) (structs : list StructDef) (p : list Z) : res (list Function) :=
  let* funcs := scan_loop fuel structs [] p in
  let* _ := need (find_func funcs (bytes_of (if kmod then "module_init" else "main")%string)) in
  Done funcs.

Definition validate_kernel_target (funcs : list Function) : bool :=
  match find_func funcs (bytes_of "module_init"%string) with
  | None => false
  | Some (_, init) =>
      negb (fn_extern init) &&
      match fn_params init with
      | [(_, t)] => kind_eqb (t_kind t) TY_PTR && type_is_int_like (fn_ret init)
      | _ => false
      end &&
      match find_func funcs (bytes_of "command_main"%string) with
      | None => true
      | Some (_, cmd) =>
          negb (fn_extern cmd) &&
          match fn_params cmd with
          | [(_, t0); (_, t1)] => kind_eqb (t_kind t0) TY_PTR && type_is_int_like t1 && type_is_int_like (fn_ret cmd)
          | _ => false
          end
      end &&
      forallb (fun f => negb (fn_user f) &&
        negb (fn_extern f && (name_is (fn_name f) "write" || name_is (fn_name f) "sys_write" ||
          name_is (fn_name f) "syscall0" || name_is (fn_name f) "syscall1" || name_is (fn_name f) "syscall2" ||
          name_is (fn_name f) "syscall3" || name_is (fn_name f) "syscall4"))) funcs
  end.

Definition validate_user_target (funcs : list Function) : bool := forallb (fun f => negb (fn_kernel f)) funcs.

(** ** Lexer lemmas *)

Lemma skip_idemp s : skip_ws (skip_ws s) = skip_ws s.
Proof.
  assert (forall b, skip_from false (skip_from b s) = skip_from b s) as H; [|apply (H false)].
  induction s as [|c r IH]; intros b; cbn [skip_from]; [done|].
  destruct b; [apply IH|]. destruct (is_space c) eqn:E1; [apply IH|].
  destruct ((c =? ch "/") && _) eqn:E2; [apply IH|]. cbn [skip_from]. by rewrite E1, E2.
Qed.
