(* ===== verification/OrecLayout.v ===== *)
(** The OreLang compiler, layout of structures.

    [laid_out] is the reference layout: each field is at the first multiple of
    its alignment after the previous one.  [struct_layout_correct] shows that the
    table which [scan_structs] builds from any source has that layout as long as
    the sizes do not exceed 32 bits, which is what the field accesses, [sizeof]
    and [offsetof] of the code generator rely on. *)
From stdpp Require Import base numbers list.
From Stdlib Require Import ZArith Lia.
From Stdlib Require Import(notations) Ascii String.
From S2P Require Import Prelude Cstring OrecLex.

(** ** Types *)

(** The alignments that occur. *)
Definition align_ok (a : Z) : Prop := a = 1 \/ a = 4 \/ a = 8.

(** The type of a value: sizes are 32-bit numbers. *)
Definition ty_ok (t : Ty) : Prop := align_ok (t_align t) /\ 0 <= t_size t < 2 ^ 32.

Definition struct_sizes_ok (st : StructDef) : Prop := align_ok (sd_align st) /\ 0 <= sd_size st < 2 ^ 32.

Lemma u32_range z : 0 <= u32 z < 2 ^ 32.
Proof. unfold u32. apply Z.mod_pos_bound. lia. Qed.

Lemma basic_type_ok name t : basic_type name = Some t -> ty_ok t.
Proof.
  unfold basic_type. intros H.
  repeat match type of H with (if ?b then _ else _) = _ => destruct b end; simplify_eq;
    (split; [unfold align_ok; simpl; lia|simpl; lia]).
Qed.

Lemma array_of_ok t n : ty_ok t -> ty_ok (array_of t n).
Proof.
  intros [Ha Hs]. split; [|apply u32_range]. unfold array_of, or_else. simpl.
  by replace (t_align t =? 0) with false by (unfold align_ok in Ha; lia).
Qed.

Lemma find_named_elem {A} (key : A -> list Z) name l i j x : find_named key name l i = Some (j, x) -> x ∈ l.
Proof.
  revert i. induction l as [|y l IH]; intros i; [discriminate|]. simpl.
  destruct (str_eq _ _); [intros [= <- <-]; left|]. intros H. right. by eapply IH.
Qed.

Lemma parse_type_ok fuel sts p t s :
  Forall struct_sizes_ok sts -> parse_type fuel sts p = Done (t, s) -> ty_ok t.
Proof.
  intros Hsts. revert p t s. induction fuel as [|fuel IH]; intros p t s; [discriminate|]. cbn [parse_type]. cbv zeta.
  destruct (peek (skip_ws p) =? ch "[").
  { destruct (parse_count _) as [[n s1]| | |]; [|discriminate..]. cbn [res_bind].
    destruct (parse_type fuel sts s1) as [[e s2]| | |] eqn:E; [|discriminate..]. intros [= <- <-].
    apply array_of_ok. by eapply IH. }
  destruct (parse_ident _) as [[name s1]|]; [|discriminate]. cbn [need res_bind].
  match goal with |- (let* (out, s) := ?r in _) = _ -> _ =>
    assert (forall out s, r = Done (out, s) -> ty_ok out) as Hout end.
  { intros out s2. destruct (basic_type name) as [b|] eqn:Eb; [intros [= <- <-]; by eapply basic_type_ok|].
    destruct (name_is name "ptr").
    - destruct (consume s1 _) as [s3|]; [|discriminate]. cbn [need res_bind].
      destruct (parse_type fuel sts s3) as [[base s4]| | |]; [|discriminate..]. cbn [res_bind].
      destruct (consume s4 _); [|discriminate]. intros [= <- <-]. split; [by right; right|simpl; lia].
    - destruct (find_struct sts name) as [[i st]|] eqn:Es; [|discriminate]. intros [= <- <-].
      rewrite Forall_forall in Hsts. apply (Hsts st), (find_named_elem sd_name name sts 0 i), Es. }
  destruct (match basic_type name with Some _ => _ | None => _ end) as [[out s2]| | |]; [|discriminate..].
  specialize (Hout _ _ eq_refl). cbn [res_bind]. destruct (_ =? _); [|by intros [= <- <-]].
  destruct (parse_count _) as [[n s3]| | |]; [|discriminate..]. intros [= <- <-]. by apply array_of_ok.
Qed.

(** ** Layout *)

Definition field_align (packed : bool) (f : Field) : Z := if packed then 1 else t_align (fd_type f).
Definition field_end (f : Field) : Z := fd_offset f + t_size (fd_type f).

(** The fields from [pos] on are in order, each at the first aligned place, and
    end at [fin]. *)
Fixpoint laid_out (packed : bool) (pos : Z) (fs : list Field) (fin : Z) : Prop :=
  match fs with
  | [] => pos = fin
  | f :: fs =>
      pos <= fd_offset f < pos + field_align packed f /\ fd_offset f mod field_align packed f = 0 /\
      laid_out packed (field_end f) fs fin
  end.

(** A bound on the size of the structure. *)
Definition room_needed (fs : list Field) : Z := foldr (fun f n => t_size (fd_type f) + 8 + n) 8 fs.

Definition fields_ok (fs : list Field) : Prop := Forall (fun f => ty_ok (fd_type f)) fs.

Lemma room_app fs f : room_needed (fs ++ [f]) = room_needed fs + t_size (fd_type f) + 8.
Proof. induction fs as [|g fs IH]; simpl; [lia|]. unfold room_needed in *. simpl in *. lia. Qed.

Lemma field_align_ok packed f : ty_ok (fd_type f) -> align_ok (field_align packed f).
Proof. intros [Ha _]. destruct packed; [by left|done]. Qed.

Lemma laid_out_bound packed fs pos fin :
  fields_ok fs -> laid_out packed pos fs fin -> pos <= fin <= pos + room_needed fs - 8.
Proof.
  intros Hf. revert pos. induction Hf as [|f fs Hf _ IH]; intros pos; simpl; [lia|].
  intros (Hp & _ & H). apply IH in H. pose proof (field_align_ok packed f Hf) as Ha. destruct Hf as [_ Hs].
  unfold field_end, align_ok, room_needed in *. simpl. lia.
Qed.

Lemma laid_out_app packed fs pos mid f :
  laid_out packed pos fs mid -> mid <= fd_offset f < mid + field_align packed f ->
  fd_offset f mod field_align packed f = 0 -> laid_out packed pos (fs ++ [f]) (field_end f).
Proof.
  revert pos. induction fs as [|g fs IH]; intros pos; simpl; [intros ->; by auto|].
  intros (H1 & H2 & H3) ? ?. split; [done|]. split; [done|]. by apply IH.
Qed.

(** Every field is between the ends and aligned. *)
Lemma laid_out_elem packed fs pos fin f :
  fields_ok fs -> laid_out packed pos fs fin -> f ∈ fs ->
  pos <= fd_offset f /\ field_end f <= fin /\ fd_offset f mod field_align packed f = 0.
Proof.
  intros Hok. revert pos. induction Hok as [|g fs Hg Hok IH]; intros pos; [intros _ []%elem_of_nil|].
  intros (H1 & H2 & H3) [-> | Hin]%elem_of_cons.
  - pose proof (laid_out_bound _ _ _ _ Hok H3). split; [lia|]. split; [lia|done].
  - destruct (IH _ H3 Hin) as (? & ? & ?). destruct Hg as [_ Hs]. unfold field_end in *. split; [lia|done].
Qed.

(** Earlier fields end before later ones start. *)
Lemma laid_out_ordered packed fs pos fin i j f g :
  fields_ok fs -> laid_out packed pos fs fin -> fs !! i = Some f -> fs !! j = Some g -> (i < j)%nat ->
  field_end f <= fd_offset g.
Proof.
  intros Hok. revert pos i j. induction Hok as [|h fs Hh Hok IH]; intros pos i j; [done|].
  intros (H1 & H2 & H3) Hi Hj Hij. destruct j as [|j]; [lia|]. simpl in Hj. destruct i as [|i].
  - simpl in Hi. injection Hi as ->. apply list_elem_of_lookup_2 in Hj.
    by destruct (laid_out_elem _ _ _ _ _ Hok H3 Hj).
  - simpl in Hi. eapply IH; eauto. lia.
Qed.

Lemma align_up_spec v a :
  align_ok a -> 0 <= v -> v + 8 <= 2 ^ 32 ->
  v <= align_up_u32 v a < v + a /\ align_up_u32 v a mod a = 0.
Proof.
  intros Ha Hv Hb. unfold align_up_u32, u32.
  destruct Ha as [-> | [-> | ->]]; simpl; rewrite (Z.mod_small (v + _ - 1)) by lia;
    rewrite Z.mod_small by zlia; split; zlia.
Qed.

(** ** The scan *)

(** A structure whose fields are being read. *)
Record placing (st : StructDef) : Prop := mk_placing {
  pl_fields : fields_ok (sd_fields st);
  pl_sizes : struct_sizes_ok st;
  pl_align : Forall (fun f => field_align (sd_packed st) f <= sd_align st) (sd_fields st);
  pl_layout : room_needed (sd_fields st) <= 2 ^ 32 -> laid_out (sd_packed st) 0 (sd_fields st) (sd_size st)
}.

(** A structure of the table. *)
Record laid_out_struct (st : StructDef) : Prop := mk_laid_out {
  lo_fields : fields_ok (sd_fields st);
  lo_sizes : struct_sizes_ok st;
  lo_align : Forall (fun f => sd_align st mod field_align (sd_packed st) f = 0) (sd_fields st);
  lo_layout : room_needed (sd_fields st) <= 2 ^ 32 ->
    sd_size st mod sd_align st = 0 /\
    exists fin, laid_out (sd_packed st) 0 (sd_fields st) fin /\ fin <= sd_size st < fin + sd_align st
}.

Lemma placing_start name packed : placing (mk_struct name [] 0 1 packed).
Proof.
  constructor; [apply Forall_nil_2|split; simpl; [by left|lia]|apply Forall_nil_2|done].
Qed.

Lemma placing_size st :
  placing st -> room_needed (sd_fields st) <= 2 ^ 32 -> sd_size st + 8 <= room_needed (sd_fields st).
Proof. intros [Hf _ _ Hl] Hr. pose proof (laid_out_bound _ _ _ _ Hf (Hl Hr)). lia. Qed.

Lemma place_field_placing st name t : placing st -> ty_ok t -> placing (place_field st name t).
Proof.
  intros Hp Ht. pose proof Hp as [Hf [Ha Hs] Hal Hl]. unfold place_field.
  set (a := if sd_packed st then 1 else or_else (t_align t) 1). set (f := mk_field name t (align_up_u32 (sd_size st) a)).
  assert (a = field_align (sd_packed st) f) as Ea.
  { unfold a, field_align, or_else. simpl. destruct Ht as [Ht _]. destruct (sd_packed st); [done|].
    by replace (t_align t =? 0) with false by (unfold align_ok in Ht; lia). }
  assert (align_ok a) as Hao by (rewrite Ea; by apply field_align_ok).
  constructor; simpl.
  - apply Forall_app; split; [done|]. by apply Forall_singleton.
  - split; [by destruct (_ <? _)|apply u32_range].
  - apply Forall_app; split; [|apply Forall_singleton; rewrite <- Ea; destruct (Z.ltb_spec (sd_align st) a); lia].
    eapply Forall_impl; [exact Hal|]. simpl. intros g Hg. destruct (Z.ltb_spec (sd_align st) a); lia.
  - intros Hr. change (mk_field name t _) with f in Hr |- *. rewrite room_app in Hr. change (fd_type f) with t in Hr.
    destruct Ht as [_ Ht]. pose proof (placing_size st Hp ltac:(lia)) as Hsz.
    destruct (align_up_spec (sd_size st) a Hao ltac:(lia) ltac:(lia)) as [H1 H2].
    unfold u32. rewrite Z.mod_small by (unfold align_ok in Hao; lia).
    apply (laid_out_app _ _ _ (sd_size st)); [apply Hl; lia|by rewrite <- Ea..].
Qed.

Lemma place_field_packed st name t : sd_packed (place_field st name t) = sd_packed st.
Proof. done. Qed.

Lemma scan_fields_placing fuel sts st p st' p' :
  Forall struct_sizes_ok sts -> placing st -> scan_fields fuel sts st p = Done (st', p') ->
  placing st' /\ sd_packed st' = sd_packed st.
Proof.
  intros Hsts. revert st p. induction fuel as [|fuel IH]; intros st p Hst; [discriminate|]. cbn [scan_fields]. cbv zeta.
  destruct (peek p =? 0); [by intros [= <- <-]|]. destruct (peek (skip_ws p) =? ch "}"); [by intros [= <- <-]|].
  destruct (MAX_FIELDS <=? _); [discriminate|]. destruct (parse_ident _) as [[name p1]|]; [|discriminate]. cbn [need res_bind].
  destruct (consume p1 _) as [p2|]; [|discriminate]. cbn [need res_bind].
  destruct (parse_type _ sts p2) as [[t p3]| | |] eqn:Et; [|discriminate..]. cbn [res_bind].
  destruct (consume p3 _) as [p4|]; [|discriminate]. cbn [need res_bind]. intros H.
  apply IH in H; [done|]. apply place_field_placing; [done|]. by eapply parse_type_ok.
Qed.

Lemma align_ok_divides a b : align_ok a -> align_ok b -> a <= b -> b mod a = 0.
Proof. intros [-> | [-> | ->]] [-> | [-> | ->]] H; lia || reflexivity. Qed.

Lemma scan_struct_laid_out fuel sts packed p st p' :
  Forall struct_sizes_ok sts -> scan_struct fuel sts packed p = Done (st, p') -> laid_out_struct st.
Proof.
  intros Hsts. unfold scan_struct. destruct (MAX_STRUCTS <=? _); [discriminate|].
  destruct (parse_ident _) as [[name p1]|]; [|discriminate]. cbn [need res_bind].
  destruct (consume p1 _) as [p2|]; [|discriminate]. cbn [need res_bind].
  destruct (scan_fields _ _ _ _) as [[s0 p3]| | |] eqn:E; [|discriminate..]. cbn [res_bind]. intros [= <- <-].
  apply scan_fields_placing in E as [Hp E]; [|done|apply placing_start]. simpl in E.
  pose proof Hp as [Hf [Ha Hs] Hal Hl]. constructor; simpl.
  - done.
  - split; [done|]. unfold align_up_u32. destruct (_ =? _); [done|apply u32_range].
  - rewrite <- E. eapply Forall_impl; [apply Forall_and; split; [exact Hf|exact Hal]|]. simpl. intros f [H1 H2].
    by apply align_ok_divides; [apply field_align_ok|..].
  - intros Hr. pose proof (placing_size s0 Hp Hr) as Hsz.
    destruct (align_up_spec (sd_size s0) (sd_align s0) Ha ltac:(lia) ltac:(lia)) as [H1 H2].
    split; [done|]. exists (sd_size s0). rewrite <- E. split; [by apply Hl|done].
Qed.

Lemma scan_structs_laid_out fuel sts p sts' :
  Forall laid_out_struct sts -> scan_structs fuel sts p = Done sts' -> Forall laid_out_struct sts'.
Proof.
  revert sts p. induction fuel as [|fuel IH]; intros sts p Hsts; [discriminate|]. cbn [scan_structs]. cbv zeta.
  destruct (peek p =? 0); [by intros [= <-]|]. destruct (peek (skip_ws p) =? DQUOTE); [by apply IH|].
  destruct (packed_attribute _) as [packed q]. destruct (negb _); [by apply IH|].
  destruct (scan_struct _ _ _ _) as [[st p1]| | |] eqn:E; [|discriminate..]. cbn [res_bind]. apply IH.
  apply Forall_app; split; [done|]. apply Forall_singleton. eapply scan_struct_laid_out, E.
  eapply Forall_impl; [exact Hsts|]. apply lo_sizes.
Qed.

(** ** Sizes that fit 32 bits *)

(** No array type read at [p] has a size that [parse_type] cuts to 32 bits: the arrays
    that are written before their element are read one after the other. *)
Fixpoint type_fits (fuel : nat) (structs : list StructDef) (p : list Z) : bool :=
  match fuel with
  | O => true
  | S fuel' =>
      match parse_type fuel structs p with
      | Done (t, _) => negb (kind_eqb (t_kind t) TY_ARRAY) || (u32 (t_base t * t_count t) =? t_base t * t_count t)
      | _ => true
      end &&
      (if peek (skip_ws p) =? ch "[" then
         match parse_count (drop 1 (skip_ws p)) with Done (_, s) => type_fits fuel' structs s | _ => true end
       else true)
  end.

(** The same for the fields that [scan_fields] reads, and for the structures of a source. *)
Fixpoint fields_fit (fuel : nat) (structs : list StructDef) (p : list Z) : bool :=
  match fuel with
  | O => true
  | S fuel' =>
      if (peek p =? 0) || (peek (skip_ws p) =? ch "}") then true else
      match need (parse_ident (skip_ws p)) with
      | Done (_, p) =>
          match need (consume p (ch ":")) with
          | Done p =>
              type_fits fuel structs p &&
              match (let* (_, p) := parse_type fuel structs p in need (consume p (ch ";"))) with
              | Done p => fields_fit fuel' structs p
              | _ => true
              end
          | _ => true
          end
      | _ => true
      end
  end.

Fixpoint structs_fit (fuel : nat) (structs : list StructDef) (p : list Z) : bool :=
  match fuel with
  | O => true
  | S fuel' =>
      if peek p =? 0 then true else
      let p := skip_ws p in
      if peek p =? DQUOTE then structs_fit fuel' structs (skip_literal (drop 1 p)) else
      let '(packed, p) := packed_attribute p in
      if negb (keyword_at p "struct") then structs_fit fuel' structs (drop 1 p) else
      match (let* (_, q) := need (parse_ident (drop 6 p)) in need (consume q (ch "{"))) with
      | Done q => fields_fit fuel structs q
      | _ => true
      end &&
      match scan_struct fuel structs packed (drop 6 p) with
      | Done (st, p) => structs_fit fuel' (structs ++ [st]) p
      | _ => true
      end
  end.

(** The size of an array is the product. *)
Definition array_exact (t : Ty) : Prop := kind_eqb (t_kind t) TY_ARRAY = true -> t_size t = t_base t * t_count t.

Lemma parse_type_array fuel sts p t s : parse_type fuel sts p = Done (t, s) -> kind_eqb (t_kind t) TY_ARRAY = true ->
  t_size t = u32 (t_base t * t_count t).
Proof.
  destruct fuel as [|fuel]; [discriminate|]. cbn [parse_type]. cbv zeta. destruct (peek (skip_ws p) =? ch "[").
  { destruct (parse_count _) as [[n s1]| | |]; [|discriminate..]. cbn [res_bind].
    destruct (parse_type fuel sts s1) as [[e s2]| | |]; [|discriminate..]. by intros [= <- <-]. }
  destruct (parse_ident _) as [[name s1]|]; [|discriminate]. cbn [need res_bind].
  match goal with |- (let* (out, s) := ?r in _) = _ -> _ =>
    assert (forall out s, r = Done (out, s) -> kind_eqb (t_kind out) TY_ARRAY = false) as Hout end.
  { intros out s2. destruct (basic_type name) as [b|] eqn:Eb.
    - intros [= <- <-]. unfold basic_type in Eb. repeat (destruct (name_is name _); [by injection Eb as <-|]). discriminate.
    - destruct (name_is name "ptr").
      + destruct (consume s1 _) as [s3|]; [|discriminate]. cbn [need res_bind].
        destruct (parse_type fuel sts s3) as [[base s4]| | |]; [|discriminate..]. cbn [res_bind].
        destruct (consume s4 _); [|discriminate]. by intros [= <- <-].
      + destruct (find_struct sts name) as [[i st]|]; [|discriminate]. by intros [= <- <-]. }
  destruct (match basic_type name with Some _ => _ | None => _ end) as [[out s2]| | |]; [|discriminate..].
  specialize (Hout _ _ eq_refl). cbn [res_bind]. destruct (_ =? _).
  - destruct (parse_count _) as [[n s3]| | |]; [|discriminate..]. by intros [= <- <-].
  - intros [= <- <-]. congruence.
Qed.

Lemma type_fits_exact fuel sts p t s : type_fits fuel sts p = true -> parse_type fuel sts p = Done (t, s) -> array_exact t.
Proof.
  intros Hf Hp Hk. rewrite (parse_type_array _ _ _ _ _ Hp Hk). destruct fuel as [|fuel]; [discriminate|]. cbn [type_fits] in Hf.
  rewrite Hp, Hk in Hf. apply andb_prop in Hf as [Hf _]. by apply Z.eqb_eq in Hf.
Qed.

Definition fields_exact (st : StructDef) : Prop := Forall (fun f => array_exact (fd_type f)) (sd_fields st).

Lemma scan_fields_exact fuel sts st p st' p' :
  fields_fit fuel sts p = true -> fields_exact st -> scan_fields fuel sts st p = Done (st', p') -> fields_exact st'.
Proof.
  revert st p. induction fuel as [|fuel IH]; intros st p Hf Hst; [discriminate|]. cbn [scan_fields fields_fit] in *. cbv zeta.
  destruct (peek p =? 0); [by intros [= <- <-]|]. destruct (peek (skip_ws p) =? ch "}"); [by intros [= <- <-]|]. cbn [orb] in Hf.
  destruct (MAX_FIELDS <=? _); [discriminate|]. destruct (parse_ident _) as [[name p1]|]; [|discriminate]. cbn [need res_bind] in *.
  destruct (consume p1 _) as [p2|]; [|discriminate]. cbn [need res_bind] in *. apply andb_prop in Hf as [Ht Hf].
  destruct (parse_type _ sts p2) as [[t p3]| | |] eqn:Et; [|discriminate..]. cbn [res_bind] in *.
  destruct (consume p3 _) as [p4|]; [|discriminate]. cbn [need res_bind] in *. apply IH; [done|].
  apply Forall_app; split; [done|]. apply Forall_singleton. by eapply type_fits_exact.
Qed.

Lemma scan_structs_exact fuel sts p sts' :
  structs_fit fuel sts p = true -> Forall fields_exact sts -> scan_structs fuel sts p = Done sts' -> Forall fields_exact sts'.
Proof.
  revert sts p. induction fuel as [|fuel IH]; intros sts p Hf Hsts; [discriminate|]. cbn [scan_structs structs_fit] in *. cbv zeta in *.
  destruct (peek p =? 0); [by intros [= <-]|]. destruct (peek (skip_ws p) =? DQUOTE); [by apply IH|].
  destruct (packed_attribute _) as [packed q]. destruct (negb _); [by apply IH|]. apply andb_prop in Hf as [H1 H2].
  destruct (scan_struct _ _ _ _) as [[st p1]| | |] eqn:E; [|discriminate..]. cbn [res_bind]. apply IH; [done|].
  apply Forall_app; split; [done|]. apply Forall_singleton. unfold scan_struct in E. destruct (MAX_STRUCTS <=? _); [discriminate|].
  destruct (parse_ident _) as [[name p2]|]; [|discriminate]. cbn [need res_bind] in *.
  destruct (consume p2 _) as [p3|]; [|discriminate]. cbn [need res_bind] in *.
  destruct (scan_fields _ _ _ _) as [[s0 p4]| | |] eqn:Es; [|discriminate..]. cbn [res_bind] in E. injection E as <- <-.
  unfold fields_exact. cbn [sd_fields]. eapply (scan_fields_exact _ _ _ _ _ _ H1); [|exact Es]. apply Forall_nil_2.
Qed.

(** C24: if no size in a source exceeds 32 bits (no array type is cut by the
    multiplication, and the fields of each structure with their padding need at most
    4 GiB), every structure that the compiler finds in it is laid out as a C structure:
    each field is at an offset that is a multiple of its alignment (1 in a packed
    structure), fields do not overlap and keep their order, no padding is as large as the
    alignment that causes it, an array is as large as its elements together, and the size
    is the end of the last field rounded up to the alignment of the structure, which is a
    multiple of that of each field. *)
Theorem struct_layout_correct fuel src sts st :
  scan_structs fuel [] src = Done sts -> structs_fit fuel [] src = true ->
  Forall (fun st => room_needed (sd_fields st) <= 2 ^ 32) sts -> st ∈ sts ->
  sd_size st mod sd_align st = 0 /\
  (exists fin, laid_out (sd_packed st) 0 (sd_fields st) fin /\ fin <= sd_size st < fin + sd_align st) /\
  (forall f, f ∈ sd_fields st -> 0 <= fd_offset f /\ field_end f <= sd_size st /\ array_exact (fd_type f) /\
    sd_align st mod field_align (sd_packed st) f = 0 /\ fd_offset f mod field_align (sd_packed st) f = 0) /\
  (forall i j f g, sd_fields st !! i = Some f -> sd_fields st !! j = Some g -> (i < j)%nat ->
    field_end f <= fd_offset g).
Proof.
  intros H Hfit Hroom Hst. pose proof (scan_structs_exact _ _ _ _ Hfit ltac:(apply Forall_nil_2) H) as Hex.
  apply scan_structs_laid_out in H; [|done]. rewrite Forall_forall in H, Hroom, Hex.
  destruct (H st Hst) as [Hf Hs Ha Hl]. destruct (Hl (Hroom st Hst)) as [Hm (fin & Hlo & Hfin)].
  split; [done|]. split; [by exists fin|]. split; [|intros; by eapply laid_out_ordered].
  intros f Hin. destruct (laid_out_elem _ _ _ _ _ Hf Hlo Hin) as (H1 & H2 & H3).
  rewrite Forall_forall in Ha. specialize (Hex st Hst). unfold fields_exact in Hex. rewrite Forall_forall in Hex.
  split; [lia|]. split; [lia|]. split; [by apply Hex|]. split; [by apply Ha|done].
Qed.

Definition demo_structs_source : list Z :=
  bytes_of "struct P { tag: char; n: int; v: u32[3]; } #[packed]struct Q { c: u8; p: P; }"%string.
Definition demo_structs : list StructDef :=
  Eval vm_compute in match scan_structs 100 [] demo_structs_source with Done sts => sts | _ => [] end.

Lemma struct_layout_correct_witness :
  exists st, st ∈ demo_structs /\ map fd_offset (sd_fields st) = [0; 8; 16] /\ sd_size st = 32 /\
  sd_size st mod sd_align st = 0 /\
  forall i j f g, sd_fields st !! i = Some f -> sd_fields st !! j = Some g -> (i < j)%nat ->
    field_end f <= fd_offset g.
Proof.
  eexists. split; [left|]. split; [reflexivity|]. split; [reflexivity|].
  eassert (_ /\ _ /\ _ /\ _) as (H1 & _ & _ & H4);
    [apply (struct_layout_correct 100 demo_structs_source demo_structs); [vm_compute; reflexivity|vm_compute; reflexivity|
       repeat (apply Forall_cons; split; [vm_compute; discriminate|]); apply Forall_nil_2|left]|].
  split; [exact H1|exact H4].
Defined.

(** The layout that the scan gives the first structure of a source: whether it
    is packed, and its size. *)
Definition first_layout (src : String.string) : option (bool * Z) :=
  match scan_structs 100 [] (bytes_of src) with
  | Done (st :: _) => Some (sd_packed st, sd_size st)
  | _ => None
  end.
Arguments first_layout src%_string_scope.

(** The attribute [#[packed]] only takes effect when no blank separates it from
    the keyword. *)
Example packed_attribute_dropped :
  first_layout "#[packed]struct A { a: char; b: int; }" = Some (true, 9) /\
  first_layout "#[packed] struct A { a: char; b: int; }" = Some (false, 16).
Proof. vm_compute. split; reflexivity. Qed.

(** The size of an array is cut to 32 bits: both fields are at offset 0, and the
    structure has 8 bytes. *)
Example large_array_overlaps :
  structs_fit 100 [] (bytes_of "struct S { a: int[536870912]; b: int; }"%string) = false /\
  match scan_structs 100 [] (bytes_of "struct S { a: int[536870912]; b: int; }"%string) with
  | Done [st] => (map fd_offset (sd_fields st), sd_size st) | _ => ([], 0) end = ([0; 0], 8).
Proof. vm_compute. split; reflexivity. Qed.
