(* ===== verification/OrecGen.v ===== *)
(** The OreLang compiler, code generation (user/orec.c).

    [cstate] is the state of the compiler's global variables.  The emitters
    append bytes to the text buffer, which silently stops growing at [TEXT_MAX];
    [patch32] overwrites four bytes that were emitted before, and stores outside
    of the buffer when those bytes did not fit ([Undef]).

    The expression and statement compilers are recursive-descent parsers that
    emit while they parse.  They are one mutual recursion in the C code, so the
    fuel of the model bounds the depth of their calls and the iterations of
    their loops together. *)
From stdpp Require Import base numbers list.
From Stdlib Require Import ZArith Lia.
From Stdlib Require Import(notations) Ascii String.
From S2P Require Import Prelude Memory Cstring OrecLex Abi.

Definition TEXT_MAX : Z := 32768.
Definition DATA_MAX : Z := 32768.
Definition MAX_VARS : Z := 64.
Definition MAX_CALLS : Z := 128.
Definition MAX_DATA_REFS : Z := 512.
Definition MAX_LOOP_DEPTH : Z := 16.
Definition MAX_BREAKS_PER_LOOP : Z := 64.

Record Var := mk_var { v_name : list Z; v_offset : Z; v_type : Ty }.

(** [calls] and [data_refs] are lists of the place to patch with the function
    index or the data offset; [loop_stack] has the innermost loop first. *)
Record cstate := mk_cs {
  text : list Z; data : list Z;
  vars : list Var; stack_size : Z;
  calls : list (Z * Z); data_refs : list (Z * Z); loop_stack : list (list Z);
  current_func : Z; current_function_unsafe : bool;
  structs : list StructDef; funcs : list Function; compile_kmod_target : bool }.

Definition text_len (c : cstate) : Z := Z.of_nat (length (text c)).
Definition data_len (c : cstate) : Z := Z.of_nat (length (data c)).

Definition with_text (t : list Z) (c : cstate) : cstate :=
  mk_cs t (data c) (vars c) (stack_size c) (calls c) (data_refs c) (loop_stack c) (current_func c)
    (current_function_unsafe c) (structs c) (funcs c) (compile_kmod_target c).
Definition with_data (d : list Z) (c : cstate) : cstate :=
  mk_cs (text c) d (vars c) (stack_size c) (calls c) (data_refs c) (loop_stack c) (current_func c)
    (current_function_unsafe c) (structs c) (funcs c) (compile_kmod_target c).
Definition with_vars (v : list Var) (n : Z) (c : cstate) : cstate :=
  mk_cs (text c) (data c) v n (calls c) (data_refs c) (loop_stack c) (current_func c)
    (current_function_unsafe c) (structs c) (funcs c) (compile_kmod_target c).
Definition with_calls (l : list (Z * Z)) (c : cstate) : cstate :=
  mk_cs (text c) (data c) (vars c) (stack_size c) l (data_refs c) (loop_stack c) (current_func c)
    (current_function_unsafe c) (structs c) (funcs c) (compile_kmod_target c).
Definition with_data_refs (l : list (Z * Z)) (c : cstate) : cstate :=
  mk_cs (text c) (data c) (vars c) (stack_size c) (calls c) l (loop_stack c) (current_func c)
    (current_function_unsafe c) (structs c) (funcs c) (compile_kmod_target c).
Definition with_loops (l : list (list Z)) (c : cstate) : cstate :=
  mk_cs (text c) (data c) (vars c) (stack_size c) (calls c) (data_refs c) l (current_func c)
    (current_function_unsafe c) (structs c) (funcs c) (compile_kmod_target c).
Definition with_func (i : Z) (unsafe : bool) (c : cstate) : cstate :=
  mk_cs (text c) (data c) (vars c) (stack_size c) (calls c) (data_refs c) (loop_stack c) i
    unsafe (structs c) (funcs c) (compile_kmod_target c).
Definition with_funcs (l : list Function) (c : cstate) : cstate :=
  mk_cs (text c) (data c) (vars c) (stack_size c) (calls c) (data_refs c) (loop_stack c) (current_func c)
    (current_function_unsafe c) (structs c) l (compile_kmod_target c).

(** ** Emitters *)

Definition emit8 (v : Z) (c : cstate) : cstate :=
  if text_len c <? TEXT_MAX then with_text (text c ++ [u8 v]) c else c.

(** [emit8(b0); emit8(b1); ...] *)
Definition emit (bs : list Z) (c : cstate) : cstate := fold_left (fun c b => emit8 b c) bs c.

Definition emit32 (v : Z) (c : cstate) : cstate := emit (le_bytes 4 (u32 v)) c.
Definition emit64 (v : Z) (c : cstate) : cstate := emit (le_bytes 8 (u64 v)) c.

(** [text[at .. at + 3] = value]. *)
Definition patch32 (at_ value : Z) (c : cstate) : res cstate :=
  if TEXT_MAX <? at_ + 4 then Undef else
  let i := Z.to_nat at_ in
  Done (with_text (take i (text c) ++ le_bytes 4 (u32 value) ++ drop (i + 4) (text c)) c).

(** [patch32(p, (int32_t)(target - (p + 4)))]. *)
Definition patch_rel (p target : Z) (c : cstate) : res cstate := patch32 p (target - (p + 4)) c.

Definition add_data_ref (patch data_off : Z) (c : cstate) : cstate :=
  if MAX_DATA_REFS <=? Z.of_nat (length (data_refs c)) then c
  else with_data_refs (data_refs c ++ [(patch, data_off)]) c.

Definition push_loop (c : cstate) : res cstate :=
  if MAX_LOOP_DEPTH <=? Z.of_nat (length (loop_stack c)) then Fail
  else Done (with_loops ([] :: loop_stack c) c).

Definition add_break_patch (patch : Z) (c : cstate) : res cstate :=
  match loop_stack c with
  | [] => Fail
  | breaks :: outer =>
      if MAX_BREAKS_PER_LOOP <=? Z.of_nat (length breaks) then Fail
      else Done (with_loops ((breaks ++ [patch]) :: outer) c)
  end.

Fixpoint patch_all (ps : list Z) (target : Z) (c : cstate) : res cstate :=
  match ps with
  | [] => Done c
  | p :: ps => let* c := patch_rel p target c in patch_all ps target c
  end.

Definition patch_loop_breaks (target : Z) (c : cstate) : res cstate :=
  match loop_stack c with
  | [] => Done c
  | breaks :: outer => let* c := patch_all breaks target c in Done (with_loops outer c)
  end.

(** The offset of the bytes and the state. *)
Definition add_data (s : list Z) (c : cstate) : Z * cstate :=
  (data_len c, with_data (data c ++ take (Z.to_nat (DATA_MAX - data_len c)) (map u8 s)) c).


Definition emit_mov_rax (v : Z) (c : cstate) : cstate := emit64 v (emit [0x48; 0xB8] c).
Definition emit_mov_rdi (v : Z) (c : cstate) : cstate := emit64 v (emit [0x48; 0xBF] c).
Definition emit_mov_rdx (v : Z) (c : cstate) : cstate := emit64 v (emit [0x48; 0xBA] c).
Definition emit_syscall (c : cstate) : cstate := emit [0x0F; 0x05] c.
Definition emit_push_rax (c : cstate) : cstate := emit8 0x50 c.
Definition emit_pop_rcx (c : cstate) : cstate := emit8 0x59 c.
Definition emit_pop_rax (c : cstate) : cstate := emit8 0x58 c.
Definition emit_pop_rdi (c : cstate) : cstate := emit8 0x5F c.
Definition emit_pop_rsi (c : cstate) : cstate := emit8 0x5E c.
Definition emit_pop_rdx (c : cstate) : cstate := emit8 0x5A c.
Definition emit_pop_r8 (c : cstate) : cstate := emit [0x41; 0x58] c.
Definition emit_pop_r9 (c : cstate) : cstate := emit [0x41; 0x59] c.
Definition emit_pop_r10 (c : cstate) : cstate := emit [0x41; 0x5A] c.

(** [uint64_t patch = text_len; emit32(0);] *)
Definition emit_hole (c : cstate) : Z * cstate := (text_len c, emit32 0 c).

Definition emit_prologue (c : cstate) : Z * cstate :=
  let c := emit [0x55; 0x48; 0x89; 0xE5; 0x48; 0x81; 0xEC] c in
  let '(patch, c) := emit_hole c in
  (patch, emit32 0xFFFFFFF8 (emit [0x48; 0x89; 0x9D] c)).

Definition emit_epilogue_ret (c : cstate) : cstate :=
  emit [0x48; 0x89; 0xEC; 0x5D; 0xC3] (emit32 0xFFFFFFF8 (emit [0x48; 0x8B; 0x9D] c)).

Definition emit_load_var (off : Z) (c : cstate) : cstate := emit32 (- off) (emit [0x48; 0x8B; 0x85] c).
Definition emit_store_var (off : Z) (c : cstate) : cstate := emit32 (- off) (emit [0x48; 0x89; 0x85] c).
Definition emit_addr_var (off : Z) (c : cstate) : cstate := emit32 (- off) (emit [0x48; 0x8D; 0x85] c).
Definition emit_load_ptr_rax (c : cstate) : cstate := emit [0x48; 0x8B; 0x00] c.

Definition emit_load_ptr_t (t : Ty) (c : cstate) : cstate :=
  if t_size t =? 1 then emit [0x48; 0x0F; 0xB6; 0x00] c
  else if t_size t =? 4 then emit [0x8B; 0x00] c
  else emit_load_ptr_rax c.

Definition emit_store_ptr_rcx_rax (c : cstate) : cstate := emit [0x48; 0x89; 0x01] c.

Definition emit_store_ptr_t (t : Ty) (c : cstate) : cstate :=
  if t_size t =? 1 then emit [0x88; 0x01] c
  else if t_size t =? 4 then emit [0x89; 0x01] c
  else emit_store_ptr_rcx_rax c.

Definition emit_scale_rax_8 (c : cstate) : cstate := emit [0x48; 0x6B; 0xC0; 0x08] c.
Definition emit_lea_rcx_var (off : Z) (c : cstate) : cstate := emit32 (- off) (emit [0x48; 0x8D; 0x8D] c).
Definition emit_add_rax_rcx (c : cstate) : cstate := emit [0x48; 0x01; 0xC8] c.

(** The multiplication of an index by the size of an element. *)
Definition emit_scale (scale : Z) (c : cstate) : cstate :=
  if scale =? 8 then emit_scale_rax_8 c
  else if negb (scale =? 1) then emit [0x48; 0x6B; 0xC0; scale] c
  else c.

Definition emit_store_arg_reg (off arg : Z) (c : cstate) : cstate :=
  let reg := if arg =? 0 then 0xBD else if arg =? 1 then 0xB5 else if arg =? 2 then 0x95
             else if arg =? 3 then 0x8D else 0x85 in
  emit32 (- off) (emit [0x48; 0x89; reg] c).

Definition emit_load_var_t (off : Z) (t : Ty) (c : cstate) : cstate :=
  if t_size t =? 1 then emit32 (- off) (emit [0x0F; 0xB6; 0x85] c)
  else if t_size t =? 4 then emit32 (- off) (emit [0x8B; 0x85] c)
  else emit_load_var off c.

Definition emit_store_var_t (off : Z) (t : Ty) (c : cstate) : cstate :=
  if t_size t =? 1 then emit32 (- off) (emit [0x88; 0x85] c)
  else if t_size t =? 4 then emit32 (- off) (emit [0x89; 0x85] c)
  else emit_store_var off c.

Definition emit_store_r8_arg (off : Z) (c : cstate) : cstate := emit32 (- off) (emit [0x4C; 0x89; 0x85] c).
Definition emit_store_r9_arg (off : Z) (c : cstate) : cstate := emit32 (- off) (emit [0x4C; 0x89; 0x8D] c).

Definition emit_lea_rsi_data (data_off : Z) (c : cstate) : cstate :=
  let '(patch, c) := emit_hole (emit [0x48; 0x8D; 0x35] c) in add_data_ref patch data_off c.
Definition emit_lea_rax_data (data_off : Z) (c : cstate) : cstate :=
  let '(patch, c) := emit_hole (emit [0x48; 0x8D; 0x05] c) in add_data_ref patch data_off c.

Definition emit_write_data (data_off len : Z) (c : cstate) : cstate :=
  emit_syscall (emit_mov_rdx len (emit_lea_rsi_data data_off (emit_mov_rdi 1 (emit_mov_rax ORE_SYS_WRITE c)))).

Definition emit_exit_rax (c : cstate) : cstate :=
  emit_syscall (emit_mov_rax ORE_SYS_EXIT (emit [0x48; 0x89; 0xC7] c)).

(** [current_func < func_count && name_eq(funcs[current_func].name, "main")]. *)
Definition in_main (c : cstate) : bool :=
  match funcs c !! Z.to_nat (current_func c) with
  | Some f => name_is (fn_name f) "main"
  | None => false
  end.

Definition emit_return_rax (c : cstate) : cstate := if in_main c then emit_exit_rax c else emit_epilogue_ret c.

Definition emit_exit_const (code : Z) (c : cstate) : cstate :=
  emit_syscall (emit_mov_rdi code (emit_mov_rax ORE_SYS_EXIT c)).

Definition emit_puti_rax (c : cstate) : res cstate :=
  let c := emit [0x48; 0x83; 0xEC; 0x20] c in
  let c := emit [0x48; 0x8D; 0x74; 0x24; 0x1F] c in
  let c := emit64 10 (emit [0x48; 0xBB] c) in
  let c := emit [0x48; 0x83; 0xF8; 0x00] c in
  let '(jne, c) := emit_hole (emit [0x0F; 0x85] c) in
  let c := emit [0xC6; 0x44; 0x24; 0x1E; ch "0"] c in
  let c := emit [0x48; 0x8D; 0x74; 0x24; 0x1E] c in
  let c := emit_mov_rdx 1 c in
  let '(jwrite, c) := emit_hole (emit8 0xE9 c) in
  let loop := text_len c in
  let* c := patch_rel jne loop c in
  let c := emit [0x48; 0x31; 0xD2] c in
  let c := emit [0x48; 0xF7; 0xF3] c in
  let c := emit [0x80; 0xC2; ch "0"] c in
  let c := emit [0x48; 0xFF; 0xCE] c in
  let c := emit [0x88; 0x16] c in
  let c := emit [0x48; 0x83; 0xF8; 0x00] c in
  let c := emit [0x0F; 0x85] c in
  let c := emit32 (loop - (text_len c + 4)) c in
  let c := emit [0x48; 0x8D; 0x54; 0x24; 0x1F] c in
  let c := emit [0x48; 0x29; 0xF2] c in
  let* c := patch_rel jwrite (text_len c) c in
  Done (emit [0x48; 0x83; 0xC4; 0x20] (emit_syscall (emit_mov_rdi 1 (emit_mov_rax ORE_SYS_WRITE c)))).

(** ** Variables *)

Definition find_var (c : cstate) (name : list Z) : option Var := option_map snd (find_named v_name name (vars c) 0).

(** [stack_size] is an [int32_t]. *)
Definition add_var_type (name : list Z) (t : Ty) (c : cstate) : option (Var * cstate) :=
  if MAX_VARS <=? Z.of_nat (length (vars c)) then None else
  let bytes := align_up_u32 (or_else (t_size t) 8) 8 in
  let stack := s32 (stack_size c + s32 bytes) in
  let v := mk_var (copy_name32 name) stack t in
  Some (v, with_vars (vars c ++ [v]) stack c).

(** ** Expressions *)

(** The arguments are on the stack, the last one on top. *)
Fixpoint pop_args (argc : nat) (c : cstate) : cstate :=
  match argc with
  | O => c
  | S a =>
      pop_args a
        (match a with
         | 0 => emit_pop_rdi | 1 => emit_pop_rsi | 2 => emit_pop_rdx
         | 3 => emit_pop_rcx | 4 => emit_pop_r8 | 5 => emit_pop_r9 | _ => fun c => c
         end%nat c)
  end.

(** The system calls that a program may declare [extern]: the number of
    arguments and the registers, as they are popped. *)
Definition syscall_extern (name : list Z) : option (Z * list (cstate -> cstate)) :=
  if name_is name "write" || name_is name "sys_write" then
    Some (3, [emit_pop_rdx; emit_pop_rsi; emit_pop_rdi; emit_mov_rax ORE_SYS_WRITE])
  else if name_is name "syscall3" then Some (4, [emit_pop_rdx; emit_pop_rsi; emit_pop_rdi; emit_pop_rax])
  else if name_is name "syscall4" then Some (5, [emit_pop_r10; emit_pop_rdx; emit_pop_rsi; emit_pop_rdi; emit_pop_rax])
  else if name_is name "syscall0" then Some (1, [emit_pop_rax])
  else if name_is name "syscall1" then Some (2, [emit_pop_rdi; emit_pop_rax])
  else if name_is name "syscall2" then Some (3, [emit_pop_rsi; emit_pop_rdi; emit_pop_rax])
  else None.

(** The end of a call, after its arguments: the type of the result. *)
Definition emit_call (fn_index : Z) (fn : Function) (argc : Z) (c : cstate) : res (Ty * cstate) :=
  if negb (argc =? fn_argc fn) then Fail else
  if compile_kmod_target c && fn_extern fn then Fail else
  if fn_extern fn then
    match syscall_extern (fn_name fn) with
    | None => Fail
    | Some (n, pops) =>
        if negb (argc =? n) then Fail
        else Done (ty_int, emit_syscall (fold_left (fun c e => e c) pops c))
    end
  else
    let '(patch, c) := emit_hole (emit8 0xE8 (pop_args (Z.to_nat argc) c)) in
    Done (fn_ret fn,
          if Z.of_nat (length (calls c)) <? MAX_CALLS then with_calls (calls c ++ [(patch, fn_index)]) c else c).

(** The field [.name] of a variable: its address is in rax. *)
Definition emit_field_address (v : Var) (s : list Z) (c : cstate) : res (Field * list Z * cstate) :=
  let* (field_name, s) := need (parse_ident s) in
  if negb (kind_eqb (t_kind (v_type v)) TY_STRUCT) then Fail else
  let* st := need (structs c !! Z.to_nat (t_struc (v_type v))) in
  let* f := need (find_field st field_name) in
  let c := emit_addr_var (v_offset v) c in
  Done (f, s, if fd_offset f =? 0 then c else emit32 (fd_offset f) (emit [0x48; 0x05] c)).

(** What [*p] denotes for a pointer of type [t]. *)
Definition deref_type (t : Ty) : Ty :=
  if kind_eqb (t_kind t) TY_PTR then sized_value (or_else (t_base t) 8) else ty_int.

(** [sizeof(T)], [alignof(T)] and [offsetof(T, field)]. *)
Definition parse_layout (fuel : nat) (name s : list Z) (c : cstate) : option (res (Z * list Z)) :=
  if name_is name "sizeof" || name_is name "alignof" then Some (
    let* s := need (consume s (ch "(")) in
    let* (t, s) := parse_type fuel (structs c) s in
    let* s := need (consume s (ch ")")) in
    Done (if name_is name "sizeof" then t_size t else t_align t, s))
  else if name_is name "offsetof" then Some (
    let* s := need (consume s (ch "(")) in
    let* (t, s) := parse_type fuel (structs c) s in
    if negb (kind_eqb (t_kind t) TY_STRUCT) then Fail else
    let* s := need (consume s (ch ",")) in
    let* (field_name, s) := need (parse_ident s) in
    let* s := need (consume s (ch ")")) in
    let* st := need (structs c !! Z.to_nat (t_struc t)) in
    let* f := need (find_field st field_name) in
    Done (fd_offset f, s))
  else None.

Definition emit_cmp_set (op0 op1 : Z) (c : cstate) : cstate :=
  let cc :=
    if (op0 =? ch "=") && (op1 =? ch "=") then 0x94
    else if (op0 =? ch "!") && (op1 =? ch "=") then 0x95
    else if (op0 =? ch "<") && (op1 =? ch "=") then 0x9E
    else if (op0 =? ch ">") && (op1 =? ch "=") then 0x9D
    else if op0 =? ch "<" then 0x9C else 0x9F in
  emit [0x48; 0x39; 0xC1; 0x0F; cc; 0xC0; 0x48; 0x0F; 0xB6; 0xC0] (emit_pop_rcx c).

(** The operator of a comparison and the rest. *)
Definition comparison (s : list Z) : option (Z * Z * list Z) :=
  if (char_at s 1 =? ch "=") && ((peek s =? ch "=") || (peek s =? ch "!") || (peek s =? ch "<") || (peek s =? ch ">"))
  then Some (peek s, ch "=", drop 2 s)
  else if (peek s =? ch "<") || (peek s =? ch ">") then Some (peek s, 0, drop 1 s)
  else None.

Definition emit_mul_op (op : Z) (c : cstate) : cstate :=
  let c := emit_pop_rcx c in
  if op =? ch "*" then emit [0x48; 0x0F; 0xAF; 0xC1] c
  else
    let c := emit [0x48; 0x89; 0xC3; 0x48; 0x89; 0xC8; 0x48; 0x99; 0x48; 0xF7; 0xFB] c in
    if op =? ch "%" then emit [0x48; 0x89; 0xD0] c else c.

Definition emit_add_op (op : Z) (lhs rhs : Ty) (c : cstate) : cstate :=
  let c := if type_is_ptr lhs && negb (type_is_ptr rhs) then emit_scale (type_pointee_size lhs) c else c in
  let c := emit_pop_rcx c in
  if op =? ch "+" then emit [0x48; 0x01; 0xC8] c else emit [0x48; 0x29; 0xC1; 0x48; 0x89; 0xC8] c.

Definition emit_shift_op (sar : bool) (c : cstate) : cstate :=
  emit [0x48; 0xD3; if sar then 0xF8 else 0xE0] (emit [0x48; 0x89; 0xC1; 0x58] c).

Definition shift_op (s : list Z) : option bool :=
  if (peek s =? ch "<") && (char_at s 1 =? ch "<") then Some false
  else if (peek s =? ch ">") && (char_at s 1 =? ch ">") then Some true
  else None.

Definition emit_not (c : cstate) : cstate :=
  emit [0x48; 0x83; 0xF8; 0x00; 0x0F; 0x94; 0xC0; 0x48; 0x0F; 0xB6; 0xC0] c.

(** The result of a parser: type, rest of the source, state. *)
Definition parsed : Type := res (Ty * list Z * cstate).

Fixpoint parse_expr_t (fuel : nat) (p : list Z) (c : cstate) {struct fuel} : parsed :=
  match fuel with
  | O => Timeout
  | S fuel =>
      let* (t, p, c) := parse_bitor_t fuel p c in
      let s := skip_ws p in
      match comparison s with
      | None => Done (t, s, c)
      | Some (op0, op1, s) =>
          let* (rhs, s, c) := parse_bitor_t fuel s (emit_push_rax c) in
          Done (ty_bool, s, emit_cmp_set op0 op1 c)
      end
  end

with parse_bitor_t (fuel : nat) (p : list Z) (c : cstate) {struct fuel} : parsed :=
  match fuel with
  | O => Timeout
  | S fuel => let* (t, p, c) := parse_bitand_t fuel p c in bitor_loop fuel t p c
  end

with bitor_loop (fuel : nat) (t : Ty) (p : list Z) (c : cstate) {struct fuel} : parsed :=
  match fuel with
  | O => Timeout
  | S fuel =>
      let s := skip_ws p in
      if negb (peek s =? ch "|") then Done (t, p, c) else
      let* (rhs, s, c) := parse_bitand_t fuel (drop 1 s) (emit_push_rax c) in
      bitor_loop fuel ty_int s (emit [0x48; 0x09; 0xC8] (emit_pop_rcx c))
  end

with parse_bitand_t (fuel : nat) (p : list Z) (c : cstate) {struct fuel} : parsed :=
  match fuel with
  | O => Timeout
  | S fuel => let* (t, p, c) := parse_shift_t fuel p c in bitand_loop fuel t p c
  end

with bitand_loop (fuel : nat) (t : Ty) (p : list Z) (c : cstate) {struct fuel} : parsed :=
  match fuel with
  | O => Timeout
  | S fuel =>
      let s := skip_ws p in
      if negb (peek s =? ch "&") || (char_at s 1 =? ch "&") then Done (t, p, c) else
      let* (rhs, s, c) := parse_shift_t fuel (drop 1 s) (emit_push_rax c) in
      bitand_loop fuel ty_int s (emit [0x48; 0x21; 0xC8] (emit_pop_rcx c))
  end

with parse_shift_t (fuel : nat) (p : list Z) (c : cstate) {struct fuel} : parsed :=
  match fuel with
  | O => Timeout
  | S fuel => let* (t, p, c) := parse_add_t fuel p c in shift_loop fuel t p c
  end

with shift_loop (fuel : nat) (t : Ty) (p : list Z) (c : cstate) {struct fuel} : parsed :=
  match fuel with
  | O => Timeout
  | S fuel =>
      let s := skip_ws p in
      match shift_op s with
      | None => Done (t, p, c)
      | Some sar =>
          let* (rhs, s, c) := parse_add_t fuel (drop 2 s) (emit_push_rax c) in
          shift_loop fuel ty_int s (emit_shift_op sar c)
      end
  end

with parse_add_t (fuel : nat) (p : list Z) (c : cstate) {struct fuel} : parsed :=
  match fuel with
  | O => Timeout
  | S fuel => let* (t, p, c) := parse_mul_t fuel p c in add_loop fuel t p c
  end

with add_loop (fuel : nat) (lhs : Ty) (p : list Z) (c : cstate) {struct fuel} : parsed :=
  match fuel with
  | O => Timeout
  | S fuel =>
      let s := skip_ws p in
      let op := peek s in
      if negb ((op =? ch "+") || (op =? ch "-")) then Done (lhs, p, c) else
      let* (rhs, s, c) := parse_mul_t fuel (drop 1 s) (emit_push_rax c) in
      add_loop fuel lhs s (emit_add_op op lhs rhs c)
  end

with parse_mul_t (fuel : nat) (p : list Z) (c : cstate) {struct fuel} : parsed :=
  match fuel with
  | O => Timeout
  | S fuel => let* (t, p, c) := parse_unary_t fuel p c in mul_loop fuel t p c
  end

with mul_loop (fuel : nat) (t : Ty) (p : list Z) (c : cstate) {struct fuel} : parsed :=
  match fuel with
  | O => Timeout
  | S fuel =>
      let s := skip_ws p in
      let op := peek s in
      if negb ((op =? ch "*") || (op =? ch "/") || (op =? ch "%")) then Done (t, p, c) else
      let* (rhs, s, c) := parse_unary_t fuel (drop 1 s) (emit_push_rax c) in
      mul_loop fuel ty_int s (emit_mul_op op c)
  end

with parse_unary_t (fuel : nat) (p : list Z) (c : cstate) {struct fuel} : parsed :=
  match fuel with
  | O => Timeout
  | S fuel =>
      let s := skip_ws p in
      if peek s =? ch "!" then
        let* (t, s, c) := parse_unary_t fuel (drop 1 s) c in
        Done (ty_bool, s, emit_not c)
      else if peek s =? ch "~" then
        let* (t, s, c) := parse_unary_t fuel (drop 1 s) c in
        Done (t, s, emit [0x48; 0xF7; 0xD0] c)
      else if peek s =? ch "-" then
        let* (t, s, c) := parse_unary_t fuel (drop 1 s) c in
        Done (ty_int, s, emit [0x48; 0xF7; 0xD8] c)
      else if peek s =? ch "&" then
        let* (name, s) := need (parse_ident (drop 1 s)) in
        let* v := need (find_var c name) in
        let after_name := skip_ws s in
        let* (addr_type, s, c) :=
          if peek after_name =? ch "[" then
            let* (s, c) := emit_index_address fuel v after_name c in
            Done (ty_array_element (v_type v), s, c)
          else if peek after_name =? ch "." then
            let* (f, s, c) := emit_field_address v (drop 1 after_name) c in
            Done (fd_type f, s, c)
          else Done (v_type v, s, emit_addr_var (v_offset v) c) in
        Done (ty_ptr (if kind_eqb (t_kind addr_type) TY_ARRAY then ty_array_element addr_type else addr_type), s, c)
      else if peek s =? ch "*" then
        if compile_kmod_target c && negb (current_function_unsafe c) then Fail else
        let* (ptr_type, s, c) := parse_unary_t fuel (drop 1 s) c in
        Done (deref_type ptr_type, s, emit_load_ptr_t (deref_type ptr_type) c)
      else parse_primary_t fuel p c
  end

with parse_primary_t (fuel : nat) (p : list Z) (c : cstate) {struct fuel} : parsed :=
  match fuel with
  | O => Timeout
  | S fuel =>
      let s := skip_ws p in
      if peek s =? DQUOTE then
        let '(str, s) := string_chars 511 (drop 1 s) in
        if negb (peek s =? DQUOTE) then Fail else
        let '(off, c) := add_data (str ++ [0]) c in
        Done (ty_ptr ty_char, drop 1 s, emit_lea_rax_data off c)
      else if is_digit (peek s) then
        let '(v, s) := parse_uint s in
        Done (ty_int, s, emit_mov_rax v c)
      else if peek s =? ch "(" then
        let* (t, s, c) := parse_expr_t fuel (drop 1 s) c in
        let* s := need (consume s (ch ")")) in
        Done (t, s, c)
      else
        let* (name, s) := need (parse_ident s) in
        let after_name := skip_ws s in
        match parse_layout fuel name after_name c with
        | Some r => let* (v, s) := r in Done (ty_int, s, emit_mov_rax v c)
        | None =>
            if peek after_name =? ch "(" then
              let* (fn_index, fn) := need (find_func (funcs c) name) in
              let s := skip_ws (drop 1 after_name) in
              let* (argc, s, c) := if peek s =? ch ")" then Done (0, s, c) else args_loop fuel 0 s c in
              if negb (peek s =? ch ")") then Fail else
              let* (t, c) := emit_call fn_index fn argc c in
              Done (t, drop 1 s, c)
            else
              let* v := need (find_var c name) in
              if peek after_name =? ch "[" then
                let* (s, c) := emit_index_address fuel v after_name c in
                let size := type_pointee_size (v_type v) in
                let elem := mk_ty TY_INT size (if size <? 8 then size else 8) (t_base (v_type v))
                              (t_count (v_type v)) (t_struc (v_type v)) in
                Done (elem, s, emit_load_ptr_t elem c)
              else if peek after_name =? ch "." then
                let* (f, s, c) := emit_field_address v (drop 1 after_name) c in
                Done (fd_type f, s, emit_load_ptr_t (fd_type f) c)
              else Done (v_type v, s, emit_load_var_t (v_offset v) (v_type v) c)
        end
  end

with args_loop (fuel : nat) (argc : Z) (s : list Z) (c : cstate) {struct fuel} : res (Z * list Z * cstate) :=
  match fuel with
  | O => Timeout
  | S fuel =>
      if MAX_PARAMS <=? argc then Fail else
      let* (t, s, c) := parse_expr_t fuel s c in
      let c := emit_push_rax c in
      let s := skip_ws s in
      if peek s =? ch ")" then Done (argc + 1, s, c)
      else if negb (peek s =? ch ",") then Fail
      else args_loop fuel (argc + 1) (drop 1 s) c
  end

with emit_index_address (fuel : nat) (v : Var) (p : list Z) (c : cstate) {struct fuel} : res (list Z * cstate) :=
  match fuel with
  | O => Timeout
  | S fuel =>
      let s := skip_ws p in
      if negb (peek s =? ch "[") then Fail else
      let* (t, s, c) := parse_expr_t fuel (drop 1 s) c in
      let* s := need (consume s (ch "]")) in
      let scale := if kind_eqb (t_kind (v_type v)) TY_ARRAY then type_pointee_size (v_type v) else 8 in
      Done (s, emit_add_rax_rcx (emit_lea_rcx_var (v_offset v) (emit_scale scale c)))
  end.

(** ** Statements *)

(** [parse_expr]: the type is ignored. *)
Definition parse_expr (fuel : nat) (s : list Z) (c : cstate) : res (list Z * cstate) :=
  let* (t, s, c) := parse_expr_t fuel s c in Done (s, c).

(** Expect a punctuation character. *)
Definition expect (s : list Z) (x : Z) : res (list Z) := need (consume s x).

(** [for (i = 0; i < slots; ++i) emit_store_var(offset - i * 8)]. *)
Fixpoint clear_slots (n : nat) (i offset : Z) (c : cstate) : cstate :=
  match n with
  | O => c
  | S n => clear_slots n (i + 1) offset (emit_store_var (offset - s32 (i * 8)) c)
  end.

(** [cmp rax,0; je hole]. *)
Definition emit_test (c : cstate) : Z * cstate :=
  emit_hole (emit [0x0F; 0x84] (emit [0x48; 0x83; 0xF8; 0x00] c)).

(** [print("...")], after the keyword. *)
Definition compile_print (s : list Z) (c : cstate) : res (list Z * cstate) :=
  if compile_kmod_target c then Fail else
  let* s := expect s (ch "(") in
  let s := skip_ws s in
  if negb (peek s =? DQUOTE) then Fail else
  let '(str, s) := string_chars 512 (drop 1 s) in
  if negb (peek s =? DQUOTE) then Fail else
  let* s := expect (drop 1 s) (ch ")") in
  let* s := expect s (ch ";") in
  let '(off, c) := add_data str c in
  Done (s, emit_write_data off (Z.of_nat (length str)) c).

Definition compile_puti (fuel : nat) (s : list Z) (c : cstate) : res (list Z * cstate) :=
  if compile_kmod_target c then Fail else
  let* s := expect s (ch "(") in
  let* (s, c) := parse_expr fuel s c in
  let* s := expect s (ch ")") in
  let* s := expect s (ch ";") in
  let* c := emit_puti_rax c in
  Done (s, c).

(** [*p = e;], after the star. *)
Definition compile_store (fuel : nat) (s : list Z) (c : cstate) : res (list Z * cstate) :=
  if compile_kmod_target c && negb (current_function_unsafe c) then Fail else
  let* (ptr_type, s, c) := parse_expr_t fuel s c in
  let* s := expect s (ch "=") in
  let* (s, c) := parse_expr fuel s (emit_push_rax c) in
  let c := emit_store_ptr_t (deref_type ptr_type) (emit_pop_rcx c) in
  let* s := expect s (ch ";") in
  Done (s, c).

(** [let name: T = e;], after the keyword. *)
Definition compile_let (fuel : nat) (s : list Z) (c : cstate) : res (list Z * cstate) :=
  let* (name, s) := need (parse_ident s) in
  let* (vtype, s) :=
    match consume s (ch ":") with
    | Some s => parse_type fuel (structs c) s
    | None => Done (ty_int, s)
    end in
  let* (v, c) :=
    match find_var c name with
    | Some v => Done (v, c)
    | None => need (add_var_type name vtype c)
    end in
  let s := skip_ws s in
  let* (s, c) :=
    if peek s =? ch "=" then
      let* (s, c) := parse_expr fuel (drop 1 s) c in
      Done (s, emit_store_var_t (v_offset v) (v_type v) c)
    else
      let slots := align_up_u32 (or_else (t_size vtype) 8) 8 / 8 in
      Done (s, clear_slots (Z.to_nat slots) 0 (v_offset v) (emit_mov_rax 0 c)) in
  let* s := expect s (ch ";") in
  Done (s, c).

Definition compile_break (s : list Z) (c : cstate) : res (list Z * cstate) :=
  let* s := expect s (ch ";") in
  let '(jend, c) := emit_hole (emit8 0xE9 c) in
  let* c := add_break_patch jend c in
  Done (s, c).

Definition compile_return (fuel : nat) (s : list Z) (c : cstate) : res (list Z * cstate) :=
  let* (s, c) := parse_expr fuel s c in
  let c := emit_return_rax c in
  let* s := expect s (ch ";") in
  Done (s, c).

(** [name = e;], [name[i] = e;] and [name.field = e;]. *)
Definition compile_assign (fuel : nat) (s : list Z) (c : cstate) : res (list Z * cstate) :=
  let* (name, s) := need (parse_ident s) in
  let* v := need (find_var c name) in
  let s := skip_ws s in
  let* (s, c) :=
    if peek s =? ch "[" then
      let* (s, c) := emit_index_address fuel v s c in
      let* s := expect s (ch "=") in
      let* (s, c) := parse_expr fuel s (emit_push_rax c) in
      let elem := sized_value (type_pointee_size (v_type v)) in
      Done (s, emit_store_ptr_t elem (emit_pop_rcx c))
    else if peek s =? ch "." then
      let* (f, s, c) := emit_field_address v (drop 1 s) c in
      let* s := expect s (ch "=") in
      let* (s, c) := parse_expr fuel s (emit_push_rax c) in
      Done (s, emit_store_ptr_t (fd_type f) (emit_pop_rcx c))
    else
      let* s := expect s (ch "=") in
      let* (s, c) := parse_expr fuel s c in
      Done (s, emit_store_var_t (v_offset v) (v_type v) c) in
  let* s := expect s (ch ";") in
  Done (s, c).

(** [name(...);] *)
Definition compile_call (fuel : nat) (s : list Z) (c : cstate) : res (list Z * cstate) :=
  let* (s, c) := parse_expr fuel s c in
  let* s := expect s (ch ";") in
  Done (s, c).

(** The statement starts with an identifier that is followed by a parenthesis. *)
Definition call_ahead (s : list Z) : bool :=
  match parse_ident s with
  | Some (_, s) => peek (skip_ws s) =? ch "("
  | None => false
  end.

Fixpoint compile_statement (fuel : nat) (p : list Z) (c : cstate) {struct fuel} : res (list Z * cstate) :=
  match fuel with
  | O => Timeout
  | S fuel =>
      let s := skip_ws p in
      if (peek s =? 0) || (peek s =? ch "}") then Done (s, c)
      else if peek s =? ch "*" then compile_store fuel (drop 1 s) c
      else if keyword_at s "unsafe" then
        let* s := expect (drop 6 s) (ch "{") in
        let old_unsafe := current_function_unsafe c in
        let* (s, c) := compile_block fuel s (with_func (current_func c) true c) in
        Done (s, with_func (current_func c) old_unsafe c)
      else if keyword_at s "let" then compile_let fuel (drop 3 s) c
      else if keyword_at s "while" then
        let* s := expect (drop 5 s) (ch "(") in
        let loop := text_len c in
        let* (s, c) := parse_expr fuel s c in
        let* s := expect s (ch ")") in
        let '(je, c) := emit_test c in
        let* s := expect s (ch "{") in
        let* c := push_loop c in
        let* (s, c) := compile_block fuel s c in
        let c := emit8 0xE9 c in
        let c := emit32 (loop - (text_len c + 4)) c in
        let* c := patch_rel je (text_len c) c in
        let* c := patch_loop_breaks (text_len c) c in
        Done (s, c)
      else if keyword_at s "break" then compile_break (drop 5 s) c
      else if keyword_at s "if" then
        let* s := expect (drop 2 s) (ch "(") in
        let* (s, c) := parse_expr fuel s c in
        let* s := expect s (ch ")") in
        let '(je, c) := emit_test c in
        let* s := expect s (ch "{") in
        let* (s, c) := compile_block fuel s c in
        let s := skip_ws s in
        if keyword_at s "else" then
          let '(jend, c) := emit_hole (emit8 0xE9 c) in
          let* c := patch_rel je (text_len c) c in
          let* s := expect (drop 4 s) (ch "{") in
          let* (s, c) := compile_block fuel s c in
          let* c := patch_rel jend (text_len c) c in
          Done (s, c)
        else
          let* c := patch_rel je (text_len c) c in
          Done (s, c)
      else if peek s =? ch "{" then compile_block fuel (drop 1 s) c
      else if keyword_at s "return" then compile_return fuel (drop 6 s) c
      else if keyword_at s "print" then compile_print (drop 5 s) c
      else if keyword_at s "puti" then compile_puti fuel (drop 4 s) c
      else if is_alpha (peek s) then
        if call_ahead s then compile_call fuel s c else compile_assign fuel s c
      else Fail
  end

with compile_block (fuel : nat) (p : list Z) (c : cstate) {struct fuel} : res (list Z * cstate) :=
  match fuel with
  | O => Timeout
  | S fuel =>
      if peek p =? 0 then Fail else
      let s := skip_ws p in
      if peek s =? ch "}" then Done (drop 1 s, c) else
      let* (s, c) := compile_statement fuel s c in
      compile_block fuel s c
  end.

(** ** Functions and programs *)

(** The stores of the parameters from the registers of the calling
    convention. *)
Fixpoint store_params (i : Z) (params : list (list Z * Ty)) (c : cstate) : res cstate :=
  match params with
  | [] => Done c
  | (name, t) :: params =>
      let* (v, c) := need (add_var_type name t c) in
      let off := v_offset v in
      store_params (i + 1) params
        (if i <? 4 then emit_store_arg_reg off i c
         else if i =? 4 then emit_store_r8_arg off c
         else if i =? 5 then emit_store_r9_arg off c else c)
  end.

Definition set_addr (addr : Z) (f : Function) : Function :=
  mk_fn (fn_name f) (fn_body f) addr (fn_params f) (fn_ret f) (fn_extern f) (fn_unsafe f) (fn_kernel f)
    (fn_user f) (fn_export f).

Definition compile_function (fuel : nat) (index : Z) (fn : Function) (c : cstate) : res cstate :=
  let c := with_funcs (alter (set_addr (text_len c)) (Z.to_nat index) (funcs c)) c in
  let c := with_vars [] 8 (with_func index (fn_unsafe fn) c) in
  let '(frame_patch, c) := emit_prologue c in
  let* c := store_params 0 (fn_params fn) c in
  let* (_, c) := compile_block fuel (fn_body fn) c in
  let c := if name_is (fn_name fn) "main" then emit_exit_const 0 c else emit_epilogue_ret (emit_mov_rax 0 c) in
  let frame := align_up_u32 (u32 (u32 (stack_size c) + 32)) 16 in
  let* c := patch32 frame_patch frame c in
  Done (with_func index false c).

Fixpoint compile_functions (fuel : nat) (i : Z) (fns : list Function) (c : cstate) : res cstate :=
  match fns with
  | [] => Done c
  | f :: fns =>
      let* c := if fn_extern f then Done c else compile_function fuel i f c in
      compile_functions fuel (i + 1) fns c
  end.

Definition func_addr (c : cstate) (i : Z) : Z :=
  match funcs c !! Z.to_nat i with Some f => fn_addr f | None => 0 end.

Fixpoint patch_calls (l : list (Z * Z)) (c : cstate) : res cstate :=
  match l with
  | [] => Done c
  | (patch, fn) :: l => let* c := patch_rel patch (func_addr c fn) c in patch_calls l c
  end.

Definition compile_source (fuel : nat) (kmod : bool) (p : list Z) : res cstate :=
  let* sts := scan_structs fuel [] p in
  let* fns := scan_functions fuel kmod sts p in
  let* _ := check (if kmod then validate_kernel_target fns else validate_user_target fns) in
  let c := mk_cs [] [] [] 0 [] [] [] 0 false sts fns kmod in
  let '(main_patch, c) := if kmod then (0, c) else
      let '(patch, c) := emit_hole (emit8 0xE8 c) in (patch, emit_exit_rax c) in
  let* c := compile_functions fuel 0 fns c in
  let* c :=
    if kmod then Done c else
    let* (main_index, _) := need (find_func fns (bytes_of "main"%string)) in
    patch_rel main_patch (func_addr c main_index) c in
  patch_calls (calls c) c.
