(* ===== verification/OrecInv.v ===== *)
(** The OreLang compiler, invariant of the code buffers.

    [wf c]: text and data are bytes and fit in their buffers, and every place
    that is to be patched (calls, data references, breaks of the open loops) is
    four bytes of the text that was emitted, or lies beyond the end of the buffer
    because the text was cut off.  The whole compiler keeps it and never shrinks
    the text ([inv]); [compile_source_wf] is the result for a program. *)
From stdpp Require Import base numbers list.
From Stdlib Require Import ZArith Lia Sorted.
From Stdlib Require Import(notations) Ascii String.
From S2P Require Import Prelude Memory Cstring OrecLex OrecGen.

(** The four bytes at [p] are in a text of [n] bytes, or not in the buffer. *)
Definition hole (n p : Z) : Prop := 0 <= p /\ (p + 4 <= n \/ TEXT_MAX < p + 4).

(** Two places do not overlap, the first one before the second, or one of them
    is not in the buffer. *)
Definition sep (p q : Z) : Prop := p + 4 <= q \/ TEXT_MAX < p + 4 \/ TEXT_MAX < q + 4.
Definition sep_sorted (l : list (Z * Z)) : Prop := StronglySorted (fun x y => sep (fst x) (fst y)) l.

Record wf (c : cstate) : Prop := mk_wf {
  wf_text : Forall byte_ok (text c);
  wf_text_len : text_len c <= TEXT_MAX;
  wf_data : Forall byte_ok (data c);
  wf_data_len : data_len c <= DATA_MAX;
  wf_calls : Forall (fun x => hole (text_len c) (fst x)) (calls c);
  wf_refs : Forall (fun x => hole (text_len c) (fst x)) (data_refs c);
  wf_loops : Forall (Forall (hole (text_len c))) (loop_stack c);
  wf_calls_sep : sep_sorted (calls c);
  wf_refs_sep : sep_sorted (data_refs c);
  wf_cross : forall x y, x ∈ calls c -> y ∈ data_refs c -> sep (fst x) (fst y) \/ sep (fst y) (fst x)
}.

(** A place that comes after all those that are recorded. *)
Definition fresh (c : cstate) (p : Z) : Prop :=
  Forall (fun x => sep (fst x) p) (calls c) /\ Forall (fun x => sep (fst x) p) (data_refs c).

Create HintDb inv discriminated.
Create HintDb emitters.

(** Inside a function the table of functions [FS] does not change. *)
Section Body.
Context (FS : list Function).

(** A well-formed state with at least [n] bytes of text. *)
Record inv (n : Z) (c : cstate) : Prop := mk_inv {
  inv_wf : wf c;
  inv_len : n <= text_len c;
  inv_funcs : funcs c = FS
}.

Definition keeps_inv {A} (st : A -> cstate) (n : Z) (r : res A) : Prop :=
  match r with Done a => inv n (st a) | _ => True end.

(** Where the state is in a result. *)
Definition st1 (c : cstate) : cstate := c.
Definition st2 {A} (r : A * cstate) : cstate := snd r.

Lemma keeps_bind {A B} stA stB (r : res A) (k : A -> res B) m n :
  keeps_inv stA m r -> (forall a, inv m (stA a) -> keeps_inv stB n (k a)) -> keeps_inv stB n (res_bind r k).
Proof. destruct r; simpl; auto. Qed.

Lemma keeps_pure_bind {A B} st (r : res A) (k : A -> res B) n :
  (forall a, keeps_inv st n (k a)) -> keeps_inv st n (res_bind r k).
Proof. destruct r; simpl; auto. Qed.

Lemma keeps_assoc {A B C} st (r : res A) (f : A -> res B) (g : B -> res C) n :
  keeps_inv st n (let* a := r in let* b := f a in g b) -> keeps_inv st n (let* b := (let* a := r in f a) in g b).
Proof. by destruct r. Qed.

Lemma inv_le m n c : inv n c -> m <= n -> inv m c.
Proof. intros [H1 H2 H3] H. split; [done|lia|done]. Qed.

Lemma keeps_le {A} st m n (r : res A) : keeps_inv st n r -> m <= n -> keeps_inv st m r.
Proof. destruct r; simpl; auto. apply inv_le. Qed.

(** ** Emitters *)

Lemma u8_byte v : byte_ok (u8 v).
Proof. unfold byte_ok, u8. apply Z.mod_pos_bound. lia. Qed.

Lemma hole_mono m n p : hole m p -> m <= n -> hole n p.
Proof. unfold hole. lia. Qed.

(** A state with another text that is not shorter. *)
Lemma wf_with_text t c :
  wf c -> Forall byte_ok t -> text_len c <= Z.of_nat (length t) <= TEXT_MAX -> wf (with_text t c).
Proof.
  intros [] Ht [Hl Hm]. unfold text_len in *. constructor; simpl; try done.
  - eapply Forall_impl; [exact wf_calls0|]. simpl. intros x Hx. by eapply hole_mono.
  - eapply Forall_impl; [exact wf_refs0|]. simpl. intros x Hx. by eapply hole_mono.
  - eapply Forall_impl; [exact wf_loops0|]. simpl. intros l Hx. eapply Forall_impl; [exact Hx|].
    simpl. intros p Hp. by eapply hole_mono.
Qed.

Lemma emit8_inv n v c : inv n c -> inv n (emit8 v c).
Proof.
  intros [Hw Hn Hf]. unfold emit8. destruct (Z.ltb_spec (text_len c) TEXT_MAX); [|done].
  unfold text_len in *. split; [|unfold text_len; simpl; rewrite length_app; lia|done].
  apply wf_with_text; [done|apply Forall_app; split; [apply Hw|apply Forall_singleton, u8_byte]|].
  rewrite length_app. unfold text_len. simpl. lia.
Qed.

Lemma emit_inv n bs c : inv n c -> inv n (emit bs c).
Proof. revert c. induction bs as [|b bs IH]; intros c H; [done|]. apply IH, emit8_inv, H. Qed.

(** The length after an emission that may be cut off. *)
Lemma emit_text_len bs c :
  text_len c <= TEXT_MAX ->
  text_len (emit bs c) = Z.min TEXT_MAX (text_len c + Z.of_nat (length bs)).
Proof.
  revert c. induction bs as [|b bs IH]; intros c H; [simpl; lia|].
  change (emit (b :: bs) c) with (emit bs (emit8 b c)). unfold emit8.
  cbn [length]. destruct (Z.ltb_spec (text_len c) TEXT_MAX); [|rewrite IH; lia].
  assert (text_len (with_text (text c ++ [u8 b]) c) = text_len c + 1) as E
    by (unfold text_len; cbn [text with_text]; rewrite length_app; cbn [length]; lia).
  rewrite IH; rewrite E; lia.
Qed.

(** Emitting leaves the recorded places alone. *)
Lemma emit_calls bs c : calls (emit bs c) = calls c /\ data_refs (emit bs c) = data_refs c.
Proof.
  revert c. induction bs as [|b bs IH]; intros c; [done|]. change (emit (b :: bs) c) with (emit bs (emit8 b c)).
  destruct (IH (emit8 b c)) as [-> ->]. unfold emit8. by destruct (_ <? _).
Qed.

Lemma holes_sep n (l : list (Z * Z)) : Forall (fun x => hole n (fst x)) l -> Forall (fun x => sep (fst x) n) l.
Proof. intros H. eapply Forall_impl; [exact H|]. simpl. unfold hole, sep. intros x. lia. Qed.

Lemma emit_hole_spec n c p c' :
  emit_hole c = (p, c') -> inv n c -> inv n c' /\ hole (text_len c') p /\ fresh c' p.
Proof.
  intros [= <- <-] H. split; [by apply emit_inv|]. unfold emit32. destruct H as [[] _ _]. split.
  - rewrite emit_text_len by done. rewrite le_bytes_length. unfold hole, text_len, TEXT_MAX in *. lia.
  - unfold fresh. destruct (emit_calls (le_bytes 4 (u32 0)) c) as [-> ->]. split; by apply holes_sep.
Qed.

Lemma patch32_inv n p v c : inv n c -> hole n p -> keeps_inv st1 n (patch32 p v c).
Proof.
  intros [Hw Hn Hf] [Hp Hh]. unfold patch32. destruct (Z.ltb_spec TEXT_MAX (p + 4)); [done|]. unfold keeps_inv, st1.
  pose proof (wf_text _ Hw) as Ht. pose proof (wf_text_len _ Hw). unfold text_len in *.
  assert (length (take (Z.to_nat p) (text c) ++ le_bytes 4 (u32 v) ++ drop (Z.to_nat p + 4) (text c)) = length (text c)) as E.
  { rewrite !length_app, length_take, length_drop, le_bytes_length. lia. }
  split; [|unfold text_len; cbn [text with_text]; rewrite E; lia|done].
  apply wf_with_text; [done| |unfold text_len; rewrite E; lia].
  apply Forall_app; split; [by apply Forall_take|]. apply Forall_app; split; [apply le_bytes_ok|by apply Forall_drop].
Qed.

Lemma emit32_inv n v c : inv n c -> inv n (emit32 v c).
Proof. apply emit_inv. Qed.
Lemma emit64_inv n v c : inv n c -> inv n (emit64 v c).
Proof. apply emit_inv. Qed.

(** The updates of the other components. *)
Lemma with_vars_inv n v k c : inv n c -> inv n (with_vars v k c).
Proof. by intros [[] ? ?]. Qed.
Lemma with_func_inv n i u c : inv n c -> inv n (with_func i u c).
Proof. by intros [[] ? ?]. Qed.
Lemma sep_sorted_snoc l x : sep_sorted l -> Forall (fun y => sep (fst y) (fst x)) l -> sep_sorted (l ++ [x]).
Proof.
  intros Hs Hf. induction Hs as [|y l Hs IH Hy]; simpl; [by repeat constructor|].
  apply Forall_cons in Hf as [H1 H2]. constructor; [by apply IH|]. apply Forall_app; split; [done|]. by apply Forall_singleton.
Qed.

Lemma with_calls_inv n p f c :
  inv n c -> hole (text_len c) p -> fresh c p -> inv n (with_calls (calls c ++ [(p, f)]) c).
Proof.
  intros [[] Hn Hfs] Hp [Hf1 Hf2]. split; [|done..]. constructor; try done.
  - apply Forall_app; split; [done|]. by apply Forall_singleton.
  - by apply sep_sorted_snoc.
  - cbn [calls data_refs with_calls]. intros x y [Hx | Hx]%elem_of_app Hy; [by apply wf_cross0|].
    apply list_elem_of_singleton in Hx as ->. right. rewrite Forall_forall in Hf2. by apply Hf2.
Qed.
Lemma add_data_ref_inv n p off c :
  inv n c -> hole (text_len c) p -> fresh c p -> inv n (add_data_ref p off c).
Proof.
  intros H Hp [Hf1 Hf2]. unfold add_data_ref. destruct (_ <=? _); [done|]. destruct H as [[] Hn Hfs].
  split; [|done..]. constructor; try done.
  - apply Forall_app; split; [done|]. by apply Forall_singleton.
  - by apply sep_sorted_snoc.
  - cbn [calls data_refs with_data_refs]. intros x y Hx [Hy | Hy]%elem_of_app; [by apply wf_cross0|].
    apply list_elem_of_singleton in Hy as ->. left. rewrite Forall_forall in Hf1. by apply Hf1.
Qed.

Lemma add_data_inv n bs c : inv n c -> inv n (snd (add_data bs c)).
Proof.
  intros [[] Hn Hfs]. split; [|done..]. constructor; try done.
  - apply Forall_app; split; [done|]. apply Forall_take, Forall_map, Forall_forall. intros b _. apply u8_byte.
  - unfold data_len in *. cbn [data add_data snd with_data]. rewrite length_app, length_take. unfold data_len, DATA_MAX in *. lia.
Qed.
Lemma add_data_inv_eq n bs c off c' : add_data bs c = (off, c') -> inv n c -> inv n c'.
Proof. intros E H. pose proof (add_data_inv n bs c H) as Hi. by rewrite E in Hi. Qed.

(** From here on the emitters are only handled through their lemmas. *)
#[local] Opaque emit emit8 emit32 emit64.

#[local] Hint Resolve emit8_inv emit_inv emit32_inv emit64_inv with_vars_inv with_func_inv : inv.
#[local] Hint Unfold emit_mov_rax emit_mov_rdi emit_mov_rdx emit_syscall emit_push_rax emit_pop_rcx emit_pop_rax
  emit_pop_rdi emit_pop_rsi emit_pop_rdx emit_pop_r8 emit_pop_r9 emit_pop_r10 emit_epilogue_ret emit_load_var
  emit_store_var emit_addr_var emit_load_ptr_rax emit_load_ptr_t emit_store_ptr_rcx_rax emit_store_ptr_t
  emit_scale_rax_8 emit_lea_rcx_var emit_add_rax_rcx emit_scale emit_store_arg_reg emit_load_var_t emit_store_var_t
  emit_store_r8_arg emit_store_r9_arg emit_exit_rax emit_return_rax emit_exit_const emit_cmp_set emit_mul_op
  emit_add_op emit_shift_op emit_not : emitters.

(** States built by emitters and tests only. *)
Ltac emitters :=
  autounfold with emitters; cbv zeta;
  repeat match goal with |- context [if ?b then _ else _] => destruct b end; eauto 20 with inv.

Lemma emit_lea_data_inv n bs off c :
  inv n c -> inv n (let '(patch, c) := emit_hole (emit bs c) in add_data_ref patch off c).
Proof.
  intros H. destruct (emit_hole (emit bs c)) as [p c'] eqn:E.
  destruct (emit_hole_spec n _ _ _ E (emit_inv _ _ _ H)) as (? & ? & ?). by apply add_data_ref_inv.
Qed.
Lemma emit_lea_rax_data_inv n off c : inv n c -> inv n (emit_lea_rax_data off c).
Proof. apply emit_lea_data_inv. Qed.
Lemma emit_lea_rsi_data_inv n off c : inv n c -> inv n (emit_lea_rsi_data off c).
Proof. apply emit_lea_data_inv. Qed.
#[local] Hint Resolve emit_lea_rsi_data_inv : inv.
Lemma emit_write_data_inv n off len c : inv n c -> inv n (emit_write_data off len c).
Proof. intros H. unfold emit_write_data. emitters. Qed.
#[local] Hint Resolve emit_lea_rax_data_inv emit_write_data_inv : inv.

(** ** Loops and patches *)

Lemma patch_rel_inv n p t c : inv n c -> hole n p -> keeps_inv st1 n (patch_rel p t c).
Proof. apply patch32_inv. Qed.

Lemma patch_all_inv n ps t c : inv n c -> Forall (hole n) ps -> keeps_inv st1 n (patch_all ps t c).
Proof.
  intros H Hps. revert c H. induction Hps as [|p ps Hp _ IH]; intros c H; cbn [patch_all]; [done|].
  eapply keeps_bind; [by apply patch_rel_inv|]. intros c' H'. by apply IH.
Qed.

Lemma with_loops_inv n l c : inv n c -> Forall (Forall (hole (text_len c))) l -> inv n (with_loops l c).
Proof. intros [[] Hn Hfs] Hl. split; [|done..]. by constructor. Qed.

Lemma push_loop_inv n c : inv n c -> keeps_inv st1 n (push_loop c).
Proof.
  intros H. unfold push_loop. destruct (_ <=? _); [done|]. apply with_loops_inv; [done|].
  constructor; [done|]. apply (inv_wf _ _ H).
Qed.

Lemma add_break_patch_inv n p c : inv n c -> hole (text_len c) p -> keeps_inv st1 n (add_break_patch p c).
Proof.
  intros H Hp. unfold add_break_patch. pose proof (wf_loops _ (inv_wf _ _ H)) as Hl.
  destruct (loop_stack c) as [|breaks outer]; [done|]. destruct (_ <=? _); [done|].
  apply Forall_cons in Hl as [H1 H2]. apply with_loops_inv; [done|]. constructor; [|done].
  apply Forall_app; split; [done|]. by apply Forall_singleton.
Qed.

Lemma patch_loop_breaks_inv n t c : inv n c -> keeps_inv st1 n (patch_loop_breaks t c).
Proof.
  intros [Hw Hn Hf]. unfold patch_loop_breaks. pose proof (wf_loops _ Hw) as Hl.
  destruct (loop_stack c) as [|breaks outer]; [done|]. apply Forall_cons in Hl as [H1 H2].
  eapply keeps_bind; [apply (patch_all_inv (text_len c)); [by split|exact H1]|].
  intros c' [Hw' Hn' Hf']. unfold st1 in *. apply with_loops_inv; [split; [done|lia|done]|].
  eapply Forall_impl; [exact H2|]. intros l Hl. eapply Forall_impl; [exact Hl|]. intros p Hp. by eapply hole_mono.
Qed.

(** ** The step tactic *)

(** A hole is recorded against the length of the text after it, which every
    later state of the compilation has. *)
Lemma inv_self n c : inv n c -> inv (text_len c) c.
Proof. intros [H _ Hf]. by split. Qed.

#[local] Hint Resolve patch_rel_inv push_loop_inv add_break_patch_inv patch_loop_breaks_inv : inv.

Ltac split_pairs :=
  repeat match goal with
    | |- forall _, _ => intro
    | a : (_ * _)%type |- _ => destruct a
    end; unfold st1, st2 in * |-; cbn [fst snd] in * |-.
Ltac inv_step :=
  lazymatch goal with
  | |- keeps_inv _ _ Fail => exact I
  | |- keeps_inv _ _ Undef => exact I
  | |- keeps_inv _ _ Timeout => exact I
  | |- keeps_inv _ _ (Done _) => unfold keeps_inv, st1, st2; cbn [fst snd]; solve [emitters]
  | |- keeps_inv _ _ (if ?b then _ else _) => destruct b
  | |- keeps_inv _ _ (res_bind (res_bind _ _) _) => apply keeps_assoc
  | |- keeps_inv _ _ (res_bind (Done _) _) => cbn [res_bind]
  | |- keeps_inv _ _ (res_bind (need (add_var_type _ _ _)) _) => eapply keeps_bind; [solve [emitters]|]
  | |- keeps_inv _ _ (res_bind (need _) _) => apply keeps_pure_bind
  | |- keeps_inv _ _ (res_bind (expect _ _) _) => apply keeps_pure_bind
  | |- keeps_inv _ _ (res_bind (check _) _) => apply keeps_pure_bind
  | |- keeps_inv _ _ (res_bind (parse_type _ _ _) _) => apply keeps_pure_bind
  | |- keeps_inv _ _ (res_bind (match ?b with _ => _ end) _) => destruct b eqn:?
  | |- keeps_inv ?st ?n (let '(p, c) := emit_hole ?c0 in _) =>
      let E := fresh "E" in let H := fresh "Hinv" in let c' := fresh "c" in
      assert (inv n c0) as H by emitters;
      destruct (emit_hole c0) as [? c'] eqn:E; let Hi := fresh "Hinv" in
      destruct (emit_hole_spec n _ _ _ E H) as (Hi & ? & ?); clear E H;
      apply (keeps_le _ n (text_len c')); [|exact (inv_len _ _ Hi)];
      repeat match goal with Hh : hole n _ |- _ => apply hole_mono with (2 := inv_len _ _ Hi) in Hh end;
      apply inv_self in Hi
  | |- keeps_inv _ ?n (let '(p, c) := add_data ?s ?c0 in _) =>
      let E := fresh "E" in let H := fresh "Hinv" in
      assert (inv n c0) as H by emitters; destruct (add_data s c0) as [? ?] eqn:E;
      pose proof (add_data_inv_eq n _ _ _ _ E H); clear E H
  | |- keeps_inv _ _ (match ?b with _ => _ end) => destruct b eqn:?
  | |- keeps_inv _ _ (res_bind ?r _) =>
      tryif is_var r then apply keeps_pure_bind else (eapply keeps_bind; [solve [emitters]|])
  | |- keeps_inv _ _ _ => solve [emitters]
  end; split_pairs; cbv zeta beta iota.
Ltac inv_steps := repeat inv_step.

Lemma pops_inv n pops c :
  Forall (fun e => forall c, inv n c -> inv n (e c)) pops -> inv n c -> inv n (fold_left (fun c e => e c) pops c).
Proof. intros H. revert c. induction H as [|e l He _ IH]; intros c Hc; [done|]. by apply IH, He. Qed.

Lemma syscall_extern_inv m name k pops :
  syscall_extern name = Some (k, pops) -> Forall (fun e => forall c, inv m c -> inv m (e c)) pops.
Proof.
  unfold syscall_extern. intros H.
  repeat match type of H with (if ?b then _ else _) = _ => destruct b end; simplify_eq;
    repeat (constructor; [intros; emitters|]); constructor.
Qed.

Lemma syscall_pops_inv n name k pops c :
  syscall_extern name = Some (k, pops) -> inv n c -> inv n (fold_left (fun c e => e c) pops c).
Proof. intros H. by apply pops_inv, (syscall_extern_inv n name k). Qed.
#[local] Hint Resolve syscall_pops_inv with_calls_inv : inv.

Lemma pop_args_inv n k c : inv n c -> inv n (pop_args k c).
Proof.
  revert c. induction k as [|k IH]; intros c H; cbn [pop_args]; [done|]. apply IH.
  do 6 (destruct k as [|k]; [emitters|]). done.
Qed.
#[local] Hint Resolve pop_args_inv : inv.

Lemma emit_call_inv n i fn argc c : inv n c -> keeps_inv st2 n (emit_call i fn argc c).
Proof.
  intros H. unfold emit_call. cbv zeta. inv_steps.
Qed.
#[local] Hint Resolve emit_call_inv : inv.

(** Result of the routine for a field: the state comes last. *)
Lemma emit_field_address_inv n v s c : inv n c -> keeps_inv st2 n (emit_field_address v s c).
Proof. intros H. unfold emit_field_address. cbv zeta. inv_steps. Qed.
#[local] Hint Resolve emit_field_address_inv : inv.

Lemma emit_puti_rax_inv n c : inv n c -> keeps_inv st1 n (emit_puti_rax c).
Proof. intros H. unfold emit_puti_rax. cbv zeta. inv_steps.
Qed.
#[local] Hint Resolve emit_puti_rax_inv : inv.

(** ** Expressions *)

Record expr_inv (fuel : nat) : Prop := mk_expr_inv {
  iv_expr n p c : inv n c -> keeps_inv st2 n (parse_expr_t fuel p c);
  iv_bitor n p c : inv n c -> keeps_inv st2 n (parse_bitor_t fuel p c);
  iv_bitor_loop n t p c : inv n c -> keeps_inv st2 n (bitor_loop fuel t p c);
  iv_bitand n p c : inv n c -> keeps_inv st2 n (parse_bitand_t fuel p c);
  iv_bitand_loop n t p c : inv n c -> keeps_inv st2 n (bitand_loop fuel t p c);
  iv_shift n p c : inv n c -> keeps_inv st2 n (parse_shift_t fuel p c);
  iv_shift_loop n t p c : inv n c -> keeps_inv st2 n (shift_loop fuel t p c);
  iv_add n p c : inv n c -> keeps_inv st2 n (parse_add_t fuel p c);
  iv_add_loop n t p c : inv n c -> keeps_inv st2 n (add_loop fuel t p c);
  iv_mul n p c : inv n c -> keeps_inv st2 n (parse_mul_t fuel p c);
  iv_mul_loop n t p c : inv n c -> keeps_inv st2 n (mul_loop fuel t p c);
  iv_unary n p c : inv n c -> keeps_inv st2 n (parse_unary_t fuel p c);
  iv_primary n p c : inv n c -> keeps_inv st2 n (parse_primary_t fuel p c);
  iv_args n k p c : inv n c -> keeps_inv st2 n (args_loop fuel k p c);
  iv_index n v p c : inv n c -> keeps_inv st2 n (emit_index_address fuel v p c)
}.

Lemma expr_inv_all fuel : expr_inv fuel.
Proof.
  induction fuel as [|fuel IH]; [by constructor|].
  destruct IH. constructor; intros; cbn [parse_expr_t parse_bitor_t bitor_loop parse_bitand_t bitand_loop parse_shift_t
    shift_loop parse_add_t add_loop parse_mul_t mul_loop parse_unary_t parse_primary_t args_loop emit_index_address];
    cbv zeta; inv_steps.
Qed.

Lemma parse_expr_t_inv fuel n p c : inv n c -> keeps_inv st2 n (parse_expr_t fuel p c).
Proof. apply iv_expr, expr_inv_all. Qed.
Lemma parse_expr_inv fuel n p c : inv n c -> keeps_inv st2 n (parse_expr fuel p c).
Proof. intros H. unfold parse_expr. eapply keeps_bind; [by apply parse_expr_t_inv|]. by intros [[t s] c']. Qed.
Lemma emit_index_address_inv fuel n v p c : inv n c -> keeps_inv st2 n (emit_index_address fuel v p c).
Proof. apply iv_index, expr_inv_all. Qed.
#[local] Hint Resolve parse_expr_t_inv parse_expr_inv emit_index_address_inv : inv.

(** ** Statements *)

Lemma clear_slots_inv n k i off c : inv n c -> inv n (clear_slots k i off c).
Proof. revert i c. induction k as [|k IH]; intros i c H; cbn [clear_slots]; [done|]. apply IH. emitters. Qed.
Lemma add_var_type_inv n name t c v c' : add_var_type name t c = Some (v, c') -> inv n c -> inv n c'.
Proof.
  unfold add_var_type. destruct (_ <=? _); [discriminate|]. intros E H.
  assert (c' = with_vars (vars c ++ [v]) (v_offset v) c) as -> by (simplify_eq; reflexivity). by apply with_vars_inv.
Qed.
Lemma need_var_inv n name t c : inv n c -> keeps_inv st2 n (need (add_var_type name t c)).
Proof.
  intros H. destruct (add_var_type name t c) as [[v c']|] eqn:E; [|done]. by eapply add_var_type_inv.
Qed.
#[local] Hint Resolve clear_slots_inv need_var_inv : inv.

Lemma compile_store_inv fuel n s c : inv n c -> keeps_inv st2 n (compile_store fuel s c).
Proof. intros H. unfold compile_store. cbv zeta. inv_steps. Qed.
Lemma compile_let_inv fuel n s c : inv n c -> keeps_inv st2 n (compile_let fuel s c).
Proof. intros H. unfold compile_let. cbv zeta. inv_steps. Qed.
Lemma compile_break_inv n s c : inv n c -> keeps_inv st2 n (compile_break s c).
Proof. intros H. unfold compile_break. cbv zeta. inv_steps. Qed.
Lemma compile_return_inv fuel n s c : inv n c -> keeps_inv st2 n (compile_return fuel s c).
Proof. intros H. unfold compile_return. cbv zeta. inv_steps. Qed.
Lemma compile_print_inv n s c : inv n c -> keeps_inv st2 n (compile_print s c).
Proof. intros H. unfold compile_print. cbv zeta. inv_steps. Qed.
Lemma compile_puti_inv fuel n s c : inv n c -> keeps_inv st2 n (compile_puti fuel s c).
Proof. intros H. unfold compile_puti. cbv zeta. inv_steps. Qed.
Lemma compile_assign_inv fuel n s c : inv n c -> keeps_inv st2 n (compile_assign fuel s c).
Proof. intros H. unfold compile_assign. cbv zeta. inv_steps. Qed.
Lemma compile_call_inv fuel n s c : inv n c -> keeps_inv st2 n (compile_call fuel s c).
Proof. intros H. unfold compile_call. cbv zeta. inv_steps. Qed.
#[local] Hint Resolve compile_store_inv compile_let_inv compile_break_inv compile_return_inv
  compile_print_inv compile_puti_inv compile_assign_inv compile_call_inv : inv.

Record stmt_inv (fuel : nat) : Prop := mk_stmt_inv {
  iv_stmt n p c : inv n c -> keeps_inv st2 n (compile_statement fuel p c);
  iv_block n p c : inv n c -> keeps_inv st2 n (compile_block fuel p c)
}.

Lemma stmt_inv_all fuel : stmt_inv fuel.
Proof.
  induction fuel as [|fuel IH]; [by constructor|]. destruct IH.
  constructor; intros; cbn [compile_statement compile_block]; cbv zeta; unfold emit_test; inv_steps.
Qed.

Lemma compile_block_inv fuel n p c : inv n c -> keeps_inv st2 n (compile_block fuel p c).
Proof. apply iv_block, stmt_inv_all. Qed.
#[local] Hint Resolve compile_block_inv patch32_inv : inv.

(** ** Programs *)

Lemma store_params_inv n i params c : inv n c -> keeps_inv st1 n (store_params i params c).
Proof.
  revert i c. induction params as [|[name t] params IH]; intros i c H; cbn [store_params]; [done|].
  eapply keeps_bind; [by apply need_var_inv|]. intros [v c'] H'. apply IH. unfold st2 in H'. simpl in H'. emitters.
Qed.
#[local] Hint Resolve store_params_inv : inv.

Lemma emit_prologue_inv n c p c' :
  emit_prologue c = (p, c') -> inv n c -> inv (text_len c') c' /\ hole (text_len c') p /\ n <= text_len c' /\ n <= p.
Proof.
  unfold emit_prologue. destruct (emit_hole _) as [q c1] eqn:E. intros E' H.
  assert (q = p /\ emit32 0xFFFFFFF8 (emit [0x48; 0x89; 0x9D] c1) = c') as [-> <-] by (split; congruence). clear E'.
  assert (n <= p) as Hp.
  { unfold emit_hole in E. injection E as <- _. apply (inv_len n). emitters. }
  destruct (emit_hole_spec n _ _ _ E ltac:(emitters)) as (Hi & Hh & _). apply inv_self in Hi as Hs.
  assert (inv (text_len c1) (emit32 0xFFFFFFF8 (emit [0x48; 0x89; 0x9D] c1))) as Hl by emitters.
  split; [by eapply inv_self|]. split; [by eapply hole_mono, (inv_len _ _ Hl)|].
  pose proof (inv_len _ _ Hi). pose proof (inv_len _ _ Hl). lia.
Qed.

Lemma emit_exit_rax_inv n c : inv n c -> inv n (emit_exit_rax c).
Proof. intros H. emitters. Qed.

Lemma patch32_fits p v c c' : patch32 p v c = Done c' -> p + 4 <= TEXT_MAX.
Proof. unfold patch32. destruct (Z.ltb_spec TEXT_MAX (p + 4)); [discriminate|]. intros _. lia. Qed.

(** The code of one function, once its address is in the table; it is not empty. *)
Definition function_body (fuel : nat) (index : Z) (fn : Function) (c : cstate) : res cstate :=
  let '(frame_patch, c) := emit_prologue c in
  let* c := store_params 0 (fn_params fn) c in
  let* (_, c) := compile_block fuel (fn_body fn) c in
  let c := if name_is (fn_name fn) "main" then emit_exit_const 0 c else emit_epilogue_ret (emit_mov_rax 0 c) in
  let* c := patch32 frame_patch (align_up_u32 (u32 (u32 (stack_size c) + 32)) 16) c in
  Done (with_func index false c).

Lemma function_body_inv fuel n index fn c c' :
  inv n c -> function_body fuel index fn c = Done c' -> inv (n + 4) c'.
Proof.
  intros H Hrun. unfold function_body in Hrun. destruct (emit_prologue c) as [p c1] eqn:E.
  destruct (emit_prologue_inv n _ _ _ E H) as (Hi & Hh & Hn & Hp). clear E.
  assert (keeps_inv st1 (text_len c1) (Done c')) as Hk by (rewrite <- Hrun; inv_steps).
  assert (p + 4 <= TEXT_MAX) as Hm.
  { destruct (store_params _ _ _) as [c2| | |]; [|discriminate Hrun..]. cbn [res_bind] in Hrun.
    destruct (compile_block _ _ _) as [[r c3]| | |]; [|discriminate Hrun..]. cbn [res_bind] in Hrun.
    match type of Hrun with res_bind ?r _ = _ => destruct r eqn:E; [|discriminate Hrun..] end. by apply patch32_fits in E. }
  apply (inv_le _ (text_len c1)); [done|]. destruct Hh as [_ [Hh|Hh]]; lia.
Qed.
End Body.

(** Code was generated for the first [k] functions of the table. *)
Definition placed (k : nat) (c : cstate) : Prop :=
  forall j f, (j < k)%nat -> funcs c !! j = Some f -> fn_extern f = false -> 0 <= fn_addr f < text_len c.

Lemma wf_with_funcs l c : wf c -> wf (with_funcs l c).
Proof. by intros []. Qed.

Lemma compile_function_spec fuel i fn c c' :
  wf c -> compile_function fuel (Z.of_nat i) fn c = Done c' ->
  wf c' /\ text_len c + 4 <= text_len c' /\ funcs c' = alter (set_addr (text_len c)) i (funcs c).
Proof.
  intros Hw Hrun. unfold compile_function in Hrun. cbv zeta in Hrun. rewrite Nat2Z.id in Hrun.
  set (c1 := with_vars _ _ _) in Hrun. set (FS := alter _ _ _) in c1 |- *.
  assert (inv FS (text_len c) c1) as H1.
  { apply with_vars_inv, with_func_inv. split; [by apply wf_with_funcs|done|done]. }
  by destruct (function_body_inv FS fuel (text_len c) (Z.of_nat i) fn c1 c' H1 Hrun).
Qed.

Lemma compile_functions_spec fuel fns i c c' :
  wf c -> drop i (funcs c) = fns -> placed i c -> compile_functions fuel (Z.of_nat i) fns c = Done c' ->
  wf c' /\ text_len c <= text_len c' /\ placed (length (funcs c')) c'.
Proof.
  revert i c. induction fns as [|f fns IH]; intros i c Hw Hd Hp; cbn [compile_functions].
  { intros [= <-]. split; [done|]. split; [done|]. intros j g Hj Hg. apply (Hp j g); [|done].
    assert (length (drop i (funcs c)) = 0%nat) as Hz by (by rewrite Hd). rewrite length_drop in Hz. lia. }
  assert (funcs c !! i = Some f) as Hf by (rewrite <- (Nat.add_0_r i), <- lookup_drop, Hd; done).
  assert (drop (S i) (funcs c) = fns) as Hd' by (rewrite <- Nat.add_1_r, <- drop_drop, Hd; done).
  replace (Z.of_nat i + 1) with (Z.of_nat (S i)) by lia. destruct (fn_extern f) eqn:Hx.
  { cbn [res_bind]. apply IH; [done..|]. intros j g Hj Hg He. apply Hp with j; [|done..].
    destruct (decide (j = i)) as [->|]; [|lia]. congruence. }
  destruct (compile_function fuel (Z.of_nat i) f c) as [c1| | |] eqn:E; [|discriminate..]. cbn [res_bind].
  destruct (compile_function_spec _ _ _ _ _ Hw E) as (Hw1 & Hl1 & Hf1). intros Hrun.
  destruct (IH (S i) c1) as (Hw' & Hl' & Hp'); [done| | |done|].
  - by rewrite Hf1, drop_alter_lt by lia.
  - intros j g Hj Hg He. rewrite Hf1 in Hg. destruct (decide (j = i)) as [->|Hne].
    + rewrite list_lookup_alter_eq, Hf in Hg. injection Hg as <-. cbn. unfold text_len in *. lia.
    + rewrite list_lookup_alter_ne in Hg by done. destruct (Hp j g ltac:(lia) Hg He). lia.
  - split; [done|]. split; [lia|done].
Qed.

Lemma patch_rel_spec n p t c c' :
  wf c -> n <= text_len c -> hole n p -> patch_rel p t c = Done c' -> wf c' /\ n <= text_len c' /\ funcs c' = funcs c.
Proof.
  intros Hw Hn Hh E. pose proof (patch_rel_inv (funcs c) n p t c (mk_inv _ _ _ Hw Hn eq_refl) Hh) as Hk. rewrite E in Hk. by destruct Hk.
Qed.

Lemma patch_calls_inv FS n l c : inv FS n c -> Forall (fun x => hole n (fst x)) l -> keeps_inv FS st1 n (patch_calls l c).
Proof.
  intros H Hl. revert c H. induction Hl as [|[p f] l Hp _ IH]; intros c H; cbn [patch_calls]; [done|].
  eapply keeps_bind; [by apply patch_rel_inv|]. intros c' H'. by apply IH.
Qed.

(** The functions of a program and the call of [main] at its start; [c] is the
    state before the calls are patched. *)
Lemma compile_source_unpatched fuel kmod src c :
  compile_source fuel kmod src = Done c ->
  exists c0, wf c0 /\ (kmod = false -> 5 <= text_len c0) /\ placed (length (funcs c0)) c0 /\ patch_calls (calls c0) c0 = Done c.
Proof.
  unfold compile_source. destruct (scan_structs _ _ _) as [sts| | |]; [|discriminate..]. cbn [res_bind].
  destruct (scan_functions _ _ _ _) as [fns| | |]; [|discriminate..]. cbn [res_bind].
  destruct (check _); [|discriminate..]. cbn [res_bind]. cbv zeta.
  set (c0 := mk_cs _ _ _ _ _ _ _ _ _ _ _ _). intros E.
  assert (inv fns 0 c0) as H0.
  { split; [|done|done]. constructor;
      first [apply Forall_nil_2 | done | apply SSorted_nil | (intros ? ? Hx; by apply not_elem_of_nil in Hx)]. }
  assert (forall c1 c2, inv fns (text_len c1) c1 -> compile_functions fuel 0 fns c1 = Done c2 ->
    wf c2 /\ text_len c1 <= text_len c2 /\ placed (length (funcs c2)) c2) as Hfuns.
  { intros c1 c2 [Hw1 _ Hf1] E2. apply (compile_functions_spec fuel fns 0 c1 c2); [done|by rewrite Hf1|intros j f Hj; lia|exact E2]. }
  destruct kmod.
  - destruct (compile_functions fuel 0 fns c0) as [c2| | |] eqn:E2; [|discriminate..].
    destruct (Hfuns c0 c2 (inv_self _ _ _ H0) E2) as (Hw2 & _ & Hp2). by exists c2.
  - assert (inv fns 0 (emit8 0xE8 c0)) as H1 by (by apply emit8_inv).
    destruct (emit_hole_spec fns 0 (emit8 0xE8 c0) _ _ eq_refl H1) as [H2 _]. apply inv_self in H2.
    change (text_len (emit32 0 (emit8 0xE8 c0))) with 5 in H2. cbn [emit_hole] in E.
    set (c1 := emit_exit_rax _) in E.
    assert (inv fns 5 c1) as H3 by (by apply emit_exit_rax_inv).
    destruct (compile_functions fuel 0 fns c1) as [c2| | |] eqn:E2; [|discriminate..].
    destruct (Hfuns c1 c2 (inv_self _ _ _ H3) E2) as (Hw2 & Hl2 & Hp2). cbn [res_bind] in E.
    pose proof (inv_len _ _ _ H3) as Hl1.
    destruct (need _) as [[mi f]| | |]; [|discriminate..]. cbn [res_bind] in E.
    assert (hole (text_len c2) (text_len (emit8 0xE8 c0))) as Hh by (change (text_len (emit8 0xE8 c0)) with 1; unfold hole; lia).
    destruct (patch_rel _ _ c2) as [c3| | |] eqn:E3; [|discriminate..]. cbn [res_bind] in E.
    destruct (patch_rel_spec (text_len c2) _ _ _ _ Hw2 (Z.le_refl _) Hh E3) as (Hw3 & Hl3 & Hf3).
    exists c3. split; [done|]. split; [lia|]. split; [|done]. rewrite Hf3. intros j g Hj Hg He. rewrite Hf3 in Hg.
    destruct (Hp2 j g Hj Hg He). lia.
Qed.

(** The state after the compilation of a source: the code of a program is not
    empty, and every function has its code in the text. *)
Lemma compile_source_wf fuel kmod src c :
  compile_source fuel kmod src = Done c ->
  wf c /\ (kmod = false -> 5 <= text_len c) /\ placed (length (funcs c)) c.
Proof.
  intros (c0 & Hw & Hl & Hp & E)%compile_source_unpatched.
  pose proof (patch_calls_inv (funcs c0) (text_len c0) (calls c0) c0 (mk_inv _ _ _ Hw (Z.le_refl _) eq_refl) (wf_calls _ Hw)) as Hi.
  rewrite E in Hi. destruct Hi as [Hw' Hl' Hf']. unfold st1 in *. split; [done|]. split; [intros Hk; specialize (Hl Hk); lia|].
  rewrite Hf'. intros j g Hj Hg He. rewrite Hf' in Hg. destruct (Hp j g Hj Hg He). lia.
Qed.
