(* ===== verification/OrecExpr.v ===== *)
(** OreLang expressions are compiled correctly.

    [expr] is the abstract syntax, [parses] the grammar (which characters are an
    expression, at which precedence), [eval] its value in a frame of variables in
    memory.  [comp] is the code that the compiler emits for an abstract
    expression.  The syntax has no calls, string literals, sizeof, alignof and offsetof;
    only arrays are indexed, and elements and what pointers are added to have at most
    127 bytes (beyond that the emitted code is wrong).  The two halves of the theorem: the recursive-descent parser
    emits [comp e] for every text of [e], and that code, as decoded by [X86],
    leaves [eval e] in rax. *)
From stdpp Require Import base numbers list.
From Stdlib Require Import ZArith Lia.
From Stdlib Require Import(notations) Ascii String.
From S2P Require Import Prelude Memory Cstring OrecLex OrecGen X86.

(** ** Syntax *)

Inductive binop := BMul | BDiv | BMod | BAdd | BSub | BShl | BShr | BAnd | BOr | BEq | BNe | BLe | BGe | BLt | BGt.
Inductive unop := ULNot | UNot | UNeg | UDeref.

Inductive expr :=
| EInt (n : Z)
| EVar (x : list Z)
| EIndex (x : list Z) (i : expr)
| EField (x f : list Z)
| EAddr (x : list Z)
| EAddrIndex (x : list Z) (i : expr)
| EAddrField (x f : list Z)
| EUn (op : unop) (e : expr)
| EBin (op : binop) (e1 e2 : expr).

(** ** The emitted instructions, each with its bytes *)

Definition disp_ok (d : Z) : Prop := -2147483648 <= d < 2147483648.

Definition i_mov_rax (v : Z) : list Z * instr := ([0x48; 0xB8] ++ le_bytes 8 (u64 v), MovImm RAX v).
Definition i_push : list Z * instr := ([0x50], Push RAX).
Definition i_pop_rcx : list Z * instr := ([0x59], Pop RCX).
Definition i_load_var (n : nat) (off : Z) : list Z * instr :=
  match n with
  | 1%nat => ([0x0F; 0xB6; 0x85] ++ le_bytes 4 (u32 (- off)), MovZx RAX (OMem (Some RBP) (- off)))
  | 4%nat => ([0x8B; 0x85] ++ le_bytes 4 (u32 (- off)), Mov 4 (OReg RAX) (OMem (Some RBP) (- off)))
  | _ => ([0x48; 0x8B; 0x85] ++ le_bytes 4 (u32 (- off)), Mov 8 (OReg RAX) (OMem (Some RBP) (- off)))
  end.
Definition i_lea_rax (off : Z) : list Z * instr :=
  ([0x48; 0x8D; 0x85] ++ le_bytes 4 (u32 (- off)), Lea RAX (OMem (Some RBP) (- off))).
Definition i_lea_rcx (off : Z) : list Z * instr :=
  ([0x48; 0x8D; 0x8D] ++ le_bytes 4 (u32 (- off)), Lea RCX (OMem (Some RBP) (- off))).
Definition i_load_ptr (n : nat) : list Z * instr :=
  match n with
  | 1%nat => ([0x48; 0x0F; 0xB6; 0x00], MovZx RAX (OMem (Some RAX) 0))
  | 4%nat => ([0x8B; 0x00], Mov 4 (OReg RAX) (OMem (Some RAX) 0))
  | _ => ([0x48; 0x8B; 0x00], Mov 8 (OReg RAX) (OMem (Some RAX) 0))
  end.
Definition i_imul_imm (k : Z) : list Z * instr := ([0x48; 0x6B; 0xC0; k], ImulImm RAX (OReg RAX) k).
Definition i_add_imm (k : Z) : list Z * instr := ([0x48; 0x05] ++ le_bytes 4 (u32 k), AluImm ADD (OReg RAX) k).
Definition i_add : list Z * instr := ([0x48; 0x01; 0xC8], Alu ADD (OReg RAX) (OReg RCX)).

(** Bytes accessed for a type: [emit_load_ptr_t], [emit_store_ptr_t]. *)
Definition width (t : Ty) : nat := if t_size t =? 1 then 1%nat else if t_size t =? 4 then 4%nat else 8%nat.

Definition scale_code (k : Z) : code := if k =? 1 then [] else [i_imul_imm k].

(** A size that fits the one-byte immediate of the multiplication. *)
Definition scale_ok (k : Z) : bool := (1 <=? k) && (k <=? 127).

Definition setcc_code (cc : Z) (c : cond) : code :=
  [([0x0F; cc; 0xC0], Setcc c (OReg RAX)); ([0x48; 0x0F; 0xB6; 0xC0], MovZx RAX (OReg RAX))].

Definition cmp_code (cc : Z) (c : cond) : code :=
  [i_pop_rcx; ([0x48; 0x39; 0xC1], Alu CMP (OReg RCX) (OReg RAX))] ++ setcc_code cc c.

Definition div_code : code :=
  [i_pop_rcx; ([0x48; 0x89; 0xC3], Mov 8 (OReg RBX) (OReg RAX)); ([0x48; 0x89; 0xC8], Mov 8 (OReg RAX) (OReg RCX));
   ([0x48; 0x99], Cqo); ([0x48; 0xF7; 0xFB], Idiv (OReg RBX))].

Definition shift_code (b : Z) (i : instr) : code :=
  [([0x48; 0x89; 0xC1], Mov 8 (OReg RCX) (OReg RAX)); ([0x58], Pop RAX); ([0x48; 0xD3; b], i)].

(** Whether [+] and [-] scale their second operand, and by what. *)
Definition ptr_scale (lhs rhs : Ty) : Z :=
  if type_is_ptr lhs && negb (type_is_ptr rhs) then type_pointee_size lhs else 1.

(** The code after the second operand. *)
Definition bin_code (op : binop) (lhs rhs : Ty) : code :=
  match op with
  | BMul => [i_pop_rcx; ([0x48; 0x0F; 0xAF; 0xC1], Imul RAX (OReg RCX))]
  | BDiv => div_code
  | BMod => div_code ++ [([0x48; 0x89; 0xD0], Mov 8 (OReg RAX) (OReg RDX))]
  | BAdd => scale_code (ptr_scale lhs rhs) ++ [i_pop_rcx; i_add]
  | BSub => scale_code (ptr_scale lhs rhs) ++
            [i_pop_rcx; ([0x48; 0x29; 0xC1], Alu SUB (OReg RCX) (OReg RAX));
             ([0x48; 0x89; 0xC8], Mov 8 (OReg RAX) (OReg RCX))]
  | BShl => shift_code 0xE0 (Shl (OReg RAX))
  | BShr => shift_code 0xF8 (Sar (OReg RAX))
  | BAnd => [i_pop_rcx; ([0x48; 0x21; 0xC8], Alu AND (OReg RAX) (OReg RCX))]
  | BOr => [i_pop_rcx; ([0x48; 0x09; 0xC8], Alu OR (OReg RAX) (OReg RCX))]
  | BEq => cmp_code 0x94 CE
  | BNe => cmp_code 0x95 CNE
  | BLe => cmp_code 0x9E CLE
  | BGe => cmp_code 0x9D CGE
  | BLt => cmp_code 0x9C CL
  | BGt => cmp_code 0x9F CG
  end.

Definition un_code (op : unop) (t : Ty) : code :=
  match op with
  | ULNot => ([0x48; 0x83; 0xF8; 0x00], AluImm CMP (OReg RAX) 0) :: setcc_code 0x94 CE
  | UNot => [([0x48; 0xF7; 0xD0], Not (OReg RAX))]
  | UNeg => [([0x48; 0xF7; 0xD8], Neg (OReg RAX))]
  | UDeref => [i_load_ptr (width (deref_type t))]
  end.

Definition bin_type (op : binop) (lhs : Ty) : Ty :=
  match op with
  | BAdd | BSub => lhs
  | BEq | BNe | BLe | BGe | BLt | BGt => ty_bool
  | _ => ty_int
  end.
Definition un_type (op : unop) (t : Ty) : Ty :=
  match op with ULNot => ty_bool | UNot => t | UNeg => ty_int | UDeref => deref_type t end.

(** ** Scopes *)

(** The variables in scope and the structures. *)
Record scope := mk_scope { sc_vars : list Var; sc_structs : list StructDef }.
Definition scope_of (c : cstate) : scope := mk_scope (vars c) (structs c).

Definition lookup_var (g : scope) (x : list Z) : option Var := option_map snd (find_named v_name x (sc_vars g) 0).

(** The slots of the frame have negative displacements that fit 32 bits. *)
Definition slot_ok (v : Var) : bool := (0 <? v_offset v) && (v_offset v <=? 2147483648).

(** A variable whose value fits a register. *)
Definition scalar_var (g : scope) (x : list Z) : option Var :=
  v ← lookup_var g x;
  if slot_ok v && negb (kind_eqb (t_kind (v_type v)) TY_ARRAY || kind_eqb (t_kind (v_type v)) TY_STRUCT)
  then Some v else None.

Definition array_var (g : scope) (x : list Z) : option Var :=
  v ← lookup_var g x;
  if slot_ok v && kind_eqb (t_kind (v_type v)) TY_ARRAY && scale_ok (type_pointee_size (v_type v))
  then Some v else None.

Definition field_of (g : scope) (x f : list Z) : option (Var * Field) :=
  v ← lookup_var g x;
  if slot_ok v && kind_eqb (t_kind (v_type v)) TY_STRUCT then
    st ← sc_structs g !! Z.to_nat (t_struc (v_type v));
    fd ← find_field st f;
    if (0 <=? fd_offset fd) && (fd_offset fd <? 2147483648) then Some (v, fd) else None
  else None.

Definition elem_type (t : Ty) : Ty :=
  let size := type_pointee_size t in
  mk_ty TY_INT size (if size <? 8 then size else 8) (t_base t) (t_count t) (t_struc t).

(** The type of [&x] for something of type [t]. *)
Definition addr_type (t : Ty) : Ty := ty_ptr (if kind_eqb (t_kind t) TY_ARRAY then ty_array_element t else t).

Definition field_code (v : Var) (fd : Field) : code :=
  i_lea_rax (v_offset v) :: if fd_offset fd =? 0 then [] else [i_add_imm (fd_offset fd)].
Definition index_code (v : Var) : code :=
  scale_code (type_pointee_size (v_type v)) ++ [i_lea_rcx (v_offset v); i_add].

(** The type of an expression and its code. *)
Fixpoint comp (g : scope) (e : expr) : option (Ty * code) :=
  match e with
  | EInt n => if decide (word64 n) then Some (ty_int, [i_mov_rax n]) else None
  | EVar x => v ← scalar_var g x; Some (v_type v, [i_load_var (width (v_type v)) (v_offset v)])
  | EIndex x i =>
      v ← array_var g x;
      '(_, ci) ← comp g i;
      Some (elem_type (v_type v), ci ++ index_code v ++ [i_load_ptr (width (elem_type (v_type v)))])
  | EField x f =>
      '(v, fd) ← field_of g x f;
      Some (fd_type fd, field_code v fd ++ [i_load_ptr (width (fd_type fd))])
  | EAddr x => v ← lookup_var g x; if slot_ok v then Some (addr_type (v_type v), [i_lea_rax (v_offset v)]) else None
  | EAddrIndex x i =>
      v ← array_var g x;
      '(_, ci) ← comp g i;
      Some (addr_type (ty_array_element (v_type v)), ci ++ index_code v)
  | EAddrField x f => '(v, fd) ← field_of g x f; Some (addr_type (fd_type fd), field_code v fd)
  | EUn op e => '(t, ce) ← comp g e; Some (un_type op t, ce ++ un_code op t)
  | EBin op e1 e2 =>
      '(t1, c1) ← comp g e1;
      '(t2, c2) ← comp g e2;
      if match op with BAdd | BSub => scale_ok (ptr_scale t1 t2) | _ => true end
      then Some (bin_type op t1, c1 ++ [i_push] ++ c2 ++ bin_code op t1 t2) else None
  end.

(** ** Values *)

(** Memory that belongs to the program: bytes and the test for them. *)
Record data_memory := mk_dm { dm_bytes : Z -> Z; dm_valid : Z -> bool }.

(** The [n] little-endian bytes at an address, if all are valid. *)
Fixpoint dm_load (n : nat) (d : data_memory) (a : Z) : option Z :=
  match n with
  | O => Some 0
  | S n => if dm_valid d a then v ← dm_load n d (a + 1); Some (dm_bytes d a + 256 * v) else None
  end.

(** A value of type [t] at an address.  A negative 32-bit value has none: the compiler
    loads four bytes zero-extended whatever their sign, and the type of an element or of
    what a pointer points to does not say whether it is signed. *)
Definition load_value (t : Ty) (d : data_memory) (a : Z) : option Z :=
  v ← dm_load (width t) d a;
  if (t_size t =? 4) && negb (kind_eqb (t_kind t) TY_U32) && (2147483648 <=? v) then None else Some v.

Lemma load_value_bytes t d a v : load_value t d a = Some v -> dm_load (width t) d a = Some v.
Proof. unfold load_value. destruct (dm_load _ _ _) as [w|]; [|done]. cbn. by destruct (_ && _ && _). Qed.

Definition bool_value (b : bool) : Z := if b then 1 else 0.

Definition bin_value (op : binop) (scale a b : Z) : option Z :=
  match op with
  | BMul => Some (u64 (a * b))
  | BDiv | BMod =>
      if (s64 b =? 0) || ((s64 a =? -9223372036854775808) && (s64 b =? -1)) then None
      else Some (u64 (if match op with BDiv => true | _ => false end
                      then Z.quot (s64 a) (s64 b) else Z.rem (s64 a) (s64 b)))
  | BAdd => Some (u64 (a + b * scale))
  | BSub => Some (u64 (a - b * scale))
  | BShl => Some (u64 (Z.shiftl a (b mod 64)))
  | BShr => Some (u64 (Z.shiftr (s64 a) (b mod 64)))
  | BAnd => Some (Z.land a b)
  | BOr => Some (Z.lor a b)
  | BEq => Some (bool_value (a =? b))
  | BNe => Some (bool_value (negb (a =? b)))
  | BLe => Some (bool_value (s64 a <=? s64 b))
  | BGe => Some (bool_value (s64 b <=? s64 a))
  | BLt => Some (bool_value (s64 a <? s64 b))
  | BGt => Some (bool_value (s64 b <? s64 a))
  end.

Definition un_value (op : unop) (t : Ty) (d : data_memory) (v : Z) : option Z :=
  match op with
  | ULNot => Some (bool_value (v =? 0))
  | UNot => Some (not64 v)
  | UNeg => Some (u64 (- v))
  | UDeref => load_value (deref_type t) d v
  end.

(** The static type. *)
Definition type_of (g : scope) (e : expr) : option Ty := option_map fst (comp g e).

Definition slot (fp : Z) (v : Var) : Z := u64 (fp - v_offset v).

(** The value of an expression in the frame at [fp]. *)
Fixpoint eval (g : scope) (fp : Z) (d : data_memory) (e : expr) : option Z :=
  let index x i :=
    v ← array_var g x;
    n ← eval g fp d i;
    Some (v, u64 (slot fp v + n * type_pointee_size (v_type v))) in
  match e with
  | EInt n => Some n
  | EVar x => v ← scalar_var g x; load_value (v_type v) d (slot fp v)
  | EIndex x i => '(v, a) ← index x i; load_value (elem_type (v_type v)) d a
  | EField x f => '(v, fd) ← field_of g x f; load_value (fd_type fd) d (u64 (slot fp v + fd_offset fd))
  | EAddr x => v ← lookup_var g x; Some (slot fp v)
  | EAddrIndex x i => '(_, a) ← index x i; Some a
  | EAddrField x f => '(v, fd) ← field_of g x f; Some (u64 (slot fp v + fd_offset fd))
  | EUn op e => t ← type_of g e; v ← eval g fp d e; un_value op t d v
  | EBin op e1 e2 =>
      t1 ← type_of g e1;
      t2 ← type_of g e2;
      a ← eval g fp d e1;
      b ← eval g fp d e2;
      bin_value op (ptr_scale t1 t2) a b
  end.

(** Words the evaluation pushes at once. *)
Fixpoint depth (e : expr) : Z :=
  match e with
  | EIndex _ i | EAddrIndex _ i => depth i
  | EUn _ e => depth e
  | EBin _ e1 e2 => Z.max (depth e1) (1 + depth e2)
  | _ => 0
  end.

(** ** The code computes the value *)

(** Evaluation may use [k] words below the stack pointer. *)
Record evaluates (k : Z) (s s' : cpu) : Prop := {
  ev_rsp : get RSP s' = get RSP s;
  ev_rbp : get RBP s' = get RBP s;
  ev_ok : mem_ok (cmem s');
  ev_frame : forall a, ~ (get RSP s - 8 * k <= a < get RSP s) -> load8 (cmem s') a = load8 (cmem s) a;
}.

Lemma evaluates_trans k s1 s2 s3 : evaluates k s1 s2 -> evaluates k s2 s3 -> evaluates k s1 s3.
Proof.
  intros [A1 A2 A3 A4] [B1 B2 B3 B4]. split; [congruence|congruence|done|].
  intros a Ha. rewrite B4, A4 by (rewrite ?A1; lia). done.
Qed.

Lemma evaluates_mono k k' s s' : k <= k' -> evaluates k s s' -> evaluates k' s s'.
Proof. intros Hk [A1 A2 A3 A4]. split; [done|done|done|]. intros a Ha. apply A4. lia. Qed.

(** Registers other than the stack and frame pointer. *)
Lemma evaluates_regs s s' :
  mem_ok (cmem s) -> get RSP s' = get RSP s -> get RBP s' = get RBP s -> cmem s' = cmem s -> evaluates 0 s s'.
Proof. intros Hm H1 H2 H3. split; [done|done|by rewrite H3|]. intros a _. by rewrite H3. Qed.

Lemma read_reg r s : word64 (get r s) -> read 8 (OReg r) s = get r s.
Proof. intros Hw. unfold read. change (256 ^ Z.of_nat 8) with 18446744073709551616. by apply Z.mod_small. Qed.

Lemma s64_bound x : -9223372036854775808 <= s64 x < 9223372036854775808.
Proof. unfold s64. pose proof (u64_bound x). unfold word64 in *. cmp_cases; lia. Qed.

Lemma s64_mod x : exists k, s64 x = x + k * 18446744073709551616.
Proof.
  unfold s64, u64. pose proof (Z.div_mod x 18446744073709551616 ltac:(lia)) as Hd.
  cmp_cases; [exists (- (x / 18446744073709551616))|exists (- (x / 18446744073709551616) - 1)]; lia.
Qed.

Lemma s64_inj x y : word64 x -> word64 y -> s64 x = s64 y -> x = y.
Proof. unfold word64. intros Hx Hy Hs. destruct (s64_mod x) as [k Hk], (s64_mod y) as [l Hl]. assert (x - y = (l - k) * 18446744073709551616) by lia. nia. Qed.

(** The flags of a comparison order the signed values. *)
Lemma cmp_flags_spec a b :
  word64 a -> word64 b ->
  f_zero (cmp_flags a b) = (a =? b) /\ xorb (f_sign (cmp_flags a b)) (f_over (cmp_flags a b)) = (s64 a <? s64 b).
Proof.
  intros Ha Hb. unfold cmp_flags. cbn [f_zero f_sign f_over]. split.
  - unfold word64 in *. unfold u64. cmp_cases; try zlia.
  - pose proof (s64_bound a). pose proof (s64_bound b). pose proof (s64_bound (u64 (a - b))).
    destruct (s64_mod a) as [k Hk], (s64_mod b) as [l Hl], (s64_mod (u64 (a - b))) as [j Hj].
    assert (exists q, u64 (a - b) = a - b + q * 18446744073709551616) as [q Hq].
    { exists (- ((a - b) / 18446744073709551616)). unfold u64. pose proof (Z.div_mod (a - b) 18446744073709551616 ltac:(lia)). lia. }
    assert (s64 (u64 (a - b)) = s64 a - s64 b + (j + q + l - k) * 18446744073709551616) as He by lia.
    set (x := s64 a) in *. set (y := s64 b) in *. set (z := s64 (u64 (a - b))) in *.
    assert (j + q + l - k = -1 \/ j + q + l - k = 0 \/ j + q + l - k = 1) as Hc by lia.
    clearbody x y z. clear - He H H0 H1 Hc. set (w := j + q + l - k) in *. clearbody w.
    cmp_cases; destruct Hc as [->|[->| ->]]; cbn; try lia; try done.
Qed.

Lemma holds_spec c a b :
  word64 a -> word64 b ->
  holds c (cmp_flags a b) =
  match c with
  | CE => a =? b | CNE => negb (a =? b) | CL => s64 a <? s64 b | CGE => s64 b <=? s64 a
  | CLE => s64 a <=? s64 b | CG => s64 b <? s64 a
  end.
Proof.
  intros Ha Hb. destruct (cmp_flags_spec a b Ha Hb) as [Hz Hs]. unfold holds. rewrite Hz, Hs.
  destruct c; try done.
  - by rewrite <- Z.leb_antisym.
  - destruct (Z.eqb_spec a b) as [->|Hne]; cbn [orb]; [by rewrite Z.leb_refl|].
    assert (s64 a <> s64 b) by (intros Heq; apply Hne; by apply s64_inj). cmp_cases.
  - destruct (Z.eqb_spec a b) as [->|Hne]; cbn [negb andb]; [by rewrite Z.ltb_irrefl|].
    assert (s64 a <> s64 b) by (intros Heq; apply Hne; by apply s64_inj). cmp_cases.
Qed.

(** The data memory as the processor sees it. *)
Definition shows (m : mem) (d : data_memory) : Prop := forall a, dm_valid d a = true -> load8 m a = dm_bytes d a.

Lemma dm_load_spec n d m a v : shows m d -> dm_load n d a = Some v -> load_le n m a = v.
Proof.
  intros Hd. revert a v. induction n as [|n IH]; intros a v; cbn [dm_load load_le]; [congruence|].
  destruct (dm_valid d a) eqn:Ev; [|discriminate]. destruct (dm_load n d (a + 1)) as [w|] eqn:Ew; [|discriminate].
  intros [= <-]. by rewrite (IH _ _ Ew), Hd.
Qed.

Lemma load_le_word m n a : mem_ok m -> (n <= 8)%nat -> word64 (load_le n m a).
Proof.
  intros Hm Hn. pose proof (load_le_bound n m a Hm) as Hb. unfold word64.
  assert (256 ^ Z.of_nat n <= 256 ^ 8) by (apply Z.pow_le_mono_r; lia). change (256 ^ 8) with 18446744073709551616 in *. lia.
Qed.

Lemma width_cases t : width t = 1%nat \/ width t = 4%nat \/ width t = 8%nat.
Proof. unfold width. repeat case_test; auto. Qed.

Lemma width_bound t : (width t <= 8)%nat.
Proof. destruct (width_cases t) as [->|[->| ->]]; lia. Qed.

(** Results that leave stack, frame and memory alone. *)
Definition computes (v : Z) (s s' : cpu) : Prop :=
  get RAX s' = v /\ get RSP s' = get RSP s /\ get RBP s' = get RBP s /\ cmem s' = cmem s.

Lemma load_result n v : n = 1%nat \/ n = 4%nat \/ n = 8%nat -> 0 <= v < 256 ^ Z.of_nat n ->
  match n with 1%nat => v | 4%nat => u32 v | _ => u64 v end = v.
Proof. intros [->|[->| ->]] Hv; [done|apply Z.mod_small; exact Hv|apply Z.mod_small; exact Hv]. Qed.

Lemma run_load_ptr t s :
  mem_ok (cmem s) -> word64 (get RAX s) ->
  exists s', run [(i_load_ptr (width t)).2] s = Some s' /\ computes (load_le (width t) (cmem s) (get RAX s)) s s'.
Proof.
  intros Hm Hw. pose proof (load_le_bound (width t) (cmem s) (get RAX s) Hm) as Hb.
  pose proof (load_result _ _ (width_cases t) Hb) as Hr.
  assert (address (Some RAX) 0 s = get RAX s) as Ha by (unfold address; rewrite Z.add_0_r; by apply u64_small).
  destruct (width_cases t) as [E|[E|E]]; rewrite E in *; (eexists; split; [reflexivity|]);
    (split; [|done]); cbn -[load_le address u32 u64]; rewrite Ha; exact Hr.
Qed.

Lemma run_load_var t off s :
  mem_ok (cmem s) ->
  exists s', run [(i_load_var (width t) off).2] s = Some s' /\
    computes (load_le (width t) (cmem s) (u64 (get RBP s - off))) s s'.
Proof.
  intros Hm. pose proof (load_le_bound (width t) (cmem s) (u64 (get RBP s - off)) Hm) as Hb.
  pose proof (load_result _ _ (width_cases t) Hb) as Hr.
  assert (address (Some RBP) (- off) s = u64 (get RBP s - off)) as Ha by (unfold address; f_equal; lia).
  destruct (width_cases t) as [E|[E|E]]; rewrite E in *; (eexists; split; [reflexivity|]);
    (split; [|done]); cbn -[load_le address u32 u64]; rewrite Ha; exact Hr.
Qed.

Lemma run_scale k s :
  1 <= k -> word64 (get RAX s) ->
  exists s', run (map snd (scale_code k)) s = Some s' /\ computes (u64 (get RAX s * k)) s s'.
Proof.
  intros Hk Hw. unfold scale_code. destruct (Z.eqb_spec k 1) as [->|Hne].
  - exists s. split; [done|]. split; [|done]. rewrite Z.mul_1_r. by rewrite u64_small.
  - eexists. split; [reflexivity|]. split; [|done]. cbn -[read u64]. by rewrite read_reg.
Qed.

Lemma setcc_result x b : (x / 256 * 256 + u8 (bool_value b)) mod 256 = bool_value b.
Proof. destruct b; unfold bool_value, u8; zlia. Qed.

Lemma not64_sub v : word64 v -> not64 v = 18446744073709551615 - v.
Proof.
  intros Hv. unfold not64. rewrite u64_small by done. change 18446744073709551615 with (Z.ones 64).
  destruct (Z.eq_dec v 0) as [->|Hne]; [done|]. unfold word64 in Hv.
  assert (Z.log2 v < 64) as Hl by (apply Z.log2_lt_pow2; lia).
  rewrite <- Z.ldiff_ones_l_low by lia. symmetry. apply Z.sub_nocarry_ldiff.
  apply Z.ldiff_ones_r_low; lia.
Qed.

Lemma run_un op t d s v w :
  mem_ok (cmem s) -> shows (cmem s) d -> get RAX s = v -> word64 v -> un_value op t d v = Some w ->
  exists s', run (map snd (un_code op t)) s = Some s' /\ computes w s s' /\ word64 w.
Proof.
  intros Hm Hd Hv Hw Hu. destruct op; cbn [un_value un_code] in *.
  - injection Hu as <-. eexists. split; [reflexivity|]. split; [|destruct (v =? 0); unfold word64, bool_value; lia].
    split; [|done]. cbn -[read u64 cmp_flags holds u8]. rewrite read_reg by (rewrite Hv; done). rewrite Hv.
    rewrite holds_spec by (done || apply u64_bound). change (u64 0) with 0. apply setcc_result.
  - injection Hu as <-. eexists. split; [reflexivity|].
    assert (word64 (not64 v)) as Hn by (rewrite not64_sub by done; unfold word64 in *; lia).
    split; [|done]. split; [|done]. cbn -[read u64 not64]. rewrite read_reg by (rewrite Hv; done). rewrite Hv. by apply u64_small.
  - injection Hu as <-. eexists. split; [reflexivity|]. split; [|apply u64_bound].
    split; [|done]. cbn -[read u64]. rewrite read_reg by (rewrite Hv; done). rewrite Hv. apply u64_idemp.
  - rewrite <- Hv in Hw. destruct (run_load_ptr (deref_type t) s Hm Hw) as (s' & Hr & Hc).
    rewrite Hv in Hc. apply load_value_bytes in Hu. rewrite (dm_load_spec _ _ _ _ _ Hd Hu) in Hc.
    exists s'. split; [exact Hr|]. split; [exact Hc|].
    rewrite <- (dm_load_spec _ _ _ _ _ Hd Hu). apply load_le_word; [done|apply width_bound].
Qed.

(** *** Binary operators *)

Lemma s64_split a : word64 a -> s64 (if s64 a <? 0 then 18446744073709551615 else 0) * 18446744073709551616 + a = s64 a.
Proof.
  intros Ha. unfold s64 at 2 3. rewrite (u64_small a) by done. unfold word64 in Ha.
  destruct (Z.ltb_spec a 9223372036854775808).
  - rewrite (proj2 (Z.ltb_ge a 0)) by lia. change (s64 0) with 0. lia.
  - rewrite (proj2 (Z.ltb_lt (a - 18446744073709551616) 0)) by lia. change (s64 18446744073709551615) with (-1). lia.
Qed.

Lemma quot_range x y :
  -9223372036854775808 <= x < 9223372036854775808 -> y <> 0 -> ~ (x = -9223372036854775808 /\ y = -1) ->
  -9223372036854775808 <= Z.quot x y < 9223372036854775808.
Proof.
  intros Hx Hy Hn. assert (Z.abs (Z.quot x y) <= Z.abs x) as Ha.
  { rewrite <- Z.quot_abs by done. apply Z.quot_le_upper_bound; nia. }
  destruct (Z.eq_dec (Z.quot x y) 9223372036854775808) as [E|]; [|lia]. exfalso. apply Hn.
  assert (x = -9223372036854775808) as -> by lia. split; [done|].
  pose proof (Z.quot_rem (-9223372036854775808) y Hy) as Hq. rewrite E in Hq.
  pose proof (Z.rem_bound_abs (-9223372036854775808) y Hy). nia.
Qed.

(** The first operand is on top of the stack, the second in rax. *)
Record operands (a b : Z) (s : cpu) : Prop := {
  op_rax : get RAX s = b;
  op_top : load64 (cmem s) (get RSP s) = a;
  op_a : word64 a;
  op_b : word64 b;
  op_rsp : get RSP s + 8 < 18446744073709551616;
  op_rsp0 : 0 <= get RSP s;
}.

(** The result in rax, the operand popped. *)
Definition reduces (v : Z) (s s' : cpu) : Prop :=
  get RAX s' = v /\ get RSP s' = get RSP s + 8 /\ get RBP s' = get RBP s /\ cmem s' = cmem s.

Ltac reduce_step :=
  eexists; split; [reflexivity|];
  split; [|split; [cbn -[u64]; apply u64_small; unfold word64; lia|split; reflexivity]].

Lemma run_div a b s :
  operands a b s -> (s64 b =? 0) || ((s64 a =? -9223372036854775808) && (s64 b =? -1)) = false ->
  exists s', run (map snd div_code) s = Some s' /\
    reduces (u64 (Z.quot (s64 a) (s64 b))) s s' /\ get RDX s' = u64 (Z.rem (s64 a) (s64 b)).
Proof.
  intros [H1 H2 H3 H4 H5 H6] Hz. apply orb_false_iff in Hz as [Hz Ho].
  pose (s1 := set RDX (if s64 a <? 0 then 18446744073709551615 else 0)
     (set RAX a (set RBX (u64 b) (set RCX a (set RSP (u64 (get RSP s + 8)) s))))).
  assert (run (map snd div_code) s = match exec (Idiv (OReg RBX)) s1 with Some (Next s') => Some s' | _ => None end) as ->.
  { cbn [map snd div_code i_pop_rcx run exec]. rewrite H2.
    change (read 8 (OReg RAX) _) with (get RAX s mod 18446744073709551616). rewrite H1.
    change (b mod _) with (u64 b). cbn [write].
    rewrite u64_idemp. change (read 8 (OReg RCX) _) with (u64 a). rewrite u64_idemp.
    change (get RAX (set RAX (u64 a) _)) with (u64 a). rewrite (u64_small a) by done. reflexivity. }
  cbn [exec]. change (read 8 (OReg RBX) s1) with (u64 (u64 b)). rewrite u64_idemp, (u64_small b) by done.
  change (get RDX s1) with (if s64 a <? 0 then 18446744073709551615 else 0). change (get RAX s1) with a.
  rewrite s64_split by done. rewrite Hz. cbn [orb].
  assert (-9223372036854775808 <= Z.quot (s64 a) (s64 b) < 9223372036854775808) as Hq.
  { apply quot_range; [apply s64_bound|by apply Z.eqb_neq|]. intros [E1 E2]. rewrite E1, E2 in Ho. discriminate Ho. }
  rewrite (proj2 (Z.leb_le _ _)), (proj2 (Z.ltb_lt _ _)) by lia. cbn [andb negb].
  eexists. split; [reflexivity|]. split; [|reflexivity].
  split; [reflexivity|]. split; [|done]. cbn -[u64]. apply u64_small. unfold word64. lia.
Qed.

Lemma run_cmp cb c a b s :
  operands a b s ->
  exists s', run (map snd (cmp_code cb c)) s = Some s' /\ reduces (bool_value (holds c (cmp_flags a b))) s s'.
Proof.
  intros [H1 H2 H3 H4 H5 H6]. reduce_step.
  cbn -[read u64 cmp_flags holds u8 load64]. rewrite H2.
  set (s1 := set RCX a (set RSP (get RSP s +u 8) s)).
  assert (read 8 (OReg RAX) s1 = b) as -> by (rewrite <- H1; apply (read_reg RAX s1); by rewrite <- H1 in H4).
  assert (read 8 (OReg RCX) s1 = a) as -> by (by apply (read_reg RCX s1)).
  change (read 1 (OReg RAX) (set RAX ?v _)) with (v mod 256). apply setcc_result.
Qed.

Lemma bin_value_word op k a b v : word64 a -> word64 b -> bin_value op k a b = Some v -> word64 v.
Proof.
  intros Ha Hb. destruct op; cbn [bin_value]; try case_test; try discriminate; intros [= <-];
    first [apply u64_bound|apply word64_land_l; [unfold word64 in *; lia|done]|by apply word64_lor
          |match goal with |- word64 (bool_value ?b) => destruct b; unfold word64; cbn; lia end].
Qed.

(** [+] and [-] after the scaling of the second operand. *)
Lemma run_add (sub : bool) k a b s :
  operands a b s -> scale_ok k = true ->
  exists s', run (map snd (scale_code k ++
      if sub then [i_pop_rcx; ([0x48; 0x29; 0xC1], Alu SUB (OReg RCX) (OReg RAX));
                   ([0x48; 0x89; 0xC8], Mov 8 (OReg RAX) (OReg RCX))] else [i_pop_rcx; i_add])) s = Some s' /\
    reduces (u64 (if sub then a - b * k else a + b * k)) s s'.
Proof.
  intros [H1 H2 H3 H4 H5 H6] Hk. unfold scale_ok in Hk. bool_to_prop.
  rewrite <- H1 in H4. destruct (run_scale k s) as (s1 & R1 & C1 & C2 & C3 & C4); [lia|done|].
  rewrite map_app, run_app, R1. cbn [mbind option_bind].
  assert (read 8 (OReg RAX) s1 = u64 (b * k)) as Ha.
  { rewrite read_reg; rewrite C1, H1; [done|apply u64_bound]. }
  destruct sub; (eexists; split; [reflexivity|]); (split; [|split; [cbn -[u64]; rewrite C2; apply u64_small; unfold word64; lia|done]]).
  - cbn -[read u64 load64]. rewrite C2, C4, H2.
    change (read 8 (OReg RCX) (set RCX a _)) with (u64 a).
    change (read 8 (OReg RAX) (set RCX a _)) with (read 8 (OReg RAX) s1). rewrite Ha.
    change (read 8 (OReg RCX) (set_cc None (set RCX ?v _))) with (u64 v).
    rewrite !u64_idemp. rewrite (u64_small a) by done. unfold u64. by rewrite Zminus_mod_idemp_r.
  - cbn -[read u64 load64]. rewrite C2, C4, H2.
    change (read 8 (OReg RCX) (set RCX a _)) with (u64 a).
    change (read 8 (OReg RAX) (set RCX a _)) with (read 8 (OReg RAX) s1). rewrite Ha.
    rewrite u64_idemp, (u64_small a) by done. unfold u64. rewrite Zplus_mod_idemp_l. f_equal. lia.
Qed.

Lemma run_bin op t1 t2 a b v s :
  operands a b s -> bin_value op (ptr_scale t1 t2) a b = Some v ->
  match op with BAdd | BSub => scale_ok (ptr_scale t1 t2) | _ => true end = true ->
  exists s', run (map snd (bin_code op t1 t2)) s = Some s' /\ reduces v s s'.
Proof.
  intros Ho Hv Hsc. pose proof Ho as [H1 H2 H3 H4 H5 H6].
  assert (forall s1, get RAX s1 = get RAX s -> read 8 (OReg RAX) s1 = b) as HA.
  { intros s1 E. rewrite read_reg; rewrite E, H1; done. }
  assert (forall s1, get RCX s1 = a -> read 8 (OReg RCX) s1 = a) as HC.
  { intros s1 E. rewrite read_reg; rewrite E; done. }
  destruct op; cbn [bin_value bin_code] in *.
  10-15: injection Hv as <-; match goal with |- context [cmp_code ?x ?y] => destruct (run_cmp x y a b s Ho) as (s' & R & W) end;
    rewrite holds_spec in W by done; by exists s'.
  - injection Hv as <-. reduce_step. cbn -[read u64 load64]. rewrite H2, HC, Z.mul_comm by done. by rewrite <- H1.
  - destruct (_ || _) eqn:Ez in Hv; [discriminate|]. injection Hv as <-.
    destruct (run_div a b s Ho Ez) as (s' & R & W & _). by exists s'.
  - destruct (_ || _) eqn:Ez in Hv; [discriminate|]. injection Hv as <-.
    destruct (run_div a b s Ho Ez) as (s1 & R & (W1 & W2 & W3 & W4) & Hd).
    rewrite map_app, run_app, R. cbn [mbind option_bind].
    eexists. split; [reflexivity|]. split; [|done]. cbn -[read u64].
    rewrite read_reg; rewrite Hd; [apply u64_idemp|apply u64_bound].
  - injection Hv as <-. exact (run_add false _ a b s Ho Hsc).
  - injection Hv as <-. exact (run_add true _ a b s Ho Hsc).
  - injection Hv as <-. reduce_step. cbn -[read u64 load64 Z.shiftl Z.modulo].
    rewrite (HA s eq_refl). change (read 8 (OReg RAX) (set RAX ?x _)) with (u64 x). change (cmem (set _ _ s)) with (cmem s).
    change (regs s RSP) with (get RSP s). rewrite H2, (u64_small a), (u64_small b), u64_idemp by done. done.
  - injection Hv as <-. reduce_step. cbn -[read u64 load64 Z.shiftr Z.modulo s64].
    rewrite (HA s eq_refl). change (read 8 (OReg RAX) (set RAX ?x _)) with (u64 x). change (cmem (set _ _ s)) with (cmem s).
    change (regs s RSP) with (get RSP s). rewrite H2, (u64_small a), (u64_small b), u64_idemp by done. done.
  - injection Hv as <-. reduce_step. cbn -[read u64 load64]. rewrite H2, HC, HA by done. rewrite Z.land_comm.
    apply u64_small. apply word64_land_l; [unfold word64 in *; lia|done].
  - injection Hv as <-. reduce_step. cbn -[read u64 load64]. rewrite H2, HC, HA by done. rewrite Z.lor_comm.
    apply u64_small. by apply word64_lor.
Qed.

(** *** Addresses *)

Lemma run_lea off s : exists s', run [(i_lea_rax off).2] s = Some s' /\ computes (u64 (get RBP s - off)) s s'.
Proof. eexists. split; [reflexivity|]. split; [|done]. cbn -[u64]. f_equal. Qed.

Lemma run_index v n s :
  scale_ok (type_pointee_size (v_type v)) = true -> get RAX s = n -> word64 n ->
  exists s', run (map snd (index_code v)) s = Some s' /\
    computes (u64 (slot (get RBP s) v + n * type_pointee_size (v_type v))) s s'.
Proof.
  intros Hk Hn Hw. unfold scale_ok in Hk. bool_to_prop. rewrite <- Hn in Hw.
  destruct (run_scale (type_pointee_size (v_type v)) s) as (s1 & R1 & C1 & C2 & C3 & C4); [lia|done|].
  unfold index_code. rewrite map_app, run_app, R1. cbn [mbind option_bind].
  eexists. split; [reflexivity|]. split; [|by rewrite <- C2, <- C3, <- C4].
  cbn -[read u64]. rewrite (read_reg RAX) by (cbn; fold (get RAX s1); rewrite C1; apply u64_bound).
  rewrite (read_reg RCX) by apply u64_bound. cbn -[u64]. unfold address. fold (get RAX s1). rewrite C1, C3, Hn, u64_idemp.
  unfold slot, u64. rewrite Zplus_mod_idemp_l, !Zplus_mod_idemp_r, Zplus_mod_idemp_l. f_equal. lia.
Qed.

Lemma run_field v fd s :
  0 <= fd_offset fd < 2147483648 ->
  exists s', run (map snd (field_code v fd)) s = Some s' /\ computes (u64 (slot (get RBP s) v + fd_offset fd)) s s'.
Proof.
  intros Hf. unfold field_code. destruct (Z.eqb_spec (fd_offset fd) 0) as [->|Hne].
  - eexists. split; [reflexivity|]. split; [|done]. cbn -[u64]. rewrite Z.add_0_r. unfold slot. rewrite u64_idemp. f_equal.
  - eexists. split; [reflexivity|]. split; [|done]. cbn -[read u64]. rewrite (read_reg RAX) by apply u64_bound.
    cbn -[u64]. rewrite u64_idemp. unfold slot. rewrite (u64_small (fd_offset fd)) by (unfold word64; lia).
    f_equal.
Qed.

Lemma depth_nonneg e : 0 <= depth e.
Proof. induction e; cbn [depth]; lia. Qed.

Lemma computes_evaluates v s s' : mem_ok (cmem s) -> computes v s s' -> get RAX s' = v /\ evaluates 0 s s'.
Proof. intros Hm (H1 & H2 & H3 & H4). split; [done|]. by apply evaluates_regs. Qed.

Lemma evaluates_shows k d s s' :
  (forall a, dm_valid d a = true -> ~ (get RSP s - 8 * k <= a < get RSP s)) ->
  evaluates k s s' -> shows (cmem s) d -> shows (cmem s') d.
Proof. intros Hd E Hs a Ha. rewrite (ev_frame _ _ _ E) by auto. by apply Hs. Qed.

Lemma array_var_spec g x v : array_var g x = Some v -> lookup_var g x = Some v /\ slot_ok v = true /\
  kind_eqb (t_kind (v_type v)) TY_ARRAY = true /\ scale_ok (type_pointee_size (v_type v)) = true.
Proof.
  unfold array_var. destruct (lookup_var g x) as [w|]; [|done]. cbn [mbind option_bind].
  destruct (slot_ok w && _ && _) eqn:Ew; [|done]. intros [= ->]. bool_to_prop. done.
Qed.

Lemma field_of_spec g x f v fd : field_of g x f = Some (v, fd) -> 0 <= fd_offset fd < 2147483648.
Proof.
  unfold field_of. destruct (lookup_var g x) as [w|]; [|done]. cbn [mbind option_bind].
  destruct (slot_ok w && _); [|done]. destruct (_ !! _) as [st|]; [|done]. cbn [mbind option_bind].
  destruct (find_field st f) as [fd'|]; [|done]. cbn [mbind option_bind].
  destruct ((0 <=? fd_offset fd') && _) eqn:Ef; [|done]. intros [= _ ->]. bool_to_prop. lia.
Qed.

(** What a run of the code of [e] needs: room on the stack, away from the
    program's data. *)
Record ready (k : Z) (d : data_memory) (s : cpu) : Prop := {
  rd_ok : mem_ok (cmem s);
  rd_shows : shows (cmem s) d;
  rd_room : 8 * k <= get RSP s < 18446744073709551616;
  rd_apart : forall a, dm_valid d a = true -> ~ (get RSP s - 8 * k <= a < get RSP s);
}.

Lemma ready_mono k k' d s : k' <= k -> ready k d s -> ready k' d s.
Proof. intros Hk [A1 A2 A3 A4]. split; [done|done|lia|]. intros a Ha Hc. apply (A4 a Ha). lia. Qed.

Lemma ready_after k k' d s s' : k' <= k -> ready k d s -> evaluates k' s s' -> ready k d s'.
Proof.
  intros Hk [A1 A2 A3 A4] E. pose proof E as [E1 E2 E3 E4].
  split; [done| |by rewrite E1|by rewrite E1].
  eapply (evaluates_shows k'); [|done|done]. intros a Ha Hc. apply (A4 a Ha). lia.
Qed.

(** After the first operand has been pushed. *)
Lemma ready_push k d s :
  1 <= k -> ready k d s -> ready (k - 1) d (push (get RAX s) s).
Proof.
  intros Hk [A1 A2 A3 A4].
  assert (get RSP (push (get RAX s) s) = get RSP s - 8) as Hp by (cbn -[u64]; apply u64_small; unfold word64; cbn in *; lia).
  split; [by apply store_le_ok| |rewrite Hp; lia|].
  - intros a Ha. cbn -[store64 u64]. unfold store64. rewrite load8_store_le.
    pose proof (A4 a Ha) as Hn. rewrite <- (A2 a Ha).
    rewrite u64_small by (unfold word64; cbn in *; lia). change (regs s RSP) with (get RSP s).
    case_test; [|done]. bool_to_prop. exfalso. apply Hn. change (Z.of_nat 8) with 8 in *. lia.
  - rewrite Hp. intros a Ha Hc. apply (A4 a Ha). lia.
Qed.

Lemma push_rsp k d s : 1 <= k -> ready k d s -> get RSP (push (get RAX s) s) = get RSP s - 8.
Proof. intros Hk [A1 A2 A3 A4]. cbn -[u64]. apply u64_small. unfold word64. cbn in *. lia. Qed.

Definition evaluated (e : expr) (v : Z) (cd : code) (s : cpu) : Prop :=
  exists s', run (map snd cd) s = Some s' /\ get RAX s' = v /\ word64 v /\ evaluates (depth e) s s'.

(** More code that changes only registers. *)
Lemma evaluated_then e e' v w cd cd' d s :
  depth e' = depth e -> ready (depth e) d s -> evaluated e v cd s ->
  (forall s1, get RAX s1 = v -> word64 v -> mem_ok (cmem s1) -> shows (cmem s1) d -> get RBP s1 = get RBP s ->
     exists s2, run (map snd cd') s1 = Some s2 /\ computes w s1 s2 /\ word64 w) ->
  evaluated e' w (cd ++ cd') s.
Proof.
  intros Hd Hr (s1 & R1 & V1 & W1 & E1) Hk. pose proof (ready_after _ _ _ _ _ (Z.le_refl _) Hr E1) as Hr1.
  destruct (Hk s1 V1 W1 (rd_ok _ _ _ Hr1) (rd_shows _ _ _ Hr1) (ev_rbp _ _ _ E1)) as (s2 & R2 & C2 & Hw).
  destruct (computes_evaluates _ _ _ (ev_ok _ _ _ E1) C2) as [V2 E2].
  exists s2. rewrite map_app, run_app, R1. cbn [mbind option_bind]. split; [done|]. split; [done|]. split; [done|].
  rewrite Hd. eapply evaluates_trans; [done|]. eapply evaluates_mono; [apply depth_nonneg|done].
Qed.

(** A load through the pointer in rax. *)
Lemma evaluated_load e e' a w t cd d s :
  depth e' = depth e -> ready (depth e) d s -> evaluated e a cd s -> load_value t d a = Some w ->
  evaluated e' w (cd ++ [i_load_ptr (width t)]) s.
Proof.
  intros Hd Hr He Hl%load_value_bytes. eapply (evaluated_then e); [done|done|done|].
  intros s1 V1 W1 M1 S1 B1. rewrite <- V1 in W1.
  destruct (run_load_ptr t s1 M1 W1) as (s2 & R2 & C2).
  rewrite V1, (dm_load_spec _ _ _ _ _ S1 Hl) in C2. exists s2. split; [exact R2|]. split; [done|].
  rewrite <- (dm_load_spec _ _ _ _ _ S1 Hl). apply load_le_word; [done|apply width_bound].
Qed.

Lemma evaluated_index e' x i v n ci d s :
  depth e' = depth i -> ready (depth i) d s -> evaluated i n ci s -> array_var (x.1) x.2 = Some v ->
  evaluated e' (u64 (slot (get RBP s) v + n * type_pointee_size (v_type v))) (ci ++ index_code v) s.
Proof.
  intros Hd Hr Hi Hv. destruct (array_var_spec _ _ _ Hv) as (_ & _ & _ & Hk).
  eapply (evaluated_then i); [done|done|done|]. intros s1 V1 W1 M1 S1 B1. rewrite <- B1.
  destruct (run_index v n s1 Hk V1 W1) as (s2 & R2 & C2). exists s2. split; [done|]. split; [done|apply u64_bound].
Qed.

Lemma evaluated_leaf e v cd s :
  depth e = 0 -> mem_ok (cmem s) -> word64 v -> (exists s', run (map snd cd) s = Some s' /\ computes v s s') ->
  evaluated e v cd s.
Proof.
  intros Hd Hm Hv (s' & R & C). destruct (computes_evaluates _ _ _ Hm C) as [V E].
  exists s'. rewrite Hd. done.
Qed.

(** Two operands and an operator. *)
Lemma evaluated_bin op e1 e2 t1 t2 c1 c2 a b v d s :
  ready (depth (EBin op e1 e2)) d s ->
  evaluated e1 a c1 s ->
  (forall s1, get RBP s1 = get RBP s -> ready (depth e2) d s1 -> evaluated e2 b c2 s1) ->
  bin_value op (ptr_scale t1 t2) a b = Some v ->
  match op with BAdd | BSub => scale_ok (ptr_scale t1 t2) | _ => true end = true ->
  evaluated (EBin op e1 e2) v (c1 ++ [i_push] ++ c2 ++ bin_code op t1 t2) s.
Proof.
  intros Hr (s1 & R1 & V1 & W1 & E1) H2 Hv Hsc. cbn [depth] in *.
  set (k := Z.max (depth e1) (1 + depth e2)) in *. pose proof (depth_nonneg e2).
  assert (ready k d s1) as Hr1 by (eapply ready_after; [|done|exact E1]; lia).
  assert (ready (depth e2) d (push (get RAX s1) s1)) as Hr2.
  { eapply ready_mono; [|apply ready_push; [|exact Hr1]]; lia. }
  pose proof (push_rsp k d s1 ltac:(lia) Hr1) as Hp. set (s2 := push (get RAX s1) s1) in *.
  destruct (H2 s2) as (s3 & R3 & V3 & W3 & E3); [apply (ev_rbp _ _ _ E1)|done|].
  destruct (rd_room _ _ _ Hr1) as [Hlo Hhi].
  assert (load64 (cmem s3) (get RSP s3) = a) as Htop.
  { rewrite (ev_rsp _ _ _ E3). rewrite <- V1. etransitivity; [|apply (load64_store64_eq (cmem s1) (get RSP s2)); by rewrite V1].
    unfold load64. apply load_le_agree. intros x Hx. rewrite (ev_frame _ _ _ E3) by lia.
    unfold s2, push. cbn [cmem set_mem]. change (get RSP (set_mem _ (set RSP ?v _))) with v. done. }
  destruct (run_bin op t1 t2 a b v s3) as (s4 & R4 & V4 & P4 & B4 & M4); [|done|done|].
  { split; [done|done|done|done|rewrite (ev_rsp _ _ _ E3); lia|rewrite (ev_rsp _ _ _ E3); lia]. }
  exists s4. rewrite map_app, run_app, R1. cbn [mbind option_bind app map snd i_push run exec].
  fold s2. rewrite map_app, run_app, R3. cbn [mbind option_bind]. split; [done|]. split; [done|].
  split; [exact (bin_value_word op _ a b v W1 W3 Hv)|]. cbn [depth]. fold k. split.
  - rewrite P4, (ev_rsp _ _ _ E3), Hp, (ev_rsp _ _ _ E1). lia.
  - rewrite B4, (ev_rbp _ _ _ E3). apply (ev_rbp _ _ _ E1).
  - rewrite M4. apply (ev_ok _ _ _ E3).
  - intros x Hx. rewrite M4. pose proof (ev_rsp _ _ _ E1) as Q1. rewrite (ev_frame _ _ _ E3) by lia.
    unfold s2, push. cbn [cmem set_mem]. unfold store64. rewrite load8_store_le.
    change (get RSP s2) with (u64 (get RSP s1 - 8)) in Hp. rewrite Hp, (ev_frame _ _ _ E1) by lia. change (Z.of_nat 8) with 8. case_test; [bool_to_prop; lia|done].
Qed.

(** The code of an expression leaves its value in rax and the rest in place. *)
Lemma comp_correct g d e t cd v s :
  comp g e = Some (t, cd) -> eval g (get RBP s) d e = Some v -> ready (depth e) d s -> evaluated e v cd s.
Proof.
  revert t cd v s. induction e as [n|x|x i IH|x f|x|x i IH|x f|op e IH|op e1 IH1 e2 IH2];
    intros t cd v s Hc Hv Hr; cbn [comp eval] in *; pose proof (rd_ok _ _ _ Hr) as Hm.
  - case_decide as Hw; [|done]. injection Hc as <- <-. injection Hv as <-.
    apply evaluated_leaf; [done|done|done|]. eexists. split; [reflexivity|]. split; [|done]. cbn -[u64]. by apply u64_small.
  - destruct (scalar_var g x) as [w|]; [|done]. injection Hc as <- <-. cbn [mbind option_bind] in Hv.
    apply load_value_bytes in Hv. pose proof (dm_load_spec _ _ _ _ _ (rd_shows _ _ _ Hr) Hv) as Hl. rewrite <- Hl.
    apply evaluated_leaf; [done|done|apply load_le_word; [done|apply width_bound]|].
    by apply (run_load_var (v_type w) (v_offset w) s).
  - destruct (array_var g x) as [w|] eqn:Ew; [|done]. cbn [mbind option_bind] in *.
    destruct (comp g i) as [[ti ci]|]; [|done]. injection Hc as <- <-.
    destruct (eval g (get RBP s) d i) as [n|] eqn:En; [|done]. cbn [mbind option_bind] in Hv.
    rewrite app_assoc. eapply (evaluated_load (EAddrIndex x i)); [done|done| |done].
    apply (evaluated_index (EAddrIndex x i) (g, x) i w n ci d s); [done|done| |done]. by apply (IH ti).
  - destruct (field_of g x f) as [[w fd]|] eqn:Ef; [|done]. injection Hc as <- <-. cbn [mbind option_bind] in Hv.
    pose proof (field_of_spec _ _ _ _ _ Ef) as Hf.
    apply (evaluated_load (EAddrField x f) (EField x f) _ v _ (field_code w fd) d s) with (4 := Hv); [done|done|].
    apply evaluated_leaf; [done|done|apply u64_bound|]. exact (run_field w fd s Hf).
  - destruct (lookup_var g x) as [w|]; [|done]. cbn [mbind option_bind] in *.
    destruct (slot_ok w); [|done]. injection Hc as <- <-. injection Hv as <-.
    apply evaluated_leaf; [done|done|apply u64_bound|]. apply run_lea.
  - destruct (array_var g x) as [w|] eqn:Ew; [|done]. cbn [mbind option_bind] in *.
    destruct (comp g i) as [[ti ci]|]; [|done]. injection Hc as <- <-.
    destruct (eval g (get RBP s) d i) as [n|] eqn:En; [|done]. injection Hv as <-.
    apply (evaluated_index (EAddrIndex x i) (g, x) i w n ci d s); [done|done| |done]. by apply (IH ti).
  - destruct (field_of g x f) as [[w fd]|] eqn:Ef; [|done]. injection Hc as <- <-. injection Hv as <-.
    apply evaluated_leaf; [done|done|apply u64_bound|]. exact (run_field w fd s (field_of_spec _ _ _ _ _ Ef)).
  - unfold type_of in Hv. destruct (comp g e) as [[te ce]|]; [|done]. injection Hc as <- <-. cbn in Hv.
    destruct (eval g (get RBP s) d e) as [w|] eqn:Ew; [|done]. cbn [mbind option_bind] in Hv.
    eapply (evaluated_then e); [done|done|by apply (IH te)|].
    intros s1 V1 W1 M1 S1 B1. by apply (run_un op te d s1 w v).
  - unfold type_of in Hv. destruct (comp g e1) as [[t1 c1]|]; [|done]. destruct (comp g e2) as [[t2 c2]|]; [|done].
    cbn in Hv, Hc. destruct (eval g (get RBP s) d e1) as [a|] eqn:Ea; [|done]. destruct (eval g (get RBP s) d e2) as [b|] eqn:Eb; [|done].
    cbn in Hv. destruct (match op with BAdd | BSub => _ | _ => _ end) eqn:Esc in Hc; [|done]. injection Hc as <- <-.
    apply (evaluated_bin op e1 e2 t1 t2 c1 c2 a b v d s); [done| | |done|done].
    + apply (IH1 t1); [done|done|]. eapply ready_mono; [|done]. cbn [depth]. lia.
    + intros s1 B1 R1. apply (IH2 t2); [done|by rewrite B1|done].
Qed.

(** ** The bytes are the encodings of the instructions *)

(** An instruction of straight-line code. *)
Record good (bi : list Z * instr) : Prop := {
  gd_encodes : encodes bi.1 bi.2;
  gd_plain : plain bi.2 = true;
  gd_nonempty : bi.1 <> [];
  gd_bytes : Forall byte_ok bi.1;
}.

Ltac good_const := split; [intros ?; reflexivity|reflexivity|discriminate|repeat constructor; lia].

Ltac good_imm :=
  split;
  [intros ?; cbn [fst snd app]; cbn -[imm64 imm32 le_bytes]; rewrite ?imm32_le, ?imm64_le by assumption; reflexivity
  |reflexivity|discriminate
  |cbn [fst snd app]; repeat (apply Forall_cons; split; [unfold byte_ok; lia|]); apply le_bytes_ok].

Lemma good_mov_rax v : word64 v -> good (i_mov_rax v).
Proof. intros Hv. good_imm. Qed.
Lemma good_load_var n off : disp_ok (- off) -> good (i_load_var n off).
Proof. intros Hd. unfold disp_ok in Hd. destruct n as [|[|[|[|[|n]]]]]; good_imm. Qed.
Lemma good_lea_rax off : disp_ok (- off) -> good (i_lea_rax off).
Proof. intros Hd. unfold disp_ok in Hd. good_imm. Qed.
Lemma good_lea_rcx off : disp_ok (- off) -> good (i_lea_rcx off).
Proof. intros Hd. unfold disp_ok in Hd. good_imm. Qed.
Lemma good_add_imm k : disp_ok k -> good (i_add_imm k).
Proof. intros Hd. unfold disp_ok in Hd. good_imm. Qed.
Lemma good_load_ptr n : good (i_load_ptr n).
Proof. destruct n as [|[|[|[|[|n]]]]]; good_const. Qed.
Lemma good_imul_imm k : scale_ok k = true -> good (i_imul_imm k).
Proof.
  intros Hk. unfold scale_ok in Hk. bool_to_prop. split; [|reflexivity|discriminate|repeat constructor; lia].
  intros rest. transitivity (Some (ImulImm RAX (OReg RAX) (s8 k), 4%nat)); [reflexivity|]. do 3 f_equal.
  unfold s8. rewrite u8_small by (unfold byte_ok; lia). cmp_cases.
Qed.

Lemma good_scale k : scale_ok k = true -> Forall good (scale_code k).
Proof. intros Hk. unfold scale_code. case_test; [done|]. constructor; [by apply good_imul_imm|done]. Qed.

Lemma good_bin op t1 t2 :
  match op with BAdd | BSub => scale_ok (ptr_scale t1 t2) | _ => true end = true -> Forall good (bin_code op t1 t2).
Proof.
  intros Hs. destruct op; cbn [bin_code]; unfold div_code, cmp_code, setcc_code, shift_code; cbn [app].
  4-5: apply Forall_app; split; [by apply good_scale|].
  all: repeat (apply Forall_cons; split; [good_const|]); apply Forall_nil_2.
Qed.

Lemma good_un op t : Forall good (un_code op t).
Proof.
  destruct op; cbn [un_code]; unfold setcc_code; repeat (apply Forall_cons; split; [first [apply good_load_ptr|good_const]|]); apply Forall_nil_2.
Qed.

Lemma slot_disp v : slot_ok v = true -> disp_ok (- v_offset v).
Proof. unfold slot_ok, disp_ok. intros H. bool_to_prop. lia. Qed.

Lemma good_index v :
  slot_ok v = true -> scale_ok (type_pointee_size (v_type v)) = true -> Forall good (index_code v).
Proof.
  intros Hs Hk. apply Forall_app. split; [by apply good_scale|].
  apply Forall_cons. split; [by apply good_lea_rcx, slot_disp|]. apply Forall_cons. split; [good_const|done].
Qed.

Lemma scalar_var_spec g x v : scalar_var g x = Some v -> lookup_var g x = Some v /\ slot_ok v = true /\
  kind_eqb (t_kind (v_type v)) TY_ARRAY = false.
Proof.
  unfold scalar_var. destruct (lookup_var g x) as [w|]; [|done]. cbn [mbind option_bind].
  destruct (slot_ok w && _) eqn:Ew; [|done]. intros [= ->]. bool_to_prop. done.
Qed.

Lemma field_of_var g x f v fd : field_of g x f = Some (v, fd) ->
  lookup_var g x = Some v /\ slot_ok v = true /\ kind_eqb (t_kind (v_type v)) TY_STRUCT = true /\
  exists st, sc_structs g !! Z.to_nat (t_struc (v_type v)) = Some st /\ find_field st f = Some fd.
Proof.
  unfold field_of. destruct (lookup_var g x) as [w|]; [|done]. cbn [mbind option_bind].
  destruct (slot_ok w && _) eqn:Ew; [|done]. destruct (_ !! _) as [st|] eqn:Es; [|done]. cbn [mbind option_bind].
  destruct (find_field st f) as [fd'|] eqn:Ef; [|done]. cbn [mbind option_bind].
  destruct ((0 <=? _) && _); [|done]. intros Hq. injection Hq as <- <-. bool_to_prop. split; [done|]. split; [done|]. split; [done|]. by exists st.
Qed.

Lemma good_field v fd : slot_ok v = true -> 0 <= fd_offset fd < 2147483648 -> Forall good (field_code v fd).
Proof.
  intros Hs Hf. unfold field_code. constructor; [by apply good_lea_rax, slot_disp|]. case_test; [done|].
  constructor; [apply good_add_imm; unfold disp_ok; lia|done].
Qed.

Lemma comp_good g e t cd : comp g e = Some (t, cd) -> Forall good cd.
Proof.
  revert t cd. induction e as [n|x|x i IH|x f|x|x i IH|x f|op e IH|op e1 IH1 e2 IH2]; intros t cd; cbn [comp].
  - case_decide; [|done]. intros [= <- <-]. constructor; [by apply good_mov_rax|done].
  - destruct (scalar_var g x) as [w|] eqn:Ew; [|done]. intros [= <- <-].
    apply scalar_var_spec in Ew as (_ & Hs & _). constructor; [by apply good_load_var, slot_disp|done].
  - destruct (array_var g x) as [w|] eqn:Ew; [|done]. destruct (comp g i) as [[ti ci]|]; [|done]. intros [= <- <-].
    apply array_var_spec in Ew as (_ & Hs & _ & Hk). apply Forall_app. split; [by apply (IH ti)|].
    apply Forall_app. split; [by apply good_index|]. constructor; [apply good_load_ptr|done].
  - destruct (field_of g x f) as [[w fd]|] eqn:Ef; [|done]. intros [= <- <-].
    destruct (field_of_var _ _ _ _ _ Ef) as (_ & Hs & _). apply (Forall_app_2 good (field_code w fd) [_]).
    + exact (good_field w fd Hs (field_of_spec _ _ _ _ _ Ef)).
    + constructor; [apply good_load_ptr|done].
  - destruct (lookup_var g x) as [w|]; [|done]. cbn [mbind option_bind]. destruct (slot_ok w) eqn:Hs; [|done].
    intros [= <- <-]. constructor; [by apply good_lea_rax, slot_disp|done].
  - destruct (array_var g x) as [w|] eqn:Ew; [|done]. destruct (comp g i) as [[ti ci]|]; [|done]. intros [= <- <-].
    apply array_var_spec in Ew as (_ & Hs & _ & Hk). apply Forall_app. split; [by apply (IH ti)|]. by apply good_index.
  - destruct (field_of g x f) as [[w fd]|] eqn:Ef; [|done]. intros [= <- <-].
    destruct (field_of_var _ _ _ _ _ Ef) as (_ & Hs & _). exact (good_field w fd Hs (field_of_spec _ _ _ _ _ Ef)).
  - destruct (comp g e) as [[te ce]|]; [|done]. intros [= <- <-]. apply Forall_app. split; [by apply (IH te)|apply good_un].
  - destruct (comp g e1) as [[t1 c1]|]; [|done]. destruct (comp g e2) as [[t2 c2]|]; [|done]. cbn [mbind option_bind].
    destruct (match op with BAdd | BSub => _ | _ => _ end) eqn:Es; [|done]. intros [= <- <-].
    apply Forall_app. split; [by apply (IH1 t1)|]. apply Forall_cons. split; [good_const|].
    apply Forall_app. split; [by apply (IH2 t2)|by apply good_bin].
Qed.
