(* ===== verification/OrecParse.v ===== *)
(** OreLang expressions are parsed correctly.

    [parses n e s]: the characters [s] are an expression with the abstract syntax
    [e], at precedence level [n] (0 primary, 1 unary, 2 to 6 the left-associative
    binary operators, 7 comparisons).  Tokens may be separated by blanks and
    comments.  The theorem of this file: the recursive-descent compiler accepts
    every such text and emits exactly [comp e]. *)
From stdpp Require Import base numbers list.
From Stdlib Require Import ZArith Lia.
From Stdlib Require Import(notations) Ascii String.
From S2P Require Import Prelude Memory Cstring OrecLex OrecGen X86 OrecExpr.

(** ** Emission into a buffer with room *)

Definition grow (bs : list Z) (c : cstate) : cstate := with_text (text c ++ bs) c.
Definition fits (n : nat) (c : cstate) : Prop := text_len c + Z.of_nat n <= TEXT_MAX.

Lemma grow_nil c : grow [] c = c.
Proof. destruct c. unfold grow, with_text. cbn. by rewrite app_nil_r. Qed.

Lemma grow_grow a b c : grow b (grow a c) = grow (a ++ b) c.
Proof. unfold grow, with_text. cbn. by rewrite app_assoc. Qed.

Lemma text_len_grow bs c : text_len (grow bs c) = text_len c + Z.of_nat (length bs).
Proof. unfold text_len, grow, with_text. cbn [text]. rewrite length_app. lia. Qed.

Lemma emit8_grow b c : byte_ok b -> fits 1 c -> emit8 b c = grow [b] c.
Proof. unfold fits, emit8. intros Hb Hf. rewrite (proj2 (Z.ltb_lt _ _)) by lia. by rewrite u8_small. Qed.

Lemma emit_grow bs c : Forall byte_ok bs -> fits (length bs) c -> emit bs c = grow bs c.
Proof.
  unfold emit. revert c. induction bs as [|b bs IH]; intros c Hb Hf; cbn [fold_left]; [by rewrite grow_nil|].
  apply Forall_cons in Hb as [Hb1 Hb2]. cbn [length] in Hf.
  rewrite emit8_grow by (done || (unfold fits in *; lia)).
  rewrite IH, grow_grow by (done || (unfold fits in *; rewrite text_len_grow; cbn [length]; lia)). done.
Qed.

Lemma emit32_grow v c : fits 4 c -> emit32 v c = grow (le_bytes 4 (u32 v)) c.
Proof. intros Hf. apply emit_grow; [apply le_bytes_ok|by rewrite le_bytes_length]. Qed.

Lemma emit64_grow v c : fits 8 c -> emit64 v c = grow (le_bytes 8 (u64 v)) c.
Proof. intros Hf. apply emit_grow; [apply le_bytes_ok|by rewrite le_bytes_length]. Qed.

Lemma fits_mono n m c : (n <= m)%nat -> fits m c -> fits n c.
Proof. unfold fits. lia. Qed.

Lemma fits_grow n bs c : fits (length bs + n) c -> fits n (grow bs c).
Proof. unfold fits. rewrite text_len_grow. lia. Qed.

(** Turn emitters into [grow], with the room in the context. *)
Ltac emit_room :=
  match goal with H : fits _ _ |- fits _ _ =>
    clear -H; unfold fits in *; rewrite ?text_len_grow;
    cbn -[Z.of_nat le_bytes u32 u64 Z.add Z.le TEXT_MAX text_len] in *; rewrite ?length_app, ?le_bytes_length in *;
    cbn [length app Nat.add] in *; lia
  end.
Ltac emit_bytes := first [unfold byte_ok; lia | repeat constructor; unfold byte_ok in *; lia].
Ltac emit_at f lem :=
  match goal with
  | |- context [f ?v (grow ?a ?c)] => rewrite (lem v (grow a c)) by (first [emit_room | emit_bytes])
  | |- context [f ?v ?c] => is_var c; rewrite (lem v c) by (first [emit_room | emit_bytes])
  end.
Ltac emit_simpl :=
  repeat first [ rewrite grow_grow | emit_at emit8 emit8_grow | emit_at emit32 emit32_grow
               | emit_at emit64 emit64_grow | emit_at emit emit_grow ].

Lemma scale_grow k c : scale_ok k = true -> fits (length (code_bytes (scale_code k))) c ->
  emit_scale k c = grow (code_bytes (scale_code k)) c.
Proof.
  intros Hk Hf. unfold scale_ok in Hk. bool_to_prop. unfold emit_scale, scale_code in *.
  destruct (Z.eqb_spec k 8) as [->|H8].
  - change (8 =? 1) with false in *. unfold emit_scale_rax_8. by emit_simpl.
  - destruct (Z.eqb_spec k 1) as [->|H1]; cbn [negb]; [by rewrite grow_nil|]. by emit_simpl.
Qed.

(** Decide comparisons of character constants. *)
Ltac ch_simpl :=
  repeat match goal with
  | |- context [ch ?a =? ch ?b] => let v := eval vm_compute in (ch a =? ch b) in change (ch a =? ch b) with v
  | |- context [0 =? ch ?b] => change (0 =? ch b) with false
  end; cbn [andb orb negb]; cbv iota.

(** What the compiler emits after the second operand of an operator. *)
Definition emit_bin (op : binop) (t1 t2 : Ty) (c : cstate) : cstate :=
  match op with
  | BMul => emit_mul_op (ch "*") c
  | BDiv => emit_mul_op (ch "/") c
  | BMod => emit_mul_op (ch "%") c
  | BAdd => emit_add_op (ch "+") t1 t2 c
  | BSub => emit_add_op (ch "-") t1 t2 c
  | BShl => emit_shift_op false c
  | BShr => emit_shift_op true c
  | BAnd => emit [0x48; 0x21; 0xC8] (emit_pop_rcx c)
  | BOr => emit [0x48; 0x09; 0xC8] (emit_pop_rcx c)
  | BEq => emit_cmp_set (ch "=") (ch "=") c
  | BNe => emit_cmp_set (ch "!") (ch "=") c
  | BLe => emit_cmp_set (ch "<") (ch "=") c
  | BGe => emit_cmp_set (ch ">") (ch "=") c
  | BLt => emit_cmp_set (ch "<") 0 c
  | BGt => emit_cmp_set (ch ">") 0 c
  end.

Lemma add_op_scale op t1 t2 c :
  scale_ok (ptr_scale t1 t2) = true -> fits (length (code_bytes (scale_code (ptr_scale t1 t2)))) c ->
  emit_add_op op t1 t2 c =
  (let c := emit_pop_rcx (grow (code_bytes (scale_code (ptr_scale t1 t2))) c) in
   if op =? ch "+" then emit [0x48; 0x01; 0xC8] c else emit [0x48; 0x29; 0xC1; 0x48; 0x89; 0xC8] c).
Proof.
  intros Hs Hf. unfold emit_add_op, ptr_scale in *. destruct (type_is_ptr t1 && _); [by rewrite scale_grow|].
  change (code_bytes (scale_code 1)) with (@nil Z). by rewrite grow_nil.
Qed.

Lemma emit_bin_grow op t1 t2 c :
  match op with BAdd | BSub => scale_ok (ptr_scale t1 t2) | _ => true end = true ->
  fits (length (code_bytes (bin_code op t1 t2))) c ->
  emit_bin op t1 t2 c = grow (code_bytes (bin_code op t1 t2)) c.
Proof.
  intros Hs Hf. destruct op; cbn [emit_bin bin_code] in *;
    try (unfold emit_mul_op, emit_shift_op, emit_cmp_set, emit_pop_rcx; cbv zeta; ch_simpl; emit_simpl; reflexivity).
  all: rewrite code_bytes_app, length_app in Hf; rewrite add_op_scale by (done || (eapply fits_mono; [|exact Hf]; lia)).
  all: apply fits_grow in Hf; rewrite code_bytes_app, <- grow_grow; set (c' := grow _ c) in *; clearbody c';
    unfold emit_pop_rcx; cbv zeta.
  all: ch_simpl; by emit_simpl.
Qed.

Lemma load_ptr_grow t c : fits (length (code_bytes [i_load_ptr (width t)])) c ->
  emit_load_ptr_t t c = grow (code_bytes [i_load_ptr (width t)]) c.
Proof.
  unfold emit_load_ptr_t, emit_load_ptr_rax, width. intros Hf. repeat case_test; by emit_simpl.
Qed.

Lemma load_var_grow t off c : fits (length (code_bytes [i_load_var (width t) off])) c ->
  emit_load_var_t off t c = grow (code_bytes [i_load_var (width t) off]) c.
Proof.
  unfold emit_load_var_t, emit_load_var, width. intros Hf. repeat case_test; emit_simpl;
    unfold i_load_var, code_bytes; cbn [map fst concat]; by rewrite app_nil_r.
Qed.

Lemma addr_var_grow off c : fits 7 c -> emit_addr_var off c = grow (code_bytes [i_lea_rax off]) c.
Proof. unfold emit_addr_var. intros Hf. emit_simpl. unfold code_bytes, i_lea_rax. cbn [map fst concat]. by rewrite app_nil_r. Qed.

Lemma index_grow v c :
  scale_ok (type_pointee_size (v_type v)) = true -> fits (length (code_bytes (index_code v))) c ->
  emit_add_rax_rcx (emit_lea_rcx_var (v_offset v) (emit_scale (type_pointee_size (v_type v)) c)) =
  grow (code_bytes (index_code v)) c.
Proof.
  intros Hk Hf. unfold index_code in *. rewrite code_bytes_app, length_app in Hf.
  rewrite scale_grow by (done || (eapply fits_mono; [|exact Hf]; lia)).
  apply fits_grow in Hf. rewrite code_bytes_app, <- grow_grow. set (c' := grow _ c) in *. clearbody c'.
  unfold emit_add_rax_rcx, emit_lea_rcx_var. emit_simpl. f_equal.
Qed.

Lemma field_grow v fd c :
  fits (length (code_bytes (field_code v fd))) c ->
  (let c := emit_addr_var (v_offset v) c in
   if fd_offset fd =? 0 then c else emit32 (fd_offset fd) (emit [0x48; 0x05] c)) = grow (code_bytes (field_code v fd)) c.
Proof.
  intros Hf. cbv zeta. unfold field_code in *.
  destruct (fd_offset fd =? 0).
  - apply addr_var_grow. exact Hf.
  - change (i_lea_rax (v_offset v) :: [i_add_imm (fd_offset fd)]) with ([i_lea_rax (v_offset v)] ++ [i_add_imm (fd_offset fd)]) in *.
    rewrite code_bytes_app, length_app in *. rewrite addr_var_grow by (eapply fits_mono; [|exact Hf]; cbn; lia).
    apply fits_grow in Hf. rewrite <- grow_grow. set (c' := grow (code_bytes [i_lea_rax _]) c) in *. clearbody c'.
    emit_simpl. unfold code_bytes, i_add_imm. cbn [map fst concat]. by rewrite app_nil_r.
Qed.

(** What the compiler emits after the operand of a unary operator. *)
Definition emit_un (op : unop) (t : Ty) (c : cstate) : cstate :=
  match op with
  | ULNot => emit_not c
  | UNot => emit [0x48; 0xF7; 0xD0] c
  | UNeg => emit [0x48; 0xF7; 0xD8] c
  | UDeref => emit_load_ptr_t (deref_type t) c
  end.

Lemma emit_un_grow op t c :
  fits (length (code_bytes (un_code op t))) c -> emit_un op t c = grow (code_bytes (un_code op t)) c.
Proof.
  intros Hf. destruct op; cbn [emit_un un_code] in *; [|by emit_simpl|by emit_simpl|by apply load_ptr_grow].
  unfold emit_not. by emit_simpl.
Qed.

(** ** Tokens *)

(** Blanks and comments. *)
Inductive blank : list Z -> Prop :=
| blank_nil : blank []
| blank_space c w : is_space c = true -> blank w -> blank (c :: w)
| blank_comment line w :
    Forall (fun c => c <> NL) line -> blank w -> blank (ch "/" :: ch "/" :: line ++ NL :: w).

Lemma skip_comment line r : Forall (fun c => c <> NL) line -> skip_from true (line ++ NL :: r) = skip_from false r.
Proof.
  induction 1 as [|c line Hc _ IH]; cbn [app skip_from].
  - by rewrite Z.eqb_refl.
  - apply Z.eqb_neq in Hc. by rewrite Hc.
Qed.

Lemma skip_blank w r : blank w -> skip_ws (w ++ r) = skip_ws r.
Proof.
  unfold skip_ws. induction 1 as [|c w Hc _ IH|line w Hl _ IH]; cbn [app skip_from]; [done|by rewrite Hc|].
  change (is_space (ch "/")) with false. change (peek (ch "/" :: _)) with (ch "/"). ch_simpl.
  change (negb (ch "/" =? NL)) with true. cbv iota. rewrite <- app_assoc. cbn [app].
  by rewrite skip_comment.
Qed.

(** The first character of a token. *)
Definition token_start (s : list Z) : Prop :=
  is_space (peek s) = false /\ ((peek s =? ch "/") && (char_at s 1 =? ch "/")) = false.

Lemma skip_token s : token_start s -> skip_ws s = s.
Proof.
  intros [H1 H2]. destruct s as [|c r]; [done|]. unfold skip_ws. cbn [skip_from]. cbn in H1. rewrite H1.
  change (char_at (c :: r) 1) with (peek r) in H2. cbn [peek char_at nth] in H2. by rewrite H2.
Qed.

(** An identifier that is kept whole. *)
Definition ident (x : list Z) : Prop :=
  is_alpha (peek x) = true /\ Forall (fun c => is_alnum c = true) x /\ (length x <= 31)%nat.

Lemma alnum_run_app x r : Forall (fun c => is_alnum c = true) x -> is_alnum (peek r) = false -> alnum_run (x ++ r) = x.
Proof.
  intros Hx Hr. induction Hx as [|c x Hc _ IH]; cbn [app alnum_run].
  - destruct r as [|c r]; [done|]. cbn [alnum_run]. cbn in Hr. by rewrite Hr.
  - by rewrite Hc, IH.
Qed.

Lemma alpha_token s : is_alnum (peek s) = true -> token_start s.
Proof.
  unfold is_alnum, is_alpha, is_digit. intros Hs. assert (48 <= peek s) as Hb.
  { apply orb_true_iff in Hs. change (ch "a") with 97 in *. change (ch "A") with 65 in *. change (ch "_") with 95 in *.
    change (ch "0") with 48 in *. destruct Hs as [Hs|Hs]; [apply orb_true_iff in Hs as [Hs|Hs]; [apply orb_true_iff in Hs as [Hs|Hs]|]|];
    bool_to_prop; lia. }
  unfold token_start, is_space. change (ch " ") with 32. change TAB with 9. change NL with 10. change CR with 13.
  change (ch "/") with 47. split; cmp_cases.
Qed.

Lemma ident_nonempty x : ident x -> exists c r, x = c :: r /\ is_alpha c = true.
Proof. intros (Ha & _). destruct x as [|c r]; [done|]. by exists c, r. Qed.

Lemma parse_ident_spec w x r :
  blank w -> ident x -> is_alnum (peek r) = false -> parse_ident (w ++ x ++ r) = Some (x, r).
Proof.
  intros Hw Hx Hr. unfold parse_ident. rewrite skip_blank by done.
  destruct (ident_nonempty x Hx) as (c & x' & -> & Hc). destruct Hx as (_ & Hall & Hlen).
  rewrite skip_token by (apply alpha_token; cbn; unfold is_alnum; by rewrite Hc).
  change (peek ((c :: x') ++ r)) with c. rewrite Hc. cbn [negb].
  rewrite alnum_run_app by done. rewrite (take_ge (c :: x')), drop_app_length by done. done.
Qed.

Lemma consume_spec w x r : blank w -> token_start (x :: r) -> consume (w ++ x :: r) x = Some r.
Proof. intros Hw Hx. unfold consume. rewrite skip_blank, skip_token by done. cbn [peek char_at nth]. by rewrite Z.eqb_refl. Qed.

(** Numbers. *)
Definition digits_value (ds : list Z) : Z := fold_left (fun v c => v * 10 + (c - ch "0")) ds 0.

Lemma digits_value_from v ds : 0 <= v -> Forall (fun c => is_digit c = true) ds ->
  v <= fold_left (fun v c => v * 10 + (c - ch "0")) ds v.
Proof.
  intros Hv Hd. revert v Hv. induction Hd as [|c ds Hc _ IH]; intros v Hv; cbn [fold_left]; [lia|].
  unfold is_digit in Hc. change (ch "0") with 48 in *. change (ch "9") with 57 in *. bool_to_prop.
  specialize (IH (v * 10 + (c - 48)) ltac:(lia)). lia.
Qed.

Lemma parse_digits v ds r :
  0 <= v -> Forall (fun c => is_digit c = true) ds -> is_digit (peek r) = false ->
  fold_left (fun v c => v * 10 + (c - ch "0")) ds v < 18446744073709551616 ->
  parse_uint_from v (ds ++ r) = (fold_left (fun v c => v * 10 + (c - ch "0")) ds v, r).
Proof.
  intros Hv Hd Hr. revert v Hv. induction Hd as [|c ds Hc Hds IH]; intros v Hv Hb; cbn [app fold_left parse_uint_from] in *.
  - destruct r as [|c r]; [done|]. cbn [parse_uint_from]. cbn in Hr. by rewrite Hr.
  - rewrite Hc. assert (0 <= c - ch "0" <= 9) as Hc'.
    { unfold is_digit in Hc. change (ch "9") with 57 in *. change (ch "0") with 48 in *. bool_to_prop. lia. }
    pose proof (digits_value_from (v * 10 + (c - ch "0")) ds ltac:(lia) Hds).
    rewrite (u64_small (v * 10)), u64_small by (unfold word64; lia). apply IH; [lia|done].
Qed.

(** ** Grammar *)

Definition op_chars (op : binop) : list Z :=
  match op with
  | BMul => [ch "*"] | BDiv => [ch "/"] | BMod => [ch "%"] | BAdd => [ch "+"] | BSub => [ch "-"]
  | BShl => [ch "<"; ch "<"] | BShr => [ch ">"; ch ">"] | BAnd => [ch "&"] | BOr => [ch "|"]
  | BEq => [ch "="; ch "="] | BNe => [ch "!"; ch "="] | BLe => [ch "<"; ch "="] | BGe => [ch ">"; ch "="]
  | BLt => [ch "<"] | BGt => [ch ">"]
  end.

Definition op_level (op : binop) : nat :=
  match op with
  | BMul | BDiv | BMod => 2
  | BAdd | BSub => 3
  | BShl | BShr => 4
  | BAnd => 5
  | BOr => 6
  | _ => 7
  end.

Definition un_char (op : unop) : Z :=
  match op with ULNot => ch "!" | UNot => ch "~" | UNeg => ch "-" | UDeref => ch "*" end.

(** Names that are operators. *)
Definition var_name (x : list Z) : Prop :=
  ident x /\ name_is x "sizeof" = false /\ name_is x "alignof" = false /\ name_is x "offsetof" = false.

(** [&] before an address and [/] before a comment would be read as one
    token. *)
Definition op_sep (op : binop) (s : list Z) : Prop :=
  match op with BAnd => peek s <> ch "&" | BDiv => peek s <> ch "/" | _ => True end.

Inductive parses : nat -> expr -> list Z -> Prop :=
| p_int w ds : blank w -> ds <> [] -> Forall (fun c => is_digit c = true) ds ->
    parses 0 (EInt (digits_value ds)) (w ++ ds)
| p_var w x : blank w -> var_name x -> parses 0 (EVar x) (w ++ x)
| p_index w x w1 e s w2 : blank w -> var_name x -> blank w1 -> parses 7 e s -> blank w2 ->
    parses 0 (EIndex x e) (w ++ x ++ w1 ++ ch "[" :: s ++ w2 ++ [ch "]"])
| p_field w x w1 w2 f : blank w -> var_name x -> blank w1 -> blank w2 -> ident f ->
    parses 0 (EField x f) (w ++ x ++ w1 ++ ch "." :: w2 ++ f)
| p_paren w e s w2 : blank w -> parses 7 e s -> blank w2 -> parses 0 e (w ++ ch "(" :: s ++ w2 ++ [ch ")"])
| p_addr w w1 x : blank w -> blank w1 -> ident x -> parses 1 (EAddr x) (w ++ ch "&" :: w1 ++ x)
| p_addr_index w w1 x w2 e s w3 : blank w -> blank w1 -> ident x -> blank w2 -> parses 7 e s -> blank w3 ->
    parses 1 (EAddrIndex x e) (w ++ ch "&" :: w1 ++ x ++ w2 ++ ch "[" :: s ++ w3 ++ [ch "]"])
| p_addr_field w w1 x w2 w3 f : blank w -> blank w1 -> ident x -> blank w2 -> blank w3 -> ident f ->
    parses 1 (EAddrField x f) (w ++ ch "&" :: w1 ++ x ++ w2 ++ ch "." :: w3 ++ f)
| p_un w op e s : blank w -> parses 1 e s -> parses 1 (EUn op e) (w ++ un_char op :: s)
| p_bin n op e1 s1 w e2 s2 : op_level op = S n -> (n < 6)%nat -> parses (S n) e1 s1 -> blank w -> parses n e2 s2 ->
    op_sep op s2 -> parses (S n) (EBin op e1 e2) (s1 ++ w ++ op_chars op ++ s2)
| p_cmp op e1 s1 w e2 s2 : op_level op = 7%nat -> parses 6 e1 s1 -> blank w -> parses 6 e2 s2 ->
    parses 7 (EBin op e1 e2) (s1 ++ w ++ op_chars op ++ s2)
| p_lift n e s : (n < 7)%nat -> parses n e s -> parses (S n) e s.

(** ** The parser, by level *)

Definition level_parse (n fuel : nat) (p : list Z) (c : cstate) : parsed :=
  match n with
  | 0 => parse_primary_t fuel p c
  | 1 => parse_unary_t fuel p c
  | 2 => parse_mul_t fuel p c
  | 3 => parse_add_t fuel p c
  | 4 => parse_shift_t fuel p c
  | 5 => parse_bitand_t fuel p c
  | 6 => parse_bitor_t fuel p c
  | _ => parse_expr_t fuel p c
  end%nat.

Definition level_loop (n fuel : nat) (t : Ty) (p : list Z) (c : cstate) : parsed :=
  match n with
  | 2 => mul_loop fuel t p c
  | 3 => add_loop fuel t p c
  | 4 => shift_loop fuel t p c
  | 5 => bitand_loop fuel t p c
  | _ => bitor_loop fuel t p c
  end%nat.

(** The operator of a level at the head of a text without leading blanks. *)
Definition next_op (n : nat) (s : list Z) : option (binop * list Z) :=
  match n with
  | 2%nat => if peek s =? ch "*" then Some (BMul, drop 1 s) else if peek s =? ch "/" then Some (BDiv, drop 1 s)
         else if peek s =? ch "%" then Some (BMod, drop 1 s) else None
  | 3%nat => if peek s =? ch "+" then Some (BAdd, drop 1 s) else if peek s =? ch "-" then Some (BSub, drop 1 s) else None
  | 4%nat => match shift_op s with
         | Some sar => Some (if sar then BShr else BShl, drop 2 s)
         | None => None
         end
  | 5%nat => if negb (peek s =? ch "&") || (char_at s 1 =? ch "&") then None else Some (BAnd, drop 1 s)
  | 6%nat => if peek s =? ch "|" then Some (BOr, drop 1 s) else None
  | _ => match comparison s with
         | Some (a, b, s) =>
             Some (if b =? ch "=" then
                     if a =? ch "=" then BEq else if a =? ch "!" then BNe else if a =? ch "<" then BLe else BGe
                   else if a =? ch "<" then BLt else BGt, s)
         | None => None
         end
  end.

Lemma level_parse_eq n fuel p c : (1 <= n < 6)%nat ->
  level_parse (S n) (S fuel) p c = let* (t, p, c) := level_parse n fuel p c in level_loop (S n) fuel t p c.
Proof. intros Hn. destruct n as [|[|[|[|[|[|n]]]]]]; first [lia|reflexivity]. Qed.

Ltac op_case s c :=
  destruct (Z.eqb_spec (peek s) c) as [->|]; ch_simpl; ch_simpl; [cbn [emit_bin bin_type]; reflexivity|cbn [emit_bin bin_type]].

Lemma level_loop_eq n fuel t p c : (1 <= n < 6)%nat ->
  level_loop (S n) (S fuel) t p c =
  match next_op (S n) (skip_ws p) with
  | None => Done (t, p, c)
  | Some (op, s) =>
      let* (rhs, s, c) := level_parse n fuel s (emit_push_rax c) in
      level_loop (S n) fuel (bin_type op t) s (emit_bin op t rhs c)
  end.
Proof.
  intros Hn. destruct n as [|[|[|[|[|[|n]]]]]]; try lia; cbn [level_loop level_parse next_op].
  - cbn [mul_loop]. set (s := skip_ws p). op_case s (ch "*"). op_case s (ch "/"). op_case s (ch "%"). reflexivity.
  - cbn [add_loop]. set (s := skip_ws p). op_case s (ch "+"). op_case s (ch "-"). reflexivity.
  - cbn [shift_loop]. destruct (shift_op (skip_ws p)) as [[]|]; reflexivity.
  - cbn [bitand_loop]. destruct (negb _ || _); reflexivity.
  - cbn [bitor_loop]. destruct (peek _ =? _); reflexivity.
Qed.

Lemma level_expr_eq fuel p c :
  level_parse 7 (S fuel) p c =
  let* (t, p, c) := level_parse 6 fuel p c in
  match next_op 7 (skip_ws p) with
  | None => Done (t, skip_ws p, c)
  | Some (op, s) =>
      let* (rhs, s, c) := level_parse 6 fuel s (emit_push_rax c) in Done (bin_type op t, s, emit_bin op t rhs c)
  end.
Proof.
  cbn [level_parse parse_expr_t next_op]. destruct (parse_bitor_t fuel p c) as [[[t q] c1]| | |]; cbn [res_bind]; try done.
  unfold comparison. set (s := skip_ws q). destruct (char_at s 1 =? ch "=") eqn:E1; cbn [andb].
  - op_case s (ch "="). op_case s (ch "!"). op_case s (ch "<"). op_case s (ch ">"). reflexivity.
  - op_case s (ch "<"). op_case s (ch ">"). reflexivity.
Qed.

(** ** What may follow an expression *)

(** The text does not continue a name or a number, and is no call, index or
    field. *)
Definition lex_ok (rest : list Z) : Prop :=
  is_alnum (peek rest) = false /\
  peek (skip_ws rest) <> ch "(" /\ peek (skip_ws rest) <> ch "[" /\ peek (skip_ws rest) <> ch ".".

(** Nor an operator of a level up to [n]. *)
Definition follow (n : nat) (rest : list Z) : Prop :=
  lex_ok rest /\ forall m, (2 <= m <= n)%nat -> next_op m (skip_ws rest) = None.

Lemma follow_mono n m rest : (m <= n)%nat -> follow n rest -> follow m rest.
Proof. intros Hm [H1 H2]. split; [done|]. intros k Hk. apply H2. lia. Qed.

(** Characters that can start the text of an expression. *)
Definition starter (c : Z) : bool :=
  is_space c || is_alnum c || (c =? ch "/") || (c =? ch "(") || (c =? ch "!") || (c =? ch "~") || (c =? ch "-") ||
  (c =? ch "&") || (c =? ch "*").

Lemma starter_app s r : starter (peek s) = true -> peek (s ++ r) = peek s.
Proof. by destruct s. Qed.

Lemma blank_start w r : blank w -> starter (peek r) = true -> starter (peek (w ++ r)) = true.
Proof. intros Hw Hr. destruct Hw as [|c w Hc _|line w _ _]; cbn [app]; [done| |done].
  change (peek (c :: _)) with c. unfold starter. by rewrite Hc.
Qed.

Lemma ident_start x r : ident x -> starter (peek (x ++ r)) = true.
Proof.
  intros Hx. destruct (ident_nonempty x Hx) as (c & x' & -> & Hc).
  change (peek ((c :: x') ++ r)) with c. unfold starter, is_alnum. rewrite Hc.
  by rewrite !orb_true_r.
Qed.

Lemma parses_start n e s : parses n e s -> starter (peek s) = true.
Proof.
  induction 1 as [w ds Hw Hne Hd|w x Hw [Hx _]|w x w1 e s w2 Hw [Hx _]|w x w1 w2 f Hw [Hx _]| | | | |w op e s Hw _ _| | |];
    try (apply blank_start; [done|]); try (by apply ident_start); try done.
  - destruct ds as [|c ds]; [done|]. apply Forall_cons in Hd as [Hc _]. change (peek (c :: ds)) with c. unfold starter, is_alnum. rewrite Hc.
    by rewrite !orb_true_r.
  - rewrite <- (app_nil_r x). by apply ident_start.
  - by destruct op.
  - by rewrite starter_app.
  - by rewrite starter_app.
Qed.

Lemma op_head op s : peek (op_chars op ++ s) = peek (op_chars op) /\ is_alnum (peek (op_chars op)) = false /\
  is_space (peek (op_chars op)) = false.
Proof. by destruct op. Qed.

Lemma next_op_spec op s m :
  starter (peek s) = true -> op_sep op s -> (2 <= m <= op_level op)%nat ->
  next_op m (op_chars op ++ s) = if Nat.eqb m (op_level op) then Some (op, s) else None.
Proof.
  intros Hs Hsep Hm.
  assert ((peek s =? ch "<") = false) as Hlt by (apply Z.eqb_neq; intros E; by rewrite E in Hs).
  assert ((peek s =? ch ">") = false) as Hgt by (apply Z.eqb_neq; intros E; by rewrite E in Hs).
  assert ((peek s =? ch "=") = false) as Heq by (apply Z.eqb_neq; intros E; by rewrite E in Hs).
  assert (forall a, char_at (a :: s) 1 = peek s) as Hc by (intros a; by destruct s).
  destruct m as [|[|[|[|[|[|[|[|m]]]]]]]]; try lia; destruct op; cbn [op_level] in Hm; try lia;
    cbn [op_chars app next_op op_level Nat.eqb]; unfold shift_op, comparison; rewrite ?Hc;
    cbn [peek char_at nth]; rewrite ?Hlt, ?Hgt, ?Heq; ch_simpl; ch_simpl; try reflexivity.
  cbn [op_sep] in Hsep. by rewrite (proj2 (Z.eqb_neq _ _) Hsep).
Qed.

Lemma op_token op s : op_sep op s -> token_start (op_chars op ++ s).
Proof.
  intros Hs. split; [by destruct op|]. destruct op; try done. cbn [op_chars app].
  change (char_at (ch "/" :: s) 1) with (peek s). cbn [op_sep] in Hs. rewrite (proj2 (Z.eqb_neq _ _) Hs). by rewrite andb_false_r.
Qed.

(** After the first operand: blanks and the operator. *)
Lemma op_follow op w s :
  blank w -> starter (peek s) = true -> op_sep op s ->
  skip_ws (w ++ op_chars op ++ s) = op_chars op ++ s /\ follow (op_level op - 1) (w ++ op_chars op ++ s).
Proof.
  intros Hw Hs Hsep. assert (skip_ws (w ++ op_chars op ++ s) = op_chars op ++ s) as Hsk.
  { rewrite skip_blank by done. by apply skip_token, op_token. }
  split; [done|]. split.
  - split; [|rewrite Hsk; by destruct op].
    destruct Hw as [|c w Hc _|line w _ _]; cbn [app]; [by destruct op| |done].
    change (peek (c :: _)) with c. unfold is_space in Hc. change (ch " ") with 32 in Hc. change TAB with 9 in Hc.
    change NL with 10 in Hc. change CR with 13 in Hc.
    repeat (apply orb_true_iff in Hc as [Hc|Hc]); apply Z.eqb_eq in Hc as ->; done.
  - intros m Hm. rewrite Hsk, next_op_spec by (done || lia). destruct (Nat.eqb_spec m (op_level op)); [lia|done].
Qed.

(** Punctuation that ends an expression. *)
Definition closer (c : Z) : bool :=
  (c =? ch ")") || (c =? ch "]") || (c =? ch ";") || (c =? ch ",") || (c =? ch "{") || (c =? ch "}").

Lemma closer_cases c : closer c = true ->
  c = ch ")" \/ c = ch "]" \/ c = ch ";" \/ c = ch "," \/ c = ch "{" \/ c = ch "}".
Proof.
  unfold closer. intros Hc. repeat (apply orb_true_iff in Hc as [Hc|Hc]); apply Z.eqb_eq in Hc; tauto.
Qed.

Lemma closer_token c r : closer c = true -> token_start (c :: r).
Proof. intros Hc. destruct (closer_cases c Hc) as [->|[->|[->|[->|[->| ->]]]]]; done. Qed.

Lemma blank_alnum w r : blank w -> is_alnum (peek r) = false -> is_alnum (peek (w ++ r)) = false.
Proof.
  intros Hw Hr. destruct Hw as [|c w Hc _|line w _ _]; cbn [app]; [done| |done].
  change (peek (c :: _)) with c. unfold is_space in Hc. change (ch " ") with 32 in Hc. change TAB with 9 in Hc.
  change NL with 10 in Hc. change CR with 13 in Hc.
  repeat (apply orb_true_iff in Hc as [Hc|Hc]); apply Z.eqb_eq in Hc as ->; done.
Qed.

Lemma closer_follow c w r : blank w -> closer c = true -> follow 7 (w ++ c :: r).
Proof.
  intros Hw Hc. assert (skip_ws (w ++ c :: r) = c :: r) as Hsk.
  { rewrite skip_blank by done. by apply skip_token, closer_token. }
  unfold follow, lex_ok. rewrite Hsk. split.
  - split; [apply blank_alnum; [done|]|]; destruct (closer_cases c Hc) as [->|[->|[->|[->|[->| ->]]]]]; done.
  - intros m Hm. destruct m as [|[|[|[|[|[|[|[|m]]]]]]]]; try lia;
      destruct (closer_cases c Hc) as [->|[->|[->|[->|[->| ->]]]]]; cbn [next_op]; unfold shift_op, comparison;
      cbn [peek char_at nth]; ch_simpl; rewrite ?andb_false_r; ch_simpl; done.
Qed.

(** ** Compilation by level *)

Definition permits (c : cstate) : Prop := compile_kmod_target c && negb (current_function_unsafe c) = false.

(** A comparison level skips the blanks after the expression, or not. *)
Definition ends (n : nat) (rest' rest : list Z) : Prop :=
  if Nat.eqb n 7 then skip_ws rest' = skip_ws rest else rest' = rest.

(** The parser of level [n] compiles the text [s] of [e]. *)
Definition compiles (n : nat) (e : expr) (s : list Z) : Prop :=
  exists N, forall fuel rest c t cd,
    (N <= fuel)%nat -> comp (scope_of c) e = Some (t, cd) -> fits (length (code_bytes cd)) c -> permits c ->
    follow n rest ->
    exists rest', level_parse n fuel (s ++ rest) c = Done (t, rest', grow (code_bytes cd) c) /\ ends n rest' rest.

(** It comes to the loop of its level after [s]. *)
Definition loops (n : nat) (e : expr) (s : list Z) : Prop :=
  exists k N, forall fuel rest c t cd,
    (N <= fuel)%nat -> comp (scope_of c) e = Some (t, cd) -> fits (length (code_bytes cd)) c -> permits c ->
    follow n rest ->
    level_parse (S n) (k + fuel) (s ++ rest) c = level_loop (S n) fuel t rest (grow (code_bytes cd) c).

Lemma loops_compiles n e s : (1 <= n < 6)%nat -> loops n e s -> compiles (S n) e s.
Proof.
  intros Hn (k & N & H). exists (k + S N)%nat. intros fuel rest c t cd Hf Hc Hfit Hp [Hl Ho].
  exists rest. split; [|unfold ends; destruct (Nat.eqb_spec (S n) 7); [lia|done]].
  replace fuel with (k + S (fuel - k - 1))%nat by lia.
  rewrite (H (S (fuel - k - 1)) rest c t cd) by (lia || done || (apply (follow_mono (S n)); [lia|done])).
  rewrite level_loop_eq by lia. by rewrite Ho by lia.
Qed.

Lemma compiles_loops n e s : (1 <= n < 6)%nat -> compiles n e s -> loops n e s.
Proof.
  intros Hn (N & H). exists 1%nat, N. intros fuel rest c t cd Hf Hc Hfit Hp Hfol.
  cbn [Nat.add]. rewrite level_parse_eq by lia.
  destruct (H fuel rest c t cd Hf Hc Hfit Hp Hfol) as (rest' & -> & He). cbn [res_bind].
  unfold ends in He. destruct (Nat.eqb_spec n 7); [lia|]. by rewrite He.
Qed.

(** The code of a binary expression and its parts. *)
Lemma comp_bin g op e1 e2 t cd : comp g (EBin op e1 e2) = Some (t, cd) ->
  exists t1 c1 t2 c2, comp g e1 = Some (t1, c1) /\ comp g e2 = Some (t2, c2) /\
    match op with BAdd | BSub => scale_ok (ptr_scale t1 t2) | _ => true end = true /\
    t = bin_type op t1 /\ code_bytes cd = code_bytes c1 ++ [0x50] ++ code_bytes c2 ++ code_bytes (bin_code op t1 t2).
Proof.
  cbn [comp]. destruct (comp g e1) as [[t1 c1]|]; [|done]. destruct (comp g e2) as [[t2 c2]|]; [|done].
  cbn [mbind option_bind]. destruct (match op with BAdd | BSub => _ | _ => _ end) eqn:Es; [|done].
  intros Hq. injection Hq as <- <-. exists t1, c1, t2, c2. split; [done|]. split; [done|]. split; [done|]. split; [done|].
  rewrite code_bytes_app. change (code_bytes (i_push :: ?l)) with ([0x50] ++ code_bytes l). by rewrite code_bytes_app.
Qed.

(** The second operand and the operator, after the first one. *)
Lemma compiles_operand n op e2 s2 : compiles n e2 s2 -> (n < 7)%nat ->
  exists N, forall fuel rest c t1 t2 c2,
    (N <= fuel)%nat -> comp (scope_of c) e2 = Some (t2, c2) ->
    fits (1 + length (code_bytes c2) + length (code_bytes (bin_code op t1 t2))) c -> permits c -> follow n rest ->
    match op with BAdd | BSub => scale_ok (ptr_scale t1 t2) | _ => true end = true ->
    level_parse n fuel (s2 ++ rest) (emit_push_rax c) = Done (t2, rest, grow ([0x50] ++ code_bytes c2) c) /\
    emit_bin op t1 t2 (grow ([0x50] ++ code_bytes c2) c) =
    grow ([0x50] ++ code_bytes c2 ++ code_bytes (bin_code op t1 t2)) c.
Proof.
  intros (N & H) Hn. exists N. intros fuel rest c t1 t2 c2 Hf Hc Hfit Hp Hfol Hsc.
  unfold emit_push_rax. rewrite emit8_grow by (unfold byte_ok; lia || (eapply fits_mono; [|exact Hfit]; lia)).
  destruct (H fuel rest (grow [0x50] c) t2 c2 Hf Hc) as (rest' & -> & He); [|done|done|].
  { apply fits_grow. eapply fits_mono; [|exact Hfit]. cbn. lia. }
  unfold ends in He. destruct (Nat.eqb_spec n 7); [lia|]. rewrite He, grow_grow. split; [done|].
  rewrite emit_bin_grow, grow_grow; [by rewrite <- app_assoc|done|].
  apply fits_grow. rewrite length_app. exact Hfit.
Qed.

Lemma bin_loops n op e1 s1 w e2 s2 :
  op_level op = S n -> (1 <= n < 6)%nat -> loops n e1 s1 -> compiles n e2 s2 -> blank w -> op_sep op s2 ->
  starter (peek s2) = true -> loops n (EBin op e1 e2) (s1 ++ w ++ op_chars op ++ s2).
Proof.
  intros Hop Hn (k & N1 & H1) H2 Hw Hsep Hst. destruct (compiles_operand n op e2 s2 H2) as (N2 & H2'); [lia|].
  exists (k + 1)%nat, (N1 + N2)%nat. intros fuel rest c t cd Hf Hc Hfit Hp Hfol.
  destruct (comp_bin _ _ _ _ _ _ Hc) as (t1 & c1 & t2 & c2 & Hc1 & Hc2 & Hsc & -> & Hb). rewrite Hb in *.
  rewrite !length_app in Hfit. rewrite <- !app_assoc.
  assert (peek (s2 ++ rest) = peek s2) as Hpk by (by apply starter_app).
  destruct (op_follow op w (s2 ++ rest)) as [Hsk Hfl]; [done|by rewrite Hpk|by destruct op; cbn [op_sep] in *; rewrite ?Hpk|].
  replace (op_level op - 1)%nat with n in Hfl by lia.
  replace (k + 1 + fuel)%nat with (k + S fuel)%nat by lia.
  rewrite (H1 (S fuel) _ c t1 c1) by (lia || done || (eapply fits_mono; [|exact Hfit]; lia)).
  rewrite level_loop_eq, Hsk by lia. rewrite next_op_spec, Hop, Nat.eqb_refl;
    [|by rewrite Hpk|by destruct op; cbn [op_sep] in *; rewrite ?Hpk|lia].
  destruct (H2' fuel rest (grow (code_bytes c1) c) t1 t2 c2) as [-> He]; [lia|done| |done|done|done|].
  { apply fits_grow. eapply fits_mono; [|exact Hfit]. cbn [length]. lia. }
  cbn [res_bind]. rewrite He, grow_grow. done.
Qed.

Lemma cmp_compiles op e1 s1 w e2 s2 :
  op_level op = 7%nat -> compiles 6 e1 s1 -> compiles 6 e2 s2 -> blank w -> starter (peek s2) = true ->
  compiles 7 (EBin op e1 e2) (s1 ++ w ++ op_chars op ++ s2).
Proof.
  intros Hop (N1 & H1) H2 Hw Hst. destruct (compiles_operand 6 op e2 s2 H2) as (N2 & H2'); [lia|].
  exists (S (N1 + N2))%nat. intros fuel rest c t cd Hf Hc Hfit Hp Hfol.
  destruct (comp_bin _ _ _ _ _ _ Hc) as (t1 & c1 & t2 & c2 & Hc1 & Hc2 & Hsc & -> & Hb). rewrite Hb in *.
  rewrite !length_app in Hfit. rewrite <- !app_assoc.
  assert (peek (s2 ++ rest) = peek s2) as Hpk by (by apply starter_app).
  assert (op_sep op (s2 ++ rest)) as Hsep by (by destruct op).
  destruct (op_follow op w (s2 ++ rest)) as [Hsk Hfl]; [done|by rewrite Hpk|done|].
  rewrite Hop in Hfl. destruct fuel as [|fuel]; [lia|]. exists rest. split; [|done].
  rewrite level_expr_eq. destruct (H1 fuel (w ++ op_chars op ++ s2 ++ rest) c t1 c1) as (r1 & -> & He1);
    [lia|done|eapply fits_mono; [|exact Hfit]; lia|done|done|]. unfold ends in He1. cbn in He1. subst r1.
  cbn [res_bind]. rewrite Hsk, next_op_spec, Hop, Nat.eqb_refl by (done || lia || by rewrite Hpk).
  destruct (H2' fuel rest (grow (code_bytes c1) c) t1 t2 c2) as [-> He]; [lia|done| |done| |done|].
  { apply fits_grow. eapply fits_mono; [|exact Hfit]. cbn [length]. lia. }
  { by apply (follow_mono 7); [lia|]. }
  cbn [res_bind]. by rewrite He, grow_grow.
Qed.

Lemma expr_compiles e s : compiles 6 e s -> compiles 7 e s.
Proof.
  intros (N & H). exists (S N). intros fuel rest c t cd Hf Hc Hfit Hp [Hl Ho]. destruct fuel as [|fuel]; [lia|].
  exists (skip_ws rest). split; [|apply skip_idemp].
  rewrite level_expr_eq. destruct (H fuel rest c t cd) as (r1 & -> & He); [lia|done|done|done| |].
  { apply (follow_mono 7); [lia|done]. }
  unfold ends in He. cbn in He. subst r1. cbn [res_bind]. by rewrite Ho by lia.
Qed.

(** *** Unary operators *)

Lemma un_token op s : token_start (un_char op :: s).
Proof. by destruct op. Qed.

Lemma un_compiles w op e s : blank w -> compiles 1 e s -> compiles 1 (EUn op e) (w ++ un_char op :: s).
Proof.
  intros Hw (N & H). exists (S N). intros fuel rest c t cd Hf Hc Hfit Hp Hfol. destruct fuel as [|fuel]; [lia|].
  cbn [comp] in Hc. destruct (comp (scope_of c) e) as [[te ce]|] eqn:Ec; [|done]. injection Hc as <- <-.
  rewrite code_bytes_app, length_app in *.
  destruct (H fuel rest c te ce) as (r1 & Hr & He); [lia|done|eapply fits_mono; [|exact Hfit]; lia|done|done|].
  unfold ends in He. cbn in He. subst r1. exists rest. split; [|done].
  assert (emit_un op te (grow (code_bytes ce) c) = grow (code_bytes ce ++ code_bytes (un_code op te)) c) as Hu.
  { rewrite emit_un_grow, grow_grow; [done|]. by apply fits_grow. }
  rewrite <- Hu, <- app_assoc. cbn [app level_parse parse_unary_t] in *. rewrite skip_blank, skip_token by (done || apply un_token).
  cbn [peek char_at nth]. destruct op; cbn [un_char un_type emit_un]; ch_simpl; cbn [drop]; rewrite ?drop_0;
    unfold permits in Hp; rewrite ?Hp, ?Hr; reflexivity.
Qed.

(** Primary expressions do not start with a unary operator. *)
Definition not_unary (c : Z) : bool :=
  negb ((c =? ch "!") || (c =? ch "~") || (c =? ch "-") || (c =? ch "&") || (c =? ch "*")).

Lemma alnum_not_unary c : is_alnum c = true -> not_unary c = true.
Proof.
  unfold is_alnum, is_alpha, is_digit, not_unary. intros Hs. change (ch "a") with 97 in *. change (ch "A") with 65 in *.
  change (ch "_") with 95 in *. change (ch "0") with 48 in *. change (ch "z") with 122 in *. change (ch "Z") with 90 in *.
  change (ch "9") with 57 in *. change (ch "!") with 33. change (ch "~") with 126. change (ch "-") with 45.
  change (ch "&") with 38. change (ch "*") with 42.
  apply orb_true_iff in Hs as [Hs|Hs]; [apply orb_true_iff in Hs as [Hs|Hs]; [apply orb_true_iff in Hs as [Hs|Hs]|]|];
    bool_to_prop; cmp_cases.
Qed.

Lemma primary_lift e s :
  (forall rest, not_unary (peek (skip_ws (s ++ rest))) = true) -> compiles 0 e s -> compiles 1 e s.
Proof.
  intros Hs (N & H). exists (S N). intros fuel rest c t cd Hf Hc Hfit Hp Hfol. destruct fuel as [|fuel]; [lia|].
  destruct (H fuel rest c t cd) as (r & Hr & He); [lia|done|done|done|apply (follow_mono 1); [lia|done]|].
  exists r. split; [|done]. rewrite <- Hr. specialize (Hs rest). unfold not_unary in Hs.
  apply negb_true_iff in Hs. repeat (apply orb_false_iff in Hs as [Hs ?]).
  cbn [level_parse parse_unary_t]. repeat match goal with H : (_ =? _) = false |- _ => rewrite H; clear H end. reflexivity.
Qed.

(** *** Primary expressions *)

Lemma int_compiles w ds : blank w -> ds <> [] -> Forall (fun c => is_digit c = true) ds ->
  compiles 0 (EInt (digits_value ds)) (w ++ ds).
Proof.
  intros Hw Hne Hd. exists 1%nat. intros fuel rest c t cd Hf Hc Hfit Hp [[Ha _] _]. destruct fuel as [|fuel]; [lia|].
  cbn [comp] in Hc. case_decide as Hv; [|done]. injection Hc as <- <-. exists rest. split; [|done].
  destruct ds as [|d ds]; [done|]. pose proof Hd as Hd'. apply Forall_cons in Hd' as [Hd1 _].
  rewrite <- app_assoc. cbn [level_parse parse_primary_t]. rewrite skip_blank by done.
  assert (is_alnum d = true) as Hal by (unfold is_alnum; by rewrite Hd1, orb_true_r).
  rewrite skip_token by (apply alpha_token; exact Hal). cbn [app]. change (peek (d :: _)) with d.
  assert ((d =? DQUOTE) = false) as ->.
  { unfold is_digit in Hd1. change (ch "0") with 48 in *. change DQUOTE with 34. bool_to_prop. lia. }
  rewrite Hd1. unfold parse_uint. change (d :: ds ++ rest) with ((d :: ds) ++ rest).
  rewrite parse_digits; [|lia|done| |]; cycle 1.
  { unfold is_alnum in Ha. by apply orb_false_iff in Ha as [_ Ha]. }
  { exact (proj2 Hv). }
  unfold emit_mov_rax. fold (digits_value (d :: ds)). do 2 f_equal.
  emit_simpl. unfold code_bytes, i_mov_rax. cbn [map fst concat]. by rewrite app_nil_r.
Qed.

Lemma primary_name fuel w x r c :
  blank w -> var_name x -> is_alnum (peek r) = false -> peek (skip_ws r) <> ch "(" ->
  parse_primary_t (S fuel) (w ++ x ++ r) c =
  let* v := need (lookup_var (scope_of c) x) in
  if peek (skip_ws r) =? ch "[" then
    let* (s, c) := emit_index_address fuel v (skip_ws r) c in
    Done (elem_type (v_type v), s, emit_load_ptr_t (elem_type (v_type v)) c)
  else if peek (skip_ws r) =? ch "." then
    let* (f, s, c) := emit_field_address v (drop 1 (skip_ws r)) c in
    Done (fd_type f, s, emit_load_ptr_t (fd_type f) c)
  else Done (v_type v, r, emit_load_var_t (v_offset v) (v_type v) c).
Proof.
  intros Hw (Hx & H1 & H2 & H3) Hr Hp. cbn [parse_primary_t]. rewrite skip_blank by done.
  destruct (ident_nonempty x Hx) as (a & x' & Ex & Ha).
  assert (peek (x ++ r) = a) as Hpk by (by rewrite Ex).
  rewrite skip_token by (apply alpha_token; rewrite Hpk; unfold is_alnum; by rewrite Ha). rewrite Hpk.
  assert ((a =? DQUOTE) = false /\ is_digit a = false /\ (a =? ch "(") = false) as (-> & -> & ->).
  { unfold is_alpha in Ha. unfold is_digit. change (ch "a") with 97 in *. change (ch "A") with 65 in *. change (ch "_") with 95 in *.
    change (ch "0") with 48 in *. change (ch "9") with 57 in *. change DQUOTE with 34. change (ch "(") with 40.
    change (ch "z") with 122 in *. change (ch "Z") with 90 in *.
    apply orb_true_iff in Ha as [Ha|Ha]; [apply orb_true_iff in Ha as [Ha|Ha]|]; bool_to_prop; split_and!; cmp_cases. }
  change (x ++ r) with ([] ++ x ++ r). rewrite parse_ident_spec by (done || constructor). cbn [need res_bind].
  unfold parse_layout. rewrite H1, H2, H3. cbn [orb]. rewrite (proj2 (Z.eqb_neq _ _) Hp). reflexivity.
Qed.

Lemma var_compiles w x : blank w -> var_name x -> compiles 0 (EVar x) (w ++ x).
Proof.
  intros Hw Hx. exists 1%nat. intros fuel rest c t cd Hf Hc Hfit Hp [(Ha & H1 & H2 & H3) _]. destruct fuel as [|fuel]; [lia|].
  cbn [comp] in Hc. destruct (scalar_var (scope_of c) x) as [v|] eqn:Ev; [|done]. injection Hc as <- <-.
  apply scalar_var_spec in Ev as (Ev & _). exists rest. split; [|done].
  rewrite <- app_assoc. cbn [level_parse]. rewrite primary_name, Ev by done. cbn [need res_bind].
  rewrite (proj2 (Z.eqb_neq _ _) H2), (proj2 (Z.eqb_neq _ _) H3). by rewrite load_var_grow.
Qed.

Lemma index_address_spec e s w2 : compiles 7 e s -> blank w2 ->
  exists N, forall fuel rest c v t cd,
    (N <= fuel)%nat -> comp (scope_of c) e = Some (t, cd) -> permits c ->
    kind_eqb (t_kind (v_type v)) TY_ARRAY = true -> scale_ok (type_pointee_size (v_type v)) = true ->
    fits (length (code_bytes (cd ++ index_code v))) c ->
    emit_index_address fuel v (ch "[" :: s ++ w2 ++ ch "]" :: rest) c = Done (rest, grow (code_bytes (cd ++ index_code v)) c).
Proof.
  intros (N & H) Hw. exists (S N). intros fuel rest c v t cd Hf Hc Hp Hk Hs Hfit. destruct fuel as [|fuel]; [lia|].
  cbn [emit_index_address]. rewrite skip_token by done. cbn [peek char_at nth]. ch_simpl. cbn [drop]. rewrite ?drop_0.
  rewrite code_bytes_app, length_app in *.
  destruct (H fuel (w2 ++ ch "]" :: rest) c t cd) as (r & Hr & He); [lia|done|eapply fits_mono; [|exact Hfit]; lia|done|by apply closer_follow|].
  cbn [level_parse] in Hr. rewrite Hr. cbn [res_bind]. unfold ends in He. cbn [Nat.eqb] in He.
  assert (consume r (ch "]") = Some rest) as ->.
  { unfold consume. rewrite He, skip_blank, skip_token by done. done. }
  cbn [need res_bind]. rewrite Hk. rewrite index_grow, grow_grow; [done|done|]. by apply fits_grow.
Qed.

Lemma bracket_lex w1 r c : blank w1 -> c = ch "[" \/ c = ch "." ->
  is_alnum (peek (w1 ++ c :: r)) = false /\ skip_ws (w1 ++ c :: r) = c :: r.
Proof.
  intros Hw Hc. split; [apply blank_alnum; [done|]; by destruct Hc as [->| ->]|].
  rewrite skip_blank by done. apply skip_token. by destruct Hc as [->| ->].
Qed.

Lemma index_compiles w x w1 e s w2 :
  blank w -> var_name x -> blank w1 -> compiles 7 e s -> blank w2 ->
  compiles 0 (EIndex x e) (w ++ x ++ w1 ++ ch "[" :: s ++ w2 ++ [ch "]"]).
Proof.
  intros Hw Hx Hw1 He Hw2. destruct (index_address_spec e s w2 He Hw2) as (N & H). exists (S N).
  intros fuel rest c t cd Hf Hc Hfit Hp _. destruct fuel as [|fuel]; [lia|].
  cbn [comp] in Hc. destruct (array_var (scope_of c) x) as [v|] eqn:Ev; [|done]. cbn [mbind option_bind] in Hc.
  destruct (comp (scope_of c) e) as [[te ce]|] eqn:Ee; [|done]. injection Hc as <- <-.
  destruct (array_var_spec _ _ _ Ev) as (Hl & _ & Hk & Hs). exists rest. split; [|done].
  rewrite app_assoc, code_bytes_app, length_app in Hfit.
  repeat (rewrite <- app_assoc; cbn [app]).
  destruct (bracket_lex w1 (s ++ w2 ++ ch "]" :: rest) (ch "[") Hw1 (or_introl eq_refl)) as [Hb Hsk].
  cbn [level_parse]. rewrite primary_name, Hl, Hsk by (done || by rewrite Hsk). cbn [need res_bind].
  change (peek (ch "[" :: _)) with (ch "["). ch_simpl.
  rewrite (H fuel rest c v te ce) by (done || lia || (eapply fits_mono; [|exact Hfit]; lia)). cbn [res_bind].
  rewrite load_ptr_grow, grow_grow; [by rewrite !code_bytes_app, <- !app_assoc|]. by apply fits_grow.
Qed.

Lemma field_address_spec x w2 f rest c v fd :
  field_of (scope_of c) x f = Some (v, fd) -> blank w2 -> ident f -> is_alnum (peek rest) = false ->
  fits (length (code_bytes (field_code v fd))) c ->
  emit_field_address v (w2 ++ f ++ rest) c = Done (fd, rest, grow (code_bytes (field_code v fd)) c).
Proof.
  intros Hf Hw Hid Hr Hfit. destruct (field_of_var _ _ _ _ _ Hf) as (_ & _ & Hk & st & Hst & Hfd).
  unfold emit_field_address. rewrite parse_ident_spec by done. cbn [need res_bind]. rewrite Hk. cbn [negb].
  change (structs c) with (sc_structs (scope_of c)). rewrite Hst. cbn [need res_bind]. rewrite Hfd. cbn [need res_bind].
  rewrite <- field_grow by done. reflexivity.
Qed.

Lemma field_compiles w x w1 w2 f :
  blank w -> var_name x -> blank w1 -> blank w2 -> ident f ->
  compiles 0 (EField x f) (w ++ x ++ w1 ++ ch "." :: w2 ++ f).
Proof.
  intros Hw Hx Hw1 Hw2 Hid. exists 1%nat. intros fuel rest c t cd Hf Hc Hfit Hp [[Ha _] _]. destruct fuel as [|fuel]; [lia|].
  cbn [comp] in Hc. destruct (field_of (scope_of c) x f) as [[v fd]|] eqn:Ef; [|done]. cbn [mbind option_bind] in Hc.
  assert (t = fd_type fd /\ cd = field_code v fd ++ [i_load_ptr (width (fd_type fd))]) as [-> ->] by (split; congruence).
  rewrite code_bytes_app, length_app in *. destruct (field_of_var _ _ _ _ _ Ef) as (Hl & _).
  exists rest. split; [|done]. repeat (rewrite <- app_assoc; cbn [app]).
  destruct (bracket_lex w1 (w2 ++ f ++ rest) (ch ".") Hw1 (or_intror eq_refl)) as [Hb Hsk].
  cbn [level_parse]. rewrite primary_name, Hl, Hsk by (done || by rewrite Hsk). cbn [need res_bind].
  change (peek (ch "." :: _)) with (ch "."). ch_simpl. cbn [drop]. rewrite ?drop_0.
  rewrite (field_address_spec x w2 f rest c v fd) by (done || (eapply fits_mono; [|exact Hfit]; lia)). cbn [res_bind].
  rewrite load_ptr_grow, grow_grow; [done|]. by apply fits_grow.
Qed.

Lemma paren_compiles w e s w2 : blank w -> compiles 7 e s -> blank w2 -> compiles 0 e (w ++ ch "(" :: s ++ w2 ++ [ch ")"]).
Proof.
  intros Hw (N & H) Hw2. exists (S N). intros fuel rest c t cd Hf Hc Hfit Hp _. destruct fuel as [|fuel]; [lia|].
  exists rest. split; [|done]. repeat (rewrite <- app_assoc; cbn [app]). cbn [level_parse parse_primary_t].
  rewrite skip_blank, skip_token by done. change (peek (ch "(" :: _)) with (ch "(").
  change (ch "(" =? DQUOTE) with false. change (is_digit (ch "(")) with false. ch_simpl. cbn [drop]. rewrite ?drop_0.
  destruct (H fuel (w2 ++ ch ")" :: rest) c t cd) as (r & Hr & He); [lia|done|done|done|by apply closer_follow|].
  cbn [level_parse] in Hr. rewrite Hr. cbn [res_bind]. unfold ends in He. cbn [Nat.eqb] in He.
  assert (consume r (ch ")") = Some rest) as ->; [|done].
  unfold consume. rewrite He, skip_blank, skip_token by done. done.
Qed.

(** *** Addresses *)

Lemma unary_addr fuel w w1 x r c :
  blank w -> blank w1 -> ident x -> is_alnum (peek r) = false ->
  parse_unary_t (S fuel) (w ++ ch "&" :: w1 ++ x ++ r) c =
  let* v := need (lookup_var (scope_of c) x) in
  let* (t, s, c) :=
    if peek (skip_ws r) =? ch "[" then
      let* (s, c) := emit_index_address fuel v (skip_ws r) c in Done (ty_array_element (v_type v), s, c)
    else if peek (skip_ws r) =? ch "." then
      let* (f, s, c) := emit_field_address v (drop 1 (skip_ws r)) c in Done (fd_type f, s, c)
    else Done (v_type v, r, emit_addr_var (v_offset v) c) in
  Done (addr_type t, s, c).
Proof.
  intros Hw Hw1 Hx Hr. cbn [parse_unary_t]. rewrite skip_blank, skip_token by done.
  change (peek (ch "&" :: _)) with (ch "&"). ch_simpl. cbn [drop]. rewrite ?drop_0.
  rewrite parse_ident_spec by done. reflexivity.
Qed.

Lemma addr_compiles w w1 x : blank w -> blank w1 -> ident x -> compiles 1 (EAddr x) (w ++ ch "&" :: w1 ++ x).
Proof.
  intros Hw Hw1 Hx. exists 1%nat. intros fuel rest c t cd Hf Hc Hfit Hp [(Ha & H1 & H2 & H3) _]. destruct fuel as [|fuel]; [lia|].
  cbn [comp] in Hc. destruct (lookup_var (scope_of c) x) as [v|] eqn:Ev; [|done]. cbn [mbind option_bind] in Hc.
  destruct (slot_ok v); [|done]. injection Hc as <- <-. exists rest. split; [|done].
  repeat (rewrite <- app_assoc; cbn [app]). cbn [level_parse]. rewrite unary_addr, Ev by done. cbn [need res_bind].
  rewrite (proj2 (Z.eqb_neq _ _) H2), (proj2 (Z.eqb_neq _ _) H3). cbn [res_bind].
  by rewrite addr_var_grow.
Qed.

Lemma addr_index_compiles w w1 x w2 e s w3 :
  blank w -> blank w1 -> ident x -> blank w2 -> compiles 7 e s -> blank w3 ->
  compiles 1 (EAddrIndex x e) (w ++ ch "&" :: w1 ++ x ++ w2 ++ ch "[" :: s ++ w3 ++ [ch "]"]).
Proof.
  intros Hw Hw1 Hx Hw2 He Hw3. destruct (index_address_spec e s w3 He Hw3) as (N & H). exists (S N).
  intros fuel rest c t cd Hf Hc Hfit Hp _. destruct fuel as [|fuel]; [lia|].
  cbn [comp] in Hc. destruct (array_var (scope_of c) x) as [v|] eqn:Ev; [|done]. cbn [mbind option_bind] in Hc.
  destruct (comp (scope_of c) e) as [[te ce]|] eqn:Ee; [|done]. injection Hc as <- <-.
  destruct (array_var_spec _ _ _ Ev) as (Hl & _ & Hk & Hs). exists rest. split; [|done].
  repeat (rewrite <- app_assoc; cbn [app]).
  destruct (bracket_lex w2 (s ++ w3 ++ ch "]" :: rest) (ch "[") Hw2 (or_introl eq_refl)) as [Hb Hsk].
  cbn [level_parse]. rewrite unary_addr, Hl, Hsk by done. cbn [need res_bind].
  change (peek (ch "[" :: _)) with (ch "["). ch_simpl.
  by rewrite (H fuel rest c v te ce) by (done || lia).
Qed.

Lemma addr_field_compiles w w1 x w2 w3 f :
  blank w -> blank w1 -> ident x -> blank w2 -> blank w3 -> ident f ->
  compiles 1 (EAddrField x f) (w ++ ch "&" :: w1 ++ x ++ w2 ++ ch "." :: w3 ++ f).
Proof.
  intros Hw Hw1 Hx Hw2 Hw3 Hid. exists 1%nat. intros fuel rest c t cd Hf Hc Hfit Hp [[Ha _] _]. destruct fuel as [|fuel]; [lia|].
  cbn [comp] in Hc. destruct (field_of (scope_of c) x f) as [[v fd]|] eqn:Ef; [|done]. cbn [mbind option_bind] in Hc.
  assert (t = addr_type (fd_type fd) /\ cd = field_code v fd) as [-> ->] by (split; congruence).
  destruct (field_of_var _ _ _ _ _ Ef) as (Hl & _).
  exists rest. split; [|done]. repeat (rewrite <- app_assoc; cbn [app]).
  destruct (bracket_lex w2 (w3 ++ f ++ rest) (ch ".") Hw2 (or_intror eq_refl)) as [Hb Hsk].
  cbn [level_parse]. rewrite unary_addr, Hl, Hsk by done. cbn [need res_bind].
  change (peek (ch "." :: _)) with (ch "."). ch_simpl. cbn [drop]. rewrite ?drop_0.
  by rewrite (field_address_spec x w3 f rest c v fd) by done.
Qed.

(** ** Every text of the grammar is compiled *)

Lemma primary_start e s : parses 0 e s -> forall rest, not_unary (peek (skip_ws (s ++ rest))) = true.
Proof.
  intros H rest. inversion H as [w ds Hw Hne Hd|w x Hw [Hx _]|w x w1 e' s' w2 Hw [Hx _]|w x w1 w2 f Hw [Hx _]|w e' s' w2 Hw| | | | | | |]; subst;
    rewrite <- ?app_assoc, skip_blank by done.
  1: destruct ds as [|d ds]; [done|]; apply Forall_cons in Hd as [Hd _]; rename d into a;
    assert (is_alnum a = true) as Ha by (unfold is_alnum; by rewrite Hd, orb_true_r).
  2-4: destruct (ident_nonempty x Hx) as (a & x' & -> & Ha');
    assert (is_alnum a = true) as Ha by (unfold is_alnum; by rewrite Ha').
  1-4: rewrite skip_token by (apply alpha_token; exact Ha); cbn [app]; change (peek (a :: _)) with a; by apply alnum_not_unary.
  by rewrite skip_token.
Qed.

Lemma parses_level_7 n e s : parses n e s -> (n <= 7)%nat.
Proof. induction 1; lia. Qed.

Lemma parses_compiles n e s :
  parses n e s -> compiles n e s /\ forall m, n = S m -> (1 <= m < 6)%nat -> loops m e s.
Proof.
  induction 1 as [w ds Hw Hne Hd|w x Hw Hx|w x w1 e s w2 Hw Hx Hw1 _ [IH _] Hw2|w x w1 w2 f Hw Hx Hw1 Hw2 Hid
    |w e s w2 Hw _ [IH _] Hw2|w w1 x Hw Hw1 Hx|w w1 x w2 e s w3 Hw Hw1 Hx Hw2 _ [IH _] Hw3|w w1 x w2 w3 f Hw Hw1 Hx Hw2 Hw3 Hid
    |w op e s Hw _ [IH _]|n op e1 s1 w e2 s2 Hop Hn H1 [_ IH1] Hw H2 [IH2 _] Hsep|op e1 s1 w e2 s2 Hop H1 [IH1 _] Hw H2 [IH2 _]
    |n e s Hn H [IH _]];
    try (split; [|intros m Hm; lia]).
  - by apply int_compiles.
  - by apply var_compiles.
  - by apply index_compiles.
  - by apply field_compiles.
  - by apply paren_compiles.
  - by apply addr_compiles.
  - by apply addr_index_compiles.
  - by apply addr_field_compiles.
  - by apply un_compiles.
  - assert (1 <= n)%nat as Hn1 by (destruct op; cbn in Hop; lia).
    assert (loops n (EBin op e1 e2) (s1 ++ w ++ op_chars op ++ s2)) as Hl.
    { apply bin_loops; [done|lia|apply IH1; [done|lia]|done|done|done|by apply (parses_start n e2)]. }
    split; [apply loops_compiles; [lia|done]|]. intros m Hm Hr. by injection Hm as <-.
  - apply cmp_compiles; [done|done|done|done|by apply (parses_start 6 e2)].
  - split.
    + destruct (Nat.eq_dec n 0) as [->|H0]; [apply primary_lift; [by apply primary_start with e|done]|].
      destruct (Nat.eq_dec n 6) as [->|H6]; [by apply expr_compiles|].
      apply loops_compiles; [lia|]. apply compiles_loops; [lia|done].
    + intros m Hm Hr. injection Hm as <-. by apply compiles_loops.
Qed.

(** ** Expressions are compiled correctly *)

(** Bytes of the code of an expression. *)
Definition code_size (g : scope) (e : expr) : nat :=
  match comp g e with Some (_, cd) => length (code_bytes cd) | None => O end.

(** The code of [e] for a scope [g] sits in the text [C], loaded at [base], from
    offset [a] to offset [b]: run from [a], it comes to [b] with the value in
    rax. *)
Definition computes_at (g : scope) (e : expr) (C : list Z) (base a b : Z) : Prop :=
  forall d s v,
    rip s = base + a -> eval g (get RBP s) d e = Some v -> ready (depth e) d s ->
    exists s', steps C base s s' /\ rip s' = base + b /\ get RAX s' = v /\ evaluates (depth e) s s'.

Lemma comp_computes g e t cd C1 C3 base :
  comp g e = Some (t, cd) ->
  computes_at g e (C1 ++ code_bytes cd ++ C3) base (Z.of_nat (length C1)) (Z.of_nat (length (C1 ++ code_bytes cd))).
Proof.
  intros Hc d s v Hr Hv Hrd. pose proof (comp_good g e t cd Hc) as Hg.
  destruct (comp_correct g d e t cd v s Hc Hv Hrd) as (s' & R & V & _ & [E1 E2 E3 E4]).
  exists (set_rip (base + Z.of_nat (length (C1 ++ code_bytes cd))) s'). split; [|done].
  apply (steps_code _ base C1 cd C3 s s'); [| |done|done|done].
  - eapply Forall_impl; [exact Hg|]. intros bi Hb. apply (gd_encodes _ Hb).
  - eapply Forall_impl; [exact Hg|]. intros bi Hb. split; [apply (gd_plain _ Hb)|apply (gd_nonempty _ Hb)].
Qed.

(** C22: Every text of an expression of the grammar [parses] that has a type, at
    whatever nesting, precedence and spacing, is accepted by the expression compiler with
    enough fuel; it consumes exactly the expression, appends code to the text buffer and
    changes nothing else, and that code, decoded and run on the processor, leaves the
    value of the expression in rax whenever it has one, and preserves the stack pointer,
    the frame pointer and all memory outside of the words it pushes.  The grammar has
    numbers, variables, elements of arrays and fields of structures with their
    addresses, the unary and binary operators and parentheses; it leaves out calls, string
    literals, sizeof, alignof and offsetof.  Indexing a pointer, elements of more than
    127 bytes and negative 32-bit values in memory have no type or no value here: the
    compiler gets them wrong. *)
Theorem expr_compiled_correctly e s rest c t :
  parses 7 e s -> follow 7 rest -> permits c -> type_of (scope_of c) e = Some t -> fits (code_size (scope_of c) e) c ->
  exists N bs,
    (forall fuel, (N <= fuel)%nat ->
       exists rest', parse_expr_t fuel (s ++ rest) c = Done (t, rest', with_text (text c ++ bs) c) /\
         skip_ws rest' = skip_ws rest) /\
    forall later base, computes_at (scope_of c) e (text c ++ bs ++ later) base
      (Z.of_nat (length (text c))) (Z.of_nat (length (text c ++ bs))).
Proof.
  intros Hp Hf Hperm Ht Hfit. unfold type_of, code_size in *.
  destruct (comp (scope_of c) e) as [[t' cd]|] eqn:Ec; [|done]. injection Ht as ->.
  destruct (parses_compiles 7 e s Hp) as [(N & H) _]. exists N, (code_bytes cd). split.
  - intros fuel Hn. exact (H fuel rest c t cd Hn Ec Hfit Hperm Hf).
  - intros later base. by apply (comp_computes _ e t).
Qed.

(** *** Example: [x * (y[1] - 2) < 10] *)

Definition demo_vars : list Var :=
  [mk_var (bytes_of "x"%string) 16 ty_int; mk_var (bytes_of "y"%string) 32 (mk_ty TY_ARRAY 8 4 4 2 0)].
Definition demo_cs : cstate := mk_cs [] [] demo_vars 32 [] [] [] 0 false [] [] false.
Definition demo_expr : expr :=
  EBin BLt (EBin BMul (EVar (bytes_of "x"%string))
              (EBin BSub (EIndex (bytes_of "y"%string) (EInt 1)) (EInt 2))) (EInt 10).
Definition demo_text : list Z := bytes_of "x * (y[1] - 2) < 10"%string.

Lemma demo_blank : blank [32].
Proof. by apply blank_space; [|apply blank_nil]. Qed.

Lemma demo_name (a : Z) : is_alpha a = true -> name_is [a] "sizeof" = false -> name_is [a] "alignof" = false ->
  name_is [a] "offsetof" = false -> var_name [a].
Proof.
  intros Ha H1 H2 H3. split; [|done]. split; [done|]. split; [|cbn; lia].
  constructor; [|done]. unfold is_alnum. by rewrite Ha.
Qed.

Lemma demo_digit w d : blank w -> is_digit d = true -> parses 0 (EInt (d - 48)) (w ++ [d]).
Proof. intros Hw Hd. apply (p_int w [d]); [done|done|by repeat constructor]. Qed.

Lemma demo_parses : parses 7 demo_expr demo_text.
Proof.
  apply (p_cmp BLt _ (bytes_of "x * (y[1] - 2)"%string) [32] _ (bytes_of " 10"%string)); [done| |exact demo_blank|].
  - do 4 (apply p_lift; [lia|]).
    apply (p_bin 1 BMul _ (bytes_of "x"%string) [32] _ (bytes_of " (y[1] - 2)"%string)); [done|lia| |exact demo_blank| |done].
    + do 2 (apply p_lift; [lia|]). apply (p_var []); [apply blank_nil|by apply demo_name].
    + apply p_lift; [lia|]. apply (p_paren [32] _ (bytes_of "y[1] - 2"%string) []); [exact demo_blank| |apply blank_nil].
      do 4 (apply p_lift; [lia|]).
      apply (p_bin 2 BSub _ (bytes_of "y[1]"%string) [32] _ (bytes_of " 2"%string)); [done|lia| |exact demo_blank| |done].
      * do 3 (apply p_lift; [lia|]).
        apply (p_index [] (bytes_of "y"%string) [] _ (bytes_of "1"%string) []); try apply blank_nil; [by apply demo_name|].
        do 7 (apply p_lift; [lia|]). apply (demo_digit [] 49); [apply blank_nil|done].
      * do 2 (apply p_lift; [lia|]). apply (demo_digit [32] 50); [exact demo_blank|done].
  - do 6 (apply p_lift; [lia|]). apply (p_int [32] [49; 48]); [exact demo_blank|done|by repeat constructor].
Qed.

Lemma expr_compiled_correctly_witness :
  exists N bs,
    (forall fuel, (N <= fuel)%nat ->
       exists rest', parse_expr_t fuel (demo_text ++ [ch ";"]) demo_cs = Done (ty_bool, rest', with_text bs demo_cs) /\
         skip_ws rest' = skip_ws [ch ";"]) /\
    forall later base, computes_at (scope_of demo_cs) demo_expr (bs ++ later) base 0 (Z.of_nat (length bs)).
Proof.
  apply (expr_compiled_correctly demo_expr demo_text [ch ";"] demo_cs ty_bool);
    [exact demo_parses|apply (closer_follow (ch ";") [] []); [apply blank_nil|reflexivity]|reflexivity|reflexivity|].
  vm_compute. discriminate.
Defined.
