(* ===== verification/Orec.v ===== *)
(** The OreLang compiler, driver (user/orec.c).

    Imports, the image that is handed to the kernel, and the command line.  The
    file system is behind system calls, so the calls are parameters of the
    routines that read files. *)
From stdpp Require Import base numbers list.
From Stdlib Require Import ZArith Lia.
From Stdlib Require Import(notations) Ascii String.
From S2P Require Import Prelude Memory Cstring Block Loader Okmod OrecLex OrecGen.

Definition IMAGE_MAX : Z := 65536.
Definition SOURCE_SIZE : Z := 24576.
Definition EXPANDED_SIZE : Z := 32768.
Definition IMPORT_BUF_SIZE : Z := 8192.

(** ** The image *)

Fixpoint patch_data_loop (l : list (Z * Z)) (image_base text_image_size : Z) (c : cstate) : res cstate :=
  match l with
  | [] => Done c
  | (patch, data_off) :: l =>
      let target := image_base +u text_image_size +u data_off in
      let next := image_base +u patch +u 4 in
      let* c := patch32 patch (target - next) c in
      patch_data_loop l image_base text_image_size c
  end.
Definition patch_data_refs (image_base text_image_size : Z) (c : cstate) : res cstate :=
  patch_data_loop (data_refs c) image_base text_image_size c.

(** Text rounded up to pages. *)
Definition text_image_size (c : cstate) : Z := Z.land (text_len c +u 4095) (not64 4095).

(** Header, text, padding and data; [Undef] when they do not fit in [image]. *)
Definition fill_image (header : list Z) (c : cstate) : res (list Z) :=
  let pad := repeat 0 (Z.to_nat (text_image_size c - text_len c)) in
  let out := header ++ text c ++ pad ++ data c in
  if IMAGE_MAX <? Z.of_nat (length out) then Undef else Done out.

Definition build_image (c : cstate) : res (list Z) :=
  let size := text_image_size c in
  let* c := patch_data_refs 0x8000000000 size c in
  fill_image
    (le_bytes 8 ORE_IMAGE_MAGIC ++ le_bytes 4 ORE_IMAGE_VERSION ++ le_bytes 4 sizeof_OreImageHeader ++
     le_bytes 8 0 ++ le_bytes 8 size ++ le_bytes 8 (data_len c) ++ le_bytes 8 0 ++ le_bytes 8 0) c.

(** The name of a module: the part of the path after the last separator and
    before the first dot; the rest of the 32 bytes is zero. *)
Fixpoint path_base (base path : list Z) : list Z :=
  match path with
  | [] => base
  | c :: path => path_base (if (c =? ch "/") || (c =? ch "\") then path else base) path
  end.
Definition copy_kmod_name (path : list Z) : list Z :=
  let name := take 31 (until_dot (path_base path path)) in
  name ++ repeat 0 (32 - length name).

Definition build_kmod_image (entry_fn : Z) (source_path : list Z) (c : cstate) : res (list Z) :=
  let size := text_image_size c in
  let* c := patch_data_refs 0 size c in
  let command :=
    match find_func (funcs c) (bytes_of "command_main"%string) with
    | Some (i, f) => if fn_extern f then 0xffffffffffffffff else fn_addr f
    | None => 0xffffffffffffffff
    end in
  fill_image
    (le_bytes 8 ORE_KMOD_MAGIC ++ le_bytes 4 ORE_KMOD_VERSION ++ le_bytes 4 sizeof_OreKModHeader ++
     le_bytes 4 ORE_KERNEL_ABI_VERSION ++ le_bytes 4 0 ++ le_bytes 8 (func_addr c entry_fn) ++ le_bytes 8 size ++
     le_bytes 8 (data_len c) ++ le_bytes 8 0 ++ le_bytes 8 0 ++ le_bytes 8 0 ++ le_bytes 8 0 ++
     le_bytes 8 command ++ copy_kmod_name source_path) c.

(** ** Imports *)

(** [append_char] for each character of [s]. *)
Definition append_str (cap : Z) (dst s : list Z) : list Z :=
  dst ++ take (Z.to_nat (cap - 1 - Z.of_nat (length dst))) s.

Section Files.
(** The state of the file system calls and the calls. *)
Context {F : Type} (sys_open : list Z -> F -> Z * F) (sys_close : Z -> F -> F).
Context (sys_file_read : Z -> Z -> F -> Z * list Z * F).

(** The loop of [read_file_into]: every turn but the last adds a character. *)
Fixpoint read_file_loop (fuel : nat) (fd cap : Z) (buf : list Z) (f : F) : res (option (list Z) * F) :=
  match fuel with
  | O => Timeout
  | S fuel =>
      let total := Z.of_nat (length buf) in
      let '(n, bs, f) := sys_file_read fd (cap - 1 - total) f in
      if n <? 0 then Done (None, sys_close fd f)
      else if n =? 0 then Done (Some buf, sys_close fd f)
      else
        let buf := buf ++ bs in
        if cap <=? Z.of_nat (length buf) + 1 then Done (Some buf, sys_close fd f)
        else read_file_loop fuel fd cap buf f
  end.

Definition read_file_into (path : list Z) (cap : Z) (f : F) : res (option (list Z) * F) :=
  let '(fd, f) := sys_open path f in
  if fd <? 0 then Done (None, f) else read_file_loop (Z.to_nat cap) fd cap [] f.

(** The path of an import: up to 127 characters, and the rest. *)
Fixpoint import_path (room : nat) (p : list Z) : list Z * list Z :=
  match room, p with
  | S room, c :: r =>
      if c =? DQUOTE then ([], p) else let '(imp, r) := import_path room r in (c :: imp, r)
  | _, _ => ([], p)
  end.

Definition import_file (imp : list Z) : list Z := take 159 (bytes_of "/disk/include/"%string ++ imp).

(** [expand_imports_depth] at depth 0, the only depth that is used.  When the
    source ends in blanks the loop appends the terminator and reads the byte
    after it, which is zero unless the buffer is [full] and it is outside. *)
Fixpoint expand_loop (fuel : nat) (full : bool) (cap : Z) (p dst : list Z) (f : F) : res (list Z * F) :=
  match fuel with
  | O => Timeout
  | S fuel =>
      if peek p =? 0 then Done (dst, f) else
      let s := skip_ws p in
      let dst := append_str cap dst (take (length p - length s) p) in
      if negb (keyword_at s "import") then
        match s with
        | [] => if full then Undef else Done (append_str cap dst [0], f)
        | c :: r => expand_loop fuel full cap r (append_str cap dst [c]) f
        end
      else
        let s := skip_ws (drop 6 s) in
        if negb (peek s =? DQUOTE) then Fail else
        let '(imp, s) := import_path 127 (drop 1 s) in
        if negb (peek s =? DQUOTE) then Fail else
        let s := skip_ws (drop 1 s) in
        let s := if peek s =? ch ";" then drop 1 s else s in
        let* (imported, f) := read_file_into (import_file imp) IMPORT_BUF_SIZE f in
        let* imported := need imported in
        expand_loop fuel full cap s (append_str cap (append_str cap dst imported) [NL]) f
  end.

Definition expand_imports (src : list Z) (f : F) : res (list Z * F) :=
  expand_loop (S (length src)) (SOURCE_SIZE <=? Z.of_nat (length src) + 1) EXPANDED_SIZE src [] f.

(** ** The command *)

Definition is_blank (c : Z) : bool := (c =? ch " ") || (c =? TAB).
Fixpoint skip_blanks (s : list Z) : list Z :=
  match s with c :: r => if is_blank c then skip_blanks r else s | [] => [] end.
Fixpoint word_chars (room : nat) (s : list Z) : list Z * list Z :=
  match room, s with
  | S room, c :: r => if is_blank c then ([], s) else let '(w, r) := word_chars room r in (c :: w, r)
  | _, _ => ([], s)
  end.

(** The path and the arguments of the program. *)
Definition split_args (args : list Z) : list Z * list Z :=
  let '(path, rest) := word_chars 127 (skip_blanks args) in
  (path, take 127 (skip_blanks rest)).

(** Fuel for the compilation of a source: see [compile_command_total] in OrecTotal. *)
Definition source_fuel (src : list Z) : nat := 32 * (length src + 2).

(** [main] up to [sys_exec_image]: the image and its arguments, or the exit
    code 1. *)
Definition compile_command (args : list Z) (f : F) : res (list Z * list Z * F) :=
  let '(path, run_args) := split_args args in
  if peek path =? 0 then Fail else
  let* (src, f) := read_file_into path SOURCE_SIZE f in
  let* src := need src in
  let* (expanded, f) := expand_imports (until_nul src) f in
  let expanded := until_nul expanded in
  let* c := compile_source (source_fuel expanded) false expanded in
  let* image := build_image c in
  Done (image, run_args, f).
End Files.
