(* ===== verification/OrecTotal.v ===== *)
(** The OreLang compiler, termination.

    Every loop and every call of the recursive-descent compiler advances in the
    source, so fuel in proportion to its length is enough: the measure of a call
    is ten times the number of characters left plus the level of the routine in
    the grammar.  [within n r] says that [r] is not [Timeout] and that fewer than
    [n] characters are left when it is [Done]; the routines are composed with
    [within_bind]. *)
From stdpp Require Import base numbers list.
From Stdlib Require Import ZArith Lia.
From Stdlib Require Import(notations) Ascii String.
From S2P Require Import Prelude Memory Cstring Loader Okmod OrecLex OrecGen Orec.

(** ** Progress *)

Definition within {A} (rest : A -> list Z) (n : nat) (r : res A) : Prop :=
  match r with
  | Done a => (length (rest a) < n)%nat
  | Timeout => False
  | Fail | Undef => True
  end.

(** Where the rest of the source is in a result. *)
Definition rest1 (s : list Z) : list Z := s.
Definition rest2 {A} (r : A * list Z) : list Z := snd r.
Definition rest2' {A} (r : list Z * A) : list Z := fst r.
Definition rest3 {A B} (r : A * list Z * B) : list Z := snd (fst r).

Definition matched (o : option (list Z)) : list Z := match o with Some p => p | None => [] end.
Definition body_of (r : Function * list Z) : list Z := fn_body (fst r).

(** A result without source that is not [Timeout]. *)
Definition ends {A} (r : res A) : Prop := r <> Timeout.

Lemma within_bind {A B} restA restB (r : res A) (k : A -> res B) m n :
  within restA m r -> (forall a, (length (restA a) < m)%nat -> within restB n (k a)) ->
  within restB n (res_bind r k).
Proof. destruct r; simpl; auto. Qed.

Lemma within_ends_bind {A B} rest (r : res A) (k : A -> res B) n :
  ends r -> (forall a, within rest n (k a)) -> within rest n (res_bind r k).
Proof. unfold ends. destruct r; simpl; auto. Qed.

Lemma ends_bind {A B} (r : res A) (k : A -> res B) :
  ends r -> (forall a, ends (k a)) -> ends (res_bind r k).
Proof. unfold ends. destruct r; simpl; auto; discriminate. Qed.

Lemma ends_within_bind {A B} rest (r : res A) (k : A -> res B) m :
  within rest m r -> (forall a, (length (rest a) < m)%nat -> ends (k a)) -> ends (res_bind r k).
Proof. unfold ends. destruct r; simpl; auto; try discriminate; tauto. Qed.

Lemma within_mono {A} rest (r : res A) m n : within rest m r -> (m <= n)%nat -> within rest n r.
Proof. destruct r; simpl; auto; lia. Qed.

Lemma within_ends {A} rest (r : res A) n : within rest n r -> ends r.
Proof. unfold ends. destruct r; simpl; auto; discriminate || tauto. Qed.

Lemma ends_need {A} (x : option A) : ends (need x).
Proof. destruct x; discriminate. Qed.

Lemma ends_check b : ends (check b).
Proof. destruct b; discriminate. Qed.

(** ** The lexer *)

Lemma skip_from_length b p : (length (skip_from b p) <= length p)%nat.
Proof.
  revert b. induction p as [|c p IH]; intros b; [done|]. simpl.
  destruct b; [specialize (IH (negb (c =? NL))); lia|].
  destruct (is_space c); [specialize (IH false); lia|].
  destruct (_ && _); [specialize (IH true); lia|simpl; lia].
Qed.

Lemma skip_ws_length p : (length (skip_ws p) <= length p)%nat.
Proof. apply skip_from_length. Qed.

(** A character that is not the terminator is there. *)
Lemma peek_cons s : peek s <> 0 -> exists c r, s = c :: r.
Proof. destruct s as [|c r]; [intros []; reflexivity|eauto]. Qed.

Lemma peek_is_cons s x : (peek s =? x) = true -> x <> 0 -> (0 < length s)%nat.
Proof. intros H%Z.eqb_eq Hx. destruct s; [|simpl; lia]. subst. done. Qed.

Lemma peek_nonzero_cons s : (peek s =? 0) = false -> (0 < length s)%nat.
Proof. intros H. destruct s; [discriminate|simpl; lia]. Qed.

Lemma ch_nonzero_cons s a : (peek s =? ch a) = true -> (0 < Ascii.nat_of_ascii a)%nat -> (0 < length s)%nat.
Proof. intros H Ha. apply (peek_is_cons _ _ H). unfold ch. lia. Qed.

Lemma is_alpha_nonzero c : is_alpha c = true -> c <> 0.
Proof. intros H ->. vm_compute in H. discriminate. Qed.

Lemma is_digit_nonzero c : is_digit c = true -> c <> 0.
Proof. intros H ->. vm_compute in H. discriminate. Qed.

Lemma parse_ident_progress p n : (length p <= n)%nat -> within rest2 n (need (parse_ident p)).
Proof.
  intros Hn. unfold parse_ident. pose proof (skip_ws_length p) as Hl.
  destruct (is_alpha (peek (skip_ws p))) eqn:Ha; simpl; [|done].
  destruct (peek_cons (skip_ws p)) as (c & r & E); [by apply is_alpha_nonzero|].
  rewrite E in *. cbn [peek] in Ha. change (peek (c :: r)) with c in Ha.
  assert (is_alnum c = true) as Hc by (unfold is_alnum; by rewrite Ha).
  unfold rest2. simpl. rewrite Hc. simpl in *. rewrite length_drop. lia.
Qed.

Lemma consume_progress p x n : x <> 0 -> (length p <= n)%nat -> within rest1 n (need (consume p x)).
Proof.
  intros Hx Hn. unfold consume. pose proof (skip_ws_length p).
  destruct (peek (skip_ws p) =? x) eqn:E; [|done]. cbn.
  pose proof (peek_is_cons _ _ E Hx). unfold rest1. rewrite length_drop. lia.
Qed.

Lemma consume_length p x r : consume p x = Some r -> (length r <= length p)%nat.
Proof.
  unfold consume. destruct (negb _); [discriminate|]. intros [= <-]. rewrite length_drop.
  pose proof (skip_ws_length p). lia.
Qed.

Lemma parse_uint_from_length v p : (length (snd (parse_uint_from v p)) <= length p)%nat.
Proof.
  revert v. induction p as [|c p IH]; intros v; simpl; [done|].
  destruct (is_digit c); [|done]. etrans; [apply IH|lia].
Qed.

Lemma parse_uint_length p v s : parse_uint p = (v, s) -> (length s <= length p)%nat.
Proof. intros H. pose proof (parse_uint_from_length 0 p) as Hl. unfold parse_uint in H. by rewrite H in Hl. Qed.

Lemma parse_uint_digit p v s : parse_uint p = (v, s) -> is_digit (peek p) = true -> (length s < length p)%nat.
Proof.
  intros H Hd. destruct p as [|c p]; [discriminate|]. change (peek (c :: p)) with c in Hd.
  unfold parse_uint in H. cbn [parse_uint_from] in H. rewrite Hd in H.
  match type of H with parse_uint_from ?v ?q = _ => pose proof (parse_uint_from_length v q) as Hl end.
  rewrite H in Hl. simpl in *. lia.
Qed.

Lemma parse_count_progress s n : (length s <= n)%nat -> within rest2 n (parse_count s).
Proof.
  intros Hn. unfold parse_count, parse_uint.
  pose proof (parse_uint_from_length 0 s). destruct (parse_uint_from 0 s) as [v s']. simpl in H.
  eapply within_bind; [apply (consume_progress s' _ n); [done|lia]|]. done.
Qed.

Lemma string_chars_length room s : (length (snd (string_chars room s)) <= length s)%nat.
Proof.
  revert s. induction room as [|room IH]; intros [|c r]; [done..|]. cbn [string_chars].
  destruct (c =? DQUOTE); [simpl; lia|].
  destruct (c =? ch "\"); [destruct r as [|e r']; [|destruct (e =? ch "n"); [|destruct (e =? ch "r"); [|destruct (e =? ch "t")]]]|].
  all: match goal with
    | IH : _ |- context [string_chars ?n ?x] => specialize (IH x); destruct (string_chars n x) end;
    simpl in *; lia.
Qed.

Lemma string_chars_rest room s str r : string_chars room s = (str, r) -> (length r <= length s)%nat.
Proof. intros H. pose proof (string_chars_length room s) as Hl. by rewrite H in Hl. Qed.

Lemma skip_string_length p : (length (skip_string p) <= length p)%nat.
Proof.
  remember (length p) as n eqn:E. revert p E.
  induction (lt_wf n) as [n _ IH]. intros p ->. destruct p as [|c r]; [done|]. cbn [skip_string].
  destruct (c =? DQUOTE); [simpl; lia|].
  destruct (c =? ch "\"); [destruct r as [|e r']; [simpl; lia|]|].
  - simpl. specialize (IH (length r')). pose proof (IH ltac:(simpl; lia) r' eq_refl). lia.
  - pose proof (IH (length r) ltac:(simpl; lia) r eq_refl). simpl. lia.
Qed.

Lemma drop_length_le (p : list Z) k : (length (drop k p) <= length p)%nat.
Proof. rewrite length_drop. lia. Qed.

Lemma skip_literal_length p : (length (skip_literal p) <= length p)%nat.
Proof.
  unfold skip_literal. pose proof (skip_string_length p). pose proof (drop_length_le (skip_string p) 1).
  destruct (_ =? _); lia.
Qed.

Lemma skip_to_length c p : (length (skip_to c p) <= length p)%nat.
Proof. induction p as [|x p IH]; simpl; [done|]. destruct (x =? c); simpl; lia. Qed.

(** A search that starts at another character consumes it. *)
Lemma skip_to_progress c p : p <> [] -> peek p <> c -> (length (skip_to c p) < length p)%nat.
Proof.
  destruct p as [|x p]; [done|]. intros _ Hx. change (peek (x :: p)) with x in Hx. simpl.
  destruct (Z.eqb_spec x c); [done|]. pose proof (skip_to_length c p). lia.
Qed.

Lemma skip_past_length c p : (length (skip_past c p) <= length (skip_to c p))%nat.
Proof. unfold skip_past. destruct (_ =? _); [apply drop_length_le|done]. Qed.

Lemma comparison_length s a b r : comparison s = Some (a, b, r) -> (length r < length s)%nat.
Proof.
  unfold comparison. destruct s as [|x s]; [discriminate|]. intros H.
  destruct (_ && _); [|destruct (_ || _)]; simplify_eq; rewrite length_drop; simpl; lia.
Qed.

Lemma shift_op_cons s b : shift_op s = Some b -> (0 < length s)%nat.
Proof. destruct s; [discriminate|simpl; lia]. Qed.

(** ** Automation *)

(** Adds the bound on the length of every term of the goal that skips, and
    replaces the lengths of suffixes. *)
Ltac learn_le t H := lazymatch goal with _ : t |- _ => fail | _ => pose proof (H : t) end.

(** A test on the first character that fails on the empty source. *)
Ltac learn_peek H s :=
  lazymatch goal with
  | _ : (0 < length s)%nat |- _ => fail
  | _ => assert (0 < length s)%nat by
           (clear -H; revert H; generalize s; intros [|? ?]; [vm_compute; discriminate|simpl; lia])
  end.
Ltac learn_length t :=
  match t with
  | context [length (skip_ws ?p)] => learn_le (length (skip_ws p) <= length p)%nat (skip_ws_length p)
  | context [length (skip_literal ?p)] =>
      learn_le (length (skip_literal p) <= length p)%nat (skip_literal_length p)
  | context [length (skip_string ?p)] =>
      learn_le (length (skip_string p) <= length p)%nat (skip_string_length p)
  | context [length (skip_to ?c ?p)] =>
      learn_le (length (skip_to c p) <= length p)%nat (skip_to_length c p)
  | context [length (skip_past ?c ?p)] =>
      learn_le (length (skip_past c p) <= length (skip_to c p))%nat (skip_past_length c p)
  | context [length (drop ?k ?p)] =>
      learn_le (length (drop k p) = length p - k)%nat (length_drop p k)
  | string_chars ?n ?p = (?str, ?r) =>
      learn_le (length r <= length p)%nat (string_chars_rest n p str r ltac:(eassumption))
  | parse_uint ?p = (?v, ?s) =>
      learn_le (length s < length p)%nat (parse_uint_digit p v s ltac:(eassumption) ltac:(eassumption))
  | consume ?p ?x = Some ?r =>
      learn_le (length r <= length p)%nat (consume_length p x r ltac:(eassumption))
  | comparison ?s = Some (?a, ?b, ?r) =>
      learn_le (length r < length s)%nat (comparison_length s a b r ltac:(eassumption))
  | shift_op ?s = Some ?b => learn_le (0 < length s)%nat (shift_op_cons s b ltac:(eassumption))
  end.
Ltac lengths :=
  unfold rest1, rest2, rest2', rest3, matched, body_of in *; cbn [fst snd fn_body length] in *;
  repeat match goal with
    | |- ?t => learn_length t
    | H : ?t |- _ => learn_length t
    | H : context [peek ?s] |- _ => learn_peek H s
    end.
Ltac len := lengths; lia.

(** One step of a proof about a parser: conditions are split, and a call is
    composed with the bound it has in the hint database. *)
Create HintDb progress discriminated.
#[export] Hint Resolve ends_need ends_check : progress.
#[export] Hint Extern 1 (_ < _)%nat => len : progress.
#[export] Hint Extern 1 (_ <= _)%nat => len : progress.
Lemma parse_ident_within p : within rest2 (length p) (need (parse_ident p)).
Proof. by apply parse_ident_progress. Qed.
Lemma consume_within p a : (0 < Ascii.nat_of_ascii a)%nat -> within rest1 (length p) (need (consume p (ch a))).
Proof. intros H. apply consume_progress; [unfold ch; lia|done]. Qed.
Lemma expect_within p a : (0 < Ascii.nat_of_ascii a)%nat -> within rest1 (length p) (expect p (ch a)).
Proof. apply consume_within. Qed.
Lemma parse_count_within s : within rest2 (length s) (parse_count s).
Proof. by apply parse_count_progress. Qed.

Lemma packed_attribute_length p : (length (snd (packed_attribute p)) <= length p)%nat.
Proof.
  unfold packed_attribute. destruct (_ && _); [|done].
  pose proof (parse_ident_within (drop 2 p)) as H. destruct (parse_ident (drop 2 p)) as [[attr a]|]; [|done].
  simpl in H. destruct (_ && _); [simpl; pose proof (skip_ws_length a); rewrite ?length_drop in *; unfold rest2 in H; simpl in H; lia|done].
Qed.

Lemma keyword_cons s kw : keyword_at s kw = true -> (0 < String.length kw)%nat -> (0 < length s)%nat.
Proof.
  unfold keyword_at. intros [H _]%andb_prop Hk. destruct s; [|simpl; lia].
  destruct kw; [simpl in Hk; lia|]. discriminate.
Qed.

Lemma within_assoc {A B C} rest (r : res A) (f : A -> res B) (g : B -> res C) n :
  within rest n (let* a := r in let* b := f a in g b) -> within rest n (let* b := (let* a := r in f a) in g b).
Proof. by destruct r. Qed.
Lemma ends_assoc {A B C} (r : res A) (f : A -> res B) (g : B -> res C) :
  ends (let* a := r in let* b := f a in g b) -> ends (let* b := (let* a := r in f a) in g b).
Proof. by destruct r. Qed.

Ltac split_results :=
  repeat match goal with
    | |- forall _, _ => intro
    | a : (_ * _)%type |- _ => destruct a
    end.
Ltac split_ifs := repeat match goal with |- context [if ?b then _ else _] => destruct b eqn:? end.
Ltac step :=
  lazymatch goal with
  | |- within _ _ Fail => exact I
  | |- within _ _ Undef => exact I
  | |- within _ _ (Done _) => cbn [within]; split_ifs; len
  | |- ends Fail => discriminate
  | |- ends Undef => discriminate
  | |- ends (Done _) => discriminate
  | |- within _ _ (if ?b then _ else _) => destruct b eqn:?
  | |- ends (if ?b then _ else _) => destruct b eqn:?
  | |- within _ _ (res_bind (res_bind _ _) _) => apply within_assoc
  | |- ends (res_bind (res_bind _ _) _) => apply ends_assoc
  | |- within _ _ (res_bind (need (parse_ident ?p)) _) =>
      eapply within_bind; [apply (parse_ident_within p)|]
  | |- within _ _ (res_bind (need (consume ?p _)) _) =>
      eapply within_bind; [apply (consume_within p); vm_compute; lia|]
  | |- within _ _ (res_bind (expect ?p _) _) =>
      eapply within_bind; [apply (expect_within p); vm_compute; lia|]
  | |- within _ _ (res_bind (parse_count ?p) _) =>
      eapply within_bind; [apply (parse_count_within p)|]
  | |- within _ _ (res_bind (need ?o) _) =>
      tryif is_var o then (destruct o; cbn [need res_bind]) else (apply within_ends_bind; [apply ends_need|])
  | |- within _ _ (res_bind (check _) _) => apply within_ends_bind; [apply ends_check|]
  | |- within _ _ (res_bind (Done _) _) => cbn [res_bind]
  | |- within _ _ (res_bind Fail _) => exact I
  | |- within _ _ (res_bind (match ?b with _ => _ end) _) => destruct b eqn:?
  | |- within _ _ (match ?b with _ => _ end) => destruct b eqn:?
  | |- ends (let '(_, _) := packed_attribute ?p in _) =>
      pose proof (packed_attribute_length p); destruct (packed_attribute p) as [? ?]
  | |- ends (match ?b with _ => _ end) => destruct b eqn:?
  | |- ends (res_bind _ _) =>
      first [eapply ends_within_bind; [solve [eauto 2 with progress]|] | apply ends_bind; [solve [eauto 2 with progress]|]]
  | |- ends _ => solve [eauto 2 with progress]
  | |- within _ _ (res_bind _ _) =>
      first [eapply within_bind; [solve [eauto 2 with progress]|]
            |apply within_ends_bind; [solve [eauto 2 with progress]|]]
  | |- within _ _ _ => solve [eapply within_mono; [eauto 2 with progress|len]]
  end; split_results; cbv zeta beta iota.
Ltac steps := repeat step.


Lemma parse_type_within fuel sts p :
  (length p < fuel)%nat -> within rest2 (length p) (parse_type fuel sts p).
Proof.
  revert p. induction fuel as [|fuel IH]; intros p Hf; [lia|]. cbn [parse_type]. cbv zeta.
  steps. 
Qed.
#[export] Hint Resolve parse_type_within : progress.

Lemma scan_fields_within fuel sts st p :
  (length p < fuel)%nat -> within rest2 (Datatypes.S (length p)) (scan_fields fuel sts st p).
Proof.
  revert st p. induction fuel as [|fuel IH]; intros st p Hf; [lia|]. cbn [scan_fields]. cbv zeta.
  steps.
Qed.
#[export] Hint Resolve scan_fields_within : progress.

Lemma scan_struct_within fuel sts packed p :
  (length p < fuel)%nat -> within rest2 (length p) (scan_struct fuel sts packed p).
Proof. intros Hf. unfold scan_struct. cbv zeta. steps. Qed.
#[export] Hint Resolve scan_struct_within : progress.

Lemma scan_structs_ends fuel sts p : (length p + 1 < fuel)%nat -> ends (scan_structs fuel sts p).
Proof.
  revert sts p. induction fuel as [|fuel IH]; intros sts p Hf; [lia|]. cbn [scan_structs]. cbv zeta.
  steps.
Qed.

(** ** Functions *)

Lemma find_matching_brace_within fuel depth p :
  (length p + 1 < fuel)%nat -> within matched (Datatypes.S (length p)) (find_matching_brace fuel depth p).
Proof.
  revert depth p. induction fuel as [|fuel IH]; intros depth p Hf; [lia|]. cbn [find_matching_brace]. cbv zeta.
  step; [step|]. destruct (_ && _) eqn:Hc.
  { apply andb_prop in Hc as [Hc _]. assert (length (skip_to NL p) < length p)%nat; [|steps].
    apply skip_to_progress; [by intros ->|]. apply Z.eqb_eq in Hc as ->. done. }
  set (q := if peek p =? DQUOTE then _ else _). assert (length q <= length p)%nat by (subst q; split_ifs; len).
  clearbody q. steps.
Qed.
#[export] Hint Resolve find_matching_brace_within : progress.

Lemma scan_attributes_within fuel a p :
  (length p < fuel)%nat -> within rest2 (Datatypes.S (length p)) (scan_attributes fuel a p).
Proof.
  revert a p. induction fuel as [|fuel IH]; intros a p Hf; [lia|]. cbn [scan_attributes]. cbv zeta.
  destruct (negb _) eqn:Hc; [step|]. apply negb_false_iff, andb_prop in Hc as [Hc _].
  assert (length (skip_to (ch "]") p) < length p)%nat.
  { apply skip_to_progress; [by intros ->|]. apply Z.eqb_eq in Hc as ->. done. }
  apply within_ends_bind; [destruct (parse_ident _) as [[? ?]|]; [apply ends_need|discriminate]|].
  intros a'. steps.
Qed.
#[export] Hint Resolve scan_attributes_within : progress.

Lemma scan_params_within fuel sts params p :
  (length p < fuel)%nat -> within rest2 (length p) (scan_params fuel sts params p).
Proof.
  revert params p. induction fuel as [|fuel IH]; intros params p Hf; [lia|]. cbn [scan_params]. cbv zeta.
  steps.
Qed.
#[export] Hint Resolve scan_params_within : progress.

Lemma scan_function_within fuel sts a e p :
  (length p + 1 < fuel)%nat -> within rest2 (length p) (scan_function fuel sts a e p).
Proof. intros Hf. unfold scan_function. cbv zeta. steps. Qed.
#[export] Hint Resolve scan_function_within : progress.

Lemma scan_function_body fuel sts a e p :
  (length p + 1 < fuel)%nat -> within body_of (Datatypes.S (length p)) (scan_function fuel sts a e p).
Proof. intros Hf. unfold scan_function. cbv zeta. steps. Qed.

(** ** The table of functions *)

(** The functions are found, and no body is longer than [n]. *)
Definition bodies (n : nat) (fns : list Function) : Prop := Forall (fun f => (length (fn_body f) <= n)%nat) fns.
Definition bodies_within (n : nat) (r : res (list Function)) : Prop :=
  match r with Done fns => bodies n fns | Timeout => False | Fail | Undef => True end.

Lemma scan_function_both fuel sts a e p n :
  (length p + 1 < fuel)%nat -> (length p <= n)%nat ->
  match scan_function fuel sts a e p with
  | Done (f, p') => (length (fn_body f) <= n)%nat /\ (length p' < length p)%nat
  | Timeout => False
  | Fail | Undef => True
  end.
Proof.
  intros Hf Hn. pose proof (scan_function_within fuel sts a e p Hf) as H1.
  pose proof (scan_function_body fuel sts a e p Hf) as H2. destruct (scan_function _ _ _ _ _) as [[f p']| | |]; [|done..].
  unfold within, body_of, rest2 in *. simpl in *. lia.
Qed.

Lemma keyword_skip s a kw c :
  keyword_at s (String.String a kw) = true -> ch a <> c -> (length (skip_to c s) < length s)%nat.
Proof.
  intros [H _]%andb_prop Hc. apply starts_with_spec in H as [r ->]. apply skip_to_progress; [done|exact Hc].
Qed.

Lemma scan_loop_bodies fuel sts fns p n :
  (length p + 1 < fuel)%nat -> (length p <= n)%nat -> bodies n fns -> bodies_within n (scan_loop fuel sts fns p).
Proof.
  revert fns p. induction fuel as [|fuel IH]; intros fns p Hf Hn Hb; [lia|]. cbn [scan_loop]. cbv zeta.
  destruct (peek (skip_ws p) =? 0) eqn:H0; [done|].
  destruct (peek (skip_ws p) =? DQUOTE) eqn:Hq; [apply IH; [len..|done]|].
  destruct (keyword_at (skip_ws p) "import") eqn:Hi.
  { assert (length (skip_to (ch ";") (skip_ws p)) < length (skip_ws p))%nat; [|apply IH; [len..|done]].
    apply (keyword_skip _ _ _ _ Hi). done. }
  match goal with |- context [scan_attributes ?f ?a ?p] => pose proof (scan_attributes_within f a p) as Ha end.
  destruct (scan_attributes _ _ _) as [[a q]| | |]; [|try done; apply Ha; len..].
  assert (length q <= length (skip_ws p))%nat as Hq' by (specialize (Ha ltac:(len)); simpl in Ha; len). cbn [res_bind].
  destruct (keyword_at q "struct") eqn:Hs.
  { pose proof (keyword_skip _ _ _ (ch "}") Hs ltac:(done)). apply IH; [split_ifs; len..|done]. }
  set (q' := if keyword_at q "extern" then _ else _).
  assert (length q' <= length q)%nat as Hq'' by (subst q'; split_ifs; len). clearbody q'.
  destruct (negb _); [destruct q'; [done|apply IH; [len..|done]]|]. destruct (MAX_FUNCS <=? _); [done|].
  match goal with |- context [scan_function ?f ?s ?a ?e ?p] => pose proof (scan_function_both f s a e p n) as Hfn end.
  destruct (scan_function _ _ _ _ _) as [[f r]| | |]; [|try done; apply Hfn; len..].
  destruct Hfn as [Hbody Hr]; [len..|]. cbn [res_bind]. apply IH; [len..|].
  apply Forall_app; split; [done|]. by apply Forall_singleton.
Qed.

Lemma scan_functions_bodies fuel kmod sts p :
  (length p + 1 < fuel)%nat -> bodies_within (length p) (scan_functions fuel kmod sts p).
Proof.
  intros Hf. unfold scan_functions. pose proof (scan_loop_bodies fuel sts [] p (length p) Hf (le_n _) (Forall_nil_2 _)) as H.
  destruct (scan_loop _ _ _ _); try done. cbn [res_bind]. by destruct (find_func _ _).
Qed.

(** ** Expressions *)

Lemma parse_layout_within fuel name s c r :
  parse_layout fuel name s c = Some r -> (length s < fuel)%nat -> within rest2 (length s) r.
Proof.
  unfold parse_layout. intros H Hf.
  destruct (name_is name "sizeof" || name_is name "alignof"); [injection H as <-|
    destruct (name_is name "offsetof"); [injection H as <-|discriminate]]; steps.
Qed.

Lemma emit_field_address_within v s c : within rest3 (length s) (emit_field_address v s c).
Proof. unfold emit_field_address. cbv zeta. steps. Qed.

Lemma emit_call_ends i fn argc c : ends (emit_call i fn argc c).
Proof.
  unfold emit_call. cbv zeta. steps.
Qed.
#[export] Hint Resolve parse_layout_within emit_field_address_within emit_call_ends : progress.

(** Enough fuel for every routine of the expression compiler. *)
Record expr_total (fuel : nat) : Prop := mk_total {
  tot_expr p c : (10 * length p + 9 <= fuel)%nat -> within rest3 (length p) (parse_expr_t fuel p c);
  tot_bitor p c : (10 * length p + 8 <= fuel)%nat -> within rest3 (length p) (parse_bitor_t fuel p c);
  tot_bitor_loop t p c : (10 * length p + 1 <= fuel)%nat -> within rest3 (Datatypes.S (length p)) (bitor_loop fuel t p c);
  tot_bitand p c : (10 * length p + 7 <= fuel)%nat -> within rest3 (length p) (parse_bitand_t fuel p c);
  tot_bitand_loop t p c : (10 * length p + 1 <= fuel)%nat -> within rest3 (Datatypes.S (length p)) (bitand_loop fuel t p c);
  tot_shift p c : (10 * length p + 6 <= fuel)%nat -> within rest3 (length p) (parse_shift_t fuel p c);
  tot_shift_loop t p c : (10 * length p + 1 <= fuel)%nat -> within rest3 (Datatypes.S (length p)) (shift_loop fuel t p c);
  tot_add p c : (10 * length p + 5 <= fuel)%nat -> within rest3 (length p) (parse_add_t fuel p c);
  tot_add_loop t p c : (10 * length p + 1 <= fuel)%nat -> within rest3 (Datatypes.S (length p)) (add_loop fuel t p c);
  tot_mul p c : (10 * length p + 4 <= fuel)%nat -> within rest3 (length p) (parse_mul_t fuel p c);
  tot_mul_loop t p c : (10 * length p + 1 <= fuel)%nat -> within rest3 (Datatypes.S (length p)) (mul_loop fuel t p c);
  tot_unary p c : (10 * length p + 3 <= fuel)%nat -> within rest3 (length p) (parse_unary_t fuel p c);
  tot_primary p c : (10 * length p + 2 <= fuel)%nat -> within rest3 (length p) (parse_primary_t fuel p c);
  tot_args n p c : (10 * length p + 10 <= fuel)%nat -> within rest3 (length p) (args_loop fuel n p c);
  tot_index v p c : (10 * length p + 1 <= fuel)%nat -> within rest2' (length p) (emit_index_address fuel v p c)
}.

Lemma expr_total_all fuel : expr_total fuel.
Proof.
  induction fuel as [|fuel IH]; [constructor; intros; lia|].
  destruct IH. constructor; intros; cbn [parse_expr_t parse_bitor_t bitor_loop parse_bitand_t bitand_loop parse_shift_t
    shift_loop parse_add_t add_loop parse_mul_t mul_loop parse_unary_t parse_primary_t args_loop emit_index_address];
    cbv zeta; steps.
Qed.

Lemma parse_expr_t_within fuel p c :
  (10 * length p + 9 <= fuel)%nat -> within rest3 (length p) (parse_expr_t fuel p c).
Proof. apply tot_expr, expr_total_all. Qed.
Lemma parse_expr_within fuel p c :
  (10 * length p + 9 <= fuel)%nat -> within rest2' (length p) (parse_expr fuel p c).
Proof. intros H. unfold parse_expr. eapply within_bind; [by apply parse_expr_t_within|]. split_results. exact H0. Qed.
Lemma emit_index_address_within fuel v p c :
  (10 * length p + 1 <= fuel)%nat -> within rest2' (length p) (emit_index_address fuel v p c).
Proof. apply tot_index, expr_total_all. Qed.
#[export] Hint Resolve parse_expr_t_within parse_expr_within emit_index_address_within : progress.

(** ** Statements *)

Lemma patch32_ends a v c : ends (patch32 a v c).
Proof. unfold patch32. cbv zeta. steps. Qed.
Lemma patch_rel_ends p t c : ends (patch_rel p t c).
Proof. apply patch32_ends. Qed.
#[export] Hint Resolve patch32_ends patch_rel_ends : progress.

Lemma patch_all_ends ps t c : ends (patch_all ps t c).
Proof. revert c. induction ps as [|p ps IH]; intros c; cbn [patch_all]; steps. Qed.
#[export] Hint Resolve patch_all_ends : progress.

Lemma patch_loop_breaks_ends t c : ends (patch_loop_breaks t c).
Proof. unfold patch_loop_breaks. steps. Qed.
Lemma push_loop_ends c : ends (push_loop c).
Proof. unfold push_loop. steps. Qed.
Lemma add_break_patch_ends p c : ends (add_break_patch p c).
Proof. unfold add_break_patch. steps. Qed.
Lemma emit_puti_rax_ends c : ends (emit_puti_rax c).
Proof. unfold emit_puti_rax. cbv zeta. steps. Qed.
#[export] Hint Resolve patch_loop_breaks_ends push_loop_ends add_break_patch_ends emit_puti_rax_ends : progress.

Lemma compile_store_within fuel s c :
  (10 * length s + 9 <= fuel)%nat -> within rest2' (length s) (compile_store fuel s c).
Proof. intros H. unfold compile_store. cbv zeta. steps. Qed.
Lemma compile_let_within fuel s c :
  (10 * length s + 9 <= fuel)%nat -> within rest2' (length s) (compile_let fuel s c).
Proof. intros H. unfold compile_let. cbv zeta. steps. Qed.
Lemma compile_break_within s c : within rest2' (length s) (compile_break s c).
Proof. unfold compile_break. cbv zeta. steps. Qed.
Lemma compile_return_within fuel s c :
  (10 * length s + 9 <= fuel)%nat -> within rest2' (length s) (compile_return fuel s c).
Proof. intros H. unfold compile_return. cbv zeta. steps. Qed.
Lemma compile_print_within s c : within rest2' (length s) (compile_print s c).
Proof. unfold compile_print. cbv zeta. steps. Qed.
Lemma compile_puti_within fuel s c :
  (10 * length s + 9 <= fuel)%nat -> within rest2' (length s) (compile_puti fuel s c).
Proof. intros H. unfold compile_puti. steps. Qed.
Lemma compile_assign_within fuel s c :
  (10 * length s + 9 <= fuel)%nat -> within rest2' (length s) (compile_assign fuel s c).
Proof. intros H. unfold compile_assign. cbv zeta. steps. Qed.
Lemma compile_call_within fuel s c :
  (10 * length s + 9 <= fuel)%nat -> within rest2' (length s) (compile_call fuel s c).
Proof. intros H. unfold compile_call. steps. Qed.
#[export] Hint Resolve compile_store_within compile_let_within compile_break_within compile_return_within
  compile_print_within compile_puti_within compile_assign_within compile_call_within : progress.

(** A statement that is not empty, and a block, advance. *)
Record stmt_total (fuel : nat) : Prop := mk_stmt_total {
  tot_stmt p c : (10 * length p + 10 <= fuel)%nat ->
    (peek (skip_ws p) =? 0) || (peek (skip_ws p) =? ch "}") = false ->
    within rest2' (length p) (compile_statement fuel p c);
  tot_block p c : (10 * length p + 11 <= fuel)%nat -> within rest2' (length p) (compile_block fuel p c)
}.

Lemma keyword_nonempty s a kw : keyword_at s (String.String a kw) = true -> (0 < length s)%nat.
Proof. intros H. apply (keyword_cons _ _ H). simpl. lia. Qed.

Lemma stmt_total_all fuel : stmt_total fuel.
Proof.
  induction fuel as [|fuel IH]; [constructor; intros; lia|]. destruct IH. constructor; intros.
  - cbn [compile_statement]. cbv zeta. rewrite H0.
    assert (0 < length (skip_ws p))%nat as Hp.
    { apply peek_nonzero_cons. by destruct (_ =? 0). }
    clear H0. steps.
  - cbn [compile_block]. cbv zeta. step; [step|]. step; [step|].
    destruct (peek (skip_ws p) =? 0) eqn:H0.
    + destruct fuel as [|fuel]; [lia|]. cbn [compile_statement]. cbv zeta. rewrite skip_idemp, H0.
      cbn [orb res_bind compile_block]. by rewrite H0.
    + eapply within_bind; [apply tot_stmt0; [len|by rewrite skip_idemp, H0, Heqb0]|]. split_results. steps.
Qed.

Lemma compile_block_ends fuel p c : (10 * length p + 11 <= fuel)%nat -> ends (compile_block fuel p c).
Proof. intros H. eapply within_ends, tot_block, H. apply stmt_total_all. Qed.
#[export] Hint Resolve compile_block_ends : progress.

(** ** Programs *)

Lemma store_params_ends i params c : ends (store_params i params c).
Proof.
  revert i c. induction params as [|[name t] params IH]; intros i c; cbn [store_params]; [discriminate|].
  apply ends_bind; [apply ends_need|]. intros [v c']. apply IH.
Qed.
#[export] Hint Resolve store_params_ends : progress.

Lemma compile_function_ends fuel i fn c :
  (10 * length (fn_body fn) + 11 <= fuel)%nat -> ends (compile_function fuel i fn c).
Proof. intros H. unfold compile_function. cbv zeta. steps. Qed.

Lemma compile_functions_ends fuel n i fns c :
  bodies n fns -> (10 * n + 11 <= fuel)%nat -> ends (compile_functions fuel i fns c).
Proof.
  intros Hb Hf. revert i c. induction Hb as [|f fns Hn _ IH]; intros i c; cbn [compile_functions]; [discriminate|].
  apply ends_bind; [|intros; apply IH]. destruct (fn_extern f); [discriminate|]. apply compile_function_ends. lia.
Qed.

Lemma patch_calls_ends l c : ends (patch_calls l c).
Proof. revert c. induction l as [|[p f] l IH]; intros c; cbn [patch_calls]; steps. Qed.
#[export] Hint Resolve patch_calls_ends : progress.

Lemma compile_source_ends fuel kmod src : (10 * length src + 11 <= fuel)%nat -> ends (compile_source fuel kmod src).
Proof.
  intros Hf. unfold compile_source. apply ends_bind; [apply scan_structs_ends; lia|]. intros sts.
  pose proof (scan_functions_bodies fuel kmod sts src ltac:(lia)) as Hb.
  destruct (scan_functions _ _ _ _) as [fns| | |]; try done. cbn [res_bind]. cbv zeta.
  apply ends_bind; [apply ends_check|]. intros _.
  destruct (if kmod then _ else _) as [main_patch c]. apply ends_bind; [by eapply compile_functions_ends|].
  intros c'. apply ends_bind; [|intros; apply patch_calls_ends].
  destruct kmod; [discriminate|]. steps.
Qed.

(** ** The command *)

Lemma patch_data_loop_ends l base size c : ends (patch_data_loop l base size c).
Proof. revert c. induction l as [|[p d] l IH]; intros c; cbn [patch_data_loop]; cbv zeta; steps. Qed.
#[export] Hint Resolve patch_data_loop_ends : progress.

Lemma build_image_ends c : ends (build_image c).
Proof. unfold build_image, patch_data_refs, fill_image. cbv zeta. steps. Qed.

Section Files.
Context {F : Type} (sys_open : list Z -> F -> Z * F) (sys_close : Z -> F -> F).
Context (sys_file_read : Z -> Z -> F -> Z * list Z * F).
(** A read that reports [n] bytes has stored [n] bytes. *)
Hypothesis read_count : forall fd want f n bs f',
  sys_file_read fd want f = (n, bs, f') -> 0 <= n -> Z.of_nat (length bs) = n.

Lemma read_file_loop_ends fuel fd cap buf f :
  cap <= Z.of_nat (length buf) + Z.of_nat fuel -> Z.of_nat (length buf) < cap ->
  ends (read_file_loop sys_close sys_file_read fuel fd cap buf f).
Proof.
  revert buf f. induction fuel as [|fuel IH]; intros buf f Hc Hb; [lia|]. cbn [read_file_loop]. cbv zeta.
  destruct (sys_file_read _ _ _) as [[n bs] f'] eqn:E. destruct (n <? 0) eqn:Hn; [discriminate|].
  destruct (n =? 0) eqn:H0; [discriminate|]. destruct (cap <=? _) eqn:Hcap; [discriminate|].
  pose proof (read_count _ _ _ _ _ _ E ltac:(lia)). rewrite length_app in Hcap.
  apply Z.eqb_neq in H0. apply Z.leb_gt in Hcap. apply IH; rewrite length_app; lia.
Qed.

Lemma read_file_into_ends path cap f :
  0 < cap -> ends (read_file_into sys_open sys_close sys_file_read path cap f).
Proof.
  intros Hc. unfold read_file_into. destruct (sys_open path f) as [fd f']. destruct (fd <? 0); [discriminate|].
  apply read_file_loop_ends; simpl; lia.
Qed.

Lemma import_path_length room p : (length (snd (import_path room p)) <= length p)%nat.
Proof.
  revert p. induction room as [|room IH]; intros [|c p]; [done..|]. cbn [import_path].
  destruct (c =? DQUOTE); [done|]. specialize (IH p). destruct (import_path room p). simpl in *. lia.
Qed.

Lemma expand_loop_ends fuel full cap p dst f :
  (length p < fuel)%nat -> ends (expand_loop sys_open sys_close sys_file_read fuel full cap p dst f).
Proof.
  revert p dst f. induction fuel as [|fuel IH]; intros p dst f Hf; [lia|]. cbn [expand_loop]. cbv zeta.
  destruct (peek p =? 0) eqn:H0; [discriminate|].
  destruct (keyword_at (skip_ws p) "import") eqn:Hk; cbn [negb].
  - pose proof (keyword_nonempty _ _ _ Hk). destruct (negb _); [discriminate|].
    match goal with |- context [import_path ?r ?q] => pose proof (import_path_length r q) as Hl; destruct (import_path r q) as [imp s] end.
    destruct (negb _); [discriminate|]. apply ends_bind; [by apply read_file_into_ends|]. intros [imported f'].
    apply ends_bind; [apply ends_need|]. intros text. apply IH. cbn [snd] in Hl. split_ifs; len.
  - pose proof (skip_ws_length p). destruct (skip_ws p) as [|c r]; [destruct full; discriminate|].
    apply IH. simpl in *. lia.
Qed.

(** C23: the compiler always ends: whatever its arguments and the files are, the
    recursion and the loops of the import expansion, the lexer, the expression,
    statement and function compilers and the image builder end within fuel in
    proportion to the length of the source, provided that a read which reports
    [n] bytes has stored [n] bytes. *)
Theorem compile_command_total args f :
  compile_command sys_open sys_close sys_file_read args f <> Timeout.
Proof.
  unfold compile_command. destruct (split_args args) as [path run_args]. destruct (peek path =? 0); [discriminate|].
  apply ends_bind; [by apply read_file_into_ends|]. intros [src f1].
  apply ends_bind; [apply ends_need|]. intros src'.
  apply ends_bind; [apply expand_loop_ends; lia|]. intros [expanded f2].
  apply ends_bind; [apply compile_source_ends; unfold source_fuel; lia|]. intros c.
  apply ends_bind; [apply build_image_ends|]. discriminate.
Qed.
End Files.

(** A file system with one file, read in one piece. *)
Definition demo_source : list Z :=
  bytes_of "fn main() -> int { let i: int = 3; while (i > 0) { i = i - 1; } return i + 7; }"%string.
Definition demo_open (path : list Z) (f : bool) : Z * bool := (3, f).
Definition demo_close (fd : Z) (f : bool) : bool := f.
Definition demo_read (fd want : Z) (f : bool) : Z * list Z * bool :=
  if f then (0, [], f) else (Z.of_nat (length demo_source), demo_source, true).

Lemma compile_command_total_witness :
  compile_command demo_open demo_close demo_read (bytes_of "/disk/a.ore x y"%string) false <> Timeout.
Proof.
  apply (compile_command_total demo_open demo_close demo_read).
  intros fd want f n bs f' E Hn. unfold demo_read in E. destruct f; simplify_eq; reflexivity.
Defined.

(** The same command does produce an image and its arguments. *)
Example compile_command_demo :
  match compile_command demo_open demo_close demo_read (bytes_of "/disk/a.ore x y"%string) false with
  | Done (image, run_args, _) => Some (length image, run_args)
  | _ => None
  end = Some (Z.to_nat (56 + 4096), bytes_of "x y"%string).
Proof. vm_compute. reflexivity. Qed.

(** A source that ends in [extern]: the scan steps over the terminator. *)
Example extern_at_end : scan_functions 100 false [] (bytes_of "fn main() { } extern"%string) = Undef.
Proof. vm_compute. reflexivity. Qed.
