(* ===== verification/OrecHost.v ===== *)
(** The OreLang compiler on the build host (user/orec.c under OREC_HOST).

    The host build reads sources from a directory that stands for the disk, writes
    the image to a file, and also builds kernel modules.  The POSIX calls are
    parameters.  [FileCalls] says what both builds rely on when they read files; the
    theorem is that the two builds make the same image of the same files. *)
From stdpp Require Import base numbers list.
From Stdlib Require Import ZArith Lia.
From Stdlib Require Import(notations) Ascii String.
From S2P Require Import Prelude Memory Cstring Block OrecLex OrecGen Orec OrecTotal.

(** ** The host build *)

Definition HOST_PATH_SIZE : Z := 256.

(** The file on the host for a path: the root directory ([ORE_ROOT], [None] when it is
    not set), a separator, and the path without its leading separator and "disk/". *)
Definition host_path (root : option (list Z)) (path : list Z) : list Z :=
  let root := match root with Some (c :: r) => c :: r | _ => [ch "."] end in
  let room s := Z.to_nat (HOST_PATH_SIZE - 1 - Z.of_nat (length s)) in
  let p := take (room []) root in
  let p := if negb (Nat.eqb (length p) 0) && negb (List.last p 0 =? ch "/") then p ++ take (room p) [ch "/"] else p in
  let rel := if peek path =? ch "/" then drop 1 path else path in
  let rel := if bool_decide (take 5 rel = bytes_of "disk/"%string) then drop 5 rel else rel in
  p ++ take (room p) rel.

Section Host.
Context {F : Type} (open : list Z -> F -> Z * F) (close : Z -> F -> F) (read : Z -> Z -> F -> Z * list Z * F).
(** [open] with O_WRONLY | O_CREAT | O_TRUNC, and [write], which may store less. *)
Context (create : list Z -> F -> Z * F) (write : Z -> list Z -> F -> Z * F).
(** The variables ORE_ROOT and ORE_DUMP_EXPANDED. *)
Context (ore_root ore_dump : option (list Z)).

(** [while (total + 1 < cap)] *)
Fixpoint host_read_loop (fuel : nat) (fd cap : Z) (buf : list Z) (f : F) : res (option (list Z) * F) :=
  let total := Z.of_nat (length buf) in
  if total + 1 <? cap then
    match fuel with
    | O => Timeout
    | S fuel =>
        let '(n, bs, f) := read fd (cap - 1 - total) f in
        if n <? 0 then Done (None, close fd f)
        else if n =? 0 then Done (Some buf, close fd f)
        else host_read_loop fuel fd cap (buf ++ bs) f
    end
  else Done (Some buf, close fd f).

Definition host_open (path : list Z) (f : F) : Z * F := open (host_path ore_root path) f.

Definition host_read_file_into (path : list Z) (cap : Z) (f : F) : res (option (list Z) * F) :=
  let '(fd, f) := host_open path f in
  if fd <? 0 then Done (None, f) else host_read_loop (Z.to_nat cap) fd cap [] f.

(** Writing the image: every turn stores at least one byte. *)
Fixpoint host_write_loop (fuel : nat) (fd : Z) (bs : list Z) (f : F) : res F :=
  match bs with
  | [] => Done (close fd f)
  | _ =>
      match fuel with
      | O => Timeout
      | S fuel =>
          let '(n, f) := write fd bs f in
          if n <=? 0 then Fail else host_write_loop fuel fd (drop (Z.to_nat n) bs) f
      end
  end.

Definition dump_expanded (expanded : list Z) (f : F) : F :=
  match ore_dump with
  | Some (c :: r) =>
      let '(fd, f) := create (c :: r) f in
      if 0 <=? fd then close fd (snd (write fd expanded f)) else f
  | _ => f
  end.

(** The image of a module: its entry is module_init. *)
Definition host_kmod (path : list Z) (c : cstate) : res (list Z) :=
  let* (entry_fn, fn) := need (find_func (funcs c) (bytes_of "module_init"%string)) in
  let* _ := check (negb (fn_extern fn)) in
  build_kmod_image entry_fn path c.

(** [main]; [Fail] is the exit code 1.  The imports are those of [Orec], which reads
    files with [read_file_into]: [host_read_file_into_same] below. *)
Definition host_main (argv : list (list Z)) (f : F) : res F :=
  if (Nat.ltb (length argv) 3) then Fail else
  let kmod := name_is (nth 1 argv []) "--kmod" in
  let argi := if kmod then 2%nat else 1%nat in
  if Nat.ltb (length argv - argi) 2 then Fail else
  let path := nth argi argv [] in
  let* (src, f) := host_read_file_into path SOURCE_SIZE f in
  let* src := need src in
  let* (expanded, f) := expand_imports host_open close read (until_nul src) f in
  let expanded := until_nul expanded in
  let f := dump_expanded expanded f in
  let* c := compile_source (source_fuel expanded) kmod expanded in
  let* image := if kmod then host_kmod path c else build_image c in
  let '(fd, f) := create (nth (argi + 1) argv []) f in
  if fd <? 0 then Fail else host_write_loop (length image) fd image f.

(** The two loops that read a file differ only in where they test for a full buffer. *)
Lemma host_read_loop_same fuel fd cap buf f :
  Z.of_nat (length buf) + 1 < cap ->
  host_read_loop fuel fd cap buf f = read_file_loop close read fuel fd cap buf f.
Proof.
  revert buf f. induction fuel as [|fuel IH]; intros buf f Hc; cbn [host_read_loop read_file_loop]; cbv zeta;
    rewrite (proj2 (Z.ltb_lt _ _) Hc); [done|].
  destruct (read _ _ _) as [[n bs] f']. destruct (n <? 0); [done|]. destruct (n =? 0); [done|].
  destruct (Z.leb_spec cap (Z.of_nat (length (buf ++ bs)) + 1)); [|by apply IH].
  destruct fuel; cbn [host_read_loop]; cbv zeta; rewrite (proj2 (Z.ltb_ge _ _)); done || lia.
Qed.

Lemma host_read_file_into_same path cap f :
  1 < cap -> host_read_file_into path cap f = read_file_into host_open close read path cap f.
Proof.
  intros Hc. unfold host_read_file_into, read_file_into. destruct (host_open path f) as [fd f']. destruct (fd <? 0); [done|].
  by apply host_read_loop_same.
Qed.
End Host.

(** ** What the builds rely on *)

(** The files a build reads do not change while it runs; a read delivers at least one
    byte, maybe fewer than asked for, until the end of the file. *)
Class FileCalls {F : Type} (open : list Z -> F -> Z * F) (close : Z -> F -> F) (read : Z -> Z -> F -> Z * list Z * F) := {
  fc_ok : F -> Prop;
  fc_file : list Z -> option (list Z);
  fc_left : Z -> list Z -> F -> Prop;
  fc_open p f : fc_ok f -> exists fd f', open p f = (fd, f') /\ fc_ok f' /\
    match fc_file p with None => fd < 0 | Some c => 0 <= fd /\ fc_left fd c f' end;
  fc_read fd want c f : fc_ok f -> fc_left fd c f -> 0 < want ->
    exists n f', read fd want f = (Z.of_nat n, take n c, f') /\ (n <= length c)%nat /\ Z.of_nat n <= want /\
      (n = 0%nat -> c = []) /\ fc_ok f' /\ fc_left fd (drop n c) f';
  fc_close fd c f : fc_ok f -> fc_left fd c f -> fc_ok (close fd f)
}.

(** Files that are written: created empty, and a write appends what it reports. *)
Class OutputCalls {F : Type} (close : Z -> F -> F) (create : list Z -> F -> Z * F) (write : Z -> list Z -> F -> Z * F) := {
  oc_writable : list Z -> Prop;
  oc_stored : F -> list Z -> option (list Z);
  oc_to : Z -> list Z -> F -> Prop;
  oc_create p f : oc_writable p -> exists fd f', create p f = (fd, f') /\ 0 <= fd /\ oc_to fd p f' /\ oc_stored f' p = Some [];
  oc_write fd p c bs f : oc_to fd p f -> oc_stored f p = Some c -> bs <> [] ->
    exists n f', write fd bs f = (Z.of_nat n, f') /\ (0 < n <= length bs)%nat /\ oc_to fd p f' /\ oc_stored f' p = Some (c ++ take n bs);
  oc_close fd p c f : oc_to fd p f -> oc_stored f p = Some c -> oc_stored (close fd f) p = Some c
}.

(** ** Reading *)

Section Reads.
Context {F : Type} {open : list Z -> F -> Z * F} {close : Z -> F -> F} {read : Z -> Z -> F -> Z * list Z * F}.
Context `{!FileCalls open close read}.

Lemma read_loop_delivers fuel fd cap buf c f :
  fc_ok f -> fc_left fd c f -> Z.of_nat (length buf) + 1 < cap -> cap <= Z.of_nat (length buf) + 1 + Z.of_nat fuel ->
  exists f', read_file_loop close read fuel fd cap buf f = Done (Some (buf ++ take (Z.to_nat (cap - 1 - Z.of_nat (length buf))) c), f') /\ fc_ok f'.
Proof.
  revert buf c f. induction fuel as [|fuel IH]; intros buf c f Hok Hl Hc Hf; [lia|]. cbn [read_file_loop]. cbv zeta.
  destruct (fc_read fd (cap - 1 - Z.of_nat (length buf)) c f Hok Hl) as (n & f' & E & Hn & Hw & H0 & Hok' & Hl'); [lia|].
  rewrite E. rewrite (proj2 (Z.ltb_ge _ _)) by lia. destruct (Z.eqb_spec (Z.of_nat n) 0) as [Ez|Ez].
  { exists (close fd f'). split; [|by eapply fc_close]. rewrite H0 by lia. by rewrite take_nil, app_nil_r. }
  assert (length (take n c) = n) as El by (rewrite length_take; lia).
  destruct (Z.leb_spec cap (Z.of_nat (length (buf ++ take n c)) + 1)) as [Hfull|Hfull]; rewrite length_app, El in Hfull.
  - exists (close fd f'). split; [|by eapply fc_close]. by replace (Z.to_nat (cap - 1 - Z.of_nat (length buf))) with n by lia.
  - destruct (IH (buf ++ take n c) (drop n c) f') as (f2 & E2 & Hok2); [done..|rewrite length_app, El; lia|rewrite length_app, El; lia|].
    exists f2. split; [|done]. rewrite E2. do 3 f_equal. rewrite <- app_assoc. f_equal. rewrite length_app, El.
    rewrite take_take_drop. f_equal. lia.
Qed.

Lemma read_into_delivers p cap f :
  1 < cap -> fc_ok f ->
  exists f', read_file_into open close read p cap f = Done (take (Z.to_nat (cap - 1)) <$> fc_file p, f') /\ fc_ok f'.
Proof.
  intros Hc Hok. unfold read_file_into. destruct (fc_open p f Hok) as (fd & f' & E & Hok' & Hf). rewrite E.
  destruct (fc_file p) as [c|]; [|rewrite (proj2 (Z.ltb_lt _ _)) by done; by exists f'].
  destruct Hf as [Hfd Hl]. rewrite (proj2 (Z.ltb_ge _ _)) by lia.
  destruct (read_loop_delivers (Z.to_nat cap) fd cap [] c f') as (f2 & E2 & Hok2); [done..|simpl; lia|simpl; lia|].
  exists f2. split; [|done]. rewrite E2. cbn [length]. by rewrite app_nil_l, Z.sub_0_r.
Qed.
End Reads.

(** The imports of a source, in their order. *)
Fixpoint imports (fuel : nat) (p : list Z) : list (list Z) :=
  match fuel with
  | O => []
  | S fuel =>
      if peek p =? 0 then [] else
      let s := skip_ws p in
      if negb (keyword_at s "import") then imports fuel (drop 1 s) else
      let '(imp, s) := import_path 127 (drop 1 (skip_ws (drop 6 s))) in
      let s := skip_ws (drop 1 s) in
      imp :: imports fuel (if peek s =? ch ";" then drop 1 s else s)
  end.

(** The paths that the compilation of a path reads, for the text of the file there: the
    path itself, and the files that the text imports. *)
Definition paths_read (path : list Z) (text : option (list Z)) : list (list Z) :=
  path :: match text with
          | Some c => let src := until_nul (take (Z.to_nat (SOURCE_SIZE - 1)) c) in map import_file (imports (S (length src)) src)
          | None => []
          end.

(** ** Two builds *)

Section Agree.
Context {F : Type} {open : list Z -> F -> Z * F} {close : Z -> F -> F} {read : Z -> Z -> F -> Z * list Z * F}.
Context `{HF : !FileCalls open close read}.
Context {G : Type} {open' : list Z -> G -> Z * G} {close' : Z -> G -> G} {read' : Z -> Z -> G -> Z * list Z * G}.
Context `{HG : !FileCalls open' close' read'}.

(** The same result, within the fuel and in good states. *)
Definition agree {A} (r : res (A * F)) (r' : res (A * G)) : Prop :=
  match r, r' with
  | Done (a, f), Done (a', g) => a = a' /\ fc_ok f /\ fc_ok g
  | Fail, Fail | Undef, Undef => True
  | _, _ => False
  end.

Lemma agree_bind {A B} (r : res (A * F)) (r' : res (A * G)) (k : A * F -> res (B * F)) (k' : A * G -> res (B * G)) :
  agree r r' -> (forall a f g, fc_ok f -> fc_ok g -> agree (k (a, f)) (k' (a, g))) -> agree (res_bind r k) (res_bind r' k').
Proof. intros Hr Hk. destruct r as [[a f]| | |], r' as [[a' g]| | |]; try done. destruct Hr as (-> & Hf & Hg). by apply Hk. Qed.

Lemma read_into_agree p cap f g :
  fc_file (open := open) p = fc_file (open := open') p -> 1 < cap -> fc_ok f -> fc_ok g -> agree (read_file_into open close read p cap f) (read_file_into open' close' read' p cap g).
Proof.
  intros Hp Hc Hf Hg. destruct (read_into_delivers p cap f Hc Hf) as (f' & -> & Hf'). destruct (read_into_delivers p cap g Hc Hg) as (g' & -> & Hg').
  cbn. by rewrite Hp.
Qed.

Lemma expand_loop_agree fuel full cap p dst f g :
  (forall imp, imp ∈ imports fuel p -> fc_file (open := open) (import_file imp) = fc_file (open := open') (import_file imp)) ->
  (length p < fuel)%nat -> fc_ok f -> fc_ok g ->
  agree (expand_loop open close read fuel full cap p dst f) (expand_loop open' close' read' fuel full cap p dst g).
Proof.
  revert p dst f g. induction fuel as [|fuel IH]; intros p dst f g Hs Hl Hf Hg; [lia|]. cbn [expand_loop imports] in *. cbv zeta in *.
  destruct (peek p =? 0); [by cbn|]. destruct (keyword_at (skip_ws p) "import") eqn:Hk; cbn [negb] in *.
  - pose proof (keyword_nonempty _ _ _ Hk). destruct (negb _); [done|].
    match goal with |- context [import_path ?r ?q] => pose proof (import_path_length r q) as Hi; destruct (import_path r q) as [imp s] end.
    destruct (negb _); [done|]. apply agree_bind; [apply read_into_agree; [apply Hs, list_elem_of_here|done..]|].
    intros [imported|] f' g' Hf' Hg'; [|done].
    cbn [need res_bind]. apply IH; [intros imp' Hin; apply Hs; by apply list_elem_of_further| |done..]. cbn [snd] in Hi. split_ifs; len.
  - pose proof (skip_ws_length p). destruct (skip_ws p) as [|c r]; [by destruct full|]. apply IH; [done|simpl in *; lia|done..].
Qed.
End Agree.

(** The files of the host under the paths of the system. *)
#[export] Program Instance host_calls {F} (open : list Z -> F -> Z * F) close read `{HF : !FileCalls open close read} root :
  FileCalls (host_open open root) close read := {|
  fc_ok := fc_ok (open := open);
  fc_file p := fc_file (open := open) (host_path root p);
  fc_left := fc_left (open := open)
|}.
Next Obligation. intros F open close read HF root p f Hf. exact (fc_open (open := open) (host_path root p) f Hf). Qed.
Next Obligation. intros F open close read HF root fd want c f. apply (fc_read (open := open)). Qed.
Next Obligation. intros F open close read HF root fd c f. apply (fc_close (open := open)). Qed.

Lemma host_write_stores {F} (close : Z -> F -> F) create write `{!OutputCalls close create write} fuel fd p c bs f :
  oc_to fd p f -> oc_stored f p = Some c -> (length bs <= fuel)%nat ->
  exists f', host_write_loop close write fuel fd bs f = Done f' /\ oc_stored f' p = Some (c ++ bs).
Proof.
  revert c bs f. induction fuel as [|fuel IH]; intros c [|b bs] f Ht Hs Hl; cbn [host_write_loop].
  1, 3: exists (close fd f); rewrite app_nil_r; split; [done|by apply (oc_close fd p c f)].
  1: simpl in Hl; lia.
  destruct (oc_write fd p c (b :: bs) f Ht Hs) as (n & f' & E & Hn & Ht' & Hs'); [done|]. rewrite E. rewrite (proj2 (Z.leb_gt _ _)) by lia.
  rewrite Nat2Z.id. destruct (IH (c ++ take n (b :: bs)) (drop n (b :: bs)) f') as (f2 & E2 & Hs2); [done..|rewrite length_drop; simpl in *; lia|].
  exists f2. split; [done|]. by rewrite Hs2, <- app_assoc, take_drop.
Qed.

(** A path as a word of a command line. *)
Definition path_word (p : list Z) : Prop := p <> [] /\ (length p <= 127)%nat /\ Forall (fun c => is_blank c = false /\ c <> 0) p.

Lemma word_chars_word room p : (length p <= room)%nat -> Forall (fun c => is_blank c = false /\ c <> 0) p -> word_chars room p = (p, []).
Proof.
  revert room. induction p as [|c p IH]; intros [|room] Hl Hp; cbn [word_chars]; try done; [simpl in Hl; lia|].
  apply Forall_cons in Hp as [[Hc _] Hp]. rewrite Hc, IH; [done|simpl in Hl; lia|done].
Qed.

Lemma split_args_word p : path_word p -> split_args p = (p, []) /\ (peek p =? 0) = false.
Proof.
  intros (Hn & Hl & Hp). destruct p as [|c p]; [done|]. pose proof (Forall_inv Hp) as [Hb H0]. split; [|by apply Z.eqb_neq].
  unfold split_args. assert (skip_blanks (c :: p) = c :: p) as -> by (cbn [skip_blanks]; by rewrite Hb). by rewrite word_chars_word.
Qed.

(** ** Properties *)

(** C39: the compiler of the build host and the compiler of the system agree.  When the
    source and the files it imports are the same under the root of the host and on the
    disk of the system, and can be read there without failure, in pieces of any size,
    the host build stores in the output file
    exactly the image that the system's compiler would run, or refuses the source when
    that one does.  Whether a dump of the expanded source is asked for makes no
    difference. *)
Theorem host_same_image {F G} (open : list Z -> F -> Z * F) close read create write (sys_open : list Z -> G -> Z * G) sys_close sys_file_read
    `{!FileCalls open close read, !OutputCalls close create write, !FileCalls sys_open sys_close sys_file_read} root dump prog path out f g :
  (forall p, p ∈ paths_read path (fc_file (open := sys_open) path) -> fc_file (open := open) (host_path root p) = fc_file (open := sys_open) p) ->
  fc_ok f -> fc_ok g ->
  path_word path -> name_is path "--kmod" = false -> oc_writable out ->
  match compile_command sys_open sys_close sys_file_read path g with
  | Done (image, run_args, _) =>
      exists f', host_main open close read create write root dump [prog; path; out] f = Done f' /\ oc_stored f' out = Some image /\ run_args = []
  | Fail => host_main open close read create write root dump [prog; path; out] f = Fail
  | Undef => host_main open close read create write root dump [prog; path; out] f = Undef
  | Timeout => False
  end.
Proof.
  intros Hsame Hf Hg Hp Hk Hout. destruct (split_args_word path Hp) as [Es Hpk]. unfold compile_command, host_main. rewrite Es, Hpk.
  cbn [length nth Nat.ltb Nat.leb Nat.sub]. rewrite Hk. cbv iota. rewrite host_read_file_into_same by (unfold SOURCE_SIZE; lia).
  cbn [nth Nat.sub Nat.leb Nat.add]. 
  pose proof (read_into_agree (open := host_open open root) (open' := sys_open) path SOURCE_SIZE f g (Hsame path (list_elem_of_here _ _)) eq_refl Hf Hg) as Hr.
  destruct (read_into_delivers (open := sys_open) path SOURCE_SIZE g eq_refl Hg) as (g0 & E0 & _). rewrite E0 in Hr |- *.
  destruct (read_file_into (host_open open root) _ _ _ _ _) as [[src f1]| | |]; try done.
  destruct Hr as (Esrc & Hf1 & Hg1). rewrite <- Esrc. cbn [res_bind]. destruct src as [src|]; [|done]. cbn [need res_bind]. unfold expand_imports.
  set (fl := SOURCE_SIZE <=? _). set (n := S (length (until_nul src))).
  pose proof (expand_loop_agree (open := host_open open root) (open' := sys_open) n fl EXPANDED_SIZE (until_nul src) [] f1 g0) as He.
  specialize (He ltac:(intros imp Hin; apply Hsame; unfold paths_read; destruct (fc_file path) as [c|]; [|discriminate Esrc];
    injection Esrc as ->; apply list_elem_of_further, list_elem_of_fmap; by exists imp) ltac:(lia) Hf1 Hg1).
  destruct (expand_loop (host_open open root) _ _ _ _ _ _ _ _) as [[ex f2]| | |],
    (expand_loop sys_open _ _ _ _ _ _ _ _) as [[ex' g2]| | |]; try done.
  destruct He as (<- & _ & _). cbn [res_bind].
  assert (compile_source (source_fuel (until_nul ex)) false (until_nul ex) <> Timeout) as Hc by (apply compile_source_ends; unfold source_fuel; lia).
  destruct (compile_source _ _ _) as [c| | |]; [|done..]. cbn [res_bind]. pose proof (build_image_ends c) as Hb.
  destruct (build_image c) as [image| | |]; [|done..]. cbn [res_bind].
  destruct (oc_create out (dump_expanded close create write dump (until_nul ex) f2) Hout) as (fd & f3 & E3 & Hfd & Ht & Hs3).
  rewrite E3, (proj2 (Z.ltb_ge _ _)) by lia. destruct (host_write_stores close create write (length image) fd out [] image f3 Ht Hs3) as (f4 & E4 & Hs4); [done|].
  by exists f4.
Qed.

(** ** Example *)

(** A directory of the host with a source and a file that it imports; the host reads 7 and
    writes 1000 bytes at a time. *)
Record demo_host := mk_demo_host { dh_left : list Z; dh_out : list Z; dh_stored : list Z }.
Definition demo_root : option (list Z) := Some (bytes_of "/build"%string).
Definition demo_importing : list Z :=
  bytes_of "import "%string ++ [DQUOTE] ++ bytes_of "one.ore"%string ++ [DQUOTE] ++ bytes_of "; fn main() -> int { return one(); }"%string.
Definition demo_imported : list Z := bytes_of "fn one() -> int { return 1; }"%string.
Definition demo_host_file (p : list Z) : option (list Z) :=
  if bool_decide (p = bytes_of "/build/a.ore"%string) then Some demo_importing
  else if bool_decide (p = bytes_of "/build/include/one.ore"%string) then Some demo_imported else None.
Definition demo_host_open (p : list Z) (f : demo_host) : Z * demo_host :=
  match demo_host_file p with Some c => (3, mk_demo_host c (dh_out f) (dh_stored f)) | None => (-1, f) end.
Definition demo_host_close (fd : Z) (f : demo_host) : demo_host := f.
Definition demo_host_read (fd want : Z) (f : demo_host) : Z * list Z * demo_host :=
  let n := (Nat.min 7 (Nat.min (Z.to_nat want) (length (dh_left f)))) in
  (Z.of_nat n, take n (dh_left f), mk_demo_host (drop n (dh_left f)) (dh_out f) (dh_stored f)).
Definition demo_host_create (p : list Z) (f : demo_host) : Z * demo_host := (4, mk_demo_host (dh_left f) p []).
Definition demo_host_write (fd : Z) (bs : list Z) (f : demo_host) : Z * demo_host :=
  let n := Nat.min 1000 (length bs) in (Z.of_nat n, mk_demo_host (dh_left f) (dh_out f) (dh_stored f ++ take n bs)).

#[local] Program Instance demo_host_calls : FileCalls demo_host_open demo_host_close demo_host_read := {|
  fc_ok _ := True; fc_file := demo_host_file; fc_left fd c f := fd = 3 /\ dh_left f = c |}.
Next Obligation. intros p f _. unfold demo_host_open. destruct (demo_host_file p) as [c|]; eexists _, _; split_and!; done. Qed.
Next Obligation.
  intros fd want c f _ [-> <-] Hw. eexists _, _. split; [done|]. split; [lia|]. split; [lia|]. split; [|done].
  intros H0. apply nil_length_inv. lia.
Qed.
Next Obligation. done. Qed.

#[local] Program Instance demo_host_output : OutputCalls demo_host_close demo_host_create demo_host_write := {|
  oc_writable _ := True; oc_stored f p := if bool_decide (dh_out f = p) then Some (dh_stored f) else None;
  oc_to fd p f := fd = 4 /\ dh_out f = p |}.
Next Obligation. intros p f _. eexists _, _. split; [done|]. split; [done|]. split; [done|]. cbn. by rewrite bool_decide_eq_true_2. Qed.
Next Obligation.
  intros fd p c bs f [-> Hp] Hs Hb. rewrite bool_decide_eq_true_2 in Hs by done. injection Hs as <-. eexists _, _. split; [done|].
  assert (length bs <> 0%nat) by (by destruct bs). split; [lia|]. split; [done|]. cbn [dh_out dh_stored]. by rewrite bool_decide_eq_true_2.
Qed.
Next Obligation. done. Qed.

(** The system with those files on its disk; a read delivers all that is left. *)
Definition demo_sys_file (p : list Z) : option (list Z) :=
  if bool_decide (p = bytes_of "/disk/a.ore"%string) then Some demo_importing
  else if bool_decide (p = bytes_of "/disk/include/one.ore"%string) then Some demo_imported else None.
Definition demo_sys_open (p : list Z) (left : list Z) : Z * list Z :=
  match demo_sys_file p with Some c => (1, c) | None => (-1, left) end.
Definition demo_sys_close (fd : Z) (left : list Z) : list Z := left.
Definition demo_sys_read (fd want : Z) (left : list Z) : Z * list Z * list Z :=
  let n := Nat.min (Z.to_nat want) (length left) in (Z.of_nat n, take n left, drop n left).

#[local] Program Instance demo_sys_calls : FileCalls demo_sys_open demo_sys_close demo_sys_read := {|
  fc_ok _ := True; fc_file := demo_sys_file; fc_left fd c left := fd = 1 /\ left = c |}.
Next Obligation. intros p f _. unfold demo_sys_open. destruct (demo_sys_file _) as [c|]; eexists _, _; split_and!; done. Qed.
Next Obligation.
  intros fd want c left _ [-> ->] Hw. eexists _, _. split; [done|]. split; [lia|]. split; [lia|]. split; [|done].
  intros H0. apply nil_length_inv. lia.
Qed.
Next Obligation. done. Qed.

Lemma demo_same_files p :
  p ∈ paths_read (bytes_of "/disk/a.ore"%string) (demo_sys_file (bytes_of "/disk/a.ore"%string)) ->
  demo_host_file (host_path demo_root p) = demo_sys_file p.
Proof.
  assert (paths_read (bytes_of "/disk/a.ore"%string) (demo_sys_file (bytes_of "/disk/a.ore"%string)) =
    [bytes_of "/disk/a.ore"%string; bytes_of "/disk/include/one.ore"%string]) as -> by (vm_compute; reflexivity).
  intros Hp. repeat (apply elem_of_cons in Hp as [->|Hp]; [vm_compute; reflexivity|]). by apply elem_of_nil in Hp.
Qed.

Lemma host_same_image_witness : exists f',
  host_main demo_host_open demo_host_close demo_host_read demo_host_create demo_host_write demo_root None
    [bytes_of "orec-host"%string; bytes_of "/disk/a.ore"%string; bytes_of "a.orx"%string] (mk_demo_host [] [] []) = Done f' /\
  length (dh_stored f') = Z.to_nat (56 + 4096).
Proof.
  pose proof (host_same_image demo_host_open demo_host_close demo_host_read demo_host_create demo_host_write
    demo_sys_open demo_sys_close demo_sys_read demo_root None (bytes_of "orec-host"%string) (bytes_of "/disk/a.ore"%string)
    (bytes_of "a.orx"%string) (mk_demo_host [] [] []) [] demo_same_files I I) as H.
  destruct (compile_command demo_sys_open demo_sys_close demo_sys_read (bytes_of "/disk/a.ore"%string) []) as [[[image a] g]| | |] eqn:E.
  2-4: vm_compute in E; discriminate E.
  destruct H as (f' & E1 & E2 & _).
  - split; [discriminate|]. split; [vm_compute; lia|]. repeat constructor; vm_compute; discriminate.
  - reflexivity.
  - exact I.
  - exists f'. split; [exact E1|].
    assert (length image = Z.to_nat (56 + 4096)) as <-.
    { transitivity (match compile_command demo_sys_open demo_sys_close demo_sys_read (bytes_of "/disk/a.ore"%string) [] with
        Done (image, _, _) => length image | _ => 0%nat end); [by rewrite E|vm_compute; reflexivity]. }
    cbn in E2. destruct (bool_decide _); [|discriminate E2]. by injection E2 as ->.
Defined.
