(* ===== verification/OrecLink.v ===== *)
(** From OreLang source to a loaded program: the compiler's image builder
    (user/orec.c) composed with the kernel's loader (kernel/syscall.c).

    The patches of the calls and of the data references do not overlap
    (OrecInv.v), so all of them are in the final text; the header that
    [build_image] writes passes the checks of [load_ore_image_into_process], and
    both sides agree on the addresses of text and data. *)
From stdpp Require Import base numbers list gmap strings.
From Stdlib Require Import ZArith Lia Sorted.
From S2P Require Import Prelude Memory PageAllocator Pmm Vmm Process Usermem Elf Loader OreImage.
From S2P Require Import Cstring OrecLex OrecGen OrecInv Orec.

(** ** Patches *)

(** The four bytes of text at [p] are the number [v]. *)
Definition word_at (t : list Z) (p v : Z) : Prop := take 4 (drop (Z.to_nat p) t) = le_bytes 4 (u32 v).

(** What patching keeps. *)
Record same_but_text (c c' : cstate) : Prop := mk_same {
  sb_len : text_len c' = text_len c;
  sb_data : data c' = data c;
  sb_calls : calls c' = calls c;
  sb_refs : data_refs c' = data_refs c;
  sb_funcs : funcs c' = funcs c
}.

(** Four bytes of the text, inside the buffer. *)
Definition fits_at (c : cstate) (p : Z) : Prop := p + 4 <= text_len c /\ p + 4 <= TEXT_MAX.

Lemma same_text_refl c : same_but_text c c.
Proof. by constructor. Qed.
Lemma same_text_trans a b c : same_but_text a b -> same_but_text b c -> same_but_text a c.
Proof. intros [] []. constructor; congruence. Qed.

Lemma patch32_spec p v c c' :
  hole (text_len c) p -> patch32 p v c = Done c' ->
  fits_at c p /\ same_but_text c c' /\ word_at (text c') p v /\
  forall q w, 0 <= q -> q + 4 <= p \/ p + 4 <= q -> word_at (text c) q w -> word_at (text c') q w.
Proof.
  intros [Hp Hh] E. unfold patch32 in E. destruct (Z.ltb_spec TEXT_MAX (p + 4)); [discriminate|].
  destruct Hh as [Hh|]; [|lia]. unfold text_len in *.
  set (i := Z.to_nat p) in *. set (t' := take i (text c) ++ le_bytes 4 (u32 v) ++ drop (i + 4) (text c)) in *.
  assert (c' = with_text t' c) as -> by congruence. clear E.
  assert (length (take i (text c)) = i) as Hl by (rewrite length_take; lia).
  assert (length t' = length (text c)) as Ht.
  { unfold t'. rewrite !length_app, Hl, length_drop, le_bytes_length. lia. }
  split; [split; unfold text_len; lia|]. split; [constructor; unfold text_len; cbn [text with_text]; [by rewrite Ht|done..]|].
  unfold word_at. cbn [text with_text]. fold i. split.
  - unfold t'. rewrite drop_app_length' by done. rewrite take_app_length'; [done|by rewrite le_bytes_length].
  - intros q w Hq Hd. apply (eq_trans (y := take 4 (drop (Z.to_nat q) (text c)))). unfold t'.
    apply list_eq. intros k. destruct (decide (k < 4)%nat); [|by rewrite !lookup_take_ge by lia].
    rewrite !lookup_take_lt by lia. rewrite !lookup_drop.
    destruct (decide (Z.to_nat q + k < i)%nat).
    + rewrite lookup_app_l by lia. rewrite lookup_take_lt by lia. done.
    + rewrite lookup_app_r by lia. rewrite lookup_app_r by (rewrite le_bytes_length; lia).
      rewrite lookup_drop, le_bytes_length, Hl. f_equal. lia.
Qed.

(** A list of places with their values. *)
Fixpoint patch_many (l : list (Z * Z)) (c : cstate) : res cstate :=
  match l with
  | [] => Done c
  | (p, v) :: l => let* c := patch32 p v c in patch_many l c
  end.

(** Places of [l] do not overlap [q]. *)
Definition clear_of (l : list (Z * Z)) (q : Z) : Prop := Forall (fun x => fst x + 4 <= q \/ q + 4 <= fst x) l.

Lemma patch_many_spec l c c' :
  Forall (fun x => hole (text_len c) (fst x)) l -> sep_sorted l -> patch_many l c = Done c' ->
  same_but_text c c' /\ (forall p v, (p, v) ∈ l -> fits_at c p /\ word_at (text c') p v) /\
  (forall q w, 0 <= q -> clear_of l q -> word_at (text c) q w -> word_at (text c') q w).
Proof.
  intros Hh Hs. revert c Hh. induction Hs as [|[p v] l Hs IH Hp]; intros c Hh; cbn [patch_many].
  { intros [= <-]. split; [apply same_text_refl|]. split; [intros p v []%elem_of_nil|done]. }
  apply Forall_cons in Hh as [Hh1 Hh]. destruct (patch32 p v c) as [c1| | |] eqn:E; [|discriminate..].
  cbn [res_bind]. intros E'. destruct (patch32_spec p v c c1 Hh1 E) as (H1 & Hsame & H2 & H3).
  destruct (IH c1) as (Hs' & Hin & Hout); [by rewrite (sb_len _ _ Hsame)|done|].
  split; [by eapply same_text_trans|].
  assert (forall q w, (q, w) ∈ l -> fits_at c q /\ word_at (text c') q w) as Hin'.
  { intros q w Hq. destruct (Hin q w Hq) as [[? ?] ?]. rewrite (sb_len _ _ Hsame) in *. by split. }
  split.
  - intros q w [Hq | Hq]%elem_of_cons; [|by apply Hin']. simplify_eq. split; [done|].
    apply Hout; [apply Hh1| |done]. unfold clear_of. rewrite Forall_forall in Hp |- *. intros x Hx.
    destruct (Hin' (fst x) (snd x)) as [[_ Hx'] _]; [by destruct x|].
    destruct H1 as [_ H1]. specialize (Hp x Hx). simpl in Hp. unfold sep in Hp. lia.
  - intros q w Hq [Hc1 Hc2]%Forall_cons Hw. apply Hout; [done..|]. apply H3; [done| |done]. simpl in Hc1. lia.
Qed.

(** ** Calls and data references *)

Definition call_value (c : cstate) (x : Z * Z) : Z * Z := (fst x, func_addr c (snd x) - (fst x + 4)).
Definition ref_value (size : Z) (x : Z * Z) : Z * Z := (fst x, size + snd x - (fst x + 4)).

Lemma patch32_funcs p v c c' : patch32 p v c = Done c' -> funcs c' = funcs c.
Proof. unfold patch32. destruct (_ <? _); [discriminate|]. by intros [= <-]. Qed.

Lemma patch_calls_many l c : patch_calls l c = patch_many (map (call_value c) l) c.
Proof.
  assert (forall c1, funcs c1 = funcs c -> patch_calls l c1 = patch_many (map (call_value c) l) c1) as H; [|by apply H].
  induction l as [|[p f] l IH]; intros c1 Hf; cbn [patch_calls map patch_many call_value fst snd]; [done|].
  unfold patch_rel. replace (func_addr c1 f) with (func_addr c f) by (unfold func_addr; by rewrite Hf).
  destruct (patch32 _ _ c1) as [c2| | |] eqn:E; [|done..]. cbn [res_bind]. apply IH.
  by rewrite (patch32_funcs _ _ _ _ E).
Qed.

(** The 64-bit arithmetic of the displacement agrees with the 32 bits kept. *)
Lemma patch32_mod p v w c : u32 v = u32 w -> patch32 p v c = patch32 p w c.
Proof. intros H. unfold patch32. by rewrite H. Qed.

Lemma patch_data_many l base size c :
  patch_data_loop l base size c = patch_many (map (ref_value size) l) c.
Proof.
  revert c. induction l as [|[p off] l IH]; intros c; cbn [patch_data_loop map patch_many ref_value fst snd]; [done|].
  cbv zeta. rewrite (patch32_mod p _ (size + off - (p + 4))).
  - destruct (patch32 _ _ c); [|done..]. apply IH.
  - unfold u32, u64. zlia.
Qed.

Lemma map_fst_sep {f : Z * Z -> Z * Z} l : (forall x, fst (f x) = fst x) -> sep_sorted l -> sep_sorted (map f l).
Proof.
  intros Hf Hs. induction Hs as [|x l Hs IH Hx]; cbn [map]; [constructor|]. constructor; [done|].
  apply Forall_map. eapply Forall_impl; [exact Hx|]. simpl. intros y. by rewrite !Hf.
Qed.

(** Every call and every data reference of a compiled program has its final
    displacement once the data references are patched. *)
Lemma references_resolved fuel kmod src c base c' :
  compile_source fuel kmod src = Done c -> patch_data_refs base (text_image_size c) c = Done c' ->
  same_but_text c c' /\
  (forall p f, (p, f) ∈ calls c -> word_at (text c') p (func_addr c f - (p + 4))) /\
  (forall p off, (p, off) ∈ data_refs c -> word_at (text c') p (text_image_size c + off - (p + 4))).
Proof.
  intros E E'. destruct (compile_source_unpatched _ _ _ _ E) as (c0 & Hw0 & _ & _ & E0).
  destruct (compile_source_wf _ _ _ _ E) as [Hw _]. rewrite patch_calls_many in E0.
  unfold patch_data_refs in E'. rewrite patch_data_many in E'.
  apply patch_many_spec in E0 as (S0 & In0 & _);
    [|apply Forall_map; eapply Forall_impl; [apply Hw0|done]|by apply map_fst_sep, Hw0].
  apply patch_many_spec in E' as (S1 & In1 & Out1);
    [|apply Forall_map; eapply Forall_impl; [apply Hw|done]|by apply map_fst_sep, Hw].
  split; [done|]. split.
  - intros p f Hpf. rewrite (sb_calls _ _ S0) in Hpf.
    destruct (In0 p (func_addr c0 f - (p + 4))) as [Hfit Hat]; [apply list_elem_of_fmap; by exists (p, f)|].
    unfold func_addr in Hat |- *. rewrite (sb_funcs _ _ S0).
    apply Out1; [|apply Forall_map, Forall_forall; intros [q off] Hq|done].
    + pose proof (wf_calls _ Hw0) as Hc. rewrite Forall_forall in Hc. apply (Hc _ Hpf).
    + destruct (In1 q (text_image_size c + off - (q + 4))) as [[_ Hq'] _]; [apply list_elem_of_fmap; by exists (q, off)|].
      destruct Hfit as [_ Hp']. rewrite <- (sb_calls _ _ S0) in Hpf.
      destruct (wf_cross _ Hw (p, f) (q, off) Hpf Hq) as [Hx|Hx]; unfold sep, ref_value in *; simpl in *; lia.
  - intros p off Hp. apply (In1 p). apply list_elem_of_fmap. by exists (p, off).
Qed.

(** ** The image *)

(** The header that [build_image] writes. *)
Definition image_header (size data_size : Z) : list Z :=
  le_bytes 8 ORE_IMAGE_MAGIC ++ le_bytes 4 ORE_IMAGE_VERSION ++ le_bytes 4 sizeof_OreImageHeader ++
  le_bytes 8 0 ++ le_bytes 8 size ++ le_bytes 8 data_size ++ le_bytes 8 0 ++ le_bytes 8 0.

Lemma image_header_length size n : length (image_header size n) = 56%nat.
Proof. unfold image_header. by rewrite !length_app, !le_bytes_length. Qed.

Lemma read_image_header m a size n :
  0 <= size < 2 ^ 64 -> 0 <= n < 2 ^ 64 -> in_memory m a (image_header size n) ->
  read_ore_header m a = {| oi_magic := ORE_IMAGE_MAGIC; oi_version := ORE_IMAGE_VERSION; oi_header_size := 56;
    oi_entry := 0; oi_text_size := size; oi_data_size := n; oi_bss_size := 0; oi_reloc_count := 0 |}.
Proof.
  intros Hs Hn H. unfold image_header in H.
  repeat match goal with H : in_memory _ _ (_ ++ _) |- _ => apply in_memory_app in H as [? H] end.
  rewrite !le_bytes_length in *. unfold read_ore_header, load64, load32.
  rewrite <- !Z.add_assoc in *. simpl Z.add in *.
  f_equal; apply load_le_bytes; done || (simpl; lia).
Qed.

(** Sizes of the parts, and the bytes of the image. *)
Lemma text_image_size_spec c :
  wf c -> text_len c <= text_image_size c < text_len c + 4096 /\ text_image_size c mod 4096 = 0.
Proof.
  intros Hw. pose proof (wf_text_len _ Hw). assert (0 <= text_len c) by (unfold text_len; lia). unfold TEXT_MAX, text_image_size in *.
  rewrite (land_not64_ones _ 12) by (unfold u64, word64; zlia). unfold u64. rewrite Z.mod_small by lia. zlia.
Qed.

Lemma patched_image header base c c' img :
  wf c -> patch_data_refs base (text_image_size c) c = Done c' -> fill_image header c' = Done img ->
  img = header ++ text c' ++ repeat 0 (Z.to_nat (text_image_size c - text_len c)) ++ data c /\ Z.of_nat (length img) <= IMAGE_MAX.
Proof.
  intros Hw E. assert (same_but_text c c') as Hsame.
  { unfold patch_data_refs in E. rewrite patch_data_many in E.
    apply patch_many_spec in E as (H & _);
      [done|apply Forall_map; eapply Forall_impl; [apply Hw|done]|by apply map_fst_sep, Hw]. }
  assert (text_image_size c' = text_image_size c) as Es by (unfold text_image_size; by rewrite (sb_len _ _ Hsame)).
  unfold fill_image. cbv zeta. rewrite Es, (sb_len _ _ Hsame), (sb_data _ _ Hsame).
  destruct (Z.ltb_spec IMAGE_MAX (Z.of_nat (length (header ++ text c' ++ repeat 0 (Z.to_nat (text_image_size c - text_len c)) ++ data c)))) as [|Hl];
    [discriminate|]. intros [= <-]. by split.
Qed.

Lemma patch_data_refs_len base size c c' : wf c -> patch_data_refs base size c = Done c' -> data_len c' = data_len c.
Proof.
  intros Hw E. unfold patch_data_refs in E. rewrite patch_data_many in E.
  apply patch_many_spec in E as (H & _);
    [|apply Forall_map; eapply Forall_impl; [apply Hw|done]|by apply map_fst_sep, Hw].
  unfold data_len. by rewrite (sb_data _ _ H).
Qed.

Lemma build_image_spec c img :
  wf c -> build_image c = Done img ->
  exists c', patch_data_refs 0x8000000000 (text_image_size c) c = Done c' /\
    img = image_header (text_image_size c) (data_len c) ++ text c' ++
          repeat 0 (Z.to_nat (text_image_size c - text_len c)) ++ data c.
Proof.
  intros Hw. unfold build_image. cbv zeta. destruct (patch_data_refs _ _ c) as [c'| | |] eqn:E; [|discriminate..].
  cbn [res_bind]. intros Hf. exists c'. split; [done|]. rewrite (patch_data_refs_len _ _ _ _ Hw E) in Hf.
  by apply (patched_image _ _ _ _ _ Hw E) in Hf as [-> _].
Qed.

(** ** The loaded program *)

Section Link.
Context {S : Type} `{PageAllocatorOk S}.
Implicit Types (st : machine S) (R : Z -> Prop).

(** The program of the compiler state [c] with the patched text [t] is in memory
    of the process with the tables [root]. *)
Definition program_in_memory (root : Z) (c : cstate) (t : list Z) st : Prop :=
  (forall i b, t !! i = Some b -> readable root (USER_BASE + Z.of_nat i) st /\ uload root (USER_BASE + Z.of_nat i) st = b) /\
  (forall i b, data c !! i = Some b ->
     readable root (USER_BASE + text_image_size c + Z.of_nat i) st /\
     uload root (USER_BASE + text_image_size c + Z.of_nat i) st = b) /\
  (forall w, USER_STACK_BASE <= w < USER_STACK_TOP -> readable root w st /\ uload root w st = 0).

Definition compiled_header (c : cstate) : OreImageHeader :=
  {| oi_magic := ORE_IMAGE_MAGIC; oi_version := ORE_IMAGE_VERSION; oi_header_size := 56;
     oi_entry := 0; oi_text_size := text_image_size c; oi_data_size := data_len c; oi_bss_size := 0; oi_reloc_count := 0 |}.

(** The checks of the loader accept what the compiler writes. *)
Lemma compiled_header_ok c len :
  0 < text_image_size c <= 36864 -> data_len c <= DATA_MAX -> 56 + text_image_size c + data_len c <= len ->
  ore_header_ok (compiled_header c) len = true.
Proof.
  intros Hs Hd Hl. unfold DATA_MAX in Hd. assert (0 <= data_len c) by (unfold data_len; lia).
  unfold ore_header_ok, ore_data_off, ore_text_off, compiled_header. cbn [oi_magic oi_version oi_header_size oi_entry
    oi_text_size oi_data_size oi_bss_size oi_reloc_count].
  change (56 +u _) with 56. unfold sizeof_OreImageHeader, u64. rewrite !Z.mod_small by lia.
  rewrite !Z.eqb_refl. rewrite !(proj2 (Z.ltb_ge _ _)) by lia. rewrite (proj2 (Z.eqb_neq _ _)) by lia.
  rewrite (proj2 (Z.leb_gt _ _)) by lia. done.
Qed.

Lemma compiled_data_base c : text_image_size c mod 4096 = 0 -> ore_data_base (compiled_header c) = USER_BASE + text_image_size c.
Proof. intros Hm. unfold ore_data_base, USER_BASE, PAGE_SIZE. cbn [oi_text_size compiled_header]. zlia. Qed.

Lemma compiled_end c :
  text_image_size c mod 4096 = 0 -> ore_end (compiled_header c) >= USER_BASE + text_image_size c + data_len c.
Proof.
  intros Hm. unfold ore_end, ore_span. rewrite compiled_data_base by done.
  cbn [oi_data_size oi_bss_size compiled_header]. unfold PAGE_SIZE.
  destruct (Z.eqb_spec (data_len c + 0) 0) as [E|_]; [rewrite Z.add_0_r in E; rewrite E|];
    generalize USER_BASE (text_image_size c) (data_len c); intros; zlia.
Qed.

(** What the loader puts at an address when there are no relocations. *)
Lemma compiled_contents image st c w :
  read_ore_header (m_mem st) image = compiled_header c -> text_image_size c mod 4096 = 0 -> 0 <= text_image_size c <= 36864 ->
  ore_contents image st w =
  override (fill (USER_BASE + text_image_size c) 0 (Z.to_nat (data_len c))
              (fun off => load8 (m_mem st) (image + (56 + text_image_size c) + off)))
    (fill USER_BASE 0 (Z.to_nat (text_image_size c)) (fun off => load8 (m_mem st) (image + 56 + off))) w.
Proof.
  intros Eh Hm Hs. unfold ore_contents, ore_byte. rewrite Eh, compiled_data_base by done.
  assert (ore_text_off (compiled_header c) = 56) as E1 by done.
  assert (ore_data_off (compiled_header c) = 56 + text_image_size c) as E2.
  { unfold ore_data_off. rewrite E1. cbn [oi_text_size compiled_header]. apply u64_small. unfold word64. lia. }
  rewrite E1, E2. cbn [oi_text_size oi_data_size oi_reloc_count oi_header_size compiled_header].
  change (Z.to_nat 0) with O. reflexivity.
Qed.

Lemma program_loaded image st c t w :
  in_memory (m_mem st) image (image_header (text_image_size c) (data_len c) ++ t ++
    repeat 0 (Z.to_nat (text_image_size c - text_len c)) ++ data c) ->
  read_ore_header (m_mem st) image = compiled_header c -> text_image_size c mod 4096 = 0 ->
  0 <= text_len c <= text_image_size c -> text_image_size c <= 36864 -> Z.of_nat (length t) = text_len c ->
  (forall i b, t !! i = Some b -> w = USER_BASE + Z.of_nat i -> ore_contents image st w = Some b) /\
  (forall i b, data c !! i = Some b -> w = USER_BASE + text_image_size c + Z.of_nat i -> ore_contents image st w = Some b).
Proof.
  intros Hm Eh Hmod Hl Hs Ht. rewrite (compiled_contents image st c w Eh Hmod) by lia.
  apply in_memory_app in Hm as [_ Hm]. rewrite image_header_length in Hm. change (Z.of_nat 56) with 56 in Hm.
  apply in_memory_app in Hm as [Ht' Hm]. apply in_memory_app in Hm as [_ Hd].
  rewrite repeat_length, Ht in Hd. replace (image + 56 + text_len c + Z.of_nat (Z.to_nat (text_image_size c - text_len c)))
    with (image + (56 + text_image_size c)) in Hd by lia.
  assert (0 <= data_len c) by (unfold data_len; lia).
  split; intros i b Hi ->; pose proof (lookup_lt_Some _ _ _ Hi) as Hlt; unfold override, fill.
  - rewrite (proj2 (andb_false_iff _ _)) by (left; apply Z.leb_gt; lia).
    rewrite (proj2 (andb_true_iff _ _)) by (split; [apply Z.leb_le|apply Z.ltb_lt]; lia).
    f_equal. rewrite <- (Ht' _ _ Hi). f_equal. lia.
  - rewrite (proj2 (andb_true_iff _ _)) by (split; [apply Z.leb_le|apply Z.ltb_lt; unfold data_len]; lia).
    f_equal. rewrite <- (Hd _ _ Hi). f_equal. lia.
Qed.

(** The memory the loader guarantees is that of the program. *)
Lemma ready_program R proc image st c t st' :
  in_memory (m_mem st) image (image_header (text_image_size c) (data_len c) ++ t ++
    repeat 0 (Z.to_nat (text_image_size c - text_len c)) ++ data c) ->
  read_ore_header (m_mem st) image = compiled_header c -> text_image_size c mod 4096 = 0 ->
  Z.of_nat (length t) = text_len c -> ore_program_ready R proc image st st' -> data_len c <= DATA_MAX ->
  0 <= text_len c <= text_image_size c -> text_image_size c <= 36864 ->
  program_in_memory (pml4_phys (p_address_space proc)) c t st'.
Proof.
  intros Hm Eh Hmod Ht Hrdy Hdmax Hl Hs. set (root := pml4_phys _) in *. unfold DATA_MAX in Hdmax.
  assert (0 <= data_len c) by (unfold data_len; lia). pose proof (compiled_end c Hmod) as Hend.
  destruct Hrdy as (_ & Hread & Hload & _). fold root in Hread, Hload. rewrite Eh in Hread.
  assert (forall w b, USER_BASE <= w < USER_BASE + text_image_size c + data_len c -> ore_contents image st w = Some b ->
    readable root w st' /\ uload root w st' = b) as Hb.
  { intros w b Hwr Hc. assert (readable root w st') as Hr by (apply Hread; left; lia).
    split; [done|]. by rewrite Hload, Hc. }
  pose proof (fun w => program_loaded image st c t w Hm Eh Hmod Hl Hs Ht) as Hpl.
  split; [|split].
  - intros i b Hib. pose proof (lookup_lt_Some _ _ _ Hib). apply Hb; [lia|].
    by eapply (proj1 (Hpl _)).
  - intros i b Hib. pose proof (lookup_lt_Some _ _ _ Hib). apply Hb; [unfold data_len; lia|].
    by eapply (proj2 (Hpl _)).
  - intros w Hwr. assert (readable root w st') as Hr by (apply Hread; by right). split; [done|].
    rewrite Hload by done. rewrite (compiled_contents image st c w Eh) by lia. unfold override, fill.
    unfold USER_STACK_BASE, USER_STACK_TOP, USER_BASE in *.
    rewrite !(proj2 (andb_false_iff _ _)) by (right; apply Z.ltb_ge; lia). done.
Qed.

End Link.

(** ** Example: a program with a call and a string *)

Definition demo_program : list Z :=
  bytes_of "fn twice(n: int) -> int { return n + n; } fn main() -> int { let p: ptr<char> = "%string ++ [DQUOTE] ++
  bytes_of "hi"%string ++ [DQUOTE] ++ bytes_of "; return twice(*p); }"%string.

Definition demo_compiled : cstate :=
  Eval vm_compute in
  match compile_source (source_fuel demo_program) false demo_program with
  | Done c => c
  | _ => mk_cs [] [] [] 0 [] [] [] 0 false [] [] false
  end.
Definition demo_img : list Z := Eval vm_compute in match build_image demo_compiled with Done img => img | _ => [] end.

Lemma demo_program_compiles : compile_source (source_fuel demo_program) false demo_program = Done demo_compiled.
Proof. vm_compute. reflexivity. Qed.

Lemma demo_img_built : build_image demo_compiled = Done demo_img.
Proof. vm_compute. reflexivity. Qed.

Lemma demo_img_short : Z.of_nat (length demo_img) <= 8192.
Proof. vm_compute. discriminate. Qed.

(** One call and one data reference. *)
Example demo_references : length (calls demo_compiled) = 1%nat /\ length (data_refs demo_compiled) = 1%nat.
Proof. vm_compute. split; reflexivity. Qed.

(** A program with 130 calls: the compiler accepts it, records 128 of them, and the last
    two keep the displacement 0, that of the next instruction. *)
Definition many_calls : list Z :=
  bytes_of "fn f() -> int { return 1; } fn main() -> int { "%string ++ flat_map (fun _ => bytes_of "f(); "%string) (seq 0 130) ++
  bytes_of "return 0; }"%string.

Fixpoint unresolved_calls (t : list Z) : nat :=
  match t with
  | [] => O
  | b :: t' => (if (b =? 0xE8) && bool_decide (take 4 t' = [0; 0; 0; 0]) then 1 else 0) + unresolved_calls t'
  end.

Theorem late_call_dropped :
  exists c, compile_source (source_fuel many_calls) false many_calls = Done c /\ length (calls c) = 128%nat /\ unresolved_calls (text c) = 2%nat.
Proof.
  assert (match compile_source (source_fuel many_calls) false many_calls with
    | Done c => Some (length (calls c), unresolved_calls (text c)) | _ => None end = Some (128%nat, 2%nat)) as H by (vm_compute; reflexivity).
  destruct (compile_source _ _ _) as [c| | |]; [|discriminate H..]. exists c. injection H as H1 H2. done.
Qed.

Lemma demo_img_bytes : forallb (fun b => (0 <=? b) && (b <? 256)) demo_img = true.
Proof. vm_compute. reflexivity. Qed.

Lemma demo_compiled_runs :
  match load_ore_image_into_process demo_proc demo_image (Z.of_nat (length demo_img)) (demo_bytes_st demo_img) with
  | Ok (r, p, st) => (r =? 0) && (uload vmm_root USER_BASE st =? 0xE8) && (uload vmm_root (USER_BASE + 4096) st =? 104)
  | Panic _ => false end = true.
Proof. vm_compute. reflexivity. Qed.

