(* ===== verification/OrecModule.v ===== *)
(** From OreLang source to a running kernel module: the module builder of the host
    compiler (user/orec.c) composed with the kernel's module loader (kernel/okmod.c).

    The header that [build_kmod_image] writes passes the checks of the loader, the
    text it pads ends at a page boundary, so that the protection of text and data
    does not overlap, and the entry point is the code of module_init. *)
From stdpp Require Import base numbers list gmap strings.
From Stdlib Require Import ZArith Lia.
From S2P Require Import Prelude Memory PageAllocator Pmm Vmm Process Usermem SelfTest Loader.
From S2P Require Import Cstring Ports Block Vfs UserAlloc Control Syscall Okmod Programs OrecLex OrecGen OrecInv Orec OrecLink OrecHost.

(** ** The image of a module *)

Definition kmod_header (entry size data_size command : Z) (name : list Z) : list Z :=
  le_bytes 8 ORE_KMOD_MAGIC ++ le_bytes 4 ORE_KMOD_VERSION ++ le_bytes 4 sizeof_OreKModHeader ++
  le_bytes 4 ORE_KERNEL_ABI_VERSION ++ le_bytes 4 0 ++ le_bytes 8 entry ++ le_bytes 8 size ++
  le_bytes 8 data_size ++ le_bytes 8 0 ++ le_bytes 8 0 ++ le_bytes 8 0 ++ le_bytes 8 0 ++ le_bytes 8 command ++ name.

(** The address of command_main, or all ones. *)
Definition command_addr (c : cstate) : Z :=
  match find_func (funcs c) (bytes_of "command_main"%string) with
  | Some (i, f) => if fn_extern f then 0xffffffffffffffff else fn_addr f
  | None => 0xffffffffffffffff
  end.

(** The name of the module for the path of its source. *)
Definition kmod_name (path : list Z) : list Z := take 31 (until_dot (path_base path path)).

Definition compiled_kmod (entry : Z) (path : list Z) (c : cstate) : OreKModHeader := {|
  km_magic := ORE_KMOD_MAGIC; km_version := ORE_KMOD_VERSION; km_header_size := 120; km_kernel_abi_version := ORE_KERNEL_ABI_VERSION;
  km_entry := func_addr c entry; km_text_size := text_image_size c; km_data_size := data_len c; km_bss_size := 0;
  km_reloc_count := 0; km_import_count := 0; km_export_count := 0; km_command_entry := command_addr c; km_name := kmod_name path |}.

Lemma path_base_nonzero base path : Forall (fun c => c <> 0) base -> Forall (fun c => c <> 0) path -> Forall (fun c => c <> 0) (path_base base path).
Proof.
  revert base. induction path as [|c path IH]; intros base Hb Hp; cbn [path_base]; [done|]. apply Forall_cons in Hp as [Hc Hp].
  apply IH; [|done]. by destruct (_ || _).
Qed.
Lemma until_dot_nonzero s : Forall (fun c => c <> 0) s -> Forall (fun c => c <> 0) (until_dot s).
Proof. induction 1 as [|c s Hc Hs IH]; cbn [until_dot]; [done|]. destruct (c =? 46); [done|]. by constructor. Qed.

Lemma kmod_name_nonzero path : Forall (fun c => c <> 0) path -> Forall (fun c => c <> 0) (kmod_name path) /\ (length (kmod_name path) <= 31)%nat.
Proof.
  intros Hp. split; [by apply Forall_take, until_dot_nonzero, path_base_nonzero|]. unfold kmod_name. rewrite length_take. lia.
Qed.

Lemma copy_kmod_name_length path : length (copy_kmod_name path) = 32%nat.
Proof. unfold copy_kmod_name. cbv zeta. rewrite length_app, repeat_length, length_take. lia. Qed.

Lemma kmod_header_length entry size n command path : length (kmod_header entry size n command (copy_kmod_name path)) = 120%nat.
Proof. unfold kmod_header. by rewrite !length_app, !le_bytes_length, copy_kmod_name_length. Qed.

Lemma in_memory_load m a bs : in_memory m a bs -> load_bytes m a (Z.of_nat (length bs)) = bs.
Proof.
  intros H. unfold load_bytes. rewrite Nat2Z.id. apply list_eq. intros i. rewrite list_lookup_fmap.
  destruct (decide (i < length bs)%nat) as [Hi|Hi].
  - destruct (lookup_lt_is_Some_2 bs i Hi) as [b Hb]. rewrite lookup_seq_lt by done. cbn. by rewrite Hb, (H i b Hb).
  - rewrite lookup_seq_ge, lookup_ge_None_2 by lia. done.
Qed.

Lemma read_kmod_header m a entry path c :
  word64 (func_addr c entry) -> word64 (text_image_size c) -> word64 (data_len c) -> word64 (command_addr c) -> Forall (fun c => c <> 0) path ->
  in_memory m a (kmod_header (func_addr c entry) (text_image_size c) (data_len c) (command_addr c) (copy_kmod_name path)) ->
  read_kmod m a = compiled_kmod entry path c.
Proof.
  intros He Hs Hd Hc Hp H. unfold kmod_header in H.
  repeat match goal with H : in_memory _ _ (_ ++ _) |- _ => apply in_memory_app in H as [? H] end.
  rewrite !le_bytes_length in *. rewrite <- !Z.add_assoc in *. simpl Z.add in *.
  apply in_memory_load in H. rewrite copy_kmod_name_length in H. unfold read_kmod, compiled_kmod, load64, load32. unfold word64 in *.
  f_equal; try (apply load_le_bytes; [(simpl; lia) || (unfold sizeof_OreKModHeader; simpl; lia) || (split; [discriminate|reflexivity])|done]).
  match type of H with load_bytes _ ?x _ = _ => change x with (a + 88) in H end. change 32 with (Z.of_nat 32). rewrite H. destruct (kmod_name_nonzero path Hp) as [Hn Hl]. unfold copy_kmod_name. fold (kmod_name path).
  assert (exists k, (32 - length (kmod_name path) = Datatypes.S k)%nat) as [k ->] by (exists (31 - length (kmod_name path))%nat; lia).
  cbn [repeat]. by apply until_nul_string.
Qed.

Lemma build_kmod_spec c i path img :
  wf c -> build_kmod_image i path c = Done img ->
  exists c', patch_data_refs 0 (text_image_size c) c = Done c' /\
    img = kmod_header (func_addr c i) (text_image_size c) (data_len c) (command_addr c) (copy_kmod_name path) ++
          text c' ++ repeat 0 (Z.to_nat (text_image_size c - text_len c)) ++ data c /\ Z.of_nat (length img) <= IMAGE_MAX.
Proof.
  intros Hw. unfold build_kmod_image. cbv zeta. destruct (patch_data_refs _ _ c) as [c'| | |] eqn:E; [|discriminate..].
  cbn [res_bind]. assert (funcs c' = funcs c) as Ef.
  { unfold patch_data_refs in E. rewrite patch_data_many in E.
    apply patch_many_spec in E as (H & _); [by destruct H|apply Forall_map; eapply Forall_impl; [apply Hw|done]|by apply map_fst_sep, Hw]. }
  rewrite (patch_data_refs_len _ _ _ _ Hw E). unfold func_addr, command_addr. rewrite Ef. intros Hf. exists c'. split; [done|].
  by apply (patched_image _ _ _ _ _ Hw E) in Hf.
Qed.

(** The loader's checks accept what the compiler writes. *)
Lemma compiled_kmod_ok entry path c size :
  0 <= func_addr c entry < text_image_size c -> text_image_size c <= 36864 -> data_len c <= DATA_MAX -> 120 + text_image_size c + data_len c <= size ->
  kmod_header_ok (compiled_kmod entry path c) = true /\ kmod_layout_ok (compiled_kmod entry path c) size = true /\
  kmod_total (compiled_kmod entry path c) = text_image_size c + data_len c /\ kmod_data_off (compiled_kmod entry path c) = 120 + text_image_size c.
Proof.
  intros He Ht Hd Hs. unfold DATA_MAX in Hd. assert (0 <= data_len c) by (unfold data_len; lia).
  assert (kmod_total (compiled_kmod entry path c) = text_image_size c + data_len c) as Et.
  { unfold kmod_total, compiled_kmod, u64. cbn [km_text_size km_data_size km_bss_size].
    rewrite (Z.mod_small (text_image_size c + data_len c)) by lia. rewrite Z.mod_small; lia. }
  assert (kmod_data_off (compiled_kmod entry path c) = 120 + text_image_size c) as Ed.
  { unfold kmod_data_off, compiled_kmod, u64. cbn [km_text_size km_header_size]. rewrite Z.mod_small; lia. }
  split; [done|]. split; [|done]. unfold kmod_layout_ok. rewrite Et, Ed. unfold compiled_kmod, OKMOD_MAX_SIZE, u64. cbn [km_text_size km_entry km_data_size].
  rewrite Z.mod_small by lia. rewrite (proj2 (Z.eqb_neq _ _)), (proj2 (Z.leb_gt _ _)), !(proj2 (Z.ltb_ge _ _)) by lia. done.
Qed.

(** ** In memory *)

(** The bytes of a module that was placed: text, data and zeros. *)
Lemma place_module_bytes mem_ file pages hdr m :
  mem_ok m -> 0 <= km_text_size hdr -> 0 <= km_data_size hdr -> 0 <= km_bss_size hdr -> kmod_data_off hdr = km_header_size hdr + km_text_size hdr ->
  km_text_size hdr + km_data_size hdr + km_bss_size hdr <= pages * OKMOD_PAGE_SIZE ->
  file + km_header_size hdr + km_text_size hdr + km_data_size hdr <= mem_ \/ mem_ + pages * OKMOD_PAGE_SIZE <= file + km_header_size hdr ->
  forall x, load8 (place_module mem_ file pages hdr m) x =
    if (mem_ <=? x) && (x <? mem_ + pages * OKMOD_PAGE_SIZE) then
      if x <? mem_ + km_text_size hdr + km_data_size hdr then load8 m (file + km_header_size hdr + (x - mem_)) else 0
    else load8 m x.
Proof.
  intros Hm Ht Hd Hb Ho Hs Hx x. unfold place_module. cbv zeta. rewrite Ho. set (P := pages * OKMOD_PAGE_SIZE) in *.
  set (m1 := mem_zero mem_ P m). assert (mem_ok m1) as H1 by (by apply mem_zero_ok).
  set (m2 := mem_copy mem_ _ _ m1). 
  assert (forall y, load8 m2 y = if (mem_ <=? y) && (y <? mem_ + km_text_size hdr) then load8 m1 (file + km_header_size hdr + (y - mem_)) else load8 m1 y) as E2.
  { intros y. unfold m2. destruct (decide (km_text_size hdr = 0)) as [Ez|Ez].
    - rewrite Ez. cbn. rewrite (proj2 (andb_false_iff _ _)); [done|]. destruct (Z.leb_spec mem_ y); [right; apply Z.ltb_ge; lia|by left].
    - apply load8_mem_copy; [done|lia]. }
  assert (mem_ok m2) as H2 by (intros y; rewrite E2; destruct (_ && _); apply H1).
  rewrite load8_mem_zero.
  assert (forall y, load8 (mem_copy (mem_ + km_text_size hdr) (file + (km_header_size hdr + km_text_size hdr)) (km_data_size hdr) m2) y =
    if (mem_ + km_text_size hdr <=? y) && (y <? mem_ + km_text_size hdr + km_data_size hdr)
    then load8 m2 (file + (km_header_size hdr + km_text_size hdr) + (y - (mem_ + km_text_size hdr))) else load8 m2 y) as E3.
  { intros y. destruct (decide (km_data_size hdr = 0)) as [Ez|Ez].
    - rewrite Ez. cbn. rewrite (proj2 (andb_false_iff _ _)); [done|]. destruct (Z.leb_spec (mem_ + km_text_size hdr) y); [right; apply Z.ltb_ge; lia|by left].
    - apply load8_mem_copy; [done|lia]. }
  rewrite E3, !E2. unfold m1. rewrite !load8_mem_zero. cmp_cases; f_equal; lia.
Qed.

(** ** Protection *)

Section Protect.
Context {S : Type} `{PageAllocatorOk S}.
Implicit Types (st : machine S) (R : Z -> Prop).

(** A range of whole pages that are present. *)
Lemma protect_range R r va n flags st :
  forest_wf (m_pages st) (m_mem st) R -> mem_ok (m_mem st) -> R r -> flags_ok flags -> va mod PAGE_SIZE = 0 ->
  vrange_ok va (Z.of_nat n * PAGE_SIZE) -> (forall w, va <= w < va + Z.of_nat n * PAGE_SIZE -> present (pte (m_mem st) r w) = true) ->
  exists st', vmm_protect r va (Z.of_nat n * PAGE_SIZE) flags st = Ok (0, st') /\ m_pages st' = m_pages st /\ mem_ok (m_mem st') /\
    updates R r (protect_fun (m_mem st) r (va / PAGE_SIZE) n flags) (m_pages st) (m_mem st) (m_pages st') (m_mem st').
Proof.
  intros Hf Hm Hr Hfl Hva Hrg Hp. destruct (range_loop va _ Hrg) as [Ha Hn]. unfold vmm_protect, protect_in_root. rewrite Ha.
  rewrite Ha in Hn. replace (va / PAGE_SIZE * PAGE_SIZE) with va in * by (unfold PAGE_SIZE in *; zlia).
  replace (page_loop _ _) with n by (unfold PAGE_SIZE in *; zlia). clear Ha Hn.
  destruct (protect_pages_spec n st R r va flags Hf Hm Hr Hfl Hva) as (k & st' & Hk & Ep & Ee & U & _ & Hstop); [apply Hrg|apply Hrg|].
  pose proof (protect_pages_ok n r va flags st (conj (fw_pages _ _ _ Hf) Hm)) as Hl. rewrite Ee in *. cbn [leaves] in Hl.
  destruct (Nat.eqb_spec k n) as [->|Hne]; [exists st'; split; [done|]; split; [done|]; split; [apply Hl|done]|].
  specialize (Hstop Hne). rewrite Hp in Hstop; [done|]. unfold PAGE_SIZE. lia.
Qed.

(** What such an update makes of the entries. *)
Lemma protected_entry R r va n flags st st' w :
  forest_wf (m_pages st) (m_mem st) R -> R r -> flags_ok flags -> va mod PAGE_SIZE = 0 -> 0 <= va -> canonical w ->
  updates R r (protect_fun (m_mem st) r (va / PAGE_SIZE) n flags) (m_pages st) (m_mem st) (m_pages st') (m_mem st') ->
  if (va <=? w) && (w <? va + Z.of_nat n * PAGE_SIZE)
  then vmm_flags r w st' = Ok (Z.lor flags VMM_PRESENT) /\ (present (pte (m_mem st) r w) = true -> vmm_virt_to_phys_in r w st' = vmm_virt_to_phys_in r w st)
  else pte (m_mem st') r w = pte (m_mem st) r w.
Proof.
  intros Hf Hr Hfl Hva Hva0 Hw U. pose proof (u_pte _ _ _ _ _ _ _ U w Hw) as E. rewrite protect_fun_page in E by done.
  destruct (_ && _); [|done]. pose proof (u_forest _ _ _ _ _ _ _ U) as Hf'.
  assert (pte (m_mem st) r (w / PAGE_SIZE * PAGE_SIZE) = pte (m_mem st) r w) as Ep by (apply pte_page; unfold canonical, PAGE_SIZE in *; zlia).
  rewrite Ep in E. split.
  - rewrite (flags_pte st' R) by done. by rewrite E, pte_value_present, flags_of_pte by (done || apply Hfl).
  - intros Hp. rewrite (virt_to_phys_pte st' R), (virt_to_phys_pte st R) by done. rewrite E. f_equal. unfold translate.
    by rewrite pte_value_present, pte_value_addr, Hp by (done || apply Hfl).
Qed.

(** The whole module: [n] pages of text, then [d] pages of data. *)
Lemma protect_module_spec {D} `{Ports D} R mem_ n d hdr (k : kernel (S:=S) (D:=D)) :
  let st := k_machine k in
  let root := k_kernel_pml4 k in
  forest_wf (m_pages st) (m_mem st) R -> mem_ok (m_mem st) -> R root -> km_text_size hdr = Z.of_nat n * PAGE_SIZE ->
  mem_ mod PAGE_SIZE = 0 -> 0 < mem_ -> mem_ + Z.of_nat (n + d) * PAGE_SIZE <= 281474976710656 ->
  (forall w, mem_ <= w < mem_ + Z.of_nat (n + d) * PAGE_SIZE -> vmm_virt_to_phys_in root w st = Ok w) ->
  exists st', protect_module mem_ (Z.of_nat (n + d)) hdr k = ret (0, with_machine st' k) /\
    m_pages st' = m_pages st /\ mem_ok (m_mem st') /\ forest_wf (m_pages st') (m_mem st') R /\
    (forall x, pa_live (m_pages st) (x / PAGE_SIZE) -> ~ in_table (m_mem st) R x -> load8 (m_mem st') x = load8 (m_mem st) x) /\
    (forall w, mem_ <= w < mem_ + Z.of_nat (n + d) * PAGE_SIZE -> vmm_virt_to_phys_in root w st' = Ok w /\
       vmm_flags root w st' = Ok (if w <? mem_ + km_text_size hdr then VMM_PRESENT else Z.lor VMM_PRESENT (Z.lor VMM_WRITE VMM_NX))).
Proof.
  intros st root Hf Hm Hr Ht Hal Hpos Hend Hid. set (T := Z.of_nat n * PAGE_SIZE) in *. set (E := Z.of_nat (n + d) * PAGE_SIZE) in *.
  assert (E = T + Z.of_nat d * PAGE_SIZE) as EE by (unfold E, T, PAGE_SIZE; lia).
  assert (0 <= T) as HT by (unfold T, PAGE_SIZE; lia). assert (0 <= Z.of_nat d * PAGE_SIZE) as HD by (unfold PAGE_SIZE; lia).
  assert (forall w, mem_ <= w < mem_ + E -> present (pte (m_mem st) root w) = true /\ canonical w) as Hpres.
  { intros w Hw. split; [|unfold canonical; lia]. specialize (Hid w Hw). rewrite (virt_to_phys_pte st R) in Hid by done. unfold translate in Hid.
    destruct (present _); [done|]. injection Hid as Hid. lia. }
  assert (flags_ok VMM_PRESENT) as F1 by (split; [split; [discriminate|reflexivity]|reflexivity]).
  assert (flags_ok (Z.lor VMM_PRESENT (Z.lor VMM_WRITE VMM_NX))) as F2 by (split; [split; [discriminate|reflexivity]|reflexivity]).
  destruct (protect_range R root mem_ n VMM_PRESENT st Hf Hm Hr F1 Hal) as (st1 & E1 & Ep1 & Hm1 & U1);
    [unfold vrange_ok; fold T; lia|intros w Hw; fold T in Hw; apply Hpres; lia|]. fold T in E1.
  pose proof (u_forest _ _ _ _ _ _ _ U1) as Hf1.
  assert (forall w, mem_ <= w < mem_ + E -> (w < mem_ + T -> vmm_flags root w st1 = Ok VMM_PRESENT) /\ vmm_virt_to_phys_in root w st1 = Ok w) as HA.
  { intros w Hw. destruct (Hpres w Hw) as [Hpw Hcw].
    pose proof (protected_entry R root mem_ n VMM_PRESENT st st1 w Hf Hr F1 Hal ltac:(lia) Hcw U1) as Hent. fold T in Hent.
    destruct (Z.leb_spec mem_ w); [|lia]. cbn [andb] in Hent. destruct (Z.ltb_spec w (mem_ + T)).
    - destruct Hent as [Hfl Hv]. split; [done|]. rewrite Hv by done. by apply Hid.
    - split; [lia|]. rewrite (virt_to_phys_pte st1 R), Hent, <- (virt_to_phys_pte st R) by done. by apply Hid. }
  unfold protect_module. fold root st. rewrite Ht, E1. rewrite (proj2 (Z.ltb_ge 0 0)) by lia. unfold OKMOD_PAGE_SIZE. fold PAGE_SIZE. fold E.
  destruct (Z.ltb_spec T E) as [Hlt|Hge].
  2: { exists st1. split; [done|]. split; [done|]. split; [done|]. split; [done|]. split; [apply U1|].
       intros w Hw. destruct (HA w Hw) as [H1a H1b]. split; [done|]. rewrite (proj2 (Z.ltb_lt _ _)) by lia. apply H1a. lia. }
  replace (E - T) with (Z.of_nat d * PAGE_SIZE) by lia.
  assert (forall w, mem_ <= w < mem_ + E -> present (pte (m_mem st1) root w) = true) as Hpres1.
  { intros w Hw. destruct (HA w Hw) as [_ Hv]. rewrite (virt_to_phys_pte st1 R) in Hv by done. unfold translate in Hv.
    destruct (present _); [done|]. injection Hv as Hv. lia. }
  destruct (protect_range R root (mem_ + T) d (Z.lor VMM_PRESENT (Z.lor VMM_WRITE VMM_NX)) st1 Hf1 Hm1 Hr F2) as (st2 & E2 & Ep2 & Hm2 & U2);
    [unfold T, PAGE_SIZE in *; zlia|unfold vrange_ok; lia|intros w Hw; apply Hpres1; lia|].
  pose proof (u_forest _ _ _ _ _ _ _ U2) as Hf2.
  exists st2. rewrite E2. split; [done|]. split; [congruence|]. split; [done|]. split; [done|].
  split; [apply (u_frame _ _ _ _ _ _ _ (updates_trans _ _ _ _ _ _ _ _ _ _ U1 U2))|].
  intros w Hw. destruct (HA w Hw) as [H1a H1b]. destruct (Hpres w Hw) as [_ Hcw].
  pose proof (protected_entry R root (mem_ + T) d _ st1 st2 w Hf1 Hr F2 ltac:(unfold T, PAGE_SIZE in *; zlia) ltac:(lia) Hcw U2) as Hent.
  rewrite <- Z.add_assoc, <- EE in Hent. destruct (Z.ltb_spec w (mem_ + T)) as [Hlo|Hhi].
  - rewrite (proj2 (Z.leb_gt _ _)) in Hent by lia. cbn [andb] in Hent.
    rewrite (virt_to_phys_pte st2 R), (flags_pte st2 R), Hent, <- (virt_to_phys_pte st1 R), <- (flags_pte st1 R) by done. auto.
  - rewrite (proj2 (Z.leb_le _ _)), (proj2 (Z.ltb_lt _ _)) in Hent by lia. cbn [andb] in Hent. destruct Hent as [Hfl Hv].
    split; [rewrite Hv by auto; done|]. by rewrite Hfl.
Qed.
End Protect.

(** ** Loading *)

Lemma find_named_lookup {A} (key : A -> list Z) name l i j x :
  find_named key name l i = Some (j, x) -> i <= j /\ l !! Z.to_nat (j - i) = Some x.
Proof.
  revert i. induction l as [|y l IH]; intros i; cbn [find_named]; [discriminate|]. destruct (str_eq _ _).
  - intros [= <- <-]. by rewrite Z.sub_diag.
  - intros [Hij Hx]%IH. split; [lia|]. by replace (Z.to_nat (j - i)) with (Datatypes.S (Z.to_nat (j - (i + 1)))) by lia.
Qed.

(** A function that has code starts in the text. *)
Lemma placed_addr c name i f :
  placed (length (funcs c)) c -> find_func (funcs c) name = Some (i, f) -> fn_extern f = false ->
  func_addr c i = fn_addr f /\ 0 <= fn_addr f < text_len c.
Proof.
  intros Hp [Hi Hf]%find_named_lookup Hx. rewrite Z.sub_0_r in Hf. unfold func_addr. rewrite Hf. split; [done|].
  apply (Hp (Z.to_nat i) f); [by apply lookup_lt_Some in Hf|done..].
Qed.

Lemma command_addr_word c : placed (length (funcs c)) c -> text_len c <= TEXT_MAX -> word64 (command_addr c).
Proof.
  intros Hp Ht. unfold command_addr, word64, TEXT_MAX in *. destruct (find_func _ _) as [[i f]|] eqn:E; [|lia].
  destruct (fn_extern f) eqn:Ex; [lia|]. destruct (placed_addr c _ i f Hp E Ex). lia.
Qed.

Section Load.
Context {S : Type} `{PageAllocatorOk S} {D : Type} `{Ports D}.
Context (run_init : Z -> kernel (S:=S) (D:=D) -> Z * kernel (S:=S) (D:=D)).
Implicit Types (k : kernel (S:=S) (D:=D)) (R : Z -> Prop).

(** Pages of the module. *)
Definition module_pages (c : cstate) : Z := (text_image_size c + data_len c + 4095) / PAGE_SIZE.

(** The module of the compiler state [c] with the text [t] is in the kernel's memory at
    [mem_]: text that can be executed and not written, data that can be written and not
    executed; other memory in use is as in [k]. *)
Record module_ready R (c : cstate) (t : list Z) (mem_ : Z) k k' : Prop := {
  md_text : in_memory (k_mem k') mem_ t;
  md_data : in_memory (k_mem k') (mem_ + text_image_size c) (data c);
  md_fresh : forall q, mem_ / PAGE_SIZE <= q < mem_ / PAGE_SIZE + module_pages c -> ~ pa_live (m_pages (k_machine k)) q;
  md_flags : forall w, mem_ <= w < mem_ + module_pages c * PAGE_SIZE ->
    vmm_virt_to_phys_in (k_kernel_pml4 k) w (k_machine k') = Ok w /\
    vmm_flags (k_kernel_pml4 k) w (k_machine k') =
      Ok (if w <? mem_ + text_image_size c then VMM_PRESENT else Z.lor VMM_PRESENT (Z.lor VMM_WRITE VMM_NX));
  md_forest : forest_wf (m_pages (k_machine k')) (m_mem (k_machine k')) R;
  md_frame : forall x, pa_live (m_pages (k_machine k)) (x / PAGE_SIZE) -> ~ in_table (k_mem k) R x -> load8 (k_mem k') x = load8 (k_mem k) x;
}.

(** The memory of the kernel before a module is loaded; [Entry] establishes it. *)
Record kernel_space R k : Prop := {
  ks_forest : forest_wf (m_pages (k_machine k)) (k_mem k) R;
  ks_mem : mem_ok (k_mem k);
  ks_root : R (k_kernel_pml4 k);
  ks_top : pa_top (m_pages (k_machine k)) * PAGE_SIZE <= 281474976710656;
  ks_identity : forall w, 0 <= w < pa_top (m_pages (k_machine k)) * PAGE_SIZE ->
    vmm_virt_to_phys_in (k_kernel_pml4 k) w (k_machine k) = Ok w;
}.

(** Placing a module in fresh pages changes no table. *)
Lemma place_keeps_tables R k mem_ n s m m' :
  kernel_space R k -> alloc_post n mem_ (m_pages (k_machine k)) s (k_mem k) m -> 0 <= n ->
  (forall x, ~ (mem_ <= x < mem_ + n * PAGE_SIZE) -> load8 m' x = load8 (k_mem k) x) ->
  forest_wf s m' R /\ (forall t, is_table m' R t <-> is_table (k_mem k) R t) /\ (forall r w, R r -> pte m' r w = pte (k_mem k) r w).
Proof.
  intros Hk Hp Hn Hx. destruct (forest_data _ _ m' R (ks_forest _ _ Hk)) as (Hf & Ht & Hpte).
  { intros x (t & (r & p & Hr & Hpo & Hw) & Hxt). apply Hx. intros Hin.
    destruct (fw_table _ _ _ (ks_forest _ _ Hk) r p t Hr Hpo Hw) as [T1 T2 T3 Tl].
    apply (ap_fresh _ _ _ _ _ _ Hp (t / PAGE_SIZE)); [|done]. pose proof (ap_aligned _ _ _ _ _ _ Hp). unfold PAGE_SIZE in *. zlia. }
  split; [|done]. apply (forest_mono _ _ _ _ Hf); [apply Hp|]. intros q Hq. apply (ap_live _ _ _ _ _ _ Hp). by left.
Qed.

(** Memory in use is away from fresh pages. *)
Lemma live_away n p (s s' : S) m m' a len :
  alloc_post n p s s' m m' -> 0 <= a -> 0 < len -> 0 < n -> (forall off, 0 <= off < len -> pa_live s ((a + off) / PAGE_SIZE)) ->
  a + len <= p \/ p + n * PAGE_SIZE <= a.
Proof.
  intros Hp Ha Hl Hn Hlive. pose proof (ap_aligned _ _ _ _ _ _ Hp) as Hal. pose proof (ap_low _ _ _ _ _ _ Hp).
  destruct (decide (a + len <= p)) as [|H1']; [by left|]. destruct (decide (p + n * PAGE_SIZE <= a)) as [|H2']; [by right|]. exfalso.
  destruct (decide (a <= p)) as [Hc|Hc].
  - apply (ap_fresh _ _ _ _ _ _ Hp (p / PAGE_SIZE)); [lia|]. replace p with (a + (p - a)) at 1 by lia. apply Hlive. lia.
  - apply (ap_fresh _ _ _ _ _ _ Hp (a / PAGE_SIZE)); [unfold PAGE_SIZE in *; zlia|]. rewrite <- (Z.add_0_r a). apply Hlive. lia.
Qed.

(** The part of the loader that follows the checks. *)
Lemma module_placed R k file i path c t img mem_ s m :
  let hdr := compiled_kmod i path c in
  kernel_space R k -> text_image_size c mod 4096 = 0 -> 0 <= text_len c <= text_image_size c -> 0 < text_image_size c <= 36864 -> data_len c <= DATA_MAX ->
  Z.of_nat (length t) = text_len c -> kmod_data_off hdr = 120 + text_image_size c ->
  img = kmod_header (func_addr c i) (text_image_size c) (data_len c) (command_addr c) (copy_kmod_name path) ++ t ++
        repeat 0 (Z.to_nat (text_image_size c - text_len c)) ++ data c ->
  0 <= file -> (forall off, 0 <= off < Z.of_nat (length img) -> pa_live (m_pages (k_machine k)) ((file + off) / PAGE_SIZE)) ->
  in_memory (k_mem k) file img -> alloc_post (module_pages c) mem_ (m_pages (k_machine k)) s (k_mem k) m ->
  exists st', protect_module mem_ (module_pages c) hdr (with_machine (mk_machine s (place_module mem_ file (module_pages c) hdr m)) k) =
      ret (0, with_machine st' k) /\ module_ready R c t mem_ k (with_machine st' k).
Proof.
  intros hdr Hk Hmod Htl Hsz Hd Ht Hoff Eimg Hfile Hlive Hmem Hp. unfold DATA_MAX in Hd. assert (0 <= data_len c) as Hd0 by (unfold data_len; lia).
  set (P := module_pages c) in *. assert (text_image_size c + data_len c <= P * PAGE_SIZE /\ 0 <= P) as [HP HP0] by (unfold P, module_pages, PAGE_SIZE; zlia).
  assert (Z.of_nat (length img) = 120 + text_image_size c + data_len c) as El.
  { rewrite Eimg, !length_app, kmod_header_length, repeat_length. unfold data_len. lia. }
  pose proof (ap_aligned _ _ _ _ _ _ Hp) as Hal. pose proof (ap_low _ _ _ _ _ _ Hp) as Hlow. pose proof (ap_high _ _ _ _ _ _ Hp) as Hhigh.
  pose proof (ks_top _ _ Hk) as Htop.
  pose proof (live_away P mem_ _ _ _ _ file (Z.of_nat (length img)) Hp Hfile ltac:(lia) ltac:(unfold PAGE_SIZE in *; lia) Hlive) as Hdis.
  set (m' := place_module mem_ file P hdr m).
  assert (forall x, load8 m' x = if (mem_ <=? x) && (x <? mem_ + P * PAGE_SIZE) then
      if x <? mem_ + text_image_size c + data_len c then load8 (k_mem k) (file + 120 + (x - mem_)) else 0 else load8 (k_mem k) x) as Hm'.
  { intros x. unfold m'. rewrite place_module_bytes; cbn [hdr compiled_kmod km_text_size km_data_size km_bss_size km_header_size];
      rewrite ?(ap_zeroed _ _ _ _ _ _ Hp); unfold OKMOD_PAGE_SIZE; fold PAGE_SIZE; [|apply mem_zero_ok, Hk|lia..|exact Hoff|lia|lia].
    rewrite !load8_mem_zero. cmp_cases. }
  assert (mem_ok m') as Hok' by (intros x; rewrite Hm'; pose proof (ks_mem _ _ Hk) as Hko; repeat case_test; [apply Hko|unfold byte_ok; lia|apply Hko]).
  destruct (place_keeps_tables R k mem_ P s m m' Hk Hp HP0) as (Hf' & Ht' & Hpte').
  { intros x Hx. rewrite Hm'. cmp_cases. }
  set (k1 := with_machine (mk_machine s m') k).
  set (n := Z.to_nat (text_image_size c / PAGE_SIZE)). set (d := Z.to_nat (P - text_image_size c / PAGE_SIZE)).
  assert (text_image_size c = Z.of_nat n * PAGE_SIZE /\ P = Z.of_nat (n + d)) as [En EP].
  { unfold n, d, P, module_pages, PAGE_SIZE. zlia. }
  destruct (protect_module_spec R mem_ n d hdr k1) as (st' & E & Ep & Hok2 & Hf2 & Hfr & Hfl); cbn [k1 k_machine k_kernel_pml4 with_machine m_pages m_mem].
  - done.
  - done.
  - apply Hk.
  - exact En.
  - done.
  - lia.
  - rewrite <- EP. lia.
  - intros w Hw. rewrite <- EP in Hw. rewrite (virt_to_phys_pte (mk_machine s m') R) by (done || apply Hk). cbn [m_mem]. rewrite Hpte' by apply Hk.
    rewrite <- (virt_to_phys_pte (k_machine k) R) by apply Hk. apply (ks_identity _ _ Hk). lia.
  - rewrite <- EP in E, Hfl. cbn [k1 k_machine k_kernel_pml4 with_machine m_pages m_mem] in Ep, Hfr, Hfl.
    change (with_machine st' k1) with (with_machine st' k) in E. exists st'. split; [exact E|].
    assert (forall x, mem_ <= x < mem_ + P * PAGE_SIZE -> load8 (m_mem st') x = load8 m' x) as Hin.
    { intros x Hx. apply Hfr.
      - apply (ap_live _ _ _ _ _ _ Hp). right. unfold PAGE_SIZE in *. zlia.
      - intros (tb & Htb & Hxt). apply Ht' in Htb as (r & p & Hr & Hpo & Hw). destruct (fw_table _ _ _ (ks_forest _ _ Hk) r p tb Hr Hpo Hw) as [T1 T2 T3 Tl].
        apply (ap_fresh _ _ _ _ _ _ Hp (tb / PAGE_SIZE)); [unfold PAGE_SIZE in *; zlia|done]. }
    assert (forall off b, 0 <= off < text_image_size c + data_len c -> load8 (k_mem k) (file + 120 + off) = b -> load8 (m_mem st') (mem_ + off) = b) as Hb.
    { intros off b Ho <-. rewrite Hin by lia. rewrite Hm'. rewrite (proj2 (andb_true_iff _ _)) by (split; [apply Z.leb_le|apply Z.ltb_lt]; lia).
      rewrite (proj2 (Z.ltb_lt _ _)) by lia. f_equal. lia. }
    pose proof Hmem as Hmem'. rewrite Eimg in Hmem'. apply in_memory_app in Hmem' as [_ Hb1]. rewrite kmod_header_length in Hb1.
    apply in_memory_app in Hb1 as [Hb1 Hb2]. apply in_memory_app in Hb2 as [_ Hb2]. rewrite repeat_length in Hb2.
    split; cbn [k_mem k_machine with_machine].
    + intros j b Hj. pose proof (lookup_lt_Some _ _ _ Hj). apply Hb; [lia|]. rewrite <- (Hb1 _ _ Hj). f_equal.
    + intros j b Hj. pose proof (lookup_lt_Some _ _ _ Hj). rewrite <- Z.add_assoc. apply Hb; [unfold data_len; lia|]. rewrite <- (Hb2 _ _ Hj). f_equal. lia.
    + apply (ap_fresh _ _ _ _ _ _ Hp).
    + exact Hfl.
    + exact Hf2.
    + intros x Hx Hnt. rewrite Hfr; [|apply (ap_live _ _ _ _ _ _ Hp); by left|intros (tb & Htb & Hxt); apply Hnt; exists tb; split; [by apply Ht'|done]].
      rewrite Hm'. rewrite (proj2 (andb_false_iff _ _)); [done|]. destruct (Z.leb_spec mem_ x); [right|by left]. apply Z.ltb_ge.
      destruct (decide (x < mem_ + P * PAGE_SIZE)); [|lia]. exfalso. apply (ap_fresh _ _ _ _ _ _ Hp (x / PAGE_SIZE)); [unfold PAGE_SIZE in *; zlia|done].
Qed.

(** The entry of the table that the loader fills for the path [kpath]. *)
Definition module_entry (path kpath : list Z) : OreModuleInfo :=
  mk_module (if bool_decide (kmod_name path = []) then module_name_from_path kpath else kmod_name path)
    (copy_str_okmod kpath 128) 2 ORE_KERNEL_ABI_VERSION 0 0 0 0 false.

Lemma entry_name path kpath : Forall (fun c => c <> 0) path ->
  (if negb (char_at (kmod_name path) 0 =? 0) then copy_str_okmod (kmod_name path) 32 else module_name_from_path kpath) =
  (if bool_decide (kmod_name path = []) then module_name_from_path kpath else kmod_name path).
Proof.
  intros Hp. destruct (kmod_name_nonzero path Hp) as [Hn Hl]. unfold copy_str_okmod. destruct (kmod_name path) as [|b name]; [done|].
  rewrite bool_decide_eq_false_2 by done. cbn [char_at nth Z.to_nat]. apply Forall_inv in Hn as Hb.
  rewrite (proj2 (Z.eqb_neq _ _)) by exact Hb. cbn [negb]. apply take_ge. cbn [Nat.sub]. lia.
Qed.

End Load.

(** ** Example: a module with a call and a string, on the 1.25 MiB machine *)

Definition demo_module_source : list Z :=
  bytes_of "fn twice(n: int) -> int { return n + n; } fn module_init(api: ptr<char>) -> int { unsafe { let p: ptr<char> = "%string ++ [DQUOTE] ++
  bytes_of "hi"%string ++ [DQUOTE] ++ bytes_of "; return twice(*p); } }"%string.
Definition demo_module_path : list Z := bytes_of "modules/demo.ore"%string.

Definition demo_module : cstate :=
  Eval vm_compute in
  match compile_source (source_fuel demo_module_source) true demo_module_source with
  | Done c => c
  | _ => mk_cs [] [] [] 0 [] [] [] 0 false [] [] false
  end.
Definition demo_module_img : list Z := Eval vm_compute in match host_kmod demo_module_path demo_module with Done img => img | _ => [] end.

Lemma demo_module_compiles : compile_source (source_fuel demo_module_source) true demo_module_source = Done demo_module.
Proof. vm_compute. reflexivity. Qed.
Lemma demo_module_built : host_kmod demo_module_path demo_module = Done demo_module_img.
Proof. vm_compute. reflexivity. Qed.
Example demo_module_references : length (calls demo_module) = 1%nat /\ length (data_refs demo_module) = 1%nat /\ length (data demo_module) = 3%nat.
Proof. vm_compute. split; [reflexivity|split; reflexivity]. Qed.

(** The file is in memory at 1 MiB when the page tables are built. *)
Definition demo_file_at : Z := 0x100000.
Definition demo_image_st : machine pmm_state := mk_machine demo_pmm (store_bytes ∅ demo_file_at demo_module_img).
Definition demo_init : Z * machine pmm_state :=
  match vmm_init demo_boot 0xfee00000 demo_image_st with Ok r => r | Panic _ => (0, demo_image_st) end.

Lemma mem_ok_compute (m : mem) : forallb (fun p => (0 <=? snd p) && (snd p <? 256)) (map_to_list m) = true -> mem_ok m.
Proof.
  intros Hm x. unfold load8, byte_ok. destruct (m !! x) as [b|] eqn:E; cbn; [|lia]. rewrite forallb_forall in Hm.
  apply elem_of_map_to_list, list_elem_of_In in E. specialize (Hm _ E). cbn in Hm. lia.
Qed.

#[local] Opaque vmm_init demo_pmm.
Lemma demo_init_eq : vmm_init demo_boot 0xfee00000 demo_image_st = Ok demo_init.
Proof.
  unfold demo_init. assert (is_ok (vmm_init demo_boot 0xfee00000 demo_image_st) = true) as E by (vm_compute; reflexivity).
  revert E. generalize (vmm_init demo_boot 0xfee00000 demo_image_st). intros [r|msg] E; [done|discriminate E].
Qed.

Lemma demo_init_mem : mem_ok (m_mem demo_init.2).
Proof. apply mem_ok_compute. vm_compute. reflexivity. Qed.

Lemma demo_image_top : pa_top (m_pages demo_image_st) = 320.
Proof. vm_compute. reflexivity. Qed.

Lemma demo_init_booting : booting demo_image_st demo_init.1 (320 * PAGE_SIZE) demo_init.2.
Proof.
  pose proof (vmm_init_spec demo_boot 0xfee00000 demo_image_st) as Hv. rewrite demo_image_top, demo_init_eq in Hv.
  destruct demo_init as [root st]. apply Hv; [exact demo_pmm_wf|lia|exact vmm_demo_fb|unfold vrange_ok, PAGE_SIZE; lia].
Qed.

Definition demo_module_kernel : kernel (S:=pmm_state) (D:=demo_dev) :=
  mk_kernel (mk_control (mk_table {[0 := zero_process]} 1 None) demo_init.1 0 0 0 None)
    demo_init.2 0 demo_vfs demo_empty_fs demo_blocks ((0, O) : demo_dev) demo_init.1 2 0.

Lemma demo_module_space : kernel_space (eq demo_init.1) demo_module_kernel.
Proof.
  destruct demo_init_booting as [B Hid]. assert (pa_top (m_pages demo_init.2) = 320) as Et by (rewrite (bu_top _ _ _ B); exact demo_image_top).
  split; unfold k_mem; cbn [demo_module_kernel k_machine k_kernel_pml4].
  - apply B.
  - exact demo_init_mem.
  - exact eq_refl.
  - rewrite Et. unfold PAGE_SIZE. lia.
  - rewrite Et. intros w Hw. apply (identity_translate demo_init.2 demo_init.1 (320 * PAGE_SIZE)); [apply B|done|done|unfold PAGE_SIZE; lia].
Qed.

Lemma demo_module_live off : 0 <= off < Z.of_nat (length demo_module_img) -> pa_live (m_pages demo_image_st) ((demo_file_at + off) / PAGE_SIZE).
Proof.
  intros Ho. assert (Z.of_nat (length demo_module_img) = 4219) as El by (vm_compute; reflexivity). rewrite El in Ho.
  assert ((demo_file_at + off) / PAGE_SIZE = 256 \/ (demo_file_at + off) / PAGE_SIZE = 257) as [-> | ->] by (unfold demo_file_at, PAGE_SIZE; zlia).
  all: split; [split; [discriminate|vm_compute; reflexivity]|vm_compute; reflexivity].
Qed.

Lemma demo_module_bytes : forallb (fun b => (0 <=? b) && (b <? 256)) demo_module_img = true.
Proof. vm_compute. reflexivity. Qed.

Lemma demo_module_memory : in_memory (m_mem demo_init.2) demo_file_at demo_module_img.
Proof.
  intros i b Hi. pose proof (lookup_lt_Some _ _ _ Hi). destruct demo_init_booting as [B _]. rewrite (bu_frame _ _ _ B).
  - by apply (store_bytes_in_memory ∅ demo_file_at demo_module_img demo_module_bytes).
  - apply demo_module_live. lia.
Qed.

(** There is room for it. *)
Lemma demo_module_room : match pa_alloc_pages (module_pages demo_module) (m_pages demo_init.2) (m_mem demo_init.2) with (p, _, _) => negb (p =? 0) end = true.
Proof. vm_compute. reflexivity. Qed.

Definition demo_modules : okmod_state := mk_okmod 0 (replicate OKMOD_MAX_MODULES zero_module) (replicate OKMOD_MAX_MODULES 0).
Definition demo_run (_ : Z) (k : kernel (S:=pmm_state) (D:=demo_dev)) : Z * kernel (S:=pmm_state) (D:=demo_dev) := (0, k).

